(* ===== verification/_CoqProject ===== *)
-Q . S2P
Prelude.v
FixedPoint.v
HealthType.v
TokenPosition.v
OrderTypes.v
Nodes.v
Oracle.v
OrderTree.v
OrderTreeSpec.v
OrderTreeArena.v
OrderTreeInsert.v
OrderTreeRemove.v
OrderTreeIter.v
EventQueue.v
BookSide.v
BookSideSpec.v
BookSideIterate.v
BookSideQueries.v
BookSideEvict.v
Orders.v
StablePrice.v
Bank.v
BankSpec.v
BankInterest.v
Group.v
Serum3.v
ConditionalSwap.v
PerpMarket.v
PerpPosition.v
PerpPositionSpec.v
MangoAccount.v
HealthCache.v
HealthSpec.v
HealthLimits.v
AccountRetriever.v
RetrieverSpec.v
TokenInstructions.v
TokenInstructionsSpec.v
TokenLiquidation.v
Book.v
PerpInstructions.v
TokenLiquidationSpec.v
HealthRegion.v
BankInstructions.v
TokenBankruptcy.v
TokenBankruptcySpec.v
MangoAccountSpec.v
BookMatch.v
BookApply.v
BookPlace.v
BookCancel.v
PerpSettle.v
PerpInstructionsSpec.v
PerpLiquidation.v
PerpBankruptcy.v
PerpLiquidationSpec.v
PerpBankruptcySpec.v
SwapInstructions.v
SwapSpec.v
FlashLoan.v
FlashLoanSpec.v
ForceInstructions.v
SerumOrders.v
SerumInstructions.v
SerumSpec.v
HoldSpec.v
AccountLayout.v
AccountLayoutSpec.v
AccountInstructions.v
AccountInstructionsSpec.v
TokenAdmin.v
PerpAdmin.v
GroupAdmin.v
AdminSpec.v
HealthClient.v
ClientContext.v
ClientSupport.v
ServiceFeeds.v
Equity.v
HealthClientSpec.v
