(* ===== verification/Prelude.v ===== *)
(** * Verification of Mango v4 (deriverse-dex)

    The program (src/programs/mango-v4) is a Solana program for margin trading. A group has
    banks, in which accounts deposit and borrow tokens, and markets: perp markets with an
    order book of its own, and spot markets of a third-party program. The health of an
    account weighs its deposits, borrows, perp positions and open orders; instructions may
    not leave it too low, and accounts whose health is too low are liquidated. Clients and
    services outside of the chain compute amounts, derive the accounts to pass, and publish
    what happens. This library models the program from the node array of the order trees and
    the bytes of accounts up to the instructions, and those parts of the clients that compute,
    and proves that each layer does what the next one relies on.

    ** Parts, files and sources (paths below src/programs/mango-v4/src unless given in full)

    Foundations.
    - [Prelude]: machine integers as [Z] with range checks (the program is compiled with
      overflow checks, so leaving a range panics), the error type (error.rs), the monad
      [outcome] (value, error, panic, out of fuel) and the tactics for it.
    - [FixedPoint]: the third-party type I80F48 as a class of operations [FixedOps] with
      its documented laws [FixedLaws] and a concrete instance [fixed_ref]; floats as IEEE
      754 [spec_float]; clamping and low-precision division (i80f48.rs).
    - [HealthType]: the interface [HealthSource] by which accounts ask for their health.

    The order book (state/orderbook).
    - [OrderTypes], [Nodes]: order type enums, node keys and node records.
    - [OrderTree]: the critical-bit tree in its node array with free list. [OrderTreeSpec]:
      the mathematical tree and the map of orders it stands for; [OrderTreeArena]: the
      layout of trees in the array and the allocator; [OrderTreeInsert], [OrderTreeRemove]:
      insertion and removal refine the operations on maps; [OrderTreeIter]: iteration, worst
      and expired orders.
    - [EventQueue]: fill and out events and the ring buffer, which refines a bounded
      first-in-first-out list.
    - [BookSide]: one side with a tree of fixed and a tree of oracle-pegged orders.
      [BookSideSpec]: a side stands for two maps; [BookSideIterate]: merged iteration in
      price-time priority; [BookSideQueries]: best price, quantities and costs;
      [BookSideEvict]: evicting the worst order and changing an order in place.
    - [Orders]: the order request and its price, and the two sides of a market.
    - [Book]: matching, posting and cancelling. [BookMatch]: the matching loop as a trace of
      actions; [BookApply]: applying the trace to the book; [BookPlace]: [new_order];
      [BookCancel]: cancelling.

    State of groups, tokens and markets (state).
    - [Group], [Bank] with [BankSpec] (deposits and withdrawals) and [BankInterest],
      [StablePrice], [Oracle] (oracle.rs, amm_cpi.rs; decoded third-party accounts are
      data), [Serum3] (spot markets and open orders), [ConditionalSwap], [PerpMarket].

    Accounts.
    - [TokenPosition], [PerpPosition] (mango_account_components.rs) with
      [PerpPositionSpec]; [MangoAccount] (mango_account.rs) with [MangoAccountSpec] (open
      orders, execution of events, the liquidation flag) and [HoldSpec] (tokens in use).
    - [AccountLayout], [AccountLayoutSpec]: the header and the five arrays of an account as
      bytes, and resizing within one buffer.

    Health (health).
    - [HealthCache] (cache.rs) with [HealthSpec] and [HealthLimits]; [AccountRetriever]
      (account_retriever.rs) with [RetrieverSpec]; [HealthClient] (client.rs), the amounts
      that clients compute from the cache, with [HealthClientSpec]; [Equity] (equity.rs),
      with the instructions compute_account_data and airdrop.

    Instructions (instructions, accounts_ix, lib.rs), each with its account constraints.
    - [TokenInstructions], [BankInstructions] (interest and collateral fees),
      [TokenLiquidation], [TokenBankruptcy], [ForceInstructions], with
      [TokenInstructionsSpec], [TokenLiquidationSpec] and [TokenBankruptcySpec].
    - [PerpInstructions] (placing, cancelling, consuming events, funding, closing),
      [PerpSettle], [PerpLiquidation], [PerpBankruptcy], with [PerpInstructionsSpec],
      [PerpLiquidationSpec] and [PerpBankruptcySpec] (also the open interest).
    - [SwapInstructions] with [SwapSpec]: token conditional swaps.
    - [FlashLoan] with [FlashLoanSpec], and [HealthRegion]: instructions that inspect the
      transaction they are in.
    - [SerumOrders], [SerumInstructions] (also serum3_cpi.rs) with [SerumSpec]: spot markets;
      the market program is a class of operations with laws.
    - [AccountInstructions] with [AccountInstructionsSpec]: creating, resizing, migrating,
      editing, freezing and closing accounts.
    - [TokenAdmin], [PerpAdmin], [GroupAdmin] with [AdminSpec]: what administrators do.

    Outside of the chain.
    - [ClientContext] (src/lib/client/src/context.rs): the accounts that a client passes for
      a health computation.
    - [ClientSupport]: error tracking (src/lib/client/src/error_tracking.rs) and the retry
      counter (src/lib/services-mango-lib/src/retry_counter.rs).
    - [ServiceFeeds]: the messages of the orderbook and fills services
      (src/bin/service-mango-orderbook, src/bin/service-mango-fills,
      src/lib/mango-feeds-lib/src/lib.rs).

    The state of each part is a record with the fields of the Rust struct that its
    operations read or write (padding, reserved bytes and most names are left out). A
    function that updates a struct in place takes the record and returns the new one; a
    function that returns [Result] gives [Fail]; where a caller continues after an error the
    result is a value and the state is returned with it. An instruction takes the accounts
    that it is passed and returns their new contents; where the same account is passed
    twice, or a bank is both a named and a remaining account, the copies are synchronised.
    The clock, signatures and the surrounding transaction are arguments.

    ** What the theorems show

    - Order trees and book sides: for every reachable node array, inserting, removing and
      dropping an expired order are exactly the operations on the finite map of orders, on
      every path, without panics; iteration terminates and merges fixed and pegged orders in
      price-time priority, as long as no pegged order is priced before the representable
      range ([no_skipped_orders]; [skipping_loses_orders] shows what happens otherwise);
      queries equal declarative sums.
    - Event queue: any sequence of operations answers like a bounded FIFO.
    - Matching: the loop is a trace of greedy fills in priority order within the budgets,
      the limit price and the fill limit; the events account exactly for the lots; what
      is posted does not cross the book (with an exception for asks that have a quote
      budget, which [budget_ask_crosses] shows to be real); both under the same condition
      on pegged orders.
    - Accounts and markets: executing events conserves base lots; over all sequences of the
      instructions on a market, whose accounts are those passed to them among all accounts,
      the positions balance and match the open interest ([PerpBankruptcySpec.OpenInterest];
      closing an account with active positions, which groups for testing allow, is not among
      the steps); tokens that are in use
      keep their position; resizing the bytes of an account keeps every slot in use, and the
      size migration always succeeds.
    - Banks: deposits and withdrawals move what they say up to one indexed unit; interest
      charges borrowers what depositors and the bank earn.
    - Health: assets and liabilities differ by the health, up to one unit per token; both
      retrievers answer alike on accounts in the documented order without fallback oracles.
    - Instructions: those that can lower the health of an account check it, for the account
      as it is after the change, with the grace of the code below -1000 ([health_kept]);
      liquidations only touch accounts that may be liquidated, move the
      computed amounts, keep the flag exactly while the health is low, and leave the liqor
      healthy; losses reach depositors and other positions only after the insurance fund
      (of the depositors only those in the first banks, [socialized_loss_out_of_step]);
      flash loans and health regions are closed in the same transaction; settlements
      conserve; the security admin can only tighten, and what is newly listed or created is
      well-formed.
    - Clients and services: the searches for amounts end with an amount that keeps the
      health at its target, unless they return zero or the largest number; the derived
      accounts are those that the program accepts; who applies the published updates has the
      current book levels and, while the heads are not zero, the latest fills.
    Where the code does not do what it means to, a theorem states what it does; their names
    are given with the findings.

    ** Interfaces

    Code that is not part of the repository is a parameter with documented laws and an
    instance that satisfies them: [FixedOps] and [FixedLaws] (I80F48), [TokenProgram] and
    [TokenLaws] (token transfers), [SerumProgram] and [SerumLaws] (spot markets),
    [SystemProgram] and [SystemLaws] (lamports, rent and reallocation), and the
    discriminators that the framework generates. [HealthSource] separates the
    health checks of accounts from the health cache.

    ** Bounds

    Loops that walk down a tree run with fuel [TREE_FUEL] (129 steps), which suffices
    because prefix lengths strictly increase from 0 to at most 127 ([height_fuel]).
    Iteration over a side uses [ITER_FUEL] and [SKIP_FUEL], more than the number of nodes;
    each round consumes a leaf. [find_maximum] runs with [FIND_MAXIMUM_FUEL] (130) rounds,
    which suffice because each of them halves an interval of less than 2^128 units. The 20
    and 50 iterations of [scan_right_until_less_than] and [binary_search] are those of the
    code. Retries run with fuel beyond the retry limit ([fail_or_retry_ends]). The theorems
    show that these loops return; none of them only describes runs that happen to end.
    Structural recursion is used elsewhere.

    ** Not modelled, and why

    - Logs and events (logs.rs, events.rs): nothing reads them. benchmark.rs only measures.
    - accounts_zerocopy.rs and allocator.rs: casts of bytes to structs and the heap of the
      platform; accounts are modelled by their contents, and as bytes in [AccountLayout].
    - Decoding the accounts of oracles and of other third-party programs: their layouts are
      not part of the repository.
    - Entry points of lib.rs that only pass their arguments on, and the openbook_v2 ones,
      which do nothing. alt_set.rs and alt_extend.rs: lookup tables shorten transactions and
      hold no state that the rest reads.
    - Creation of the addresses and bumps of accounts by the framework.
    - src/lib/client/src/client.rs, src/bin/liquidator, keeper, settler and cli: asynchronous
      loops around the network that choose accounts and send the modelled instructions; their
      decisions depend on external quotes and services. Of the services, the subscription to
      accounts, databases and web sockets. *)

From stdpp Require Import base numbers list option.
From Stdlib Require Import ZArith Lia.

Declare Scope mango_scope.
Delimit Scope mango_scope with mango.
Open Scope Z_scope.

(** ** Record updates

    [r <| f := v |>] is the record [r] with field [f] set to [v]. A record type that is
    updated this way has an instance of [Eta], its constructor applied to the projections
    of a record; the update of a field replaces that projection. *)

Class Eta (R : Type) := eta : R -> R.

Class FieldUpdate {R T : Type} (field : R -> T) := field_update : (T -> T) -> R -> R.
Arguments field_update {R T} field {_} g r : rename.

Ltac solve_field_update :=
  match goal with
  | |- @FieldUpdate ?R ?T ?field =>
      let e := constr:(_ : Eta R) in
      let e := eval hnf in e in
      match eval pattern field in e with
      | ?mk _ =>
          let s := eval cbv beta in (fun (g : T -> T) => mk (fun r => g (field r))) in
          exact s
      end
  end.

#[export] Hint Extern 0 (FieldUpdate _) => solve_field_update : typeclass_instances.

Notation "r <| f := v |>" := (field_update f (fun _ => v) r)
  (at level 1, left associativity, format "r  <| f  :=  v |>") : mango_scope.
Open Scope mango_scope.

(** ** Machine integers

    A machine integer is a [Z]; arithmetic is exact and the result is sent
    through the range check of its width, because the program is compiled with
    [overflow-checks = true] (Cargo.toml, [profile.release]): leaving the range
    panics. *)

Definition U8_MAX : Z := 255.
Definition U16_MAX : Z := 65535.
Definition U32_MAX : Z := 4294967295.
Definition U64_MAX : Z := 18446744073709551615.
Definition U128_MAX : Z := 340282366920938463463374607431768211455.
Definition I64_MIN : Z := -9223372036854775808.
Definition I64_MAX : Z := 9223372036854775807.
Definition I128_MIN : Z := -170141183460469231731687303715884105728.
Definition I128_MAX : Z := 170141183460469231731687303715884105727.

(** Membership of a value in a machine range, as a boolean. *)
Definition in_range (lo hi v : Z) : bool := (lo <=? v) && (v <=? hi).

Definition is_u8 (v : Z) : Prop := 0 <= v <= U8_MAX.
Definition is_u16 (v : Z) : Prop := 0 <= v <= U16_MAX.
Definition is_u32 (v : Z) : Prop := 0 <= v <= U32_MAX.
Definition is_u64 (v : Z) : Prop := 0 <= v <= U64_MAX.
Definition is_u128 (v : Z) : Prop := 0 <= v <= U128_MAX.
Definition is_i64 (v : Z) : Prop := I64_MIN <= v <= I64_MAX.

(** [x as u64], [x as i64]: two's complement reinterpretation. *)
Definition as_u64 (v : Z) : Z := v mod 2 ^ 64.
Definition as_i64 (v : Z) : Z :=
  let m := v mod 2 ^ 64 in if m <=? I64_MAX then m else m - 2 ^ 64.

(** [u128::leading_zeros]. *)
Definition leading_zeros128 (v : Z) : Z :=
  if v =? 0 then 128 else 127 - Z.log2 v.

(** [i64::saturating_add]. *)
Definition saturating_add_i64 (a b : Z) : Z := Z.max I64_MIN (Z.min I64_MAX (a + b)).

(** [u64::saturating_add], [u64::saturating_sub]. *)
Definition saturating_add_u64 (x y : Z) : Z := Z.min U64_MAX (x + y).
Definition saturating_sub_u64 (x y : Z) : Z := Z.max 0 (x - y).

(** ** Errors

    The error enum of the program ([MangoError], error.rs) and the errors the
    framework's [require_*!] macros return. [EAccountType] stands for the framework's errors
    on loading an account of another type or owner, [EConstraint] for those on a failed
    account constraint without an error of its own. *)

Inductive MangoError : Set :=
| SomeError
| NotImplementedError
| MathError
| UnexpectedOracle
| UnknownOracleType
| InvalidFlashLoanTargetCpiProgram
| HealthMustBePositive
| HealthMustBePositiveOrIncrease
| HealthMustBeNegative
| IsBankrupt
| IsNotBankrupt
| NoFreeTokenPositionIndex
| NoFreeSerum3OpenOrdersIndex
| NoFreePerpPositionIndex
| Serum3OpenOrdersExistAlready
| InsufficentBankVaultFunds
| BeingLiquidated
| InvalidBank
| ProfitabilityMismatch
| CannotSettleWithSelf
| PerpPositionDoesNotExist
| MaxSettleAmountMustBeGreaterThanZero
| HasOpenPerpOrders
| OracleConfidence
| OracleStale
| SettlementAmountMustBePositive
| BankBorrowLimitReached
| BankNetBorrowsLimitReached
| TokenPositionDoesNotExist
| DepositsIntoLiquidatingMustRecover
| TokenInReduceOnlyMode
| MarketInReduceOnlyMode
| GroupIsHalted
| PerpHasBaseLots
| HasOpenOrUnsettledSerum3Orders
| HasLiquidatableTokenPosition
| HasLiquidatablePerpBasePosition
| HasLiquidatablePositivePerpPnl
| AccountIsFrozen
| InitAssetWeightCantBeNegative
| HasOpenPerpTakerFills
| DepositLimit
| IxIsDisabled
| NoLiquidatablePerpBasePosition
| PerpOrderIdNotFound
| HealthRegionBadInnerInstruction
| TokenInForceClose
| InvalidHealthAccountCount
| WouldSelfTrade
| TokenConditionalSwapPriceNotInRange
| TokenConditionalSwapExpired
| TokenConditionalSwapNotStarted
| TokenConditionalSwapAlreadyStarted
| TokenConditionalSwapNotSet
| TokenConditionalSwapMinBuyTokenNotReached
| TokenConditionalSwapCantPayIncentive
| TokenConditionalSwapTakerPriceTooLow
| TokenConditionalSwapIndexIdMismatch
| TokenConditionalSwapTooSmallForStartIncentive
| TokenConditionalSwapTypeNotStartable
| HealthAccountBankNotWritable
| Serum3PriceBandExceeded
| BankDepositLimit
| DelegateWithdrawOnlyToOwnerAta
| DelegateWithdrawMustClosePosition
| DelegateWithdrawSmall
| InvalidCLMMOracle
| InvalidFeedForCLMMOracle
| MissingFeedForCLMMOracle
| TokenAssetLiquidationDisabled
| BorrowsRequireHealthAccountBank
| InvalidSequenceNumber
| InvalidHealth.

Inductive Error : Set :=
| EMango (e : MangoError)
| ERequireGte
| ERequireGt
| ERequireNeq
| ERequireEq
| ERequireKeysEq
| ERequireKeysNeq
| EAccountType
| EConstraint
| EAccountBorrow.

#[export] Instance MangoError_eq_dec : EqDecision MangoError.
Proof. solve_decision. Defined.

#[export] Instance Error_eq_dec : EqDecision Error.
Proof. solve_decision. Defined.

(** [error_msg!] is [MangoError::SomeError] with a message; the message is
    not modelled. *)
Definition error_msg : Error := EMango SomeError.

(** [Result::is_anchor_error_with_code], on the error of an [Err]. *)
Definition is_anchor_error_with_code (e : Error) (code : MangoError) : bool :=
  bool_decide (e = EMango code).

(** ** Outcomes

    [outcome A] is what running a piece of the program gives: a value, an error
    that is propagated to the caller with [?] and aborts the transaction, a
    panic, or (for loops, which are modelled with fuel) exhaustion of the fuel.
    A Rust function that returns [Result<T>] and whose caller goes on after an
    error returns [outcome (state * result T)] instead, so that the state it
    leaves behind is not lost. *)

Inductive result (A : Type) : Type :=
| Ok (a : A)
| Err (e : Error).
Arguments Ok {A} a.
Arguments Err {A} e.

Inductive outcome (A : Type) : Type :=
| Done (a : A)
| Fail (e : Error)
| Panic
| NoFuel.
Arguments Done {A} a.
Arguments Fail {A} e.
Arguments Panic {A}.
Arguments NoFuel {A}.

#[export] Instance outcome_ret : MRet outcome := fun A a => Done a.

#[export] Instance outcome_bind : MBind outcome := fun A B f m =>
  match m with
  | Done a => f a
  | Fail e => Fail e
  | Panic => Panic
  | NoFuel => NoFuel
  end.

(** A loop over a list that threads a state. *)
Fixpoint foldM {A B} (f : A -> B -> outcome A) (a : A) (l : list B) : outcome A :=
  match l with
  | [] => Done a
  | x :: l => a ← f a x; foldM f a l
  end.

(** [opt.unwrap()]. *)
Definition unwrap {A} (o : option A) : outcome A :=
  match o with Some a => Done a | None => Panic end.

(** [opt.ok_or(e)?]. *)
Definition ok_or {A} (o : option A) (e : Error) : outcome A :=
  match o with Some a => Done a | None => Fail e end.

(** [assert!(b)] and [require!(b, e)]. *)
Definition assert_ (b : bool) : outcome unit := if b then Done tt else Panic.
Definition require (b : bool) (e : Error) : outcome unit := if b then Done tt else Fail e.

(** Range-checked results: [u64 (a + b)] is the Rust expression [a + b] at
    type [u64]. *)
Definition u8 (v : Z) : outcome Z := if in_range 0 U8_MAX v then Done v else Panic.
Definition u16 (v : Z) : outcome Z := if in_range 0 U16_MAX v then Done v else Panic.
Definition u32 (v : Z) : outcome Z := if in_range 0 U32_MAX v then Done v else Panic.
Definition u64 (v : Z) : outcome Z := if in_range 0 U64_MAX v then Done v else Panic.
Definition i64 (v : Z) : outcome Z := if in_range I64_MIN I64_MAX v then Done v else Panic.

(** ** Automation *)

Create HintDb mango.
Create Rewrite HintDb mango_rw.

Lemma in_range_true lo hi v : in_range lo hi v = true <-> lo <= v <= hi.
Proof. unfold in_range. rewrite andb_true_iff, !Z.leb_le. lia. Qed.

Lemma u8_ok v : is_u8 v -> u8 v = Done v.
Proof. intros H. unfold u8. by rewrite (proj2 (in_range_true _ _ _) H). Qed.

Lemma u16_ok v : is_u16 v -> u16 v = Done v.
Proof. intros H. unfold u16. by rewrite (proj2 (in_range_true _ _ _) H). Qed.

Lemma u32_ok v : is_u32 v -> u32 v = Done v.
Proof. intros H. unfold u32. by rewrite (proj2 (in_range_true _ _ _) H). Qed.

Lemma u64_ok v : is_u64 v -> u64 v = Done v.
Proof. intros H. unfold u64. by rewrite (proj2 (in_range_true _ _ _) H). Qed.

Lemma i64_ok v : is_i64 v -> i64 v = Done v.
Proof. intros H. unfold i64. by rewrite (proj2 (in_range_true _ _ _) H). Qed.

Lemma u16_inv v w : u16 v = Done w -> w = v /\ is_u16 v.
Proof.
  unfold u16, is_u16. destruct (in_range 0 U16_MAX v) eqn:E; [|discriminate].
  apply in_range_true in E. intros [=]. split; [congruence|lia].
Qed.

Lemma u64_inv v w : u64 v = Done w -> w = v /\ is_u64 v.
Proof.
  unfold u64, is_u64. destruct (in_range 0 U64_MAX v) eqn:E; [|discriminate].
  apply in_range_true in E. intros [=]. split; [congruence|lia].
Qed.

Lemma i64_inv v w : i64 v = Done w -> w = v /\ is_i64 v.
Proof.
  unfold i64, is_i64. destruct (in_range I64_MIN I64_MAX v) eqn:E; [|discriminate].
  apply in_range_true in E. intros [=]. split; [congruence|lia].
Qed.

Lemma u32_inv v w : u32 v = Done w -> w = v /\ is_u32 v.
Proof.
  unfold u32, is_u32. destruct (in_range 0 U32_MAX v) eqn:E; [|discriminate].
  apply in_range_true in E. intros [=]. split; [congruence|lia].
Qed.

Lemma u8_inv v w : u8 v = Done w -> w = v /\ is_u8 v.
Proof.
  unfold u8, is_u8. destruct (in_range 0 U8_MAX v) eqn:E; [|discriminate].
  apply in_range_true in E. intros [=]. split; [congruence|lia].
Qed.

Lemma bind_Done {A B} (a : A) (k : A -> outcome B) : (Done a ≫= k) = k a.
Proof. done. Qed.

Lemma foldM_app {A B} (f : A -> B -> outcome A) a l1 l2 :
  foldM f a (l1 ++ l2) = (b ← foldM f a l1; foldM f b l2).
Proof.
  revert a. induction l1 as [|x l1 IH]; [done|]. intros a. simpl. destruct (f a x); [|done..].
  rewrite !bind_Done. apply IH.
Qed.

(** An invariant of the state of a loop that runs to its end. *)
Lemma foldM_ind {A B} (P : A -> Prop) (f : A -> B -> outcome A) l a a' :
  foldM f a l = Done a' -> P a -> (forall a x a1, x ∈ l -> P a -> f a x = Done a1 -> P a1) -> P a'.
Proof.
  revert a. induction l as [|x l IH]; intros a E Ha Hs; simpl in E.
  - by injection E as <-.
  - destruct (f a x) as [a1| | |] eqn:Ex; [|discriminate..]. rewrite bind_Done in E.
    apply (IH a1 E).
    + apply (Hs a x); [apply list_elem_of_here|done|done].
    + intros b y b1 Hy. apply Hs. by apply list_elem_of_further.
Qed.

Lemma unwrap_Some {A} (a : A) : unwrap (Some a) = Done a.
Proof. done. Qed.

Lemma unwrap_inv {A} (o : option A) a : unwrap o = Done a -> o = Some a.
Proof. destruct o; [by intros [= ->]|done]. Qed.

Lemma ok_or_inv {A} (o : option A) e a : ok_or o e = Done a -> o = Some a.
Proof. destruct o; [by intros [= ->]|done]. Qed.

(** ** Finding an element *)

(** [Iterator::position]. *)
Fixpoint position {A} (f : A -> bool) (l : list A) : option nat :=
  match l with
  | [] => None
  | x :: l => if f x then Some O else S <$> position f l
  end.

Lemma position_Some {A} (f : A -> bool) l i :
  position f l = Some i <-> (exists x, l !! i = Some x /\ f x = true) /\
    forall j y, (j < i)%nat -> l !! j = Some y -> f y = false.
Proof.
  revert i. induction l as [|x l IH]; intros i; simpl.
  { split; [done|]. by intros [(x & Hx & _) _]. }
  destruct (f x) eqn:E.
  - split.
    + intros [= <-]. split; [eauto|]. lia.
    + intros [(y & Hy & Hf) Hlt]. destruct i as [|i]; [done|].
      specialize (Hlt 0%nat x ltac:(lia) eq_refl). congruence.
  - destruct i as [|i].
    + split; [by destruct (position f l)|]. intros [(y & [= <-] & Hf) _]. congruence.
    + rewrite fmap_Some. split.
      * intros (j & Hj & [= <-]). apply IH in Hj as [Hx Hlt]. split; [done|].
        intros [|j'] y Hj' Hy; [by injection Hy as <-|]. apply (Hlt j'); [lia|done].
      * intros [Hx Hlt]. exists i. split; [|done]. apply IH. split; [done|].
        intros j y Hj Hy. apply (Hlt (S j)); [lia|done].
Qed.

Lemma position_None {A} (f : A -> bool) l :
  position f l = None <-> forall i x, l !! i = Some x -> f x = false.
Proof.
  induction l as [|x l IH]; simpl; [done|]. destruct (f x) eqn:E.
  - split; [done|]. intros Ha. specialize (Ha 0%nat x eq_refl). congruence.
  - rewrite fmap_None, IH. split.
    + intros Ha [|i] y Hy; [by injection Hy as <-|by eapply Ha].
    + intros Ha i y Hy. by apply (Ha (S i)).
Qed.

(** Replacing the element that was found by one that satisfies [f] too. *)
Lemma position_insert {A} (f : A -> bool) l i y :
  position f l = Some i -> f y = true -> position f (<[i := y]> l) = Some i.
Proof.
  rewrite !position_Some. intros [(x & Hx & _) Hlt] Hy. split.
  - exists y. split; [|done]. apply list_lookup_insert_eq, lookup_lt_is_Some. eauto.
  - intros j z Hj Hz. rewrite list_lookup_insert_ne in Hz by lia. eauto.
Qed.

Lemma position_lookup {A} (f : A -> bool) l i :
  position f l = Some i -> exists x, l !! i = Some x /\ f x = true.
Proof. by intros [? _]%position_Some. Qed.

Lemma bind_Done_inv {A B} (m : outcome A) (k : A -> outcome B) b :
  (m ≫= k) = Done b -> exists a, m = Done a /\ k a = Done b.
Proof. destruct m; try discriminate. eauto. Qed.

Lemma require_inv b e u : require b e = Done u -> b = true.
Proof. by destruct b. Qed.

(** Splits a successful run [m ≫= k = Done b] into the runs of its parts,
    reading range checks and assertions off as facts. *)
Ltac inv_run :=
  repeat match goal with
  | H : (_ ≫= _) = Done _ |- _ =>
      let a := fresh "a" in let E := fresh "E" in
      apply bind_Done_inv in H as (a & E & H)
  | H : Done _ = Done _ |- _ => injection H as H; try subst
  | H : u64 _ = Done _ |- _ => apply u64_inv in H as [-> H]
  | H : u32 _ = Done _ |- _ => apply u32_inv in H as [-> H]
  | H : u8 _ = Done _ |- _ => apply u8_inv in H as [-> H]
  | H : i64 _ = Done _ |- _ => apply i64_inv in H as [-> H]
  | H : assert_ ?b = Done _ |- _ => destruct b eqn:?; [clear H | discriminate H]
  | H : require ?b _ = Done _ |- _ => destruct b eqn:?; [clear H | discriminate H]
  | H : Panic = Done _ |- _ => discriminate H
  | H : Fail _ = Done _ |- _ => discriminate H
  | H : NoFuel = Done _ |- _ => discriminate H
  end.

(** Steps a run forward over the parts that are already evaluated. *)
Ltac run := repeat first [rewrite bind_Done | rewrite unwrap_Some | progress cbv beta iota].

Ltac run_in H :=
  repeat first [rewrite bind_Done in H | rewrite unwrap_Some in H | progress cbv beta iota in H].

(** Turns boolean tests in the context into propositions for [lia]. *)
Ltac bool_to_prop :=
  repeat match goal with
  | H : (_ && _) = true |- _ => apply andb_true_iff in H as [? ?]
  | H : (_ || _) = false |- _ => apply orb_false_iff in H as [? ?]
  | H : negb _ = true |- _ => apply negb_true_iff in H
  | H : negb _ = false |- _ => apply negb_false_iff in H
  | H : (_ <=? _) = true |- _ => apply Z.leb_le in H
  | H : (_ <=? _) = false |- _ => apply Z.leb_gt in H
  | H : (_ <? _) = true |- _ => apply Z.ltb_lt in H
  | H : (_ <? _) = false |- _ => apply Z.ltb_ge in H
  | H : (_ =? _) = true |- _ => apply Z.eqb_eq in H
  | H : (_ =? _) = false |- _ => apply Z.eqb_neq in H
  | H : in_range _ _ _ = true |- _ => apply in_range_true in H
  end.

Ltac unfold_widths :=
  unfold is_u8, is_u16, is_u32, is_u64, is_u128, is_i64,
    U8_MAX, U16_MAX, U32_MAX, U64_MAX, U128_MAX, I64_MIN, I64_MAX in *.

(** [lia] on machine-width facts. *)
Ltac mlia := bool_to_prop; unfold_widths; lia.
