(* ===== verification/FixedPoint.v ===== *)
(** * Fixed-point and floating-point numbers

    [I80F48] comes from the [fixed] crate and is a parameter of the development: the
    operations the program calls are the class [FixedOps], the documented behaviour it
    relies on is the class [FixedLaws], and [fixed_ref] is an instance of both. A value
    is its bit representation ([to_bits]), an [i128] that counts multiples of 2^-48;
    comparisons of values are comparisons of their bits.

    [f32] and [f64] are the language's IEEE 754 types, with their arithmetic from the
    Standard Library's [SpecFloat]. i80f48.rs, the program's own helpers on these
    types, is modelled in full. *)

From stdpp Require Import base numbers list.
From Stdlib Require Import ZArith Lia SpecFloat.
From S2P Require Import Prelude.

Open Scope Z_scope.

Definition is_i128 (v : Z) : Prop := I128_MIN <= v <= I128_MAX.

(** ** Floating point *)

Abbreviation f32 := spec_float (only parsing).
Abbreviation f64 := spec_float (only parsing).

Definition f64_add : f64 -> f64 -> f64 := SFadd 53 1024.
Definition f64_sub : f64 -> f64 -> f64 := SFsub 53 1024.
Definition f64_mul : f64 -> f64 -> f64 := SFmul 53 1024.
Definition f64_div : f64 -> f64 -> f64 := SFdiv 53 1024.

(** [n as f64] of an integer. *)
Definition f64_of_Z (n : Z) : f64 := binary_normalize 53 1024 n 0 false.

(** [x as f64] of an [f32]. *)
Definition f64_of_f32 (x : f32) : f64 :=
  match x with
  | S754_finite s m e => binary_normalize 53 1024 (cond_Zopp s (Zpos m)) e s
  | _ => x
  end.

(** Truncation of a finite float towards zero. *)
Definition f64_trunc (s : bool) (m : positive) (e : Z) : Z :=
  cond_Zopp s (if 0 <=? e then Zpos m * 2 ^ e else Zpos m / 2 ^ (- e)).

(** [x as i64], [x as u64]: truncation, saturating, and 0 for NaN. *)
Definition f64_as (lo hi : Z) (x : f64) : Z :=
  match x with
  | S754_zero _ | S754_nan => 0
  | S754_infinity s => if s then lo else hi
  | S754_finite s m e => Z.max lo (Z.min hi (f64_trunc s m e))
  end.

Definition f_zero : f64 := S754_zero false.
Definition f64_one : f64 := f64_of_Z 1.

(** [f64::max], [f64::min]: the other operand if one is NaN. *)
Definition f64_max (x y : f64) : f64 :=
  match x, y with
  | S754_nan, _ => y
  | _, S754_nan => x
  | _, _ => if SFltb x y then y else x
  end.
Definition f64_min (x y : f64) : f64 :=
  match x, y with
  | S754_nan, _ => y
  | _, S754_nan => x
  | _, _ => if SFltb y x then y else x
  end.

(** [f64::MAX]. *)
Definition f64_MAX : f64 := S754_finite false 9007199254740991 971.

Definition f64_as_i64 : f64 -> Z := f64_as I64_MIN I64_MAX.
Definition f64_as_u64 : f64 -> Z := f64_as 0 U64_MAX.

(** ** The interface of the [fixed] crate *)

Class FixedOps := {
  fx_add : Z -> Z -> outcome Z;
  fx_sub : Z -> Z -> outcome Z;
  fx_neg : Z -> outcome Z;
  fx_mul : Z -> Z -> outcome Z;
  fx_div : Z -> Z -> outcome Z;
  fx_abs : Z -> outcome Z;
  fx_floor : Z -> outcome Z;
  fx_ceil : Z -> outcome Z;
  fx_round_to_zero : Z -> outcome Z;
  fx_round : Z -> outcome Z;              (* nearest integer, ties away from zero *)
  fx_from_int : Z -> outcome Z;
  fx_to_i64 : Z -> outcome Z;
  fx_to_u64 : Z -> outcome Z;
  fx_from_f32 : f32 -> outcome Z;
  fx_from_f64 : f64 -> outcome Z;
  fx_checked_from_f64 : f64 -> option Z;
  fx_to_f32 : Z -> f32;
  fx_to_f64 : Z -> f64;
  fx_ge_f32 : Z -> f32 -> bool;           (* [x >= y] with an [f32] on the right *)
  fx_checked_mul_int : Z -> Z -> option Z;
  fx_saturating_add : Z -> Z -> Z;
  fx_saturating_sub : Z -> Z -> Z;
  fx_saturating_mul : Z -> Z -> Z;
  fx_saturating_div : Z -> Z -> outcome Z;
  ufx_mul : Z -> Z -> outcome Z;          (* [U64F64], as its bits *)
  ufx_to_f64 : Z -> f64;
  fx_from_ufx : Z -> outcome Z            (* [I80F48::from_num] of a [U64F64] *)
}.

Definition fx_scale : Z := 2 ^ 48.
Definition fx_one : Z := fx_scale.
Definition fx_int (n : Z) : Z := n * fx_scale.

Lemma scale_pos : 0 < fx_scale.
Proof. done. Qed.

(** The nearest multiple of 2^-48, ties to even. *)
Definition from_float (x : spec_float) : option Z :=
  match x with
  | S754_zero _ => Some 0
  | S754_finite s m e =>
      let v :=
        let k := e + 48 in
        if 0 <=? k then Zpos m * 2 ^ k
        else
          let d := 2 ^ (- k) in
          let q := Zpos m / d in
          let r := Zpos m mod d in
          if (d <? 2 * r) || ((2 * r =? d) && Z.odd q) then q + 1 else q in
      let v := cond_Zopp s v in
      if in_range I128_MIN I128_MAX v then Some v else None
  | _ => None
  end.

(** The nearest value of the type. *)
Definition fx_saturate (v : Z) : Z := Z.max I128_MIN (Z.min I128_MAX v).

(** Documented behaviour: exact results that fit are returned; products are rounded
    down, quotients towards zero; conversion to an integer rounds down. Results that do
    not fit panic, because the crate is compiled with overflow checks. A float is converted
    to the nearest number. Saturating operations give the nearest value of the type instead
    of a panic. *)
Class FixedLaws `{FixedOps} : Prop := {
  fx_add_law a b : is_i128 (a + b) -> fx_add a b = Done (a + b);
  fx_sub_law a b : is_i128 (a - b) -> fx_sub a b = Done (a - b);
  fx_neg_law a : is_i128 (- a) -> fx_neg a = Done (- a);
  fx_mul_law a b : is_i128 (a * b / fx_scale) -> fx_mul a b = Done (a * b / fx_scale);
  fx_div_law a b : b <> 0 -> is_i128 (Z.quot (a * fx_scale) b) ->
    fx_div a b = Done (Z.quot (a * fx_scale) b);
  fx_abs_law a : is_i128 (Z.abs a) -> fx_abs a = Done (Z.abs a);
  fx_floor_law a : is_i128 a -> fx_floor a = Done (fx_int (a / fx_scale));
  fx_ceil_law a : is_i128 (fx_int (- (- a / fx_scale))) ->
    fx_ceil a = Done (fx_int (- (- a / fx_scale)));
  fx_round_to_zero_law a : is_i128 a -> fx_round_to_zero a = Done (fx_int (Z.quot a fx_scale));
  fx_from_int_law n : is_i128 (fx_int n) -> fx_from_int n = Done (fx_int n);
  fx_to_i64_law a : is_i64 (a / fx_scale) -> fx_to_i64 a = Done (a / fx_scale);
  fx_to_u64_law a : is_u64 (a / fx_scale) -> fx_to_u64 a = Done (a / fx_scale);
  fx_from_f64_law x : fx_from_f64 x = match fx_checked_from_f64 x with Some v => Done v | None => Panic end;
  fx_add_inv a b c : fx_add a b = Done c -> c = a + b;
  fx_sub_inv a b c : fx_sub a b = Done c -> c = a - b;
  fx_neg_inv a c : fx_neg a = Done c -> c = - a;
  fx_mul_inv a b c : fx_mul a b = Done c -> c = a * b / fx_scale;
  fx_abs_inv a c : fx_abs a = Done c -> c = Z.abs a;
  fx_from_int_inv n c : fx_from_int n = Done c -> c = fx_int n;
  fx_div_inv a b c : fx_div a b = Done c -> b <> 0 /\ c = Z.quot (a * fx_scale) b;
  fx_div_zero a : fx_div a 0 = Panic;
  fx_floor_inv a c : fx_floor a = Done c -> c = fx_int (a / fx_scale);
  fx_round_to_zero_inv a c : fx_round_to_zero a = Done c -> c = fx_int (Z.quot a fx_scale);
  fx_ceil_inv a c : fx_ceil a = Done c -> c = fx_int (- (- a / fx_scale));
  fx_to_u64_inv a c : fx_to_u64 a = Done c -> c = a / fx_scale /\ is_u64 c;
  fx_to_i64_inv a c : fx_to_i64 a = Done c -> c = a / fx_scale /\ is_i64 c;
  fx_checked_mul_int_law a n : is_i128 (a * n) -> fx_checked_mul_int a n = Some (a * n);
  fx_checked_mul_int_inv a n c : fx_checked_mul_int a n = Some c -> c = a * n;
  fx_from_f64_nonneg x v : SFleb f_zero x = true -> fx_checked_from_f64 x = Some v -> 0 <= v;
  fx_neg_overflow a : I128_MAX < - a -> fx_neg a = Panic;
  fx_checked_from_f64_law x : fx_checked_from_f64 x = from_float x;
  fx_from_f32_law x : fx_from_f32 x = unwrap (from_float x);
  fx_saturating_add_law a b : fx_saturating_add a b = fx_saturate (a + b);
  fx_saturating_sub_law a b : fx_saturating_sub a b = fx_saturate (a - b);
  fx_saturating_mul_law a b : fx_saturating_mul a b = fx_saturate (a * b / fx_scale);
  fx_saturating_div_law a b : b <> 0 ->
    fx_saturating_div a b = Done (fx_saturate (Z.quot (a * fx_scale) b))
}.

(** [i128] arithmetic of the program itself. *)
Definition i128 (v : Z) : outcome Z := if in_range I128_MIN I128_MAX v then Done v else Panic.

(** ** An instance *)

Section reference.

(** [v >= x], exactly; false for NaN. *)
Definition ref_ge_float (v : Z) (x : spec_float) : bool :=
  match x with
  | S754_zero _ => 0 <=? v
  | S754_infinity s => s
  | S754_nan => false
  | S754_finite s m e =>
      let k := e + 48 in
      let n := cond_Zopp s (Zpos m) in
      if 0 <=? k then n * 2 ^ k <=? v else n <=? v * 2 ^ (- k)
  end.

Definition ref_to_float (prec emax : Z) (v : Z) : spec_float :=
  binary_normalize prec emax v (-48) false.

End reference.

Definition fixed_ref : FixedOps := {|
  fx_add a b := i128 (a + b);
  fx_sub a b := i128 (a - b);
  fx_neg a := i128 (- a);
  fx_mul a b := i128 (a * b / fx_scale);
  fx_div a b := if b =? 0 then Panic else i128 (Z.quot (a * fx_scale) b);
  fx_abs a := i128 (Z.abs a);
  fx_floor a := Done (fx_int (a / fx_scale));
  fx_ceil a := i128 (fx_int (- (- a / fx_scale)));
  fx_round_to_zero a := Done (fx_int (Z.quot a fx_scale));
  fx_round a := i128 (fx_int (Z.sgn a * ((2 * Z.abs a + fx_scale) / (2 * fx_scale))));
  fx_from_int n := i128 (fx_int n);
  fx_to_i64 a := i64 (a / fx_scale);
  fx_to_u64 a := u64 (a / fx_scale);
  fx_from_f32 x := unwrap (from_float x);
  fx_from_f64 x := unwrap (from_float x);
  fx_checked_from_f64 x := from_float x;
  fx_to_f32 := ref_to_float 24 128;
  fx_to_f64 := ref_to_float 53 1024;
  fx_ge_f32 := ref_ge_float;
  fx_checked_mul_int a n := if in_range I128_MIN I128_MAX (a * n) then Some (a * n) else None;
  fx_saturating_add a b := fx_saturate (a + b);
  fx_saturating_sub a b := fx_saturate (a - b);
  fx_saturating_mul a b := fx_saturate (a * b / fx_scale);
  fx_saturating_div a b := if b =? 0 then Panic else Done (fx_saturate (Z.quot (a * fx_scale) b));
  ufx_mul a b := if in_range 0 U128_MAX (a * b / 2 ^ 64) then Done (a * b / 2 ^ 64) else Panic;
  ufx_to_f64 a := binary_normalize 53 1024 a (-64) false;
  fx_from_ufx a := i128 (a / 2 ^ 16)
|}.

Lemma i128_ok v : is_i128 v -> i128 v = Done v.
Proof. intros H. unfold i128. by rewrite (proj2 (in_range_true _ _ _) H). Qed.

Lemma i128_inv v w : i128 v = Done w -> w = v.
Proof. unfold i128. by destruct (in_range _ _ _); intros [=]. Qed.

Lemma from_float_nonneg x v : SFleb f_zero x = true -> from_float x = Some v -> 0 <= v.
Proof.
  destruct x as [sg | sg | | sg m e]; simpl; try discriminate; [by intros _ [= <-]|].
  destruct sg; [intros [=]|]. intros _. destruct (in_range _ _ _); [|discriminate]. intros [= <-].
  simpl. destruct (0 <=? e + 48) eqn:E; bool_to_prop.
  - apply Z.mul_nonneg_nonneg; [lia|]. apply Z.pow_nonneg. lia.
  - pose proof (Z.pow_pos_nonneg 2 (- (e + 48)) ltac:(lia) ltac:(lia)).
    pose proof (Z.div_pos (Zpos m) (2 ^ (- (e + 48))) ltac:(lia) ltac:(lia)). destruct (_ || _); lia.
Qed.

Lemma fixed_ref_laws : @FixedLaws fixed_ref.
Proof.
  constructor; intros; simpl in *; try (by apply i128_ok); try (by apply i128_inv); try done.
  - by rewrite (proj2 (Z.eqb_neq _ _)), i128_ok.
  - by apply i64_ok.
  - by apply u64_ok.
  - match goal with E : context [if ?b =? 0 then _ else _] |- _ =>
      destruct (Z.eqb_spec b 0); [discriminate|]; apply i128_inv in E end. done.
  - congruence.
  - congruence.
  - match goal with E : u64 _ = _ |- _ => by apply u64_inv in E as [-> ?] end.
  - match goal with E : i64 _ = _ |- _ => by apply i64_inv in E as [-> ?] end.
  - by rewrite (proj2 (in_range_true _ _ _)).
  - match goal with E : (if ?c then _ else _) = _ |- _ => destruct c; congruence end.
  - by apply (from_float_nonneg x).
  - unfold i128. destruct (in_range _ _ _) eqn:E; [|done]. apply in_range_true in E. unfold is_i128 in *. lia.
  - by rewrite (proj2 (Z.eqb_neq _ _)).
Qed.

(** Reads off a successful run what its fixed-point operations computed. *)
Ltac fx_inv :=
  repeat first
  [ progress inv_run
  | match goal with
    | H : fx_add _ _ = Done _ |- _ => apply fx_add_inv in H
    | H : fx_sub _ _ = Done _ |- _ => apply fx_sub_inv in H
    | H : fx_neg _ = Done _ |- _ => apply fx_neg_inv in H
    | H : fx_mul _ _ = Done _ |- _ => apply fx_mul_inv in H
    | H : fx_div _ _ = Done _ |- _ => apply fx_div_inv in H as [? H]
    | H : fx_abs _ = Done _ |- _ => apply fx_abs_inv in H
    | H : fx_ceil _ = Done _ |- _ => apply fx_ceil_inv in H
    | H : fx_floor _ = Done _ |- _ => apply fx_floor_inv in H
    | H : fx_round_to_zero _ = Done _ |- _ => apply fx_round_to_zero_inv in H
    | H : fx_from_int _ = Done _ |- _ => apply fx_from_int_inv in H
    | H : fx_to_u64 _ = Done _ |- _ => apply fx_to_u64_inv in H as [H ?]
    | H : fx_to_i64 _ = Done _ |- _ => apply fx_to_i64_inv in H as [H ?]
    end; try subst ].

(** ** i80f48.rs *)

Module ClampToInt.

(** [impl ClampToInt for I80F48]. *)
Section fixed.
Context `{FixedOps}.

Definition clamp_to_i64 (x : Z) : outcome Z :=
  if x <=? fx_int I64_MIN then Done I64_MIN
  else if fx_int I64_MAX <=? x then Done I64_MAX
  else fx_to_i64 x.

Definition clamp_to_u64 (x : Z) : outcome Z :=
  if x <=? 0 then Done 0
  else if fx_int U64_MAX <=? x then Done U64_MAX
  else fx_to_u64 x.

Lemma clamp_to_i64_ok `{!FixedLaws} x :
  clamp_to_i64 x = Done (Z.max I64_MIN (Z.min I64_MAX (x / fx_scale))).
Proof.
  unfold clamp_to_i64, fx_int. assert (0 < fx_scale) by done.
  destruct (Z.leb_spec x (I64_MIN * fx_scale)) as [L|L].
  - assert (x / fx_scale <= I64_MIN) by (apply Z.div_le_upper_bound; lia). f_equal. mlia.
  - destruct (Z.leb_spec (I64_MAX * fx_scale) x) as [L'|L'].
    + assert (I64_MAX <= x / fx_scale) by (apply Z.div_le_lower_bound; lia). f_equal. mlia.
    + assert (I64_MIN <= x / fx_scale) by (apply Z.div_le_lower_bound; lia).
      assert (x / fx_scale < I64_MAX) by (apply Z.div_lt_upper_bound; lia).
      rewrite fx_to_i64_law by mlia. f_equal. mlia.
Qed.

Lemma clamp_to_u64_ok `{!FixedLaws} x :
  clamp_to_u64 x = Done (Z.max 0 (Z.min U64_MAX (x / fx_scale))).
Proof.
  unfold clamp_to_u64, fx_int. assert (0 < fx_scale) by done.
  destruct (Z.leb_spec x 0) as [L|L].
  - assert (x / fx_scale <= 0) by (apply Z.div_le_upper_bound; lia). f_equal. mlia.
  - destruct (Z.leb_spec (U64_MAX * fx_scale) x) as [L'|L'].
    + assert (U64_MAX <= x / fx_scale) by (apply Z.div_le_lower_bound; lia). f_equal. mlia.
    + assert (0 <= x / fx_scale) by (apply Z.div_le_lower_bound; lia).
      assert (x / fx_scale < U64_MAX) by (apply Z.div_lt_upper_bound; lia).
      rewrite fx_to_u64_law by mlia. f_equal. mlia.
Qed.

End fixed.

(** [impl ClampToInt for f64]. *)
Definition f64_clamp_to_i64 (x : f64) : Z :=
  if SFleb x (f64_of_Z I64_MIN) then I64_MIN
  else if SFleb (f64_of_Z I64_MAX) x then I64_MAX
  else f64_as_i64 x.

Definition f64_clamp_to_u64 (x : f64) : Z :=
  if SFleb x (S754_zero false) then 0
  else if SFleb (f64_of_Z U64_MAX) x then U64_MAX
  else f64_as_u64 x.

(** [impl ClampToInt for u64]. *)
Definition u64_clamp_to_i64 (x : Z) : Z := if I64_MAX <=? x then I64_MAX else x.

Lemma f64_as_range lo hi x : lo <= 0 <= hi -> lo <= f64_as lo hi x <= hi.
Proof. intros H. destruct x as [| [] | |]; simpl; lia. Qed.

Lemma f64_clamp_to_i64_range x : is_i64 (f64_clamp_to_i64 x).
Proof.
  unfold f64_clamp_to_i64. destruct (SFleb _ _); [mlia|]. destruct (SFleb _ _); [mlia|].
  apply f64_as_range. mlia.
Qed.

Lemma f64_clamp_to_u64_range x : is_u64 (f64_clamp_to_u64 x).
Proof.
  unfold f64_clamp_to_u64. destruct (SFleb _ _); [mlia|]. destruct (SFleb _ _); [mlia|].
  apply f64_as_range. mlia.
Qed.

End ClampToInt.

Module LowPrecisionDivision.

Definition leading_zeros64 (v : Z) : Z := if v =? 0 then 64 else 63 - Z.log2 v.

Definition as_u128 (v : Z) : Z := v mod 2 ^ 128.

Definition as_i128 (v : Z) : Z := if as_u128 v <=? I128_MAX then as_u128 v else as_u128 v - 2 ^ 128.

(** A shift of a [u128]; shifting by the width or more panics. *)
Definition shl128 (v s : Z) : outcome Z :=
  _ ← assert_ (in_range 0 127 s); Done (as_u128 (Z.shiftl v s)).
Definition shr128 (v s : Z) : outcome Z :=
  _ ← assert_ (in_range 0 127 s); Done (Z.shiftr v s).

(** The blocks that compute [(an_shift, ar)] and [(bn_shift, br)]: the top 64 and 32
    bits of a number, and by how much it was shifted to the left. *)
Definition top64 (an_bits an_zeros : Z) : outcome (Z * Z) :=
  if 64 <=? an_zeros then
    let s := an_zeros - 64 in
    v ← shl128 an_bits s; Done (s, as_u64 v)
  else
    let s := 64 - an_zeros in
    v ← shr128 an_bits s; Done (- s, as_u64 v).

Definition top32 (bn_bits bn_zeros : Z) : outcome (Z * Z) :=
  if 96 <=? bn_zeros then Done (0, as_u64 bn_bits)
  else
    let s := 96 - bn_zeros in
    v ← shr128 bn_bits s; Done (- s, as_u64 v).

(** The block that divides and shifts the quotient back; [None] on overflow. *)
Definition shift_back (ar br an_shift bn_shift : Z) : outcome (option Z) :=
  _ ← assert_ (negb (br =? 0));
  let rr := ar / br in
  let s := 48 + bn_shift - an_shift in
  let rr_zeros := leading_zeros64 rr in
  if 63 + rr_zeros <? s then Done None
  else
    r ← if 0 <=? s then shl128 rr s else shr128 rr (- s);
    Done (Some r).

Definition checked_div_30bit_precision (a b : Z) : outcome (option Z) :=
  if b =? 0 then Done None
  else
    let a_neg := a <? 0 in
    let b_neg := b <? 0 in
    let r_neg := xorb a_neg b_neg in
    an_bits ← if a_neg then i128 (- a) else Done a;
    bn_bits ← if b_neg then i128 (- b) else Done b;
    let an_zeros := leading_zeros128 an_bits in
    let bn_zeros := leading_zeros128 bn_bits in
    '(an_shift, ar) ← top64 an_bits an_zeros;
    '(bn_shift, br) ← top32 bn_bits bn_zeros;
    o ← shift_back ar br an_shift bn_shift;
    match o with
    | None => Done None
    | Some r =>
        r ← if r_neg then i128 (- as_i128 r) else Done (as_i128 r);
        Done (Some r)
    end.

Section f64_precision.
Context `{FixedOps}.

Definition checked_div_f64_precision (a b : Z) : option Z :=
  fx_checked_from_f64 (f64_div (fx_to_f64 a) (fx_to_f64 b)).

End f64_precision.

(** *** Accuracy *)

Section accuracy.
(** [ar] is [A * X / Y], [br] is [B / T], and the result is [rr * U / V], all rounded
    down; the scale factors are powers of two. *)
Context (A B ar br rr r X Y T U V : Z).
Hypothesis (HX : 0 < X) (HY : 0 < Y) (HT : 0 < T) (HU : 0 < U) (HV : 0 < V)
  (Hscale : U * T * X = V * 2 ^ 48 * Y)
  (Har : ar * Y <= A * X < (ar + 1) * Y)
  (Hbr : br * T <= B < (br + 1) * T) (Hbr0 : 0 < br) (Hbr' : B = br * T \/ 2 ^ 31 <= br)
  (Hrr : rr * br <= ar < (rr + 1) * br) (Hrr' : 2 ^ 31 <= rr)
  (Hr : r * V <= rr * U < (r + 1) * V).

Lemma div30_upper : 2 ^ 31 * (r * B) <= (2 ^ 31 + 1) * (A * 2 ^ 48).
Proof.
  assert (H1 : 2 ^ 31 * B <= (2 ^ 31 + 1) * (br * T)) by nia.
  assert (H2 : 0 <= rr * U * X) by nia.
  assert (H3 : 2 ^ 31 * B * (rr * U * X) <= (2 ^ 31 + 1) * (br * T) * (rr * U * X)) by nia.
  assert (H4 : rr * br * (U * T * X) <= ar * (U * T * X)) by nia.
  rewrite Hscale in H4.
  assert (H5 : ar * (V * 2 ^ 48 * Y) <= A * X * (V * 2 ^ 48)) by nia.
  assert (0 <= B * X) by nia.
  assert (H6 : r * V * (B * X) <= rr * U * (B * X)) by nia.
  apply (Z.mul_le_mono_pos_r _ _ (V * X)); [nia|].
  replace (2 ^ 31 * (r * B) * (V * X)) with (2 ^ 31 * (r * V * (B * X))) by ring.
  replace ((2 ^ 31 + 1) * (A * 2 ^ 48) * (V * X)) with ((2 ^ 31 + 1) * (A * X * (V * 2 ^ 48))) by ring.
  replace ((2 ^ 31 + 1) * (br * T) * (rr * U * X)) with ((2 ^ 31 + 1) * (rr * br * (U * T * X))) in H3 by ring.
  rewrite Hscale in H3.
  replace (2 ^ 31 * B * (rr * U * X)) with (2 ^ 31 * (rr * U * (B * X))) in H3 by ring. lia.
Qed.

Lemma div30_lower : 2 ^ 31 * (A * 2 ^ 48) < (2 ^ 31 + 1) * ((r + 1) * B).
Proof.
  assert (H1 : A * X < (rr + 1) * br * Y) by nia.
  assert (H2 : 2 ^ 31 * ((rr + 1) * (br * Y)) <= (2 ^ 31 + 1) * (rr * (br * Y))) by nia.
  assert (H3 : rr * U * (br * T * X) <= (r + 1) * V * (br * T * X)) by nia.
  assert (H4 : (r + 1) * V * X * (br * T) <= (r + 1) * V * X * B).
  { apply Z.mul_le_mono_nonneg_l; [nia|lia]. }
  apply (Z.mul_lt_mono_pos_r (V * X)); [nia|].
  assert (H5 : 2 ^ 31 * (A * X) * (V * 2 ^ 48) < (2 ^ 31 + 1) * (rr * (br * Y)) * (V * 2 ^ 48)) by nia.
  replace ((2 ^ 31 + 1) * (rr * (br * Y)) * (V * 2 ^ 48))
    with ((2 ^ 31 + 1) * (rr * br * (V * 2 ^ 48 * Y))) in H5 by ring.
  rewrite <- Hscale in H5.
  replace (rr * br * (U * T * X)) with (rr * U * (br * T * X)) in H5 by ring.
  replace ((r + 1) * V * (br * T * X)) with ((r + 1) * V * X * (br * T)) in H3 by ring.
  replace (2 ^ 31 * (A * 2 ^ 48) * (V * X)) with (2 ^ 31 * (A * X) * (V * 2 ^ 48)) by ring.
  replace ((2 ^ 31 + 1) * ((r + 1) * B) * (V * X)) with ((2 ^ 31 + 1) * ((r + 1) * V * X * B)) by ring.
  lia.
Qed.

End accuracy.

Lemma leading_zeros128_spec v :
  0 < v < 2 ^ 127 ->
  1 <= leading_zeros128 v <= 127 /\
  2 ^ (127 - leading_zeros128 v) <= v < 2 ^ (128 - leading_zeros128 v).
Proof.
  intros Hv. unfold leading_zeros128. rewrite (proj2 (Z.eqb_neq v 0)) by lia.
  pose proof (Z.log2_spec v ltac:(lia)) as Hl. pose proof (Z.log2_nonneg v).
  pose proof (Z.log2_lt_pow2 v 127 ltac:(lia)) as [Hlt _]. specialize (Hlt ltac:(lia)).
  replace (127 - (127 - Z.log2 v)) with (Z.log2 v) by lia.
  replace (128 - (127 - Z.log2 v)) with (Z.succ (Z.log2 v)) by lia. lia.
Qed.

Lemma leading_zeros64_spec v :
  0 < v < 2 ^ 64 ->
  0 <= leading_zeros64 v <= 63 /\
  2 ^ (63 - leading_zeros64 v) <= v < 2 ^ (64 - leading_zeros64 v).
Proof.
  intros Hv. unfold leading_zeros64. rewrite (proj2 (Z.eqb_neq v 0)) by lia.
  pose proof (Z.log2_spec v ltac:(lia)) as Hl. pose proof (Z.log2_nonneg v).
  pose proof (Z.log2_lt_pow2 v 64 ltac:(lia)) as [Hlt _]. specialize (Hlt ltac:(lia)).
  replace (63 - (63 - Z.log2 v)) with (Z.log2 v) by lia.
  replace (64 - (63 - Z.log2 v)) with (Z.succ (Z.log2 v)) by lia. lia.
Qed.

Lemma shl128_ok v s : 0 <= s <= 127 -> 0 <= v * 2 ^ s < 2 ^ 128 -> shl128 v s = Done (v * 2 ^ s).
Proof.
  intros Hs Hv. unfold shl128, assert_. rewrite (proj2 (in_range_true _ _ _) Hs). run.
  unfold as_u128. rewrite Z.shiftl_mul_pow2, Z.mod_small by lia. done.
Qed.

Lemma shr128_ok v s : 0 <= s <= 127 -> shr128 v s = Done (v / 2 ^ s).
Proof.
  intros Hs. unfold shr128, assert_. rewrite (proj2 (in_range_true _ _ _) Hs). run.
  by rewrite Z.shiftr_div_pow2 by lia.
Qed.

Lemma div_pow2_bounds v s : 0 <= s ->
  v / 2 ^ s * 2 ^ s <= v < (v / 2 ^ s + 1) * 2 ^ s.
Proof.
  intros Hs. pose proof (Z.pow_pos_nonneg 2 s ltac:(lia) Hs).
  pose proof (Z.div_mod v (2 ^ s)). pose proof (Z.mod_pos_bound v (2 ^ s)). lia.
Qed.

Lemma top64_ok A :
  0 < A < 2 ^ 127 ->
  exists sl sr ar, top64 A (leading_zeros128 A) = Done (sl - sr, ar) /\
    0 <= sl <= 63 /\ 0 <= sr <= 63 /\
    ar * 2 ^ sr <= A * 2 ^ sl < (ar + 1) * 2 ^ sr /\ 2 ^ 63 <= ar < 2 ^ 64.
Proof.
  intros HA. destruct (leading_zeros128_spec A HA) as [Hz [Hl Hu]].
  set (z := leading_zeros128 A) in *. unfold top64.
  destruct (Z.leb_spec 64 z) as [L|L].
  - assert (E1 : 2 ^ (127 - z) * 2 ^ (z - 64) = 2 ^ 63) by (rewrite <- Z.pow_add_r by lia; f_equal; lia).
    assert (E2 : 2 ^ (128 - z) * 2 ^ (z - 64) = 2 ^ 64) by (rewrite <- Z.pow_add_r by lia; f_equal; lia).
    pose proof (Z.pow_pos_nonneg 2 (z - 64) ltac:(lia) ltac:(lia)).
    assert (2 ^ 63 <= A * 2 ^ (z - 64) < 2 ^ 64) by nia.
    rewrite shl128_ok by lia. run. exists (z - 64), 0, (A * 2 ^ (z - 64)).
    unfold as_u64. rewrite Z.mod_small, Z.sub_0_r by lia. change (2 ^ 0) with 1.
    split_and!; (done || lia).
  - assert (E1 : 2 ^ (127 - z) = 2 ^ 63 * 2 ^ (64 - z)) by (rewrite <- Z.pow_add_r by lia; f_equal; lia).
    assert (E2 : 2 ^ (128 - z) = 2 ^ 64 * 2 ^ (64 - z)) by (rewrite <- Z.pow_add_r by lia; f_equal; lia).
    pose proof (Z.pow_pos_nonneg 2 (64 - z) ltac:(lia) ltac:(lia)).
    assert (2 ^ 63 <= A / 2 ^ (64 - z)) by (apply Z.div_le_lower_bound; lia).
    assert (A / 2 ^ (64 - z) < 2 ^ 64) by (apply Z.div_lt_upper_bound; lia).
    rewrite shr128_ok by lia. run. exists 0, (64 - z), (A / 2 ^ (64 - z)).
    unfold as_u64. rewrite Z.mod_small by lia. change (2 ^ 0) with 1.
    pose proof (div_pow2_bounds A (64 - z) ltac:(lia)). split_and!; (done || lia).
Qed.

Lemma top32_ok B :
  0 < B < 2 ^ 127 ->
  exists t br, top32 B (leading_zeros128 B) = Done (- t, br) /\
    0 <= t <= 95 /\ br * 2 ^ t <= B < (br + 1) * 2 ^ t /\ 0 < br < 2 ^ 32 /\
    (B = br * 2 ^ t \/ 2 ^ 31 <= br).
Proof.
  intros HB. destruct (leading_zeros128_spec B HB) as [Hz [Hl Hu]].
  set (z := leading_zeros128 B) in *. unfold top32.
  destruct (Z.leb_spec 96 z) as [L|L].
  - assert (2 ^ (128 - z) <= 2 ^ 32) by (apply Z.pow_le_mono_r; lia).
    exists 0, B. unfold as_u64. rewrite Z.mod_small by lia. change (2 ^ 0) with 1.
    split_and!; (done || lia).
  - assert (E1 : 2 ^ (127 - z) = 2 ^ 31 * 2 ^ (96 - z)) by (rewrite <- Z.pow_add_r by lia; f_equal; lia).
    assert (E2 : 2 ^ (128 - z) = 2 ^ 32 * 2 ^ (96 - z)) by (rewrite <- Z.pow_add_r by lia; f_equal; lia).
    pose proof (Z.pow_pos_nonneg 2 (96 - z) ltac:(lia) ltac:(lia)).
    assert (2 ^ 31 <= B / 2 ^ (96 - z)) by (apply Z.div_le_lower_bound; lia).
    assert (B / 2 ^ (96 - z) < 2 ^ 32) by (apply Z.div_lt_upper_bound; lia).
    rewrite shr128_ok by lia. run. exists (96 - z), (B / 2 ^ (96 - z)).
    unfold as_u64. rewrite Z.mod_small by lia.
    pose proof (div_pow2_bounds B (96 - z) ltac:(lia)). split_and!; (done || lia).
Qed.

(** The quotient of magnitudes: within one unit and a relative error of 2^-31, unless
    the result reaches 2^127. *)
Definition div30_spec (A B : Z) (o : option Z) : Prop :=
  match o with
  | None => 2 ^ 31 * (2 ^ 127 * B) <= (2 ^ 31 + 1) * (A * 2 ^ 48)
  | Some r => 0 <= r < 2 ^ 127 /\
      2 ^ 31 * (r * B) <= (2 ^ 31 + 1) * (A * 2 ^ 48) /\
      2 ^ 31 * (A * 2 ^ 48) < (2 ^ 31 + 1) * ((r + 1) * B)
  end.

Lemma shift_back_ok A B ar br sl sr t :
  0 <= sl <= 63 -> 0 <= sr <= 63 -> ar * 2 ^ sr <= A * 2 ^ sl < (ar + 1) * 2 ^ sr ->
  2 ^ 63 <= ar < 2 ^ 64 -> 0 <= t <= 95 -> br * 2 ^ t <= B < (br + 1) * 2 ^ t ->
  0 < br < 2 ^ 32 -> B = br * 2 ^ t \/ 2 ^ 31 <= br ->
  exists o, shift_back ar br (sl - sr) (- t) = Done o /\ div30_spec A B o.
Proof.
  intros Hsl Hsr Har Har' Ht Hbr Hbr0 Hbr'. unfold shift_back.
  rewrite (proj2 (Z.eqb_neq br 0)) by lia. simpl. run.
  set (rr := ar / br). set (s := 48 + - t - (sl - sr)).
  assert (Hrr : rr * br <= ar < (rr + 1) * br).
  { pose proof (Z.div_mod ar br). pose proof (Z.mod_pos_bound ar br). subst rr. lia. }
  assert (Hrr' : 2 ^ 31 <= rr) by nia.
  assert (Hrr64 : rr < 2 ^ 64) by nia.
  destruct (leading_zeros64_spec rr ltac:(lia)) as [Hz [Hzl Hzu]]. set (z := leading_zeros64 rr) in *.
  pose proof (Z.pow_pos_nonneg 2 sl ltac:(lia) ltac:(lia)).
  pose proof (Z.pow_pos_nonneg 2 sr ltac:(lia) ltac:(lia)).
  pose proof (Z.pow_pos_nonneg 2 t ltac:(lia) ltac:(lia)).
  assert (Hpos : 0 <= s -> 2 ^ s * 2 ^ t * 2 ^ sl = 1 * 2 ^ 48 * 2 ^ sr).
  { intros. rewrite Z.mul_1_l, <- !Z.pow_add_r by lia. f_equal. lia. }
  assert (Hup : forall r, 0 <= s -> r * 1 <= rr * 2 ^ s < (r + 1) * 1 ->
    2 ^ 31 * (r * B) <= (2 ^ 31 + 1) * (A * 2 ^ 48)).
  { intros r Hs Hr. pose proof (Z.pow_pos_nonneg 2 s ltac:(lia) Hs).
    apply (div30_upper A B ar br rr r (2 ^ sl) (2 ^ sr) (2 ^ t) (2 ^ s) 1); (done || lia). }
  destruct (Z.ltb_spec (63 + z) s) as [L|L].
  - exists None. split; [done|]. simpl. specialize (Hup (rr * 2 ^ s) ltac:(lia) ltac:(lia)).
    assert (2 ^ (63 - z) * 2 ^ s = 2 ^ (63 - z + s)) by (rewrite <- Z.pow_add_r by lia; done).
    assert (2 ^ 127 <= 2 ^ (63 - z + s)) by (apply Z.pow_le_mono_r; lia).
    pose proof (Z.pow_pos_nonneg 2 s ltac:(lia) ltac:(lia)).
    assert (2 ^ 127 <= rr * 2 ^ s) by nia. assert (0 <= B) by nia. nia.
  - destruct (Z.leb_spec 0 s) as [Ls|Ls].
    + pose proof (Z.pow_pos_nonneg 2 s ltac:(lia) ltac:(lia)).
      assert (2 ^ (64 - z) * 2 ^ s = 2 ^ (64 - z + s)) by (rewrite <- Z.pow_add_r by lia; done).
      assert (2 ^ (64 - z + s) <= 2 ^ 127) by (apply Z.pow_le_mono_r; lia).
      assert (0 <= rr * 2 ^ s < 2 ^ 127) by nia.
      rewrite shl128_ok by lia. run. eexists. split; [done|]. split_and!; [lia|lia|..].
      * apply Hup; lia.
      * apply (div30_lower A B ar br rr (rr * 2 ^ s) (2 ^ sl) (2 ^ sr) (2 ^ t) (2 ^ s) 1);
          (done || lia).
    + rewrite shr128_ok by lia. run. eexists. split; [done|].
      pose proof (Z.pow_pos_nonneg 2 (- s) ltac:(lia) ltac:(lia)).
      assert (Hneg : 1 * 2 ^ t * 2 ^ sl = 2 ^ (- s) * 2 ^ 48 * 2 ^ sr).
      { rewrite Z.mul_1_l, <- !Z.pow_add_r by lia. f_equal. lia. }
      pose proof (div_pow2_bounds rr (- s) ltac:(lia)).
      assert (0 <= rr / 2 ^ (- s)) by (apply Z.div_pos; lia). split_and!; [lia|nia|..].
      * apply (div30_upper A B ar br rr _ (2 ^ sl) (2 ^ sr) (2 ^ t) 1 (2 ^ (- s))); (done || lia).
      * apply (div30_lower A B ar br rr _ (2 ^ sl) (2 ^ sr) (2 ^ t) 1 (2 ^ (- s))); (done || lia).
Qed.

Lemma div30_magnitude A B :
  0 <= A < 2 ^ 127 -> 0 < B < 2 ^ 127 ->
  exists o, ('(an_shift, ar) ← top64 A (leading_zeros128 A);
             '(bn_shift, br) ← top32 B (leading_zeros128 B);
             shift_back ar br an_shift bn_shift) = Done o /\ div30_spec A B o.
Proof.
  intros HA HB. destruct (top32_ok B HB) as (t & br & Eb & Ht & Hbr & Hbr0 & Hbr').
  destruct (Z.eq_dec A 0) as [-> | HA0].
  - change (top64 0 (leading_zeros128 0)) with (Done (64, 0)). run. rewrite Eb. run.
    exists (Some 0). split; [|simpl; lia].
    unfold shift_back. rewrite (proj2 (Z.eqb_neq br 0)) by lia. simpl. run.
    rewrite Z.div_0_l by lia. change (leading_zeros64 0) with 64.
    rewrite (proj2 (Z.ltb_ge _ _)) by lia. rewrite (proj2 (Z.leb_gt _ _)) by lia.
    rewrite shr128_ok by lia. run. by rewrite Z.div_0_l by (apply Z.pow_nonzero; lia).
  - destruct (top64_ok A ltac:(lia)) as (sl & sr & ar & Ea & Hsl & Hsr & Har & Har').
    rewrite Ea. run. rewrite Eb. run. by apply shift_back_ok.
Qed.

Lemma as_i128_ok r : 0 <= r < 2 ^ 127 -> as_i128 r = r.
Proof.
  intros Hr. unfold as_i128, as_u128. rewrite Z.mod_small by lia.
  by rewrite (proj2 (Z.leb_le _ _)) by (unfold I128_MAX; lia).
Qed.

(** The sign of the result and the magnitude. *)
Definition signed (neg : bool) (o : option Z) : option Z :=
  (fun r => if neg then - r else r) <$> o.

(** C40: [checked_div_30bit_precision] never panics on operands other than
    [i128::MIN]; it returns [None] for a zero divisor; otherwise its result has the sign
    of the quotient and its magnitude differs from that of the exact quotient by a
    relative error of at most 2^-31 and one unit in the last place; [None] for a nonzero
    divisor means the quotient does not fit (up to the same relative error). *)
Theorem checked_div_30bit_accurate a b :
  I128_MIN < a <= I128_MAX -> I128_MIN < b <= I128_MAX ->
  if b =? 0 then checked_div_30bit_precision a b = Done None
  else exists o,
    checked_div_30bit_precision a b = Done (signed (xorb (a <? 0) (b <? 0)) o) /\
    div30_spec (Z.abs a) (Z.abs b) o.
Proof.
  intros Ha Hb. destruct (Z.eqb_spec b 0) as [-> | Hb0].
  - by unfold checked_div_30bit_precision.
  - assert (Habs : forall v, I128_MIN < v <= I128_MAX ->
      (if v <? 0 then i128 (- v) else Done v) = Done (Z.abs v)).
    { intros v Hv. destruct (Z.ltb_spec v 0); [rewrite i128_ok by (unfold is_i128, I128_MIN, I128_MAX in *; lia)|];
        f_equal; lia. }
    unfold I128_MIN, I128_MAX in Ha, Hb.
    destruct (div30_magnitude (Z.abs a) (Z.abs b)) as (o & E & S); [lia|lia|].
    exists o. split; [|done]. unfold checked_div_30bit_precision.
    rewrite (proj2 (Z.eqb_neq b 0)), !Habs by (done || unfold I128_MIN, I128_MAX; lia). run.
    apply bind_Done_inv in E as ([s1 ar] & -> & E). run.
    apply bind_Done_inv in E as ([s2 br] & -> & E). run. rewrite E. run.
    destruct o as [r|]; [|done]. destruct S as [Hr _]. rewrite as_i128_ok by lia.
    destruct (xorb _ _); simpl; [|done].
    by rewrite i128_ok by (unfold is_i128, I128_MIN, I128_MAX; lia).
Qed.

(** The witness of C40: one third, at a resolution of 2^-48. *)
Lemma checked_div_30bit_accurate_witness :
  exists r, checked_div_30bit_precision fx_one (3 * fx_one) = Done (Some r) /\
    2 ^ 31 * (fx_one * 2 ^ 48) < (2 ^ 31 + 1) * ((r + 1) * (3 * fx_one)).
Proof.
  destruct (checked_div_30bit_accurate fx_one (3 * fx_one)) as (o & E & S);
    [split; vm_compute; congruence..|].
  destruct o as [r|].
  - exists r. split; [exact E|apply S].
  - vm_compute in E. discriminate E.
Defined.

End LowPrecisionDivision.
