(* ===== verification/HealthType.v ===== *)
(** * The health interface

    The kinds of health of health/cache.rs, and the interface through which the rest of
    the program reads health: an account's checks ask a [HealthSource] for one kind at a
    time. [HealthCache] is the program's implementation; three given values are another. *)

From stdpp Require Import base decidable countable.
From S2P Require Import Prelude.

Inductive HealthType : Set := Init | Maint | LiquidationEnd.

#[export] Instance HealthType_eq_dec : EqDecision HealthType.
Proof. solve_decision. Defined.

(** What a client may ask of a health computation; it may panic, as the arithmetic does. *)
Class HealthSource (C : Type) := health_of : C -> HealthType -> outcome Z.

(** Given healths. *)
Record Healths := mkHealths { h_init : Z; h_maint : Z; h_liq_end : Z }.

#[export] Instance healths_source : HealthSource Healths := fun h t =>
  Done match t with Init => h_init h | Maint => h_maint h | LiquidationEnd => h_liq_end h end.
