(* ===== verification/TokenPosition.v ===== *)
(** * Token positions

    [TokenPosition] of state/mango_account_components.rs: the position of an account in a
    token, scaled by the deposit or borrow index of the token's bank. *)

From stdpp Require Import base numbers list.
From Stdlib Require Import ZArith Lia SpecFloat.
From S2P Require Import Prelude FixedPoint.

Open Scope Z_scope.

Record TokenPosition := mkTokenPosition {
  tp_indexed_position : Z;
  tp_token_index : Z;
  tp_in_use_count : Z;
  tp_previous_index : Z;
  tp_cumulative_deposit_interest : f64;
  tp_cumulative_borrow_interest : f64
}.

#[export] Instance eta_TokenPosition : Eta TokenPosition := fun t =>
  mkTokenPosition
    (tp_indexed_position t) (tp_token_index t) (tp_in_use_count t) (tp_previous_index t)
    (tp_cumulative_deposit_interest t) (tp_cumulative_borrow_interest t).

Definition set_tp_indexed_position (t : TokenPosition) (v : Z) : TokenPosition := t <| tp_indexed_position := v |>.
Definition set_tp_token_index (t : TokenPosition) (v : Z) : TokenPosition := t <| tp_token_index := v |>.
Definition set_tp_in_use_count (t : TokenPosition) (v : Z) : TokenPosition := t <| tp_in_use_count := v |>.
Definition set_tp_previous_index (t : TokenPosition) (v : Z) : TokenPosition := t <| tp_previous_index := v |>.
Definition set_tp_cumulative_deposit_interest (t : TokenPosition) (v : f64) : TokenPosition := t <| tp_cumulative_deposit_interest := v |>.
Definition set_tp_cumulative_borrow_interest (t : TokenPosition) (v : f64) : TokenPosition := t <| tp_cumulative_borrow_interest := v |>.

(** [TokenIndex::MAX], the index of an unused token position. *)
Definition TOKEN_INDEX_MAX : Z := U16_MAX.

Module Token.

Definition default : TokenPosition := mkTokenPosition 0 TOKEN_INDEX_MAX 0 0 f_zero f_zero.

Definition is_active (t : TokenPosition) : bool := negb (tp_token_index t =? TOKEN_INDEX_MAX).

Definition is_active_for_token (t : TokenPosition) (token_index : Z) : bool :=
  tp_token_index t =? token_index.

Definition is_in_use (t : TokenPosition) : bool := 0 <? tp_in_use_count t.

Definition increment_in_use (t : TokenPosition) : outcome TokenPosition :=
  n ← u16 (tp_in_use_count t + 1); Done (set_tp_in_use_count t n).

Definition decrement_in_use (t : TokenPosition) : TokenPosition :=
  set_tp_in_use_count t (Z.max 0 (tp_in_use_count t - 1)).

End Token.
