(* ===== verification/OrderTypes.v ===== *)
(** * Order types

    The enumerations of state/orderbook/order_type.rs and bookside.rs and the
    price comparisons of [Side]. Prices are [i64] lots, price data are [u64]. *)

From stdpp Require Import base numbers.
From S2P Require Import Prelude.

Open Scope Z_scope.

Inductive Side : Set := Bid | Ask.

#[export] Instance Side_eq_dec : EqDecision Side.
Proof. solve_decision. Defined.

Inductive PlaceOrderType : Set :=
| PLimit | PImmediateOrCancel | PPostOnly | PMarket | PPostOnlySlide.

Inductive PostOrderType : Set :=
| Limit | PostOnly | PostOnlySlide.

#[export] Instance PostOrderType_eq_dec : EqDecision PostOrderType.
Proof. solve_decision. Defined.

Inductive SelfTradeBehavior : Set :=
| DecrementTake | CancelProvide | AbortTransaction.

Inductive BookSideOrderTree : Set := Fixed | OraclePegged.

#[export] Instance BookSideOrderTree_eq_dec : EqDecision BookSideOrderTree.
Proof. solve_decision. Defined.

Inductive SideAndOrderTree : Set :=
| BidFixed | AskFixed | BidOraclePegged | AskOraclePegged.

Definition to_post_order_type (t : PlaceOrderType) : result PostOrderType :=
  match t with
  | PMarket => Err error_msg
  | PImmediateOrCancel => Err error_msg
  | PLimit => Ok Limit
  | PPostOnly => Ok PostOnly
  | PPostOnlySlide => Ok PostOnlySlide
  end.

Definition invert_side (s : Side) : Side :=
  match s with Bid => Ask | Ask => Bid end.

Definition is_price_data_better (s : Side) (lhs rhs : Z) : bool :=
  match s with Bid => rhs <? lhs | Ask => lhs <? rhs end.

Definition is_price_better (s : Side) (lhs rhs : Z) : bool :=
  match s with Bid => rhs <? lhs | Ask => lhs <? rhs end.

Definition is_price_within_limit (s : Side) (price limit : Z) : bool :=
  match s with Bid => price <=? limit | Ask => limit <=? price end.

Module SideAndTree.

Definition new (side : Side) (order_tree : BookSideOrderTree) : SideAndOrderTree :=
  match side, order_tree with
  | Bid, Fixed => BidFixed
  | Ask, Fixed => AskFixed
  | Bid, OraclePegged => BidOraclePegged
  | Ask, OraclePegged => AskOraclePegged
  end.

Definition side (s : SideAndOrderTree) : Side :=
  match s with
  | BidFixed | BidOraclePegged => Bid
  | AskFixed | AskOraclePegged => Ask
  end.

Definition order_tree (s : SideAndOrderTree) : BookSideOrderTree :=
  match s with
  | BidFixed | AskFixed => Fixed
  | BidOraclePegged | AskOraclePegged => OraclePegged
  end.

Lemma side_new s t : side (new s t) = s.
Proof. by destruct s, t. Qed.

Lemma order_tree_new s t : order_tree (new s t) = t.
Proof. by destruct s, t. Qed.

End SideAndTree.

#[export] Hint Rewrite SideAndTree.side_new SideAndTree.order_tree_new : mango_rw.

(** A price is acceptable for a taker's limit exactly when the limit is not
    strictly better for the maker's (opposite) side. *)
Lemma within_limit_iff_not_better s price limit :
  is_price_within_limit s price limit
  = negb (is_price_better (invert_side s) limit price).
Proof. destruct s; simpl; lia. Qed.

Lemma invert_side_involutive s : invert_side (invert_side s) = s.
Proof. by destruct s. Qed.
