(* ===== verification/Nodes.v ===== *)
(** * Order tree nodes

    state/orderbook/nodes.rs: the node keys of the order tree, the fixed and
    oracle-pegged price data stored in their top 64 bits, and the node records.
    An [AnyNode] is the tagged union its [tag] byte describes; the padding and
    reserved bytes carry no information and are left out. *)

From stdpp Require Import base numbers list.
From Stdlib Require Import ZArith Lia.
From S2P Require Import Prelude OrderTypes.

Open Scope Z_scope.

(** ** Keys and price data *)

(** [!seq_num] on [u64]. *)
Definition not_u64 (v : Z) : Z := U64_MAX - v.

Definition new_node_key (side : Side) (price_data seq_num : Z) : Z :=
  let seq_num := match side with Bid => not_u64 seq_num | Ask => seq_num end in
  let upper := Z.shiftl price_data 64 in
  Z.lor upper seq_num.

Definition oracle_pegged_price_data (price_offset_lots : Z) : Z :=
  as_u64 (as_u64 price_offset_lots + (U64_MAX / 2 + 1)).

Definition oracle_pegged_price_offset (price_data : Z) : Z :=
  as_i64 (as_u64 (price_data - (U64_MAX / 2 + 1))).

Definition fixed_price_data (price_lots : Z) : outcome Z :=
  _ ← require (1 <=? price_lots) ERequireGte;
  Done (as_u64 price_lots).

Definition fixed_price_lots (price_data : Z) : outcome Z :=
  _ ← assert_ (price_data <=? I64_MAX);
  Done (as_i64 price_data).

(** ** Nodes *)

(** A [NodeHandle] is a [u32] index into [OrderTreeNodes::nodes]; it is only
    ever used [as usize] to index the array. *)
Abbreviation NodeHandle := nat (only parsing).

(** A 32-byte account address. *)
Abbreviation Pubkey := Z (only parsing).

Record InnerNode := mkInnerNode {
  inner_prefix_len : Z;
  inner_key : Z;
  inner_children : NodeHandle * NodeHandle;
  inner_child_earliest_expiry : Z * Z
}.

Record LeafNode := mkLeafNode {
  owner_slot : Z;
  leaf_order_type : PostOrderType;
  time_in_force : Z;
  leaf_key : Z;
  owner : Pubkey;
  quantity : Z;
  timestamp : Z;
  leaf_peg_limit : Z;
  leaf_client_order_id : Z
}.

Record FreeNode := mkFreeNode {
  free_last : bool;          (* [LastFreeNode] rather than [FreeNode] *)
  free_next : NodeHandle
}.

Inductive AnyNode :=
| NUninitialized
| NInner (n : InnerNode)
| NLeaf (n : LeafNode)
| NFree (n : FreeNode).

#[export] Instance LeafNode_eq_dec : EqDecision LeafNode.
Proof. solve_decision. Defined.

Inductive NodeRef :=
| RInner (n : InnerNode)
| RLeaf (n : LeafNode).

(** Indexing a two-element array with [b as usize]. *)
Definition sel {A} (p : A * A) (b : bool) : A := if b then snd p else fst p.

Definition upd {A} (p : A * A) (b : bool) (v : A) : A * A :=
  if b then (fst p, v) else (v, snd p).

(** *** [InnerNode] *)

Definition inner_new (prefix_len key : Z) : InnerNode :=
  mkInnerNode prefix_len key (0%nat, 0%nat) (U64_MAX, U64_MAX).

Definition walk_down (n : InnerNode) (search_key : Z) : outcome (NodeHandle * bool) :=
  sh ← u32 (127 - inner_prefix_len n);
  let crit_bit_mask := Z.shiftl 1 sh in
  let crit_bit := negb (Z.land search_key crit_bit_mask =? 0) in
  Done (sel (inner_children n) crit_bit, crit_bit).

Definition inner_earliest_expiry (n : InnerNode) : Z :=
  Z.min (fst (inner_child_earliest_expiry n)) (snd (inner_child_earliest_expiry n)).

(** *** [LeafNode] *)

Definition leaf_new (owner_slot key : Z) (owner : Pubkey) (quantity timestamp : Z)
    (order_type : PostOrderType) (time_in_force peg_limit client_order_id : Z) : LeafNode :=
  mkLeafNode owner_slot order_type time_in_force key owner quantity timestamp
    peg_limit client_order_id.

Definition price_data (n : LeafNode) : Z := as_u64 (Z.shiftr (leaf_key n) 64).

Definition expiry (n : LeafNode) : outcome Z :=
  if time_in_force n =? 0 then Done U64_MAX
  else u64 (timestamp n + time_in_force n).

Definition is_expired (n : LeafNode) (now_ts : Z) : outcome bool :=
  if 0 <? time_in_force n then
    e ← u64 (timestamp n + time_in_force n);
    Done (e <=? now_ts)
  else Done false.

(** *** [AnyNode] *)

Definition node_case (n : AnyNode) : option NodeRef :=
  match n with
  | NInner i => Some (RInner i)
  | NLeaf l => Some (RLeaf l)
  | _ => None
  end.

Definition node_key (n : AnyNode) : option Z :=
  c ← node_case n;
  match c with
  | RInner i => Some (inner_key i)
  | RLeaf l => Some (leaf_key l)
  end.

Definition children (n : AnyNode) : outcome (option (NodeHandle * NodeHandle)) :=
  c ← unwrap (node_case n);
  match c with
  | RInner i => Done (Some (inner_children i))
  | RLeaf _ => Done None
  end.

Definition as_leaf (n : AnyNode) : option LeafNode :=
  match node_case n with Some (RLeaf l) => Some l | _ => None end.

Definition as_inner (n : AnyNode) : option InnerNode :=
  match node_case n with Some (RInner i) => Some i | _ => None end.

Definition earliest_expiry (n : AnyNode) : outcome Z :=
  c ← unwrap (node_case n);
  match c with
  | RInner i => Done (inner_earliest_expiry i)
  | RLeaf l => expiry l
  end.

(** ** Bit-level lemmas *)

Lemma lor_shiftl_add a b n :
  0 <= n -> 0 <= b < 2 ^ n -> Z.lor (Z.shiftl a n) b = a * 2 ^ n + b.
Proof.
  intros Hn Hb. rewrite Z.shiftl_mul_pow2 by lia.
  assert (Hland : Z.land (a * 2 ^ n) b = 0).
  { apply Z.bits_inj'; intros i Hi. rewrite Z.land_spec, Z.bits_0.
    destruct (Z.lt_ge_cases i n).
    - by rewrite Z.mul_pow2_bits_low.
    - assert (Z.testbit b i = false) as ->; [|apply andb_false_r].
      apply Z.testbit_false; [lia|]. rewrite Z.div_small; [done|].
      pose proof (Z.pow_le_mono_r 2 n i). lia. }
  rewrite <- Z.add_lor_land, Hland. lia.
Qed.

Lemma new_node_key_val side p s :
  is_u64 s ->
  new_node_key side p s
  = p * 2 ^ 64 + match side with Bid => not_u64 s | Ask => s end.
Proof.
  intros Hs. unfold new_node_key, not_u64. unfold_widths.
  destruct side; rewrite lor_shiftl_add; lia.
Qed.

Lemma new_node_key_u128 side p s :
  is_u64 p -> is_u64 s -> is_u128 (new_node_key side p s).
Proof.
  intros Hp Hs. rewrite new_node_key_val by done. unfold not_u64. unfold_widths.
  destruct side; lia.
Qed.

Lemma price_data_key n side p s :
  is_u64 p -> is_u64 s -> leaf_key n = new_node_key side p s -> price_data n = p.
Proof.
  intros Hp Hs E. unfold price_data, as_u64.
  rewrite E, new_node_key_val, Z.shiftr_div_pow2 by (done || lia).
  rewrite Z.div_add_l, Z.div_small, Z.add_0_r by (unfold not_u64; unfold_widths; destruct side; lia).
  apply Z.mod_small. unfold_widths. lia.
Qed.

(** The order in which a side is iterated: descending keys for bids,
    ascending keys for asks. *)
Definition key_before (side : Side) (k1 k2 : Z) : Prop :=
  match side with Bid => k2 < k1 | Ask => k1 < k2 end.

(** Price-time priority. For orders whose keys were made by
    [new_node_key] from price data [p1], [p2] and sequence numbers [s1], [s2],
    iteration order visits the first before the second exactly when its price
    data is better for the side, or the price data are equal and its sequence
    number is smaller. *)
Theorem new_node_key_priority side p1 s1 p2 s2 :
  is_u64 p1 -> is_u64 s1 -> is_u64 p2 -> is_u64 s2 ->
  key_before side (new_node_key side p1 s1) (new_node_key side p2 s2)
  <-> is_price_data_better side p1 p2 = true \/ (p1 = p2 /\ s1 < s2).
Proof.
  intros Hp1 Hs1 Hp2 Hs2. unfold key_before, is_price_data_better.
  rewrite !new_node_key_val by done. unfold not_u64. unfold_widths.
  destruct side; rewrite Z.ltb_lt; nia.
Qed.

(** A concrete instance: a bid at price data 5 and sequence number 3 comes
    before one at the same price data and sequence number 4. *)
Lemma new_node_key_priority_witness :
  key_before Bid (new_node_key Bid 5 3) (new_node_key Bid 5 4).
Proof.
  apply (new_node_key_priority Bid 5 3 5 4);
    [unfold is_u64, U64_MAX; lia.. | right; split; [reflexivity | lia]].
Defined.

Lemma oracle_pegged_price_data_val x :
  is_i64 x -> oracle_pegged_price_data x = x + 2 ^ 63.
Proof.
  intros H. unfold oracle_pegged_price_data, as_u64. unfold_widths.
  change (18446744073709551615 / 2 + 1) with 9223372036854775808.
  rewrite Zplus_mod_idemp_l. rewrite Z.mod_small; lia.
Qed.

Lemma oracle_pegged_price_offset_val d :
  is_u64 d -> oracle_pegged_price_offset d = d - 2 ^ 63.
Proof.
  intros H. unfold oracle_pegged_price_offset, as_i64, as_u64. unfold_widths.
  change (18446744073709551615 / 2 + 1) with 9223372036854775808.
  rewrite Zmod_mod. destruct (Z.lt_ge_cases d 9223372036854775808) as [L|L].
  - rewrite <- (Z.mod_unique_pos (d - 9223372036854775808) (2 ^ 64) (-1)
      (d - 9223372036854775808 + 2 ^ 64)) by lia.
    destruct (Z.leb_spec (d - 9223372036854775808 + 2 ^ 64) 9223372036854775807); lia.
  - rewrite Z.mod_small by lia.
    destruct (Z.leb_spec (d - 9223372036854775808) 9223372036854775807); lia.
Qed.

(** The price data of oracle-pegged orders is an order-preserving bijection
    between [i64] offsets and [u64] price data: the two conversions are mutually
    inverse, and comparing price data compares the offsets. *)
Theorem oracle_pegged_price_data_roundtrip x y :
  is_i64 x -> is_u64 y ->
  is_u64 (oracle_pegged_price_data x)
  /\ oracle_pegged_price_offset (oracle_pegged_price_data x) = x
  /\ oracle_pegged_price_data (oracle_pegged_price_offset y) = y
  /\ (oracle_pegged_price_data x < y <-> x < oracle_pegged_price_offset y).
Proof.
  intros Hx Hy.
  assert (Hd : is_u64 (oracle_pegged_price_data x))
    by (rewrite oracle_pegged_price_data_val by done; unfold_widths; lia).
  rewrite (oracle_pegged_price_offset_val (oracle_pegged_price_data x)) by done.
  rewrite (oracle_pegged_price_offset_val y) by done.
  rewrite (oracle_pegged_price_data_val (y - _)) by (unfold_widths; lia).
  rewrite !oracle_pegged_price_data_val by done.
  rewrite oracle_pegged_price_data_val in Hd by done. split; [done|lia].
Qed.

(** A concrete instance, at the offset -7 and the price data 3. *)
Lemma oracle_pegged_price_data_roundtrip_witness :
  oracle_pegged_price_offset (oracle_pegged_price_data (-7)) = -7.
Proof.
  apply (oracle_pegged_price_data_roundtrip (-7) 3);
    [unfold is_i64, I64_MIN, I64_MAX; lia | unfold is_u64, U64_MAX; lia].
Defined.

Lemma fixed_price_roundtrip p :
  is_i64 p -> 1 <= p -> (fixed_price_data p ≫= fixed_price_lots) = Done p.
Proof.
  intros Hp H1. unfold fixed_price_data, fixed_price_lots, require, assert_.
  rewrite (proj2 (Z.leb_le _ _) H1), !bind_Done. unfold as_u64, as_i64.
  rewrite (Z.mod_small p) by (unfold_widths; lia).
  rewrite (Z.mod_small p) by (unfold_widths; lia).
  rewrite (proj2 (Z.leb_le p I64_MAX)) by (unfold_widths; lia). done.
Qed.
