(* ===== verification/Oracle.v ===== *)
(** * Oracles

    state/oracle.rs and the pool state of state/amm_cpi.rs: prices of native tokens in
    native quote tokens, with their staleness and confidence checks.

    The accounts of Pyth, Switchboard, Orca and Raydium are written by other programs and
    decoded by their crates; [OracleAccount] is what the decoding of an oracle account
    gives, with the fields the program reads. Choosing the kind of an account from its
    first bytes and its owner ([determine_oracle_type]) is part of the decoding. *)

From stdpp Require Import base numbers list.
From Stdlib Require Import ZArith Lia SpecFloat.
From S2P Require Import Prelude FixedPoint Nodes.

Open Scope Z_scope.

Record OracleConfig := mkOracleConfig {
  oc_conf_filter : Z;
  oc_max_staleness_slots : Z
}.

Record OracleConfigParams := mkOracleConfigParams {
  ocp_conf_filter : f32;
  ocp_max_staleness_slots : option Z
}.

Inductive OracleType : Set :=
| Pyth | Stub | SwitchboardV1 | SwitchboardV2 | OrcaCLMM | RaydiumCLMM.

(** The price and slot an oracle reports. *)
Record OracleState := mkOracleState {
  os_price : Z;
  os_deviation : Z;
  os_last_update_slot : Z;
  os_oracle_type : OracleType
}.

(** [i8] arithmetic. *)
Definition i8 (v : Z) : outcome Z := if in_range (-128) 127 v then Done v else Panic.
Definition as_i8 (v : Z) : Z := (v + 128) mod 256 - 128.

Definition DECIMAL_CONSTANT_ZERO_INDEX : Z := 12.

Definition DECIMAL_CONSTANTS : list Z :=
  [ fx_scale / 10 ^ 12; fx_scale / 10 ^ 11 + 1; fx_scale / 10 ^ 10; fx_scale / 10 ^ 9 + 1;
    fx_scale / 10 ^ 8 + 1; fx_scale / 10 ^ 7 + 1; fx_scale / 10 ^ 6 + 1; fx_scale / 10 ^ 5;
    fx_scale / 10 ^ 4; fx_scale / 10 ^ 3 + 1; fx_scale / 10 ^ 2 + 1; fx_scale / 10 ^ 1 + 1;
    fx_scale * 10 ^ 0; fx_scale * 10 ^ 1; fx_scale * 10 ^ 2; fx_scale * 10 ^ 3;
    fx_scale * 10 ^ 4; fx_scale * 10 ^ 5; fx_scale * 10 ^ 6; fx_scale * 10 ^ 7;
    fx_scale * 10 ^ 8; fx_scale * 10 ^ 9; fx_scale * 10 ^ 10; fx_scale * 10 ^ 11;
    fx_scale * 10 ^ 12 ].

(** [x as usize] of a negative number is far out of range of the table. *)
Definition power_of_ten (decimals : Z) : outcome Z :=
  i ← i8 (decimals + DECIMAL_CONSTANT_ZERO_INDEX);
  unwrap (if i <? 0 then None else DECIMAL_CONSTANTS !! Z.to_nat i).

Definition QUOTE_DECIMALS : Z := 6.
Definition SOL_DECIMALS : Z := 9.

(** The mints of USDC and SOL and the addresses of their Pyth feeds on mainnet, the
    base-58 numerals of the source as numbers. *)
Definition pyth_mainnet_usdc_oracle : Pubkey :=
  106124128295830982805785893317931522757774183288326974766346129963242045950282.
Definition pyth_mainnet_sol_oracle : Pubkey :=
  108126702181515628554084146781972289195780414509077983711685306336653919434093.
Definition usdc_mint_mainnet : Pubkey :=
  90000504370102394704099784797280792267247599056409324908524740370261802442081.
Definition sol_mint_mainnet : Pubkey :=
  2988679396378646993494765771507681406623014513651778753134412041978399162369.

Section oracles.
Context `{FixedOps}.

Definition to_oracle_config (p : OracleConfigParams) : outcome OracleConfig :=
  c ← fx_from_f32 (ocp_conf_filter p);
  Done (mkOracleConfig c (match ocp_max_staleness_slots p with Some v => v | None => -1 end)).

(** The checks return a result, because callers go on after an oracle error. *)
Definition check_staleness (s : OracleState) (config : OracleConfig) (now_slot : Z) : result unit :=
  if (0 <=? oc_max_staleness_slots config) &&
     (saturating_add_u64 (os_last_update_slot s) (oc_max_staleness_slots config) <? now_slot)
  then Err (EMango OracleStale) else Ok tt.

Definition check_confidence (s : OracleState) (config : OracleConfig) : outcome (result unit) :=
  limit ← fx_mul (oc_conf_filter config) (os_price s);
  Done (if limit <? os_deviation s then Err (EMango OracleConfidence) else Ok tt).

Definition check_confidence_and_maybe_staleness (s : OracleState) (config : OracleConfig)
    (staleness_slot : option Z) : outcome (result unit) :=
  match staleness_slot with
  | Some now_slot =>
      match check_staleness s config now_slot with
      | Ok _ => check_confidence s config
      | Err e => Done (Err e)
      end
  | None => check_confidence s config
  end.

(** [Result::is_oracle_error]. *)
Definition is_oracle_error {A} (r : result A) : bool :=
  match r with
  | Err e => is_anchor_error_with_code e OracleConfidence || is_anchor_error_with_code e OracleStale
  | Ok _ => false
  end.

Record StubOracle := mkStubOracle {
  so_price : Z;
  so_last_update_slot : Z;
  so_deviation : Z
}.

Definition stub_state (stub : StubOracle) : OracleState :=
  mkOracleState (so_price stub)
    (if so_deviation stub =? 0 then I128_MIN else so_deviation stub)
    (if so_last_update_slot stub =? 0 then U64_MAX else so_last_update_slot stub)
    Stub.

(** The fields of a Pyth price account that are read. *)
Record PythPriceAccount := mkPythPriceAccount {
  py_trading : bool;                       (* [agg.status == Trading] *)
  py_expo : Z;
  py_agg_price : Z; py_agg_conf : Z; py_agg_pub_slot : Z;
  py_prev_price : Z; py_prev_conf : Z; py_prev_slot : Z
}.

(** Price, confidence and publish slot. *)
Definition pyth_get_price (account : PythPriceAccount) : Z * Z * Z :=
  if py_trading account then (py_agg_price account, py_agg_conf account, py_agg_pub_slot account)
  else (py_prev_price account, py_prev_conf account, py_prev_slot account).

Definition get_pyth_state (account : PythPriceAccount) (base_decimals : Z) : outcome OracleState :=
  let '(price_data, conf, last_update_slot) := pyth_get_price account in
  d ← i8 (as_i8 (py_expo account) + QUOTE_DECIMALS);
  decimals ← i8 (d - as_i8 base_decimals);
  decimal_adj ← power_of_ten decimals;
  p ← fx_from_int price_data;
  price ← fx_mul p decimal_adj;
  c ← fx_from_int conf;
  deviation ← fx_mul c decimal_adj;
  _ ← require (0 <=? price) ERequireGte;
  Done (mkOracleState price deviation last_update_slot Pyth).

Record CLMMPoolState := mkCLMMPoolState {
  clmm_sqrt_price : Z;                     (* Q64.64 *)
  clmm_token_mint_a : Pubkey;
  clmm_token_mint_b : Pubkey
}.

Definition is_inverted (p : CLMMPoolState) : bool :=
  (clmm_token_mint_a p =? usdc_mint_mainnet) ||
  ((clmm_token_mint_a p =? sol_mint_mainnet) && negb (clmm_token_mint_b p =? usdc_mint_mainnet)).

Definition get_clmm_price (p : CLMMPoolState) : outcome Z :=
  if is_inverted p then
    let sqrt_price := ufx_to_f64 (clmm_sqrt_price p) in
    let inverted_price := f64_mul sqrt_price sqrt_price in
    fx_from_f64 (f64_div f64_one inverted_price)
  else
    s ← ufx_mul (clmm_sqrt_price p) (clmm_sqrt_price p);
    fx_from_ufx s.

Definition clmm_quote_mint (p : CLMMPoolState) : Pubkey :=
  if is_inverted p then clmm_token_mint_a p else clmm_token_mint_b p.

Definition has_quote_token (p : CLMMPoolState) : bool :=
  ((clmm_token_mint_a p =? usdc_mint_mainnet) || (clmm_token_mint_b p =? usdc_mint_mainnet)) ||
  ((clmm_token_mint_a p =? sol_mint_mainnet) || (clmm_token_mint_b p =? sol_mint_mainnet)).

Definition get_quote_oracle (p : CLMMPoolState) : outcome Pubkey :=
  let mint := clmm_quote_mint p in
  if mint =? usdc_mint_mainnet then Done pyth_mainnet_usdc_oracle
  else if mint =? sol_mint_mainnet then Done pyth_mainnet_sol_oracle
  else Fail (EMango MissingFeedForCLMMOracle).

(** A decoded oracle account; Switchboard feeds give the price and deviation as floats.
    [AUnknown] is an account of none of the known types. *)
Inductive OracleAccount :=
| AStub (stub : StubOracle)
| APyth (account : PythPriceAccount)
| ASwitchboardV2 (ui_price ui_deviation : f64) (round_open_slot : Z)
| ASwitchboardV1 (result max_response min_response : f64) (round_open_slot : Z)
| AOrca (pool : CLMMPoolState)
| ARaydium (pool : CLMMPoolState)
| AUnknown.

Record OracleAccountInfos := mkOracleAccountInfos {
  oai_oracle : Pubkey * OracleAccount;
  oai_fallback_opt : option (Pubkey * OracleAccount);
  oai_usdc_opt : option PythPriceAccount;
  oai_sol_opt : option PythPriceAccount
}.

Definition quote_state_unchecked (p : CLMMPoolState) (acc_infos : OracleAccountInfos) :
    outcome OracleState :=
  let quote_mint := clmm_quote_mint p in
  if quote_mint =? usdc_mint_mainnet then
    usd_feed ← ok_or (oai_usdc_opt acc_infos) (EMango MissingFeedForCLMMOracle);
    get_pyth_state usd_feed QUOTE_DECIMALS
  else if quote_mint =? sol_mint_mainnet then
    sol_feed ← ok_or (oai_sol_opt acc_infos) (EMango MissingFeedForCLMMOracle);
    get_pyth_state sol_feed SOL_DECIMALS
  else Fail (EMango MissingFeedForCLMMOracle).

(** The state of a Switchboard feed from its prices in whole tokens. *)
Definition switchboard_state (ui_price ui_deviation : Z) (last_update_slot base_decimals : Z)
    (t : OracleType) : outcome OracleState :=
  decimals ← i8 (QUOTE_DECIMALS - as_i8 base_decimals);
  decimal_adj ← power_of_ten decimals;
  price ← fx_mul ui_price decimal_adj;
  deviation ← fx_mul ui_deviation decimal_adj;
  _ ← require (0 <=? price) ERequireGte;
  Done (mkOracleState price deviation last_update_slot t).

Definition clmm_state (pool : CLMMPoolState) (acc_infos : OracleAccountInfos) (t : OracleType) :
    outcome OracleState :=
  clmm_price ← get_clmm_price pool;
  q ← quote_state_unchecked pool acc_infos;
  price ← fx_mul clmm_price (os_price q);
  Done (mkOracleState price (os_deviation q) (os_last_update_slot q) t).

Definition oracle_state_unchecked_inner (acc_infos : OracleAccountInfos) (base_decimals : Z)
    (use_fallback : bool) : outcome OracleState :=
  oracle_info ←
    (if use_fallback then ok_or (oai_fallback_opt acc_infos) (EMango UnknownOracleType)
     else Done (oai_oracle acc_infos));
  match snd oracle_info with
  | AStub stub => Done (stub_state stub)
  | APyth account => get_pyth_state account base_decimals
  | ASwitchboardV2 ui_price ui_deviation slot =>
      p ← fx_from_f64 ui_price;
      d ← fx_from_f64 ui_deviation;
      switchboard_state p d slot base_decimals SwitchboardV2
  | ASwitchboardV1 result max_response min_response slot =>
      p ← fx_from_f64 result;
      d ← fx_from_f64 (f64_sub max_response min_response);
      switchboard_state p d slot base_decimals SwitchboardV1
  | AOrca pool => clmm_state pool acc_infos OrcaCLMM
  | ARaydium pool => clmm_state pool acc_infos RaydiumCLMM
  | AUnknown => Fail (EMango UnknownOracleType)
  end.

Definition oracle_state_unchecked (acc_infos : OracleAccountInfos) (base_decimals : Z) :
    outcome OracleState :=
  oracle_state_unchecked_inner acc_infos base_decimals false.

Definition fallback_oracle_state_unchecked (acc_infos : OracleAccountInfos) (base_decimals : Z) :
    outcome OracleState :=
  oracle_state_unchecked_inner acc_infos base_decimals true.

Definition check_is_valid_fallback_oracle (default_key key : Pubkey) (account : OracleAccount) :
    outcome unit :=
  if key =? default_key then Done tt
  else
    valid_oracle ←
      match account with
      | AOrca pool | ARaydium pool => Done (has_quote_token pool)
      | AUnknown => Fail (EMango UnknownOracleType)
      | _ => Done true
      end;
    require valid_oracle (EMango UnexpectedOracle).

End oracles.

(** ** Properties *)

(** The table of powers of ten is rounded to nearest: between -12 and 12 decimals the
    constant is within half a unit in the last place, and other exponents panic. *)
Definition power_of_ten_nearest (d : Z) : bool :=
  match power_of_ten d with
  | Done p => if 0 <=? d then p =? 10 ^ d * fx_scale
              else 2 * Z.abs (p * 10 ^ (- d) - fx_scale) <=? 10 ^ (- d)
  | _ => false
  end.

Lemma power_of_ten_accurate d : -12 <= d <= 12 -> power_of_ten_nearest d = true.
Proof.
  intros Hd.
  assert (Hall : forallb power_of_ten_nearest (seqZ (-12) 25) = true) by (by vm_compute).
  rewrite forallb_forall in Hall. apply Hall, list_elem_of_In, elem_of_seqZ. lia.
Qed.

Section properties.
Context `{FixedLaws}.

(** What the checks of an accepted price guarantee. *)
Definition fresh (s : OracleState) (config : OracleConfig) (now_slot : Z) : Prop :=
  oc_max_staleness_slots config < 0 \/
  now_slot <= saturating_add_u64 (os_last_update_slot s) (oc_max_staleness_slots config).

Definition confident (s : OracleState) (config : OracleConfig) : Prop :=
  os_deviation s <= oc_conf_filter config * os_price s / fx_scale.

Lemma check_staleness_ok s config now_slot :
  check_staleness s config now_slot = Ok tt <-> fresh s config now_slot.
Proof.
  unfold check_staleness, fresh.
  destruct (Z.leb_spec 0 (oc_max_staleness_slots config)) as [L|L]; simpl; [|split; [left; lia|done]].
  destruct (Z.ltb_spec (saturating_add_u64 (os_last_update_slot s) (oc_max_staleness_slots config)) now_slot).
  - split; [discriminate|lia].
  - split; [right; lia|done].
Qed.

Lemma check_confidence_ok s config r :
  check_confidence s config = Done r -> r = Ok tt <-> confident s config.
Proof.
  unfold check_confidence, confident. intros E. fx_inv.
  destruct (Z.ltb_spec (oc_conf_filter config * os_price s / fx_scale) (os_deviation s)).
  - split; [discriminate|lia].
  - split; [lia|done].
Qed.

Lemma checks_ok s config slot :
  check_confidence_and_maybe_staleness s config slot = Done (Ok tt) ->
  confident s config /\ (forall now_slot, slot = Some now_slot -> fresh s config now_slot).
Proof.
  unfold check_confidence_and_maybe_staleness. destruct slot as [now|].
  - destruct (check_staleness s config now) as [[]|e] eqn:Es; [|discriminate].
    intros Ec. split; [by apply (check_confidence_ok _ _ _ Ec)|].
    intros n [= <-]. by apply check_staleness_ok.
  - intros Ec. split; [by apply (check_confidence_ok _ _ _ Ec)|discriminate].
Qed.

(** Prices of feeds are never negative. *)
Lemma pyth_price_nonneg account d s : get_pyth_state account d = Done s -> 0 <= os_price s.
Proof.
  unfold get_pyth_state. destruct (pyth_get_price account) as [[p c] l]. intros E.
  fx_inv. simpl. mlia.
Qed.

End properties.
