(* ===== verification/OrderTree.v ===== *)
(** * Order trees: the operations

    state/orderbook/ordertree.rs: a binary trie on the 128-bit order keys, laid
    out in a fixed array of nodes with a bump allocator and a free list. One
    array holds the nodes of several trees, each with its own [OrderTreeRoot].

    Every [&mut self] method takes the state and returns the new one. Loops that
    walk down a tree run on [TREE_FUEL] steps; OrderTreeSpec and the files after it
    show that well-formed trees never exhaust them. The [stack] vectors are lists
    whose head is the top. *)

From stdpp Require Import base numbers list.
From Stdlib Require Import ZArith Lia.
From S2P Require Import Prelude OrderTypes Nodes.

Open Scope Z_scope.

Definition MAX_ORDERTREE_NODES : nat := 1024.

(** A path from the root visits at most 128 inner nodes (their prefix lengths
    grow strictly from 0 to at most 127) and one leaf. *)
Definition TREE_FUEL : nat := 129.

Inductive OrderTreeType : Set := Bids | Asks.

Definition tree_side (t : OrderTreeType) : Side :=
  match t with Bids => Bid | Asks => Ask end.

Record OrderTreeRoot := mkRoot {
  maybe_node : NodeHandle;
  leaf_count : Z
}.

Definition root_node (r : OrderTreeRoot) : option NodeHandle :=
  if leaf_count r =? 0 then None else Some (maybe_node r).

Record OrderTreeNodes := mkNodes {
  order_tree_type : OrderTreeType;
  bump_index : Z;
  free_list_len : Z;
  free_list_head : NodeHandle;
  nodes : list AnyNode
}.

Definition set_nodes (t : OrderTreeNodes) (ns : list AnyNode) : OrderTreeNodes :=
  mkNodes (order_tree_type t) (bump_index t) (free_list_len t) (free_list_head t) ns.

Definition node (t : OrderTreeNodes) (handle : NodeHandle) : outcome (option AnyNode) :=
  n ← unwrap (nodes t !! handle);
  match n with
  | NInner _ | NLeaf _ => Done (Some n)
  | _ => Done None
  end.

(** [*self.node_mut(handle).unwrap() = n]. *)
Definition write_node (t : OrderTreeNodes) (handle : NodeHandle) (n : AnyNode) :
    outcome OrderTreeNodes :=
  o ← node t handle;
  _ ← unwrap o;
  Done (set_nodes t (<[handle := n]> (nodes t))).

(** [self.node(handle).unwrap().case().unwrap()]. *)
Definition node_ref (t : OrderTreeNodes) (handle : NodeHandle) : outcome NodeRef :=
  o ← node t handle;
  n ← unwrap o;
  unwrap (node_case n).

(** ** Allocation *)

Definition remove (t : OrderTreeNodes) (key : NodeHandle) :
    outcome (OrderTreeNodes * option AnyNode) :=
  o ← node t key;
  match o with
  | None => Done (t, None)
  | Some val =>
      let free := mkFreeNode (free_list_len t =? 0) (free_list_head t) in
      len ← u32 (free_list_len t + 1);
      Done (mkNodes (order_tree_type t) (bump_index t) len key
              (<[key := NFree free]> (nodes t)), Some val)
  end.

Definition insert (t : OrderTreeNodes) (val : AnyNode) :
    outcome (OrderTreeNodes * result NodeHandle) :=
  _ ← unwrap (node_case val);
  if free_list_len t =? 0 then
    if (bump_index t <? Z.of_nat (length (nodes t))) && (bump_index t <? U32_MAX) then
      let key := Z.to_nat (bump_index t) in
      bump ← u32 (bump_index t + 1);
      Done (mkNodes (order_tree_type t) bump (free_list_len t) (free_list_head t)
              (<[key := val]> (nodes t)), Ok key)
    else Done (t, Err (EMango SomeError))
  else
    let key := free_list_head t in
    n ← unwrap (nodes t !! key);
    match n with
    | NFree f =>
        _ ← assert_ (if free_last f then free_list_len t =? 1 else 1 <? free_list_len t);
        len ← u32 (free_list_len t - 1);
        Done (mkNodes (order_tree_type t) (bump_index t) len (free_next f)
                (<[key := val]> (nodes t)), Ok key)
    | _ => Panic
    end.

Definition is_full (t : OrderTreeNodes) : bool :=
  (free_list_len t <=? 1) && (Z.of_nat (length (nodes t)) - 1 <=? bump_index t).

(** ** Expiry maintenance *)

Definition set_child_expiry (n : InnerNode) (b : bool) (e : Z) : InnerNode :=
  mkInnerNode (inner_prefix_len n) (inner_key n) (inner_children n)
    (upd (inner_child_earliest_expiry n) b e).

Fixpoint update_parent_earliest_expiry (t : OrderTreeNodes) (stack : list (NodeHandle * bool))
    (outdated_expiry new_expiry : Z) : outcome OrderTreeNodes :=
  match stack with
  | [] => Done t
  | (parent_h, crit_bit) :: stack =>
      o ← node t parent_h;
      n ← unwrap o;
      parent ← unwrap (as_inner n);
      if negb (sel (inner_child_earliest_expiry parent) crit_bit =? outdated_expiry) then Done t
      else
        let outdated_expiry := inner_earliest_expiry parent in
        let parent := set_child_expiry parent crit_bit new_expiry in
        let t := set_nodes t (<[parent_h := NInner parent]> (nodes t)) in
        update_parent_earliest_expiry t stack outdated_expiry (inner_earliest_expiry parent)
  end.

Fixpoint find_earliest_expiry_loop (fuel : nat) (t : OrderTreeNodes) (current : NodeHandle) :
    outcome (NodeHandle * Z) :=
  match fuel with
  | O => NoFuel
  | S fuel =>
      o ← node t current;
      contents ← unwrap o;
      match node_case contents with
      | None => Panic
      | Some (RInner inner) =>
          let es := inner_child_earliest_expiry inner in
          find_earliest_expiry_loop fuel t (sel (inner_children inner) (snd es <? fst es))
      | Some (RLeaf _) =>
          e ← earliest_expiry contents;
          Done (current, e)
      end
  end.

Definition find_earliest_expiry (t : OrderTreeNodes) (root : OrderTreeRoot) :
    outcome (option (NodeHandle * Z)) :=
  match root_node root with
  | None => Done None
  | Some h => r ← find_earliest_expiry_loop TREE_FUEL t h; Done (Some r)
  end.

(** ** Extremal leaves *)

Fixpoint leaf_min_max_loop (fuel : nat) (t : OrderTreeNodes) (find_max : bool)
    (node_handle : NodeHandle) : outcome (option (NodeHandle * LeafNode)) :=
  match fuel with
  | O => NoFuel
  | S fuel =>
      o ← node t node_handle;
      match o ≫= node_case with
      | None => Done None
      | Some (RInner inner) =>
          leaf_min_max_loop fuel t find_max (sel (inner_children inner) find_max)
      | Some (RLeaf leaf) => Done (Some (node_handle, leaf))
      end
  end.

Definition leaf_min_max (t : OrderTreeNodes) (find_max : bool) (root : OrderTreeRoot) :
    outcome (option (NodeHandle * LeafNode)) :=
  match root_node root with
  | None => Done None
  | Some h => leaf_min_max_loop TREE_FUEL t find_max h
  end.

Definition min_leaf (t : OrderTreeNodes) (root : OrderTreeRoot) := leaf_min_max t false root.
Definition max_leaf (t : OrderTreeNodes) (root : OrderTreeRoot) := leaf_min_max t true root.

Definition find_worst (t : OrderTreeNodes) (root : OrderTreeRoot) :
    outcome (option (NodeHandle * LeafNode)) :=
  match order_tree_type t with
  | Bids => min_leaf t root
  | Asks => max_leaf t root
  end.

(** ** Removal *)

(** The loop of [remove_by_key] that walks down to the leaf: the handles of the
    leaf and of its parent, the side it is on, and the path; [None] when the leaf
    reached has another key. *)
Fixpoint remove_walk (fuel : nat) (t : OrderTreeNodes) (search_key : Z)
    (parent_h child_h : NodeHandle) (crit_bit : bool) (stack : list (NodeHandle * bool)) :
    outcome (option (NodeHandle * NodeHandle * bool * list (NodeHandle * bool))) :=
  match fuel with
  | O => NoFuel
  | S fuel =>
      c ← node_ref t child_h;
      match c with
      | RInner inner =>
          '(new_child_h, new_crit_bit) ← walk_down inner search_key;
          remove_walk fuel t search_key child_h new_child_h new_crit_bit
            ((child_h, new_crit_bit) :: stack)
      | RLeaf leaf =>
          if negb (leaf_key leaf =? search_key) then Done None
          else Done (Some (parent_h, child_h, crit_bit, stack))
      end
  end.

(** The part of [remove_by_key] after the walk: frees the leaf [child_h] and
    moves its sibling into the parent's slot. *)
Definition remove_unlink (t : OrderTreeNodes) (root : OrderTreeRoot)
    (parent_h child_h : NodeHandle) (crit_bit : bool) (stack : list (NodeHandle * bool)) :
    outcome (OrderTreeNodes * OrderTreeRoot * option LeafNode) :=
  po ← node t parent_h;
  pn ← unwrap po;
  co ← children pn;
  cs ← unwrap co;
  let other_child_h := sel cs (negb crit_bit) in
  '(t, oo) ← remove t other_child_h;
  other_child_node_contents ← unwrap oo;
  new_expiry ← earliest_expiry other_child_node_contents;
  t ← write_node t parent_h other_child_node_contents;
  count ← u32 (leaf_count root - 1);
  '(t, ro) ← remove t child_h;
  rn ← unwrap ro;
  removed_leaf ← unwrap (as_leaf rn);
  outdated_expiry ← expiry removed_leaf;
  t ← update_parent_earliest_expiry t (tail stack) outdated_expiry new_expiry;
  Done (t, mkRoot (maybe_node root) count, Some removed_leaf).

Definition remove_by_key (t : OrderTreeNodes) (root : OrderTreeRoot) (search_key : Z) :
    outcome (OrderTreeNodes * OrderTreeRoot * option LeafNode) :=
  match root_node root with
  | None => Done (t, root, None)
  | Some parent_h =>
      c ← node_ref t parent_h;
      match c with
      | RLeaf leaf =>
          if leaf_key leaf =? search_key then
            _ ← assert_ (leaf_count root =? 1);
            '(t, old_root) ← remove t parent_h;
            _ ← unwrap old_root;
            Done (t, mkRoot 0 0, Some leaf)
          else Done (t, root, None)
      | RInner inner =>
          '(child_h, crit_bit) ← walk_down inner search_key;
          w ← remove_walk TREE_FUEL t search_key parent_h child_h crit_bit
                [(parent_h, crit_bit)];
          match w with
          | None => Done (t, root, None)
          | Some (parent_h, child_h, crit_bit, stack) =>
              remove_unlink t root parent_h child_h crit_bit stack
          end
      end
  end.

Definition remove_worst (t : OrderTreeNodes) (root : OrderTreeRoot) :
    outcome (OrderTreeNodes * OrderTreeRoot * option LeafNode) :=
  w ← find_worst t root;
  match w with
  | None => Done (t, root, None)
  | Some (_, leaf) => remove_by_key t root (leaf_key leaf)
  end.

Definition remove_one_expired (t : OrderTreeNodes) (root : OrderTreeRoot) (now_ts : Z) :
    outcome (OrderTreeNodes * OrderTreeRoot * option LeafNode) :=
  f ← find_earliest_expiry t root;
  match f with
  | None => Done (t, root, None)
  | Some (handle, expires_at) =>
      if expires_at <? now_ts then
        o ← node t handle;
        match o ≫= node_key with
        | None => Done (t, root, None)
        | Some k => remove_by_key t root k
        end
      else Done (t, root, None)
  end.

(** ** Insertion *)

(** The end of the loop body of [insert_leaf]: replaces the node at
    [parent_handle] by a new inner node above it and the new leaf. *)
Definition insert_split (t : OrderTreeNodes) (root : OrderTreeRoot) (new_leaf : LeafNode)
    (parent_handle : NodeHandle) (parent_contents : AnyNode) (shared_prefix_len : Z)
    (stack : list (NodeHandle * bool)) :
    outcome (OrderTreeNodes * OrderTreeRoot * result (NodeHandle * option LeafNode)) :=
  sh ← u32 (127 - shared_prefix_len);
  let crit_bit_mask := Z.shiftl 1 sh in
  let new_leaf_crit_bit := negb (Z.land crit_bit_mask (leaf_key new_leaf) =? 0) in
  let old_parent_crit_bit := negb new_leaf_crit_bit in
  '(t, r) ← insert t (NLeaf new_leaf);
  match r with
  | Err e => Done (t, root, Err e)
  | Ok new_leaf_handle =>
      '(t, r) ← insert t parent_contents;
      match r with
      | Err e =>
          '(t, o) ← remove t new_leaf_handle;
          _ ← unwrap o;
          Done (t, root, Err e)
      | Ok moved_parent_handle =>
          new_leaf_expiry ← expiry new_leaf;
          old_parent_expiry ← earliest_expiry parent_contents;
          let new_parent := inner_new shared_prefix_len (leaf_key new_leaf) in
          let new_parent := mkInnerNode (inner_prefix_len new_parent) (inner_key new_parent)
            (upd (upd (inner_children new_parent) new_leaf_crit_bit new_leaf_handle)
                 old_parent_crit_bit moved_parent_handle)
            (upd (upd (inner_child_earliest_expiry new_parent) new_leaf_crit_bit new_leaf_expiry)
                 old_parent_crit_bit old_parent_expiry) in
          t ← write_node t parent_handle (NInner new_parent);
          t ← (if new_leaf_expiry <? old_parent_expiry
               then update_parent_earliest_expiry t stack old_parent_expiry new_leaf_expiry
               else Done t);
          count ← u32 (leaf_count root + 1);
          Done (t, mkRoot (maybe_node root) count, Ok (new_leaf_handle, None))
      end
  end.

Fixpoint insert_walk (fuel : nat) (t : OrderTreeNodes) (root : OrderTreeRoot)
    (new_leaf : LeafNode) (parent_handle : NodeHandle) (stack : list (NodeHandle * bool)) :
    outcome (OrderTreeNodes * OrderTreeRoot * result (NodeHandle * option LeafNode)) :=
  match fuel with
  | O => NoFuel
  | S fuel =>
      po ← node t parent_handle;
      parent_contents ← unwrap po;
      parent_key ← unwrap (node_key parent_contents);
      let shared_prefix_len := leading_zeros128 (Z.lxor parent_key (leaf_key new_leaf)) in
      match node_case parent_contents with
      | None => Panic
      | Some (RLeaf old_parent_as_leaf) =>
          if parent_key =? leaf_key new_leaf then
            t ← write_node t parent_handle (NLeaf new_leaf);
            old_e ← expiry old_parent_as_leaf;
            new_e ← expiry new_leaf;
            t ← update_parent_earliest_expiry t stack old_e new_e;
            Done (t, root, Ok (parent_handle, Some old_parent_as_leaf))
          else insert_split t root new_leaf parent_handle parent_contents shared_prefix_len stack
      | Some (RInner inner) =>
          if inner_prefix_len inner <=? shared_prefix_len then
            '(child, crit_bit) ← walk_down inner (leaf_key new_leaf);
            insert_walk fuel t root new_leaf child ((parent_handle, crit_bit) :: stack)
          else insert_split t root new_leaf parent_handle parent_contents shared_prefix_len stack
      end
  end.

Definition insert_leaf (t : OrderTreeNodes) (root : OrderTreeRoot) (new_leaf : LeafNode) :
    outcome (OrderTreeNodes * OrderTreeRoot * result (NodeHandle * option LeafNode)) :=
  match root_node root with
  | None =>
      '(t, r) ← insert t (NLeaf new_leaf);
      match r with
      | Err e => Done (t, root, Err e)
      | Ok handle => Done (t, mkRoot handle 1, Ok (handle, None))
      end
  | Some parent_handle => insert_walk TREE_FUEL t root new_leaf parent_handle []
  end.

(** [OrderTreeNodes::zeroed()] with its type set. *)
Definition nodes_zeroed (ty : OrderTreeType) : OrderTreeNodes :=
  mkNodes ty 0 0 0%nat (replicate MAX_ORDERTREE_NODES NUninitialized).

Definition root_zeroed : OrderTreeRoot := mkRoot 0%nat 0.
