(* ===== verification/OrderTreeSpec.v ===== *)
(** * Order trees: the abstract view

    The mathematical tree an order-tree root stands for, its well-formedness (the
    critical-bit conditions nodes.rs states in the comment of [InnerNode]), and
    the finite map from order keys to orders it denotes. Contexts ([list frame])
    are the paths the walking loops follow. *)

From stdpp Require Import base numbers list gmap sorting.
From Stdlib Require Import ZArith Lia.
From S2P Require Import Prelude OrderTypes Nodes OrderTree.

Open Scope Z_scope.

(** ** Shared key prefixes *)

(** [a] and [b] agree on their [p] highest bits of 128. *)
Definition shares (p a b : Z) : Prop := Z.shiftr a (128 - p) = Z.shiftr b (128 - p).

#[export] Instance shares_dec p a b : Decision (shares p a b).
Proof. unfold shares. apply _. Defined.

Lemma shares_refl p a : shares p a a.
Proof. done. Qed.

Lemma shares_sym p a b : shares p a b -> shares p b a.
Proof. unfold shares. done. Qed.

Lemma shares_trans p a b c : shares p a b -> shares p b c -> shares p a c.
Proof. unfold shares. congruence. Qed.

Lemma shares_bits p a b i :
  p <= 128 -> shares p a b -> 128 - p <= i -> Z.testbit a i = Z.testbit b i.
Proof.
  intros Hp E Hi. replace i with (i - (128 - p) + (128 - p)) by lia.
  rewrite <- !Z.shiftr_spec by lia. by rewrite E.
Qed.

Lemma shares_mono p q a b : q <= p <= 128 -> shares p a b -> shares q a b.
Proof.
  intros Hq E. unfold shares. replace (128 - q) with ((128 - p) + (p - q)) by lia.
  rewrite <- !Z.shiftr_shiftr by lia. by rewrite E.
Qed.

Lemma shares_0 a b : is_u128 a -> is_u128 b -> shares 0 a b.
Proof.
  intros Ha Hb. unfold shares. rewrite !Z.shiftr_div_pow2 by lia.
  unfold_widths. rewrite !Z.div_small; [done|lia|lia].
Qed.

Lemma shares_step p a b :
  p <= 127 -> shares p a b -> Z.testbit a (127 - p) = Z.testbit b (127 - p) ->
  shares (p + 1) a b.
Proof.
  intros Hp E Hb. unfold shares. replace (128 - (p + 1)) with (127 - p) by lia.
  apply Z.bits_inj'; intros i Hi. rewrite !Z.shiftr_spec by lia.
  destruct (decide (i = 0)) as [->|].
  - by rewrite Z.add_0_l.
  - apply (shares_bits p); [lia|done|lia].
Qed.

(** Keys that agree on [p] bits and differ in the next are ordered by it. *)
Lemma shares_lt p a b :
  p <= 127 -> shares p a b ->
  Z.testbit a (127 - p) = false -> Z.testbit b (127 - p) = true -> a < b.
Proof.
  intros Hp E Ha Hb.
  assert (H : Z.shiftr a (127 - p) < Z.shiftr b (127 - p)).
  { rewrite (Z.div2_odd (Z.shiftr a (127 - p))), (Z.div2_odd (Z.shiftr b (127 - p))).
    rewrite !Z.div2_spec, !Z.shiftr_shiftr by lia.
    replace (127 - p + 1) with (128 - p) by lia. rewrite E.
    rewrite <- !Z.bit0_odd, !Z.shiftr_spec, Z.add_0_l, Ha, Hb by lia. simpl. lia. }
  rewrite !Z.shiftr_div_pow2 in H by lia.
  destruct (Z.lt_ge_cases a b) as [|Hge]; [done|].
  pose proof (Z.div_le_mono b a (2 ^ (127 - p)) ltac:(apply Z.pow_pos_nonneg; lia) Hge). lia.
Qed.

Lemma lxor_bound a b : is_u128 a -> is_u128 b -> 0 <= Z.lxor a b < 2 ^ 128.
Proof.
  intros Ha Hb.
  assert (Hn : 0 <= Z.lxor a b) by (apply Z.lxor_nonneg; unfold_widths; lia).
  split; [done|]. destruct (decide (Z.lxor a b = 0)) as [->|Hz]; [lia|].
  apply Z.log2_lt_pow2; [lia|].
  eapply Z.le_lt_trans; [apply Z.log2_lxor; unfold_widths; lia|].
  assert (Hl : forall x, is_u128 x -> Z.log2 x < 128).
  { intros x Hx. destruct (decide (x = 0)) as [->|]; [done|].
    apply Z.log2_lt_pow2; unfold_widths; lia. }
  pose proof (Hl a Ha). pose proof (Hl b Hb). lia.
Qed.

Lemma leading_zeros_range a b :
  is_u128 a -> is_u128 b -> a <> b -> 0 <= leading_zeros128 (Z.lxor a b) <= 127.
Proof.
  intros Ha Hb Hne. pose proof (lxor_bound a b Ha Hb) as Hx. unfold leading_zeros128.
  destruct (Z.eqb_spec (Z.lxor a b) 0) as [E|E].
  - apply Z.lxor_eq in E. done.
  - pose proof (Z.log2_nonneg (Z.lxor a b)).
    assert (Z.log2 (Z.lxor a b) < 128) by (apply Z.log2_lt_pow2; lia). lia.
Qed.

(** The number of leading zeros of the exclusive or is the length of the longest
    common prefix. *)
Lemma leading_zeros_shares p a b :
  0 <= p <= 128 -> is_u128 a -> is_u128 b ->
  p <= leading_zeros128 (Z.lxor a b) <-> shares p a b.
Proof.
  intros Hp Ha Hb. pose proof (lxor_bound a b Ha Hb) as Hx.
  assert (Hs : shares p a b <-> Z.shiftr (Z.lxor a b) (128 - p) = 0).
  { unfold shares. rewrite Z.shiftr_lxor. split.
    - intros ->. apply Z.lxor_nilpotent.
    - apply Z.lxor_eq. }
  rewrite Hs. unfold leading_zeros128.
  destruct (Z.eqb_spec (Z.lxor a b) 0) as [->|E].
  { rewrite Z.shiftr_0_l. lia. }
  rewrite Z.shiftr_eq_0_iff. split; [intros; right; lia | intros [|]; lia].
Qed.

Lemma leading_zeros_crit a b :
  is_u128 a -> is_u128 b -> a <> b ->
  let s := leading_zeros128 (Z.lxor a b) in
  Z.testbit a (127 - s) = negb (Z.testbit b (127 - s)).
Proof.
  intros Ha Hb Hne s. pose proof (lxor_bound a b Ha Hb) as Hx.
  assert (Hnz : Z.lxor a b <> 0) by (intros E; apply Z.lxor_eq in E; done).
  assert (Hbit : Z.testbit (Z.lxor a b) (127 - s) = true).
  { unfold s, leading_zeros128. rewrite (proj2 (Z.eqb_neq _ _) Hnz).
    replace (127 - (127 - Z.log2 (Z.lxor a b))) with (Z.log2 (Z.lxor a b)) by lia.
    apply Z.bit_log2. lia. }
  rewrite Z.lxor_spec in Hbit.
  by destruct (Z.testbit a (127 - s)), (Z.testbit b (127 - s)).
Qed.

(** Masking with [1 << n] reads bit [n]. *)
Lemma mask_testbit k n : 0 <= n -> negb (Z.land k (Z.shiftl 1 n) =? 0) = Z.testbit k n.
Proof.
  intros Hn. rewrite Z.shiftl_1_l.
  destruct (Z.testbit k n) eqn:E.
  - apply negb_true_iff, Z.eqb_neq. intros H0.
    assert (Z.testbit (Z.land k (2 ^ n)) n = true).
    { by rewrite Z.land_spec, E, Z.pow2_bits_true by done. }
    rewrite H0, Z.bits_0 in H. done.
  - apply negb_false_iff, Z.eqb_eq. apply Z.bits_inj'; intros i Hi.
    rewrite Z.land_spec, Z.bits_0. destruct (decide (i = n)) as [->|].
    + by rewrite E.
    + rewrite Z.pow2_bits_false by lia. apply andb_false_r.
Qed.

(** ** Trees *)

Inductive tree :=
| TLeaf (h : NodeHandle) (l : LeafNode)
| TInner (h : NodeHandle) (p key : Z) (t0 t1 : tree).

Definition troot (t : tree) : NodeHandle :=
  match t with TLeaf h _ => h | TInner h _ _ _ _ => h end.

(** The expiry of an order whose [timestamp + time_in_force] does not overflow. *)
Definition expiry_of (l : LeafNode) : Z :=
  if time_in_force l =? 0 then U64_MAX else timestamp l + time_in_force l.

(** The earliest expiry in a tree. *)
Fixpoint mexp (t : tree) : Z :=
  match t with
  | TLeaf _ l => expiry_of l
  | TInner _ _ _ t0 t1 => Z.min (mexp t0) (mexp t1)
  end.

(** The node the array holds at the root of a tree. *)
Definition node_of (t : tree) : AnyNode :=
  match t with
  | TLeaf _ l => NLeaf l
  | TInner _ p key t0 t1 =>
      NInner (mkInnerNode p key (troot t0, troot t1) (mexp t0, mexp t1))
  end.

Fixpoint handles (t : tree) : list NodeHandle :=
  match t with
  | TLeaf h _ => [h]
  | TInner h _ _ t0 t1 => h :: handles t0 ++ handles t1
  end.

(** The leaves from left to right, with their handles. *)
Fixpoint hleaves (t : tree) : list (NodeHandle * LeafNode) :=
  match t with
  | TLeaf h l => [(h, l)]
  | TInner _ _ _ t0 t1 => hleaves t0 ++ hleaves t1
  end.

Definition tleaves (t : tree) : list LeafNode := snd <$> hleaves t.
Definition keys (t : tree) : list Z := leaf_key <$> tleaves t.

Record leaf_ok (l : LeafNode) : Prop := {
  leaf_ok_key : is_u128 (leaf_key l);
  leaf_ok_tif : is_u16 (time_in_force l);
  leaf_ok_ts : is_u64 (timestamp l);
  leaf_ok_expiry : timestamp l + time_in_force l <= U64_MAX
}.

#[export] Instance leaf_ok_dec l : Decision (leaf_ok l).
Proof.
  refine (cast_if (decide (is_u128 (leaf_key l) /\ is_u16 (time_in_force l) /\
    is_u64 (timestamp l) /\ timestamp l + time_in_force l <= U64_MAX))).
  - destruct_and!; by constructor.
  - abstract (intros []; tauto).
Defined.

(** A key on the [b] side of a node with prefix length [p] and key [key]. *)
Definition on_side (p key : Z) (b : bool) (k : Z) : Prop :=
  shares p k key /\ Z.testbit k (127 - p) = b.

(** Well-formedness: all prefix lengths are at least [lo]. *)
Fixpoint wf (lo : Z) (t : tree) : Prop :=
  match t with
  | TLeaf _ l => leaf_ok l
  | TInner _ p key t0 t1 =>
      lo <= p <= 127 /\ is_u128 key /\
      Forall (on_side p key false) (keys t0) /\ Forall (on_side p key true) (keys t1) /\
      wf (p + 1) t0 /\ wf (p + 1) t1
  end.

Fixpoint height (t : tree) : nat :=
  match t with
  | TLeaf _ _ => 1
  | TInner _ _ _ t0 t1 => S (Nat.max (height t0) (height t1))
  end.

Lemma keys_TInner h p key t0 t1 : keys (TInner h p key t0 t1) = keys t0 ++ keys t1.
Proof. unfold keys, tleaves. simpl. by rewrite !fmap_app. Qed.

Lemma tleaves_TInner h p key t0 t1 : tleaves (TInner h p key t0 t1) = tleaves t0 ++ tleaves t1.
Proof. unfold tleaves. simpl. by rewrite fmap_app. Qed.

Lemma expiry_ok l : leaf_ok l -> expiry l = Done (expiry_of l).
Proof.
  intros []. unfold expiry, expiry_of. destruct (time_in_force l =? 0); [done|].
  apply u64_ok. unfold_widths. lia.
Qed.

Lemma earliest_expiry_node_of lo t : wf lo t -> earliest_expiry (node_of t) = Done (mexp t).
Proof.
  destruct t as [h l|h p key t0 t1]; simpl.
  - intros H. by apply expiry_ok.
  - done.
Qed.

Lemma node_case_node_of t : exists r, node_case (node_of t) = Some r.
Proof. destruct t; simpl; eauto. Qed.

(** Enough fuel: the height of a well-formed tree is bounded. *)
Lemma height_bound lo t : 0 <= lo <= 128 -> wf lo t -> Z.of_nat (height t) <= 129 - lo.
Proof.
  revert lo. induction t as [h l|h p key t0 IH0 t1 IH1]; intros lo Hlo H; simpl in *; [lia|].
  destruct H as (Hp & _ & _ & _ & H0 & H1).
  specialize (IH0 (p + 1) ltac:(lia) H0). specialize (IH1 (p + 1) ltac:(lia) H1). lia.
Qed.

Lemma height_fuel t : wf 0 t -> (height t <= TREE_FUEL)%nat.
Proof. intros H. apply height_bound in H; [|lia]. unfold TREE_FUEL. lia. Qed.

Lemma wf_leaf_ok lo t : wf lo t -> Forall leaf_ok (tleaves t).
Proof.
  revert lo. induction t as [h l|h p key t0 IH0 t1 IH1]; intros lo H; simpl in *.
  - by apply Forall_singleton.
  - rewrite tleaves_TInner. apply Forall_app. destruct H as (_ & _ & _ & _ & ? & ?). eauto.
Qed.

Lemma wf_weaken lo lo' t : lo' <= lo -> wf lo t -> wf lo' t.
Proof. destruct t; simpl; [done|]. intros ? [? ?]. split; [lia|done]. Qed.

(** The leaves of a well-formed tree are strictly sorted by key. *)
Lemma wf_sorted lo t : wf lo t -> StronglySorted Z.lt (keys t).
Proof.
  revert lo. induction t as [h l|h p key t0 IH0 t1 IH1]; intros lo H.
  - repeat constructor.
  - destruct H as (Hp & Hk & F0 & F1 & W0 & W1). rewrite keys_TInner.
    apply StronglySorted_app_2; [|eauto..].
    rewrite Forall_forall in F0, F1.
    intros a b Ha%F0 Hb%F1. destruct Ha as [Sa Ba], Hb as [Sb Bb].
    apply (shares_lt p); [lia| |done|done].
    by eapply shares_trans, shares_sym.
Qed.

Lemma sorted_NoDup (l : list Z) : StronglySorted Z.lt l -> NoDup l.
Proof.
  induction 1 as [|x l H IH F]; constructor; [|done].
  intros Hin. rewrite Forall_forall in F. specialize (F _ Hin). lia.
Qed.

(** ** The finite map of a list of orders *)

Definition omap_of (ls : list LeafNode) : gmap Z LeafNode :=
  list_to_map ((fun l => (leaf_key l, l)) <$> ls).

(** What a tree denotes: its orders by key. *)
Definition tmap (t : tree) : gmap Z LeafNode := omap_of (tleaves t).

Lemma fst_keyed (ls : list LeafNode) :
  (((fun l => (leaf_key l, l)) <$> ls) : list (Z * LeafNode)).*1 = leaf_key <$> ls.
Proof. by rewrite <- list_fmap_compose. Qed.

Lemma omap_of_None ls k : k ∉ leaf_key <$> ls -> omap_of ls !! k = None.
Proof. intros H. apply not_elem_of_list_to_map_1. by rewrite fst_keyed. Qed.

Lemma omap_of_Some ls l :
  NoDup (leaf_key <$> ls) -> l ∈ ls -> omap_of ls !! leaf_key l = Some l.
Proof.
  intros Hnd Hl. apply elem_of_list_to_map_1; [by rewrite fst_keyed|].
  apply list_elem_of_fmap. eauto.
Qed.

Lemma omap_of_elem ls k l : omap_of ls !! k = Some l -> l ∈ ls /\ leaf_key l = k.
Proof.
  intros H%elem_of_list_to_map_2. apply list_elem_of_fmap in H as (l' & [= -> ->] & ?). done.
Qed.

(** The one list fact behind insertion, replacement and removal. *)
Lemma omap_of_middle pre l post :
  NoDup (leaf_key <$> pre ++ l :: post) ->
  omap_of (pre ++ l :: post) = <[leaf_key l := l]> (omap_of (pre ++ post))
  /\ omap_of (pre ++ post) !! leaf_key l = None.
Proof.
  intros Hnd.
  assert (Hp : leaf_key <$> pre ++ l :: post ≡ₚ leaf_key l :: (leaf_key <$> pre ++ post)).
  { by rewrite <- Permutation_middle. }
  rewrite Hp in Hnd. apply NoDup_cons in Hnd as [Hni Hnd]. split.
  - unfold omap_of. change (list_to_map ((fun l => (leaf_key l, l)) <$> pre ++ l :: post)
      = (list_to_map ((fun l => (leaf_key l, l)) <$> l :: pre ++ post) : gmap Z LeafNode)).
    apply list_to_map_proper.
    + rewrite fst_keyed, Hp. by constructor.
    + by rewrite <- Permutation_middle.
  - by apply omap_of_None.
Qed.

(** ** Contexts

    A frame is an inner node with a hole on the side [fr_bit]; [fr_sib] is the
    subtree on the other side. A context lists the frames from the hole up. *)

Record frame := mkFrame {
  fr_h : NodeHandle;
  fr_p : Z;
  fr_key : Z;
  fr_bit : bool;
  fr_sib : tree
}.

Definition plug1 (f : frame) (t : tree) : tree :=
  if fr_bit f then TInner (fr_h f) (fr_p f) (fr_key f) (fr_sib f) t
  else TInner (fr_h f) (fr_p f) (fr_key f) t (fr_sib f).

Fixpoint plug (z : list frame) (t : tree) : tree :=
  match z with [] => t | f :: z => plug z (plug1 f t) end.

(** The stack of handles and directions the code keeps for a context. *)
Definition path_of (z : list frame) : list (NodeHandle * bool) :=
  (fun f => (fr_h f, fr_bit f)) <$> z.

Definition fits (z : list frame) (k : Z) : Prop :=
  Forall (fun f => on_side (fr_p f) (fr_key f) (fr_bit f) k) z.

Definition hole_lo (lo : Z) (z : list frame) : Z :=
  match z with [] => lo | f :: _ => fr_p f + 1 end.

Fixpoint wf_ctx (lo : Z) (z : list frame) : Prop :=
  match z with
  | [] => True
  | f :: z =>
      hole_lo lo z <= fr_p f <= 127 /\ is_u128 (fr_key f) /\
      Forall (on_side (fr_p f) (fr_key f) (negb (fr_bit f))) (keys (fr_sib f)) /\
      wf (fr_p f + 1) (fr_sib f) /\ Forall (fits z) (keys (fr_sib f)) /\ wf_ctx lo z
  end.

Fixpoint pre (z : list frame) : list LeafNode :=
  match z with
  | [] => []
  | f :: z => pre z ++ if fr_bit f then tleaves (fr_sib f) else []
  end.

Fixpoint post (z : list frame) : list LeafNode :=
  match z with
  | [] => []
  | f :: z => (if fr_bit f then [] else tleaves (fr_sib f)) ++ post z
  end.

Fixpoint ctx_handles (z : list frame) : list NodeHandle :=
  match z with
  | [] => []
  | f :: z => fr_h f :: handles (fr_sib f) ++ ctx_handles z
  end.

Lemma tleaves_plug z t : tleaves (plug z t) = pre z ++ tleaves t ++ post z.
Proof.
  revert t. induction z as [|f z IH]; intros t; simpl.
  - by rewrite app_nil_r.
  - rewrite IH. unfold plug1.
    destruct (fr_bit f); rewrite tleaves_TInner, <- ?app_assoc, ?app_nil_r; done.
Qed.

Lemma handles_plug z t : handles (plug z t) ≡ₚ handles t ++ ctx_handles z.
Proof.
  revert t. induction z as [|f z IH]; intros t; simpl.
  - by rewrite app_nil_r.
  - rewrite IH. unfold plug1. destruct (fr_bit f); simpl; solve_Permutation.
Qed.

Lemma fits_cons f z k :
  fits (f :: z) k <-> on_side (fr_p f) (fr_key f) (fr_bit f) k /\ fits z k.
Proof. unfold fits. by rewrite Forall_cons. Qed.

Lemma wf_plug1 lo f t :
  wf lo (plug1 f t) <->
  lo <= fr_p f <= 127 /\ is_u128 (fr_key f) /\
  Forall (on_side (fr_p f) (fr_key f) (negb (fr_bit f))) (keys (fr_sib f)) /\
  wf (fr_p f + 1) (fr_sib f) /\
  Forall (on_side (fr_p f) (fr_key f) (fr_bit f)) (keys t) /\ wf (fr_p f + 1) t.
Proof. unfold plug1. destruct (fr_bit f); simpl; tauto. Qed.

Lemma keys_plug1 f t : keys (plug1 f t) ≡ₚ keys (fr_sib f) ++ keys t.
Proof.
  unfold plug1. destruct (fr_bit f); rewrite keys_TInner; [done|].
  apply Permutation_app_comm.
Qed.

(** A plugged tree is well-formed exactly when the context is and the subtree in
    the hole is well-formed and has keys that fit the path. *)
Lemma wf_plug lo z t :
  wf lo (plug z t) <-> wf_ctx lo z /\ wf (hole_lo lo z) t /\ Forall (fits z) (keys t).
Proof.
  revert t. induction z as [|f z IH]; intros t; simpl.
  - split; [intros; split_and!; auto|tauto]. apply Forall_forall. intros. constructor.
  - rewrite IH, wf_plug1, keys_plug1, Forall_app.
    assert (HF : Forall (fits (f :: z)) (keys t) <->
      Forall (on_side (fr_p f) (fr_key f) (fr_bit f)) (keys t) /\ Forall (fits z) (keys t)).
    { rewrite <- Forall_and. apply Forall_iff. intros. apply fits_cons. }
    rewrite HF. tauto.
Qed.
