(* ===== verification/OrderTreeArena.v ===== *)
(** * Order trees: the node array

    How a tree is laid out in the node array ([repr]), the allocator's invariant
    ([heap_inv]: every slot below the bump index is either in use or on the free
    list, exactly once) and what [insert], [remove] and
    [update_parent_earliest_expiry] do to them. *)

From stdpp Require Import base numbers list gmap.
From Stdlib Require Import ZArith Lia.
From S2P Require Import Prelude OrderTypes Nodes OrderTree OrderTreeSpec.

Open Scope Z_scope.

(** ** Representation *)

Fixpoint repr (ns : list AnyNode) (t : tree) : Prop :=
  ns !! troot t = Some (node_of t) /\
  match t with
  | TLeaf _ _ => True
  | TInner _ _ _ t0 t1 => repr ns t0 /\ repr ns t1
  end.

(** The inner node of a frame whose hole holds a subtree with root [h] and
    earliest expiry [e]. *)
Definition frame_node (f : frame) (h : NodeHandle) (e : Z) : InnerNode :=
  mkInnerNode (fr_p f) (fr_key f)
    (if fr_bit f then (troot (fr_sib f), h) else (h, troot (fr_sib f)))
    (if fr_bit f then (mexp (fr_sib f), e) else (e, mexp (fr_sib f))).

Definition frame_exp (f : frame) (e : Z) : Z :=
  if fr_bit f then Z.min (mexp (fr_sib f)) e else Z.min e (mexp (fr_sib f)).

Fixpoint repr_ctx (ns : list AnyNode) (z : list frame) (h : NodeHandle) (e : Z) : Prop :=
  match z with
  | [] => True
  | f :: z =>
      ns !! fr_h f = Some (NInner (frame_node f h e)) /\ repr ns (fr_sib f) /\
      repr_ctx ns z (fr_h f) (frame_exp f e)
  end.

Lemma troot_plug1 f t : troot (plug1 f t) = fr_h f.
Proof. unfold plug1. by destruct (fr_bit f). Qed.

Lemma mexp_plug1 f t : mexp (plug1 f t) = frame_exp f (mexp t).
Proof. unfold plug1, frame_exp. by destruct (fr_bit f). Qed.

Lemma node_of_plug1 f t : node_of (plug1 f t) = NInner (frame_node f (troot t) (mexp t)).
Proof. unfold plug1, frame_node. by destruct (fr_bit f). Qed.

Lemma repr_plug1 ns f t :
  repr ns (plug1 f t) <->
  ns !! fr_h f = Some (NInner (frame_node f (troot t) (mexp t))) /\
  repr ns (fr_sib f) /\ repr ns t.
Proof. unfold plug1, frame_node. destruct (fr_bit f); simpl; tauto. Qed.

Lemma repr_plug ns z t :
  repr ns (plug z t) <-> repr ns t /\ repr_ctx ns z (troot t) (mexp t).
Proof.
  revert t. induction z as [|f z IH]; intros t; simpl; [tauto|].
  rewrite IH, repr_plug1, troot_plug1, mexp_plug1. tauto.
Qed.

Lemma repr_root ns t : repr ns t -> ns !! troot t = Some (node_of t).
Proof. destruct t; simpl; tauto. Qed.

Lemma troot_in t : troot t ∈ handles t.
Proof. destruct t; simpl; set_solver. Qed.

(** A tree's representation depends on its own slots only. *)
Lemma repr_ext ns ns' t :
  (forall h, h ∈ handles t -> ns' !! h = ns !! h) -> repr ns t -> repr ns' t.
Proof.
  induction t as [h l|h p key t0 IH0 t1 IH1]; simpl; intros Hext.
  - intros [H _]. rewrite Hext by set_solver. done.
  - intros (H & R0 & R1). rewrite Hext by set_solver.
    split_and!; [done|apply IH0|apply IH1]; auto; intros; apply Hext; set_solver.
Qed.

Lemma repr_ctx_ext ns ns' z h e :
  (forall x, x ∈ ctx_handles z -> ns' !! x = ns !! x) ->
  repr_ctx ns z h e -> repr_ctx ns' z h e.
Proof.
  revert h e. induction z as [|f z IH]; simpl; [done|]. intros h e Hext (H & R & C).
  rewrite Hext by set_solver. split_and!; [done| |].
  - eapply repr_ext; [|done]. intros; apply Hext; set_solver.
  - apply IH; [|done]. intros; apply Hext; set_solver.
Qed.

Lemma repr_Forall_ext ns ns' ts :
  (forall h, h ∈ ts ≫= handles -> ns' !! h = ns !! h) ->
  Forall (repr ns) ts -> Forall (repr ns') ts.
Proof.
  induction ts as [|t ts IH]; [done|]. simpl. intros Hext [R0 R]%Forall_cons.
  constructor.
  - eapply repr_ext; [|done]. intros; apply Hext; set_solver.
  - apply IH; [|done]. intros; apply Hext; set_solver.
Qed.

(** Reading the node at the root of a represented tree. *)
Lemma node_repr a t : repr (nodes a) t -> node a (troot t) = Done (Some (node_of t)).
Proof.
  intros H%repr_root. unfold node. rewrite H. by destruct t.
Qed.

(** Reading any slot that holds an inner node or a leaf. *)
Lemma node_lookup a h n :
  nodes a !! h = Some n -> is_Some (node_case n) -> node a h = Done (Some n).
Proof. intros Hn Hc. unfold node. rewrite Hn. destruct n; try done; by destruct Hc. Qed.

(** ** The allocator *)

Fixpoint is_free (ns : list AnyNode) (head : NodeHandle) (fl : list NodeHandle) : Prop :=
  match fl with
  | [] => True
  | h :: fl' =>
      head = h /\
      exists next,
        ns !! h = Some (NFree (mkFreeNode (match fl' with [] => true | _ => false end) next)) /\
        is_free ns next fl'
  end.

Lemma is_free_ext ns ns' head fl :
  (forall h, h ∈ fl -> ns' !! h = ns !! h) -> is_free ns head fl -> is_free ns' head fl.
Proof.
  revert head. induction fl as [|h fl IH]; [done|]. simpl. intros head Hext (-> & nx & H & F).
  split; [done|]. exists nx. rewrite Hext by set_solver. split; [done|].
  apply IH; [|done]. intros; apply Hext; set_solver.
Qed.

Record heap_inv (a : OrderTreeNodes) (used fl : list NodeHandle) : Prop := {
  hi_len : length (nodes a) = MAX_ORDERTREE_NODES;
  hi_bump : 0 <= bump_index a <= Z.of_nat MAX_ORDERTREE_NODES;
  hi_free : is_free (nodes a) (free_list_head a) fl;
  hi_flen : free_list_len a = Z.of_nat (length fl);
  hi_perm : used ++ fl ≡ₚ seq 0 (Z.to_nat (bump_index a))
}.

Section heap.
Context {a : OrderTreeNodes} {used fl : list NodeHandle}.
Hypothesis H : heap_inv a used fl.

Lemma heap_NoDup : NoDup (used ++ fl).
Proof. rewrite (hi_perm _ _ _ H). apply NoDup_seq. Qed.

Lemma heap_lt h : h ∈ used ++ fl -> (h < MAX_ORDERTREE_NODES)%nat.
Proof.
  rewrite (hi_perm _ _ _ H). rewrite elem_of_seq. pose proof (hi_bump _ _ _ H). lia.
Qed.

Lemma heap_count : Z.of_nat (length used) + Z.of_nat (length fl) = bump_index a.
Proof.
  pose proof (Permutation_length (hi_perm _ _ _ H)) as L.
  rewrite length_app, length_seq in L. pose proof (hi_bump _ _ _ H). lia.
Qed.

Lemma heap_used_bound : (length used <= MAX_ORDERTREE_NODES)%nat.
Proof. pose proof heap_count. pose proof (hi_bump _ _ _ H). lia. Qed.

Lemma heap_perm used' : used ≡ₚ used' -> heap_inv a used' fl.
Proof. intros P. destruct H. constructor; auto. by rewrite <- P. Qed.

(** Rewriting used slots keeps the allocator's invariant. *)
Lemma heap_set_nodes ns :
  length ns = length (nodes a) -> (forall h, h ∈ fl -> ns !! h = nodes a !! h) ->
  heap_inv (set_nodes a ns) used fl.
Proof.
  intros Hl Hext. destruct H as [L B F FL P]. constructor; simpl; auto.
  - congruence.
  - eapply is_free_ext; eauto.
Qed.

Lemma heap_write h n : h ∈ used -> heap_inv (set_nodes a (<[h := n]> (nodes a))) used fl.
Proof.
  intros Hin. apply heap_set_nodes; [apply length_insert|].
  intros x Hx. apply list_lookup_insert_ne. intros ->.
  pose proof heap_NoDup as ND. apply NoDup_app in ND as (_ & D & _). by apply (D x).
Qed.

End heap.

Lemma free_list_len_u32 n : (n <= MAX_ORDERTREE_NODES)%nat -> is_u32 (Z.of_nat n).
Proof. unfold MAX_ORDERTREE_NODES. unfold_widths. lia. Qed.

(** [remove] on a used slot returns its node and puts the slot on the free list. *)
Lemma remove_ok a h used fl n :
  heap_inv a (h :: used) fl -> nodes a !! h = Some n -> is_Some (node_case n) ->
  exists a' f,
    remove a h = Done (a', Some n) /\ nodes a' = <[h := NFree f]> (nodes a) /\
    order_tree_type a' = order_tree_type a /\ heap_inv a' used (h :: fl).
Proof.
  intros H Hn Hc. pose proof (heap_count H) as Hcnt. pose proof (hi_bump _ _ _ H) as Hb.
  unfold remove. rewrite (node_lookup a h n) by done. simpl.
  rewrite u32_ok by (rewrite (hi_flen _ _ _ H); simpl in Hcnt;
    unfold MAX_ORDERTREE_NODES in *; unfold_widths; lia).
  simpl. eexists _, _. split; [done|]. simpl. split_and!; [done|done|].
  assert (Hhfl : h ∉ fl).
  { pose proof (heap_NoDup H) as ND. simpl in ND.
    apply NoDup_cons in ND as [ND _]. set_solver. }
  destruct H as [L B F FL P]. constructor; simpl; auto.
  - by rewrite length_insert.
  - split; [done|]. exists (free_list_head a). split.
    + rewrite list_lookup_insert_eq by (apply lookup_lt_is_Some; eauto).
      rewrite FL. by destruct fl.
    + eapply is_free_ext; [|exact F]. intros x Hx.
      apply list_lookup_insert_ne. set_solver.
  - lia.
  - rewrite <- P. simpl. by rewrite Permutation_middle.
Qed.

(** [insert] succeeds exactly when fewer than [MAX_ORDERTREE_NODES] slots are in
    use; it writes the node to a slot that was not in use. *)
Lemma insert_ok a used fl val :
  heap_inv a used fl -> is_Some (node_case val) ->
  if decide ((length used < MAX_ORDERTREE_NODES)%nat) then
    exists a' h fl',
      insert a val = Done (a', Ok h) /\ h ∉ used /\ (h < MAX_ORDERTREE_NODES)%nat /\
      nodes a' = <[h := val]> (nodes a) /\
      order_tree_type a' = order_tree_type a /\ heap_inv a' (h :: used) fl'
  else insert a val = Done (a, Err (EMango SomeError)).
Proof.
  intros H [c Hc]. pose proof (heap_count H) as Hcnt. pose proof (heap_NoDup H) as ND.
  pose proof (heap_lt H) as Hlt.
  destruct H as [L B F FL P]. unfold insert. rewrite Hc, L. simpl unwrap. rewrite bind_Done.
  destruct fl as [|h fl].
  - simpl in *. rewrite FL. simpl. case_decide as Hd.
    + rewrite (proj2 (Z.ltb_lt _ _)) by lia. rewrite (proj2 (Z.ltb_lt _ _))
        by (unfold MAX_ORDERTREE_NODES in *; unfold_widths; lia). simpl.
      rewrite u32_ok by (unfold MAX_ORDERTREE_NODES in *; unfold_widths; lia). simpl.
      assert (Hfresh : Z.to_nat (bump_index a) ∉ used).
      { rewrite app_nil_r in P. rewrite P, elem_of_seq. lia. }
      eexists _, (Z.to_nat (bump_index a)), []. split_and!; try done; [lia|].
      constructor; simpl; auto.
      * by rewrite length_insert.
      * lia.
      * replace (Z.to_nat (bump_index a + 1)) with (S (Z.to_nat (bump_index a))) by lia.
        rewrite seq_S, <- P, Nat.add_0_l. apply Permutation_cons_append.
    + rewrite (proj2 (Z.ltb_ge _ _)) by lia. done.
  - rewrite length_cons in FL, Hcnt. rewrite decide_True by lia.
    rewrite (proj2 (Z.eqb_neq _ _)) by lia. destruct F as (Hhd & nx & Hh & F).
    rewrite Hhd, Hh. simpl unwrap. rewrite bind_Done. simpl free_last. simpl free_next.
    assert (Ha : (if match fl with [] => true | _ :: _ => false end
        then free_list_len a =? 1 else 1 <? free_list_len a) = true).
    { destruct fl; simpl in FL; [by rewrite FL|]. apply Z.ltb_lt. lia. }
    unfold assert_. rewrite Ha, bind_Done.
    rewrite u32_ok by (unfold MAX_ORDERTREE_NODES in *; unfold_widths; lia). simpl.
    rewrite <- Permutation_middle in ND. apply NoDup_cons in ND as [Hh_fresh ND].
    eexists _, h, fl. split_and!; try done; [set_solver|apply Hlt; set_solver|].
    constructor; simpl; auto.
    + by rewrite length_insert.
    + eapply is_free_ext; [|exact F]. intros x Hx.
      apply list_lookup_insert_ne. intros ->. set_solver.
    + lia.
    + rewrite <- P. apply Permutation_middle.
Qed.

(** [is_full] says that at most one free slot is left besides the bump area's
    last. *)
Lemma is_full_spec a used fl :
  heap_inv a used fl -> is_full a = false -> (length used + 2 <= MAX_ORDERTREE_NODES)%nat.
Proof.
  intros H Hf. pose proof (heap_count H) as Hcnt. pose proof (hi_bump _ _ _ H).
  unfold is_full in Hf. rewrite (hi_len _ _ _ H), (hi_flen _ _ _ H) in Hf.
  apply andb_false_iff in Hf as [Hf|Hf]; bool_to_prop; lia.
Qed.

(** Walking up the path repairs every ancestor's earliest expiry. *)
Lemma update_parent_earliest_expiry_ok z : forall a h e_cur outdated e_new,
  NoDup (ctx_handles z) -> repr_ctx (nodes a) z h e_cur ->
  outdated = e_cur \/ e_new = e_cur ->
  exists ns,
    update_parent_earliest_expiry a (path_of z) outdated e_new = Done (set_nodes a ns) /\
    repr_ctx ns z h e_new /\ length ns = length (nodes a) /\
    (forall x, x ∉ ctx_handles z -> ns !! x = nodes a !! x).
Proof.
  induction z as [|f z IH]; intros a h e_cur outdated e_new ND R Hcase.
  - exists (nodes a). by destruct a.
  - destruct R as (Hf & Hs & Rz). simpl in ND. apply NoDup_cons in ND as [Hnf ND].
    apply NoDup_app in ND as (NDs & Hdisj & NDz).
    simpl path_of. cbn [update_parent_earliest_expiry].
    rewrite (node_lookup a (fr_h f) _ Hf) by eauto. rewrite bind_Done.
    simpl unwrap. rewrite !bind_Done. simpl as_inner. simpl unwrap. rewrite bind_Done.
    assert (Hsel : sel (inner_child_earliest_expiry (frame_node f h e_cur)) (fr_bit f) = e_cur).
    { unfold frame_node. by destruct (fr_bit f). }
    rewrite Hsel. destruct (Z.eqb_spec e_cur outdated) as [<-|Hne].
    + simpl negb. cbv iota. assert (Hset : set_child_expiry (frame_node f h e_cur) (fr_bit f) e_new
        = frame_node f h e_new).
      { unfold set_child_expiry, frame_node, upd. by destruct (fr_bit f). }
      assert (Hee : forall e, inner_earliest_expiry (frame_node f h e) = frame_exp f e).
      { intros e. unfold inner_earliest_expiry, frame_node, frame_exp. by destruct (fr_bit f). }
      cbv zeta. rewrite Hset, !Hee.
      set (a1 := set_nodes a (<[fr_h f:=NInner (frame_node f h e_new)]> (nodes a))).
      assert (Hlt : (fr_h f < length (nodes a))%nat) by (apply lookup_lt_is_Some; eauto).
      destruct (IH a1 (fr_h f) (frame_exp f e_cur) (frame_exp f e_cur) (frame_exp f e_new))
        as (ns & Eu & Ru & Lu & Fu); auto.
      { eapply repr_ctx_ext; [|exact Rz]. intros x Hx. simpl.
        apply list_lookup_insert_ne. set_solver. }
      exists ns. rewrite Eu. simpl repr_ctx. split_and!; [done| | | | |].
      * rewrite Fu by set_solver. simpl. by apply list_lookup_insert_eq.
      * eapply repr_ext; [|exact Hs]. intros x Hx.
        rewrite Fu by (intros ?; by apply (Hdisj x)). simpl.
        apply list_lookup_insert_ne. set_solver.
      * done.
      * rewrite Lu. simpl. apply length_insert.
      * intros x Hx. rewrite Fu by set_solver. simpl. apply list_lookup_insert_ne. set_solver.
    + destruct Hcase as [? | ->]; [congruence|]. exists (nodes a). split; [by destruct a|done].
Qed.
