(* ===== verification/OrderTreeInsert.v ===== *)
(** * Order trees: insertion

    [insert_leaf] implements insertion into the finite map of orders: with room for
    two nodes it succeeds, never panics and never runs out of fuel; without room it
    returns an error and leaves the tree as it was. *)

From stdpp Require Import base numbers list gmap sorting.
From Stdlib Require Import ZArith Lia.
From S2P Require Import Prelude OrderTypes Nodes OrderTree OrderTreeSpec OrderTreeArena.

Open Scope Z_scope.

(** ** Root records and optional trees *)

Definition root_rep (r : OrderTreeRoot) (ot : option tree) : Prop :=
  match ot with
  | None => leaf_count r = 0
  | Some t => maybe_node r = troot t /\ leaf_count r = Z.of_nat (length (tleaves t))
  end.

Definition ohandles (ot : option tree) : list NodeHandle :=
  match ot with Some t => handles t | None => [] end.

Definition oleaves (ot : option tree) : list (NodeHandle * LeafNode) :=
  match ot with Some t => hleaves t | None => [] end.

Definition otmap (ot : option tree) : gmap Z LeafNode :=
  match ot with Some t => tmap t | None => ∅ end.

Definition orepr (ns : list AnyNode) (ot : option tree) : Prop :=
  match ot with Some t => repr ns t | None => True end.

Definition owf (ot : option tree) : Prop :=
  match ot with Some t => wf 0 t | None => True end.

Lemma orepr_ext ns ns' ot :
  (forall h, h ∈ ohandles ot -> ns' !! h = ns !! h) -> orepr ns ot -> orepr ns' ot.
Proof. destruct ot; simpl; [apply repr_ext|done]. Qed.

Lemma tleaves_pos t : (0 < length (tleaves t))%nat.
Proof.
  unfold tleaves. rewrite length_fmap.
  induction t; simpl; [lia|]. rewrite length_app. lia.
Qed.

Lemma leaves_le_handles t : (length (tleaves t) <= length (handles t))%nat.
Proof.
  unfold tleaves. rewrite length_fmap.
  induction t; simpl; [lia|]. rewrite !length_app. lia.
Qed.

Lemma root_node_Some r t : root_rep r (Some t) -> root_node r = Some (troot t).
Proof.
  intros [Hm Hc]. unfold root_node. pose proof (tleaves_pos t).
  rewrite (proj2 (Z.eqb_neq _ _)) by lia. by rewrite Hm.
Qed.

Lemma root_node_None r : root_rep r None -> root_node r = None.
Proof. simpl. intros Hc. unfold root_node. by rewrite Hc. Qed.

(** ** Moving a subtree's root to another slot *)

Definition relabel (t : tree) (h : NodeHandle) : tree :=
  match t with TLeaf _ l => TLeaf h l | TInner _ p k t0 t1 => TInner h p k t0 t1 end.

Definition sub_handles (t : tree) : list NodeHandle := tail (handles t).

Lemma handles_root t : handles t = troot t :: sub_handles t.
Proof. by destruct t. Qed.

Lemma handles_relabel t h : handles (relabel t h) = h :: sub_handles t.
Proof. by destruct t. Qed.

Lemma troot_relabel t h : troot (relabel t h) = h.
Proof. by destruct t. Qed.

Lemma mexp_relabel t h : mexp (relabel t h) = mexp t.
Proof. by destruct t. Qed.

Lemma tleaves_relabel t h : tleaves (relabel t h) = tleaves t.
Proof. by destruct t. Qed.

Lemma keys_relabel t h : keys (relabel t h) = keys t.
Proof. unfold keys. by rewrite tleaves_relabel. Qed.

Lemma wf_relabel lo t h : wf lo (relabel t h) <-> wf lo t.
Proof. by destruct t. Qed.

Lemma repr_relabel ns ns' t h :
  repr ns t -> (forall x, x ∈ sub_handles t -> ns' !! x = ns !! x) ->
  ns' !! h = Some (node_of t) -> repr ns' (relabel t h).
Proof.
  destruct t as [h0 l|h0 p k t0 t1]; simpl; [by intuition|].
  intros (_ & R0 & R1) Hext Hh. unfold sub_handles in Hext. simpl in Hext.
  split_and!; [done| |]; (eapply repr_ext; [|done]); intros; apply Hext; set_solver.
Qed.

Lemma troot_plug z t t' : troot t = troot t' -> troot (plug z t) = troot (plug z t').
Proof.
  revert t t'. induction z as [|f z IH]; simpl; [done|]. intros. apply IH.
  by rewrite !troot_plug1.
Qed.

Lemma elem_hleaves_plug z t x : x ∈ hleaves t -> x ∈ hleaves (plug z t).
Proof.
  revert t. induction z as [|f z IH]; simpl; [done|]. intros t Hx. apply IH.
  unfold plug1. destruct (fr_bit f); simpl; set_solver.
Qed.

(** ** Splitting a position of the trie *)

Definition tkey (t : tree) : Z :=
  match t with TLeaf _ l => leaf_key l | TInner _ _ k _ _ => k end.

(** How many bits of [tkey t] all keys of [t] share. *)
Definition tprefix (t : tree) : Z :=
  match t with TLeaf _ _ => 128 | TInner _ p _ _ _ => p end.

Lemma node_key_node_of t : node_key (node_of t) = Some (tkey t).
Proof. by destruct t. Qed.

Lemma tkey_shares lo t k : wf lo t -> k ∈ keys t -> shares (tprefix t) k (tkey t).
Proof.
  destruct t as [h l|h p key t0 t1]; simpl.
  - intros _ Hk. change (keys (TLeaf h l)) with [leaf_key l] in Hk.
    apply list_elem_of_singleton in Hk as ->. apply shares_refl.
  - rewrite keys_TInner. intros (_ & _ & F0 & F1 & _) Hk.
    rewrite Forall_forall in F0, F1.
    apply elem_of_app in Hk as [Hk|Hk]; [by apply F0 | by apply F1].
Qed.

Lemma tkey_u128 lo t : wf lo t -> is_u128 (tkey t).
Proof. destruct t; simpl; [by intros []|tauto]. Qed.

Lemma tprefix_range lo t : 0 <= lo <= 128 -> wf lo t -> lo <= tprefix t <= 128.
Proof. destruct t; simpl; [lia|]. intros ? (? & _). lia. Qed.

Lemma keys_nonempty t : exists k, k ∈ keys t.
Proof.
  pose proof (tleaves_pos t) as H. unfold keys. destruct (tleaves t) as [|l ls]; [simpl in H; lia|].
  exists (leaf_key l). set_solver.
Qed.

Lemma hole_lo_range z : wf_ctx 0 z -> 0 <= hole_lo 0 z <= 128.
Proof.
  induction z as [|f z IH]; simpl; [lia|].
  intros (Hp & _ & _ & _ & _ & Hz). specialize (IH Hz). lia.
Qed.

(** Two keys that follow the same path share its bits. *)
Lemma fits_shares z k1 k2 :
  wf_ctx 0 z -> is_u128 k1 -> is_u128 k2 -> fits z k1 -> fits z k2 ->
  shares (hole_lo 0 z) k1 k2.
Proof.
  intros W U1 U2 F1 F2. destruct z as [|f z]; simpl.
  - by apply shares_0.
  - destruct W as (Hp & _). apply fits_cons in F1 as [[S1 B1] _], F2 as [[S2 B2] _].
    apply shares_step; [lia| |congruence]. by eapply shares_trans, shares_sym.
Qed.

(** The new inner node above the subtree [t] (moved to [mh]) and the leaf. *)
Definition split_frame (t : tree) (mh : NodeHandle) (leaf : LeafNode) (s : Z) : frame :=
  mkFrame (troot t) s (leaf_key leaf) (Z.testbit (leaf_key leaf) (127 - s)) (relabel t mh).

Definition split_tree (t : tree) (mh lh : NodeHandle) (leaf : LeafNode) (s : Z) : tree :=
  plug1 (split_frame t mh leaf s) (TLeaf lh leaf).

Section split.
Context (z : list frame) (t : tree) (leaf : LeafNode) (mh lh : NodeHandle).
Let k := leaf_key leaf.
Let s := leading_zeros128 (Z.lxor (tkey t) k).
Hypothesis (W : wf 0 (plug z t)) (Lk : leaf_ok leaf) (Fk : fits z k) (Hs : s < tprefix t).

Lemma split_prefix_range : hole_lo 0 z <= s <= 127.
Proof.
  apply wf_plug in W as (Wz & Wt & Ft). pose proof (hole_lo_range z Wz) as Hlo.
  pose proof (tprefix_range _ t Hlo Wt) as Hpr. split; [|lia].
  destruct (keys_nonempty t) as [k0 Hk0]. rewrite Forall_forall in Ft.
  assert (U0 : is_u128 k0).
  { apply wf_leaf_ok in Wt. unfold keys in Hk0. apply list_elem_of_fmap in Hk0 as (l & -> & Hl).
    rewrite Forall_forall in Wt. by apply Wt. }
  apply leading_zeros_shares; [lia|by eapply tkey_u128|by destruct Lk|].
  eapply shares_trans; [|apply fits_shares; eauto; by destruct Lk].
  apply shares_sym, (shares_mono (tprefix t)); [lia|]. by eapply tkey_shares.
Qed.

Lemma split_side : Forall (on_side s k (negb (Z.testbit k (127 - s)))) (keys t).
Proof.
  pose proof split_prefix_range as Hr.
  pose proof (proj1 (wf_plug _ _ _) W) as (Wz & Wt & Ft).
  pose proof (hole_lo_range z Wz) as Hlo. pose proof (tprefix_range _ t Hlo Wt) as Hpr.
  assert (Uk : is_u128 k) by by destruct Lk.
  assert (Ut : is_u128 (tkey t)) by by eapply tkey_u128.
  assert (Hst : shares s (tkey t) k) by (apply leading_zeros_shares; auto; lia).
  assert (Hne : tkey t <> k).
  { intros E. unfold s in Hr. rewrite E, Z.lxor_nilpotent in Hr. unfold leading_zeros128 in Hr.
    simpl in Hr. lia. }
  apply Forall_forall. intros k' Hk'. pose proof (tkey_shares _ _ _ Wt Hk') as Hsh. split.
  - eapply shares_trans; [|exact Hst]. apply (shares_mono (tprefix t)); [lia|done].
  - rewrite (shares_bits (tprefix t) k' (tkey t)) by (done || lia).
    by apply leading_zeros_crit.
Qed.

Lemma split_wf : wf 0 (plug z (split_tree t mh lh leaf s)).
Proof.
  pose proof split_prefix_range as Hr. pose proof split_side as Hside.
  apply wf_plug in W as (Wz & Wt & Ft). apply wf_plug. split_and!; [done| |].
  - apply wf_plug1. simpl. rewrite keys_relabel, wf_relabel. split_and!; auto; try lia.
    + by destruct Lk.
    + pose proof (hole_lo_range z Wz) as Hlo.
      destruct t as [h l|h p key t0 t1]; simpl in *; [done|]. split; [lia|tauto].
    + apply Forall_singleton. split; [apply shares_refl|done].
  - unfold split_tree. rewrite keys_plug1. simpl. rewrite keys_relabel.
    apply Forall_app. split; [done|]. by apply Forall_singleton.
Qed.

Lemma split_leaves : exists l1 l2,
  tleaves (plug z (split_tree t mh lh leaf s)) = l1 ++ leaf :: l2 /\
  tleaves (plug z t) = l1 ++ l2.
Proof.
  rewrite !tleaves_plug. unfold split_tree, plug1. simpl.
  destruct (Z.testbit (leaf_key leaf) (127 - s)); rewrite tleaves_TInner, tleaves_relabel.
  - exists (pre z ++ tleaves t), (post z). by rewrite <- !app_assoc.
  - exists (pre z), (tleaves t ++ post z). done.
Qed.

Lemma split_tmap :
  tmap (plug z (split_tree t mh lh leaf s)) = <[k := leaf]> (tmap (plug z t)) /\
  tmap (plug z t) !! k = None.
Proof.
  destruct split_leaves as (l1 & l2 & E1 & E2). unfold tmap. rewrite E1, E2.
  apply omap_of_middle. rewrite <- E1. eapply sorted_NoDup, wf_sorted, split_wf.
Qed.

Lemma split_count :
  length (tleaves (plug z (split_tree t mh lh leaf s))) = S (length (tleaves (plug z t))).
Proof.
  destruct split_leaves as (l1 & l2 & E1 & E2). rewrite E1, E2, !length_app. simpl. lia.
Qed.

End split.

(** ** What insertion guarantees

    [R] are the slots of the other trees of the array: they are not touched. *)

Definition insert_post (a : OrderTreeNodes) (root : OrderTreeRoot) (ot : option tree)
    (R : list NodeHandle) (leaf : LeafNode)
    (out : outcome (OrderTreeNodes * OrderTreeRoot * result (NodeHandle * option LeafNode))) :
    Prop :=
  exists a' root' r,
    out = Done (a', root', r) /\
    order_tree_type a' = order_tree_type a /\
    (forall h, h ∈ R -> nodes a' !! h = nodes a !! h) /\
    match r with
    | Ok (h, old) =>
        exists t' fl',
          heap_inv a' (handles t' ++ R) fl' /\ repr (nodes a') t' /\ wf 0 t' /\
          root_rep root' (Some t') /\ (h, leaf) ∈ hleaves t' /\
          tmap t' = <[leaf_key leaf := leaf]> (otmap ot) /\
          old = otmap ot !! leaf_key leaf
    | Err e =>
        e = EMango SomeError /\ root' = root /\ otmap ot !! leaf_key leaf = None /\
        (MAX_ORDERTREE_NODES < length (ohandles ot ++ R) + 2)%nat /\
        exists fl', heap_inv a' (ohandles ot ++ R) fl' /\ orepr (nodes a') ot
    end.

(** Replacing the hole of a represented tree by a subtree with the same root slot,
    after the ancestors' expiries were repaired. *)
Lemma repr_replug a z t t' outdated :
  NoDup (ctx_handles z) -> repr_ctx (nodes a) z (troot t) (mexp t) ->
  repr (nodes a) t' -> troot t' = troot t ->
  (forall h, h ∈ handles t' -> h ∉ ctx_handles z) ->
  outdated = mexp t \/ mexp t' = mexp t ->
  exists ns,
    update_parent_earliest_expiry a (path_of z) outdated (mexp t') = Done (set_nodes a ns) /\
    repr ns (plug z t') /\ length ns = length (nodes a) /\
    (forall x, x ∉ ctx_handles z -> ns !! x = nodes a !! x).
Proof.
  intros ND Rz Rt' Ht Hdisj Hcase.
  destruct (update_parent_earliest_expiry_ok z a (troot t) (mexp t) outdated (mexp t')
    ND Rz Hcase) as (ns & E & Rz' & L & F).
  exists ns. split_and!; [done| |done|done].
  apply repr_plug. rewrite Ht. split; [|done].
  eapply repr_ext; [|exact Rt']. auto.
Qed.

(** The crit bit the code computes is the key's bit. *)
Lemma crit_bit_mask_ok k n :
  0 <= n -> negb (Z.land (Z.shiftl 1 n) k =? 0) = Z.testbit k n.
Proof. intros. rewrite Z.land_comm. by apply mask_testbit. Qed.

Lemma walk_down_ok p key c0 c1 e k :
  0 <= p <= 127 ->
  walk_down (mkInnerNode p key (c0, c1) e) k
  = Done (if Z.testbit k (127 - p) then c1 else c0, Z.testbit k (127 - p)).
Proof.
  intros Hp. unfold walk_down. simpl inner_prefix_len.
  rewrite u32_ok by (unfold_widths; lia). rewrite bind_Done, mask_testbit by lia.
  unfold sel. by destruct (Z.testbit k (127 - p)).
Qed.

Section insert_split.
Context (a : OrderTreeNodes) (root : OrderTreeRoot) (leaf : LeafNode).
Context (z : list frame) (t : tree) (R fl : list NodeHandle).
Let k := leaf_key leaf.
Let s := leading_zeros128 (Z.lxor (tkey t) k).
Hypothesis (H : heap_inv a (handles (plug z t) ++ R) fl).
Hypothesis (Rp : repr (nodes a) (plug z t)) (W : wf 0 (plug z t)).
Hypothesis (Lk : leaf_ok leaf) (Fk : fits z k) (Hs : s < tprefix t).
Hypothesis (Rt : root_rep root (Some (plug z t))).

(** The slots of the plugged tree, split as the proof needs them. *)
Lemma split_slots : handles (plug z t) ++ R ≡ₚ troot t :: (sub_handles t ++ ctx_handles z ++ R).
Proof. rewrite handles_plug, handles_root. simpl. by rewrite <- !app_assoc. Qed.

(** The array after the two allocations and the write of the new inner node. *)
Lemma insert_split_writes a1 a2 lh mh fl2 e :
  nodes a1 = <[lh := NLeaf leaf]> (nodes a) ->
  lh ∉ handles (plug z t) ++ R -> (lh < MAX_ORDERTREE_NODES)%nat ->
  nodes a2 = <[mh := node_of t]> (nodes a1) ->
  mh ∉ lh :: handles (plug z t) ++ R -> (mh < MAX_ORDERTREE_NODES)%nat ->
  heap_inv a2 (mh :: lh :: handles (plug z t) ++ R) fl2 ->
  e = NInner (frame_node (split_frame t mh leaf s) lh (expiry_of leaf)) ->
  let T := split_tree t mh lh leaf s in
  let a3 := set_nodes a2 (<[troot t := e]> (nodes a2)) in
  write_node a2 (troot t) e = Done a3 /\
  heap_inv a3 (handles (plug z T) ++ R) fl2 /\
  repr (nodes a3) T /\ repr_ctx (nodes a3) z (troot t) (mexp t) /\
  NoDup (ctx_handles z) /\
  (forall h, h ∈ handles T -> h ∉ ctx_handles z) /\
  (forall h, h ∈ R -> h ∉ ctx_handles z /\ nodes a3 !! h = nodes a !! h).
Proof.
  intros E1 Hlh Llh E2 Hmh Lmh H2 -> T a3.
  pose proof split_slots as Psl. pose proof (hi_len _ _ _ H) as Len.
  assert (HTsl : handles (plug z T) ≡ₚ mh :: lh :: handles (plug z t)).
  { unfold T, split_tree. rewrite !handles_plug. unfold plug1, split_frame. simpl.
    rewrite (handles_root t).
    destruct (Z.testbit _ _); simpl; rewrite handles_relabel; simpl; solve_Permutation. }
  assert (ND : NoDup (mh :: lh :: troot t :: sub_handles t ++ ctx_handles z ++ R)).
  { rewrite <- Psl. pose proof (heap_NoDup H2) as [? _]%NoDup_app. done. }
  pose proof ND as (Hm & (Hl & (Ht & _)%NoDup_cons)%NoDup_cons)%NoDup_cons.
  assert (Hn2 : nodes a2 !! troot t = Some (node_of t)).
  { rewrite E2, E1, !list_lookup_insert_ne by set_solver.
    apply repr_plug in Rp as [Rp _]. by apply repr_root. }
  assert (Hold : forall x, x ∈ sub_handles t ++ ctx_handles z ++ R ->
    nodes a3 !! x = nodes a !! x).
  { intros x Hx. simpl. rewrite E2, E1. by rewrite !list_lookup_insert_ne by set_solver. }
  assert (Hlk : forall x n, (x < MAX_ORDERTREE_NODES)%nat ->
    (<[x := n]> (nodes a2)) !! x = Some n).
  { intros x n Hx. apply list_lookup_insert_eq. rewrite E2, E1, !length_insert. lia. }
  apply repr_plug in Rp as [Rpt Rpz]. split_and!.
  - unfold write_node. rewrite (node_lookup a2 (troot t) (node_of t)); [done|done|].
    destruct t; simpl; eauto.
  - apply (heap_perm (used := mh :: lh :: handles (plug z t) ++ R)).
    + apply heap_write; [done|]. rewrite Psl. set_solver.
    + by rewrite HTsl.
  - unfold T, split_tree. apply repr_plug1. split_and!.
    + simpl. apply Hlk. eapply heap_lt; [exact H|]. rewrite Psl. set_solver.
    + simpl. eapply repr_relabel; [exact Rpt| |].
      * intros x Hx. apply Hold. set_solver.
      * simpl. rewrite list_lookup_insert_ne by set_solver. rewrite E2.
        apply list_lookup_insert_eq. rewrite E1, length_insert. lia.
    + simpl. split; [|done].
      rewrite !list_lookup_insert_ne by set_solver. rewrite E2, list_lookup_insert_ne by set_solver.
      rewrite E1. apply list_lookup_insert_eq. lia.
  - eapply repr_ctx_ext; [|exact Rpz]. intros x Hx. apply Hold. set_solver.
  - rewrite app_assoc in ND. do 3 apply NoDup_cons in ND as [_ ND].
    apply NoDup_app in ND as [ND _]. by apply NoDup_app in ND as (_ & _ & ?).
  - intros x Hx. assert (Hx' : x ∈ mh :: lh :: troot t :: sub_handles t).
    { unfold T, split_tree, plug1, split_frame in Hx. simpl in Hx.
      destruct (Z.testbit _ _); simpl in Hx; rewrite handles_relabel in Hx; set_solver. }
    change (mh :: lh :: troot t :: sub_handles t ++ ctx_handles z ++ R)
      with ((mh :: lh :: troot t :: sub_handles t) ++ ctx_handles z ++ R) in ND.
    apply NoDup_app in ND as (_ & D & _). specialize (D x Hx'). set_solver.
  - intros x Hx. split; [|apply Hold; set_solver].
    do 3 apply NoDup_cons in ND as [_ ND]. apply NoDup_app in ND as (_ & _ & ND).
    apply NoDup_app in ND as (_ & D & _). intros Hc. by apply (D x).
Qed.

Lemma insert_split_ok :
  insert_post a root (Some (plug z t)) R leaf
    (insert_split a root leaf (troot t) (node_of t) s (path_of z)).
Proof.
  pose proof (split_prefix_range z t leaf W Lk Fk Hs) as Hr. fold k s in Hr.
  pose proof (proj1 (wf_plug _ _ _) W) as (Wz & Wt & _).
  pose proof (hole_lo_range z Wz) as Hlo.
  destruct (split_tmap z t leaf 0 0 W Lk Fk Hs) as [_ Hnone].
  assert (Hsh : 0 <= 127 - s <= 127) by lia.
  unfold insert_split. rewrite (u32_ok (127 - s)) by (unfold is_u32, U32_MAX; lia). rewrite bind_Done.
  rewrite crit_bit_mask_ok by lia.
  pose proof (insert_ok a _ fl (NLeaf leaf) H ltac:(simpl; eauto)) as I1.
  case_decide as D1; cycle 1.
  { rewrite I1. simpl. exists a, root, (Err (EMango SomeError)). split_and!; try done; [unfold ohandles; lia|eauto]. }
  destruct I1 as (a1 & lh & fl1 & -> & Hlh & Llh & N1 & T1 & H1). rewrite bind_Done.
  cbv beta iota.
  pose proof (insert_ok a1 _ fl1 (node_of t) H1 (node_case_node_of t)) as I2.
  case_decide as D2; cycle 1.
  { rewrite I2, bind_Done. cbv beta iota.
    destruct (remove_ok a1 lh _ fl1 (NLeaf leaf) H1) as (a2 & f & -> & N2 & T2 & H2); [|eauto|].
    { rewrite N1. apply list_lookup_insert_eq. rewrite (hi_len _ _ _ H). lia. }
    simpl. exists a2, root, (Err (EMango SomeError)).
    assert (Hfr : forall h, h ∈ handles (plug z t) ++ R -> nodes a2 !! h = nodes a !! h).
    { intros h Hh. rewrite N2, N1, !list_lookup_insert_ne by set_solver. done. }
    split_and!; try done.
    - congruence.
    - intros h Hh. apply Hfr. set_solver.
    - rewrite length_cons in D2. unfold ohandles. lia.
    - eexists. split; [done|]. eapply repr_ext; [|exact Rp]. set_solver. }
  destruct I2 as (a2 & mh & fl2 & -> & Hmh & Lmh & N2 & T2 & H2). rewrite bind_Done.
  cbv beta iota zeta.
  rewrite expiry_ok, bind_Done by done. rewrite (earliest_expiry_node_of _ _ Wt), bind_Done.
  match goal with |- context [write_node _ _ ?n] => set (e := n) end.
  assert (Ee : e = NInner (frame_node (split_frame t mh leaf s) lh (expiry_of leaf))).
  { unfold e, frame_node, inner_new, upd. simpl. rewrite troot_relabel, mexp_relabel.
    fold k. by destruct (Z.testbit k (127 - s)). }
  destruct (insert_split_writes a1 a2 lh mh fl2 e N1 Hlh Llh N2 Hmh Lmh H2 Ee)
    as (-> & H3 & R3 & C3 & NDz & Hdisj & HR).
  rewrite bind_Done. set (a3 := set_nodes a2 _) in *. set (T := split_tree t mh lh leaf s) in *.
  assert (HT : troot T = troot t) by apply troot_plug1.
  assert (HmT : mexp T = Z.min (expiry_of leaf) (mexp t)).
  { unfold T, split_tree. rewrite mexp_plug1. unfold frame_exp. simpl. rewrite mexp_relabel.
    destruct (Z.testbit _ _); lia. }
  assert (Hup : exists ns,
    (if expiry_of leaf <? mexp t
     then update_parent_earliest_expiry a3 (path_of z) (mexp t) (expiry_of leaf) else Done a3)
      = Done (set_nodes a3 ns) /\ repr ns (plug z T) /\ length ns = length (nodes a3) /\
    (forall x, x ∉ ctx_handles z -> ns !! x = nodes a3 !! x)).
  { destruct (Z.ltb_spec (expiry_of leaf) (mexp t)).
    - replace (expiry_of leaf) with (mexp T) by lia.
      apply (repr_replug a3 z t T); auto.
    - exists (nodes a3). split_and!; try done. apply repr_plug. rewrite HT.
      split; [done|]. by replace (mexp T) with (mexp t) by lia. }
  destruct Hup as (ns & -> & Rns & Lns & Fns). rewrite bind_Done.
  pose proof (split_count z t leaf mh lh) as Hcnt. fold k s T in Hcnt.
  destruct Rt as [Rm Rc]. pose proof (leaves_le_handles (plug z t)) as Hle.
  pose proof (heap_used_bound H) as Hub. rewrite length_app in Hub.
  rewrite u32_ok by (unfold MAX_ORDERTREE_NODES in *; unfold_widths; lia). rewrite bind_Done.
  destruct (split_tmap z t leaf mh lh W Lk Fk Hs) as [Hmap _]. fold k s T in Hmap.
  eexists _, _, _. split; [done|]. split_and!; [simpl; congruence| |].
  { intros h Hh. destruct (HR h Hh). simpl. rewrite Fns by done. done. }
  exists (plug z T), fl2. split_and!; try done.
  - apply (heap_set_nodes H3); [done|]. intros h Hh. apply Fns. intros Hc.
    pose proof (heap_NoDup H3) as (_ & D & _)%NoDup_app. apply (D h); [|done].
    rewrite handles_plug. set_solver.
  - by apply split_wf.
  - simpl. split; [rewrite Rm; by apply troot_plug | lia].
  - apply elem_hleaves_plug. unfold T, split_tree, plug1. simpl.
    destruct (Z.testbit _ _); simpl; set_solver.
Qed.

End insert_split.

(** ** The walk *)

(** The slots of a plugged tree, of the other trees and of the free list are
    pairwise disjoint. *)
Lemma plug_slots a z t R fl :
  heap_inv a (handles (plug z t) ++ R) fl ->
  NoDup (ctx_handles z) /\ (forall h, h ∈ handles t -> h ∉ ctx_handles z) /\
  (forall h, h ∈ R -> h ∉ ctx_handles z /\ h ∉ handles t) /\
  (forall h, h ∈ fl -> h ∉ ctx_handles z /\ h ∉ handles t).
Proof.
  intros H. pose proof (heap_NoDup H) as ND. rewrite handles_plug in ND.
  apply NoDup_app in ND as (ND & Dfl & _). apply NoDup_app in ND as (ND & DR & _).
  apply NoDup_app in ND as (_ & Dz & NDz). split_and!; [done|done| |].
  - intros h Hh. split; intros Hc; apply (DR h); set_solver.
  - intros h Hh. split; intros Hc; apply (Dfl h); set_solver.
Qed.

Lemma plug_cons h p key (b : bool) t0 t1 z :
  plug (mkFrame h p key b (if b then t0 else t1) :: z) (if b then t1 else t0)
  = plug z (TInner h p key t0 t1).
Proof. by destruct b. Qed.

(** Overwriting a leaf with the same key. *)
Lemma insert_clobber_ok a root leaf z h l R fl :
  heap_inv a (handles (plug z (TLeaf h l)) ++ R) fl ->
  repr (nodes a) (plug z (TLeaf h l)) -> wf 0 (plug z (TLeaf h l)) -> leaf_ok leaf ->
  leaf_key l = leaf_key leaf -> root_rep root (Some (plug z (TLeaf h l))) ->
  insert_post a root (Some (plug z (TLeaf h l))) R leaf
    (t ← write_node a h (NLeaf leaf);
     old_e ← expiry l;
     new_e ← expiry leaf;
     t ← update_parent_earliest_expiry t (path_of z) old_e new_e;
     Done (t, root, Ok (h, Some l))).
Proof.
  intros H Rp W Lk Ek Rt.
  destruct (plug_slots _ _ _ _ _ H) as (NDz & Dz & DR & Dfl).
  pose proof (proj1 (repr_plug _ _ _) Rp) as [Rl Rz].
  pose proof (proj1 (wf_plug _ _ _) W) as (Wz & Wl & Fl).
  set (ns1 := <[h := NLeaf leaf]> (nodes a)).
  assert (Hw : write_node a h (NLeaf leaf) = Done (set_nodes a ns1)).
  { unfold write_node. pose proof (node_repr a _ Rl) as E. simpl in E. by rewrite E. }
  assert (Hin : h ∈ handles (plug z (TLeaf h l)) ++ R) by (rewrite handles_plug; set_solver).
  pose proof (heap_write H h (NLeaf leaf) Hin) as H1. fold ns1 in H1.
  rewrite Hw, bind_Done, (expiry_ok l), bind_Done, (expiry_ok leaf), bind_Done by done.
  destruct (repr_replug (set_nodes a ns1) z (TLeaf h l) (TLeaf h leaf) (expiry_of l))
    as (ns & Eu & Rns & Lns & Fns); auto.
  { eapply repr_ctx_ext; [|exact Rz]. intros x Hx. apply list_lookup_insert_ne.
    intros ->. apply (Dz x); set_solver. }
  { split; [|done]. apply list_lookup_insert_eq, lookup_lt_is_Some. exists (NLeaf l). by apply repr_root in Rl. }
  change (mexp (TLeaf h leaf)) with (expiry_of leaf) in Eu. rewrite Eu, bind_Done.
  assert (Hkeys : keys (TLeaf h leaf) = keys (TLeaf h l)) by (unfold keys; simpl; by rewrite Ek).
  assert (W' : wf 0 (plug z (TLeaf h leaf))).
  { apply wf_plug. rewrite Hkeys. done. }
  eexists _, _, _. split; [done|]. split_and!; [done| |].
  { intros x Hx. simpl. rewrite Fns by (by apply DR). simpl. apply list_lookup_insert_ne.
    intros ->. apply (DR x); set_solver. }
  assert (Hm : otmap (Some (plug z (TLeaf h l))) = <[leaf_key l := l]> (omap_of (pre z ++ post z))
    /\ tmap (plug z (TLeaf h leaf)) = <[leaf_key leaf := leaf]> (omap_of (pre z ++ post z))).
  { simpl. unfold tmap. apply wf_sorted, sorted_NoDup in W, W'. unfold keys in W, W'.
    rewrite tleaves_plug in W, W'. rewrite !tleaves_plug. split; by apply omap_of_middle. }
  destruct Hm as [Hm1 Hm2].
  exists (plug z (TLeaf h leaf)), fl. split_and!; try done.
  - apply (heap_perm (used := handles (plug z (TLeaf h l)) ++ R)); [|by rewrite !handles_plug].
    apply (heap_set_nodes H1); [done|]. intros x Hx. apply Fns. by apply Dfl.
  - destruct Rt as [Rm Rc]. split; [rewrite Rm; by apply troot_plug|].
    rewrite Rc, !tleaves_plug, !length_app. done.
  - apply elem_hleaves_plug. simpl. set_solver.
  - by rewrite Hm1, Hm2, Ek, insert_insert_eq.
  - by rewrite Hm1, Ek, lookup_insert_eq.
Qed.

Lemma insert_walk_ok a root leaf R fl : forall fuel z t,
  (height t <= fuel)%nat ->
  heap_inv a (handles (plug z t) ++ R) fl ->
  repr (nodes a) (plug z t) -> wf 0 (plug z t) -> leaf_ok leaf -> fits z (leaf_key leaf) ->
  root_rep root (Some (plug z t)) ->
  insert_post a root (Some (plug z t)) R leaf
    (insert_walk fuel a root leaf (troot t) (path_of z)).
Proof.
  induction fuel as [|fuel IH]; intros z t Hh H Rp W Lk Fk Rt; [destruct t; simpl in Hh; lia|].
  cbn [insert_walk].
  pose proof (proj1 (repr_plug _ _ _) Rp) as [Rpt _].
  pose proof (proj1 (wf_plug _ _ _) W) as (Wz & Wt & Ft).
  pose proof (hole_lo_range z Wz) as Hlo.
  rewrite (node_repr a t Rpt), bind_Done. simpl unwrap. rewrite bind_Done.
  rewrite node_key_node_of. simpl unwrap. rewrite bind_Done. cbv zeta.
  destruct t as [h l|h p key t0 t1].
  - change (node_case (node_of (TLeaf h l))) with (Some (RLeaf l)). cbv iota.
    destruct (Z.eqb_spec (tkey (TLeaf h l)) (leaf_key leaf)) as [E|E].
    + by eapply insert_clobber_ok.
    + eapply (insert_split_ok a root leaf z (TLeaf h l)); eauto.
      pose proof (leading_zeros_range (tkey (TLeaf h l)) (leaf_key leaf)
        (tkey_u128 _ _ Wt) (leaf_ok_key _ Lk) E). simpl in *. lia.
  - change (node_case (node_of (TInner h p key t0 t1))) with
      (Some (RInner (mkInnerNode p key (troot t0, troot t1) (mexp t0, mexp t1)))). cbv iota.
    simpl in Wt. destruct Wt as (Hp & Uk & F0 & F1 & W0 & W1).
    simpl inner_prefix_len. simpl tkey.
    destruct (Z.leb_spec p (leading_zeros128 (Z.lxor key (leaf_key leaf)))) as [Hs|Hs].
    + rewrite walk_down_ok, bind_Done by lia. cbv beta iota.
      apply leading_zeros_shares in Hs; [|lia|done|by destruct Lk].
      set (b := Z.testbit (leaf_key leaf) (127 - p)).
      rewrite <- (plug_cons h p key b) in H, Rp, W, Rt |- *.
      replace (if b then troot t1 else troot t0) with (troot (if b then t1 else t0))
        by by destruct b.
      apply (IH (mkFrame h p key b (if b then t0 else t1) :: z)); auto.
      * simpl in Hh. destruct b; lia.
      * apply fits_cons. split; [|done]. split; [by apply shares_sym|done].
    + eapply (insert_split_ok a root leaf z (TInner h p key t0 t1)); eauto.
Qed.

(** [insert_leaf] meets [insert_post]. *)
Lemma insert_leaf_ok a root ot R fl leaf :
  heap_inv a (ohandles ot ++ R) fl -> orepr (nodes a) ot -> owf ot -> root_rep root ot ->
  leaf_ok leaf ->
  insert_post a root ot R leaf (insert_leaf a root leaf).
Proof.
  intros H Rp W Rt Lk. unfold insert_leaf. destruct ot as [t|].
  - rewrite (root_node_Some _ _ Rt).
    apply (insert_walk_ok a root leaf R fl TREE_FUEL [] t); auto; [by apply height_fuel|].
    constructor.
  - rewrite (root_node_None _ Rt). simpl in H.
    pose proof (insert_ok a R fl (NLeaf leaf) H ltac:(simpl; eauto)) as I.
    case_decide as D.
    + destruct I as (a1 & h & fl1 & -> & Hh & Lh & N1 & T1 & H1). rewrite bind_Done. cbv beta iota.
      eexists _, _, _. split; [done|]. split_and!; [done| |].
      { intros x Hx. rewrite N1. apply list_lookup_insert_ne. by intros ->. }
      exists (TLeaf h leaf), fl1. split_and!; try done.
      * simpl. split; [|done]. rewrite N1. apply list_lookup_insert_eq.
        rewrite (hi_len _ _ _ H). lia.
      * simpl. set_solver.
    + rewrite I, bind_Done. cbv beta iota. eexists _, _, _. split; [done|].
      split_and!; try done; [simpl; lia|]. simpl. eauto.
Qed.

(** C1: [insert_leaf] implements insertion into the map of orders. On an array that
    holds this tree (or an empty root) beside other trees and whose slots are all
    accounted for, inserting a valid leaf neither panics nor runs out of fuel, keeps
    the tree well-formed and the other trees' slots untouched, and either adds the
    leaf under its key (returning its handle and the leaf it replaced, if any), or
    returns an error because fewer than two slots are free, in which case the
    tree is unchanged and the key was not present. *)
Theorem insert_leaf_refines a root ot R fl leaf :
  heap_inv a (ohandles ot ++ R) fl -> orepr (nodes a) ot -> owf ot -> root_rep root ot ->
  leaf_ok leaf ->
  insert_post a root ot R leaf (insert_leaf a root leaf).
Proof. apply insert_leaf_ok. Qed.

(** ** A tree with two orders, for the concrete instances of the theorems *)

Definition small_leaf (k : Z) : LeafNode := leaf_new 0 k 7 5 1000 Limit 60 (-1) 42.

Definition small_tree : tree := TInner 2 126 5 (TLeaf 0 (small_leaf 5)) (TLeaf 1 (small_leaf 6)).

Definition small_nodes : OrderTreeNodes :=
  mkNodes Bids 3 0 0
    (node_of (TLeaf 0 (small_leaf 5)) :: node_of (TLeaf 1 (small_leaf 6)) :: node_of small_tree ::
     replicate 1021 NUninitialized).

Definition small_root : OrderTreeRoot := mkRoot 2 2.

Lemma small_leaf_ok k : is_u128 k -> leaf_ok (small_leaf k).
Proof. intros H. constructor; simpl; [done|unfold_widths; lia..]. Qed.

Lemma small_heap : heap_inv small_nodes (ohandles (Some small_tree) ++ []) [].
Proof.
  constructor; [reflexivity|vm_compute; split; congruence|exact I|reflexivity|].
  simpl. apply (Permutation_app_comm [2%nat] [0%nat; 1%nat]).
Qed.

Lemma small_repr : orepr (nodes small_nodes) (Some small_tree).
Proof. repeat split. Qed.

Lemma small_wf : owf (Some small_tree).
Proof.
  assert (forall p k key b, bool_decide (shares p k key) && bool_decide (Z.testbit k (127 - p) = b) = true ->
    on_side p key b k).
  { intros p k key b [H1%bool_decide_eq_true H2%bool_decide_eq_true]%andb_true_iff. by split. }
  simpl. split_and!; try (by apply small_leaf_ok; unfold_widths; lia); try (unfold_widths; lia);
    repeat constructor; vm_compute; reflexivity.
Qed.

Lemma small_root_rep : root_rep small_root (Some small_tree).
Proof. by split. Qed.

(** The witness of C1: inserting a third order. *)
Lemma insert_leaf_refines_witness :
  insert_post small_nodes small_root (Some small_tree) [] (small_leaf 9)
    (insert_leaf small_nodes small_root (small_leaf 9)).
Proof.
  apply (insert_leaf_refines small_nodes small_root (Some small_tree) [] []).
  - exact small_heap.
  - exact small_repr.
  - exact small_wf.
  - exact small_root_rep.
  - apply small_leaf_ok. unfold is_u128, U128_MAX. lia.
Defined.
