(* ===== verification/OrderTreeRemove.v ===== *)
(** * Order trees: removal and search

    [remove_by_key] implements deletion from the finite map of orders;
    [find_earliest_expiry], [leaf_min_max] and the removals built on them pick the
    order the source's comments promise. *)

From stdpp Require Import base numbers list gmap sorting.
From Stdlib Require Import ZArith Lia.
From S2P Require Import Prelude OrderTypes Nodes OrderTree OrderTreeSpec OrderTreeArena OrderTreeInsert.

Open Scope Z_scope.

Definition remove_post (a : OrderTreeNodes) (root : OrderTreeRoot) (ot : option tree)
    (R : list NodeHandle) (k : Z)
    (out : outcome (OrderTreeNodes * OrderTreeRoot * option LeafNode)) : Prop :=
  exists a' root' ot' fl',
    out = Done (a', root', otmap ot !! k) /\
    order_tree_type a' = order_tree_type a /\
    (forall h, h ∈ R -> nodes a' !! h = nodes a !! h) /\
    heap_inv a' (ohandles ot' ++ R) fl' /\ orepr (nodes a') ot' /\ owf ot' /\
    root_rep root' ot' /\ otmap ot' = delete k (otmap ot).

(** Nothing changes when the key is absent. *)
Lemma remove_post_absent a root ot R fl k :
  heap_inv a (ohandles ot ++ R) fl -> orepr (nodes a) ot -> owf ot -> root_rep root ot ->
  otmap ot !! k = None -> remove_post a root ot R k (Done (a, root, None)).
Proof.
  intros H Rp W Rt Hn. exists a, root, ot, fl. rewrite Hn. split_and!; try done.
  by rewrite delete_id.
Qed.

Lemma keys_tmap_None t k : k ∉ keys t -> tmap t !! k = None.
Proof. apply omap_of_None. Qed.

(** ** The walk *)

Lemma side_of_key p key t0 t1 h lo k :
  wf lo (TInner h p key t0 t1) -> k ∈ keys (TInner h p key t0 t1) ->
  k ∈ keys (if Z.testbit k (127 - p) then t1 else t0).
Proof.
  simpl. intros (_ & _ & F0 & F1 & _). rewrite keys_TInner, elem_of_app.
  rewrite Forall_forall in F0, F1.
  intros [Hk|Hk]; [destruct (F0 _ Hk) as [_ ->] | destruct (F1 _ Hk) as [_ ->]]; done.
Qed.

(** The walk ends at the only leaf that can have the key. *)
Lemma remove_walk_ok a k : forall fuel f z t,
  (height t <= fuel)%nat -> repr (nodes a) (plug (f :: z) t) -> wf 0 (plug (f :: z) t) ->
  (k ∈ keys (plug (f :: z) t) -> k ∈ keys t) ->
  (remove_walk fuel a k (fr_h f) (troot t) (fr_bit f) (path_of (f :: z)) = Done None /\
   k ∉ keys (plug (f :: z) t)) \/
  exists f' z' h l,
    plug (f :: z) t = plug (f' :: z') (TLeaf h l) /\ leaf_key l = k /\
    remove_walk fuel a k (fr_h f) (troot t) (fr_bit f) (path_of (f :: z))
    = Done (Some (fr_h f', h, fr_bit f', path_of (f' :: z'))).
Proof.
  induction fuel as [|fuel IH]; intros f z t Hh Rp W Hk; [destruct t; simpl in Hh; lia|].
  pose proof (proj1 (repr_plug _ _ _) Rp) as [Rpt _].
  pose proof (proj1 (wf_plug _ _ _) W) as (Wz & Wt & Ft).
  pose proof (hole_lo_range _ Wz) as Hlo.
  cbn [remove_walk]. unfold node_ref. rewrite (node_repr a t Rpt), bind_Done.
  simpl unwrap. rewrite bind_Done. destruct t as [h l|h p key t0 t1].
  - change (node_case (node_of (TLeaf h l))) with (Some (RLeaf l)). simpl unwrap. rewrite bind_Done.
    destruct (Z.eqb_spec (leaf_key l) k) as [E|E]; simpl negb; cbv iota.
    + right. exists f, z, h, l. done.
    + left. split; [done|]. intros Hin. specialize (Hk Hin).
      change (keys (TLeaf h l)) with [leaf_key l] in Hk. set_solver.
  - change (node_case (node_of (TInner h p key t0 t1))) with
      (Some (RInner (mkInnerNode p key (troot t0, troot t1) (mexp t0, mexp t1)))).
    simpl unwrap. rewrite bind_Done. pose proof Wt as (Hp & _).
    rewrite walk_down_ok, bind_Done by lia. cbv beta iota.
    set (b := Z.testbit k (127 - p)) in *.
    set (f' := mkFrame h p key b (if b then t0 else t1)).
    rewrite <- (plug_cons h p key b) in Rp, W, Hk |- *. fold f' in Rp, W, Hk |- *.
    replace (if b then troot t1 else troot t0) with (troot (if b then t1 else t0))
      by by destruct b.
    apply (IH f' (f :: z)); auto.
    + simpl in Hh. destruct b; lia.
    + intros Hin. apply (side_of_key p key t0 t1 h (hole_lo 0 (f :: z))); auto.
Qed.

(** ** Unlinking the leaf *)

Lemma unlink_wf f z t :
  wf 0 (plug (f :: z) t) -> wf 0 (plug z (relabel (fr_sib f) (fr_h f))).
Proof.
  intros W. apply wf_plug in W as (Wz & _ & _). destruct Wz as (Hp & Uk & Hside & Ws & Fs & Wz).
  apply wf_plug. rewrite wf_relabel, keys_relabel. split_and!; auto.
  eapply wf_weaken; [|done]. lia.
Qed.

Lemma unlink_leaves f z h l : exists l1 l2,
  tleaves (plug (f :: z) (TLeaf h l)) = l1 ++ l :: l2 /\
  tleaves (plug z (relabel (fr_sib f) (fr_h f))) = l1 ++ l2.
Proof.
  rewrite !tleaves_plug, tleaves_relabel. simpl. destruct (fr_bit f).
  - exists (pre z ++ tleaves (fr_sib f)), (post z). by rewrite <- !app_assoc.
  - exists (pre z), (tleaves (fr_sib f) ++ post z). by rewrite <- !app_assoc.
Qed.

Lemma unlink_tmap f z h l :
  wf 0 (plug (f :: z) (TLeaf h l)) ->
  tmap (plug z (relabel (fr_sib f) (fr_h f))) = delete (leaf_key l) (tmap (plug (f :: z) (TLeaf h l)))
  /\ tmap (plug (f :: z) (TLeaf h l)) !! leaf_key l = Some l.
Proof.
  intros W. apply wf_sorted, sorted_NoDup in W. unfold keys in W.
  destruct (unlink_leaves f z h l) as (l1 & l2 & E1 & E2). unfold tmap.
  rewrite E1 in W. rewrite E1, E2. apply omap_of_middle in W as [-> Hn]. split.
  - by rewrite delete_insert_id.
  - apply lookup_insert_eq.
Qed.

Section unlink.
Context (a : OrderTreeNodes) (f : frame) (z : list frame) (h : NodeHandle) (l : LeafNode).
Context (R fl : list NodeHandle).
Hypothesis (H : heap_inv a (handles (plug (f :: z) (TLeaf h l)) ++ R) fl).
Hypothesis (Rp : repr (nodes a) (plug (f :: z) (TLeaf h l))).
Hypothesis (W : wf 0 (plug (f :: z) (TLeaf h l))).
Let sib := fr_sib f.

Lemma unlink_slots :
  handles (plug (f :: z) (TLeaf h l)) ++ R
  ≡ₚ troot sib :: h :: fr_h f :: sub_handles sib ++ ctx_handles z ++ R.
Proof.
  rewrite handles_plug. simpl. fold sib. rewrite (handles_root sib). simpl. solve_Permutation.
Qed.

(** The array after the sibling moved up and the leaf was freed. *)
Lemma unlink_writes : exists a1 a2 a3 fl3,
  remove a (troot sib) = Done (a1, Some (node_of sib)) /\
  write_node a1 (fr_h f) (node_of sib) = Done a2 /\
  remove a2 h = Done (a3, Some (NLeaf l)) /\
  order_tree_type a3 = order_tree_type a /\
  heap_inv a3 (handles (plug z (relabel sib (fr_h f))) ++ R) fl3 /\
  repr (nodes a3) (relabel sib (fr_h f)) /\
  repr_ctx (nodes a3) z (fr_h f) (frame_exp f (expiry_of l)) /\
  (forall x, x ∈ R -> nodes a3 !! x = nodes a !! x).
Proof.
  pose proof unlink_slots as Psl.
  pose proof (proj1 (repr_plug _ _ _) Rp) as [Rl Rz]. simpl in Rl, Rz. destruct Rl as [Rl _].
  destruct Rz as (Rf & Rs & Rz). fold sib in Rs. pose proof (repr_root _ _ Rs) as Rsr.
  pose proof (heap_perm H _ Psl) as H0.
  pose proof (heap_NoDup H0) as [ND _]%NoDup_app.
  pose proof ND as (Hs & (Hh & (Hf & _)%NoDup_cons)%NoDup_cons)%NoDup_cons.
  destruct (remove_ok a (troot sib) _ fl (node_of sib) H0 Rsr (node_case_node_of sib))
    as (a1 & f1 & E1 & N1 & T1 & H1).
  assert (Hw : write_node a1 (fr_h f) (node_of sib)
    = Done (set_nodes a1 (<[fr_h f := node_of sib]> (nodes a1)))).
  { unfold write_node. rewrite (node_lookup a1 _ (NInner (frame_node f h (expiry_of l)))); eauto.
    rewrite N1, list_lookup_insert_ne by set_solver. done. }
  set (a2 := set_nodes a1 _) in Hw.
  assert (H2 : heap_inv a2 (h :: fr_h f :: sub_handles sib ++ ctx_handles z ++ R) (troot sib :: fl)).
  { apply heap_write; [done|set_solver]. }
  assert (Hl2 : nodes a2 !! h = Some (NLeaf l)).
  { simpl. rewrite N1, !list_lookup_insert_ne by set_solver. done. }
  destruct (remove_ok a2 h _ _ (NLeaf l) H2 Hl2 ltac:(simpl; eauto)) as (a3 & f3 & E3 & N3 & T3 & H3).
  assert (Hold : forall x, x ∈ sub_handles sib ++ ctx_handles z ++ R -> nodes a3 !! x = nodes a !! x).
  { intros x Hx. rewrite N3. simpl. rewrite N1. by rewrite !list_lookup_insert_ne by set_solver. }
  exists a1, a2, a3, (h :: troot sib :: fl). split_and!; auto.
  - simpl in T3. congruence.
  - apply (heap_perm H3). rewrite handles_plug, handles_relabel. simpl. by rewrite <- app_assoc.
  - eapply repr_relabel; [exact Rs| |].
    + intros x Hx. apply Hold. set_solver.
    + rewrite N3, list_lookup_insert_ne by set_solver. simpl. apply list_lookup_insert_eq.
      rewrite N1, length_insert, (hi_len _ _ _ H). eapply heap_lt; [exact H0|]. set_solver.
  - eapply repr_ctx_ext; [|exact Rz]. intros x Hx. apply Hold. set_solver.
  - intros x Hx. apply Hold. set_solver.
Qed.

Lemma remove_unlink_ok root :
  root_rep root (Some (plug (f :: z) (TLeaf h l))) ->
  remove_post a root (Some (plug (f :: z) (TLeaf h l))) R (leaf_key l)
    (remove_unlink a root (fr_h f) h (fr_bit f) (path_of (f :: z))).
Proof.
  intros [Rm Rc].
  destruct unlink_writes as (a1 & a2 & a3 & fl3 & E1 & E2 & E3 & T3 & H3 & R3 & C3 & F3).
  pose proof (proj1 (repr_plug _ _ _) Rp) as [_ Rz]. simpl in Rz. destruct Rz as (Rf & Rs & _).
  pose proof (proj1 (wf_plug _ _ _) W) as (Wz & Wl & _). pose proof Wz as (_ & _ & _ & Ws & _).
  destruct (unlink_tmap f z h l W) as [Hmap Hget]. fold sib in Hmap.
  destruct (unlink_leaves f z h l) as (l1 & l2 & Ll1 & Ll2). fold sib in Ll2.
  unfold remove_unlink.
  rewrite (node_lookup a _ _ Rf), bind_Done by eauto. run.
  unfold children. simpl node_case. run.
  replace (sel (inner_children (frame_node f h (expiry_of l))) (negb (fr_bit f))) with (troot sib)
    by (unfold frame_node, sib; by destruct (fr_bit f)).
  rewrite E1. run.
  fold sib in Ws. rewrite (earliest_expiry_node_of _ _ Ws), bind_Done, E2, bind_Done.
  assert (Hcnt : is_u32 (leaf_count root - 1)).
  { pose proof (leaves_le_handles (plug (f :: z) (TLeaf h l))).
    pose proof (heap_used_bound H) as Hub. rewrite length_app in Hub. rewrite Rc.
    pose proof (tleaves_pos (plug (f :: z) (TLeaf h l))).
    unfold MAX_ORDERTREE_NODES in *. unfold_widths. lia. }
  rewrite (u32_ok _ Hcnt), bind_Done, E3. run.
  change (as_leaf (NLeaf l)) with (Some l). run. rewrite (expiry_ok l), bind_Done by done.
  change (tail (path_of (f :: z))) with (path_of z).
  destruct (plug_slots _ _ _ _ _ H3) as (NDz & Dz & DR & Dfl).
  destruct (repr_replug a3 z (plug1 f (TLeaf h l)) (relabel sib (fr_h f)) (expiry_of l))
    as (ns & Eu & Rns & Lns & Fns); auto.
  { by rewrite troot_plug1, mexp_plug1. }
  { by rewrite troot_relabel, troot_plug1. }
  { rewrite mexp_relabel, mexp_plug1. unfold frame_exp. simpl. fold sib.
    destruct (fr_bit f); lia. }
  rewrite mexp_relabel in Eu. rewrite Eu, bind_Done.
  change (tmap (plug (f :: z) (TLeaf h l))) with (otmap (Some (plug (f :: z) (TLeaf h l)))) in Hget.
  eexists _, _, (Some (plug z (relabel sib (fr_h f)))), fl3. rewrite Hget.
  split; [done|]. split_and!; try done.
  - intros x Hx. simpl. rewrite Fns by (by apply DR). auto.
  - apply (heap_set_nodes H3); [done|]. intros x Hx. apply Fns. by apply Dfl.
  - by eapply unlink_wf.
  - simpl. split.
    + rewrite Rm. simpl plug. apply troot_plug. by rewrite troot_plug1, troot_relabel.
    + rewrite Rc, Ll1, Ll2, !length_app. simpl. lia.
Qed.

End unlink.

(** [remove_by_key] meets [remove_post]. *)
Lemma remove_by_key_ok a root ot R fl k :
  heap_inv a (ohandles ot ++ R) fl -> orepr (nodes a) ot -> owf ot -> root_rep root ot ->
  remove_post a root ot R k (remove_by_key a root k).
Proof.
  intros H Rp W Rt. unfold remove_by_key. destruct ot as [t|]; cycle 1.
  { rewrite (root_node_None _ Rt). by eapply remove_post_absent. }
  rewrite (root_node_Some _ _ Rt). unfold node_ref.
  rewrite (node_repr a t Rp), bind_Done. simpl unwrap. rewrite bind_Done.
  destruct t as [h l|h p key t0 t1].
  - change (node_case (node_of (TLeaf h l))) with (Some (RLeaf l)). simpl unwrap. rewrite bind_Done.
    cbv iota. destruct (Z.eqb_spec (leaf_key l) k) as [E|E].
    + destruct Rt as [Rm Rc]. rewrite Rc. simpl. 
      destruct (remove_ok a h R fl (NLeaf l) H (proj1 Rp) ltac:(simpl; eauto))
        as (a1 & f1 & -> & N1 & T1 & H1). simpl.
      exists a1, (mkRoot 0 0), None, (h :: fl).
      assert (Hm : otmap (Some (TLeaf h l)) = {[ k := l ]}).
      { simpl. unfold tmap, omap_of. simpl. by rewrite E. }
      rewrite Hm, lookup_singleton_eq. split_and!; try done.
      * intros x Hx. rewrite N1. apply list_lookup_insert_ne. intros ->.
        pose proof (heap_NoDup H) as ND. simpl in ND. apply NoDup_cons in ND as [ND _]. set_solver.
      * by rewrite delete_singleton_eq.
    + eapply remove_post_absent; eauto. apply keys_tmap_None.
      change (keys (TLeaf h l)) with [leaf_key l]. set_solver.
  - change (node_case (node_of (TInner h p key t0 t1))) with
      (Some (RInner (mkInnerNode p key (troot t0, troot t1) (mexp t0, mexp t1)))).
    simpl unwrap. rewrite bind_Done. pose proof W as (Hp & _).
    rewrite walk_down_ok, bind_Done by lia. cbv beta iota.
    set (b := Z.testbit k (127 - p)). set (f := mkFrame h p key b (if b then t0 else t1)).
    replace (if b then troot t1 else troot t0) with (troot (if b then t1 else t0))
      by by destruct b.
    match goal with |- context [remove_walk ?fu a k ?ph ?c ?cb ?st] =>
      change (remove_walk fu a k ph c cb st)
        with (remove_walk fu a k (fr_h f) c (fr_bit f) (path_of [f])) end.
    pose proof (plug_cons h p key b t0 t1 []) as Epl. fold f in Epl. simpl plug at 2 in Epl.
    rewrite <- Epl in *.
    destruct (remove_walk_ok a k TREE_FUEL f [] (if b then t1 else t0)) as
      [[-> Hni] | (f' & z' & h' & l & El & Ek & ->)]; auto.
    { assert (Hh : (height (plug [f] (if b then t1 else t0)) <= TREE_FUEL)%nat)
        by by apply height_fuel.
      rewrite Epl in Hh. simpl in Hh. destruct b; lia. }
    { rewrite Epl in W |- *. by apply (side_of_key p key t0 t1 h 0). }
    + rewrite bind_Done. cbv iota. eapply remove_post_absent; eauto. by apply keys_tmap_None.
    + rewrite bind_Done. cbv iota. rewrite El in *. rewrite <- Ek.
      by apply (remove_unlink_ok a f' z' h' l R fl).
Qed.

(** C2: [remove_by_key] implements deletion from the map of orders. On an array
    that holds this tree beside others it neither panics nor runs out of fuel, returns
    the order stored under the key (or nothing, and then changes nothing), keeps the
    tree well-formed with the key deleted, returns the freed slots to the free list and
    leaves the other trees' slots untouched. *)
Theorem remove_by_key_refines a root ot R fl k :
  heap_inv a (ohandles ot ++ R) fl -> orepr (nodes a) ot -> owf ot -> root_rep root ot ->
  remove_post a root ot R k (remove_by_key a root k).
Proof. apply remove_by_key_ok. Qed.

(** The witness of C2: removing one of two orders. *)
Lemma remove_by_key_refines_witness :
  remove_post small_nodes small_root (Some small_tree) [] 5 (remove_by_key small_nodes small_root 5) /\
  otmap (Some small_tree) !! 5 = Some (small_leaf 5).
Proof.
  split; [|reflexivity].
  apply (remove_by_key_refines small_nodes small_root (Some small_tree) [] []).
  - exact small_heap.
  - exact small_repr.
  - exact small_wf.
  - exact small_root_rep.
Defined.
