(* ===== verification/OrderTreeIter.v ===== *)
(** * Order trees: extremal leaves, expiry and iteration

    [leaf_min_max], [find_worst], [find_earliest_expiry] and the removals built on
    them (ordertree.rs), and the in-order iterator (ordertree_iterator.rs). *)

From stdpp Require Import base numbers list gmap sorting.
From Stdlib Require Import ZArith Lia.
From S2P Require Import Prelude OrderTypes Nodes OrderTree OrderTreeSpec OrderTreeArena OrderTreeInsert OrderTreeRemove.

Open Scope Z_scope.

(** ** The iterator

    [left] is the index of the child visited first: 1 for bids, which are iterated
    from the highest key down, and 0 for asks; the other child is [negb left]. *)

Record OrderTreeIter := mkIter {
  it_tree : OrderTreeNodes;
  it_stack : list InnerNode;
  it_next_leaf : option (NodeHandle * LeafNode);
  it_left : bool
}.

Fixpoint find_leftmost_leaf (fuel : nat) (a : OrderTreeNodes) (left : bool)
    (stack : list InnerNode) (current : NodeHandle) :
    outcome ((NodeHandle * LeafNode) * list InnerNode) :=
  match fuel with
  | O => NoFuel
  | S fuel =>
      c ← node_ref a current;
      match c with
      | RInner inner =>
          find_leftmost_leaf fuel a left (inner :: stack) (sel (inner_children inner) left)
      | RLeaf leaf => Done ((current, leaf), stack)
      end
  end.

Definition iter_new (a : OrderTreeNodes) (root : OrderTreeRoot) : outcome OrderTreeIter :=
  let left := match order_tree_type a with Bids => true | Asks => false end in
  match root_node root with
  | Some r =>
      '(leaf, stack) ← find_leftmost_leaf TREE_FUEL a left [] r;
      Done (mkIter a stack (Some leaf) left)
  | None => Done (mkIter a [] None left)
  end.

Definition iter_side (it : OrderTreeIter) : Side := if it_left it then Bid else Ask.

Definition iter_peek (it : OrderTreeIter) : option (NodeHandle * LeafNode) := it_next_leaf it.

Definition iter_next (it : OrderTreeIter) :
    outcome (option (NodeHandle * LeafNode) * OrderTreeIter) :=
  match it_next_leaf it with
  | None => Done (None, it)
  | Some current_leaf =>
      match it_stack it with
      | [] => Done (Some current_leaf, mkIter (it_tree it) [] None (it_left it))
      | inner :: stack =>
          let start := sel (inner_children inner) (negb (it_left it)) in
          '(leaf, stack) ← find_leftmost_leaf TREE_FUEL (it_tree it) (it_left it) stack start;
          Done (Some current_leaf, mkIter (it_tree it) stack (Some leaf) (it_left it))
      end
  end.

(** Calling [next] until it returns [None]. *)
Fixpoint iter_collect (fuel : nat) (it : OrderTreeIter) :
    outcome (list (NodeHandle * LeafNode)) :=
  match fuel with
  | O => NoFuel
  | S fuel =>
      '(o, it) ← iter_next it;
      match o with
      | None => Done []
      | Some x => xs ← iter_collect fuel it; Done (x :: xs)
      end
  end.

(** ** Iteration order *)

(** The leaves in the direction of iteration. *)
Definition dleaves (left : bool) (t : tree) : list (NodeHandle * LeafNode) :=
  if left then reverse (hleaves t) else hleaves t.

Definition odleaves (left : bool) (ot : option tree) : list (NodeHandle * LeafNode) :=
  if left then reverse (oleaves ot) else oleaves ot.

Lemma dleaves_TInner left h p key t0 t1 :
  dleaves left (TInner h p key t0 t1)
  = dleaves left (if left then t1 else t0) ++ dleaves left (if left then t0 else t1).
Proof. destruct left; simpl; [apply reverse_app|done]. Qed.

(** What a stack of inner nodes still has to visit. *)
Fixpoint stack_rep (ns : list AnyNode) (left : bool) (stack : list InnerNode)
    (ls : list (NodeHandle * LeafNode)) : Prop :=
  match stack with
  | [] => ls = []
  | i :: stack =>
      exists t ls', repr ns t /\ (height t <= TREE_FUEL)%nat /\
        sel (inner_children i) (negb left) = troot t /\
        ls = dleaves left t ++ ls' /\ stack_rep ns left stack ls'
  end.

(** The iterator will return exactly [ls]. *)
Definition iter_rep (a : OrderTreeNodes) (left : bool) (it : OrderTreeIter)
    (ls : list (NodeHandle * LeafNode)) : Prop :=
  it_tree it = a /\ it_left it = left /\
  match ls with
  | [] => it_next_leaf it = None
  | x :: ls => it_next_leaf it = Some x /\ stack_rep (nodes a) left (it_stack it) ls
  end.

Lemma find_leftmost_leaf_ok a left : forall fuel t stack ls,
  (height t <= fuel)%nat -> (height t <= TREE_FUEL)%nat -> repr (nodes a) t ->
  stack_rep (nodes a) left stack ls ->
  exists x ls' stack',
    find_leftmost_leaf fuel a left stack (troot t) = Done (x, stack') /\
    dleaves left t ++ ls = x :: ls' /\ stack_rep (nodes a) left stack' ls'.
Proof.
  induction fuel as [|fuel IH]; intros t stack ls Hh Hf R S; [destruct t; simpl in Hh; lia|].
  cbn [find_leftmost_leaf]. unfold node_ref. rewrite (node_repr a t R). run.
  destruct t as [h l|h p key t0 t1].
  - change (node_case (node_of (TLeaf h l))) with (Some (RLeaf l)). run.
    exists (h, l), ls, stack. unfold dleaves. by destruct left.
  - change (node_case (node_of (TInner h p key t0 t1))) with
      (Some (RInner (mkInnerNode p key (troot t0, troot t1) (mexp t0, mexp t1)))). run.
    destruct R as (_ & R0 & R1). simpl in Hh, Hf.
    rewrite dleaves_TInner, <- app_assoc.
    replace (sel (inner_children _) left) with (troot (if left then t1 else t0))
      by by destruct left.
    apply IH; [destruct left; lia|destruct left; lia|by destruct left|].
    simpl. exists (if left then t0 else t1), ls. split_and!; try done; destruct left; (done || lia).
Qed.

Lemma iter_next_ok a left it ls :
  iter_rep a left it ls ->
  exists it', iter_next it = Done (head ls, it') /\ iter_rep a left it' (tail ls).
Proof.
  intros (Ea & El & H). unfold iter_next. destruct ls as [|x ls].
  - rewrite H. exists it. done.
  - destruct H as [-> H]. destruct (it_stack it) as [|i stack] eqn:Es.
    + simpl in H. subst ls. eexists. split; [done|]. done.
    + simpl in H. destruct H as (t & ls' & R & Hh & Hs & -> & S). rewrite Ea, El, Hs.
      destruct (find_leftmost_leaf_ok a left TREE_FUEL t stack ls' Hh Hh R S)
        as (y & ls'' & stack' & -> & E & S'). run. eexists. split; [done|].
      simpl. rewrite E. done.
Qed.

Lemma iter_new_ok a root ot :
  orepr (nodes a) ot -> owf ot -> root_rep root ot ->
  exists it, iter_new a root = Done it /\
    iter_rep a (match order_tree_type a with Bids => true | Asks => false end) it
      (odleaves (match order_tree_type a with Bids => true | Asks => false end) ot).
Proof.
  intros R W Rt. unfold iter_new. set (left := match order_tree_type a with Bids => true | _ => _ end).
  destruct ot as [t|].
  - rewrite (root_node_Some _ _ Rt). pose proof (height_fuel t W) as Hf.
    destruct (find_leftmost_leaf_ok a left TREE_FUEL t [] [] Hf Hf R eq_refl)
      as (x & ls & stack & -> & E & S). run. eexists. split; [done|].
    unfold iter_rep. change (odleaves left (Some t)) with (dleaves left t).
    rewrite app_nil_r in E. by rewrite E.
  - rewrite (root_node_None _ Rt). eexists. split; [done|]. unfold iter_rep.
    unfold odleaves. simpl. by destruct left.
Qed.

Lemma iter_collect_ok a left : forall ls it fuel,
  iter_rep a left it ls -> (length ls < fuel)%nat -> iter_collect fuel it = Done ls.
Proof.
  induction ls as [|x ls IH]; intros it fuel H Hf; (destruct fuel as [|fuel]; [simpl in Hf; lia|]).
  - cbn [iter_collect]. destruct (iter_next_ok _ _ _ _ H) as (it' & -> & _). by run.
  - cbn [iter_collect]. destruct (iter_next_ok _ _ _ _ H) as (it' & -> & H'). run.
    simpl in H', Hf. rewrite (IH it' fuel H') by lia. by run.
Qed.

(** Leaves in iteration order are ordered by [key_before]. *)
Lemma odleaves_sorted ot side :
  owf ot ->
  StronglySorted (fun x y => key_before side (leaf_key x.2) (leaf_key y.2))
    (odleaves (match side with Bid => true | Ask => false end) ot).
Proof.
  intros W.
  assert (S : StronglySorted (fun x y : NodeHandle * LeafNode => leaf_key x.2 < leaf_key y.2)
    (oleaves ot)).
  { destruct ot as [t|]; [|constructor]. simpl. apply wf_sorted in W. unfold keys, tleaves in W.
    rewrite <- list_fmap_compose in W. induction (hleaves t) as [|x ls IH]; [constructor|].
    simpl in W. apply StronglySorted_inv in W as [W F]. constructor; [by apply IH|].
    rewrite Forall_fmap in F. eapply Forall_impl; [exact F|done]. }
  unfold odleaves. destruct side; simpl; [|done].
  induction S as [|x ls S IH F]; [constructor|]. rewrite reverse_cons.
  apply StronglySorted_app_2; [|done|repeat constructor].
  intros y z Hy Hz. apply list_elem_of_singleton in Hz as ->.
  rewrite elem_of_reverse in Hy. rewrite Forall_forall in F. by apply F.
Qed.

(** Iterating an order tree returns every order of the tree exactly once, in
    price-time priority (descending keys for bids, ascending keys for asks), and then
    ends; it neither panics nor runs out of fuel. *)
Theorem iter_collect_sorted a root ot R fl :
  heap_inv a (ohandles ot ++ R) fl -> orepr (nodes a) ot -> owf ot -> root_rep root ot ->
  exists ls,
    (it ← iter_new a root; iter_collect (S MAX_ORDERTREE_NODES) it) = Done ls /\
    ls ≡ₚ oleaves ot /\
    StronglySorted (fun x y => key_before (tree_side (order_tree_type a))
      (leaf_key x.2) (leaf_key y.2)) ls /\
    omap_of (snd <$> ls) = otmap ot.
Proof.
  intros H Rp W Rt. destruct (iter_new_ok a root ot Rp W Rt) as (it & -> & Hit). run.
  set (left := match order_tree_type a with Bids => true | _ => _ end) in *.
  assert (Hl : (length (odleaves left ot) <= MAX_ORDERTREE_NODES)%nat).
  { pose proof (heap_used_bound H) as Hub. rewrite length_app in Hub. destruct ot as [t|].
    - pose proof (leaves_le_handles t) as Hle. unfold tleaves in Hle. rewrite length_fmap in Hle.
      simpl in Hub. unfold odleaves. simpl. destruct left; rewrite ?length_reverse; lia.
    - unfold odleaves. destruct left; simpl; lia. }
  assert (Hperm : odleaves left ot ≡ₚ oleaves ot).
  { unfold odleaves. destruct left; [apply reverse_Permutation|done]. }
  exists (odleaves left ot). split_and!; [|done| |].
  - eapply iter_collect_ok; [done|lia].
  - pose proof (odleaves_sorted ot (tree_side (order_tree_type a)) W) as S.
    unfold left. by destruct (order_tree_type a).
  - destruct ot as [t|]; [|unfold odleaves; by destruct left]. simpl in *. unfold tmap, omap_of.
    apply list_to_map_proper.
    + rewrite fst_keyed. rewrite Hperm. by eapply sorted_NoDup, wf_sorted.
    + rewrite Hperm. done.
Qed.

(** A concrete instance: the two bids of the small tree, the higher key first. *)
Lemma iter_collect_sorted_witness :
  (it ← iter_new small_nodes small_root; iter_collect (S MAX_ORDERTREE_NODES) it)
  = Done [(1%nat, small_leaf 6); (0%nat, small_leaf 5)].
Proof.
  destruct (iter_collect_sorted small_nodes small_root (Some small_tree) [] [])
    as (ls & E & _); [exact small_heap|exact small_repr|exact small_wf|exact small_root_rep|].
  rewrite E. vm_compute in E. injection E as <-. reflexivity.
Defined.

(** ** Extremal leaves *)

Lemma leaf_min_max_loop_ok a b : forall fuel t,
  (height t <= fuel)%nat -> repr (nodes a) t ->
  leaf_min_max_loop fuel a b (troot t)
  = Done (if b then last (hleaves t) else head (hleaves t)).
Proof.
  induction fuel as [|fuel IH]; intros t Hh R; [destruct t; simpl in Hh; lia|].
  cbn [leaf_min_max_loop]. rewrite (node_repr a t R). run.
  destruct t as [h l|h p key t0 t1]; [by destruct b|].
  change (Some (node_of (TInner h p key t0 t1)) ≫= node_case) with
    (Some (RInner (mkInnerNode p key (troot t0, troot t1) (mexp t0, mexp t1)))). run.
  destruct R as (_ & R0 & R1). simpl in Hh.
  assert (Hne : forall t, hleaves t <> []).
  { intros t E. pose proof (tleaves_pos t) as Hp. unfold tleaves in Hp.
    rewrite E in Hp. simpl in Hp. lia. }
  replace (sel (inner_children _) b) with (troot (if b then t1 else t0)) by by destruct b.
  rewrite IH; [|destruct b; lia|by destruct b]. simpl. destruct b.
  - rewrite last_app. destruct (last (hleaves t1)) eqn:E; [done|]. by apply last_None, Hne in E.
  - specialize (Hne t0). by destruct (hleaves t0).
Qed.

(** [find_worst] returns the last leaf in iteration order. *)
Lemma find_worst_ok a root ot :
  orepr (nodes a) ot -> owf ot -> root_rep root ot ->
  find_worst a root
  = Done (last (odleaves (match order_tree_type a with Bids => true | Asks => false end) ot)).
Proof.
  intros R W Rt. unfold find_worst, min_leaf, max_leaf, leaf_min_max.
  destruct ot as [t|].
  - rewrite (root_node_Some _ _ Rt), !leaf_min_max_loop_ok; try done; try by apply height_fuel.
    destruct (order_tree_type a); [|done]. unfold odleaves. simpl.
    by rewrite last_reverse.
  - rewrite (root_node_None _ Rt). unfold odleaves. by destruct (order_tree_type a).
Qed.

(** The order that comes last is behind every other one. *)
Lemma last_sorted {A} (Rel : A -> A -> Prop) ls x :
  StronglySorted Rel ls -> last ls = Some x ->
  x ∈ ls /\ forall y, y ∈ ls -> y = x \/ Rel y x.
Proof.
  intros S E. apply last_Some in E as [l' ->]. split; [set_solver|].
  intros y Hy. apply elem_of_app in Hy as [Hy|Hy].
  - right. eapply StronglySorted_app_1_elem_of; [done..|set_solver].
  - left. set_solver.
Qed.

(** Every other order of the tree is ahead of the order [l] in slot [h]. *)
Definition last_in_priority (side : Side) (t : tree) (h : NodeHandle) (l : LeafNode) : Prop :=
  forall h' l', (h', l') ∈ hleaves t ->
    (h', l') = (h, l) \/ key_before side (leaf_key l') (leaf_key l).

(** [find_worst] returns an order of the tree that every other order of the
    tree is ahead of in priority, and nothing exactly for an empty tree. *)
Theorem find_worst_last a root ot :
  orepr (nodes a) ot -> owf ot -> root_rep root ot ->
  match ot with
  | None => find_worst a root = Done None
  | Some t =>
      exists h l, find_worst a root = Done (Some (h, l)) /\ (h, l) ∈ hleaves t /\
        last_in_priority (tree_side (order_tree_type a)) t h l
  end.
Proof.
  intros R W Rt. rewrite (find_worst_ok a root ot R W Rt).
  set (left := match order_tree_type a with Bids => true | _ => _ end).
  destruct ot as [t|]; [|unfold odleaves; by destruct left].
  assert (S : StronglySorted (fun x y => key_before (tree_side (order_tree_type a))
      (leaf_key x.2) (leaf_key y.2)) (odleaves left (Some t))).
  { pose proof (odleaves_sorted (Some t) (tree_side (order_tree_type a)) W) as S.
    unfold left. by destruct (order_tree_type a). }
  assert (Hin : forall x, x ∈ odleaves left (Some t) <-> x ∈ hleaves t).
  { intros x. unfold odleaves. simpl. destruct left; [apply elem_of_reverse|done]. }
  destruct (last (odleaves left (Some t))) as [[h l]|] eqn:E.
  - apply (last_sorted _ _ _ S) in E as [Hx Hy]. exists h, l. split_and!; [done|by apply Hin|].
    intros h' l' Hl%Hin. by apply Hy in Hl.
  - apply last_None in E. pose proof (tleaves_pos t) as Hp. unfold tleaves in Hp.
    destruct (hleaves t) as [|x ls]; [simpl in Hp; lia|].
    assert (x ∈ odleaves left (Some t)) by (apply Hin; set_solver). rewrite E in H. set_solver.
Qed.

(** For example: the worst bid of the small tree has the lower key. *)
Lemma find_worst_last_witness :
  exists h l, find_worst small_nodes small_root = Done (Some (h, l)) /\ leaf_key l = 5.
Proof.
  destruct (find_worst_last small_nodes small_root (Some small_tree)) as (h & l & E & _);
    [exact small_repr|exact small_wf|exact small_root_rep|].
  exists h, l. split; [exact E|]. vm_compute in E. injection E as <- <-. reflexivity.
Defined.

(** ** Earliest expiry *)

Lemma mexp_le t l : l ∈ tleaves t -> mexp t <= expiry_of l.
Proof.
  induction t as [h l'|h p key t0 IH0 t1 IH1].
  - unfold tleaves. simpl. intros ->%list_elem_of_singleton. lia.
  - rewrite tleaves_TInner, elem_of_app. simpl. intros [Hl|Hl].
    + specialize (IH0 Hl). lia.
    + specialize (IH1 Hl). lia.
Qed.

Lemma find_earliest_expiry_loop_ok a : forall fuel t lo,
  (height t <= fuel)%nat -> repr (nodes a) t -> wf lo t ->
  exists h l, find_earliest_expiry_loop fuel a (troot t) = Done (h, mexp t) /\
    (h, l) ∈ hleaves t /\ expiry_of l = mexp t /\ nodes a !! h = Some (NLeaf l).
Proof.
  induction fuel as [|fuel IH]; intros t lo Hh R W; [destruct t; simpl in Hh; lia|].
  cbn [find_earliest_expiry_loop]. rewrite (node_repr a t R). run.
  destruct t as [h l|h p key t0 t1].
  - change (node_case (node_of (TLeaf h l))) with (Some (RLeaf l)). run.
    rewrite (earliest_expiry_node_of _ _ W). run. exists h, l. split_and!; try done; [|apply R].
    simpl. set_solver.
  - change (node_case (node_of (TInner h p key t0 t1))) with
      (Some (RInner (mkInnerNode p key (troot t0, troot t1) (mexp t0, mexp t1)))). run.
    destruct R as (_ & R0 & R1). destruct W as (_ & _ & _ & _ & W0 & W1). simpl in Hh.
    simpl. destruct (Z.ltb_spec (mexp t1) (mexp t0)) as [L|L]; unfold sel; simpl.
    + destruct (IH t1 (p + 1)) as (h' & l' & E & Hin & He & Hn); [lia|done|done|].
      exists h', l'. rewrite Z.min_r by lia. split_and!; try done. set_solver.
    + destruct (IH t0 (p + 1)) as (h' & l' & E & Hin & He & Hn); [lia|done|done|].
      exists h', l'. rewrite Z.min_l by lia. split_and!; try done. set_solver.
Qed.

Lemma find_earliest_expiry_ok a root ot :
  orepr (nodes a) ot -> owf ot -> root_rep root ot ->
  match ot with
  | None => find_earliest_expiry a root = Done None
  | Some t =>
      exists h l, find_earliest_expiry a root = Done (Some (h, expiry_of l)) /\
        l ∈ tleaves t /\ nodes a !! h = Some (NLeaf l) /\
        forall l', l' ∈ tleaves t -> expiry_of l <= expiry_of l'
  end.
Proof.
  intros R W Rt. unfold find_earliest_expiry. destruct ot as [t|].
  - rewrite (root_node_Some _ _ Rt).
    destruct (find_earliest_expiry_loop_ok a TREE_FUEL t 0) as (h & l & -> & Hin & He & Hn);
      [by apply height_fuel|done|done|]. run.
    exists h, l. rewrite He. split_and!; try done.
    + unfold tleaves. apply list_elem_of_fmap. by exists (h, l).
    + intros l'. apply mexp_le.
  - by rewrite (root_node_None _ Rt).
Qed.

(** What [remove_one_expired] does: it removes an order with the lowest expiry, which is
    below [now_ts], or removes nothing because no order has such an expiry. *)
Definition expire_post (a : OrderTreeNodes) (root : OrderTreeRoot) (ot : option tree)
    (R : list NodeHandle) (now_ts : Z)
    (out : outcome (OrderTreeNodes * OrderTreeRoot * option LeafNode)) : Prop :=
  (exists l,
     otmap ot !! leaf_key l = Some l /\ expiry_of l < now_ts /\
     (forall k' l', otmap ot !! k' = Some l' -> expiry_of l <= expiry_of l') /\
     remove_post a root ot R (leaf_key l) out) \/
  ((forall k' l', otmap ot !! k' = Some l' -> now_ts <= expiry_of l') /\
   out = Done (a, root, None)).

Lemma remove_one_expired_ok a root ot R fl now_ts :
  heap_inv a (ohandles ot ++ R) fl -> orepr (nodes a) ot -> owf ot -> root_rep root ot ->
  expire_post a root ot R now_ts (remove_one_expired a root now_ts).
Proof.
  intros H Rp W Rt. pose proof (find_earliest_expiry_ok a root ot Rp W Rt) as F.
  unfold expire_post, remove_one_expired. destruct ot as [t|]; cycle 1.
  { right. rewrite F. run. split; [|done]. intros k' l' E. simpl in E. by rewrite lookup_empty in E. }
  destruct F as (h & l & -> & Hl & Hn & Hmin). run.
  assert (Hmin' : forall k' l', tmap t !! k' = Some l' -> expiry_of l <= expiry_of l').
  { intros k' l' E. apply omap_of_elem in E as [E _]. auto. }
  destruct (Z.ltb_spec (expiry_of l) now_ts) as [L|L].
  - left. exists l. split_and!; try done.
    + apply omap_of_Some; [|done]. by eapply sorted_NoDup, wf_sorted.
    + rewrite (node_lookup a h _ Hn) by (simpl; eauto). run.
      change (Some (NLeaf l) ≫= node_key) with (Some (leaf_key l)). run.
      by eapply remove_by_key_ok.
  - right. split; [|done]. intros k' l' E%Hmin'. lia.
Qed.

(** [remove_one_expired] removes an order of the tree with the lowest expiry
    timestamp if that is below [now_ts], and otherwise (also when the tree is empty)
    removes nothing; the cached [child_earliest_expiry] fields always lead to it. *)
Theorem remove_one_expired_lowest a root ot R fl now_ts :
  heap_inv a (ohandles ot ++ R) fl -> orepr (nodes a) ot -> owf ot -> root_rep root ot ->
  expire_post a root ot R now_ts (remove_one_expired a root now_ts).
Proof. apply remove_one_expired_ok. Qed.

(** A concrete instance: at time 2000 both orders of the small tree are expired. *)
Lemma remove_one_expired_lowest_witness :
  exists l, otmap (Some small_tree) !! leaf_key l = Some l /\ expiry_of l < 2000 /\
    remove_post small_nodes small_root (Some small_tree) [] (leaf_key l)
      (remove_one_expired small_nodes small_root 2000).
Proof.
  destruct (remove_one_expired_lowest small_nodes small_root (Some small_tree) [] [] 2000)
    as [(l & H1 & H2 & _ & H3) | [H _]];
    [exact small_heap|exact small_repr|exact small_wf|exact small_root_rep| |].
  - exists l. split; [exact H1|]. split; [exact H2|exact H3].
  - exfalso. specialize (H 5 (small_leaf 5) eq_refl). vm_compute in H. apply H. reflexivity.
Defined.

(** Removing the worst order deletes the last one in priority order. *)
Lemma remove_worst_last a root ot R fl :
  heap_inv a (ohandles ot ++ R) fl -> orepr (nodes a) ot -> owf ot -> root_rep root ot ->
  match last (odleaves (match order_tree_type a with Bids => true | Asks => false end) ot) with
  | None => remove_worst a root = Done (a, root, None)
  | Some (_, l) => remove_post a root ot R (leaf_key l) (remove_worst a root)
  end.
Proof.
  intros H Rp W Rt. unfold remove_worst. rewrite (find_worst_ok a root ot Rp W Rt). run.
  destruct (last _) as [[h l]|]; [|done]. by eapply remove_by_key_ok.
Qed.
