(* ===== verification/EventQueue.v ===== *)
(** * The event queue

    state/orderbook/queue.rs: fill and out events in a fixed ring buffer of
    [MAX_NUM_EVENTS] slots with a head, a count and a sequence number. The abstract
    queue is a list of events with that capacity; every operation refines the
    corresponding list operation. *)

From stdpp Require Import base numbers list sets.
From Stdlib Require Import ZArith Lia SpecFloat.
From S2P Require Import Prelude FixedPoint OrderTypes Nodes.

Open Scope Z_scope.

Definition MAX_NUM_EVENTS : nat := 488.

(** ** Events *)

Record FillEvent := mkFillEvent {
  fill_taker_side : Side;
  fill_maker_out : bool;
  fill_maker_slot : Z;
  fill_timestamp : Z;
  fill_seq_num : Z;
  fill_maker : Pubkey;
  fill_maker_timestamp : Z;
  fill_taker : Pubkey;
  fill_taker_client_order_id : Z;
  fill_maker_order_id : Z;
  fill_price : Z;
  fill_quantity : Z;
  fill_maker_client_order_id : Z;
  fill_maker_fee : f32;
  fill_taker_fee : f32
}.

Record OutEvent := mkOutEvent {
  out_side : Side;
  out_owner_slot : Z;
  out_timestamp : Z;
  out_seq_num : Z;
  out_owner : Pubkey;
  out_quantity : Z;
  out_order_id : Z
}.

(** [event_type] selects the reading of the remaining bytes; the queue never
    holds the unused [Liquidate] type or an unknown one. *)
Inductive AnyEvent :=
| AFill (e : FillEvent)
| AOut (e : OutEvent).

Section fill.
Context `{FixedOps}.

(** [FillEvent::new]. *)
Definition fill_new (taker_side : Side) (maker_out : bool) (maker_slot timestamp seq_num : Z)
    (maker : Pubkey) (maker_order_id maker_client_order_id maker_fee maker_timestamp : Z)
    (taker : Pubkey) (taker_client_order_id taker_fee price quantity : Z) : FillEvent :=
  mkFillEvent taker_side maker_out maker_slot timestamp seq_num maker maker_timestamp taker
    taker_client_order_id maker_order_id price quantity maker_client_order_id
    (fx_to_f32 maker_fee) (fx_to_f32 taker_fee).

End fill.

Definition base_quote_change (e : FillEvent) (side : Side) : outcome (Z * Z) :=
  match side with
  | Bid =>
      np ← i64 (- fill_price e);
      q ← i64 (np * fill_quantity e);
      Done (fill_quantity e, q)
  | Ask =>
      nb ← i64 (- fill_quantity e);
      q ← i64 (fill_price e * fill_quantity e);
      Done (nb, q)
  end.

Definition out_new (side : Side) (owner_slot timestamp seq_num : Z) (owner : Pubkey)
    (quantity order_id : Z) : OutEvent :=
  mkOutEvent side owner_slot timestamp seq_num owner quantity order_id.

Definition from_leaf_node (side : Side) (timestamp seq_num : Z) (node : LeafNode) : OutEvent :=
  out_new side (owner_slot node) timestamp seq_num (owner node) (quantity node) (leaf_key node).

(** [TryFrom<AnyEvent>]. *)
Definition fill_try_from (e : AnyEvent) : outcome FillEvent :=
  match e with AFill f => Done f | AOut _ => Fail error_msg end.

Definition out_try_from (e : AnyEvent) : outcome OutEvent :=
  match e with AOut o => Done o | AFill _ => Fail error_msg end.

(** ** The ring buffer *)

Record EventQueue := mkQueue {
  q_head : Z;
  q_count : Z;
  q_seq_num : Z;
  q_buf : list AnyEvent
}.

Definition q_len (q : EventQueue) : Z := q_count q.

Definition q_cap (q : EventQueue) : Z := Z.of_nat (length (q_buf q)).

Definition q_is_empty (q : EventQueue) : bool := q_len q =? 0.

Definition q_full (q : EventQueue) : bool := q_count q =? q_cap q.

(** [Err(value)] is [Some value]. *)
Definition push_back (q : EventQueue) (value : AnyEvent) :
    outcome (EventQueue * option AnyEvent) :=
  if q_full q then Done (q, Some value)
  else
    let slot := Z.to_nat ((q_head q + q_count q) mod q_cap q) in
    _ ← unwrap (q_buf q !! slot);
    seq ← u64 (q_seq_num q + 1);
    Done (mkQueue (q_head q) (q_count q + 1) seq (<[slot := value]> (q_buf q)), None).

Definition peek_front (q : EventQueue) : outcome (option AnyEvent) :=
  if q_is_empty q then Done None
  else v ← unwrap (q_buf q !! Z.to_nat (q_head q)); Done (Some v).

Definition pop_front (q : EventQueue) : outcome (EventQueue * AnyEvent) :=
  _ ← require (negb (q_is_empty q)) (EMango SomeError);
  value ← unwrap (q_buf q !! Z.to_nat (q_head q));
  Done (mkQueue ((q_head q + 1) mod q_cap q) (q_count q - 1) (q_seq_num q) (q_buf q), value).

Definition revert_pushes (q : EventQueue) (desired_len : Z) : outcome EventQueue :=
  _ ← require (desired_len <=? q_count q) (EMango SomeError);
  let len_diff := q_count q - desired_len in
  seq ← u64 (q_seq_num q - len_diff);
  Done (mkQueue (q_head q) desired_len seq (q_buf q)).

(** [EventQueueIterator::next] at a given index. *)
Definition queue_iter_next (q : EventQueue) (index : Z) : outcome (option AnyEvent) :=
  if index =? q_len q then Done None
  else v ← unwrap (q_buf q !! Z.to_nat ((q_head q + index) mod q_cap q)); Done (Some v).

(** Running the iterator from [index] to its end. *)
Fixpoint queue_iter (fuel : nat) (q : EventQueue) (index : Z) : outcome (list AnyEvent) :=
  match fuel with
  | O => NoFuel
  | S fuel =>
      o ← queue_iter_next q index;
      match o with
      | None => Done []
      | Some v => vs ← queue_iter fuel q (index + 1); Done (v :: vs)
      end
  end.

(** The zeroed queue account: its slots hold zero bytes, which read as a fill of
    quantity 0; none of them is in the queue. *)
Definition zero_fill : FillEvent :=
  mkFillEvent Bid false 0 0 0 0 0 0 0 0 0 0 0 (S754_zero false) (S754_zero false).

Definition queue_zeroed : EventQueue :=
  mkQueue 0 0 0 (replicate MAX_NUM_EVENTS (AFill zero_fill)).

(** ** Invariant and contents *)

Record queue_inv (q : EventQueue) : Prop := {
  qi_cap : length (q_buf q) = MAX_NUM_EVENTS;
  qi_head : 0 <= q_head q < Z.of_nat MAX_NUM_EVENTS;
  qi_count : 0 <= q_count q <= Z.of_nat MAX_NUM_EVENTS;
  qi_seq : is_u64 (q_seq_num q)
}.

Definition slot_of (q : EventQueue) (i : nat) : nat :=
  Z.to_nat ((q_head q + Z.of_nat i) mod q_cap q).

(** The events between head and head + count, in order. *)
Definition contents (q : EventQueue) : list AnyEvent :=
  omap (fun i => q_buf q !! slot_of q i) (seq 0 (Z.to_nat (q_count q))).

Lemma slot_of_lt q i : queue_inv q -> (slot_of q i < length (q_buf q))%nat.
Proof.
  intros []. unfold slot_of, q_cap. rewrite qi_cap0.
  pose proof (Z.mod_pos_bound (q_head q + Z.of_nat i) (Z.of_nat MAX_NUM_EVENTS)).
  unfold MAX_NUM_EVENTS in *. lia.
Qed.

Lemma slot_of_inj q i j :
  queue_inv q -> (i < MAX_NUM_EVENTS)%nat -> (j < MAX_NUM_EVENTS)%nat ->
  slot_of q i = slot_of q j -> i = j.
Proof.
  intros [] Hi Hj. unfold slot_of, q_cap. rewrite qi_cap0.
  pose proof (Z.mod_pos_bound (q_head q + Z.of_nat i) (Z.of_nat MAX_NUM_EVENTS)).
  pose proof (Z.mod_pos_bound (q_head q + Z.of_nat j) (Z.of_nat MAX_NUM_EVENTS)).
  intros E%Z2Nat.inj; [|unfold MAX_NUM_EVENTS in *; lia..].
  unfold MAX_NUM_EVENTS in *. Z.div_mod_to_equations. lia.
Qed.

(** Looking up every slot of a list of valid positions loses none of them. *)
Lemma omap_lookup_some {A} (l : list A) (f : nat -> nat) idx :
  (forall i, i ∈ idx -> (f i < length l)%nat) ->
  length (omap (fun i => l !! f i) idx) = length idx.
Proof.
  induction idx as [|i idx IH]; [done|]. intros H. simpl.
  destruct (lookup_lt_is_Some_2 l (f i) ltac:(apply H; set_solver)) as [x ->].
  simpl. f_equal. apply IH. set_solver.
Qed.

Lemma contents_length q : queue_inv q -> length (contents q) = Z.to_nat (q_count q).
Proof.
  intros H. unfold contents. rewrite omap_lookup_some, length_seq; [done|].
  intros. by apply slot_of_lt.
Qed.

(** ** Refinement of the operations *)

Lemma push_back_ok q v :
  queue_inv q -> q_seq_num q < U64_MAX ->
  if decide (q_count q = Z.of_nat MAX_NUM_EVENTS) then push_back q v = Done (q, Some v)
  else exists q',
    push_back q v = Done (q', None) /\ queue_inv q' /\
    contents q' = contents q ++ [v] /\ q_seq_num q' = q_seq_num q + 1 /\
    q_count q' = q_count q + 1.
Proof.
  intros I Hseq. pose proof I as [C Hh Hc Hs].
  assert (Hcap : q_cap q = Z.of_nat MAX_NUM_EVENTS) by (unfold q_cap; by rewrite C).
  unfold push_back, q_full. rewrite Hcap. case_decide as D.
  { by rewrite (proj2 (Z.eqb_eq _ _) D). }
  rewrite (proj2 (Z.eqb_neq _ _) D).
  set (n := Z.to_nat (q_count q)). set (slot := Z.to_nat _).
  assert (Hslot : slot = slot_of q n).
  { unfold slot, slot_of, n. rewrite Hcap. do 2 f_equal. lia. }
  destruct (lookup_lt_is_Some_2 (q_buf q) slot) as [x Hx].
  { rewrite Hslot. by apply slot_of_lt. }
  rewrite Hx. run. rewrite u64_ok by (unfold_widths; lia). run. eexists. split; [done|].
  assert (I' : queue_inv (mkQueue (q_head q) (q_count q + 1) (q_seq_num q + 1)
    (<[slot := v]> (q_buf q)))).
  { constructor; simpl; [by rewrite length_insert|lia|lia|unfold_widths; lia]. }
  split_and!; try done. unfold contents. simpl.
  replace (Z.to_nat (q_count q + 1)) with (S n) by lia.
  assert (Hs' : forall i, slot_of (mkQueue (q_head q) (q_count q + 1) (q_seq_num q + 1)
    (<[slot := v]> (q_buf q))) i = slot_of q i).
  { intros i. unfold slot_of, q_cap. simpl. by rewrite length_insert. }
  rewrite seq_S, omap_app. simpl. rewrite Hs', <- Hslot.
  rewrite list_lookup_insert_eq by (rewrite Hslot; by apply slot_of_lt). f_equal.
  apply list_omap_ext, Forall2_same_length_lookup_2; [done|].
  intros i y z [-> Hi]%lookup_seq [-> _]%lookup_seq. rewrite Hs'. apply list_lookup_insert_ne.
  rewrite Hslot. intros E. apply slot_of_inj in E; [lia|done|lia|lia].
Qed.

Lemma contents_pop q :
  queue_inv q -> 0 < q_count q ->
  exists v, q_buf q !! Z.to_nat (q_head q) = Some v /\
    contents q = v :: contents (mkQueue ((q_head q + 1) mod q_cap q) (q_count q - 1)
                                 (q_seq_num q) (q_buf q)).
Proof.
  intros I Hc. pose proof I as [C Hh Hc' Hs].
  assert (Hcap : q_cap q = Z.of_nat MAX_NUM_EVENTS) by (unfold q_cap; by rewrite C).
  assert (H0 : slot_of q 0 = Z.to_nat (q_head q)).
  { unfold slot_of. rewrite Hcap, Z.add_0_r, Z.mod_small; lia. }
  destruct (lookup_lt_is_Some_2 (q_buf q) (Z.to_nat (q_head q))) as [v Hv].
  { rewrite <- H0. by apply slot_of_lt. }
  exists v. split; [done|]. unfold contents. simpl.
  replace (Z.to_nat (q_count q)) with (S (Z.to_nat (q_count q - 1))) by lia.
  simpl. rewrite H0, Hv. f_equal.
  apply list_omap_ext, Forall2_same_length_lookup_2; [by rewrite !length_seq|].
  intros i y z [-> _]%lookup_seq [-> _]%lookup_seq. f_equal.
  unfold slot_of. simpl. unfold q_cap. simpl. fold (q_cap q). rewrite Hcap.
  rewrite Zplus_mod_idemp_l. do 2 f_equal. lia.
Qed.

Lemma pop_front_ok q :
  queue_inv q ->
  match contents q with
  | [] => pop_front q = Fail (EMango SomeError)
  | v :: rest => exists q',
      pop_front q = Done (q', v) /\ queue_inv q' /\ contents q' = rest /\
      q_seq_num q' = q_seq_num q
  end.
Proof.
  intros I. pose proof (contents_length q I) as L. pose proof I as [C Hh Hc Hs].
  assert (Hcap : q_cap q = Z.of_nat MAX_NUM_EVENTS) by (unfold q_cap; by rewrite C).
  unfold pop_front, q_is_empty, q_len. destruct (Z.eqb_spec (q_count q) 0) as [E|E].
  - rewrite E in L. destruct (contents q); [done|discriminate].
  - destruct (contents_pop q I ltac:(lia)) as (v & Hv & ->). simpl.
    rewrite Hv. run. eexists. split; [done|]. split_and!; try done.
    constructor; simpl; try done; rewrite ?Hcap; [|lia].
    apply Z.mod_pos_bound. unfold MAX_NUM_EVENTS. lia.
Qed.

Lemma peek_front_ok q : queue_inv q -> peek_front q = Done (head (contents q)).
Proof.
  intros I. pose proof (contents_length q I) as L. pose proof (qi_count q I).
  unfold peek_front, q_is_empty, q_len. destruct (Z.eqb_spec (q_count q) 0) as [E|E].
  - rewrite E in L. by destruct (contents q).
  - destruct (contents_pop q I ltac:(lia)) as (v & Hv & ->). by rewrite Hv.
Qed.

Lemma revert_pushes_ok q n :
  queue_inv q -> is_u64 n -> q_count q <= q_seq_num q ->
  if decide (n <= q_count q) then exists q',
    revert_pushes q n = Done q' /\ queue_inv q' /\
    contents q' = take (Z.to_nat n) (contents q) /\
    q_seq_num q' = q_seq_num q - (q_count q - n)
  else revert_pushes q n = Fail (EMango SomeError).
Proof.
  intros I Hn Hs. pose proof I as [C Hh Hc Hq]. unfold revert_pushes, require.
  case_decide as D.
  - rewrite (proj2 (Z.leb_le _ _) D). run. rewrite u64_ok by (unfold_widths; lia). run.
    eexists. split; [done|]. split_and!; [constructor; simpl; auto; unfold_widths; lia| |done].
    unfold contents. simpl.
    replace (Z.to_nat (q_count q)) with (Z.to_nat n + Z.to_nat (q_count q - n))%nat
      by (unfold_widths; lia).
    rewrite seq_app, omap_app, take_app_length'; [done|].
    rewrite omap_lookup_some, length_seq; [done|]. intros. by apply slot_of_lt.
  - rewrite (proj2 (Z.leb_gt _ _)) by lia. done.
Qed.

(** ** The queue as a bounded FIFO

    Any sequence of operations on the queue account gives the responses of a list
    of events with capacity [MAX_NUM_EVENTS] and a push counter. *)

Inductive queue_op :=
| OpPush (v : AnyEvent)
| OpPop
| OpPeek
| OpRevert (desired_len : Z).

Inductive queue_resp :=
| RPushed (rejected : option AnyEvent)
| RPopped (v : result AnyEvent)
| RPeeked (v : option AnyEvent)
| RReverted (v : result unit).

(** One call; an [Err] leaves the queue as it was. *)
Definition queue_step (q : EventQueue) (op : queue_op) : outcome (EventQueue * queue_resp) :=
  match op with
  | OpPush v => '(q, r) ← push_back q v; Done (q, RPushed r)
  | OpPop =>
      match pop_front q with
      | Done (q, v) => Done (q, RPopped (Ok v))
      | Fail e => Done (q, RPopped (Err e))
      | Panic => Panic
      | NoFuel => NoFuel
      end
  | OpPeek => r ← peek_front q; Done (q, RPeeked r)
  | OpRevert n =>
      match revert_pushes q n with
      | Done q => Done (q, RReverted (Ok tt))
      | Fail e => Done (q, RReverted (Err e))
      | Panic => Panic
      | NoFuel => NoFuel
      end
  end.

Fixpoint queue_run (q : EventQueue) (ops : list queue_op) :
    outcome (EventQueue * list queue_resp) :=
  match ops with
  | [] => Done (q, [])
  | op :: ops =>
      '(q, r) ← queue_step q op;
      '(q, rs) ← queue_run q ops;
      Done (q, r :: rs)
  end.

(** The specification: a list of events and the number of pushes in effect. *)
Definition fifo_step (s : list AnyEvent * Z) (op : queue_op) : (list AnyEvent * Z) * queue_resp :=
  let '(l, n) := s in
  match op with
  | OpPush v =>
      if (length l =? MAX_NUM_EVENTS)%nat then (s, RPushed (Some v))
      else ((l ++ [v], n + 1), RPushed None)
  | OpPop =>
      match l with
      | [] => (s, RPopped (Err (EMango SomeError)))
      | v :: l => ((l, n), RPopped (Ok v))
      end
  | OpPeek => (s, RPeeked (head l))
  | OpRevert d =>
      if d <=? Z.of_nat (length l)
      then ((take (Z.to_nat d) l, n - (Z.of_nat (length l) - d)), RReverted (Ok tt))
      else (s, RReverted (Err (EMango SomeError)))
  end.

Fixpoint fifo_run (s : list AnyEvent * Z) (ops : list queue_op) :
    (list AnyEvent * Z) * list queue_resp :=
  match ops with
  | [] => (s, [])
  | op :: ops =>
      let '(s, r) := fifo_step s op in
      let '(s, rs) := fifo_run s ops in (s, r :: rs)
  end.

Definition op_ok (op : queue_op) : Prop :=
  match op with OpRevert n => is_u64 n | _ => True end.

(** The queue never holds more events than were pushed. *)
Definition queue_state_ok (q : EventQueue) : Prop := queue_inv q /\ q_count q <= q_seq_num q.

Lemma queue_step_ok q op :
  queue_state_ok q -> q_seq_num q < U64_MAX -> op_ok op ->
  exists q' r,
    queue_step q op = Done (q', r) /\ queue_state_ok q' /\
    q_seq_num q' <= q_seq_num q + 1 /\
    fifo_step (contents q, q_seq_num q) op = ((contents q', q_seq_num q'), r).
Proof.
  intros [I Hcs] Hs Hop. unfold queue_state_ok. pose proof (contents_length q I) as L. pose proof (qi_count q I) as Hc.
  destruct op as [v| | |n]; simpl.
  - pose proof (push_back_ok q v I Hs) as P. rewrite L. case_decide as D.
    + rewrite P. run. rewrite D, Nat2Z.id, Nat.eqb_refl.
      exists q, (RPushed (Some v)). split_and!; try done; lia.
    + destruct P as (q' & -> & I' & E' & Hs' & Hc'). run.
      rewrite (proj2 (Nat.eqb_neq _ _)) by lia.
      exists q', (RPushed None). rewrite E', Hs'. split_and!; try done; lia.
  - pose proof (pop_front_ok q I) as P. destruct (contents q) as [|v rest] eqn:E.
    + rewrite P. eexists _, _. split; [done|]. split_and!; try done; [lia|]. by rewrite E.
    + destruct P as (q' & -> & I' & E' & Hs'). exists q', (RPopped (Ok v)).
      pose proof (contents_length q' I') as L'. pose proof (qi_count q' I').
      rewrite E' in L'. simpl in L, L'. rewrite E', Hs'. split_and!; try done; lia.
  - rewrite (peek_front_ok q I). run. eexists _, _. split; [done|]. split_and!; try done. lia.
  - pose proof (revert_pushes_ok q n I Hop Hcs) as P. rewrite L, Z2Nat.id by lia.
    case_decide as D.
    + destruct P as (q' & -> & I' & E' & Hs'). exists q', (RReverted (Ok tt)).
      rewrite (proj2 (Z.leb_le _ _) D), E', Hs'.
      pose proof (contents_length q' I') as L'. pose proof (qi_count q' I').
      rewrite E', length_take in L'. simpl in Hop. unfold_widths. split_and!; try done; lia.
    + rewrite P, (proj2 (Z.leb_gt _ _)) by lia.
      exists q, (RReverted (Err (EMango SomeError))). split_and!; try done; lia.
Qed.

Lemma queue_run_ok ops : forall q,
  queue_state_ok q -> q_seq_num q + Z.of_nat (length ops) <= U64_MAX -> Forall op_ok ops ->
  exists q' rs,
    queue_run q ops = Done (q', rs) /\ queue_state_ok q' /\
    fifo_run (contents q, q_seq_num q) ops = ((contents q', q_seq_num q'), rs).
Proof.
  induction ops as [|op ops IH]; intros q S Hs Hops; cbn [queue_run fifo_run].
  - eauto 10.
  - apply Forall_cons in Hops as [Hop Hops]. simpl in Hs.
    destruct (queue_step_ok q op S ltac:(lia) Hop) as (q1 & r & -> & S1 & Hs1 & E1). run.
    destruct (IH q1 S1 ltac:(lia) Hops) as (q' & rs & -> & S' & E2). run.
    exists q', (r :: rs). split_and!; [done|apply S'..|]. by rewrite E1, E2.
Qed.

(** C38: every sequence of pushes, pops, peeks and reverts on a fresh event queue
    account runs without panicking and answers exactly like a first-in-first-out list
    of at most [MAX_NUM_EVENTS] events whose sequence number counts the pushes in
    effect: pushes on a full queue hand the event back, pops and reverts beyond the
    contents return an error. *)
Theorem event_queue_fifo ops :
  Z.of_nat (length ops) <= U64_MAX -> Forall op_ok ops ->
  exists q rs,
    queue_run queue_zeroed ops = Done (q, rs) /\ queue_state_ok q /\
    fifo_run ([], 0) ops = ((contents q, q_seq_num q), rs).
Proof.
  intros Hl Hops. apply (queue_run_ok ops queue_zeroed); [|done|done].
  split; [|done]. constructor; simpl; unfold MAX_NUM_EVENTS; unfold_widths; (done || lia).
Qed.

(** The witness of C38: push two events, pop one, revert to an empty queue. *)
Lemma event_queue_fifo_witness :
  exists q rs,
    queue_run queue_zeroed [OpPush (AFill zero_fill); OpPush (AFill zero_fill); OpPop; OpRevert 0]
    = Done (q, rs) /\ contents q = [].
Proof.
  destruct (event_queue_fifo
    [OpPush (AFill zero_fill); OpPush (AFill zero_fill); OpPop; OpRevert 0])
    as (q & rs & H & _ & F).
  - unfold U64_MAX; simpl; lia.
  - repeat constructor; unfold U64_MAX; lia.
  - exists q, rs. split; [exact H|]. injection F as F _ _. symmetry. exact F.
Defined.

(** The iterator visits the contents in order. *)
Lemma queue_iter_contents q :
  queue_inv q -> queue_iter (S (Z.to_nat (q_count q))) q 0 = Done (contents q).
Proof.
  intros I. pose proof I as [C Hh Hc Hs]. unfold contents.
  assert (G : forall n i fuel, (n < fuel)%nat -> (i + n)%nat = Z.to_nat (q_count q) ->
    queue_iter fuel q (Z.of_nat i) = Done (omap (fun i => q_buf q !! slot_of q i) (seq i n))).
  { induction n as [|n IH]; intros i fuel Hf Hi; (destruct fuel as [|fuel]; [lia|]);
      cbn [queue_iter]; unfold queue_iter_next, q_len.
    - rewrite (proj2 (Z.eqb_eq _ _)) by lia. done.
    - rewrite (proj2 (Z.eqb_neq _ _)) by lia. fold (slot_of q i).
      destruct (lookup_lt_is_Some_2 (q_buf q) (slot_of q i) (slot_of_lt q i I)) as [v Hv].
      simpl. rewrite Hv. run. replace (Z.of_nat i + 1) with (Z.of_nat (S i)) by lia.
      rewrite (IH (S i) fuel) by lia. run. done. }
  apply (G (Z.to_nat (q_count q)) 0%nat); lia.
Qed.
