(* ===== verification/BookSide.v ===== *)
(** * One side of the book: the operations

    state/orderbook/bookside.rs and bookside_iterator.rs: a side holds two order
    trees in one node array, one of orders with a fixed price and one of orders
    pegged to the oracle price, and iterates both at once in price-time priority. *)

From stdpp Require Import base numbers list.
From Stdlib Require Import ZArith Lia.
From S2P Require Import Prelude OrderTypes Nodes OrderTree OrderTreeIter.

Open Scope Z_scope.

Record BookSide := mkBookSide {
  root_fixed : OrderTreeRoot;
  root_oracle_pegged : OrderTreeRoot;
  bs_nodes : OrderTreeNodes
}.

Record BookSideOrderHandle := mkHandle {
  bh_node : NodeHandle;
  bh_order_tree : BookSideOrderTree
}.

Inductive OrderState : Set := Valid | Invalid | Skipped.

#[export] Instance OrderState_eq_dec : EqDecision OrderState.
Proof. solve_decision. Defined.

Record BookSideIterItem := mkItem {
  item_handle : BookSideOrderHandle;
  item_node : LeafNode;
  item_price_lots : Z;
  item_state : OrderState
}.

Definition item_is_valid (i : BookSideIterItem) : bool := bool_decide (item_state i = Valid).

(** ** Access *)

Definition bs_root (b : BookSide) (c : BookSideOrderTree) : OrderTreeRoot :=
  match c with Fixed => root_fixed b | OraclePegged => root_oracle_pegged b end.

(** The side with one root and the node array replaced. *)
Definition bs_set (b : BookSide) (c : BookSideOrderTree) (r : OrderTreeRoot)
    (a : OrderTreeNodes) : BookSide :=
  match c with
  | Fixed => mkBookSide r (root_oracle_pegged b) a
  | OraclePegged => mkBookSide (root_fixed b) r a
  end.

Definition bs_side (b : BookSide) : Side := tree_side (order_tree_type (bs_nodes b)).

Definition bs_is_full (b : BookSide) : bool := is_full (bs_nodes b).

(** ** Prices and ranking *)

Definition oracle_pegged_price (oracle_price_lots : Z) (node : LeafNode) (side : Side) :
    OrderState * Z :=
  let price_offset := oracle_pegged_price_offset (price_data node) in
  let price := saturating_add_i64 oracle_price_lots price_offset in
  if (1 <=? price) && (price <? I64_MAX) then
    if negb (leaf_peg_limit node =? -1) && is_price_better side price (leaf_peg_limit node)
    then (Invalid, price)
    else (Valid, price)
  else (Skipped, Z.max price 1).

Definition key_for_fixed_price (key price_lots : Z) : outcome Z :=
  _ ← assert_ (1 <=? price_lots);
  pd ← match fixed_price_data price_lots with Done v => Done v | _ => Panic end;
  let upper := Z.shiftl pd 64 in
  let lower := as_u64 key in
  Done (Z.lor upper lower).

Definition fixed_to_result (fixed : NodeHandle * LeafNode) (now_ts : Z) :
    outcome BookSideIterItem :=
  let '(handle, node) := fixed in
  expired ← is_expired node now_ts;
  price ← fixed_price_lots (price_data node);
  Done (mkItem (mkHandle handle Fixed) node price (if (expired : bool) then Invalid else Valid)).

Definition oracle_pegged_to_result (pegged : NodeHandle * LeafNode * Z * OrderState)
    (now_ts : Z) : outcome BookSideIterItem :=
  let '(handle, node, price_lots, state) := pegged in
  expired ← is_expired node now_ts;
  Done (mkItem (mkHandle handle OraclePegged) node price_lots
          (if (expired : bool) then Invalid else state)).

Definition rank_orders (side : Side) (fixed oracle_pegged : option (NodeHandle * LeafNode))
    (return_worse : bool) (now_ts oracle_price_lots : Z) : outcome (option BookSideIterItem) :=
  let oracle_pegged :=
    (fun '(handle, node) =>
       let '(state, price_lots) := oracle_pegged_price oracle_price_lots node side in
       (handle, node, price_lots, state)) <$> oracle_pegged in
  match fixed, oracle_pegged with
  | Some f, Some o =>
      let '(_, onode, oprice, _) := o in
      k ← key_for_fixed_price (leaf_key onode) oprice;
      let is_better := match side with
                       | Bid => k <? leaf_key (snd f)
                       | Ask => leaf_key (snd f) <? k
                       end in
      if xorb is_better return_worse then
        r ← fixed_to_result f now_ts; Done (Some r)
      else
        r ← oracle_pegged_to_result o now_ts; Done (Some r)
  | None, Some o => r ← oracle_pegged_to_result o now_ts; Done (Some r)
  | Some f, None => r ← fixed_to_result f now_ts; Done (Some r)
  | None, None => Done None
  end.

(** ** Iteration *)

Record BookSideIter := mkBookSideIter {
  fixed_iter : OrderTreeIter;
  oracle_pegged_iter : OrderTreeIter;
  bi_now_ts : Z;
  bi_oracle_price_lots : Z
}.

Definition bs_iter_new (b : BookSide) (now_ts oracle_price_lots : Z) : outcome BookSideIter :=
  f ← iter_new (bs_nodes b) (bs_root b Fixed);
  o ← iter_new (bs_nodes b) (bs_root b OraclePegged);
  Done (mkBookSideIter f o now_ts oracle_price_lots).

(** The [while let] loop of [BookSideIter::next]. It advances the pegged iterator
    with [next], which returns the order the iterator stood on, not the one after
    it. Each round consumes a leaf, so the number of nodes bounds the rounds. *)
Fixpoint skip_pegged (fuel : nat) (oracle_price_lots : Z) (side : Side) (it : OrderTreeIter)
    (o_peek : option (NodeHandle * LeafNode)) :
    outcome (OrderTreeIter * option (NodeHandle * LeafNode)) :=
  match fuel with
  | O => NoFuel
  | S fuel =>
      match o_peek with
      | None => Done (it, None)
      | Some (_, o_node) =>
          if bool_decide (fst (oracle_pegged_price oracle_price_lots o_node side) <> Skipped)
          then Done (it, o_peek)
          else
            '(o, it) ← iter_next it;
            skip_pegged fuel oracle_price_lots side it o
      end
  end.

Definition SKIP_FUEL : nat := S (S (S MAX_ORDERTREE_NODES)).

Definition bs_iter_next (it : BookSideIter) :
    outcome (option BookSideIterItem * BookSideIter) :=
  let side := iter_side (fixed_iter it) in
  '(oit, o_peek) ← skip_pegged SKIP_FUEL (bi_oracle_price_lots it) side
                     (oracle_pegged_iter it) (iter_peek (oracle_pegged_iter it));
  let f_peek := iter_peek (fixed_iter it) in
  better ← rank_orders side f_peek o_peek false (bi_now_ts it) (bi_oracle_price_lots it);
  match better with
  | None =>
      Done (None, mkBookSideIter (fixed_iter it) oit (bi_now_ts it) (bi_oracle_price_lots it))
  | Some better =>
      match bh_order_tree (item_handle better) with
      | Fixed =>
          '(_, fit) ← iter_next (fixed_iter it);
          Done (Some better, mkBookSideIter fit oit (bi_now_ts it) (bi_oracle_price_lots it))
      | OraclePegged =>
          '(_, oit) ← iter_next oit;
          Done (Some better,
                mkBookSideIter (fixed_iter it) oit (bi_now_ts it) (bi_oracle_price_lots it))
      end
  end.

(** [for x in iter { ... }] with [break] and [continue]: the body either goes on
    with a new loop state or ends the loop. A loop that ends with the iterator
    gives [Continue]. *)
Inductive flow (St R : Type) : Type :=
| Continue (s : St)
| Break (r : R).
Arguments Continue {St R} s.
Arguments Break {St R} r.

Fixpoint bs_iter_for {St R} (fuel : nat) (it : BookSideIter) (s : St)
    (body : St -> BookSideIterItem -> outcome (flow St R)) : outcome (flow St R) :=
  match fuel with
  | O => NoFuel
  | S fuel =>
      '(o, it) ← bs_iter_next it;
      match o with
      | None => Done (Continue s)
      | Some x =>
          c ← body s x;
          match c with
          | Continue s => bs_iter_for fuel it s body
          | Break r => Done (Break r)
          end
      end
  end.

(** A side has at most [MAX_ORDERTREE_NODES] orders. *)
Definition ITER_FUEL : nat := S MAX_ORDERTREE_NODES.

(** A loop over [iter_all_including_invalid]. *)
Definition for_all_including_invalid {St R} (b : BookSide) (now_ts oracle_price_lots : Z)
    (s : St) (body : St -> BookSideIterItem -> outcome (flow St R)) : outcome (flow St R) :=
  it ← bs_iter_new b now_ts oracle_price_lots;
  bs_iter_for ITER_FUEL it s body.

(** A loop over [iter_valid]. *)
Definition for_valid {St R} (b : BookSide) (now_ts oracle_price_lots : Z)
    (s : St) (body : St -> BookSideIterItem -> outcome (flow St R)) : outcome (flow St R) :=
  for_all_including_invalid b now_ts oracle_price_lots s
    (fun s x => if item_is_valid x then body s x else Done (Continue s)).

(** Every item the iterator yields. *)
Definition iter_all_including_invalid (b : BookSide) (now_ts oracle_price_lots : Z) :
    outcome (list BookSideIterItem) :=
  r ← for_all_including_invalid (R := Empty_set) b now_ts oracle_price_lots []
        (fun xs x => Done (Continue (x :: xs)));
  match (r : flow (list BookSideIterItem) Empty_set) with
  | Continue xs => Done (reverse xs)
  | Break e => match e with end
  end.

(** ** Updates *)

Definition bs_insert_leaf (b : BookSide) (c : BookSideOrderTree) (new_leaf : LeafNode) :
    outcome (BookSide * result (NodeHandle * option LeafNode)) :=
  '(a, r, res) ← insert_leaf (bs_nodes b) (bs_root b c) new_leaf;
  Done (bs_set b c r a, res).

Definition bs_remove_by_key (b : BookSide) (c : BookSideOrderTree) (search_key : Z) :
    outcome (BookSide * option LeafNode) :=
  '(a, r, res) ← remove_by_key (bs_nodes b) (bs_root b c) search_key;
  Done (bs_set b c r a, res).

Definition bs_remove_worst (b : BookSide) (now_ts oracle_price_lots : Z) :
    outcome (BookSide * option (LeafNode * Z)) :=
  worst_fixed ← find_worst (bs_nodes b) (bs_root b Fixed);
  worst_pegged ← find_worst (bs_nodes b) (bs_root b OraclePegged);
  w ← rank_orders (bs_side b) worst_fixed worst_pegged true now_ts oracle_price_lots;
  match w with
  | None => Done (b, None)
  | Some worse =>
      let price := item_price_lots worse in
      let key := leaf_key (item_node worse) in
      '(b, n) ← bs_remove_by_key b (bh_order_tree (item_handle worse)) key;
      match n with
      | None => Done (b, None)
      | Some n => Done (b, Some (n, price))
      end
  end.

Definition other_component (c : BookSideOrderTree) : BookSideOrderTree :=
  match c with Fixed => OraclePegged | OraclePegged => Fixed end.

Definition bs_remove_one_expired (b : BookSide) (c : BookSideOrderTree) (now_ts : Z) :
    outcome (BookSide * option LeafNode) :=
  '(a, r, n) ← remove_one_expired (bs_nodes b) (bs_root b c) now_ts;
  let b := bs_set b c r a in
  match n with
  | Some n => Done (b, Some n)
  | None =>
      let c := other_component c in
      '(a, r, n) ← remove_one_expired (bs_nodes b) (bs_root b c) now_ts;
      Done (bs_set b c r a, n)
  end.

(** [self.node_mut(h).unwrap().as_leaf_mut().unwrap().quantity = q]. *)
Definition set_quantity (l : LeafNode) (q : Z) : LeafNode :=
  mkLeafNode (owner_slot l) (leaf_order_type l) (time_in_force l) (leaf_key l) (owner l) q
    (timestamp l) (leaf_peg_limit l) (leaf_client_order_id l).

Definition bs_set_quantity (b : BookSide) (h : NodeHandle) (q : Z) : outcome BookSide :=
  o ← node (bs_nodes b) h;
  n ← unwrap o;
  l ← unwrap (as_leaf n);
  Done (mkBookSide (root_fixed b) (root_oracle_pegged b)
          (set_nodes (bs_nodes b) (<[h := NLeaf (set_quantity l q)]> (nodes (bs_nodes b))))).

(** ** Queries over the valid orders *)

Definition quantity_at_price (b : BookSide) (limit_price_lots now_ts oracle_price_lots : Z) :
    outcome Z :=
  r ← for_valid b now_ts oracle_price_lots 0 (fun sum x =>
        if is_price_better (bs_side b) limit_price_lots (item_price_lots x) then Done (Break sum)
        else sum ← i64 (sum + quantity (item_node x)); Done (Continue sum));
  match r with Continue sum | Break sum => Done sum end.

Definition best_price (b : BookSide) (now_ts oracle_price_lots : Z) : outcome (option Z) :=
  r ← for_valid b now_ts oracle_price_lots tt (fun _ x => Done (Break (item_price_lots x)));
  match r with Continue _ => Done None | Break p => Done (Some p) end.

Definition impact_price (b : BookSide) (target now_ts oracle_price_lots : Z) :
    outcome (option Z) :=
  r ← for_valid b now_ts oracle_price_lots 0 (fun sum x =>
        sum ← i64 (sum + quantity (item_node x));
        if target <=? sum then Done (Break (item_price_lots x)) else Done (Continue sum));
  match r with Continue _ => Done None | Break p => Done (Some p) end.

Definition matched_amount (b : BookSide) (target now_ts oracle_price_lots : Z) :
    outcome (option Z) :=
  if target <=? 0 then Done None
  else
    r ← for_valid b now_ts oracle_price_lots (0, 0) (fun '(sum_qty, sum_amt) x =>
          sum_qty ← i64 (sum_qty + quantity (item_node x));
          amt ← i64 (quantity (item_node x) * item_price_lots x);
          sum_amt ← i64 (sum_amt + amt);
          extra_qty ← i64 (sum_qty - target);
          if 0 <=? extra_qty then
            d ← i64 (extra_qty * item_price_lots x);
            r ← i64 (sum_amt - d);
            Done (Break r)
          else Done (Continue (sum_qty, sum_amt)));
    match r with Continue _ => Done None | Break p => Done (Some p) end.

Definition matched_quantity (b : BookSide) (amount now_ts oracle_price_lots : Z) :
    outcome (option Z) :=
  if amount <=? 0 then Done None
  else
    r ← for_valid b now_ts oracle_price_lots (0, 0) (fun '(sum_qty, sum_amt) x =>
          sum_qty ← i64 (sum_qty + quantity (item_node x));
          amt ← i64 (quantity (item_node x) * item_price_lots x);
          sum_amt ← i64 (sum_amt + amt);
          extra_amt ← i64 (sum_amt - amount);
          if 0 <=? extra_amt then
            n ← i64 (extra_amt + item_price_lots x);
            n ← i64 (n - 1);
            _ ← assert_ (negb (item_price_lots x =? 0));
            r ← i64 (sum_qty - Z.quot n (item_price_lots x));
            Done (Break r)
          else Done (Continue (sum_qty, sum_amt)));
    match r with Continue _ => Done None | Break p => Done (Some p) end.

(** A zeroed [BookSide] account of the given type. *)
Definition bookside_zeroed (ty : OrderTreeType) : BookSide :=
  mkBookSide root_zeroed root_zeroed (nodes_zeroed ty).
