(* ===== verification/BookSideSpec.v ===== *)
(** * One side of the book: the abstract view

    A side denotes two finite maps from order keys to orders, one per component.
    Every update of the side is the corresponding update of the maps ([bs_rep]); the
    other component is never affected although both share one node array. *)

From stdpp Require Import base numbers list gmap sorting functions.
From Stdlib Require Import ZArith Lia.
From S2P Require Import Prelude OrderTypes Nodes OrderTree OrderTreeSpec OrderTreeArena OrderTreeInsert OrderTreeRemove OrderTreeIter BookSide.

Open Scope Z_scope.

(** The trees of the two components laid out in the node array. *)
Definition book_inv (b : BookSide) (T : BookSideOrderTree -> option tree)
    (fl : list NodeHandle) : Prop :=
  forall c,
    heap_inv (bs_nodes b) (ohandles (T c) ++ ohandles (T (other_component c))) fl /\
    orepr (nodes (bs_nodes b)) (T c) /\ owf (T c) /\ root_rep (bs_root b c) (T c).

(** The abstraction relation: the side [b] stands for the maps [M]. *)
Definition bs_rep (b : BookSide) (M : BookSideOrderTree -> gmap Z LeafNode) : Prop :=
  exists T fl, book_inv b T fl /\ forall c, otmap (T c) = M c.

Lemma other_involutive c : other_component (other_component c) = c.
Proof. by destruct c. Qed.

Lemma other_neq c : other_component c <> c.
Proof. by destruct c. Qed.

Lemma component_cases c c' : c' = c \/ c' = other_component c.
Proof. destruct c, c'; auto. Qed.

Lemma bs_root_set b c r a : bs_root (bs_set b c r a) c = r.
Proof. by destruct c. Qed.

Lemma bs_root_set_other b c r a :
  bs_root (bs_set b c r a) (other_component c) = bs_root b (other_component c).
Proof. by destruct c. Qed.

Lemma bs_nodes_set b c r a : bs_nodes (bs_set b c r a) = a.
Proof. by destruct c. Qed.

(** Replacing the tree of one component. *)
Lemma book_inv_update b T fl c a' r' ot' fl' :
  book_inv b T fl ->
  heap_inv a' (ohandles ot' ++ ohandles (T (other_component c))) fl' ->
  orepr (nodes a') ot' -> owf ot' -> root_rep r' ot' ->
  (forall h, h ∈ ohandles (T (other_component c)) -> nodes a' !! h = nodes (bs_nodes b) !! h) ->
  book_inv (bs_set b c r' a') (<[c := ot']> T) fl'.
Proof.
  intros I H Rp W Rt F c'. rewrite bs_nodes_set.
  destruct (component_cases c c') as [-> | ->].
  - rewrite fn_lookup_insert, fn_lookup_insert_ne, bs_root_set by by destruct c. done.
  - rewrite other_involutive, fn_lookup_insert, fn_lookup_insert_ne, bs_root_set_other
      by by destruct c.
    destruct (I (other_component c)) as (_ & Ro & Wo & Rto). split_and!; auto.
    + apply (heap_perm H). apply Permutation_app_comm.
    + by eapply orepr_ext.
Qed.

Lemma fn_insert_eq {A} (M : BookSideOrderTree -> A) c v c' :
  (<[c := v]> M) c' = if decide (c = c') then v else M c'.
Proof. done. Qed.

(** The representation after an update of one component's tree and map. *)
Lemma bs_rep_update b T fl M c a' r' ot' fl' m' :
  book_inv b T fl -> (forall c, otmap (T c) = M c) ->
  heap_inv a' (ohandles ot' ++ ohandles (T (other_component c))) fl' ->
  orepr (nodes a') ot' -> owf ot' -> root_rep r' ot' ->
  (forall h, h ∈ ohandles (T (other_component c)) -> nodes a' !! h = nodes (bs_nodes b) !! h) ->
  otmap ot' = m' ->
  bs_rep (bs_set b c r' a') (<[c := m']> M).
Proof.
  intros I HM H Rp W Rt F Hm. exists (<[c := ot']> T), fl'.
  split; [by eapply book_inv_update|]. intros c'. rewrite !fn_insert_eq.
  by case_decide.
Qed.

Lemma bs_rep_ext b M M' : (forall c, M c = M' c) -> bs_rep b M -> bs_rep b M'.
Proof. intros E (T & fl & I & HM). exists T, fl. split; [done|]. intros c. by rewrite HM. Qed.

Lemma bs_rep_zeroed ty : bs_rep (bookside_zeroed ty) (fun _ => ∅).
Proof.
  exists (fun _ => None), []. split; [|done]. intros c. split_and!; [|done|done|by destruct c].
  by constructor.
Qed.

(** ** Updates *)

Lemma bs_insert_leaf_ok b M c leaf :
  bs_rep b M -> leaf_ok leaf ->
  exists b' r, bs_insert_leaf b c leaf = Done (b', r) /\ bs_side b' = bs_side b /\
    match r with
    | Ok (h, old) =>
        old = M c !! leaf_key leaf /\ bs_rep b' (<[c := <[leaf_key leaf := leaf]> (M c)]> M)
    | Err e =>
        e = EMango SomeError /\ M c !! leaf_key leaf = None /\ bs_is_full b = true /\ bs_rep b' M
    end.
Proof.
  intros (T & fl & I & HM) Lk. destruct (I c) as (H & Rp & W & Rt).
  destruct (insert_leaf_ok _ _ _ _ _ _ H Rp W Rt Lk) as (a' & r' & res & E & Ty & F & P).
  unfold bs_insert_leaf. rewrite E. run. eexists _, _. split; [done|].
  split; [unfold bs_side; by rewrite bs_nodes_set, Ty|].
  destruct res as [[h old]|e].
  - destruct P as (t' & fl' & H' & R' & W' & Rt' & _ & Hm & Ho). rewrite HM in Hm, Ho.
    split; [done|]. by eapply (bs_rep_update b T fl M c a' r' (Some t')).
  - destruct P as (-> & -> & Hn & Hfull & fl' & H' & R'). rewrite HM in Hn.
    split_and!; [done|done| |].
    + unfold bs_is_full. destruct (is_full (bs_nodes b)) eqn:Ef; [done|].
      apply (is_full_spec _ _ _ H) in Ef. lia.
    + eapply bs_rep_ext; [|eapply (bs_rep_update b T fl M c a' _ (T c) fl' (M c)); eauto].
      intros c'. rewrite fn_insert_eq. by case_decide; subst.
Qed.

Lemma remove_post_bs b T fl M c k out :
  book_inv b T fl -> (forall c, otmap (T c) = M c) ->
  remove_post (bs_nodes b) (bs_root b c) (T c) (ohandles (T (other_component c))) k out ->
  exists a' r', out = Done (a', r', M c !! k) /\
    bs_side (bs_set b c r' a') = bs_side b /\
    bs_rep (bs_set b c r' a') (<[c := delete k (M c)]> M).
Proof.
  intros I HM (a' & r' & ot' & fl' & E & Ty & F & H' & R' & W' & Rt' & Hm).
  rewrite HM in E, Hm. exists a', r'. split; [done|].
  split; [unfold bs_side; by rewrite bs_nodes_set, Ty|]. by eapply bs_rep_update.
Qed.

Lemma bs_remove_by_key_ok b M c k :
  bs_rep b M ->
  exists b', bs_remove_by_key b c k = Done (b', M c !! k) /\ bs_side b' = bs_side b /\
    bs_rep b' (<[c := delete k (M c)]> M).
Proof.
  intros (T & fl & I & HM). destruct (I c) as (H & Rp & W & Rt).
  destruct (remove_post_bs b T fl M c k _ I HM (remove_by_key_ok _ _ _ _ _ k H Rp W Rt))
    as (a' & r' & E & Hs & R').
  unfold bs_remove_by_key. rewrite E. run. eauto.
Qed.

(** Insertion, lookup and removal on one component of a book side round-trip.
    When the side is not full, inserting a leaf with a fresh key succeeds; removing
    its key afterwards returns exactly that leaf and gives back the original maps of
    both components. *)
Theorem bs_insert_remove_roundtrip b M c leaf :
  bs_rep b M -> leaf_ok leaf -> M c !! leaf_key leaf = None -> bs_is_full b = false ->
  exists b1 h b2,
    bs_insert_leaf b c leaf = Done (b1, Ok (h, None)) /\
    bs_remove_by_key b1 c (leaf_key leaf) = Done (b2, Some leaf) /\
    bs_rep b2 M.
Proof.
  intros Rb Lk Hn Hf. destruct (bs_insert_leaf_ok b M c leaf Rb Lk) as (b1 & r & E & _ & P).
  destruct r as [[h old]|e]; [|destruct P as (_ & _ & Hf' & _); congruence].
  destruct P as [-> R1]. rewrite Hn in E.
  destruct (bs_remove_by_key_ok b1 _ c (leaf_key leaf) R1) as (b2 & E2 & _ & R2).
  rewrite fn_lookup_insert, lookup_insert_eq in E2.
  exists b1, h, b2. split_and!; [done|done|]. eapply bs_rep_ext; [|exact R2].
  intros c'. rewrite !fn_insert_eq. case_decide; subst; [|done].
  rewrite decide_True by done. by rewrite delete_insert_id.
Qed.

(** A bid of 5 lots. *)
Definition sample_leaf : LeafNode :=
  leaf_new 0 (new_node_key Bid 100 1) 7 5 1000 Limit 60 (-1) 42.

Lemma sample_leaf_ok : leaf_ok sample_leaf.
Proof. apply (bool_decide_unpack _). vm_compute. exact I. Qed.

(** A concrete instance inserts a bid into an empty side. *)
Lemma bs_insert_remove_roundtrip_witness :
  exists b1 h b2,
    bs_insert_leaf (bookside_zeroed Bids) Fixed sample_leaf = Done (b1, Ok (h, None)) /\
    bs_remove_by_key b1 Fixed (leaf_key sample_leaf) = Done (b2, Some sample_leaf) /\
    bs_rep b2 (fun _ => ∅).
Proof.
  apply (bs_insert_remove_roundtrip (bookside_zeroed Bids) (fun _ => ∅) Fixed sample_leaf).
  - apply bs_rep_zeroed.
  - apply sample_leaf_ok.
  - reflexivity.
  - reflexivity.
Defined.

(** Dropping an expired order: the requested component first, then the other. *)
Lemma bs_remove_one_expired_ok b M c now_ts :
  bs_rep b M ->
  exists b' r, bs_remove_one_expired b c now_ts = Done (b', r) /\ bs_side b' = bs_side b /\
    match r with
    | Some l =>
        exists c', M c' !! leaf_key l = Some l /\ expiry_of l < now_ts /\
          (forall k' l', M c' !! k' = Some l' -> expiry_of l <= expiry_of l') /\
          (c' = c \/ forall k' l', M c !! k' = Some l' -> now_ts <= expiry_of l') /\
          bs_rep b' (<[c' := delete (leaf_key l) (M c')]> M)
    | None => (forall c' k' l', M c' !! k' = Some l' -> now_ts <= expiry_of l') /\ bs_rep b' M
    end.
Proof.
  intros (T & fl & I & HM). unfold bs_remove_one_expired.
  destruct (I c) as (H & Rp & W & Rt).
  destruct (remove_one_expired_ok _ _ _ _ _ now_ts H Rp W Rt)
    as [(l & Hl & He & Hmin & P) | [Hnone ->]].
  - destruct (remove_post_bs b T fl M c _ _ I HM P) as (a' & r' & -> & Hs & R').
    rewrite HM in Hl. rewrite Hl. run. eexists _, _. split; [done|]. split; [done|].
    exists c. rewrite HM in Hmin. split_and!; auto.
  - run. replace (bs_set b c (bs_root b c) (bs_nodes b)) with b by (destruct b; by destruct c).
    destruct (I (other_component c)) as (H2 & Rp2 & W2 & Rt2). rewrite HM in Hnone.
    destruct (remove_one_expired_ok _ _ _ _ _ now_ts H2 Rp2 W2 Rt2)
      as [(l & Hl & He & Hmin & P) | [Hnone2 ->]].
    + destruct (remove_post_bs b T fl M (other_component c) _ _ I HM P) as (a' & r' & -> & Hs & R').
      rewrite HM in Hl. rewrite Hl. run. eexists _, _. split; [done|]. split; [done|].
      exists (other_component c). rewrite HM in Hmin. split_and!; auto.
    + run. eexists _, _. split; [done|]. rewrite HM in Hnone2.
      split; [by destruct b, c|]. split.
      * intros c' k' l' E. destruct (component_cases c c') as [-> | ->]; eauto.
      * replace (bs_set b (other_component c) _ (bs_nodes b)) with b by (destruct b; by destruct c).
        by exists T, fl.
Qed.

(** ** Building a side order by order *)

Fixpoint insert_all (b : BookSide) (xs : list (BookSideOrderTree * LeafNode)) : option BookSide :=
  match xs with
  | [] => Some b
  | (c, l) :: xs =>
      match bs_insert_leaf b c l with
      | Done (b', Ok _) => insert_all b' xs
      | _ => None
      end
  end.

Fixpoint insert_maps (M : BookSideOrderTree -> gmap Z LeafNode)
    (xs : list (BookSideOrderTree * LeafNode)) : BookSideOrderTree -> gmap Z LeafNode :=
  match xs with
  | [] => M
  | (c, l) :: xs => insert_maps (<[c := <[leaf_key l := l]> (M c)]> M) xs
  end.

Lemma insert_all_rep : forall xs b M b',
  bs_rep b M -> Forall (fun x => leaf_ok x.2) xs -> insert_all b xs = Some b' ->
  bs_rep b' (insert_maps M xs).
Proof.
  induction xs as [|[c l] xs IH]; intros b M b' R F E; simpl in *; [congruence|].
  inversion F as [|? ? Hl F']; subst. simpl in Hl.
  destruct (bs_insert_leaf_ok b M c l R Hl) as (b1 & r & E1 & _ & P). rewrite E1 in E.
  destruct r as [[h old]|]; [|done]. destruct P as [_ R1]. by apply (IH b1).
Qed.
