(* ===== verification/BookSideIterate.v ===== *)
(** * One side of the book: iteration in price-time priority

    What [BookSideIter] yields and in which order, and what the queries that walk
    the book (best price, quantity at a price, impact price) return. *)

From stdpp Require Import base numbers gmap sorting functions list.
From Stdlib Require Import ZArith Lia.
From S2P Require Import Prelude OrderTypes Nodes OrderTree OrderTreeSpec OrderTreeArena OrderTreeInsert OrderTreeRemove OrderTreeIter BookSide BookSideSpec.

Open Scope Z_scope.

(** ** The items of a side *)

(** The price of a pegged order, and whether it is in the range [1..i64::MAX]. *)
Definition pegged_sum (oracle_price_lots : Z) (l : LeafNode) : Z :=
  oracle_price_lots + (price_data l - 2 ^ 63).

Definition representable (oracle_price_lots : Z) (l : LeafNode) : bool :=
  (1 <=? pegged_sum oracle_price_lots l) && (pegged_sum oracle_price_lots l <? I64_MAX).

Definition expired (now_ts : Z) (l : LeafNode) : bool :=
  (0 <? time_in_force l) && (timestamp l + time_in_force l <=? now_ts).

Definition past_peg_limit (side : Side) (oracle_price_lots : Z) (l : LeafNode) : bool :=
  negb (leaf_peg_limit l =? -1) &&
  is_price_better side (pegged_sum oracle_price_lots l) (leaf_peg_limit l).

Section items.
Context (side : Side) (now_ts oracle_price_lots : Z).

Definition fixed_item (x : NodeHandle * LeafNode) : BookSideIterItem :=
  mkItem (mkHandle x.1 Fixed) x.2 (price_data x.2)
    (if expired now_ts x.2 then Invalid else Valid).

Definition pegged_item (x : NodeHandle * LeafNode) : BookSideIterItem :=
  mkItem (mkHandle x.1 OraclePegged) x.2 (pegged_sum oracle_price_lots x.2)
    (if expired now_ts x.2 || past_peg_limit side oracle_price_lots x.2
     then Invalid else Valid).

(** The key the order would have if it were a fixed order at its current price. *)
Definition ekey (i : BookSideIterItem) : Z := item_price_lots i * 2 ^ 64 + leaf_key (item_node i) mod 2 ^ 64.

(** [i] is matched no later than [j]. *)
Definition ahead (i j : BookSideIterItem) : Prop :=
  match side with Bid => ekey j <= ekey i | Ask => ekey i <= ekey j end.

#[export] Instance ahead_dec i j : Decision (ahead i j).
Proof. unfold ahead. destruct side; apply _. Defined.

#[export] Instance ahead_total : Total ahead.
Proof. intros i j. unfold ahead. destruct side; lia. Qed.

#[export] Instance ahead_trans : Transitive ahead.
Proof. intros i j k. unfold ahead. destruct side; lia. Qed.

(** What iteration yields for fixed leaves [fs] and pegged leaves [os], both in the
    order of their trees. *)
Definition items_of (fs os : list (NodeHandle * LeafNode)) : list BookSideIterItem :=
  list_merge ahead (pegged_item <$> os) (fixed_item <$> fs).

End items.

(** The price of a fixed order is a positive [i64]. *)
Definition fixed_ok (l : LeafNode) : Prop := 1 <= price_data l <= I64_MAX.

(** ** Ranking *)

Lemma price_data_u64 l : is_u64 (price_data l).
Proof. unfold price_data, as_u64. pose proof (Z.mod_pos_bound (Z.shiftr (leaf_key l) 64) (2 ^ 64)). mlia. Qed.

Lemma leaf_key_split l : is_u128 (leaf_key l) ->
  leaf_key l = price_data l * 2 ^ 64 + leaf_key l mod 2 ^ 64.
Proof.
  intros H. unfold price_data, as_u64. rewrite Z.shiftr_div_pow2 by lia.
  pose proof (Z.div_mod (leaf_key l) (2 ^ 64)) as D.
  rewrite Z.mod_small; [lia|]. split; [apply Z.div_pos; mlia|].
  apply Z.div_lt_upper_bound; mlia.
Qed.

Lemma ekey_fixed now_ts x : leaf_ok x.2 -> ekey (fixed_item now_ts x) = leaf_key x.2.
Proof. intros []. unfold ekey. simpl. by rewrite <- leaf_key_split. Qed.

Lemma oracle_pegged_price_ok opl l side :
  is_i64 opl ->
  oracle_pegged_price opl l side
  = if representable opl l
    then (if past_peg_limit side opl l then Invalid else Valid, pegged_sum opl l)
    else (Skipped, Z.max 1 (Z.min I64_MAX (pegged_sum opl l))).
Proof.
  intros Ho. unfold oracle_pegged_price, representable, past_peg_limit, saturating_add_i64.
  rewrite oracle_pegged_price_offset_val by apply price_data_u64.
  change (opl + (price_data l - 2 ^ 63)) with (pegged_sum opl l).
  set (p := pegged_sum opl l).
  destruct (Z.leb_spec 1 p) as [L1|L1]; simpl.
  - destruct (Z.ltb_spec p I64_MAX) as [L2|L2].
    + replace (Z.max I64_MIN (Z.min I64_MAX p)) with p by mlia.
      rewrite (proj2 (Z.leb_le 1 p)), (proj2 (Z.ltb_lt p I64_MAX)) by lia. simpl.
      by destruct (_ && _).
    + replace (Z.max I64_MIN (Z.min I64_MAX p)) with I64_MAX by mlia. simpl. f_equal. mlia.
  - replace (1 <=? Z.max I64_MIN (Z.min I64_MAX p)) with false by (symmetry; mlia).
    simpl. f_equal. mlia.
Qed.

Lemma is_expired_ok l now_ts : leaf_ok l -> is_expired l now_ts = Done (expired now_ts l).
Proof.
  intros []. unfold is_expired, expired. destruct (0 <? time_in_force l) eqn:E; [|done].
  rewrite u64_ok by mlia. done.
Qed.

Lemma fixed_price_lots_ok l : fixed_ok l -> fixed_price_lots (price_data l) = Done (price_data l).
Proof.
  intros [H1 H2]. unfold fixed_price_lots, assert_, as_i64.
  rewrite (proj2 (Z.leb_le (price_data l) I64_MAX)) by lia. run.
  rewrite Z.mod_small by mlia. by rewrite (proj2 (Z.leb_le (price_data l) I64_MAX)) by lia.
Qed.

Lemma fixed_to_result_ok now_ts x :
  leaf_ok x.2 -> fixed_ok x.2 -> fixed_to_result x now_ts = Done (fixed_item now_ts x).
Proof.
  destruct x as [h l]. intros Hl Hf. unfold fixed_to_result.
  rewrite is_expired_ok, fixed_price_lots_ok by done. done.
Qed.

Lemma ekey_pegged side now_ts opl x :
  leaf_ok x.2 -> ekey (pegged_item side now_ts opl x) = leaf_key x.2 + (opl - 2 ^ 63) * 2 ^ 64.
Proof.
  intros []. unfold ekey, pegged_sum. simpl.
  rewrite (leaf_key_split x.2) at 2 by done. unfold pegged_sum. lia.
Qed.

(** The pegged order with the price and state [rank_orders] computes. *)
Definition enrich (side : Side) (opl : Z) (x : NodeHandle * LeafNode) :=
  (x.1, x.2, (oracle_pegged_price opl x.2 side).2, (oracle_pegged_price opl x.2 side).1).

Lemma oracle_pegged_to_result_ok side now_ts opl x :
  leaf_ok x.2 -> is_i64 opl -> representable opl x.2 = true ->
  oracle_pegged_to_result (enrich side opl x) now_ts = Done (pegged_item side now_ts opl x).
Proof.
  destruct x as [h l]. intros Hl Ho Hr. unfold oracle_pegged_to_result, enrich. simpl in *.
  rewrite is_expired_ok by done. rewrite oracle_pegged_price_ok, Hr by done.
  run. unfold pegged_item. simpl. do 2 f_equal. by destruct (expired now_ts l), (past_peg_limit _ _ _).
Qed.

Lemma key_for_fixed_price_ok k p :
  1 <= p <= I64_MAX -> key_for_fixed_price k p = Done (p * 2 ^ 64 + k mod 2 ^ 64).
Proof.
  intros Hp. unfold key_for_fixed_price, assert_, fixed_price_data, require.
  rewrite (proj2 (Z.leb_le 1 p)) by lia. run.
  unfold as_u64. rewrite (Z.mod_small p) by mlia.
  rewrite lor_shiftl_add; [done|lia|]. by apply Z.mod_pos_bound.
Qed.

Section rank.
Context (side : Side) (now_ts opl : Z).
Hypothesis opl_ok : is_i64 opl.

Abbreviation PI := (pegged_item side now_ts opl).
Abbreviation FI := (fixed_item now_ts).

Lemma rank_both f o :
  leaf_ok f.2 -> fixed_ok f.2 -> leaf_ok o.2 -> representable opl o.2 = true ->
  rank_orders side (Some f) (Some o) false now_ts opl
  = Done (Some (if decide (ahead side (PI o) (FI f)) then PI o else FI f)).
Proof.
  intros Hf Hff Ho Hr. unfold rank_orders. simpl. destruct o as [ho lo]. simpl in *.
  pose proof (oracle_pegged_to_result_ok side now_ts opl (ho, lo) Ho opl_ok Hr) as Eo.
  unfold enrich in Eo. simpl in Eo. destruct (oracle_pegged_price opl lo side) as [st p] eqn:E.
  rewrite oracle_pegged_price_ok, Hr in E by done. injection E as <- <-. simpl in *.
  unfold representable in Hr. bool_to_prop.
  rewrite key_for_fixed_price_ok by mlia. run.
  pose proof (ekey_fixed now_ts f Hf) as Ef. rewrite Eo, fixed_to_result_ok by done. run.
  rewrite xorb_false_r.
  assert (Ep : ekey (PI (ho, lo)) = pegged_sum opl lo * 2 ^ 64 + leaf_key lo mod 2 ^ 64) by done.
  rewrite <- Ep, <- Ef. clear Eo.
  destruct (decide _) as [D|D]; unfold ahead in D; destruct side; case_match;
    bool_to_prop; (done || lia).
Qed.

Lemma rank_fixed f :
  leaf_ok f.2 -> fixed_ok f.2 -> rank_orders side (Some f) None false now_ts opl = Done (Some (FI f)).
Proof. intros. unfold rank_orders. simpl. by rewrite fixed_to_result_ok. Qed.

Lemma rank_pegged o :
  leaf_ok o.2 -> representable opl o.2 = true ->
  rank_orders side None (Some o) false now_ts opl = Done (Some (PI o)).
Proof.
  intros Ho Hr. unfold rank_orders.
  pose proof (oracle_pegged_to_result_ok side now_ts opl o Ho opl_ok Hr) as Eo.
  destruct o as [ho lo]. unfold enrich in Eo. simpl in *.
  destruct (oracle_pegged_price opl lo side). simpl in *. by rewrite Eo.
Qed.

End rank.

(** ** Iteration *)

Section iterate.
Context (a : OrderTreeNodes) (left : bool) (now_ts opl : Z).
Hypothesis opl_ok : is_i64 opl.

Definition leaf_fixed_ok (x : NodeHandle * LeafNode) : Prop := leaf_ok x.2 /\ fixed_ok x.2.

Definition leaf_pegged (r : bool) (x : NodeHandle * LeafNode) : Prop :=
  leaf_ok x.2 /\ representable opl x.2 = r.

(** The iterator is about to yield the fixed leaves [fs] and the pegged leaves [os];
    the unrepresentable pegged leaves [sk] all come after the representable ones. *)
Definition bs_iter_rep (it : BookSideIter) (fs os sk : list (NodeHandle * LeafNode)) : Prop :=
  iter_rep a left (fixed_iter it) fs /\ iter_rep a left (oracle_pegged_iter it) (os ++ sk) /\
  bi_now_ts it = now_ts /\ bi_oracle_price_lots it = opl /\
  Forall leaf_fixed_ok fs /\ Forall (leaf_pegged true) os /\ Forall (leaf_pegged false) sk.

Abbreviation side := (if left then Bid else Ask).
Abbreviation ITEMS := (items_of side now_ts opl).

Lemma pegged_state_skipped r x :
  leaf_pegged r x -> (oracle_pegged_price opl x.2 side).1 <> Skipped <-> r = true.
Proof.
  intros [_ H]. rewrite oracle_pegged_price_ok, H by done.
  destruct r; simpl; [|split; congruence]. split; [done|]. by destruct (past_peg_limit _ _ _).
Qed.

Lemma iter_peek_ok it ls : iter_rep a left it ls -> iter_peek it = head ls.
Proof. intros (_ & _ & H). unfold iter_peek. destruct ls; simpl; [done|apply H]. Qed.

(** A run of unrepresentable orders at the end is skipped entirely. The order in
    [o_peek] is either the one the iterator stands on or the one before it. *)
Lemma skip_pegged_all : forall sk it fuel x,
  iter_rep a left it sk -> Forall (leaf_pegged false) sk -> leaf_pegged false x ->
  (length sk + 2 <= fuel)%nat ->
  exists it', skip_pegged fuel opl side it (Some x) = Done (it', None) /\ iter_rep a left it' [].
Proof.
  induction sk as [|y sk IH]; intros it fuel x R F Hx Hf;
    (destruct fuel as [|fuel]; [simpl in Hf; lia|]); cbn [skip_pegged]; destruct x as [hx lx];
    (rewrite bool_decide_false by (rewrite (pegged_state_skipped _ _ Hx); done));
    destruct (iter_next_ok _ _ _ _ R) as (it' & -> & R'); run; simpl in R', Hf |- *.
  - destruct fuel as [|fuel]; [lia|]. simpl. by exists it'.
  - apply Forall_cons_1 in F as [Hy F]. apply IH; [done|done|done|lia].
Qed.

Lemma skip_pegged_ok it os sk fuel :
  iter_rep a left it (os ++ sk) -> Forall (leaf_pegged true) os -> Forall (leaf_pegged false) sk ->
  (length sk + 2 <= fuel)%nat ->
  exists it' sk', skip_pegged fuel opl side it (iter_peek it) = Done (it', head os) /\
    iter_rep a left it' (os ++ sk') /\ Forall (leaf_pegged false) sk' /\
    (length sk' <= length sk)%nat.
Proof.
  intros R Fo Fs Hf. rewrite (iter_peek_ok _ _ R). destruct os as [|o os].
  - destruct sk as [|s sk]; simpl.
    + destruct fuel as [|fuel]; [simpl in Hf; lia|]. simpl. exists it, []. done.
    + apply Forall_cons_1 in Fs as Fs'. destruct Fs' as [Hs _].
      destruct (skip_pegged_all (s :: sk) it fuel s R Fs Hs Hf) as (it' & -> & R').
      exists it', []. split_and!; (done || simpl; lia).
  - destruct fuel as [|fuel]; [lia|]. apply Forall_cons_1 in Fo as [Ho Fo]. simpl.
    destruct o as [ho lo]. rewrite bool_decide_true by (by apply (pegged_state_skipped _ _ Ho)).
    by exists it, sk.
Qed.

Lemma iter_side_ok it ls : iter_rep a left it ls -> iter_side it = side.
Proof. intros (_ & E & _). unfold iter_side. by rewrite E. Qed.

Lemma bs_iter_next_ok it fs os sk :
  bs_iter_rep it fs os sk -> (length sk <= MAX_ORDERTREE_NODES)%nat ->
  exists it' fs' os' sk',
    bs_iter_next it = Done (head (ITEMS fs os), it') /\ bs_iter_rep it' fs' os' sk' /\
    (length sk' <= MAX_ORDERTREE_NODES)%nat /\ ITEMS fs' os' = tail (ITEMS fs os).
Proof.
  intros (Rf & Ro & En & Eo & Ff & Fo & Fs) Hsk. unfold bs_iter_next.
  rewrite (iter_side_ok _ _ Rf), En, Eo.
  destruct (skip_pegged_ok _ _ _ SKIP_FUEL Ro Fo Fs) as (oit & sk' & -> & Ro' & Fs' & Hl);
    [unfold SKIP_FUEL; lia|]. run.
  rewrite (iter_peek_ok _ _ Rf). unfold items_of.
  destruct os as [|o os], fs as [|f fs]; cbn [head].
  - exists (mkBookSideIter (fixed_iter it) oit now_ts opl), [], [], sk'.
    split_and!; [done|unfold bs_iter_rep; naive_solver|lia|done].
  - apply Forall_cons_1 in Ff as [[Hf1 Hf2] Ff]. rewrite rank_fixed by done. run. simpl.
    destruct (iter_next_ok _ _ _ _ Rf) as (fit & -> & Rf'). run. simpl in Rf'.
    eexists _, fs, [], sk'. split_and!; [done|unfold bs_iter_rep; naive_solver|lia|apply list_merge_nil_l].
  - apply Forall_cons_1 in Fo as [[Ho1 Ho2] Fo]. rewrite rank_pegged by done. run. simpl.
    destruct (iter_next_ok _ _ _ _ Ro') as (oit' & -> & Ro''). run. simpl in Ro''.
    eexists _, [], os, sk'. split_and!; [done|unfold bs_iter_rep; naive_solver|lia|].
    apply list_merge_nil_r.
  - destruct (Forall_cons_1 _ _ _ Ff) as [[Hf1 Hf2] Ff'].
    destruct (Forall_cons_1 _ _ _ Fo) as [[Ho1 Ho2] Fo'].
    rewrite rank_both, !fmap_cons, list_merge_cons by done. run.
    case_decide; cbn [head tail bh_order_tree item_handle fixed_item pegged_item].
    + destruct (iter_next_ok _ _ _ _ Ro') as (oit' & -> & Ro''). run. simpl in Ro''.
      eexists _, (f :: fs), os, sk'. split_and!; [done|unfold bs_iter_rep; naive_solver|lia|done].
    + destruct (iter_next_ok _ _ _ _ Rf) as (fit & -> & Rf'). run. simpl in Rf'.
      eexists _, fs, (o :: os), sk'. split_and!; [done|unfold bs_iter_rep; naive_solver|lia|done].
Qed.

(** A [for] loop over a list, with the loop bodies of [bs_iter_for]. *)
Fixpoint list_for {St R} (xs : list BookSideIterItem) (s : St)
    (body : St -> BookSideIterItem -> outcome (flow St R)) : outcome (flow St R) :=
  match xs with
  | [] => Done (Continue s)
  | x :: xs =>
      c ← body s x;
      match c with
      | Continue s => list_for xs s body
      | Break r => Done (Break r)
      end
  end.

Lemma bs_iter_for_ok {St R} (body : St -> BookSideIterItem -> outcome (flow St R)) :
  forall fuel it fs os sk s,
  bs_iter_rep it fs os sk -> (length sk <= MAX_ORDERTREE_NODES)%nat ->
  (length (ITEMS fs os) < fuel)%nat ->
  bs_iter_for fuel it s body = list_for (ITEMS fs os) s body.
Proof.
  induction fuel as [|fuel IH]; intros it fs os sk s H Hs Hf; [lia|]. cbn [bs_iter_for].
  destruct (bs_iter_next_ok it fs os sk H Hs) as (it' & fs' & os' & sk' & -> & H' & Hs' & E). run.
  destruct (ITEMS fs os) as [|x xs]; [done|]. cbn [head list_for tail] in *.
  destruct (body s x) as [[s'|r]| | |]; try done. run. rewrite <- E. eapply IH; [done|done|].
  rewrite E. simpl in Hf. lia.
Qed.

End iterate.

(** ** The items of a well-formed side *)

Lemma filter_prefix {A} (R : A -> A -> Prop) (P : A -> Prop) `{forall x, Decision (P x)} ls :
  StronglySorted R ls -> (forall x y, x ∈ ls -> y ∈ ls -> R x y -> P y -> P x) ->
  ls = filter P ls ++ filter (fun x => ~ P x) ls.
Proof.
  induction 1 as [|x ls S IH F]; intros HP; [done|].
  rewrite !filter_cons. destruct (decide (P x)) as [Hx|Hx].
  - rewrite decide_False by tauto. simpl. f_equal. apply IH. intros; eapply HP; eauto; by right.
  - rewrite decide_True by done.
    assert (Hn : filter P ls = []).
    { destruct (filter P ls) as [|y ys] eqn:E; [done|]. destruct Hx.
      assert (Hy : y ∈ filter P ls) by (rewrite E; by left).
      apply list_elem_of_filter in Hy as [Py Hy]. rewrite Forall_forall in F.
      apply (HP x y); [by left|by right|by apply F|done]. }
    rewrite Hn in *. simpl in *. f_equal. apply IH. intros; eapply HP; eauto; by right.
Qed.

Lemma StronglySorted_filter {A} (R : A -> A -> Prop) (P : A -> Prop) `{forall x, Decision (P x)} ls :
  StronglySorted R ls -> StronglySorted R (filter P ls).
Proof.
  induction 1 as [|x ls S IH F]; [constructor|]. rewrite filter_cons. case_decide; [|done].
  constructor; [done|]. rewrite Forall_forall in F |- *. intros y [_ Hy]%list_elem_of_filter. auto.
Qed.

(** Mapping a sorted list with a function that is monotone on its elements. *)
Lemma StronglySorted_map {A B} (R : A -> A -> Prop) (R' : B -> B -> Prop) (f : A -> B) ls :
  (forall x y, x ∈ ls -> y ∈ ls -> R x y -> R' (f x) (f y)) ->
  StronglySorted R ls -> StronglySorted R' (f <$> ls).
Proof.
  intros Hf S. induction S as [|x ls S IH F]; [constructor|]. constructor.
  - apply IH. intros; apply Hf; [by right..|done].
  - rewrite Forall_forall in F. apply Forall_fmap, Forall_forall. intros y Hy. simpl.
    apply Hf; [by left|by right|auto].
Qed.

Definition bs_left (b : BookSide) : bool :=
  match order_tree_type (bs_nodes b) with Bids => true | Asks => false end.

Lemma bs_left_side b : (if bs_left b then Bid else Ask) = bs_side b.
Proof. unfold bs_left, bs_side. by destruct (order_tree_type (bs_nodes b)). Qed.

Definition component_leaves (b : BookSide) (T : BookSideOrderTree -> option tree) c :=
  odleaves (bs_left b) (T c).

(** What iteration over the side yields. *)
Definition book_items (b : BookSide) (T : BookSideOrderTree -> option tree)
    (now_ts opl : Z) : list BookSideIterItem :=
  items_of (bs_side b) now_ts opl (component_leaves b T Fixed)
    (filter (fun x => representable opl x.2 = true) (component_leaves b T OraclePegged)).

(** No pegged order lies before the representable ones in iteration order: no ask is
    priced below 1, no bid at or above [i64::MAX]. *)
Definition no_leading_skip (side : Side) (opl : Z) (l : LeafNode) : Prop :=
  match side with Bid => pegged_sum opl l < I64_MAX | Ask => 1 <= pegged_sum opl l end.

(** No order of the side makes the iterator skip orders at its start, which loses one of the
    others ([BookSideQueries.skipping_loses_orders]). *)
Definition no_skipped_orders (b : BookSide) (M : BookSideOrderTree -> gmap Z LeafNode) (opl : Z) : Prop :=
  forall k l, M OraclePegged !! k = Some l -> no_leading_skip (bs_side b) opl l.

(** The fixed orders have prices that an order can be placed at. *)
Definition fixed_orders_ok (M : BookSideOrderTree -> gmap Z LeafNode) : Prop :=
  forall k l, M Fixed !! k = Some l -> fixed_ok l.

(** The conditions under which iteration yields every order that can be matched. *)
Record prices_ok (b : BookSide) (M : BookSideOrderTree -> gmap Z LeafNode) (opl : Z) : Prop := {
  po_oracle : is_i64 opl;
  po_fixed : fixed_orders_ok M;
  po_pegged : no_skipped_orders b M opl
}.

Lemma elem_odleaves left ot x : x ∈ odleaves left ot <-> x ∈ oleaves ot.
Proof. unfold odleaves. destruct left; [apply elem_of_reverse|done]. Qed.

Lemma oleaves_otmap ot x : owf ot -> x ∈ oleaves ot -> otmap ot !! leaf_key x.2 = Some x.2.
Proof.
  destruct ot as [t|]; simpl; [|set_solver]. intros W Hx. apply omap_of_Some.
  - by eapply sorted_NoDup, wf_sorted.
  - unfold tleaves. apply list_elem_of_fmap. eauto.
Qed.

Lemma otmap_oleaves ot k l : otmap ot !! k = Some l -> leaf_key l = k /\ exists h, (h, l) ∈ oleaves ot.
Proof.
  destruct ot as [t|]; simpl; [|by rewrite lookup_empty]. intros H.
  apply omap_of_elem in H as [H E]. split; [done|]. unfold tleaves in H.
  apply list_elem_of_fmap in H as ([h l'] & -> & H). eauto.
Qed.

Lemma oleaves_leaf_ok ot x : owf ot -> x ∈ oleaves ot -> leaf_ok x.2.
Proof.
  destruct ot as [t|]; simpl; [|set_solver]. intros W%wf_leaf_ok Hx. rewrite Forall_forall in W.
  apply W. unfold tleaves. apply list_elem_of_fmap. eauto.
Qed.

Lemma odleaves_length a ot R fl left :
  heap_inv a (ohandles ot ++ R) fl ->
  (length (odleaves left ot) <= length (ohandles ot))%nat.
Proof.
  intros H. destruct ot as [t|]; [|unfold odleaves; by destruct left].
  pose proof (leaves_le_handles t) as Hle. unfold tleaves in Hle. rewrite length_fmap in Hle.
  unfold odleaves. simpl. destruct left; rewrite ?length_reverse; lia.
Qed.

(** Better keys have price data that is at least as good. *)
Lemma price_data_mono l1 l2 :
  is_u128 (leaf_key l1) -> is_u128 (leaf_key l2) -> leaf_key l1 < leaf_key l2 ->
  price_data l1 <= price_data l2.
Proof.
  intros H1 H2 L. rewrite (leaf_key_split l1 H1), (leaf_key_split l2 H2) in L.
  pose proof (Z.mod_pos_bound (leaf_key l1) (2 ^ 64)). pose proof (Z.mod_pos_bound (leaf_key l2) (2 ^ 64)).
  lia.
Qed.

(** The current price of an order, and whether it can be matched. *)
Definition order_price (opl : Z) (c : BookSideOrderTree) (l : LeafNode) : Z :=
  match c with Fixed => price_data l | OraclePegged => pegged_sum opl l end.

Definition order_listed (opl : Z) (c : BookSideOrderTree) (l : LeafNode) : bool :=
  match c with Fixed => true | OraclePegged => representable opl l end.

Definition order_valid (side : Side) (now_ts opl : Z) (c : BookSideOrderTree) (l : LeafNode) : bool :=
  negb (expired now_ts l) &&
  match c with Fixed => true | OraclePegged => negb (past_peg_limit side opl l) end.

Definition item_tree (i : BookSideIterItem) : BookSideOrderTree := bh_order_tree (item_handle i).

(** [items] lists the orders of the maps [M] in the order they are matched. *)
Record items_spec (side : Side) (M : BookSideOrderTree -> gmap Z LeafNode) (now_ts opl : Z)
    (items : list BookSideIterItem) : Prop := {
  is_sorted : StronglySorted (ahead side) items;
  is_elem : forall c l,
    (exists i, i ∈ items /\ item_tree i = c /\ item_node i = l) <->
    M c !! leaf_key l = Some l /\ order_listed opl c l = true;
  is_nodup : NoDup ((fun i => (item_tree i, leaf_key (item_node i))) <$> items);
  is_item : forall i, i ∈ items ->
    item_price_lots i = order_price opl (item_tree i) (item_node i) /\
    item_state i = if order_valid side now_ts opl (item_tree i) (item_node i) then Valid else Invalid
}.

Section book_items.
Context (b : BookSide) (T : BookSideOrderTree -> option tree) (fl : list NodeHandle)
  (M : BookSideOrderTree -> gmap Z LeafNode) (now_ts opl : Z).
Hypothesis (HI : book_inv b T fl) (HM : forall c, otmap (T c) = M c) (HP : prices_ok b M opl).

Lemma component_owf c : owf (T c).
Proof. apply (HI c). Qed.

Lemma elem_component c x : x ∈ component_leaves b T c <-> x ∈ oleaves (T c).
Proof. apply elem_odleaves. Qed.

Lemma component_lookup c x : x ∈ component_leaves b T c -> M c !! leaf_key x.2 = Some x.2.
Proof. rewrite elem_component, <- HM. apply oleaves_otmap, component_owf. Qed.

Lemma component_leaf_ok c x : x ∈ component_leaves b T c -> leaf_ok x.2.
Proof. rewrite elem_component. apply oleaves_leaf_ok, component_owf. Qed.

Lemma component_sorted c :
  StronglySorted (fun x y => key_before (bs_side b) (leaf_key x.2) (leaf_key y.2))
    (component_leaves b T c).
Proof.
  pose proof (odleaves_sorted (T c) (bs_side b) (component_owf c)) as S.
  unfold component_leaves, bs_left. unfold bs_side in *. by destruct (order_tree_type (bs_nodes b)).
Qed.

(** The pegged leaves with unrepresentable prices all come last. *)
Lemma pegged_prefix :
  component_leaves b T OraclePegged
  = filter (fun x => representable opl x.2 = true) (component_leaves b T OraclePegged) ++
    filter (fun x => ~ representable opl x.2 = true) (component_leaves b T OraclePegged).
Proof.
  apply (filter_prefix (fun x y => key_before (bs_side b) (leaf_key x.2) (leaf_key y.2)));
    [apply component_sorted|].
  intros x y Hx Hy Hk Hr. unfold representable in *. bool_to_prop.
  pose proof (po_pegged _ _ _ HP _ _ (component_lookup _ _ Hx)) as Hpx.
  destruct (component_leaf_ok _ _ Hx) as [Kx _ _ _], (component_leaf_ok _ _ Hy) as [Ky _ _ _].
  unfold no_leading_skip, pegged_sum, key_before in *. destruct (bs_side b).
  - pose proof (price_data_mono _ _ Ky Kx Hk). lia.
  - pose proof (price_data_mono _ _ Kx Ky Hk). lia.
Qed.

Lemma component_length : (length (component_leaves b T Fixed) +
  length (component_leaves b T OraclePegged) <= MAX_ORDERTREE_NODES)%nat.
Proof.
  destruct (HI Fixed) as (H & _). destruct (HI OraclePegged) as (H' & _).
  pose proof (odleaves_length _ _ _ _ (bs_left b) H). pose proof (odleaves_length _ _ _ _ (bs_left b) H').
  pose proof (heap_used_bound H) as Hub. rewrite length_app in Hub.
  unfold component_leaves. simpl in *. lia.
Qed.

Lemma book_items_length : (length (book_items b T now_ts opl) <= MAX_ORDERTREE_NODES)%nat.
Proof.
  unfold book_items, items_of. rewrite merge_Permutation, length_app, !length_fmap.
  pose proof component_length.
  pose proof (length_filter (fun x => representable opl x.2 = true) (component_leaves b T OraclePegged)).
  lia.
Qed.

(** Every loop over the side is a loop over [book_items]. *)
Lemma for_all_items {St R} (s : St) (body : St -> BookSideIterItem -> outcome (flow St R)) :
  for_all_including_invalid b now_ts opl s body = list_for (book_items b T now_ts opl) s body.
Proof.
  unfold for_all_including_invalid, bs_iter_new.
  destruct (HI Fixed) as (Hf & Rf & Wf & Tf). destruct (HI OraclePegged) as (Ho & Ro & Wo & To).
  destruct (iter_new_ok _ _ _ Rf Wf Tf) as (fit & -> & If).
  destruct (iter_new_ok _ _ _ Ro Wo To) as (oit & -> & Io). run.
  change (match order_tree_type (bs_nodes b) with Bids => true | Asks => false end)
    with (bs_left b) in *.
  pose proof pegged_prefix as Hpre. unfold component_leaves at 1 in Hpre. rewrite Hpre in Io.
  unfold book_items. rewrite <- bs_left_side.
  eapply (bs_iter_for_ok (bs_nodes b) (bs_left b) now_ts opl (po_oracle _ _ _ HP)).
  - split_and!; try done; apply Forall_forall.
    + intros x Hx. split; [by eapply component_leaf_ok|].
      by eapply (po_fixed _ _ _ HP), component_lookup.
    + intros x [Hr Hx]%list_elem_of_filter. split; [by eapply component_leaf_ok|done].
    + intros x [Hr Hx]%list_elem_of_filter. split; [by eapply component_leaf_ok|].
      by apply not_true_is_false.
  - pose proof component_length.
    pose proof (length_filter (fun x => ~ representable opl x.2 = true)
      (component_leaves b T OraclePegged)). lia.
  - pose proof book_items_length as Hl. unfold book_items in Hl. rewrite <- bs_left_side in Hl.
    unfold ITER_FUEL. lia.
Qed.

Lemma book_items_sorted : StronglySorted (ahead (bs_side b)) (book_items b T now_ts opl).
Proof.
  apply (Sorted_StronglySorted _), (Sorted_list_merge _); apply StronglySorted_Sorted.
  - eapply StronglySorted_map; [|apply StronglySorted_filter, component_sorted].
    intros x y [_ Hx]%list_elem_of_filter [_ Hy]%list_elem_of_filter Hk. unfold ahead.
    rewrite !ekey_pegged by by eapply component_leaf_ok. unfold key_before in Hk.
    destruct (bs_side b); lia.
  - eapply StronglySorted_map; [|apply component_sorted].
    intros x y Hx Hy Hk. unfold ahead.
    rewrite !ekey_fixed by by eapply component_leaf_ok. unfold key_before in Hk.
    destruct (bs_side b); lia.
Qed.

(** Where an item of the side comes from. *)
Lemma elem_book_items i :
  i ∈ book_items b T now_ts opl <->
  exists x, (x ∈ component_leaves b T (item_tree i)) /\ order_listed opl (item_tree i) x.2 = true /\
    i = mkItem (mkHandle x.1 (item_tree i)) x.2 (order_price opl (item_tree i) x.2)
          (if order_valid (bs_side b) now_ts opl (item_tree i) x.2 then Valid else Invalid).
Proof.
  unfold book_items, items_of. rewrite merge_Permutation, elem_of_app, !list_elem_of_fmap.
  split.
  - intros [(x & -> & [Hr Hx]%list_elem_of_filter) | (x & -> & Hx)]; exists x; split_and!; try done;
      unfold pegged_item, fixed_item; simpl; f_equal; unfold order_valid;
      destruct (expired now_ts x.2), (past_peg_limit (bs_side b) opl x.2); done.
  - intros (x & Hx & Hl & ->). unfold item_tree in *. simpl in *.
    destruct (bh_order_tree (item_handle i)); [right|left]; exists x; split;
      try (apply list_elem_of_filter; done); try done;
      unfold pegged_item, fixed_item; simpl; f_equal; unfold order_valid; simpl;
      destruct (expired now_ts x.2), (past_peg_limit (bs_side b) opl x.2); done.
Qed.

Lemma component_NoDup c : NoDup ((fun x => leaf_key x.2) <$> component_leaves b T c).
Proof.
  pose proof (component_sorted c) as S. induction S as [|x ls S IH F]; [constructor|]. simpl.
  constructor; [|done]. rewrite list_elem_of_fmap. intros (y & E & Hy).
  rewrite Forall_forall in F. specialize (F y Hy). unfold key_before in F.
  destruct (bs_side b); lia.
Qed.

Lemma book_items_NoDup :
  NoDup ((fun i => (item_tree i, leaf_key (item_node i))) <$> book_items b T now_ts opl).
Proof.
  unfold book_items, items_of. rewrite merge_Permutation, fmap_app, <- !list_fmap_compose.
  apply NoDup_app. split_and!.
  - apply (NoDup_fmap_1 snd). rewrite <- list_fmap_compose.
    eapply sublist_NoDup; [apply (component_NoDup OraclePegged)|].
    apply fmap_sublist, sublist_filter.
  - intros ? (x & -> & _)%list_elem_of_fmap (y & E & _)%list_elem_of_fmap. done.
  - apply (NoDup_fmap_1 snd). rewrite <- list_fmap_compose. apply (component_NoDup Fixed).
Qed.

Lemma book_items_spec : items_spec (bs_side b) M now_ts opl (book_items b T now_ts opl).
Proof.
  constructor.
  - apply book_items_sorted.
  - intros c l. split.
    + intros (i & (x & Hx & Hl & ->)%elem_book_items & <- & <-). simpl in *.
      split; [by apply component_lookup|done].
    + intros [Hm Hl]. rewrite <- HM in Hm. apply otmap_oleaves in Hm as [_ [h Hh]].
      exists (mkItem (mkHandle h c) l (order_price opl c l)
        (if order_valid (bs_side b) now_ts opl c l then Valid else Invalid)).
      split_and!; [|done|done]. apply elem_book_items. exists (h, l).
      split_and!; [by apply elem_component|done|done].
  - apply book_items_NoDup.
  - intros i (x & Hx & Hl & E)%elem_book_items. rewrite E. done.
Qed.

End book_items.

Lemma list_for_collect {R} : forall items acc,
  list_for items acc (fun xs x => Done (Continue (x :: xs)))
  = Done (Continue (R := R) (reverse items ++ acc)).
Proof.
  induction items as [|x items IH]; intros acc; [done|]. cbn [list_for]. run. rewrite IH.
  by rewrite reverse_cons, <- app_assoc.
Qed.

(** Every loop over a side runs over a list that satisfies [items_spec]. *)
Lemma book_loops b M now_ts opl :
  bs_rep b M -> prices_ok b M opl ->
  exists items, items_spec (bs_side b) M now_ts opl items /\
    iter_all_including_invalid b now_ts opl = Done items /\
    forall St R (s : St) (body : St -> BookSideIterItem -> outcome (flow St R)),
      for_all_including_invalid b now_ts opl s body = list_for items s body.
Proof.
  intros (T & fl & HI & HM) HP. exists (book_items b T now_ts opl). split_and!.
  - by eapply book_items_spec.
  - unfold iter_all_including_invalid. erewrite for_all_items by done.
    rewrite list_for_collect. run. by rewrite app_nil_r, reverse_involutive.
  - intros. by erewrite for_all_items.
Qed.

(** C36: iterating a book side yields every order whose price is currently
    representable exactly once, from both trees, in the order of matching (best
    current price first, then lowest sequence number), each with its current price and
    marked invalid exactly when it is expired or past its peg limit. It holds as long as
    no pegged order is priced before the representable range, an ask below 1 or a bid at
    [i64::MAX] or above: skipping such orders makes the iterator lose another one. *)
Theorem iter_all_including_invalid_sorted b M now_ts opl :
  bs_rep b M -> is_i64 opl -> fixed_orders_ok M -> no_skipped_orders b M opl ->
  exists items, iter_all_including_invalid b now_ts opl = Done items /\
    items_spec (bs_side b) M now_ts opl items.
Proof.
  intros HR Ho Hf Hp. destruct (book_loops b M now_ts opl HR (Build_prices_ok _ _ _ Ho Hf Hp)) as (items & ? & ? & _). eauto.
Qed.

(** ** A sample side: two fixed asks and a pegged one *)

Definition pegged_ask (offset seq_num : Z) : LeafNode :=
  leaf_new 0 (new_node_key Ask (oracle_pegged_price_data offset) seq_num) 7 5 1000 Limit 0 (-1) 0.

Definition fixed_ask (price seq_num : Z) : LeafNode :=
  leaf_new 0 (new_node_key Ask price seq_num) 7 5 1000 Limit 0 (-1) 0.

Definition sample_orders : list (BookSideOrderTree * LeafNode) :=
  [(Fixed, fixed_ask 101 1); (OraclePegged, pegged_ask (-30) 2); (Fixed, fixed_ask 15 3)].

Definition sample_maps : BookSideOrderTree -> gmap Z LeafNode := insert_maps (fun _ => ∅) sample_orders.

Definition sample_side : BookSide :=
  default (bookside_zeroed Asks) (insert_all (bookside_zeroed Asks) sample_orders).

Lemma sample_side_rep : bs_rep sample_side sample_maps.
Proof.
  eapply insert_all_rep; [apply (bs_rep_zeroed Asks)| |].
  - repeat constructor; vm_compute; (done || congruence).
  - vm_compute. reflexivity.
Qed.

#[export] Instance fixed_ok_dec l : Decision (fixed_ok l).
Proof. unfold fixed_ok. apply _. Defined.

#[export] Instance no_leading_skip_dec side opl l : Decision (no_leading_skip side opl l).
Proof. unfold no_leading_skip. destruct side; apply _. Defined.

(** Checking [prices_ok] by computation. *)
Lemma prices_ok_check b M opl :
  bool_decide (is_i64 opl /\ map_Forall (fun _ l => fixed_ok l) (M Fixed) /\
    map_Forall (fun _ l => no_leading_skip (bs_side b) opl l) (M OraclePegged)) = true ->
  prices_ok b M opl.
Proof. intros (? & Hf & Hp)%bool_decide_eq_true. by constructor. Qed.

Lemma sample_side_prices : prices_ok sample_side sample_maps 50.
Proof. apply prices_ok_check. vm_compute. reflexivity. Qed.

(** The witness of C36: the sample side at an oracle price of 50 lots. *)
Lemma iter_all_including_invalid_sorted_witness :
  exists items, iter_all_including_invalid sample_side 2000 50 = Done items /\
    items_spec Ask sample_maps 2000 50 items.
Proof.
  apply (iter_all_including_invalid_sorted sample_side sample_maps 2000 50).
  - apply sample_side_rep.
  - apply sample_side_prices.
  - apply sample_side_prices.
  - apply sample_side_prices.
Defined.

Example sample_side_order :
  (items ← iter_all_including_invalid sample_side 2000 50;
   Done (item_price_lots <$> (items : list _))) = Done [15; 20; 101].
Proof. vm_compute. reflexivity. Qed.
