(* ===== verification/BookSideQueries.v ===== *)
(** * One side of the book: the queries

    [best_price], [quantity_at_price], [impact_price], [matched_amount] and
    [matched_quantity] (bookside.rs) against declarative descriptions of what they
    return, and the orders that iteration loses when it has to skip some. *)

From stdpp Require Import base numbers gmap sorting functions list.
From Stdlib Require Import ZArith Lia.
From S2P Require Import Prelude OrderTypes Nodes OrderTree OrderTreeSpec OrderTreeArena OrderTreeInsert OrderTreeRemove OrderTreeIter BookSide BookSideSpec BookSideIterate.

Open Scope Z_scope.

(** ** Loops over the valid orders *)

Definition valid_items (items : list BookSideIterItem) : list BookSideIterItem :=
  filter (fun i => item_is_valid i = true) items.

Lemma list_for_valid {St R} (body : St -> BookSideIterItem -> outcome (flow St R)) :
  forall items s,
  list_for items s (fun s x => if item_is_valid x then body s x else Done (Continue s))
  = list_for (valid_items items) s body.
Proof.
  induction items as [|x items IH]; intros s; [done|]. unfold valid_items in *.
  cbn [list_for]. rewrite filter_cons. destruct (item_is_valid x); simpl.
  - destruct (body s x) as [[s'|r]| | |]; try done. run. apply IH.
  - run. apply IH.
Qed.

Lemma valid_loops b M now_ts opl :
  bs_rep b M -> prices_ok b M opl ->
  exists items, items_spec (bs_side b) M now_ts opl items /\
    iter_all_including_invalid b now_ts opl = Done items /\
    forall St R (s : St) (body : St -> BookSideIterItem -> outcome (flow St R)),
      for_valid b now_ts opl s body = list_for (valid_items items) s body.
Proof.
  intros HR HP. destruct (book_loops b M now_ts opl HR HP) as (items & S & E & F).
  exists items. split_and!; [done|done|]. intros. unfold for_valid. by rewrite F, list_for_valid.
Qed.

(** An order that can be matched now, at price [p]. *)
Definition matchable (side : Side) (M : BookSideOrderTree -> gmap Z LeafNode) (now_ts opl : Z)
    (c : BookSideOrderTree) (l : LeafNode) (p : Z) : Prop :=
  M c !! leaf_key l = Some l /\ order_listed opl c l = true /\
  order_valid side now_ts opl c l = true /\ order_price opl c l = p.

Lemma valid_items_matchable side M now_ts opl items :
  items_spec side M now_ts opl items ->
  forall i, i ∈ valid_items items ->
    matchable side M now_ts opl (item_tree i) (item_node i) (item_price_lots i).
Proof.
  intros S i [Hv Hi]%list_elem_of_filter. destruct (is_item _ _ _ _ _ S i Hi) as [Hp Hs].
  destruct (proj1 (is_elem _ _ _ _ _ S (item_tree i) (item_node i))) as [Hm Hl]; [eauto|].
  unfold item_is_valid in Hv. rewrite bool_decide_eq_true, Hs in Hv.
  repeat split; try done. by destruct (order_valid _ _ _ _ _).
Qed.

Lemma matchable_valid_items side M now_ts opl items c l p :
  items_spec side M now_ts opl items -> matchable side M now_ts opl c l p ->
  exists i, i ∈ valid_items items /\ item_node i = l /\ item_price_lots i = p.
Proof.
  intros S (Hm & Hl & Hv & Hp).
  destruct (proj2 (is_elem _ _ _ _ _ S c l)) as (i & Hi & <- & <-); [done|].
  destruct (is_item _ _ _ _ _ S i Hi) as [Hp' Hs]. exists i. split_and!; [|done|congruence].
  apply list_elem_of_filter. split; [|done]. unfold item_is_valid. rewrite Hs, Hv. done.
Qed.

(** Sorted items have prices that get no better. *)
Lemma ahead_price side i j : ahead side i j -> is_price_better side (item_price_lots j) (item_price_lots i) = false.
Proof.
  unfold ahead, ekey, is_price_better. intros H.
  pose proof (Z.mod_pos_bound (leaf_key (item_node i)) (2 ^ 64)).
  pose proof (Z.mod_pos_bound (leaf_key (item_node j)) (2 ^ 64)).
  destruct side; apply Z.ltb_ge; nia.
Qed.

Lemma valid_items_sorted side M now_ts opl items :
  items_spec side M now_ts opl items -> StronglySorted (ahead side) (valid_items items).
Proof. intros S. apply StronglySorted_filter, S. Qed.

(** Discharges positivity of the items of a concrete side. *)
Ltac sample_pos := repeat constructor; vm_compute; congruence.

(** ** The best price *)

Lemma best_price_ok b M now_ts opl :
  bs_rep b M -> prices_ok b M opl ->
  exists r, best_price b now_ts opl = Done r /\
    match r with
    | Some p =>
        (exists c l, matchable (bs_side b) M now_ts opl c l p) /\
        forall c l p', matchable (bs_side b) M now_ts opl c l p' ->
          is_price_better (bs_side b) p' p = false
    | None => forall c l p, ~ matchable (bs_side b) M now_ts opl c l p
    end.
Proof.
  intros HR HP. destruct (valid_loops b M now_ts opl HR HP) as (items & S & _ & F).
  unfold best_price. rewrite F. pose proof (valid_items_sorted _ _ _ _ _ S) as Hs.
  pose proof (valid_items_matchable _ _ _ _ _ S) as Hm.
  pose proof (fun c l p => matchable_valid_items _ _ _ _ _ c l p S) as Hv.
  destruct (valid_items items) as [|i xs]; cbn [list_for]; run.
  - exists None. split; [done|]. intros c l p (i & Hi & _)%Hv. set_solver.
  - exists (Some (item_price_lots i)). split; [done|]. split.
    + eexists _, _. apply Hm. by left.
    + intros c l p' (j & Hj & _ & <-)%Hv. apply StronglySorted_inv in Hs as [_ Hs].
      apply elem_of_cons in Hj as [-> | Hj].
      * destruct (bs_side b); apply Z.ltb_irrefl.
      * rewrite Forall_forall in Hs. by apply ahead_price, Hs.
Qed.

(** [best_price] returns the price of a matchable order such that no matchable
    order of either tree has a better price, and nothing exactly when no order can be
    matched. *)
Theorem best_price_best b M now_ts opl :
  bs_rep b M -> prices_ok b M opl ->
  exists r, best_price b now_ts opl = Done r /\
    match r with
    | Some p =>
        (exists c l, matchable (bs_side b) M now_ts opl c l p) /\
        forall c l p', matchable (bs_side b) M now_ts opl c l p' ->
          is_price_better (bs_side b) p' p = false
    | None => forall c l p, ~ matchable (bs_side b) M now_ts opl c l p
    end.
Proof. apply best_price_ok. Qed.

(** A concrete instance: the best ask of the sample side is at 15 lots. *)
Lemma best_price_best_witness :
  exists r, best_price sample_side 2000 50 = Done r /\ r = Some 15.
Proof.
  destruct (best_price_best sample_side sample_maps 2000 50 sample_side_rep sample_side_prices)
    as (r & E & _).
  exists r. split; [exact E|]. vm_compute in E. congruence.
Defined.

(** ** Sums over the orders of a side *)

Definition item_qty (i : BookSideIterItem) : Z := quantity (item_node i).

Fixpoint sum_qty (xs : list BookSideIterItem) : Z :=
  match xs with [] => 0 | i :: xs => item_qty i + sum_qty xs end.

Fixpoint sum_amt (xs : list BookSideIterItem) : Z :=
  match xs with [] => 0 | i :: xs => item_qty i * item_price_lots i + sum_amt xs end.

(** The quote lots an order for [q] base lots exchanges when it walks down [xs]. *)
Fixpoint walk_cost (xs : list BookSideIterItem) (q : Z) : Z :=
  match xs with
  | [] => 0
  | i :: xs =>
      let m := Z.min q (item_qty i) in m * item_price_lots i + walk_cost xs (q - m)
  end.

(** Quantities and prices are positive, as for orders placed by [new_order]. *)
Definition item_pos (i : BookSideIterItem) : Prop := 0 < item_qty i /\ 1 <= item_price_lots i.

Lemma sum_qty_nonneg xs : Forall item_pos xs -> 0 <= sum_qty xs.
Proof. induction 1 as [|x xs [H1 H2] F IH]; simpl; lia. Qed.

Lemma sum_amt_nonneg xs : Forall item_pos xs -> 0 <= sum_amt xs.
Proof. induction 1 as [|x xs [H1 H2] F IH]; simpl; nia. Qed.

Lemma qty_le_amt xs : Forall item_pos xs -> sum_qty xs <= sum_amt xs.
Proof. induction 1 as [|x xs [H1 H2] F IH]; simpl; nia. Qed.

(** The orders at [limit] or better. *)
Definition within (side : Side) (limit : Z) (xs : list BookSideIterItem) : list BookSideIterItem :=
  filter (fun i => is_price_better side limit (item_price_lots i) = false) xs.

Lemma within_stop side limit x xs :
  Forall (ahead side x) xs -> is_price_better side limit (item_price_lots x) = true ->
  within side limit xs = [].
Proof.
  intros F Hx. unfold within. induction F as [|y xs H F IH]; [done|].
  rewrite filter_cons_False; [done|]. apply ahead_price in H. unfold is_price_better in *.
  destruct side; lia.
Qed.

Lemma quantity_loop side limit : forall xs s,
  StronglySorted (ahead side) xs -> Forall item_pos xs -> 0 <= s -> s + sum_qty xs <= I64_MAX ->
  (r ← list_for xs s (fun sum x =>
      if is_price_better side limit (item_price_lots x) then Done (Break sum)
      else sum ← i64 (sum + quantity (item_node x)); Done (Continue sum));
   match r with Continue sum | Break sum => Done sum end)
  = Done (s + sum_qty (within side limit xs)).
Proof.
  induction xs as [|x xs IH]; intros s Hs Hp Hs0 Hsum; simpl.
  - f_equal. lia.
  - apply StronglySorted_inv in Hs as [Hs F]. apply Forall_cons in Hp as [[H1 H2] Hp]. simpl in Hsum.
    pose proof (sum_qty_nonneg xs Hp).
    destruct (is_price_better side limit (item_price_lots x)) eqn:E; simpl.
    + unfold within. rewrite filter_cons_False by congruence. fold (within side limit xs).
      rewrite (within_stop side limit x xs) by done. simpl. f_equal. lia.
    + fold (item_qty x). rewrite i64_ok by mlia. run. unfold within. rewrite filter_cons_True by done.
      fold (within side limit xs). rewrite IH by (done || lia). simpl. f_equal. lia.
Qed.

(** [quantity_at_price] returns the total quantity of all matchable orders of the
    side whose price is at least as good as the limit, if all quantities are positive
    and their total fits an [i64]. *)
Theorem quantity_at_price_total b M limit now_ts opl :
  bs_rep b M -> prices_ok b M opl ->
  exists items, iter_all_including_invalid b now_ts opl = Done items /\
    items_spec (bs_side b) M now_ts opl items /\
    (Forall item_pos (valid_items items) -> sum_qty (valid_items items) <= I64_MAX ->
     quantity_at_price b limit now_ts opl
     = Done (sum_qty (within (bs_side b) limit (valid_items items)))).
Proof.
  intros HR HP. destruct (valid_loops b M now_ts opl HR HP) as (items & S & E & F).
  exists items. split_and!; [done|done|]. intros Hp Hs. unfold quantity_at_price. rewrite F.
  apply quantity_loop; [by eapply valid_items_sorted|done|lia|lia].
Qed.

(** A concrete instance: two orders of 5 lots are at 20 or better in the sample side. *)
Lemma quantity_at_price_total_witness :
  exists items, iter_all_including_invalid sample_side 2000 50 = Done items /\
    quantity_at_price sample_side 20 2000 50 = Done 10 /\
    sum_qty (within Ask 20 (valid_items items)) = 10.
Proof.
  destruct (quantity_at_price_total sample_side sample_maps 20 2000 50
    sample_side_rep sample_side_prices) as (items & E & _ & P).
  exists items. split; [exact E|]. revert P. vm_compute in E. injection E as <-. intros P.
  split; [|vm_compute; reflexivity]. etransitivity; [apply P|vm_compute; reflexivity].
  - sample_pos.
  - vm_compute. congruence.
Defined.

Lemma walk_cost_zero xs : Forall item_pos xs -> walk_cost xs 0 = 0.
Proof.
  induction 1 as [|x xs [H1 H2] F IH]; [done|]. simpl. rewrite Z.min_l by lia. simpl. apply IH.
Qed.

(** The loop of [matched_amount] after it has taken [sq] base for [sa] quote lots. *)
Lemma matched_amount_loop target : forall xs sq sa,
  Forall item_pos xs -> 0 <= sq < target -> 0 <= sa -> is_i64 target ->
  sq + sum_qty xs <= I64_MAX -> sa + sum_amt xs <= I64_MAX ->
  list_for xs (sq, sa) (fun '(sum_qty, sum_amt) x =>
          sum_qty ← i64 (sum_qty + quantity (item_node x));
          amt ← i64 (quantity (item_node x) * item_price_lots x);
          sum_amt ← i64 (sum_amt + amt);
          extra_qty ← i64 (sum_qty - target);
          if 0 <=? extra_qty then
            d ← i64 (extra_qty * item_price_lots x);
            r ← i64 (sum_amt - d);
            Done (Break r)
          else Done (Continue (sum_qty, sum_amt)))
  = Done (if target <=? sq + sum_qty xs then Break (sa + walk_cost xs (target - sq))
          else Continue (sq + sum_qty xs, sa + sum_amt xs)).
Proof.
  induction xs as [|x xs IH]; intros sq sa Hp Hq Ha Ht Hsq Hsa; simpl.
  - rewrite (proj2 (Z.leb_gt _ _)) by lia. do 3 f_equal; lia.
  - apply Forall_cons in Hp as [[H1 H2] Hp]. simpl in *. fold (item_qty x) in *.
    pose proof (sum_qty_nonneg xs Hp). pose proof (sum_amt_nonneg xs Hp).
    assert (0 <= item_qty x * item_price_lots x) by nia.
    rewrite (i64_ok (sq + item_qty x)) by mlia. run.
    rewrite (i64_ok (item_qty x * item_price_lots x)) by mlia. run.
    rewrite (i64_ok (sa + item_qty x * item_price_lots x)) by mlia. run.
    rewrite (i64_ok (sq + item_qty x - target)) by mlia. run.
    destruct (Z.leb_spec 0 (sq + item_qty x - target)) as [L|L].
    + assert (0 <= (sq + item_qty x - target) * item_price_lots x <= item_qty x * item_price_lots x) by nia.
      rewrite (i64_ok ((sq + item_qty x - target) * item_price_lots x)) by mlia. run.
      rewrite i64_ok by mlia. run. rewrite (proj2 (Z.leb_le _ _)) by lia.
      rewrite Z.min_l, Z.sub_diag, walk_cost_zero by (done || lia). do 2 f_equal. lia.
    + run. rewrite IH by (done || lia). rewrite (Z.min_r (target - sq)) by lia.
      replace (target - sq - item_qty x) with (target - (sq + item_qty x)) by lia.
      rewrite !Z.add_assoc. done.
Qed.

(** For a positive quantity, [matched_amount] returns the quote lots an order of
    that size exchanges when it takes the matchable orders in priority order, and
    nothing exactly when there is not enough quantity on the side. *)
Theorem matched_amount_cost b M target now_ts opl :
  bs_rep b M -> prices_ok b M opl -> 0 < target -> is_i64 target ->
  exists items, iter_all_including_invalid b now_ts opl = Done items /\
    items_spec (bs_side b) M now_ts opl items /\
    (Forall item_pos (valid_items items) -> sum_amt (valid_items items) <= I64_MAX ->
     matched_amount b target now_ts opl
     = Done (if target <=? sum_qty (valid_items items)
             then Some (walk_cost (valid_items items) target) else None)).
Proof.
  intros HR HP Ht Ht'. destruct (valid_loops b M now_ts opl HR HP) as (items & S & E & F).
  exists items. split_and!; [done|done|]. intros Hp Hs. unfold matched_amount.
  rewrite (proj2 (Z.leb_gt _ _)) by lia. rewrite F. pose proof (qty_le_amt _ Hp).
  rewrite matched_amount_loop by (done || lia). run. rewrite Z.add_0_l, Z.sub_0_r.
  by destruct (target <=? sum_qty (valid_items items)).
Qed.

(** A concrete instance: 12 lots of the sample side cost 5 * 15 + 5 * 20 + 2 * 101. *)
Lemma matched_amount_cost_witness :
  exists items, iter_all_including_invalid sample_side 2000 50 = Done items /\
    matched_amount sample_side 12 2000 50 = Done (Some 377) /\
    walk_cost (valid_items items) 12 = 377.
Proof.
  destruct (matched_amount_cost sample_side sample_maps 12 2000 50
    sample_side_rep sample_side_prices) as (items & E & _ & P); [lia|unfold is_i64, I64_MIN, I64_MAX; lia|].
  exists items. split; [exact E|]. revert P. vm_compute in E. injection E as <-. intros P.
  split; [|vm_compute; reflexivity]. etransitivity; [apply P|vm_compute; reflexivity].
  - sample_pos.
  - vm_compute. congruence.
Defined.

(** The loop of [matched_quantity]: it stops at the first order that brings the sum to
    [amount]. *)
Lemma matched_quantity_loop amount : forall xs sq sa,
  Forall item_pos xs -> 0 <= sq -> 0 <= sa < amount -> is_i64 amount ->
  sq + sum_qty xs <= I64_MAX -> 2 * (sa + sum_amt xs) <= I64_MAX ->
  exists r, list_for xs (sq, sa) (fun '(sum_qty, sum_amt) x =>
          sum_qty ← i64 (sum_qty + quantity (item_node x));
          amt ← i64 (quantity (item_node x) * item_price_lots x);
          sum_amt ← i64 (sum_amt + amt);
          extra_amt ← i64 (sum_amt - amount);
          if 0 <=? extra_amt then
            n ← i64 (extra_amt + item_price_lots x);
            n ← i64 (n - 1);
            _ ← assert_ (negb (item_price_lots x =? 0));
            r ← i64 (sum_qty - Z.quot n (item_price_lots x));
            Done (Break r)
          else Done (Continue (sum_qty, sum_amt))) = Done r /\
    match r with
    | Break q => amount <= sa + sum_amt xs /\ sq <= q <= sq + sum_qty xs /\
        sa + walk_cost xs (q - sq) <= amount /\
        (sa + walk_cost xs (q - sq) < amount -> amount < sa + walk_cost xs (q + 1 - sq))
    | Continue _ => sa + sum_amt xs < amount
    end.
Proof.
  induction xs as [|x xs IH]; intros sq sa Hp Hq Ha Ht Hsq Hsa; simpl.
  - eexists. split; [done|]. simpl. lia.
  - apply Forall_cons in Hp as [[H1 H2] Hp]. simpl in *. fold (item_qty x) in *.
    pose proof (sum_qty_nonneg xs Hp). pose proof (sum_amt_nonneg xs Hp).
    set (p := item_price_lots x) in *. set (k := item_qty x) in *.
    assert (p <= k * p) by nia.
    rewrite (i64_ok (sq + k)) by mlia. run. rewrite (i64_ok (k * p)) by mlia. run.
    rewrite (i64_ok (sa + k * p)) by mlia. run.
    rewrite (i64_ok (sa + k * p - amount)) by mlia. run.
    destruct (Z.leb_spec 0 (sa + k * p - amount)) as [L|L].
    + set (e := sa + k * p - amount) in *.
      rewrite (i64_ok (e + p)) by mlia. run. rewrite (i64_ok (e + p - 1)) by mlia. run.
      rewrite (proj2 (Z.eqb_neq p 0)) by lia. run. simpl.
      rewrite Z.quot_div_nonneg by lia. set (d := (e + p - 1) / p).
      assert (Hd : d * p <= e + p - 1 < d * p + p).
      { pose proof (Z.div_mod (e + p - 1) p). pose proof (Z.mod_pos_bound (e + p - 1) p). subst d. nia. }
      assert (0 <= d <= k) by nia.
      rewrite i64_ok by mlia. run. eexists. split; [done|]. split_and!; [lia|lia|lia|..].
      * replace (sq + k - d - sq) with (k - d) by lia. rewrite Z.min_l, Z.sub_diag, walk_cost_zero by (done || lia). nia.
      * replace (sq + k - d - sq) with (k - d) by lia. replace (sq + k - d + 1 - sq) with (k - d + 1) by lia.
        rewrite Z.min_l, Z.sub_diag, walk_cost_zero by (done || lia). intros Hlt.
        assert (1 <= d) by nia. rewrite Z.min_l, Z.sub_diag, walk_cost_zero by (done || lia). nia.
    + run. destruct (IH (sq + k) (sa + k * p)) as (r & E & P); try (done || lia).
      exists r. split; [exact E|]. destruct r as [st|q]; [lia|]. destruct P as (P1 & P2 & P3 & P4).
      assert (E1 : forall n, k <= n -> Z.min n k = k) by lia.
      rewrite !E1 by lia.
      replace (q - sq - k) with (q - (sq + k)) by lia.
      replace (q + 1 - sq - k) with (q + 1 - (sq + k)) by lia. lia.
Qed.

(** For a positive amount that the side can cover, [matched_quantity] returns the
    largest quantity whose cost does not exceed the amount: the cost of the returned
    quantity is at most [amount], and one more base lot would exceed it unless the
    amount is hit exactly; it returns nothing exactly when the side cannot cover the
    amount. *)
Theorem matched_quantity_floor b M amount now_ts opl :
  bs_rep b M -> prices_ok b M opl -> 0 < amount -> is_i64 amount ->
  exists items, iter_all_including_invalid b now_ts opl = Done items /\
    items_spec (bs_side b) M now_ts opl items /\
    (Forall item_pos (valid_items items) -> 2 * sum_amt (valid_items items) <= I64_MAX ->
     exists r, matched_quantity b amount now_ts opl = Done r /\
     match r with
     | Some q => amount <= sum_amt (valid_items items) /\
         walk_cost (valid_items items) q <= amount /\
         (walk_cost (valid_items items) q < amount ->
          amount < walk_cost (valid_items items) (q + 1))
     | None => sum_amt (valid_items items) < amount
     end).
Proof.
  intros HR HP Ht Ht'. destruct (valid_loops b M now_ts opl HR HP) as (items & S & E & F).
  exists items. split_and!; [done|done|]. intros Hp Hs. unfold matched_quantity.
  rewrite (proj2 (Z.leb_gt _ _)) by lia. rewrite F. pose proof (qty_le_amt _ Hp).
  pose proof (sum_amt_nonneg _ Hp).
  destruct (matched_quantity_loop amount (valid_items items) 0 0) as (r & -> & P); try (done || lia).
  run. destruct r as [s|q]; eexists; (split; [done|]); simpl in P |- *; [lia|]. rewrite !Z.sub_0_r in P. tauto.
Qed.

(** A concrete instance: 100 quote lots buy 6 base lots of the sample side, for 95
    quote lots; 7 base lots would cost 115. *)
Lemma matched_quantity_floor_witness :
  exists items, iter_all_including_invalid sample_side 2000 50 = Done items /\
    matched_quantity sample_side 100 2000 50 = Done (Some 6) /\
    walk_cost (valid_items items) 6 = 95 /\ walk_cost (valid_items items) 7 = 115.
Proof.
  destruct (matched_quantity_floor sample_side sample_maps 100 2000 50
    sample_side_rep sample_side_prices) as (items & E & _ & P); [lia|unfold is_i64, I64_MIN, I64_MAX; lia|].
  exists items. split; [exact E|]. revert P. vm_compute in E. injection E as <-. intros P.
  destruct P as (r & Er & Hr); [sample_pos|vm_compute; congruence|].
  split; [|split; vm_compute; reflexivity]. rewrite Er. vm_compute in Er. congruence.
Defined.

(** ** Orders lost by skipping

    [BookSideIter::next] advances the pegged iterator with
    [o_peek = self.oracle_pegged_iter.next()], which returns the order the iterator
    stood on. After a pegged order is skipped, [o_peek] lags behind the iterator by one
    order, so the order the iterator stands on is lost. *)

(** Three pegged asks; at an oracle price of 50 lots they are at -10, 10 and 20. *)
Definition skip_orders : list (BookSideOrderTree * LeafNode) :=
  [(OraclePegged, pegged_ask (-60) 1); (OraclePegged, pegged_ask (-40) 2);
   (OraclePegged, pegged_ask (-30) 3)].

(** When the best pegged ask is priced below 1 it is skipped, and iteration then
    also loses a matchable order: of two pegged asks at 10 and 20 lots only the first
    is returned. *)
Theorem skipping_loses_orders :
  exists b items,
    insert_all (bookside_zeroed Asks) skip_orders = Some b /\
    bs_rep b (insert_maps (fun _ => ∅) skip_orders) /\
    matchable Ask (insert_maps (fun _ => ∅) skip_orders) 2000 50 OraclePegged (pegged_ask (-30) 3) 20 /\
    iter_all_including_invalid b 2000 50 = Done items /\
    item_price_lots <$> items = [10].
Proof.
  destruct (insert_all (bookside_zeroed Asks) skip_orders) as [b|] eqn:E; [|vm_compute in E; done].
  assert (Hi : (items ← iter_all_including_invalid b 2000 50; Done (item_price_lots <$> (items : list _)))
    = Done [10]).
  { assert (Hb : (b ← insert_all (bookside_zeroed Asks) skip_orders;
      Some (items ← iter_all_including_invalid b 2000 50; Done (item_price_lots <$> (items : list _))))
      = Some (Done [10])) by (vm_compute; reflexivity).
    rewrite E in Hb. by injection Hb. }
  destruct (bind_Done_inv _ _ _ Hi) as (items & Ei & Hp). injection Hp as Hp.
  exists b, items. split_and!; [done| | |done|done].
  - eapply insert_all_rep; [apply (bs_rep_zeroed Asks)| |done].
    repeat constructor; vm_compute; (done || congruence).
  - repeat split; vm_compute; reflexivity.
Qed.
