(* ===== verification/BookSideEvict.v ===== *)
(** * One side of the book: evicting the worst order and changing an order

    [BookSide::remove_worst] (bookside.rs), which makes room on a full side, and updates of
    an order in place. *)

From stdpp Require Import base numbers gmap sorting functions list.
From Stdlib Require Import ZArith Lia.
From S2P Require Import Prelude OrderTypes Nodes OrderTree OrderTreeSpec OrderTreeArena OrderTreeInsert OrderTreeRemove OrderTreeIter BookSide BookSideSpec BookSideIterate.

Open Scope Z_scope.

(** The price [rank_orders] compares with: pegged prices clamped to [1..i64::MAX]. *)
Definition clamped_price (opl : Z) (c : BookSideOrderTree) (l : LeafNode) : Z :=
  match c with
  | Fixed => price_data l
  | OraclePegged => Z.max 1 (Z.min I64_MAX (pegged_sum opl l))
  end.

Lemma oracle_pegged_price_clamped opl l side :
  is_i64 opl -> (oracle_pegged_price opl l side).2 = clamped_price opl OraclePegged l.
Proof.
  intros Ho. rewrite oracle_pegged_price_ok by done. unfold representable.
  destruct (1 <=? pegged_sum opl l) eqn:E1, (pegged_sum opl l <? I64_MAX) eqn:E2; simpl; mlia.
Qed.

(** What [rank_orders] returns for the worse of two orders. *)
Definition ranked (opl : Z) (c : BookSideOrderTree) (x : NodeHandle * LeafNode)
    (i : BookSideIterItem) : Prop :=
  item_tree i = c /\ item_node i = x.2 /\ item_price_lots i = clamped_price opl c x.2.

Section rank_worse.
Context (side : Side) (now_ts opl : Z).
Hypothesis opl_ok : is_i64 opl.

Lemma fixed_result_ranked f :
  leaf_ok f.2 -> fixed_ok f.2 -> exists i, fixed_to_result f now_ts = Done i /\ ranked opl Fixed f i.
Proof. intros. rewrite fixed_to_result_ok by done. eexists. split; [done|]. done. Qed.

Lemma pegged_result_ranked o p st :
  leaf_ok o.2 -> p = clamped_price opl OraclePegged o.2 ->
  exists i, oracle_pegged_to_result (o.1, o.2, p, st) now_ts = Done i /\ ranked opl OraclePegged o i.
Proof.
  intros Ho ->. unfold oracle_pegged_to_result. rewrite is_expired_ok by done. run.
  eexists. split; [done|]. done.
Qed.

(** The worse of the two orders: its price is not better than that of the other. *)
Lemma rank_worse f o :
  (forall x, f = Some x -> leaf_ok x.2 /\ fixed_ok x.2) -> (forall x, o = Some x -> leaf_ok x.2) ->
  exists r, rank_orders side f o true now_ts opl = Done r /\
    match r with
    | None => f = None /\ o = None
    | Some i =>
        exists c x, match c with Fixed => f | OraclePegged => o end = Some x /\ ranked opl c x i /\
        forall c' x', match c' with Fixed => f | OraclePegged => o end = Some x' ->
          is_price_better side (clamped_price opl c x.2) (clamped_price opl c' x'.2) = false
    end.
Proof.
  intros Hf Ho. unfold rank_orders.
  assert (Hirr : forall p, is_price_better side p p = false)
    by (intros p; destruct side; apply Z.ltb_irrefl).
  destruct f as [f|], o as [o|]; simpl.
  - destruct (Hf f eq_refl) as [Hf1 Hf2]. specialize (Ho o eq_refl).
    destruct o as [ho lo]. simpl in *. pose proof (oracle_pegged_price_clamped opl lo side opl_ok) as Ep.
    destruct (oracle_pegged_price opl lo side) as [st p]. simpl in Ep.
    assert (1 <= p <= I64_MAX) by (subst p; simpl; mlia).
    rewrite key_for_fixed_price_ok by done. run.
    destruct (fixed_result_ranked f Hf1 Hf2) as (i & -> & Ri).
    destruct (pegged_result_ranked (ho, lo) p st Ho Ep) as (j & Ej & Rj). cbn [fst snd] in Ej.
    pose proof (leaf_key_split f.2 (leaf_ok_key _ Hf1)) as Ek.
    pose proof (Z.mod_pos_bound (leaf_key f.2) (2 ^ 64)).
    pose proof (Z.mod_pos_bound (leaf_key lo) (2 ^ 64)).
    destruct (xorb _ true) eqn:Eb; rewrite xorb_true_r in Eb; bool_to_prop.
    + run. eexists. split; [done|]. exists Fixed, f. split_and!; [done|done|].
      intros [] x' [= <-]; [apply Hirr|]. simpl in Ep |- *. rewrite <- Ep.
      destruct side; simpl in *; apply Z.ltb_ge; bool_to_prop; lia.
    + rewrite Ej. run. eexists. split; [done|]. exists OraclePegged, (ho, lo). split_and!; [done|done|].
      intros [] x' [= <-]; [|apply Hirr]. simpl in Ep |- *. rewrite <- Ep.
      destruct side; simpl in *; apply Z.ltb_ge; bool_to_prop; lia.
  - destruct (Hf f eq_refl) as [Hf1 Hf2]. destruct (fixed_result_ranked f Hf1 Hf2) as (i & -> & Ri). run.
    eexists. split; [done|]. exists Fixed, f. split_and!; [done|done|]. intros [] x' [= <-]. apply Hirr.
  - specialize (Ho o eq_refl). destruct o as [ho lo]. simpl in *.
    pose proof (oracle_pegged_price_clamped opl lo side opl_ok) as Ep.
    destruct (oracle_pegged_price opl lo side) as [st p]. simpl in Ep.
    destruct (pegged_result_ranked (ho, lo) p st Ho Ep) as (j & Ej & Rj). cbn [fst snd] in Ej. rewrite Ej. run.
    eexists. split; [done|]. exists OraclePegged, (ho, lo). split_and!; [done|done|].
    intros [] x' [= <-]. apply Hirr.
  - by exists None.
Qed.

End rank_worse.

(** The last order of a component has the worst clamped price. *)
Lemma last_worst_price b T fl opl c x y :
  book_inv b T fl -> is_i64 opl ->
  last (component_leaves b T c) = Some x -> y ∈ component_leaves b T c ->
  is_price_better (bs_side b) (clamped_price opl c x.2) (clamped_price opl c y.2) = false.
Proof.
  intros HI Ho Hx Hy.
  destruct (last_sorted _ _ _ (component_sorted b T fl HI c) Hx) as [Hin Hall].
  destruct (component_leaf_ok b T fl HI c x Hin) as [Kx _ _ _].
  destruct (component_leaf_ok b T fl HI c y Hy) as [Ky _ _ _].
  assert (Hp : match bs_side b with
    | Bid => price_data x.2 <= price_data y.2 | Ask => price_data y.2 <= price_data x.2 end).
  { destruct (Hall y Hy) as [-> | Hk]; [destruct (bs_side b); lia|].
    unfold key_before in Hk. destruct (bs_side b); by apply price_data_mono. }
  unfold is_price_better, clamped_price, pegged_sum. destruct (bs_side b), c; apply Z.ltb_ge; lia.
Qed.

Lemma bs_remove_worst_ok b M now_ts opl :
  bs_rep b M -> is_i64 opl -> (forall k l, M Fixed !! k = Some l -> fixed_ok l) ->
  exists b' r, bs_remove_worst b now_ts opl = Done (b', r) /\ bs_side b' = bs_side b /\
    match r with
    | Some (l, p) =>
        exists c, M c !! leaf_key l = Some l /\ p = clamped_price opl c l /\
          (forall c' k' l', M c' !! k' = Some l' ->
            is_price_better (bs_side b) p (clamped_price opl c' l') = false) /\
          bs_rep b' (<[c := delete (leaf_key l) (M c)]> M)
    | None => (forall c, M c = ∅) /\ bs_rep b' M
    end.
Proof.
  intros HR Ho Hfix. pose proof HR as (T & fl & HI & HM).
  unfold bs_remove_worst.
  destruct (HI Fixed) as (_ & Rf & Wf & Tf). destruct (HI OraclePegged) as (_ & Rp & Wp & Tp).
  rewrite (find_worst_ok _ _ _ Rf Wf Tf), (find_worst_ok _ _ _ Rp Wp Tp). run.
  fold (bs_left b) (component_leaves b T Fixed) (component_leaves b T OraclePegged).
  assert (Hin : forall c x, last (component_leaves b T c) = Some x -> x ∈ component_leaves b T c).
  { intros c x [l' E]%last_Some. rewrite E. set_solver. }
  destruct (rank_worse (bs_side b) now_ts opl Ho (last (component_leaves b T Fixed))
    (last (component_leaves b T OraclePegged))) as (r & -> & P).
  { intros x Hx%Hin. split; [by eapply component_leaf_ok|]. by eapply Hfix, component_lookup. }
  { intros x Hx%Hin. by eapply component_leaf_ok. }
  run. destruct r as [i|].
  - destruct P as (c & x & Hx & (Et & En & Epr) & Hall).
    assert (Hx' : last (component_leaves b T c) = Some x) by by destruct c.
    fold (item_tree i). rewrite Et, En, Epr.
    pose proof (component_lookup b T fl M HI HM c x (Hin c x Hx')) as Hl.
    destruct (bs_remove_by_key_ok b M c (leaf_key x.2) HR) as (b' & -> & Hs & R'). run. rewrite Hl. run.
    eexists _, _. split; [done|]. split; [done|]. exists c. split_and!; [done|done| |done].
    intros c' k' l' Hm. rewrite <- HM in Hm. apply otmap_oleaves in Hm as (<- & h & Hh).
    assert (Hh' : (h, l') ∈ component_leaves b T c') by by apply elem_odleaves.
    destruct (last (component_leaves b T c')) as [w|] eqn:Ew.
    + pose proof (last_worst_price b T fl opl c' w (h, l') HI Ho Ew Hh') as H1. simpl in H1.
      assert (H2 : is_price_better (bs_side b) (clamped_price opl c x.2) (clamped_price opl c' w.2) = false)
        by (apply Hall; by destruct c').
      unfold is_price_better in *. destruct (bs_side b); bool_to_prop; apply Z.ltb_ge; lia.
    + apply last_None in Ew. rewrite Ew in Hh'. set_solver.
  - destruct P as [Pf Pp]. eexists _, _. split; [done|]. split; [done|]. split; [|done].
    intros c. rewrite <- HM. assert (E : last (component_leaves b T c) = None) by by destruct c.
    apply last_None in E. apply map_empty. intros k. destruct (otmap (T c) !! k) as [l|] eqn:El; [|done].
    apply otmap_oleaves in El as (_ & h & Hh). apply (elem_odleaves (bs_left b)) in Hh.
    unfold component_leaves in E. rewrite E in Hh. set_solver.
Qed.

(** [remove_worst] removes an order whose (clamped) current price no order of
    either tree is beaten by, returns that order with that price, and leaves every
    other order on the side; it returns nothing exactly when the side is empty. *)
Theorem remove_worst_price b M now_ts opl :
  bs_rep b M -> is_i64 opl -> (forall k l, M Fixed !! k = Some l -> fixed_ok l) ->
  exists b' r, bs_remove_worst b now_ts opl = Done (b', r) /\ bs_side b' = bs_side b /\
    match r with
    | Some (l, p) =>
        exists c, M c !! leaf_key l = Some l /\ p = clamped_price opl c l /\
          (forall c' k' l', M c' !! k' = Some l' ->
            is_price_better (bs_side b) p (clamped_price opl c' l') = false) /\
          bs_rep b' (<[c := delete (leaf_key l) (M c)]> M)
    | None => (forall c, M c = ∅) /\ bs_rep b' M
    end.
Proof. apply bs_remove_worst_ok. Qed.

(** A concrete instance: the worst ask of the sample side is the one at 101 lots. *)
Lemma remove_worst_price_witness :
  exists b', bs_remove_worst sample_side 2000 50 = Done (b', Some (fixed_ask 101 1, 101)) /\
    bs_side b' = Ask.
Proof.
  destruct (remove_worst_price sample_side sample_maps 2000 50) as (b' & r & E & S & _).
  - apply sample_side_rep.
  - apply sample_side_prices.
  - apply sample_side_prices.
  - assert (Er : snd <$> match bs_remove_worst sample_side 2000 50 with Done x => Some x | _ => None end
      = Some (Some (fixed_ask 101 1, 101))) by (vm_compute; reflexivity).
    rewrite E in Er. injection Er as ->. exists b'. split; [exact E|exact S].
Defined.

(** ** One side of the book: changing orders in place

    [new_order] (book.rs) writes the reduced quantity of a partially filled order
    straight into its leaf and removes the orders that are used up. *)

(** ** A leaf of a tree *)

(** The leaves of a context, with their slots. *)
Fixpoint ctx_leaves (z : list frame) : list (NodeHandle * LeafNode) :=
  match z with [] => [] | f :: z => hleaves (fr_sib f) ++ ctx_leaves z end.

Lemma elem_hleaves z t x : x ∈ hleaves (plug z t) <-> x ∈ hleaves t \/ x ∈ ctx_leaves z.
Proof.
  revert t. induction z as [|f z IH]; intros t; simpl; [set_solver|].
  rewrite IH. unfold plug1. destruct (fr_bit f); simpl; set_solver.
Qed.

Lemma hleaf_plug t h l z0 :
  (h, l) ∈ hleaves t -> exists z, plug z0 t = plug z (TLeaf h l).
Proof.
  revert z0. induction t as [h' l'|h' p key t0 IH0 t1 IH1]; simpl; intros z0 Hx.
  - apply list_elem_of_singleton in Hx as [= -> ->]. by exists z0.
  - apply elem_of_app in Hx as [Hx|Hx].
    + destruct (IH0 (mkFrame h' p key false t1 :: z0) Hx) as [z E]. exists z. by rewrite <- E.
    + destruct (IH1 (mkFrame h' p key true t0 :: z0) Hx) as [z E]. exists z. by rewrite <- E.
Qed.

Lemma hleaves_handles t x : x ∈ hleaves t -> x.1 ∈ handles t.
Proof.
  induction t as [h l|h p key t0 IH0 t1 IH1]; simpl.
  - intros ->%list_elem_of_singleton. set_solver.
  - intros [|]%elem_of_app; set_solver.
Qed.

Lemma set_quantity_leaf_ok l q : leaf_ok l -> leaf_ok (set_quantity l q).
Proof. intros []. by constructor. Qed.

(** Replacing the leaf in slot [h] by one with another quantity. *)
Lemma plug_set_quantity a z h l q R fl :
  heap_inv a (handles (plug z (TLeaf h l)) ++ R) fl ->
  repr (nodes a) (plug z (TLeaf h l)) -> wf 0 (plug z (TLeaf h l)) ->
  let t' := plug z (TLeaf h (set_quantity l q)) in
  let ns' := <[h := NLeaf (set_quantity l q)]> (nodes a) in
  repr ns' t' /\ wf 0 t' /\ (handles t' ++ R ≡ₚ handles (plug z (TLeaf h l)) ++ R) /\
  tmap t' = <[leaf_key l := set_quantity l q]> (tmap (plug z (TLeaf h l))).
Proof.
  intros H Rp W t' ns'. destruct (plug_slots _ _ _ _ _ H) as (NDz & Dz & DR & Dfl).
  pose proof (proj1 (repr_plug _ _ _) Rp) as [Rl Rz].
  pose proof (proj1 (wf_plug _ _ _) W) as (Wz & Wl & Fl).
  assert (W' : wf 0 t').
  { apply wf_plug. split_and!; [done|by apply set_quantity_leaf_ok|done]. }
  split_and!; [|done|unfold t'; by rewrite !handles_plug|].
  - apply repr_plug. split.
    + split; [|done]. apply list_lookup_insert_eq, lookup_lt_is_Some. exists (NLeaf l). by apply repr_root in Rl.
    + eapply repr_ctx_ext; [|exact Rz]. intros x Hx. apply list_lookup_insert_ne.
      intros ->. apply (Dz x); set_solver.
  - unfold tmap. apply wf_sorted, sorted_NoDup in W, W'. unfold keys, t' in W, W'.
    rewrite tleaves_plug in W, W'. unfold t'. rewrite !tleaves_plug. simpl in *.
    rewrite (proj1 (omap_of_middle _ _ _ W)), (proj1 (omap_of_middle _ _ _ W')). simpl.
    by rewrite insert_insert_eq.
Qed.

(** ** Changing a quantity *)

Lemma bs_set_quantity_ok b T fl c h l q :
  book_inv b T fl -> (h, l) ∈ oleaves (T c) ->
  exists b' ot', bs_set_quantity b h q = Done b' /\ bs_side b' = bs_side b /\
    book_inv b' (<[c := ot']> T) fl /\
    otmap ot' = <[leaf_key l := set_quantity l q]> (otmap (T c)) /\
    forall x, x ∈ oleaves (T c) -> x.1 <> h -> x ∈ oleaves ot'.
Proof.
  intros I Hx. destruct (I c) as (H & Rp & W & Rt). destruct (T c) as [t|] eqn:ET; [|set_solver].
  simpl in Hx. destruct (hleaf_plug t h l [] Hx) as [z E]. simpl in E. subst t. simpl in *.
  destruct (plug_set_quantity _ z h l q _ _ H Rp W) as (Rp' & W' & Hh & Hm).
  pose proof (proj1 (repr_plug _ _ _) Rp) as [Rl _].
  exists (mkBookSide (root_fixed b) (root_oracle_pegged b)
    (set_nodes (bs_nodes b) (<[h := NLeaf (set_quantity l q)]> (nodes (bs_nodes b))))),
    (Some (plug z (TLeaf h (set_quantity l q)))).
  split_and!; [| |..|done|].
  - unfold bs_set_quantity. pose proof (node_repr _ _ Rl) as En. simpl in En. rewrite En. done.
  - done.
  - assert (Eb : forall a, mkBookSide (root_fixed b) (root_oracle_pegged b) a = bs_set b c (bs_root b c) a)
      by (intros; by destruct c).
    rewrite Eb. assert (Hin : h ∈ handles (plug z (TLeaf h l)) ++ ohandles (T (other_component c)))
      by (rewrite handles_plug; set_solver).
    apply (book_inv_update b T fl); try done.
    + eapply heap_perm; [apply (heap_write H h _ Hin)|by symmetry].
    + simpl. destruct Rt as [Rm Rc]. split; [rewrite Rm; by apply troot_plug|].
      rewrite Rc, !tleaves_plug, !length_app. done.
    + intros x Hx'. simpl. apply list_lookup_insert_ne. intros ->.
      destruct (plug_slots _ _ _ _ _ H) as (_ & _ & DR & _). apply (DR x Hx'). set_solver.
  - simpl. intros x [Hz|Hz]%elem_hleaves Hne; apply elem_hleaves; [|by right].
    apply list_elem_of_singleton in Hz as ->. done.
Qed.
