(* ===== verification/Orders.v ===== *)
(** * Orders and the order book of a market

    state/orderbook/order.rs: the parameters of a new order and the price it is placed
    at; the two sides of the book of a market ([Orderbook], book.rs). *)

From stdpp Require Import base numbers gmap functions list.
From Stdlib Require Import ZArith Lia.
From S2P Require Import Prelude OrderTypes Nodes OrderTree BookSide BookSideSpec BookSideIterate BookSideQueries.

Open Scope Z_scope.

Record Orderbook := mkOrderbook { ob_bids : BookSide; ob_asks : BookSide }.

Definition bookside (ob : Orderbook) (side : Side) : BookSide :=
  match side with Bid => ob_bids ob | Ask => ob_asks ob end.

(** [*self.bookside_mut(side) = b]. *)
Definition set_bookside (ob : Orderbook) (side : Side) (b : BookSide) : Orderbook :=
  match side with
  | Bid => mkOrderbook b (ob_asks ob)
  | Ask => mkOrderbook (ob_bids ob) b
  end.

Definition set_tree_type (b : BookSide) (ty : OrderTreeType) : BookSide :=
  let a := bs_nodes b in
  mkBookSide (root_fixed b) (root_oracle_pegged b)
    (mkNodes ty (bump_index a) (free_list_len a) (free_list_head a) (nodes a)).

Definition orderbook_init (ob : Orderbook) : Orderbook :=
  mkOrderbook (set_tree_type (ob_bids ob) Bids) (set_tree_type (ob_asks ob) Asks).

Module Order.

Inductive OrderParams :=
| Market
| ImmediateOrCancel (price_lots : Z)
| FixedPrice (price_lots : Z) (order_type : PostOrderType)
| OraclePeg (price_offset_lots : Z) (order_type : PostOrderType) (peg_limit : Z)
    (max_oracle_staleness_slots : Z).

Record Order := mkOrder {
  side : Side;
  max_base_lots : Z;
  max_quote_lots : Z;
  client_order_id : Z;
  reduce_only : bool;
  time_in_force : Z;
  self_trade_behavior : SelfTradeBehavior;
  params : OrderParams
}.

(** [now_ts] is the clock's [unix_timestamp]. *)
Definition tif_from_expiry (now_ts expiry_timestamp : Z) : option Z :=
  if negb (expiry_timestamp =? 0) then
    let tif := Z.min (Z.max 0 (expiry_timestamp - now_ts)) U16_MAX in
    if tif =? 0 then None else Some tif
  else Some 0.

Definition needs_penalty_fee (o : Order) : bool :=
  match params o with ImmediateOrCancel _ => true | _ => false end.

Definition is_post_only (o : Order) : bool :=
  match params o with
  | FixedPrice _ t | OraclePeg _ t _ _ => bool_decide (t = PostOnly) || bool_decide (t = PostOnlySlide)
  | _ => false
  end.

Definition post_target (o : Order) : option BookSideOrderTree :=
  match params o with
  | FixedPrice _ _ => Some Fixed
  | OraclePeg _ _ _ _ => Some OraclePegged
  | _ => None
  end.

Definition market_order_limit_for_side (side : Side) : Z :=
  match side with Bid => I64_MAX | Ask => 1 end.

Definition post_only_slide_limit (side : Side) (best_other_side limit : Z) : outcome Z :=
  match side with
  | Bid => b ← i64 (best_other_side - 1); Done (Z.min limit b)
  | Ask => b ← i64 (best_other_side + 1); Done (Z.max limit b)
  end.

Definition price_for_order_type (o : Order) (now_ts oracle_price_lots price_lots : Z)
    (order_type : PostOrderType) (ob : Orderbook) : outcome Z :=
  if bool_decide (order_type = PostOnlySlide) then
    best ← best_price (bookside ob (invert_side (side o))) now_ts oracle_price_lots;
    match best with
    | Some best_other_price => post_only_slide_limit (side o) best_other_price price_lots
    | None => Done price_lots
    end
  else Done price_lots.

Definition price (o : Order) (now_ts oracle_price_lots : Z) (ob : Orderbook) : outcome (Z * Z) :=
  price_lots ←
    match params o with
    | Market => Done (market_order_limit_for_side (side o))
    | ImmediateOrCancel price_lots => Done price_lots
    | FixedPrice price_lots order_type =>
        price_for_order_type o now_ts oracle_price_lots price_lots order_type ob
    | OraclePeg price_offset_lots order_type _ _ =>
        price_lots ← i64 (oracle_price_lots + price_offset_lots);
        price_for_order_type o now_ts oracle_price_lots price_lots order_type ob
    end;
  price_data ←
    match params o with
    | OraclePeg _ _ _ _ => d ← i64 (price_lots - oracle_price_lots); Done (oracle_pegged_price_data d)
    | _ => fixed_price_data price_lots
    end;
  _ ← require (1 <=? price_lots) ERequireGte;
  Done (price_lots, price_data).

Definition peg_limit (o : Order) : Z :=
  match params o with OraclePeg _ _ l _ => l | _ => -1 end.

(** ** Properties *)

(** [tif_from_expiry] maps 0 to "never expires" and otherwise rejects expiries that
    are not in the future; a returned time in force fits a [u16] and never lasts beyond
    the requested expiry, which it reaches exactly when that is at most 65535 seconds
    away. *)
Theorem tif_from_expiry_bounds now_ts expiry :
  is_u64 now_ts -> is_u64 expiry ->
  match tif_from_expiry now_ts expiry with
  | None => expiry <> 0 /\ expiry <= now_ts
  | Some tif => is_u16 tif /\
      (if expiry =? 0 then tif = 0
       else 1 <= tif /\ now_ts + tif <= expiry /\ (expiry <= now_ts + U16_MAX -> now_ts + tif = expiry))
  end.
Proof.
  intros Hn He. unfold tif_from_expiry. unfold_widths. destruct (Z.eqb_spec expiry 0); simpl.
  - split; [lia|done].
  - destruct (Z.eqb_spec (Z.min (Z.max 0 (expiry - now_ts)) 65535) 0); lia.
Qed.

(** For example: an expiry 30 seconds ahead. *)
Lemma tif_from_expiry_bounds_witness : tif_from_expiry 1000 1030 = Some 30 /\ is_u16 30.
Proof.
  split; [reflexivity|].
  destruct (tif_from_expiry_bounds 1000 1030) as [H _]; [unfold is_u64, U64_MAX; lia..|].
  exact H.
Defined.

(** The price at which the posted order will appear in the book. *)
Definition posted_price (o : Order) (oracle_price_lots price_data : Z) : Z :=
  match params o with
  | OraclePeg _ _ _ _ => oracle_price_lots + oracle_pegged_price_offset price_data
  | _ => price_data
  end.

Lemma price_for_order_type_i64 o now_ts opl q t ob p :
  is_i64 q -> price_for_order_type o now_ts opl q t ob = Done p -> is_i64 p.
Proof.
  intros Hq H. unfold price_for_order_type in H. destruct (bool_decide _); [|by inv_run].
  apply bind_Done_inv in H as (best & _ & H). destruct best as [b|]; [|by inv_run].
  unfold post_only_slide_limit in H. destruct (side o); inv_run; mlia.
Qed.

(** A successful [price] returns a positive price, and price data from which the book
    gets that same price back. *)
Lemma price_ok o now_ts opl ob p d :
  (match params o with Market | OraclePeg _ _ _ _ => True
   | ImmediateOrCancel q | FixedPrice q _ => is_i64 q end) ->
  price o now_ts opl ob = Done (p, d) ->
  1 <= p <= I64_MAX /\ is_u64 d /\ posted_price o opl d = p.
Proof.
  intros Hq H. unfold price in H. apply bind_Done_inv in H as (q & E1 & H).
  apply bind_Done_inv in H as (d' & E2 & H). inv_run. apply Z.leb_le in Heqb.
  assert (Hp : p <= I64_MAX).
  { destruct (params o) as [|q|q t|q t l s].
    - inv_run. unfold market_order_limit_for_side. destruct (side o); mlia.
    - inv_run. mlia.
    - apply price_for_order_type_i64 in E1; mlia.
    - apply bind_Done_inv in E1 as (q' & Hq' & E1). inv_run.
      apply price_for_order_type_i64 in E1; mlia. }
  assert (Hf : forall q, fixed_price_data q = Done d -> 1 <= q <= I64_MAX -> d = q).
  { intros q Hd Hq'. unfold fixed_price_data in Hd. inv_run. unfold as_u64.
    rewrite Z.mod_small; mlia. }
  split; [lia|]. unfold posted_price. destruct (params o) as [|q|q t|q t l s];
    try (apply Hf in E2 as ->; [|lia]; split; [mlia|done]).
  inv_run. pose proof (oracle_pegged_price_data_val (p - opl) ltac:(done)) as Ev.
  split; [rewrite Ev; mlia|].
  rewrite oracle_pegged_price_offset_val; rewrite Ev; [lia|mlia].
Qed.

(** The order must be posted without matching. *)
Definition slides (o : Order) : Prop :=
  match params o with FixedPrice _ t | OraclePeg _ t _ _ => t = PostOnlySlide | _ => False end.

(** A post-only-slide order is placed at a price that crosses no matchable order of
    the opposite side, whatever limit was asked for, and the price data stored for it
    stands for exactly that price. *)
Theorem slide_price_never_crosses o now_ts opl ob M p d :
  bs_side (bookside ob (invert_side (side o))) = invert_side (side o) ->
  bs_rep (bookside ob (invert_side (side o))) M ->
  prices_ok (bookside ob (invert_side (side o))) M opl ->
  (match params o with FixedPrice q _ => is_i64 q | _ => True end) ->
  slides o -> price o now_ts opl ob = Done (p, d) ->
  posted_price o opl d = p /\
  forall c l q, matchable (invert_side (side o)) M now_ts opl c l q ->
    is_price_within_limit (side o) q p = false.
Proof.
  intros Hs HR HP Hq Hsl H. split.
  { eapply price_ok; [|exact H]. unfold slides in Hsl. by destruct (params o). }
  intros c l q Hm. destruct (best_price_ok _ M now_ts opl HR HP) as (r & Eb & Hr). rewrite Hs in Hr.
  assert (Hpf : exists q', price_for_order_type o now_ts opl q' PostOnlySlide ob = Done p).
  { unfold price in H. apply bind_Done_inv in H as (p' & E1 & H).
    apply bind_Done_inv in H as (d' & E2 & H). inv_run. unfold slides in Hsl.
    destruct (params o) as [|q'|q' t|q' t l' s']; try done; subst t; [by exists q'|].
    apply bind_Done_inv in E1 as (q'' & _ & E1). by exists q''. }
  destruct Hpf as [q' Hpf]. unfold price_for_order_type in Hpf.
  rewrite bool_decide_true in Hpf by done. rewrite Eb, bind_Done in Hpf.
  destruct r as [best|]; [|by destruct (Hr c l q)]. destruct Hr as [_ Hr]. specialize (Hr c l q Hm).
  unfold post_only_slide_limit in Hpf. unfold is_price_better, is_price_within_limit in *.
  destruct (side o); simpl in *; inv_run; mlia.
Qed.

(** A bid limited at 18 lots. *)
Definition slide_order : Order :=
  mkOrder Bid 1 1000 0 false 0 DecrementTake (FixedPrice 18 PostOnlySlide).

Definition sample_book : Orderbook := mkOrderbook (bookside_zeroed Bids) sample_side.

(** A concrete instance: the bid slides to 14 under the asks of the sample side, which
    start at 15. *)
Lemma slide_price_never_crosses_witness :
  price slide_order 2000 50 sample_book = Done (14, 14) /\ posted_price slide_order 50 14 = 14.
Proof.
  assert (E : price slide_order 2000 50 sample_book = Done (14, 14)) by (vm_compute; reflexivity).
  split; [exact E|].
  refine (proj1 (slide_price_never_crosses slide_order 2000 50 sample_book sample_maps 14 14 _ _ _ _ _ E)).
  - vm_compute. reflexivity.
  - exact sample_side_rep.
  - exact sample_side_prices.
  - unfold slide_order. simpl. unfold is_i64, I64_MIN, I64_MAX. lia.
  - reflexivity.
Defined.

End Order.
