(* ===== verification/StablePrice.v ===== *)
(** * The stable price model

    state/stable_price.rs: a price that follows the oracle price with a limited rate
    of change, in IEEE 754 arithmetic. *)

From stdpp Require Import base numbers list.
From Stdlib Require Import ZArith Lia SpecFloat.
From S2P Require Import Prelude FixedPoint.

Open Scope Z_scope.

Record StablePriceModel := mkStablePriceModel {
  sp_stable_price : f64;
  sp_last_update_timestamp : Z;
  sp_delay_prices : list f64;                (* [f64; 24] *)
  sp_delay_accumulator_price : f64;
  sp_delay_accumulator_time : Z;
  sp_delay_interval_seconds : Z;
  sp_delay_growth_limit : f32;
  sp_stable_growth_limit : f32;
  sp_last_delay_interval_index : Z;
  sp_reset_on_nonzero_price : Z
}.


(** The [f32] nearest to [n / d]. *)
Definition f32_ratio (n d : Z) : f32 :=
  SFdiv 24 128 (binary_normalize 24 128 n 0 false) (binary_normalize 24 128 d 0 false).

Definition stable_price_default : StablePriceModel :=
  mkStablePriceModel f_zero 0 (replicate 24 f_zero) f_zero 0 (60 * 60)
    (f32_ratio 6 100) (f32_ratio 3 10000) 0 0.

Definition reset_to_price (m : StablePriceModel) (oracle_price : f64) (now_ts : Z) : StablePriceModel :=
  mkStablePriceModel oracle_price now_ts (replicate 24 oracle_price) f_zero 0
    (sp_delay_interval_seconds m) (sp_delay_growth_limit m) (sp_stable_growth_limit m)
    (sp_last_delay_interval_index m)
    (if SFltb f_zero oracle_price then 0 else 1).

Definition delay_interval_index (m : StablePriceModel) (timestamp : Z) : outcome Z :=
  _ ← assert_ (negb (sp_delay_interval_seconds m =? 0));
  Done ((timestamp / sp_delay_interval_seconds m) mod 24).

(** [f64::clamp]: panics unless [min <= max]. *)
Definition f64_clamp (x min max : f64) : outcome f64 :=
  _ ← assert_ (SFleb min max);
  let x := if SFltb x min then min else x in
  Done (if SFltb max x then max else x).

Definition growth_clamped (target prev growth_limit : f64) : outcome f64 :=
  let max := f64_mul prev (f64_add f64_one growth_limit) in
  let min := f64_mul prev (f64_sub f64_one growth_limit) in
  f64_clamp target min max.

(** [xs[a..b].fill(v)], which panics unless [a <= b <= xs.len()]. *)
Definition fill_range {A} (xs : list A) (a b : nat) (v : A) : outcome (list A) :=
  _ ← assert_ (bool_decide (a <= b <= length xs)%nat);
  Done (take a xs ++ replicate (b - a) v ++ drop b xs).

(** The delay price stored when the delay interval changes. *)
Definition new_delay_price (m : StablePriceModel) : outcome f64 :=
  prev ← unwrap (if sp_last_delay_interval_index m =? 0
                 then sp_delay_prices m !! (length (sp_delay_prices m) - 1)%nat
                 else sp_delay_prices m !! Z.to_nat (sp_last_delay_interval_index m - 1));
  let avg := f64_div (sp_delay_accumulator_price m) (f64_of_Z (sp_delay_accumulator_time m)) in
  growth_clamped avg prev (f64_of_f32 (sp_delay_growth_limit m)).

(** The part of [update] that moves to a new delay interval. *)
Definition store_delay_price (m : StablePriceModel) (index : Z) (full_delay_passed : bool) :
    outcome StablePriceModel :=
  p ← new_delay_price m;
  let last := sp_last_delay_interval_index m in
  let prices := sp_delay_prices m in
  prices ←
    (if full_delay_passed then Done (replicate (length prices) p)
     else if last <? index then fill_range prices (Z.to_nat last) (Z.to_nat index) p
     else
       prices ← fill_range prices (Z.to_nat last) (length prices) p;
       fill_range prices 0 (Z.to_nat index) p);
  Done (mkStablePriceModel (sp_stable_price m) (sp_last_update_timestamp m) prices f_zero 0
          (sp_delay_interval_seconds m) (sp_delay_growth_limit m) (sp_stable_growth_limit m)
          index (sp_reset_on_nonzero_price m)).

(** The limit on the relative change of the stable price. *)
Definition stable_growth (m : StablePriceModel) (delay_price dt_limited : f64) : f64 :=
  let prev := sp_stable_price m in
  let fraction := if SFleb prev delay_price then f64_div prev delay_price
                  else f64_div delay_price prev in
  f64_mul (f64_mul (f64_mul (f64_of_f32 (sp_stable_growth_limit m)) fraction) fraction) dt_limited.

Definition set_stable_price (m : StablePriceModel) (p : f64) : StablePriceModel :=
  mkStablePriceModel p (sp_last_update_timestamp m) (sp_delay_prices m)
    (sp_delay_accumulator_price m) (sp_delay_accumulator_time m) (sp_delay_interval_seconds m)
    (sp_delay_growth_limit m) (sp_stable_growth_limit m) (sp_last_delay_interval_index m)
    (sp_reset_on_nonzero_price m).

Definition min_dt : Z := 10.
Definition max_dt : Z := 10 * 60.

(** Accumulating the oracle price and the elapsed time. *)
Definition accumulate (m : StablePriceModel) (now_ts dt : Z) (oracle_price dt_limited : f64) :
    outcome StablePriceModel :=
  t ← u32 (sp_delay_accumulator_time m + dt mod 2 ^ 32);
  Done (mkStablePriceModel (sp_stable_price m) now_ts (sp_delay_prices m)
          (f64_add (sp_delay_accumulator_price m) (f64_mul oracle_price dt_limited)) t
          (sp_delay_interval_seconds m) (sp_delay_growth_limit m) (sp_stable_growth_limit m)
          (sp_last_delay_interval_index m) (sp_reset_on_nonzero_price m)).

Definition stable_price_update (m : StablePriceModel) (now_ts : Z) (oracle_price : f64) :
    outcome StablePriceModel :=
  let m := if (sp_reset_on_nonzero_price m =? 1) && SFltb f_zero oracle_price
           then reset_to_price m oracle_price now_ts else m in
  let dt := Z.max 0 (now_ts - sp_last_update_timestamp m) in
  if dt <? min_dt then Done m
  else
    let full_delay_passed := 24 * sp_delay_interval_seconds m <? dt in
    let dt_limited := f64_of_Z (Z.min dt max_dt) in
    m ← accumulate m now_ts dt oracle_price dt_limited;
    index ← delay_interval_index m now_ts;
    m ← (if index =? sp_last_delay_interval_index m then Done m
         else store_delay_price m index full_delay_passed);
    delay_price ← unwrap (sp_delay_prices m !! Z.to_nat index);
    p ← growth_clamped oracle_price (sp_stable_price m) (stable_growth m delay_price dt_limited);
    Done (set_stable_price m p).

(** ** Comparisons *)

Lemma SFcompare_swap x y : SFcompare y x = CompOpp <$> SFcompare x y.
Proof.
  destruct x as [ | [] | | [] m1 e1], y as [ | [] | | [] m2 e2]; simpl; try done.
  - change (PosDef.Pos.compare_cont Eq) with Pos.compare.
    rewrite (Z.compare_antisym e1 e2), (Pos.compare_antisym m1 m2). by destruct (e1 ?= e2).
  - change (PosDef.Pos.compare_cont Eq) with Pos.compare.
    rewrite (Z.compare_antisym e1 e2), (Pos.compare_antisym m1 m2). by destruct (e1 ?= e2).
Qed.

Lemma SFleb_total x y : x <> S754_nan -> y <> S754_nan -> SFltb x y = false -> SFleb y x = true.
Proof.
  intros Hx Hy. unfold SFltb, SFleb. rewrite (SFcompare_swap x y).
  destruct (SFcompare x y) as [[]|] eqn:E; simpl; try done.
  destruct x as [ | [] | | [] ], y as [ | [] | | [] ]; done.
Qed.

Lemma SFltb_leb x y : SFltb x y = true -> SFleb x y = true.
Proof. unfold SFltb, SFleb. by destruct (SFcompare x y) as [[]|]. Qed.

Lemma SFleb_not_nan x y : SFleb x y = true -> x <> S754_nan /\ y <> S754_nan.
Proof. destruct x, y; done. Qed.

Lemma SFleb_refl x : x <> S754_nan -> SFleb x x = true.
Proof.
  intros H. apply SFleb_total; try done. unfold SFltb.
  pose proof (SFcompare_swap x x) as E. by destruct (SFcompare x x) as [[]|].
Qed.

(** A clamped value lies between the bounds. *)
Lemma f64_clamp_between x lo hi y :
  x <> S754_nan -> f64_clamp x lo hi = Done y -> SFleb lo y = true /\ SFleb y hi = true.
Proof.
  intros Hx. unfold f64_clamp. intros H. inv_run.
  destruct (SFleb_not_nan _ _ Heqb) as [Hlo Hhi].
  destruct (SFltb x lo) eqn:E1; [|destruct (SFltb hi x) eqn:E2].
  - destruct (SFltb hi lo) eqn:E3.
    + split; [done|by apply SFleb_refl].
    + split; [by apply SFleb_refl|done].
  - split; [done|by apply SFleb_refl].
  - split; by apply SFleb_total.
Qed.

(** ** Invariant *)

Record model_ok (m : StablePriceModel) : Prop := {
  mo_len : length (sp_delay_prices m) = 24%nat;
  mo_last : 0 <= sp_last_delay_interval_index m < 24;
  mo_interval : 0 < sp_delay_interval_seconds m
}.

Lemma fill_range_length {A} (xs : list A) a b v ys : fill_range xs a b v = Done ys -> length ys = length xs.
Proof.
  unfold fill_range. intros H. inv_run. apply bool_decide_eq_true in Heqb0.
  rewrite !length_app, length_take, length_replicate, length_drop. lia.
Qed.

Lemma store_delay_price_ok m i full m' :
  model_ok m -> 0 <= i < 24 -> store_delay_price m i full = Done m' ->
  model_ok m' /\ sp_stable_price m' = sp_stable_price m /\
  sp_stable_growth_limit m' = sp_stable_growth_limit m /\ sp_last_delay_interval_index m' = i.
Proof.
  intros [Hl Hi Hs] Hi' H. unfold store_delay_price in H. inv_run. simpl. split_and!; try done.
  constructor; simpl; try done.
  destruct full; [inv_run; by rewrite length_replicate|].
  destruct (sp_last_delay_interval_index m <? i).
  - by rewrite (fill_range_length _ _ _ _ _ E0).
  - inv_run. rewrite (fill_range_length _ _ _ _ _ E0). by rewrite (fill_range_length _ _ _ _ _ E1).
Qed.

Lemma reset_ok m p now_ts : model_ok m -> model_ok (reset_to_price m p now_ts).
Proof. intros []. constructor; simpl; try done. Qed.

(** The bounds on the next stable price, given the delay price in use. *)
Definition growth_lower (prev g : f64) : f64 := f64_mul prev (f64_sub f64_one g).
Definition growth_upper (prev g : f64) : f64 := f64_mul prev (f64_add f64_one g).

(** Every update keeps the model well-formed (24 delay prices, an interval index
    below 24). An update less than 10 seconds after the last one changes nothing; a later
    one moves the stable price by at most the growth limit, scaled by at most 10
    minutes and by the squared ratio of the previous stable price and the delay price
    in use. (Without a requested reset, for an oracle price that is not NaN.) *)
Theorem stable_price_growth_limited m now_ts p m' :
  model_ok m -> sp_reset_on_nonzero_price m = 0 -> p <> S754_nan ->
  stable_price_update m now_ts p = Done m' ->
  model_ok m' /\
  let dt := Z.max 0 (now_ts - sp_last_update_timestamp m) in
  if dt <? 10 then m' = m
  else
    sp_last_update_timestamp m' = now_ts /\
    exists delay_price, delay_price ∈ sp_delay_prices m' /\
      let g := stable_growth m delay_price (f64_of_Z (Z.min dt 600)) in
      SFleb (growth_lower (sp_stable_price m) g) (sp_stable_price m') = true /\
      SFleb (sp_stable_price m') (growth_upper (sp_stable_price m) g) = true.
Proof.
  intros Hm Hr Hp H. unfold stable_price_update in H. rewrite Hr in H. simpl in H.
  unfold min_dt in H. set (dt := Z.max 0 _) in *.
  cbv zeta. destruct (dt <? 10) eqn:Edt; [inv_run; by split|]. inv_run.
  unfold accumulate in E. inv_run. unfold delay_interval_index in E0. inv_run. simpl in *.
  set (i := (now_ts / sp_delay_interval_seconds m) mod 24) in *.
  assert (Hi : 0 <= i < 24) by (apply Z.mod_pos_bound; lia).
  set (m1 := mkStablePriceModel _ _ _ _ _ _ _ _ _ _) in *.
  assert (Hm1 : model_ok m1) by (destruct Hm; by constructor).
  rename a1 into m2, a2 into d.
  assert (Hs : model_ok m2 /\ sp_stable_price m2 = sp_stable_price m /\
    sp_stable_growth_limit m2 = sp_stable_growth_limit m /\ sp_last_update_timestamp m2 = now_ts).
  { destruct (i =? sp_last_delay_interval_index m).
    - inv_run. by split_and!.
    - pose proof (store_delay_price_ok _ _ _ _ Hm1 Hi E1) as (H1 & H2 & H3 & _).
      split_and!; [done|done|done|]. unfold store_delay_price in E1. inv_run. done. }
  destruct Hs as (Ha & Hsp & Hsg & Hts).
  destruct (sp_delay_prices m2 !! Z.to_nat i) as [d'|] eqn:Ed; [|done]. simpl in E2. inv_run.
  split; [destruct Ha; by constructor|]. split; [done|]. exists d. split.
  - simpl. by eapply list_elem_of_lookup_2.
  - unfold growth_clamped in E3. apply (f64_clamp_between _ _ _ _ Hp) in E3.
    unfold stable_growth in *. rewrite Hsp, Hsg in E3. done.
Qed.

(** A model listed at the price 100. *)
Definition model_at_100 : StablePriceModel := reset_to_price stable_price_default (f64_of_Z 100) 0.

(** A concrete instance: the oracle jumps to 200, a minute later. *)
Lemma stable_price_growth_limited_witness :
  exists m', stable_price_update model_at_100 60 (f64_of_Z 200) = Done m' /\ model_ok m' /\
    sp_last_update_timestamp m' = 60.
Proof.
  destruct (stable_price_update model_at_100 60 (f64_of_Z 200)) as [m'| | |] eqn:E;
    [|vm_compute in E; discriminate E..].
  exists m'. split; [reflexivity|].
  destruct (stable_price_growth_limited model_at_100 60 (f64_of_Z 200) m') as [H1 H2].
  - constructor; vm_compute; (split; congruence) || reflexivity.
  - vm_compute. reflexivity.
  - vm_compute. congruence.
  - exact E.
  - split; [exact H1|]. apply H2.
Defined.

(** [n] updates with the oracle at 100, [dt] seconds apart. *)
Fixpoint constant_updates (n : nat) (dt : Z) : outcome StablePriceModel :=
  match n with
  | O => Done model_at_100
  | S n => m ← constant_updates n dt; stable_price_update m (dt * Z.of_nat (S n)) (f64_of_Z 100)
  end.

(** The delay prices, rounded down to integers. *)
Definition delay_prices_floor (o : outcome StablePriceModel) : option (list Z) :=
  match o with Done m => Some (f64_as_i64 <$> sp_delay_prices m) | _ => None end.

(** The delay price is not an average of the oracle price when updates are more
    than ten minutes apart, because the accumulated price uses the limited time step and
    the accumulated time the whole one: with the oracle constantly at 100, a day of
    hourly updates brings the delay prices down to 22, while updates every six minutes
    leave them at 100. *)
Theorem delay_price_decays_at_constant_price :
  delay_prices_floor (constant_updates 24 3600)
    = Some [94; 88; 83; 78; 73; 68; 64; 60; 57; 53; 50; 47; 44; 42; 39; 37; 34; 32; 30; 29; 27;
            25; 24; 22] /\
  delay_prices_floor (constant_updates 240 360) = Some (replicate 24 100).
Proof. split; vm_compute; reflexivity. Qed.

(** An update with an oracle price of zero panics when the stable price is still
    zero (the growth limit is then computed as 0/0, and clamping with it panics), while
    it succeeds once a nonzero price was seen. *)
Theorem update_panics_without_price :
  stable_price_update stable_price_default 100 f_zero = Panic /\
  exists m', stable_price_update model_at_100 100 f_zero = Done m'.
Proof. split; [vm_compute; reflexivity|]. eexists. vm_compute. reflexivity. Qed.
