(* ===== verification/Bank.v ===== *)
(** * Banks

    state/bank.rs: the deposits and borrows of a token. A position of an account holds an
    indexed amount; multiplied by the deposit or borrow index of the bank it is the native
    amount. Interest is charged by growing the indexes. [I80F48] values are their bits.
    The name, padding and reserved bytes are left out. *)

From stdpp Require Import base numbers list.
From Stdlib Require Import ZArith Lia SpecFloat.
From S2P Require Import Prelude FixedPoint TokenPosition Nodes Oracle StablePrice.

Open Scope Z_scope.

Record Bank := mkBank {
  bk_group : Pubkey;
  bk_mint : Pubkey;
  bk_vault : Pubkey;
  bk_oracle : Pubkey;
  bk_oracle_config : OracleConfig;
  bk_stable_price_model : StablePriceModel;
  bk_deposit_index : Z;
  bk_borrow_index : Z;
  bk_indexed_deposits : Z;
  bk_indexed_borrows : Z;
  bk_index_last_updated : Z;
  bk_bank_rate_last_updated : Z;
  bk_avg_utilization : Z;
  bk_adjustment_factor : Z;
  bk_util0 : Z;
  bk_rate0 : Z;
  bk_util1 : Z;
  bk_rate1 : Z;
  bk_max_rate : Z;
  bk_collected_fees_native : Z;
  bk_loan_origination_fee_rate : Z;
  bk_loan_fee_rate : Z;
  bk_maint_asset_weight : Z;
  bk_init_asset_weight : Z;
  bk_maint_liab_weight : Z;
  bk_init_liab_weight : Z;
  bk_liquidation_fee : Z;
  bk_dust : Z;
  bk_flash_loan_token_account_initial : Z;
  bk_flash_loan_approved_amount : Z;
  bk_token_index : Z;
  bk_bump : Z;
  bk_mint_decimals : Z;
  bk_bank_num : Z;
  bk_min_vault_to_deposits_ratio : f64;
  bk_net_borrow_limit_window_size_ts : Z;
  bk_last_net_borrows_window_start_ts : Z;
  bk_net_borrow_limit_per_window_quote : Z;
  bk_net_borrows_in_window : Z;
  bk_borrow_weight_scale_start_quote : f64;
  bk_deposit_weight_scale_start_quote : f64;
  bk_reduce_only : Z;
  bk_force_close : Z;
  bk_disable_asset_liquidation : Z;
  bk_force_withdraw : Z;
  bk_fees_withdrawn : Z;
  bk_token_conditional_swap_taker_fee_rate : f32;
  bk_token_conditional_swap_maker_fee_rate : f32;
  bk_flash_loan_swap_fee_rate : f32;
  bk_interest_target_utilization : f32;
  bk_interest_curve_scaling : f64;
  bk_potential_serum_tokens : Z;
  bk_maint_weight_shift_start : Z;
  bk_maint_weight_shift_end : Z;
  bk_maint_weight_shift_duration_inv : Z;
  bk_maint_weight_shift_asset_target : Z;
  bk_maint_weight_shift_liab_target : Z;
  bk_fallback_oracle : Pubkey;
  bk_deposit_limit : Z;
  bk_zero_util_rate : Z;
  bk_platform_liquidation_fee : Z;
  bk_collected_liquidation_fees : Z;
  bk_collected_collateral_fees : Z;
  bk_collateral_fee_per_day : f32
}.

#[export] Instance eta_Bank : Eta Bank := fun b =>
  mkBank
    (bk_group b) (bk_mint b) (bk_vault b) (bk_oracle b) (bk_oracle_config b)
    (bk_stable_price_model b) (bk_deposit_index b) (bk_borrow_index b)
    (bk_indexed_deposits b) (bk_indexed_borrows b) (bk_index_last_updated b)
    (bk_bank_rate_last_updated b) (bk_avg_utilization b) (bk_adjustment_factor b)
    (bk_util0 b) (bk_rate0 b) (bk_util1 b) (bk_rate1 b) (bk_max_rate b)
    (bk_collected_fees_native b) (bk_loan_origination_fee_rate b) (bk_loan_fee_rate b)
    (bk_maint_asset_weight b) (bk_init_asset_weight b) (bk_maint_liab_weight b)
    (bk_init_liab_weight b) (bk_liquidation_fee b) (bk_dust b)
    (bk_flash_loan_token_account_initial b) (bk_flash_loan_approved_amount b)
    (bk_token_index b) (bk_bump b) (bk_mint_decimals b) (bk_bank_num b)
    (bk_min_vault_to_deposits_ratio b) (bk_net_borrow_limit_window_size_ts b)
    (bk_last_net_borrows_window_start_ts b) (bk_net_borrow_limit_per_window_quote b)
    (bk_net_borrows_in_window b) (bk_borrow_weight_scale_start_quote b)
    (bk_deposit_weight_scale_start_quote b) (bk_reduce_only b) (bk_force_close b)
    (bk_disable_asset_liquidation b) (bk_force_withdraw b) (bk_fees_withdrawn b)
    (bk_token_conditional_swap_taker_fee_rate b)
    (bk_token_conditional_swap_maker_fee_rate b) (bk_flash_loan_swap_fee_rate b)
    (bk_interest_target_utilization b) (bk_interest_curve_scaling b)
    (bk_potential_serum_tokens b) (bk_maint_weight_shift_start b)
    (bk_maint_weight_shift_end b) (bk_maint_weight_shift_duration_inv b)
    (bk_maint_weight_shift_asset_target b) (bk_maint_weight_shift_liab_target b)
    (bk_fallback_oracle b) (bk_deposit_limit b) (bk_zero_util_rate b)
    (bk_platform_liquidation_fee b) (bk_collected_liquidation_fees b)
    (bk_collected_collateral_fees b) (bk_collateral_fee_per_day b).

Definition set_bk_deposit_index (b : Bank) (v : Z) : Bank := b <| bk_deposit_index := v |>.
Definition set_bk_borrow_index (b : Bank) (v : Z) : Bank := b <| bk_borrow_index := v |>.
Definition set_bk_indexed_deposits (b : Bank) (v : Z) : Bank := b <| bk_indexed_deposits := v |>.
Definition set_bk_indexed_borrows (b : Bank) (v : Z) : Bank := b <| bk_indexed_borrows := v |>.
Definition set_bk_index_last_updated (b : Bank) (v : Z) : Bank := b <| bk_index_last_updated := v |>.
Definition set_bk_bank_rate_last_updated (b : Bank) (v : Z) : Bank := b <| bk_bank_rate_last_updated := v |>.
Definition set_bk_avg_utilization (b : Bank) (v : Z) : Bank := b <| bk_avg_utilization := v |>.
Definition set_bk_collected_fees_native (b : Bank) (v : Z) : Bank := b <| bk_collected_fees_native := v |>.
Definition set_bk_dust (b : Bank) (v : Z) : Bank := b <| bk_dust := v |>.
Definition set_bk_last_net_borrows_window_start_ts (b : Bank) (v : Z) : Bank := b <| bk_last_net_borrows_window_start_ts := v |>.
Definition set_bk_net_borrows_in_window (b : Bank) (v : Z) : Bank := b <| bk_net_borrows_in_window := v |>.
Definition set_bk_interest_curve_scaling (b : Bank) (v : f64) : Bank := b <| bk_interest_curve_scaling := v |>.
Definition set_bk_potential_serum_tokens (b : Bank) (v : Z) : Bank := b <| bk_potential_serum_tokens := v |>.
Definition set_bk_stable_price_model (b : Bank) (v : StablePriceModel) : Bank := b <| bk_stable_price_model := v |>.
Definition set_bk_collected_liquidation_fees (b : Bank) (v : Z) : Bank := b <| bk_collected_liquidation_fees := v |>.
Definition set_bk_collected_collateral_fees (b : Bank) (v : Z) : Bank := b <| bk_collected_collateral_fees := v |>.
Definition set_bk_fees_withdrawn (b : Bank) (v : Z) : Bank := b <| bk_fees_withdrawn := v |>.
Definition set_bk_flash_loan_token_account_initial (b : Bank) (v : Z) : Bank := b <| bk_flash_loan_token_account_initial := v |>.
Definition set_bk_flash_loan_approved_amount (b : Bank) (v : Z) : Bank := b <| bk_flash_loan_approved_amount := v |>.

(** ** Configuration *)

Module BankCfg.

Definition are_deposits_reduce_only (b : Bank) : bool := bk_reduce_only b =? 1.

Definition are_borrows_reduce_only (b : Bank) : bool := (bk_reduce_only b =? 1) || (bk_reduce_only b =? 2).

Definition is_force_close (b : Bank) : bool := bk_force_close b =? 1.

Definition is_force_withdraw (b : Bank) : bool := bk_force_withdraw b =? 1.

Definition allows_asset_liquidation (b : Bank) : bool := bk_disable_asset_liquidation b =? 0.

End BankCfg.

(** A bank for the same token with its own vault and totals. *)
Definition from_existing_bank (existing_bank : Bank) (vault : Pubkey) (bank_num bump : Z) : Bank := {|
  bk_group := bk_group existing_bank;
  bk_mint := bk_mint existing_bank;
  bk_vault := vault;
  bk_oracle := bk_oracle existing_bank;
  bk_oracle_config := bk_oracle_config existing_bank;
  bk_stable_price_model := bk_stable_price_model existing_bank;
  bk_deposit_index := bk_deposit_index existing_bank;
  bk_borrow_index := bk_borrow_index existing_bank;
  bk_indexed_deposits := 0;
  bk_indexed_borrows := 0;
  bk_index_last_updated := bk_index_last_updated existing_bank;
  bk_bank_rate_last_updated := bk_bank_rate_last_updated existing_bank;
  bk_avg_utilization := bk_avg_utilization existing_bank;
  bk_adjustment_factor := bk_adjustment_factor existing_bank;
  bk_util0 := bk_util0 existing_bank;
  bk_rate0 := bk_rate0 existing_bank;
  bk_util1 := bk_util1 existing_bank;
  bk_rate1 := bk_rate1 existing_bank;
  bk_max_rate := bk_max_rate existing_bank;
  bk_collected_fees_native := 0;
  bk_loan_origination_fee_rate := bk_loan_origination_fee_rate existing_bank;
  bk_loan_fee_rate := bk_loan_fee_rate existing_bank;
  bk_maint_asset_weight := bk_maint_asset_weight existing_bank;
  bk_init_asset_weight := bk_init_asset_weight existing_bank;
  bk_maint_liab_weight := bk_maint_liab_weight existing_bank;
  bk_init_liab_weight := bk_init_liab_weight existing_bank;
  bk_liquidation_fee := bk_liquidation_fee existing_bank;
  bk_dust := 0;
  bk_flash_loan_token_account_initial := U64_MAX;
  bk_flash_loan_approved_amount := 0;
  bk_token_index := bk_token_index existing_bank;
  bk_bump := bump;
  bk_mint_decimals := bk_mint_decimals existing_bank;
  bk_bank_num := bank_num;
  bk_min_vault_to_deposits_ratio := bk_min_vault_to_deposits_ratio existing_bank;
  bk_net_borrow_limit_window_size_ts := bk_net_borrow_limit_window_size_ts existing_bank;
  bk_last_net_borrows_window_start_ts := bk_last_net_borrows_window_start_ts existing_bank;
  bk_net_borrow_limit_per_window_quote := bk_net_borrow_limit_per_window_quote existing_bank;
  bk_net_borrows_in_window := 0;
  bk_borrow_weight_scale_start_quote := bk_borrow_weight_scale_start_quote existing_bank;
  bk_deposit_weight_scale_start_quote := bk_deposit_weight_scale_start_quote existing_bank;
  bk_reduce_only := bk_reduce_only existing_bank;
  bk_force_close := bk_force_close existing_bank;
  bk_disable_asset_liquidation := bk_disable_asset_liquidation existing_bank;
  bk_force_withdraw := bk_force_withdraw existing_bank;
  bk_fees_withdrawn := 0;
  bk_token_conditional_swap_taker_fee_rate := bk_token_conditional_swap_taker_fee_rate existing_bank;
  bk_token_conditional_swap_maker_fee_rate := bk_token_conditional_swap_maker_fee_rate existing_bank;
  bk_flash_loan_swap_fee_rate := bk_flash_loan_swap_fee_rate existing_bank;
  bk_interest_target_utilization := bk_interest_target_utilization existing_bank;
  bk_interest_curve_scaling := bk_interest_curve_scaling existing_bank;
  bk_potential_serum_tokens := 0;
  bk_maint_weight_shift_start := bk_maint_weight_shift_start existing_bank;
  bk_maint_weight_shift_end := bk_maint_weight_shift_end existing_bank;
  bk_maint_weight_shift_duration_inv := bk_maint_weight_shift_duration_inv existing_bank;
  bk_maint_weight_shift_asset_target := bk_maint_weight_shift_asset_target existing_bank;
  bk_maint_weight_shift_liab_target := bk_maint_weight_shift_liab_target existing_bank;
  bk_fallback_oracle := bk_oracle existing_bank;
  bk_deposit_limit := bk_deposit_limit existing_bank;
  bk_zero_util_rate := bk_zero_util_rate existing_bank;
  bk_platform_liquidation_fee := bk_platform_liquidation_fee existing_bank;
  bk_collected_liquidation_fees := 0;
  bk_collected_collateral_fees := 0;
  bk_collateral_fee_per_day := bk_collateral_fee_per_day existing_bank
|}.

(** The checks of [verify], in order, with the error each gives. *)
Definition verify_checks (b : Bank) : list (bool * Error) :=
  let gte (c : bool) := (c, ERequireGte) in
  let f_ge_0 (x : spec_float) := gte (SFleb f_zero x) in
  [ gte (0 <=? oc_conf_filter (bk_oracle_config b));
    gte (0 <=? bk_util0 b);
    gte (bk_util0 b <=? bk_util1 b);
    gte (bk_util1 b <=? fx_one);
    gte (0 <=? bk_rate0 b);
    gte (0 <=? bk_rate1 b);
    gte (0 <=? bk_max_rate b);
    gte (0 <=? bk_adjustment_factor b);
    gte (0 <=? bk_loan_fee_rate b);
    gte (0 <=? bk_loan_origination_fee_rate b);
    f_ge_0 (sp_delay_growth_limit (bk_stable_price_model b));
    f_ge_0 (sp_stable_growth_limit (bk_stable_price_model b));
    gte (0 <=? bk_init_asset_weight b);
    gte (bk_init_asset_weight b <=? bk_maint_asset_weight b);
    gte (0 <=? bk_maint_liab_weight b);
    gte (bk_maint_liab_weight b <=? bk_init_liab_weight b);
    gte (0 <=? bk_liquidation_fee b);
    f_ge_0 (bk_min_vault_to_deposits_ratio b);
    gte (SFleb (bk_min_vault_to_deposits_ratio b) f64_one);
    gte (-1 <=? bk_net_borrow_limit_per_window_quote b);
    (SFltb f_zero (bk_borrow_weight_scale_start_quote b), ERequireGt);
    (SFltb f_zero (bk_deposit_weight_scale_start_quote b), ERequireGt);
    gte (bk_reduce_only b <=? 2);
    f_ge_0 (bk_token_conditional_swap_taker_fee_rate b);
    f_ge_0 (bk_token_conditional_swap_maker_fee_rate b);
    f_ge_0 (bk_flash_loan_swap_fee_rate b);
    gte (SFleb f64_one (bk_interest_curve_scaling b));
    f_ge_0 (bk_interest_target_utilization b);
    gte (SFleb (bk_interest_target_utilization b) (f32_ratio 1 1));
    gte (0 <=? bk_maint_weight_shift_duration_inv b);
    gte (0 <=? bk_maint_weight_shift_asset_target b);
    gte (0 <=? bk_maint_weight_shift_liab_target b);
    gte (0 <=? bk_zero_util_rate b);
    gte (0 <=? bk_platform_liquidation_fee b) ] ++
  (if negb (BankCfg.allows_asset_liquidation b) then
     [ (BankCfg.are_borrows_reduce_only b, EMango SomeError);
       (bk_maint_asset_weight b =? 0, ERequireEq) ]
   else []) ++
  [ f_ge_0 (bk_collateral_fee_per_day b) ] ++
  (if BankCfg.is_force_withdraw b then
     [ (BankCfg.are_deposits_reduce_only b, EMango SomeError);
       (negb (BankCfg.allows_asset_liquidation b), EMango SomeError);
       (bk_maint_asset_weight b =? 0, ERequireEq) ]
   else []).

Definition verify (b : Bank) : outcome unit :=
  foldr (fun '(c, e) k => _ ← require c e; k) (Done tt) (verify_checks b).

Section bank.
Context `{FixedOps}.

(** [TokenPosition::native]. *)
Definition native (t : TokenPosition) (b : Bank) : outcome Z :=
  if 0 <? tp_indexed_position t then fx_mul (tp_indexed_position t) (bk_deposit_index b)
  else fx_mul (tp_indexed_position t) (bk_borrow_index b).

Definition native_borrows (b : Bank) : outcome Z := fx_mul (bk_borrow_index b) (bk_indexed_borrows b).

Definition native_deposits (b : Bank) : outcome Z := fx_mul (bk_deposit_index b) (bk_indexed_deposits b).

Definition maint_weights (b : Bank) (now_ts : Z) : outcome (Z * Z) :=
  if (bk_maint_weight_shift_duration_inv b =? 0) || (now_ts <=? bk_maint_weight_shift_start b) then
    Done (bk_maint_asset_weight b, bk_maint_liab_weight b)
  else if bk_maint_weight_shift_end b <=? now_ts then
    Done (bk_maint_weight_shift_asset_target b, bk_maint_weight_shift_liab_target b)
  else
    dt ← u64 (now_ts - bk_maint_weight_shift_start b);
    dt ← fx_from_int dt;
    scale ← fx_mul dt (bk_maint_weight_shift_duration_inv b);
    da ← fx_sub (bk_maint_weight_shift_asset_target b) (bk_maint_asset_weight b);
    sa ← fx_mul scale da;
    asset ← fx_add (bk_maint_asset_weight b) sa;
    dl ← fx_sub (bk_maint_weight_shift_liab_target b) (bk_maint_liab_weight b);
    sl ← fx_mul scale dl;
    liab ← fx_add (bk_maint_liab_weight b) sl;
    Done (asset, liab).

Definition enforce_max_utilization (b : Bank) (max_utilization : Z) : outcome unit :=
  bank_native_deposits ← native_deposits b;
  bank_native_borrows ← native_borrows b;
  limit ← fx_mul max_utilization bank_native_deposits;
  require (negb (limit <? bank_native_borrows)) (EMango BankBorrowLimitReached).

Definition enforce_borrows_lte_deposits (b : Bank) : outcome unit := enforce_max_utilization b fx_one.

Definition enforce_max_utilization_on_borrow (b : Bank) : outcome unit :=
  r ← fx_from_f64 (bk_min_vault_to_deposits_ratio b);
  m ← fx_sub fx_one r;
  enforce_max_utilization b m.

(** ** Net borrow limits *)

Definition update_net_borrows (b : Bank) (native_amount now_ts : Z) : outcome Bank :=
  window_end ← u64 (bk_last_net_borrows_window_start_ts b + bk_net_borrow_limit_window_size_ts b);
  let in_new_window := window_end <=? now_ts in
  c ← fx_ceil native_amount;
  amount ← ClampToInt.clamp_to_i64 c;
  if in_new_window then
    _ ← assert_ (negb (bk_net_borrow_limit_window_size_ts b =? 0));
    start ← u64 (now_ts / bk_net_borrow_limit_window_size_ts b * bk_net_borrow_limit_window_size_ts b);
    Done (set_bk_net_borrows_in_window (set_bk_last_net_borrows_window_start_ts b start) amount)
  else
    n ← i64 (bk_net_borrows_in_window b + amount);
    Done (set_bk_net_borrows_in_window b n).

(** [Bank::stable_price]. *)
Definition bank_stable_price (b : Bank) : outcome Z :=
  fx_from_f64 (sp_stable_price (bk_stable_price_model b)).

Definition remaining_net_borrows_quote (b : Bank) (oracle_price : Z) : outcome Z :=
  if (bk_net_borrows_in_window b <? 0) || (bk_net_borrow_limit_per_window_quote b <? 0) then
    Done I128_MAX
  else
    sp ← bank_stable_price b;
    let price := Z.max oracle_price sp in
    net_borrows_quote ← unwrap (fx_checked_mul_int price (bk_net_borrows_in_window b));
    limit ← fx_from_int (bk_net_borrow_limit_per_window_quote b);
    fx_sub limit net_borrows_quote.

Definition check_net_borrows (b : Bank) (oracle_price : Z) : outcome unit :=
  remaining_quote ← remaining_net_borrows_quote b oracle_price;
  require (negb (remaining_quote <? 0)) (EMango BankNetBorrowsLimitReached).

(** ** Deposit limits *)

Definition remaining_deposits_until_limit (b : Bank) : outcome Z :=
  if bk_deposit_limit b =? 0 then Done I128_MAX
  else
    d ← fx_add (bk_indexed_deposits b) 1;
    deposits ← fx_mul (bk_deposit_index b) d;
    serum ← fx_from_int (bk_potential_serum_tokens b);
    total ← fx_add deposits serum;
    limit ← fx_from_int (bk_deposit_limit b);
    fx_sub limit total.

Definition check_deposit_and_oo_limit (b : Bank) : outcome unit :=
  if bk_deposit_limit b =? 0 then Done tt
  else
    deposits ← native_deposits b;
    serum ← fx_from_int (bk_potential_serum_tokens b);
    total ← fx_add deposits serum;
    limit ← fx_from_int (bk_deposit_limit b);
    remaining ← fx_sub limit total;
    require (negb (remaining <? 0)) (EMango BankDepositLimit).

(** ** Deposits and withdrawals *)

Definition update_cumulative_interest (b : Bank) (t : TokenPosition) (opening_indexed_position : Z) :
    outcome TokenPosition :=
  t ←
    (if 0 <? opening_indexed_position then
       d ← fx_sub (bk_deposit_index b) (tp_previous_index t);
       i ← fx_mul d opening_indexed_position;
       Done (set_tp_cumulative_deposit_interest t
               (f64_add (tp_cumulative_deposit_interest t) (fx_to_f64 i)))
     else
       d ← fx_sub (bk_borrow_index b) (tp_previous_index t);
       i ← fx_mul d opening_indexed_position;
       Done (set_tp_cumulative_borrow_interest t
               (f64_sub (tp_cumulative_borrow_interest t) (fx_to_f64 i))));
  Done (set_tp_previous_index t
          (if 0 <? tp_indexed_position t then bk_deposit_index b else bk_borrow_index b)).

(** The closure [div_rounding_up] of [deposit_internal]; [I80F48::DELTA] is one bit. *)
Definition div_rounding_up (native index : Z) : outcome Z :=
  indexed ← fx_div native index;
  p ← fx_mul indexed index;
  if p <? native then fx_add indexed 1 else Done indexed.

(** The last part of [deposit_internal]: adding to deposits. *)
Definition add_to_deposits (b : Bank) (t : TokenPosition) (native_amount : Z) :
    outcome (Bank * TokenPosition) :=
  indexed_change ← div_rounding_up native_amount (bk_deposit_index b);
  d ← fx_add (bk_indexed_deposits b) indexed_change;
  p ← fx_add (tp_indexed_position t) indexed_change;
  Done (set_bk_indexed_deposits b d, set_tp_indexed_position t p).

Definition deposit_internal (b : Bank) (t : TokenPosition) (native_amount : Z)
    (allow_dusting : bool) (now_ts : Z) : outcome (Bank * TokenPosition * bool) :=
  _ ← require (0 <=? native_amount) ERequireGte;
  native_position ← native t b;
  if native_position <? 0 then
    neg_amount ← fx_neg native_amount;
    b ← update_net_borrows b (Z.max native_position neg_amount) now_ts;
    new_native_position ← fx_add native_position native_amount;
    indexed_change ← div_rounding_up native_amount (bk_borrow_index b);
    new_indexed_value ← fx_add (tp_indexed_position t) indexed_change;
    if new_indexed_value <? 0 then
      br ← fx_sub (bk_indexed_borrows b) indexed_change;
      Done (set_bk_indexed_borrows b br, set_tp_indexed_position t new_indexed_value, true)
    else if (new_native_position <? fx_one) && allow_dusting then
      du ← fx_add (bk_dust b) new_native_position;
      br ← fx_add (bk_indexed_borrows b) (tp_indexed_position t);
      Done (set_bk_indexed_borrows (set_bk_dust b du) br, set_tp_indexed_position t 0, false)
    else
      br ← fx_add (bk_indexed_borrows b) (tp_indexed_position t);
      let b := set_bk_indexed_borrows b br in
      let t := set_tp_indexed_position t 0 in
      '(b, t) ← add_to_deposits b t (Z.max new_native_position 0);
      Done (b, t, true)
  else
    '(b, t) ← add_to_deposits b t native_amount;
    Done (b, t, true).

Definition deposit_internal_wrapper (b : Bank) (t : TokenPosition) (native_amount : Z)
    (allow_dusting : bool) (now_ts : Z) : outcome (Bank * TokenPosition * bool) :=
  let opening_indexed_position := tp_indexed_position t in
  '(b, t, result) ← deposit_internal b t native_amount allow_dusting now_ts;
  t ← update_cumulative_interest b t opening_indexed_position;
  Done (b, t, result).

Definition deposit (b : Bank) (t : TokenPosition) (native_amount now_ts : Z) :
    outcome (Bank * TokenPosition * bool) :=
  deposit_internal_wrapper b t native_amount (negb (Token.is_in_use t)) now_ts.

Definition deposit_with_dusting (b : Bank) (t : TokenPosition) (native_amount now_ts : Z) :
    outcome (Bank * TokenPosition * bool) :=
  '(b, t, not_dusted) ← deposit_internal_wrapper b t native_amount true now_ts;
  Done (b, t, not_dusted || Token.is_in_use t).

Record WithdrawResult := mkWithdrawResult {
  wr_position_is_active : bool;
  wr_loan_origination_fee : Z;
  wr_loan_amount : Z
}.

Definition has_loan (r : WithdrawResult) : bool := 0 <? wr_loan_amount r.

(** The last part of [withdraw_internal]: adding to borrows, with the loan origination
    fee if asked for. *)
Definition add_to_borrows (b : Bank) (t : TokenPosition) (native_amount : Z)
    (with_loan_origination_fee : bool) (now_ts : Z) : outcome (Bank * TokenPosition * WithdrawResult) :=
  '(b, native_amount, loan_origination_fee) ←
    (if with_loan_origination_fee then
       fee ← fx_mul (bk_loan_origination_fee_rate b) native_amount;
       c ← fx_add (bk_collected_fees_native b) fee;
       n ← fx_add native_amount fee;
       Done (set_bk_collected_fees_native b c, n, fee)
     else Done (b, native_amount, 0));
  indexed_change ← fx_div native_amount (bk_borrow_index b);
  br ← fx_add (bk_indexed_borrows b) indexed_change;
  let b := set_bk_indexed_borrows b br in
  p ← fx_sub (tp_indexed_position t) indexed_change;
  let t := set_tp_indexed_position t p in
  b ← update_net_borrows b native_amount now_ts;
  Done (b, t, mkWithdrawResult true loan_origination_fee native_amount).

Definition withdraw_internal (b : Bank) (t : TokenPosition) (native_amount : Z)
    (with_loan_origination_fee allow_dusting : bool) (now_ts : Z) :
    outcome (Bank * TokenPosition * WithdrawResult) :=
  _ ← require (0 <=? native_amount) ERequireGte;
  native_position ← native t b;
  if negb (native_position <? 0) then
    new_native_position ← fx_sub native_position native_amount;
    if negb (new_native_position <? 0) then
      if (new_native_position <? fx_one) && allow_dusting then
        du ← fx_add (bk_dust b) new_native_position;
        d ← fx_sub (bk_indexed_deposits b) (tp_indexed_position t);
        Done (set_bk_indexed_deposits (set_bk_dust b du) d, set_tp_indexed_position t 0,
              mkWithdrawResult false 0 0)
      else
        indexed_change ← fx_div native_amount (bk_deposit_index b);
        d ← fx_sub (bk_indexed_deposits b) indexed_change;
        p ← fx_sub (tp_indexed_position t) indexed_change;
        Done (set_bk_indexed_deposits b d, set_tp_indexed_position t p, mkWithdrawResult true 0 0)
    else
      d ← fx_sub (bk_indexed_deposits b) (tp_indexed_position t);
      n ← fx_neg new_native_position;
      add_to_borrows (set_bk_indexed_deposits b d) (set_tp_indexed_position t 0) n
        with_loan_origination_fee now_ts
  else add_to_borrows b t native_amount with_loan_origination_fee now_ts.

Definition withdraw_internal_wrapper (b : Bank) (t : TokenPosition) (native_amount : Z)
    (with_loan_origination_fee allow_dusting : bool) (now_ts : Z) :
    outcome (Bank * TokenPosition * WithdrawResult) :=
  let opening_indexed_position := tp_indexed_position t in
  '(b, t, res) ← withdraw_internal b t native_amount with_loan_origination_fee allow_dusting now_ts;
  t ← update_cumulative_interest b t opening_indexed_position;
  Done (b, t, res).

Definition withdraw_without_fee (b : Bank) (t : TokenPosition) (native_amount now_ts : Z) :
    outcome (Bank * TokenPosition * bool) :=
  '(b, t, r) ← withdraw_internal_wrapper b t native_amount false (negb (Token.is_in_use t)) now_ts;
  Done (b, t, wr_position_is_active r).

Definition withdraw_without_fee_with_dusting (b : Bank) (t : TokenPosition) (native_amount now_ts : Z) :
    outcome (Bank * TokenPosition * bool) :=
  '(b, t, r) ← withdraw_internal_wrapper b t native_amount false true now_ts;
  Done (b, t, wr_position_is_active r || Token.is_in_use t).

Definition withdraw_with_fee (b : Bank) (t : TokenPosition) (native_amount now_ts : Z) :
    outcome (Bank * TokenPosition * WithdrawResult) :=
  withdraw_internal_wrapper b t native_amount true (negb (Token.is_in_use t)) now_ts.

Definition withdraw_loan_origination_fee (b : Bank) (t : TokenPosition)
    (already_borrowed_native_amount now_ts : Z) : outcome (Bank * TokenPosition * WithdrawResult) :=
  loan_origination_fee ← fx_mul (bk_loan_origination_fee_rate b) already_borrowed_native_amount;
  c ← fx_add (bk_collected_fees_native b) loan_origination_fee;
  '(b, t, r) ← withdraw_internal_wrapper (set_bk_collected_fees_native b c) t loan_origination_fee
                 false (negb (Token.is_in_use t)) now_ts;
  Done (b, t, mkWithdrawResult (wr_position_is_active r) loan_origination_fee 0).

Definition dust_if_possible (b : Bank) (t : TokenPosition) (now_ts : Z) :
    outcome (Bank * TokenPosition * bool) :=
  if Token.is_in_use t then Done (b, t, true)
  else
    n ← native t b;
    if (0 <=? n) && (n <? fx_one) then withdraw_without_fee b t 0 now_ts
    else Done (b, t, true).

Definition change_without_fee (b : Bank) (t : TokenPosition) (native_amount now_ts : Z) :
    outcome (Bank * TokenPosition * bool) :=
  if 0 <=? native_amount then deposit b t native_amount now_ts
  else n ← fx_neg native_amount; withdraw_without_fee b t n now_ts.

Definition change_with_fee (b : Bank) (t : TokenPosition) (native_amount now_ts : Z) :
    outcome (Bank * TokenPosition * WithdrawResult) :=
  if 0 <=? native_amount then
    '(b, t, active) ← deposit b t native_amount now_ts;
    Done (b, t, mkWithdrawResult active 0 0)
  else n ← fx_neg native_amount; withdraw_with_fee b t n now_ts.

Record TransferResult := mkTransferResult {
  tr_source_is_active : bool;
  tr_target_is_active : bool;
  tr_loan_origination_fee : Z;
  tr_loan_amount : Z
}.

Definition transfer_has_loan (r : TransferResult) : bool := 0 <? tr_loan_amount r.

(** The bank and both positions after a transfer. *)
Definition checked_transfer_with_fee (b : Bank) (source : TokenPosition) (source_amount : Z)
    (target : TokenPosition) (target_amount now_ts oracle_price : Z) :
    outcome (Bank * TokenPosition * TokenPosition * TransferResult) :=
  let before_borrows := bk_indexed_borrows b in
  let before_deposits := bk_indexed_deposits b in
  '(b, source, withdraw_result) ←
    (if negb (source_amount =? 0) then
       '(b, source, r) ← withdraw_with_fee b source source_amount now_ts;
       _ ← require ((0 <=? tp_indexed_position source) || negb (BankCfg.are_borrows_reduce_only b))
             (EMango TokenInReduceOnlyMode);
       Done (b, source, r)
     else Done (b, source, mkWithdrawResult true 0 0));
  '(b, target, target_is_active) ←
    (if negb (target_amount =? 0) then
       '(b, target, active) ← deposit b target target_amount now_ts;
       _ ← require ((tp_indexed_position target <=? 0) || negb (BankCfg.are_deposits_reduce_only b))
             (EMango TokenInReduceOnlyMode);
       Done (b, target, active)
     else Done (b, target, true));
  bb ← fx_add before_borrows 1;
  _ ← (if bb <? bk_indexed_borrows b then check_net_borrows b oracle_price else Done tt);
  bd ← fx_add before_deposits 1;
  _ ← (if bd <? bk_indexed_deposits b then check_deposit_and_oo_limit b else Done tt);
  Done (b, source, target,
        mkTransferResult (wr_position_is_active withdraw_result) target_is_active
          (wr_loan_origination_fee withdraw_result) (wr_loan_amount withdraw_result)).

(** ** Interest *)

(** [YEAR_I80F48]: the seconds of a year. *)
Definition YEAR_I80F48 : Z := fx_int 31536000.

Definition instantaneous_utilization (native_total_deposits native_total_borrows : Z) : outcome Z :=
  if native_total_deposits =? 0 then Done 0
  else
    q ← fx_div native_total_borrows native_total_deposits;
    Done (Z.min (Z.max q 0) fx_one).

(** The piecewise linear curve of [interest_rate_curve_calculator], before scaling. *)
Definition interest_rate_curve (utilization zero_util_rate util0 rate0 util1 rate1 max_rate : Z) :
    outcome Z :=
  if utilization <=? util0 then
    d ← fx_sub rate0 zero_util_rate;
    slope ← fx_div d util0;
    p ← fx_mul slope utilization;
    fx_add zero_util_rate p
  else if utilization <=? util1 then
    extra_util ← fx_sub utilization util0;
    d ← fx_sub rate1 rate0;
    w ← fx_sub util1 util0;
    slope ← fx_div d w;
    p ← fx_mul slope extra_util;
    fx_add rate0 p
  else
    extra_util ← fx_sub utilization util1;
    d ← fx_sub max_rate rate1;
    w ← fx_sub fx_one util1;
    slope ← fx_div d w;
    p ← fx_mul slope extra_util;
    fx_add rate1 p.

Definition interest_rate_curve_calculator
    (utilization zero_util_rate util0 rate0 util1 rate1 max_rate : Z) (scaling : f64) : outcome Z :=
  let utilization := Z.min (Z.max utilization 0) fx_one in
  v ← interest_rate_curve utilization zero_util_rate util0 rate0 util1 rate1 max_rate;
  if SFeqb scaling f_zero then Done v
  else s ← fx_from_f64 scaling; fx_mul v s.

Definition compute_interest_rate (b : Bank) (utilization : Z) : outcome Z :=
  interest_rate_curve_calculator utilization (bk_zero_util_rate b) (bk_util0 b) (bk_rate0 b)
    (bk_util1 b) (bk_rate1 b) (bk_max_rate b) (bk_interest_curve_scaling b).

(** [index * rate * diff_ts / YEAR + index]. *)
Definition grow_index (index rate diff_ts : Z) : outcome Z :=
  x ← fx_mul index rate;
  x ← fx_mul x diff_ts;
  x ← fx_div x YEAR_I80F48;
  fx_add x index.

(** The new deposit index, borrow index, borrow fees, borrow rate and deposit rate. *)
Definition compute_index (b : Bank) (indexed_total_deposits indexed_total_borrows diff_ts : Z) :
    outcome (Z * Z * Z * Z * Z) :=
  native_total_deposits ← fx_mul (bk_deposit_index b) indexed_total_deposits;
  native_total_borrows ← fx_mul (bk_borrow_index b) indexed_total_borrows;
  u ← instantaneous_utilization native_total_deposits native_total_borrows;
  borrow_rate ← compute_interest_rate b u;
  deposit_rate ← fx_mul borrow_rate u;
  borrow_rate_with_fees ← fx_add borrow_rate (bk_loan_fee_rate b);
  f ← fx_mul native_total_borrows (bk_loan_fee_rate b);
  f ← fx_mul f diff_ts;
  borrow_fees ← fx_div f YEAR_I80F48;
  borrow_index ← grow_index (bk_borrow_index b) borrow_rate_with_fees diff_ts;
  deposit_index ← grow_index (bk_deposit_index b) deposit_rate diff_ts;
  Done (deposit_index, borrow_index, borrow_fees, borrow_rate, deposit_rate).

Definition compute_new_avg_utilization (b : Bank) (indexed_total_deposits indexed_total_borrows now_ts : Z) :
    outcome Z :=
  if now_ts =? 0 then Done 0
  else
    native_total_deposits ← fx_mul (bk_deposit_index b) indexed_total_deposits;
    native_total_borrows ← fx_mul (bk_borrow_index b) indexed_total_borrows;
    u ← instantaneous_utilization native_total_deposits native_total_borrows;
    d ← u64 (bk_index_last_updated b - bk_bank_rate_last_updated b);
    previous_avg_time ← fx_from_int d;
    d ← u64 (now_ts - bk_index_last_updated b);
    diff_ts ← fx_from_int d;
    d ← u64 (now_ts - bk_bank_rate_last_updated b);
    new_avg_time ← fx_from_int d;
    if new_avg_time <=? 0 then Done u
    else
      x ← fx_mul (bk_avg_utilization b) previous_avg_time;
      y ← fx_mul u diff_ts;
      s ← fx_add x y;
      fx_div s new_avg_time.

Definition update_interest_rate_scaling (b : Bank) : Bank :=
  let target_util := f64_of_f32 (bk_interest_target_utilization b) in
  let avg_util := f64_min (f64_max (fx_to_f64 (bk_avg_utilization b)) f_zero) f64_one in
  let util_factor :=
    if SFltb target_util avg_util
    then f64_div (f64_sub avg_util target_util) (f64_sub f64_one target_util)
    else f64_div (f64_sub avg_util target_util) target_util in
  let adjustment := f64_add f64_one (f64_mul (fx_to_f64 (bk_adjustment_factor b)) util_factor) in
  set_bk_interest_curve_scaling b (f64_max (f64_mul (bk_interest_curve_scaling b) adjustment) f64_one).

(** ** Prices and weights *)

Definition oracle_price (b : Bank) (oracle_acc_infos : OracleAccountInfos) (staleness_slot : option Z) :
    outcome Z :=
  _ ← require (bk_oracle b =? fst (oai_oracle oracle_acc_infos)) ERequireKeysEq;
  primary_state ← oracle_state_unchecked oracle_acc_infos (bk_mint_decimals b);
  primary_ok ← check_confidence_and_maybe_staleness primary_state (bk_oracle_config b) staleness_slot;
  match is_oracle_error primary_ok, oai_fallback_opt oracle_acc_infos with
  | true, Some fallback_oracle_acc =>
      _ ← require (bk_fallback_oracle b =? fst fallback_oracle_acc) ERequireKeysEq;
      fallback_state ← fallback_oracle_state_unchecked oracle_acc_infos (bk_mint_decimals b);
      fallback_ok ← check_confidence_and_maybe_staleness fallback_state (bk_oracle_config b) staleness_slot;
      match fallback_ok with
      | Ok _ => Done (os_price fallback_state)
      | Err e => Fail e
      end
  | _, _ =>
      match primary_ok with
      | Ok _ => Done (os_price primary_state)
      | Err e => Fail e
      end
  end.

Definition scaled_init_asset_weight (b : Bank) (price : Z) : outcome Z :=
  if SFeqb (bk_deposit_weight_scale_start_quote b) f64_MAX then Done (bk_init_asset_weight b)
  else
    n ← native_deposits b;
    let all_deposits := f64_add (fx_to_f64 n) (f64_of_Z (bk_potential_serum_tokens b)) in
    let deposits_quote := f64_mul all_deposits (fx_to_f64 price) in
    if SFleb deposits_quote (bk_deposit_weight_scale_start_quote b) then Done (bk_init_asset_weight b)
    else
      scale ← fx_from_f64 (f64_div (bk_deposit_weight_scale_start_quote b) deposits_quote);
      fx_mul (bk_init_asset_weight b) scale.

Definition scaled_init_liab_weight (b : Bank) (price : Z) : outcome Z :=
  if SFeqb (bk_borrow_weight_scale_start_quote b) f64_MAX then Done (bk_init_liab_weight b)
  else
    n ← native_borrows b;
    let borrows_quote := f64_mul (fx_to_f64 n) (fx_to_f64 price) in
    if SFleb borrows_quote (bk_borrow_weight_scale_start_quote b) then Done (bk_init_liab_weight b)
    else if SFeqb (bk_borrow_weight_scale_start_quote b) f_zero then Done I128_MAX
    else
      scale ← fx_from_f64 (f64_div borrows_quote (bk_borrow_weight_scale_start_quote b));
      fx_mul (bk_init_liab_weight b) scale.

Definition update_potential_serum_tokens (b : Bank) (old new : Z) : outcome Bank :=
  if old <=? new then
    d ← u64 (new - old);
    n ← u64 (bk_potential_serum_tokens b + d);
    Done (set_bk_potential_serum_tokens b n)
  else
    d ← u64 (old - new);
    Done (set_bk_potential_serum_tokens b (saturating_sub_u64 (bk_potential_serum_tokens b) d)).

End bank.
