(* ===== verification/BankSpec.v ===== *)
(** * Deposits and withdrawals

    What the operations of a bank do to a position: the totals of the bank change exactly
    by the change of the position, the native value changes by the amount up to rounding
    of less than one indexed unit, always in favour of the account, and in every
    reachable state the totals of the bank are the sums over all positions. *)

From stdpp Require Import base numbers list.
From Stdlib Require Import ZArith Lia SpecFloat.
From S2P Require Import Prelude FixedPoint TokenPosition Nodes Oracle StablePrice Bank.

Open Scope Z_scope.

(** ** Products with an index *)

#[export] Hint Resolve scale_pos : mango.

Lemma floor_bounds n d : 0 < d -> n / d * d <= n < n / d * d + d.
Proof. intros Hd. pose proof (Z.div_mod n d ltac:(lia)). pose proof (Z.mod_pos_bound n d Hd). lia. Qed.

Lemma floor_add_le x y d : 0 < d -> x / d + y / d <= (x + y) / d <= x / d + y / d + 1.
Proof.
  intros Hd. pose proof (floor_bounds x d Hd). pose proof (floor_bounds y d Hd).
  pose proof (floor_bounds (x + y) d Hd). nia.
Qed.

(** A fixed-point quotient of a nonnegative number. *)
Lemma fx_quot_bounds a i q :
  0 <= a -> 0 < i -> q = Z.quot (a * fx_scale) i ->
  0 <= q /\ q * i <= a * fx_scale < (q + 1) * i.
Proof.
  intros Ha Hi ->. pose proof scale_pos.
  rewrite Z.quot_div_nonneg by nia. pose proof (floor_bounds (a * fx_scale) i Hi).
  pose proof (Z.div_pos (a * fx_scale) i ltac:(nia) Hi). lia.
Qed.

(** Range side conditions of fixed-point results, and running sums and differences. *)
Ltac i128_range := unfold is_i128, I128_MIN, I128_MAX; lia.
Ltac run_sums :=
  repeat (run;
    match goal with
    | |- context [fx_add ?x ?y] => rewrite (fx_add_law x y) by i128_range
    | |- context [fx_sub ?x ?y] => rewrite (fx_sub_law x y) by i128_range
    | |- context [fx_neg ?x] => rewrite (fx_neg_law x) by i128_range
    end); run.

Section bank.
Context `{FixedLaws}.

(** Rounding up: the indexed amount covers the native amount and is at most one unit
    above the exact quotient. *)
Lemma div_rounding_up_spec a i c :
  0 <= a -> 0 < i -> div_rounding_up a i = Done c ->
  0 <= c /\ a <= c * i / fx_scale /\ c * i <= a * fx_scale + i /\ (a = 0 -> c = 0).
Proof.
  intros Ha Hi E. unfold div_rounding_up in E.
  apply bind_Done_inv in E as (q & Eq & E). apply bind_Done_inv in E as (p & Ep & E).
  apply fx_div_inv in Eq as [_ Eq]. apply fx_mul_inv in Ep.
  destruct (fx_quot_bounds a i q Ha Hi Eq) as [Hq Hqi]. pose proof scale_pos.
  pose proof (floor_bounds (q * i) fx_scale ltac:(lia)).
  destruct (Z.ltb_spec p a).
  - apply fx_add_inv in E as ->. split; [lia|]. split; [apply Z.div_le_lower_bound; lia|].
    split; [nia|]. intros ->. nia.
  - injection E as <-. split; [lia|]. split; [lia|]. split; [nia|]. intros ->. nia.
Qed.

(** ** Moves *)

(** The deposits and the borrows of a position, in indexed units. *)
Definition dep (t : TokenPosition) : Z := Z.max (tp_indexed_position t) 0.
Definition bor (t : TokenPosition) : Z := Z.max (- tp_indexed_position t) 0.

(** The native value of a position. *)
Definition value (b : Bank) (t : TokenPosition) : Z :=
  if 0 <? tp_indexed_position t then tp_indexed_position t * bk_deposit_index b / fx_scale
  else tp_indexed_position t * bk_borrow_index b / fx_scale.

(** One indexed unit in native units, rounded up. *)
Definition unit_value (b : Bank) : Z := Z.max (bk_deposit_index b) (bk_borrow_index b) / fx_scale + 1.

Record indexes_ok (b : Bank) : Prop := {
  io_deposit : 0 < bk_deposit_index b;
  io_borrow : 0 < bk_borrow_index b
}.

(** [b', t'] come from [b, t] by changing the position: the totals of the bank follow the
    position, and the indexes and the identity of the position stay. *)
Record moved (b : Bank) (t : TokenPosition) (b' : Bank) (t' : TokenPosition) : Prop := {
  mv_deposits : bk_indexed_deposits b' - dep t' = bk_indexed_deposits b - dep t;
  mv_borrows : bk_indexed_borrows b' - bor t' = bk_indexed_borrows b - bor t;
  mv_deposit_index : bk_deposit_index b' = bk_deposit_index b;
  mv_borrow_index : bk_borrow_index b' = bk_borrow_index b;
  mv_token_index : tp_token_index t' = tp_token_index t;
  mv_in_use : tp_in_use_count t' = tp_in_use_count t
}.

Lemma moved_refl b t : moved b t b t.
Proof. done. Qed.

Lemma moved_trans b1 t1 b2 t2 b3 t3 : moved b1 t1 b2 t2 -> moved b2 t2 b3 t3 -> moved b1 t1 b3 t3.
Proof. intros [] []. constructor; congruence. Qed.

Lemma moved_indexes b t b' t' : moved b t b' t' -> indexes_ok b -> indexes_ok b'.
Proof. intros M [Hd Hb]. constructor; [by rewrite (mv_deposit_index _ _ _ _ M)|by rewrite (mv_borrow_index _ _ _ _ M)]. Qed.

Lemma native_value b t v : native t b = Done v -> v = value b t.
Proof. unfold native, value. destruct (0 <? _); apply fx_mul_inv. Qed.

(** The sign of the value is that of the position. *)
Lemma value_sign b t : indexes_ok b ->
  (value b t < 0 <-> tp_indexed_position t < 0) /\ (0 <= tp_indexed_position t -> 0 <= value b t).
Proof.
  intros [Hd Hb]. unfold value. pose proof scale_pos.
  destruct (Z.ltb_spec 0 (tp_indexed_position t)) as [L|L].
  - assert (0 <= tp_indexed_position t * bk_deposit_index b / fx_scale) by (apply Z.div_pos; nia). lia.
  - pose proof (floor_bounds (tp_indexed_position t * bk_borrow_index b) fx_scale ltac:(lia)). split; nia.
Qed.

(** Updating the net borrows touches only the window. *)
Lemma update_net_borrows_same b n now b' :
  update_net_borrows b n now = Done b' ->
  exists start m, b' = set_bk_net_borrows_in_window (set_bk_last_net_borrows_window_start_ts b start) m.
Proof.
  unfold update_net_borrows. intros E. apply bind_Done_inv in E as (w & _ & E).
  apply bind_Done_inv in E as (c & _ & E). apply bind_Done_inv in E as (m & _ & E).
  destruct (w <=? now); inv_run; eauto.
Qed.

(** Adding to deposits. *)
Lemma add_to_deposits_spec b t a b' t' :
  indexes_ok b -> 0 <= a -> 0 <= tp_indexed_position t ->
  add_to_deposits b t a = Done (b', t') ->
  moved b t b' t' /\ bk_dust b' = bk_dust b /\ (a = 0 -> value b' t' = value b t) /\
  value b t + a <= value b' t' <= value b t + a + unit_value b.
Proof.
  intros [Hd Hb] Ha Ht E. unfold add_to_deposits in E.
  apply bind_Done_inv in E as (c & Ec & E). fx_inv.
  destruct (div_rounding_up_spec _ _ _ Ha Hd Ec) as (Hc & Hlo & Hhi & Hz).
  pose proof scale_pos as Hs.
  split; [constructor; try done; unfold dep, bor; simpl; lia|]. simpl. split; [done|].
  pose proof (floor_add_le (tp_indexed_position t * bk_deposit_index b) (c * bk_deposit_index b) fx_scale Hs) as F.
  rewrite <- Z.mul_add_distr_r in F.
  assert (Hv : value b t = tp_indexed_position t * bk_deposit_index b / fx_scale).
  { unfold value. destruct (Z.ltb_spec 0 (tp_indexed_position t)); [done|].
    by replace (tp_indexed_position t) with 0 by lia. }
  assert (Hv' : forall i, 0 <= i -> (if 0 <? i then i * bk_deposit_index b / fx_scale
            else i * bk_borrow_index b / fx_scale) = i * bk_deposit_index b / fx_scale).
  { intros i Hi. destruct (Z.ltb_spec 0 i); [done|]. by replace i with 0 by lia. }
  assert (E : value (set_bk_indexed_deposits b (bk_indexed_deposits b + c))
    (set_tp_indexed_position t (tp_indexed_position t + c)) =
    (tp_indexed_position t + c) * bk_deposit_index b / fx_scale) by (apply Hv'; lia).
  rewrite E, Hv. split; [intros ->; by rewrite Hz, Z.add_0_r|]. unfold unit_value.
  assert (c * bk_deposit_index b / fx_scale <= a + Z.max (bk_deposit_index b) (bk_borrow_index b) / fx_scale).
  { rewrite <- Z.div_add_l by lia. apply Z.div_le_mono; lia. }
  lia.
Qed.

(** The case of a deposit into a position with borrows. *)
Lemma repay_spec b t a i c :
  indexes_ok b -> 0 <= a -> value b t < 0 -> i = tp_indexed_position t -> div_rounding_up a (bk_borrow_index b) = Done c ->
  i < 0 /\ 0 <= c /\ (i + c < 0 -> value b t + a <= (i + c) * bk_borrow_index b / fx_scale <= value b t + a + unit_value b) /\
  (0 <= i + c -> - unit_value b <= value b t + a).
Proof.
  intros HI Ha Hneg -> Ec. pose proof (value_sign b t HI) as [Hsgn _]. destruct HI as [Hd Hb].
  pose proof scale_pos as Hs. destruct (div_rounding_up_spec _ _ _ Ha Hb Ec) as (Hc & Hlo & Hhi & _).
  assert (Hip : tp_indexed_position t < 0) by tauto. split; [done|]. split; [done|].
  assert (Hval : value b t = tp_indexed_position t * bk_borrow_index b / fx_scale).
  { unfold value. by rewrite (proj2 (Z.ltb_ge _ _)) by lia. }
  assert (Hunit : (c * bk_borrow_index b) / fx_scale + 1 <= a + unit_value b).
  { unfold unit_value. rewrite Z.add_assoc, <- Z.div_add_l by lia.
    apply Z.add_le_mono_r, Z.div_le_mono; lia. }
  pose proof (floor_add_le (tp_indexed_position t * bk_borrow_index b) (c * bk_borrow_index b) fx_scale Hs) as F.
  rewrite <- Z.mul_add_distr_r in F. split; [lia|]. intros Hr.
  assert (0 <= (tp_indexed_position t + c) * bk_borrow_index b / fx_scale) by (apply Z.div_pos; nia). lia.
Qed.

(** What a deposit of [a] does: the value grows by the amount, rounded in favour of the
    account; a result of [false] means the rest was dusted. *)
Definition deposited (b : Bank) (t : TokenPosition) (a : Z) (d : bool) (b' : Bank) (t' : TokenPosition)
    (active : bool) : Prop :=
  0 <= a /\ moved b t b' t' /\
  if active then bk_dust b' = bk_dust b /\ value b t + a <= value b' t' <= value b t + a + unit_value b
  else d = true /\ tp_indexed_position t' = 0 /\ bk_dust b' = bk_dust b + (value b t + a) /\
    - unit_value b <= value b t + a < fx_one.

Lemma deposit_internal_spec b t a d now b' t' active :
  indexes_ok b -> deposit_internal b t a d now = Done (b', t', active) -> deposited b t a d b' t' active.
Proof.
  intros HI E. unfold deposit_internal in E. apply bind_Done_inv in E as (u & Er & E).
  inv_run. bool_to_prop. split; [lia|].
  match goal with X : native t b = Done _ |- _ => apply native_value in X as -> end.
  destruct (Z.ltb_spec (value b t) 0) as [Hneg|Hpos].
  - apply bind_Done_inv in E as (n & En & E). apply bind_Done_inv in E as (b1 & Eu & E).
    apply update_net_borrows_same in Eu as (st & m & ->).
    apply bind_Done_inv in E as (nn & Enn & E). apply fx_add_inv in Enn as ->.
    apply bind_Done_inv in E as (c & Ec & E). apply bind_Done_inv in E as (ni & Eni & E).
    apply fx_add_inv in Eni as ->.
    destruct (repay_spec b t a _ c HI ltac:(lia) Hneg eq_refl Ec) as (Hip & Hc & Hpart & Hfull).
    destruct (Z.ltb_spec (tp_indexed_position t + c) 0) as [Hr|Hr].
    + fx_inv. simpl. split; [constructor; try done; unfold dep, bor; simpl; lia|]. split; [done|].
      unfold value at 2 3. simpl. rewrite (proj2 (Z.ltb_ge _ _)) by lia. auto.
    + destruct ((value b t + a <? fx_one) && d) eqn:Edust.
      * fx_inv. bool_to_prop. split; [constructor; try done; unfold dep, bor; simpl; lia|]. simpl.
        specialize (Hfull Hr). split_and!; (done || lia).
      * apply bind_Done_inv in E as (br & Ebr & E). apply fx_add_inv in Ebr as ->.
        apply bind_Done_inv in E as ([b2 t2] & Ea & E). injection E as <- <- <-.
        apply add_to_deposits_spec in Ea as (M & Hdu & Hz & Hv);
          [|by destruct HI; constructor|lia|simpl; lia].
        split; [eapply moved_trans; [|exact M]; constructor; try done; unfold dep, bor; simpl; lia|].
        split; [exact Hdu|]. change (value _ (set_tp_indexed_position t 0)) with 0 in Hv, Hz.
        change (unit_value (set_bk_indexed_borrows _ _)) with (unit_value b) in Hv.
        specialize (Hfull Hr). destruct (Z.max_spec (value b t + a) 0) as [[L Em]|[L Em]]; rewrite Em in *;
          [rewrite (Hz eq_refl)|]; lia.
  - pose proof (value_sign b t HI) as [Hsgn _].
    apply bind_Done_inv in E as ([b2 t2] & Ea & E). injection E as <- <- <-.
    apply add_to_deposits_spec in Ea as (M & Hdu & _ & Hv); [done|done|lia|lia].
Qed.

(** The bookkeeping of interest leaves the position alone. *)
Lemma update_cumulative_interest_same b t o t' :
  update_cumulative_interest b t o = Done t' ->
  tp_indexed_position t' = tp_indexed_position t /\ tp_token_index t' = tp_token_index t /\
  tp_in_use_count t' = tp_in_use_count t.
Proof. unfold update_cumulative_interest. destruct (0 <? o); intros E; inv_run; done. Qed.

Lemma moved_same_position b t b' t1 t2 :
  moved b t b' t1 -> tp_indexed_position t2 = tp_indexed_position t1 ->
  tp_token_index t2 = tp_token_index t1 -> tp_in_use_count t2 = tp_in_use_count t1 ->
  moved b t b' t2 /\ value b' t2 = value b' t1.
Proof.
  intros [] E1 E2 E3. split; [constructor; unfold dep, bor in *; congruence|].
  unfold value. by rewrite E1.
Qed.

Lemma deposit_internal_wrapper_spec b t a d now b' t' active :
  indexes_ok b -> deposit_internal_wrapper b t a d now = Done (b', t', active) ->
  deposited b t a d b' t' active.
Proof.
  intros HI E. unfold deposit_internal_wrapper in E.
  apply bind_Done_inv in E as ([[b1 t1] r] & E1 & E). apply bind_Done_inv in E as (t2 & E2 & E).
  injection E as <- <- <-. apply deposit_internal_spec in E1 as (Ha & M & Hr); [|done].
  apply update_cumulative_interest_same in E2 as (Ei & Et & Eu).
  destruct (moved_same_position _ _ _ _ _ M Ei Et Eu) as [M' Hv].
  split; [done|]. split; [done|]. rewrite Hv, Ei. done.
Qed.

(** ** Withdrawals *)

(** What a withdrawal of [a] does: the value shrinks by the amount and the loan
    origination fee, rounded in favour of the account; a loan is made only if the amount
    exceeds the deposits, and the fee is charged on the loan. *)
Definition withdrawn (b : Bank) (t : TokenPosition) (a : Z) (with_fee d : bool) (b' : Bank)
    (t' : TokenPosition) (r : WithdrawResult) : Prop :=
  0 <= a /\ moved b t b' t' /\
  let borrowed := Z.max 0 (a - Z.max 0 (value b t)) in
  let fee := if with_fee then bk_loan_origination_fee_rate b * borrowed / fx_scale else 0 in
  wr_loan_origination_fee r = (if 0 <? borrowed then fee else 0) /\
  wr_loan_amount r = (if 0 <? borrowed then borrowed + fee else 0) /\
  bk_collected_fees_native b' = bk_collected_fees_native b + wr_loan_origination_fee r /\
  if wr_position_is_active r then
    bk_dust b' = bk_dust b /\
    value b t - a - wr_loan_origination_fee r <= value b' t' <=
      value b t - a - wr_loan_origination_fee r + unit_value b
  else d = true /\ tp_indexed_position t' = 0 /\ bk_dust b' = bk_dust b + (value b t - a) /\
    0 <= value b t - a < fx_one.

(** Adding to borrows, from a position without deposits. *)
Lemma add_to_borrows_spec b t a with_fee now b' t' r :
  indexes_ok b -> 0 <= bk_loan_origination_fee_rate b -> 0 <= a -> tp_indexed_position t <= 0 ->
  add_to_borrows b t a with_fee now = Done (b', t', r) ->
  let fee := if with_fee then bk_loan_origination_fee_rate b * a / fx_scale else 0 in
  moved b t b' t' /\ r = mkWithdrawResult true fee (a + fee) /\
  bk_collected_fees_native b' = bk_collected_fees_native b + fee /\ bk_dust b' = bk_dust b /\
  value b t - a - fee <= value b' t' <= value b t - a - fee + unit_value b.
Proof.
  intros HI Hrate Ha Ht E fee. pose proof scale_pos as Hs. pose proof HI as [Hd Hb].
  assert (Hfee : 0 <= fee) by (subst fee; destruct with_fee; [apply Z.div_pos; nia|lia]).
  unfold add_to_borrows in E. apply bind_Done_inv in E as ([[b1 n] f] & E1 & E).
  assert (X : exists cf, b1 = set_bk_collected_fees_native b cf /\ cf = bk_collected_fees_native b + fee
     /\ n = a + fee /\ f = fee).
  { subst fee. destruct with_fee; [fx_inv; by eexists|]. injection E1 as <- <- <-.
    exists (bk_collected_fees_native b). split_and!; [by destruct b|lia..]. }
  destruct X as (cf & -> & -> & -> & ->).
  apply bind_Done_inv in E as (c & Ec & E). apply fx_div_inv in Ec as [_ Ec].
  destruct (fx_quot_bounds (a + fee) _ c ltac:(lia) Hb Ec) as [Hc Hci]. simpl in Hci.
  apply bind_Done_inv in E as (br & Ebr & E). apply fx_add_inv in Ebr as ->.
  apply bind_Done_inv in E as (p & Ep & E). apply fx_sub_inv in Ep as ->.
  apply bind_Done_inv in E as (b2 & Eu & E). apply update_net_borrows_same in Eu as (st & m & ->).
  injection E as <- <- <-.
  split; [constructor; try done; unfold dep, bor; simpl; lia|]. split; [done|]. split; [done|]. split; [done|].
  unfold value. simpl. rewrite !(proj2 (Z.ltb_ge 0 _)) by lia. unfold unit_value.
  set (bi := bk_borrow_index b) in *. set (ip := tp_indexed_position t) in *.
  assert (ip * bi / fx_scale - (a + fee) <= (ip - c) * bi / fx_scale).
  { apply Z.div_le_lower_bound; [lia|]. pose proof (floor_bounds (ip * bi) fx_scale Hs). nia. }
  assert ((ip - c) * bi / fx_scale < ip * bi / fx_scale - (a + fee) + Z.max (bk_deposit_index b) bi / fx_scale + 2).
  { apply Z.div_lt_upper_bound; [lia|]. pose proof (floor_bounds (ip * bi) fx_scale Hs).
    pose proof (floor_bounds (Z.max (bk_deposit_index b) bi) fx_scale Hs). nia. }
  lia.
Qed.

Lemma value_nonneg b t : 0 <= tp_indexed_position t ->
  value b t = tp_indexed_position t * bk_deposit_index b / fx_scale.
Proof.
  intros Ht. unfold value. destruct (Z.ltb_spec 0 (tp_indexed_position t)); [done|].
  by replace (tp_indexed_position t) with 0 by lia.
Qed.

(** Withdrawing deposits only. *)
Lemma withdraw_deposits_spec b t a c :
  indexes_ok b -> 0 <= a -> 0 <= tp_indexed_position t -> a <= value b t ->
  c = Z.quot (a * fx_scale) (bk_deposit_index b) ->
  let t' := set_tp_indexed_position t (tp_indexed_position t - c) in
  0 <= c /\ 0 <= tp_indexed_position t' /\
  value b t - a <= value b t' <= value b t - a + unit_value b.
Proof.
  intros [Hd Hb] Ha Ht Hle Ec t'. pose proof scale_pos as Hs.
  destruct (fx_quot_bounds a _ c Ha Hd Ec) as [Hc Hci]. rewrite value_nonneg in * by done.
  pose proof (floor_bounds (tp_indexed_position t * bk_deposit_index b) fx_scale Hs) as F.
  assert (Ht' : 0 <= tp_indexed_position t') by (simpl; nia).
  split; [done|]. split; [done|]. rewrite (value_nonneg b t') by done. simpl.
  unfold unit_value. set (di := bk_deposit_index b) in *. set (ip := tp_indexed_position t) in *.
  assert (ip * di / fx_scale - a <= (ip - c) * di / fx_scale) by (apply Z.div_le_lower_bound; nia).
  assert ((ip - c) * di / fx_scale < ip * di / fx_scale - a + Z.max di (bk_borrow_index b) / fx_scale + 2).
  { apply Z.div_lt_upper_bound; [lia|].
    pose proof (floor_bounds (Z.max di (bk_borrow_index b)) fx_scale Hs). nia. }
  lia.
Qed.

Lemma withdraw_internal_spec b t a with_fee d now b' t' r :
  indexes_ok b -> 0 <= bk_loan_origination_fee_rate b ->
  withdraw_internal b t a with_fee d now = Done (b', t', r) -> withdrawn b t a with_fee d b' t' r.
Proof.
  intros HI Hrate E. unfold withdraw_internal in E. apply bind_Done_inv in E as (u & Er & E).
  inv_run. bool_to_prop. split; [lia|]. cbv zeta. rename Heqb0 into Ha.
  match goal with X : native t b = Done _ |- _ => apply native_value in X as -> end.
  pose proof (value_sign b t HI) as [Hsgn Hnn].
  destruct (Z.ltb_spec (value b t) 0) as [Hneg|Hpos]; cbn [negb] in E.
  - apply add_to_borrows_spec in E as (M & -> & Hcf & Hdu & Hv); [|done..|lia].
    split; [done|]. rewrite (Z.max_l 0 (value b t)), Z.sub_0_r, (Z.max_r 0 a) by lia. simpl.
    destruct (Z.ltb_spec 0 a).
    + split_and!; (done || lia).
    + assert (a = 0) as -> by lia. rewrite Z.mul_0_r, Z.div_0_l in * by done.
      destruct with_fee; split_and!; (done || lia).
  - apply bind_Done_inv in E as (nn & Enn & E). apply fx_sub_inv in Enn as ->.
    assert (Hip : 0 <= tp_indexed_position t) by lia.
    rewrite (Z.max_r 0 (value b t)) by lia.
    destruct (Z.ltb_spec (value b t - a) 0) as [Hb|Hd]; cbn [negb] in E.
    + apply bind_Done_inv in E as (dd & Edd & E). apply fx_sub_inv in Edd as ->.
      apply bind_Done_inv in E as (n & En & E). apply fx_neg_inv in En as ->.
      apply add_to_borrows_spec in E as (M & -> & Hcf & Hdu & Hv);
        [|by destruct HI; constructor|done|lia|done].
      split; [eapply moved_trans; [|exact M]; constructor; try done; unfold dep, bor; simpl; lia|].
      rewrite (Z.max_r 0 (a - value b t)), (proj2 (Z.ltb_lt 0 (a - value b t))) by lia.
      change (value _ (set_tp_indexed_position t 0)) with 0 in Hv.
      change (unit_value (set_bk_indexed_deposits _ _)) with (unit_value b) in Hv.
      cbn [bk_loan_origination_fee_rate bk_collected_fees_native bk_dust set_bk_indexed_deposits field_update] in *.
      replace (- (value b t - a)) with (a - value b t) in * by lia. simpl. split_and!; (done || lia).
    + rewrite (Z.max_l 0 (a - value b t)) by lia. cbn [Z.ltb Z.compare].
      destruct ((value b t - a <? fx_one) && d) eqn:Edust.
      * fx_inv. bool_to_prop. split; [constructor; try done; unfold dep, bor; simpl; lia|].
        simpl. split_and!; (done || lia).
      * fx_inv. destruct (withdraw_deposits_spec b t a _ HI Ha Hip ltac:(lia) eq_refl) as (Hc & Ht' & Hv).
        split; [constructor; try done; unfold dep, bor; simpl in *; lia|].
        simpl. split; [done|]. split; [done|]. split; [lia|]. split; [done|].
        change (value (set_bk_indexed_deposits b _)) with (value b). lia.
Qed.

Lemma withdraw_internal_wrapper_spec b t a with_fee d now b' t' r :
  indexes_ok b -> 0 <= bk_loan_origination_fee_rate b ->
  withdraw_internal_wrapper b t a with_fee d now = Done (b', t', r) -> withdrawn b t a with_fee d b' t' r.
Proof.
  intros HI Hrate E. unfold withdraw_internal_wrapper in E.
  apply bind_Done_inv in E as ([[b1 t1] r1] & E1 & E). apply bind_Done_inv in E as (t2 & E2 & E).
  injection E as <- <- <-. apply withdraw_internal_spec in E1 as (Ha & M & Hr); [|done..].
  apply update_cumulative_interest_same in E2 as (Ei & Et & Eu).
  destruct (moved_same_position _ _ _ _ _ M Ei Et Eu) as [M' Hv].
  split; [done|]. split; [done|]. rewrite Hv, Ei. done.
Qed.

(** ** What the operations leave alone

    Deposits and withdrawals change the totals, the dust, the collected fees and the window
    of net borrows, and nothing else of the bank. *)
Definition config (b : Bank) : Bank :=
  set_bk_indexed_deposits (set_bk_indexed_borrows (set_bk_dust (set_bk_collected_fees_native
    (set_bk_net_borrows_in_window (set_bk_last_net_borrows_window_start_ts b 0) 0) 0) 0) 0) 0.

Definition touched (b b' : Bank) : Prop := config b' = config b.

Ltac touch := match goal with |- touched ?b _ => destruct b; reflexivity end.

Lemma touched_trans b1 b2 b3 : touched b1 b2 -> touched b2 b3 -> touched b1 b3.
Proof. unfold touched. congruence. Qed.

Lemma touched_rate b b' : touched b b' -> bk_loan_origination_fee_rate b' = bk_loan_origination_fee_rate b.
Proof. intros E. exact (f_equal bk_loan_origination_fee_rate E). Qed.

Lemma deposit_touched b t a d now b' t' active :
  deposit_internal_wrapper b t a d now = Done (b', t', active) -> touched b b'.
Proof.
  unfold deposit_internal_wrapper, deposit_internal, add_to_deposits. intros E.
  apply bind_Done_inv in E as ([[b1 t1] r] & E & E2). apply bind_Done_inv in E2 as (t2 & _ & E2). injection E2 as <- _ _.
  apply bind_Done_inv in E as (u & _ & E). apply bind_Done_inv in E as (v & _ & E).
  destruct (v <? 0); [|inv_run; touch].
  apply bind_Done_inv in E as (n & _ & E). apply bind_Done_inv in E as (b2 & Eu & E).
  apply update_net_borrows_same in Eu as (st & m & ->). inv_run. repeat case_match; inv_run; touch.
Qed.

Lemma add_to_borrows_touched b t a f now b' t' r : add_to_borrows b t a f now = Done (b', t', r) -> touched b b'.
Proof.
  unfold add_to_borrows. intros E. apply bind_Done_inv in E as ([[b1 n] fee] & E1 & E).
  assert (T : touched b b1) by (destruct f; inv_run; [touch|done]).
  eapply touched_trans; [exact T|]. clear E1 T. apply bind_Done_inv in E as (c & _ & E).
  apply bind_Done_inv in E as (br & _ & E). apply bind_Done_inv in E as (p & _ & E).
  apply bind_Done_inv in E as (b2 & Eu & E). apply update_net_borrows_same in Eu as (st & m & ->).
  injection E as <- _ _. touch.
Qed.

Lemma withdraw_touched b t a f d now b' t' r :
  withdraw_internal_wrapper b t a f d now = Done (b', t', r) -> touched b b'.
Proof.
  unfold withdraw_internal_wrapper, withdraw_internal. intros E.
  apply bind_Done_inv in E as ([[b1 t1] r1] & E & E2). apply bind_Done_inv in E2 as (t2 & _ & E2). injection E2 as <- _ _.
  apply bind_Done_inv in E as (u & _ & E). apply bind_Done_inv in E as (v & _ & E).
  destruct (negb (v <? 0)); [|by eapply add_to_borrows_touched].
  apply bind_Done_inv in E as (n & _ & E). destruct (negb (n <? 0)).
  - case_match; inv_run; touch.
  - apply bind_Done_inv in E as (x & _ & E). apply bind_Done_inv in E as (y & _ & E).
    apply add_to_borrows_touched in E. eapply touched_trans; [|exact E]. touch.
Qed.

(** ** Returning

    Bounds under which the operations return: indexes between 1 and 2^30, positions and
    totals far below the range of [I80F48], and a window that the clock fits. *)
Record in_bounds (b : Bank) (t : TokenPosition) (a now : Z) : Prop := {
  ib_deposit_index : fx_one <= bk_deposit_index b <= 2 ^ 78;
  ib_borrow_index : fx_one <= bk_borrow_index b <= 2 ^ 78;
  ib_position : - 2 ^ 94 <= tp_indexed_position t <= 2 ^ 94;
  ib_previous : 0 <= tp_previous_index t <= 2 ^ 78;
  ib_deposits : - 2 ^ 120 <= bk_indexed_deposits b <= 2 ^ 120;
  ib_borrows : - 2 ^ 120 <= bk_indexed_borrows b <= 2 ^ 120;
  ib_dust : - 2 ^ 120 <= bk_dust b <= 2 ^ 120;
  ib_fees : - 2 ^ 120 <= bk_collected_fees_native b <= 2 ^ 120;
  ib_rate : 0 <= bk_loan_origination_fee_rate b <= fx_one;
  ib_amount : 0 <= a <= 2 ^ 108;
  ib_window : 0 <= bk_last_net_borrows_window_start_ts b /\ 0 < bk_net_borrow_limit_window_size_ts b /\
    bk_last_net_borrows_window_start_ts b + bk_net_borrow_limit_window_size_ts b <= U64_MAX;
  ib_now : is_u64 now;
  ib_net : - 2 ^ 61 <= bk_net_borrows_in_window b <= 2 ^ 61
}.

Lemma in_bounds_indexes b t a now : in_bounds b t a now -> indexes_ok b.
Proof. intros B. pose proof scale_pos. destruct B. unfold fx_one in *. constructor; lia. Qed.

(** Products and quotients with an index stay in range. *)
Lemma fx_mul_small x i m : 0 <= m -> - 2 ^ m <= x <= 2 ^ m -> 0 <= i <= 2 ^ 78 -> m <= 96 ->
  fx_mul x i = Done (x * i / fx_scale) /\ - 2 ^ (m + 30) <= x * i / fx_scale <= 2 ^ (m + 30).
Proof.
  intros Hm Hx Hi Hm'. assert (E : 2 ^ (m + 30) * fx_scale = 2 ^ m * 2 ^ 78).
  { unfold fx_scale. rewrite <- !Z.pow_add_r by lia. f_equal. lia. }
  pose proof scale_pos. pose proof (Z.pow_pos_nonneg 2 m ltac:(lia) Hm).
  assert (R : - 2 ^ (m + 30) <= x * i / fx_scale <= 2 ^ (m + 30)).
  { split; [apply Z.div_le_lower_bound|apply Z.div_le_upper_bound]; nia. }
  split; [|done]. apply fx_mul_law. pose proof (Z.pow_le_mono_r 2 (m + 30) 126 ltac:(lia) ltac:(lia)).
  i128_range.
Qed.

Lemma fx_div_small a i : 0 <= a <= 2 ^ 120 -> fx_one <= i ->
  fx_div a i = Done (Z.quot (a * fx_scale) i) /\ 0 <= Z.quot (a * fx_scale) i <= a.
Proof.
  intros Ha Hi. pose proof scale_pos. unfold fx_one in *.
  destruct (fx_quot_bounds a i _ ltac:(lia) ltac:(lia) eq_refl) as [Hq Hqi].
  assert (Z.quot (a * fx_scale) i <= a) by nia. split; [|lia].
  apply fx_div_law; [lia|]. i128_range.
Qed.

Lemma div_rounding_up_returns a i :
  0 <= a <= 2 ^ 110 -> fx_one <= i <= 2 ^ 78 ->
  exists c, div_rounding_up a i = Done c /\ 0 <= c <= a + 1.
Proof.
  intros Ha Hi. unfold div_rounding_up.
  destruct (fx_div_small a i ltac:(lia) ltac:(lia)) as [-> Hq]. run.
  set (q := Z.quot (a * fx_scale) i) in *. pose proof scale_pos. unfold fx_one in *.
  assert (Hqi : q * i <= a * fx_scale).
  { destruct (fx_quot_bounds a i q ltac:(lia) ltac:(lia) eq_refl). lia. }
  rewrite fx_mul_law.
  - run. destruct (_ <? a); [|eexists; split; [done|lia]].
    rewrite fx_add_law by i128_range. eexists. split; [done|lia].
  - assert (q * i / fx_scale <= a) by (apply Z.div_le_upper_bound; lia).
    assert (0 <= q * i / fx_scale) by (apply Z.div_pos; nia). i128_range.
Qed.

Lemma native_returns b t a now : in_bounds b t a now ->
  native t b = Done (value b t) /\ - 2 ^ 124 <= value b t <= 2 ^ 124.
Proof.
  intros []. pose proof scale_pos. unfold native, value, fx_one in *.
  destruct (0 <? _); apply (fx_mul_small _ _ 94); lia.
Qed.

Lemma update_net_borrows_returns b n now :
  0 <= bk_last_net_borrows_window_start_ts b -> 0 < bk_net_borrow_limit_window_size_ts b ->
  bk_last_net_borrows_window_start_ts b + bk_net_borrow_limit_window_size_ts b <= U64_MAX ->
  is_u64 now -> - 2 ^ 61 <= bk_net_borrows_in_window b <= 2 ^ 61 -> - 2 ^ 109 <= n <= 2 ^ 109 ->
  exists b', update_net_borrows b n now = Done b'.
Proof.
  intros Hs Hz Hu Hn Hb Ha. unfold update_net_borrows.
  rewrite (u64_ok (bk_last_net_borrows_window_start_ts b + _)) by (unfold is_u64; lia). run.
  assert (Hc : - 2 ^ 61 <= - (- n / fx_scale) <= 2 ^ 61).
  { assert (- 2 ^ 61 <= - n / fx_scale) by (apply Z.div_le_lower_bound; [done|unfold fx_scale; lia]).
    assert (- n / fx_scale <= 2 ^ 61) by (apply Z.div_le_upper_bound; [done|unfold fx_scale; lia]). lia. }
  rewrite fx_ceil_law by (unfold is_i128, fx_int, fx_scale, I128_MIN, I128_MAX in *; lia). run.
  rewrite ClampToInt.clamp_to_i64_ok. run. unfold fx_int. rewrite Z.div_mul by done.
  destruct (_ <=? now).
  - rewrite (proj2 (Z.eqb_neq _ 0)) by lia. run. rewrite u64_ok; [run; eauto|].
    pose proof (floor_bounds now (bk_net_borrow_limit_window_size_ts b) Hz).
    assert (0 <= now / bk_net_borrow_limit_window_size_ts b) by (apply Z.div_pos; mlia). unfold is_u64 in *. nia.
  - rewrite i64_ok by mlia. run. eauto.
Qed.

Lemma update_cumulative_interest_returns b t a now o : in_bounds b t a now -> - 2 ^ 94 <= o <= 2 ^ 94 ->
  forall t1, tp_previous_index t1 = tp_previous_index t ->
  exists t', update_cumulative_interest b t1 o = Done t'.
Proof.
  intros [] Ho t1 E. unfold update_cumulative_interest. rewrite E. unfold fx_one in *. pose proof scale_pos.
  assert (X : forall i, fx_scale <= i <= 2 ^ 78 ->
    exists v, (d ← fx_sub i (tp_previous_index t); fx_mul d o) = Done v).
  { intros i Hi. rewrite fx_sub_law by i128_range. run.
    set (d := i - tp_previous_index t). assert (Hd : - 2 ^ 78 <= d <= 2 ^ 78) by lia.
    eexists. apply fx_mul_law.
    assert (- 2 ^ 124 <= d * o / fx_scale) by (apply Z.div_le_lower_bound; [done|unfold fx_scale; nia]).
    assert (d * o / fx_scale <= 2 ^ 124) by (apply Z.div_le_upper_bound; [done|unfold fx_scale; nia]).
    i128_range. }
  destruct (0 <? o).
  - destruct (X (bk_deposit_index b) ltac:(lia)) as [v Ev].
    apply bind_Done_inv in Ev as (d & -> & Ev). run. rewrite Ev. run. eauto.
  - destruct (X (bk_borrow_index b) ltac:(lia)) as [v Ev].
    apply bind_Done_inv in Ev as (d & -> & Ev). run. rewrite Ev. run. eauto.
Qed.

Lemma add_to_deposits_returns b t a n :
  fx_one <= bk_deposit_index b <= 2 ^ 78 -> - 2 ^ 120 <= bk_indexed_deposits b <= 2 ^ 120 ->
  - 2 ^ 94 <= tp_indexed_position t <= 2 ^ 94 -> 0 <= n <= 2 ^ 110 ->
  a = n -> exists b' t', add_to_deposits b t a = Done (b', t') /\
    b' = set_bk_indexed_deposits b (bk_indexed_deposits b') /\ tp_previous_index t' = tp_previous_index t.
Proof.
  intros Hi Hd Ht Hn ->. unfold add_to_deposits.
  destruct (div_rounding_up_returns n _ Hn Hi) as (c & -> & Hc). run_sums. by eexists _, _.
Qed.

(** Operations on a bank that leave the indexes. *)
Definition same_indexes (b b' : Bank) : Prop :=
  bk_deposit_index b' = bk_deposit_index b /\ bk_borrow_index b' = bk_borrow_index b.

Lemma deposit_internal_returns b t a d now : in_bounds b t a now ->
  exists b' t' active, deposit_internal b t a d now = Done (b', t', active) /\
    same_indexes b b' /\ tp_previous_index t' = tp_previous_index t.
Proof.
  intros B. destruct (native_returns _ _ _ _ B) as [En Hn]. pose proof (value_sign b t (in_bounds_indexes _ _ _ _ B)) as [Hsgn _].
  destruct B. unfold deposit_internal, require. rewrite (proj2 (Z.leb_le 0 a)) by lia. run. rewrite En. run.
  destruct (Z.ltb_spec (value b t) 0) as [Hneg|Hpos].
  - run_sums. destruct (update_net_borrows_returns b (Z.max (value b t) (- a)) now) as [b1 Eb]; try lia; [done|].
    rewrite Eb. apply update_net_borrows_same in Eb as (st & m & ->). run_sums.
    destruct (div_rounding_up_returns a (bk_borrow_index b) ltac:(lia) ltac:(lia)) as (c & Ec & Hc).
    cbn [bk_borrow_index set_bk_net_borrows_in_window set_bk_last_net_borrows_window_start_ts field_update].
    rewrite Ec. run_sums. destruct (tp_indexed_position t + c <? 0).
    { run_sums. cbn [bk_indexed_borrows set_bk_net_borrows_in_window set_bk_last_net_borrows_window_start_ts field_update].
      run_sums. eexists _, _, _. done. }
    cbn [bk_indexed_borrows bk_dust set_bk_net_borrows_in_window set_bk_last_net_borrows_window_start_ts field_update].
    destruct ((value b t + a <? fx_one) && d); run_sums; [by eexists _, _, _|].
    edestruct add_to_deposits_returns as (b' & t' & -> & Eb' & Et'); [exact ib_deposit_index0|exact ib_deposits0|
      simpl; lia| |reflexivity|]; [lia|]. run. eexists _, _, _. split; [done|]. rewrite Eb'. done.
  - edestruct add_to_deposits_returns as (b' & t' & -> & Eb' & Et'); [exact ib_deposit_index0|exact ib_deposits0|
      exact ib_position0| |reflexivity|]; [lia|]. run. eexists _, _, _. split; [done|]. by rewrite Eb'.
Qed.

Lemma deposit_returns b t a d now : in_bounds b t a now ->
  exists b' t' active, deposit_internal_wrapper b t a d now = Done (b', t', active).
Proof.
  intros B. destruct (deposit_internal_returns b t a d now B) as (b1 & t1 & r & E & [Ed Eb] & Ep).
  unfold deposit_internal_wrapper. rewrite E. run.
  assert (X : forall o, update_cumulative_interest b1 t1 o = update_cumulative_interest b t1 o).
  { intros o. unfold update_cumulative_interest. by rewrite Ed, Eb. }
  rewrite X. destruct (update_cumulative_interest_returns _ _ _ _ (tp_indexed_position t) B (ib_position _ _ _ _ B) t1 Ep)
    as [t2 ->]. run. eauto.
Qed.

Lemma add_to_borrows_returns b t n wf now :
  fx_one <= bk_borrow_index b -> - 2 ^ 120 <= bk_indexed_borrows b <= 2 ^ 120 ->
  - 2 ^ 120 <= bk_collected_fees_native b <= 2 ^ 120 -> 0 <= bk_loan_origination_fee_rate b <= fx_one ->
  - 2 ^ 94 <= tp_indexed_position t <= 2 ^ 94 -> 0 <= n <= 2 ^ 108 ->
  0 <= bk_last_net_borrows_window_start_ts b /\ 0 < bk_net_borrow_limit_window_size_ts b /\
    bk_last_net_borrows_window_start_ts b + bk_net_borrow_limit_window_size_ts b <= U64_MAX ->
  is_u64 now -> - 2 ^ 61 <= bk_net_borrows_in_window b <= 2 ^ 61 ->
  exists b' t' r, add_to_borrows b t n wf now = Done (b', t', r) /\
    same_indexes b b' /\ tp_previous_index t' = tp_previous_index t.
Proof.
  intros Hi Hb Hc Hr Ht Hn Hw Hnow Hnet. unfold add_to_borrows. pose proof scale_pos.
  set (fee := if wf then bk_loan_origination_fee_rate b * n / fx_scale else 0).
  assert (Hf : 0 <= fee <= n).
  { subst fee. unfold fx_one in *. destruct wf; [|lia].
    split; [apply Z.div_pos|apply Z.div_le_upper_bound]; nia. }
  assert (E : exists cf, (if wf then fee ← fx_mul (bk_loan_origination_fee_rate b) n;
      c ← fx_add (bk_collected_fees_native b) fee; n ← fx_add n fee;
      Done (set_bk_collected_fees_native b c, n, fee) else Done (b, n, 0)) =
    Done (set_bk_collected_fees_native b cf, n + fee, fee)).
  { subst fee. destruct wf.
    - rewrite fx_mul_law by i128_range. run_sums. by eexists.
    - exists (bk_collected_fees_native b). rewrite Z.add_0_r. by destruct b. }
  destruct E as [cf ->]. run.
  cbn [bk_borrow_index bk_indexed_borrows set_bk_collected_fees_native field_update].
  destruct (fx_div_small (n + fee) (bk_borrow_index b) ltac:(lia) Hi) as [-> Hq]. run_sums.
  edestruct (update_net_borrows_returns (set_bk_indexed_borrows (set_bk_collected_fees_native b cf)
    (bk_indexed_borrows b + Z.quot ((n + fee) * fx_scale) (bk_borrow_index b))) (n + fee) now) as [b1 E1];
    [simpl; (done || lia)..|].
  rewrite E1. apply update_net_borrows_same in E1 as (st & m & ->). run. by eexists _, _, _.
Qed.

Lemma withdraw_internal_returns b t a wf d now : in_bounds b t a now ->
  exists b' t' r, withdraw_internal b t a wf d now = Done (b', t', r) /\
    same_indexes b b' /\ tp_previous_index t' = tp_previous_index t.
Proof.
  intros B. destruct (native_returns _ _ _ _ B) as [En Hn].
  destruct B. unfold withdraw_internal, require. rewrite (proj2 (Z.leb_le 0 a)) by lia. run. rewrite En. run.
  destruct (Z.ltb_spec (value b t) 0) as [Hneg|Hpos]; cbn [negb].
  - apply add_to_borrows_returns; (done || lia).
  - run_sums. destruct (Z.ltb_spec (value b t - a) 0); cbn [negb].
    + run_sums. edestruct add_to_borrows_returns as (b' & t' & r & E & [I1 I2] & P);
        [..|eexists _, _, _; split; [exact E|done]]; simpl; (done || lia).
    + destruct ((value b t - a <? fx_one) && d).
      * run_sums. by eexists _, _, _.
      * destruct (fx_div_small a (bk_deposit_index b) ltac:(lia) ltac:(lia)) as [-> Hq].
        run_sums. by eexists _, _, _.
Qed.

Lemma withdraw_returns b t a wf d now : in_bounds b t a now ->
  exists b' t' r, withdraw_internal_wrapper b t a wf d now = Done (b', t', r).
Proof.
  intros B. destruct (withdraw_internal_returns b t a wf d now B) as (b1 & t1 & r & E & [Ed Eb] & Ep).
  unfold withdraw_internal_wrapper. rewrite E. run.
  assert (X : forall o, update_cumulative_interest b1 t1 o = update_cumulative_interest b t1 o).
  { intros o. unfold update_cumulative_interest. by rewrite Ed, Eb. }
  rewrite X. destruct (update_cumulative_interest_returns _ _ _ _ (tp_indexed_position t) B (ib_position _ _ _ _ B) t1 Ep)
    as [t2 ->]. run. eauto.
Qed.

(** ** The properties *)

(** A deposit within bounds returns, and its native value reaches the account exactly
    up to rounding of less than one indexed unit in the account's favour: the position is
    worth at least its old value plus the amount. The totals of the bank change by the
    change of the position. The result is [false] only for an unused position whose rest
    is below one token; the rest is then added to the dust of the bank. *)
Theorem deposit_credits b t a now : in_bounds b t a now ->
  exists b' t' active, deposit b t a now = Done (b', t', active) /\ moved b t b' t' /\
    if active then bk_dust b' = bk_dust b /\ value b t + a <= value b' t' <= value b t + a + unit_value b
    else tp_in_use_count t <= 0 /\ tp_indexed_position t' = 0 /\
      bk_dust b' = bk_dust b + (value b t + a) /\ - unit_value b <= value b t + a < fx_one.
Proof.
  intros B. unfold deposit.
  destruct (deposit_returns b t a (negb (Token.is_in_use t)) now B) as (b' & t' & active & E).
  exists b', t', active. split; [done|].
  apply deposit_internal_wrapper_spec in E as (_ & M & R); [|by eapply in_bounds_indexes].
  split; [done|]. destruct active; [done|]. destruct R as (Hd & R). split; [|done].
  unfold Token.is_in_use in Hd. mlia.
Qed.

(** A withdrawal within bounds returns. What exceeds the deposits becomes a loan, on
    which the origination fee is charged and collected; the position loses the amount
    and the fee, up to rounding of less than one indexed unit in the account's favour;
    an unused position left with less than one token is closed and its rest is dusted. *)
Theorem withdraw_debits b t a now : in_bounds b t a now ->
  exists b' t' r, withdraw_with_fee b t a now = Done (b', t', r) /\
    withdrawn b t a true (negb (Token.is_in_use t)) b' t' r.
Proof.
  intros B. unfold withdraw_with_fee.
  destruct (withdraw_returns b t a true (negb (Token.is_in_use t)) now B) as (b' & t' & r & E).
  exists b', t', r. split; [done|].
  by apply withdraw_internal_wrapper_spec in E; [|eapply in_bounds_indexes|apply B].
Qed.

(** Runs of the two operations on positions without borrows. *)
Lemma deposit_run_nonneg b t a d now b' t' active :
  indexes_ok b -> 0 <= tp_indexed_position t -> deposit_internal_wrapper b t a d now = Done (b', t', active) ->
  exists c, div_rounding_up a (bk_deposit_index b) = Done c /\
    tp_indexed_position t' = tp_indexed_position t + c.
Proof.
  intros HI Ht E. unfold deposit_internal_wrapper, deposit_internal in E.
  apply bind_Done_inv in E as ([[b1 t1] r] & E1 & E). apply bind_Done_inv in E as (t2 & E2 & E).
  injection E as <- <- <-. apply update_cumulative_interest_same in E2 as (-> & _).
  apply bind_Done_inv in E1 as (u & _ & E1). apply bind_Done_inv in E1 as (v & Ev & E1).
  apply native_value in Ev as ->. pose proof (value_sign b t HI) as [Hs _].
  rewrite (proj2 (Z.ltb_ge _ _)) in E1 by lia. unfold add_to_deposits in E1. fx_inv. eauto.
Qed.

Lemma withdraw_run_deposits b t a wf d now b' t' r :
  indexes_ok b -> 0 <= tp_indexed_position t -> a <= value b t ->
  withdraw_internal_wrapper b t a wf d now = Done (b', t', r) ->
  tp_indexed_position t' =
    if wr_position_is_active r then tp_indexed_position t - Z.quot (a * fx_scale) (bk_deposit_index b) else 0.
Proof.
  intros HI Ht Ha E. unfold withdraw_internal_wrapper, withdraw_internal in E.
  apply bind_Done_inv in E as ([[b1 t1] r1] & E1 & E). apply bind_Done_inv in E as (t2 & E2 & E).
  injection E as <- <- <-. apply update_cumulative_interest_same in E2 as (-> & _).
  apply bind_Done_inv in E1 as (u & _ & E1). apply bind_Done_inv in E1 as (v & Ev & E1).
  apply native_value in Ev as ->. pose proof (value_sign b t HI) as [Hs _].
  rewrite (proj2 (Z.ltb_ge (value b t) 0)) in E1 by lia. cbn [negb] in E1.
  apply bind_Done_inv in E1 as (n & En & E1). apply fx_sub_inv in En as ->.
  rewrite (proj2 (Z.ltb_ge (value b t - a) 0)) in E1 by lia. cbn [negb] in E1.
  destruct (_ && d); fx_inv; done.
Qed.

(** An account can withdraw what it deposited: for a position without borrows, a
    deposit followed by a withdrawal of the same amount takes no loan and costs no fee,
    and gives the position back, possibly with one indexed unit more, or dusted when its
    rest is below one token and it is unused. *)
Theorem deposit_withdraw_roundtrip b t a now b1 t1 active now' :
  indexes_ok b -> 0 <= tp_indexed_position t -> deposit b t a now = Done (b1, t1, active) ->
  in_bounds b1 t1 a now' ->
  exists b2 t2 r, withdraw_with_fee b1 t1 a now' = Done (b2, t2, r) /\ moved b t b2 t2 /\
    wr_loan_amount r = 0 /\ wr_loan_origination_fee r = 0 /\ has_loan r = false /\
    if wr_position_is_active r then tp_indexed_position t <= tp_indexed_position t2 <= tp_indexed_position t + 1
    else tp_in_use_count t <= 0 /\ tp_indexed_position t2 = 0 /\ value b1 t1 - a < fx_one.
Proof.
  intros HI Ht E B. unfold deposit in E. pose proof E as E'.
  apply deposit_internal_wrapper_spec in E' as (Ha & M & Hv); [|done].
  destruct (deposit_run_nonneg _ _ _ _ _ _ _ _ HI Ht E) as (c & Ec & Hip). pose proof HI as [Hd Hb].
  destruct (div_rounding_up_spec _ _ _ Ha Hd Ec) as (Hc & Hlo & Hhi & _).
  pose proof scale_pos as Hs. pose proof (moved_indexes _ _ _ _ M HI) as HI1.
  assert (Hval : a <= value b1 t1).
  { destruct (value_sign b t HI) as [_ Hvt]. specialize (Hvt Ht). rewrite value_nonneg by lia. rewrite (mv_deposit_index _ _ _ _ M), Hip.
    apply (Z.le_trans _ (c * bk_deposit_index b / fx_scale)); [done|]. apply Z.div_le_mono; nia. }
  destruct (withdraw_returns b1 t1 a true (negb (Token.is_in_use t1)) now' B) as (b2 & t2 & r & E2).
  exists b2, t2, r. split; [exact E2|].
  assert (Ht1 : 0 <= tp_indexed_position t1) by lia.
  pose proof (withdraw_run_deposits _ _ _ _ _ _ _ _ _ HI1 Ht1 Hval E2) as Hip2.
  apply withdraw_internal_wrapper_spec in E2 as (_ & M2 & W); [|done|apply B].
  cbv zeta in W. rewrite (Z.max_r 0 (value b1 t1)), (Z.max_l 0 (a - value b1 t1)) in W by lia.
  cbn [Z.ltb Z.compare] in W. destruct W as (Hfee & Hloan & _ & W).
  split; [by eapply moved_trans|]. split; [done|]. split; [done|]. unfold has_loan. rewrite Hloan. split; [done|].
  destruct (wr_position_is_active r).
  - rewrite Hip2, Hip, (mv_deposit_index _ _ _ _ M).
    destruct (fx_quot_bounds a _ _ Ha Hd eq_refl) as [Hq Hqi].
    pose proof (floor_bounds (c * bk_deposit_index b) fx_scale Hs).
    assert (a * fx_scale <= c * bk_deposit_index b) by nia. nia.
  - destruct W as (Hu & W0 & _ & W2). split; [|split; [done|lia]].
    unfold Token.is_in_use in Hu. rewrite (mv_in_use _ _ _ _ M) in Hu. mlia.
Qed.

End bank.

(** ** Samples *)

(** A bank with deposit index 100 and borrow index 10 and a fee of 1/8 on loans. *)
Definition sample_bank : Bank := {|
  bk_group := 1; bk_mint := 2; bk_vault := 3; bk_oracle := 4;
  bk_oracle_config := mkOracleConfig (fx_scale / 10) 100;
  bk_stable_price_model := stable_price_default;
  bk_deposit_index := fx_int 100; bk_borrow_index := fx_int 10;
  bk_indexed_deposits := fx_int 2; bk_indexed_borrows := fx_int 1;
  bk_index_last_updated := 1000; bk_bank_rate_last_updated := 0;
  bk_avg_utilization := 0; bk_adjustment_factor := 0;
  bk_util0 := fx_scale / 2; bk_rate0 := fx_scale / 16;
  bk_util1 := 3 * (fx_scale / 4); bk_rate1 := fx_scale / 8;
  bk_max_rate := fx_one; bk_collected_fees_native := 0;
  bk_loan_origination_fee_rate := fx_scale / 8; bk_loan_fee_rate := fx_scale / 64;
  bk_maint_asset_weight := 3 * (fx_scale / 4); bk_init_asset_weight := fx_scale / 2;
  bk_maint_liab_weight := 5 * (fx_scale / 4); bk_init_liab_weight := 3 * (fx_scale / 2);
  bk_liquidation_fee := fx_scale / 16; bk_dust := 0;
  bk_flash_loan_token_account_initial := U64_MAX; bk_flash_loan_approved_amount := 0;
  bk_token_index := 0; bk_bump := 0; bk_mint_decimals := 6; bk_bank_num := 0;
  bk_min_vault_to_deposits_ratio := f_zero;
  bk_net_borrow_limit_window_size_ts := 100; bk_last_net_borrows_window_start_ts := 900;
  bk_net_borrow_limit_per_window_quote := -1; bk_net_borrows_in_window := 0;
  bk_borrow_weight_scale_start_quote := f64_MAX; bk_deposit_weight_scale_start_quote := f64_MAX;
  bk_reduce_only := 0; bk_force_close := 0; bk_disable_asset_liquidation := 0;
  bk_force_withdraw := 0; bk_fees_withdrawn := 0;
  bk_token_conditional_swap_taker_fee_rate := f_zero;
  bk_token_conditional_swap_maker_fee_rate := f_zero;
  bk_flash_loan_swap_fee_rate := f_zero; bk_interest_target_utilization := f32_ratio 1 2;
  bk_interest_curve_scaling := f64_one; bk_potential_serum_tokens := 0;
  bk_maint_weight_shift_start := 0; bk_maint_weight_shift_end := 0;
  bk_maint_weight_shift_duration_inv := 0; bk_maint_weight_shift_asset_target := 0;
  bk_maint_weight_shift_liab_target := 0; bk_fallback_oracle := 5; bk_deposit_limit := 0;
  bk_zero_util_rate := 0; bk_platform_liquidation_fee := 0; bk_collected_liquidation_fees := 0;
  bk_collected_collateral_fees := 0; bk_collateral_fee_per_day := f_zero
|}.

(** Positions of half an indexed token: 50 native tokens, or 5 borrowed ones. *)
Definition sample_position : TokenPosition := mkTokenPosition (fx_scale / 2) 0 0 (fx_int 100) f_zero f_zero.
Definition sample_borrower : TokenPosition := mkTokenPosition (- (fx_scale / 2)) 0 0 (fx_int 10) f_zero f_zero.

Lemma sample_in_bounds t a : (t = sample_position \/ t = sample_borrower) -> 0 <= a <= 2 ^ 108 ->
  in_bounds sample_bank t a 1000.
Proof.
  intros Ht Ha. destruct Ht as [-> | ->]; constructor; try exact Ha;
    repeat split; vm_compute; congruence.
Qed.

(** A concrete instance: a third of a token, which is not a multiple of the index. *)
Lemma deposit_credits_witness :
  exists b' t' active, @deposit fixed_ref sample_bank sample_borrower (fx_scale / 3) 1000 = Done (b', t', active) /\
    moved sample_bank sample_borrower b' t'.
Proof.
  destruct (@deposit_credits fixed_ref fixed_ref_laws sample_bank sample_borrower (fx_scale / 3) 1000)
    as (b' & t' & active & E & M & _).
  { apply sample_in_bounds; [by right|vm_compute; split; congruence]. }
  exists b', t', active. exact (conj E M).
Defined.

(** A concrete instance: withdrawing 60 tokens from 50 makes a loan of 10 and a fee. *)
Lemma withdraw_debits_witness :
  exists b' t' r, @withdraw_with_fee fixed_ref sample_bank sample_position (fx_int 60) 1000 = Done (b', t', r) /\
    withdrawn sample_bank sample_position (fx_int 60) true true b' t' r.
Proof.
  destruct (@withdraw_debits fixed_ref fixed_ref_laws sample_bank sample_position (fx_int 60) 1000)
    as (b' & t' & r & E & W).
  { apply sample_in_bounds; [by left|vm_compute; split; congruence]. }
  exists b', t', r. exact (conj E W).
Defined.

Example withdraw_fee_example :
  (fun '(_, _, r) => r) <$>
    (match @withdraw_with_fee fixed_ref sample_bank sample_position (fx_int 60) 1000 with
     | Done x => Some x | _ => None end)
  = Some (mkWithdrawResult true (fx_scale * 10 / 8) (fx_int 10 + fx_scale * 10 / 8)).
Proof. by vm_compute. Qed.

(** A concrete instance. *)
Lemma deposit_withdraw_roundtrip_witness :
  exists b1 t1 b2 t2 r, @deposit fixed_ref sample_bank sample_position (fx_scale / 3) 1000 = Done (b1, t1, true) /\
    @withdraw_with_fee fixed_ref b1 t1 (fx_scale / 3) 1000 = Done (b2, t2, r) /\ wr_loan_amount r = 0.
Proof.
  destruct (@deposit fixed_ref sample_bank sample_position (fx_scale / 3) 1000) as [[[b1 t1] a1]| | |] eqn:E;
    [|vm_compute in E; discriminate E..].
  pose proof E as E'. vm_compute in E'. injection E' as Eb Et Ea.
  destruct (@deposit_withdraw_roundtrip fixed_ref fixed_ref_laws sample_bank sample_position (fx_scale / 3) 1000
    b1 t1 a1 1000) as (b2 & t2 & r & E2 & _ & Hl & _).
  - constructor; vm_compute; congruence.
  - vm_compute. congruence.
  - exact E.
  - subst b1 t1. constructor; repeat split; vm_compute; congruence.
  - exists b1, t1, b2, t2, r. rewrite <- Ea. exact (conj eq_refl (conj E2 Hl)).
Defined.
