(* ===== verification/BankInterest.v ===== *)
(** * Interest

    The interest rate curve of a bank, the growth of its indexes, the average utilisation,
    the shift of maintenance weights, and the prices it accepts from its oracles. *)

From stdpp Require Import base numbers list.
From Stdlib Require Import ZArith Lia SpecFloat.
From S2P Require Import Prelude FixedPoint TokenPosition Nodes Oracle StablePrice Bank BankSpec.

Open Scope Z_scope.

(** ** The interest rate curve *)

(** Linear interpolation from [r0] to [r1] over a width of [w]. *)
Definition segment (r0 r1 w x : Z) : Z := r0 + Z.quot ((r1 - r0) * fx_scale) w * x / fx_scale.

(** The slope, rounded towards zero. *)
Lemma slope_bounds d w : 0 < w ->
  let k := Z.quot (d * fx_scale) w in
  (0 <= d -> 0 <= k /\ k * w <= d * fx_scale) /\ (d <= 0 -> k <= 0 /\ d * fx_scale <= k * w).
Proof.
  intros Hw k. pose proof scale_pos. split; intros Hd.
  - destruct (fx_quot_bounds d w k Hd Hw eq_refl). lia.
  - assert (E : k = - Z.quot (- d * fx_scale) w).
    { subst k. rewrite Z.mul_opp_l, Z.quot_opp_l by lia. lia. }
    destruct (fx_quot_bounds (- d) w _ ltac:(lia) Hw eq_refl). lia.
Qed.

Lemma segment_between r0 r1 w x : 0 < w -> 0 <= x <= w ->
  Z.min r0 r1 <= segment r0 r1 w x <= Z.max r0 r1.
Proof.
  intros Hw Hx. unfold segment. pose proof scale_pos.
  destruct (slope_bounds (r1 - r0) w Hw) as [Hp Hn]. set (k := Z.quot _ w) in *.
  destruct (Z.le_gt_cases 0 (r1 - r0)) as [L|L].
  - destruct (Hp L) as [Hk Hkw].
    assert (0 <= k * x / fx_scale) by (apply Z.div_pos; nia).
    assert (k * x / fx_scale <= r1 - r0) by (apply Z.div_le_upper_bound; nia). lia.
  - destruct (Hn ltac:(lia)) as [Hk Hkw].
    assert (k * x / fx_scale <= 0) by (apply Z.div_le_upper_bound; nia).
    assert (r1 - r0 <= k * x / fx_scale) by (apply Z.div_le_lower_bound; nia). lia.
Qed.

Lemma segment_monotone r0 r1 w x y : 0 < w -> r0 <= r1 -> 0 <= x <= y -> segment r0 r1 w x <= segment r0 r1 w y.
Proof.
  intros Hw Hr Hx. unfold segment. pose proof scale_pos.
  destruct (slope_bounds (r1 - r0) w Hw) as [Hp _]. destruct (Hp ltac:(lia)) as [Hk _].
  apply Z.add_le_mono_l, Z.div_le_mono; nia.
Qed.

(** The curve as a function, for utilisations between 0 and 1. *)
Definition curve (u zero_util_rate util0 rate0 util1 rate1 max_rate : Z) : Z :=
  if u <=? util0 then segment zero_util_rate rate0 util0 u
  else if u <=? util1 then segment rate0 rate1 (util1 - util0) (u - util0)
  else segment rate1 max_rate (fx_one - util1) (u - util1).

(** The parameters of the curve: what [verify] checks, a positive first point, and rates
    below 2^30. *)
Record curve_ok (zero_util_rate util0 rate0 util1 rate1 max_rate : Z) : Prop := {
  cv_util0 : 0 < util0;
  cv_util1 : util0 <= util1 <= fx_one;
  cv_zero : 0 <= zero_util_rate <= 2 ^ 78;
  cv_rate0 : 0 <= rate0 <= 2 ^ 78;
  cv_rate1 : 0 <= rate1 <= 2 ^ 78;
  cv_max : 0 <= max_rate <= 2 ^ 78
}.

(** The arithmetic of passing interest on: [x] and [y] are the growth of the deposit and
    the borrow index. *)
Lemma conserve_arith S Y D B td tb dt u nd nb r f dr x y :
  0 < S -> 0 <= Y -> 0 <= D -> 0 <= B -> 0 <= td -> 0 <= tb -> 0 <= dt -> 0 <= u <= S -> 0 <= nd ->
  0 <= r -> 0 <= f -> 0 <= x -> u * nd <= nb * S -> D * td < (nd + 1) * S -> nb * S <= B * tb ->
  dr * S <= r * u -> x * Y * S <= D * dr * dt -> B * (r + f) * dt <= (y * Y + dt + S + Y) * S ->
  x * td * Y <= y * tb * Y + r * dt + tb * (dt + S + Y).
Proof.
  intros HS HY HD HB Htd Htb Hdt Hu Hnd Hr Hf Hx Hun F1 F2 F3 Hx1 Hy1.
  assert (A1 : x * Y * S * (S * td) <= D * dr * dt * (S * td)) by (apply Z.mul_le_mono_nonneg_r; nia).
  assert (A2 : dr * S * (D * td * dt) <= r * u * (D * td * dt)).
  { apply Z.mul_le_mono_nonneg_r; [|done]. assert (0 <= D * td) by nia. nia. }
  assert (A3 : D * td * u <= S * (nb * S + S)) by nia.
  assert (A4 : D * td * u * (r * dt) <= S * (nb * S + S) * (r * dt)) by (apply Z.mul_le_mono_nonneg_r; nia).
  assert (A5 : x * Y * td <= r * dt * (nb + 1)).
  { apply (Z.mul_le_mono_pos_r _ _ (S * S)); [nia|].
    replace (x * Y * td * (S * S)) with (x * Y * S * (S * td)) by ring.
    replace (r * dt * (nb + 1) * (S * S)) with (S * (nb * S + S) * (r * dt)) by ring.
    replace (D * dr * dt * (S * td)) with (dr * S * (D * td * dt)) in A1 by ring.
    replace (r * u * (D * td * dt)) with (D * td * u * (r * dt)) in A2 by ring. lia. }
  assert (A6 : nb * S * (r * dt) <= B * tb * (r * dt)) by (apply Z.mul_le_mono_nonneg_r; nia).
  assert (A7 : B * (r + f) * dt * tb <= (y * Y + dt + S + Y) * S * tb) by (apply Z.mul_le_mono_nonneg_r; lia).
  assert (A8 : 0 <= B * f * dt * tb) by (assert (0 <= B * f) by nia; assert (0 <= dt * tb) by nia; nia).
  assert (A9 : nb * (r * dt) <= tb * (y * Y + dt + S + Y)).
  { apply (Z.mul_le_mono_pos_r _ _ S); [lia|]. lia. }
  lia.
Qed.

(** A bank passes [verify] exactly if all its checks hold. *)
Lemma verify_forall b : verify b = Done tt <-> Forall (fun c => fst c = true) (verify_checks b).
Proof.
  unfold verify. induction (verify_checks b) as [|[c e] l IH]; simpl; [done|].
  rewrite Forall_cons. unfold require. destruct c; simpl; [|split; [discriminate|intros [[=] _]]].
  run. rewrite IH. tauto.
Qed.

Ltac verified V n :=
  let X := fresh in
  pose proof (Forall_lookup_1 _ _ n _ (proj1 (verify_forall _) V) eq_refl) as X; simpl in X.

Section interest.
Context `{FixedLaws}.

(** One branch of the curve. *)
Lemma segment_run r0 r1 w x :
  0 <= r0 <= 2 ^ 78 -> 0 <= r1 <= 2 ^ 78 -> 0 < w -> 0 <= x <= w ->
  (d ← fx_sub r1 r0; slope ← fx_div d w; p ← fx_mul slope x; fx_add r0 p) = Done (segment r0 r1 w x).
Proof.
  intros Hr0 Hr1 Hw Hx. pose proof (segment_between r0 r1 w x Hw Hx) as Hs. unfold segment in *.
  rewrite fx_sub_law by i128_range. run. destruct (slope_bounds (r1 - r0) w Hw) as [Hp Hn].
  set (k := Z.quot ((r1 - r0) * fx_scale) w) in *.
  assert (Hk : - 2 ^ 126 <= k <= 2 ^ 126).
  { unfold fx_scale in *. destruct (Z.le_gt_cases 0 (r1 - r0)) as [L|L].
    - destruct (Hp L). nia.
    - destruct (Hn ltac:(lia)). nia. }
  rewrite fx_div_law; [|lia|fold k; i128_range]. run. fold k.
  rewrite fx_mul_law by i128_range. run. by rewrite fx_add_law by i128_range.
Qed.

Lemma clamp_unit u : 0 <= Z.min (Z.max u 0) fx_one <= fx_one.
Proof. pose proof scale_pos. unfold fx_one. lia. Qed.

Lemma curve_run u z u0 r0 u1 r1 m :
  curve_ok z u0 r0 u1 r1 m -> 0 <= u <= fx_one ->
  interest_rate_curve u z u0 r0 u1 r1 m = Done (curve u z u0 r0 u1 r1 m).
Proof.
  intros [] Hu. unfold interest_rate_curve, curve, fx_one, fx_scale in *.
  destruct (Z.leb_spec u u0); [apply segment_run; lia|].
  destruct (Z.leb_spec u u1).
  - rewrite (fx_sub_law u u0) by i128_range. run.
    rewrite <- (segment_run r0 r1 (u1 - u0) (u - u0)) by lia.
    rewrite (fx_sub_law r1 r0) by i128_range. run. by rewrite (fx_sub_law u1 u0) by i128_range.
  - rewrite (fx_sub_law u u1) by i128_range. run.
    rewrite <- (segment_run r1 m (2 ^ 48 - u1) (u - u1)) by lia.
    rewrite (fx_sub_law m r1) by i128_range. run. by rewrite (fx_sub_law (2 ^ 48) u1) by i128_range.
Qed.

Lemma curve_between u z u0 r0 u1 r1 m : curve_ok z u0 r0 u1 r1 m -> 0 <= u <= fx_one ->
  Z.min (Z.min z r0) (Z.min r1 m) <= curve u z u0 r0 u1 r1 m <= Z.max (Z.max z r0) (Z.max r1 m).
Proof.
  intros [] Hu. unfold curve. destruct (Z.leb_spec u u0); [|destruct (Z.leb_spec u u1)].
  - pose proof (segment_between z r0 u0 u). lia.
  - pose proof (segment_between r0 r1 (u1 - u0) (u - u0)). lia.
  - pose proof (segment_between r1 m (fx_one - u1) (u - u1)). lia.
Qed.

Lemma curve_monotone u v z u0 r0 u1 r1 m : curve_ok z u0 r0 u1 r1 m ->
  z <= r0 -> r0 <= r1 -> r1 <= m -> 0 <= u <= v -> v <= fx_one ->
  curve u z u0 r0 u1 r1 m <= curve v z u0 r0 u1 r1 m.
Proof.
  intros [] Hz H01 H1m Hu Hv.
  assert (A : forall x, 0 <= x <= u0 -> segment z r0 u0 x <= r0) by (intros; pose proof (segment_between z r0 u0 x); lia).
  assert (B : forall x, 0 <= x <= u1 - u0 -> 0 < u1 - u0 -> r0 <= segment r0 r1 (u1 - u0) x <= r1)
    by (intros; pose proof (segment_between r0 r1 (u1 - u0) x); lia).
  assert (C : forall x, 0 <= x <= fx_one - u1 -> 0 < fx_one - u1 -> r1 <= segment r1 m (fx_one - u1) x)
    by (intros; pose proof (segment_between r1 m (fx_one - u1) x); lia).
  unfold curve. destruct (Z.leb_spec u u0), (Z.leb_spec v u0); try lia.
  - apply segment_monotone; lia.
  - destruct (Z.leb_spec v u1); specialize (A u).
    + specialize (B (v - u0)). lia.
    + specialize (C (v - u1)). lia.
  - destruct (Z.leb_spec u u1), (Z.leb_spec v u1); try lia.
    + apply segment_monotone; lia.
    + specialize (B (u - u0)). specialize (C (v - u1)). lia.
    + apply segment_monotone; lia.
Qed.

(** The interest rate curve. With a positive first point and rates up to 2^30 it
    returns at every utilisation (which is clamped to 0..1), the rate lies between the
    lowest and the highest configured rate, and if the configured rates do not decrease,
    neither does the rate when utilisation grows. *)
Theorem interest_rate_curve_bounded z u0 r0 u1 r1 m u v :
  curve_ok z u0 r0 u1 r1 m ->
  exists x y, interest_rate_curve_calculator u z u0 r0 u1 r1 m f_zero = Done x /\
    interest_rate_curve_calculator v z u0 r0 u1 r1 m f_zero = Done y /\
    Z.min (Z.min z r0) (Z.min r1 m) <= x <= Z.max (Z.max z r0) (Z.max r1 m) /\
    (z <= r0 -> r0 <= r1 -> r1 <= m -> u <= v -> x <= y).
Proof.
  intros C. unfold interest_rate_curve_calculator.
  rewrite !curve_run by (done || apply clamp_unit). run.
  eexists _, _. split; [done|]. split; [done|].
  split; [apply curve_between; (done || apply clamp_unit)|].
  intros. pose proof (clamp_unit v). pose proof (clamp_unit u). apply curve_monotone; (done || lia).
Qed.

(** ** Growth of the indexes *)

Lemma verified_curve b : verify b = Done tt -> 0 < bk_util0 b -> bk_zero_util_rate b <= 2 ^ 78 ->
  bk_rate0 b <= 2 ^ 78 -> bk_rate1 b <= 2 ^ 78 -> bk_max_rate b <= 2 ^ 78 ->
  curve_ok (bk_zero_util_rate b) (bk_util0 b) (bk_rate0 b) (bk_util1 b) (bk_rate1 b) (bk_max_rate b).
Proof.
  intros V. verified V 2%nat. verified V 3%nat. verified V 4%nat. verified V 5%nat. verified V 6%nat.
  verified V 32%nat. bool_to_prop. constructor; lia.
Qed.

Lemma verified_fee b : verify b = Done tt -> 0 <= bk_loan_fee_rate b /\ SFleb f64_one (bk_interest_curve_scaling b) = true.
Proof. intros V. verified V 8%nat. verified V 26%nat. bool_to_prop. done. Qed.

Lemma instantaneous_utilization_spec nd nb u : 0 <= nd -> 0 <= nb ->
  instantaneous_utilization nd nb = Done u -> 0 <= u <= fx_one /\ u * nd <= nb * fx_scale.
Proof.
  intros Hd Hb. unfold instantaneous_utilization. pose proof scale_pos.
  destruct (Z.eqb_spec nd 0) as [-> |Hn]; intros E; fx_inv.
  - unfold fx_one. lia.
  - destruct (fx_quot_bounds nb nd _ Hb ltac:(lia) eq_refl) as [Hq Hqi].
    pose proof (clamp_unit (Z.quot (nb * fx_scale) nd)). split; [done|]. nia.
Qed.

(** The rate charged to borrowers is never negative. *)
Lemma interest_rate_nonneg b u r :
  curve_ok (bk_zero_util_rate b) (bk_util0 b) (bk_rate0 b) (bk_util1 b) (bk_rate1 b) (bk_max_rate b) ->
  SFleb f64_one (bk_interest_curve_scaling b) = true -> compute_interest_rate b u = Done r -> 0 <= r.
Proof.
  intros C Hsc E. unfold compute_interest_rate, interest_rate_curve_calculator in E.
  rewrite curve_run in E by (done || apply clamp_unit). run_in E.
  pose proof (curve_between _ _ _ _ _ _ _ C (clamp_unit u)) as Hc.
  assert (0 <= curve (Z.min (Z.max u 0) fx_one) (bk_zero_util_rate b) (bk_util0 b) (bk_rate0 b)
    (bk_util1 b) (bk_rate1 b) (bk_max_rate b)) by (destruct C; lia).
  destruct (SFeqb _ f_zero); [by injection E as <-|].
  apply bind_Done_inv in E as (s & Es & E). rewrite fx_from_f64_law in Es.
  destruct (fx_checked_from_f64 _) as [v|] eqn:Ev; [|discriminate]. injection Es as ->.
  assert (0 <= s).
  { apply (fx_from_f64_nonneg _ _) in Ev; [done|]. clear -Hsc. unfold f64_one in Hsc.
    destruct (bk_interest_curve_scaling b) as [[]|[]| |[] m e]; try done. }
  apply fx_mul_inv in E as ->. apply Z.div_pos; [nia|done].
Qed.

(** The growth of an index for a rate and a time step, rounded down. *)
Lemma grow_index_spec i r dt i' : 0 <= i -> 0 <= r -> 0 <= dt -> grow_index i r dt = Done i' ->
  i <= i' /\ (i' - i) * YEAR_I80F48 * fx_scale <= i * r * dt /\
  i * r * dt <= ((i' - i) * YEAR_I80F48 + dt + fx_scale + YEAR_I80F48) * fx_scale.
Proof.
  intros Hi Hr Hdt E. unfold grow_index in E. pose proof scale_pos as Hs.
  apply bind_Done_inv in E as (x1 & E1 & E). apply bind_Done_inv in E as (x2 & E2 & E).
  apply bind_Done_inv in E as (x3 & E3 & E). apply fx_add_inv in E as ->.
  apply fx_mul_inv in E1, E2. apply fx_div_inv in E3 as [_ E3].
  assert (Hy : 0 < YEAR_I80F48) by done.
  assert (F1 : x1 * fx_scale <= i * r < x1 * fx_scale + fx_scale) by (subst x1; by apply floor_bounds).
  assert (F2 : x2 * fx_scale <= x1 * dt < x2 * fx_scale + fx_scale) by (subst x2; by apply floor_bounds).
  assert (0 <= x1) by (rewrite E1; apply Z.div_pos; nia).
  assert (0 <= x2) by (rewrite E2; apply Z.div_pos; nia).
  destruct (fx_quot_bounds x2 _ x3 ltac:(lia) Hy E3) as [H3 F3].
  clear E1 E2 E3. generalize dependent YEAR_I80F48. intros Y Hy F3. replace (x3 + i - i) with x3 by lia.
  generalize dependent fx_scale. intros S Hs F1 F2 F3. split; [lia|].
  assert (x1 * S * dt <= i * r * dt) by nia.
  assert (i * r * dt <= (x1 * S + S) * dt) by nia. split; nia.
Qed.

(** A bank whose interest can be computed. *)
Record interest_ok (b : Bank) : Prop := {
  in_indexes : indexes_ok b;
  in_curve : curve_ok (bk_zero_util_rate b) (bk_util0 b) (bk_rate0 b) (bk_util1 b) (bk_rate1 b) (bk_max_rate b);
  in_fee : 0 <= bk_loan_fee_rate b;
  in_scaling : SFleb f64_one (bk_interest_curve_scaling b) = true
}.

Lemma compute_index_inv b td tb dt di bi fees br dr :
  interest_ok b -> 0 <= td -> 0 <= tb -> compute_index b td tb dt = Done (di, bi, fees, br, dr) ->
  exists u nd nb, nd = bk_deposit_index b * td / fx_scale /\ nb = bk_borrow_index b * tb / fx_scale /\
    0 <= u <= fx_one /\ u * nd <= nb * fx_scale /\ 0 <= br /\ dr = br * u / fx_scale /\
    fees = Z.quot (nb * bk_loan_fee_rate b / fx_scale * dt / fx_scale * fx_scale) YEAR_I80F48 /\
    grow_index (bk_borrow_index b) (br + bk_loan_fee_rate b) dt = Done bi /\
    grow_index (bk_deposit_index b) dr dt = Done di.
Proof.
  intros [[Hd Hb] Hc Hf Hs] Htd Htb E. unfold compute_index in E. pose proof scale_pos.
  apply bind_Done_inv in E as (nd & End & E). apply fx_mul_inv in End.
  apply bind_Done_inv in E as (nb & Enb & E). apply fx_mul_inv in Enb.
  apply bind_Done_inv in E as (u & Eu & E). apply bind_Done_inv in E as (r & Er & E).
  apply bind_Done_inv in E as (d & Ed & E). apply fx_mul_inv in Ed.
  apply bind_Done_inv in E as (rf & Erf & E). apply fx_add_inv in Erf.
  apply bind_Done_inv in E as (f1 & Ef1 & E). apply fx_mul_inv in Ef1.
  apply bind_Done_inv in E as (f2 & Ef2 & E). apply fx_mul_inv in Ef2.
  apply bind_Done_inv in E as (f3 & Ef3 & E). apply fx_div_inv in Ef3 as [_ Ef3].
  apply bind_Done_inv in E as (b1 & Eb1 & E). apply bind_Done_inv in E as (d1 & Ed1 & E).
  injection E as <- <- <- <- <-.
  assert (0 <= nd) by (rewrite End; apply Z.div_pos; nia).
  assert (0 <= nb) by (rewrite Enb; apply Z.div_pos; nia).
  apply instantaneous_utilization_spec in Eu as [Hu Hun]; [|done..].
  exists u, nd, nb. subst rf d f3 f2 f1. split_and!; (done || lia || by eapply interest_rate_nonneg).
Qed.

(** The indexes never shrink. *)
Lemma compute_index_grows b td tb dt di bi fees br dr :
  interest_ok b -> 0 <= td -> 0 <= tb -> 0 <= dt ->
  compute_index b td tb dt = Done (di, bi, fees, br, dr) ->
  bk_deposit_index b <= di /\ bk_borrow_index b <= bi /\ 0 <= dr <= br.
Proof.
  intros HI Htd Htb Hdt E.
  destruct (compute_index_inv _ _ _ _ _ _ _ _ _ HI Htd Htb E) as
    (u & nd & nb & _ & _ & Hu & _ & Hbr & -> & _ & Eb & Ed).
  destruct HI as [[Hd Hb] _ Hf _]. pose proof scale_pos as Hs. unfold fx_one in Hu.
  assert (Hdr : 0 <= br * u / fx_scale <= br).
  { split; [apply Z.div_pos|apply Z.div_le_upper_bound]; nia. }
  apply grow_index_spec in Eb as (Hb1 & _); [|lia..]. by apply grow_index_spec in Ed as (Hd1 & _); [|lia..].
Qed.

(** Interest is passed on and not created: the indexes never shrink, and what the
    growth of the deposit index gives to all depositors is at most what the growth of the
    borrow index takes from all borrowers, up to rounding: per unit of indexed borrows
    less than one unit in the last place and the time step in years (in units), and the
    borrow rate over the time step. *)
Theorem interest_conserved b td tb dt di bi fees br dr :
  interest_ok b -> 0 <= td -> 0 <= tb -> 0 <= dt ->
  compute_index b td tb dt = Done (di, bi, fees, br, dr) ->
  bk_deposit_index b <= di /\ bk_borrow_index b <= bi /\ 0 <= dr <= br /\
  (di - bk_deposit_index b) * td * YEAR_I80F48 <=
    (bi - bk_borrow_index b) * tb * YEAR_I80F48 + br * dt + tb * (dt + fx_scale + YEAR_I80F48).
Proof.
  intros HI Htd Htb Hdt E.
  destruct (compute_index_grows _ _ _ _ _ _ _ _ _ HI Htd Htb Hdt E) as (Hd1 & Hb1 & Hdr).
  destruct (compute_index_inv _ _ _ _ _ _ _ _ _ HI Htd Htb E) as
    (u & nd & nb & End & Enb & Hu & Hun & Hbr & -> & _ & Eb & Ed).
  destruct HI as [[Hd Hb] _ Hf _]. pose proof scale_pos as Hs. unfold fx_one in Hu.
  apply grow_index_spec in Eb as (_ & _ & Hb2); [|lia..].
  apply grow_index_spec in Ed as (_ & Hd2 & _); [|lia..].
  split; [done|]. split; [done|]. split; [done|].
  assert (F1 : bk_deposit_index b * td < (nd + 1) * fx_scale).
  { subst nd. pose proof (floor_bounds (bk_deposit_index b * td) fx_scale Hs). lia. }
  assert (F2 : nb * fx_scale <= bk_borrow_index b * tb).
  { subst nb. pose proof (floor_bounds (bk_borrow_index b * tb) fx_scale Hs). lia. }
  assert (0 <= nd) by (subst nd; apply Z.div_pos; nia).
  assert (F3 : br * u / fx_scale * fx_scale <= br * u).
  { pose proof (floor_bounds (br * u) fx_scale Hs). lia. }
  by apply (conserve_arith fx_scale YEAR_I80F48 (bk_deposit_index b) (bk_borrow_index b) td tb dt u nd nb br
    (bk_loan_fee_rate b) (br * u / fx_scale)); try lia.
Qed.

(** ** Average utilisation and scaling *)

Lemma fx_int_mul_floor x n : x * fx_int n / fx_scale = x * n.
Proof. unfold fx_int. rewrite Z.mul_assoc. by apply Z.div_mul. Qed.

(** The average utilisation stays between 0 and 1, and between the old average and the
    current utilisation. *)
Lemma avg_utilization_between b td tb now v :
  0 <= bk_avg_utilization b <= fx_one -> indexes_ok b -> 0 <= td -> 0 <= tb ->
  compute_new_avg_utilization b td tb now = Done v ->
  0 <= v <= fx_one.
Proof.
  intros Ha [Hd Hb] Htd Htb E. unfold compute_new_avg_utilization in E. pose proof scale_pos as Hs.
  destruct (now =? 0); [injection E as <-; unfold fx_one in *; lia|].
  apply bind_Done_inv in E as (nd & End & E). apply fx_mul_inv in End.
  apply bind_Done_inv in E as (nb & Enb & E). apply fx_mul_inv in Enb.
  apply bind_Done_inv in E as (u & Eu & E).
  apply instantaneous_utilization_spec in Eu as [Hu _];
    [|rewrite End; apply Z.div_pos; nia|rewrite Enb; apply Z.div_pos; nia].
  apply bind_Done_inv in E as (d1 & E1 & E). apply u64_inv in E1 as [-> R1].
  apply bind_Done_inv in E as (p & Ep & E). apply fx_from_int_inv in Ep as ->.
  apply bind_Done_inv in E as (d2 & E2 & E). apply u64_inv in E2 as [-> R2].
  apply bind_Done_inv in E as (q & Eq & E). apply fx_from_int_inv in Eq as ->.
  apply bind_Done_inv in E as (d3 & E3 & E). apply u64_inv in E3 as [-> R3].
  apply bind_Done_inv in E as (n & En & E). apply fx_from_int_inv in En as ->.
  set (t1 := bk_index_last_updated b - _) in *. set (t2 := now - bk_index_last_updated b) in *.
  replace (now - bk_bank_rate_last_updated b) with (t1 + t2) in * by lia.
  destruct (Z.leb_spec (fx_int (t1 + t2)) 0); [by injection E as <-|].
  fx_inv. rewrite !fx_int_mul_floor. unfold fx_int in *. unfold is_u64 in *.
  rewrite Z.quot_mul_cancel_r by nia. rewrite Z.quot_div_nonneg by nia.
  split; [apply Z.div_pos; nia|apply Z.div_le_upper_bound; nia].
Qed.

(** The scaling of the curve is always at least 1. *)
Lemma interest_curve_scaling_at_least_one b :
  SFleb f64_one (bk_interest_curve_scaling (update_interest_rate_scaling b)) = true.
Proof.
  unfold update_interest_rate_scaling. cbn [bk_interest_curve_scaling set_bk_interest_curve_scaling field_update].
  match goal with |- context [f64_max ?v f64_one] => generalize v end. intros x.
  assert (E : x = S754_nan \/ (x <> S754_nan /\ f64_max x f64_one = if SFltb x f64_one then f64_one else x))
    by (destruct x; auto).
  destruct E as [-> |[Hx ->]]; [by vm_compute|].
  destruct (SFltb x f64_one) eqn:L; [by vm_compute|]. by apply SFleb_total.
Qed.

(** ** Weights *)

(** While maintenance weights shift, they stay between their start and their target
    values, before the shift they are the configured weights and after it the targets;
    the inverse of the duration must not be larger than the exact one. *)
Theorem maint_weights_between b now a l :
  0 <= bk_maint_weight_shift_duration_inv b ->
  bk_maint_weight_shift_duration_inv b * (bk_maint_weight_shift_end b - bk_maint_weight_shift_start b) <= fx_one ->
  maint_weights b now = Done (a, l) ->
  Z.min (bk_maint_asset_weight b) (bk_maint_weight_shift_asset_target b) <= a <=
    Z.max (bk_maint_asset_weight b) (bk_maint_weight_shift_asset_target b) /\
  Z.min (bk_maint_liab_weight b) (bk_maint_weight_shift_liab_target b) <= l <=
    Z.max (bk_maint_liab_weight b) (bk_maint_weight_shift_liab_target b) /\
  (now <= bk_maint_weight_shift_start b -> a = bk_maint_asset_weight b /\ l = bk_maint_liab_weight b) /\
  (bk_maint_weight_shift_duration_inv b <> 0 -> bk_maint_weight_shift_start b < now ->
   bk_maint_weight_shift_end b <= now ->
   a = bk_maint_weight_shift_asset_target b /\ l = bk_maint_weight_shift_liab_target b).
Proof.
  intros Hi Hd E. unfold maint_weights in E. pose proof scale_pos as Hs. unfold fx_one in Hd.
  destruct (Z.eqb_spec (bk_maint_weight_shift_duration_inv b) 0) as [Hz|Hz]; cbn [orb] in E.
  { injection E as <- <-. lia. }
  destruct (Z.leb_spec now (bk_maint_weight_shift_start b)); [injection E as <- <-; lia|].
  destruct (Z.leb_spec (bk_maint_weight_shift_end b) now); [injection E as <- <-; lia|].
  fx_inv. rewrite (Z.mul_comm (fx_int _)), fx_int_mul_floor.
  set (sc := bk_maint_weight_shift_duration_inv b * (now - bk_maint_weight_shift_start b)).
  assert (Hsc : 0 <= sc <= fx_scale) by nia.
  assert (X : forall x y, Z.min x y <= x + sc * (y - x) / fx_scale <= Z.max x y).
  { intros x y. destruct (Z.le_gt_cases x y).
    - assert (0 <= sc * (y - x) / fx_scale) by (apply Z.div_pos; nia).
      assert (sc * (y - x) / fx_scale <= y - x) by (apply Z.div_le_upper_bound; nia). lia.
    - assert (sc * (y - x) / fx_scale <= 0) by (apply Z.div_le_upper_bound; nia).
      assert (y - x <= sc * (y - x) / fx_scale) by (apply Z.div_le_lower_bound; nia). lia. }
  split; [apply X|]. split; [apply X|]. lia.
Qed.

(** ** Oracle prices *)

(** The state [s] an accepted price comes from. *)
Definition accepted (b : Bank) (infos : OracleAccountInfos) (slot : option Z) (s : OracleState) : Prop :=
  confident s (bk_oracle_config b) /\
  (forall now_slot, slot = Some now_slot -> fresh s (bk_oracle_config b) now_slot) /\
  fst (oai_oracle infos) = bk_oracle b /\
  (oracle_state_unchecked infos (bk_mint_decimals b) = Done s \/
   fst <$> oai_fallback_opt infos = Some (bk_fallback_oracle b) /\
   fallback_oracle_state_unchecked infos (bk_mint_decimals b) = Done s /\
   exists s0, oracle_state_unchecked infos (bk_mint_decimals b) = Done s0 /\
     check_confidence_and_maybe_staleness s0 (bk_oracle_config b) slot <> Done (Ok tt)).

(** A price a bank accepts passed the bank's confidence check and, when a slot is
    given, its staleness check: it is the price of the bank's oracle, or, only after the
    oracle failed a check, the price of the fallback oracle registered in the bank. *)
Theorem oracle_price_checked b infos slot p :
  oracle_price b infos slot = Done p -> exists s, p = os_price s /\ accepted b infos slot s.
Proof.
  intros E. unfold oracle_price in E. apply bind_Done_inv in E as (u & Ek & E).
  unfold require in Ek. destruct (Z.eqb_spec (bk_oracle b) (fst (oai_oracle infos))) as [Hk|]; [|discriminate].
  apply bind_Done_inv in E as (s0 & Es0 & E). apply bind_Done_inv in E as (ok & Eok & E).
  assert (Prim : ok = Ok tt -> accepted b infos slot s0).
  { intros ->. apply checks_ok in Eok as [Hc Hf]. split_and!; auto. }
  destruct (is_oracle_error ok) eqn:Err, (oai_fallback_opt infos) as [fb|] eqn:Efb;
    try (destruct ok as [[]|e]; [|discriminate]; injection E as <-; by eauto).
  apply bind_Done_inv in E as (u1 & Ek1 & E). unfold require in Ek1.
  destruct (Z.eqb_spec (bk_fallback_oracle b) (fst fb)) as [Hk1|]; [|discriminate].
  apply bind_Done_inv in E as (s1 & Es1 & E). apply bind_Done_inv in E as (ok1 & Eok1 & E).
  destruct ok1 as [[]|e]; [|discriminate]. injection E as <-. apply checks_ok in Eok1 as [Hc Hf].
  exists s1. split; [done|]. split_and!; auto. right. split; [by rewrite Efb, Hk1|]. split; [done|].
  exists s0. split; [done|]. rewrite Eok. intros [= ->]. discriminate Err.
Qed.

End interest.

(** ** New banks *)

(** A further bank for a token passes the configuration checks exactly when the
    existing one does, starts without deposits, borrows, fees, dust and pending loans,
    and has the interest and weights of the existing bank. *)
Theorem from_existing_bank_verified b vault num bump :
  let b' := from_existing_bank b vault num bump in
  (verify b' = Done tt <-> verify b = Done tt) /\
  bk_indexed_deposits b' = 0 /\ bk_indexed_borrows b' = 0 /\ bk_dust b' = 0 /\
  bk_collected_fees_native b' = 0 /\ bk_fees_withdrawn b' = 0 /\ bk_potential_serum_tokens b' = 0 /\
  bk_flash_loan_token_account_initial b' = U64_MAX /\ bk_flash_loan_approved_amount b' = 0 /\
  bk_deposit_index b' = bk_deposit_index b /\ bk_borrow_index b' = bk_borrow_index b /\
  forall `{FixedOps} u now, compute_interest_rate b' u = compute_interest_rate b u /\
    maint_weights b' now = maint_weights b now.
Proof. intros b'. split_and!; try done. Qed.

(** The fallback oracle is not copied: the new bank uses the primary oracle of the
    existing bank as its fallback oracle. *)
Lemma from_existing_bank_fallback b vault num bump :
  bk_fallback_oracle (from_existing_bank b vault num bump) = bk_oracle b.
Proof. done. Qed.

(** ** Samples *)

Lemma sample_verified : verify sample_bank = Done tt.
Proof. by vm_compute. Qed.

Lemma sample_interest_ok : interest_ok sample_bank.
Proof.
  constructor; [constructor; by vm_compute| |by vm_compute..].
  apply verified_curve; [exact sample_verified|by vm_compute..].
Qed.

(** A concrete instance: the curve of the sample bank at half and at full utilisation. *)
Lemma interest_rate_curve_bounded_witness :
  exists x y, @interest_rate_curve_calculator fixed_ref (fx_scale / 2) 0 (fx_scale / 2) (fx_scale / 16)
      (3 * (fx_scale / 4)) (fx_scale / 8) fx_one f_zero = Done x /\
    @interest_rate_curve_calculator fixed_ref fx_one 0 (fx_scale / 2) (fx_scale / 16)
      (3 * (fx_scale / 4)) (fx_scale / 8) fx_one f_zero = Done y /\ x <= y.
Proof.
  destruct (@interest_rate_curve_bounded fixed_ref fixed_ref_laws 0 (fx_scale / 2) (fx_scale / 16)
    (3 * (fx_scale / 4)) (fx_scale / 8) fx_one (fx_scale / 2) fx_one) as (x & y & Ex & Ey & _ & M).
  { constructor; repeat split; vm_compute; congruence. }
  exists x, y. split; [exact Ex|]. split; [exact Ey|]. apply M; vm_compute; congruence.
Defined.

(** A concrete instance: a day of interest on the totals of the sample bank. *)
Lemma interest_conserved_witness :
  exists di bi fees br dr, @compute_index fixed_ref sample_bank (fx_int 2) (fx_int 1) (fx_int 86400)
      = Done (di, bi, fees, br, dr) /\ bk_deposit_index sample_bank <= di /\ bk_borrow_index sample_bank <= bi.
Proof.
  destruct (@compute_index fixed_ref sample_bank (fx_int 2) (fx_int 1) (fx_int 86400))
    as [[[[[di bi] fees] br] dr]| | |] eqn:E; [|vm_compute in E; discriminate E..].
  destruct (@interest_conserved fixed_ref fixed_ref_laws sample_bank (fx_int 2) (fx_int 1) (fx_int 86400)
    di bi fees br dr sample_interest_ok) as (Hd & Hb & _); [vm_compute; congruence..|exact E|].
  exists di, bi, fees, br, dr. exact (conj eq_refl (conj Hd Hb)).
Defined.

(** A bank whose asset weight is reduced to zero over 1024 seconds. *)
Definition shifting_bank : Bank :=
  sample_bank <| bk_maint_weight_shift_start := 1000 |> <| bk_maint_weight_shift_end := 2024 |>
    <| bk_maint_weight_shift_duration_inv := fx_scale / 1024 |>
    <| bk_maint_weight_shift_liab_target := 5 * (fx_scale / 4) |>.

(** A concrete instance: the weights in the middle of the shift. *)
Lemma maint_weights_between_witness :
  exists a l, @maint_weights fixed_ref shifting_bank 1512 = Done (a, l) /\
    Z.min (3 * (fx_scale / 4)) 0 <= a <= Z.max (3 * (fx_scale / 4)) 0.
Proof.
  destruct (@maint_weights fixed_ref shifting_bank 1512) as [[a l]| | |] eqn:E; [|vm_compute in E; discriminate E..].
  destruct (@maint_weights_between fixed_ref fixed_ref_laws shifting_bank 1512 a l) as (Ha & Hl & _);
    [vm_compute; congruence..|exact E|].
  exists a, l. exact (conj eq_refl Ha).
Defined.

(** A stale oracle and a fresh fallback. *)
Definition sample_oracles : OracleAccountInfos :=
  mkOracleAccountInfos (4, AStub (mkStubOracle (fx_int 3) 10 1)) (Some (5, AStub (mkStubOracle (fx_int 2) 990 1)))
    None None.

(** A concrete instance: the price of the fallback. *)
Lemma oracle_price_checked_witness :
  @oracle_price fixed_ref sample_bank sample_oracles (Some 1000) = Done (fx_int 2) /\
  exists s, fx_int 2 = os_price s /\ @accepted fixed_ref sample_bank sample_oracles (Some 1000) s.
Proof.
  assert (E : @oracle_price fixed_ref sample_bank sample_oracles (Some 1000) = Done (fx_int 2)) by (by vm_compute).
  split; [exact E|]. exact (@oracle_price_checked fixed_ref fixed_ref_laws _ _ _ _ E).
Defined.

(** [verify] accepts a curve whose first point is at utilisation zero, but the rate
    of such a bank at zero utilisation divides by zero: computing the indexes of a bank
    without borrows panics. *)
Theorem zero_util_curve_panics `{FixedLaws} b td dt :
  verify b = Done tt -> bk_util0 b = 0 -> bk_rate0 b <= 2 ^ 78 -> bk_zero_util_rate b <= 2 ^ 78 ->
  0 <= bk_deposit_index b * td / fx_scale <= 2 ^ 78 -> compute_index b td 0 dt = Panic.
Proof.
  intros V Hu Hr Hz Htd. verified V 4%nat. verified V 32%nat. bool_to_prop. unfold compute_index.
  rewrite (fx_mul_law (bk_deposit_index b)) by i128_range. run.
  rewrite fx_mul_law; rewrite Z.mul_0_r; [|done]. run.
  change (0 / fx_scale) with 0. unfold instantaneous_utilization.
  assert (E : (if bk_deposit_index b * td / fx_scale =? 0 then Done 0
    else q ← fx_div 0 (bk_deposit_index b * td / fx_scale); Done (Z.min (Z.max q 0) fx_one)) = Done 0).
  { destruct (Z.eqb_spec (bk_deposit_index b * td / fx_scale) 0); [done|].
    rewrite fx_div_law; [|done|]; rewrite Z.mul_0_l, Z.quot_0_l by done; done. }
  rewrite E. run. unfold compute_interest_rate, interest_rate_curve_calculator, interest_rate_curve.
  rewrite Hu. cbn [Z.max Z.min Z.leb Z.compare]. rewrite fx_sub_law by i128_range. run.
  by rewrite fx_div_zero.
Qed.

(** A concrete instance. *)
Lemma zero_util_curve_panics_witness :
  verify (sample_bank <| bk_util0 := 0 |>) = Done tt /\
  @compute_index fixed_ref (sample_bank <| bk_util0 := 0 |>) (fx_int 2) 0 (fx_int 60) = Panic.
Proof.
  assert (V : verify (sample_bank <| bk_util0 := 0 |>) = Done tt) by (by vm_compute).
  split; [exact V|].
  apply (@zero_util_curve_panics fixed_ref fixed_ref_laws); [exact V|by vm_compute..|split; vm_compute; congruence].
Defined.
