(* ===== verification/Group.v ===== *)
(** * Groups

    state/group.rs and instructions/ix_gate_set.rs: the root of a set of banks and markets,
    and the gate that switches instructions off. The lookup tables, PDA data and padding
    are left out. *)

From stdpp Require Import base decidable countable numbers list.
From Stdlib Require Import ZArith Lia SpecFloat.
From S2P Require Import Prelude FixedPoint Nodes.

Open Scope Z_scope.

Definition QUOTE_TOKEN_INDEX : Z := 0.
Definition INSURANCE_TOKEN_INDEX : Z := 0.
Definition PERP_SETTLE_TOKEN_INDEX : Z := 0.
Definition FEE_BUYBACK_QUOTE_TOKEN_INDEX : Z := 0.

Record Group := mkGroup {
  gr_creator : Pubkey;
  gr_group_num : Z;
  gr_admin : Pubkey;
  gr_fast_listing_admin : Pubkey;
  gr_mngo_token_index : Z;
  gr_insurance_vault : Pubkey;
  gr_insurance_mint : Pubkey;
  gr_testing : Z;
  gr_version : Z;
  gr_buyback_fees : Z;
  gr_buyback_fees_mngo_bonus_factor : f32;
  gr_security_admin : Pubkey;
  gr_deposit_limit_quote : Z;
  gr_ix_gate : Z;
  gr_buyback_fees_swap_mango_account : Pubkey;
  gr_buyback_fees_expiry_interval : Z;
  gr_fast_listing_interval_start : Z;
  gr_fast_listings_in_interval : Z;
  gr_allowed_fast_listings_per_interval : Z;
  gr_collateral_fee_interval : Z
}.

#[export] Instance eta_Group : Eta Group := fun g =>
  mkGroup
    (gr_creator g) (gr_group_num g) (gr_admin g) (gr_fast_listing_admin g)
    (gr_mngo_token_index g) (gr_insurance_vault g) (gr_insurance_mint g) (gr_testing g)
    (gr_version g) (gr_buyback_fees g) (gr_buyback_fees_mngo_bonus_factor g)
    (gr_security_admin g) (gr_deposit_limit_quote g) (gr_ix_gate g)
    (gr_buyback_fees_swap_mango_account g) (gr_buyback_fees_expiry_interval g)
    (gr_fast_listing_interval_start g) (gr_fast_listings_in_interval g)
    (gr_allowed_fast_listings_per_interval g) (gr_collateral_fee_interval g).

(** The variants have an [Ix] before the names of the source. *)
Inductive IxGate : Set :=
| IxAccountClose | IxAccountCreate | IxAccountEdit | IxAccountExpand | IxAccountToggleFreeze
| IxAltExtend | IxAltSet | IxFlashLoan | IxGroupClose | IxGroupCreate | IxHealthRegion
| IxPerpCancelAllOrders | IxPerpCancelAllOrdersBySide | IxPerpCancelOrder
| IxPerpCancelOrderByClientOrderId | IxPerpCloseMarket | IxPerpConsumeEvents | IxPerpCreateMarket
| IxPerpDeactivatePosition | IxPerpLiqBaseOrPositivePnl | IxPerpLiqForceCancelOrders
| IxPerpLiqNegativePnlOrBankruptcy | IxPerpPlaceOrder | IxPerpSettleFees | IxPerpSettlePnl
| IxPerpUpdateFunding | IxSerum3CancelAllOrders | IxSerum3CancelOrder | IxSerum3CloseOpenOrders
| IxSerum3CreateOpenOrders | IxSerum3DeregisterMarket | IxSerum3EditMarket
| IxSerum3LiqForceCancelOrders | IxSerum3PlaceOrder | IxSerum3RegisterMarket
| IxSerum3SettleFunds | IxStubOracleClose | IxStubOracleCreate | IxStubOracleSet | IxTokenAddBank
| IxTokenDeposit | IxTokenDeregister | IxTokenLiqBankruptcy | IxTokenLiqWithToken
| IxTokenRegister | IxTokenRegisterTrustless | IxTokenUpdateIndexAndRate | IxTokenWithdraw
| IxAccountBuybackFeesWithMngo | IxTokenForceCloseBorrowsWithToken | IxPerpForceClosePosition
| IxGroupWithdrawInsuranceFund | IxTokenConditionalSwapCreate | IxTokenConditionalSwapTrigger
| IxTokenConditionalSwapCancel | IxOpenbookV2CancelOrder | IxOpenbookV2CloseOpenOrders
| IxOpenbookV2CreateOpenOrders | IxOpenbookV2DeregisterMarket | IxOpenbookV2EditMarket
| IxOpenbookV2LiqForceCancelOrders | IxOpenbookV2PlaceOrder | IxOpenbookV2PlaceTakeOrder
| IxOpenbookV2RegisterMarket | IxOpenbookV2SettleFunds | IxAdminTokenWithdrawFees
| IxAdminPerpWithdrawFees | IxAccountSizeMigration | IxTokenConditionalSwapStart
| IxTokenConditionalSwapCreatePremiumAuction | IxTokenConditionalSwapCreateLinearAuction
| IxSerum3PlaceOrderV2 | IxTokenForceWithdraw | IxSequenceCheck | IxHealthCheck.

#[export] Instance IxGate_eq_dec : EqDecision IxGate.
Proof. solve_decision. Defined.

(** All gates, in the order of their numbers. *)
Definition all_gates : list IxGate :=
  [IxAccountClose; IxAccountCreate; IxAccountEdit; IxAccountExpand; IxAccountToggleFreeze;
    IxAltExtend; IxAltSet; IxFlashLoan; IxGroupClose; IxGroupCreate; IxHealthRegion;
    IxPerpCancelAllOrders; IxPerpCancelAllOrdersBySide; IxPerpCancelOrder;
    IxPerpCancelOrderByClientOrderId; IxPerpCloseMarket; IxPerpConsumeEvents; IxPerpCreateMarket;
    IxPerpDeactivatePosition; IxPerpLiqBaseOrPositivePnl; IxPerpLiqForceCancelOrders;
    IxPerpLiqNegativePnlOrBankruptcy; IxPerpPlaceOrder; IxPerpSettleFees; IxPerpSettlePnl;
    IxPerpUpdateFunding; IxSerum3CancelAllOrders; IxSerum3CancelOrder; IxSerum3CloseOpenOrders;
    IxSerum3CreateOpenOrders; IxSerum3DeregisterMarket; IxSerum3EditMarket;
    IxSerum3LiqForceCancelOrders; IxSerum3PlaceOrder; IxSerum3RegisterMarket;
    IxSerum3SettleFunds; IxStubOracleClose; IxStubOracleCreate; IxStubOracleSet; IxTokenAddBank;
    IxTokenDeposit; IxTokenDeregister; IxTokenLiqBankruptcy; IxTokenLiqWithToken;
    IxTokenRegister; IxTokenRegisterTrustless; IxTokenUpdateIndexAndRate; IxTokenWithdraw;
    IxAccountBuybackFeesWithMngo; IxTokenForceCloseBorrowsWithToken; IxPerpForceClosePosition;
    IxGroupWithdrawInsuranceFund; IxTokenConditionalSwapCreate; IxTokenConditionalSwapTrigger;
    IxTokenConditionalSwapCancel; IxOpenbookV2CancelOrder; IxOpenbookV2CloseOpenOrders;
    IxOpenbookV2CreateOpenOrders; IxOpenbookV2DeregisterMarket; IxOpenbookV2EditMarket;
    IxOpenbookV2LiqForceCancelOrders; IxOpenbookV2PlaceOrder; IxOpenbookV2PlaceTakeOrder;
    IxOpenbookV2RegisterMarket; IxOpenbookV2SettleFunds; IxAdminTokenWithdrawFees;
    IxAdminPerpWithdrawFees; IxAccountSizeMigration; IxTokenConditionalSwapStart;
    IxTokenConditionalSwapCreatePremiumAuction; IxTokenConditionalSwapCreateLinearAuction;
    IxSerum3PlaceOrderV2; IxTokenForceWithdraw; IxSequenceCheck; IxHealthCheck].

(** [ix as u128]: the number of a gate. *)
Definition gate_number (ix : IxGate) : Z :=
  match list_find (fun g => g = ix) all_gates with Some (i, _) => Z.of_nat i | None => 0 end.

Module GroupCfg.

Definition buyback_fees (g : Group) : bool := gr_buyback_fees g =? 1.

Definition is_testing (g : Group) : bool := gr_testing g =? 1.

Definition multiple_banks_supported (g : Group) : bool := is_testing g || (1 <? gr_version g).

Definition serum3_supported (g : Group) : bool := is_testing g || (0 <? gr_version g).

Definition perps_supported (g : Group) : bool := is_testing g || (1 <? gr_version g).

Definition openbook_v2_supported (g : Group) : bool := is_testing g.

Definition is_ix_enabled (g : Group) (ix : IxGate) : bool :=
  Z.land (gr_ix_gate g) (Z.shiftl 1 (gate_number ix)) =? 0.

(** The loop of [ix_gate_set]: some gate is enabled again. *)
Definition reenables (old new : Z) : bool :=
  existsb (fun i => negb (Z.land old (Z.shiftl 1 (Z.of_nat i)) =? 0) &&
                    (Z.land new (Z.shiftl 1 (Z.of_nat i)) =? 0)) (seq 0 128).

Definition ix_gate_set (g : Group) (admin : Pubkey) (ix_gate : Z) : outcome Group :=
  let require_group_admin := reenables (gr_ix_gate g) ix_gate in
  let g := g <| gr_ix_gate := ix_gate |> in
  _ ← (if require_group_admin then require (gr_admin g =? admin) (EMango SomeError)
       else require ((gr_admin g =? admin) || (gr_security_admin g =? admin)) (EMango SomeError));
  Done g.

End GroupCfg.

(** ** Properties *)

Lemma land_bit a i : 0 <= i -> (Z.land a (Z.shiftl 1 i) =? 0) = negb (Z.testbit a i).
Proof.
  intros Hi. rewrite Z.shiftl_1_l. destruct (Z.testbit a i) eqn:B; simpl.
  - apply Z.eqb_neq. intros E. apply (f_equal (fun z => Z.testbit z i)) in E.
    rewrite Z.land_spec, Z.pow2_bits_true, B, Z.bits_0 in E by done. discriminate E.
  - apply Z.eqb_eq, Z.bits_inj'. intros n Hn. rewrite Z.land_spec, Z.bits_0.
    destruct (Z.eq_dec n i) as [-> | Ne]; [by rewrite B|]. rewrite Z.pow2_bits_false by done. apply andb_false_r.
Qed.

Lemma gate_number_range ix : 0 <= gate_number ix < 128.
Proof. destruct ix; vm_compute; split; congruence. Qed.

Lemma is_ix_enabled_bit g ix : GroupCfg.is_ix_enabled g ix = negb (Z.testbit (gr_ix_gate g) (gate_number ix)).
Proof. apply land_bit. apply gate_number_range. Qed.

Lemma gate_number_inj ix1 ix2 : gate_number ix1 = gate_number ix2 -> ix1 = ix2.
Proof.
  assert (Hl : forall ix, nth (Z.to_nat (gate_number ix)) all_gates IxAccountClose = ix) by (intros []; reflexivity).
  intros E. rewrite <- (Hl ix1), <- (Hl ix2). by rewrite E.
Qed.

(** Only the group admin can switch an instruction back on. [ix_gate_set] sets the gate
    for an admin or security admin; if it succeeds for another signer than the admin,
    every instruction that was disabled stays disabled. *)
Theorem security_admin_only_disables g signer ix_gate g' ix :
  GroupCfg.ix_gate_set g signer ix_gate = Done g' -> signer <> gr_admin g ->
  signer = gr_security_admin g /\ g' = g <| gr_ix_gate := ix_gate |> /\
  (GroupCfg.is_ix_enabled g ix = false -> GroupCfg.is_ix_enabled g' ix = false).
Proof.
  intros E Hs. unfold GroupCfg.ix_gate_set in E. apply bind_Done_inv in E as (u & E1 & E). simpl in E1.
  rewrite (proj2 (Z.eqb_neq (gr_admin g) signer)) in E1 by done.
  destruct (GroupCfg.reenables (gr_ix_gate g) ix_gate) eqn:Er; [discriminate E1|].
  destruct (Z.eqb_spec (gr_security_admin g) signer) as [Es|]; [|discriminate E1].
  injection E as <-. split; [done|]. split; [done|].
  rewrite !is_ix_enabled_bit. simpl. intros Hd. apply negb_false_iff in Hd. apply negb_false_iff.
  destruct (Z.testbit ix_gate (gate_number ix)) eqn:B; [done|]. exfalso.
  pose proof (gate_number_range ix) as Hr. apply not_true_iff_false in Er. apply Er.
  apply existsb_exists. exists (Z.to_nat (gate_number ix)). split; [apply in_seq; lia|].
  rewrite !land_bit, Z2Nat.id by lia. by rewrite Hd, B.
Qed.

(** A group whose gate disables deposits (bit 40). *)
Definition sample_group : Group :=
  mkGroup 1 0 2 3 1 4 5 0 1 0 f_zero 6 0 (2 ^ 40) 7 0 0 0 0 0.

(** A concrete instance: the security admin also disables withdrawals. *)
Lemma security_admin_only_disables_witness :
  GroupCfg.is_ix_enabled sample_group IxTokenDeposit = false /\
  exists g', GroupCfg.ix_gate_set sample_group 6 (2 ^ 40 + 2 ^ 47) = Done g' /\
    GroupCfg.is_ix_enabled g' IxTokenDeposit = false.
Proof.
  split; [reflexivity|].
  destruct (GroupCfg.ix_gate_set sample_group 6 (2 ^ 40 + 2 ^ 47)) as [g'| | |] eqn:E; [|vm_compute in E; discriminate E..].
  exists g'. destruct (security_admin_only_disables sample_group 6 (2 ^ 40 + 2 ^ 47) g' IxTokenDeposit E) as (_ & _ & H).
  - vm_compute. congruence.
  - exact (conj eq_refl (H eq_refl)).
Defined.
