(* ===== verification/Serum3.v ===== *)
(** * Spot open orders

    [Serum3Orders] of state/mango_account_components.rs: what an account keeps about its
    open orders account in a spot market, and the amounts read from that open orders
    account ([OpenOrdersSlim] of serum3_cpi.rs). The market itself is another program. *)

From stdpp Require Import base numbers list.
From Stdlib Require Import ZArith Lia SpecFloat.
From S2P Require Import Prelude FixedPoint TokenPosition Nodes.

Open Scope Z_scope.

Record Serum3Orders := mkSerum3Orders {
  s3_open_orders : Pubkey;
  s3_base_borrows_without_fee : Z;
  s3_quote_borrows_without_fee : Z;
  s3_market_index : Z;
  s3_base_token_index : Z;
  s3_quote_token_index : Z;
  s3_highest_placed_bid_inv : f64;
  s3_lowest_placed_ask : f64;
  s3_potential_base_tokens : Z;
  s3_potential_quote_tokens : Z;
  s3_lowest_placed_bid_inv : f64;
  s3_highest_placed_ask : f64
}.

#[export] Instance eta_Serum3Orders : Eta Serum3Orders := fun s =>
  mkSerum3Orders
    (s3_open_orders s) (s3_base_borrows_without_fee s) (s3_quote_borrows_without_fee s)
    (s3_market_index s) (s3_base_token_index s) (s3_quote_token_index s)
    (s3_highest_placed_bid_inv s) (s3_lowest_placed_ask s) (s3_potential_base_tokens s)
    (s3_potential_quote_tokens s) (s3_lowest_placed_bid_inv s) (s3_highest_placed_ask s).

(** [Serum3MarketIndex::MAX], the index of an unused slot. *)
Definition SERUM3_INDEX_MAX : Z := U16_MAX.

(** [Pubkey::default()]. *)
Definition default_key : Pubkey := 0.

Module Serum.

Definition default : Serum3Orders :=
  mkSerum3Orders default_key 0 0 SERUM3_INDEX_MAX TOKEN_INDEX_MAX TOKEN_INDEX_MAX
    f_zero f_zero 0 0 f_zero f_zero.

Definition is_active (s : Serum3Orders) : bool := negb (s3_market_index s =? SERUM3_INDEX_MAX).

Definition is_active_for_market (s : Serum3Orders) (market_index : Z) : bool :=
  s3_market_index s =? market_index.

End Serum.

Record OpenOrdersSlim := mkOpenOrdersSlim {
  oos_native_coin_free : Z;
  oos_native_coin_total : Z;
  oos_native_pc_free : Z;
  oos_native_pc_total : Z;
  oos_referrer_rebates_accrued : Z
}.

(** What a spot market promises about an open orders account. *)
Record open_orders_ok (oo : OpenOrdersSlim) : Prop := {
  oo_coin : 0 <= oos_native_coin_free oo <= oos_native_coin_total oo;
  oo_pc : 0 <= oos_native_pc_free oo <= oos_native_pc_total oo;
  oo_coin_u64 : is_u64 (oos_native_coin_total oo);
  oo_pc_u64 : is_u64 (oos_native_pc_total oo)
}.

Definition native_base_reserved (oo : OpenOrdersSlim) : outcome Z :=
  u64 (oos_native_coin_total oo - oos_native_coin_free oo).

Definition native_quote_reserved (oo : OpenOrdersSlim) : outcome Z :=
  u64 (oos_native_pc_total oo - oos_native_pc_free oo).
