(* ===== verification/ConditionalSwap.v ===== *)
(** * Token conditional swaps

    state/token_conditional_swap.rs: an order to buy a token for another one when a price
    condition holds, at a fixed or an auctioned premium. Prices are [f64]. The display
    style, the intention and the padding play no role and are left out. *)

From stdpp Require Import base numbers list.
From Stdlib Require Import ZArith Lia SpecFloat.
From S2P Require Import Prelude FixedPoint TokenPosition Nodes StablePrice Bank BankSpec.

Open Scope Z_scope.

Inductive TokenConditionalSwapType : Set := FixedPremium | PremiumAuction | LinearAuction.

Record TokenConditionalSwap := mkTokenConditionalSwap {
  tcs_id : Z;
  tcs_max_buy : Z;
  tcs_max_sell : Z;
  tcs_bought : Z;
  tcs_sold : Z;
  tcs_expiry_timestamp : Z;
  tcs_price_lower_limit : f64;
  tcs_price_upper_limit : f64;
  tcs_price_premium_rate : f64;
  tcs_taker_fee_rate : f32;
  tcs_maker_fee_rate : f32;
  tcs_buy_token_index : Z;
  tcs_sell_token_index : Z;
  tcs_is_configured : Z;
  tcs_allow_creating_deposits : Z;
  tcs_allow_creating_borrows : Z;
  tcs_tcs_type : Z;
  tcs_start_timestamp : Z;
  tcs_duration_seconds : Z
}.

#[export] Instance eta_TokenConditionalSwap : Eta TokenConditionalSwap := fun t =>
  mkTokenConditionalSwap
    (tcs_id t) (tcs_max_buy t) (tcs_max_sell t) (tcs_bought t) (tcs_sold t)
    (tcs_expiry_timestamp t) (tcs_price_lower_limit t) (tcs_price_upper_limit t)
    (tcs_price_premium_rate t) (tcs_taker_fee_rate t) (tcs_maker_fee_rate t)
    (tcs_buy_token_index t) (tcs_sell_token_index t) (tcs_is_configured t)
    (tcs_allow_creating_deposits t) (tcs_allow_creating_borrows t) (tcs_tcs_type t)
    (tcs_start_timestamp t) (tcs_duration_seconds t).

Definition set_tcs_bought (t : TokenConditionalSwap) (v : Z) : TokenConditionalSwap := t <| tcs_bought := v |>.
Definition set_tcs_sold (t : TokenConditionalSwap) (v : Z) : TokenConditionalSwap := t <| tcs_sold := v |>.
Definition set_tcs_start_timestamp (t : TokenConditionalSwap) (v : Z) : TokenConditionalSwap :=
  t <| tcs_start_timestamp := v |>.

(** [TCS_START_INCENTIVE]: paid to callers who start an auction, in 10^-6 dollars. *)
Definition TCS_START_INCENTIVE : Z := 1000.

Module Tcs.

Definition default : TokenConditionalSwap :=
  mkTokenConditionalSwap 0 0 0 0 0 U64_MAX f_zero f_zero f_zero f_zero f_zero
    TOKEN_INDEX_MAX TOKEN_INDEX_MAX 0 0 0 0 0 0.

Definition is_configured (t : TokenConditionalSwap) : bool := tcs_is_configured t =? 1.

Definition set_is_configured (t : TokenConditionalSwap) (b : bool) : TokenConditionalSwap :=
  t <| tcs_is_configured := if b then 1 else 0 |>.

(** [try_into().unwrap()] of the stored number. *)
Definition tcs_type (t : TokenConditionalSwap) : outcome TokenConditionalSwapType :=
  if tcs_tcs_type t =? 0 then Done FixedPremium
  else if tcs_tcs_type t =? 1 then Done PremiumAuction
  else if tcs_tcs_type t =? 2 then Done LinearAuction
  else Panic.

Definition is_expired (t : TokenConditionalSwap) (now_ts : Z) : bool := tcs_expiry_timestamp t <=? now_ts.

Definition passed_start (t : TokenConditionalSwap) (now_ts : Z) : bool :=
  (0 <? tcs_start_timestamp t) && (tcs_start_timestamp t <=? now_ts).

Definition is_startable_type (t : TokenConditionalSwap) : outcome bool :=
  ty ← tcs_type t; Done (match ty with PremiumAuction => true | _ => false end).

Definition allow_creating_deposits (t : TokenConditionalSwap) : bool := tcs_allow_creating_deposits t =? 1.

Definition allow_creating_borrows (t : TokenConditionalSwap) : bool := tcs_allow_creating_borrows t =? 1.

Definition remaining_buy (t : TokenConditionalSwap) : outcome Z := u64 (tcs_max_buy t - tcs_bought t).

Definition remaining_sell (t : TokenConditionalSwap) : outcome Z := u64 (tcs_max_sell t - tcs_sold t).

Definition start_timestamp_or_now (t : TokenConditionalSwap) (now_ts : Z) : Z :=
  if 0 <? tcs_start_timestamp t then tcs_start_timestamp t else now_ts.

Definition premium_price (t : TokenConditionalSwap) (base_price : f64) (now_ts : Z) : outcome f64 :=
  ty ← tcs_type t;
  match ty with
  | FixedPremium => Done (f64_mul base_price (f64_add f64_one (tcs_price_premium_rate t)))
  | PremiumAuction =>
      let start := start_timestamp_or_now t now_ts in
      _ ← assert_ (start <=? now_ts);
      let duration := f64_of_Z (tcs_duration_seconds t) in
      dt ← u64 (now_ts - start);
      let current := f64_of_Z dt in
      let progress := f64_min (f64_div current duration) f64_one in
      Done (f64_mul base_price (f64_add f64_one (f64_mul progress (tcs_price_premium_rate t))))
  | LinearAuction =>
      _ ← assert_ (passed_start t now_ts);
      let duration := tcs_duration_seconds t in
      current ← u64 (now_ts - tcs_start_timestamp t);
      if current <? duration then
        let progress := f64_div (f64_of_Z current) (f64_of_Z duration) in
        Done (f64_add (tcs_price_lower_limit t)
                (f64_mul progress (f64_sub (tcs_price_upper_limit t) (tcs_price_lower_limit t))))
      else Done (tcs_price_upper_limit t)
  end.

Definition maker_price (t : TokenConditionalSwap) (premium_price : f64) : f64 :=
  f64_mul premium_price (f64_add f64_one (f64_of_f32 (tcs_maker_fee_rate t))).

Definition taker_price (t : TokenConditionalSwap) (premium_price : f64) : f64 :=
  f64_mul premium_price (f64_sub f64_one (f64_of_f32 (tcs_taker_fee_rate t))).

Definition price_in_range (t : TokenConditionalSwap) (price : f64) : bool :=
  SFleb (tcs_price_lower_limit t) price && SFleb price (tcs_price_upper_limit t).

(** The checks return a result; [is_startable] and [is_triggerable] ask whether it is [Ok]. *)
Definition check_startable (t : TokenConditionalSwap) (price : f64) (now_ts : Z) : outcome (result unit) :=
  if is_expired t now_ts then Done (Err (EMango TokenConditionalSwapExpired))
  else if negb (tcs_start_timestamp t =? 0) then Done (Err (EMango TokenConditionalSwapAlreadyStarted))
  else
    startable ← is_startable_type t;
    if negb startable then Done (Err (EMango TokenConditionalSwapTypeNotStartable))
    else if negb (price_in_range t price) then Done (Err (EMango TokenConditionalSwapPriceNotInRange))
    else Done (Ok tt).

Definition check_triggerable (t : TokenConditionalSwap) (price : f64) (now_ts : Z) : outcome (result unit) :=
  if is_expired t now_ts then Done (Err (EMango TokenConditionalSwapExpired))
  else
    ty ← tcs_type t;
    match ty with
    | FixedPremium =>
        Done (if price_in_range t price then Ok tt else Err (EMango TokenConditionalSwapPriceNotInRange))
    | PremiumAuction | LinearAuction =>
        Done (if passed_start t now_ts then Ok tt else Err (EMango TokenConditionalSwapNotStarted))
    end.

Section amounts.
Context `{FixedOps}.

Definition maker_fee (t : TokenConditionalSwap) (base_sell_amount : Z) : outcome Z :=
  r ← fx_from_f32 (tcs_maker_fee_rate t);
  f ← fx_mul base_sell_amount r;
  f ← fx_floor f;
  fx_to_u64 f.

Definition taker_fee (t : TokenConditionalSwap) (base_sell_amount : Z) : outcome Z :=
  r ← fx_from_f32 (tcs_taker_fee_rate t);
  f ← fx_mul base_sell_amount r;
  f ← fx_floor f;
  fx_to_u64 f.

Definition max_buy_for_position (t : TokenConditionalSwap) (buy_position : Z) (buy_bank : Bank) : outcome Z :=
  r ← remaining_buy t;
  m ← (if allow_creating_deposits t && negb (BankCfg.are_deposits_reduce_only buy_bank) then Done U64_MAX
       else
         n ← fx_neg buy_position;
         c ← fx_ceil n;
         ClampToInt.clamp_to_u64 c);
  Done (Z.min r m).

Definition max_sell_for_position (t : TokenConditionalSwap) (sell_position : Z) (sell_bank : Bank) : outcome Z :=
  r ← remaining_sell t;
  m ← (if allow_creating_borrows t && negb (BankCfg.are_borrows_reduce_only sell_bank) then Done U64_MAX
       else
         f ← fx_floor sell_position;
         ClampToInt.clamp_to_u64 f);
  Done (Z.min r m).

End amounts.

End Tcs.
