(* ===== verification/PerpMarket.v ===== *)
(** * Perp markets

    state/perp_market.rs: the configuration and the running totals of a perp market, and
    its operations: order ids, prices, funding, loss socialisation and settle fees. Fields
    that hold [I80F48] values are their bits. The name, the PDA bump and the padding play
    no role in these operations and are left out. *)

From stdpp Require Import base numbers gmap functions list.
From Stdlib Require Import ZArith Lia SpecFloat.
From S2P Require Import Prelude OrderTypes Nodes OrderTree BookSide BookSideIterate FixedPoint Oracle StablePrice Orders.

Open Scope Z_scope.

Record PerpMarket := mkPerpMarket {
  pm_group : Pubkey;
  pm_settle_token_index : Z;
  pm_perp_market_index : Z;
  pm_group_insurance_fund : Z;
  pm_base_decimals : Z;
  pm_bids : Pubkey;
  pm_asks : Pubkey;
  pm_event_queue : Pubkey;
  pm_oracle : Pubkey;
  pm_oracle_config : OracleConfig;
  pm_stable_price_model : StablePriceModel;
  pm_quote_lot_size : Z;
  pm_base_lot_size : Z;
  pm_maint_base_asset_weight : Z;
  pm_init_base_asset_weight : Z;
  pm_maint_base_liab_weight : Z;
  pm_init_base_liab_weight : Z;
  pm_open_interest : Z;
  pm_seq_num : Z;
  pm_registration_time : Z;
  pm_min_funding : Z;
  pm_max_funding : Z;
  pm_impact_quantity : Z;
  pm_long_funding : Z;
  pm_short_funding : Z;
  pm_funding_last_updated : Z;
  pm_base_liquidation_fee : Z;
  pm_maker_fee : Z;
  pm_taker_fee : Z;
  pm_fees_accrued : Z;
  pm_fees_settled : Z;
  pm_fee_penalty : f32;
  pm_settle_fee_flat : f32;
  pm_settle_fee_amount_threshold : f32;
  pm_settle_fee_fraction_low_health : f32;
  pm_settle_pnl_limit_factor : f32;
  pm_settle_pnl_limit_window_size_ts : Z;
  pm_reduce_only : Z;
  pm_force_close : Z;
  pm_maint_overall_asset_weight : Z;
  pm_init_overall_asset_weight : Z;
  pm_positive_pnl_liquidation_fee : Z;
  pm_fees_withdrawn : Z;
  pm_platform_liquidation_fee : Z;
  pm_accrued_liquidation_fees : Z
}.

#[export] Instance eta_PerpMarket : Eta PerpMarket := fun m =>
  mkPerpMarket
    (pm_group m) (pm_settle_token_index m) (pm_perp_market_index m)
    (pm_group_insurance_fund m) (pm_base_decimals m) (pm_bids m) (pm_asks m)
    (pm_event_queue m) (pm_oracle m) (pm_oracle_config m) (pm_stable_price_model m)
    (pm_quote_lot_size m)
    (pm_base_lot_size m) (pm_maint_base_asset_weight m) (pm_init_base_asset_weight m)
    (pm_maint_base_liab_weight m) (pm_init_base_liab_weight m) (pm_open_interest m)
    (pm_seq_num m) (pm_registration_time m) (pm_min_funding m) (pm_max_funding m)
    (pm_impact_quantity m) (pm_long_funding m) (pm_short_funding m)
    (pm_funding_last_updated m) (pm_base_liquidation_fee m) (pm_maker_fee m)
    (pm_taker_fee m) (pm_fees_accrued m) (pm_fees_settled m) (pm_fee_penalty m)
    (pm_settle_fee_flat m) (pm_settle_fee_amount_threshold m)
    (pm_settle_fee_fraction_low_health m) (pm_settle_pnl_limit_factor m)
    (pm_settle_pnl_limit_window_size_ts m) (pm_reduce_only m) (pm_force_close m)
    (pm_maint_overall_asset_weight m) (pm_init_overall_asset_weight m)
    (pm_positive_pnl_liquidation_fee m) (pm_fees_withdrawn m)
    (pm_platform_liquidation_fee m) (pm_accrued_liquidation_fees m).

Definition set_pm_group_insurance_fund (m : PerpMarket) (v : Z) : PerpMarket := m <| pm_group_insurance_fund := v |>.
Definition set_pm_stable_price_model (m : PerpMarket) (v : StablePriceModel) : PerpMarket := m <| pm_stable_price_model := v |>.
Definition set_pm_open_interest (m : PerpMarket) (v : Z) : PerpMarket := m <| pm_open_interest := v |>.
Definition set_pm_seq_num (m : PerpMarket) (v : Z) : PerpMarket := m <| pm_seq_num := v |>.
Definition set_pm_long_funding (m : PerpMarket) (v : Z) : PerpMarket := m <| pm_long_funding := v |>.
Definition set_pm_short_funding (m : PerpMarket) (v : Z) : PerpMarket := m <| pm_short_funding := v |>.
Definition set_pm_funding_last_updated (m : PerpMarket) (v : Z) : PerpMarket := m <| pm_funding_last_updated := v |>.
Definition set_pm_fees_accrued (m : PerpMarket) (v : Z) : PerpMarket := m <| pm_fees_accrued := v |>.

Definition is_reduce_only (m : PerpMarket) : bool := pm_reduce_only m =? 1.

Definition is_force_close (m : PerpMarket) : bool := pm_force_close m =? 1.

Definition elligible_for_group_insurance_fund (m : PerpMarket) : bool := pm_group_insurance_fund m =? 1.

Definition set_elligible_for_group_insurance_fund (m : PerpMarket) (v : bool) : PerpMarket :=
  set_pm_group_insurance_fund m (if v then 1 else 0).

Definition gen_order_id (m : PerpMarket) (side : Side) (price_data : Z) : outcome (PerpMarket * Z) :=
  seq_num ← u64 (pm_seq_num m + 1);
  let m := set_pm_seq_num m seq_num in
  Done (m, new_node_key side price_data (pm_seq_num m)).

(** [DAY_I80F48]: the seconds of a day. *)
Definition DAY_I80F48 : Z := fx_int 86400.

Section operations.
Context `{FixedOps}.

Definition settle_pnl_limit_factor (m : PerpMarket) : outcome Z :=
  fx_from_f32 (pm_settle_pnl_limit_factor m).

Definition oracle_state (m : PerpMarket) (oracle_acc_infos : OracleAccountInfos)
    (staleness_slot : option Z) : outcome OracleState :=
  _ ← require (pm_oracle m =? fst (oai_oracle oracle_acc_infos)) ERequireKeysEq;
  state ← oracle_state_unchecked oracle_acc_infos (pm_base_decimals m);
  ok ← check_confidence_and_maybe_staleness state (pm_oracle_config m) staleness_slot;
  match ok with
  | Ok _ => Done state
  | Err e => Fail e
  end.

(** [PerpMarket::oracle_price]. *)
Definition perp_oracle_price (m : PerpMarket) (oracle_acc_infos : OracleAccountInfos)
    (staleness_slot : option Z) : outcome Z :=
  state ← oracle_state m oracle_acc_infos staleness_slot;
  Done (os_price state).

Definition stable_price (m : PerpMarket) : outcome Z :=
  fx_from_f64 (sp_stable_price (pm_stable_price_model m)).

Definition lot_to_native_price (m : PerpMarket) (price : Z) : outcome Z :=
  p ← fx_from_int price;
  q ← fx_from_int (pm_quote_lot_size m);
  b ← fx_from_int (pm_base_lot_size m);
  pq ← fx_mul p q;
  fx_div pq b.

Definition native_price_to_lot (m : PerpMarket) (price : Z) : outcome Z :=
  b ← fx_from_int (pm_base_lot_size m);
  q ← fx_from_int (pm_quote_lot_size m);
  pb ← fx_mul price b;
  r ← fx_div pb q;
  fx_to_i64 r.

Definition inside_price_limit (m : PerpMarket) (side : Side) (native_price oracle_price : Z) :
    outcome bool :=
  match side with
  | Bid => l ← fx_mul (pm_maint_base_liab_weight m) oracle_price; Done (native_price <=? l)
  | Ask => l ← fx_mul (pm_maint_base_asset_weight m) oracle_price; Done (l <=? native_price)
  end.

(** [Ord::clamp], which panics unless [lo <= hi]. *)
Definition fx_clamp (x lo hi : Z) : outcome Z :=
  _ ← assert_ (lo <=? hi);
  Done (if x <? lo then lo else if hi <? x then hi else x).

(** The instantaneous funding rate for the impact prices of the two sides. *)
Definition funding_rate (m : PerpMarket) (oracle_price : Z) (bid ask : option Z) : outcome Z :=
  match bid, ask with
  | Some bid, Some ask =>
      s ← i64 (bid + ask);
      let mid_price := Z.quot s 2 in
      book_price ← lot_to_native_price m mid_price;
      r ← fx_div book_price oracle_price;
      diff ← fx_sub r fx_one;
      fx_clamp diff (pm_min_funding m) (pm_max_funding m)
  | Some _, None => Done (pm_max_funding m)
  | None, Some _ => Done (pm_min_funding m)
  | None, None => Done 0
  end.

Definition MAX_FUNDING_TIMESTEP : Z := 3600.

(** The number of native quote that one base lot pays in funding since the last update:
    the oracle price, book, rate and time step of [update_funding_and_stable_price]. *)
Definition funding_delta (m : PerpMarket) (book : Orderbook) (oracle_price now_ts : Z) : outcome Z :=
  oracle_price_lots ← native_price_to_lot m oracle_price;
  bid ← impact_price (bookside book Bid) (pm_impact_quantity m) now_ts oracle_price_lots;
  ask ← impact_price (bookside book Ask) (pm_impact_quantity m) now_ts oracle_price_lots;
  rate ← funding_rate m oracle_price bid ask;
  dt ← u64 (now_ts - pm_funding_last_updated m);
  diff_ts ← fx_from_int (Z.min dt MAX_FUNDING_TIMESTEP);
  time_factor ← fx_div diff_ts DAY_I80F48;
  base_lot_size ← fx_from_int (pm_base_lot_size m);
  d ← fx_mul oracle_price base_lot_size;
  d ← fx_mul d rate;
  fx_mul d time_factor.

Definition update_funding_and_stable_price (m : PerpMarket) (book : Orderbook)
    (oracle_state : OracleState) (now_ts : Z) : outcome PerpMarket :=
  if now_ts <=? pm_funding_last_updated m then Done m
  else
    let oracle_price := os_price oracle_state in
    funding_delta ← funding_delta m book oracle_price now_ts;
    lf ← fx_add (pm_long_funding m) funding_delta;
    let m := set_pm_long_funding m lf in
    sf ← fx_add (pm_short_funding m) funding_delta;
    let m := set_pm_short_funding m sf in
    let m := set_pm_funding_last_updated m now_ts in
    sp ← stable_price_update (pm_stable_price_model m) now_ts (fx_to_f64 oracle_price);
    Done (set_pm_stable_price_model m sp).

Definition socialize_loss (m : PerpMarket) (loss : Z) : outcome (PerpMarket * Z) :=
  _ ← require (loss <=? 0) ERequireGte;
  socialized_loss ←
    (if pm_open_interest m =? 0 then Done 0
     else oi ← fx_from_int (pm_open_interest m); fx_div loss oi);
  lf ← fx_sub (pm_long_funding m) socialized_loss;
  let m := set_pm_long_funding m lf in
  sf ← fx_add (pm_short_funding m) socialized_loss;
  let m := set_pm_short_funding m sf in
  Done (m, socialized_loss).

Definition low_health_fee (m : PerpMarket) (settlement source_liq_end_health source_maint_health : Z) :
    outcome Z :=
  if source_liq_end_health <? 0 then
    fee_fraction ← fx_from_f32 (pm_settle_fee_fraction_low_health m);
    if source_maint_health <? 0 then fx_mul settlement fee_fraction
    else
      sf ← fx_mul settlement fee_fraction;
      n ← fx_neg source_liq_end_health;
      d ← fx_sub source_maint_health source_liq_end_health;
      q ← fx_div n d;
      fx_mul sf q
  else Done 0.

Definition compute_settle_fee (m : PerpMarket) (settlement source_pnl_value source_position_value
    source_liq_end_health source_maint_health : Z) : outcome Z :=
  h ← fx_from_int 100;
  p ← fx_mul h source_pnl_value;
  let pnl_at_least_one_percent := source_position_value <? p in
  if negb pnl_at_least_one_percent then Done 0
  else
    _ ← assert_ (source_liq_end_health <=? source_maint_health);
    lhf ← low_health_fee m settlement source_liq_end_health source_maint_health;
    flat_fee ← fx_from_f32 (pm_settle_fee_flat m);
    fee ←
      (if fx_ge_f32 settlement (pm_settle_fee_amount_threshold m) then Done flat_fee
       else
         two ← fx_from_int 2;
         t ← fx_mul flat_fee two;
         Done (Z.min lhf t));
    let fee := Z.min fee settlement in
    _ ← require (0 <=? fee) (EMango SettlementAmountMustBePositive);
    Done fee.

End operations.

(** ** Properties *)

Section properties.
Context `{FixedLaws}.

Lemma fx_clamp_between x lo hi y : fx_clamp x lo hi = Done y -> lo <= y <= hi.
Proof.
  unfold fx_clamp. intros E. inv_run. apply Z.leb_le in Heqb.
  destruct (Z.ltb_spec x lo); [lia|]. destruct (Z.ltb_spec hi x); lia.
Qed.

(** The funding rate stays within the market's bounds. *)
Lemma funding_rate_between m oracle_price bid ask r :
  pm_min_funding m <= 0 <= pm_max_funding m ->
  funding_rate m oracle_price bid ask = Done r ->
  pm_min_funding m <= r <= pm_max_funding m.
Proof.
  intros Hm E. unfold funding_rate in E. destruct bid as [b|], ask as [k|]; inv_run; try lia.
  by eapply fx_clamp_between.
Qed.

(** A funding update charges longs and shorts the same amount per base lot: both
    cumulative funding values move by the same delta, the update time is recorded, no
    other total changes, and an update that is not later than the last one changes
    nothing. *)
Theorem funding_update_symmetric m book os now_ts delta sp :
  pm_funding_last_updated m < now_ts ->
  funding_delta m book (os_price os) now_ts = Done delta ->
  is_i128 (pm_long_funding m + delta) -> is_i128 (pm_short_funding m + delta) ->
  stable_price_update (pm_stable_price_model m) now_ts (fx_to_f64 (os_price os)) = Done sp ->
  exists m', update_funding_and_stable_price m book os now_ts = Done m' /\
    pm_long_funding m' = pm_long_funding m + delta /\
    pm_short_funding m' = pm_short_funding m + delta /\
    pm_funding_last_updated m' = now_ts /\ pm_stable_price_model m' = sp /\
    pm_open_interest m' = pm_open_interest m /\ pm_fees_accrued m' = pm_fees_accrued m /\
    pm_seq_num m' = pm_seq_num m /\
    (forall os', update_funding_and_stable_price m' book os' now_ts = Done m').
Proof.
  intros Hts Hd Hl Hs Hsp. unfold update_funding_and_stable_price at 1.
  rewrite (proj2 (Z.leb_gt _ _)) by lia. rewrite Hd. run.
  rewrite fx_add_law by done. run. rewrite fx_add_law by done. run.
  change (pm_stable_price_model (set_pm_funding_last_updated _ _)) with (pm_stable_price_model m).
  rewrite Hsp. run. eexists. split; [done|]. split_and!; try done.
  intros os'. unfold update_funding_and_stable_price. by rewrite (proj2 (Z.leb_le _ _)) by (simpl; lia).
Qed.

(** Order ids are unique: a later order never gets an id that was given out before. *)
Lemma gen_order_id_key m side pd m' id :
  is_u64 (pm_seq_num m) -> gen_order_id m side pd = Done (m', id) ->
  pm_seq_num m' = pm_seq_num m + 1 /\ is_u64 (pm_seq_num m') /\
  id = new_node_key side pd (pm_seq_num m').
Proof. intros Hu E. unfold gen_order_id in E. inv_run. done. Qed.

(** Order ids are unique and grow worse with time: of two orders of a market for
    the same side, placed one after the other (with any number of orders in between), the
    ids differ, and at equal price data the earlier order comes first. *)
Theorem gen_order_id_unique m1 m2 side pd1 pd2 m1' m2' id1 id2 :
  is_u64 (pm_seq_num m1) -> is_u64 pd1 -> is_u64 pd2 ->
  gen_order_id m1 side pd1 = Done (m1', id1) -> pm_seq_num m1' <= pm_seq_num m2 ->
  gen_order_id m2 side pd2 = Done (m2', id2) ->
  id1 <> id2 /\ (pd1 = pd2 -> key_before side id1 id2).
Proof.
  intros Hu Hp1 Hp2 E1 Hle E2. destruct (gen_order_id_key _ _ _ _ _ Hu E1) as (Hs1 & Hu1 & ->).
  assert (Hu2 : is_u64 (pm_seq_num m2)) by (unfold gen_order_id in E2; inv_run; mlia).
  destruct (gen_order_id_key _ _ _ _ _ Hu2 E2) as (Hs2 & Hu2' & ->).
  rewrite !new_node_key_val by done. unfold key_before, not_u64. unfold_widths.
  destruct side; split; try lia; intros ->; lia.
Qed.

(** Socialising a loss charges every open base lot the same amount, and the charges
    over the open interest cover the loss up to less than one unit in the last place per
    lot; without open interest, nothing is charged. *)
Theorem socialize_loss_covers m loss :
  I128_MIN < loss <= 0 -> 0 <= pm_open_interest m <= I64_MAX ->
  (forall s, Z.abs s <= Z.abs loss ->
     is_i128 (pm_long_funding m - s) /\ is_i128 (pm_short_funding m + s)) ->
  exists m' s, socialize_loss m loss = Done (m', s) /\
    pm_long_funding m' = pm_long_funding m - s /\
    pm_short_funding m' = pm_short_funding m + s /\ s <= 0 /\
    if pm_open_interest m =? 0 then s = 0
    else 0 <= - loss - pm_open_interest m * - s < pm_open_interest m.
Proof.
  intros Hl Ho Hr. unfold socialize_loss, require. rewrite (proj2 (Z.leb_le loss 0)) by lia. run.
  set (oi := pm_open_interest m) in *.
  assert (Hs : exists s, (if oi =? 0 then Done 0 else oi ← fx_from_int oi; fx_div loss oi) = Done s /\
    Z.abs s <= Z.abs loss /\ s <= 0 /\ if oi =? 0 then s = 0 else 0 <= - loss - oi * - s < oi).
  { destruct (Z.eqb_spec oi 0) as [E|E]; [exists 0; split_and!; (done || lia)|].
    assert (Hq : Z.quot (loss * fx_scale) (fx_int oi) = - (- loss / oi)).
    { unfold fx_int. rewrite Z.quot_mul_cancel_r by (done || lia).
      rewrite <- (Z.opp_involutive loss) at 1. rewrite Z.quot_opp_l by lia.
      rewrite Z.quot_div_nonneg by lia. done. }
    assert (Hd : - loss / oi * oi <= - loss < (- loss / oi + 1) * oi).
    { pose proof (Z.div_mod (- loss) oi). pose proof (Z.mod_pos_bound (- loss) oi). lia. }
    assert (0 <= - loss / oi) by (apply Z.div_pos; lia).
    rewrite fx_from_int_law by (unfold is_i128, fx_int, fx_scale, I128_MIN, I128_MAX in *; unfold_widths; lia).
    run. rewrite fx_div_law, Hq.
    - eexists. split; [done|]. split_and!; nia.
    - unfold fx_int, fx_scale. lia.
    - rewrite Hq. unfold is_i128, I128_MIN, I128_MAX in *. nia. }
  destruct Hs as (s & -> & Habs & Hneg & Hfin). run. destruct (Hr s Habs) as [R1 R2].
  rewrite fx_sub_law by done. run. simpl. rewrite fx_add_law by done. run.
  eexists _, s. split; [done|]. simpl. split_and!; try done; lia.
Qed.

(** The settle fee is never negative and never exceeds a settlement that is not
    negative; a fee that would be negative is an error. *)
Theorem settle_fee_within_settlement m settlement pnl pos liq_end maint fee :
  0 <= settlement ->
  compute_settle_fee m settlement pnl pos liq_end maint = Done fee ->
  0 <= fee <= settlement.
Proof.
  intros Hs E. unfold compute_settle_fee in E. inv_run. destruct (negb _); inv_run; [lia|].
  apply Z.leb_le in Heqb. lia.
Qed.

(** Converting a price in lots to a native price and back loses at most one lot,
    and never gains: both conversions round down. *)
Theorem lot_price_roundtrip m p :
  0 <= p <= I64_MAX -> 1 <= pm_quote_lot_size m <= 10 ^ 9 -> 1 <= pm_base_lot_size m <= 10 ^ 9 ->
  p * pm_quote_lot_size m <= 10 ^ 15 ->
  exists r, (n ← lot_to_native_price m p; native_price_to_lot m n) = Done r /\ p - 1 <= r <= p.
Proof.
  intros Hp Hq Hb Hpq. unfold lot_to_native_price, native_price_to_lot.
  set (q := pm_quote_lot_size m) in *. set (b := pm_base_lot_size m) in *.
  assert (Hint : forall n, 0 <= n <= I64_MAX -> fx_from_int n = Done (fx_int n)).
  { intros n Hn. apply fx_from_int_law. unfold is_i128, fx_int, fx_scale, I128_MIN, I128_MAX. unfold_widths. lia. }
  rewrite (Hint p), (Hint q), (Hint b) by (unfold_widths; lia). run.
  assert (Hs : 0 < fx_scale) by done.
  assert (E1 : fx_int p * fx_int q / fx_scale = fx_int (p * q)).
  { unfold fx_int. replace (p * fx_scale * (q * fx_scale)) with (p * q * fx_scale * fx_scale) by ring.
    by rewrite Z.div_mul by lia. }
  rewrite fx_mul_law, E1 by (rewrite E1; unfold is_i128, fx_int, fx_scale, I128_MIN, I128_MAX; nia). run.
  set (x := p * q * fx_scale / b).
  assert (Hx : x * b <= p * q * fx_scale < (x + 1) * b).
  { pose proof (Z.div_mod (p * q * fx_scale) b). pose proof (Z.mod_pos_bound (p * q * fx_scale) b). subst x. lia. }
  assert (0 <= x) by (apply Z.div_pos; nia).
  assert (E2 : Z.quot (fx_int (p * q) * fx_scale) (fx_int b) = x).
  { unfold fx_int. rewrite Z.quot_mul_cancel_r by lia. rewrite Z.quot_div_nonneg by nia. done. }
  rewrite fx_div_law, E2; [|unfold fx_int; nia|rewrite E2; unfold is_i128, fx_scale, I128_MIN, I128_MAX in *; nia].
  run. assert (E3 : x * fx_int b / fx_scale = x * b).
  { unfold fx_int. rewrite Z.mul_assoc. by rewrite Z.div_mul by lia. }
  rewrite fx_mul_law, E3 by (rewrite E3; unfold is_i128, fx_scale, I128_MIN, I128_MAX in *; nia). run.
  set (y := x * b / q).
  assert (Hy : y * q <= x * b < (y + 1) * q).
  { pose proof (Z.div_mod (x * b) q). pose proof (Z.mod_pos_bound (x * b) q). subst y. lia. }
  assert (E4 : Z.quot (x * b * fx_scale) (fx_int q) = y).
  { unfold fx_int. rewrite Z.quot_mul_cancel_r by lia. rewrite Z.quot_div_nonneg by nia. done. }
  rewrite fx_div_law, E4; [|unfold fx_int; nia|rewrite E4; unfold is_i128, fx_scale, I128_MIN, I128_MAX in *; nia].
  run. assert (Hy1 : y <= p * fx_scale) by nia.
  assert (Hy2 : (p - 1) * fx_scale <= y) by (unfold fx_scale in *; nia).
  assert (p - 1 <= y / fx_scale) by (apply Z.div_le_lower_bound; lia).
  assert (y / fx_scale <= p) by (apply Z.div_le_upper_bound; lia).
  rewrite fx_to_i64_law by (unfold_widths; lia). eexists. split; [done|lia].
Qed.

End properties.

(** ** A concrete market *)

(** [PerpMarket::default_for_tests]; the addresses are arbitrary there. *)
Definition default_for_tests : PerpMarket :=
  mkPerpMarket 0 0 0 0 0 2 3 4 1 (mkOracleConfig 0 (-1)) stable_price_default 1 1 fx_one fx_one fx_one fx_one 0 0 0 0 0 0 0 0 0 0 0 0 0 0
    f_zero f_zero f_zero f_zero (f32_ratio 2 10) (24 * 60 * 60) 0 0 fx_one fx_one 0 0 0 0.

(** A market with open interest, funding bounds of 5% a day and a stable price. *)
Definition test_market : PerpMarket :=
  mkPerpMarket 0 0 0 0 0 2 3 4 1 (mkOracleConfig 0 (-1)) model_at_100 1 1 fx_one fx_one fx_one fx_one 6 10 0
    (- fx_one / 20) (fx_one / 20) 1 0 0 1000 0 (- fx_one / 5000) (fx_one / 2000) 0 0
    f_zero (f32_ratio 10 1) (f32_ratio 1000 1) (f32_ratio 1 100) (f32_ratio 2 10) (24 * 60 * 60) 0 0
    fx_one fx_one 0 0 0 0.

Definition empty_book : Orderbook := mkOrderbook (bookside_zeroed Bids) (bookside_zeroed Asks).

(** Only bids in the book: longs pay the maximal rate. *)
Definition bids_book : Orderbook :=
  mkOrderbook
    (default (bookside_zeroed Bids)
       (BookSideSpec.insert_all (bookside_zeroed Bids) [(Fixed, BookSideSpec.sample_leaf)]))
    (bookside_zeroed Asks).

(** A concrete instance: an hour of funding at an oracle price of 100. *)
Lemma funding_update_symmetric_witness :
  exists m', @update_funding_and_stable_price fixed_ref test_market bids_book
      (mkOracleState (fx_int 100) 0 0 Stub) 1030 = Done m' /\
    pm_long_funding m' = pm_short_funding m' /\ 0 < pm_long_funding m'.
Proof.
  pose (os := mkOracleState (fx_int 100) 0 0 Stub).
  destruct (@funding_delta fixed_ref test_market bids_book (os_price os) 1030) as [delta| | |] eqn:Ed;
    [|vm_compute in Ed; discriminate Ed..].
  destruct (stable_price_update (pm_stable_price_model test_market) 1030
    (@fx_to_f64 fixed_ref (os_price os))) as [sp| | |] eqn:Es; [|vm_compute in Es; discriminate Es..].
  assert (Hpos : 0 < delta /\ is_i128 delta).
  { vm_compute in Ed. injection Ed as <-. split; vm_compute; [reflexivity|split; congruence]. }
  destruct Hpos as [Hpos Hrange].
  destruct (@funding_update_symmetric fixed_ref fixed_ref_laws test_market bids_book os 1030 delta sp)
    as (m' & E & H1 & H2 & _).
  - vm_compute. reflexivity.
  - exact Ed.
  - exact Hrange.
  - exact Hrange.
  - exact Es.
  - exists m'. split; [exact E|]. rewrite H1, H2. split; [reflexivity|exact Hpos].
Defined.

(** A concrete instance: two bids at the same price data. *)
Lemma gen_order_id_unique_witness :
  exists m1 m2 id1 id2, gen_order_id test_market Bid 5 = Done (m1, id1) /\
    gen_order_id m1 Bid 5 = Done (m2, id2) /\ id1 <> id2 /\ key_before Bid id1 id2.
Proof.
  destruct (gen_order_id test_market Bid 5) as [[m1 id1]| | |] eqn:E1; [|vm_compute in E1; discriminate E1..].
  destruct (gen_order_id m1 Bid 5) as [[m2 id2]| | |] eqn:E2;
    [|vm_compute in E1; injection E1 as <- <-; vm_compute in E2; discriminate E2..].
  exists m1, m2, id1, id2. split; [reflexivity|]. split; [exact E2|].
  destruct (gen_order_id_unique test_market m1 Bid 5 5 m1 m2 id1 id2) as [H1 H2];
    [split; vm_compute; congruence..|exact E1|apply Z.le_refl|exact E2|].
  split; [exact H1|exact (H2 eq_refl)].
Defined.

(** A concrete instance: a loss of 20 native units over an open interest of 6 lots. *)
Lemma socialize_loss_covers_witness :
  exists m' s, @socialize_loss fixed_ref test_market (fx_int (-20)) = Done (m', s) /\
    0 <= fx_int 20 - 6 * - s < 6.
Proof.
  destruct (@socialize_loss_covers fixed_ref fixed_ref_laws test_market (fx_int (-20)))
    as (m' & s & E & _ & _ & _ & H).
  - split; vm_compute; congruence.
  - split; vm_compute; congruence.
  - intros s Hs. unfold is_i128, fx_int, fx_scale, I128_MIN, I128_MAX in *. simpl in *. lia.
  - exists m', s. split; [exact E|exact H].
Defined.

(** A concrete instance: a settlement of 50 from an account with negative health. *)
Lemma settle_fee_within_settlement_witness :
  exists fee, @compute_settle_fee fixed_ref test_market (fx_int 50) (fx_int 50) (fx_int 100)
      (fx_int (-10)) (fx_int (-5)) = Done fee /\ 0 <= fee <= fx_int 50.
Proof.
  destruct (@compute_settle_fee fixed_ref test_market (fx_int 50) (fx_int 50) (fx_int 100)
    (fx_int (-10)) (fx_int (-5))) as [fee| | |] eqn:E; [|vm_compute in E; discriminate E..].
  exists fee. split; [reflexivity|].
  apply (@settle_fee_within_settlement fixed_ref test_market (fx_int 50) (fx_int 50) (fx_int 100)
    (fx_int (-10)) (fx_int (-5)) fee).
  - vm_compute. congruence.
  - exact E.
Defined.

(** A concrete instance: a price of 7 lots. *)
Lemma lot_price_roundtrip_witness :
  exists r, (n ← @lot_to_native_price fixed_ref test_market 7; @native_price_to_lot fixed_ref test_market n)
    = Done r /\ 6 <= r <= 7.
Proof.
  apply (@lot_price_roundtrip fixed_ref fixed_ref_laws test_market 7);
    (split; vm_compute; congruence) || (vm_compute; congruence).
Defined.
