(* ===== verification/PerpPosition.v ===== *)
(** * Perp positions

    [PerpPosition] of state/mango_account_components.rs: the base and quote position of
    an account in a perp market, its pending orders and fills, and the bookkeeping of
    funding, fees, realised pnl and settle limits.
    [pp_settled_in_current_window] is the field
    [settle_pnl_limit_settled_in_current_window_native]. *)

From stdpp Require Import base numbers gmap functions list.
From Stdlib Require Import ZArith Lia SpecFloat.
From S2P Require Import Prelude OrderTypes Nodes FixedPoint StablePrice PerpMarket.

Open Scope Z_scope.

Record PerpPosition := mkPerpPosition {
  pp_market_index : Z;
  pp_settle_pnl_limit_window : Z;
  pp_settled_in_current_window : Z;
  pp_base_position_lots : Z;
  pp_quote_position_native : Z;
  pp_quote_running_native : Z;
  pp_long_settled_funding : Z;
  pp_short_settled_funding : Z;
  pp_bids_base_lots : Z;
  pp_asks_base_lots : Z;
  pp_taker_base_lots : Z;
  pp_taker_quote_lots : Z;
  pp_cumulative_long_funding : f64;
  pp_cumulative_short_funding : f64;
  pp_maker_volume : Z;
  pp_taker_volume : Z;
  pp_perp_spot_transfers : Z;
  pp_avg_entry_price_per_base_lot : f64;
  pp_deprecated_realized_trade_pnl_native : Z;
  pp_oneshot_settle_pnl_allowance : Z;
  pp_recurring_settle_pnl_allowance : Z;
  pp_realized_pnl_for_position_native : Z
}.

#[export] Instance eta_PerpPosition : Eta PerpPosition := fun p =>
  mkPerpPosition
    (pp_market_index p) (pp_settle_pnl_limit_window p) (pp_settled_in_current_window p)
    (pp_base_position_lots p) (pp_quote_position_native p) (pp_quote_running_native p)
    (pp_long_settled_funding p) (pp_short_settled_funding p) (pp_bids_base_lots p)
    (pp_asks_base_lots p) (pp_taker_base_lots p) (pp_taker_quote_lots p)
    (pp_cumulative_long_funding p) (pp_cumulative_short_funding p) (pp_maker_volume p)
    (pp_taker_volume p) (pp_perp_spot_transfers p) (pp_avg_entry_price_per_base_lot p)
    (pp_deprecated_realized_trade_pnl_native p) (pp_oneshot_settle_pnl_allowance p)
    (pp_recurring_settle_pnl_allowance p) (pp_realized_pnl_for_position_native p).

Definition set_pp_market_index (p : PerpPosition) (v : Z) : PerpPosition := p <| pp_market_index := v |>.
Definition set_pp_settle_pnl_limit_window (p : PerpPosition) (v : Z) : PerpPosition := p <| pp_settle_pnl_limit_window := v |>.
Definition set_pp_settled_in_current_window (p : PerpPosition) (v : Z) : PerpPosition := p <| pp_settled_in_current_window := v |>.
Definition set_pp_base_position_lots (p : PerpPosition) (v : Z) : PerpPosition := p <| pp_base_position_lots := v |>.
Definition set_pp_quote_position_native (p : PerpPosition) (v : Z) : PerpPosition := p <| pp_quote_position_native := v |>.
Definition set_pp_quote_running_native (p : PerpPosition) (v : Z) : PerpPosition := p <| pp_quote_running_native := v |>.
Definition set_pp_long_settled_funding (p : PerpPosition) (v : Z) : PerpPosition := p <| pp_long_settled_funding := v |>.
Definition set_pp_short_settled_funding (p : PerpPosition) (v : Z) : PerpPosition := p <| pp_short_settled_funding := v |>.
Definition set_pp_bids_base_lots (p : PerpPosition) (v : Z) : PerpPosition := p <| pp_bids_base_lots := v |>.
Definition set_pp_asks_base_lots (p : PerpPosition) (v : Z) : PerpPosition := p <| pp_asks_base_lots := v |>.
Definition set_pp_taker_base_lots (p : PerpPosition) (v : Z) : PerpPosition := p <| pp_taker_base_lots := v |>.
Definition set_pp_taker_quote_lots (p : PerpPosition) (v : Z) : PerpPosition := p <| pp_taker_quote_lots := v |>.
Definition set_pp_cumulative_long_funding (p : PerpPosition) (v : f64) : PerpPosition := p <| pp_cumulative_long_funding := v |>.
Definition set_pp_cumulative_short_funding (p : PerpPosition) (v : f64) : PerpPosition := p <| pp_cumulative_short_funding := v |>.
Definition set_pp_maker_volume (p : PerpPosition) (v : Z) : PerpPosition := p <| pp_maker_volume := v |>.
Definition set_pp_taker_volume (p : PerpPosition) (v : Z) : PerpPosition := p <| pp_taker_volume := v |>.
Definition set_pp_avg_entry_price_per_base_lot (p : PerpPosition) (v : f64) : PerpPosition := p <| pp_avg_entry_price_per_base_lot := v |>.
Definition set_pp_deprecated_realized_trade_pnl_native (p : PerpPosition) (v : Z) : PerpPosition := p <| pp_deprecated_realized_trade_pnl_native := v |>.
Definition set_pp_oneshot_settle_pnl_allowance (p : PerpPosition) (v : Z) : PerpPosition := p <| pp_oneshot_settle_pnl_allowance := v |>.
Definition set_pp_recurring_settle_pnl_allowance (p : PerpPosition) (v : Z) : PerpPosition := p <| pp_recurring_settle_pnl_allowance := v |>.
Definition set_pp_realized_pnl_for_position_native (p : PerpPosition) (v : Z) : PerpPosition := p <| pp_realized_pnl_for_position_native := v |>.

(** [PerpMarketIndex::MAX], the market index of an unused position. *)
Definition PERP_INDEX_MAX : Z := U16_MAX.

Definition perp_position_default : PerpPosition :=
  mkPerpPosition PERP_INDEX_MAX 0 0 0 0 0 0 0 0 0 0 0 f_zero f_zero 0 0 0 f_zero 0 0 0 0.

(** [i64::saturating_sub]. *)
Definition saturating_sub_i64 (a b : Z) : Z := Z.max I64_MIN (Z.min I64_MAX (a - b)).

Module Perp.

Definition add_taker_trade (p : PerpPosition) (side : Side) (base_lots quote_lots : Z) :
    outcome PerpPosition :=
  match side with
  | Bid =>
      b ← i64 (pp_taker_base_lots p + base_lots);
      let p := set_pp_taker_base_lots p b in
      q ← i64 (pp_taker_quote_lots p - quote_lots);
      Done (set_pp_taker_quote_lots p q)
  | Ask =>
      b ← i64 (pp_taker_base_lots p - base_lots);
      let p := set_pp_taker_base_lots p b in
      q ← i64 (pp_taker_quote_lots p + quote_lots);
      Done (set_pp_taker_quote_lots p q)
  end.

Definition remove_taker_trade (p : PerpPosition) (base_change quote_change : Z) : outcome PerpPosition :=
  b ← i64 (pp_taker_base_lots p - base_change);
  let p := set_pp_taker_base_lots p b in
  q ← i64 (pp_taker_quote_lots p - quote_change);
  Done (set_pp_taker_quote_lots p q).

Definition adjust_maker_lots (p : PerpPosition) (side : Side) (base_lots : Z) : outcome PerpPosition :=
  match side with
  | Bid => b ← i64 (pp_bids_base_lots p + base_lots); Done (set_pp_bids_base_lots p b)
  | Ask => b ← i64 (pp_asks_base_lots p + base_lots); Done (set_pp_asks_base_lots p b)
  end.

Definition is_active (p : PerpPosition) : bool := negb (pp_market_index p =? PERP_INDEX_MAX).

Definition is_active_for_market (p : PerpPosition) (market_index : Z) : bool :=
  pp_market_index p =? market_index.

Definition effective_base_position_lots (p : PerpPosition) : outcome Z :=
  i64 (pp_base_position_lots p + pp_taker_base_lots p).

(** This assumes [settle_funding] was already called. *)
Definition change_base_position (p : PerpPosition) (m : PerpMarket) (base_change : Z) :
    outcome (PerpPosition * PerpMarket) :=
  let start := pp_base_position_lots p in
  b ← i64 (pp_base_position_lots p + base_change);
  let p := set_pp_base_position_lots p b in
  x ← i64 (Z.abs (pp_base_position_lots p));
  y ← i64 (Z.abs start);
  d ← i64 (x - y);
  oi ← i64 (pm_open_interest m + d);
  Done (p, set_pm_open_interest m oi).

Definition has_open_orders (p : PerpPosition) : bool :=
  negb (pp_asks_base_lots p =? 0) || negb (pp_bids_base_lots p =? 0).

Definition has_open_taker_fills (p : PerpPosition) : bool :=
  negb (pp_taker_base_lots p =? 0) || negb (pp_taker_quote_lots p =? 0).

Definition has_open_orders_or_fills (p : PerpPosition) : bool :=
  has_open_orders p || has_open_taker_fills p.

Definition avg_entry_price (p : PerpPosition) (m : PerpMarket) : outcome f64 :=
  _ ← assert_ (pp_market_index p =? pm_perp_market_index m);
  Done (f64_div (pp_avg_entry_price_per_base_lot p) (f64_of_Z (pm_base_lot_size m))).

Definition break_even_price (p : PerpPosition) (m : PerpMarket) : outcome f64 :=
  if pp_base_position_lots p =? 0 then Done f_zero
  else
    _ ← assert_ (pp_market_index p =? pm_perp_market_index m);
    n ← i64 (pp_base_position_lots p * pm_base_lot_size m);
    Done (f64_div (SFopp (f64_of_Z (pp_quote_running_native p))) (f64_of_Z n)).

(** Updates the settle limit window, resetting the used budget when it changes. *)
Definition update_settle_limit (p : PerpPosition) (m : PerpMarket) (now_ts : Z) : outcome PerpPosition :=
  _ ← assert_ (pp_market_index p =? pm_perp_market_index m);
  let window_size := pm_settle_pnl_limit_window_size_ts m in
  window_start ← u64 (pp_settle_pnl_limit_window p * window_size);
  window_end ← u64 (window_start + window_size);
  let new_window := (window_end <=? now_ts) || (now_ts <? window_start) in
  if new_window then
    _ ← assert_ (negb (window_size =? 0));
    w ← u32 (now_ts / window_size);
    let p := set_pp_settle_pnl_limit_window p w in
    Done (set_pp_settled_in_current_window p 0)
  else Done p.

Section operations.
Context `{FixedOps}.

Definition base_position_native (p : PerpPosition) (m : PerpMarket) : outcome Z :=
  n ← i64 (pp_base_position_lots p * pm_base_lot_size m);
  fx_from_int n.

Definition unsettled_funding (p : PerpPosition) (m : PerpMarket) : outcome Z :=
  match Z.compare (pp_base_position_lots p) 0 with
  | Gt =>
      d ← fx_sub (pm_long_funding m) (pp_long_settled_funding p);
      n ← fx_from_int (pp_base_position_lots p);
      fx_mul d n
  | Lt =>
      d ← fx_sub (pm_short_funding m) (pp_short_settled_funding p);
      n ← fx_from_int (pp_base_position_lots p);
      fx_mul d n
  | Eq => Done 0
  end.

Definition settle_funding (p : PerpPosition) (m : PerpMarket) : outcome PerpPosition :=
  funding ← unsettled_funding p m;
  q ← fx_sub (pp_quote_position_native p) funding;
  let p := set_pp_quote_position_native p q in
  o ← fx_sub (pp_oneshot_settle_pnl_allowance p) funding;
  let p := set_pp_oneshot_settle_pnl_allowance p o in
  r ← fx_sub (pp_realized_pnl_for_position_native p) funding;
  let p := set_pp_realized_pnl_for_position_native p r in
  let p :=
    if 0 <? pp_base_position_lots p then
      set_pp_cumulative_long_funding p (f64_add (pp_cumulative_long_funding p) (fx_to_f64 funding))
    else
      set_pp_cumulative_short_funding p (f64_sub (pp_cumulative_short_funding p) (fx_to_f64 funding)) in
  let p := set_pp_long_settled_funding p (pm_long_funding m) in
  Done (set_pp_short_settled_funding p (pm_short_funding m)).

Definition change_quote_position (p : PerpPosition) (quote_change_native : Z) : outcome PerpPosition :=
  q ← fx_add (pp_quote_position_native p) quote_change_native;
  Done (set_pp_quote_position_native p q).

(** The pnl realised by changing the position by [base_change] lots for
    [quote_change_native], at the average entry price. *)
Definition realized_by (p : PerpPosition) (base_change quote_change_native : Z) : outcome Z :=
  avg_entry ← fx_from_f64 (pp_avg_entry_price_per_base_lot p);
  b ← fx_from_int base_change;
  v ← fx_mul b avg_entry;
  fx_add quote_change_native v.

(** The branches of [update_trade_stats]: the new position with the lots by which it was
    reduced and increased and the realised pnl. *)
Definition trade_stats_branch (p : PerpPosition) (base_change quote_change_native : Z) :
    outcome (PerpPosition * Z * Z * Z) :=
  let old_position := pp_base_position_lots p in
  new_position ← i64 (old_position + base_change);
  if new_position =? 0 then
    reduced_lots ← i64 (Z.abs old_position);
    newly_realized_pnl ← realized_by p base_change quote_change_native;
    let p := set_pp_avg_entry_price_per_base_lot p f_zero in
    let p := set_pp_quote_running_native p 0 in
    let p := set_pp_realized_pnl_for_position_native p 0 in
    Done (p, reduced_lots, 0, newly_realized_pnl)
  else if negb (Z.sgn old_position =? Z.sgn new_position) then
    reduced_lots ← i64 (Z.abs old_position);
    increased_lots ← i64 (Z.abs new_position);
    let old_avg_entry := pp_avg_entry_price_per_base_lot p in
    let new_avg_entry := SFabs (f64_div (fx_to_f64 quote_change_native) (f64_of_Z base_change)) in
    newly_realized_pnl ←
      fx_from_f64 (f64_mul (f64_of_Z old_position) (f64_sub new_avg_entry old_avg_entry));
    let p := set_pp_avg_entry_price_per_base_lot p new_avg_entry in
    let p := set_pp_quote_running_native p
               (f64_as_i64 (f64_mul (SFopp (f64_of_Z new_position)) new_avg_entry)) in
    let p := set_pp_realized_pnl_for_position_native p 0 in
    Done (p, reduced_lots, increased_lots, newly_realized_pnl)
  else
    r ← fx_round_to_zero quote_change_native;
    r ← fx_to_i64 r;
    qr ← i64 (pp_quote_running_native p + r);
    let p := set_pp_quote_running_native p qr in
    let is_increasing := Z.sgn old_position =? Z.sgn base_change in
    if is_increasing then
      increased_lots ← i64 (Z.abs base_change);
      old_abs ← i64 (Z.abs old_position);
      new_abs ← i64 (Z.abs new_position);
      let old_avg_entry := pp_avg_entry_price_per_base_lot p in
      let new_position_quote_value :=
        f64_add (f64_mul (f64_of_Z old_abs) old_avg_entry) (SFabs (fx_to_f64 quote_change_native)) in
      let p := set_pp_avg_entry_price_per_base_lot p
                 (f64_div new_position_quote_value (f64_of_Z new_abs)) in
      Done (p, 0, increased_lots, 0)
    else
      reduced_lots ← i64 (Z.abs base_change);
      newly_realized_pnl ← realized_by p base_change quote_change_native;
      rp ← fx_add (pp_realized_pnl_for_position_native p) newly_realized_pnl;
      let p := set_pp_realized_pnl_for_position_native p rp in
      Done (p, reduced_lots, 0, newly_realized_pnl).

Definition update_trade_stats (p : PerpPosition) (base_change quote_change_native : Z) (m : PerpMarket) :
    outcome (PerpPosition * Z) :=
  if base_change =? 0 then Done (p, 0)
  else
    '(p, reduced_lots, increased_lots, newly_realized_pnl) ←
      trade_stats_branch p base_change quote_change_native;
    net_base_increase ← i64 (increased_lots - reduced_lots);
    a ← i64 (Z.abs (pp_recurring_settle_pnl_allowance p));
    let p := set_pp_recurring_settle_pnl_allowance p a in
    n ← i64 (net_base_increase * pm_base_lot_size m);
    n ← fx_from_int n;
    sp ← stable_price m;
    v ← fx_mul n sp;
    f ← fx_from_f32 (pm_settle_pnl_limit_factor m);
    v ← fx_mul v f;
    c ← ClampToInt.clamp_to_i64 v;
    a ← i64 (pp_recurring_settle_pnl_allowance p - c);
    let p := set_pp_recurring_settle_pnl_allowance p (Z.max a 0) in
    Done (p, newly_realized_pnl).

Definition unsettled_pnl (p : PerpPosition) (m : PerpMarket) (price : Z) : outcome Z :=
  _ ← require (pp_market_index p =? pm_perp_market_index m) ERequireEq;
  base_native ← base_position_native p m;
  v ← fx_mul base_native price;
  fx_add (pp_quote_position_native p) v.

(** [r.unwrap()] of a [Result]. *)
Definition unwrap_result {A} (r : outcome A) : outcome A :=
  match r with Fail _ => Panic | r => r end.

Definition apply_recurring_settle_pnl_allowance_constraint (p : PerpPosition) (m : PerpMarket) :
    outcome (PerpPosition * Z) :=
  a ← i64 (Z.abs (pp_recurring_settle_pnl_allowance p));
  let p := set_pp_recurring_settle_pnl_allowance p a in
  let p := set_pp_deprecated_realized_trade_pnl_native p 0 in
  let before := pp_recurring_settle_pnl_allowance p in
  sp ← stable_price m;
  upnl ← unwrap_result (unsettled_pnl p m sp);
  u ← fx_abs upnl;
  u ← fx_ceil u;
  upnl_abs ← fx_to_i64 u;
  let p := set_pp_recurring_settle_pnl_allowance p
             (Z.max (Z.min (pp_recurring_settle_pnl_allowance p) upnl_abs) 0) in
  d ← i64 (pp_recurring_settle_pnl_allowance p - before);
  Done (p, d).

Definition record_trade (p : PerpPosition) (m : PerpMarket) (base_change quote_change_native : Z) :
    outcome (PerpPosition * PerpMarket * Z) :=
  _ ← assert_ (pm_perp_market_index m =? pp_market_index p);
  '(p, realized_pnl) ← update_trade_stats p base_change quote_change_native m;
  '(p, m) ← change_base_position p m base_change;
  p ← change_quote_position p quote_change_native;
  '(p, _) ← apply_recurring_settle_pnl_allowance_constraint p m;
  Done (p, m, realized_pnl).

Definition settle_limit (p : PerpPosition) (m : PerpMarket) : outcome (Z * Z) :=
  _ ← assert_ (pp_market_index p =? pm_perp_market_index m);
  if SFltb (pm_settle_pnl_limit_factor m) f_zero then Done (I64_MIN, I64_MAX)
  else
    base_native ← base_position_native p m;
    sp ← stable_price m;
    position_value ← fx_mul sp base_native;
    pva ← fx_abs position_value;
    let position_value_abs := fx_to_f64 pva in
    let unrealized :=
      ClampToInt.f64_clamp_to_i64 (f64_mul (f64_of_f32 (pm_settle_pnl_limit_factor m)) position_value_abs) in
    u ← fx_add (pp_quote_position_native p) position_value;
    u ← fx_abs u;
    u ← fx_ceil u;
    upnl_abs ← fx_to_i64 u;
    ra ← i64 (Z.abs (pp_recurring_settle_pnl_allowance p));
    max_pnl ← i64 (unrealized + Z.min ra upnl_abs);
    min_pnl ← i64 (- max_pnl);
    let oneshot := pp_oneshot_settle_pnl_allowance p in
    '(min_pnl, max_pnl) ←
      (if 0 <=? oneshot then
         c ← fx_ceil oneshot; c ← ClampToInt.clamp_to_i64 c;
         Done (min_pnl, saturating_add_i64 max_pnl c)
       else
         f ← fx_floor oneshot; f ← ClampToInt.clamp_to_i64 f;
         Done (saturating_add_i64 min_pnl f, max_pnl));
    Done (Z.min min_pnl 0, Z.max max_pnl 0).

Definition available_settle_limit (p : PerpPosition) (m : PerpMarket) : outcome (Z * Z) :=
  _ ← assert_ (pp_market_index p =? pm_perp_market_index m);
  if SFltb (pm_settle_pnl_limit_factor m) f_zero then Done (I64_MIN, I64_MAX)
  else
    '(min_pnl, max_pnl) ← settle_limit p m;
    let used := pp_settled_in_current_window p in
    Done (Z.min (saturating_sub_i64 min_pnl used) 0, Z.max (saturating_sub_i64 max_pnl used) 0).

Definition apply_pnl_settle_limit (p : PerpPosition) (m : PerpMarket) (pnl : Z) : outcome Z :=
  if SFltb (pm_settle_pnl_limit_factor m) f_zero then Done pnl
  else
    '(min_pnl, max_pnl) ← available_settle_limit p m;
    if pnl <? 0 then l ← fx_from_int min_pnl; Done (Z.max pnl l)
    else l ← fx_from_int max_pnl; Done (Z.min pnl l).

Definition record_settle (p : PerpPosition) (settled_pnl : Z) (m : PerpMarket) : outcome PerpPosition :=
  n ← fx_neg settled_pnl;
  p ← change_quote_position p n;
  let oneshot_reduction :=
    if 0 <? settled_pnl then Z.max (Z.min settled_pnl (pp_oneshot_settle_pnl_allowance p)) 0
    else Z.min (Z.max settled_pnl (pp_oneshot_settle_pnl_allowance p)) 0 in
  o ← fx_sub (pp_oneshot_settle_pnl_allowance p) oneshot_reduction;
  let p := set_pp_oneshot_settle_pnl_allowance p o in
  u ← fx_sub settled_pnl oneshot_reduction;
  u ← fx_round_to_zero u;
  used_settle_limit ← ClampToInt.clamp_to_i64 u;
  '(p, recurring_allowance_change) ← apply_recurring_settle_pnl_allowance_constraint p m;
  used_settle_limit ←
    (if recurring_allowance_change <? 0 then
       if 0 <? used_settle_limit then
         v ← i64 (used_settle_limit + recurring_allowance_change); Done (Z.max v 0)
       else
         v ← i64 (used_settle_limit - recurring_allowance_change); Done (Z.min v 0)
     else Done used_settle_limit);
  s ← i64 (pp_settled_in_current_window p + used_settle_limit);
  Done (set_pp_settled_in_current_window p s).

Definition record_trading_fee (p : PerpPosition) (fee : Z) : outcome PerpPosition :=
  n ← fx_neg fee;
  p ← change_quote_position p n;
  o ← fx_sub (pp_oneshot_settle_pnl_allowance p) fee;
  let p := set_pp_oneshot_settle_pnl_allowance p o in
  r ← fx_sub (pp_realized_pnl_for_position_native p) fee;
  Done (set_pp_realized_pnl_for_position_native p r).

Definition record_liquidation_quote_change (p : PerpPosition) (change : Z) : outcome PerpPosition :=
  p ← change_quote_position p change;
  o ← fx_add (pp_oneshot_settle_pnl_allowance p) change;
  Done (set_pp_oneshot_settle_pnl_allowance p o).

Definition record_liquidation_pnl_takeover (p : PerpPosition) (change recurring_limit oneshot_limit : Z) :
    outcome PerpPosition :=
  p ← change_quote_position p change;
  a ← i64 (pp_recurring_settle_pnl_allowance p + recurring_limit);
  let p := set_pp_recurring_settle_pnl_allowance p a in
  l ← fx_from_int oneshot_limit;
  o ← fx_add (pp_oneshot_settle_pnl_allowance p) l;
  Done (set_pp_oneshot_settle_pnl_allowance p o).

End operations.

End Perp.
