(* ===== verification/PerpPositionSpec.v ===== *)
(** * Perp positions: properties

    Funding, trades, settle limits and settlement of a perp position, and what a trade does
    to the open interest of the market. *)

From stdpp Require Import base numbers gmap functions list.
From Stdlib Require Import ZArith Lia SpecFloat.
From S2P Require Import Prelude OrderTypes Nodes Oracle EventQueue FixedPoint StablePrice PerpMarket PerpPosition.

Open Scope Z_scope.

Import Perp.

(** The settle limit bookkeeping is in range. *)
Lemma saturating_add_range a b : is_i64 (saturating_add_i64 a b).
Proof. unfold saturating_add_i64. mlia. Qed.

Lemma saturating_sub_range a b : is_i64 (saturating_sub_i64 a b).
Proof. unfold saturating_sub_i64. mlia. Qed.

(** ** Windows *)

(** After [update_settle_limit] the current time lies in the position's settle limit
    window. The amount settled in the window is kept exactly when the time was in the
    window already, and reset to 0 otherwise; nothing else changes. *)
Theorem settle_window_current p m now_ts :
  pp_market_index p = pm_perp_market_index m -> is_u64 now_ts ->
  let size := pm_settle_pnl_limit_window_size_ts m in
  let w := pp_settle_pnl_limit_window p in
  0 < size -> 0 <= w -> (w + 1) * size <= U64_MAX -> now_ts / size <= U32_MAX ->
  exists p', update_settle_limit p m now_ts = Done p' /\
    pp_settle_pnl_limit_window p' * size <= now_ts < (pp_settle_pnl_limit_window p' + 1) * size /\
    pp_settled_in_current_window p'
    = (if (w * size <=? now_ts) && (now_ts <? (w + 1) * size) then pp_settled_in_current_window p else 0) /\
    p' = set_pp_settled_in_current_window
           (set_pp_settle_pnl_limit_window p (pp_settle_pnl_limit_window p'))
           (pp_settled_in_current_window p').
Proof.
  intros Hi Hn size w Hs Hw Hws Hq. unfold update_settle_limit. rewrite Hi, Z.eqb_refl. simpl. run.
  fold size w. rewrite (u64_ok (w * size)) by (unfold_widths; nia). run.
  rewrite (u64_ok (w * size + size)) by (unfold_widths; nia). run.
  pose proof (Z.div_mod now_ts size). pose proof (Z.mod_pos_bound now_ts size).
  assert (0 <= now_ts / size) by (apply Z.div_pos; mlia).
  destruct (Z.leb_spec (w * size + size) now_ts), (Z.ltb_spec now_ts (w * size)); simpl; try nia.
  - rewrite (proj2 (Z.eqb_neq size 0)) by lia. simpl. run. rewrite u32_ok by mlia. run.
    eexists. split; [done|]. simpl. split_and!; [lia|lia| |done].
    rewrite (proj2 (Z.ltb_ge now_ts ((w + 1) * size))) by lia. by rewrite andb_false_r.
  - rewrite (proj2 (Z.eqb_neq size 0)) by lia. simpl. run. rewrite u32_ok by mlia. run.
    eexists. split; [done|]. simpl. split_and!; [lia|lia| |done].
    by rewrite (proj2 (Z.leb_gt (w * size) now_ts)) by lia.
  - eexists. split; [done|]. split_and!; [lia|lia| |by destruct p].
    rewrite (proj2 (Z.leb_le _ _)), (proj2 (Z.ltb_lt _ _)) by lia. done.
Qed.

(** A position in settle window 3. *)
Definition test_position : PerpPosition :=
  mkPerpPosition 0 3 70 4 (fx_int (-300)) 0 0 0 0 0 0 0 f_zero f_zero 0 0 0 (f64_of_Z 75) 0 0 20 0.

(** A concrete instance: a day has passed. *)
Lemma settle_window_current_witness :
  exists p', update_settle_limit test_position test_market 400000 = Done p' /\
    pp_settle_pnl_limit_window p' = 4 /\ pp_settled_in_current_window p' = 0.
Proof.
  destruct (settle_window_current test_position test_market 400000) as (p' & E & _ & _ & _);
    [reflexivity|split; vm_compute; congruence|reflexivity|vm_compute; congruence..|].
  exists p'. split; [exact E|]. vm_compute in E. injection E as <-. split; reflexivity.
Defined.

Section laws.
Context `{FixedLaws}.

(** ** Funding *)

(** The funding owed: the price change of the funding index times the position. *)
Definition funding_owed (p : PerpPosition) (m : PerpMarket) : Z :=
  let b := pp_base_position_lots p in
  if 0 <? b then (pm_long_funding m - pp_long_settled_funding p) * b
  else if b <? 0 then (pm_short_funding m - pp_short_settled_funding p) * b
  else 0.

(** The intermediate results fit their types. *)
Definition funding_in_range (p : PerpPosition) (m : PerpMarket) : Prop :=
  is_i64 (pp_base_position_lots p) /\
  is_i128 (pm_long_funding m - pp_long_settled_funding p) /\
  is_i128 (pm_short_funding m - pp_short_settled_funding p) /\
  is_i128 (funding_owed p m).

Lemma fx_from_i64 n : is_i64 n -> fx_from_int n = Done (fx_int n).
Proof.
  intros Hn. apply fx_from_int_law. unfold is_i128, fx_int, fx_scale, I128_MIN, I128_MAX. mlia.
Qed.

(** Multiplying with an integer is exact. *)
Lemma fx_mul_int a n : is_i128 (a * n) -> fx_mul a (fx_int n) = Done (a * n).
Proof.
  intros Hr. assert (E : a * fx_int n / fx_scale = a * n).
  { unfold fx_int. rewrite Z.mul_assoc, Z.div_mul; done. }
  by rewrite fx_mul_law, E by (by rewrite E).
Qed.

Lemma unsettled_funding_ok p m :
  funding_in_range p m -> unsettled_funding p m = Done (funding_owed p m).
Proof.
  intros (Hb & Hl & Hs & Ho). unfold unsettled_funding, funding_owed in *.
  destruct (Z.compare_spec (pp_base_position_lots p) 0) as [E|L|L].
  - rewrite E. done.
  - rewrite (proj2 (Z.ltb_ge 0 _)), (proj2 (Z.ltb_lt _ 0)) in Ho |- * by lia.
    rewrite fx_sub_law by done. run. rewrite fx_from_i64 by done. run. by apply fx_mul_int.
  - rewrite (proj2 (Z.ltb_lt 0 _)) in Ho |- * by lia.
    rewrite fx_sub_law by done. run. rewrite fx_from_i64 by done. run. by apply fx_mul_int.
Qed.

(** Settling funding moves exactly the owed funding out of the quote position, and
    reduces the once-settleable allowance and the realised pnl by the same amount; the
    base position stays and nothing is owed afterwards, so that settling a second time
    changes none of these. *)
Theorem settle_funding_exact p m :
  funding_in_range p m ->
  let f := funding_owed p m in
  is_i128 (pp_quote_position_native p - f) -> is_i128 (pp_oneshot_settle_pnl_allowance p - f) ->
  is_i128 (pp_realized_pnl_for_position_native p - f) ->
  exists p', settle_funding p m = Done p' /\
    pp_quote_position_native p' = pp_quote_position_native p - f /\
    pp_oneshot_settle_pnl_allowance p' = pp_oneshot_settle_pnl_allowance p - f /\
    pp_realized_pnl_for_position_native p' = pp_realized_pnl_for_position_native p - f /\
    pp_base_position_lots p' = pp_base_position_lots p /\
    funding_owed p' m = 0 /\
    pp_long_settled_funding p' = pm_long_funding m /\ pp_short_settled_funding p' = pm_short_funding m.
Proof.
  intros Hr f Hq Ho Hp. unfold settle_funding. rewrite unsettled_funding_ok by done. run. fold f.
  rewrite fx_sub_law by done. run. simpl. rewrite fx_sub_law by done. run. simpl.
  rewrite fx_sub_law by done. run. eexists. split; [done|].
  destruct (0 <? _) eqn:E; simpl; split_and!; try done; unfold funding_owed; simpl;
    rewrite !Z.sub_diag, !Z.mul_0_l; by repeat case_match.
Qed.

(** ** Trades *)

Lemma change_base_position_ok p m d :
  is_i64 (pp_base_position_lots p + d) -> is_i64 (pp_base_position_lots p) ->
  pp_base_position_lots p + d <> I64_MIN -> pp_base_position_lots p <> I64_MIN ->
  let oi := pm_open_interest m + (Z.abs (pp_base_position_lots p + d) - Z.abs (pp_base_position_lots p)) in
  is_i64 oi ->
  change_base_position p m d
  = Done (set_pp_base_position_lots p (pp_base_position_lots p + d), set_pm_open_interest m oi).
Proof.
  intros H1 H2 H3 H4 oi H5. unfold change_base_position. rewrite (i64_ok (_ + d)) by done. run. simpl.
  rewrite (i64_ok (Z.abs (pp_base_position_lots p + d))) by mlia. run.
  rewrite (i64_ok (Z.abs (pp_base_position_lots p))) by mlia. run.
  rewrite (i64_ok (Z.abs (pp_base_position_lots p + d) - _)) by mlia. run.
  rewrite i64_ok by (fold oi; done). done.
Qed.

End laws.

(** ** The positions of a market *)

Section market.
Context `{FixedOps}.

Lemma trade_stats_branch_base p d q p' r i n :
  trade_stats_branch p d q = Done (p', r, i, n) ->
  pp_base_position_lots p' = pp_base_position_lots p /\ pp_market_index p' = pp_market_index p.
Proof.
  unfold trade_stats_branch. intros E. inv_run. repeat case_match; inv_run; done.
Qed.

Lemma update_trade_stats_base p d q m p' r :
  update_trade_stats p d q m = Done (p', r) ->
  pp_base_position_lots p' = pp_base_position_lots p /\ pp_market_index p' = pp_market_index p.
Proof.
  unfold update_trade_stats. destruct (d =? 0); intros E; [by inv_run|].
  apply bind_Done_inv in E as ([[[p1 r1] i1] n1] & E1 & E).
  apply trade_stats_branch_base in E1 as [E1 E2]. inv_run. simpl. done.
Qed.

Lemma constraint_base p m p' d :
  apply_recurring_settle_pnl_allowance_constraint p m = Done (p', d) ->
  pp_base_position_lots p' = pp_base_position_lots p /\ pp_market_index p' = pp_market_index p /\
  0 <= pp_recurring_settle_pnl_allowance p' <= Z.abs (pp_recurring_settle_pnl_allowance p).
Proof.
  unfold apply_recurring_settle_pnl_allowance_constraint. intros E. inv_run. simpl.
  split_and!; try done; lia.
Qed.

(** What a trade does to the base position and the open interest. *)
Lemma record_trade_base p m d q p' m' r :
  record_trade p m d q = Done (p', m', r) ->
  pp_base_position_lots p' = pp_base_position_lots p + d /\
  pm_open_interest m' - pm_open_interest m
  = Z.abs (pp_base_position_lots p') - Z.abs (pp_base_position_lots p) /\
  0 <= pp_recurring_settle_pnl_allowance p'.
Proof.
  unfold record_trade. intros E. apply bind_Done_inv in E as ([] & _ & E).
  apply bind_Done_inv in E as ([p1 r1] & E1 & E). apply update_trade_stats_base in E1 as [E1 _].
  apply bind_Done_inv in E as ([p2 m2] & E2 & E).
  apply bind_Done_inv in E as (p3 & E3 & E).
  apply bind_Done_inv in E as ([p4 d4] & E4 & E). apply constraint_base in E4 as (E4 & _ & Hr).
  injection E as <- <- <-. unfold change_base_position in E2. inv_run.
  unfold change_quote_position in E3. inv_run. simpl in *. split_and!; lia.
Qed.

(** A trade changes the open interest of a market and nothing else of it. *)
Lemma record_trade_market p m d q p' m' r :
  record_trade p m d q = Done (p', m', r) -> m' = set_pm_open_interest m (pm_open_interest m').
Proof.
  unfold record_trade, change_base_position. intros E. apply bind_Done_inv in E as ([] & _ & E).
  apply bind_Done_inv in E as ([p1 r1] & _ & E). apply bind_Done_inv in E as ([p2 m2] & E2 & E).
  apply bind_Done_inv in E as (p3 & _ & E). apply bind_Done_inv in E as ([p4 d4] & _ & E). injection E as <- <- <-.
  inv_run. by destruct m.
Qed.

End market.

(** ** Settle limits *)

Section settle.
Context `{FixedLaws}.

Lemma available_settle_limit_sign p m lo hi :
  available_settle_limit p m = Done (lo, hi) -> I64_MIN <= lo <= 0 /\ 0 <= hi <= I64_MAX.
Proof.
  unfold available_settle_limit. intros E. apply bind_Done_inv in E as ([] & _ & E).
  destruct (SFltb _ _); [inv_run; mlia|].
  apply bind_Done_inv in E as ([lo' hi'] & _ & E). inv_run.
  pose proof (saturating_sub_range lo' (pp_settled_in_current_window p)).
  pose proof (saturating_sub_range hi' (pp_settled_in_current_window p)). mlia.
Qed.

(** Applying the settle limit never turns a profit into a loss or a loss into a
    profit, and never increases the amount: the result lies between 0 and the given pnl,
    and equals it when the limit is disabled (negative factor). *)
Theorem pnl_settle_limit_between p m pnl r :
  apply_pnl_settle_limit p m pnl = Done r ->
  (if 0 <=? pnl then 0 <= r <= pnl else pnl <= r <= 0) /\
  (SFltb (pm_settle_pnl_limit_factor m) f_zero = true -> r = pnl).
Proof.
  unfold apply_pnl_settle_limit. destruct (SFltb _ _).
  { intros E. inv_run. split; [|done]. destruct (Z.leb_spec 0 r); lia. }
  intros E. apply bind_Done_inv in E as ([lo hi] & El & E). apply available_settle_limit_sign in El as [Hl Hh].
  split; [|done]. assert (0 < fx_scale) by done.
  destruct (Z.ltb_spec pnl 0) as [L|L].
  - rewrite fx_from_i64 in E by mlia. inv_run. rewrite (proj2 (Z.leb_gt 0 pnl)) by lia.
    unfold fx_int. nia.
  - rewrite fx_from_i64 in E by mlia. inv_run. rewrite (proj2 (Z.leb_le 0 pnl)) by lia.
    unfold fx_int. nia.
Qed.

Lemma constraint_change p m p' d :
  apply_recurring_settle_pnl_allowance_constraint p m = Done (p', d) ->
  d <= 0 /\ pp_quote_position_native p' = pp_quote_position_native p /\
  pp_oneshot_settle_pnl_allowance p' = pp_oneshot_settle_pnl_allowance p /\
  pp_settled_in_current_window p' = pp_settled_in_current_window p.
Proof.
  unfold apply_recurring_settle_pnl_allowance_constraint. intros E. inv_run. simpl.
  split_and!; try done; lia.
Qed.

(** The settle limit used by a settlement, of which [red] came from the allowance. *)
Lemma used_limit_between pnl red :
  (if 0 <? pnl then 0 <= red <= pnl else pnl <= red <= 0) ->
  let u := Z.max I64_MIN (Z.min I64_MAX (Z.quot (pnl - red) fx_scale)) in
  if 0 <? pnl then 0 <= fx_int u <= pnl else pnl <= fx_int u <= 0.
Proof.
  intros Hred u. assert (Hs : 0 < fx_scale) by done. set (q := Z.quot (pnl - red) fx_scale) in *.
  unfold fx_int, u. destruct (Z.ltb_spec 0 pnl) as [L|L].
  - assert (0 <= q) by (apply Z.quot_pos; lia).
    assert (q * fx_scale <= pnl - red).
    { unfold q. rewrite Z.quot_div_nonneg by lia. pose proof (Z.mul_div_le (pnl - red) fx_scale). lia. }
    unfold_widths. nia.
  - assert (Eq : q = - ((red - pnl) / fx_scale)).
    { unfold q. replace (pnl - red) with (- (red - pnl)) by lia. rewrite Z.quot_opp_l by lia.
      rewrite Z.quot_div_nonneg by lia. done. }
    assert (0 <= (red - pnl) / fx_scale) by (apply Z.div_pos; lia).
    pose proof (Z.mul_div_le (red - pnl) fx_scale). unfold_widths. nia.
Qed.

(** Settling a pnl takes exactly that amount out of the quote position and leaves the
    base position; the once-settleable allowance shrinks towards zero without changing
    sign; and the settle limit budget used in the window moves in the direction of the
    settled pnl, by at most the settled amount. *)
Theorem record_settle_exact p m pnl p' :
  I128_MIN < pnl <= I128_MAX -> is_i128 (pp_oneshot_settle_pnl_allowance p) ->
  is_i128 (pp_quote_position_native p - pnl) ->
  record_settle p pnl m = Done p' ->
  let o := pp_oneshot_settle_pnl_allowance p in
  let o' := pp_oneshot_settle_pnl_allowance p' in
  let used := fx_int (pp_settled_in_current_window p' - pp_settled_in_current_window p) in
  pp_quote_position_native p' = pp_quote_position_native p - pnl /\
  pp_base_position_lots p' = pp_base_position_lots p /\
  (if 0 <=? o then 0 <= o' <= o else o <= o' <= 0) /\
  (if 0 <? pnl then 0 <= used <= pnl else pnl <= used <= 0).
Proof.
  intros Hp Ho Hq E o o' used. unfold record_settle in E.
  rewrite fx_neg_law in E by (unfold is_i128, I128_MIN, I128_MAX in *; lia). run_in E.
  unfold change_quote_position in E.
  rewrite fx_add_law in E by (by rewrite Z.add_opp_r). run_in E.
  set (red := if 0 <? pnl then _ else _) in E.
  assert (Hred : if 0 <? pnl then 0 <= red <= pnl /\ (0 <= o -> red <= o) /\ (o < 0 -> red = 0)
                 else pnl <= red <= 0 /\ (o < 0 -> o <= red) /\ (0 <= o -> red = 0)).
  { unfold red, o. simpl. destruct (Z.ltb_spec 0 pnl); lia. }
  clearbody red. unfold is_i128, I128_MIN, I128_MAX in *. simpl in E. fold o in E.
  rewrite fx_sub_law in E by (unfold is_i128, I128_MIN, I128_MAX; destruct (0 <? pnl), (Z.leb_spec 0 o); lia).
  run_in E.
  rewrite fx_sub_law in E by (unfold is_i128, I128_MIN, I128_MAX; destruct (Z.ltb_spec 0 pnl); lia).
  run_in E.
  rewrite fx_round_to_zero_law in E by (unfold is_i128, I128_MIN, I128_MAX; destruct (Z.ltb_spec 0 pnl); lia).
  run_in E. rewrite ClampToInt.clamp_to_i64_ok in E. run_in E.
  set (q := Z.quot (pnl - red) fx_scale) in *.
  replace (fx_int q / fx_scale) with q in E by (unfold fx_int; by rewrite Z.div_mul).
  set (u := Z.max I64_MIN (Z.min I64_MAX q)) in E.
  assert (Hu : if 0 <? pnl then 0 <= fx_int u <= pnl else pnl <= fx_int u <= 0).
  { apply (used_limit_between pnl red). destruct (0 <? pnl); lia. }
  assert (Hs : 0 < fx_scale) by done.
  clearbody u. apply bind_Done_inv in E as ([p2 d] & E2 & E).
  apply constraint_base in E2 as E3. destruct E3 as (Hb & _). apply constraint_change in E2 as (Hd & Hq2 & Ho2 & Hw2).
  simpl in *. apply bind_Done_inv in E as (u' & Eu & E). inv_run. simpl in *.
  assert (Hu' : if 0 <? pnl then 0 <= u' <= u else u <= u' <= 0).
  { unfold fx_int in Hu. destruct (Z.ltb_spec d 0); [|inv_run; destruct (Z.ltb_spec 0 pnl); nia].
    destruct (Z.ltb_spec 0 u); inv_run; destruct (Z.ltb_spec 0 pnl); try nia. }
  unfold o', used, fx_int in *. simpl. rewrite Hq2, Ho2, Hw2, Hb.
  split_and!; [lia|done| |].
  - destruct (0 <? pnl), (Z.leb_spec 0 o); lia.
  - replace (pp_settled_in_current_window p + u' - pp_settled_in_current_window p) with u' by lia.
    destruct (Z.ltb_spec 0 pnl); nia.
Qed.

End settle.

(** ** Concrete instances *)

(** A market whose long funding has grown by 2 since the position settled. *)
Definition funded_market : PerpMarket := set_pm_long_funding test_market (fx_int 2).

(** A concrete instance: a long position of 4 lots owes 8. *)
Lemma settle_funding_exact_witness :
  exists p', @settle_funding fixed_ref test_position funded_market = Done p' /\
    pp_quote_position_native p' = fx_int (-308) /\ funding_owed p' funded_market = 0.
Proof.
  destruct (@settle_funding_exact fixed_ref fixed_ref_laws test_position funded_market)
    as (p' & E & H1 & _ & _ & _ & H2 & _).
  - split; [|split; [|split]]; split; vm_compute; congruence.
  - split; vm_compute; congruence.
  - split; vm_compute; congruence.
  - split; vm_compute; congruence.
  - exists p'. split; [exact E|]. split; [rewrite H1; vm_compute; reflexivity|exact H2].
Defined.

(** A market without open interest. *)
Definition flat_market : PerpMarket := set_pm_open_interest test_market 0.

(** A concrete instance: a profit of 1000 on the test position is limited. *)
Lemma pnl_settle_limit_between_witness :
  exists r, @apply_pnl_settle_limit fixed_ref test_position test_market (fx_int 1000) = Done r /\
    0 <= r <= fx_int 1000.
Proof.
  destruct (@apply_pnl_settle_limit fixed_ref test_position test_market (fx_int 1000)) as [r| | |] eqn:E;
    [|vm_compute in E; discriminate E..].
  exists r. split; [reflexivity|].
  exact (proj1 (@pnl_settle_limit_between fixed_ref fixed_ref_laws test_position test_market (fx_int 1000) r E)).
Defined.

(** A concrete instance: settling 30 from the test position. *)
Lemma record_settle_exact_witness :
  exists p', @record_settle fixed_ref test_position (fx_int 30) test_market = Done p' /\
    pp_quote_position_native p' = fx_int (-330) /\ pp_base_position_lots p' = 4.
Proof.
  destruct (@record_settle fixed_ref test_position (fx_int 30) test_market) as [p'| | |] eqn:E;
    [|vm_compute in E; discriminate E..].
  exists p'. split; [reflexivity|].
  destruct (@record_settle_exact fixed_ref fixed_ref_laws test_position test_market (fx_int 30) p')
    as (H1 & H2 & _);
    [split; vm_compute; congruence..|exact E|].
  split; [rewrite H1; vm_compute; reflexivity|exact H2].
Defined.
