(* ===== verification/MangoAccount.v ===== *)
(** * Mango accounts

    state/mango_account.rs and the token positions and perp open orders of
    state/mango_account_components.rs. The dynamic part of an account is modelled as
    five lists: token positions, spot open orders, perp positions, perp open orders and
    conditional swaps. Names, PDA data and reserved bytes are not modelled.

    Rust code that gets an element by raw index without a bounds check would read the
    bytes of the next vector when the index is out of range; here that is a panic. The
    indexes used that way come from the account itself or from order slots it gave out. *)

From stdpp Require Import base numbers gmap functions list.
From Stdlib Require Import ZArith Lia SpecFloat.
From S2P Require Import Prelude FixedPoint HealthType TokenPosition OrderTypes Nodes EventQueue StablePrice Bank Serum3 ConditionalSwap PerpMarket PerpPosition.

Open Scope Z_scope.

Record MangoAccountFixed := mkMangoAccountFixed {
  af_group : Pubkey;
  af_owner : Pubkey;
  af_delegate : Pubkey;
  af_account_num : Z;
  af_being_liquidated : Z;
  af_in_health_region : Z;
  af_sequence_number : Z;
  af_net_deposits : Z;
  af_perp_spot_transfers : Z;
  af_health_region_begin_init_health : Z;
  af_frozen_until : Z;
  af_buyback_fees_accrued_current : Z;
  af_buyback_fees_accrued_previous : Z;
  af_buyback_fees_expiry_timestamp : Z;
  af_next_token_conditional_swap_id : Z;
  af_temporary_delegate : Pubkey;
  af_temporary_delegate_expiry : Z;
  af_last_collateral_fee_charge : Z
}.

#[export] Instance eta_MangoAccountFixed : Eta MangoAccountFixed := fun a =>
  mkMangoAccountFixed
    (af_group a) (af_owner a) (af_delegate a) (af_account_num a) (af_being_liquidated a)
    (af_in_health_region a) (af_sequence_number a) (af_net_deposits a)
    (af_perp_spot_transfers a) (af_health_region_begin_init_health a) (af_frozen_until a)
    (af_buyback_fees_accrued_current a) (af_buyback_fees_accrued_previous a)
    (af_buyback_fees_expiry_timestamp a) (af_next_token_conditional_swap_id a)
    (af_temporary_delegate a) (af_temporary_delegate_expiry a)
    (af_last_collateral_fee_charge a).

(** The fixed part of [MangoAccount::default_for_tests]. *)
Definition fixed_default : MangoAccountFixed :=
  mkMangoAccountFixed default_key default_key default_key 0 0 0 0 0 0 0 0 0 0 0 0 default_key 0 0.

Definition set_af_being_liquidated (a : MangoAccountFixed) (v : Z) : MangoAccountFixed := a <| af_being_liquidated := v |>.
Definition set_af_in_health_region (a : MangoAccountFixed) (v : Z) : MangoAccountFixed := a <| af_in_health_region := v |>.
Definition set_af_buyback_fees_accrued_current (a : MangoAccountFixed) (v : Z) : MangoAccountFixed := a <| af_buyback_fees_accrued_current := v |>.
Definition set_af_buyback_fees_accrued_previous (a : MangoAccountFixed) (v : Z) : MangoAccountFixed := a <| af_buyback_fees_accrued_previous := v |>.
Definition set_af_buyback_fees_expiry_timestamp (a : MangoAccountFixed) (v : Z) : MangoAccountFixed := a <| af_buyback_fees_expiry_timestamp := v |>.

Definition FREE_ORDER_SLOT : Z := PERP_INDEX_MAX.

Record PerpOpenOrder := mkPerpOpenOrder {
  oo_side_and_tree : SideAndOrderTree;
  oo_market : Z;
  oo_client_id : Z;
  oo_id : Z;
  oo_quantity : Z
}.

Module OpenOrder.

Definition default : PerpOpenOrder := mkPerpOpenOrder BidFixed FREE_ORDER_SLOT 0 0 0.

Definition is_active_for_market (o : PerpOpenOrder) (perp_market_index : Z) : bool :=
  oo_market o =? perp_market_index.

Definition is_active (o : PerpOpenOrder) : bool := negb (oo_market o =? FREE_ORDER_SLOT).

Definition clear (o : PerpOpenOrder) : PerpOpenOrder := mkPerpOpenOrder BidFixed FREE_ORDER_SLOT 0 0 0.

Definition set_quantity (o : PerpOpenOrder) (q : Z) : PerpOpenOrder :=
  mkPerpOpenOrder (oo_side_and_tree o) (oo_market o) (oo_client_id o) (oo_id o) q.

End OpenOrder.

Record MangoAccount := mkMangoAccount {
  ma_fixed : MangoAccountFixed;
  ma_tokens : list TokenPosition;
  ma_serum3 : list Serum3Orders;
  ma_perps : list PerpPosition;
  ma_perp_oos : list PerpOpenOrder;
  ma_tcs : list TokenConditionalSwap
}.

#[export] Instance eta_MangoAccount : Eta MangoAccount := fun a =>
  mkMangoAccount
    (ma_fixed a) (ma_tokens a) (ma_serum3 a) (ma_perps a) (ma_perp_oos a) (ma_tcs a).

(** [MangoAccount::default_for_tests]. *)
Definition account_default : MangoAccount :=
  mkMangoAccount fixed_default (replicate 3 Token.default) (replicate 5 Serum.default)
    (replicate 4 perp_position_default) (replicate 6 OpenOrder.default) (replicate 2 Tcs.default).

Definition set_ma_fixed (a : MangoAccount) (f : MangoAccountFixed) : MangoAccount := a <| ma_fixed := f |>.
Definition set_ma_tokens (a : MangoAccount) (l : list TokenPosition) : MangoAccount := a <| ma_tokens := l |>.
Definition set_ma_serum3 (a : MangoAccount) (l : list Serum3Orders) : MangoAccount := a <| ma_serum3 := l |>.
Definition set_ma_tcs (a : MangoAccount) (l : list TokenConditionalSwap) : MangoAccount := a <| ma_tcs := l |>.
Definition set_ma_perps (a : MangoAccount) (l : list PerpPosition) : MangoAccount := a <| ma_perps := l |>.
Definition set_ma_perp_oos (a : MangoAccount) (l : list PerpOpenOrder) : MangoAccount := a <| ma_perp_oos := l |>.

(** ** The fixed part *)

Module Fixed.

Definition is_operational (a : MangoAccountFixed) (now_ts : Z) : bool := af_frozen_until a <? now_ts.

Definition is_delegate (a : MangoAccountFixed) (now_ts : Z) (ix_signer : Pubkey) : bool :=
  if af_delegate a =? ix_signer then true
  else if af_temporary_delegate_expiry a <? now_ts then false
  else af_temporary_delegate a =? ix_signer.

Definition is_owner_or_delegate (a : MangoAccountFixed) (now_ts : Z) (ix_signer : Pubkey) : bool :=
  (af_owner a =? ix_signer) || is_delegate a now_ts ix_signer.

Definition being_liquidated (a : MangoAccountFixed) : bool := af_being_liquidated a =? 1.

Definition set_being_liquidated (a : MangoAccountFixed) (b : bool) : MangoAccountFixed :=
  set_af_being_liquidated a (if b then 1 else 0).

Definition is_in_health_region (a : MangoAccountFixed) : bool := af_in_health_region a =? 1.

Definition set_in_health_region (a : MangoAccountFixed) (b : bool) : MangoAccountFixed :=
  set_af_in_health_region a (if b then 1 else 0).

Definition maybe_recover_from_being_liquidated (a : MangoAccountFixed) (liq_end_health : Z) :
    MangoAccountFixed * bool :=
  if being_liquidated a && (- fx_one <? liq_end_health)
  then (set_being_liquidated a false, true)
  else (a, false).

Definition expire_buyback_fees (a : MangoAccountFixed) (now_ts interval : Z) : outcome MangoAccountFixed :=
  if (interval =? 0) || (now_ts <? af_buyback_fees_expiry_timestamp a) then Done a
  else
    e ← u64 (af_buyback_fees_expiry_timestamp a + interval);
    let a :=
      if now_ts <? e then set_af_buyback_fees_accrued_previous a (af_buyback_fees_accrued_current a)
      else set_af_buyback_fees_accrued_previous a 0 in
    let a := set_af_buyback_fees_accrued_current a 0 in
    n ← u64 (now_ts / interval + 1);
    t ← u64 (n * interval);
    Done (set_af_buyback_fees_expiry_timestamp a t).

Definition buyback_fees_accrued (a : MangoAccountFixed) : Z :=
  saturating_add_u64 (af_buyback_fees_accrued_current a) (af_buyback_fees_accrued_previous a).

Definition accrue_buyback_fees (a : MangoAccountFixed) (amount : Z) : MangoAccountFixed :=
  set_af_buyback_fees_accrued_current a (saturating_add_u64 (af_buyback_fees_accrued_current a) amount).

Definition reduce_buyback_fees_accrued (a : MangoAccountFixed) (amount : Z) : outcome MangoAccountFixed :=
  if af_buyback_fees_accrued_previous a <? amount then
    remaining_amount ← u64 (amount - af_buyback_fees_accrued_previous a);
    _ ← assert_ (remaining_amount <=? af_buyback_fees_accrued_current a);
    c ← u64 (af_buyback_fees_accrued_current a - remaining_amount);
    let a := set_af_buyback_fees_accrued_current a c in
    Done (set_af_buyback_fees_accrued_previous a 0)
  else
    p ← u64 (af_buyback_fees_accrued_previous a - amount);
    Done (set_af_buyback_fees_accrued_previous a p).

End Fixed.

(** ** Positions and open orders *)

Module Account.

Definition token_position_and_raw_index (a : MangoAccount) (token_index : Z) : outcome (TokenPosition * nat) :=
  i ← ok_or (position (fun t => Token.is_active_for_token t token_index) (ma_tokens a))
        (EMango TokenPositionDoesNotExist);
  t ← unwrap (ma_tokens a !! i);
  Done (t, i).

Definition set_token (a : MangoAccount) (i : nat) (t : TokenPosition) : MangoAccount :=
  set_ma_tokens a (<[i := t]> (ma_tokens a)).

(** The loop of [ensure_token_position]: the raw index and active index of the position
    of the token, or of the first inactive one. *)
Fixpoint match_or_free_token (ts : list TokenPosition) (token_index : Z) (raw_index active_index : nat)
    (match_or_free : option (nat * nat)) : option (nat * nat) :=
  match ts with
  | [] => match_or_free
  | t :: ts =>
      if Token.is_active_for_token t token_index then Some (raw_index, active_index)
      else if Token.is_active t then
        match_or_free_token ts token_index (S raw_index) (S active_index) match_or_free
      else
        match_or_free_token ts token_index (S raw_index) active_index
          (match match_or_free with None => Some (raw_index, active_index) | r => r end)
  end.

Definition ensure_token_position (a : MangoAccount) (token_index : Z) : outcome (MangoAccount * nat * nat) :=
  match match_or_free_token (ma_tokens a) token_index 0 0 None with
  | Some (raw_index, bank_index) =>
      v ← unwrap (ma_tokens a !! raw_index);
      let v := if negb (Token.is_active_for_token v token_index)
               then mkTokenPosition 0 token_index 0 0 f_zero f_zero else v in
      Done (set_token a raw_index v, raw_index, bank_index)
  | None => Fail (EMango NoFreeTokenPositionIndex)
  end.

Definition deactivate_token_position (a : MangoAccount) (raw_index : nat) : outcome MangoAccount :=
  t ← unwrap (ma_tokens a !! raw_index);
  _ ← assert_ (tp_in_use_count t =? 0);
  Done (set_token a raw_index (set_tp_token_index t TOKEN_INDEX_MAX)).

(** [deactivate_token_position_and_log] is [deactivate_token_position] with a log. *)
Definition token_decrement_dust_deactivate `{FixedOps} (a : MangoAccount) (b : Bank) (now_ts : Z) :
    outcome (MangoAccount * Bank) :=
  match token_position_and_raw_index a (bk_token_index b) with
  | Fail e => if is_anchor_error_with_code e TokenPositionDoesNotExist then Done (a, b) else Fail e
  | Panic => Panic
  | NoFuel => NoFuel
  | Done (t, raw_index) =>
      '(b, t, active) ← dust_if_possible b (Token.decrement_in_use t) now_ts;
      let a := set_token a raw_index t in
      a ← (if negb active then deactivate_token_position a raw_index else Done a);
      Done (a, b)
  end.

Definition active_token_positions (a : MangoAccount) : list TokenPosition :=
  List.filter Token.is_active (ma_tokens a).

Definition active_serum3_orders (a : MangoAccount) : list Serum3Orders :=
  List.filter Serum.is_active (ma_serum3 a).

Definition active_perp_positions (a : MangoAccount) : list PerpPosition :=
  List.filter Perp.is_active (ma_perps a).

Definition active_token_conditional_swaps (a : MangoAccount) : list TokenConditionalSwap :=
  List.filter Tcs.is_configured (ma_tcs a).

(** [serum3_orders] and [serum3_orders_mut]: the slot of the market with its raw index. *)
Definition serum3_orders (a : MangoAccount) (market_index : Z) : outcome (nat * Serum3Orders) :=
  i ← ok_or (position (fun s => Serum.is_active_for_market s market_index) (ma_serum3 a)) error_msg;
  s ← unwrap (ma_serum3 a !! i);
  Done (i, s).

Definition set_serum3 (a : MangoAccount) (i : nat) (s : Serum3Orders) : MangoAccount :=
  set_ma_serum3 a (<[i := s]> (ma_serum3 a)).

Definition create_serum3_orders (a : MangoAccount) (market_index : Z) : outcome (MangoAccount * nat) :=
  match serum3_orders a market_index with
  | Done _ => Fail (EMango Serum3OpenOrdersExistAlready)
  | _ =>
      match position (fun s => negb (Serum.is_active s)) (ma_serum3 a) with
      | Some raw_index =>
          Done (set_serum3 a raw_index (Serum.default <| s3_market_index := market_index |>), raw_index)
      | None => Fail (EMango NoFreeSerum3OpenOrdersIndex)
      end
  end.

Definition deactivate_serum3_orders (a : MangoAccount) (market_index : Z) : outcome MangoAccount :=
  '(i, s) ← serum3_orders a market_index;
  Done (set_serum3 a i (s <| s3_market_index := SERUM3_INDEX_MAX |>)).

Definition token_conditional_swap_by_index (a : MangoAccount) (index : nat) : outcome TokenConditionalSwap :=
  ok_or (ma_tcs a !! index) ERequireGt.

Definition token_conditional_swap_by_id (a : MangoAccount) (id : Z) : outcome (nat * TokenConditionalSwap) :=
  index ← ok_or (position (fun t => Tcs.is_configured t && (tcs_id t =? id)) (ma_tcs a)) error_msg;
  t ← unwrap (ma_tcs a !! index);
  Done (index, t).

Definition token_conditional_swap_free_index (a : MangoAccount) : outcome nat :=
  ok_or (position (fun t => negb (Tcs.is_configured t)) (ma_tcs a)) error_msg.

Definition set_tcs (a : MangoAccount) (i : nat) (t : TokenConditionalSwap) : MangoAccount :=
  set_ma_tcs a (<[i := t]> (ma_tcs a)).

Definition perp_raw_index (a : MangoAccount) (market_index : Z) : option nat :=
  position (fun p => Perp.is_active_for_market p market_index) (ma_perps a).

(** [perp_position] and [perp_position_mut]: the position with its raw index. *)
Definition perp_position (a : MangoAccount) (market_index : Z) : outcome (nat * PerpPosition) :=
  i ← ok_or (perp_raw_index a market_index) (EMango PerpPositionDoesNotExist);
  p ← unwrap (ma_perps a !! i);
  Done (i, p).

Definition set_perp (a : MangoAccount) (i : nat) (p : PerpPosition) : MangoAccount :=
  set_ma_perps a (<[i := p]> (ma_perps a)).

Definition ensure_perp_position (a : MangoAccount) (perp_market_index settle_token_index : Z) :
    outcome (MangoAccount * nat) :=
  match perp_raw_index a perp_market_index with
  | Some raw_index => Done (a, raw_index)
  | None =>
      match position (fun p => negb (Perp.is_active p)) (ma_perps a) with
      | Some raw_index =>
          let a := set_perp a raw_index (set_pp_market_index perp_position_default perp_market_index) in
          '(a, i, _) ← ensure_token_position a settle_token_index;
          t ← unwrap (ma_tokens a !! i);
          t ← Token.increment_in_use t;
          Done (set_token a i t, raw_index)
      | None => Fail (EMango NoFreePerpPositionIndex)
      end
  end.

(** [deactivate_perp_position_and_log]. *)
Definition deactivate_perp_position (a : MangoAccount) (perp_market_index settle_token_index : Z) :
    outcome MangoAccount :=
  '(i, p) ← perp_position a perp_market_index;
  let a := set_perp a i (set_pp_market_index p PERP_INDEX_MAX) in
  '(t, j) ← token_position_and_raw_index a settle_token_index;
  Done (set_token a j (Token.decrement_in_use t)).

Definition find_first_active_unused_perp_position (a : MangoAccount) : option PerpPosition :=
  i ← position (fun p => Perp.is_active p && (pp_base_position_lots p =? 0) &&
        (pp_quote_position_native p =? 0) && (pp_bids_base_lots p =? 0) &&
        (pp_asks_base_lots p =? 0) && (pp_taker_base_lots p =? 0) && (pp_taker_quote_lots p =? 0))
      (ma_perps a);
  ma_perps a !! i.

Definition perp_order_by_raw_index (a : MangoAccount) (raw_index : nat) : outcome PerpOpenOrder :=
  match ma_perp_oos a !! raw_index with
  | Some oo => Done oo
  | None => Fail ERequireGt
  end.

Definition set_perp_order (a : MangoAccount) (i : nat) (oo : PerpOpenOrder) : MangoAccount :=
  set_ma_perp_oos a (<[i := oo]> (ma_perp_oos a)).

Definition perp_next_order_slot (a : MangoAccount) : outcome nat :=
  ok_or (position (fun oo => oo_market oo =? FREE_ORDER_SLOT) (ma_perp_oos a)) error_msg.

Definition perp_find_order_with_client_order_id (a : MangoAccount) (market_index client_order_id : Z) :
    option (nat * PerpOpenOrder) :=
  i ← position (fun oo => OpenOrder.is_active_for_market oo market_index && (oo_client_id oo =? client_order_id))
        (ma_perp_oos a);
  oo ← ma_perp_oos a !! i;
  Some (i, oo).

Definition perp_find_order_with_order_id (a : MangoAccount) (market_index order_id : Z) :
    option (nat * PerpOpenOrder) :=
  i ← position (fun oo => OpenOrder.is_active_for_market oo market_index && (oo_id oo =? order_id))
        (ma_perp_oos a);
  oo ← ma_perp_oos a !! i;
  Some (i, oo).

Definition add_perp_order (a : MangoAccount) (perp_market_index : Z) (side : Side)
    (order_tree : BookSideOrderTree) (order : LeafNode) : outcome MangoAccount :=
  '(i, p) ← perp_position a perp_market_index;
  p ← Perp.adjust_maker_lots p side (quantity order);
  let a := set_perp a i p in
  let slot := Z.to_nat (owner_slot order) in
  _ ← unwrap (ma_perp_oos a !! slot);
  Done (set_perp_order a slot
          (mkPerpOpenOrder (SideAndTree.new side order_tree) perp_market_index
             (leaf_client_order_id order) (leaf_key order) (quantity order))).

Definition remove_perp_order (a : MangoAccount) (slot : nat) (quantity : Z) : outcome MangoAccount :=
  oo ← perp_order_by_raw_index a slot;
  _ ← require (negb (oo_market oo =? FREE_ORDER_SLOT)) ERequireNeq;
  let perp_market_index := oo_market oo in
  let order_side := SideAndTree.side (oo_side_and_tree oo) in
  '(i, p) ← perp_position a perp_market_index;
  n ← i64 (- quantity);
  p ← Perp.adjust_maker_lots p order_side n;
  let a := set_perp a i p in
  Done (set_perp_order a slot (OpenOrder.clear oo)).

Section events.
Context `{FixedOps}.

(** The open order slot of a fill or out event is cleared or reduced only if it still
    holds the order of the event. *)
Definition slot_matches (oo : PerpOpenOrder) (perp_market_index order_id : Z) : bool :=
  OpenOrder.is_active_for_market oo perp_market_index && ((order_id =? 0) || (oo_id oo =? order_id)).

(** [now_ts] is the clock's [unix_timestamp]. *)
Definition execute_perp_maker (a : MangoAccount) (now_ts perp_market_index : Z) (m : PerpMarket)
    (fill : FillEvent) (buyback_fees_expiry_interval : Z) : outcome (MangoAccount * PerpMarket * Z) :=
  let side := invert_side (fill_taker_side fill) in
  '(base_change, quote_change) ← base_quote_change fill side;
  ql ← fx_from_int (pm_quote_lot_size m);
  qc ← fx_from_int quote_change;
  quote ← fx_mul ql qc;
  qa ← fx_abs quote;
  mf ← fx_from_f32 (fill_maker_fee fill);
  fees ← fx_mul qa mf;
  a ← (if 0 <? fees then
         f ← Fixed.expire_buyback_fees (ma_fixed a) now_ts buyback_fees_expiry_interval;
         n ← fx_floor fees; n ← fx_to_u64 n;
         Done (set_ma_fixed a (Fixed.accrue_buyback_fees f n))
       else Done a);
  '(i, pa) ← perp_position a perp_market_index;
  pa ← Perp.settle_funding pa m;
  pa ← Perp.record_trading_fee pa fees;
  '(pa, m, realized_pnl) ← Perp.record_trade pa m base_change quote;
  qa ← fx_abs quote; v ← fx_to_u64 qa;
  mv ← u64 (pp_maker_volume pa + v);
  let pa := set_pp_maker_volume pa mv in
  quantity_filled ← i64 (Z.abs base_change);
  let maker_slot := Z.to_nat (fill_maker_slot fill) in
  n ← i64 (- quantity_filled);
  pa ← Perp.adjust_maker_lots pa side n;
  let a := set_perp a i pa in
  oo ← unwrap (ma_perp_oos a !! maker_slot);
  oo ← (if slot_matches oo perp_market_index (fill_maker_order_id fill) then
          r ← i64 (oo_quantity oo - quantity_filled);
          let oo := OpenOrder.set_quantity oo (Z.max r 0) in
          Done (if fill_maker_out fill then OpenOrder.clear oo else oo)
        else Done oo);
  Done (set_perp_order a maker_slot oo, m, realized_pnl).

Definition execute_perp_taker (a : MangoAccount) (perp_market_index : Z) (m : PerpMarket)
    (fill : FillEvent) : outcome (MangoAccount * PerpMarket * Z) :=
  '(i, pa) ← perp_position a perp_market_index;
  pa ← Perp.settle_funding pa m;
  '(base_change, quote_change) ← base_quote_change fill (fill_taker_side fill);
  pa ← Perp.remove_taker_trade pa base_change quote_change;
  ql ← fx_from_int (pm_quote_lot_size m);
  qc ← fx_from_int quote_change;
  quote_change_native ← fx_mul ql qc;
  '(pa, m, realized_pnl) ← Perp.record_trade pa m base_change quote_change_native;
  qa ← fx_abs quote_change_native; v ← fx_to_u64 qa;
  tv ← u64 (pp_taker_volume pa + v);
  let pa := set_pp_taker_volume pa tv in
  Done (set_perp a i pa, m, realized_pnl).

Definition execute_perp_out_event (a : MangoAccount) (perp_market_index : Z) (side : Side)
    (slot : nat) (quantity order_id : Z) : outcome MangoAccount :=
  '(i, pa) ← perp_position a perp_market_index;
  n ← i64 (- quantity);
  pa ← Perp.adjust_maker_lots pa side n;
  let a := set_perp a i pa in
  oo ← unwrap (ma_perp_oos a !! slot);
  let oo := if slot_matches oo perp_market_index order_id then OpenOrder.clear oo else oo in
  Done (set_perp_order a slot oo).

(** ** Health checks *)

Context {C : Type} `{HealthSource C}.

Definition check_health_pre_checks (a : MangoAccount) (health_cache : C) (pre_init_health : Z) :
    outcome MangoAccount :=
  let '(f, _) := Fixed.maybe_recover_from_being_liquidated (ma_fixed a) pre_init_health in
  f ← (if Fixed.being_liquidated f then
         liq_end_health ← health_of health_cache LiquidationEnd;
         Done (fst (Fixed.maybe_recover_from_being_liquidated f liq_end_health))
       else Done f);
  _ ← require (negb (Fixed.being_liquidated f)) (EMango BeingLiquidated);
  Done (set_ma_fixed a f).

Definition check_health_pre (a : MangoAccount) (health_cache : C) : outcome (MangoAccount * Z) :=
  pre_init_health ← health_of health_cache Init;
  a ← check_health_pre_checks a health_cache pre_init_health;
  Done (a, pre_init_health).

Definition check_health_post_checks (pre_init_health post_init_health : Z) : outcome unit :=
  health_does_not_decrease ←
    (if post_init_health <? fx_int (-1000) then
       x ← fx_ceil post_init_health; y ← fx_ceil pre_init_health; Done (y <=? x)
     else Done (pre_init_health <=? post_init_health));
  require ((0 <=? post_init_health) || health_does_not_decrease) (EMango HealthMustBePositiveOrIncrease).

Definition check_health_post (health_cache : C) (pre_init_health : Z) : outcome Z :=
  post_init_health ← health_of health_cache Init;
  _ ← check_health_post_checks pre_init_health post_init_health;
  Done post_init_health.

Definition check_health_post_checks_strict (post_init_health : Z) : outcome unit :=
  require (0 <=? post_init_health) (EMango HealthMustBePositive).

Inductive CheckLiquidatable := NotLiquidatable | Liquidatable | BecameNotLiquidatable.

Definition check_liquidatable (a : MangoAccount) (health_cache : C) :
    outcome (MangoAccount * CheckLiquidatable) :=
  if Fixed.being_liquidated (ma_fixed a) then
    liq_end_health ← health_of health_cache LiquidationEnd;
    let '(f, recovered) := Fixed.maybe_recover_from_being_liquidated (ma_fixed a) liq_end_health in
    Done (if recovered then (set_ma_fixed a f, BecameNotLiquidatable) else (a, Liquidatable))
  else
    maint_health ← health_of health_cache Maint;
    Done (if 0 <=? maint_health then (a, NotLiquidatable)
          else (set_ma_fixed a (Fixed.set_being_liquidated (ma_fixed a) true), Liquidatable)).

End events.

End Account.
