(* ===== verification/HealthCache.v ===== *)
(** * The health cache

    health/cache.rs: what account health is and how it is computed. A [HealthCache] holds
    one [TokenInfo] per token, one [Serum3Info] per spot market with open orders and one
    [PerpInfo] per perp market of the account; all kinds of health are sums over it. It
    is built from an account and the accounts of the banks, markets and oracles, which
    are read through the interface [AccountRetriever] (health/account_retriever.rs), and
    can be adjusted when the account changes.

    Prices, weights and balances are [I80F48] bits. Indexing a vector out of range panics. *)

From stdpp Require Import base numbers option list.
From Stdlib Require Import ZArith Lia SpecFloat.
From S2P Require Import Prelude FixedPoint HealthType TokenPosition Nodes Oracle StablePrice Bank Serum3 PerpMarket PerpPosition MangoAccount.

Open Scope Z_scope.

(** ** Data *)

Record Prices := mkPrices { pr_oracle : Z; pr_stable : Z }.

Definition new_single_price (price : Z) : Prices := mkPrices price price.

Module Price.

Definition liab (p : Prices) (health_type : HealthType) : Z :=
  match health_type with
  | Maint | LiquidationEnd => pr_oracle p
  | Init => Z.max (pr_oracle p) (pr_stable p)
  end.

Definition asset (p : Prices) (health_type : HealthType) : Z :=
  match health_type with
  | Maint | LiquidationEnd => pr_oracle p
  | Init => Z.min (pr_oracle p) (pr_stable p)
  end.

End Price.

Record TokenInfo := mkTokenInfo {
  ti_token_index : Z;
  ti_maint_asset_weight : Z;
  ti_init_asset_weight : Z;
  ti_init_scaled_asset_weight : Z;
  ti_maint_liab_weight : Z;
  ti_init_liab_weight : Z;
  ti_init_scaled_liab_weight : Z;
  ti_prices : Prices;
  ti_balance_spot : Z;
  ti_allow_asset_liquidation : bool
}.

#[export] Instance eta_TokenInfo : Eta TokenInfo := fun t =>
  mkTokenInfo
    (ti_token_index t) (ti_maint_asset_weight t) (ti_init_asset_weight t)
    (ti_init_scaled_asset_weight t) (ti_maint_liab_weight t) (ti_init_liab_weight t)
    (ti_init_scaled_liab_weight t) (ti_prices t) (ti_balance_spot t)
    (ti_allow_asset_liquidation t).

(** [TokenBalance] and [TokenMaxReserved] have one field each and are that number. *)

Record Serum3Info := mkSerum3Info {
  si_reserved_base : Z;
  si_reserved_quote : Z;
  si_reserved_base_as_quote_lowest_ask : Z;
  si_reserved_quote_as_base_highest_bid : Z;
  si_base_info_index : nat;
  si_quote_info_index : nat;
  si_market_index : Z;
  si_has_zero_funds : bool
}.

Record Serum3Reserved := mkSerum3Reserved {
  sr_all_reserved_as_base : Z;
  sr_all_reserved_as_quote : Z
}.

Record PerpInfo := mkPerpInfo {
  pi_perp_market_index : Z;
  pi_settle_token_index : Z;
  pi_maint_base_asset_weight : Z;
  pi_init_base_asset_weight : Z;
  pi_maint_base_liab_weight : Z;
  pi_init_base_liab_weight : Z;
  pi_maint_overall_asset_weight : Z;
  pi_init_overall_asset_weight : Z;
  pi_base_lot_size : Z;
  pi_base_lots : Z;
  pi_bids_base_lots : Z;
  pi_asks_base_lots : Z;
  pi_quote : Z;
  pi_base_prices : Prices;
  pi_has_open_orders : bool;
  pi_has_open_fills : bool
}.

#[export] Instance eta_PerpInfo : Eta PerpInfo := fun p =>
  mkPerpInfo
    (pi_perp_market_index p) (pi_settle_token_index p) (pi_maint_base_asset_weight p)
    (pi_init_base_asset_weight p) (pi_maint_base_liab_weight p) (pi_init_base_liab_weight p)
    (pi_maint_overall_asset_weight p) (pi_init_overall_asset_weight p) (pi_base_lot_size p)
    (pi_base_lots p) (pi_bids_base_lots p) (pi_asks_base_lots p) (pi_quote p) (pi_base_prices p)
    (pi_has_open_orders p) (pi_has_open_fills p).

Record HealthCache := mkHealthCache {
  hc_token_infos : list TokenInfo;
  hc_serum3_infos : list Serum3Info;
  hc_perp_infos : list PerpInfo;
  hc_being_liquidated : bool
}.

#[export] Instance eta_HealthCache : Eta HealthCache := fun c =>
  mkHealthCache (hc_token_infos c) (hc_serum3_infos c) (hc_perp_infos c) (hc_being_liquidated c).

Section health.
Context `{FixedOps}.

(** ** Amounts until health zero *)

Definition spot_amount_taken_for_health_zero (health starting_spot asset_weighted_price
    liab_weighted_price : Z) : outcome Z :=
  if health <=? 0 then Done 0
  else
    let borrow taken_spot health :=
      if 0 <? health then
        _ ← require (0 <? liab_weighted_price) ERequireGt;
        q ← fx_div health liab_weighted_price;
        fx_add taken_spot q
      else Done taken_spot in
    let spend_all :=
      a ← fx_mul starting_spot asset_weighted_price;
      health ← fx_sub health a;
      borrow starting_spot health in
    if 0 <? starting_spot then
      if 0 <? asset_weighted_price then
        asset_max ← fx_div health asset_weighted_price;
        if asset_max <=? starting_spot then Done asset_max else spend_all
      else spend_all
    else borrow 0 health.

Definition spot_amount_given_for_health_zero (health starting_spot asset_weighted_price
    liab_weighted_price : Z) : outcome Z :=
  h ← fx_neg health;
  s ← fx_neg starting_spot;
  spot_amount_taken_for_health_zero h s liab_weighted_price asset_weighted_price.

(** ** Tokens *)

Definition asset_weight (t : TokenInfo) (health_type : HealthType) : Z :=
  match health_type with
  | Init => ti_init_scaled_asset_weight t
  | LiquidationEnd => ti_init_asset_weight t
  | Maint => ti_maint_asset_weight t
  end.

Definition liab_weight (t : TokenInfo) (health_type : HealthType) : Z :=
  match health_type with
  | Init => ti_init_scaled_liab_weight t
  | LiquidationEnd => ti_init_liab_weight t
  | Maint => ti_maint_liab_weight t
  end.

Definition asset_weighted_price (t : TokenInfo) (health_type : HealthType) : outcome Z :=
  fx_mul (asset_weight t health_type) (Price.asset (ti_prices t) health_type).

Definition liab_weighted_price (t : TokenInfo) (health_type : HealthType) : outcome Z :=
  fx_mul (liab_weight t health_type) (Price.liab (ti_prices t) health_type).

(** [TokenInfo::health_contribution]. *)
Definition token_health_contribution (t : TokenInfo) (health_type : HealthType) (balance : Z) : outcome Z :=
  weighted_price ← (if balance <? 0 then liab_weighted_price t health_type
                    else asset_weighted_price t health_type);
  fx_mul balance weighted_price.

(** ** Spot open orders *)

Definition serum3_info_new (s : Serum3Orders) (oo : OpenOrdersSlim) (base_info_index quote_info_index : nat) :
    outcome Serum3Info :=
  rb ← native_base_reserved oo; reserved_base ← fx_from_int rb;
  rq ← native_quote_reserved oo; reserved_quote ← fx_from_int rq;
  ask ← fx_from_f64 (s3_lowest_placed_ask s);
  as_quote ← fx_mul reserved_base ask;
  bid ← fx_from_f64 (s3_highest_placed_bid_inv s);
  as_base ← fx_mul reserved_quote bid;
  Done (mkSerum3Info reserved_base reserved_quote as_quote as_base base_info_index quote_info_index
          (s3_market_index s)
          ((oos_native_coin_total oo =? 0) && (oos_native_pc_total oo =? 0) &&
           (oos_referrer_rebates_accrued oo =? 0))).

Definition all_reserved_as_base (i : Serum3Info) (health_type : HealthType) (quote_info base_info : TokenInfo) :
    outcome Z :=
  let quote_asset := Price.asset (ti_prices quote_info) health_type in
  let base_liab := Price.liab (ti_prices base_info) health_type in
  q ← fx_mul (si_reserved_quote i) quote_asset;
  reserved_quote_as_base_oracle ← unwrap (LowPrecisionDivision.checked_div_f64_precision q base_liab);
  if negb (si_reserved_quote_as_base_highest_bid i =? 0) then
    fx_add (si_reserved_base i) (Z.min reserved_quote_as_base_oracle (si_reserved_quote_as_base_highest_bid i))
  else fx_add (si_reserved_base i) reserved_quote_as_base_oracle.

Definition all_reserved_as_quote (i : Serum3Info) (health_type : HealthType) (quote_info base_info : TokenInfo) :
    outcome Z :=
  let base_asset := Price.asset (ti_prices base_info) health_type in
  let quote_liab := Price.liab (ti_prices quote_info) health_type in
  b ← fx_mul (si_reserved_base i) base_asset;
  reserved_base_as_quote_oracle ← unwrap (LowPrecisionDivision.checked_div_f64_precision b quote_liab);
  if negb (si_reserved_base_as_quote_lowest_ask i =? 0) then
    fx_add (si_reserved_quote i) (Z.min reserved_base_as_quote_oracle (si_reserved_base_as_quote_lowest_ask i))
  else fx_add (si_reserved_quote i) reserved_base_as_quote_oracle.

(** The closure [compute_health_effect] of [Serum3Info::health_contribution]. *)
Definition compute_health_effect (health_type : HealthType) (t : TokenInfo) (balance max_reserved
    market_reserved : Z) : outcome Z :=
  max_balance ← fx_add balance max_reserved;
  '(asset_part, liab_part) ←
    (if market_reserved <=? max_balance then Done (market_reserved, 0)
     else if max_balance <? 0 then Done (0, market_reserved)
     else l ← fx_sub market_reserved max_balance; Done (max_balance, l));
  a ← fx_mul asset_part (asset_weight t health_type);
  a ← fx_mul a (Price.asset (ti_prices t) health_type);
  l ← fx_mul liab_part (liab_weight t health_type);
  l ← fx_mul l (Price.liab (ti_prices t) health_type);
  fx_add a l.

(** [Serum3Info::health_contribution]. *)
Definition serum3_health_contribution (i : Serum3Info) (health_type : HealthType) (token_infos : list TokenInfo)
    (token_balances token_max_reserved : list Z) (market_reserved : Serum3Reserved) : outcome Z :=
  if (sr_all_reserved_as_base market_reserved =? 0) || (sr_all_reserved_as_quote market_reserved =? 0)
  then Done 0
  else
    base_info ← unwrap (token_infos !! si_base_info_index i);
    quote_info ← unwrap (token_infos !! si_quote_info_index i);
    bb ← unwrap (token_balances !! si_base_info_index i);
    bm ← unwrap (token_max_reserved !! si_base_info_index i);
    health_base ← compute_health_effect health_type base_info bb bm (sr_all_reserved_as_base market_reserved);
    qb ← unwrap (token_balances !! si_quote_info_index i);
    qm ← unwrap (token_max_reserved !! si_quote_info_index i);
    health_quote ← compute_health_effect health_type quote_info qb qm (sr_all_reserved_as_quote market_reserved);
    Done (Z.min health_base health_quote).

(** ** Perps *)

Definition perp_info_new (p : PerpPosition) (m : PerpMarket) (base_prices : Prices) : outcome PerpInfo :=
  base_lots ← i64 (pp_base_position_lots p + pp_taker_base_lots p);
  unsettled_funding ← Perp.unsettled_funding p m;
  tq ← i64 (pp_taker_quote_lots p * pm_quote_lot_size m);
  taker_quote ← fx_from_int tq;
  q ← fx_sub (pp_quote_position_native p) unsettled_funding;
  quote_current ← fx_add q taker_quote;
  Done {|
    pi_perp_market_index := pm_perp_market_index m;
    pi_settle_token_index := pm_settle_token_index m;
    pi_maint_base_asset_weight := pm_maint_base_asset_weight m;
    pi_init_base_asset_weight := pm_init_base_asset_weight m;
    pi_maint_base_liab_weight := pm_maint_base_liab_weight m;
    pi_init_base_liab_weight := pm_init_base_liab_weight m;
    pi_maint_overall_asset_weight := pm_maint_overall_asset_weight m;
    pi_init_overall_asset_weight := pm_init_overall_asset_weight m;
    pi_base_lot_size := pm_base_lot_size m;
    pi_base_lots := base_lots;
    pi_bids_base_lots := pp_bids_base_lots p;
    pi_asks_base_lots := pp_asks_base_lots p;
    pi_quote := quote_current;
    pi_base_prices := base_prices;
    pi_has_open_orders := Perp.has_open_orders p;
    pi_has_open_fills := Perp.has_open_taker_fills p
  |}.

(** The base weight and price of the closure [order_execution_case]. *)
Definition base_weight (p : PerpInfo) (health_type : HealthType) (negative : bool) : Z :=
  match health_type, negative with
  | Init, true | LiquidationEnd, true => pi_init_base_liab_weight p
  | Init, false | LiquidationEnd, false => pi_init_base_asset_weight p
  | Maint, true => pi_maint_base_liab_weight p
  | Maint, false => pi_maint_base_asset_weight p
  end.

Definition base_price (p : PerpInfo) (health_type : HealthType) (negative : bool) : Z :=
  if negative then Price.liab (pi_base_prices p) health_type
  else Price.asset (pi_base_prices p) health_type.

(** The closure [order_execution_case] of [unweighted_health_unsettled_pnl]. *)
Definition order_execution_case (p : PerpInfo) (health_type : HealthType) (orders_base_lots order_price : Z) :
    outcome Z :=
  n ← i64 (pi_base_lots p + orders_base_lots);
  n ← i64 (n * pi_base_lot_size p);
  net_base_native ← fx_from_int n;
  let negative := net_base_native <? 0 in
  b ← fx_mul net_base_native (base_weight p health_type negative);
  base_health ← fx_mul b (base_price p health_type negative);
  o ← i64 (orders_base_lots * pi_base_lot_size p);
  orders_base_native ← fx_from_int o;
  o ← fx_neg orders_base_native;
  order_quote ← fx_mul o order_price;
  fx_add base_health order_quote.

Definition unweighted_health_unsettled_pnl (p : PerpInfo) (health_type : HealthType) : outcome Z :=
  bids_case ← order_execution_case p health_type (pi_bids_base_lots p)
                (Price.liab (pi_base_prices p) health_type);
  a ← i64 (- pi_asks_base_lots p);
  asks_case ← order_execution_case p health_type a (Price.asset (pi_base_prices p) health_type);
  fx_add (pi_quote p) (Z.min bids_case asks_case).

Definition overall_weight (p : PerpInfo) (health_type : HealthType) : Z :=
  match health_type with
  | Init | LiquidationEnd => pi_init_overall_asset_weight p
  | Maint => pi_maint_overall_asset_weight p
  end.

Definition weigh_uhupnl_overall (p : PerpInfo) (unweighted : Z) (health_type : HealthType) : outcome Z :=
  if 0 <? unweighted then fx_mul (overall_weight p health_type) unweighted else Done unweighted.

Definition health_unsettled_pnl (p : PerpInfo) (health_type : HealthType) : outcome Z :=
  contribution ← unweighted_health_unsettled_pnl p health_type;
  weigh_uhupnl_overall p contribution health_type.

(** ** The sum *)

Definition find_token_info_index (infos : list TokenInfo) (token_index : Z) : outcome nat :=
  ok_or (position (fun t => ti_token_index t =? token_index) infos) (EMango TokenPositionDoesNotExist).

Definition token_info_index (c : HealthCache) (token_index : Z) : outcome nat :=
  find_token_info_index (hc_token_infos c) token_index.

(** [token_balances[i].spot_and_perp += v], and the same for [token_max_reserved]. *)
Definition add_at (l : list Z) (i : nat) (v : Z) : outcome (list Z) :=
  x ← unwrap (l !! i);
  y ← fx_add x v;
  Done (<[i := y]> l).

Definition option_list {A} (o : option A) : list A := match o with Some a => [a] | None => [] end.

Definition effective_token_balances_internal (c : HealthCache) (health_type : HealthType)
    (ignore_negative_perp : bool) : outcome (list Z) :=
  token_balances ←
    foldM (fun token_balances perp_info =>
             settle_token_index ← Perp.unwrap_result (token_info_index c (pi_settle_token_index perp_info));
             health_unsettled ← health_unsettled_pnl perp_info health_type;
             if negb ignore_negative_perp || (0 <? health_unsettled) then
               add_at token_balances settle_token_index health_unsettled
             else Done token_balances)
      (replicate (length (hc_token_infos c)) 0) (hc_perp_infos c);
  mapM (fun '(t, b) => fx_add b (ti_balance_spot t)) (zip (hc_token_infos c) token_balances).

Definition effective_token_balances (c : HealthCache) (health_type : HealthType) : outcome (list Z) :=
  effective_token_balances_internal c health_type false.

(** One market of [compute_serum3_reservations]. *)
Definition serum3_reservation (c : HealthCache) (health_type : HealthType) (info : Serum3Info) :
    outcome Serum3Reserved :=
  quote_info ← unwrap (hc_token_infos c !! si_quote_info_index info);
  base_info ← unwrap (hc_token_infos c !! si_base_info_index info);
  b ← all_reserved_as_base info health_type quote_info base_info;
  q ← all_reserved_as_quote info health_type quote_info base_info;
  Done (mkSerum3Reserved b q).

Definition compute_serum3_reservations (c : HealthCache) (health_type : HealthType) :
    outcome (list Z * list Serum3Reserved) :=
  foldM (fun '(token_max_reserved, serum3_reserved) info =>
           r ← serum3_reservation c health_type info;
           m ← add_at token_max_reserved (si_base_info_index info) (sr_all_reserved_as_base r);
           m ← add_at m (si_quote_info_index info) (sr_all_reserved_as_quote r);
           Done (m, serum3_reserved ++ [r]))
    (replicate (length (hc_token_infos c)) 0, []) (hc_serum3_infos c).

(** [health_sum] calls [action] for each contribution; here it returns them. *)
Definition health_contributions (c : HealthCache) (health_type : HealthType) (token_balances : list Z) :
    outcome (list Z) :=
  tokens ← mapM (fun '(t, b) => token_health_contribution t health_type b)
             (zip (hc_token_infos c) token_balances);
  '(token_max_reserved, serum3_reserved) ← compute_serum3_reservations c health_type;
  serums ← mapM (fun '(i, r) =>
                   serum3_health_contribution i health_type (hc_token_infos c) token_balances
                     token_max_reserved r)
             (zip (hc_serum3_infos c) serum3_reserved);
  Done (tokens ++ serums).

Definition health_sum (c : HealthCache) (health_type : HealthType) (token_balances : list Z) : outcome Z :=
  contribs ← health_contributions c health_type token_balances;
  foldM fx_add 0 contribs.

Definition health (c : HealthCache) (health_type : HealthType) : outcome Z :=
  token_balances ← effective_token_balances c health_type;
  health_sum c health_type token_balances.

(** ** Assets and liabilities *)

(** The closure [add] of [health_assets_and_liabs]. *)
Definition add_value (totals : Z * Z) (value : Z) : outcome (Z * Z) :=
  let '(assets, liabs) := totals in
  if 0 <? value then a ← fx_add assets value; Done (a, liabs)
  else n ← fx_neg value; l ← fx_add liabs n; Done (assets, l).

(** The balances of one token: its spot balance and the perp markets that settle in it,
    assets and liabilities apart. *)
Definition token_asset_liab_balances (c : HealthCache) (health_type : HealthType) (t : TokenInfo) :
    outcome (Z * Z) :=
  balances ← add_value (0, 0) (ti_balance_spot t);
  foldM (fun balances perp_info =>
           if negb (pi_settle_token_index perp_info =? ti_token_index t) then Done balances
           else u ← health_unsettled_pnl perp_info health_type; add_value balances u)
    balances (hc_perp_infos c).

(** What one token adds to the totals. *)
Definition token_assets_and_liabs (health_type : HealthType) (stable_assets : bool) (t : TokenInfo)
    (asset_balance liab_balance : Z) : outcome (Z * Z) :=
  if stable_assets then
    asset_weighted_price ← asset_weighted_price t health_type;
    assets ← fx_mul asset_balance asset_weighted_price;
    if liab_balance <=? asset_balance then
      l ← fx_mul liab_balance asset_weighted_price; Done (assets, l)
    else
      liab_weighted_price ← liab_weighted_price t health_type;
      d ← fx_sub liab_balance asset_balance;
      l ← fx_mul d liab_weighted_price;
      l ← fx_add assets l;
      Done (assets, l)
  else
    liab_weighted_price ← liab_weighted_price t health_type;
    liabs ← fx_mul liab_balance liab_weighted_price;
    if liab_balance <=? asset_balance then
      asset_weighted_price ← asset_weighted_price t health_type;
      d ← fx_sub asset_balance liab_balance;
      a ← fx_mul d asset_weighted_price;
      a ← fx_add liabs a;
      Done (a, liabs)
    else a ← fx_mul asset_balance liab_weighted_price; Done (a, liabs).

Definition health_assets_and_liabs (c : HealthCache) (health_type : HealthType) (stable_assets : bool) :
    outcome (Z * Z) :=
  totals ←
    foldM (fun '(total_assets, total_liabs) t =>
             '(asset_balance, liab_balance) ← token_asset_liab_balances c health_type t;
             '(a, l) ← token_assets_and_liabs health_type stable_assets t asset_balance liab_balance;
             ta ← fx_add total_assets a;
             tl ← fx_add total_liabs l;
             Done (ta, tl))
      (0, 0) (hc_token_infos c);
  token_balances ← effective_token_balances c health_type;
  '(token_max_reserved, serum3_reserved) ← compute_serum3_reservations c health_type;
  foldM (fun totals '(i, r) =>
           contrib ← serum3_health_contribution i health_type (hc_token_infos c) token_balances
                       token_max_reserved r;
           add_value totals contrib)
    totals (zip (hc_serum3_infos c) serum3_reserved).

Definition health_assets_and_liabs_stable_assets (c : HealthCache) (health_type : HealthType) :=
  health_assets_and_liabs c health_type true.

Definition health_assets_and_liabs_stable_liabs (c : HealthCache) (health_type : HealthType) :=
  health_assets_and_liabs c health_type false.

Definition health_ratio (c : HealthCache) (health_type : HealthType) : outcome Z :=
  '(assets, liabs) ← health_assets_and_liabs_stable_liabs c health_type;
  if 0 <? liabs then
    d ← fx_sub assets liabs;
    n ← fx_mul (fx_int 100) d;
    fx_saturating_div n liabs
  else Done I128_MAX.

(** [liabs -= value] if the value is negative, [assets += value] otherwise. *)
Definition add_marked (totals : Z * Z) (negative : bool) (value : Z) : outcome (Z * Z) :=
  let '(assets, liabs) := totals in
  if negative then l ← fx_sub liabs value; Done (assets, l)
  else a ← fx_add assets value; Done (a, liabs).

(** The settle token's price is read at [settle_token_index] of the vector, as the code does. *)
Definition assets_and_liabs (c : HealthCache) : outcome (Z * Z) :=
  totals ← foldM (fun totals t =>
      v ← fx_mul (ti_balance_spot t) (pr_oracle (ti_prices t));
      add_marked totals (ti_balance_spot t <? 0) v) (0, 0) (hc_token_infos c);
  totals ← foldM (fun totals s =>
      quote ← unwrap (hc_token_infos c !! si_quote_info_index s);
      base ← unwrap (hc_token_infos c !! si_base_info_index s);
      vb ← fx_mul (si_reserved_base s) (pr_oracle (ti_prices base));
      totals ← add_marked totals false vb;
      vq ← fx_mul (si_reserved_quote s) (pr_oracle (ti_prices quote));
      add_marked totals false vq) totals (hc_serum3_infos c);
  foldM (fun totals p =>
      settle ← unwrap (hc_token_infos c !! Z.to_nat (pi_settle_token_index p));
      let quote_price := pr_oracle (ti_prices settle) in
      quote_position_value ← fx_mul (pi_quote p) quote_price;
      totals ← add_marked totals (pi_quote p <? 0) quote_position_value;
      b ← i64 (pi_base_lots p * pi_base_lot_size p);
      b ← fx_from_int b;
      b ← fx_mul b (pr_oracle (pi_base_prices p));
      base_position_value ← fx_mul b quote_price;
      add_marked totals (base_position_value <? 0) base_position_value) totals (hc_perp_infos c).

Definition leverage (c : HealthCache) : outcome Z :=
  '(assets, liabs) ← assets_and_liabs c;
  equity ← fx_sub assets liabs;
  m ← fx_from_f64 (f64_div f64_one (f64_of_Z 1000));
  fx_div liabs (Z.max equity m).

(** ** Adjustments *)

Definition has_token_info (c : HealthCache) (token_index : Z) : bool :=
  existsb (fun t => ti_token_index t =? token_index) (hc_token_infos c).

Definition token_info (c : HealthCache) (token_index : Z) : outcome TokenInfo :=
  i ← token_info_index c token_index;
  unwrap (hc_token_infos c !! i).

Definition perp_info_index (c : HealthCache) (perp_market_index : Z) : outcome nat :=
  ok_or (position (fun p => pi_perp_market_index p =? perp_market_index) (hc_perp_infos c))
    (EMango PerpPositionDoesNotExist).

Definition perp_info (c : HealthCache) (perp_market_index : Z) : outcome PerpInfo :=
  i ← perp_info_index c perp_market_index;
  unwrap (hc_perp_infos c !! i).

Definition set_token_info (c : HealthCache) (i : nat) (t : TokenInfo) : HealthCache :=
  c <| hc_token_infos := <[i := t]> (hc_token_infos c) |>.

Definition adjust_token_balance (c : HealthCache) (bank : Bank) (change : Z) : outcome HealthCache :=
  entry_index ← token_info_index c (bk_token_index bank);
  entry ← unwrap (hc_token_infos c !! entry_index);
  aw ← scaled_init_asset_weight bank (Price.asset (ti_prices entry) Init);
  lw ← scaled_init_liab_weight bank (Price.liab (ti_prices entry) Init);
  removed_contribution ← fx_neg change;
  b ← fx_sub (ti_balance_spot entry) removed_contribution;
  Done (set_token_info c entry_index
          (((entry <| ti_init_scaled_asset_weight := aw |>) <| ti_init_scaled_liab_weight := lw |>)
             <| ti_balance_spot := b |>)).

Definition add_balance_spot (c : HealthCache) (i : nat) (change : Z) : outcome HealthCache :=
  entry ← unwrap (hc_token_infos c !! i);
  b ← fx_add (ti_balance_spot entry) change;
  Done (set_token_info c i (entry <| ti_balance_spot := b |>)).

Definition recompute_serum3_info (c : HealthCache) (serum_account : Serum3Orders) (open_orders : OpenOrdersSlim)
    (free_base_change free_quote_change : Z) : outcome HealthCache :=
  i ← ok_or (position (fun m => si_market_index m =? s3_market_index serum_account) (hc_serum3_infos c)) error_msg;
  serum_info ← unwrap (hc_serum3_infos c !! i);
  c ← add_balance_spot c (si_base_info_index serum_info) free_base_change;
  c ← add_balance_spot c (si_quote_info_index serum_info) free_quote_change;
  n ← serum3_info_new serum_account open_orders (si_base_info_index serum_info) (si_quote_info_index serum_info);
  Done (c <| hc_serum3_infos := <[i := n]> (hc_serum3_infos c) |>).

Definition recompute_perp_info (c : HealthCache) (perp_position : PerpPosition) (perp_market : PerpMarket) :
    outcome HealthCache :=
  i ← ok_or (position (fun m => pi_perp_market_index m =? pm_perp_market_index perp_market) (hc_perp_infos c))
        error_msg;
  perp_entry ← unwrap (hc_perp_infos c !! i);
  n ← perp_info_new perp_position perp_market (pi_base_prices perp_entry);
  Done (c <| hc_perp_infos := <[i := n]> (hc_perp_infos c) |>).

(** ** Liquidation phases *)

Definition liq_spot_asset '((t, b) : TokenInfo * Z) : bool :=
  (fx_one <=? ti_balance_spot t) && (fx_one <=? b) && ti_allow_asset_liquidation t.

Definition liq_spot_borrow '((t, b) : TokenInfo * Z) : bool := (ti_balance_spot t <? 0) && (b <? 0).

Definition has_liq_spot_assets (c : HealthCache) : outcome bool :=
  b ← effective_token_balances c LiquidationEnd;
  Done (existsb liq_spot_asset (zip (hc_token_infos c) b)).

Definition has_liq_spot_borrows (c : HealthCache) : outcome bool :=
  b ← effective_token_balances c LiquidationEnd;
  Done (existsb liq_spot_borrow (zip (hc_token_infos c) b)).

Definition has_possible_spot_liquidations (c : HealthCache) : outcome bool :=
  b ← effective_token_balances c LiquidationEnd;
  Done (existsb liq_spot_borrow (zip (hc_token_infos c) b) && existsb liq_spot_asset (zip (hc_token_infos c) b)).

Definition has_serum3_open_orders_funds (c : HealthCache) : bool :=
  existsb (fun i => negb (si_has_zero_funds i)) (hc_serum3_infos c).

Definition has_perp_open_orders (c : HealthCache) : bool := existsb pi_has_open_orders (hc_perp_infos c).

Definition has_perp_base_positions (c : HealthCache) : bool :=
  existsb (fun p => negb (pi_base_lots p =? 0)) (hc_perp_infos c).

Definition has_perp_open_fills (c : HealthCache) : bool := existsb pi_has_open_fills (hc_perp_infos c).

Definition has_perp_positive_pnl_no_base (c : HealthCache) : bool :=
  existsb (fun p => (pi_base_lots p =? 0) && (0 <? pi_quote p)) (hc_perp_infos c).

Definition has_perp_negative_pnl_no_base (c : HealthCache) : bool :=
  existsb (fun p => (pi_base_lots p =? 0) && (pi_quote p <? 0)) (hc_perp_infos c).

Definition has_phase1_liquidatable (c : HealthCache) : bool :=
  has_serum3_open_orders_funds c || has_perp_open_orders c.

Definition require_after_phase1_liquidation (c : HealthCache) : outcome unit :=
  _ ← require (negb (has_serum3_open_orders_funds c)) (EMango HasOpenOrUnsettledSerum3Orders);
  require (negb (has_perp_open_orders c)) (EMango HasOpenPerpOrders).

Definition in_phase1_liquidation (c : HealthCache) : bool := has_phase1_liquidatable c.

Definition has_phase2_liquidatable (c : HealthCache) : outcome bool :=
  s ← has_possible_spot_liquidations c;
  Done (s || has_perp_base_positions c || has_perp_open_fills c || has_perp_positive_pnl_no_base c).

Definition require_after_phase2_liquidation (c : HealthCache) : outcome unit :=
  _ ← require_after_phase1_liquidation c;
  s ← has_possible_spot_liquidations c;
  _ ← require (negb s) (EMango HasLiquidatableTokenPosition);
  _ ← require (negb (has_perp_base_positions c)) (EMango HasLiquidatablePerpBasePosition);
  _ ← require (negb (has_perp_open_fills c)) (EMango HasOpenPerpTakerFills);
  require (negb (has_perp_positive_pnl_no_base c)) (EMango HasLiquidatablePositivePerpPnl).

Definition in_phase2_liquidation (c : HealthCache) : outcome bool :=
  if has_phase1_liquidatable c then Done false else has_phase2_liquidatable c.

Definition has_phase3_liquidatable (c : HealthCache) : outcome bool :=
  b ← has_liq_spot_borrows c;
  Done (b || has_perp_negative_pnl_no_base c).

Definition in_phase3_liquidation (c : HealthCache) : outcome bool :=
  if has_phase1_liquidatable c then Done false
  else
    p2 ← has_phase2_liquidatable c;
    if (p2 : bool) then Done false else has_phase3_liquidatable c.

(** ** Limits *)

Definition perp_max_settle (c : HealthCache) (settle_token_index : Z) : outcome Z :=
  token_balances ← effective_token_balances_internal c Maint true;
  perp_settle_health ← health_sum c Maint token_balances;
  i ← token_info_index c settle_token_index;
  token ← unwrap (hc_token_infos c !! i);
  balance ← unwrap (token_balances !! i);
  a ← asset_weighted_price token Maint;
  l ← liab_weighted_price token Maint;
  spot_amount_taken_for_health_zero perp_settle_health balance a l.

Definition total_serum3_potential (c : HealthCache) (health_type : HealthType) (token_index : Z) : outcome Z :=
  target ← token_info_index c token_index;
  foldM (fun total info =>
           if (si_quote_info_index info =? target)%nat then
             q ← unwrap (hc_token_infos c !! si_quote_info_index info);
             b ← unwrap (hc_token_infos c !! si_base_info_index info);
             v ← all_reserved_as_quote info health_type q b;
             fx_add total v
           else if (si_base_info_index info =? target)%nat then
             q ← unwrap (hc_token_infos c !! si_quote_info_index info);
             b ← unwrap (hc_token_infos c !! si_base_info_index info);
             v ← all_reserved_as_base info health_type q b;
             fx_add total v
           else Done total)
    0 (hc_serum3_infos c).

(** ** Construction *)

(** The trait [AccountRetriever]: how the accounts a health computation needs are found. *)
Class AccountRetriever (R : Type) := {
  available_banks : R -> outcome (list Z);
  bank_and_oracle : R -> Pubkey -> nat -> Z -> outcome (Bank * Z);
  serum_oo : R -> nat -> Pubkey -> outcome OpenOrdersSlim;
  perp_market_and_oracle_price : R -> Pubkey -> nat -> Z -> outcome (PerpMarket * Z)
}.

(** [Result::is_oracle_error]. *)
Definition failed_on_oracle {A} (r : outcome A) : bool :=
  match r with
  | Fail e => is_oracle_error (@Err A e)
  | _ => false
  end.

Context {R : Type} `{AccountRetriever R}.

Definition token_info_new (bank : Bank) (oracle_price : Z) (t : TokenPosition) (now_ts : Z) : outcome TokenInfo :=
  n ← native t bank;
  sp ← bank_stable_price bank;
  let prices := mkPrices oracle_price sp in
  let liab_price := Price.liab prices Init in
  '(maint_asset_weight, maint_liab_weight) ← maint_weights bank now_ts;
  aw ← scaled_init_asset_weight bank liab_price;
  lw ← scaled_init_liab_weight bank liab_price;
  Done {|
    ti_token_index := bk_token_index bank;
    ti_maint_asset_weight := maint_asset_weight;
    ti_init_asset_weight := bk_init_asset_weight bank;
    ti_init_scaled_asset_weight := aw;
    ti_maint_liab_weight := maint_liab_weight;
    ti_init_liab_weight := bk_init_liab_weight bank;
    ti_init_scaled_liab_weight := lw;
    ti_prices := prices;
    ti_balance_spot := n;
    ti_allow_asset_liquidation := BankCfg.allows_asset_liquidation bank
  |}.

(** One round of the loop over token positions: a new info, or none if it is skipped. *)
Definition token_info_for (retriever : R) (group : Pubkey) (now_ts : Z) (available : option (list Z))
    (i : nat) (t : TokenPosition) : outcome (option TokenInfo) :=
  let read :=
    let r := bank_and_oracle retriever group i (tp_token_index t) in
    if bool_decide (is_Some available) && failed_on_oracle r && (0 <=? tp_indexed_position t) then Done None
    else
      '(bank, oracle_price) ← r;
      info ← token_info_new bank oracle_price t now_ts;
      Done (Some info) in
  match available with
  | Some banks =>
      if negb (existsb (Z.eqb (tp_token_index t)) banks) then
        _ ← require (0 <=? tp_indexed_position t) (EMango InvalidBank);
        Done None
      else read
  | None => read
  end.

Definition add_token (retriever : R) (group : Pubkey) (now_ts : Z) (available : option (list Z))
    '((infos, i) : list TokenInfo * nat) (t : TokenPosition) : outcome (list TokenInfo * nat) :=
  o ← token_info_for retriever group now_ts available i t;
  Done (infos ++ option_list o, S i).

(** One round of the loop over spot open orders. *)
Definition add_serum3 (retriever : R) (allow_skipping_banks : bool)
    '((c, i) : HealthCache * nat) (s : Serum3Orders) : outcome (HealthCache * nat) :=
  oo ← serum_oo retriever i (s3_open_orders s);
  match find_token_info_index (hc_token_infos c) (s3_base_token_index s),
        find_token_info_index (hc_token_infos c) (s3_quote_token_index s) with
  | Done base_info_index, Done quote_info_index =>
      base_free ← fx_from_int (oos_native_coin_free oo);
      quote_free ← fx_from_int (oos_native_pc_free oo);
      c ← add_balance_spot c base_info_index base_free;
      c ← add_balance_spot c quote_info_index quote_free;
      info ← serum3_info_new s oo base_info_index quote_info_index;
      Done (c <| hc_serum3_infos := hc_serum3_infos c ++ [info] |>, S i)
  | _, _ =>
      _ ← require allow_skipping_banks (EMango InvalidBank);
      Done (c, S i)
  end.

(** One round of the loop over perp positions. *)
Definition add_perp (retriever : R) (group : Pubkey) (allow_skipping_banks : bool)
    '((c, i) : HealthCache * nat) (p : PerpPosition) : outcome (HealthCache * nat) :=
  '(perp_market, oracle_price) ← perp_market_and_oracle_price retriever group i (pp_market_index p);
  _ ← (if allow_skipping_banks then
         _ ← find_token_info_index (hc_token_infos c) (pm_settle_token_index perp_market); Done tt
       else Done tt);
  sp ← stable_price perp_market;
  info ← perp_info_new p perp_market (mkPrices oracle_price sp);
  Done (c <| hc_perp_infos := hc_perp_infos c ++ [info] |>, S i).

Definition new_health_cache_impl (account : MangoAccount) (retriever : R) (now_ts : Z)
    (allow_skipping_banks : bool) : outcome HealthCache :=
  let group := af_group (ma_fixed account) in
  available ← (if allow_skipping_banks then l ← available_banks retriever; Done (Some l) else Done None);
  '(token_infos, _) ←
    foldM (add_token retriever group now_ts available) ([], 0%nat) (Account.active_token_positions account);
  let c := mkHealthCache token_infos [] [] (Fixed.being_liquidated (ma_fixed account)) in
  '(c, _) ← foldM (add_serum3 retriever allow_skipping_banks) (c, 0%nat) (Account.active_serum3_orders account);
  '(c, _) ← foldM (add_perp retriever group allow_skipping_banks) (c, 0%nat) (Account.active_perp_positions account);
  Done c.

Definition new_health_cache (account : MangoAccount) (retriever : R) (now_ts : Z) : outcome HealthCache :=
  new_health_cache_impl account retriever now_ts false.

Definition new_health_cache_skipping_missing_banks_and_bad_oracles (account : MangoAccount) (retriever : R)
    (now_ts : Z) : outcome HealthCache :=
  new_health_cache_impl account retriever now_ts true.

Definition compute_health (account : MangoAccount) (health_type : HealthType) (retriever : R) (now_ts : Z) :
    outcome Z :=
  c ← new_health_cache account retriever now_ts;
  health c health_type.

End health.

(** The cache is what the account's checks use. *)
#[export] Instance health_cache_source `{FixedOps} : HealthSource HealthCache := health.
