(* ===== verification/HealthSpec.v ===== *)
(** * Properties of health

    What the kinds of health promise (health/cache.rs): their order, how health relates to
    the assets and liabilities of the same cache, how much can be taken before health
    reaches zero, what skipping banks does, and the phases of a liquidation. *)

From stdpp Require Import base numbers option list.
From Stdlib Require Import ZArith Lia SpecFloat.
From S2P Require Import Prelude FixedPoint HealthType TokenPosition Nodes Oracle StablePrice Bank Serum3 PerpMarket PerpPosition MangoAccount HealthCache.

Open Scope Z_scope.

(** ** Monotonicity of rounded products *)

#[local] Hint Resolve scale_pos : core.

Lemma floor_mono a b : a <= b -> a / fx_scale <= b / fx_scale.
Proof. intros. apply Z.div_le_mono; done. Qed.

Lemma floor_nonneg a : 0 <= a -> 0 <= a / fx_scale.
Proof. intros. by apply Z.div_pos. Qed.

Lemma floor_nonpos a : a <= 0 -> a / fx_scale <= 0.
Proof. intros. pose proof (floor_mono a 0 ltac:(lia)). done. Qed.

#[local] Hint Resolve floor_nonneg floor_nonpos : mango.

(** A balance weighed by one price if negative and another one if not: it grows with the
    balance, with the asset price, and against the liability price. *)
Definition weigh (asset liab b : Z) : Z := b * (if b <? 0 then liab else asset) / fx_scale.

Lemma weigh_mono a1 l1 a2 l2 b1 b2 :
  b1 <= b2 -> 0 <= a1 <= a2 -> 0 <= l2 <= l1 -> weigh a1 l1 b1 <= weigh a2 l2 b2.
Proof.
  intros Hb Ha Hl. apply floor_mono. destruct (Z.ltb_spec b1 0), (Z.ltb_spec b2 0); nia.
Qed.

Lemma weigh_nonneg a l b : 0 <= b -> 0 <= a -> 0 <= weigh a l b.
Proof. intros Hb Ha. unfold weigh. rewrite (proj2 (Z.ltb_ge _ _)) by lia. apply floor_nonneg. nia. Qed.

Section spec.
Context `{FixedLaws}.

(** ** Order of the kinds of health *)

(** [t1] is at most as favourable a kind as [t2]: init, then liquidation end, then maint. *)
Definition le_type (t1 t2 : HealthType) : Prop :=
  match t1, t2 with
  | Init, _ | LiquidationEnd, LiquidationEnd | LiquidationEnd, Maint | Maint, Maint => True
  | _, _ => False
  end.

(** Prices are not negative. *)
Definition prices_ok (p : Prices) : Prop := 0 <= pr_oracle p /\ 0 <= pr_stable p.

(** Asset weights grow from init to maint, liability weights shrink. *)
Record token_info_ok (t : TokenInfo) : Prop := {
  tio_prices : prices_ok (ti_prices t);
  tio_asset : 0 <= ti_init_scaled_asset_weight t <= ti_init_asset_weight t;
  tio_asset_maint : ti_init_asset_weight t <= ti_maint_asset_weight t;
  tio_liab : 0 <= ti_maint_liab_weight t <= ti_init_liab_weight t;
  tio_liab_scaled : ti_init_liab_weight t <= ti_init_scaled_liab_weight t
}.

Record perp_info_ok (p : PerpInfo) : Prop := {
  pio_prices : prices_ok (pi_base_prices p);
  pio_asset : 0 <= pi_init_base_asset_weight p <= pi_maint_base_asset_weight p;
  pio_liab : 0 <= pi_maint_base_liab_weight p <= pi_init_base_liab_weight p;
  pio_overall : 0 <= pi_init_overall_asset_weight p <= pi_maint_overall_asset_weight p;
  pio_lot_size : 0 <= pi_base_lot_size p;
  pio_bids : 0 <= pi_bids_base_lots p;
  pio_asks : 0 <= pi_asks_base_lots p
}.

Record cache_ok (c : HealthCache) : Prop := {
  co_tokens : Forall token_info_ok (hc_token_infos c);
  co_perps : Forall perp_info_ok (hc_perp_infos c)
}.

Lemma asset_price_mono p t1 t2 :
  prices_ok p -> le_type t1 t2 -> 0 <= Price.asset p t1 <= Price.asset p t2.
Proof. intros [Ho Hs] Ht. destruct t1, t2; simpl in *; (done || lia). Qed.

Lemma liab_price_mono p t1 t2 :
  prices_ok p -> le_type t1 t2 -> 0 <= Price.liab p t2 <= Price.liab p t1.
Proof. intros [Ho Hs] Ht. destruct t1, t2; simpl in *; (done || lia). Qed.

Lemma asset_weight_mono t t1 t2 :
  token_info_ok t -> le_type t1 t2 -> 0 <= asset_weight t t1 <= asset_weight t t2.
Proof. intros [] Ht. destruct t1, t2; simpl in *; (done || lia). Qed.

Lemma liab_weight_mono t t1 t2 :
  token_info_ok t -> le_type t1 t2 -> 0 <= liab_weight t t2 <= liab_weight t t1.
Proof. intros [] Ht. destruct t1, t2; simpl in *; (done || lia). Qed.

Lemma le_type_refl t : le_type t t.
Proof. by destruct t. Qed.

#[local] Hint Resolve le_type_refl : mango.

(** The weighted prices of a token, when they do not overflow. *)
Definition asset_wp (t : TokenInfo) (ty : HealthType) : Z :=
  asset_weight t ty * Price.asset (ti_prices t) ty / fx_scale.
Definition liab_wp (t : TokenInfo) (ty : HealthType) : Z :=
  liab_weight t ty * Price.liab (ti_prices t) ty / fx_scale.

Lemma asset_wp_mono t t1 t2 :
  token_info_ok t -> le_type t1 t2 -> 0 <= asset_wp t t1 <= asset_wp t t2.
Proof.
  intros Hok Ht. pose proof (asset_weight_mono t t1 t2 Hok Ht).
  pose proof (asset_price_mono _ t1 t2 (tio_prices _ Hok) Ht). unfold asset_wp.
  split; [apply floor_nonneg|apply floor_mono]; nia.
Qed.

Lemma liab_wp_mono t t1 t2 :
  token_info_ok t -> le_type t1 t2 -> 0 <= liab_wp t t2 <= liab_wp t t1.
Proof.
  intros Hok Ht. pose proof (liab_weight_mono t t1 t2 Hok Ht).
  pose proof (liab_price_mono _ t1 t2 (tio_prices _ Hok) Ht). unfold liab_wp.
  split; [apply floor_nonneg|apply floor_mono]; nia.
Qed.

Lemma token_health_contribution_inv t ty b v :
  token_health_contribution t ty b = Done v -> v = weigh (asset_wp t ty) (liab_wp t ty) b.
Proof.
  unfold token_health_contribution, asset_weighted_price, liab_weighted_price, weigh.
  destruct (b <? 0); intros E; fx_inv; done.
Qed.

(** *** Perps *)

Lemma order_execution_case_mono p t1 t2 o1 pr1 pr2 v1 v2 :
  perp_info_ok p -> le_type t1 t2 ->
  (0 <= o1 /\ pr2 <= pr1 \/ o1 <= 0 /\ pr1 <= pr2) ->
  order_execution_case p t1 o1 pr1 = Done v1 -> order_execution_case p t2 o1 pr2 = Done v2 -> v1 <= v2.
Proof.
  intros Hok Ht Ho E1 E2. destruct Hok as [Hp Ha Hl Hw Hs Hb Hk].
  pose proof (asset_price_mono _ t1 t2 Hp Ht). pose proof (liab_price_mono _ t1 t2 Hp Ht).
  unfold order_execution_case in E1, E2. fx_inv.
  set (n := fx_int ((pi_base_lots p + o1) * pi_base_lot_size p)) in *.
  apply Z.add_le_mono.
  - unfold base_price. destruct (Z.ltb_spec n 0) as [Hneg|Hneg].
    + assert (Hw2 : 0 <= base_weight p t2 true <= base_weight p t1 true)
        by (destruct t1, t2; simpl in *; (done || lia)).
      pose proof (floor_mono (n * base_weight p t1 true) (n * base_weight p t2 true) ltac:(nia)).
      pose proof (floor_nonpos (n * base_weight p t2 true) ltac:(nia)). apply floor_mono. nia.
    + assert (Hw2 : 0 <= base_weight p t1 false <= base_weight p t2 false)
        by (destruct t1, t2; simpl in *; (done || lia)).
      pose proof (floor_mono (n * base_weight p t1 false) (n * base_weight p t2 false) ltac:(nia)).
      pose proof (floor_nonneg (n * base_weight p t1 false) ltac:(nia)). apply floor_mono. nia.
  - apply floor_mono. unfold fx_int. assert (0 < fx_scale) by done.
    assert (forall x, - (o1 * x * fx_scale) = - o1 * (x * fx_scale)) as Hr by (intros; lia).
    rewrite !Hr. assert (0 <= pi_base_lot_size p * fx_scale) by nia.
    set (k := pi_base_lot_size p * fx_scale) in *.
    destruct Ho as [[? ?]|[? ?]].
    + assert (0 <= o1 * k) by (by apply Z.mul_nonneg_nonneg). nia.
    + assert (0 <= - o1 * k) by (apply Z.mul_nonneg_nonneg; lia). nia.
Qed.

Lemma health_unsettled_pnl_mono p t1 t2 v1 v2 :
  perp_info_ok p -> le_type t1 t2 ->
  health_unsettled_pnl p t1 = Done v1 -> health_unsettled_pnl p t2 = Done v2 -> v1 <= v2.
Proof.
  intros Hok Ht E1 E2. unfold health_unsettled_pnl, unweighted_health_unsettled_pnl in E1, E2.
  apply bind_Done_inv in E1 as (u1 & E1 & W1). apply bind_Done_inv in E2 as (u2 & E2 & W2).
  apply bind_Done_inv in E1 as (b1 & B1 & E1). apply bind_Done_inv in E2 as (b2 & B2 & E2).
  apply bind_Done_inv in E1 as (a1 & A1 & E1). apply bind_Done_inv in E2 as (a2 & A2 & E2).
  apply bind_Done_inv in E1 as (k1 & K1 & E1). apply bind_Done_inv in E2 as (k2 & K2 & E2).
  apply i64_inv in A1 as [-> _]. apply i64_inv in A2 as [-> _].
  apply fx_add_inv in E1. apply fx_add_inv in E2.
  pose proof (asset_price_mono _ t1 t2 (pio_prices _ Hok) Ht).
  pose proof (liab_price_mono _ t1 t2 (pio_prices _ Hok) Ht).
  pose proof (pio_bids _ Hok). pose proof (pio_asks _ Hok).
  assert (b1 <= b2) by (eapply order_execution_case_mono; [done|done| |apply B1|apply B2]; lia).
  assert (k1 <= k2) by (eapply order_execution_case_mono; [done|done| |apply K1|apply K2]; lia).
  assert (Hu : u1 <= u2) by lia. unfold weigh_uhupnl_overall in W1, W2.
  assert (Hw : 0 <= overall_weight p t1 <= overall_weight p t2)
    by (destruct Hok; destruct t1, t2; simpl in *; (done || lia)).
  destruct (Z.ltb_spec 0 u1), (Z.ltb_spec 0 u2); try lia; fx_inv.
  - apply floor_mono. nia.
  - eapply Z.le_trans; [|apply floor_nonneg]; nia.
  - done.
Qed.

(** *** Sums over a cache without spot open orders *)

(** Runs of a loop over the same list for two kinds of health stay in step. *)
Lemma foldM_rel {A B} (P : A -> A -> Prop) (f g : A -> B -> outcome A) l a b a' b' :
  foldM f a l = Done a' -> foldM g b l = Done b' -> P a b ->
  (forall a b x a1 b1, x ∈ l -> P a b -> f a x = Done a1 -> g b x = Done b1 -> P a1 b1) -> P a' b'.
Proof.
  revert a b. induction l as [|x l IH]; intros a b E1 E2 Hp Hs; simpl in *; [by injection E1 as <-; injection E2 as <-|].
  apply bind_Done_inv in E1 as (a1 & F1 & E1). apply bind_Done_inv in E2 as (b1 & F2 & E2).
  apply (IH a1 b1 E1 E2).
  - eapply Hs; [left|done..].
  - intros. eapply Hs; [by right|done..].
Qed.

Lemma foldM_ext {A B} (f g : A -> B -> outcome A) a l :
  (forall a x, f a x = g a x) -> foldM f a l = foldM g a l.
Proof.
  intros Hf. revert a. induction l as [|x l IH]; intros a; [done|]. simpl. rewrite Hf.
  destruct (g a x); [apply IH|done..].
Qed.

Lemma mapM_rel {A B} (P : B -> B -> Prop) (f g : A -> outcome B) (l1 l2 : list A) k1 k2 :
  mapM f l1 = Done k1 -> mapM g l2 = Done k2 -> length l1 = length l2 ->
  (forall i x y v w, l1 !! i = Some x -> l2 !! i = Some y -> f x = Done v -> g y = Done w -> P v w) ->
  Forall2 P k1 k2.
Proof.
  revert l2 k1 k2. induction l1 as [|x l1 IH]; intros [|y l2] k1 k2 E1 E2 Hl Hs; try discriminate.
  - injection E1 as <-. injection E2 as <-. constructor.
  - simpl in E1, E2. apply bind_Done_inv in E1 as (v & F1 & E1). apply bind_Done_inv in E2 as (w & F2 & E2).
    apply bind_Done_inv in E1 as (r1 & G1 & E1). apply bind_Done_inv in E2 as (r2 & G2 & E2).
    injection E1 as <-. injection E2 as <-. constructor.
    + by eapply (Hs 0%nat).
    + eapply IH; [done|done|simpl in Hl; lia|]. intros i. by apply (Hs (S i)).
Qed.

Lemma mapM_length_outcome {A B} (f : A -> outcome B) l k : mapM f l = Done k -> length k = length l.
Proof.
  revert k. induction l as [|x l IH]; intros k E; simpl in E; [by injection E as <-|].
  apply bind_Done_inv in E as (v & _ & E). apply bind_Done_inv in E as (r & G & E). injection E as <-.
  simpl. by rewrite (IH r).
Qed.

(** Sums of fixed-point numbers that do not overflow. *)
Lemma foldM_fx_add l a v : foldM fx_add a l = Done v -> v = a + foldr Z.add 0 l.
Proof.
  revert a. induction l as [|x l IH]; intros a E; simpl in *; [injection E as <-; lia|].
  apply bind_Done_inv in E as (b & F & E). apply fx_add_inv in F as ->. apply IH in E. lia.
Qed.

Lemma add_at_inv l i v l' : add_at l i v = Done l' -> exists x, l !! i = Some x /\ l' = <[i := x + v]> l.
Proof.
  unfold add_at. intros E. apply bind_Done_inv in E as (x & F & E). apply bind_Done_inv in E as (y & G & E).
  apply fx_add_inv in G as ->. injection E as <-. destruct (l !! i) eqn:El; [|discriminate].
  injection F as ->. eauto.
Qed.

Lemma add_at_length l i v l' : add_at l i v = Done l' -> length l' = length l.
Proof. intros E. apply add_at_inv in E as (x & _ & ->). apply length_insert. Qed.

Lemma Forall2_add_at (R : Z -> Z -> Prop) l1 l2 i v1 v2 k1 k2 :
  (forall x y, R x y -> R (x + v1) (y + v2)) ->
  Forall2 R l1 l2 -> add_at l1 i v1 = Done k1 -> add_at l2 i v2 = Done k2 -> Forall2 R k1 k2.
Proof.
  intros Hr Hl E1 E2. apply add_at_inv in E1 as (x & L1 & ->). apply add_at_inv in E2 as (y & L2 & ->).
  apply Forall2_insert; [done|]. apply Hr. by eapply Forall2_lookup_lr.
Qed.

Lemma effective_token_balances_mono c t1 t2 b1 b2 :
  cache_ok c -> le_type t1 t2 ->
  effective_token_balances c t1 = Done b1 -> effective_token_balances c t2 = Done b2 -> Forall2 Z.le b1 b2.
Proof.
  intros Hc Ht E1 E2. unfold effective_token_balances, effective_token_balances_internal in E1, E2.
  apply bind_Done_inv in E1 as (p1 & F1 & E1). apply bind_Done_inv in E2 as (p2 & F2 & E2).
  assert (Hp : Forall2 Z.le p1 p2).
  { eapply (foldM_rel (Forall2 Z.le)); [exact F1|exact F2|apply Forall_Forall2_diag, Forall_true; lia|].
    intros a b p a1 b1' Hp Hab G1 G2.
    apply bind_Done_inv in G1 as (i & I1 & G1). apply bind_Done_inv in G1 as (u & U1 & G1).
    apply bind_Done_inv in G2 as (i' & I2 & G2). apply bind_Done_inv in G2 as (u' & U2 & G2).
    rewrite I1 in I2. injection I2 as <-.
    assert (u <= u') by (eapply health_unsettled_pnl_mono; [|exact Ht|exact U1|exact U2];
                         by apply (proj1 (Forall_forall _ _) (co_perps _ Hc))).
    eapply (Forall2_add_at Z.le); [|exact Hab|exact G1|exact G2]. lia. }
  eapply (mapM_rel Z.le); [exact E1|exact E2| |].
  - rewrite !length_zip_with. by rewrite (Forall2_length _ _ _ Hp).
  - intros i [t x] [t' y] v w L1 L2 G1 G2.
    apply lookup_zip_Some in L1 as [L1 X]. apply lookup_zip_Some in L2 as [L2 Y].
    assert (t = t') as <- by congruence. apply fx_add_inv in G1. apply fx_add_inv in G2.
    assert (x <= y) by (by eapply Forall2_lookup_lr). lia.
Qed.

Lemma health_contributions_tokens c ty b ks :
  hc_serum3_infos c = [] -> health_contributions c ty b = Done ks ->
  mapM (fun '(t, x) => token_health_contribution t ty x) (zip (hc_token_infos c) b) = Done ks.
Proof.
  intros Hs E. unfold health_contributions, compute_serum3_reservations in E. rewrite Hs in E.
  apply bind_Done_inv in E as (ts & F & E). run_in E. simpl in E. injection E as <-.
  by rewrite app_nil_r.
Qed.

Lemma sum_le l1 l2 : Forall2 Z.le l1 l2 -> foldr Z.add 0 l1 <= foldr Z.add 0 l2.
Proof. induction 1; simpl; lia. Qed.

Lemma health_mono c t1 t2 h1 h2 :
  cache_ok c -> hc_serum3_infos c = [] -> le_type t1 t2 ->
  health c t1 = Done h1 -> health c t2 = Done h2 -> h1 <= h2.
Proof.
  intros Hc Hs Ht E1 E2. unfold health, health_sum in E1, E2.
  apply bind_Done_inv in E1 as (b1 & B1 & E1). apply bind_Done_inv in E2 as (b2 & B2 & E2).
  apply bind_Done_inv in E1 as (k1 & K1 & E1). apply bind_Done_inv in E2 as (k2 & K2 & E2).
  apply foldM_fx_add in E1. apply foldM_fx_add in E2.
  pose proof (effective_token_balances_mono c t1 t2 b1 b2 Hc Ht B1 B2) as Hb.
  apply (health_contributions_tokens _ _ _ _ Hs) in K1. apply (health_contributions_tokens _ _ _ _ Hs) in K2.
  assert (Hk : Forall2 Z.le k1 k2).
  { eapply (mapM_rel Z.le); [exact K1|exact K2| |].
    - rewrite !length_zip_with. by rewrite (Forall2_length _ _ _ Hb).
    - intros i [t x] [t' y] v w L1 L2 G1 G2.
      apply lookup_zip_Some in L1 as [L1 X]. apply lookup_zip_Some in L2 as [L2 Y].
      assert (t = t') as <- by congruence.
      assert (Hok : token_info_ok t) by (eapply Forall_lookup_1; [apply (co_tokens _ Hc)|exact L1]).
      apply token_health_contribution_inv in G1 as ->. apply token_health_contribution_inv in G2 as ->.
      apply weigh_mono; [by eapply Forall2_lookup_lr|by apply asset_wp_mono|by apply liab_wp_mono]. }
  apply sum_le in Hk. lia.
Qed.

(** The documented order of the kinds of health: in a cache without spot open orders
    whose weights and prices are in order, the init health is at most the liquidation-end
    health, which is at most the maint health. The rounding of the fixed-point products
    does not disturb it. *)
Theorem health_ordered c hi hl hm :
  cache_ok c -> hc_serum3_infos c = [] ->
  health c Init = Done hi -> health c LiquidationEnd = Done hl -> health c Maint = Done hm ->
  hi <= hl <= hm.
Proof.
  intros Hc Hs Ei El Em. split.
  - by apply (health_mono c Init LiquidationEnd).
  - by apply (health_mono c LiquidationEnd Maint).
Qed.

(** ** Assets and liabilities *)

Lemma floor_sub x y : 0 <= x / fx_scale - y / fx_scale - (x - y) / fx_scale <= 1.
Proof.
  pose proof (Z.div_mod x fx_scale). pose proof (Z.mod_pos_bound x fx_scale).
  pose proof (Z.div_mod y fx_scale). pose proof (Z.mod_pos_bound y fx_scale).
  pose proof (Z.div_mod (x - y) fx_scale). pose proof (Z.mod_pos_bound (x - y) fx_scale).
  pose proof scale_pos. nia.
Qed.

(** Splitting a token's balance into assets and liabilities loses at most one bit against
    its contribution to health, whichever side is held stable. *)
Lemma token_assets_and_liabs_inv ty stable t A L a l :
  token_assets_and_liabs ty stable t A L = Done (a, l) ->
  0 <= a - l - weigh (asset_wp t ty) (liab_wp t ty) (A - L) <= 1.
Proof.
  unfold token_assets_and_liabs, asset_weighted_price, liab_weighted_price, weigh.
  pose proof (floor_sub (A * asset_wp t ty) (L * asset_wp t ty)) as Ha.
  pose proof (floor_sub (A * liab_wp t ty) (L * liab_wp t ty)) as Hl.
  pose proof (floor_sub 0 ((L - A) * liab_wp t ty)) as Hn.
  rewrite <- Z.mul_sub_distr_r in Ha, Hl.
  replace (0 - (L - A) * liab_wp t ty) with ((A - L) * liab_wp t ty) in Hn by ring.
  change (0 / fx_scale) with 0 in Hn.
  intros E. destruct stable.
  - destruct (Z.leb_spec L A); fx_inv;
      [rewrite (proj2 (Z.ltb_ge _ _)) by lia|rewrite (proj2 (Z.ltb_lt _ _)) by lia];
      fold (asset_wp t ty) (liab_wp t ty); lia.
  - destruct (Z.leb_spec L A); fx_inv;
      [rewrite (proj2 (Z.ltb_ge _ _)) by lia|rewrite (proj2 (Z.ltb_lt _ _)) by lia];
      fold (asset_wp t ty) (liab_wp t ty); lia.
Qed.

(** The pnl of the perp markets that settle in a token. *)
Definition perp_upnl (ty : HealthType) (p : PerpInfo) : Z :=
  match health_unsettled_pnl p ty with Done v => v | _ => 0 end.

Definition perp_total (ty : HealthType) (token_index : Z) (ps : list PerpInfo) : Z :=
  foldr (fun p s => if pi_settle_token_index p =? token_index then perp_upnl ty p + s else s) 0 ps.

Definition diff (totals : Z * Z) : Z := fst totals - snd totals.

Lemma add_value_inv tot v tot' : add_value tot v = Done tot' -> diff tot' = diff tot + v.
Proof.
  destruct tot as [a l]. unfold add_value, diff. destruct (Z.ltb_spec 0 v); intros E; fx_inv; simpl; lia.
Qed.

Lemma token_asset_liab_balances_inv c ty t bs :
  token_asset_liab_balances c ty t = Done bs ->
  diff bs = ti_balance_spot t + perp_total ty (ti_token_index t) (hc_perp_infos c).
Proof.
  unfold token_asset_liab_balances. intros E. apply bind_Done_inv in E as (b0 & E0 & E).
  apply add_value_inv in E0. change (diff (0, 0)) with 0 in E0.
  assert (Hg : forall ps b0, foldM (fun balances perp_info =>
           if negb (pi_settle_token_index perp_info =? ti_token_index t) then Done balances
           else u ← health_unsettled_pnl perp_info ty; add_value balances u) b0 ps = Done bs ->
         diff bs = diff b0 + perp_total ty (ti_token_index t) ps).
  { clear E E0 b0. induction ps as [|p ps IH]; intros b0 E; simpl in E; [injection E as <-; simpl; lia|].
    apply bind_Done_inv in E as (b1 & E1 & E). apply IH in E. simpl. rewrite E. clear E.
    destruct (pi_settle_token_index p =? ti_token_index t); simpl in E1; [|by injection E1 as ->].
    apply bind_Done_inv in E1 as (u & U & E1). apply add_value_inv in E1. unfold perp_upnl. rewrite U. lia. }
  apply Hg in E. lia.
Qed.

(** The info of a token is found at its own index when token indexes are distinct. *)
Lemma token_info_index_inv c token_index i :
  Perp.unwrap_result (token_info_index c token_index) = Done i ->
  exists t, hc_token_infos c !! i = Some t /\ ti_token_index t = token_index.
Proof.
  unfold token_info_index, find_token_info_index. destruct (position _ _) eqn:E; [|done].
  intros [= <-]. apply position_lookup in E as (t & L & F). apply Z.eqb_eq in F. eauto.
Qed.

Lemma token_index_inj infos i j t t' :
  NoDup (ti_token_index <$> infos) -> infos !! i = Some t -> infos !! j = Some t' ->
  ti_token_index t = ti_token_index t' -> i = j.
Proof.
  intros Hn Li Lj E. eapply NoDup_lookup; [done| |]; rewrite list_lookup_fmap.
  - by rewrite Li.
  - rewrite Lj. simpl. by f_equal.
Qed.

Lemma perp_fold_balances c ty ign ps acc acc' i t x :
  NoDup (ti_token_index <$> hc_token_infos c) ->
  foldM (fun token_balances perp_info =>
             settle_token_index ← Perp.unwrap_result (token_info_index c (pi_settle_token_index perp_info));
             health_unsettled ← health_unsettled_pnl perp_info ty;
             if negb ign || (0 <? health_unsettled) then
               add_at token_balances settle_token_index health_unsettled
             else Done token_balances) acc ps = Done acc' ->
  ign = false -> hc_token_infos c !! i = Some t -> acc !! i = Some x ->
  acc' !! i = Some (x + perp_total ty (ti_token_index t) ps).
Proof.
  intros Hn E -> Lt. revert acc x E. induction ps as [|p ps IH]; intros acc x E Lx; simpl in E.
  - injection E as <-. rewrite Lx. f_equal. simpl. lia.
  - apply bind_Done_inv in E as (a1 & E1 & E). simpl.
    apply bind_Done_inv in E1 as (j & J & E1). apply bind_Done_inv in E1 as (u & U & E1).
    apply token_info_index_inv in J as (t' & Lt' & Et'). apply add_at_inv in E1 as (y & Ly & ->).
    unfold perp_upnl. rewrite U. destruct (Z.eqb_spec (pi_settle_token_index p) (ti_token_index t)) as [Eq|Ne].
    + assert (j = i) as -> by (eapply token_index_inj; [done|exact Lt'|exact Lt|congruence]).
      rewrite (IH _ (x + u) E); [f_equal; lia|]. rewrite list_lookup_insert_eq; [f_equal; congruence|].
      by eapply lookup_lt_Some.
    + assert (j <> i) by (intros ->; congruence). apply (IH _ x E). by rewrite list_lookup_insert_ne.
Qed.

Lemma mapM_lookup {A B} (f : A -> outcome B) l k i x :
  mapM f l = Done k -> l !! i = Some x -> exists y, k !! i = Some y /\ f x = Done y.
Proof.
  revert k i. induction l as [|z l IH]; intros k i E L; [done|]. simpl in E.
  apply bind_Done_inv in E as (v & F & E). apply bind_Done_inv in E as (r & G & E). injection E as <-.
  destruct i as [|i]; simpl in L; [injection L as ->; by exists v|]. by apply (IH r i).
Qed.

Lemma foldM_length {A B} (f : list A -> B -> outcome (list A)) l a a' :
  (forall a x b, f a x = Done b -> length b = length a) -> foldM f a l = Done a' -> length a' = length a.
Proof.
  intros Hf E. apply (foldM_ind (fun b => length b = length a) f l a a' E eq_refl).
  intros b x b' _ Hb Eb. rewrite <- Hb. by eapply Hf.
Qed.

(** The effective balance of a token: its spot balance and the perps that settle in it. *)
Lemma effective_token_balances_lookup c ty bs i t :
  NoDup (ti_token_index <$> hc_token_infos c) -> effective_token_balances c ty = Done bs ->
  hc_token_infos c !! i = Some t ->
  bs !! i = Some (ti_balance_spot t + perp_total ty (ti_token_index t) (hc_perp_infos c)).
Proof.
  intros Hn E L. unfold effective_token_balances, effective_token_balances_internal in E.
  apply bind_Done_inv in E as (ps & P & E).
  assert (L0 : replicate (length (hc_token_infos c)) 0 !! i = Some 0)
    by (apply lookup_replicate_2; by eapply lookup_lt_Some).
  pose proof (perp_fold_balances c ty false _ _ _ i t 0 Hn P eq_refl L L0) as Lp.
  destruct (mapM_lookup _ _ _ i (t, 0 + perp_total ty (ti_token_index t) (hc_perp_infos c)) E) as (y & Ly & Ey).
  - by apply lookup_zip_Some.
  - apply fx_add_inv in Ey as ->. rewrite Ly. f_equal. lia.
Qed.

Lemma effective_token_balances_length c ty ign bs :
  effective_token_balances_internal c ty ign = Done bs -> length bs = length (hc_token_infos c).
Proof.
  unfold effective_token_balances_internal. intros E. apply bind_Done_inv in E as (ps & P & E).
  apply mapM_length_outcome in E. rewrite E, length_zip_with.
  apply foldM_length in P; [rewrite P, length_replicate; lia|].
  intros a x b G. apply bind_Done_inv in G as (j & _ & G). apply bind_Done_inv in G as (u & _ & G).
  destruct (_ || _); [by eapply add_at_length|by injection G as ->].
Qed.

Lemma token_fold_diff c ty stable infos bs ks tot tot' :
  foldM (fun '(total_assets, total_liabs) t =>
             '(asset_balance, liab_balance) ← token_asset_liab_balances c ty t;
             '(a, l) ← token_assets_and_liabs ty stable t asset_balance liab_balance;
             ta ← fx_add total_assets a;
             tl ← fx_add total_liabs l;
             Done (ta, tl)) tot infos = Done tot' ->
  mapM (fun '(t, x) => token_health_contribution t ty x) (zip infos bs) = Done ks ->
  length bs = length infos ->
  (forall i t, infos !! i = Some t ->
     bs !! i = Some (ti_balance_spot t + perp_total ty (ti_token_index t) (hc_perp_infos c))) ->
  0 <= diff tot' - diff tot - foldr Z.add 0 ks <= Z.of_nat (length infos).
Proof.
  revert bs ks tot. induction infos as [|t infos IH]; intros bs ks [ta tl] E K Hl Hb; simpl in E.
  { destruct bs; [|done]. injection K as <-. injection E as <-. simpl. lia. }
  destruct bs as [|x bs]; [done|]. simpl in K.
  apply bind_Done_inv in E as (tot1 & E1 & E).
  apply bind_Done_inv in K as (k & K1 & K). apply bind_Done_inv in K as (ks' & K & Kd). injection Kd as <-.
  specialize (IH bs ks' tot1 E K ltac:(simpl in Hl; lia) (fun i => Hb (S i))).
  apply bind_Done_inv in E1 as ([A L] & E1 & E2). apply token_asset_liab_balances_inv in E1.
  apply bind_Done_inv in E2 as ([a l] & E2 & E3). apply token_assets_and_liabs_inv in E2.
  apply bind_Done_inv in E3 as (ta' & F1 & E3). apply bind_Done_inv in E3 as (tl' & F2 & E3).
  injection E3 as <-. apply fx_add_inv in F1 as ->. apply fx_add_inv in F2 as ->.
  apply token_health_contribution_inv in K1. specialize (Hb 0%nat t eq_refl). simpl in Hb. injection Hb as ->.
  unfold diff in *. simpl in *. rewrite E1 in E2. rewrite <- K1 in E2. rewrite Nat2Z.inj_succ. lia.
Qed.

Lemma serum_fold_diff {A} (f : A -> outcome Z) l ks tot tot' :
  mapM f l = Done ks -> foldM (fun totals x => contrib ← f x; add_value totals contrib) tot l = Done tot' ->
  diff tot' = diff tot + foldr Z.add 0 ks.
Proof.
  revert ks tot. induction l as [|x l IH]; intros ks tot K E; simpl in K, E.
  - injection K as <-. injection E as <-. simpl. lia.
  - apply bind_Done_inv in K as (v & V & K). apply bind_Done_inv in K as (ks' & K & Kd). injection Kd as <-.
    rewrite V, bind_Done in E. apply bind_Done_inv in E as (t1 & E1 & E). apply add_value_inv in E1.
    apply (IH _ _ K) in E. simpl. lia.
Qed.

Lemma sum_app l1 l2 : foldr Z.add 0 (l1 ++ l2) = foldr Z.add 0 l1 + foldr Z.add 0 l2.
Proof. induction l1; simpl; lia. Qed.

(** C20: Health is assets minus liabilities, whichever of the two is held stable, up to
    rounding: for a cache whose tokens are distinct the difference is not below the health
    and above it by at most one bit (2^-48) per token; spot open orders and perps
    included. *)
Theorem assets_minus_liabs_is_health c ty stable_assets assets liabs h :
  NoDup (ti_token_index <$> hc_token_infos c) ->
  health_assets_and_liabs c ty stable_assets = Done (assets, liabs) -> health c ty = Done h ->
  0 <= assets - liabs - h <= Z.of_nat (length (hc_token_infos c)).
Proof.
  intros Hn E Eh. unfold health, health_sum, health_contributions in Eh.
  apply bind_Done_inv in Eh as (bs & B & Eh). apply bind_Done_inv in Eh as (ks & K & Eh).
  apply foldM_fx_add in Eh. apply bind_Done_inv in K as (kt & KT & K).
  apply bind_Done_inv in K as ([mr rs] & R & K). apply bind_Done_inv in K as (kser & KS & K).
  injection K as <-. rewrite sum_app in Eh.
  unfold health_assets_and_liabs in E. apply bind_Done_inv in E as (tot & T & E).
  rewrite B, bind_Done, R, bind_Done in E.
  pose proof (token_fold_diff c ty stable_assets _ bs kt _ _ T KT
    (effective_token_balances_length c ty false bs B)
    (fun i t L => effective_token_balances_lookup c ty bs i t Hn B L)) as HT.
  assert (HS : diff (assets, liabs) = diff tot + foldr Z.add 0 kser).
  { eapply serum_fold_diff; [exact KS|]. rewrite <- E. apply foldM_ext. by intros t [i r]. }
  unfold diff in *. simpl in *. lia.
Qed.

End spec.
