(* ===== verification/HealthLimits.v ===== *)
(** * Limits, phases and adjustments of a health cache

    How much of a token can be taken before health reaches zero and what that means for
    perp settlement, the phases of a liquidation, and concrete caches, two of which show
    where health does not behave as documented. *)

From stdpp Require Import base numbers option list.
From Stdlib Require Import ZArith Lia SpecFloat.
From S2P Require Import Prelude FixedPoint HealthType TokenPosition Nodes Oracle StablePrice Bank Serum3 PerpMarket PerpPosition MangoAccount HealthCache HealthSpec BankSpec.

Open Scope Z_scope.

Section limits.
Context `{FixedLaws}.

(** ** Amounts until health zero *)

Lemma div_bounds x y : 0 < y -> x / y * y <= x < x / y * y + y.
Proof. intros Hy. pose proof (Z.div_mod x y). pose proof (Z.mod_pos_bound x y). lia. Qed.

Lemma fx_div_ok x y : 0 <= x -> 0 < y -> x * fx_scale / y <= I128_MAX -> fx_div x y = Done (x * fx_scale / y).
Proof.
  intros Hx Hy Hb. assert (0 <= x * fx_scale) by (pose proof scale_pos; nia).
  rewrite <- (Z.quot_div_nonneg (x * fx_scale) y) in * by lia.
  rewrite fx_div_law; [done|lia|].
  pose proof (Z.quot_pos (x * fx_scale) y ltac:(lia) ltac:(lia)). unfold is_i128, I128_MIN in *. lia.
Qed.

(** Taking [t] from a balance that stays not negative, or was not positive. *)
Lemma take_one_side w h s t :
  0 < w -> 0 < h -> t = h * fx_scale / w ->
  -1 <= h - s * w / fx_scale + (s - t) * w / fx_scale <= w / fx_scale + 1.
Proof.
  intros Hw Hh ->. set (t := h * fx_scale / w). pose proof (div_bounds (h * fx_scale) w Hw) as Ht. fold t in Ht.
  pose proof (floor_sub (s * w) ((s - t) * w)) as Hf.
  replace (s * w - (s - t) * w) with (t * w) in Hf by ring.
  pose proof scale_pos as Hs.
  pose proof (div_bounds (t * w) fx_scale Hs) as H1. pose proof (div_bounds w fx_scale Hs) as H2.
  set (x := t * w) in *. set (X := x / fx_scale) in *. set (W := w / fx_scale) in *.
  assert (X <= h) by nia. assert (h - W - 1 <= X) by nia. lia.
Qed.

(** Spending a positive balance and borrowing the rest. *)
Lemma spend_all_reaches_zero h s a l :
  0 < h <= I128_MAX -> 0 <= a -> 0 < l -> 0 < s -> s + h * fx_scale / l <= I128_MAX ->
  s * a <= h * fx_scale -> exists t,
    (x ← fx_mul s a; health ← fx_sub h x;
     if 0 <? health then
       _ ← require (0 <? l) ERequireGt; q ← fx_div health l; fx_add s q
     else Done s) = Done t /\ 0 <= t /\
    -1 <= h - weigh a l s + weigh a l (s - t) <= Z.max a l / fx_scale + 1.
Proof.
  intros [Hh Hh'] Ha Hl Hs0 Hql Hsa. pose proof scale_pos as Hs.
  assert (Hml : l / fx_scale <= Z.max a l / fx_scale) by (apply floor_mono; lia).
  set (x := s * a / fx_scale). assert (Hx : 0 <= x <= h).
  { split; [apply floor_nonneg; nia|]. apply (Z.div_le_upper_bound _ _ _ Hs). lia. }
  assert (Ex : weigh a l s = x) by (unfold weigh; by rewrite (proj2 (Z.ltb_ge _ _)) by lia).
  rewrite Ex.
  assert (Hi : is_i128 x /\ is_i128 (h - x)) by (unfold is_i128, I128_MIN; lia).
  rewrite (fx_mul_law s a) by (fold x; tauto). run. fold x. rewrite fx_sub_law by tauto. run.
  destruct (Z.ltb_spec 0 (h - x)) as [Hr|Hr].
  - unfold require. rewrite (proj2 (Z.ltb_lt 0 l)) by lia. run.
    assert (Hq : (h - x) * fx_scale / l <= h * fx_scale / l) by (apply Z.div_le_mono; nia).
    rewrite fx_div_ok by lia. run. set (q := (h - x) * fx_scale / l) in *.
    assert (0 <= q) by (apply Z.div_pos; nia).
    rewrite fx_add_law by (unfold is_i128, I128_MIN in *; lia). eexists. split; [done|]. split; [lia|].
    pose proof (div_bounds ((h - x) * fx_scale) l Hl) as Hb. fold q in Hb.
    replace (s - (s + q)) with (- q) by lia. unfold weigh.
    assert (E : - q * (if - q <? 0 then l else a) = - (q * l)).
    { destruct (Z.ltb_spec (- q) 0); [ring|]. assert (q = 0) as -> by lia. ring. }
    rewrite E. pose proof (div_bounds (- (q * l)) fx_scale Hs). pose proof (div_bounds l fx_scale Hs).
    set (y := q * l) in *. nia.
  - exists s. split; [done|]. split; [lia|]. rewrite Z.sub_diag. change (weigh a l 0) with 0.
    pose proof (floor_nonneg (Z.max a l)). lia.
Qed.

(** The amount that brings a positive health to zero: when it is taken from the token's
    balance, the weighed balance changes so that health ends at zero, up to one bit below
    and up to the value of the smallest token amount above. *)
Lemma spot_amount_taken_zero h s a l :
  0 < h <= I128_MAX -> 0 <= a -> 0 < l ->
  (0 < a -> h * fx_scale / a <= I128_MAX) -> Z.max s 0 + h * fx_scale / l <= I128_MAX ->
  exists t, spot_amount_taken_for_health_zero h s a l = Done t /\ 0 <= t /\
    -1 <= h - weigh a l s + weigh a l (s - t) <= Z.max a l / fx_scale + 1.
Proof.
  intros [Hh Hh'] Ha Hl Hqa Hql. pose proof scale_pos as Hs. unfold spot_amount_taken_for_health_zero.
  rewrite (proj2 (Z.leb_gt _ _)) by lia.
  assert (Hml : l / fx_scale <= Z.max a l / fx_scale) by (apply floor_mono; lia).
  assert (Hma : a / fx_scale <= Z.max a l / fx_scale) by (apply floor_mono; lia).
  assert (Hql0 : 0 <= h * fx_scale / l) by (apply Z.div_pos; nia).
  destruct (Z.ltb_spec 0 s) as [Hs0|Hs0].
  - (* a positive balance is spent first *)
    assert (Hall := spend_all_reaches_zero h s a l (conj Hh Hh') Ha Hl ltac:(lia) ltac:(lia)).
    destruct (Z.ltb_spec 0 a) as [Ha0|Ha0].
    + rewrite fx_div_ok by (try tauto; lia). run. destruct (Z.leb_spec (h * fx_scale / a) s) as [Hle|Hgt].
      * eexists. split; [done|]. assert (0 <= h * fx_scale / a) by (apply Z.div_pos; nia). split; [done|].
        unfold weigh. rewrite !(proj2 (Z.ltb_ge _ _)) by lia.
        pose proof (take_one_side a h s _ Ha0 Hh eq_refl). lia.
      * apply Hall. pose proof (div_bounds (h * fx_scale) a Ha0). nia.
    + apply Hall. assert (a = 0) as -> by lia. nia.
  - (* otherwise the token is borrowed *)
    rewrite (proj2 (Z.ltb_lt 0 h)) by lia. unfold require. rewrite (proj2 (Z.ltb_lt 0 l)) by lia. run.
    rewrite fx_div_ok by lia. run. rewrite fx_add_law by (unfold is_i128, I128_MIN in *; lia).
    eexists. split; [done|]. rewrite Z.add_0_l. split; [done|].
    assert (E : forall b, b <= 0 -> weigh a l b = b * l / fx_scale).
    { intros b Hb. unfold weigh. destruct (Z.ltb_spec b 0); [done|]. by assert (b = 0) as -> by lia. }
    rewrite !E by lia. pose proof (take_one_side l h s _ Hl Hh eq_refl). lia.
Qed.

(** [spot_amount_taken_for_health_zero] returns an amount of the token that can be
    taken before health is zero: nothing if health is not positive; otherwise, once it is
    taken from the token's balance, the weighed balance has changed so that health is
    zero, up to one bit below and up to the value of the smallest token amount above. It
    returns whenever the quotients of health by the weighted prices fit. *)
Theorem spot_amount_taken_reaches_zero h s a l :
  h <= I128_MAX -> 0 <= a -> 0 < l ->
  (0 < a -> h * fx_scale / a <= I128_MAX) -> Z.max s 0 + h * fx_scale / l <= I128_MAX ->
  exists t, spot_amount_taken_for_health_zero h s a l = Done t /\ 0 <= t /\ (h <= 0 -> t = 0) /\
    (0 < h -> -1 <= h - weigh a l s + weigh a l (s - t) <= Z.max a l / fx_scale + 1).
Proof.
  intros Hh Ha Hl Hqa Hql. destruct (Z.leb_spec h 0) as [Hz|Hz].
  - exists 0. unfold spot_amount_taken_for_health_zero. rewrite (proj2 (Z.leb_le _ _)) by lia.
    split_and!; (done || lia).
  - destruct (spot_amount_taken_zero h s a l) as (t & E & Ht & Hb); [lia..|done|done|].
    exists t. split_and!; (done || lia).
Qed.

(** [spot_amount_given_for_health_zero] is the mirror image: the amount that, added to
    the balance, lifts a negative health to zero. *)
Theorem spot_amount_given_reaches_zero h s a l :
  I128_MIN < h < 0 -> I128_MIN < s <= I128_MAX -> 0 < a -> 0 <= l ->
  (0 < l -> - h * fx_scale / l <= I128_MAX) -> Z.max (- s) 0 + - h * fx_scale / a <= I128_MAX ->
  exists t, spot_amount_given_for_health_zero h s a l = Done t /\ 0 <= t /\
    -1 <= - h - weigh l a (- s) + weigh l a (- (s + t)) <= Z.max l a / fx_scale + 1.
Proof.
  intros Hh Hs Ha Hl Hql Hqa. unfold spot_amount_given_for_health_zero.
  assert (I128_MIN = - I128_MAX - 1) by done.
  rewrite fx_neg_law by (unfold is_i128; lia). run. rewrite fx_neg_law by (unfold is_i128; lia). run.
  destruct (spot_amount_taken_zero (- h) (- s) l a) as (t & E & Ht & Hb); [lia..|done|done|].
  exists t. replace (- (s + t)) with (- s - t) by lia. done.
Qed.

(** ** Perp settlement *)

(** The health of given balances in a cache without spot open orders. *)
Definition balances_health (ty : HealthType) (infos : list TokenInfo) (bs : list Z) : Z :=
  foldr Z.add 0 (zip_with (fun t b => weigh (asset_wp t ty) (liab_wp t ty) b) infos bs).

Lemma mapM_contributions ty infos bs ks :
  mapM (fun '(t, x) => token_health_contribution t ty x) (zip infos bs) = Done ks ->
  ks = zip_with (fun t b => weigh (asset_wp t ty) (liab_wp t ty) b) infos bs.
Proof.
  revert bs ks. induction infos as [|t infos IH]; intros [|b bs] ks E; simpl in E; try by injection E as <-.
  apply bind_Done_inv in E as (k & K & E). apply bind_Done_inv in E as (ks' & K' & E). injection E as <-.
  apply token_health_contribution_inv in K as ->. simpl. f_equal. by apply IH.
Qed.

Lemma health_sum_inv c ty bs h :
  hc_serum3_infos c = [] -> health_sum c ty bs = Done h -> h = balances_health ty (hc_token_infos c) bs.
Proof.
  intros Hs E. unfold health_sum in E. apply bind_Done_inv in E as (ks & K & E).
  apply (health_contributions_tokens _ _ _ _ Hs), mapM_contributions in K as ->.
  by apply foldM_fx_add in E as ->.
Qed.

Lemma balances_health_insert ty infos bs i t b b' :
  infos !! i = Some t -> bs !! i = Some b ->
  balances_health ty infos (<[i := b']> bs) =
    balances_health ty infos bs - weigh (asset_wp t ty) (liab_wp t ty) b + weigh (asset_wp t ty) (liab_wp t ty) b'.
Proof.
  unfold balances_health. revert infos bs. induction i as [|i IH]; intros [|t' infos] [|x bs] Lt Lb; try done; simpl in *.
  - injection Lt as ->. injection Lb as ->. lia.
  - rewrite (IH infos bs Lt Lb). lia.
Qed.

(** [perp_max_settle] returns an amount of the settle token that may be settled: while
    the perp settle health (maint health without negative perp contributions) is positive,
    taking the amount from the token's balance brings the perp settle health to zero, up
    to one bit below; if it is not positive nothing may be settled. *)
Theorem perp_max_settle_safe c token_index bs h i t b :
  hc_serum3_infos c = [] ->
  effective_token_balances_internal c Maint true = Done bs -> health_sum c Maint bs = Done h ->
  token_info_index c token_index = Done i -> hc_token_infos c !! i = Some t -> bs !! i = Some b ->
  token_info_ok t -> 0 < liab_wp t Maint -> asset_wp t Maint <= I128_MAX -> liab_wp t Maint <= I128_MAX ->
  h <= I128_MAX -> (0 < asset_wp t Maint -> h * fx_scale / asset_wp t Maint <= I128_MAX) ->
  Z.max b 0 + h * fx_scale / liab_wp t Maint <= I128_MAX ->
  exists amount, perp_max_settle c token_index = Done amount /\ 0 <= amount /\
    (h <= 0 -> amount = 0) /\
    (0 < h -> -1 <= balances_health Maint (hc_token_infos c) (<[i := b - amount]> bs)
                <= Z.max (asset_wp t Maint) (liab_wp t Maint) / fx_scale + 1).
Proof.
  intros Hs Eb Eh Ei Lt Lb Hok Hl Ha128 Hl128 Hh Hqa Hql.
  pose proof (asset_wp_mono t Maint Maint Hok I) as [Ha _].
  unfold perp_max_settle. rewrite Eb. run. rewrite Eh. run. rewrite Ei. run. rewrite Lt. run. rewrite Lb. run.
  unfold asset_weighted_price, liab_weighted_price.
  assert (Hi : is_i128 (asset_wp t Maint) /\ is_i128 (liab_wp t Maint)) by (unfold is_i128, I128_MIN; lia).
  rewrite (fx_mul_law (asset_weight t Maint)) by apply Hi. run.
  rewrite (fx_mul_law (liab_weight t Maint)) by apply Hi. run.
  fold (asset_wp t Maint) (liab_wp t Maint).
  destruct (Z.leb_spec h 0) as [Hz|Hz].
  - exists 0. unfold spot_amount_taken_for_health_zero. rewrite (proj2 (Z.leb_le _ _)) by lia.
    split_and!; (done || lia).
  - destruct (spot_amount_taken_zero h b (asset_wp t Maint) (liab_wp t Maint)) as (amount & E & Hn & Hb);
      [lia..|done|done|].
    exists amount. split_and!; [done|done|lia|]. intros _.
    rewrite (balances_health_insert Maint _ _ i t b) by done.
    by rewrite <- (health_sum_inv c Maint bs h Hs Eh).
Qed.

(** ** Liquidation phases *)

(** The phases of a liquidation exclude each other, and the checks that an instruction
    of a later phase makes pass exactly when the earlier phases are over. *)
Theorem liquidation_phases c p2 p3 :
  in_phase2_liquidation c = Done p2 -> in_phase3_liquidation c = Done p3 ->
  (in_phase1_liquidation c && p2 = false) /\ (in_phase1_liquidation c && p3 = false) /\ (p2 && p3 = false) /\
  (require_after_phase1_liquidation c = Done tt <-> in_phase1_liquidation c = false) /\
  (in_phase1_liquidation c = false -> (require_after_phase2_liquidation c = Done tt <-> p2 = false)) /\
  (in_phase1_liquidation c = true -> exists e, require_after_phase2_liquidation c = Fail e).
Proof.
  unfold in_phase2_liquidation, in_phase3_liquidation, require_after_phase2_liquidation,
    require_after_phase1_liquidation, in_phase1_liquidation, has_phase2_liquidatable, has_phase1_liquidatable.
  intros E2 E3.
  destruct (has_serum3_open_orders_funds c), (has_perp_open_orders c); simpl in *;
    try (injection E2 as <-; injection E3 as <-; split_and!; (done || by eauto)).
  destruct (has_possible_spot_liquidations c) as [s| | |]; try discriminate. run_in E2. run_in E3. run.
  injection E2 as <-.
  destruct s, (has_perp_base_positions c), (has_perp_open_fills c), (has_perp_positive_pnl_no_base c); simpl in *;
    run_in E3; try injection E3 as <-; split_and!; done.
Qed.

(** The combined test for spot liquidations, kept separate for speed, equals the
    conjunction of the two tests it combines. *)
Lemma possible_spot_liquidations_both c :
  has_possible_spot_liquidations c =
    (a ← has_liq_spot_assets c; b ← has_liq_spot_borrows c; Done (b && a)).
Proof.
  unfold has_possible_spot_liquidations, has_liq_spot_assets, has_liq_spot_borrows.
  by destruct (effective_token_balances c LiquidationEnd).
Qed.

End limits.

(** ** Concrete caches *)

(** 100 USDC, a borrow of 5 SOL and a long perp position of 3 lots with open orders. *)
Definition usdc_info : TokenInfo :=
  mkTokenInfo 0 fx_one fx_one fx_one fx_one fx_one fx_one (new_single_price fx_one) (fx_int 100) true.

Definition sol_info : TokenInfo :=
  mkTokenInfo 4 (fx_one * 7 / 8) (fx_one * 3 / 4) (fx_one * 3 / 4) (fx_one * 9 / 8) (fx_one * 5 / 4) (fx_one * 5 / 4)
    (mkPrices (fx_int 10) (fx_int 12)) (fx_int (-5)) true.

Definition perp_info_9 : PerpInfo :=
  mkPerpInfo 9 0 (fx_one * 7 / 8) (fx_one * 3 / 4) (fx_one * 9 / 8) (fx_one * 5 / 4) fx_one (fx_one / 2)
    10 3 2 1 (fx_int (-40)) (mkPrices (fx_int 2) (fx_int 3)) true false.

Definition sample_cache : HealthCache := mkHealthCache [usdc_info; sol_info] [] [perp_info_9] false.

Lemma sample_cache_ok : cache_ok sample_cache.
Proof.
  split; repeat constructor; unfold prices_ok; vm_compute; intuition congruence.
Qed.

Example sample_healths :
  (@health fixed_ref sample_cache Init, @health fixed_ref sample_cache LiquidationEnd, @health fixed_ref sample_cache Maint)
  = (Done 0, Done (fx_one * 65 / 2), Done (fx_one * 205 / 4)).
Proof. by vm_compute. Qed.

(** A concrete instance. *)
Lemma health_ordered_witness :
  exists hi hl hm, @health fixed_ref sample_cache Init = Done hi /\ hi <= hl <= hm.
Proof.
  exists 0, (fx_one * 65 / 2), (fx_one * 205 / 4).
  assert (E : @health fixed_ref sample_cache Init = Done 0) by (vm_compute; reflexivity).
  exact (conj E (@health_ordered fixed_ref fixed_ref_laws sample_cache 0 (fx_one * 65 / 2) (fx_one * 205 / 4)
    sample_cache_ok eq_refl E ltac:(vm_compute; reflexivity) ltac:(vm_compute; reflexivity))).
Defined.

(** The witness of C20. *)
Lemma assets_minus_liabs_is_health_witness :
  exists a l, @health_assets_and_liabs fixed_ref sample_cache Maint true = Done (a, l) /\
    0 <= a - l - fx_one * 205 / 4 <= 2.
Proof.
  destruct (@health_assets_and_liabs fixed_ref sample_cache Maint true) as [[a l]| | |] eqn:E;
    [|vm_compute in E; discriminate E..].
  exists a, l. refine (conj eq_refl _).
  apply (@assets_minus_liabs_is_health fixed_ref fixed_ref_laws sample_cache Maint true a l (fx_one * 205 / 4)).
  - apply (bool_decide_unpack _). vm_compute. exact I.
  - exact E.
  - vm_compute. reflexivity.
Defined.

(** A concrete instance: health 7 with 2 tokens at 3/4 that are spent first. *)
Lemma spot_amount_taken_reaches_zero_witness :
  exists t, @spot_amount_taken_for_health_zero fixed_ref (fx_int 7) (fx_int 2) (fx_one * 3 / 4) fx_one = Done t /\
    -1 <= fx_int 7 - weigh (fx_one * 3 / 4) fx_one (fx_int 2) + weigh (fx_one * 3 / 4) fx_one (fx_int 2 - t).
Proof.
  destruct (@spot_amount_taken_reaches_zero fixed_ref fixed_ref_laws (fx_int 7) (fx_int 2) (fx_one * 3 / 4) fx_one)
    as (t & E & _ & _ & Hb); [vm_compute; congruence..| | |].
  { intros _. vm_compute. congruence. }
  { vm_compute. congruence. }
  exists t. exact (conj E (proj1 (Hb eq_refl))).
Defined.

(** A concrete instance. *)
Lemma spot_amount_given_reaches_zero_witness :
  exists t, @spot_amount_given_for_health_zero fixed_ref (fx_int (-7)) (fx_int 2) fx_one (fx_one * 5 / 4) = Done t /\ 0 <= t.
Proof.
  destruct (@spot_amount_given_reaches_zero fixed_ref fixed_ref_laws (fx_int (-7)) (fx_int 2) fx_one (fx_one * 5 / 4))
    as (t & E & Ht & _); [split; vm_compute; congruence| split; vm_compute; congruence|vm_compute; congruence..| | |].
  { intros _. vm_compute. congruence. }
  { vm_compute. congruence. }
  exists t. exact (conj E Ht).
Defined.

(** A concrete instance: settling against 100 USDC, the perp's positive pnl and a borrow of 5 SOL. *)
Lemma perp_max_settle_safe_witness :
  exists amount, @perp_max_settle fixed_ref sample_cache 0 = Done amount /\ 0 <= amount.
Proof.
  destruct (@perp_max_settle_safe fixed_ref fixed_ref_laws sample_cache 0 [fx_one * 215 / 2; fx_int (-5)]
    (fx_one * 205 / 4) 0 usdc_info (fx_one * 215 / 2)) as (amount & E & Ha & _).
  all: try (vm_compute; first [reflexivity | congruence]).
  - apply (proj1 (Forall_forall _ _) (co_tokens _ sample_cache_ok)). left.
  - exists amount. exact (conj E Ha).
Defined.

(** A concrete instance. *)
Lemma liquidation_phases_witness :
  @in_phase2_liquidation fixed_ref sample_cache = Done false /\
  in_phase1_liquidation sample_cache && false = false.
Proof.
  assert (E : @in_phase2_liquidation fixed_ref sample_cache = Done false) by (vm_compute; reflexivity).
  destruct (@liquidation_phases fixed_ref sample_cache false false E ltac:(vm_compute; reflexivity)) as (P & _).
  exact (conj E P).
Defined.

(** *** Where the order of healths fails

    An account that owes 1000 of token X and holds 300 of token U. It has spot orders that
    buy X with 1000 U and with 1000 Y; Y has no asset weight and a stable price far below
    its oracle price. *)
Definition crossed_cache : HealthCache :=
  mkHealthCache
    [mkTokenInfo 0 fx_one fx_one fx_one fx_one fx_one fx_one (new_single_price fx_one) (fx_int 300) true;
     mkTokenInfo 1 (fx_one * 13 / 16) (fx_one * 13 / 16) (fx_one * 13 / 16) (fx_one * 5 / 4) (fx_one * 5 / 4)
       (fx_one * 5 / 4) (new_single_price fx_one) (fx_int (-1000)) true;
     mkTokenInfo 2 0 0 0 (fx_one * 5 / 4) (fx_one * 5 / 4) (fx_one * 5 / 4) (mkPrices fx_one (fx_one / 128)) 0 true]
    [mkSerum3Info 0 (fx_int 1000) 0 0 1 0 7 false; mkSerum3Info 0 (fx_int 1000) 0 0 1 2 8 false] [] true.

(** An account that is flagged as being liquidated. *)
Definition flagged_account : MangoAccount := account_default <| ma_fixed := Fixed.set_being_liquidated fixed_default true |>.

(** With spot open orders the documented order of healths fails, even for weights and
    prices that are in order: the value of an order that pays a borrow back depends on how
    much the other orders could bring in, which the stable price makes smaller for init
    health. In this cache the init health is 50 and the liquidation-end health is -137.5,
    and a flagged account with it passes [check_health_pre] and loses its flag, because
    that check takes a positive init health as a proof of a positive liquidation-end
    health. *)
Theorem init_health_above_liq_end :
  cache_ok crossed_cache /\
  @health fixed_ref crossed_cache Init = Done (fx_int 50) /\
  @health fixed_ref crossed_cache LiquidationEnd = Done (- fx_one * 275 / 2) /\
  exists a, @Account.check_health_pre HealthCache (@health_cache_source fixed_ref) flagged_account crossed_cache
    = Done (a, fx_int 50) /\ Fixed.being_liquidated (ma_fixed a) = false.
Proof.
  split_and!.
  - split; repeat constructor; unfold prices_ok; vm_compute; intuition congruence.
  - vm_compute. reflexivity.
  - vm_compute. reflexivity.
  - eexists. vm_compute. split; reflexivity.
Qed.

(** *** Adjusting a balance changes the scaled weight

    A bank with 200 native deposits and a scale start of 100, at an oracle price of 1 and a
    stable price of 2. *)
Definition scaled_bank : Bank :=
  (sample_bank <| bk_deposit_weight_scale_start_quote := f64_of_Z 100 |>)
    <| bk_stable_price_model := reset_to_price stable_price_default (f64_of_Z 2) 0 |>.

Definition scaled_position : TokenPosition := set_tp_indexed_position (set_tp_token_index Token.default (bk_token_index scaled_bank)) fx_one.

(** Adjusting a cached balance is not neutral. A cache entry made from the bank scales
    the init asset weight by the deposits at the liability price, as its comment says is
    intended; [adjust_token_balance], even with a change of zero, scales it by the deposits
    at the asset price. Here the weight doubles, so that an adjusted cache overstates the
    init health of a cache made anew. *)
Theorem adjusted_weight_differs :
  exists t c',
    @token_info_new fixed_ref scaled_bank fx_one scaled_position 1000 = Done t /\
    @adjust_token_balance fixed_ref (mkHealthCache [t] [] [] false) scaled_bank 0 = Done c' /\
    exists t', hc_token_infos c' = [t'] /\ ti_balance_spot t' = ti_balance_spot t /\
      ti_init_scaled_asset_weight t' = 2 * ti_init_scaled_asset_weight t.
Proof. eexists _, _. split; [vm_compute; reflexivity|]. split; [vm_compute; reflexivity|]. eexists. by vm_compute. Qed.
