(* ===== verification/AccountRetriever.v ===== *)
(** * Account retrievers

    health/account_retriever.rs: how the banks, markets, oracles and open orders of a
    health computation are found among the accounts passed to an instruction. A passed
    account is its address and its contents; loading an account as another type fails.
    [FixedOrderAccountRetriever] relies on the order of the accounts, and
    [ScanningAccountRetriever] builds maps from the indexes of banks and markets to
    places. Both implement the interface [AccountRetriever] of the health cache. *)

From stdpp Require Import base numbers option gmap list.
From Stdlib Require Import ZArith Lia SpecFloat.
From S2P Require Import Prelude FixedPoint HealthType TokenPosition Nodes Oracle StablePrice Bank Group Serum3 PerpMarket PerpPosition MangoAccount HealthCache.

Open Scope Z_scope.

(** ** Passed accounts *)

(** The fields of a token account that the program reads. *)
Record TokenAccount := mkTokenAccount {
  ta_mint : Pubkey;
  ta_owner : Pubkey;
  ta_amount : Z
}.

Inductive AccountData :=
| ABank (b : Bank)
| AOracle (o : OracleAccount)
| APerpMarket (m : PerpMarket)
| AOpenOrders (oo : OpenOrdersSlim)
| AToken (t : TokenAccount)
| AGroup (g : Group)
| AOther.

Definition AccountInfo : Type := Pubkey * AccountData.

(** [ai.load::<Bank>()], [ai.load::<PerpMarket>()] and [load_open_orders]. *)
Definition load_bank (ai : AccountInfo) : outcome Bank :=
  match snd ai with ABank b => Done b | _ => Fail EAccountType end.

Definition load_perp_market (ai : AccountInfo) : outcome PerpMarket :=
  match snd ai with APerpMarket m => Done m | _ => Fail EAccountType end.

Definition load_open_orders (ai : AccountInfo) : outcome OpenOrdersSlim :=
  match snd ai with AOpenOrders oo => Done oo | _ => Fail EAccountType end.

Definition load_token_account (ai : AccountInfo) : outcome TokenAccount :=
  match snd ai with AToken t => Done t | _ => Fail EAccountType end.

Definition load_group (ai : AccountInfo) : outcome Group :=
  match snd ai with AGroup g => Done g | _ => Fail EAccountType end.

(** The passed accounts after the account at an address changed. *)
Definition write_account (key : Pubkey) (d : AccountData) (ais : list AccountInfo) : list AccountInfo :=
  (fun ai : AccountInfo => if fst ai =? key then (key, d) else ai) <$> ais.

Definition as_oracle (ai : AccountInfo) : Pubkey * OracleAccount :=
  (fst ai, match snd ai with AOracle o => o | _ => AUnknown end).

Definition as_pyth (ai : AccountInfo) : option PythPriceAccount :=
  match snd ai with AOracle (APyth p) => Some p | _ => None end.

(** [OracleAccountInfos::from_reader]. *)
Definition from_reader (oracle : Pubkey * OracleAccount) : OracleAccountInfos :=
  mkOracleAccountInfos oracle None None None.

Definition find_key (l : list AccountInfo) (key : Pubkey) : option AccountInfo :=
  i ← position (fun ai : AccountInfo => fst ai =? key) l; l !! i.

(** ** The fixed-order retriever *)

Record FixedOrderAccountRetriever := mkFixedOrder {
  fo_ais : list AccountInfo;
  fo_n_banks : nat;
  fo_n_perps : nat;
  fo_begin_perp : nat;
  fo_begin_serum3 : nat;
  fo_staleness_slot : option Z;
  fo_begin_fallback_oracles : nat;
  fo_usdc_oracle_index : option nat;
  fo_sol_oracle_index : option nat
}.

Definition new_fixed_order_account_retriever_inner (ais : list AccountInfo) (account : MangoAccount)
    (now_slot : Z) (n_banks : nat) : outcome FixedOrderAccountRetriever :=
  let active_serum3_len := length (Account.active_serum3_orders account) in
  let active_perp_len := length (Account.active_perp_positions account) in
  let expected_ais := (n_banks * 2 + active_perp_len * 2 + active_serum3_len)%nat in
  _ ← require (expected_ais <=? length ais)%nat (EMango InvalidHealthAccountCount);
  Done {|
    fo_ais := ais;
    fo_n_banks := n_banks;
    fo_n_perps := active_perp_len;
    fo_begin_perp := n_banks * 2;
    fo_begin_serum3 := n_banks * 2 + active_perp_len * 2;
    fo_staleness_slot := Some now_slot;
    fo_begin_fallback_oracles := expected_ais;
    fo_usdc_oracle_index := position (fun ai : AccountInfo => fst ai =? pyth_mainnet_usdc_oracle) ais;
    fo_sol_oracle_index := position (fun ai : AccountInfo => fst ai =? pyth_mainnet_sol_oracle) ais
  |}.

(** Slicing [ais] beyond its end panics. *)
Definition new_fixed_order_account_retriever (ais : list AccountInfo) (account : MangoAccount) (now_slot : Z) :
    outcome FixedOrderAccountRetriever :=
  let active_token_len := length (Account.active_token_positions account) in
  _ ← assert_ (active_token_len <=? length ais)%nat;
  _ ← mapM load_bank (take active_token_len ais);
  new_fixed_order_account_retriever_inner ais account now_slot active_token_len.

(** The leading banks of a list. *)
Fixpoint leading_banks (ais : list AccountInfo) : list Bank :=
  match ais with
  | (_, ABank b) :: ais => b :: leading_banks ais
  | _ => []
  end.

Definition new_fixed_order_account_retriever_with_optional_banks (ais : list AccountInfo)
    (account : MangoAccount) (now_slot : Z) : outcome FixedOrderAccountRetriever :=
  let n_banks := length (leading_banks ais) in
  let active_token_len := length (Account.active_token_positions account) in
  _ ← require (n_banks <=? active_token_len)%nat ERequireGte;
  new_fixed_order_account_retriever_inner ais account now_slot n_banks.

Module FixedOrder.
Section retriever.
Context `{FixedOps}.

(** The loop of [bank], from [i - 1] down to 0. *)
Fixpoint bank_from (r : FixedOrderAccountRetriever) (group : Pubkey) (token_index : Z) (i : nat) :
    outcome (nat * Bank) :=
  match i with
  | O => Fail (EMango InvalidHealthAccountCount)
  | S i =>
      ai ← unwrap (fo_ais r !! i);
      b ← load_bank ai;
      if bk_token_index b =? token_index then
        _ ← require (bk_group b =? group) ERequireKeysEq;
        Done (i, b)
      else bank_from r group token_index i
  end.

Definition bank (r : FixedOrderAccountRetriever) (group : Pubkey) (active_token_position_index : nat)
    (token_index : Z) : outcome (nat * Bank) :=
  bank_from r group token_index (Nat.min (active_token_position_index + 1) (fo_n_banks r)).

Definition perp_market (r : FixedOrderAccountRetriever) (group : Pubkey) (account_index : nat)
    (perp_market_index : Z) : outcome PerpMarket :=
  ai ← unwrap (fo_ais r !! account_index);
  m ← load_perp_market ai;
  _ ← require (pm_group m =? group) ERequireKeysEq;
  _ ← require (pm_perp_market_index m =? perp_market_index) ERequireEq;
  Done m.

Definition create_oracle_infos (r : FixedOrderAccountRetriever) (oracle_index : nat) (fallback_key : Pubkey) :
    outcome OracleAccountInfos :=
  ai ← unwrap (fo_ais r !! oracle_index);
  Done (mkOracleAccountInfos (as_oracle ai)
          (as_oracle <$> find_key (drop (fo_begin_fallback_oracles r) (fo_ais r)) fallback_key)
          (i ← fo_usdc_oracle_index r; ai ← fo_ais r !! i; as_pyth ai)
          (i ← fo_sol_oracle_index r; ai ← fo_ais r !! i; as_pyth ai)).

Definition available_banks (r : FixedOrderAccountRetriever) : outcome (list Z) :=
  bs ← mapM load_bank (take (fo_n_banks r) (fo_ais r));
  Done (bk_token_index <$> bs).

Definition bank_and_oracle (r : FixedOrderAccountRetriever) (group : Pubkey) (active_token_position_index : nat)
    (token_index : Z) : outcome (Bank * Z) :=
  '(bank_account_index, b) ← bank r group active_token_position_index token_index;
  infos ← create_oracle_infos r (fo_n_banks r + bank_account_index) (bk_fallback_oracle b);
  price ← oracle_price b infos (fo_staleness_slot r);
  Done (b, price).

Definition perp_market_and_oracle_price (r : FixedOrderAccountRetriever) (group : Pubkey)
    (active_perp_position_index : nat) (perp_market_index : Z) : outcome (PerpMarket * Z) :=
  let perp_index := (fo_begin_perp r + active_perp_position_index)%nat in
  m ← perp_market r group perp_index perp_market_index;
  ai ← unwrap (fo_ais r !! (perp_index + fo_n_perps r)%nat);
  price ← perp_oracle_price m (from_reader (as_oracle ai)) (fo_staleness_slot r);
  Done (m, price).

Definition serum_oo (r : FixedOrderAccountRetriever) (active_serum_oo_index : nat) (key : Pubkey) :
    outcome OpenOrdersSlim :=
  ai ← unwrap (fo_ais r !! (fo_begin_serum3 r + active_serum_oo_index)%nat);
  _ ← require (key =? fst ai) ERequireKeysEq;
  load_open_orders ai.

End retriever.
End FixedOrder.

#[export] Instance fixed_order_retriever `{FixedOps} : AccountRetriever FixedOrderAccountRetriever := {|
  HealthCache.available_banks := FixedOrder.available_banks;
  HealthCache.bank_and_oracle := FixedOrder.bank_and_oracle;
  HealthCache.serum_oo := FixedOrder.serum_oo;
  HealthCache.perp_market_and_oracle_price := FixedOrder.perp_market_and_oracle_price
|}.

(** ** The scanning retriever *)

Record ScannedBanksAndOracles := mkScanned {
  sb_banks : list AccountInfo;
  sb_oracles : list AccountInfo;
  sb_fallback_oracles : list AccountInfo;
  sb_index_map : gmap Z nat;
  sb_staleness_slot : option Z;
  sb_usd_oracle_index : option nat;
  sb_sol_oracle_index : option nat
}.

Record ScanningAccountRetriever := mkScanning {
  sc_banks_and_oracles : ScannedBanksAndOracles;
  sc_perp_markets : list AccountInfo;
  sc_perp_oracles : list AccountInfo;
  sc_serum3_oos : list AccountInfo;
  sc_perp_index_map : gmap Z nat
}.

Module Scanning.
Section retriever.
Context `{FixedOps}.

(** The scan over leading accounts of one type: their indexes go into a map, duplicates
    and accounts of another group are errors. *)
Fixpoint scan_map (group : Pubkey) (items : list (Pubkey * Z)) (i : nat) (m : gmap Z nat) : outcome (gmap Z nat) :=
  match items with
  | [] => Done m
  | (g, index) :: items =>
      _ ← require (g =? group) ERequireKeysEq;
      _ ← require (bool_decide (m !! index = None)) error_msg;
      scan_map group items (S i) (<[index := i]> m)
  end.

Fixpoint leading_perp_markets (ais : list AccountInfo) : list PerpMarket :=
  match ais with
  | (_, APerpMarket m) :: ais => m :: leading_perp_markets ais
  | _ => []
  end.

Fixpoint leading_open_orders (ais : list AccountInfo) : nat :=
  match ais with
  | (_, AOpenOrders _) :: ais => S (leading_open_orders ais)
  | _ => O
  end.

(** Slicing beyond the end panics. *)
Definition slice_from (ais : list AccountInfo) (i : nat) : outcome (list AccountInfo) :=
  _ ← assert_ (i <=? length ais)%nat; Done (drop i ais).

Definition new_with_staleness (ais : list AccountInfo) (group : Pubkey) (staleness_slot : option Z) :
    outcome ScanningAccountRetriever :=
  token_index_map ← scan_map group ((fun b => (bk_group b, bk_token_index b)) <$> leading_banks ais) 0 ∅;
  let n_banks := size token_index_map in
  let perps_start := (n_banks * 2)%nat in
  perps ← slice_from ais perps_start;
  perp_index_map ←
    scan_map group ((fun m => (pm_group m, pm_perp_market_index m)) <$> leading_perp_markets perps) 0 ∅;
  let n_perps := size perp_index_map in
  let perp_oracles_start := (perps_start + n_perps)%nat in
  let serum3_start := (perp_oracles_start + n_perps)%nat in
  serums ← slice_from ais serum3_start;
  let n_serum3 := leading_open_orders serums in
  let fallback_oracles_start := (serum3_start + n_serum3)%nat in
  let fallback := drop fallback_oracles_start ais in
  Done {|
    sc_banks_and_oracles := {|
      sb_banks := take n_banks ais;
      sb_oracles := take n_banks (drop n_banks ais);
      sb_fallback_oracles := fallback;
      sb_index_map := token_index_map;
      sb_staleness_slot := staleness_slot;
      sb_usd_oracle_index := position (fun ai : AccountInfo => fst ai =? pyth_mainnet_usdc_oracle) fallback;
      sb_sol_oracle_index := position (fun ai : AccountInfo => fst ai =? pyth_mainnet_sol_oracle) fallback
    |};
    sc_perp_markets := take n_perps perps;
    sc_perp_oracles := take n_perps (drop perp_oracles_start ais);
    sc_serum3_oos := take n_serum3 serums;
    sc_perp_index_map := perp_index_map
  |}.

Definition new (ais : list AccountInfo) (group : Pubkey) (now_slot : Z) : outcome ScanningAccountRetriever :=
  new_with_staleness ais group (Some now_slot).

Definition bank_index (s : ScannedBanksAndOracles) (token_index : Z) : outcome nat :=
  ok_or (sb_index_map s !! token_index) (EMango TokenPositionDoesNotExist).

Definition create_oracle_infos (s : ScannedBanksAndOracles) (oracle_index : nat) (fallback_key : Pubkey) :
    outcome OracleAccountInfos :=
  ai ← unwrap (sb_oracles s !! oracle_index);
  Done (mkOracleAccountInfos (as_oracle ai)
          (if fallback_key =? default_key then None
           else as_oracle <$> find_key (sb_fallback_oracles s) fallback_key)
          (i ← sb_usd_oracle_index s; ai ← sb_fallback_oracles s !! i; as_pyth ai)
          (i ← sb_sol_oracle_index s; ai ← sb_fallback_oracles s !! i; as_pyth ai)).

Definition scanned_bank_and_oracle (s : ScannedBanksAndOracles) (token_index : Z) : outcome (Bank * Z) :=
  index ← bank_index s token_index;
  ai ← unwrap (sb_banks s !! index);
  b ← load_bank ai;
  infos ← create_oracle_infos s index (bk_fallback_oracle b);
  price ← oracle_price b infos (sb_staleness_slot s);
  Done (b, price).

(** [banks_mut_and_oracles]: the places of the two banks, with their contents and prices;
    the caller writes the banks back with [set_bank]. The place of the first bank in the
    list is read first. *)
Definition bank_at (s : ScannedBanksAndOracles) (index : nat) : outcome (Bank * Z) :=
  ai ← unwrap (sb_banks s !! index);
  b ← load_bank ai;
  infos ← create_oracle_infos s index (bk_fallback_oracle b);
  price ← oracle_price b infos (sb_staleness_slot s);
  Done (b, price).

Definition banks_mut_and_oracles (s : ScannedBanksAndOracles) (token_index1 token_index2 : Z) :
    outcome (nat * (Bank * Z) * option (nat * (Bank * Z))) :=
  if token_index1 =? token_index2 then
    index ← bank_index s token_index1;
    b ← bank_at s index;
    Done (index, b, None)
  else
    index1 ← bank_index s token_index1;
    index2 ← bank_index s token_index2;
    if (index1 <? index2)%nat then
      b1 ← bank_at s index1; b2 ← bank_at s index2;
      Done (index1, b1, Some (index2, b2))
    else
      b2 ← bank_at s index2; b1 ← bank_at s index1;
      Done (index1, b1, Some (index2, b2)).

Definition set_bank (s : ScannedBanksAndOracles) (index : nat) (b : Bank) : outcome ScannedBanksAndOracles :=
  ai ← unwrap (sb_banks s !! index);
  Done (mkScanned (<[index := (fst ai, ABank b)]> (sb_banks s)) (sb_oracles s) (sb_fallback_oracles s)
          (sb_index_map s) (sb_staleness_slot s) (sb_usd_oracle_index s) (sb_sol_oracle_index s)).

Definition perp_market_index (r : ScanningAccountRetriever) (perp_market_index : Z) : outcome nat :=
  ok_or (sc_perp_index_map r !! perp_market_index) error_msg.

Definition scanned_perp_market_and_oracle (r : ScanningAccountRetriever) (market_index : Z) :
    outcome (PerpMarket * Z) :=
  index ← perp_market_index r market_index;
  ai ← unwrap (sc_perp_markets r !! index);
  m ← load_perp_market ai;
  oracle_acc ← unwrap (sc_perp_oracles r !! index);
  price ← perp_oracle_price m (from_reader (as_oracle oracle_acc)) (sb_staleness_slot (sc_banks_and_oracles r));
  Done (m, price).

Definition scanned_serum_oo (r : ScanningAccountRetriever) (key : Pubkey) : outcome OpenOrdersSlim :=
  oo ← ok_or (find_key (sc_serum3_oos r) key) error_msg;
  load_open_orders oo.

(** The keys of the map, in no particular order. *)
Definition available_banks (r : ScanningAccountRetriever) : outcome (list Z) :=
  Done (map_to_list (sb_index_map (sc_banks_and_oracles r))).*1.

End retriever.
End Scanning.

#[export] Instance scanning_retriever `{FixedOps} : AccountRetriever ScanningAccountRetriever := {|
  HealthCache.available_banks := Scanning.available_banks;
  HealthCache.bank_and_oracle r _ _ token_index :=
    Scanning.scanned_bank_and_oracle (sc_banks_and_oracles r) token_index;
  HealthCache.serum_oo r _ key := Scanning.scanned_serum_oo r key;
  HealthCache.perp_market_and_oracle_price r _ _ market_index :=
    Scanning.scanned_perp_market_and_oracle r market_index
|}.
