(* ===== verification/RetrieverSpec.v ===== *)
(** * Properties of account retrievers

    A retriever returns only banks and markets of the group and index that were asked for,
    with a price of the oracle in the bank's place; and on the accounts of a mango account
    in their documented order, the fixed-order and the scanning retriever give the same
    health cache. *)

From stdpp Require Import base numbers option gmap list.
From Stdlib Require Import ZArith Lia SpecFloat.
From S2P Require Import Prelude FixedPoint HealthType TokenPosition Nodes Oracle StablePrice Bank Serum3 PerpMarket PerpPosition MangoAccount HealthCache HealthSpec AccountRetriever BankSpec BankInterest.

Open Scope Z_scope.

(** Reads the round counter off the end of a run. *)
Ltac fx_inv_count E :=
  repeat (apply bind_Done_inv in E as (? & _ & E));
  first [discriminate E | by injection E as _ <-].

Section spec.
Context `{FixedOps}.

(** ** The interface *)

(** Two retrievers answer the questions of a health computation alike. *)
Record agree {R1 R2} `{AccountRetriever R1} `{AccountRetriever R2} (account : MangoAccount) (r1 : R1) (r2 : R2) : Prop := {
  agree_bank i t : Account.active_token_positions account !! i = Some t ->
    bank_and_oracle r1 (af_group (ma_fixed account)) i (tp_token_index t) =
    bank_and_oracle r2 (af_group (ma_fixed account)) i (tp_token_index t);
  agree_oo i s : Account.active_serum3_orders account !! i = Some s ->
    serum_oo r1 i (s3_open_orders s) = serum_oo r2 i (s3_open_orders s);
  agree_perp i p : Account.active_perp_positions account !! i = Some p ->
    perp_market_and_oracle_price r1 (af_group (ma_fixed account)) i (pp_market_index p) =
    perp_market_and_oracle_price r2 (af_group (ma_fixed account)) i (pp_market_index p)
}.

(** A loop that counts its rounds, with two bodies that agree on the elements at their places. *)
Lemma foldM_count {A B} (f g : A * nat -> B -> outcome (A * nat)) (l : list B) :
  (forall a i x, l !! i = Some x -> f (a, i) x = g (a, i) x) ->
  (forall a i x b j, f (a, i) x = Done (b, j) -> j = S i) ->
  forall a, foldM f (a, 0%nat) l = foldM g (a, 0%nat) l.
Proof.
  intros Hfg Hf.
  assert (Hg : forall pre l' a, l = pre ++ l' -> foldM f (a, length pre) l' = foldM g (a, length pre) l').
  { intros pre l'. revert pre. induction l' as [|x l' IH]; intros pre a El; [done|]. simpl.
    assert (Hx : l !! length pre = Some x) by (subst l; by rewrite list_lookup_middle).
    rewrite <- (Hfg a _ _ Hx). destruct (f (a, length pre) x) as [[b j]| | |] eqn:E; [|done..].
    rewrite !bind_Done. apply Hf in E as ->.
    specialize (IH (pre ++ [x]) b). rewrite length_app in IH. simpl in IH. rewrite Nat.add_1_r in IH.
    apply IH. by rewrite <- app_assoc. }
  intros a. by apply (Hg []).
Qed.

Lemma new_health_cache_agree {R1 R2} `{AccountRetriever R1} `{AccountRetriever R2} account (r1 : R1) (r2 : R2) now_ts :
  agree account r1 r2 -> new_health_cache account r1 now_ts = new_health_cache account r2 now_ts.
Proof.
  intros [Hb Ho Hp]. unfold new_health_cache, new_health_cache_impl. rewrite !bind_Done.
  rewrite (foldM_count (add_token r1 _ now_ts None) (add_token r2 (af_group (ma_fixed account)) now_ts None)).
  2: { intros a i t Lt. unfold add_token, token_info_for. by rewrite (Hb i t Lt). }
  2: { intros a i t b j E. unfold add_token in E. apply bind_Done_inv in E as (o & _ & E). by injection E as _ <-. }
  destruct (foldM (add_token r2 _ now_ts None) _ _) as [[infos n]| | |]; [|done..]. rewrite !bind_Done.
  rewrite (foldM_count (add_serum3 r1 false) (add_serum3 r2 false)).
  2: { intros a i s Ls. unfold add_serum3. by rewrite (Ho i s Ls). }
  2: { intros a i s b j E. unfold add_serum3 in E. apply bind_Done_inv in E as (oo & _ & E).
       destruct (find_token_info_index (hc_token_infos a) (s3_base_token_index s)),
         (find_token_info_index (hc_token_infos a) (s3_quote_token_index s)); fx_inv_count E. }
  destruct (foldM (add_serum3 r2 false) _ _) as [[c n']| | |]; [|done..]. rewrite !bind_Done.
  rewrite (foldM_count (add_perp r1 _ false) (add_perp r2 (af_group (ma_fixed account)) false)); [done| |].
  - intros a i p Lp. unfold add_perp. by rewrite (Hp i p Lp).
  - intros a i p b j E. unfold add_perp in E. apply bind_Done_inv in E as ([m pr] & _ & E). fx_inv_count E.
Qed.

(** ** Accounts in their documented order *)

Section layout.
Context (account : MangoAccount) (banks : list (Pubkey * Bank)) (oracles : list (Pubkey * OracleAccount))
  (markets : list (Pubkey * PerpMarket)) (perp_oracles : list (Pubkey * OracleAccount))
  (oos : list (Pubkey * OpenOrdersSlim)).

Let group : Pubkey := af_group (ma_fixed account).

Definition bank_ai (b : Pubkey * Bank) : AccountInfo := (fst b, ABank (snd b)).
Definition oracle_ai (o : Pubkey * OracleAccount) : AccountInfo := (fst o, AOracle (snd o)).
Definition market_ai (m : Pubkey * PerpMarket) : AccountInfo := (fst m, APerpMarket (snd m)).
Definition oo_ai (o : Pubkey * OpenOrdersSlim) : AccountInfo := (fst o, AOpenOrders (snd o)).

(** Banks, their oracles, perp markets, their oracles, open orders; no fallback oracles. *)
Definition health_accounts : list AccountInfo :=
  (bank_ai <$> banks) ++ (oracle_ai <$> oracles) ++ (market_ai <$> markets) ++
  (oracle_ai <$> perp_oracles) ++ (oo_ai <$> oos).

(** The accounts are those of the mango account, in the order of its positions. *)
Record laid_out : Prop := {
  lo_banks : Forall2 (fun b t => bk_token_index (snd b) = tp_token_index t /\ bk_group (snd b) = group)
               banks (Account.active_token_positions account);
  lo_oracles : length oracles = length banks;
  lo_markets : Forall2 (fun m p => pm_perp_market_index (snd m) = pp_market_index p /\ pm_group (snd m) = group)
                 markets (Account.active_perp_positions account);
  lo_perp_oracles : length perp_oracles = length markets;
  lo_oos : Forall2 (fun o s => fst o = s3_open_orders s) oos (Account.active_serum3_orders account);
  lo_bank_indexes : NoDup ((bk_token_index ∘ snd) <$> banks);
  lo_market_indexes : NoDup ((pm_perp_market_index ∘ snd) <$> markets);
  lo_oo_keys : NoDup oos.*1;
  lo_keys : Forall (fun ai : AccountInfo => fst ai <> pyth_mainnet_usdc_oracle /\ fst ai <> pyth_mainnet_sol_oracle)
              health_accounts
}.

Lemma leading_banks_app bs l :
  (forall k b, head l <> Some (k, ABank b)) -> leading_banks ((bank_ai <$> bs) ++ l) = bs.*2.
Proof.
  intros Hl. induction bs as [|[k b] bs IH]; simpl; [|by f_equal].
  destruct l as [|[k [b| | | | | |]] l]; try done. by destruct (Hl k b).
Qed.

Lemma leading_perp_markets_app ms l :
  (forall k m, head l <> Some (k, APerpMarket m)) -> Scanning.leading_perp_markets ((market_ai <$> ms) ++ l) = ms.*2.
Proof.
  intros Hl. induction ms as [|[k b] ms IH]; simpl; [|by f_equal].
  destruct l as [|[k [| |m| | | |]] l]; try done. by destruct (Hl k m).
Qed.

Lemma leading_open_orders_all os : Scanning.leading_open_orders (oo_ai <$> os) = length os.
Proof. induction os as [|o os IH]; [done|]. rewrite fmap_cons. simpl. by f_equal. Qed.

Lemma scan_map_ok g items i (m : gmap Z nat) :
  Forall (fun it => fst it = g) items -> NoDup items.*2 -> (forall x, x ∈ items.*2 -> m !! x = None) ->
  exists m', Scanning.scan_map g items i m = Done m' /\ size m' = (size m + length items)%nat /\
    (forall j it, items !! j = Some it -> m' !! (snd it) = Some (i + j)%nat) /\
    (forall x, x ∉ items.*2 -> m' !! x = m !! x).
Proof.
  revert i m. induction items as [|[g' x] items IH]; intros i m Hg Hn Hm; simpl.
  - exists m. split_and!; [done|lia|done|done].
  - inversion Hg as [|? ? Hg1 Hg2]. simpl in Hg1, Hn. subst g'. apply NoDup_cons in Hn as [Hx Hn].
    assert (Hmx : m !! x = None) by (apply Hm; left).
    rewrite Z.eqb_refl, bool_decide_true by done. simpl. rewrite ?bind_Done.
    destruct (IH (S i) (<[x := i]> m) Hg2 Hn) as (m' & E & Hsz & Hl & Hr).
    { intros y Hy. rewrite lookup_insert_ne by (intros ->; done). apply Hm. by right. }
    exists m'. split; [done|]. split; [rewrite Hsz, map_size_insert_None by done; lia|]. split.
    + intros [|j] it Lj; simpl in Lj.
      * injection Lj as <-. simpl. rewrite Hr by done. rewrite lookup_insert_eq. f_equal. lia.
      * rewrite (Hl j it Lj). f_equal. lia.
    + intros y Hy. simpl in Hy. apply not_elem_of_cons in Hy as [Hyx Hy]. rewrite Hr by done.
      by rewrite lookup_insert_ne.
Qed.

Lemma no_key l key : Forall (fun ai : AccountInfo => fst ai <> key) l ->
  position (fun ai : AccountInfo => fst ai =? key) l = None.
Proof.
  induction 1 as [|ai l Hk _ IH]; [done|]. simpl. rewrite (proj2 (Z.eqb_neq _ _) Hk). by rewrite IH.
Qed.

Hypothesis (Hlay : laid_out).

Let nb := length banks.
Let np := length markets.

Lemma n_banks_active : length (Account.active_token_positions account) = nb.
Proof. symmetry. apply (Forall2_length _ _ _ (lo_banks Hlay)). Qed.

Lemma n_perps_active : length (Account.active_perp_positions account) = np.
Proof. symmetry. apply (Forall2_length _ _ _ (lo_markets Hlay)). Qed.

Lemma n_oos_active : length (Account.active_serum3_orders account) = length oos.
Proof. symmetry. apply (Forall2_length _ _ _ (lo_oos Hlay)). Qed.

Lemma n_health_accounts : length health_accounts = (nb * 2 + np * 2 + length oos)%nat.
Proof.
  unfold health_accounts. rewrite !length_app, !length_fmap, (lo_oracles Hlay), (lo_perp_oracles Hlay). subst nb np. lia.
Qed.

Lemma no_pyth_key key l : key = pyth_mainnet_usdc_oracle \/ key = pyth_mainnet_sol_oracle -> (forall x, x ∈ l -> x ∈ health_accounts) ->
  position (fun ai : AccountInfo => fst ai =? key) l = None.
Proof.
  intros Hk Hl. apply no_key, Forall_forall. intros ai Hai.
  destruct (proj1 (Forall_forall _ _) (lo_keys Hlay) ai (Hl ai Hai)). by destruct Hk as [-> | ->].
Qed.

(** Places of the accounts. *)
Lemma bank_place i b : banks !! i = Some b -> health_accounts !! i = Some (bank_ai b).
Proof. intros L. unfold health_accounts. rewrite lookup_app_l; [by rewrite list_lookup_fmap, L|]. rewrite length_fmap. by eapply lookup_lt_Some. Qed.

Lemma oracle_place i o : oracles !! i = Some o -> health_accounts !! (nb + i)%nat = Some (oracle_ai o).
Proof.
  intros L. unfold health_accounts. rewrite lookup_app_r by (rewrite length_fmap; subst nb; lia).
  rewrite length_fmap. replace (nb + i - length banks)%nat with i by (subst nb; lia).
  rewrite lookup_app_l; [by rewrite list_lookup_fmap, L|]. rewrite length_fmap. by eapply lookup_lt_Some.
Qed.

Lemma drop_banks : drop (nb * 2) health_accounts = (market_ai <$> markets) ++ (oracle_ai <$> perp_oracles) ++ (oo_ai <$> oos).
Proof.
  unfold health_accounts. rewrite app_assoc, drop_app_length'; [done|].
  rewrite length_app, !length_fmap, (lo_oracles Hlay). subst nb. lia.
Qed.

Lemma drop_perps : drop (nb * 2 + np) health_accounts = (oracle_ai <$> perp_oracles) ++ (oo_ai <$> oos).
Proof. rewrite <- drop_drop, drop_banks, drop_app_length'; [done|]. rewrite length_fmap. subst np. done. Qed.

Lemma drop_perp_oracles : drop (nb * 2 + np + np) health_accounts = oo_ai <$> oos.
Proof. rewrite <- drop_drop, drop_perps, drop_app_length'; [done|]. rewrite length_fmap, (lo_perp_oracles Hlay). subst np. done. Qed.

(** The fixed-order retriever over these accounts. *)
Definition fixed_order (slot : Z) : FixedOrderAccountRetriever :=
  mkFixedOrder health_accounts nb np (nb * 2) (nb * 2 + np * 2) (Some slot)
    (nb * 2 + np * 2 + length oos) None None.

Lemma new_fixed_order slot :
  new_fixed_order_account_retriever health_accounts account slot = Done (fixed_order slot).
Proof.
  unfold new_fixed_order_account_retriever, new_fixed_order_account_retriever_inner, assert_, require.
  rewrite n_banks_active, n_perps_active, n_oos_active, n_health_accounts.
  rewrite (proj2 (Nat.leb_le nb _)) by lia. rewrite bind_Done.
  assert (Et : mapM load_bank (take nb health_accounts) = Done banks.*2).
  { unfold health_accounts. rewrite take_app_length' by (by rewrite length_fmap). clear Hlay nb. 
    induction banks as [|b bs IH]; [done|]. rewrite fmap_cons. simpl. rewrite IH. done. }
  rewrite Et, bind_Done. rewrite (proj2 (Nat.leb_le _ _)) by lia. rewrite bind_Done.
  rewrite !no_pyth_key by (auto; done). done.
Qed.

(** What the scanning retriever finds. *)
Record scanned (slot : Z) (r : ScanningAccountRetriever) : Prop := {
  sn_banks : sb_banks (sc_banks_and_oracles r) = bank_ai <$> banks;
  sn_oracles : sb_oracles (sc_banks_and_oracles r) = oracle_ai <$> oracles;
  sn_fallback : sb_fallback_oracles (sc_banks_and_oracles r) = [];
  sn_index i b : banks !! i = Some b ->
    sb_index_map (sc_banks_and_oracles r) !! bk_token_index (snd b) = Some i;
  sn_slot : sb_staleness_slot (sc_banks_and_oracles r) = Some slot;
  sn_usd : sb_usd_oracle_index (sc_banks_and_oracles r) = None;
  sn_sol : sb_sol_oracle_index (sc_banks_and_oracles r) = None;
  sn_markets : sc_perp_markets r = market_ai <$> markets;
  sn_perp_oracles : sc_perp_oracles r = oracle_ai <$> perp_oracles;
  sn_perp_index i m : markets !! i = Some m -> sc_perp_index_map r !! pm_perp_market_index (snd m) = Some i;
  sn_oos : sc_serum3_oos r = oo_ai <$> oos
}.

Lemma scan_banks : exists m,
  Scanning.scan_map group ((fun b => (bk_group b, bk_token_index b)) <$> leading_banks health_accounts) 0 ∅ = Done m /\
  size m = nb /\ (forall i b, banks !! i = Some b -> m !! bk_token_index (snd b) = Some i).
Proof.
  unfold health_accounts. rewrite leading_banks_app.
  2: { intros k b. destruct oracles as [|[k' o] os]; [|done]. simpl.
       destruct markets as [|[k' m] ms]; [|done]. simpl. destruct perp_oracles as [|[k' o] ps]; [|done]. simpl.
       by destruct oos as [|[k' oo] os]. }
  destruct (scan_map_ok group ((fun b => (bk_group b, bk_token_index b)) <$> banks.*2) 0 ∅) as (m & E & Hs & Hl & _).
  - apply Forall_fmap, Forall_fmap, Forall_forall. intros b Hb. apply list_elem_of_lookup in Hb as [j Lj].
    destruct (Forall2_lookup_l _ _ _ _ _ (lo_banks Hlay) Lj) as (t & _ & _ & Hg). exact Hg.
  - rewrite <- !list_fmap_compose. apply (lo_bank_indexes Hlay).
  - intros x _. apply lookup_empty.
  - exists m. split; [done|]. split; [rewrite Hs, map_size_empty, !length_fmap; done|].
    intros i b Lb. specialize (Hl i (bk_group (snd b), bk_token_index (snd b))). apply Hl.
    by rewrite !list_lookup_fmap, Lb.
Qed.

Lemma scan_markets : exists m,
  Scanning.scan_map group ((fun b => (pm_group b, pm_perp_market_index b)) <$>
    Scanning.leading_perp_markets (drop (nb * 2) health_accounts)) 0 ∅ = Done m /\
  size m = np /\ (forall i b, markets !! i = Some b -> m !! pm_perp_market_index (snd b) = Some i).
Proof.
  rewrite drop_banks, leading_perp_markets_app.
  2: { intros k b. destruct perp_oracles as [|[k' o] ps]; [|done]. simpl. by destruct oos as [|[k' oo] os]. }
  destruct (scan_map_ok group ((fun b => (pm_group b, pm_perp_market_index b)) <$> markets.*2) 0 ∅) as (m & E & Hs & Hl & _).
  - apply Forall_fmap, Forall_fmap, Forall_forall. intros b Hb. apply list_elem_of_lookup in Hb as [j Lj].
    destruct (Forall2_lookup_l _ _ _ _ _ (lo_markets Hlay) Lj) as (t & _ & _ & Hg). exact Hg.
  - rewrite <- !list_fmap_compose. apply (lo_market_indexes Hlay).
  - intros x _. apply lookup_empty.
  - exists m. split; [done|]. split; [rewrite Hs, map_size_empty, !length_fmap; done|].
    intros i b Lb. specialize (Hl i (pm_group (snd b), pm_perp_market_index (snd b))). apply Hl.
    by rewrite !list_lookup_fmap, Lb.
Qed.

Lemma new_scanning slot : exists r, Scanning.new health_accounts group slot = Done r /\ scanned slot r.
Proof.
  destruct scan_banks as (mb & Eb & Hb & Lb). destruct scan_markets as (mp & Ep & Hp & Lp).
  unfold Scanning.new, Scanning.new_with_staleness, Scanning.slice_from, assert_.
  rewrite Eb, bind_Done, Hb, n_health_accounts. rewrite (proj2 (Nat.leb_le _ _)) by lia. rewrite !bind_Done.
  rewrite Ep, bind_Done, Hp. rewrite (proj2 (Nat.leb_le _ _)) by lia. rewrite !bind_Done.
  rewrite drop_perp_oracles, drop_perps, drop_banks, leading_open_orders_all.
  rewrite (drop_ge health_accounts (nb * 2 + np + np + length oos)) by (rewrite n_health_accounts; lia).
  eexists. split; [done|]. split; simpl; try done.
  - unfold health_accounts. by rewrite take_app_length' by (by rewrite length_fmap).
  - unfold health_accounts. rewrite drop_app_length' by (by rewrite length_fmap).
    rewrite take_app_length'; [done|]. rewrite length_fmap. symmetry. apply (lo_oracles Hlay).
  - by rewrite take_app_length' by (by rewrite length_fmap).
  - rewrite take_app_length'; [done|]. rewrite length_fmap. symmetry. apply (lo_perp_oracles Hlay).
  - by rewrite take_ge by (rewrite length_fmap; lia).
Qed.

(** The place of an account's position. *)
Lemma active_bank i t : Account.active_token_positions account !! i = Some t ->
  exists b o, banks !! i = Some b /\ oracles !! i = Some o /\
    bk_token_index (snd b) = tp_token_index t /\ bk_group (snd b) = group.
Proof.
  intros L. destruct (Forall2_lookup_r _ _ _ _ _ (lo_banks Hlay) L) as (b & Lb & Hi & Hg).
  destruct (lookup_lt_is_Some_2 oracles i) as [o Lo]; [|eauto 8].
  rewrite (lo_oracles Hlay). by eapply lookup_lt_Some.
Qed.

Lemma active_market i p : Account.active_perp_positions account !! i = Some p ->
  exists m o, markets !! i = Some m /\ perp_oracles !! i = Some o /\
    pm_perp_market_index (snd m) = pp_market_index p /\ pm_group (snd m) = group.
Proof.
  intros L. destruct (Forall2_lookup_r _ _ _ _ _ (lo_markets Hlay) L) as (m & Lm & Hi & Hg).
  destruct (lookup_lt_is_Some_2 perp_oracles i) as [o Lo]; [|eauto 8].
  rewrite (lo_perp_oracles Hlay). by eapply lookup_lt_Some.
Qed.

Lemma place_after n i (l : list AccountInfo) : drop n health_accounts = l -> health_accounts !! (n + i)%nat = l !! i.
Proof. intros <-. by rewrite lookup_drop. Qed.

Lemma find_oo i o : oos !! i = Some o -> find_key (oo_ai <$> oos) (fst o) = Some (oo_ai o).
Proof.
  pose proof (lo_oo_keys Hlay) as Hn. clear Hlay. revert i. induction oos as [|x os IH]; intros i L; [done|].
  simpl in Hn. apply NoDup_cons in Hn as [Hx Hn]. rewrite fmap_cons. unfold find_key. simpl.
  destruct (Z.eqb_spec (fst x) (fst o)) as [Eq|Ne].
  - destruct i as [|i]; simpl in L; [by injection L as ->|]. destruct Hx. rewrite Eq.
    apply list_elem_of_fmap. exists o. split; [done|]. by eapply list_elem_of_lookup_2.
  - destruct i as [|i]; simpl in L; [congruence|]. specialize (IH Hn i L). unfold find_key in IH.
    destruct (position _ (oo_ai <$> os)); [exact IH|discriminate IH].
Qed.

Lemma retrievers_agree slot r : scanned slot r -> agree account (fixed_order slot) r.
Proof.
  intros [Sb So Sf Si Ss Su Sl Sm Sp Spi Soo]. split.
  - intros i t Lt. destruct (active_bank i t Lt) as ([kb b] & o & Lb & Lo & Hi & Hg). simpl in *.
    assert (i < nb)%nat by (by eapply lookup_lt_Some).
    unfold FixedOrder.bank_and_oracle, FixedOrder.bank, Scanning.scanned_bank_and_oracle, Scanning.bank_index.
    simpl. replace (Nat.min (i + 1) nb) with (S i) by lia. simpl.
    rewrite (bank_place _ _ Lb). simpl. rewrite Hi, Z.eqb_refl. simpl. rewrite Hg. unfold group. rewrite Z.eqb_refl. simpl.
    specialize (Si i (kb, b) Lb). simpl in Si. rewrite <- Hi, Si. simpl. rewrite Sb, list_lookup_fmap, Lb. simpl.
    unfold FixedOrder.create_oracle_infos, Scanning.create_oracle_infos. simpl.
    rewrite (oracle_place _ _ Lo), So, list_lookup_fmap, Lo, Sf, Ss, Su, Sl. simpl.
    rewrite drop_ge by (rewrite n_health_accounts; lia). by destruct (_ =? default_key).
  - intros i s Ls. destruct (Forall2_lookup_r _ _ _ _ _ (lo_oos Hlay) Ls) as (o & Lo & Hk). simpl.
    unfold FixedOrder.serum_oo, Scanning.scanned_serum_oo. simpl.
    replace (nb * 2 + np * 2)%nat with (nb * 2 + np + np)%nat by lia.
    rewrite (place_after _ i _ drop_perp_oracles), list_lookup_fmap, Lo, Soo. simpl.
    rewrite <- Hk, Z.eqb_refl, (find_oo i o Lo). done.
  - intros i p Lp. destruct (active_market i p Lp) as ([km m] & o & Lm & Lo & Hi & Hg). simpl in *.
    unfold FixedOrder.perp_market_and_oracle_price, FixedOrder.perp_market, Scanning.scanned_perp_market_and_oracle,
      Scanning.perp_market_index. simpl.
    rewrite (place_after _ i _ drop_banks), lookup_app_l by (rewrite length_fmap; by eapply lookup_lt_Some).
    rewrite list_lookup_fmap, Lm. simpl. rewrite Hg, Hi. unfold group. rewrite !Z.eqb_refl. simpl.
    replace (nb * 2 + i + np)%nat with (nb * 2 + np + i)%nat by lia.
    rewrite (place_after _ i _ drop_perps), lookup_app_l by (rewrite length_fmap; by eapply lookup_lt_Some).
    specialize (Spi i (km, m) Lm). simpl in Spi. rewrite list_lookup_fmap, Lo, <- Hi, Spi. simpl. rewrite Sm, list_lookup_fmap, Lm. simpl.
    rewrite Sp, list_lookup_fmap, Lo. simpl. by rewrite Ss.
Qed.

End layout.

(** C37: The two retrievers are interchangeable. On the health accounts of a mango account
    in their documented order without fallback oracles ([laid_out]), both constructors succeed
    and the health caches that are built through them are the same (or fail in the same
    way). The Pyth accounts of USDC and SOL must not be among the accounts, because the
    fixed-order retriever looks for them everywhere and the scanning one only among the
    fallback oracles. *)
Theorem retrievers_interchangeable account banks oracles markets perp_oracles oos slot now_ts :
  laid_out account banks oracles markets perp_oracles oos ->
  exists r1 r2,
    new_fixed_order_account_retriever (health_accounts banks oracles markets perp_oracles oos) account slot = Done r1 /\
    Scanning.new (health_accounts banks oracles markets perp_oracles oos) (af_group (ma_fixed account)) slot = Done r2 /\
    new_health_cache account r1 now_ts = new_health_cache account r2 now_ts.
Proof.
  intros Hl. destruct (new_scanning account banks oracles markets perp_oracles oos Hl slot) as (r2 & E2 & S2).
  eexists _, r2. split; [by apply new_fixed_order|]. split; [exact E2|].
  apply new_health_cache_agree. by apply retrievers_agree.
Qed.

(** What a fixed-order retriever returns for a token is a bank of that token and of the
    group, at or before the asked position and among the passed banks, and its price is
    what the bank accepts from the oracle account in the bank's place. *)
Theorem fixed_order_bank_right r group i token_index b price :
  FixedOrder.bank_and_oracle r group i token_index = Done (b, price) ->
  bk_token_index b = token_index /\ bk_group b = group /\
  exists j infos, (j <= i)%nat /\ (j < fo_n_banks r)%nat /\
    (exists k, fo_ais r !! j = Some (k, ABank b)) /\
    (exists ai, fo_ais r !! (fo_n_banks r + j)%nat = Some ai /\ oai_oracle infos = as_oracle ai) /\
    oracle_price b infos (fo_staleness_slot r) = Done price.
Proof.
  unfold FixedOrder.bank_and_oracle, FixedOrder.bank. intros E.
  apply bind_Done_inv in E as ([j b'] & Eb & E). apply bind_Done_inv in E as (infos & Ei & E).
  apply bind_Done_inv in E as (p & Ep & E). injection E as <- <-.
  assert (Hb : forall n, FixedOrder.bank_from r group token_index n = Done (j, b') ->
    (j < n)%nat /\ bk_token_index b' = token_index /\ bk_group b' = group /\ exists k, fo_ais r !! j = Some (k, ABank b')).
  { clear. induction n as [|n IH]; simpl; intros E; [discriminate|].
    apply bind_Done_inv in E as (ai & La & E). apply bind_Done_inv in E as (b & Lb & E).
    destruct (Z.eqb_spec (bk_token_index b) token_index) as [Et|Nt].
    - apply bind_Done_inv in E as (u & Eg & E). injection E as <- <-.
      destruct (Z.eqb_spec (bk_group b) group); [|discriminate Eg].
      destruct (fo_ais r !! n) as [[k d]|] eqn:L; [|discriminate La]. injection La as <-.
      destruct d; try discriminate Lb. injection Lb as ->. split_and!; eauto.
    - destruct (IH E) as (? & ? & ? & ?). split_and!; try done. lia. }
  destruct (Hb _ Eb) as (Hj & Ht & Hg & Hk). split; [done|]. split; [done|].
  unfold FixedOrder.create_oracle_infos in Ei. apply bind_Done_inv in Ei as (ai & La & Ei).
  destruct (fo_ais r !! (fo_n_banks r + j)%nat) as [ai'|] eqn:L; [|discriminate La]. injection La as ->.
  injection Ei as <-. exists j, (mkOracleAccountInfos (as_oracle ai)
    (as_oracle <$> find_key (drop (fo_begin_fallback_oracles r) (fo_ais r)) (bk_fallback_oracle b'))
    (i ← fo_usdc_oracle_index r; ai ← fo_ais r !! i; as_pyth ai)
    (i ← fo_sol_oracle_index r; ai ← fo_ais r !! i; as_pyth ai)).
  split_and!; [lia|lia|done|eauto|done].
Qed.

End spec.

(** ** A concrete account

    An account with a position in the sample bank and a perp position, and its accounts. *)
Definition health_account : MangoAccount :=
  ((account_default <| ma_fixed := fixed_default <| af_group := 1 |> |>)
    <| ma_tokens := [Token.default; set_tp_token_index sample_position (bk_token_index sample_bank)] |>)
    <| ma_perps := [set_pp_market_index perp_position_default 9] |>.

Definition health_banks : list (Pubkey * Bank) := [(20, sample_bank)].
Definition health_oracles : list (Pubkey * OracleAccount) := [oai_oracle sample_oracles].
Definition health_market : PerpMarket :=
  (((test_market <| pm_group := 1 |>) <| pm_perp_market_index := 9 |>)
     <| pm_oracle := fst (oai_oracle sample_oracles) |>) <| pm_oracle_config := bk_oracle_config sample_bank |>.
Definition health_markets : list (Pubkey * PerpMarket) := [(21, health_market)].

Lemma health_account_laid_out : laid_out health_account health_banks health_oracles health_markets health_oracles [].
Proof.
  split; try (vm_compute; reflexivity); try (apply (bool_decide_unpack _); vm_compute; exact I).
  all: vm_compute; repeat constructor.
Qed.

(** The witness of C37: the cache is built, with one token and one perp market. *)
Lemma retrievers_interchangeable_witness :
  exists r1 r2 c,
    new_fixed_order_account_retriever (health_accounts health_banks health_oracles health_markets health_oracles [])
      health_account 50 = Done r1 /\
    @new_health_cache fixed_ref _ (@fixed_order_retriever fixed_ref) health_account r1 1000 = Done c /\
    @new_health_cache fixed_ref _ (@scanning_retriever fixed_ref) health_account r2 1000 = Done c.
Proof.
  destruct (@retrievers_interchangeable fixed_ref health_account health_banks health_oracles health_markets health_oracles []
    50 1000 health_account_laid_out) as (r1 & r2 & E1 & _ & E).
  destruct (@new_health_cache fixed_ref _ (@fixed_order_retriever fixed_ref) health_account r1 1000) as [c| | |] eqn:Ec;
    [|exfalso; vm_compute in E1; injection E1 as <-; vm_compute in Ec; discriminate Ec..].
  exists r1, r2, c. exact (conj E1 (conj Ec (eq_sym E))).
Defined.

(** A concrete instance. *)
Lemma fixed_order_bank_right_witness :
  exists r b price, new_fixed_order_account_retriever
      (health_accounts health_banks health_oracles health_markets health_oracles []) health_account 50 = Done r /\
    @FixedOrder.bank_and_oracle fixed_ref r 1 0 0 = Done (b, price) /\ bk_token_index b = 0.
Proof.
  destruct (new_fixed_order_account_retriever
      (health_accounts health_banks health_oracles health_markets health_oracles []) health_account 50)
    as [r| | |] eqn:Er; [|vm_compute in Er; discriminate Er..].
  destruct (@FixedOrder.bank_and_oracle fixed_ref r 1 0 0) as [[b price]| | |] eqn:E;
    [|exfalso; vm_compute in Er; injection Er as <-; vm_compute in E; discriminate E..].
  exists r, b, price. refine (conj eq_refl (conj E _)). exact (proj1 (@fixed_order_bank_right fixed_ref r 1 0 0 b price E)).
Defined.
