(* ===== verification/TokenInstructions.v ===== *)
(** * Deposits and withdrawals

    instructions/token_deposit.rs and token_withdraw.rs with the account constraints of
    accounts_ix: a bank, a mango account and the token accounts change together. The
    transfer of tokens is done by the token program, which is a parameter
    ([TokenProgram]). The accounts for the health computation are passed as a list; the
    instruction's bank may be among them, and a health computation after the bank changed
    reads the changed bank ([sync_bank]). Logs are left out. *)

From stdpp Require Import base numbers option list.
From Stdlib Require Import ZArith Lia SpecFloat.
From S2P Require Import Prelude FixedPoint HealthType TokenPosition Nodes Oracle StablePrice Bank Group Serum3 PerpMarket PerpPosition MangoAccount HealthCache AccountRetriever.

Open Scope Z_scope.

(** The clock: [unix_timestamp] and [slot]. *)
Record Clock := mkClock { clock_ts : Z; clock_slot : Z }.

(** ** The token program *)

(** [token::transfer]: the balances of the two token accounts after a transfer. *)
Class TokenProgram := token_transfer : Z -> Z -> Z -> outcome (Z * Z).

(** Documented behaviour: a transfer moves the amount, and only if the source has it; if
    the source has it and the target can hold it, the transfer succeeds. *)
Class TokenLaws `{TokenProgram} : Prop := {
  transfer_inv from to amount from' to' :
    token_transfer from to amount = Done (from', to') -> from' = from - amount /\ to' = to + amount /\ amount <= from;
  transfer_ok from to amount :
    0 <= amount <= from -> is_u64 (to + amount) -> token_transfer from to amount = Done (from - amount, to + amount)
}.

(** An instance. *)
Definition token_ref : TokenProgram := fun from to amount =>
  _ ← require (amount <=? from) (EMango SomeError);
  t ← u64 (to + amount);
  Done (from - amount, t).

Lemma token_ref_laws : @TokenLaws token_ref.
Proof.
  split; unfold token_transfer, token_ref; intros.
  - inv_run. mlia.
  - rewrite (proj2 (Z.leb_le _ _)) by lia. simpl. by rewrite u64_ok.
Qed.

(** The passed accounts after the instruction's bank changed. *)
Definition sync_bank (bank_pk : Pubkey) (b : Bank) (ais : list AccountInfo) : list AccountInfo :=
  (fun ai : AccountInfo => if fst ai =? bank_pk then (fst ai, ABank b) else ai) <$> ais.

(** ** Accounts *)

(** The accounts that both instructions name. [tx_token_account] and [tx_vault] are
    balances. *)
Record TokenAccounts := mkTokenAccounts {
  tx_group_pk : Pubkey;
  tx_group : Group;
  tx_account : MangoAccount;
  tx_bank_pk : Pubkey;
  tx_bank : Bank;
  tx_vault_pk : Pubkey;
  tx_vault : Z;
  tx_oracle : Pubkey * OracleAccount;
  tx_token_account : Z;
  tx_remaining : list AccountInfo
}.

#[export] Instance eta_TokenAccounts : Eta TokenAccounts := fun t =>
  mkTokenAccounts
    (tx_group_pk t) (tx_group t) (tx_account t) (tx_bank_pk t) (tx_bank t) (tx_vault_pk t)
    (tx_vault t) (tx_oracle t) (tx_token_account t) (tx_remaining t).

(** The constraints the instructions share; [ix] is their gate. *)
Definition token_constraints (t : TokenAccounts) (ix : IxGate) (clock : Clock) : outcome unit :=
  _ ← require (GroupCfg.is_ix_enabled (tx_group t) ix) (EMango IxIsDisabled);
  _ ← require (af_group (ma_fixed (tx_account t)) =? tx_group_pk t) EConstraint;
  _ ← require (Fixed.is_operational (ma_fixed (tx_account t)) (clock_ts clock)) (EMango AccountIsFrozen);
  _ ← require (bk_group (tx_bank t) =? tx_group_pk t) EConstraint;
  _ ← require (bk_vault (tx_bank t) =? tx_vault_pk t) EConstraint;
  require (bk_oracle (tx_bank t) =? fst (tx_oracle t)) EConstraint.

Definition owner_constraint (t : TokenAccounts) (signer : Pubkey) (clock : Clock) : outcome unit :=
  require (Fixed.is_owner_or_delegate (ma_fixed (tx_account t)) (clock_ts clock) signer) EConstraint.

Section instructions.
Context `{FixedOps} `{TokenProgram}.

(** The amount that is deposited: all of it, or what closes a borrow. *)
Definition deposit_amount (b : Bank) (position : TokenPosition) (amount : Z) (reduce_only : bool) : outcome Z :=
  a ← fx_from_int amount;
  amount_i80f48 ←
    (if reduce_only || BankCfg.are_deposits_reduce_only b then
       n ← native position b;
       n ← fx_abs (Z.min n 0);
       n ← fx_ceil n;
       Done (Z.min n a)
     else Done a);
  _ ← (if BankCfg.are_deposits_reduce_only b then
         require (reduce_only || (amount_i80f48 =? a)) (EMango TokenInReduceOnlyMode)
       else Done tt);
  Done amount_i80f48.

(** The smallest deposit of the first token. *)
Definition minimum_deposit (b : Bank) : outcome Z :=
  p ← u64 (10 ^ bk_mint_decimals b);
  p ← fx_from_int p;
  i128 (50 * p).

(** [account.fixed.net_deposits += amount_usd]. *)
Definition change_net_deposits (a : MangoAccount) (change : Z) : outcome MangoAccount :=
  n ← i64 (af_net_deposits (ma_fixed a) + change);
  Done (set_ma_fixed a ((ma_fixed a) <| af_net_deposits := n |>)).

(** The check of the group's deposit limit. *)
Definition check_group_deposit_limit (group : Group) (account : MangoAccount) (cache : HealthCache) : outcome unit :=
  if 0 <? gr_deposit_limit_quote group then
    _ ← require (length (hc_token_infos cache) =? length (Account.active_token_positions account))%nat ERequireEq;
    '(assets, _) ← health_assets_and_liabs_stable_assets cache Init;
    assets ← fx_round_to_zero assets;
    assets ← fx_to_u64 assets;
    require (assets <=? gr_deposit_limit_quote group) (EMango DepositLimit)
  else Done tt.

Definition deposit_into_existing (t : TokenAccounts) (clock : Clock) (amount : Z)
    (reduce_only allow_token_account_closure : bool) : outcome TokenAccounts :=
  _ ← require (0 <? amount) error_msg;
  let b := tx_bank t in
  let token_index := bk_token_index b in
  amount_min ← minimum_deposit b;
  _ ← require (negb (token_index =? 0) || (amount_min <=? fx_int amount)) error_msg;
  '(position, raw_token_index) ← Account.token_position_and_raw_index (tx_account t) token_index;
  amount_i80f48 ← deposit_amount b position amount reduce_only;
  '(b, position, position_is_active) ← deposit b position amount_i80f48 (clock_ts clock);
  let account := Account.set_token (tx_account t) raw_token_index position in
  n ← fx_to_u64 amount_i80f48;
  '(token_account, vault) ← token_transfer (tx_token_account t) (tx_vault t) n;
  unsafe_oracle_state ← oracle_state_unchecked (from_reader (tx_oracle t)) (bk_mint_decimals b);
  _ ← (if 0 <? tp_indexed_position position then check_deposit_and_oo_limit b else Done tt);
  usd ← fx_mul amount_i80f48 (os_price unsafe_oracle_state);
  amount_usd ← fx_to_i64 usd;
  account ← change_net_deposits account amount_usd;
  retriever ← new_fixed_order_account_retriever_with_optional_banks
                (sync_bank (tx_bank_pk t) b (tx_remaining t)) account (clock_slot clock);
  cache ← new_health_cache_skipping_missing_banks_and_bad_oracles account retriever (clock_ts clock);
  account ←
    (if negb (Fixed.is_in_health_region (ma_fixed account)) && Fixed.being_liquidated (ma_fixed account) then
       h ← health cache LiquidationEnd;
       let '(f, recovered) := Fixed.maybe_recover_from_being_liquidated (ma_fixed account) h in
       _ ← require recovered (EMango DepositsIntoLiquidatingMustRecover);
       Done (set_ma_fixed account f)
     else Done account);
  _ ← check_group_deposit_limit (tx_group t) account cache;
  account ←
    (if allow_token_account_closure && negb position_is_active
     then Account.deactivate_token_position account raw_token_index else Done account);
  Done ((((t <| tx_account := account |>) <| tx_bank := b |>) <| tx_vault := vault |>)
          <| tx_token_account := token_account |>).

(** A new position needs a valid oracle. *)
Definition ensure_deposit_position (t : TokenAccounts) (clock : Clock) : outcome MangoAccount :=
  let token_index := bk_token_index (tx_bank t) in
  if existsb (fun p => Token.is_active_for_token p token_index) (ma_tokens (tx_account t)) then Done (tx_account t)
  else
    _ ← oracle_price (tx_bank t) (from_reader (tx_oracle t)) (Some (clock_slot clock));
    '(account, _, _) ← Account.ensure_token_position (tx_account t) token_index;
    Done account.

Definition token_deposit (t : TokenAccounts) (owner : Pubkey) (clock : Clock) (amount : Z) (reduce_only : bool) :
    outcome TokenAccounts :=
  _ ← token_constraints t IxTokenDeposit clock;
  _ ← owner_constraint t owner clock;
  account ← ensure_deposit_position t clock;
  deposit_into_existing (t <| tx_account := account |>) clock amount reduce_only true.

Definition token_deposit_into_existing (t : TokenAccounts) (clock : Clock) (amount : Z) (reduce_only : bool) :
    outcome TokenAccounts :=
  _ ← token_constraints t IxTokenDeposit clock;
  deposit_into_existing t clock amount reduce_only false.

(** ** Withdrawals *)

Definition DELEGATE_WITHDRAW_MAX : Z := 100000.

(** The restrictions on delegates. [token_account_pk] and [token_account_owner] describe the
    target, [owner_ata] is the owner's associated token account for the vault's mint. *)
Definition delegate_restrictions (token_account_pk token_account_owner owner_ata : Pubkey) (a : MangoAccount)
    (position_is_active : bool) (amount_usd : Z) : outcome unit :=
  _ ← require (token_account_pk =? owner_ata) (EMango DelegateWithdrawOnlyToOwnerAta);
  _ ← require (token_account_owner =? af_owner (ma_fixed a)) (EMango DelegateWithdrawOnlyToOwnerAta);
  _ ← require (negb position_is_active) (EMango DelegateWithdrawMustClosePosition);
  require (amount_usd <=? DELEGATE_WITHDRAW_MAX) (EMango DelegateWithdrawSmall).

(** The health check before a withdrawal, unless the account is in a health region. *)
Definition withdraw_pre_health (t : TokenAccounts) (account : MangoAccount) (clock : Clock) :
    outcome (MangoAccount * option (HealthCache * Z)) :=
  if negb (Fixed.is_in_health_region (ma_fixed account)) then
    retriever ← new_fixed_order_account_retriever_with_optional_banks (tx_remaining t) account (clock_slot clock);
    health_cache ← new_health_cache_skipping_missing_banks_and_bad_oracles account retriever (clock_ts clock);
    '(account, pre_init_health) ← Account.check_health_pre account health_cache;
    Done (account, Some (health_cache, pre_init_health))
  else Done (account, None).

(** The health check after it. *)
Definition withdraw_post_health (pre_health_opt : option (HealthCache * Z)) (b : Bank) (is_borrow : bool)
    (native_position native_position_after : Z) : outcome unit :=
  match pre_health_opt with
  | None => Done tt
  | Some (health_cache, pre_init_health_lower_bound) =>
      if has_token_info health_cache (bk_token_index b) then
        change ← fx_sub native_position_after native_position;
        health_cache ← adjust_token_balance health_cache b change;
        _ ← Account.check_health_post health_cache pre_init_health_lower_bound;
        Done tt
      else
        _ ← require (negb is_borrow) (EMango BorrowsRequireHealthAccountBank);
        Account.check_health_post_checks_strict pre_init_health_lower_bound
  end.

(** The limits on borrows. *)
Definition withdraw_bank_limits (b : Bank) (is_borrow : bool) (oracle_state : OracleState) (clock : Clock) : outcome unit :=
  if is_borrow then
    _ ← enforce_max_utilization_on_borrow b;
    ok ← check_confidence_and_maybe_staleness oracle_state (bk_oracle_config b) (Some (clock_slot clock));
    match ok with
    | Ok _ => check_net_borrows b (os_price oracle_state)
    | Err e => Fail e
    end
  else enforce_borrows_lte_deposits b.

(** The amount that is withdrawn: [u64::MAX] without borrowing means everything. [None]: there
    is nothing to withdraw and the instruction ends. *)
Definition withdraw_amount (native_position amount : Z) (allow_borrow : bool) : outcome (option Z) :=
  if (amount =? U64_MAX) && negb allow_borrow then
    if negb (native_position <? 0) then
      n ← fx_floor native_position; n ← fx_to_u64 n; Done (Some n)
    else Done None
  else Done (Some amount).

Definition token_withdraw (t : TokenAccounts) (owner token_account_pk token_account_owner owner_ata : Pubkey)
    (clock : Clock) (amount : Z) (allow_borrow : bool) : outcome TokenAccounts :=
  _ ← token_constraints t IxTokenWithdraw clock;
  _ ← owner_constraint t owner clock;
  _ ← require (0 <? amount) error_msg;
  let b := tx_bank t in
  '(account, raw_token_index, _) ← Account.ensure_token_position (tx_account t) (bk_token_index b);
  '(account, pre_health_opt) ← withdraw_pre_health t account clock;
  position ← unwrap (ma_tokens account !! raw_token_index);
  native_position ← native position b;
  o ← withdraw_amount native_position amount allow_borrow;
  match o with
  | None => Done (t <| tx_account := account |>)
  | Some amount =>
      let is_borrow := native_position <? fx_int amount in
      _ ← require (allow_borrow || negb is_borrow) (EMango SomeError);
      _ ← (if BankCfg.are_borrows_reduce_only b then require (negb is_borrow) (EMango TokenInReduceOnlyMode)
           else Done tt);
      amount_i80f48 ← fx_from_int amount;
      unsafe_oracle_state ← oracle_state_unchecked (from_reader (tx_oracle t)) (bk_mint_decimals b);
      '(b, position, withdraw_result) ← withdraw_with_fee b position amount_i80f48 (clock_ts clock);
      native_position_after ← native position b;
      let account := Account.set_token account raw_token_index position in
      _ ← require (negb (tx_vault t <? amount)) (EMango InsufficentBankVaultFunds);
      '(vault, token_account) ← token_transfer (tx_vault t) (tx_token_account t) amount;
      usd ← fx_mul amount_i80f48 (os_price unsafe_oracle_state);
      amount_usd ← fx_to_i64 usd;
      account ← change_net_deposits account (- amount_usd);
      _ ← (if Fixed.is_delegate (ma_fixed account) (clock_ts clock) owner then
             delegate_restrictions token_account_pk token_account_owner owner_ata account
               (wr_position_is_active withdraw_result) amount_usd
           else Done tt);
      _ ← withdraw_post_health pre_health_opt b is_borrow native_position native_position_after;
      account ← (if negb (wr_position_is_active withdraw_result)
                 then Account.deactivate_token_position account raw_token_index else Done account);
      _ ← withdraw_bank_limits b is_borrow unsafe_oracle_state clock;
      Done ((((t <| tx_account := account |>) <| tx_bank := b |>) <| tx_vault := vault |>)
              <| tx_token_account := token_account |>)
  end.

End instructions.
