(* ===== verification/TokenInstructionsSpec.v ===== *)
(** * Properties of deposits and withdrawals

    What a successful deposit or withdrawal did to the token accounts, the bank, the
    position and the account, and which checks it passed. *)

From stdpp Require Import base numbers option list.
From Stdlib Require Import ZArith Lia SpecFloat.
From S2P Require Import Prelude FixedPoint HealthType TokenPosition Nodes Oracle StablePrice Bank BankSpec BankInterest Group Serum3 PerpMarket PerpPosition MangoAccount HealthCache AccountRetriever TokenInstructions.

Open Scope Z_scope.

Section spec.
Context `{FixedLaws} `{TokenLaws}.

(** ** Helpers *)


Lemma if_require_inv (c b : bool) e u : (if c then require b e else Done tt) = Done u -> c = true -> b = true.
Proof. intros E ->. by apply require_inv in E. Qed.

(** What [check_health_post_checks] lets pass. *)
Definition health_kept (pre post : Z) : Prop :=
  0 <= post \/ pre <= post \/
  (post < fx_int (-1000) /\ - (- pre / fx_scale) <= - (- post / fx_scale)).

Lemma check_health_post_checks_kept pre post :
  Account.check_health_post_checks pre post = Done tt -> health_kept pre post.
Proof.
  unfold Account.check_health_post_checks, health_kept. intros E.
  apply bind_Done_inv in E as (d & D & E). apply require_inv, orb_true_iff in E as [E|E]; [left; mlia|].
  subst d. destruct (Z.ltb_spec post (fx_int (-1000))) as [Hp|Hp].
  - apply bind_Done_inv in D as (x & X & D). apply bind_Done_inv in D as (y & Y & D). injection D as D.
    apply fx_ceil_inv in X. apply fx_ceil_inv in Y. right. right. split; [done|].
    apply Z.leb_le in D. subst x y. unfold fx_int in D. pose proof (eq_refl : 0 < fx_scale = (0 < fx_scale)).
    assert (0 < fx_scale) by done. nia.
  - injection D as D. right. left. mlia.
Qed.

(** An account that passed [check_health_pre] is not being liquidated. *)
Lemma check_health_pre_flag {C} `{HealthSource C} a (c : C) a' h :
  Account.check_health_pre a c = Done (a', h) ->
  Fixed.being_liquidated (ma_fixed a') = false /\ health_of c Init = Done h /\
  ma_tokens a' = ma_tokens a /\ af_in_health_region (ma_fixed a') = af_in_health_region (ma_fixed a).
Proof.
  unfold Account.check_health_pre, Account.check_health_pre_checks. intros E.
  apply bind_Done_inv in E as (h0 & Eh & E). apply bind_Done_inv in E as (a1 & E1 & E). injection E as <- <-.
  unfold Fixed.maybe_recover_from_being_liquidated in E1.
  assert (Hr : forall f b, af_in_health_region (Fixed.set_being_liquidated f b) = af_in_health_region f) by done.
  destruct (_ && _) in E1; apply bind_Done_inv in E1 as (f & Ef & E1); apply bind_Done_inv in E1 as (u & Eu & E1);
    injection E1 as <-; apply require_inv, negb_true_iff in Eu; split_and!; try done; simpl.
  - simpl in Ef. by injection Ef as <-.
  - destruct (Fixed.being_liquidated (ma_fixed a)) in Ef; [|by injection Ef as <-].
    apply bind_Done_inv in Ef as (l & _ & Ef). injection Ef as <-. by case_match.
Qed.

(** The checks that every deposit and withdrawal of an owner passes. *)
Definition authorised (t : TokenAccounts) (ix : IxGate) (signer : Pubkey) (clock : Clock) : Prop :=
  GroupCfg.is_ix_enabled (tx_group t) ix = true /\
  Fixed.is_operational (ma_fixed (tx_account t)) (clock_ts clock) = true /\
  Fixed.is_owner_or_delegate (ma_fixed (tx_account t)) (clock_ts clock) signer = true /\
  af_group (ma_fixed (tx_account t)) = tx_group_pk t /\
  bk_group (tx_bank t) = tx_group_pk t /\ bk_vault (tx_bank t) = tx_vault_pk t /\
  bk_oracle (tx_bank t) = fst (tx_oracle t).

Lemma authorised_inv t ix signer clock u v :
  token_constraints t ix clock = Done u -> owner_constraint t signer clock = Done v -> authorised t ix signer clock.
Proof.
  unfold token_constraints, owner_constraint, authorised. intros. inv_run. bool_to_prop.
  repeat match goal with X : require _ _ = Done _ |- _ => apply require_inv in X end. bool_to_prop.
  split_and!; (done || lia).
Qed.

Lemma change_net_deposits_inv a n a' : change_net_deposits a n = Done a' ->
  ma_tokens a' = ma_tokens a /\ Fixed.being_liquidated (ma_fixed a') = Fixed.being_liquidated (ma_fixed a) /\
  af_in_health_region (ma_fixed a') = af_in_health_region (ma_fixed a) /\
  af_net_deposits (ma_fixed a') = af_net_deposits (ma_fixed a) + n.
Proof. unfold change_net_deposits. intros E. by inv_run. Qed.

Lemma deactivate_fixed (c : bool) a i a' :
  (if c then Account.deactivate_token_position a i else Done a) = Done a' -> ma_fixed a' = ma_fixed a.
Proof. unfold Account.deactivate_token_position. destruct c; intros E; by inv_run. Qed.

Lemma ensure_token_position_inv a i a' raw bank_index :
  Account.ensure_token_position a i = Done (a', raw, bank_index) ->
  ma_fixed a' = ma_fixed a /\
  exists p, ma_tokens a !! raw = Some p /\
    ma_tokens a' !! raw = Some (if Token.is_active_for_token p i then p else mkTokenPosition 0 i 0 0 f_zero f_zero).
Proof.
  unfold Account.ensure_token_position. intros E. destruct (Account.match_or_free_token _ _ _ _ _) as [[r k]|]; [|done].
  apply bind_Done_inv in E as (p & Ep & E). injection E as <- <- <-.
  unfold unwrap in Ep. destruct (ma_tokens a !! r) as [q|] eqn:Eq; [|done]. injection Ep as <-.
  split; [done|]. exists q. split; [done|]. simpl.
  rewrite list_lookup_insert_eq by (by eapply lookup_lt_Some). by destruct (Token.is_active_for_token q i).
Qed.

(** ** Positions in an account *)

(** The slot [i] taken for a token: it holds the token's position already, or it was unused
    and gets a new one. *)
Definition taken (ts : list TokenPosition) (ti : Z) (i : nat) (q : TokenPosition) : Prop :=
  exists p, ts !! i = Some p /\
    if Token.is_active_for_token p ti then q = p
    else Token.is_active p = false /\ q = mkTokenPosition 0 ti 0 0 f_zero f_zero.

(** The positions once the one in slot [i] is marked as unused, unless it is still active. *)
Definition tidy (active : bool) (i : nat) (ts : list TokenPosition) : list TokenPosition :=
  if active then ts else alter (fun p => set_tp_token_index p TOKEN_INDEX_MAX) i ts.

Lemma match_or_free_unused ti ts r k acc i n : Account.match_or_free_token ts ti r k acc = Some (i, n) ->
  acc = Some (i, n) \/
  (r <= i)%nat /\ exists p, ts !! (i - r)%nat = Some p /\ (Token.is_active_for_token p ti = true \/ Token.is_active p = false).
Proof.
  revert r k acc. induction ts as [|t ts IH]; intros r k acc E; simpl in E; [by left|].
  destruct (Token.is_active_for_token t ti) eqn:Et.
  { injection E as <- <-. right. split; [done|]. exists t. rewrite Nat.sub_diag. eauto. }
  assert (Hlater : forall p, ts !! (i - S r)%nat = Some p -> (S r <= i)%nat -> (t :: ts) !! (i - r)%nat = Some p).
  { intros p Hp Hle. by replace (i - r)%nat with (S (i - S r)) by lia. }
  destruct (Token.is_active t) eqn:Ea; apply IH in E as [Hacc|(Hle & p & Hp & Hd)].
  - by left.
  - right. split; [lia|]. eauto.
  - destruct acc; [by left|]. injection Hacc as <- <-. right. split; [done|]. exists t. rewrite Nat.sub_diag. eauto.
  - right. split; [lia|]. eauto.
Qed.

Lemma ensure_taken a ti a' i k : Account.ensure_token_position a ti = Done (a', i, k) ->
  exists q, taken (ma_tokens a) ti i q /\ a' = Account.set_token a i q /\ ma_tokens a' !! i = Some q.
Proof.
  unfold Account.ensure_token_position. intros E.
  destruct (Account.match_or_free_token _ _ _ _ _) as [[r n]|] eqn:Em; [|done].
  apply bind_Done_inv in E as (p & Ep & E). apply unwrap_inv in Ep. injection E as <- <- <-.
  eexists. split; [|split; [done|]]; [|simpl; apply list_lookup_insert_eq; by eapply lookup_lt_Some].
  exists p. split; [done|]. destruct (Token.is_active_for_token p ti) eqn:Et; [done|]. simpl. split; [|done].
  apply match_or_free_unused in Em as [[=]|(_ & p' & Ep' & Hd)]. rewrite Nat.sub_0_r in Ep'. simplify_eq. destruct Hd; congruence.
Qed.

Lemma deactivate_tidy (active : bool) a i a' :
  (if active then Done a else Account.deactivate_token_position a i) = Done a' ->
  a' = set_ma_tokens a (tidy active i (ma_tokens a)).
Proof.
  destruct active; simpl; [intros [= <-]; by destruct a|]. unfold Account.deactivate_token_position. intros E.
  apply bind_Done_inv in E as (p & Ep & E). apply unwrap_inv in Ep. apply bind_Done_inv in E as (u & _ & E).
  injection E as <-. unfold Account.set_token. f_equal. symmetry.
  apply list_eq. intros j. destruct (decide (i = j)) as [<-|Hne].
  - rewrite list_lookup_alter_eq, Ep, list_lookup_insert_eq by (by eapply lookup_lt_Some). done.
  - by rewrite list_lookup_alter_ne, list_lookup_insert_ne.
Qed.

Lemma ensure_perp_position_fixed a mi ti a' i :
  Account.ensure_perp_position a mi ti = Done (a', i) -> ma_fixed a' = ma_fixed a.
Proof.
  unfold Account.ensure_perp_position. destruct (Account.perp_raw_index a mi); [by intros [= <- <-]|].
  destruct (position _ _); [|done]. intros E. apply bind_Done_inv in E as ([[a1 k] n1] & Ee & E).
  apply ensure_token_position_inv in Ee as [Ef _]. do 2 (apply bind_Done_inv in E as (? & _ & E)). injection E as <- _. exact Ef.
Qed.

(** The amount that a withdrawal pays out. *)
Definition withdrawn_amount (v amount : Z) (allow_borrow : bool) : Z :=
  if (amount =? U64_MAX) && negb allow_borrow then Z.max 0 v / fx_scale else amount.

Lemma withdraw_amount_inv v amount allow_borrow o :
  withdraw_amount v amount allow_borrow = Done o ->
  match o with
  | None => amount = U64_MAX /\ allow_borrow = false /\ v < 0
  | Some n => n = withdrawn_amount v amount allow_borrow
  end.
Proof.
  unfold withdraw_amount, withdrawn_amount. intros E. destruct (_ && _) eqn:C; [|by injection E as <-].
  destruct (Z.ltb_spec v 0); simpl in E.
  - injection E as <-. by bool_to_prop.
  - fx_inv. rewrite Z.max_r by lia. unfold fx_int. by rewrite Z.div_mul.
Qed.

(** ** Withdrawals *)

(** The check before an instruction only touches the fixed part of the account. *)
Lemma check_health_pre_account {C} `{HealthSource C} a (c : C) a' h :
  Account.check_health_pre a c = Done (a', h) -> a' = set_ma_fixed a (ma_fixed a').
Proof.
  unfold Account.check_health_pre, Account.check_health_pre_checks. intros E.
  apply bind_Done_inv in E as (h0 & _ & E). apply bind_Done_inv in E as (a1 & E1 & E). injection E as <- <-.
  destruct (Fixed.maybe_recover_from_being_liquidated _ _) as [f ?]. apply bind_Done_inv in E1 as (f' & _ & E1).
  apply bind_Done_inv in E1 as (u & _ & E1). by injection E1 as <-.
Qed.

(** The health cache of an account, from the accounts passed in the fixed order. *)
Definition fixed_order_cache (ais : list AccountInfo) (a : MangoAccount) (clock : Clock) (c : HealthCache) : Prop :=
  exists r, new_fixed_order_account_retriever_with_optional_banks ais a (clock_slot clock) = Done r /\
    new_health_cache_skipping_missing_banks_and_bad_oracles a r (clock_ts clock) = Done c.

(** Outside a health region the account is not being liquidated after the first check. *)
Lemma withdraw_pre_health_inv t a clock a' ph :
  withdraw_pre_health t a clock = Done (a', ph) ->
  ma_tokens a' = ma_tokens a /\ Fixed.is_in_health_region (ma_fixed a') = Fixed.is_in_health_region (ma_fixed a) /\
  (Fixed.is_in_health_region (ma_fixed a) = false ->
   Fixed.being_liquidated (ma_fixed a') = false /\
   exists c h, ph = Some (c, h) /\ fixed_order_cache (tx_remaining t) a clock c /\ health c Init = Done h).
Proof.
  unfold withdraw_pre_health. destruct (Fixed.is_in_health_region (ma_fixed a)) eqn:R; simpl; intros E.
  { injection E as <- <-. by rewrite R. }
  apply bind_Done_inv in E as (r & Er & E). apply bind_Done_inv in E as (c & Ec & E).
  apply bind_Done_inv in E as ([a1 h] & E1 & E). injection E as <- <-.
  apply check_health_pre_flag in E1 as (F & Eh & T & Hr). unfold Fixed.is_in_health_region in *.
  split; [done|]. split; [congruence|]. intros _. split; [done|]. exists c, h. unfold fixed_order_cache. eauto.
Qed.

(** What the second health check guarantees: with the token in the health computation, the
    adjusted health is kept; without it nothing is borrowed and the health is positive. *)
Definition withdraw_health_kept (c : HealthCache) (pre : Z) (b : Bank) (v v' : Z) (is_borrow : bool) : Prop :=
  if has_token_info c (bk_token_index b) then
    exists c' post, adjust_token_balance c b (v' - v) = Done c' /\ health c' Init = Done post /\ health_kept pre post
  else is_borrow = false /\ 0 <= pre.

Lemma withdraw_post_health_inv c pre b is_borrow v v' u :
  withdraw_post_health (Some (c, pre)) b is_borrow v v' = Done u -> withdraw_health_kept c pre b v v' is_borrow.
Proof.
  unfold withdraw_post_health, withdraw_health_kept. destruct (has_token_info _ _); intros E.
  - apply bind_Done_inv in E as (ch & Ec & E). apply fx_sub_inv in Ec as ->.
    apply bind_Done_inv in E as (c' & Ea & E). apply bind_Done_inv in E as (post & Ep & _).
    unfold Account.check_health_post in Ep. apply bind_Done_inv in Ep as (post' & Eh & Ep).
    apply bind_Done_inv in Ep as ([] & Ek & Ep). injection Ep as ->.
    exists c', post. split_and!; [done..|]. by apply check_health_post_checks_kept.
  - apply bind_Done_inv in E as (w & Ew & E). apply require_inv, negb_true_iff in Ew.
    apply require_inv, Z.leb_le in E. done.
Qed.

(** The parts of a successful withdrawal. *)
Lemma token_withdraw_inv t owner tpk town ata clock amount allow_borrow t' :
  token_withdraw t owner tpk town ata clock amount allow_borrow = Done t' ->
  authorised t IxTokenWithdraw owner clock /\
  exists a0 raw k a ph p,
    Account.ensure_token_position (tx_account t) (bk_token_index (tx_bank t)) = Done (a0, raw, k) /\
    withdraw_pre_health t a0 clock = Done (a, ph) /\ ma_tokens a !! raw = Some p /\
    let v := value (tx_bank t) p in
    (t' = t <| tx_account := a |> /\ amount = U64_MAX /\ allow_borrow = false /\ v < 0) \/
    let n := withdrawn_amount v amount allow_borrow in
    exists p' r os,
      oracle_state_unchecked (from_reader (tx_oracle t)) (bk_mint_decimals (tx_bank t)) = Done os /\
      (v < fx_int n -> allow_borrow = true /\ BankCfg.are_borrows_reduce_only (tx_bank t) = false) /\
      withdraw_with_fee (tx_bank t) p (fx_int n) (clock_ts clock) = Done (tx_bank t', p', r) /\
      n <= tx_vault t /\ tx_vault t' = tx_vault t - n /\ tx_token_account t' = tx_token_account t + n /\
      Fixed.being_liquidated (ma_fixed (tx_account t')) = Fixed.being_liquidated (ma_fixed a) /\
      ma_tokens (tx_account t') = tidy (wr_position_is_active r) raw (<[raw := p']> (ma_tokens a)) /\
      withdraw_post_health ph (tx_bank t') (v <? fx_int n) v (value (tx_bank t') p') = Done tt /\
      withdraw_bank_limits (tx_bank t') (v <? fx_int n) os clock = Done tt.
Proof.
  unfold token_withdraw. intros E.
  apply bind_Done_inv in E as (u1 & C1 & E). apply bind_Done_inv in E as (u2 & C2 & E).
  split; [by eapply authorised_inv|]. clear C1 C2. apply bind_Done_inv in E as (u3 & _ & E).
  apply bind_Done_inv in E as ([[a0 raw] k] & Ee & E). apply bind_Done_inv in E as ([a ph] & Eph & E).
  apply bind_Done_inv in E as (p & Ep & E). unfold unwrap in Ep. destruct (ma_tokens a !! raw) as [p0|] eqn:El; [|done].
  injection Ep as ->. apply bind_Done_inv in E as (v & Ev & E). apply native_value in Ev as ->.
  apply bind_Done_inv in E as (o & Eo & E). apply withdraw_amount_inv in Eo.
  exists a0, raw, k, a, ph, p. split_and!; [done..|]. cbv zeta.
  destruct o as [n|]; [right; subst n|left; by injection E as <-].
  set (n := withdrawn_amount _ _ _) in *.
  apply bind_Done_inv in E as (u4 & B1 & E). apply bind_Done_inv in E as (u5 & B2 & E).
  apply bind_Done_inv in E as (ai & Eai & E). apply fx_from_int_inv in Eai as ->.
  apply bind_Done_inv in E as (os & Eos & E). apply bind_Done_inv in E as ([[b' p'] r] & Ew & E).
  apply bind_Done_inv in E as (v' & Ev' & E). apply native_value in Ev' as ->.
  apply bind_Done_inv in E as (u6 & _ & E). apply bind_Done_inv in E as ([vault ta] & Et & E).
  apply transfer_inv in Et as (-> & -> & Hn). apply bind_Done_inv in E as (usd & _ & E).
  apply bind_Done_inv in E as (usd' & _ & E). apply bind_Done_inv in E as (a2 & En & E).
  apply bind_Done_inv in E as (u7 & _ & E). apply bind_Done_inv in E as ([] & Eh & E).
  apply bind_Done_inv in E as (a3 & Ed & E). apply bind_Done_inv in E as ([] & Elim & E). injection E as <-.
  rewrite if_negb in Ed. apply deactivate_tidy in Ed as ->. apply change_net_deposits_inv in En as (Htk & Hb & _ & _).
  exists p', r, os. split_and!; try done.
  - intros Hlt%Z.ltb_lt. rewrite Hlt in B1, B2. apply require_inv in B1. split; [by destruct allow_borrow|].
    by destruct (BankCfg.are_borrows_reduce_only _).
  - simpl. by rewrite Htk.
Qed.

(** A withdrawal pays out of the vault exactly what it takes from the position: it is
    signed by the owner or the delegate of an account that is not frozen, of the bank's
    group, while the instruction is enabled; the vault loses what the token account
    gains, and had it; the position and the bank change as a withdrawal with a loan
    origination fee does; more than the position holds is paid only if a borrow was
    allowed and the bank allows borrows. Withdrawing [u64::MAX] without borrowing pays
    the whole tokens of the position, and nothing if it is a borrow. *)
Theorem token_withdraw_pays_out t owner tpk town ata clock amount allow_borrow t' :
  indexes_ok (tx_bank t) -> 0 <= bk_loan_origination_fee_rate (tx_bank t) ->
  token_withdraw t owner tpk town ata clock amount allow_borrow = Done t' ->
  authorised t IxTokenWithdraw owner clock /\
  exists p n,
    n = withdrawn_amount (value (tx_bank t) p) amount allow_borrow /\
    tx_vault t' = tx_vault t - n /\ tx_token_account t' = tx_token_account t + n /\
    ((value (tx_bank t) p < 0 /\ n = 0 /\ tx_bank t' = tx_bank t) \/
     (n <= tx_vault t /\
      (exists p' r, withdrawn (tx_bank t) p (fx_int n) true (negb (Token.is_in_use p)) (tx_bank t') p' r) /\
      (value (tx_bank t) p < fx_int n -> allow_borrow = true /\ BankCfg.are_borrows_reduce_only (tx_bank t) = false))).
Proof.
  intros HI HR E. apply token_withdraw_inv in E as (A & a0 & raw & k & a & ph & p & _ & _ & _ & [E|E]).
  - destruct E as (-> & -> & -> & Hv). split; [done|]. exists p, 0. unfold withdrawn_amount.
    rewrite Z.eqb_refl, Z.max_l by lia. simpl. rewrite Z.sub_0_r, Z.add_0_r. split_and!; [done..|]. by left.
  - destruct E as (p' & r & os & _ & Hb & Ew & Hn & Hvt & Htt & _). split; [done|].
    eexists p, _. split_and!; [done..|]. right. split_and!; [done| |done].
    exists p', r. by eapply withdraw_internal_wrapper_spec.
Qed.

(** The limits of the bank after a withdrawal, at the state of its oracle. *)
Definition bank_limits_kept (b : Bank) (os : OracleState) (slot : Z) (is_borrow : bool) : Prop :=
  if is_borrow then
    enforce_max_utilization_on_borrow b = Done tt /\
    (exists u, check_confidence_and_maybe_staleness os (bk_oracle_config b) (Some slot) = Done (Ok u)) /\
    check_net_borrows b (os_price os) = Done tt
  else exists d br, native_deposits b = Done d /\ native_borrows b = Done br /\ br <= d.

Lemma withdraw_bank_limits_inv b is_borrow os clock :
  withdraw_bank_limits b is_borrow os clock = Done tt -> bank_limits_kept b os (clock_slot clock) is_borrow.
Proof.
  unfold withdraw_bank_limits, bank_limits_kept. destruct is_borrow; intros El.
  - apply bind_Done_inv in El as ([] & U & El). apply bind_Done_inv in El as (o & Eo & El).
    destruct o; [|done]. eauto.
  - unfold enforce_borrows_lte_deposits, enforce_max_utilization in El.
    apply bind_Done_inv in El as (d & Ed & El). apply bind_Done_inv in El as (br & Eb & El).
    apply bind_Done_inv in El as (l & Elim & El). apply fx_mul_inv in Elim as ->.
    apply require_inv, negb_true_iff, Z.ltb_ge in El. exists d, br. split_and!; [done..|].
    unfold fx_one in El. rewrite Z.mul_comm, Z.div_mul in El by done. done.
Qed.

(** C9: Outside a health region a withdrawal leaves the account without the liquidation flag
    and with its init health kept, for the position's change of value: positive, or not
    lower than before, where an account below -1000 may fall within the same whole unit. If
    the token is not part of the health computation, nothing is borrowed and the health was
    positive. The account holds the position that the bank's withdrawal gives, in the slot
    taken for the token and marked unused if it is no longer active. A borrow was asked for,
    the bank allows borrows, its utilization is under the limit, its oracle is neither stale
    nor too uncertain, and the net borrows of the window are within the limit at the
    oracle's price; any other withdrawal leaves borrows no larger than deposits. A request
    for the whole deposit of a position that is a borrow does nothing but take the slot. *)
Theorem token_withdraw_healthy t owner tpk town ata clock amount allow_borrow t' :
  Fixed.is_in_health_region (ma_fixed (tx_account t)) = false ->
  token_withdraw t owner tpk town ata clock amount allow_borrow = Done t' ->
  Fixed.being_liquidated (ma_fixed (tx_account t')) = false /\
  exists raw p c pre,
    taken (ma_tokens (tx_account t)) (bk_token_index (tx_bank t)) raw p /\
    fixed_order_cache (tx_remaining t) (Account.set_token (tx_account t) raw p) clock c /\ health c Init = Done pre /\
    let v := value (tx_bank t) p in
    let n := withdrawn_amount v amount allow_borrow in
    let is_borrow := v <? fx_int n in
    (amount = U64_MAX /\ allow_borrow = false /\ v < 0 /\ tx_bank t' = tx_bank t /\ tx_vault t' = tx_vault t /\
     ma_tokens (tx_account t') = <[raw := p]> (ma_tokens (tx_account t))) \/
    exists p' r os,
      withdraw_with_fee (tx_bank t) p (fx_int n) (clock_ts clock) = Done (tx_bank t', p', r) /\
      ma_tokens (tx_account t') = tidy (wr_position_is_active r) raw (<[raw := p']> (ma_tokens (tx_account t))) /\
      tx_vault t' = tx_vault t - n /\ tx_token_account t' = tx_token_account t + n /\
      withdraw_health_kept c pre (tx_bank t') v (value (tx_bank t') p') is_borrow /\
      (is_borrow = true -> allow_borrow = true /\ BankCfg.are_borrows_reduce_only (tx_bank t) = false) /\
      oracle_state_unchecked (from_reader (tx_oracle t)) (bk_mint_decimals (tx_bank t)) = Done os /\
      bank_limits_kept (tx_bank t') os (clock_slot clock) is_borrow.
Proof.
  intros R E. apply token_withdraw_inv in E as (A & a0 & raw & k & a & ph & p & Ee & Eph & El0 & E).
  destruct (ensure_taken _ _ _ _ _ Ee) as (q & Hq & -> & Lq).
  apply withdraw_pre_health_inv in Eph as (Ht & _ & Hpre). rewrite Ht, Lq in El0. injection El0 as ->.
  destruct (Hpre R) as (Hf & c & h & -> & Hc & Eh). destruct E as [(-> & Hd & Hd' & Hv)|E].
  { split; [done|]. exists raw, p, c, h. split_and!; [done..|]. by left. }
  destruct E as (p' & r & os & Eos & Hb & Ew & _ & Hvt & Hta & Hfl & Htk & Ek & El). split; [congruence|].
  exists raw, p, c, h. split_and!; [done..|]. cbv zeta. right. exists p', r, os.
  rewrite Ht in Htk. simpl in Htk. rewrite list_insert_insert_eq in Htk.
  split_and!; [done..|by eapply withdraw_post_health_inv| |done|by apply withdraw_bank_limits_inv].
  intros Hlt. by apply Hb, Z.ltb_lt.
Qed.

(** ** Deposits *)

(** What is deposited: with a reduce-only deposit no more than the borrow, rounded up to
    whole tokens. *)
Definition deposited_amount (b : Bank) (p : TokenPosition) (amount : Z) (reduce_only : bool) : Z :=
  if reduce_only || BankCfg.are_deposits_reduce_only b
  then Z.min (- (Z.min (value b p) 0 / fx_scale)) amount else amount.

Lemma deposit_amount_inv b p amount reduce_only a :
  deposit_amount b p amount reduce_only = Done a ->
  a = fx_int (deposited_amount b p amount reduce_only) /\
  (BankCfg.are_deposits_reduce_only b = true -> reduce_only = false -> deposited_amount b p amount reduce_only = amount).
Proof.
  unfold deposit_amount, deposited_amount. intros E. assert (Hs : 0 < fx_scale) by done.
  apply bind_Done_inv in E as (am & Ea & E). apply fx_from_int_inv in Ea as ->.
  apply bind_Done_inv in E as (x & Ex & E). apply bind_Done_inv in E as (u & Eu & E). injection E as ->.
  assert (Hx : a = fx_int (if reduce_only || BankCfg.are_deposits_reduce_only b
    then Z.min (- (Z.min (value b p) 0 / fx_scale)) amount else amount)).
  { destruct (_ || _); [|by injection Ex as <-].
    apply bind_Done_inv in Ex as (v & Ev & Ex). apply native_value in Ev as ->. fx_inv.
    rewrite Z.abs_neq, Z.opp_involutive by lia. unfold fx_int. nia. }
  split; [done|]. intros Er ->. rewrite Er in *. simpl in *. apply require_inv, Z.eqb_eq in Eu.
  rewrite Hx in Eu. unfold fx_int in Eu. nia.
Qed.

Lemma minimum_deposit_inv b m : minimum_deposit b = Done m -> m = fx_int (50 * 10 ^ bk_mint_decimals b).
Proof. unfold minimum_deposit. intros E. fx_inv. apply i128_inv in E as ->. unfold fx_int. lia. Qed.

(** The parts of a successful deposit. *)
Lemma deposit_into_existing_inv t clock amount reduce_only closure t' :
  deposit_into_existing t clock amount reduce_only closure = Done t' ->
  exists p raw p' active,
    0 < amount /\ (bk_token_index (tx_bank t) = 0 -> 50 * 10 ^ bk_mint_decimals (tx_bank t) <= amount) /\
    Account.token_position_and_raw_index (tx_account t) (bk_token_index (tx_bank t)) = Done (p, raw) /\
    let n := deposited_amount (tx_bank t) p amount reduce_only in
    (BankCfg.are_deposits_reduce_only (tx_bank t) = true -> reduce_only = false -> n = amount) /\
    deposit (tx_bank t) p (fx_int n) (clock_ts clock) = Done (tx_bank t', p', active) /\
    tx_token_account t' = tx_token_account t - n /\ tx_vault t' = tx_vault t + n /\ n <= tx_token_account t /\
    (0 < tp_indexed_position p' -> check_deposit_and_oo_limit (tx_bank t') = Done tt) /\
    (Fixed.is_in_health_region (ma_fixed (tx_account t)) = false ->
     Fixed.being_liquidated (ma_fixed (tx_account t')) = false).
Proof.
  unfold deposit_into_existing. intros E.
  apply bind_Done_inv in E as (u1 & Ha & E). apply require_inv, Z.ltb_lt in Ha.
  apply bind_Done_inv in E as (m & Hm & E). apply minimum_deposit_inv in Hm as ->.
  apply bind_Done_inv in E as (u2 & Hmin & E). apply require_inv, orb_true_iff in Hmin.
  apply bind_Done_inv in E as ([p raw] & Ep & E). apply bind_Done_inv in E as (ai & Eai & E).
  apply deposit_amount_inv in Eai as [-> Hro]. set (n := deposited_amount _ _ _ _) in *.
  apply bind_Done_inv in E as ([[b' p'] active] & Ed & E).
  apply bind_Done_inv in E as (n' & En & E). apply fx_to_u64_inv in En as [En _].
  unfold fx_int in En. rewrite Z.div_mul in En by done. subst n'.
  apply bind_Done_inv in E as ([ta vault] & Et & E). apply transfer_inv in Et as (-> & -> & Hn).
  apply bind_Done_inv in E as (os & _ & E). apply bind_Done_inv in E as (u3 & Hl & E).
  apply bind_Done_inv in E as (usd & _ & E). apply bind_Done_inv in E as (usd' & _ & E).
  apply bind_Done_inv in E as (a1 & Ea1 & E). apply change_net_deposits_inv in Ea1 as (_ & Hb & Hr & _).
  apply bind_Done_inv in E as (rt & _ & E). apply bind_Done_inv in E as (cache & _ & E).
  apply bind_Done_inv in E as (a2 & Ea2 & E). apply bind_Done_inv in E as ([] & _ & E).
  apply bind_Done_inv in E as (a3 & Ea3 & E). injection E as <-. apply deactivate_fixed in Ea3.
  exists p, raw, p', active. cbv zeta. split_and!; try done.
  - intros Hz. rewrite Hz in Hmin. destruct Hmin as [Hmin|Hmin%Z.leb_le]; [done|]. unfold fx_int in Hmin.
    assert (0 < fx_scale) by done. nia.
  - intros Hp%Z.ltb_lt. rewrite Hp in Hl. by destruct u3.
  - simpl. intros R. rewrite Ea3. unfold Fixed.is_in_health_region in *. rewrite Hr in Ea2.
    change (ma_fixed (Account.set_token _ _ _)) with (ma_fixed (tx_account t)) in *. rewrite R in Ea2. simpl in Ea2.
    destruct (Fixed.being_liquidated (ma_fixed a1)) eqn:Eb; [|by injection Ea2 as <-].
    apply bind_Done_inv in Ea2 as (h & _ & Ea2). unfold Fixed.maybe_recover_from_being_liquidated in Ea2.
    rewrite Eb in Ea2. destruct (_ && _) in Ea2; simpl in Ea2; by inv_run.
Qed.

Lemma ensure_deposit_position_inv t clock a :
  ensure_deposit_position t clock = Done a -> ma_fixed a = ma_fixed (tx_account t).
Proof.
  unfold ensure_deposit_position. case_match; intros E; [by injection E as <-|].
  apply bind_Done_inv in E as (pr & _ & E). apply bind_Done_inv in E as ([[a' i] j] & Ee & E). injection E as <-.
  by apply ensure_token_position_inv in Ee as [-> _].
Qed.

(** A deposit credits exactly what it takes: the vault gains what the token account loses,
    which had it, and the bank and a position of its token change by the deposit of that
    amount, rounded in the account's favour. It is signed by the owner or the delegate of
    an account that is not frozen while the instruction is enabled. A reduce-only deposit
    (asked for, or forced by the bank) takes no more than the borrow, rounded up to whole
    tokens, and a reduce-only bank refuses a larger ordinary deposit; the first token has a
    minimum of fifty; a position with deposits passes the bank's deposit limit. Outside a
    health region a deposit into an account that is being liquidated has to end that. *)
Theorem token_deposit_credits t owner clock amount reduce_only t' :
  indexes_ok (tx_bank t) -> token_deposit t owner clock amount reduce_only = Done t' ->
  authorised t IxTokenDeposit owner clock /\
  (bk_token_index (tx_bank t) = 0 -> 50 * 10 ^ bk_mint_decimals (tx_bank t) <= amount) /\
  (exists p p' active n,
    n = deposited_amount (tx_bank t) p amount reduce_only /\
    (BankCfg.are_deposits_reduce_only (tx_bank t) = true -> reduce_only = false -> n = amount) /\
    tx_token_account t' = tx_token_account t - n /\ tx_vault t' = tx_vault t + n /\ n <= tx_token_account t /\
    deposited (tx_bank t) p (fx_int n) (negb (Token.is_in_use p)) (tx_bank t') p' active /\
    (0 < tp_indexed_position p' -> check_deposit_and_oo_limit (tx_bank t') = Done tt)) /\
  (Fixed.is_in_health_region (ma_fixed (tx_account t)) = false ->
   Fixed.being_liquidated (ma_fixed (tx_account t')) = false).
Proof.
  intros HI E. unfold token_deposit in E.
  apply bind_Done_inv in E as (u1 & C1 & E). apply bind_Done_inv in E as (u2 & C2 & E).
  apply bind_Done_inv in E as (a & Ea & E). apply ensure_deposit_position_inv in Ea.
  apply deposit_into_existing_inv in E as (p & raw & p' & active & Hamt & Hmin & _ & Hro & Ed & Ht & Hv & Hn & Hl & Hf).
  simpl in *. rewrite Ea in Hf. split; [by eapply authorised_inv|]. split; [done|]. split; [|done].
  eexists p, p', active, _. split_and!; [done..| |done]. by eapply deposit_internal_wrapper_spec.
Qed.

End spec.

(** ** Concrete instances *)

(** An account of owner 9 with 50 native tokens of the sample bank, whose vault holds 1000,
    in a group with every instruction enabled; their token account holds 100 million. *)
Definition withdraw_accounts : TokenAccounts :=
  mkTokenAccounts 1 (sample_group <| gr_ix_gate := 0 |>)
    ((account_default <| ma_fixed := (fixed_default <| af_group := 1 |>) <| af_owner := 9 |> |>)
       <| ma_tokens := [set_tp_token_index sample_position (bk_token_index sample_bank); Token.default] |>)
    20 sample_bank 3 1000 (oai_oracle sample_oracles) 100000000
    [(20, ABank sample_bank); (fst (oai_oracle sample_oracles), AOracle (snd (oai_oracle sample_oracles)))].

Definition withdraw_clock : Clock := mkClock 1000 50.

(** A concrete instance: 30 of the 50 tokens. *)
Lemma token_withdraw_pays_out_witness :
  exists t', @token_withdraw fixed_ref token_ref withdraw_accounts 9 0 0 0 withdraw_clock 30 false = Done t' /\
    tx_vault t' = 970 /\ authorised withdraw_accounts IxTokenWithdraw 9 withdraw_clock.
Proof.
  destruct (@token_withdraw fixed_ref token_ref withdraw_accounts 9 0 0 0 withdraw_clock 30 false) as [t'| | |] eqn:E;
    [|vm_compute in E; discriminate E..].
  exists t'. refine (conj eq_refl _).
  destruct (@token_withdraw_pays_out fixed_ref fixed_ref_laws token_ref token_ref_laws
    withdraw_accounts 9 0 0 0 withdraw_clock 30 false t') as (A & p & n & Hn & Hv & _).
  - split; reflexivity.
  - vm_compute. congruence.
  - exact E.
  - rewrite Hn in Hv. exact (conj Hv A).
Defined.

(** The witness of C9: withdrawing 60 of 50 tokens is a borrow, for which the health is too
    low; withdrawing 30 keeps it. *)
Lemma token_withdraw_healthy_witness :
  @token_withdraw fixed_ref token_ref withdraw_accounts 9 0 0 0 withdraw_clock 60 true
    = Fail (EMango HealthMustBePositiveOrIncrease) /\
  exists t', @token_withdraw fixed_ref token_ref withdraw_accounts 9 0 0 0 withdraw_clock 30 false = Done t' /\
    Fixed.being_liquidated (ma_fixed (tx_account t')) = false.
Proof.
  split; [vm_compute; reflexivity|].
  destruct (@token_withdraw fixed_ref token_ref withdraw_accounts 9 0 0 0 withdraw_clock 30 false) as [t'| | |] eqn:E;
    [|vm_compute in E; discriminate E..].
  exists t'. refine (conj eq_refl _).
  exact (proj1 (@token_withdraw_healthy fixed_ref fixed_ref_laws token_ref token_ref_laws
    withdraw_accounts 9 0 0 0 withdraw_clock 30 false t' eq_refl E)).
Defined.

(** A concrete instance: the smallest deposit of the first token. *)
Lemma token_deposit_credits_witness :
  exists t', @token_deposit fixed_ref token_ref withdraw_accounts 9 withdraw_clock 50000000 false = Done t' /\
    authorised withdraw_accounts IxTokenDeposit 9 withdraw_clock /\
    exists n, tx_token_account t' = 100000000 - n /\ tx_vault t' = 1000 + n.
Proof.
  destruct (@token_deposit fixed_ref token_ref withdraw_accounts 9 withdraw_clock 50000000 false) as [t'| | |] eqn:E;
    [|vm_compute in E; discriminate E..].
  exists t'. refine (conj eq_refl _).
  destruct (@token_deposit_credits fixed_ref fixed_ref_laws token_ref token_ref_laws
    withdraw_accounts 9 withdraw_clock 50000000 false t') as (A & _ & (p & p' & active & n & _ & _ & Ht & Hv & _) & _).
  - split; reflexivity.
  - exact E.
  - exact (conj A (ex_intro _ n (conj Ht Hv))).
Defined.
