(* ===== verification/TokenLiquidation.v ===== *)
(** * Liquidating a borrow with a deposit

    instructions/token_liq_with_token.rs with the constraints of
    accounts_ix/token_liq_with_token.rs: a liqor takes over part of a liqee's borrow and
    receives some of its deposits for it, at the oracle prices and with a fee. The banks
    are read and written through the scanning account retriever. Logs are left out. *)

From stdpp Require Import base numbers option list gmap.
From Stdlib Require Import ZArith Lia SpecFloat.
From S2P Require Import Prelude FixedPoint HealthType TokenPosition Nodes Oracle StablePrice Bank Group Serum3 PerpMarket PerpPosition MangoAccount HealthCache AccountRetriever TokenInstructions.

Open Scope Z_scope.

(** The accounts of a liquidation by a liqor. *)
Record LiqAccounts := mkLiqAccounts {
  lq_group_pk : Pubkey;
  lq_group : Group;
  lq_liqor_pk : Pubkey;
  lq_liqor : MangoAccount;
  lq_liqee_pk : Pubkey;
  lq_liqee : MangoAccount
}.

(** The constraints of such instructions and account constraint #1. *)
Definition liq_constraints (l : LiqAccounts) (ix : IxGate) (now_ts : Z) : outcome unit :=
  _ ← require (GroupCfg.is_ix_enabled (lq_group l) ix) (EMango IxIsDisabled);
  _ ← require (af_group (ma_fixed (lq_liqor l)) =? lq_group_pk l) EConstraint;
  _ ← require (Fixed.is_operational (ma_fixed (lq_liqor l)) now_ts) (EMango AccountIsFrozen);
  _ ← require (af_group (ma_fixed (lq_liqee l)) =? lq_group_pk l) EConstraint;
  require (Fixed.is_operational (ma_fixed (lq_liqee l)) now_ts) (EMango AccountIsFrozen).

Definition liqor_checks (l : LiqAccounts) (liqor_owner : Pubkey) (now_ts : Z) : outcome unit :=
  _ ← require (negb (lq_liqor_pk l =? lq_liqee_pk l)) ERequireKeysNeq;
  _ ← require (Fixed.is_owner_or_delegate (ma_fixed (lq_liqor l)) now_ts liqor_owner) (EMango SomeError);
  require (negb (Fixed.being_liquidated (ma_fixed (lq_liqor l)))) (EMango BeingLiquidated).

(** The retriever with its banks replaced. *)
Definition with_banks (r : ScanningAccountRetriever) (s : ScannedBanksAndOracles) : ScanningAccountRetriever :=
  {| sc_banks_and_oracles := s; sc_perp_markets := sc_perp_markets r; sc_perp_oracles := sc_perp_oracles r;
     sc_serum3_oos := sc_serum3_oos r; sc_perp_index_map := sc_perp_index_map r |}.

(** Deactivates a position that is no longer active. *)
Definition deactivate_unless (active : bool) (a : MangoAccount) (raw_index : nat) : outcome MangoAccount :=
  if active then Done a else Account.deactivate_token_position a raw_index.

Section liquidation.
Context `{FixedOps}.

(** ** Amounts *)

(** The fee factors of a liquidation: what the liqor receives and what the liqee pays per
    unit of value. *)
Definition fee_factor_liqor (asset_bank liab_bank : Bank) : outcome Z :=
  x ← fx_add fx_one (bk_liquidation_fee liab_bank);
  y ← fx_add fx_one (bk_liquidation_fee asset_bank);
  fx_mul x y.

Definition fee_factor_total (asset_bank liab_bank : Bank) : outcome Z :=
  x ← fx_add fx_one (bk_liquidation_fee liab_bank); x ← fx_add x (bk_platform_liquidation_fee liab_bank);
  y ← fx_add fx_one (bk_liquidation_fee asset_bank); y ← fx_add y (bk_platform_liquidation_fee asset_bank);
  fx_mul x y.

(** The liability that is transferred: no more than needed to bring the health to zero,
    than the assets can pay for, and than asked for or owed. *)
Definition liab_transfer_amount (liq_end_health liab_liq_end_price init_liab_weight lopa init_asset_weight
    max_asset_transfer asset_oracle_price max_liab_liquidation : Z) : outcome Z :=
  h ← fx_neg liq_end_health;
  x ← fx_mul liab_liq_end_price init_liab_weight;
  y ← fx_mul lopa init_asset_weight;
  d ← fx_sub x y;
  liab_needed ← fx_div h d;
  v ← fx_mul max_asset_transfer asset_oracle_price;
  liab_possible ← fx_div v lopa;
  Done (Z.max (Z.min (Z.min liab_needed liab_possible) max_liab_liquidation) 0).

(** What the liqee pays and the liqor receives for it. *)
Definition asset_transfer_amounts (liab_transfer liab_oracle_price asset_oracle_price factor_liqor factor_total : Z) :
    outcome (Z * Z) :=
  v ← fx_mul liab_transfer liab_oracle_price;
  asset_transfer_base ← fx_div v asset_oracle_price;
  to_liqor ← fx_mul asset_transfer_base factor_liqor;
  from_liqee ← fx_mul asset_transfer_base factor_total;
  Done (to_liqor, from_liqee).

(** The largest liability and asset that may be transferred: the native balance and the
    balance in the health computation both stay on their side of zero. *)
Definition liquidation_limits (cache : HealthCache) (liab_token_index asset_token_index : Z)
    (liqee_liab_native liqee_asset_native max_liab_transfer : Z) : outcome (Z * Z) :=
  balances ← effective_token_balances cache LiquidationEnd;
  i ← token_info_index cache liab_token_index;
  liab_balance ← unwrap (balances !! i);
  n ← fx_neg liqee_liab_native;
  m ← fx_neg liab_balance;
  let max_liab_liquidation := Z.max (Z.min (Z.min max_liab_transfer n) m) 0 in
  j ← token_info_index cache asset_token_index;
  asset_balance ← unwrap (balances !! j);
  let max_asset_transfer := Z.max (Z.min liqee_asset_native asset_balance) 0 in
  _ ← require (0 <? max_liab_liquidation) ERequireGt;
  _ ← require (0 <? max_asset_transfer) ERequireGt;
  Done (max_liab_liquidation, max_asset_transfer).

(** [liab_transfer], [asset_transfer_to_liqor] and [asset_transfer_from_liqee]. *)
Definition liquidation_amounts (cache : HealthCache) (asset_token_index liab_token_index : Z) (asset_bank liab_bank : Bank)
    (asset_oracle_price liab_oracle_price liqee_asset_native liqee_liab_native : Z)
    (liqee_liq_end_health max_liab_transfer : Z) : outcome (Z * Z * Z) :=
  factor_liqor ← fee_factor_liqor asset_bank liab_bank;
  factor_total ← fee_factor_total asset_bank liab_bank;
  liab_oracle_price_adjusted ← fx_mul liab_oracle_price factor_total;
  liab_info ← Perp.unwrap_result (token_info cache liab_token_index);
  asset_info ← Perp.unwrap_result (token_info cache asset_token_index);
  '(max_liab_liquidation, max_asset_transfer) ←
    liquidation_limits cache liab_token_index asset_token_index liqee_liab_native liqee_asset_native max_liab_transfer;
  _ ← assert_ (Price.asset (ti_prices asset_info) LiquidationEnd =? asset_oracle_price);
  liab_transfer ←
    liab_transfer_amount liqee_liq_end_health (Price.liab (ti_prices liab_info) LiquidationEnd) (bk_init_liab_weight liab_bank)
      liab_oracle_price_adjusted (bk_init_asset_weight asset_bank) max_asset_transfer asset_oracle_price
      max_liab_liquidation;
  '(to_liqor, from_liqee) ←
    asset_transfer_amounts liab_transfer liab_oracle_price asset_oracle_price factor_liqor factor_total;
  Done (liab_transfer, to_liqor, from_liqee).

(** ** The transfers *)

(** The platform's part of the fee is collected by the asset bank. *)
Definition collect_liquidation_fee (asset_bank : Bank) (fee : Z) : outcome Bank :=
  c ← fx_add (bk_collected_fees_native asset_bank) fee;
  l ← fx_add (bk_collected_liquidation_fees asset_bank) fee;
  Done ((asset_bank <| bk_collected_fees_native := c |>) <| bk_collected_liquidation_fees := l |>).

(** The liability moves from the liqee to the liqor. *)
Definition transfer_liab (b : Bank) (liab_token_index : Z) (liqee liqor : MangoAccount) (liqee_raw_index : nat)
    (liab_transfer now_ts : Z) :
    outcome (Bank * MangoAccount * MangoAccount * bool * (nat * bool) * Z) :=
  p ← unwrap (ma_tokens liqee !! liqee_raw_index);
  '(b, p, liqee_liab_active) ← deposit_with_dusting b p liab_transfer now_ts;
  '(liqor, liqor_raw_index, _) ← Account.ensure_token_position liqor liab_token_index;
  q ← unwrap (ma_tokens liqor !! liqor_raw_index);
  '(b, q, r) ← withdraw_with_fee b q liab_transfer now_ts;
  native_after ← native p b;
  Done (b, Account.set_token liqee liqee_raw_index p, Account.set_token liqor liqor_raw_index q, liqee_liab_active,
        (liqor_raw_index, wr_position_is_active r), native_after).

(** The assets move from the liqee to the liqor. *)
Definition transfer_asset (b : Bank) (asset_token_index : Z) (liqee liqor : MangoAccount) (liqee_raw_index : nat)
    (to_liqor from_liqee now_ts : Z) : outcome (Bank * MangoAccount * MangoAccount * bool * (nat * bool) * Z) :=
  '(liqor, liqor_raw_index, _) ← Account.ensure_token_position liqor asset_token_index;
  q ← unwrap (ma_tokens liqor !! liqor_raw_index);
  '(b, q, liqor_asset_active) ← deposit b q to_liqor now_ts;
  p ← unwrap (ma_tokens liqee !! liqee_raw_index);
  '(b, p, liqee_asset_active) ← withdraw_without_fee_with_dusting b p from_liqee now_ts;
  native_after ← native p b;
  Done (b, Account.set_token liqee liqee_raw_index p, Account.set_token liqor liqor_raw_index q, liqee_asset_active,
        (liqor_raw_index, liqor_asset_active), native_after).

(** The banks, the accounts, the native balances of the liqee's two positions and which of
    the positions stay active, after all transfers. *)
Record Transferred := mkTransferred {
  tr_asset_bank : Bank;
  tr_liab_bank : Bank;
  tr_liqee : MangoAccount;
  tr_liqor : MangoAccount;
  tr_asset_native : Z;
  tr_liab_native : Z;
  tr_liqee_asset_active : bool;
  tr_liqee_liab_active : bool;
  tr_liqor_asset : nat * bool;
  tr_liqor_liab : nat * bool
}.

Definition liquidation_transfers (asset_bank liab_bank : Bank) (asset_token_index liab_token_index : Z)
    (liqee liqor : MangoAccount) (liqee_asset_raw_index liqee_liab_raw_index : nat)
    (liab_transfer to_liqor from_liqee now_ts : Z) : outcome Transferred :=
  fee ← fx_sub from_liqee to_liqor;
  asset_bank ← collect_liquidation_fee asset_bank fee;
  '(liab_bank, liqee, liqor, liqee_liab_active, liqor_liab, liab_native_after) ←
    transfer_liab liab_bank liab_token_index liqee liqor liqee_liab_raw_index liab_transfer now_ts;
  '(asset_bank, liqee, liqor, liqee_asset_active, liqor_asset, asset_native_after) ←
    transfer_asset asset_bank asset_token_index liqee liqor liqee_asset_raw_index to_liqor from_liqee now_ts;
  Done (mkTransferred asset_bank liab_bank liqee liqor asset_native_after liab_native_after liqee_asset_active
          liqee_liab_active liqor_asset liqor_liab).

(** The positions that are no longer active are deactivated. *)
Definition deactivate_inactive (t : Transferred) (liqee_asset_raw_index liqee_liab_raw_index : nat) :
    outcome (MangoAccount * MangoAccount) :=
  liqee ← deactivate_unless (tr_liqee_asset_active t) (tr_liqee t) liqee_asset_raw_index;
  liqee ← deactivate_unless (tr_liqee_liab_active t) liqee liqee_liab_raw_index;
  liqor ← deactivate_unless (snd (tr_liqor_asset t)) (tr_liqor t) (fst (tr_liqor_asset t));
  liqor ← deactivate_unless (snd (tr_liqor_liab t)) liqor (fst (tr_liqor_liab t));
  Done (liqee, liqor).

(** [liquidation_action]: the retriever, the liqor, the liqee and the liqee's health cache
    after it. *)
Definition liquidation_action (retriever : ScanningAccountRetriever) (liab_token_index asset_token_index : Z)
    (liqor liqee : MangoAccount) (cache : HealthCache) (liqee_liq_end_health now_ts max_liab_transfer : Z) :
    outcome (ScanningAccountRetriever * MangoAccount * MangoAccount * HealthCache) :=
  '(ia, (asset_bank, asset_oracle_price), opt) ←
    Scanning.banks_mut_and_oracles (sc_banks_and_oracles retriever) asset_token_index liab_token_index;
  '(il, (liab_bank, liab_oracle_price)) ← unwrap opt;
  '(asset_position, liqee_asset_raw_index) ← Account.token_position_and_raw_index liqee asset_token_index;
  liqee_asset_native ← native asset_position asset_bank;
  _ ← require (0 <? liqee_asset_native) ERequireGt;
  _ ← require (BankCfg.allows_asset_liquidation asset_bank) (EMango TokenAssetLiquidationDisabled);
  '(liab_position, liqee_liab_raw_index) ← Account.token_position_and_raw_index liqee liab_token_index;
  liqee_liab_native ← native liab_position liab_bank;
  _ ← require (liqee_liab_native <? 0) ERequireGt;
  '(liab_transfer, to_liqor, from_liqee) ←
    liquidation_amounts cache asset_token_index liab_token_index asset_bank liab_bank asset_oracle_price
      liab_oracle_price liqee_asset_native liqee_liab_native liqee_liq_end_health max_liab_transfer;
  t ← liquidation_transfers asset_bank liab_bank asset_token_index liab_token_index liqee liqor liqee_asset_raw_index
        liqee_liab_raw_index liab_transfer to_liqor from_liqee now_ts;
  change ← fx_sub (tr_liab_native t) liqee_liab_native;
  cache ← adjust_token_balance cache (tr_liab_bank t) change;
  change ← fx_sub (tr_asset_native t) liqee_asset_native;
  cache ← adjust_token_balance cache (tr_asset_bank t) change;
  '(liqee, liqor) ← deactivate_inactive t liqee_asset_raw_index liqee_liab_raw_index;
  h ← health cache LiquidationEnd;
  let liqee := set_ma_fixed liqee (fst (Fixed.maybe_recover_from_being_liquidated (ma_fixed liqee) h)) in
  s ← Scanning.set_bank (sc_banks_and_oracles retriever) il (tr_liab_bank t);
  s ← Scanning.set_bank s ia (tr_asset_bank t);
  Done (with_banks retriever s, liqor, liqee, cache).

(** ** The instruction *)

(** The liqor's health after a liquidation, unless it is in a health region. *)
Definition check_liqor_health (liqor : MangoAccount) (retriever : ScanningAccountRetriever) (now_ts : Z) :
    outcome unit :=
  if negb (Fixed.is_in_health_region (ma_fixed liqor)) then
    h ← compute_health liqor Init retriever now_ts;
    require (0 <=? h) (EMango HealthMustBePositive)
  else Done tt.

(** The accounts and the retriever (for its banks) after the instruction. *)
Definition token_liq_with_token (l : LiqAccounts) (liqor_owner : Pubkey) (remaining : list AccountInfo) (clock : Clock)
    (asset_token_index liab_token_index max_liab_transfer : Z) : outcome (LiqAccounts * ScanningAccountRetriever) :=
  let now_ts := clock_ts clock in
  _ ← liq_constraints l IxTokenLiqWithToken now_ts;
  _ ← require (negb (asset_token_index =? liab_token_index)) (EMango SomeError);
  retriever ← Scanning.new remaining (lq_group_pk l) (clock_slot clock);
  _ ← liqor_checks l liqor_owner now_ts;
  cache ← new_health_cache (lq_liqee l) retriever now_ts;
  liqee_liq_end_health ← health cache LiquidationEnd;
  _ ← require_after_phase1_liquidation cache;
  '(liqee, liquidatable) ← Account.check_liquidatable (lq_liqee l) cache;
  match liquidatable with
  | Account.Liquidatable =>
      '(retriever, liqor, liqee, _) ←
        liquidation_action retriever liab_token_index asset_token_index (lq_liqor l) liqee cache
          liqee_liq_end_health now_ts max_liab_transfer;
      _ ← check_liqor_health liqor retriever now_ts;
      Done (mkLiqAccounts (lq_group_pk l) (lq_group l) (lq_liqor_pk l) liqor (lq_liqee_pk l) liqee, retriever)
  | _ => Done (mkLiqAccounts (lq_group_pk l) (lq_group l) (lq_liqor_pk l) (lq_liqor l) (lq_liqee_pk l) liqee, retriever)
  end.

End liquidation.
