(* ===== verification/Book.v ===== *)
(** * Placing and cancelling orders

    state/orderbook/book.rs: matching a new order against the opposite side, posting
    the remainder, and cancelling orders. Logging is not modelled. *)

From stdpp Require Import base numbers gmap functions list.
From Stdlib Require Import ZArith Lia SpecFloat.
From S2P Require Import Prelude FixedPoint TokenPosition OrderTypes Nodes OrderTree EventQueue BookSide Orders StablePrice PerpMarket PerpPosition MangoAccount.

Open Scope Z_scope.

Definition DROP_EXPIRED_ORDER_LIMIT : Z := 5.

(** [event_queue.push_back(cast(event)).unwrap()]. *)
Definition push_event (q : EventQueue) (e : AnyEvent) : outcome EventQueue :=
  '(q, rejected) ← push_back q e;
  match rejected with None => Done q | Some _ => Panic end.

(** An error as a value. *)
Definition catch {A} (r : outcome A) : outcome (result A) :=
  match r with
  | Done a => Done (Ok a)
  | Fail e => Done (Err e)
  | Panic => Panic
  | NoFuel => NoFuel
  end.

(** The local variables of [new_order] that its matching loop changes. *)
Record MatchState := mkMatchState {
  remaining_base_lots : Z;
  remaining_quote_lots : Z;
  decremented_base_lots : Z;
  decremented_quote_lots : Z;
  orders_to_change : list (BookSideOrderHandle * Z);
  orders_to_delete : list (BookSideOrderTree * Z);
  number_of_dropped_expired_orders : Z;
  ms_post_target : option BookSideOrderTree;
  ms_limit : Z;
  ms_queue : EventQueue
}.

Section book.
Context `{FixedOps}.

(** ** Fees *)

Definition apply_fees (m : PerpMarket) (a : MangoAccount) (quote_lots : Z) :
    outcome (PerpMarket * MangoAccount * Z) :=
  _ ← assert_ (0 <=? quote_lots);
  n ← i64 (pm_quote_lot_size m * quote_lots);
  quote_native ← fx_from_int n;
  maker_fees ← fx_mul quote_native (pm_maker_fee m);
  taker_fees ← fx_mul quote_native (pm_taker_fee m);
  _ ← require (0 <=? taker_fees) ERequireGte;
  s ← fx_add taker_fees (Z.min maker_fees 0);
  let taker_dao_fees := Z.max s 0 in
  f ← fx_floor taker_dao_fees; f ← fx_to_u64 f;
  let a := set_ma_fixed a (Fixed.accrue_buyback_fees (ma_fixed a) f) in
  '(i, p) ← Account.perp_position a (pm_perp_market_index m);
  p ← Perp.record_trading_fee p taker_fees;
  v ← fx_to_u64 taker_fees;
  tv ← u64 (pp_taker_volume p + v);
  let a := Account.set_perp a i (set_pp_taker_volume p tv) in
  t ← fx_add taker_fees maker_fees;
  fa ← fx_add (pm_fees_accrued m) t;
  Done (set_pm_fees_accrued m fa, a, taker_fees).

Definition apply_penalty (m : PerpMarket) (a : MangoAccount) : outcome (PerpMarket * MangoAccount * Z) :=
  fee_penalty ← fx_from_f32 (pm_fee_penalty m);
  f ← fx_floor fee_penalty; f ← fx_to_u64 f;
  let a := set_ma_fixed a (Fixed.accrue_buyback_fees (ma_fixed a) f) in
  '(i, p) ← Account.perp_position a (pm_perp_market_index m);
  p ← Perp.record_trading_fee p fee_penalty;
  let a := Account.set_perp a i p in
  fa ← fx_add (pm_fees_accrued m) fee_penalty;
  Done (set_pm_fees_accrued m fa, a, fee_penalty).

(** ** Matching *)

(** An opposing order leaves the book with an [OutEvent]. *)
Definition drop_opposing (other_side : Side) (now_ts : Z) (s : MatchState) (x : BookSideIterItem)
    (dropped : Z) : outcome MatchState :=
  q ← push_event (ms_queue s)
        (AOut (from_leaf_node other_side now_ts (q_seq_num (ms_queue s)) (item_node x)));
  Done (mkMatchState (remaining_base_lots s) (remaining_quote_lots s) (decremented_base_lots s)
          (decremented_quote_lots s) (orders_to_change s)
          (orders_to_delete s ++ [(bh_order_tree (item_handle x), leaf_key (item_node x))])
          dropped (ms_post_target s) (ms_limit s) q).

Definition no_post (s : MatchState) : MatchState :=
  mkMatchState (remaining_base_lots s) (remaining_quote_lots s) (decremented_base_lots s)
    (decremented_quote_lots s) (orders_to_change s) (orders_to_delete s)
    (number_of_dropped_expired_orders s) None (ms_limit s) (ms_queue s).

(** The match itself: [match_base_lots] are exchanged with the order [x]. *)
Definition fill_opposing (order : Order.Order) (m : PerpMarket) (mango_account_pk : Pubkey)
    (now_ts : Z) (s : MatchState) (x : BookSideIterItem) (match_base_lots match_quote_lots : Z)
    (order_would_self_trade : bool) (decremented_base decremented_quote : Z) : outcome MatchState :=
  rb ← i64 (remaining_base_lots s - match_base_lots);
  rq ← i64 (remaining_quote_lots s - match_quote_lots);
  _ ← assert_ (0 <=? rq);
  new_best_opposing_quantity ← i64 (quantity (item_node x) - match_base_lots);
  let maker_out := new_best_opposing_quantity =? 0 in
  let to_delete := if maker_out
    then orders_to_delete s ++ [(bh_order_tree (item_handle x), leaf_key (item_node x))]
    else orders_to_delete s in
  let to_change := if maker_out then orders_to_change s
    else orders_to_change s ++ [(item_handle x, new_best_opposing_quantity)] in
  let seq_num := q_seq_num (ms_queue s) in
  let fill := fill_new (Order.side order) maker_out (owner_slot (item_node x)) now_ts seq_num
    (owner (item_node x)) (leaf_key (item_node x)) (leaf_client_order_id (item_node x))
    (if order_would_self_trade then 0 else pm_maker_fee m)
    (timestamp (item_node x)) mango_account_pk (Order.client_order_id order)
    (if order_would_self_trade then 0 else pm_taker_fee m)
    (item_price_lots x) match_base_lots in
  q ← push_event (ms_queue s) (AFill fill);
  limit ← u8 (ms_limit s - 1);
  Done (mkMatchState rb rq decremented_base decremented_quote to_change to_delete
          (number_of_dropped_expired_orders s) (ms_post_target s) limit q).

(** The body of the matching loop. *)
Definition match_step (order : Order.Order) (m : PerpMarket) (mango_account_pk : Pubkey)
    (now_ts price_lots : Z) (s : MatchState) (x : BookSideIterItem) :
    outcome (flow MatchState MatchState) :=
  let side := Order.side order in
  let other_side := invert_side side in
  if (remaining_base_lots s =? 0) || (remaining_quote_lots s =? 0) then Done (Break s)
  else if negb (item_is_valid x) then
    if number_of_dropped_expired_orders s <? DROP_EXPIRED_ORDER_LIMIT then
      s ← drop_opposing other_side now_ts s x (number_of_dropped_expired_orders s + 1);
      Done (Continue s)
    else Done (Continue s)
  else
    let best_opposing_price := item_price_lots x in
    if negb (is_price_within_limit side best_opposing_price price_lots) then Done (Break s)
    else if Order.is_post_only order then Done (Break (no_post s))
    else if ms_limit s =? 0 then Done (Break (no_post s))
    else
      _ ← assert_ (negb (best_opposing_price =? 0));
      max_match_by_quote ← i64 (Z.quot (remaining_quote_lots s) best_opposing_price);
      if max_match_by_quote =? 0 then Done (Break s)
      else
        let match_base_lots :=
          Z.min (Z.min (remaining_base_lots s) (quantity (item_node x))) max_match_by_quote in
        match_quote_lots ← i64 (match_base_lots * best_opposing_price);
        let order_would_self_trade := mango_account_pk =? owner (item_node x) in
        if order_would_self_trade then
          match Order.self_trade_behavior order with
          | DecrementTake =>
              dq ← i64 (decremented_quote_lots s + match_quote_lots);
              db ← i64 (decremented_base_lots s + match_base_lots);
              s ← fill_opposing order m mango_account_pk now_ts s x match_base_lots match_quote_lots
                    true db dq;
              Done (Continue s)
          | CancelProvide =>
              s ← drop_opposing other_side now_ts s x (number_of_dropped_expired_orders s);
              Done (Continue s)
          | AbortTransaction => Fail (EMango WouldSelfTrade)
          end
        else
          s ← fill_opposing order m mango_account_pk now_ts s x match_base_lots match_quote_lots
                false (decremented_base_lots s) (decremented_quote_lots s);
          Done (Continue s).

(** The matching loop over the opposing side. *)
Definition match_loop (order : Order.Order) (m : PerpMarket) (mango_account_pk : Pubkey)
    (now_ts oracle_price_lots price_lots : Z) (b : BookSide) (s : MatchState) : outcome MatchState :=
  r ← for_all_including_invalid b now_ts oracle_price_lots s
        (match_step order m mango_account_pk now_ts price_lots);
  match r with Continue s | Break s => Done s end.

Fixpoint apply_changes (b : BookSide) (xs : list (BookSideOrderHandle * Z)) : outcome BookSide :=
  match xs with
  | [] => Done b
  | (h, q) :: xs => b ← bs_set_quantity b (bh_node h) q; apply_changes b xs
  end.

Fixpoint apply_deletes (b : BookSide) (xs : list (BookSideOrderTree * Z)) : outcome BookSide :=
  match xs with
  | [] => Done b
  | (c, k) :: xs =>
      '(b, o) ← bs_remove_by_key b c k;
      _ ← unwrap o;
      apply_deletes b xs
  end.

(** ** Posting *)

(** Makes room on the side: drops an expired order, and the worst one if the side is
    still full. *)
Definition make_room (b : BookSide) (q : EventQueue) (side : Side) (target : BookSideOrderTree)
    (now_ts oracle_price_lots price_lots : Z) : outcome (BookSide * EventQueue) :=
  '(b, expired_order) ← bs_remove_one_expired b target now_ts;
  q ← match expired_order with
      | Some l => push_event q (AOut (from_leaf_node side now_ts (q_seq_num q) l))
      | None => Done q
      end;
  if bs_is_full b then
    '(b, w) ← bs_remove_worst b now_ts oracle_price_lots;
    '(worst_order, worst_price) ← unwrap w;
    _ ← require (is_price_better side price_lots worst_price) (EMango SomeError);
    q ← push_event q (AOut (from_leaf_node side now_ts (q_seq_num q) worst_order));
    Done (b, q)
  else Done (b, q).

Definition post_order (ob : Orderbook) (m : PerpMarket) (q : EventQueue) (a : MangoAccount)
    (order : Order.Order) (mango_account_pk : Pubkey) (order_id book_base_quantity : Z)
    (target : BookSideOrderTree) (now_ts oracle_price_lots price_lots : Z) :
    outcome (Orderbook * EventQueue * MangoAccount) :=
  let side := Order.side order in
  '(b, q) ← make_room (bookside ob side) q side target now_ts oracle_price_lots price_lots;
  slot ← Account.perp_next_order_slot a;
  let new_order := leaf_new (Z.of_nat slot mod 256) order_id mango_account_pk book_base_quantity now_ts
    Limit (Order.time_in_force order) (Order.peg_limit order) (Order.client_order_id order) in
  '(b, r) ← bs_insert_leaf b target new_order;
  _ ← match r with Ok _ => Done tt | Err e => Fail e end;
  a ← Account.add_perp_order a (pm_perp_market_index m) side target new_order;
  Done (set_bookside ob side b, q, a).

(** ** [Orderbook::new_order] *)

Definition new_order (ob : Orderbook) (order : Order.Order) (m : PerpMarket) (q : EventQueue)
    (oracle_price : Z) (a : MangoAccount) (mango_account_pk : Pubkey) (now_ts limit : Z) :
    outcome (Orderbook * PerpMarket * EventQueue * MangoAccount * option Z) :=
  let side := Order.side order in
  let other_side := invert_side side in
  oracle_price_lots ← native_price_to_lot m oracle_price;
  let post_target := Order.post_target order in
  '(price_lots, price_data) ← Order.price order now_ts oracle_price_lots ob;
  '(m, order_id) ← gen_order_id m side price_data;
  '(m, a, _) ←
    (if Order.needs_penalty_fee order then apply_penalty m a else Done (m, a, 0));
  '(i, perp_position) ← Account.perp_position a (pm_perp_market_index m);
  s ← match_loop order m mango_account_pk now_ts oracle_price_lots price_lots
        (bookside ob other_side)
        (mkMatchState (Order.max_base_lots order) (Order.max_quote_lots order) 0 0 [] [] 0 post_target
           limit q);
  total_quote_lots_taken ← i64 (Order.max_quote_lots order - remaining_quote_lots s);
  total_base_lots_taken ← i64 (Order.max_base_lots order - remaining_base_lots s);
  _ ← assert_ (0 <=? total_quote_lots_taken);
  _ ← assert_ (0 <=? total_base_lots_taken);
  '(m, a) ←
    (if (0 <? total_quote_lots_taken) || (0 <? total_base_lots_taken) then
       p ← Perp.add_taker_trade perp_position side total_base_lots_taken total_quote_lots_taken;
       let a := Account.set_perp a i p in
       n ← i64 (total_quote_lots_taken - decremented_quote_lots s);
       '(m, a, _) ← apply_fees m a n;
       Done (m, a)
     else Done (m, a));
  b ← apply_changes (bookside ob other_side) (orders_to_change s);
  b ← apply_deletes b (orders_to_delete s);
  let ob := set_bookside ob other_side b in
  _ ← assert_ (negb (price_lots =? 0));
  max_by_quote ← i64 (Z.quot (remaining_quote_lots s) price_lots);
  let book_base_quantity := Z.min (remaining_base_lots s) max_by_quote in
  let post_target := if book_base_quantity <=? 0 then None else ms_post_target s in
  post_target ←
    match post_target with
    | Some t =>
        native_price ← lot_to_native_price m price_lots;
        inside ← inside_price_limit m side native_price oracle_price;
        Done (if (inside : bool) then Some t else None)
    | None => Done None
    end;
  match post_target with
  | Some target =>
      '(ob, q, a) ← post_order ob m (ms_queue s) a order mango_account_pk order_id book_base_quantity
                      target now_ts oracle_price_lots price_lots;
      Done (ob, m, q, a, Some order_id)
  | None => Done (ob, m, ms_queue s, a, None)
  end.

(** ** Cancelling *)

Definition cancel_order_by_slot (ob : Orderbook) (a : MangoAccount) (mango_account_pk : Pubkey)
    (slot : nat) (perp_market_index : Z) : outcome (Orderbook * MangoAccount * result unit) :=
  r ← catch (Account.perp_order_by_raw_index a slot);
  match r with
  | Err e => Done (ob, a, Err e)
  | Ok oo =>
      if negb (OpenOrder.is_active_for_market oo perp_market_index) then
        Done (ob, a, Err (EMango SomeError))
      else
        let side := SideAndTree.side (oo_side_and_tree oo) in
        let book_component := SideAndTree.order_tree (oo_side_and_tree oo) in
        let order_id := oo_id oo in
        '(b, leaf_node_opt) ← bs_remove_by_key (bookside ob side) book_component order_id;
        let ob := set_bookside ob side b in
        let on_book_quantity :=
          match leaf_node_opt with
          | Some leaf_node =>
              if negb (owner_slot leaf_node =? Z.of_nat slot) then Err ERequireEq
              else if negb (owner leaf_node =? mango_account_pk) then Err ERequireKeysEq
              else Ok (quantity leaf_node)
          | None =>
              if oo_quantity oo =? 0 then Err (EMango PerpOrderIdNotFound) else Ok 0
          end in
        match on_book_quantity with
        | Err e => Done (ob, a, Err e)
        | Ok q =>
            r ← catch (Account.remove_perp_order a slot q);
            match r with
            | Ok a => Done (ob, a, Ok tt)
            | Err e => Done (ob, a, Err e)
            end
        end
  end.

(** The loop of [cancel_all_orders] from slot [i] on, with [n] slots left. *)
Fixpoint cancel_all_loop (n : nat) (ob : Orderbook) (a : MangoAccount) (mango_account_pk : Pubkey)
    (perp_market_index limit : Z) (side_to_cancel_option : option Side) (i : nat) :
    outcome (Orderbook * MangoAccount) :=
  match n with
  | O => Done (ob, a)
  | S n =>
      oo ← Account.perp_order_by_raw_index a i;
      let next := cancel_all_loop n ob a mango_account_pk perp_market_index limit side_to_cancel_option (S i) in
      if negb (OpenOrder.is_active_for_market oo perp_market_index) then next
      else if match side_to_cancel_option with
              | Some s => negb (bool_decide (s = SideAndTree.side (oo_side_and_tree oo)))
              | None => false
              end then next
      else
        '(ob, a, r) ← cancel_order_by_slot ob a mango_account_pk i perp_market_index;
        _ ← match r with
            | Ok _ => Done tt
            | Err e => if is_anchor_error_with_code e PerpOrderIdNotFound then Done tt else Fail e
            end;
        limit ← u8 (limit - 1);
        if limit =? 0 then Done (ob, a)
        else cancel_all_loop n ob a mango_account_pk perp_market_index limit side_to_cancel_option (S i)
  end.

Definition cancel_all_orders (ob : Orderbook) (a : MangoAccount) (mango_account_pk : Pubkey)
    (m : PerpMarket) (limit : Z) (side_to_cancel_option : option Side) : outcome (Orderbook * MangoAccount) :=
  cancel_all_loop (length (ma_perp_oos a)) ob a mango_account_pk (pm_perp_market_index m) limit
    side_to_cancel_option 0.

Definition cancel_order_by_id (ob : Orderbook) (a : MangoAccount) (order_id : Z)
    (side_and_tree : SideAndOrderTree) (expected_owner : option Pubkey) :
    outcome (Orderbook * MangoAccount * LeafNode) :=
  let side := SideAndTree.side side_and_tree in
  let book_component := SideAndTree.order_tree side_and_tree in
  '(b, o) ← bs_remove_by_key (bookside ob side) book_component order_id;
  let ob := set_bookside ob side b in
  leaf_node ← ok_or o (EMango PerpOrderIdNotFound);
  _ ← match expected_owner with
      | Some pk => require (owner leaf_node =? pk) ERequireKeysEq
      | None => Done tt
      end;
  a ← Account.remove_perp_order a (Z.to_nat (owner_slot leaf_node)) (quantity leaf_node);
  Done (ob, a, leaf_node).

End book.
