(* ===== verification/PerpInstructions.v ===== *)
(** * Perp instructions

    The instruction handlers around the perp market, its book and its event queue:
    instructions/perp_place_order.rs, perp_cancel_order.rs,
    perp_cancel_order_by_client_order_id.rs, perp_cancel_all_orders.rs,
    perp_cancel_all_orders_by_side.rs, perp_liq_force_cancel_orders.rs,
    perp_update_funding.rs, perp_deactivate_position.rs, perp_force_close_position.rs,
    perp_consume_events.rs, perp_settle_pnl.rs and perp_settle_fees.rs, with the constraints
    of accounts_ix. Logs are left out. *)

From stdpp Require Import base numbers option list gmap.
From Stdlib Require Import ZArith Lia SpecFloat.
From S2P Require Import Prelude FixedPoint HealthType TokenPosition OrderTypes Nodes Oracle EventQueue BookSide Orders StablePrice Bank Group Serum3 PerpMarket PerpPosition MangoAccount HealthCache AccountRetriever TokenInstructions TokenLiquidation Book.

Open Scope Z_scope.

(** ** Accounts *)

(** The accounts of the instructions on one account and the book of a market. *)
Record PerpAccounts := mkPerpAccounts {
  px_group_pk : Pubkey;
  px_group : Group;
  px_account_pk : Pubkey;
  px_account : MangoAccount;
  px_market_pk : Pubkey;
  px_market : PerpMarket;
  px_bids_pk : Pubkey;
  px_asks_pk : Pubkey;
  px_book : Orderbook;
  px_event_queue_pk : Pubkey;
  px_event_queue : EventQueue;
  px_oracle : Pubkey * OracleAccount;
  px_remaining : list AccountInfo
}.

#[export] Instance eta_PerpAccounts : Eta PerpAccounts := fun x =>
  mkPerpAccounts
    (px_group_pk x) (px_group x) (px_account_pk x) (px_account x) (px_market_pk x) (px_market x)
    (px_bids_pk x) (px_asks_pk x) (px_book x) (px_event_queue_pk x) (px_event_queue x) (px_oracle x)
    (px_remaining x).

(** The health accounts after the market changed. *)
Definition sync_market (market_pk : Pubkey) (m : PerpMarket) (ais : list AccountInfo) : list AccountInfo :=
  (fun ai : AccountInfo => if fst ai =? market_pk then (fst ai, APerpMarket m) else ai) <$> ais.

Definition account_constraint (group_pk : Pubkey) (a : MangoAccount) (must_be_operational : bool) (now_ts : Z) :
    outcome unit :=
  _ ← require (af_group (ma_fixed a) =? group_pk) EConstraint;
  if must_be_operational then require (Fixed.is_operational (ma_fixed a) now_ts) (EMango AccountIsFrozen) else Done tt.

(** [has_one = group, bids, asks]. *)
Definition book_constraints (x : PerpAccounts) : outcome unit :=
  _ ← require (pm_group (px_market x) =? px_group_pk x) EConstraint;
  _ ← require (pm_bids (px_market x) =? px_bids_pk x) EConstraint;
  require (pm_asks (px_market x) =? px_asks_pk x) EConstraint.

Definition owner_check (a : MangoAccount) (owner : Pubkey) (now_ts : Z) : outcome unit :=
  require (Fixed.is_owner_or_delegate (ma_fixed a) now_ts owner) (EMango SomeError).

(** The result of a cancellation with [?]. *)
Definition propagate {A} (r : result A) : outcome A := match r with Ok a => Done a | Err e => Fail e end.

(** The accounts that were passed, by key; [None] is an account of another program. *)
Definition AccountMap : Type := gmap Z (option MangoAccount).

(** What an event needs: the accounts are there, one is missing (and the instruction ends),
    or one belongs to another program in a testing group (and the event is skipped). *)
Inductive Loaded (A : Type) := Found (a : A) | Missing | Foreign.
Arguments Found {A} a.
Arguments Missing {A}.
Arguments Foreign {A}.

Section instructions.
Context `{FixedOps}.

(** ** Funding *)

Definition perp_update_funding (x : PerpAccounts) (clock : Clock) : outcome PerpAccounts :=
  _ ← require (GroupCfg.is_ix_enabled (px_group x) IxPerpUpdateFunding) (EMango IxIsDisabled);
  _ ← book_constraints x;
  _ ← require (pm_oracle (px_market x) =? fst (px_oracle x)) EConstraint;
  state ← oracle_state (px_market x) (from_reader (px_oracle x)) (Some (clock_slot clock));
  m ← update_funding_and_stable_price (px_market x) (px_book x) state (clock_ts clock);
  Done (x <| px_market := m |>).

(** ** Placing orders *)

Definition reduce_only_max_base_lots (pp : PerpPosition) (order : Order.Order) (market_reduce_only : bool) : outcome Z :=
  effective_pos ← Perp.effective_base_position_lots pp;
  let side := Order.side order in
  allowed_base_lots ←
    (if (bool_decide (side = Bid) && (0 <=? effective_pos)) || (bool_decide (side = Ask) && (effective_pos <=? 0))
     then Done 0
     else if market_reduce_only then
       if bool_decide (side = Bid) then
         n ← i64 (effective_pos + pp_bids_base_lots pp);
         i64 (Z.abs (Z.min n 0))
       else
         n ← i64 (effective_pos - pp_asks_base_lots pp);
         Done (Z.max n 0)
     else i64 (Z.abs effective_pos));
  Done (Z.min allowed_base_lots (Order.max_base_lots order)).

Definition with_max_base_lots (o : Order.Order) (n : Z) : Order.Order :=
  Order.mkOrder (Order.side o) n (Order.max_quote_lots o) (Order.client_order_id o) (Order.reduce_only o)
    (Order.time_in_force o) (Order.self_trade_behavior o) (Order.params o).

(** The limit on the base lots of an order. *)
Definition limit_base_lots (m : PerpMarket) (pp : PerpPosition) (order : Order.Order) : outcome Z :=
  _ ← Perp.effective_base_position_lots pp;
  max_base_lots ←
    (if Order.reduce_only order || is_reduce_only m
     then reduce_only_max_base_lots pp order (is_reduce_only m)
     else Done (Order.max_base_lots order));
  _ ← (if is_reduce_only m then
         require (Order.reduce_only order || (max_base_lots =? Order.max_base_lots order)) (EMango MarketInReduceOnlyMode)
       else Done tt);
  Done max_base_lots.

Definition place_pre_health (ais : list AccountInfo) (account : MangoAccount) (settle_token_index : Z) (clock : Clock) :
    outcome (MangoAccount * option (HealthCache * Z)) :=
  if negb (Fixed.is_in_health_region (ma_fixed account)) then
    retriever ← new_fixed_order_account_retriever_with_optional_banks ais account (clock_slot clock);
    health_cache ← new_health_cache_skipping_missing_banks_and_bad_oracles account retriever (clock_ts clock);
    _ ← token_info_index health_cache settle_token_index;
    '(account, pre_init_health) ← Account.check_health_pre account health_cache;
    Done (account, Some (health_cache, pre_init_health))
  else Done (account, None).

Definition place_post_health (pre_health_opt : option (HealthCache * Z)) (account : MangoAccount) (m : PerpMarket) :
    outcome unit :=
  match pre_health_opt with
  | None => Done tt
  | Some (health_cache, pre_init_health) =>
      '(_, perp_position) ← Account.perp_position account (pm_perp_market_index m);
      health_cache ← recompute_perp_info health_cache perp_position m;
      _ ← Account.check_health_post health_cache pre_init_health;
      Done tt
  end.

(** The constraints of [PerpPlaceOrder]. *)
Definition place_order_constraints (x : PerpAccounts) (clock : Clock) : outcome unit :=
  _ ← require (GroupCfg.is_ix_enabled (px_group x) IxPerpPlaceOrder) (EMango IxIsDisabled);
  _ ← account_constraint (px_group_pk x) (px_account x) true (clock_ts clock);
  _ ← book_constraints x;
  _ ← require (pm_event_queue (px_market x) =? px_event_queue_pk x) EConstraint;
  require (pm_oracle (px_market x) =? fst (px_oracle x)) EConstraint.

Definition perp_place_order (x : PerpAccounts) (owner : Pubkey) (clock : Clock) (order : Order.Order) (limit : Z) :
    outcome (PerpAccounts * option Z) :=
  let now_ts := clock_ts clock in
  _ ← place_order_constraints x clock;
  _ ← require (0 <=? Order.max_base_lots order) ERequireGte;
  _ ← require (0 <=? Order.max_quote_lots order) ERequireGte;
  state ← oracle_state (px_market x) (from_reader (px_oracle x)) None;
  let oracle_price := os_price state in
  m ← update_funding_and_stable_price (px_market x) (px_book x) state now_ts;
  _ ← owner_check (px_account x) owner now_ts;
  let perp_market_index := pm_perp_market_index m in
  let settle_token_index := pm_settle_token_index m in
  '(account, _) ← Account.ensure_perp_position (px_account x) perp_market_index settle_token_index;
  '(account, pre_health_opt) ←
    place_pre_health (sync_market (px_market_pk x) m (px_remaining x)) account settle_token_index clock;
  f ← Fixed.expire_buyback_fees (ma_fixed account) now_ts (gr_buyback_fees_expiry_interval (px_group x));
  let account := set_ma_fixed account f in
  '(_, pp) ← Account.perp_position account perp_market_index;
  max_base_lots ← limit_base_lots m pp order;
  let order := with_max_base_lots order max_base_lots in
  '(book, m, event_queue, account, order_id_opt) ←
    new_order (px_book x) order m (px_event_queue x) oracle_price account (px_account_pk x) now_ts limit;
  _ ← place_post_health pre_health_opt account m;
  Done ((((x <| px_account := account |>) <| px_market := m |>) <| px_book := book |>)
          <| px_event_queue := event_queue |>, order_id_opt).

(** *** The entry points

    lib.rs: the framework checks the constraints, then the entry point builds the order. An
    order that has expired is skipped and the instruction succeeds. *)

Definition place_params (order_type : PlaceOrderType) (price_lots : Z) : outcome Order.OrderParams :=
  match order_type with
  | PMarket => Done Order.Market
  | PImmediateOrCancel => Done (Order.ImmediateOrCancel price_lots)
  | _ => t ← propagate (to_post_order_type order_type); Done (Order.FixedPrice price_lots t)
  end.

Definition perp_place_order_v2 (x : PerpAccounts) (owner : Pubkey) (clock : Clock) (side : Side)
    (price_lots max_base_lots max_quote_lots client_order_id : Z) (order_type : PlaceOrderType)
    (self_trade_behavior : SelfTradeBehavior) (reduce_only : bool) (expiry_timestamp limit : Z) :
    outcome (PerpAccounts * option Z) :=
  _ ← place_order_constraints x clock;
  _ ← require (0 <=? price_lots) ERequireGte;
  match Order.tif_from_expiry (clock_ts clock) expiry_timestamp with
  | None => Done (x, None)
  | Some time_in_force =>
      params ← place_params order_type price_lots;
      perp_place_order x owner clock
        (Order.mkOrder side max_base_lots max_quote_lots client_order_id reduce_only time_in_force
           self_trade_behavior params) limit
  end.

Definition perp_place_order_entry (x : PerpAccounts) (owner : Pubkey) (clock : Clock) (side : Side)
    (price_lots max_base_lots max_quote_lots client_order_id : Z) (order_type : PlaceOrderType)
    (reduce_only : bool) (expiry_timestamp limit : Z) : outcome (PerpAccounts * option Z) :=
  _ ← place_order_constraints x clock;
  _ ← require (0 <=? price_lots) ERequireGte;
  match Order.tif_from_expiry (clock_ts clock) expiry_timestamp with
  | None => Done (x, None)
  | Some time_in_force =>
      params ← place_params order_type price_lots;
      perp_place_order x owner clock
        (Order.mkOrder side max_base_lots max_quote_lots client_order_id reduce_only time_in_force
           DecrementTake params) limit
  end.

Definition perp_place_order_pegged_v2 (x : PerpAccounts) (owner : Pubkey) (clock : Clock) (side : Side)
    (price_offset_lots peg_limit max_base_lots max_quote_lots client_order_id : Z) (order_type : PlaceOrderType)
    (self_trade_behavior : SelfTradeBehavior) (reduce_only : bool)
    (expiry_timestamp limit max_oracle_staleness_slots : Z) : outcome (PerpAccounts * option Z) :=
  _ ← place_order_constraints x clock;
  _ ← require (-1 <=? peg_limit) ERequireGte;
  _ ← require (max_oracle_staleness_slots =? -1) ERequireEq;
  match Order.tif_from_expiry (clock_ts clock) expiry_timestamp with
  | None => Done (x, None)
  | Some time_in_force =>
      t ← propagate (to_post_order_type order_type);
      perp_place_order x owner clock
        (Order.mkOrder side max_base_lots max_quote_lots client_order_id reduce_only time_in_force
           self_trade_behavior (Order.OraclePeg price_offset_lots t peg_limit max_oracle_staleness_slots)) limit
  end.

Definition perp_place_order_pegged (x : PerpAccounts) (owner : Pubkey) (clock : Clock) (side : Side)
    (price_offset_lots peg_limit max_base_lots max_quote_lots client_order_id : Z) (order_type : PlaceOrderType)
    (reduce_only : bool) (expiry_timestamp limit max_oracle_staleness_slots : Z) : outcome (PerpAccounts * option Z) :=
  _ ← place_order_constraints x clock;
  _ ← require (-1 <=? peg_limit) ERequireGte;
  _ ← require (max_oracle_staleness_slots =? -1) ERequireEq;
  match Order.tif_from_expiry (clock_ts clock) expiry_timestamp with
  | None => Done (x, None)
  | Some time_in_force =>
      t ← propagate (to_post_order_type order_type);
      perp_place_order x owner clock
        (Order.mkOrder side max_base_lots max_quote_lots client_order_id reduce_only time_in_force
           DecrementTake (Order.OraclePeg price_offset_lots t peg_limit max_oracle_staleness_slots)) limit
  end.

(** ** Cancelling orders *)

(** The part that the cancel instructions share; [operational] says if the account must not
    be frozen. *)
Definition cancel_checks (x : PerpAccounts) (ix : IxGate) (operational : bool) (owner : Pubkey) (clock : Clock) :
    outcome unit :=
  _ ← require (GroupCfg.is_ix_enabled (px_group x) ix) (EMango IxIsDisabled);
  _ ← account_constraint (px_group_pk x) (px_account x) operational (clock_ts clock);
  _ ← book_constraints x;
  owner_check (px_account x) owner (clock_ts clock).

Definition cancel_slot (x : PerpAccounts) (slot : nat) : outcome PerpAccounts :=
  '(book, account, r) ←
    cancel_order_by_slot (px_book x) (px_account x) (px_account_pk x) slot (pm_perp_market_index (px_market x));
  _ ← propagate r;
  Done ((x <| px_book := book |>) <| px_account := account |>).

Definition perp_cancel_order (x : PerpAccounts) (owner : Pubkey) (clock : Clock) (order_id : Z) : outcome PerpAccounts :=
  _ ← cancel_checks x IxPerpCancelOrder true owner clock;
  '(slot, _) ← ok_or (Account.perp_find_order_with_order_id (px_account x) (pm_perp_market_index (px_market x)) order_id)
                 (EMango PerpOrderIdNotFound);
  cancel_slot x slot.

Definition perp_cancel_order_by_client_order_id (x : PerpAccounts) (owner : Pubkey) (clock : Clock)
    (client_order_id : Z) : outcome PerpAccounts :=
  _ ← cancel_checks x IxPerpCancelOrderByClientOrderId false owner clock;
  '(slot, _) ←
    ok_or (Account.perp_find_order_with_client_order_id (px_account x) (pm_perp_market_index (px_market x)) client_order_id)
      (EMango PerpOrderIdNotFound);
  cancel_slot x slot.

Definition cancel_all (x : PerpAccounts) (limit : Z) (side : option Side) : outcome PerpAccounts :=
  '(book, account) ←
    cancel_all_orders (px_book x) (px_account x) (px_account_pk x) (px_market x) limit side;
  Done ((x <| px_book := book |>) <| px_account := account |>).

Definition perp_cancel_all_orders (x : PerpAccounts) (owner : Pubkey) (clock : Clock) (limit : Z) : outcome PerpAccounts :=
  _ ← cancel_checks x IxPerpCancelAllOrders false owner clock;
  cancel_all x limit None.

Definition perp_cancel_all_orders_by_side (x : PerpAccounts) (owner : Pubkey) (clock : Clock) (side_option : option Side)
    (limit : Z) : outcome PerpAccounts :=
  _ ← cancel_checks x IxPerpCancelAllOrdersBySide true owner clock;
  cancel_all x limit side_option.

(** Anyone may cancel the orders of an account that is frozen or liquidatable, and of a
    market in force close. *)
Definition perp_liq_force_cancel_orders (x : PerpAccounts) (clock : Clock) (limit : Z) : outcome PerpAccounts :=
  _ ← require (GroupCfg.is_ix_enabled (px_group x) IxPerpLiqForceCancelOrders) (EMango IxIsDisabled);
  _ ← account_constraint (px_group_pk x) (px_account x) false (clock_ts clock);
  _ ← book_constraints x;
  retriever ← new_fixed_order_account_retriever (px_remaining x) (px_account x) (clock_slot clock);
  health_cache ← new_health_cache (px_account x) retriever (clock_ts clock);
  '(account, liquidatable) ← Account.check_liquidatable (px_account x) health_cache;
  let x := x <| px_account := account |> in
  let can_force_cancel :=
    negb (Fixed.is_operational (ma_fixed account) (clock_ts clock)) ||
    match liquidatable with Account.Liquidatable => true | _ => false end ||
    is_force_close (px_market x) in
  if negb can_force_cancel then Done x
  else
    x ← cancel_all x limit None;
    '(_, perp_position) ← Account.perp_position (px_account x) (pm_perp_market_index (px_market x));
    health_cache ← recompute_perp_info health_cache perp_position (px_market x);
    init_health ← health health_cache LiquidationEnd;
    Done (x <| px_account := set_ma_fixed (px_account x)
                               (fst (Fixed.maybe_recover_from_being_liquidated (ma_fixed (px_account x)) init_health)) |>).

(** ** Closing positions *)

Definition perp_deactivate_position (group_pk : Pubkey) (group : Group) (account : MangoAccount) (m : PerpMarket)
    (owner : Pubkey) (clock : Clock) : outcome MangoAccount :=
  _ ← require (GroupCfg.is_ix_enabled group IxPerpDeactivatePosition) (EMango IxIsDisabled);
  _ ← account_constraint group_pk account true (clock_ts clock);
  _ ← require (pm_group m =? group_pk) EConstraint;
  _ ← owner_check account owner (clock_ts clock);
  '(i, p) ← Account.perp_position account (pm_perp_market_index m);
  p ← Perp.settle_funding p m;
  _ ← require (pp_base_position_lots p =? 0) error_msg;
  _ ← require (pp_quote_position_native p =? 0) error_msg;
  _ ← require ((pp_bids_base_lots p =? 0) && (pp_asks_base_lots p =? 0)) error_msg;
  _ ← require ((pp_taker_base_lots p =? 0) && (pp_taker_quote_lots p =? 0)) error_msg;
  Account.deactivate_perp_position (Account.set_perp account i p) (pm_perp_market_index m) (pm_settle_token_index m).

(** The market and the two accounts after a forced trade between them. *)
Definition perp_force_close_position (group_pk : Pubkey) (group : Group) (m : PerpMarket)
    (account_a_pk : Pubkey) (account_a : MangoAccount) (account_b_pk : Pubkey) (account_b : MangoAccount)
    (oracle : Pubkey * OracleAccount) (clock : Clock) : outcome (PerpMarket * MangoAccount * MangoAccount) :=
  _ ← require (GroupCfg.is_ix_enabled group IxPerpForceClosePosition) (EMango IxIsDisabled);
  _ ← require (pm_group m =? group_pk) EConstraint;
  _ ← require (pm_oracle m =? fst oracle) EConstraint;
  _ ← require (is_force_close m) EConstraint;
  _ ← account_constraint group_pk account_a true (clock_ts clock);
  _ ← require (negb (account_a_pk =? account_b_pk)) EConstraint;
  _ ← account_constraint group_pk account_b true (clock_ts clock);
  '(i, a) ← Account.perp_position account_a (pm_perp_market_index m);
  '(j, b) ← Account.perp_position account_b (pm_perp_market_index m);
  _ ← require (0 <? pp_base_position_lots a) (EMango SomeError);
  _ ← require (pp_base_position_lots b <? 0) (EMango SomeError);
  nb ← i64 (Z.abs (pp_base_position_lots b));
  let base_transfer := Z.max (Z.min (pp_base_position_lots a) nb) 0 in
  oracle_price ← perp_oracle_price m (from_reader oracle) (Some (clock_slot clock));
  n ← i64 (base_transfer * pm_base_lot_size m);
  n ← fx_from_int n;
  quote_transfer ← fx_mul n oracle_price;
  neg_base ← i64 (- base_transfer);
  '(a, m, _) ← Perp.record_trade a m neg_base quote_transfer;
  neg_quote ← fx_neg quote_transfer;
  '(b, m, _) ← Perp.record_trade b m base_transfer neg_quote;
  Done (m, Account.set_perp account_a i a, Account.set_perp account_b j b).

(** ** Consuming events *)

(** [load_mango_account!]. *)
Definition load_mango_account (accounts : AccountMap) (group : Group) (key : Pubkey) : outcome (Loaded MangoAccount) :=
  match accounts !! key with
  | None => Done Missing
  | Some None => if GroupCfg.is_testing group then Done Foreign else Fail EAccountType
  | Some (Some a) => Done (Found a)
  end.

(** The accounts and the market after an event; [index] is the market's. *)
Definition consume_fill (index : Z) (accounts : AccountMap) (group : Group) (m : PerpMarket) (now_ts : Z) (fill : FillEvent) :
    outcome (Loaded (AccountMap * PerpMarket)) :=
  let interval := gr_buyback_fees_expiry_interval group in
  maker ← load_mango_account accounts group (fill_maker fill);
  match maker with
  | Missing => Done Missing
  | Foreign => Done Foreign
  | Found maker =>
      if fill_maker fill =? fill_taker fill then
        '(a, m, maker_realized_pnl) ← Account.execute_perp_maker maker now_ts index m fill interval;
        '(a, m, taker_realized_pnl) ← Account.execute_perp_taker a index m fill;
        _ ← fx_add maker_realized_pnl taker_realized_pnl;
        Done (Found (<[fill_maker fill := Some a]> accounts, m))
      else
        taker ← load_mango_account accounts group (fill_taker fill);
        match taker with
        | Missing => Done Missing
        | Foreign => Done Foreign
        | Found taker =>
            '(maker, m, _) ← Account.execute_perp_maker maker now_ts index m fill interval;
            '(taker, m, _) ← Account.execute_perp_taker taker index m fill;
            Done (Found (<[fill_taker fill := Some taker]> (<[fill_maker fill := Some maker]> accounts), m))
        end
  end.

Definition consume_out (index : Z) (accounts : AccountMap) (group : Group) (m : PerpMarket) (out : OutEvent) :
    outcome (Loaded (AccountMap * PerpMarket)) :=
  owner ← load_mango_account accounts group (out_owner out);
  match owner with
  | Missing => Done Missing
  | Foreign => Done Foreign
  | Found owner =>
      a ← Account.execute_perp_out_event owner index (out_side out) (Z.to_nat (out_owner_slot out))
            (out_quantity out) (out_order_id out);
      Done (Found (<[out_owner out := Some a]> accounts, m))
  end.

Definition consume_event (index : Z) (accounts : AccountMap) (group : Group) (m : PerpMarket) (now_ts : Z) (e : AnyEvent) :
    outcome (Loaded (AccountMap * PerpMarket)) :=
  match e with
  | AFill fill => consume_fill index accounts group m now_ts fill
  | AOut out => consume_out index accounts group m out
  end.

(** The loop, with [n] rounds left. *)
Fixpoint consume_loop (n : nat) (index : Z) (accounts : AccountMap) (group : Group) (m : PerpMarket) (q : EventQueue) (now_ts : Z) :
    outcome (AccountMap * PerpMarket * EventQueue) :=
  match n with
  | O => Done (accounts, m, q)
  | S n =>
      event ← peek_front q;
      match event with
      | None => Done (accounts, m, q)
      | Some e =>
          r ← consume_event index accounts group m now_ts e;
          match r with
          | Missing => Done (accounts, m, q)
          | Foreign => '(q, _) ← pop_front q; consume_loop n index accounts group m q now_ts
          | Found (accounts, m) => '(q, _) ← pop_front q; consume_loop n index accounts group m q now_ts
          end
      end
  end.

Definition perp_consume_events (group_pk : Pubkey) (group : Group) (m : PerpMarket) (event_queue_pk : Pubkey)
    (q : EventQueue) (accounts : AccountMap) (clock : Clock) (limit : Z) : outcome (AccountMap * PerpMarket * EventQueue) :=
  _ ← require (GroupCfg.is_ix_enabled group IxPerpConsumeEvents) (EMango IxIsDisabled);
  _ ← require (pm_group m =? group_pk) EConstraint;
  _ ← require (pm_event_queue m =? event_queue_pk) EConstraint;
  consume_loop (Z.to_nat (Z.min limit 8)) (pm_perp_market_index m) accounts group m q (clock_ts clock).

End instructions.
