(* ===== verification/TokenLiquidationSpec.v ===== *)
(** * Properties of token liquidations

    The amounts of a liquidation are within their limits, and a liquidation moves them
    between the two accounts and leaves the liqor healthy. *)

From stdpp Require Import base numbers option list gmap.
From Stdlib Require Import ZArith Lia Psatz SpecFloat.
From S2P Require Import Prelude FixedPoint HealthType TokenPosition Nodes Oracle StablePrice Bank BankSpec BankInterest Group Serum3 PerpMarket PerpPosition MangoAccount HealthCache AccountRetriever TokenInstructions TokenInstructionsSpec TokenLiquidation.

Open Scope Z_scope.

Section spec.
Context `{FixedLaws}.

(** ** Amounts *)

(** Banks whose fees are not negative. *)
Definition fees_ok (b : Bank) : Prop := 0 <= bk_liquidation_fee b /\ 0 <= bk_platform_liquidation_fee b.

(** The factors, as numbers. *)
Definition factor_of (x y : Z) : Z := (fx_one + x) * (fx_one + y) / fx_scale.

Lemma fee_factors_inv ab lb fl ft :
  fees_ok ab -> fees_ok lb -> fee_factor_liqor ab lb = Done fl -> fee_factor_total ab lb = Done ft ->
  ft = factor_of (bk_liquidation_fee lb + bk_platform_liquidation_fee lb)
         (bk_liquidation_fee ab + bk_platform_liquidation_fee ab) /\
  fx_one <= fl <= ft.
Proof.
  intros [A1 A2] [L1 L2] E1 E2. unfold fee_factor_liqor, fee_factor_total in *. fx_inv. unfold factor_of.
  rewrite <- !Z.add_assoc. pose proof scale_pos. split; [done|]. split.
  - apply Z.div_le_lower_bound; [done|]. change fx_one with fx_scale. nia.
  - apply Z.div_le_mono; [done|]. change fx_one with fx_scale. nia.
Qed.

(** A quotient of non-negative numbers is the floor. *)
Lemma fx_quot_le a d q : 0 <= a -> 0 < d -> q = Z.quot (a * fx_scale) d -> 0 <= q /\ q * d <= a * fx_scale.
Proof.
  intros Ha Hd ->. pose proof scale_pos. rewrite Z.quot_div_nonneg by nia.
  pose proof (floor_bounds (a * fx_scale) d Hd). split; [apply Z.div_pos; nia|lia].
Qed.

(** The asset paid for a liability, against the asset the liability was bought with. *)
Lemma asset_within base x lop aop ft lopa m :
  0 < aop -> 0 < lopa -> 0 <= base -> 0 <= ft -> 0 <= lop -> 0 <= m -> 0 <= x ->
  lopa = lop * ft / fx_scale -> base * aop <= x * lop -> x * lopa <= m * aop ->
  base * ft / fx_scale * lopa <= m * (lopa + 1).
Proof.
  intros Haop Hlopa Hb Hft Hlop Hm Hx El H1 H2. pose proof scale_pos as Hs.
  pose proof (floor_bounds (lop * ft) fx_scale Hs) as F. rewrite <- El in F.
  pose proof (floor_bounds (base * ft) fx_scale Hs) as G. set (from := base * ft / fx_scale) in *.
  assert (G1 : from * fx_scale * aop <= x * (lop * ft)) by nia.
  assert (G2 : x * (lop * ft) <= x * ((lopa + 1) * fx_scale)) by nia.
  assert (G3 : from * aop <= x * (lopa + 1)) by nia.
  assert (0 <= from) by (apply Z.div_pos; nia).
  assert (from * aop * lopa <= m * aop * (lopa + 1)) by nia. nia.
Qed.

Lemma asset_transfer_inv x lop aop fl ft to from :
  0 < aop -> 0 <= lop -> 0 <= x -> fx_one <= fl <= ft ->
  asset_transfer_amounts x lop aop fl ft = Done (to, from) ->
  0 <= to <= from /\ exists base, 0 <= base /\ base * aop <= x * lop /\ from = base * ft / fx_scale.
Proof.
  intros Ha Hl Hx Hf E. pose proof scale_pos as Hs. unfold asset_transfer_amounts in E. fx_inv.
  match goal with |- context [Z.quot (?v * fx_scale) ?d] => destruct (fx_quot_le v d _ ltac:(apply Z.div_pos; nia) Ha eq_refl) as [B1 B2];
    set (base := Z.quot (v * fx_scale) d) in * end.
  pose proof (floor_bounds (x * lop) fx_scale Hs).
  change fx_one with fx_scale in Hf. split; [|exists base; split_and!; [done|nia|done]].
  split; [apply Z.div_pos; nia|apply Z.div_le_mono; nia].
Qed.

Lemma liab_transfer_inv h p w lopa iaw ma aop ml x :
  0 <= ma -> 0 < aop -> 0 <= lopa -> 0 <= ml ->
  liab_transfer_amount h p w lopa iaw ma aop ml = Done x ->
  0 < lopa /\ 0 <= x <= ml /\ x * lopa <= ma * aop /\
  (h <= 0 -> 0 < p * w / fx_scale - lopa * iaw / fx_scale ->
   x * (p * w / fx_scale - lopa * iaw / fx_scale) <= - h * fx_scale).
Proof.
  intros Hma Ha Hl Hml E. pose proof scale_pos as Hs. unfold liab_transfer_amount in E. fx_inv.
  assert (Hlp : 0 < lopa) by lia.
  destruct (fx_quot_le (ma * aop / fx_scale) lopa _ ltac:(apply Z.div_pos; nia) Hlp eq_refl) as [P1 P2].
  set (possible := Z.quot (ma * aop / fx_scale * fx_scale) lopa) in *.
  pose proof (floor_bounds (ma * aop) fx_scale Hs). split; [done|]. split; [lia|]. split; [nia|].
  intros Hh Hd. destruct (fx_quot_le (- h) _ _ ltac:(lia) Hd eq_refl) as [N1 N2]. nia.
Qed.

Lemma liquidation_limits_inv c li ai ln an mt ml ma :
  liquidation_limits c li ai ln an mt = Done (ml, ma) ->
  0 < ml <= mt /\ ml <= - ln /\ 0 < ma <= an /\
  exists balances i j lb ab, effective_token_balances c LiquidationEnd = Done balances /\
    token_info_index c li = Done i /\ balances !! i = Some lb /\ ml <= - lb /\
    token_info_index c ai = Done j /\ balances !! j = Some ab /\ ma <= ab.
Proof.
  unfold liquidation_limits. intros E.
  apply bind_Done_inv in E as (bs & Eb & E). apply bind_Done_inv in E as (i & Ei & E).
  apply bind_Done_inv in E as (lb & Elb & E). apply bind_Done_inv in E as (n & En & E).
  apply bind_Done_inv in E as (m & Em & E). apply bind_Done_inv in E as (j & Ej & E).
  apply bind_Done_inv in E as (ab & Eab & E). apply bind_Done_inv in E as (u & R1 & E).
  apply bind_Done_inv in E as (v & R2 & E). injection E as <- <-.
  apply require_inv, Z.ltb_lt in R1. apply require_inv, Z.ltb_lt in R2.
  apply fx_neg_inv in En as ->. apply fx_neg_inv in Em as ->.
  unfold unwrap in *. destruct (bs !! i) as [lb'|] eqn:Hi; [|done]. injection Elb as ->.
  destruct (bs !! j) as [ab'|] eqn:Hj; [|done]. injection Eab as ->.
  split_and!; try lia. exists bs, i, j, lb, ab. split_and!; (done || lia).
Qed.

(** The amounts of a liquidation are within their limits, for positive prices and
    non-negative fees. The liability is positive and no larger than asked for, than the
    borrow, and than what brings the liquidation-end health to zero at the weights and
    prices used; so a liquidation never turns a borrow into a deposit and does not
    liquidate a healthy rest. The liqor receives no more than the liqee pays, the rest is
    the platform's fee, and the liqee pays no more than its deposits, up to the rounding of
    the adjusted price (one unit in the last place of it). *)
Theorem liquidation_amounts_bounded c ai li ab lb aop lop an ln h mt x to from :
  0 < aop -> 0 < lop -> fees_ok ab -> fees_ok lb ->
  liquidation_amounts c ai li ab lb aop lop an ln h mt = Done (x, to, from) ->
  let lopa := lop * factor_of (bk_liquidation_fee lb + bk_platform_liquidation_fee lb)
                      (bk_liquidation_fee ab + bk_platform_liquidation_fee ab) / fx_scale in
  0 <= x <= mt /\ x <= - ln /\
  0 <= to <= from /\ from * lopa <= an * (lopa + 1) /\
  exists t, token_info c li = Done t /\
    let gain := Price.liab (ti_prices t) LiquidationEnd * bk_init_liab_weight lb / fx_scale -
                lopa * bk_init_asset_weight ab / fx_scale in
    (h <= 0 -> 0 < gain -> x * gain <= - h * fx_scale).
Proof.
  intros Ha Hl Fa Fl E. unfold liquidation_amounts in E. pose proof scale_pos as Hs.
  apply bind_Done_inv in E as (fl & Efl & E). apply bind_Done_inv in E as (ft & Eft & E).
  destruct (fee_factors_inv _ _ _ _ Fa Fl Efl Eft) as [-> Hf]. set (ft := factor_of _ _) in *.
  apply bind_Done_inv in E as (lopa & Elopa & E). apply fx_mul_inv in Elopa. cbv zeta. rewrite <- Elopa.
  apply bind_Done_inv in E as (t & Et & E). apply bind_Done_inv in E as (t2 & _ & E).
  apply bind_Done_inv in E as ([ml ma] & Elim & E). apply liquidation_limits_inv in Elim as (M1 & M2 & M3 & _).
  apply bind_Done_inv in E as (u & _ & E). apply bind_Done_inv in E as (x' & Ex & E).
  apply bind_Done_inv in E as ([to' from'] & Eat & E). injection E as -> -> ->.
  change fx_one with fx_scale in Hf.
  apply liab_transfer_inv in Ex as (Hlp & Hx & Hpos & Hg); [|lia|lia| |lia].
  2: { rewrite Elopa. apply Z.div_pos; nia. }
  apply asset_transfer_inv in Eat as (Hto & base & B1 & B2 & ->); [|lia|lia|lia|done].
  split_and!; try lia.
  - transitivity (ma * (lopa + 1)); [|nia]. apply (asset_within base x lop aop ft lopa ma); (done || lia).
  - exists t. split; [by destruct (token_info c li)|done].
Qed.

(** ** The transfers *)

(** The positions of two accounts and a bank when [x] moves into [p] and out of [q], with
    or without a loan fee for [q]. *)
Definition paid (b : Bank) (p q : TokenPosition) (into out : Z) (dust_p fee dust_q : bool) (b' : Bank)
    (p' q' : TokenPosition) : Prop :=
  exists b1 active r, deposited b p into dust_p b1 p' active /\ withdrawn b1 q out fee dust_q b' q' r.

(** The same with what both operations report: whether the positions are still active. *)
Definition paid_with (b : Bank) (p q : TokenPosition) (into out : Z) (dust_p fee dust_q : bool) (b' : Bank)
    (p' : TokenPosition) (p_active : bool) (q' : TokenPosition) (q_active : bool) : Prop :=
  exists b1 r, deposited b p into dust_p b1 p' p_active /\ withdrawn b1 q out fee dust_q b' q' r /\
    wr_position_is_active r = q_active.

Lemma set_token_twice a i p q : Account.set_token (Account.set_token a i p) i q = Account.set_token a i q.
Proof. unfold Account.set_token. simpl. by rewrite list_insert_insert_eq. Qed.

Lemma lookup_set_token a i (p p' : TokenPosition) :
  ma_tokens a !! i = Some p -> ma_tokens (Account.set_token a i p') !! i = Some p'.
Proof. intros E. simpl. apply list_lookup_insert_eq. by eapply lookup_lt_Some. Qed.

Lemma transfer_liab_inv b ti liqee liqor i x now b' liqee' liqor' act k lact after :
  indexes_ok b -> 0 <= bk_loan_origination_fee_rate b ->
  transfer_liab b ti liqee liqor i x now = Done (b', liqee', liqor', act, (k, lact), after) ->
  exists p q p' q' dact,
    ma_tokens liqee !! i = Some p /\ liqee' = Account.set_token liqee i p' /\
    taken (ma_tokens liqor) ti k q /\ liqor' = Account.set_token liqor k q' /\
    after = value b' p' /\ act = dact || Token.is_in_use p' /\
    paid_with b p q x x true true (negb (Token.is_in_use q)) b' p' dact q' lact.
Proof.
  intros HI HR E. unfold transfer_liab in E.
  apply bind_Done_inv in E as (p & Ep & E). apply bind_Done_inv in E as ([[b1 p'] a1] & Ed & E).
  apply bind_Done_inv in E as ([[liqor1 k1] n1] & Ee & E). apply bind_Done_inv in E as (q & Eq & E).
  apply bind_Done_inv in E as ([[b2 q'] r] & Ew & E). apply bind_Done_inv in E as (nat' & En & E).
  injection E as <- <- <- <- <- <- <-. apply unwrap_inv in Ep. apply unwrap_inv in Eq.
  unfold deposit_with_dusting in Ed. apply bind_Done_inv in Ed as ([[b3 p3] nd] & Ed & E). injection E as <- <- <-.
  pose proof (deposit_internal_wrapper_spec _ _ _ _ _ _ _ _ HI Ed) as D.
  assert (HI1 : indexes_ok b3) by (eapply moved_indexes; [apply D|done]).
  assert (HR1 : bk_loan_origination_fee_rate b3 = bk_loan_origination_fee_rate b) by (by eapply touched_rate, deposit_touched).
  pose proof (withdraw_internal_wrapper_spec _ _ _ _ _ _ _ _ _ HI1 ltac:(lia) Ew) as W.
  apply native_value in En. apply ensure_taken in Ee as (q0 & Hq & -> & Lq). rewrite Lq in Eq. injection Eq as ->.
  exists p, q, p3, q', nd. rewrite set_token_twice. split_and!; try done. by exists b3, r.
Qed.

Lemma transfer_asset_inv b ti liqee liqor i to from now b' liqee' liqor' act k lact after :
  indexes_ok b -> 0 <= bk_loan_origination_fee_rate b ->
  transfer_asset b ti liqee liqor i to from now = Done (b', liqee', liqor', act, (k, lact), after) ->
  exists p q p' q' wact,
    ma_tokens liqee !! i = Some p /\ liqee' = Account.set_token liqee i p' /\
    taken (ma_tokens liqor) ti k q /\ liqor' = Account.set_token liqor k q' /\
    after = value b' p' /\ act = wact || Token.is_in_use p' /\
    paid_with b q p to from (negb (Token.is_in_use q)) false true b' q' lact p' wact.
Proof.
  intros HI HR E. unfold transfer_asset in E.
  apply bind_Done_inv in E as ([[liqor1 k1] n1] & Ee & E). apply bind_Done_inv in E as (q & Eq & E).
  apply bind_Done_inv in E as ([[b1 q'] a1] & Ed & E). apply bind_Done_inv in E as (p & Ep & E).
  apply bind_Done_inv in E as ([[b2 p'] a2] & Ew & E). apply bind_Done_inv in E as (nat' & En & E).
  injection E as <- <- <- <- <- <- <-. apply unwrap_inv in Ep. apply unwrap_inv in Eq.
  unfold withdraw_without_fee_with_dusting in Ew. apply bind_Done_inv in Ew as ([[b3 p3] r] & Ew & E).
  injection E as <- <- <-.
  pose proof (deposit_internal_wrapper_spec _ _ _ _ _ _ _ _ HI Ed) as D.
  assert (HI1 : indexes_ok b1) by (eapply moved_indexes; [apply D|done]).
  assert (HR1 : bk_loan_origination_fee_rate b1 = bk_loan_origination_fee_rate b) by (by eapply touched_rate, deposit_touched).
  pose proof (withdraw_internal_wrapper_spec _ _ _ _ _ _ _ _ _ HI1 ltac:(lia) Ew) as W.
  apply native_value in En. apply ensure_taken in Ee as (q0 & Hq & -> & Lq). rewrite Lq in Eq. injection Eq as ->.
  exists p, q, p3, q', (wr_position_is_active r). rewrite set_token_twice. split_and!; try done. by exists b1, r.
Qed.

Lemma deactivate_unless_fixed active a i a' : deactivate_unless active a i = Done a' -> ma_fixed a' = ma_fixed a.
Proof. unfold deactivate_unless. destruct active; [by intros [= ->]|]. by apply (deactivate_fixed true). Qed.

(** Positions of an account after one of them changed. *)
Lemma position_same {A} (f : A -> bool) l j x y : l !! j = Some x -> f y = f x -> position f (<[j := y]> l) = position f l.
Proof.
  revert j. induction l as [|z l IH]; intros [|j] Hx Hf; try done; simpl in *.
  - injection Hx as ->. by rewrite Hf.
  - case_match; [done|]. by rewrite (IH j).
Qed.

Lemma token_position_lookup a ti p i : Account.token_position_and_raw_index a ti = Done (p, i) ->
  position (fun t => Token.is_active_for_token t ti) (ma_tokens a) = Some i /\ ma_tokens a !! i = Some p /\ tp_token_index p = ti.
Proof.
  unfold Account.token_position_and_raw_index, ok_or. intros E. destruct (position _ _) as [j|] eqn:Ej; [|done]. simpl in E.
  apply bind_Done_inv in E as (t & Et & E). apply unwrap_inv in Et. injection E as <- <-. split_and!; [done..|].
  apply position_Some in Ej as [(x & Hx & Hf) _]. rewrite Et in Hx. injection Hx as <-. by apply Z.eqb_eq.
Qed.

Lemma token_position_set a ti p i p' : Account.token_position_and_raw_index a ti = Done (p, i) -> tp_token_index p' = ti ->
  Account.token_position_and_raw_index (Account.set_token a i p') ti = Done (p', i).
Proof.
  intros E Hp. apply token_position_lookup in E as (Ej & Hi & Ht). unfold Account.token_position_and_raw_index.
  simpl. rewrite (position_insert _ _ _ p' Ej) by (by apply Z.eqb_eq). simpl.
  by rewrite list_lookup_insert_eq by (apply lookup_lt_is_Some; eauto).
Qed.

Lemma token_position_other a ti p i p' tj : Account.token_position_and_raw_index a ti = Done (p, i) -> tp_token_index p' = ti ->
  tj <> ti -> Account.token_position_and_raw_index (Account.set_token a i p') tj = Account.token_position_and_raw_index a tj.
Proof.
  intros E Hp Hne. apply token_position_lookup in E as (_ & Hi & Ht). unfold Account.token_position_and_raw_index. simpl.
  assert (Hf : Token.is_active_for_token p' tj = Token.is_active_for_token p tj).
  { unfold Token.is_active_for_token. by rewrite Hp, Ht. }
  rewrite (position_same _ _ _ _ _ Hi Hf). destruct (position _ _) as [j|] eqn:Ej; [|done]. simpl.
  apply position_Some in Ej as [(x & Hx & Hx') _]. rewrite list_lookup_insert_ne; [done|]. intros <-.
  rewrite Hi in Hx. injection Hx as <-. apply Z.eqb_eq in Hx'. congruence.
Qed.

(** The position of a token. *)
Lemma token_position_inv a ti p i :
  Account.token_position_and_raw_index a ti = Done (p, i) ->
  ma_tokens a !! i = Some p /\ tp_token_index p = ti.
Proof.
  unfold Account.token_position_and_raw_index. intros E. apply bind_Done_inv in E as (j & Ej & E).
  apply bind_Done_inv in E as (q & Eq & E). injection E as <- <-. apply unwrap_inv in Eq. split; [done|].
  unfold ok_or in Ej. destruct (position _ _) as [k|] eqn:Ep; [|done]. injection Ej as ->.
  apply position_lookup in Ep as (q' & Eq' & Hq). rewrite Eq in Eq'. injection Eq' as <-.
  unfold Token.is_active_for_token in Hq. mlia.
Qed.

(** ** The banks of the retriever *)

Definition banks_ok (ais : list AccountInfo) : Prop :=
  forall k b, (k, ABank b) ∈ ais -> indexes_ok b /\ 0 <= bk_loan_origination_fee_rate b.

Lemma bank_at_inv s i b price : Scanning.bank_at s i = Done (b, price) -> exists k, sb_banks s !! i = Some (k, ABank b).
Proof.
  unfold Scanning.bank_at. intros E. apply bind_Done_inv in E as (ai & Ea & E). apply unwrap_inv in Ea.
  apply bind_Done_inv in E as (b' & Eb & E). apply bind_Done_inv in E as (inf & _ & E).
  apply bind_Done_inv in E as (pr & _ & E). injection E as -> ->.
  destruct ai as [k []]; try done. injection Eb as ->. by exists k.
Qed.

Lemma banks_mut_inv s t1 t2 i b1 p1 j b2 p2 :
  Scanning.banks_mut_and_oracles s t1 t2 = Done (i, (b1, p1), Some (j, (b2, p2))) ->
  t1 <> t2 /\ sb_index_map s !! t1 = Some i /\ sb_index_map s !! t2 = Some j /\
  Scanning.bank_at s i = Done (b1, p1) /\ Scanning.bank_at s j = Done (b2, p2).
Proof.
  unfold Scanning.banks_mut_and_oracles, Scanning.bank_index. intros E.
  destruct (Z.eqb_spec t1 t2) as [->|Hne].
  { apply bind_Done_inv in E as (k & _ & E). by apply bind_Done_inv in E as (b & _ & [=]). }
  apply bind_Done_inv in E as (i' & Ei & E). apply bind_Done_inv in E as (j' & Ej & E).
  assert (Hij : i' = i /\ j' = j /\ Scanning.bank_at s i' = Done (b1, p1) /\ Scanning.bank_at s j' = Done (b2, p2)).
  { destruct (i' <? j')%nat; apply bind_Done_inv in E as ([c1 q1] & E1 & E);
      apply bind_Done_inv in E as ([c2 q2] & E2 & E); by injection E as <- <- <- <- <- <-. }
  destruct Hij as (-> & -> & H1 & H2). unfold ok_or in *.
  destruct (sb_index_map s !! t1); [|done]. destruct (sb_index_map s !! t2); [|done].
  injection Ei as ->. by injection Ej as ->.
Qed.

Lemma scanning_new_banks ais g slot r :
  Scanning.new ais g slot = Done r -> exists n, sb_banks (sc_banks_and_oracles r) = take n ais.
Proof.
  unfold Scanning.new, Scanning.new_with_staleness. intros E.
  repeat (apply bind_Done_inv in E as (? & _ & E)). injection E as <-. eauto.
Qed.

Lemma set_bank_inv s i b s' : Scanning.set_bank s i b = Done s' ->
  exists k, sb_banks s' = <[i := (k, ABank b)]> (sb_banks s) /\ (i < length (sb_banks s))%nat.
Proof.
  unfold Scanning.set_bank. intros E. apply bind_Done_inv in E as ([k d] & Ea & E). apply unwrap_inv in Ea.
  injection E as <-. exists k. split; [done|]. by eapply lookup_lt_Some.
Qed.

(** ** Liquidations *)

(** What a liquidation did to the banks and the token positions [ts] of the liqee and [us]
    of the liqor. [pl] and [pa] are the liqee's positions in the slots [il] and [ia]: a
    liability, whose value is negative, and an asset. The liability [x] is paid into the
    liqee's position by a withdrawal of the liqor with a loan fee; the asset bank pays [to]
    into the liqor's position and takes [from] out of the liqee's, and collects the
    difference as a fee. The four positions are stored in their slots, which are marked
    unused where a position is neither active nor in use. *)
Definition liquidated (ai li : Z) (ab lb : Bank) (ts us : list TokenPosition) (ia il : nat) (pa pl : TokenPosition)
    (x to from : Z) (ab' lb' : Bank) (pa' pl' : TokenPosition) (ts' us' : list TokenPosition) : Prop :=
  exists kl ql ql' ka qa qa' pl_act ql_act qa_act pa_act,
    taken us li kl ql /\ taken (<[kl := ql']> us) ai ka qa /\
    paid_with lb pl ql x x true true (negb (Token.is_in_use ql)) lb' pl' pl_act ql' ql_act /\
    paid_with ((ab <| bk_collected_fees_native := bk_collected_fees_native ab + (from - to) |>)
                 <| bk_collected_liquidation_fees := bk_collected_liquidation_fees ab + (from - to) |>)
              qa pa to from (negb (Token.is_in_use qa)) false true ab' qa' qa_act pa' pa_act /\
    ts' = tidy (pl_act || Token.is_in_use pl') il (tidy (pa_act || Token.is_in_use pa') ia (<[ia := pa']> (<[il := pl']> ts))) /\
    us' = tidy ql_act kl (tidy qa_act ka (<[ka := qa']> (<[kl := ql']> us))).

Lemma deactivate_unless_tidy active a i a' :
  deactivate_unless active a i = Done a' -> a' = set_ma_tokens a (tidy active i (ma_tokens a)).
Proof. apply deactivate_tidy. Qed.

Lemma deactivate_inactive_inv t i j a b : deactivate_inactive t i j = Done (a, b) ->
  a = set_ma_tokens (tr_liqee t) (tidy (tr_liqee_liab_active t) j (tidy (tr_liqee_asset_active t) i (ma_tokens (tr_liqee t)))) /\
  b = set_ma_tokens (tr_liqor t) (tidy (snd (tr_liqor_liab t)) (fst (tr_liqor_liab t))
        (tidy (snd (tr_liqor_asset t)) (fst (tr_liqor_asset t)) (ma_tokens (tr_liqor t)))).
Proof.
  unfold deactivate_inactive. intros E.
  apply bind_Done_inv in E as (a1 & E1 & E). apply bind_Done_inv in E as (a2 & E2 & E).
  apply bind_Done_inv in E as (b1 & E3 & E). apply bind_Done_inv in E as (b2 & E4 & E). injection E as <- <-.
  apply deactivate_unless_tidy in E1 as ->, E2 as ->, E3 as ->, E4 as ->. done.
Qed.

Lemma liquidation_transfers_inv ab lb ai li liqee liqor ia il pa pl x to from now t liqee' liqor' :
  indexes_ok ab -> 0 <= bk_loan_origination_fee_rate ab -> indexes_ok lb -> 0 <= bk_loan_origination_fee_rate lb ->
  ma_tokens liqee !! ia = Some pa -> ma_tokens liqee !! il = Some pl -> ia <> il ->
  liquidation_transfers ab lb ai li liqee liqor ia il x to from now = Done t ->
  deactivate_inactive t ia il = Done (liqee', liqor') ->
  exists pa' pl', liquidated ai li ab lb (ma_tokens liqee) (ma_tokens liqor) ia il pa pl x to from
      (tr_asset_bank t) (tr_liab_bank t) pa' pl' (ma_tokens liqee') (ma_tokens liqor') /\
    tr_liab_native t = value (tr_liab_bank t) pl' /\ tr_asset_native t = value (tr_asset_bank t) pa' /\
    ma_fixed liqee' = ma_fixed liqee /\ ma_fixed liqor' = ma_fixed liqor.
Proof.
  intros Ia Ra Il Rl La Ll Hne E Ed. apply deactivate_inactive_inv in Ed as [-> ->]. unfold liquidation_transfers in E.
  apply bind_Done_inv in E as (fee & Ef & E). apply fx_sub_inv in Ef as ->.
  apply bind_Done_inv in E as (ab1 & Ec & E).
  apply bind_Done_inv in E as ([[[[[lb1 liqee1] liqor1] a1] [k1 a1']] n1] & El & E).
  apply bind_Done_inv in E as ([[[[[ab2 liqee2] liqor2] a2] [k2 a2']] n2] & Ea & E). injection E as <-.
  apply transfer_liab_inv in El as (p & ql & p' & ql' & d1 & Hp & -> & Tl & -> & -> & -> & Pl); [|done..].
  rewrite Ll in Hp. injection Hp as <-.
  unfold collect_liquidation_fee in Ec. fx_inv.
  apply transfer_asset_inv in Ea as (q & qa & q' & qa' & d2 & Hq & -> & Ta & -> & -> & -> & Pa); [|by destruct Ia; constructor|done].
  simpl in Hq. rewrite list_lookup_insert_ne in Hq by done. rewrite La in Hq. injection Hq as <-.
  exists q', p'. simpl. split_and!; try done. by exists k1, ql, ql', k2, qa, qa', d1, a1', a2', d2.
Qed.

(** A health cache after the balances of two tokens changed. *)
Definition rebalanced (c : HealthCache) (b1 : Bank) (d1 : Z) (b2 : Bank) (d2 : Z) (c' : HealthCache) : Prop :=
  exists c1, adjust_token_balance c b1 d1 = Done c1 /\ adjust_token_balance c1 b2 d2 = Done c'.

Lemma liquidation_action_inv r li ai liqor liqee c h now mt r' liqor' liqee' c' :
  banks_ok (sb_banks (sc_banks_and_oracles r)) -> ai <> li ->
  liquidation_action r li ai liqor liqee c h now mt = Done (r', liqor', liqee', c') ->
  exists ia il ka kl ab aop lb lop ja jl pa pl x to from ab' lb' pa' pl' h',
    sb_index_map (sc_banks_and_oracles r) !! ai = Some ia /\ sb_index_map (sc_banks_and_oracles r) !! li = Some il /\
    Scanning.bank_at (sc_banks_and_oracles r) ia = Done (ab, aop) /\
    Scanning.bank_at (sc_banks_and_oracles r) il = Done (lb, lop) /\
    ma_tokens liqee !! ja = Some pa /\ tp_token_index pa = ai /\ 0 < value ab pa /\ BankCfg.allows_asset_liquidation ab = true /\
    ma_tokens liqee !! jl = Some pl /\ tp_token_index pl = li /\ value lb pl < 0 /\
    liquidation_amounts c ai li ab lb aop lop (value ab pa) (value lb pl) h mt = Done (x, to, from) /\
    liquidated ai li ab lb (ma_tokens liqee) (ma_tokens liqor) ja jl pa pl x to from ab' lb' pa' pl'
      (ma_tokens liqee') (ma_tokens liqor') /\
    sb_banks (sc_banks_and_oracles r')
      = <[ia := (ka, ABank ab')]> (<[il := (kl, ABank lb')]> (sb_banks (sc_banks_and_oracles r))) /\
    rebalanced c lb' (value lb' pl' - value lb pl) ab' (value ab' pa' - value ab pa) c' /\
    health c' LiquidationEnd = Done h' /\
    ma_fixed liqor' = ma_fixed liqor /\
    ma_fixed liqee' = fst (Fixed.maybe_recover_from_being_liquidated (ma_fixed liqee) h').
Proof.
  intros HB Hne E. unfold liquidation_action in E.
  apply bind_Done_inv in E as ([[ia [ab aop]] opt] & Eb & E).
  apply bind_Done_inv in E as ([il [lb lop]] & Eo & E). apply unwrap_inv in Eo as ->.
  apply banks_mut_inv in Eb as (_ & Ma & Ml & Ba & Bl).
  destruct (bank_at_inv _ _ _ _ Ba) as [ka Ka]. destruct (bank_at_inv _ _ _ _ Bl) as [kl Kl].
  destruct (HB ka ab (list_elem_of_lookup_2 _ _ _ Ka)) as [HIa HRa].
  destruct (HB kl lb (list_elem_of_lookup_2 _ _ _ Kl)) as [HIl HRl].
  apply bind_Done_inv in E as ([pa iap] & Epa & E). apply token_position_inv in Epa as [La Ta].
  apply bind_Done_inv in E as (an & Ean & E). apply native_value in Ean as ->.
  apply bind_Done_inv in E as (u1 & R1 & E). apply require_inv, Z.ltb_lt in R1.
  apply bind_Done_inv in E as (u2 & R2 & E). apply require_inv in R2.
  apply bind_Done_inv in E as ([pl ilp] & Epl & E). apply token_position_inv in Epl as [Ll Tl].
  apply bind_Done_inv in E as (ln & Eln & E). apply native_value in Eln as ->.
  apply bind_Done_inv in E as (u3 & R3 & E). apply require_inv, Z.ltb_lt in R3.
  apply bind_Done_inv in E as ([[x to] from] & Ex & E). apply bind_Done_inv in E as (t & Et & E).
  apply bind_Done_inv in E as (ch1 & Ech1 & E). apply bind_Done_inv in E as (c1 & Ec1 & E).
  apply bind_Done_inv in E as (ch2 & Ech2 & E). apply bind_Done_inv in E as (c2 & Ec2 & E).
  apply bind_Done_inv in E as ([e1 o1] & Ed & E).
  destruct (liquidation_transfers_inv _ _ _ _ _ _ _ _ pa pl _ _ _ _ _ _ _ HIa HRa HIl HRl La Ll ltac:(congruence) Et Ed)
    as (pa' & pl' & L & Nl & Na & Fe & Fo).
  apply fx_sub_inv in Ech1, Ech2. rewrite Nl in Ech1. rewrite Na in Ech2. subst ch1 ch2.
  apply bind_Done_inv in E as (h' & Eh & E). apply bind_Done_inv in E as (s1 & S1 & E).
  apply bind_Done_inv in E as (s2 & S2 & E). injection E as <- <- <- <-.
  apply set_bank_inv in S1 as (kl' & S1 & _). apply set_bank_inv in S2 as (ka' & S2 & _).
  exists ia, il, ka', kl', ab, aop, lb, lop, iap, ilp, pa, pl, x, to, from, (tr_asset_bank t), (tr_liab_bank t), pa', pl', h'.
  simpl. rewrite S2, S1, Fe, Fo. split_and!; try done. by exists c1.
Qed.

(** An account may be liquidated: it is flagged and has not recovered, or its maintenance
    health is negative. *)
Definition may_be_liquidated (a : MangoAccount) (c : HealthCache) (liq_end_health : Z) : Prop :=
  (Fixed.being_liquidated (ma_fixed a) = true /\ liq_end_health <= - fx_one) \/
  (Fixed.being_liquidated (ma_fixed a) = false /\ exists hm, health c Maint = Done hm /\ hm < 0).

Lemma check_liquidatable_inv a c h a' res :
  health c LiquidationEnd = Done h -> Account.check_liquidatable a c = Done (a', res) ->
  ma_tokens a' = ma_tokens a /\
  match res with
  | Account.Liquidatable => may_be_liquidated a c h /\ Fixed.being_liquidated (ma_fixed a') = true
  | _ => Fixed.being_liquidated (ma_fixed a') = false
  end.
Proof.
  intros Eh E. unfold Account.check_liquidatable, may_be_liquidated in *.
  change (health_of c LiquidationEnd) with (health c LiquidationEnd) in E.
  change (health_of c Maint) with (health c Maint) in E. rewrite Eh in E.
  destruct (Fixed.being_liquidated (ma_fixed a)) eqn:Eb; simpl in E.
  - unfold Fixed.maybe_recover_from_being_liquidated in E. rewrite Eb in E. simpl in E.
    destruct (Z.ltb_spec (- fx_one) h); simpl in E; injection E as <- <-; [done|].
    split; [done|]. split; [by left|done].
  - apply bind_Done_inv in E as (hm & Em & E).
    destruct (Z.leb_spec 0 hm); injection E as <- <-; [done|]. split; [done|].
    split; [right; eauto|done].
Qed.

Lemma liqor_checks_inv l owner now u : liqor_checks l owner now = Done u ->
  lq_liqor_pk l <> lq_liqee_pk l /\ Fixed.is_owner_or_delegate (ma_fixed (lq_liqor l)) now owner = true /\
  Fixed.being_liquidated (ma_fixed (lq_liqor l)) = false.
Proof.
  unfold liqor_checks. intros E. inv_run. by bool_to_prop.
Qed.

Lemma after_phase1_inv c u : require_after_phase1_liquidation c = Done u -> has_phase1_liquidatable c = false.
Proof. unfold require_after_phase1_liquidation. intros E. inv_run. bool_to_prop. by apply orb_false_iff. Qed.

(** A flagged account keeps its flag exactly while its health is at -1 or lower. *)
Lemma recover_flag f h : Fixed.being_liquidated f = true ->
  Fixed.being_liquidated (fst (Fixed.maybe_recover_from_being_liquidated f h)) = true <-> h <= - fx_one.
Proof.
  intros Hf. unfold Fixed.maybe_recover_from_being_liquidated. rewrite Hf. simpl.
  destruct (Z.ltb_spec (- fx_one) h); simpl; [|done]. split; [done|lia].
Qed.

(** C6: A token liquidation is safe. It takes two different tokens and accounts, an enabled
    instruction and a liqor that is signed for and not itself being liquidated, and an
    account without open orders left to cancel. If the liqee may not be liquidated, nothing
    but its flag changes, and the flag is down. Otherwise the liqee has a deposit in the
    asset bank, which allows its liquidation, and a borrow in the liability bank; the
    computed amounts move between the positions of the two accounts and the fee is collected
    by the asset bank; both accounts hold their new positions, in the slots of the tokens,
    and the retriever the new banks; the liqee keeps its flag exactly while its liquidation-
    end health stays at -1 or lower; and a liqor outside a health region has a non-negative
    init health afterwards. The banks have positive indexes and loan fee rates that are not
    negative. *)
Theorem token_liq_with_token_safe l owner ais clock ai li mt l' r' :
  banks_ok ais -> token_liq_with_token l owner ais clock ai li mt = Done (l', r') ->
  ai <> li /\ lq_liqor_pk l <> lq_liqee_pk l /\ GroupCfg.is_ix_enabled (lq_group l) IxTokenLiqWithToken = true /\
  Fixed.is_owner_or_delegate (ma_fixed (lq_liqor l)) (clock_ts clock) owner = true /\
  Fixed.being_liquidated (ma_fixed (lq_liqor l)) = false /\
  exists r c h,
    Scanning.new ais (lq_group_pk l) (clock_slot clock) = Done r /\
    new_health_cache (lq_liqee l) r (clock_ts clock) = Done c /\ has_phase1_liquidatable c = false /\
    health c LiquidationEnd = Done h /\
    ((lq_liqor l' = lq_liqor l /\ r' = r /\ ma_tokens (lq_liqee l') = ma_tokens (lq_liqee l) /\
      Fixed.being_liquidated (ma_fixed (lq_liqee l')) = false) \/
     (may_be_liquidated (lq_liqee l) c h /\
      (Fixed.is_in_health_region (ma_fixed (lq_liqor l)) = false ->
       exists hl, compute_health (lq_liqor l') Init r' (clock_ts clock) = Done hl /\ 0 <= hl) /\
      exists ia il ka kl ab aop lb lop ja jl pa pl x to from ab' lb' pa' pl' c' h',
        sb_index_map (sc_banks_and_oracles r) !! ai = Some ia /\ sb_index_map (sc_banks_and_oracles r) !! li = Some il /\
        Scanning.bank_at (sc_banks_and_oracles r) ia = Done (ab, aop) /\
        Scanning.bank_at (sc_banks_and_oracles r) il = Done (lb, lop) /\
        ma_tokens (lq_liqee l) !! ja = Some pa /\ tp_token_index pa = ai /\ 0 < value ab pa /\
        BankCfg.allows_asset_liquidation ab = true /\
        ma_tokens (lq_liqee l) !! jl = Some pl /\ tp_token_index pl = li /\ value lb pl < 0 /\
        liquidation_amounts c ai li ab lb aop lop (value ab pa) (value lb pl) h mt = Done (x, to, from) /\
        liquidated ai li ab lb (ma_tokens (lq_liqee l)) (ma_tokens (lq_liqor l)) ja jl pa pl x to from ab' lb' pa' pl'
          (ma_tokens (lq_liqee l')) (ma_tokens (lq_liqor l')) /\
        sb_banks (sc_banks_and_oracles r')
          = <[ia := (ka, ABank ab')]> (<[il := (kl, ABank lb')]> (sb_banks (sc_banks_and_oracles r))) /\
        rebalanced c lb' (value lb' pl' - value lb pl) ab' (value ab' pa' - value ab pa) c' /\
        health c' LiquidationEnd = Done h' /\
        (Fixed.being_liquidated (ma_fixed (lq_liqee l')) = true <-> h' <= - fx_one))).
Proof.
  intros HB E. unfold token_liq_with_token in E.
  apply bind_Done_inv in E as (u1 & C1 & E). apply bind_Done_inv in E as (u2 & C2 & E).
  apply require_inv, negb_true_iff, Z.eqb_neq in C2.
  apply bind_Done_inv in E as (r & Er & E). apply bind_Done_inv in E as (u3 & C3 & E).
  apply liqor_checks_inv in C3 as (Hk & Ho & Hf). apply bind_Done_inv in E as (c & Ec & E).
  apply bind_Done_inv in E as (h & Eh & E). apply bind_Done_inv in E as (u4 & C4 & E).
  apply after_phase1_inv in C4. apply bind_Done_inv in E as ([liqee res] & El & E).
  unfold liq_constraints in C1. apply bind_Done_inv in C1 as (u5 & C1 & _). apply require_inv in C1.
  split_and!; try done. exists r, c, h. split_and!; try done.
  destruct (check_liquidatable_inv _ _ _ _ _ Eh El) as [Ht Hres].
  destruct res; [left; by injection E as <- <-|right|left; by injection E as <- <-].
  destruct Hres as [Hm Hflag]. split; [done|].
  apply bind_Done_inv in E as ([[[r1 liqor'] liqee'] c'] & Ea & E). apply bind_Done_inv in E as (u6 & Eh' & E).
  injection E as <- <-. simpl.
  destruct (scanning_new_banks _ _ _ _ Er) as [n Hbs].
  assert (HB' : banks_ok (sb_banks (sc_banks_and_oracles r))).
  { intros k b Hin. rewrite Hbs in Hin. apply elem_of_take in Hin as (i & Hi & _). by eapply (HB k), list_elem_of_lookup_2. }
  apply liquidation_action_inv in Ea as (ia & il & ka & kl & ab & aop & lb & lop & ja & jl & pa & pl & x & to & from & ab' & lb' &
    pa' & pl' & h' & Ma & Ml & Ba & Bl & Ha); [|done..]. rewrite Ht in Ha.
  destruct Ha as (A1 & A2 & A3 & A4 & A5 & A6 & A7 & A8 & A9 & A10 & A11 & A12 & Fo & Fe). split.
  - intros Hr. unfold check_liqor_health in Eh'. rewrite Fo, Hr in Eh'. simpl in Eh'.
    apply bind_Done_inv in Eh' as (hl & Ehl & Eh'). apply require_inv, Z.leb_le in Eh'. eauto.
  - pose proof (recover_flag _ h' Hflag) as Hrf. rewrite <- Fe in Hrf.
    exists ia, il, ka, kl, ab, aop, lb, lop, ja, jl, pa, pl, x, to, from, ab', lb', pa', pl', c', h'. split_and!; done || apply Hrf.
Qed.

End spec.

(** ** A concrete liquidation

    Two banks with index one: asset bank 0 with weights 1/2 and liability bank 1. The
    liqee has deposited 100 and owes 150 at equal prices; the liqor has 1000 of the asset. *)
Definition asset_bank_0 : Bank :=
  ((((sample_bank <| bk_deposit_index := fx_one |>) <| bk_borrow_index := fx_one |>)
     <| bk_indexed_deposits := fx_int 2000 |>) <| bk_platform_liquidation_fee := fx_scale / 32 |>)
     <| bk_stable_price_model := reset_to_price stable_price_default (f64_of_Z 1) 0 |>.
Definition liab_bank_1 : Bank :=
  ((asset_bank_0 <| bk_token_index := 1 |>) <| bk_oracle := 6 |>) <| bk_fallback_oracle := 0 |>.

Definition position_of (token_index amount : Z) : TokenPosition :=
  mkTokenPosition amount token_index 0 0 f_zero f_zero.

Definition liqee_account : MangoAccount :=
  (account_default <| ma_fixed := (fixed_default <| af_group := 1 |>) <| af_owner := 9 |> |>)
    <| ma_tokens := [position_of 0 (fx_int 100); position_of 1 (fx_int (-150)); Token.default] |>.
Definition liqor_account : MangoAccount :=
  (account_default <| ma_fixed := (fixed_default <| af_group := 1 |>) <| af_owner := 8 |> |>)
    <| ma_tokens := [position_of 0 (fx_int 1000); Token.default; Token.default] |>.

Definition stub (price : Z) : OracleAccount := AStub (mkStubOracle price 40 0).
Definition liq_ais : list AccountInfo :=
  [(20, ABank asset_bank_0); (21, ABank liab_bank_1); (4, AOracle (stub fx_one)); (6, AOracle (stub fx_one))].
Definition liq_accounts : LiqAccounts :=
  mkLiqAccounts 1 (sample_group <| gr_ix_gate := 0 |>) 30 liqor_account 31 liqee_account.

Definition liqee_cache : HealthCache :=
  mkHealthCache
    [mkTokenInfo 0 (3 * (fx_scale / 4)) (fx_scale / 2) (fx_scale / 2) (5 * (fx_scale / 4)) (3 * (fx_scale / 2))
       (3 * (fx_scale / 2)) (new_single_price fx_one) (fx_int 100) true;
     mkTokenInfo 1 (3 * (fx_scale / 4)) (fx_scale / 2) (fx_scale / 2) (5 * (fx_scale / 4)) (3 * (fx_scale / 2))
       (3 * (fx_scale / 2)) (new_single_price fx_one) (fx_int (-150)) true] [] [] false.

(** A concrete instance: the liqee's 100 tokens pay for about 84 of its 150. *)
Lemma liquidation_amounts_bounded_witness :
  exists x to from, @liquidation_amounts fixed_ref liqee_cache 0 1 asset_bank_0 liab_bank_1 fx_one fx_one (fx_int 100)
      (fx_int (-150)) (fx_int (-175)) (fx_int 1000) = Done (x, to, from) /\
    0 <= x <= fx_int 1000 /\ x <= fx_int 150 /\ 0 <= to <= from.
Proof.
  destruct (@liquidation_amounts fixed_ref liqee_cache 0 1 asset_bank_0 liab_bank_1 fx_one fx_one (fx_int 100)
      (fx_int (-150)) (fx_int (-175)) (fx_int 1000)) as [[[x to] from]| | |] eqn:E; [|vm_compute in E; discriminate E..].
  exists x, to, from. refine (conj eq_refl _).
  destruct (@liquidation_amounts_bounded fixed_ref fixed_ref_laws liqee_cache 0 1 asset_bank_0 liab_bank_1 fx_one fx_one
    (fx_int 100) (fx_int (-150)) (fx_int (-175)) (fx_int 1000) x to from) as (Hx & Hn & Ht & _).
  1-2: reflexivity.
  1-2: split; vm_compute; congruence.
  - exact E.
  - exact (conj Hx (conj Hn Ht)).
Defined.

Lemma liq_banks_ok : banks_ok liq_ais.
Proof.
  intros k b Hin. unfold liq_ais in Hin.
  repeat (apply elem_of_cons in Hin as [Hin|Hin]; [first [discriminate Hin | injection Hin as _ ->;
    split; [split; reflexivity|vm_compute; congruence]]|]).
  by apply not_elem_of_nil in Hin.
Qed.

(** The witness of C6. *)
Lemma token_liq_with_token_safe_witness :
  exists l' r', @token_liq_with_token fixed_ref liq_accounts 8 liq_ais withdraw_clock 0 1 (fx_int 1000) = Done (l', r') /\
    GroupCfg.is_ix_enabled (lq_group liq_accounts) IxTokenLiqWithToken = true /\
    Fixed.being_liquidated (ma_fixed (lq_liqor liq_accounts)) = false.
Proof.
  destruct (@token_liq_with_token fixed_ref liq_accounts 8 liq_ais withdraw_clock 0 1 (fx_int 1000))
    as [[l' r']| | |] eqn:E; [|vm_compute in E; discriminate E..].
  exists l', r'. refine (conj eq_refl _).
  destruct (@token_liq_with_token_safe fixed_ref fixed_ref_laws liq_accounts 8 liq_ais withdraw_clock 0 1 (fx_int 1000)
    l' r' liq_banks_ok E) as (_ & _ & Hi & _ & Hf & _).
  exact (conj Hi Hf).
Defined.
