(* ===== verification/HealthRegion.v ===== *)
(** * Transactions and health regions

    Health regions (instructions/health_region.rs), after the transactions they inspect: what
    instructions read from the instructions sysvar about the transaction they are
    part of, and the addresses of programs that they compare with. The discriminators that
    the framework generates for this program's instructions are parameters. *)

From stdpp Require Import base numbers option list.
From Stdlib Require Import ZArith Lia SpecFloat.
From S2P Require Import Prelude FixedPoint HealthType TokenPosition OrderTypes Nodes Oracle StablePrice Bank BankSpec Group Serum3 PerpMarket PerpPosition MangoAccount HealthCache AccountRetriever TokenInstructions TokenInstructionsSpec PerpInstructions TokenLiquidationSpec.

Open Scope Z_scope.

(** A top-level instruction: its program, the addresses of its accounts and its data. *)
Record TxInstruction := mkTxInstruction {
  ti_program_id : Pubkey;
  ti_accounts : list Pubkey;
  ti_data : list Z
}.

(** A transaction, and the index of the instruction that runs. *)
Record Transaction := mkTransaction {
  tr_instructions : list TxInstruction;
  tr_current : nat
}.

(** [ix.data[0..8]], which panics on shorter data. *)
Definition ix_discriminator (ix : TxInstruction) : outcome (list Z) :=
  _ ← assert_ (8 <=? length (ti_data ix))%nat;
  Done (take 8 (ti_data ix)).

(** The instruction that runs must be one of this program: the check that it was not
    called by another program. *)
Definition require_top_level (program_id : Pubkey) (tx : Transaction) : outcome unit :=
  ix ← ok_or (tr_instructions tx !! tr_current tx) EAccountType;
  require (ti_program_id ix =? program_id) error_msg.

(** The instructions after the one that runs. *)
Definition following (tx : Transaction) : list TxInstruction := drop (S (tr_current tx)) (tr_instructions tx).

(** ** Addresses, the base-58 numerals of the source as numbers *)

Definition mango_id : Pubkey := 48119938898825402408095488273827929116901967495296482192338631391897292282558.
Definition compute_budget_id : Pubkey := 1368025767066952348686461451745039706232400520618738968488030211887297724416.
Definition jupiter_mainnet_3 : Pubkey := 2024510814783692993333416230932296581329043099637152440920648353215669997176.
Definition jupiter_mainnet_4 : Pubkey := 2024511199378475622064992958828429122058853342051368958479441563298709068124.
Definition jupiter_mainnet_6 : Pubkey := 2024512440004304401218460610310738430137902625605816137218628783959189492623.

(** ** Health regions and checks

    instructions/health_region.rs, health_check.rs and sequence_check.rs with the
    constraints of accounts_ix. Between the begin and the end of a health region the
    instructions on the account skip their own health checks; the end compares with the
    health that the begin stored. *)

(** The instructions that may be called inside a health region. *)
Inductive InnerIx :=
| PerpCancelAllOrders
| PerpCancelAllOrdersBySide
| PerpCancelOrder
| PerpCancelOrderByClientOrderId
| PerpPlaceOrder
| PerpPlaceOrderV2
| PerpPlaceOrderPegged
| PerpPlaceOrderPeggedV2
| Serum3CancelAllOrders
| Serum3CancelOrder
| Serum3PlaceOrder
| Serum3PlaceOrderV2
| Serum3SettleFunds
| Serum3SettleFundsV2.

Definition allowed_inner_ix : list InnerIx :=
  [PerpCancelAllOrders; PerpCancelAllOrdersBySide; PerpCancelOrder; PerpCancelOrderByClientOrderId; PerpPlaceOrder;
   PerpPlaceOrderV2; PerpPlaceOrderPegged; PerpPlaceOrderPeggedV2; Serum3CancelAllOrders; Serum3CancelOrder;
   Serum3PlaceOrder; Serum3PlaceOrderV2; Serum3SettleFunds; Serum3SettleFundsV2].

Inductive HealthCheckKind :=
| KMaint
| KInit
| KLiquidationEnd
| KMaintRatio
| KInitRatio
| KLiquidationEndRatio.

(** The accounts of the instructions. *)
Record RegionAccounts := mkRegionAccounts {
  ra_group_pk : Pubkey;
  ra_group : Group;
  ra_account_pk : Pubkey;
  ra_account : MangoAccount
}.

Definition set_region_account (r : RegionAccounts) (a : MangoAccount) : RegionAccounts :=
  mkRegionAccounts (ra_group_pk r) (ra_group r) (ra_account_pk r) a.

Definition region_constraints (r : RegionAccounts) (ix : IxGate) (now_ts : Z) : outcome unit :=
  _ ← require (GroupCfg.is_ix_enabled (ra_group r) ix) (EMango IxIsDisabled);
  account_constraint (ra_group_pk r) (ra_account r) true now_ts.

Section region.
Context `{FixedOps}.

(** The discriminators that the framework generates. *)
Context (inner_discriminator : InnerIx -> list Z) (end_discriminator : list Z).

(** The loop over the instructions that follow: whether the end was found. *)
Fixpoint find_region_end (account_pk : Pubkey) (ixs : list TxInstruction) : outcome bool :=
  match ixs with
  | [] => Done false
  | ix :: ixs =>
      _ ← require (ti_program_id ix =? mango_id) (EMango HealthRegionBadInnerInstruction);
      d ← ix_discriminator ix;
      if bool_decide (d = end_discriminator) then
        k ← unwrap (ti_accounts ix !! 0%nat);
        _ ← require (k =? account_pk) ERequireKeysEq;
        Done true
      else
        _ ← require (bool_decide (d ∈ inner_discriminator <$> allowed_inner_ix)) (EMango HealthRegionBadInnerInstruction);
        find_region_end account_pk ixs
  end.

Definition health_region_begin (program_id : Pubkey) (r : RegionAccounts) (tx : Transaction) (remaining : list AccountInfo)
    (clock : Clock) : outcome RegionAccounts :=
  let now_ts := clock_ts clock in
  _ ← region_constraints r IxHealthRegion now_ts;
  _ ← require_top_level program_id tx;
  found_end ← find_region_end (ra_account_pk r) (following tx);
  _ ← require found_end error_msg;
  let account := ra_account r in
  _ ← require (negb (Fixed.is_in_health_region (ma_fixed account))) error_msg;
  let account := set_ma_fixed account (Fixed.set_in_health_region (ma_fixed account) true) in
  retriever ← Scanning.new remaining (af_group (ma_fixed account)) (clock_slot clock);
  health_cache ← new_health_cache account retriever now_ts;
  '(account, pre_init_health) ← Account.check_health_pre account health_cache;
  c ← fx_ceil pre_init_health;
  h ← fx_to_i64 c;
  Done (set_region_account r (set_ma_fixed account ((ma_fixed account) <| af_health_region_begin_init_health := h |>))).

Definition health_region_end (account : MangoAccount) (remaining : list AccountInfo) (clock : Clock) : outcome MangoAccount :=
  let now_ts := clock_ts clock in
  _ ← require (Fixed.is_operational (ma_fixed account) now_ts) (EMango AccountIsFrozen);
  _ ← require (Fixed.is_in_health_region (ma_fixed account)) error_msg;
  let account := set_ma_fixed account (Fixed.set_in_health_region (ma_fixed account) false) in
  retriever ← Scanning.new remaining (af_group (ma_fixed account)) (clock_slot clock);
  health_cache ← new_health_cache account retriever now_ts;
  pre_init_health ← fx_from_int (af_health_region_begin_init_health (ma_fixed account));
  _ ← Account.check_health_post health_cache pre_init_health;
  Done (set_ma_fixed account ((ma_fixed account) <| af_health_region_begin_init_health := 0 |>)).

Definition health_check (r : RegionAccounts) (remaining : list AccountInfo) (clock : Clock) (min_value : f64)
    (kind : HealthCheckKind) : outcome unit :=
  _ ← region_constraints r IxHealthCheck (clock_ts clock);
  retriever ← Scanning.new remaining (ra_group_pk r) (clock_slot clock);
  health_cache ← new_health_cache_skipping_missing_banks_and_bad_oracles (ra_account r) retriever (clock_ts clock);
  min_value ← fx_from_f64 min_value;
  actual_value ←
    match kind with
    | KMaint => health health_cache Maint
    | KInit => health health_cache Init
    | KLiquidationEnd => health health_cache LiquidationEnd
    | KMaintRatio => health_ratio health_cache Maint
    | KInitRatio => health_ratio health_cache Init
    | KLiquidationEndRatio => health_ratio health_cache LiquidationEnd
    end;
  require (min_value <=? actual_value) (EMango InvalidHealth).

End region.

(** The sequence number wraps at eight bits. *)
Definition sequence_check (r : RegionAccounts) (owner : Pubkey) (now_ts expected_sequence_number : Z) : outcome RegionAccounts :=
  let a := ra_account r in
  _ ← region_constraints r IxSequenceCheck now_ts;
  _ ← require (af_owner (ma_fixed a) =? owner) EConstraint;
  _ ← require (expected_sequence_number =? af_sequence_number (ma_fixed a)) (EMango InvalidSequenceNumber);
  Done (set_region_account r
    (set_ma_fixed a ((ma_fixed a) <| af_sequence_number := (af_sequence_number (ma_fixed a) + 1) mod 2 ^ 8 |>))).

(** ** Specification of health regions

    A health region is closed in the same transaction, holds only instructions that place,
    cancel and settle orders, and does not lower the health of the account below what it
    was at the begin, unless it stays nonnegative. *)

Section spec.
Context `{FixedLaws}.
Context (inner_discriminator : InnerIx -> list Z) (end_discriminator : list Z).

(** An instruction that may stand inside the region. *)
Definition inner_allowed (ix : TxInstruction) : Prop :=
  ti_program_id ix = mango_id /\ exists k, take 8 (ti_data ix) = inner_discriminator k.

Record region_end (account_pk : Pubkey) (ix : TxInstruction) : Prop := {
  re_program : ti_program_id ix = mango_id;
  re_discriminator : take 8 (ti_data ix) = end_discriminator;
  re_account : ti_accounts ix !! 0%nat = Some account_pk
}.

Lemma find_region_end_inv account_pk ixs :
  find_region_end inner_discriminator end_discriminator account_pk ixs = Done true ->
  exists between ix rest, ixs = between ++ ix :: rest /\ Forall inner_allowed between /\ region_end account_pk ix.
Proof.
  induction ixs as [|ix ixs IH]; [done|]. cbn [find_region_end]. intros E.
  apply bind_Done_inv in E as (u1 & Ep & E). apply require_inv, Z.eqb_eq in Ep.
  apply bind_Done_inv in E as (d & Ed & E). unfold ix_discriminator in Ed.
  apply bind_Done_inv in Ed as (u2 & _ & Ed). injection Ed as <-. case_bool_decide as Hd.
  - apply bind_Done_inv in E as (k & Ek & E). apply unwrap_inv in Ek.
    apply bind_Done_inv in E as (u3 & E3 & _). apply require_inv, Z.eqb_eq in E3 as ->. by exists [], ix, ixs.
  - apply bind_Done_inv in E as (u3 & E3 & E). apply require_inv, bool_decide_eq_true in E3.
    apply list_elem_of_fmap in E3 as (k & Hk & _). apply IH in E as (between & ix' & rest & -> & Hb & He).
    exists (ix :: between), ix', rest. split; [done|]. split; [|done]. constructor; [|done]. by split; [|exists k].
Qed.

(** The account in a region and after it, and its init health from the accounts passed. *)
Definition in_region (a : MangoAccount) (b : bool) : MangoAccount :=
  set_ma_fixed a (Fixed.set_in_health_region (ma_fixed a) b).

Definition scanned_health (ais : list AccountInfo) (a : MangoAccount) (clock : Clock) (h : Z) : Prop :=
  exists r c, Scanning.new ais (af_group (ma_fixed a)) (clock_slot clock) = Done r /\
    new_health_cache a r (clock_ts clock) = Done c /\ health c Init = Done h.

(** The health that the begin stores, in native quote units. *)
Definition stored_health (a : MangoAccount) : Z := af_health_region_begin_init_health (ma_fixed a).

Lemma health_region_begin_inv program_id r tx remaining clock r1 :
  health_region_begin inner_discriminator end_discriminator program_id r tx remaining clock = Done r1 ->
  Fixed.is_in_health_region (ma_fixed (ra_account r)) = false /\
  Fixed.is_in_health_region (ma_fixed (ra_account r1)) = true /\
  Fixed.being_liquidated (ma_fixed (ra_account r1)) = false /\
  (exists between ix rest, following tx = between ++ ix :: rest /\ Forall inner_allowed between /\ region_end (ra_account_pk r) ix) /\
  exists pre, scanned_health remaining (in_region (ra_account r) true) clock pre /\
    pre <= fx_int (stored_health (ra_account r1)) < pre + fx_one.
Proof.
  unfold health_region_begin. intros E.
  apply bind_Done_inv in E as (u1 & _ & E). apply bind_Done_inv in E as (u2 & _ & E).
  apply bind_Done_inv in E as (found & Ef & E). apply bind_Done_inv in E as (u3 & E3 & E). apply require_inv in E3 as ->.
  apply find_region_end_inv in Ef. apply bind_Done_inv in E as (u4 & E4 & E). apply require_inv, negb_true_iff in E4.
  apply bind_Done_inv in E as (rt & Ert & E). apply bind_Done_inv in E as (c & Ec & E).
  apply bind_Done_inv in E as ([a pre] & Ep & E). apply check_health_pre_flag in Ep as (Hf & Hh & _ & Hr).
  apply bind_Done_inv in E as (ce & Ece & E). apply fx_ceil_inv in Ece as ->.
  apply bind_Done_inv in E as (h & Eh & E). apply fx_to_i64_inv in Eh as [-> _]. injection E as <-.
  pose proof scale_pos. split_and!; try done.
  - unfold Fixed.is_in_health_region. simpl in *. by rewrite Hr.
  - exists pre. split; [by exists rt, c|]. unfold stored_health. simpl. unfold fx_int, fx_one. rewrite Z.div_mul by lia.
    pose proof (floor_bounds (- pre) fx_scale ltac:(lia)). lia.
Qed.

(** C11: A health region protects the account. When a region is begun, a matching end
    follows in the same transaction with only order instructions of this program between
    them, and the account, which was in no region and is not being liquidated, enters one.
    If the region ends and the health that the begin stored in the account has not been
    changed in between, the account leaves the region, and its init health is then
    nonnegative or not below the stored health, which is the init health at the begin
    rounded up to a whole unit; below -1000 it may fall within the same whole unit
    ([health_kept]). *)
Theorem health_region_protects program_id r tx remaining clock r1 a2 remaining2 clock2 a3 :
  health_region_begin inner_discriminator end_discriminator program_id r tx remaining clock = Done r1 ->
  stored_health a2 = stored_health (ra_account r1) ->
  health_region_end a2 remaining2 clock2 = Done a3 ->
  Fixed.is_in_health_region (ma_fixed (ra_account r)) = false /\
  Fixed.is_in_health_region (ma_fixed (ra_account r1)) = true /\ Fixed.is_in_health_region (ma_fixed a3) = false /\
  Fixed.being_liquidated (ma_fixed (ra_account r1)) = false /\
  (exists between ix rest, following tx = between ++ ix :: rest /\ Forall inner_allowed between /\ region_end (ra_account_pk r) ix) /\
  exists pre post stored, scanned_health remaining (in_region (ra_account r) true) clock pre /\
    scanned_health remaining2 (in_region a2 false) clock2 post /\ ma_tokens a3 = ma_tokens a2 /\
    pre <= stored < pre + fx_one /\ health_kept stored post.
Proof.
  intros Eb Hs E. apply health_region_begin_inv in Eb as (H1 & H2 & H3 & H4 & pre & H5 & H6).
  unfold health_region_end in E. apply bind_Done_inv in E as (u1 & _ & E). apply bind_Done_inv in E as (u2 & _ & E).
  apply bind_Done_inv in E as (rt & Ert & E). apply bind_Done_inv in E as (c' & Ec' & E).
  apply bind_Done_inv in E as (st & Es & E). apply fx_from_int_inv in Es as ->.
  apply bind_Done_inv in E as (post & Epost & E). injection E as <-.
  unfold Account.check_health_post in Epost. apply bind_Done_inv in Epost as (post1 & Hpost & Epost).
  apply bind_Done_inv in Epost as ([] & Ek & Epost). injection Epost as ->. apply check_health_post_checks_kept in Ek.
  split_and!; try done. exists pre, post, (fx_int (stored_health a2)). rewrite Hs in *. split_and!; try done.
  - by exists rt, c'.
  - apply H6.
  - apply H6.
  - by rewrite <- Hs.
Qed.

End spec.

(** ** A concrete region *)
Definition region_inner (k : InnerIx) : list Z := match k with PerpPlaceOrder => [1; 1; 1; 1; 1; 1; 1; 1] | _ => [] end.
Definition region_end_disc : list Z := [2; 2; 2; 2; 2; 2; 2; 2].
Definition region_account : MangoAccount := liqee_account <| ma_tokens := [position_of 0 (fx_int 100); Token.default] |>.
Definition region_accounts : RegionAccounts := mkRegionAccounts 1 (sample_group <| gr_ix_gate := 0 |>) 31 region_account.
Definition region_tx : Transaction :=
  mkTransaction [mkTxInstruction mango_id [] []; mkTxInstruction mango_id [31] [1; 1; 1; 1; 1; 1; 1; 1; 9];
    mkTxInstruction mango_id [31] [2; 2; 2; 2; 2; 2; 2; 2]] 0.
Definition region_ais : list AccountInfo := [(20, ABank asset_bank_0); (4, AOracle (stub fx_one))].

(** The witness of C11: an account with a deposit enters and leaves a region. *)
Lemma health_region_protects_witness :
  exists r1 a3,
    @health_region_begin fixed_ref region_inner region_end_disc mango_id region_accounts region_tx region_ais withdraw_clock = Done r1 /\
    @health_region_end fixed_ref (ra_account r1) region_ais withdraw_clock = Done a3 /\
    Fixed.is_in_health_region (ma_fixed (ra_account r1)) = true /\ Fixed.is_in_health_region (ma_fixed a3) = false.
Proof.
  destruct (@health_region_begin fixed_ref region_inner region_end_disc mango_id region_accounts region_tx region_ais withdraw_clock)
    as [r1| | |] eqn:E1; [|vm_compute in E1; discriminate E1..].
  destruct (@health_region_end fixed_ref (ra_account r1) region_ais withdraw_clock) as [a3| | |] eqn:E2;
    [|vm_compute in E1; injection E1 as <-; vm_compute in E2; discriminate E2..].
  exists r1, a3.
  destruct (@health_region_protects fixed_ref fixed_ref_laws region_inner region_end_disc mango_id region_accounts region_tx region_ais
    withdraw_clock r1 (ra_account r1) region_ais withdraw_clock a3 E1 eq_refl E2) as (_ & Hi & Ho & _).
  exact (conj eq_refl (conj E2 (conj Hi Ho))).
Defined.
