(* ===== verification/BankInstructions.v ===== *)
(** * Interest and collateral fees

    state/mint_info.rs, instructions/token_update_index_and_rate.rs and
    token_charge_collateral_fees.rs with the constraints of accounts_ix: the banks of one
    token are updated together, and an account pays fees for its collateral. Logs are left
    out, but what they compute is computed, since it may panic. *)

From stdpp Require Import base numbers option list.
From Stdlib Require Import ZArith Lia SpecFloat.
From S2P Require Import Prelude FixedPoint HealthType TokenPosition Nodes Oracle StablePrice Bank BankSpec BankInterest Group Serum3 PerpMarket PerpPosition MangoAccount HealthCache HealthSpec AccountRetriever TokenInstructions TokenInstructionsSpec TokenLiquidationSpec HealthRegion.

Open Scope Z_scope.

(** ** Mint infos *)

Definition MAX_BANKS : nat := 6.

(** [reserved] and [padding] are left out. *)
Record MintInfo := mkMintInfo {
  mi_group : Pubkey;
  mi_token_index : Z;
  mi_group_insurance_fund : Z;
  mi_mint : Pubkey;
  mi_banks : list Pubkey;
  mi_vaults : list Pubkey;
  mi_oracle : Pubkey;
  mi_registration_time : Z;
  mi_fallback_oracle : Pubkey
}.

Module Mint.

Definition num_banks (m : MintInfo) : nat :=
  default MAX_BANKS (position (fun b => b =? default_key) (mi_banks m)).

Definition banks (m : MintInfo) : list Pubkey := take (num_banks m) (mi_banks m).

Definition verify_banks_ais (m : MintInfo) (all_bank_ais : list AccountInfo) : outcome unit :=
  require (bool_decide (all_bank_ais.*1 = banks m)) error_msg.

Definition elligible_for_group_insurance_fund (m : MintInfo) : bool := mi_group_insurance_fund m =? 1.

End Mint.

Section instructions.
Context `{FixedOps}.

(** ** token_update_index_and_rate *)

(** The identities that the check on the transaction uses. *)
Context (program_id compute_budget_id : Pubkey) (update_discriminator : list Z).

(** [ix.data[0..8]] panics on shorter data; it is only read for this program's id. *)
Definition instruction_allowed (ix : TxInstruction) : outcome bool :=
  own ← (if ti_program_id ix =? program_id then
           d ← ix_discriminator ix;
           Done (bool_decide (d = update_discriminator))
         else Done false);
  Done (own || (ti_program_id ix =? compute_budget_id)).

Definition check_instructions (ixs : list TxInstruction) : outcome unit :=
  foldM (fun _ ix => ok ← instruction_allowed ix; require ok (EMango SomeError)) tt ixs.

(** The total of a field over the banks. *)
Definition total_of (field : Bank -> Z) (banks : list Bank) : outcome Z :=
  foldM (fun total b => fx_add total (field b)) 0 banks.

Definition max_interest_timestep : Z := 3600.

(** What the first bank computes for all banks. *)
Record IndexUpdate := mkIndexUpdate {
  iu_deposit_index : Z;
  iu_borrow_index : Z;
  iu_avg_utilization : Z;
  iu_stable_price_model : StablePriceModel;
  iu_maint_shift_done : bool
}.

(** The first part: the first bank collects the fees. *)
Definition compute_index_update (b : Bank) (indexed_total_deposits indexed_total_borrows : Z)
    (oracle : Pubkey * OracleAccount) (clock : Clock) : outcome (Bank * IndexUpdate) :=
  let now_ts := clock_ts clock in
  d ← u64 (now_ts - bk_index_last_updated b);
  diff_ts ← fx_from_int (Z.min d max_interest_timestep);
  '(deposit_index, borrow_index, borrow_fees, borrow_rate, deposit_rate) ←
    compute_index b indexed_total_deposits indexed_total_borrows diff_ts;
  c ← fx_add (bk_collected_fees_native b) borrow_fees;
  let b := set_bk_collected_fees_native b c in
  new_avg_utilization ← compute_new_avg_utilization b indexed_total_deposits indexed_total_borrows now_ts;
  price ← oracle_price b (from_reader oracle) (Some (clock_slot clock));
  m ← stable_price_update (bk_stable_price_model b) now_ts (fx_to_f64 price);
  let b := b <| bk_stable_price_model := m |> in
  let maint_shift_done := (0 <? bk_maint_weight_shift_duration_inv b) && (bk_maint_weight_shift_end b <=? now_ts) in
  _ ← bank_stable_price b;
  _ ← fx_mul deposit_index indexed_total_deposits;
  _ ← fx_mul borrow_index indexed_total_borrows;
  Done (b, mkIndexUpdate deposit_index borrow_index new_avg_utilization m maint_shift_done).

Definition apply_index_update (u : IndexUpdate) (now_ts : Z) (b : Bank) : Bank :=
  let b := ((((b <| bk_index_last_updated := now_ts |>) <| bk_deposit_index := iu_deposit_index u |>)
              <| bk_borrow_index := iu_borrow_index u |>) <| bk_avg_utilization := iu_avg_utilization u |>)
              <| bk_stable_price_model := iu_stable_price_model u |> in
  if iu_maint_shift_done u then
    ((((((b <| bk_maint_asset_weight := bk_maint_weight_shift_asset_target b |>)
          <| bk_maint_liab_weight := bk_maint_weight_shift_liab_target b |>)
          <| bk_maint_weight_shift_duration_inv := 0 |>) <| bk_maint_weight_shift_asset_target := 0 |>)
          <| bk_maint_weight_shift_liab_target := 0 |>) <| bk_maint_weight_shift_start := 0 |>)
          <| bk_maint_weight_shift_end := 0 |>
  else b.

(** The second part, once an hour: the interest curve is scaled. *)
Definition HOUR : Z := 3600.
Definition f64_half : f64 := f64_div f64_one (f64_of_Z 2).

Definition setup_curve_scaling (b : Bank) : outcome Bank :=
  if SFeqb (bk_interest_curve_scaling b) f_zero then
    let scaling := f64_div (fx_to_f64 (bk_max_rate b)) f64_half in
    descale_factor ← fx_from_f64 (f64_div f64_one scaling);
    r0 ← fx_mul (bk_rate0 b) descale_factor;
    r1 ← fx_mul (bk_rate1 b) descale_factor;
    m ← fx_mul (bk_max_rate b) descale_factor;
    Done (((((b <| bk_interest_curve_scaling := scaling |>)
             <| bk_interest_target_utilization := fx_to_f32 (bk_util0 b) |>)
             <| bk_rate0 := r0 |>) <| bk_rate1 := r1 |>) <| bk_max_rate := m |>)
  else Done b.

Definition apply_rates (some_bank : Bank) (now_ts : Z) (b : Bank) : Bank :=
  (((((b <| bk_bank_rate_last_updated := now_ts |>)
       <| bk_interest_curve_scaling := bk_interest_curve_scaling some_bank |>)
       <| bk_interest_target_utilization := bk_interest_target_utilization some_bank |>)
       <| bk_rate0 := bk_rate0 some_bank |>) <| bk_rate1 := bk_rate1 some_bank |>)
       <| bk_max_rate := bk_max_rate some_bank |>.

Definition update_rates (banks : list Bank) (now_ts : Z) : outcome (list Bank) :=
  some_bank ← unwrap (banks !! 0%nat);
  d ← u64 (now_ts - bk_bank_rate_last_updated some_bank);
  diff_ts ← fx_from_int d;
  if fx_int HOUR <? diff_ts then
    some_bank ← setup_curve_scaling some_bank;
    let some_bank := update_interest_rate_scaling some_bank in
    Done (apply_rates some_bank now_ts <$> <[0%nat := some_bank]> banks)
  else Done banks.

(** The keys of the banks with the banks after the instruction. *)
Definition token_update_index_and_rate (group_pk : Pubkey) (group : Group) (mint_info : MintInfo)
    (oracle : Pubkey * OracleAccount) (ixs : list TxInstruction) (remaining : list AccountInfo) (clock : Clock) :
    outcome (list (Pubkey * Bank)) :=
  _ ← require (GroupCfg.is_ix_enabled group IxTokenUpdateIndexAndRate) (EMango IxIsDisabled);
  _ ← require (mi_oracle mint_info =? fst oracle) EConstraint;
  _ ← require (mi_group mint_info =? group_pk) EConstraint;
  _ ← check_instructions ixs;
  _ ← Mint.verify_banks_ais mint_info remaining;
  banks ← mapM load_bank remaining;
  indexed_total_deposits ← total_of bk_indexed_deposits banks;
  indexed_total_borrows ← total_of bk_indexed_borrows banks;
  some_bank ← unwrap (banks !! 0%nat);
  '(some_bank, u) ← compute_index_update some_bank indexed_total_deposits indexed_total_borrows oracle clock;
  let banks := apply_index_update u (clock_ts clock) <$> <[0%nat := some_bank]> banks in
  banks ← update_rates banks (clock_ts clock);
  Done (zip remaining.*1 banks).

(** ** token_charge_collateral_fees *)

(** [1.157407407407e-5], days per second. *)
Definition inv_seconds_per_day : f64 := S754_finite false 6832127434704836 (-69).

(** The asset and liability health with all spot orders settled. *)
Definition collateral_balances (cache : HealthCache) : outcome (list Z) :=
  balances ← effective_token_balances cache Maint;
  foldM (fun balances i =>
           balances ← add_at balances (si_base_info_index i) (si_reserved_base i);
           add_at balances (si_quote_info_index i) (si_reserved_quote i))
    balances (hc_serum3_infos cache).

Definition collateral_health (cache : HealthCache) (balances : list Z) : outcome (Z * Z) :=
  foldM (fun '(assets, liabs) '(info, balance) =>
           health ← token_health_contribution info Maint balance;
           if 0 <? health then a ← fx_add assets health; Done (a, liabs)
           else l ← fx_sub liabs health; Done (assets, l))
    (0, 0) (zip (hc_token_infos cache) balances).

(** One bank's fee. The account and the bank after it. The two lookups after the charge are
    for the logs, and their errors abort the instruction. *)
Definition charge_bank (cache : HealthCache) (scaling now_ts : Z) (account : MangoAccount) (bank : Bank) :
    outcome (MangoAccount * Bank) :=
  if SFleb (bk_collateral_fee_per_day bank) f_zero || (bk_maint_asset_weight bank =? 0) then Done (account, bank)
  else
    '(token_position, raw_token_index) ← Account.token_position_and_raw_index account (bk_token_index bank);
    token_balance ← native token_position bank;
    if token_balance <=? 0 then Done (account, bank)
    else
      f ← fx_mul token_balance scaling;
      rate ← fx_from_f64 (bk_collateral_fee_per_day bank);
      fee ← fx_mul f rate;
      _ ← assert_ (fee <=? token_balance);
      '(bank, token_position, is_active) ← withdraw_without_fee bank token_position fee now_ts;
      let account := Account.set_token account raw_token_index token_position in
      account ← (if negb is_active then Account.deactivate_token_position account raw_token_index else Done account);
      c ← fx_add (bk_collected_fees_native bank) fee;
      cc ← fx_add (bk_collected_collateral_fees bank) fee;
      let bank := (bank <| bk_collected_fees_native := c |>) <| bk_collected_collateral_fees := cc |> in
      _ ← token_info cache (bk_token_index bank);
      _ ← Account.token_position_and_raw_index account (bk_token_index bank);
      Done (account, bank).

Fixpoint charge_banks (cache : HealthCache) (scaling now_ts : Z) (account : MangoAccount) (ais : list AccountInfo) :
    outcome (MangoAccount * list (Pubkey * Bank)) :=
  match ais with
  | [] => Done (account, [])
  | ai :: ais =>
      bank ← load_bank ai;
      '(account, bank) ← charge_bank cache scaling now_ts account bank;
      '(account, banks) ← charge_banks cache scaling now_ts account ais;
      Done (account, (fst ai, bank) :: banks)
  end.

(** The part of the assets that covers the liabilities; [None] without either. *)
Definition asset_usage_scaling (cache : HealthCache) : outcome (option Z) :=
  balances ← collateral_balances cache;
  '(total_asset_health, total_liab_health) ← collateral_health cache balances;
  if (total_asset_health =? 0) || (total_liab_health =? 0) then Done None
  else
    q ← fx_div total_liab_health total_asset_health;
    Done (Some (Z.min (Z.max q 0) fx_one)).

Definition set_last_charge (a : MangoAccount) (ts : Z) : MangoAccount :=
  set_ma_fixed a ((ma_fixed a) <| af_last_collateral_fee_charge := ts |>).

(** The account and the banks that were charged. *)
Definition token_charge_collateral_fees (group_pk : Pubkey) (group : Group) (account : MangoAccount)
    (remaining : list AccountInfo) (clock : Clock) : outcome (MangoAccount * list (Pubkey * Bank)) :=
  let now_ts := clock_ts clock in
  _ ← require (af_group (ma_fixed account) =? group_pk) EConstraint;
  _ ← require (Fixed.is_operational (ma_fixed account) now_ts) (EMango AccountIsFrozen);
  if gr_collateral_fee_interval group =? 0 then Done (set_last_charge account 0, [])
  else if af_last_collateral_fee_charge (ma_fixed account) =? 0 then Done (set_last_charge account now_ts, [])
  else
    let last_charge_ts := af_last_collateral_fee_charge (ma_fixed account) in
    due ← u64 (last_charge_ts + gr_collateral_fee_interval group);
    if now_ts <? due then Done (account, [])
    else
      let account := set_last_charge account now_ts in
      d ← u64 (now_ts - last_charge_ts);
      twice ← u64 (2 * gr_collateral_fee_interval group);
      seconds ← fx_from_int (Z.min d twice);
      inv ← fx_from_f64 inv_seconds_per_day;
      time_scaling ← fx_mul seconds inv;
      retriever ← new_fixed_order_account_retriever remaining account (clock_slot clock);
      cache ← new_health_cache account retriever now_ts;
      usage ← asset_usage_scaling cache;
      match usage with
      | None => Done (account, [])
      | Some asset_usage_scaling =>
          scaling ← fx_mul asset_usage_scaling time_scaling;
          let token_position_count := length (Account.active_token_positions account) in
          _ ← assert_ (token_position_count <=? length remaining)%nat;
          charge_banks cache scaling now_ts account (take token_position_count remaining)
      end.

End instructions.

(** ** Properties of interest updates and collateral fees

    Updating keeps the banks of a token in step; charging an account's collateral fees takes
    them from its positions, and fails as a whole if a fee closes a position. *)

Section spec.
Context `{FixedLaws}.

(** ** Updating *)

(** The sum of a field over the banks. *)
Definition bank_total (field : Bank -> Z) (banks : list Bank) : Z := foldr (fun b n => field b + n) 0 banks.

Lemma total_of_inv field banks total : total_of field banks = Done total -> total = bank_total field banks.
Proof.
  unfold total_of. assert (Hg : forall acc, foldM (fun t b => fx_add t (field b)) acc banks = Done total ->
    total = acc + bank_total field banks).
  { induction banks as [|b bs IH]; intros acc E; simpl in *; [injection E as <-; lia|].
    apply bind_Done_inv in E as (t & Et & E). apply fx_add_inv in Et as ->. apply IH in E. lia. }
  intros E. apply Hg in E. lia.
Qed.

(** The fields that all banks of a token share after an update. *)
Definition in_step (u : IndexUpdate) (now : Z) (b : Bank) : Prop :=
  bk_deposit_index b = iu_deposit_index u /\ bk_borrow_index b = iu_borrow_index u /\
  bk_index_last_updated b = now /\ bk_avg_utilization b = iu_avg_utilization u /\
  bk_stable_price_model b = iu_stable_price_model u.

Lemma apply_index_in_step u now b : in_step u now (apply_index_update u now b).
Proof. unfold apply_index_update, in_step. by destruct (iu_maint_shift_done u). Qed.

Lemma apply_index_totals u now b :
  bk_indexed_deposits (apply_index_update u now b) = bk_indexed_deposits b /\
  bk_indexed_borrows (apply_index_update u now b) = bk_indexed_borrows b.
Proof. unfold apply_index_update. by destruct (iu_maint_shift_done u). Qed.

Definition totals (b : Bank) : Z * Z := (bk_indexed_deposits b, bk_indexed_borrows b).

(** The rates leave the indexes and the totals alone. *)
Lemma setup_curve_scaling_same b b' u now :
  setup_curve_scaling b = Done b' -> (in_step u now b -> in_step u now b') /\ totals b' = totals b.
Proof. unfold setup_curve_scaling. destruct (SFeqb _ _); intros E; inv_run; done. Qed.

Lemma update_rates_inv banks now u banks' :
  Forall (in_step u now) banks -> update_rates banks now = Done banks' ->
  Forall (in_step u now) banks' /\ totals <$> banks' = totals <$> banks.
Proof.
  intros F E. unfold update_rates in E.
  apply bind_Done_inv in E as (b0 & Eb & E). apply unwrap_inv in Eb.
  apply bind_Done_inv in E as (d & _ & E). apply bind_Done_inv in E as (dt & _ & E).
  destruct (fx_int HOUR <? dt); [|by injection E as <-].
  apply bind_Done_inv in E as (b1 & E1 & E). injection E as <-.
  destruct banks as [|b bs]; [done|]. simpl in *. injection Eb as ->.
  apply Forall_cons in F as [F0 F]. destruct (setup_curve_scaling_same _ _ u now E1) as [S1 S2]. split.
  - constructor; [by apply S1|]. apply Forall_fmap. eapply Forall_impl; [exact F|]. done.
  - f_equal; [exact S2|]. rewrite <- list_fmap_compose. by apply list_fmap_ext.
Qed.

Lemma compute_index_update_inv b td tb oracle clock b' u :
  interest_ok b -> 0 <= td -> 0 <= tb -> compute_index_update b td tb oracle clock = Done (b', u) ->
  bk_index_last_updated b <= clock_ts clock /\ bk_deposit_index b <= iu_deposit_index u /\
  bk_borrow_index b <= iu_borrow_index u /\ totals b' = totals b /\
  exists fees br dr, compute_index b td tb (fx_int (Z.min (clock_ts clock - bk_index_last_updated b) 3600))
    = Done (iu_deposit_index u, iu_borrow_index u, fees, br, dr) /\
    bk_collected_fees_native b' = bk_collected_fees_native b + fees.
Proof.
  intros HI Htd Htb E. unfold compute_index_update in E.
  apply bind_Done_inv in E as (d & Ed & E). apply u64_inv in Ed as [-> Hd].
  apply bind_Done_inv in E as (dt & Edt & E). apply fx_from_int_inv in Edt as ->.
  apply bind_Done_inv in E as ([[[[di bi] fees] br] dr] & Ei & E).
  apply bind_Done_inv in E as (c & Ec & E). apply fx_add_inv in Ec as ->.
  apply bind_Done_inv in E as (av & _ & E). apply bind_Done_inv in E as (pr & _ & E).
  apply bind_Done_inv in E as (m & _ & E). apply bind_Done_inv in E as (x & _ & E).
  apply bind_Done_inv in E as (y & _ & E). apply bind_Done_inv in E as (z & _ & E). injection E as <- <-. simpl.
  unfold max_interest_timestep in Ei.
  assert (0 <= fx_int (Z.min (clock_ts clock - bk_index_last_updated b) 3600)).
  { unfold fx_int. pose proof scale_pos. unfold_widths. nia. }
  destruct (compute_index_grows _ _ _ _ _ _ _ _ _ HI Htd Htb ltac:(done) Ei) as (G1 & G2 & _).
  split_and!; try done; [unfold_widths; lia|]. by exists fees, br, dr.
Qed.

Lemma mapM_length {A B} (f : A -> outcome B) l l' : mapM f l = Done l' -> length l' = length l.
Proof.
  revert l'. induction l as [|a l IH]; intros l' E; simpl in E; [by injection E as <-|].
  apply bind_Done_inv in E as (b & _ & E). apply bind_Done_inv in E as (bs & Eb & E). injection E as <-.
  simpl. f_equal. by apply IH.
Qed.

(** Updating keeps the banks of a token in step. In an enabled instruction, whose
    transaction holds only such updates and compute budget requests, given exactly the
    banks of the mint info: afterwards all of them have the same indexes, average
    utilization and stable price and the current time; the indexes come from the totals
    over all banks and at most one hour of interest and have not fallen; nobody's indexed
    totals changed. *)
Theorem update_keeps_banks_in_step pid cb disc gpk g mint oracle ixs ais clock banks res :
  mapM load_bank ais = Done banks -> Forall interest_ok banks ->
  0 <= bank_total bk_indexed_deposits banks -> 0 <= bank_total bk_indexed_borrows banks ->
  token_update_index_and_rate pid cb disc gpk g mint oracle ixs ais clock = Done res ->
  GroupCfg.is_ix_enabled g IxTokenUpdateIndexAndRate = true /\
  check_instructions pid cb disc ixs = Done tt /\
  res.*1 = Mint.banks mint /\ totals <$> res.*2 = totals <$> banks /\
  exists b0 u, head banks = Some b0 /\ Forall (in_step u (clock_ts clock)) res.*2 /\
    bk_deposit_index b0 <= iu_deposit_index u /\ bk_borrow_index b0 <= iu_borrow_index u /\
    exists fees br dr, compute_index b0 (bank_total bk_indexed_deposits banks) (bank_total bk_indexed_borrows banks)
        (fx_int (Z.min (clock_ts clock - bk_index_last_updated b0) 3600))
      = Done (iu_deposit_index u, iu_borrow_index u, fees, br, dr).
Proof.
  intros EB HI Htd Htb E. unfold token_update_index_and_rate in E.
  apply bind_Done_inv in E as (u1 & C1 & E). apply require_inv in C1.
  apply bind_Done_inv in E as (u2 & _ & E). apply bind_Done_inv in E as (u3 & _ & E).
  apply bind_Done_inv in E as ([] & C4 & E). apply bind_Done_inv in E as (u5 & C5 & E).
  apply require_inv, bool_decide_eq_true in C5. rewrite EB in E. run_in E.
  apply bind_Done_inv in E as (td & Etd & E). apply total_of_inv in Etd as ->.
  apply bind_Done_inv in E as (tb & Etb & E). apply total_of_inv in Etb as ->.
  apply bind_Done_inv in E as (b0 & Eb0 & E). apply unwrap_inv in Eb0.
  apply bind_Done_inv in E as ([b1 u] & Eu & E). apply bind_Done_inv in E as (banks' & Er & E). injection E as <-.
  pose proof (mapM_length _ _ _ EB) as HL. destruct banks as [|b bs]; [done|]. injection Eb0 as ->.
  apply compute_index_update_inv in Eu as (_ & G1 & G2 & Ht & fees & br & dr & Ec & _); [|by inversion HI|done..].
  apply (update_rates_inv _ _ u) in Er as [F Hts].
  2: { apply Forall_fmap, Forall_forall. intros x _. apply apply_index_in_step. }
  assert (Hlen : length banks' = length ais).
  { rewrite <- (length_fmap totals), Hts, !length_fmap, length_insert. done. }
  assert (Hzip : length ais.*1 = length banks') by (by rewrite length_fmap).
  rewrite fst_zip, snd_zip by (by rewrite Hzip). split_and!; try done.
  - rewrite Hts. simpl. f_equal; [by rewrite <- Ht; unfold totals; f_equal; apply apply_index_totals|].
    rewrite <- list_fmap_compose. apply list_fmap_ext. intros i x _. simpl. unfold totals. f_equal; apply apply_index_totals.
  - exists b0, u. split_and!; try done. by exists fees, br, dr.
Qed.

(** ** Collateral fees *)

Lemma active_for_deactivated a i (p : TokenPosition) ti : 0 <= ti < TOKEN_INDEX_MAX ->
  ma_tokens a !! i = Some p -> tp_token_index p = ti ->
  (forall j q, ma_tokens a !! j = Some q -> tp_token_index q = ti -> j = i) ->
  Account.token_position_and_raw_index (Account.set_token a i (set_tp_token_index p TOKEN_INDEX_MAX)) ti
    = Fail (EMango TokenPositionDoesNotExist).
Proof.
  intros Hti Hp Ht Hu. unfold Account.token_position_and_raw_index. simpl.
  rewrite (proj2 (position_None _ _)); [done|]. intros j q Hq. unfold Token.is_active_for_token.
  apply Z.eqb_neq. destruct (decide (j = i)) as [->|Hj].
  - rewrite list_lookup_insert_eq in Hq by (by eapply lookup_lt_Some). injection Hq as <-. simpl. lia.
  - rewrite list_lookup_insert_ne in Hq by done. intros E. by apply Hj, (Hu j q).
Qed.

(** Each token has at most one position. *)
Definition positions_unique (a : MangoAccount) : Prop :=
  forall i j p q, ma_tokens a !! i = Some p -> ma_tokens a !! j = Some q -> tp_token_index p = tp_token_index q ->
    tp_token_index p <> TOKEN_INDEX_MAX -> i = j.

(** The lookup after a charge succeeds only if the position was not closed. *)
Lemma charged_stays a i p p2 (active : bool) a1 ti x :
  positions_unique a -> 0 <= ti < TOKEN_INDEX_MAX ->
  Account.token_position_and_raw_index a ti = Done (p, i) -> tp_token_index p2 = ti ->
  (if negb active then Account.deactivate_token_position (Account.set_token a i p2) i
   else Done (Account.set_token a i p2)) = Done a1 ->
  Account.token_position_and_raw_index a1 ti = Done x -> active = true /\ a1 = Account.set_token a i p2.
Proof.
  intros HU Hti Ep T2 Ea Ex. apply token_position_inv in Ep as [Lp Tp].
  destruct active; [by injection Ea as <-|]. exfalso. simpl in Ea.
  assert (L2 : ma_tokens (Account.set_token a i p2) !! i = Some p2) by (by eapply lookup_set_token).
  unfold Account.deactivate_token_position in Ea. rewrite L2 in Ea. run_in Ea. inv_run.
  rewrite (active_for_deactivated _ i p2) in Ex; [done|done|done|done|].
  intros j q Hq Hqt. simpl in Hq. destruct (decide (j = i)) as [|Hj]; [done|].
  rewrite list_lookup_insert_ne in Hq by done. apply (HU j i q p); [done..|congruence|lia].
Qed.

(** With dusting, a withdrawal that leaves the position open leaves a token of it. *)
Lemma active_left b t a f now b' t' r : indexes_ok b -> a <= value b t ->
  withdraw_internal_wrapper b t a f true now = Done (b', t', r) -> wr_position_is_active r = true ->
  0 < value b t -> fx_one <= value b t - a.
Proof.
  intros HI Ha E Hr Hv. unfold withdraw_internal_wrapper, withdraw_internal in E.
  apply bind_Done_inv in E as ([[b1 t1] r1] & E & E2). apply bind_Done_inv in E2 as (t2 & _ & E2). injection E2 as <- <- <-.
  apply bind_Done_inv in E as (u & _ & E). apply bind_Done_inv in E as (v & Ev & E). apply native_value in Ev as ->.
  rewrite (proj2 (Z.ltb_ge _ _)) in E by lia. simpl in E. apply bind_Done_inv in E as (n & En & E). apply fx_sub_inv in En as ->.
  rewrite (proj2 (Z.ltb_ge _ _)) in E by lia. simpl in E.
  destruct (Z.ltb_spec (value b t - a) fx_one); [|done]. simpl in E. by inv_run.
Qed.

(** A bank's collateral fee, when the instruction goes on: nothing is charged for a bank
    without fees or weight and for a position that is not positive; otherwise the position
    pays the scaled daily rate of its value, at most all of it, and the bank collects it.
    The position stays: if it is not in use, at least one token is left of it. A smaller
    rest would be dusted and the position closed, and then the lookup for the log fails, so
    that no fee of the account is charged at all. *)
Theorem collateral_fee_charged c scaling now a b a' b' :
  indexes_ok b -> 0 <= bk_loan_origination_fee_rate b -> positions_unique a -> 0 <= bk_token_index b < TOKEN_INDEX_MAX ->
  charge_bank c scaling now a b = Done (a', b') ->
  (a' = a /\ b' = b /\
   (SFleb (bk_collateral_fee_per_day b) f_zero = true \/ bk_maint_asset_weight b = 0 \/
    exists p i, Account.token_position_and_raw_index a (bk_token_index b) = Done (p, i) /\ value b p <= 0)) \/
  exists p i p' rate r b1,
    Account.token_position_and_raw_index a (bk_token_index b) = Done (p, i) /\ 0 < value b p /\
    fx_from_f64 (bk_collateral_fee_per_day b) = Done rate /\
    let fee := value b p * scaling / fx_scale * rate / fx_scale in
    fee <= value b p /\ (Token.is_in_use p = false -> fx_one <= value b p - fee) /\
    withdrawn b p fee false (negb (Token.is_in_use p)) b1 p' r /\ a' = Account.set_token a i p' /\
    b' = (b1 <| bk_collected_fees_native := bk_collected_fees_native b1 + fee |>)
           <| bk_collected_collateral_fees := bk_collected_collateral_fees b1 + fee |>.
Proof.
  intros HI HR HU Hti E. unfold charge_bank in E.
  destruct (_ || _) eqn:C.
  { left. injection E as <- <-. split_and!; [done..|]. apply orb_true_iff in C as [C|C%Z.eqb_eq]; auto. }
  clear C. apply bind_Done_inv in E as ([p i] & Ep & E). apply bind_Done_inv in E as (v & Ev & E). apply native_value in Ev as ->.
  destruct (Z.leb_spec (value b p) 0) as [Hv|Hv]; [left; injection E as <- <-; split_and!; eauto 10|]. right.
  apply bind_Done_inv in E as (f & Ef & E). apply fx_mul_inv in Ef as ->.
  apply bind_Done_inv in E as (rate & Erate & E). apply bind_Done_inv in E as (fee & Efee & E). apply fx_mul_inv in Efee as ->.
  set (fee := value b p * scaling / fx_scale * rate / fx_scale) in *.
  apply bind_Done_inv in E as (u & Hfee & E). unfold assert_ in Hfee. destruct (Z.leb_spec fee (value b p)) as [Hle|]; [|done].
  apply bind_Done_inv in E as ([[b1 p'] active] & Ew & E).
  unfold withdraw_without_fee in Ew. apply bind_Done_inv in Ew as ([[b2 p2] r] & Ew & Ew'). injection Ew' as <- <- <-.
  assert (Hbt : bk_token_index b2 = bk_token_index b) by exact (f_equal bk_token_index (withdraw_touched _ _ _ _ _ _ _ _ _ Ew)).
  pose proof (withdraw_internal_wrapper_spec _ _ _ _ _ _ _ _ _ HI HR Ew) as W.
  apply bind_Done_inv in E as (a1 & Ea & E). apply bind_Done_inv in E as (cf & Ecf & E). apply fx_add_inv in Ecf as ->.
  apply bind_Done_inv in E as (cc & Ecc & E). apply fx_add_inv in Ecc as ->.
  apply bind_Done_inv in E as (ti & _ & E). apply bind_Done_inv in E as (x & E3 & E). injection E as <- <-.
  simpl in E3. rewrite Hbt in E3. pose proof (token_position_inv _ _ _ _ Ep) as [_ Tp].
  assert (T2 : tp_token_index p2 = bk_token_index b).
  { destruct W as (_ & M & _). by rewrite (mv_token_index _ _ _ _ M). }
  destruct (charged_stays _ _ _ _ _ _ _ _ HU Hti Ep T2 Ea E3) as [Hact ->].
  exists p, i, p2, rate, r, b2. cbv zeta. fold fee. split_and!; try done.
  intros Hu. rewrite Hu in Ew. by eapply active_left.
Qed.

End spec.

(** ** Concrete instances *)

(** The two banks of the liquidation example, which charge collateral fees of 1/1024 a day. *)
Definition fee_bank_0 : Bank := asset_bank_0 <| bk_collateral_fee_per_day := f64_div f64_one (f64_of_Z 1024) |>.
Definition fee_bank_1 : Bank := liab_bank_1 <| bk_collateral_fee_per_day := f64_div f64_one (f64_of_Z 1024) |>.
Definition fee_bank_2 : Bank := (fee_bank_1 <| bk_token_index := 2 |>) <| bk_collateral_fee_per_day := f64_div f64_one (f64_of_Z 1024) |>.

Definition fee_group : Group := (sample_group <| gr_ix_gate := 0 |>) <| gr_collateral_fee_interval := 86400 |>.

(** An account with 100 tokens of bank 0 and a borrow of 20 of bank 1, and the same account
    with one token of bank 2. *)
Definition fee_account : MangoAccount :=
  (account_default <| ma_fixed := ((fixed_default <| af_group := 1 |>) <| af_owner := 9 |>)
                                     <| af_last_collateral_fee_charge := 1000 |> |>)
    <| ma_tokens := [position_of 0 (fx_int 100); position_of 1 (fx_int (-20)); Token.default] |>.
Definition evading_account : MangoAccount :=
  fee_account <| ma_tokens := [position_of 0 (fx_int 100); position_of 1 (fx_int (-20)); position_of 2 (fx_int 1)] |>.

Definition fee_ais : list AccountInfo :=
  [(20, ABank fee_bank_0); (21, ABank fee_bank_1); (4, AOracle (stub fx_one)); (6, AOracle (stub fx_one))].
Definition evading_ais : list AccountInfo :=
  [(20, ABank fee_bank_0); (21, ABank fee_bank_1); (22, ABank fee_bank_2);
   (4, AOracle (stub fx_one)); (6, AOracle (stub fx_one)); (6, AOracle (stub fx_one))].

Definition fee_clock : Clock := mkClock (1000 + 86400) 50.

(** One token evades the collateral fees. The first account pays its fee; the same account
    with one token of a third bank that charges fees cannot be charged at all: the fee
    takes that position below one token, so it is dusted and closed, and looking it up for
    the log fails the instruction. *)
Theorem one_token_evades_collateral_fees :
  (exists a banks, @token_charge_collateral_fees fixed_ref 1 fee_group fee_account fee_ais fee_clock = Done (a, banks) /\
     exists b, banks !! 0%nat = Some (20, b) /\ 0 < bk_collected_collateral_fees b) /\
  @token_charge_collateral_fees fixed_ref 1 fee_group evading_account evading_ais fee_clock
    = Fail (EMango TokenPositionDoesNotExist).
Proof.
  split; [|vm_compute; reflexivity].
  eexists _, _. split; [vm_compute; reflexivity|]. eexists. split; vm_compute; reflexivity.
Qed.

Lemma fee_account_unique : positions_unique fee_account.
Proof.
  intros i j p q Hi Hj Ht Hn.
  destruct i as [|[|[|i]]]; destruct j as [|[|[|j]]]; try done; simpl in *; simplify_eq; try done; vm_compute in Ht; done.
Qed.

(** A concrete instance. *)
Lemma collateral_fee_charged_witness :
  exists a' b', @charge_bank fixed_ref liqee_cache fx_one 2000 fee_account fee_bank_0 = Done (a', b') /\
    exists p i, Account.token_position_and_raw_index fee_account 0 = Done (p, i) /\ 0 < value fee_bank_0 p.
Proof.
  destruct (@charge_bank fixed_ref liqee_cache fx_one 2000 fee_account fee_bank_0) as [[a' b']| | |] eqn:E;
    [|vm_compute in E; discriminate E..].
  exists a', b'. refine (conj eq_refl _).
  destruct (@collateral_fee_charged fixed_ref fixed_ref_laws liqee_cache fx_one 2000 fee_account fee_bank_0 a' b')
    as [(Ha & _)|(p & i & p' & rate & r & b1 & Ep & Hv & _)].
  - split; reflexivity.
  - vm_compute. congruence.
  - exact fee_account_unique.
  - vm_compute. split; congruence.
  - exact E.
  - exfalso. vm_compute in E. injection E as <- <-. vm_compute in Ha. discriminate Ha.
  - exists p, i. exact (conj Ep Hv).
Defined.

(** Two banks of one token. *)
Definition step_ais : list AccountInfo :=
  [(20, ABank asset_bank_0); (21, ABank (asset_bank_0 <| bk_bank_num := 1 |>))].
Definition step_banks : list Bank := [asset_bank_0; asset_bank_0 <| bk_bank_num := 1 |>].
Definition step_mint : MintInfo := mkMintInfo 1 0 0 2 [20; 21; 0; 0; 0; 0] [3; 3; 0; 0; 0; 0] 4 0 0.

Lemma step_banks_ok : Forall interest_ok step_banks.
Proof. repeat constructor; vm_compute; congruence. Qed.

(** A concrete instance: an update after two hours. *)
Lemma update_keeps_banks_in_step_witness :
  exists res, @token_update_index_and_rate fixed_ref 7 8 [] 1 (sample_group <| gr_ix_gate := 0 |>) step_mint (4, stub fx_one)
      [mkTxInstruction 8 [] []] step_ais (mkClock 8200 50) = Done res /\
    res.*1 = [20; 21] /\ totals <$> res.*2 = totals <$> step_banks.
Proof.
  destruct (@token_update_index_and_rate fixed_ref 7 8 [] 1 (sample_group <| gr_ix_gate := 0 |>) step_mint (4, stub fx_one)
      [mkTxInstruction 8 [] []] step_ais (mkClock 8200 50)) as [res| | |] eqn:E; [|vm_compute in E; discriminate E..].
  exists res. refine (conj eq_refl _).
  destruct (@update_keeps_banks_in_step fixed_ref fixed_ref_laws 7 8 [] 1 (sample_group <| gr_ix_gate := 0 |>) step_mint
    (4, stub fx_one) [mkTxInstruction 8 [] []] step_ais (mkClock 8200 50) step_banks res) as (_ & _ & Hk & Ht & _).
  - reflexivity.
  - exact step_banks_ok.
  - vm_compute. congruence.
  - vm_compute. congruence.
  - exact E.
  - exact (conj Hk Ht).
Defined.
