(* ===== verification/TokenBankruptcy.v ===== *)
(** * Token bankruptcy

    instructions/token_liq_bankruptcy.rs with the constraints of
    accounts_ix/token_liq_bankruptcy.rs: the borrow of an account without assets left is
    paid from the insurance fund, and what the fund cannot pay is taken from all depositors
    of the token by lowering the deposit index.

    The banks of the token are passed twice, as the writable banks of the mint info and as
    part of the health accounts; both refer to the same accounts. [sync_banks] and
    [sync_retriever] carry a bank that changed in one list over to the other. Logs are left
    out. *)

From stdpp Require Import base numbers option list gmap.
From Stdlib Require Import ZArith Lia SpecFloat.
From S2P Require Import Prelude FixedPoint HealthType TokenPosition Nodes Oracle StablePrice Bank Group Serum3 PerpMarket PerpPosition MangoAccount HealthCache AccountRetriever TokenInstructions BankInstructions TokenLiquidation.

Open Scope Z_scope.

(** ** Accounts *)

(** [bq_quote_vault] and [bq_insurance_vault] are balances. *)
Record BankruptcyAccounts := mkBankruptcyAccounts {
  bq_liq : LiqAccounts;
  bq_liab_mint_info : MintInfo;
  bq_quote_vault_pk : Pubkey;
  bq_quote_vault : Z;
  bq_insurance_vault_pk : Pubkey;
  bq_insurance_vault_mint : Pubkey;
  bq_insurance_vault : Z
}.

Definition bankruptcy_constraints (a : BankruptcyAccounts) (now_ts : Z) : outcome unit :=
  _ ← require (gr_insurance_vault (lq_group (bq_liq a)) =? bq_insurance_vault_pk a) EConstraint;
  _ ← liq_constraints (bq_liq a) IxTokenLiqBankruptcy now_ts;
  require (mi_group (bq_liab_mint_info a) =? lq_group_pk (bq_liq a)) EConstraint.

(** A bank that changed under its key. *)
Definition sync_banks (key : Pubkey) (b : Bank) (banks : list (Pubkey * Bank)) : list (Pubkey * Bank) :=
  (fun kb : Pubkey * Bank => if fst kb =? key then (fst kb, b) else kb) <$> banks.

(** The retriever after the banks of the list changed. *)
Definition sync_retriever (banks : list (Pubkey * Bank)) (r : ScanningAccountRetriever) : ScanningAccountRetriever :=
  let s := sc_banks_and_oracles r in
  with_banks r
    (mkScanned (foldr (fun kb ais => sync_bank (fst kb) (snd kb) ais) (sb_banks s) banks) (sb_oracles s)
       (sb_fallback_oracles s) (sb_index_map s) (sb_staleness_slot s) (sb_usd_oracle_index s) (sb_sol_oracle_index s)).

Section bankruptcy.
Context `{FixedOps} `{TokenProgram}.

(** ** The insurance fund *)

(** The price of the liability in the insurance token, with the fee. *)
Definition liab_to_quote (liab_bank : Bank) (liab_oracle_price : Z) (quote_price : option Z) : outcome Z :=
  match quote_price with
  | Some q =>
      f ← fx_add fx_one (bk_liquidation_fee liab_bank);
      n ← fx_mul liab_oracle_price f;
      fx_div n q
  | None => Done fx_one
  end.

(** What the insurance fund pays for the lost liability. *)
Definition insurance_payment (remaining_liab_loss max_liab_transfer liab_to_quote_with_fee insurance_vault_amount : Z) :
    outcome Z :=
  n ← fx_mul (Z.min remaining_liab_loss max_liab_transfer) liab_to_quote_with_fee;
  n ← fx_ceil n;
  n ← fx_to_u64 n;
  Done (Z.min n insurance_vault_amount).

(** The liqor gets the payment and takes the liability over. The banks are written to the
    retriever before its health is computed. *)
Definition pay_liqor (a : BankruptcyAccounts) (retriever : ScanningAccountRetriever) (liab_token_index : Z)
    (il : nat) (liab_bank : Bank) (iq : nat) (quote_bank : Bank) (insurance_transfer liab_transfer now_ts : Z) :
    outcome (ScanningAccountRetriever * MangoAccount) :=
  let liqor := lq_liqor (bq_liq a) in
  _ ← require (bk_vault quote_bank =? bq_quote_vault_pk a) ERequireKeysEq;
  _ ← require (bk_mint quote_bank =? bq_insurance_vault_mint a) ERequireKeysEq;
  '(liqor, quote_raw_index, _) ← Account.ensure_token_position liqor INSURANCE_TOKEN_INDEX;
  q ← unwrap (ma_tokens liqor !! quote_raw_index);
  '(quote_bank, q, liqor_quote_active) ← deposit quote_bank q insurance_transfer now_ts;
  let liqor := Account.set_token liqor quote_raw_index q in
  '(liqor, liab_raw_index, _) ← Account.ensure_token_position liqor liab_token_index;
  p ← unwrap (ma_tokens liqor !! liab_raw_index);
  '(liab_bank, p, r) ← withdraw_with_fee liab_bank p liab_transfer now_ts;
  let liqor := Account.set_token liqor liab_raw_index p in
  s ← Scanning.set_bank (sc_banks_and_oracles retriever) il liab_bank;
  s ← Scanning.set_bank s iq quote_bank;
  let retriever := with_banks retriever s in
  _ ← check_liqor_health liqor retriever now_ts;
  liqor ← deactivate_unless liqor_quote_active liqor quote_raw_index;
  liqor ← deactivate_unless (wr_position_is_active r) liqor liab_raw_index;
  Done (retriever, liqor).

(** The insurance fund deposits directly into the liqee. *)
Definition pay_liqee_directly (a : BankruptcyAccounts) (retriever : ScanningAccountRetriever)
    (liab_token_index : Z) (il : nat) (liab_bank : Bank) (liab_to_quote_with_fee insurance_transfer_i80f48 liab_transfer : Z) :
    outcome (ScanningAccountRetriever * MangoAccount) :=
  _ ← require (bk_vault liab_bank =? bq_quote_vault_pk a) ERequireKeysEq;
  _ ← require (liab_token_index =? INSURANCE_TOKEN_INDEX) ERequireEq;
  _ ← require (liab_to_quote_with_fee =? fx_one) ERequireEq;
  _ ← require (insurance_transfer_i80f48 =? liab_transfer) ERequireEq;
  s ← Scanning.set_bank (sc_banks_and_oracles retriever) il liab_bank;
  Done (with_banks retriever s, lq_liqor (bq_liq a)).

(** The state after the insurance fund paid. *)
Record Insured := mkInsured {
  ins_retriever : ScanningAccountRetriever;
  ins_liqor : MangoAccount;
  ins_position : TokenPosition;
  ins_liab_active : bool;
  ins_remaining_liab_loss : Z;
  ins_insurance_vault : Z;
  ins_quote_vault : Z
}.

Definition use_insurance (a : BankruptcyAccounts) (retriever : ScanningAccountRetriever) (liab_token_index : Z) (il : nat)
    (liab_bank : Bank) (quote : option (nat * (Bank * Z))) (liqee_liab : TokenPosition)
    (initial_liab_native remaining_liab_loss insurance_transfer liab_to_quote_with_fee now_ts : Z) : outcome Insured :=
  insurance_transfer_i80f48 ← fx_from_int insurance_transfer;
  liab_transfer ← fx_div insurance_transfer_i80f48 liab_to_quote_with_fee;
  if 0 <? insurance_transfer then
    '(liab_bank, liqee_liab, liqee_liab_active) ← deposit_with_dusting liab_bank liqee_liab liab_transfer now_ts;
    n ← native liqee_liab liab_bank;
    paid ← fx_sub n initial_liab_native;
    remaining ← fx_sub remaining_liab_loss paid;
    '(insurance_vault, quote_vault) ← token_transfer (bq_insurance_vault a) (bq_quote_vault a) insurance_transfer;
    '(retriever, liqor) ←
      (match quote with
       | Some (iq, (quote_bank, _)) =>
           pay_liqor a retriever liab_token_index il liab_bank iq quote_bank insurance_transfer_i80f48 liab_transfer now_ts
       | None =>
           pay_liqee_directly a retriever liab_token_index il liab_bank liab_to_quote_with_fee
             insurance_transfer_i80f48 liab_transfer
       end);
    Done (mkInsured retriever liqor liqee_liab liqee_liab_active remaining insurance_vault quote_vault)
  else
    Done (mkInsured retriever (lq_liqor (bq_liq a)) liqee_liab true remaining_liab_loss (bq_insurance_vault a)
            (bq_quote_vault a)).

(** ** Socializing the loss *)

(** The loop over the banks: each gets the new index, and the liqee is credited where
    borrows can be offset. The loop ends once everything is credited. *)
Fixpoint socialize (new_deposit_index now_ts : Z) (banks : list (Pubkey * Bank)) (position : TokenPosition)
    (active : bool) (amount_to_credit : Z) : outcome (list (Pubkey * Bank) * TokenPosition * bool) :=
  match banks with
  | [] => Done ([], position, active)
  | (k, bank) :: banks =>
      let bank := bank <| bk_deposit_index := new_deposit_index |> in
      borrows ← native_borrows bank;
      let amount_for_bank := Z.min amount_to_credit borrows in
      if 0 <? amount_for_bank then
        '(bank, position, active) ← deposit_with_dusting bank position amount_for_bank now_ts;
        amount_to_credit ← fx_sub amount_to_credit amount_for_bank;
        if amount_to_credit <=? 0 then Done ((k, bank) :: banks, position, active)
        else
          '(banks, position, active) ← socialize new_deposit_index now_ts banks position active amount_to_credit;
          Done ((k, bank) :: banks, position, active)
      else
        '(banks, position, active) ← socialize new_deposit_index now_ts banks position active amount_to_credit;
        Done ((k, bank) :: banks, position, active)
  end.

Definition socialize_liab_loss (liab_deposit_index remaining_liab_loss now_ts : Z) (banks : list (Pubkey * Bank))
    (position : TokenPosition) (active : bool) : outcome (list (Pubkey * Bank) * TokenPosition * bool) :=
  indexed_total_deposits ← total_of bk_indexed_deposits banks.*2;
  loss ← fx_div remaining_liab_loss indexed_total_deposits;
  new_deposit_index ← fx_sub liab_deposit_index loss;
  '(banks, position, active) ← socialize new_deposit_index now_ts banks position active remaining_liab_loss;
  _ ← require (tp_indexed_position position =? 0) ERequireEq;
  Done (banks, position, active).

(** ** The instruction *)

(** The loss: both the position and its balance in the health computation are negative. *)
Definition liab_loss (cache : HealthCache) (liab_token_index initial_liab_native : Z) : outcome Z :=
  balances ← effective_token_balances cache LiquidationEnd;
  i ← token_info_index cache liab_token_index;
  health_balance ← unwrap (balances !! i);
  _ ← require (initial_liab_native <? 0) ERequireGt;
  _ ← require (health_balance <? 0) ERequireGt;
  n ← fx_neg initial_liab_native;
  m ← fx_neg health_balance;
  Done (Z.min n m).

(** The banks of the mint info, with their keys. The keys were checked, so all of them are
    banks and can be loaded, as the source does when it reaches them. *)
Definition load_banks (ais : list AccountInfo) : outcome (list (Pubkey * Bank)) :=
  mapM (fun ai => b ← load_bank ai; Done (fst ai, b)) ais.

(** The banks after the retriever's banks changed. *)
Definition banks_from (r : ScanningAccountRetriever) (banks : list (Pubkey * Bank)) : list (Pubkey * Bank) :=
  foldr (fun (ai : AccountInfo) bs => match snd ai with ABank b => sync_banks (fst ai) b bs | _ => bs end) banks
    (sb_banks (sc_banks_and_oracles r)).

(** The end of the instruction: the liqee's health and position. *)
Definition finish_liqee (liqee : MangoAccount) (raw_index : nat) (position : TokenPosition) (active : bool)
    (cache : HealthCache) (initial_liab_native : Z) (banks : list (Pubkey * Bank)) : outcome MangoAccount :=
  '(_, liab_bank) ← unwrap (banks !! 0%nat);
  end_liab_native ← native position liab_bank;
  change ← fx_sub end_liab_native initial_liab_native;
  cache ← adjust_token_balance cache liab_bank change;
  h ← health cache LiquidationEnd;
  let liqee := Account.set_token liqee raw_index position in
  let liqee := set_ma_fixed liqee (fst (Fixed.maybe_recover_from_being_liquidated (ma_fixed liqee) h)) in
  deactivate_unless active liqee raw_index.

(** The accounts, the banks of the mint info and the retriever after the instruction. *)
Definition token_liq_bankruptcy (a : BankruptcyAccounts) (liqor_owner : Pubkey) (remaining : list AccountInfo)
    (clock : Clock) (max_liab_transfer : Z) :
    outcome (BankruptcyAccounts * list (Pubkey * Bank) * ScanningAccountRetriever) :=
  let now_ts := clock_ts clock in
  let l := bq_liq a in
  let mint_info := bq_liab_mint_info a in
  let liab_token_index := mi_token_index mint_info in
  _ ← bankruptcy_constraints a now_ts;
  _ ← assert_ (Mint.num_banks mint_info <=? length remaining)%nat;
  let bank_ais := take (Mint.num_banks mint_info) remaining in
  _ ← Mint.verify_banks_ais mint_info bank_ais;
  _ ← liqor_checks l liqor_owner now_ts;
  retriever ← Scanning.new (drop (Mint.num_banks mint_info) remaining) (lq_group_pk l) (clock_slot clock);
  cache ← new_health_cache (lq_liqee l) retriever now_ts;
  _ ← require_after_phase2_liquidation cache;
  let liqee := set_ma_fixed (lq_liqee l) (Fixed.set_being_liquidated (ma_fixed (lq_liqee l)) true) in
  '(il, (liab_bank, liab_oracle_price), quote) ←
    Scanning.banks_mut_and_oracles (sc_banks_and_oracles retriever) liab_token_index INSURANCE_TOKEN_INDEX;
  _ ← assert_ (Bool.eqb (liab_token_index =? INSURANCE_TOKEN_INDEX) (bool_decide (quote = None)));
  '(liqee_liab, raw_index) ← Account.token_position_and_raw_index liqee liab_token_index;
  initial_liab_native ← native liqee_liab liab_bank;
  remaining_liab_loss ← liab_loss cache liab_token_index initial_liab_native;
  liab_to_quote_with_fee ← liab_to_quote liab_bank liab_oracle_price (snd ∘ snd <$> quote);
  let insurance_vault_amount :=
    if Mint.elligible_for_group_insurance_fund mint_info then bq_insurance_vault a else 0 in
  insurance_transfer ←
    insurance_payment remaining_liab_loss max_liab_transfer liab_to_quote_with_fee insurance_vault_amount;
  let insurance_fund_exhausted := insurance_transfer =? insurance_vault_amount in
  i ← use_insurance a retriever liab_token_index il liab_bank quote liqee_liab initial_liab_native remaining_liab_loss
        insurance_transfer liab_to_quote_with_fee now_ts;
  banks ← load_banks bank_ais;
  let banks := banks_from (ins_retriever i) banks in
  '(banks, position, active) ←
    (if insurance_fund_exhausted && (0 <? ins_remaining_liab_loss i) then
       socialize_liab_loss (bk_deposit_index liab_bank) (ins_remaining_liab_loss i) now_ts banks (ins_position i)
         (ins_liab_active i)
     else Done (banks, ins_position i, ins_liab_active i));
  liqee ← finish_liqee liqee raw_index position active cache initial_liab_native banks;
  Done (mkBankruptcyAccounts
          (mkLiqAccounts (lq_group_pk l) (lq_group l) (lq_liqor_pk l) (ins_liqor i) (lq_liqee_pk l) liqee)
          mint_info (bq_quote_vault_pk a) (ins_quote_vault i) (bq_insurance_vault_pk a) (bq_insurance_vault_mint a)
          (ins_insurance_vault i),
        banks, sync_retriever banks (ins_retriever i)).

End bankruptcy.
