(* ===== verification/TokenBankruptcySpec.v ===== *)
(** * Properties of token bankruptcy

    The insurance fund pays before depositors do; a socialized loss lowers the deposit index
    by the loss per indexed deposit; not all banks of a token need get the new index. *)

From stdpp Require Import base numbers option list gmap.
From Stdlib Require Import ZArith Lia Psatz SpecFloat.
From S2P Require Import Prelude FixedPoint HealthType TokenPosition Nodes Oracle StablePrice Bank BankSpec BankInterest Group Serum3 PerpMarket PerpPosition MangoAccount HealthCache AccountRetriever TokenInstructions TokenInstructionsSpec TokenLiquidation TokenLiquidationSpec BankInstructions TokenBankruptcy.

Open Scope Z_scope.

Section spec.
Context `{FixedLaws} `{TokenLaws}.

(** ** Socialized losses *)

Lemma deposit_with_dusting_index b t a now b' t' active :
  deposit_with_dusting b t a now = Done (b', t', active) -> bk_deposit_index b' = bk_deposit_index b.
Proof.
  unfold deposit_with_dusting. intros E. apply bind_Done_inv in E as ([[b1 t1] r] & E & E1). injection E1 as <- <- <-.
  exact (f_equal bk_deposit_index (deposit_touched _ _ _ _ _ _ _ _ E)).
Qed.

(** The banks up to some point have the new index, the others are as before. *)
Definition lowered_until (k : nat) (ndi : Z) (banks banks' : list (Pubkey * Bank)) : Prop :=
  banks'.*1 = banks.*1 /\ Forall (fun kb => bk_deposit_index (snd kb) = ndi) (take k banks') /\
  drop k banks' = drop k banks.

Lemma lowered_cons k ndi key b b' banks banks' :
  bk_deposit_index b' = ndi -> lowered_until k ndi banks banks' ->
  lowered_until (S k) ndi ((key, b) :: banks) ((key, b') :: banks').
Proof. intros Hb (? & ? & ?). split_and!; simpl; [by f_equal|by constructor|done]. Qed.

Lemma socialize_inv ndi now banks p active amount banks' p' active' :
  socialize ndi now banks p active amount = Done (banks', p', active') ->
  exists k, lowered_until k ndi banks banks' /\ (banks <> [] -> (0 < k)%nat).
Proof.
  revert p active amount banks' p' active'. induction banks as [|[key b] banks IH]; intros p active amount banks' p' active' E; simpl in E.
  { injection E as <- <- <-. exists 0%nat. by split. }
  apply bind_Done_inv in E as (br & _ & E). destruct (0 <? Z.min amount br).
  - apply bind_Done_inv in E as ([[b1 p1] a1] & Ed & E). apply deposit_with_dusting_index in Ed. simpl in Ed.
    apply bind_Done_inv in E as (rest & _ & E). destruct (rest <=? 0).
    + injection E as <- <- <-. exists 1%nat. split; [|lia]. by apply lowered_cons.
    + apply bind_Done_inv in E as ([[bs p2] a2] & Es & E). injection E as <- <- <-.
      apply IH in Es as (k & L & _). exists (S k). split; [by apply lowered_cons|lia].
  - apply bind_Done_inv in E as ([[bs p2] a2] & Es & E). injection E as <- <- <-.
    apply IH in Es as (k & L & _). exists (S k). split; [by apply lowered_cons|lia].
Qed.

(** A loss taken from the depositors in proportion: the index falls by the loss per indexed
    deposit, rounded down, so that by the deposits of all banks the loss is covered up to
    less than one unit per indexed deposit and never exceeded; the borrow of the bankrupt
    account is gone. The new index is given to the first bank and on until the whole loss is
    credited; the banks after that stay as they were. *)
Definition loss_shared (di loss : Z) (banks banks' : list (Pubkey * Bank)) (p' : TokenPosition) : Prop :=
  tp_indexed_position p' = 0 /\
  exists ndi k, (banks <> [] -> (0 < k)%nat) /\ lowered_until k ndi banks banks' /\
    let total := bank_total bk_indexed_deposits banks.*2 in
    (0 < total -> (di - ndi) * total <= loss * fx_scale < (di - ndi + 1) * total).

(** Socializing a loss shares it. *)
Lemma loss_socialized di loss now banks p active banks' p' active' :
  0 <= loss -> socialize_liab_loss di loss now banks p active = Done (banks', p', active') ->
  loss_shared di loss banks banks' p'.
Proof.
  intros Hl E. unfold socialize_liab_loss in E.
  apply bind_Done_inv in E as (total & Et & E). apply total_of_inv in Et as ->.
  apply bind_Done_inv in E as (q & Eq & E). apply fx_div_inv in Eq as [_ Eq].
  apply bind_Done_inv in E as (ndi & En & E). apply fx_sub_inv in En as ->.
  apply bind_Done_inv in E as ([[bs p1] a1] & Es & E). apply bind_Done_inv in E as (u & Ez & E).
  apply require_inv, Z.eqb_eq in Ez. injection E as <- <- <-. split; [done|].
  apply socialize_inv in Es as (k & L & Hk). exists (di - q), k. split; [done|]. split; [done|]. cbv zeta. intros Ht.
  pose proof scale_pos. rewrite Z.quot_div_nonneg in Eq by nia.
  pose proof (floor_bounds (loss * fx_scale) _ Ht). replace (di - (di - q)) with q by lia. subst q. lia.
Qed.

(** ** The instruction *)

(** Every bank of [ais'] is one of [ais], with the same deposit index. *)
Definition same_deposit_indexes (ais ais' : list AccountInfo) : Prop :=
  forall k b', (k, ABank b') ∈ ais' -> exists b, (k, ABank b) ∈ ais /\ bk_deposit_index b' = bk_deposit_index b.

Lemma same_deposit_indexes_refl ais : same_deposit_indexes ais ais.
Proof. intros k b Hb. by exists b. Qed.

Lemma set_bank_same_indexes ais s i k b b' s' :
  sb_banks s !! i = Some (k, ABank b) -> bk_deposit_index b' = bk_deposit_index b ->
  same_deposit_indexes ais (sb_banks s) -> Scanning.set_bank s i b' = Done s' -> same_deposit_indexes ais (sb_banks s').
Proof.
  intros Hi Hb HS E k' c Hc. unfold Scanning.set_bank in E. rewrite Hi in E. run_in E. injection E as <-. simpl in Hc.
  apply list_elem_of_lookup in Hc as [j Hj]. destruct (decide (j = i)) as [->|Hne].
  - rewrite list_lookup_insert_eq in Hj by (by eapply lookup_lt_Some). injection Hj as <- <-. rewrite Hb.
    by apply HS, (list_elem_of_lookup_2 _ i).
  - rewrite list_lookup_insert_ne in Hj by done. by apply HS, (list_elem_of_lookup_2 _ j).
Qed.

Lemma deposit_index_kept b t a now b' t' active :
  deposit b t a now = Done (b', t', active) -> bk_deposit_index b' = bk_deposit_index b.
Proof. intros E. exact (f_equal bk_deposit_index (deposit_touched _ _ _ _ _ _ _ _ E)). Qed.

Lemma withdraw_index_kept b t a now b' t' r :
  withdraw_with_fee b t a now = Done (b', t', r) -> bk_deposit_index b' = bk_deposit_index b.
Proof. intros E. exact (f_equal bk_deposit_index (withdraw_touched _ _ _ _ _ _ _ _ _ E)). Qed.

Lemma pay_liqor_inv a r ti il kl lb0 lb iq kq qb x y now r' liqor' :
  let ais := sb_banks (sc_banks_and_oracles r) in
  ais !! il = Some (kl, ABank lb0) -> ais !! iq = Some (kq, ABank qb) ->
  bk_deposit_index lb = bk_deposit_index lb0 ->
  pay_liqor a r ti il lb iq qb x y now = Done (r', liqor') -> same_deposit_indexes ais (sb_banks (sc_banks_and_oracles r')).
Proof.
  intros ais Hl Hq Hlb E. unfold pay_liqor in E.
  apply bind_Done_inv in E as (u1 & _ & E). apply bind_Done_inv in E as (u2 & _ & E).
  apply bind_Done_inv in E as ([[o1 i1] j1] & _ & E). apply bind_Done_inv in E as (q & _ & E).
  apply bind_Done_inv in E as ([[qb1 q1] act] & Ed & E). apply deposit_index_kept in Ed.
  apply bind_Done_inv in E as ([[o2 i2] j2] & _ & E). apply bind_Done_inv in E as (p & _ & E).
  apply bind_Done_inv in E as ([[lb1 p1] w] & Ew & E). apply withdraw_index_kept in Ew.
  apply bind_Done_inv in E as (s1 & E1 & E). apply bind_Done_inv in E as (s2 & E2 & E).
  apply bind_Done_inv in E as (u3 & _ & E). apply bind_Done_inv in E as (o3 & _ & E).
  apply bind_Done_inv in E as (o4 & _ & E). injection E as <- _. simpl.
  assert (S1 : same_deposit_indexes ais (sb_banks s1)).
  { apply (set_bank_same_indexes ais _ il kl lb0 lb1 s1 Hl); [congruence|apply same_deposit_indexes_refl|exact E1]. }
  apply set_bank_inv in E1 as (k & L & Hlt). destruct (decide (il = iq)) as [<-|Hne].
  - apply (set_bank_same_indexes ais s1 il k lb1 qb1); [by rewrite L, list_lookup_insert_eq| |done|done].
    rewrite Hl in Hq. injection Hq as <- <-. congruence.
  - apply (set_bank_same_indexes ais s1 iq kq qb qb1); [by rewrite L, list_lookup_insert_ne|done..].
Qed.

Lemma pay_liqee_directly_inv a r ti il kl lb0 lb f x y r' liqor' :
  let ais := sb_banks (sc_banks_and_oracles r) in
  ais !! il = Some (kl, ABank lb0) -> bk_deposit_index lb = bk_deposit_index lb0 ->
  pay_liqee_directly a r ti il lb f x y = Done (r', liqor') -> same_deposit_indexes ais (sb_banks (sc_banks_and_oracles r')).
Proof.
  intros ais Hl Hlb E. unfold pay_liqee_directly in E. inv_run. simpl.
  eapply (set_bank_same_indexes ais _ il kl lb0 lb); [exact Hl|done|apply same_deposit_indexes_refl|eassumption].
Qed.

(** The liqor of a bankruptcy gets [n] quote tokens for the liability [x] that it takes over;
    its positions are stored in the slots of the tokens, marked unused if no longer active,
    and outside a health region its init health is not negative before that. *)
Definition liqor_paid (ti : Z) (lb qb : Bank) (n x now : Z) (r' : ScanningAccountRetriever) (liqor liqor' : MangoAccount) : Prop :=
  exists kq q q' qb' q_act kl p p' lb' w,
    taken (ma_tokens liqor) INSURANCE_TOKEN_INDEX kq q /\ deposit qb q (fx_int n) now = Done (qb', q', q_act) /\
    taken (<[kq := q']> (ma_tokens liqor)) ti kl p /\ withdraw_with_fee lb p x now = Done (lb', p', w) /\
    let us := <[kl := p']> (<[kq := q']> (ma_tokens liqor)) in
    liqor' = set_ma_tokens liqor (tidy (wr_position_is_active w) kl (tidy q_act kq us)) /\
    (Fixed.is_in_health_region (ma_fixed liqor) = false ->
     exists h, compute_health (set_ma_tokens liqor us) Init r' now = Done h /\ 0 <= h).

Lemma pay_liqor_positions a r ti il lb iq qb n x now r' liqor' :
  pay_liqor a r ti il lb iq qb (fx_int n) x now = Done (r', liqor') ->
  liqor_paid ti lb qb n x now r' (lq_liqor (bq_liq a)) liqor'.
Proof.
  intros E. unfold pay_liqor in E. apply bind_Done_inv in E as (u1 & _ & E). apply bind_Done_inv in E as (u2 & _ & E).
  apply bind_Done_inv in E as ([[o1 i1] j1] & E1 & E). apply ensure_taken in E1 as (q0 & T1 & -> & L1).
  apply bind_Done_inv in E as (q & Eq & E). apply unwrap_inv in Eq. rewrite L1 in Eq. injection Eq as ->.
  apply bind_Done_inv in E as ([[qb1 q1] act] & Ed & E). rewrite set_token_twice in E.
  apply bind_Done_inv in E as ([[o2 i2] j2] & E2 & E). apply ensure_taken in E2 as (p0 & T2 & -> & L2).
  apply bind_Done_inv in E as (p & Ep & E). apply unwrap_inv in Ep. rewrite L2 in Ep. injection Ep as ->.
  apply bind_Done_inv in E as ([[lb1 p1] w] & Ew & E). rewrite set_token_twice in E.
  apply bind_Done_inv in E as (s1 & _ & E). apply bind_Done_inv in E as (s2 & _ & E).
  apply bind_Done_inv in E as (u3 & Eh & E). apply bind_Done_inv in E as (o3 & E3 & E).
  apply bind_Done_inv in E as (o4 & E4 & E). injection E as <- <-. apply deactivate_unless_tidy in E3 as ->, E4 as ->.
  exists i1, q, q1, qb1, act, i2, p, p1, lb1, w. split_and!; try done. cbv zeta. split; [done|]. intros R.
  unfold check_liqor_health in Eh. simpl in Eh. rewrite R in Eh. simpl in Eh.
  apply bind_Done_inv in Eh as (h & Eh & E). apply require_inv, Z.leb_le in E. by exists h.
Qed.

(** What the payment [n] of the insurance fund does: nothing if it is zero; otherwise the
    liability it pays for is deposited into the liqee's position, which lowers the loss, and
    the liqor is paid for it, unless the liability is in the insurance token itself. *)
Definition insured (a : BankruptcyAccounts) (r : ScanningAccountRetriever) (ti : Z) (lb : Bank)
    (quote : option (nat * (Bank * Z))) (p : TokenPosition) (loss n f now : Z) (r1 : ScanningAccountRetriever)
    (liqor' : MangoAccount) (p1 : TokenPosition) (active : bool) (rest : Z) : Prop :=
  if n =? 0 then r1 = r /\ liqor' = lq_liqor (bq_liq a) /\ p1 = p /\ active = true /\ rest = loss
  else exists lb1, let x := Z.quot (fx_int n * fx_scale) f in
    deposit_with_dusting lb p x now = Done (lb1, p1, active) /\ rest = loss - (value lb1 p1 - value lb p) /\
    match quote with
    | Some (_, (qb, _)) => liqor_paid ti lb1 qb n x now r1 (lq_liqor (bq_liq a)) liqor'
    | None => liqor' = lq_liqor (bq_liq a) /\ ti = INSURANCE_TOKEN_INDEX /\ x = fx_int n
    end.

(** Its vault pays the quote vault, and no index changes. *)
Lemma use_insurance_inv a r ti il kl lb quote p loss n f now i :
  let ais := sb_banks (sc_banks_and_oracles r) in
  ais !! il = Some (kl, ABank lb) ->
  (forall iq qb qp, quote = Some (iq, (qb, qp)) -> exists kq, ais !! iq = Some (kq, ABank qb)) ->
  0 <= n -> use_insurance a r ti il lb quote p (value lb p) loss n f now = Done i ->
  same_deposit_indexes ais (sb_banks (sc_banks_and_oracles (ins_retriever i))) /\
  ins_insurance_vault i = bq_insurance_vault a - n /\ ins_quote_vault i = bq_quote_vault a + n /\
  insured a r ti lb quote p loss n f now (ins_retriever i) (ins_liqor i) (ins_position i) (ins_liab_active i)
    (ins_remaining_liab_loss i).
Proof.
  intros ais Hl Hq Hn E. unfold use_insurance in E. unfold insured.
  apply bind_Done_inv in E as (x & Ex & E). apply fx_from_int_inv in Ex as ->.
  apply bind_Done_inv in E as (y & Ey & E). apply fx_div_inv in Ey as [_ Ey].
  destruct (Z.ltb_spec 0 n).
  - rewrite (proj2 (Z.eqb_neq n 0)) by lia.
    apply bind_Done_inv in E as ([[lb1 p1] act] & Ed & E). pose proof (deposit_with_dusting_index _ _ _ _ _ _ _ Ed) as Hdi.
    apply bind_Done_inv in E as (m & Em & E). apply native_value in Em as ->.
    apply bind_Done_inv in E as (pd & Epd & E). apply fx_sub_inv in Epd as ->.
    apply bind_Done_inv in E as (rm & Erm & E). apply fx_sub_inv in Erm as ->.
    apply bind_Done_inv in E as ([iv qv] & Et & E). apply transfer_inv in Et as (-> & -> & _).
    apply bind_Done_inv in E as ([r1 o1] & Ep & E). injection E as <-. simpl. subst y.
    destruct quote as [[iq [qb qp]]|].
    + destruct (Hq iq qb qp eq_refl) as (kq & Hk). split_and!; [by eapply (pay_liqor_inv a r ti il kl lb lb1 iq kq qb)|done..|].
      exists lb1. split_and!; try done. by eapply pay_liqor_positions.
    + split_and!; [by eapply pay_liqee_directly_inv|done..|]. exists lb1. split_and!; try done.
      * unfold pay_liqee_directly in Ep. inv_run. done.
      * unfold pay_liqee_directly in Ep. inv_run. bool_to_prop. done.
      * unfold pay_liqee_directly in Ep. inv_run. bool_to_prop. done.
  - injection E as <-. simpl. assert (n = 0) as -> by lia. split_and!; try done; [apply same_deposit_indexes_refl|lia..].
Qed.

Lemma sync_banks_elem key b banks k c :
  (k, c) ∈ sync_banks key b banks -> (k, c) ∈ banks \/ (k = key /\ c = b).
Proof.
  unfold sync_banks. intros Hk. apply list_elem_of_fmap in Hk as ([k' c'] & E & Hin). simpl in E.
  destruct (Z.eqb_spec k' key) as [->|]; injection E as -> ->; auto.
Qed.

Lemma banks_from_elem r banks k b :
  (k, b) ∈ banks_from r banks -> (k, b) ∈ banks \/ (k, ABank b) ∈ sb_banks (sc_banks_and_oracles r).
Proof.
  unfold banks_from. induction (sb_banks (sc_banks_and_oracles r)) as [|[k' d] ais IH]; simpl; intros Hin; [by left|].
  destruct d as [b'| | | | | |]; try (apply IH in Hin as [?|?]; [by left|right; by constructor]).
  apply sync_banks_elem in Hin as [Hin|[-> ->]]; [|right; constructor].
  apply IH in Hin as [?|?]; [by left|right; by constructor].
Qed.

Lemma load_banks_elem ais banks k b : load_banks ais = Done banks -> (k, b) ∈ banks -> (k, ABank b) ∈ ais.
Proof.
  revert banks. induction ais as [|[k' d] ais IH]; intros banks E Hin; simpl in E.
  { injection E as <-. by apply not_elem_of_nil in Hin. }
  apply bind_Done_inv in E as ([k1 b1] & E1 & E). apply bind_Done_inv in E as (bs & Es & E). injection E as <-.
  destruct d as [b2| | | | | |]; simpl in E1; try discriminate. injection E1 as <- <-.
  apply elem_of_cons in Hin as [[= -> ->]|Hin]; [constructor|constructor; by eapply IH].
Qed.

Lemma finish_liqee_inv liqee i p active c v banks liqee' :
  Fixed.being_liquidated (ma_fixed liqee) = true ->
  finish_liqee liqee i p active c v banks = Done liqee' ->
  exists k lb c' h, banks !! 0%nat = Some (k, lb) /\ adjust_token_balance c lb (value lb p - v) = Done c' /\
    health c' LiquidationEnd = Done h /\ ma_tokens liqee' = tidy active i (<[i := p]> (ma_tokens liqee)) /\
    (Fixed.being_liquidated (ma_fixed liqee') = true <-> h <= - fx_one).
Proof.
  intros Hb E. unfold finish_liqee in E. apply bind_Done_inv in E as ([k lb] & Ek & E). apply unwrap_inv in Ek.
  apply bind_Done_inv in E as (e & Ee & E). apply native_value in Ee as ->.
  apply bind_Done_inv in E as (ch & Ech & E). apply fx_sub_inv in Ech as ->.
  apply bind_Done_inv in E as (c' & Ec & E). apply bind_Done_inv in E as (h & Eh & E).
  exists k, lb, c', h. apply deactivate_unless_tidy in E as ->. do 4 (split; [done|]). by apply recover_flag.
Qed.

(** The loss is positive and no larger than the borrow. *)
Lemma liab_loss_inv c ti v loss : liab_loss c ti v = Done loss -> 0 < loss <= - v.
Proof.
  unfold liab_loss. intros E. apply bind_Done_inv in E as (bs & _ & E). apply bind_Done_inv in E as (i & _ & E).
  apply bind_Done_inv in E as (hb & _ & E). apply bind_Done_inv in E as (u1 & R1 & E). apply bind_Done_inv in E as (u2 & R2 & E).
  apply require_inv, Z.ltb_lt in R1. apply require_inv, Z.ltb_lt in R2. fx_inv. lia.
Qed.

Lemma insurance_payment_le loss mt f v n : insurance_payment loss mt f v = Done n -> n <= v /\ (0 <= v -> 0 <= n).
Proof. unfold insurance_payment. intros E. fx_inv. unfold_widths. lia. Qed.

(** The banks that the instruction reads are those of the retriever. *)
Lemma bankruptcy_banks r t1 t2 il lb lop quote :
  Scanning.banks_mut_and_oracles (sc_banks_and_oracles r) t1 t2 = Done (il, (lb, lop), quote) ->
  let ais := sb_banks (sc_banks_and_oracles r) in
  exists kl, ais !! il = Some (kl, ABank lb) /\
    forall iq qb qp, quote = Some (iq, (qb, qp)) -> exists kq, ais !! iq = Some (kq, ABank qb).
Proof.
  intros E ais. destruct quote as [[iq [qb qp]]|].
  - apply banks_mut_inv in E as (_ & _ & _ & B1 & B2). apply bank_at_inv in B1 as [kl Hl]. apply bank_at_inv in B2 as [kq Hq].
    exists kl. split; [done|]. intros ? ? ? [= <- <- <-]. by exists kq.
  - unfold Scanning.banks_mut_and_oracles in E. destruct (t1 =? t2).
    + apply bind_Done_inv in E as (i & _ & E). apply bind_Done_inv in E as ([b q] & B & E). injection E as <- <- <-.
      apply bank_at_inv in B as [kl Hl]. by exists kl.
    + apply bind_Done_inv in E as (i & _ & E). apply bind_Done_inv in E as (j & _ & E).
      case_match; apply bind_Done_inv in E as (x & _ & E); by apply bind_Done_inv in E as (y & _ & [=]).
Qed.

Lemma elem_of_take_inv {A} (x : A) n l : x ∈ take n l -> x ∈ l.
Proof. intros (i & Hi & _)%elem_of_take. by eapply list_elem_of_lookup_2. Qed.

Lemma elem_of_drop_inv {A} (x : A) n l : x ∈ drop n l -> x ∈ l.
Proof. intros (i & Hi)%list_elem_of_lookup. rewrite lookup_drop in Hi. by eapply list_elem_of_lookup_2. Qed.

(** The insurance fund of a token. *)
Definition fund (a : BankruptcyAccounts) : Z :=
  if Mint.elligible_for_group_insurance_fund (bq_liab_mint_info a) then bq_insurance_vault a else 0.

(** C14: Token bankruptcy. It takes an enabled instruction, two different accounts, a liqor that
    is signed for and not being liquidated, and an account that has nothing else left to
    liquidate and a borrow, whose loss is positive and at most the borrow. The insurance
    vault pays the quote vault, at most what the fund of the token holds; the payment
    reduces the borrow, and the liqor gets it and takes that liability over. No deposit
    index changes up to here. If the fund is paid out completely and some loss is left, it
    is socialized: the borrow is gone, and the new deposit index, lower by the loss per
    indexed deposit of all banks, is given to the first banks of the token, until the loss is
    credited (the banks after these keep their index). Otherwise the banks and the position
    stay as they are. The liqee holds the resulting position, and is flagged exactly while
    its liquidation-end health stays at -1 or lower. *)
Theorem token_bankruptcy_sound a owner ais clock mt a' banks' r' :
  0 <= bq_insurance_vault a -> token_liq_bankruptcy a owner ais clock mt = Done (a', banks', r') ->
  let l := bq_liq a in
  let ti := mi_token_index (bq_liab_mint_info a) in
  let now := clock_ts clock in
  GroupCfg.is_ix_enabled (lq_group l) IxTokenLiqBankruptcy = true /\
  lq_liqor_pk l <> lq_liqee_pk l /\ Fixed.is_owner_or_delegate (ma_fixed (lq_liqor l)) now owner = true /\
  Fixed.being_liquidated (ma_fixed (lq_liqor l)) = false /\
  exists r c, Scanning.new (drop (Mint.num_banks (bq_liab_mint_info a)) ais) (lq_group_pk l) (clock_slot clock) = Done r /\
  new_health_cache (lq_liqee l) r now = Done c /\ require_after_phase2_liquidation c = Done tt /\
  exists il lb lop quote raw p loss f n,
    Scanning.banks_mut_and_oracles (sc_banks_and_oracles r) ti INSURANCE_TOKEN_INDEX = Done (il, (lb, lop), quote) /\
    Account.token_position_and_raw_index (lq_liqee l) ti = Done (p, raw) /\
    liab_loss c ti (value lb p) = Done loss /\ 0 < loss <= - value lb p /\
    liab_to_quote lb lop (snd ∘ snd <$> quote) = Done f /\ insurance_payment loss mt f (fund a) = Done n /\
    0 <= n <= fund a /\ bq_insurance_vault a' = bq_insurance_vault a - n /\ bq_quote_vault a' = bq_quote_vault a + n /\
  exists r1 p1 act1 rest banks banks1 p' act' k lb' c' h,
    insured a r ti lb quote p loss n f now r1 (lq_liqor (bq_liq a')) p1 act1 rest /\
    load_banks (take (Mint.num_banks (bq_liab_mint_info a)) ais) = Done banks /\ banks1 = banks_from r1 banks /\
    same_deposit_indexes ais ((fun kb => (fst kb, ABank (snd kb))) <$> banks1) /\
    (if (n =? fund a) && (0 <? rest) then
       socialize_liab_loss (bk_deposit_index lb) rest now banks1 p1 act1 = Done (banks', p', act') /\
       loss_shared (bk_deposit_index lb) rest banks1 banks' p'
     else banks' = banks1 /\ p' = p1 /\ act' = act1) /\
    r' = sync_retriever banks' r1 /\ banks' !! 0%nat = Some (k, lb') /\
    ma_tokens (lq_liqee (bq_liq a')) = tidy act' raw (<[raw := p']> (ma_tokens (lq_liqee l))) /\
    adjust_token_balance c lb' (value lb' p' - value lb p) = Done c' /\ health c' LiquidationEnd = Done h /\
    (Fixed.being_liquidated (ma_fixed (lq_liqee (bq_liq a'))) = true <-> h <= - fx_one).
Proof.
  intros Hv E. unfold token_liq_bankruptcy in E.
  apply bind_Done_inv in E as (u1 & C1 & E). apply bind_Done_inv in E as (u2 & _ & E). apply bind_Done_inv in E as (u3 & _ & E).
  apply bind_Done_inv in E as (u4 & C4 & E). apply liqor_checks_inv in C4 as (Hk & Ho & Hf).
  apply bind_Done_inv in E as (r & Er & E). apply bind_Done_inv in E as (c & Ec & E). apply bind_Done_inv in E as ([] & C5 & E).
  apply bind_Done_inv in E as ([[il [lb lop]] quote] & Eb & E). apply bind_Done_inv in E as (u6 & _ & E).
  apply bind_Done_inv in E as ([p raw] & Epos & E). apply bind_Done_inv in E as (v & Ev & E). apply native_value in Ev as ->.
  apply bind_Done_inv in E as (loss & Eloss & E). apply bind_Done_inv in E as (f & Ef & E).
  change (if Mint.elligible_for_group_insurance_fund _ then _ else 0) with (fund a) in *.
  apply bind_Done_inv in E as (n & En & E). pose proof (insurance_payment_le _ _ _ _ _ En) as [Hn Hn0].
  apply bind_Done_inv in E as (i & Ei & E). apply bind_Done_inv in E as (banks & El & E).
  apply bind_Done_inv in E as ([[banks1 p1] act1] & Es & E). apply bind_Done_inv in E as (liqee' & Efin & E). injection E as <- <- <-.
  unfold bankruptcy_constraints in C1. apply bind_Done_inv in C1 as (u7 & _ & C1). apply bind_Done_inv in C1 as (u8 & C1 & _).
  unfold liq_constraints in C1. apply bind_Done_inv in C1 as (u9 & C1 & _). apply require_inv in C1.
  assert (0 <= fund a) by (unfold fund; destruct (Mint.elligible_for_group_insurance_fund _); lia).
  destruct (bankruptcy_banks r _ _ il lb lop quote Eb) as (kl & Kl & Hq).
  destruct (use_insurance_inv a r _ il kl lb quote _ _ _ _ _ i Kl Hq (Hn0 ltac:(done)) Ei) as (Hsame & Hiv & Hqv & Hins).
  cbv zeta. do 4 (split; [done|]). exists r, c. do 3 (split; [done|]).
  exists il, lb, lop, quote, raw, p, loss, f, n. do 3 (split; [done|]). split; [by eapply liab_loss_inv|]. do 2 (split; [done|]).
  split; [auto|]. do 2 (split; [done|]).
  apply finish_liqee_inv in Efin as (k0 & lb0 & c' & h & F1 & F2 & F3 & F5 & F4); [|done].
  exists (ins_retriever i), (ins_position i), (ins_liab_active i), (ins_remaining_liab_loss i), banks,
    (banks_from (ins_retriever i) banks), p1, act1, k0, lb0, c', h.
  split; [done|]. split; [done|]. split; [done|]. split; [|split; [|by split_and!]].
  - destruct (scanning_new_banks _ _ _ _ Er) as [m Hm]. intros k b' Hin.
    apply list_elem_of_fmap in Hin as ([k1 b1] & [= -> ->] & Hin). apply banks_from_elem in Hin as [Hin|Hin].
    + exists b1. split; [|done]. eapply load_banks_elem in Hin; [|done]. by eapply elem_of_take_inv.
    + apply Hsame in Hin as (b & Hin & Hb). exists b. split; [|done]. rewrite Hm in Hin.
      by eapply elem_of_drop_inv, elem_of_take_inv.
  - destruct (_ && _) eqn:Hsoc in Es |- *; [|by injection Es as <- <- <-].
    split; [exact Es|]. apply andb_true_iff in Hsoc as [_ Hr]. eapply loss_socialized; [lia|done].
Qed.

End spec.

(** ** Concrete instances

    The liability token has two banks with 2000 deposited in each. An account without assets
    owes 150 to the first of them, and the insurance fund does not cover the token. *)
Definition lossy_bank : Bank := liab_bank_1 <| bk_indexed_borrows := fx_int 150 |>.
Definition lossy_bank_2 : Bank := (liab_bank_1 <| bk_indexed_borrows := 0 |>) <| bk_bank_num := 1 |>.
Definition lossy_mint : MintInfo := mkMintInfo 1 1 0 2 [21; 22; 0; 0; 0; 0] [3; 3; 0; 0; 0; 0] 6 0 0.

Definition bankrupt_account : MangoAccount :=
  liqee_account <| ma_tokens := [Token.default; position_of 1 (fx_int (-150)); Token.default] |>.

Definition bankruptcy_accounts : BankruptcyAccounts :=
  mkBankruptcyAccounts (mkLiqAccounts 1 (sample_group <| gr_ix_gate := 0 |>) 30 liqor_account 31 bankrupt_account)
    lossy_mint 3 500 4 5 1000.

Definition bankruptcy_ais : list AccountInfo :=
  [(21, ABank lossy_bank); (22, ABank lossy_bank_2)] ++
  [(20, ABank asset_bank_0); (21, ABank lossy_bank); (4, AOracle (stub fx_one)); (6, AOracle (stub fx_one))].

(** Not all banks get the new index. The whole loss of 150 is credited on the first bank, the
    loop ends there, and the second bank keeps its deposit index: its depositors lose
    nothing and all depositors together lose 75, half of the loss, although the new index
    was computed from the deposits of both banks. *)
Theorem socialized_loss_out_of_step :
  exists a' b1 b2 r',
    @token_liq_bankruptcy fixed_ref token_ref bankruptcy_accounts 8 bankruptcy_ais withdraw_clock (fx_int 1000)
      = Done (a', [(21, b1); (22, b2)], r') /\
    bk_deposit_index b1 < fx_one /\ bk_deposit_index b2 = fx_one /\
    let lost b := (fx_one - bk_deposit_index b) * bk_indexed_deposits b / fx_scale in
    lost b1 + lost b2 <= fx_int 75.
Proof.
  eexists _, _, _, _. split; [vm_compute; reflexivity|]. split_and!; vm_compute; congruence.
Qed.

(** The witness of C14: the fund does not cover the token, the whole loss is socialized. *)
Lemma token_bankruptcy_sound_witness :
  exists a' banks' r',
    @token_liq_bankruptcy fixed_ref token_ref bankruptcy_accounts 8 bankruptcy_ais withdraw_clock (fx_int 1000)
      = Done (a', banks', r') /\
    exists banks1 p', loss_shared fx_one (fx_int 150) banks1 banks' p' /\ bq_insurance_vault a' = 1000.
Proof.
  destruct (@token_liq_bankruptcy fixed_ref token_ref bankruptcy_accounts 8 bankruptcy_ais withdraw_clock (fx_int 1000))
    as [[[a' banks'] r']| | |] eqn:E; [|vm_compute in E; discriminate E..].
  exists a', banks', r'. refine (conj eq_refl _).
  destruct (@token_bankruptcy_sound fixed_ref fixed_ref_laws token_ref token_ref_laws bankruptcy_accounts 8 bankruptcy_ais
    withdraw_clock (fx_int 1000) a' banks' r') as (_ & _ & _ & _ & r & c & Er & Ec & _ & il & lb & lop & quote & raw & p & loss &
      f & n & Eb & Ep & El & _ & _ & _ & Hn & Hv & _ & r1 & p1 & act1 & rest & banks & banks1 & p' & act' & k & lb' & c' & h & Hi & _ & _ & _ & Hs & _).
  - vm_compute. congruence.
  - exact E.
  - assert (n = 0) as -> by (change (fund bankruptcy_accounts) with 0 in Hn; lia).
    destruct Hi as (_ & _ & _ & _ & ->).
    vm_compute in Er. injection Er as <-. vm_compute in Ec. injection Ec as <-. vm_compute in Eb. injection Eb as _ <- _ _.
    vm_compute in Ep. injection Ep as <- _. vm_compute in El. injection El as <-.
    exists banks1, p'. exact (conj (proj2 Hs) Hv).
Defined.
