(* ===== verification/MangoAccountSpec.v ===== *)
(** * Mango accounts: what the operations guarantee

    Looking up and creating positions, perp open orders and the lots they reserve, the
    execution of fill and out events, and the liquidation flag (mango_account.rs). *)

From stdpp Require Import base numbers gmap functions list.
From Stdlib Require Import ZArith Lia SpecFloat.
From S2P Require Import Prelude FixedPoint TokenPosition OrderTypes Nodes EventQueue StablePrice HealthType Serum3 ConditionalSwap PerpMarket PerpPosition PerpPositionSpec MangoAccount.

Open Scope Z_scope.

Module AccountSpec.
Import Account.

Lemma perp_position_inv a idx i p :
  perp_position a idx = Done (i, p) ->
  perp_raw_index a idx = Some i /\ ma_perps a !! i = Some p /\ pp_market_index p = idx.
Proof.
  unfold perp_position. destruct (perp_raw_index a idx) as [j|] eqn:E; [|done]. simpl. run.
  unfold perp_raw_index in E. pose proof E as E'. apply position_Some in E' as [(x & Hx & Hf) _].
  rewrite Hx. simpl. run. intros [= <- <-]. split_and!; [done|done|]. by apply Z.eqb_eq.
Qed.

(** Looking the position up again after a change that keeps its market. *)
Lemma perp_position_set a idx i p p' :
  perp_position a idx = Done (i, p) -> pp_market_index p' = idx ->
  perp_position (set_perp a i p') idx = Done (i, p').
Proof.
  intros (Hi & Hp & _)%perp_position_inv Hidx. unfold perp_position, perp_raw_index, set_perp in *. simpl.
  rewrite (position_insert _ _ _ p' Hi) by (by apply Z.eqb_eq). simpl. run.
  by rewrite list_lookup_insert_eq by (apply lookup_lt_is_Some; eauto).
Qed.

Lemma adjust_maker_lots_index p side n p' :
  Perp.adjust_maker_lots p side n = Done p' -> pp_market_index p' = pp_market_index p.
Proof. unfold Perp.adjust_maker_lots. destruct side; intros E; by inv_run. Qed.

(** The lots reserved by open orders on a side. *)
Definition maker_lots (p : PerpPosition) (side : Side) : Z :=
  match side with Bid => pp_bids_base_lots p | Ask => pp_asks_base_lots p end.

Lemma adjust_maker_lots_ok p side n :
  is_i64 (maker_lots p side + n) -> exists p', Perp.adjust_maker_lots p side n = Done p' /\
    maker_lots p' side = maker_lots p side + n /\
    forall k, is_i64 (maker_lots p side) -> n + k = 0 -> Perp.adjust_maker_lots p' side k = Done p.
Proof.
  intros Hr. unfold Perp.adjust_maker_lots, maker_lots in *.
  destruct side; rewrite i64_ok by done; run; (eexists; split; [done|]); (split; [done|]);
    intros k Hp Hk; simpl; rewrite i64_ok by (rewrite <- Z.add_assoc, Hk, Z.add_0_r; done); run;
    f_equal; destruct p; simpl; unfold set_pp_bids_base_lots, set_pp_asks_base_lots, field_update; simpl; f_equal; lia.
Qed.

(** ** Open orders *)

(** The open order [add_perp_order] records. *)
Definition recorded (idx : Z) (side : Side) (tree : BookSideOrderTree) (leaf : LeafNode) : PerpOpenOrder :=
  mkPerpOpenOrder (SideAndTree.new side tree) idx (leaf_client_order_id leaf) (leaf_key leaf) (quantity leaf).

Lemma side_and_tree_new side tree :
  SideAndTree.side (SideAndTree.new side tree) = side /\ SideAndTree.order_tree (SideAndTree.new side tree) = tree.
Proof. by destruct side, tree. Qed.

(** Adding an order to an account's open orders records its id, side, tree and
    quantity in its slot and reserves its quantity; removing it again with the same
    quantity restores the account exactly. *)
Theorem add_remove_perp_order a idx side tree leaf i p :
  let slot := Z.to_nat (owner_slot leaf) in
  perp_position a idx = Done (i, p) -> idx <> FREE_ORDER_SLOT ->
  ma_perp_oos a !! slot = Some OpenOrder.default ->
  is_i64 (maker_lots p side) -> is_i64 (maker_lots p side + quantity leaf) -> is_i64 (- quantity leaf) ->
  exists a' p', add_perp_order a idx side tree leaf = Done a' /\
    perp_order_by_raw_index a' slot = Done (recorded idx side tree leaf) /\
    perp_position a' idx = Done (i, p') /\ maker_lots p' side = maker_lots p side + quantity leaf /\
    remove_perp_order a' slot (quantity leaf) = Done a.
Proof.
  intros slot Hp Hidx Hs Hl Hl' Hq. pose proof (perp_position_inv _ _ _ _ Hp) as (_ & Hi & Ei).
  destruct (adjust_maker_lots_ok p side (quantity leaf) Hl') as (p' & Ea & Em & Eback).
  pose proof (adjust_maker_lots_index _ _ _ _ Ea) as Ei'.
  exists (set_perp_order (set_perp a i p') slot (recorded idx side tree leaf)), p'.
  assert (Hget : forall b, ma_perp_oos (set_perp_order (set_perp a i p') slot b) !! slot = Some b).
  { intros b. simpl. apply list_lookup_insert_eq, lookup_lt_is_Some. eauto. }
  assert (Hpos : perp_position (set_perp_order (set_perp a i p') slot (recorded idx side tree leaf)) idx = Done (i, p')).
  { apply (perp_position_set a idx i p p' Hp). congruence. }
  split_and!.
  - unfold add_perp_order. rewrite Hp. run. rewrite Ea. run. fold slot. simpl. rewrite Hs. done.
  - unfold perp_order_by_raw_index. by rewrite Hget.
  - done.
  - done.
  - unfold remove_perp_order, perp_order_by_raw_index. rewrite Hget. run.
    unfold recorded. simpl oo_market. rewrite (proj2 (Z.eqb_neq idx FREE_ORDER_SLOT) Hidx). cbn [negb require]. run.
    simpl oo_side_and_tree. rewrite (proj1 (side_and_tree_new side tree)). fold (recorded idx side tree leaf).
    rewrite Hpos. run. rewrite i64_ok by done. run. rewrite Eback by (done || lia). run. f_equal.
    unfold set_perp_order, set_perp, set_ma_perp_oos, set_ma_perps. simpl. destruct a as [f ts ps oos]. simpl in *.
    rewrite !list_insert_insert_eq, !list_insert_id by done. done.
Qed.

(** ** Events *)

Section events.
Context `{FixedLaws}.

(** An out event always releases the order's lots of the maker's position, and
    frees the maker's open order slot only if the slot still holds that very order: a
    slot that was freed by a cancel and given to another order in the meantime is left
    alone. Nothing else in the account changes. *)
Theorem out_event_releases a idx side slot qty id i p oo :
  perp_position a idx = Done (i, p) -> ma_perp_oos a !! slot = Some oo ->
  is_i64 (- qty) -> is_i64 (maker_lots p side - qty) ->
  exists a' p', execute_perp_out_event a idx side slot qty id = Done a' /\
    perp_position a' idx = Done (i, p') /\ maker_lots p' side = maker_lots p side - qty /\
    ma_perp_oos a' = (if slot_matches oo idx id then <[slot := OpenOrder.default]> (ma_perp_oos a)
                      else ma_perp_oos a) /\
    (oo_id oo <> id -> id <> 0 -> ma_perp_oos a' = ma_perp_oos a) /\
    ma_fixed a' = ma_fixed a /\ ma_tokens a' = ma_tokens a /\
    forall j, j <> i -> ma_perps a' !! j = ma_perps a !! j.
Proof.
  intros Hp Hs Hq Hl. pose proof (perp_position_inv _ _ _ _ Hp) as (_ & Hi & Ei).
  destruct (adjust_maker_lots_ok p side (- qty)) as (p' & Ea & Em & _); [by rewrite Z.add_opp_r|].
  pose proof (adjust_maker_lots_index _ _ _ _ Ea) as Ei'.
  unfold execute_perp_out_event. rewrite Hp. run. rewrite i64_ok by done. run. rewrite Ea. run.
  simpl ma_perp_oos. rewrite Hs. run. eexists _, p'. split; [done|].
  assert (Eo : forall b : bool, <[slot := if b then OpenOrder.clear oo else oo]> (ma_perp_oos a)
    = if b then <[slot := OpenOrder.default]> (ma_perp_oos a) else ma_perp_oos a).
  { intros []; [done|by apply list_insert_id]. }
  split_and!; try done.
  - apply (perp_position_set a idx i p p' Hp). congruence.
  - apply Eo.
  - intros Hne Hid. simpl. rewrite Eo. unfold slot_matches.
    rewrite (proj2 (Z.eqb_neq id 0) Hid), (proj2 (Z.eqb_neq _ id) Hne). by rewrite andb_false_r.
  - intros j Hj. simpl. by apply list_lookup_insert_ne.
Qed.

Lemma trade_stats_branch_quote p d q p' r i n :
  Perp.trade_stats_branch p d q = Done (p', r, i, n) -> pp_quote_position_native p' = pp_quote_position_native p.
Proof. unfold Perp.trade_stats_branch. intros E. inv_run. repeat case_match; inv_run; done. Qed.

Lemma record_trade_quote p m d q p' m' r :
  Perp.record_trade p m d q = Done (p', m', r) ->
  pp_quote_position_native p' = pp_quote_position_native p + q /\
  pp_market_index p' = pp_market_index p /\ pm_quote_lot_size m' = pm_quote_lot_size m.
Proof.
  unfold Perp.record_trade. intros E. apply bind_Done_inv in E as ([] & _ & E).
  apply bind_Done_inv in E as ([p1 r1] & E1 & E). pose proof (update_trade_stats_base _ _ _ _ _ _ E1) as [_ Hi1].
  assert (Hq1 : pp_quote_position_native p1 = pp_quote_position_native p).
  { unfold Perp.update_trade_stats in E1. destruct (d =? 0); [by inv_run|].
    apply bind_Done_inv in E1 as ([[[p0 r0] i0] n0] & E0 & E1). apply trade_stats_branch_quote in E0. by inv_run. }
  apply bind_Done_inv in E as ([p2 m2] & E2 & E). apply bind_Done_inv in E as (p3 & E3 & E).
  apply bind_Done_inv in E as ([p4 d4] & E4 & E). pose proof (constraint_base _ _ _ _ E4) as (_ & Hi4 & _).
  apply constraint_change in E4 as (_ & Hq4 & _). injection E as <- <- <-.
  unfold Perp.change_base_position in E2. inv_run. unfold Perp.change_quote_position in E3.
  apply bind_Done_inv in E3 as (v & Ev & E3). apply fx_add_inv in Ev as ->. injection E3 as <-. simpl in *.
  split_and!; congruence.
Qed.

Lemma settle_funding_keeps p m p' :
  Perp.settle_funding p m = Done p' ->
  pp_base_position_lots p' = pp_base_position_lots p /\ pp_market_index p' = pp_market_index p.
Proof. unfold Perp.settle_funding. intros E. inv_run. by destruct (0 <? _). Qed.

Lemma record_trading_fee_quote p fee p' :
  Perp.record_trading_fee p fee = Done p' ->
  pp_quote_position_native p' = pp_quote_position_native p - fee /\
  pp_base_position_lots p' = pp_base_position_lots p /\ pp_market_index p' = pp_market_index p.
Proof.
  unfold Perp.record_trading_fee, Perp.change_quote_position. intros E.
  apply bind_Done_inv in E as (n & En & E). apply fx_neg_inv in En as ->.
  apply bind_Done_inv in E as (p1 & E1 & E). apply bind_Done_inv in E1 as (v & Ev & E1).
  apply fx_add_inv in Ev as ->. injection E1 as <-. inv_run. simpl. split_and!; (done || lia).
Qed.

Lemma adjust_maker_lots_keeps p side n p' :
  Perp.adjust_maker_lots p side n = Done p' ->
  pp_base_position_lots p' = pp_base_position_lots p /\ pp_market_index p' = pp_market_index p /\
  pp_quote_position_native p' = pp_quote_position_native p.
Proof. unfold Perp.adjust_maker_lots. destruct side; intros E; by inv_run. Qed.

Lemma fx_product a b c x y :
  fx_from_int a = Done x -> fx_from_int b = Done y -> fx_mul x y = Done c -> c = fx_int (a * b).
Proof.
  intros ->%fx_from_int_inv ->%fx_from_int_inv ->%fx_mul_inv. unfold fx_int.
  replace (a * fx_scale * (b * fx_scale)) with (a * b * fx_scale * fx_scale) by lia. by rewrite Z.div_mul.
Qed.

Definition side_sign (side : Side) : Z := match side with Bid => 1 | Ask => -1 end.

(** The quote value of a fill. *)
Definition fill_value (m : PerpMarket) (f : FillEvent) : Z :=
  fx_int (pm_quote_lot_size m * (fill_price f * fill_quantity f)).

Lemma base_quote_change_val f side b q :
  base_quote_change f side = Done (b, q) ->
  b = side_sign side * fill_quantity f /\ q = - side_sign side * (fill_price f * fill_quantity f).
Proof. unfold base_quote_change. destruct side; intros E; inv_run; simpl; lia. Qed.

(** What an executed fill of [f] on [side] does to a position: from [p] to [p'], with [p1]
    the position after funding is settled and [fees] paid. *)
Definition filled_position (m m' : PerpMarket) (f : FillEvent) (side : Side) (p p1 p' : PerpPosition) (fees : Z) : Prop :=
  Perp.settle_funding p m = Done p1 /\
  pp_base_position_lots p' = pp_base_position_lots p + side_sign side * fill_quantity f /\
  pp_quote_position_native p' = pp_quote_position_native p1 - side_sign side * fill_value m f - fees /\
  pm_open_interest m' - pm_open_interest m
  = Z.abs (pp_base_position_lots p') - Z.abs (pp_base_position_lots p) /\
  pm_quote_lot_size m' = pm_quote_lot_size m.

Lemma fill_value_signed m f side q :
  q = - side_sign side * (fill_price f * fill_quantity f) ->
  fx_int (pm_quote_lot_size m * q) = - side_sign side * fill_value m f.
Proof. intros ->. unfold fill_value, fx_int. lia. Qed.

Lemma execute_perp_taker_ok a idx m f a' m' r :
  execute_perp_taker a idx m f = Done (a', m', r) ->
  exists i p p1 p', perp_position a idx = Done (i, p) /\ perp_position a' idx = Done (i, p') /\
    ma_perps a' = <[i := p']> (ma_perps a) /\ pm_perp_market_index m' = pm_perp_market_index m /\
    filled_position m m' f (fill_taker_side f) p p1 p' 0.
Proof.
  unfold execute_perp_taker. intros E. apply bind_Done_inv in E as ([i p] & Ep & E).
  apply bind_Done_inv in E as (p1 & Es & E). apply bind_Done_inv in E as ([bc qc] & Eb & E).
  apply base_quote_change_val in Eb as [-> Eq]. apply bind_Done_inv in E as (p2 & Er & E).
  apply bind_Done_inv in E as (x & Ex & E). apply bind_Done_inv in E as (y & Ey & E).
  apply bind_Done_inv in E as (v & Ev & E). pose proof (fx_product _ _ _ _ _ Ex Ey Ev) as ->.
  rewrite (fill_value_signed m f _ _ Eq) in *.
  apply bind_Done_inv in E as ([[p3 m3] r3] & Et & E). do 3 apply bind_Done_inv in E as (? & _ & E).
  injection E as <- <- <-. pose proof (record_trade_quote _ _ _ _ _ _ _ Et) as (Hq & Hi & Hl).
  pose proof (record_trade_market _ _ _ _ _ _ _ Et) as Hm.
  apply record_trade_base in Et as (Hb & Ho & _). pose proof (settle_funding_keeps _ _ _ Es) as [Hb1 Hi1].
  unfold Perp.remove_taker_trade in Er. inv_run. simpl in *.
  pose proof (perp_position_inv _ _ _ _ Ep) as (_ & _ & Ei).
  eexists i, p, p1, _. split_and!; [done|eapply perp_position_set; [done|simpl; congruence]|done|by rewrite Hm|].
  split_and!; simpl; [done|lia|lia|lia|done].
Qed.

Lemma execute_perp_maker_ok a now_ts idx m f interval a' m' r :
  execute_perp_maker a now_ts idx m f interval = Done (a', m', r) ->
  exists i p p1 p' mf, perp_position a idx = Done (i, p) /\ perp_position a' idx = Done (i, p') /\
    ma_perps a' = <[i := p']> (ma_perps a) /\ pm_perp_market_index m' = pm_perp_market_index m /\
    fx_from_f32 (fill_maker_fee f) = Done mf /\
    filled_position m m' f (invert_side (fill_taker_side f)) p p1 p' (Z.abs (fill_value m f) * mf / fx_scale).
Proof.
  unfold execute_perp_maker. set (side := invert_side (fill_taker_side f)). intros E.
  apply bind_Done_inv in E as ([bc qc] & Eb & E). apply base_quote_change_val in Eb as [-> Eq].
  apply bind_Done_inv in E as (x & Ex & E). apply bind_Done_inv in E as (y & Ey & E).
  apply bind_Done_inv in E as (v & Ev & E). pose proof (fx_product _ _ _ _ _ Ex Ey Ev) as ->.
  rewrite (fill_value_signed m f _ _ Eq) in *.
  apply bind_Done_inv in E as (qa & Eqa & E). apply fx_abs_inv in Eqa as ->.
  apply bind_Done_inv in E as (mf & Emf & E). apply bind_Done_inv in E as (fees & Ef & E). apply fx_mul_inv in Ef as ->.
  replace (Z.abs (- side_sign side * fill_value m f)) with (Z.abs (fill_value m f)) in * by (destruct side; simpl; lia).
  apply bind_Done_inv in E as (a1 & Ea & E).
  assert (Hperps : ma_perps a1 = ma_perps a).
  { destruct (0 <? _); [|by injection Ea as <-]. do 3 apply bind_Done_inv in Ea as (? & _ & Ea). by injection Ea as <-. }
  apply bind_Done_inv in E as ([i p] & Ep & E). apply bind_Done_inv in E as (p1 & Es & E).
  apply bind_Done_inv in E as (p2 & Et & E). apply bind_Done_inv in E as ([[p3 m3] r3] & Er & E).
  do 5 apply bind_Done_inv in E as (? & _ & E). apply bind_Done_inv in E as (p4 & Em & E).
  do 2 apply bind_Done_inv in E as (? & _ & E). injection E as <- <- <-.
  pose proof (settle_funding_keeps _ _ _ Es) as [Hb1 Hi1].
  pose proof (record_trading_fee_quote _ _ _ Et) as (Hq2 & Hb2 & Hi2).
  pose proof (record_trade_quote _ _ _ _ _ _ _ Er) as (Hq & Hi & Hl).
  pose proof (record_trade_market _ _ _ _ _ _ _ Er) as Hm. apply record_trade_base in Er as (Hb & Ho & _).
  apply adjust_maker_lots_keeps in Em as (Hb4 & Hi4 & Hq4). simpl in Hb4, Hi4, Hq4.
  pose proof (perp_position_inv _ _ _ _ Ep) as (_ & _ & Ei).
  exists i, p, p1, p4, mf. split_and!; [| | | |done|].
  - unfold perp_position, perp_raw_index in *. by rewrite <- Hperps.
  - eapply (perp_position_set a1); [exact Ep|congruence].
  - simpl. by rewrite Hperps.
  - by rewrite Hm.
  - split_and!; [done|lia|lia|lia|done].
Qed.

(** Executing a fill on the maker's and the taker's account moves the filled base
    lots from one position to the other and their exact quote value back; apart from
    funding, which both settle first, the only quote that leaves the two accounts is the
    maker fee, and the open interest changes by what the two positions change. *)
Theorem fill_transfers maker taker now_ts idx m f interval maker' taker' m1 m2 r1 r2 :
  execute_perp_maker maker now_ts idx m f interval = Done (maker', m1, r1) ->
  execute_perp_taker taker idx m1 f = Done (taker', m2, r2) ->
  exists i pm pm1 pm' j pt pt1 pt' mf,
    perp_position maker idx = Done (i, pm) /\ perp_position maker' idx = Done (i, pm') /\
    perp_position taker idx = Done (j, pt) /\ perp_position taker' idx = Done (j, pt') /\
    Perp.settle_funding pm m = Done pm1 /\ Perp.settle_funding pt m1 = Done pt1 /\
    fx_from_f32 (fill_maker_fee f) = Done mf /\
    pp_base_position_lots pt' = pp_base_position_lots pt + side_sign (fill_taker_side f) * fill_quantity f /\
    pp_base_position_lots pm' + pp_base_position_lots pt' = pp_base_position_lots pm + pp_base_position_lots pt /\
    pp_quote_position_native pt' = pp_quote_position_native pt1 - side_sign (fill_taker_side f) * fill_value m f /\
    pp_quote_position_native pm' + pp_quote_position_native pt'
    = pp_quote_position_native pm1 + pp_quote_position_native pt1 - Z.abs (fill_value m f) * mf / fx_scale /\
    pm_open_interest m2 - pm_open_interest m
    = Z.abs (pp_base_position_lots pm') - Z.abs (pp_base_position_lots pm)
      + (Z.abs (pp_base_position_lots pt') - Z.abs (pp_base_position_lots pt)).
Proof.
  intros (i & pm & pm1 & pm' & mf & P1 & P2 & _ & _ & Emf & F1 & F2 & F3 & F4 & F5)%execute_perp_maker_ok
    (j & pt & pt1 & pt' & P3 & P4 & _ & _ & G1 & G2 & G3 & G4 & _)%execute_perp_taker_ok.
  assert (Ev : fill_value m1 f = fill_value m f) by (unfold fill_value; by rewrite F5).
  rewrite Ev in G3. exists i, pm, pm1, pm', j, pt, pt1, pt', mf.
  assert (Hs : side_sign (invert_side (fill_taker_side f)) = - side_sign (fill_taker_side f)) by by destruct (fill_taker_side f).
  rewrite Hs in F2, F3. split_and!; try done; lia.
Qed.

End events.

(** ** Token positions *)

Definition count_active (ts : list TokenPosition) : nat :=
  length (filter (fun t => Token.is_active t = true) ts).

Lemma count_active_cons t ts :
  count_active (t :: ts) = ((if Token.is_active t then 1 else 0) + count_active ts)%nat.
Proof.
  unfold count_active. rewrite filter_cons. destruct (Token.is_active t); simpl; done.
Qed.

(** The loop finds the position of the token, or else the first unused one. *)
Lemma match_or_free_token_ok ti : ti <> TOKEN_INDEX_MAX -> forall ts r k acc,
  let at_ i := (r + i, k + count_active (take i ts))%nat in
  match_or_free_token ts ti r k acc
  = match position (fun t => Token.is_active_for_token t ti) ts with
    | Some i => Some (at_ i)
    | None =>
        match acc with
        | Some x => Some x
        | None => at_ <$> position (fun t => negb (Token.is_active t)) ts
        end
    end.
Proof.
  intros Hti. induction ts as [|t ts IH]; intros r k acc at_; simpl; [by destruct acc|].
  destruct (Token.is_active_for_token t ti) eqn:E1; [unfold at_; simpl; by rewrite !Nat.add_0_r|].
  destruct (Token.is_active t) eqn:E2; cbn [negb]; rewrite IH;
    (destruct (position (fun t => Token.is_active_for_token t ti) ts) as [i|]; simpl;
      [unfold at_; cbn [take]; rewrite count_active_cons, E2; do 2 f_equal; lia|]).
  - destruct acc; [done|]. destruct (position _ ts) as [i|]; simpl; [|done].
    unfold at_. cbn [take]. rewrite count_active_cons, E2. do 2 f_equal; lia.
  - destruct acc; [done|]. simpl. unfold at_. simpl. by rewrite !Nat.add_0_r.
Qed.

(** Every token has at most one position. *)
Definition tokens_unique (ts : list TokenPosition) : Prop :=
  forall i j t u, ts !! i = Some t -> ts !! j = Some u -> Token.is_active t = true ->
    tp_token_index t = tp_token_index u -> i = j.

Lemma tokens_unique_insert ts i t :
  tokens_unique ts -> (forall j u, j <> i -> ts !! j = Some u -> tp_token_index u <> tp_token_index t) ->
  tokens_unique (<[i := t]> ts).
Proof.
  intros U Hn j1 j2 t1 t2 H1 H2 Ha E.
  destruct (decide (j1 = i)) as [->|N1], (decide (j2 = i)) as [->|N2]; [done| | |].
  - rewrite list_lookup_insert_ne in H2 by done. pose proof (lookup_lt_Some _ _ _ H1) as L.
    rewrite length_insert in L. rewrite list_lookup_insert_eq in H1 by done. injection H1 as ->. edestruct Hn; eauto.
  - rewrite list_lookup_insert_ne in H1 by done. pose proof (lookup_lt_Some _ _ _ H2) as L.
    rewrite length_insert in L. rewrite list_lookup_insert_eq in H2 by done. injection H2 as ->. edestruct Hn; eauto.
  - rewrite list_lookup_insert_ne in H1, H2 by done. eauto.
Qed.

(** [ensure_token_position] returns the raw index of a position for the token and
    the number of active positions before it. It keeps at most one position per token
    and changes nothing if the token already has one; otherwise it starts a fresh
    position in the first unused slot, leaving all others, and it fails exactly when
    there is neither. *)
Theorem ensure_token_position_unique a ti :
  ti <> TOKEN_INDEX_MAX -> tokens_unique (ma_tokens a) ->
  match ensure_token_position a ti with
  | Done (a', raw, active) =>
      tokens_unique (ma_tokens a') /\
      (exists t, ma_tokens a' !! raw = Some t /\ tp_token_index t = ti) /\
      active = count_active (take raw (ma_tokens a')) /\
      (forall j, j <> raw -> ma_tokens a' !! j = ma_tokens a !! j) /\
      ((exists i t, ma_tokens a !! i = Some t /\ tp_token_index t = ti) -> a' = a)
  | Fail e =>
      e = EMango NoFreeTokenPositionIndex /\
      forall i t, ma_tokens a !! i = Some t -> Token.is_active t = true /\ tp_token_index t <> ti
  | _ => False
  end.
Proof.
  intros Hti U. unfold ensure_token_position. rewrite match_or_free_token_ok by done.
  destruct (position (fun t => Token.is_active_for_token t ti) (ma_tokens a)) as [i|] eqn:E1.
  - apply position_Some in E1 as [(t & Ht & Hf) _]. simpl. rewrite Ht. run. rewrite Hf. simpl.
    rewrite (list_insert_id _ _ _ Ht). apply Z.eqb_eq in Hf. split_and!; try done; [eauto|].
    intros _. unfold set_token, set_ma_tokens. rewrite (list_insert_id _ _ _ Ht). by destruct a.
  - simpl. rewrite position_None in E1. unfold Token.is_active_for_token in E1.
    destruct (position (fun t => negb (Token.is_active t)) (ma_tokens a)) as [i|] eqn:E2; simpl.
    + apply position_Some in E2 as [(t & Ht & Hf) _]. rewrite Ht. run.
      unfold Token.is_active_for_token. rewrite (E1 _ _ Ht). simpl.
      assert (Hlt : (i < length (ma_tokens a))%nat) by (apply lookup_lt_is_Some; eauto).
      split_and!.
      * apply tokens_unique_insert; [done|]. intros j u _ Hu. simpl. by apply Z.eqb_neq, (E1 j).
      * eexists. split; [by apply list_lookup_insert_eq|done].
      * by rewrite take_insert_ge by done.
      * intros j Hj. by apply list_lookup_insert_ne.
      * intros (j & u & Hu & Eu). specialize (E1 j u Hu). bool_to_prop. done.
    + rewrite position_None in E2. split; [done|]. intros i t Ht. split.
      * specialize (E2 i t Ht). by apply negb_false_iff in E2.
      * by apply Z.eqb_neq, (E1 i).
Qed.

(** ** The liquidation flag *)

Definition flagged (a : MangoAccount) : bool := Fixed.being_liquidated (ma_fixed a).

(** The liquidation flag, for any source of healths that returns. [check_liquidatable]
    flags an account when its maint health is negative, and clears the flag when its
    liquidation-end health is above -1. A flagged account passes [check_health_pre] only if
    its init or liquidation-end health is above -1; the flag is then cleared. *)
Theorem liquidation_flag {C} `{HealthSource C} a (c : C) hi hm hl :
  health_of c Init = Done hi -> health_of c Maint = Done hm -> health_of c LiquidationEnd = Done hl ->
  exists a1 r, check_liquidatable a c = Done (a1, r) /\
  (r = Liquidatable <-> flagged a1 = true) /\
  (flagged a = false -> (flagged a1 = true <-> hm < 0)) /\
  (flagged a = true -> (flagged a1 = true <-> hl <= - fx_one)) /\
  match check_health_pre a c with
  | Done (a2, pre) => pre = hi /\ flagged a2 = false /\ (flagged a = false -> a2 = a) /\
  (flagged a = true -> - fx_one < hi \/ - fx_one < hl)
  | Fail e => e = EMango BeingLiquidated /\ flagged a = true /\ hi <= - fx_one /\ hl <= - fx_one
  | _ => False
  end.
Proof.
  intros Ei Em El.
  assert (Hc : forall b, Fixed.being_liquidated (Fixed.set_being_liquidated (ma_fixed a) b) = b)
    by (intros []; done).
  unfold check_liquidatable, check_health_pre, check_health_pre_checks,
    Fixed.maybe_recover_from_being_liquidated, flagged. rewrite Ei, Em, El. run.
  destruct a as [f ts ss ps oos tc]. simpl in *.
  destruct (Fixed.being_liquidated f) eqn:Ef; simpl.
  - destruct (Z.ltb_spec (- fx_one) hl), (Z.ltb_spec (- fx_one) hi); simpl;
      eexists _, _; (split; [done|]);
      rewrite ?Ef, ?Hc; simpl; rewrite ?Ef, ?Hc; simpl; rewrite ?Ef; simpl; repeat split; intros; try discriminate; try lia; auto.
  - rewrite Ef. simpl. destruct (Z.leb_spec 0 hm); simpl; eexists _, _; (split; [done|]);
      simpl; rewrite ?Ef, ?Hc; repeat split; intros; try discriminate; try lia; auto.
Qed.

(** A concrete instance: an account whose init health is negative and whose maint health is not. *)
Lemma liquidation_flag_witness :
  exists a1 r, check_liquidatable account_default (mkHealths (-5) 7 0) = Done (a1, r) /\
    flagged a1 = false.
Proof.
  destruct (liquidation_flag account_default (mkHealths (-5) 7 0) (-5) 7 0 eq_refl eq_refl eq_refl)
    as (a1 & r & E & _ & H & _).
  exists a1, r. split; [exact E|]. destruct (flagged a1) eqn:F; [|reflexivity].
  destruct (H eq_refl) as [H1 _]. discriminate (H1 eq_refl).
Defined.

(** An account whose liquidation-end health is above -1 while its maint health is still
    negative is flagged and cleared by alternate checks. *)
Theorem liquidation_flag_oscillates {C} `{HealthSource C} a (c : C) hm hl :
  health_of c Maint = Done hm -> health_of c LiquidationEnd = Done hl -> - fx_one < hl -> hm < 0 ->
  exists a1 r, check_liquidatable a c = Done (a1, r) /\ flagged a1 = negb (flagged a).
Proof.
  intros Em El Hl Hm. unfold check_liquidatable, Fixed.maybe_recover_from_being_liquidated, flagged.
  rewrite Em, El. run. destruct (Fixed.being_liquidated (ma_fixed a)) eqn:E; simpl.
  - rewrite (proj2 (Z.ltb_lt _ _) Hl). simpl. by eexists _, _.
  - rewrite (proj2 (Z.leb_gt _ _) Hm). by eexists _, _.
Qed.

(** ** Concrete instances *)

(** An account with a flat position in market 0 and two free order slots. *)
Definition sample_account : MangoAccount :=
  mkMangoAccount (fixed_default <| af_owner := 3 |>)
    [Token.default; set_tp_token_index Token.default 5; Token.default] []
    [set_pp_market_index perp_position_default 0] [OpenOrder.default; OpenOrder.default] [].

Definition sample_maker_order : LeafNode := leaf_new 1 1234 3 6 1000 Limit 0 (-1) 42.

(** A concrete instance: a bid of 6 lots in slot 1. *)
Lemma add_remove_perp_order_witness :
  exists a', add_perp_order sample_account 0 Bid Fixed sample_maker_order = Done a' /\
    perp_order_by_raw_index a' 1 = Done (mkPerpOpenOrder BidFixed 0 42 1234 6) /\
    remove_perp_order a' 1 6 = Done sample_account.
Proof.
  destruct (add_remove_perp_order sample_account 0 Bid Fixed sample_maker_order 0
    (set_pp_market_index perp_position_default 0)) as (a' & p' & E1 & E2 & _ & _ & E3).
  - vm_compute. reflexivity.
  - discriminate.
  - vm_compute. reflexivity.
  - split; vm_compute; congruence.
  - split; vm_compute; congruence.
  - split; vm_compute; congruence.
  - exists a'. split; [exact E1|]. split; [exact E2|exact E3].
Defined.

(** The account after the order was placed. *)
Definition placed_account : MangoAccount :=
  match add_perp_order sample_account 0 Bid Fixed sample_maker_order with Done a => a | _ => sample_account end.

(** A concrete instance: an out event of another order that used slot 1 before. *)
Lemma out_event_releases_witness :
  exists a', execute_perp_out_event placed_account 0 Bid 1 2 777 = Done a' /\
    ma_perp_oos a' = ma_perp_oos placed_account.
Proof.
  destruct (perp_position placed_account 0) as [[i p]| | |] eqn:Ep; [|vm_compute in Ep; discriminate Ep..].
  destruct (out_event_releases placed_account 0 Bid 1 2 777 i p (mkPerpOpenOrder BidFixed 0 42 1234 6))
    as (a' & p' & E & _ & _ & _ & Hs & _).
  - exact Ep.
  - vm_compute. reflexivity.
  - split; vm_compute; congruence.
  - vm_compute in Ep. injection Ep as <- <-. split; vm_compute; congruence.
  - exists a'. split; [exact E|]. apply Hs; vm_compute; discriminate.
Defined.

(** A fill of 4 lots at 75 on the bid of the sample account, by a selling taker. *)
Definition sample_fill : FillEvent :=
  mkFillEvent Ask false 1 1000 1 3 900 8 0 1234 75 4 42 (f32_ratio 1 8) (f32_ratio 1 8).

(** A concrete instance: that fill on its maker and its taker. *)
Lemma fill_transfers_witness :
  exists maker' taker' m1 m2 r1 r2 i j pm' pt',
    @execute_perp_maker fixed_ref placed_account 1000 0 flat_market sample_fill 0 = Done (maker', m1, r1) /\
    @execute_perp_taker fixed_ref sample_account 0 m1 sample_fill = Done (taker', m2, r2) /\
    perp_position maker' 0 = Done (i, pm') /\ perp_position taker' 0 = Done (j, pt') /\
    pp_base_position_lots pm' + pp_base_position_lots pt' = 0.
Proof.
  destruct (@execute_perp_maker fixed_ref placed_account 1000 0 flat_market sample_fill 0) as [[[mk m1] r1]| | |] eqn:E1;
    [|vm_compute in E1; discriminate E1..].
  destruct (@execute_perp_taker fixed_ref sample_account 0 m1 sample_fill) as [[[tk m2] r2]| | |] eqn:E2;
    [|vm_compute in E1; injection E1 as <- <- <-; vm_compute in E2; discriminate E2..].
  destruct (@fill_transfers fixed_ref fixed_ref_laws placed_account sample_account 1000 0 flat_market sample_fill 0
    mk tk m1 m2 r1 r2 E1 E2) as (i & pm & pm1 & pm' & j & pt & pt1 & pt' & mf & P1 & P2 & P3 & P4 & _ & _ & _ & _ & Hb & _).
  exists mk, tk, m1, m2, r1, r2, i, j, pm', pt'. split; [reflexivity|]. split; [exact E2|].
  split; [exact P2|]. split; [exact P4|]. rewrite Hb.
  vm_compute in P1. injection P1 as _ <-. vm_compute in P3. injection P3 as _ <-. reflexivity.
Defined.

(** A concrete instance: a new token uses the first slot, before the active one. *)
Lemma ensure_token_position_unique_witness :
  exists a', ensure_token_position sample_account 7 = Done (a', 0%nat, 0%nat) /\ tokens_unique (ma_tokens a').
Proof.
  assert (U : tokens_unique (ma_tokens sample_account)).
  { intros i j t u Hi Hj Ha He. destruct i as [|[|[|i]]]; [| | |discriminate Hi];
      (destruct j as [|[|[|j]]]; [| | |discriminate Hj]); injection Hi as <-; injection Hj as <-;
      vm_compute in Ha, He; first [reflexivity | discriminate]. }
  pose proof (ensure_token_position_unique sample_account 7 ltac:(vm_compute; discriminate) U) as P.
  destruct (ensure_token_position sample_account 7) as [[[a' raw] act]| | |] eqn:E;
    [|vm_compute in E; discriminate E..].
  exists a'. destruct P as [P _]. split; [|exact P].
  assert (Ei : (raw, act) = (0%nat, 0%nat)) by (vm_compute in E; injection E as _ <- <-; reflexivity).
  injection Ei as -> ->. reflexivity.
Defined.

End AccountSpec.
