(* ===== verification/BookMatch.v ===== *)
(** * Matching a new order

    The matching loop of [Orderbook::new_order] (book.rs) against a trace of what
    happens to each opposing order: filled, dropped from the book, or passed over. *)

From stdpp Require Import base numbers gmap sorting functions list.
From Stdlib Require Import ZArith Lia SpecFloat.
From S2P Require Import Prelude FixedPoint TokenPosition OrderTypes Nodes OrderTree OrderTreeSpec OrderTreeInsert OrderTreeIter EventQueue BookSide BookSideSpec BookSideIterate BookSideQueries Orders StablePrice PerpMarket PerpPosition MangoAccount Book.

Open Scope Z_scope.

(** ** Traces *)

(** What the loop does with an opposing order. *)
Inductive Action :=
| Filled (q : Z)
| Dropped
| Passed.

Abbreviation acted := (BookSideIterItem * Action)%type.

Definition act_base (a : acted) : Z := match a.2 with Filled q => q | _ => 0 end.

Definition act_quote (a : acted) : Z := act_base a * item_price_lots a.1.

Definition act_fill (a : acted) : Z := match a.2 with Filled _ => 1 | _ => 0 end.

(** An invalid order that is dropped. *)
Definition act_expire (a : acted) : Z :=
  match a.2 with Dropped => if item_is_valid a.1 then 0 else 1 | _ => 0 end.

Fixpoint total (f : acted -> Z) (acts : list acted) : Z :=
  match acts with [] => 0 | a :: acts => f a + total f acts end.

Definition act_delete (a : acted) : list (BookSideOrderTree * Z) :=
  let gone := [(item_tree a.1, leaf_key (item_node a.1))] in
  match a.2 with
  | Filled q => if q =? item_qty a.1 then gone else []
  | Dropped => gone
  | Passed => []
  end.

Definition act_change (a : acted) : list (BookSideOrderHandle * Z) :=
  match a.2 with
  | Filled q => if q =? item_qty a.1 then [] else [(item_handle a.1, item_qty a.1 - q)]
  | _ => []
  end.

Section matching.
Context `{FixedOps} (order : Order.Order) (m : PerpMarket) (pk : Pubkey) (now_ts price_lots : Z).

(** The order belongs to the taker. *)
Definition own (x : BookSideIterItem) : bool := pk =? owner (item_node x).

Definition act_own (f : acted -> Z) (a : acted) : Z := if own a.1 then f a else 0.

Definition fill_fee (x : BookSideIterItem) (fee : Z) : Z := if own x then 0 else fee.

(** The event of an action, when it is the event number [seq]. *)
Definition act_event (seq : Z) (a : acted) : list AnyEvent :=
  let l := item_node a.1 in
  match a.2 with
  | Filled q =>
      [AFill (fill_new (Order.side order) (q =? item_qty a.1) (owner_slot l) now_ts seq (owner l)
         (leaf_key l) (leaf_client_order_id l) (fill_fee a.1 (pm_maker_fee m)) (timestamp l) pk
         (Order.client_order_id order) (fill_fee a.1 (pm_taker_fee m)) (item_price_lots a.1) q)]
  | Dropped => [AOut (from_leaf_node (invert_side (Order.side order)) now_ts seq l)]
  | Passed => []
  end.

Fixpoint act_events (seq : Z) (acts : list acted) : list AnyEvent :=
  match acts with
  | [] => []
  | a :: acts =>
      act_event seq a ++ act_events (seq + Z.of_nat (length (act_event seq a))) acts
  end.

(** A valid order at a price the new order accepts. *)
Definition crosses (x : BookSideIterItem) : Prop :=
  item_is_valid x = true /\
  is_price_within_limit (Order.side order) (item_price_lots x) price_lots = true.

(** When an action is allowed. *)
Definition act_ok (a : acted) : Prop :=
  match a.2 with
  | Filled q =>
      0 < q <= item_qty a.1 /\ crosses a.1 /\ Order.is_post_only order = false /\
      (own a.1 = true -> Order.self_trade_behavior order = DecrementTake)
  | Dropped =>
      item_is_valid a.1 = false \/
      crosses a.1 /\ own a.1 = true /\ Order.self_trade_behavior order = CancelProvide
  | Passed => item_is_valid a.1 = false
  end.

(** Actions are taken only while base and quote lots remain, and fills are as large as
    the two budgets and the opposing order allow. *)
Fixpoint greedy (rb rq : Z) (acts : list acted) : Prop :=
  match acts with
  | [] => True
  | a :: acts =>
      0 < rb /\ 0 < rq /\ act_ok a /\
      match a.2 with
      | Filled q => q = Z.min (Z.min rb (item_qty a.1)) (rq / item_price_lots a.1)
      | _ => True
      end /\ greedy (rb - act_base a) (rq - act_quote a) acts
  end.

(** The state [s'] of the loop is [s] after the actions [acts]. *)
Record match_inv (s s' : MatchState) (acts : list acted) : Prop := {
  mi_base : remaining_base_lots s' = remaining_base_lots s - total act_base acts;
  mi_quote : remaining_quote_lots s' = remaining_quote_lots s - total act_quote acts;
  mi_dbase : decremented_base_lots s' = decremented_base_lots s + total (act_own act_base) acts;
  mi_dquote : decremented_quote_lots s' = decremented_quote_lots s + total (act_own act_quote) acts;
  mi_limit : ms_limit s' = ms_limit s - total act_fill acts;
  mi_dropped : number_of_dropped_expired_orders s'
    = number_of_dropped_expired_orders s + total act_expire acts;
  mi_change : orders_to_change s' = orders_to_change s ++ (acts ≫= act_change);
  mi_delete : orders_to_delete s' = orders_to_delete s ++ (acts ≫= act_delete);
  mi_events : contents (ms_queue s') = contents (ms_queue s) ++ act_events (q_seq_num (ms_queue s)) acts;
  mi_seq : q_seq_num (ms_queue s')
    = q_seq_num (ms_queue s) + Z.of_nat (length (act_events (q_seq_num (ms_queue s)) acts))
}.

(** Why the loop ends before the orders [rest], and whether the order may still be
    posted. *)
Definition stopped (s s' : MatchState) (rest : list BookSideIterItem) : Prop :=
  match rest with
  | [] => ms_post_target s' = ms_post_target s
  | x :: _ =>
      (remaining_base_lots s' = 0 \/ remaining_quote_lots s' = 0) /\ ms_post_target s' = ms_post_target s \/
      item_is_valid x = true /\
        is_price_within_limit (Order.side order) (item_price_lots x) price_lots = false /\
        ms_post_target s' = ms_post_target s \/
      crosses x /\ (Order.is_post_only order = true \/ ms_limit s' = 0) /\ ms_post_target s' = None \/
      crosses x /\ remaining_quote_lots s' < item_price_lots x /\ ms_post_target s' = ms_post_target s
  end.

(** The ranges the loop keeps, with [n] orders to go. *)
Record ms_ok (n : nat) (s : MatchState) : Prop := {
  mo_base : 0 <= remaining_base_lots s;
  mo_quote : 0 <= remaining_quote_lots s;
  mo_dbase : 0 <= decremented_base_lots s;
  mo_dquote : 0 <= decremented_quote_lots s;
  mo_base_sum : remaining_base_lots s + decremented_base_lots s <= I64_MAX;
  mo_quote_sum : remaining_quote_lots s + decremented_quote_lots s <= I64_MAX;
  mo_limit : is_u8 (ms_limit s);
  mo_queue : queue_inv (ms_queue s);
  mo_seq : q_seq_num (ms_queue s) + Z.of_nat n <= U64_MAX
}.

(** Quantities and prices of opposing orders. *)
Definition item_ranges (x : BookSideIterItem) : Prop :=
  0 < item_qty x <= I64_MAX /\ 1 <= item_price_lots x <= I64_MAX.

(** ** One step *)

Definition queue_is_full (q : EventQueue) : Prop := q_count q = Z.of_nat MAX_NUM_EVENTS.

Lemma push_event_ok q e :
  queue_inv q -> q_seq_num q < U64_MAX ->
  (queue_is_full q /\ push_event q e = Panic) \/
  exists q', push_event q e = Done q' /\ queue_inv q' /\ contents q' = contents q ++ [e] /\
    q_seq_num q' = q_seq_num q + 1.
Proof.
  intros I Hs. pose proof (push_back_ok q e I Hs) as P. unfold push_event, queue_is_full.
  case_decide as D.
  - left. split; [done|]. by rewrite P.
  - right. destruct P as (q' & -> & I' & C & S & _). run. eauto.
Qed.

(** Evaluates the totals of a one-action trace. *)
Ltac one_act := unfold act_own, act_quote, act_base, act_fill, act_change, act_delete, item_tree; simpl;
  rewrite ?app_nil_r; simpl.

Lemma drop_opposing_ok n s x dropped :
  ms_ok (S n) s ->
  dropped = number_of_dropped_expired_orders s + act_expire (x, Dropped) ->
  let r := drop_opposing (invert_side (Order.side order)) now_ts s x dropped in
  (queue_is_full (ms_queue s) /\ r = Panic) \/
  exists s', r = Done s' /\ match_inv s s' [(x, Dropped)] /\ ms_ok n s' /\
    ms_post_target s' = ms_post_target s.
Proof.
  intros O -> r. destruct O. unfold r, drop_opposing.
  destruct (push_event_ok (ms_queue s) (AOut (from_leaf_node (invert_side (Order.side order)) now_ts
    (q_seq_num (ms_queue s)) (item_node x)))) as [[F ->] | (q' & -> & I' & C & S)]; [done|lia|by left|].
  right. run. eexists. split; [done|]. split_and!; [| |done]; constructor; simpl; try done; try lia.
  all: one_act; rewrite ?C; try (destruct (own x)); (done || lia).
Qed.

Lemma fill_opposing_ok n s x :
  let q := Z.min (Z.min (remaining_base_lots s) (item_qty x)) (remaining_quote_lots s / item_price_lots x) in
  let a := (x, Filled q) in
  let r := fill_opposing order m pk now_ts s x q (q * item_price_lots x) (own x)
    (decremented_base_lots s + act_own act_base a) (decremented_quote_lots s + act_own act_quote a) in
  ms_ok (S n) s -> item_ranges x -> 0 < q -> ms_limit s <> 0 ->
  (queue_is_full (ms_queue s) /\ r = Panic) \/
  exists s', r = Done s' /\ match_inv s s' [a] /\ ms_ok n s' /\ ms_post_target s' = ms_post_target s.
Proof.
  intros q a r O [Hq Hp] Hq0 Hl. destruct O.
  assert (Hqp : 0 < q * item_price_lots x <= remaining_quote_lots s).
  { pose proof (Z.mul_div_le (remaining_quote_lots s) (item_price_lots x)). subst q. nia. }
  unfold r, fill_opposing. fold (item_qty x).
  rewrite (i64_ok (remaining_base_lots s - q)) by (subst q; mlia). run.
  rewrite (i64_ok (remaining_quote_lots s - q * item_price_lots x)) by mlia. run.
  rewrite (proj2 (Z.leb_le 0 (remaining_quote_lots s - q * item_price_lots x))) by lia. run.
  cbn [assert_]. run. rewrite (i64_ok (item_qty x - q)) by (subst q; mlia). run.
  assert (Eo : (item_qty x - q =? 0) = (q =? item_qty x))
    by (destruct (Z.eqb_spec (item_qty x - q) 0), (Z.eqb_spec q (item_qty x)); lia).
  rewrite Eo. match goal with |- context [push_event ?q ?e] =>
    destruct (push_event_ok q e) as [[F ->] | (q' & -> & I' & C & S)] end; [done|lia|by left|].
  right. run. rewrite u8_ok by mlia. run. eexists. split; [done|].
  split_and!; [| |done]; constructor; simpl; try done; try lia.
  all: one_act; rewrite ?C; try done.
  all: try (destruct (q =? item_qty x); by rewrite ?app_nil_r).
  all: unfold act_expire; simpl; destruct (own x); subst q; mlia.
Qed.

(** What a step of the loop gives: it stops, acts on the order, finds a self trade it
    must not make, or finds the event queue full. *)
Definition step_post (n : nat) (s : MatchState) (x : BookSideIterItem)
    (r : outcome (flow MatchState MatchState)) : Prop :=
  (exists s', r = Done (Break s') /\ (s' = s \/ s' = no_post s) /\ stopped s s' [x]) \/
  (exists s' a, r = Done (Continue s') /\ a.1 = x /\ match_inv s s' [a] /\
    greedy (remaining_base_lots s) (remaining_quote_lots s) [a] /\
    (a.2 = Passed -> DROP_EXPIRED_ORDER_LIMIT <= number_of_dropped_expired_orders s) /\
    (act_expire a = 1 -> number_of_dropped_expired_orders s < DROP_EXPIRED_ORDER_LIMIT) /\
    ms_ok n s' /\ ms_post_target s' = ms_post_target s) \/
  (r = Fail (EMango WouldSelfTrade) /\ crosses x /\ own x = true /\
    Order.self_trade_behavior order = AbortTransaction) \/
  (r = Panic /\ queue_is_full (ms_queue s)).

Lemma match_inv_nil s s' :
  s' = s \/ s' = no_post s -> match_inv s s' [].
Proof. intros [-> | ->]; constructor; simpl; rewrite ?app_nil_r; (done || lia). Qed.

Lemma step_continue n s x act (r : outcome MatchState) :
  ((queue_is_full (ms_queue s) /\ r = Panic) \/
   exists s', r = Done s' /\ match_inv s s' [(x, act)] /\ ms_ok n s' /\
     ms_post_target s' = ms_post_target s) ->
  greedy (remaining_base_lots s) (remaining_quote_lots s) [(x, act)] ->
  (act = Passed -> DROP_EXPIRED_ORDER_LIMIT <= number_of_dropped_expired_orders s) ->
  (act_expire (x, act) = 1 -> number_of_dropped_expired_orders s < DROP_EXPIRED_ORDER_LIMIT) ->
  step_post n s x (s ← r; Done (Continue s)).
Proof.
  intros [[F ->] | (s' & -> & I & O & T)] G Hp He.
  - by right; right; right.
  - right; left. exists s', (x, act). done.
Qed.

Lemma ms_ok_S n s : ms_ok (S n) s -> ms_ok n s.
Proof. intros []. constructor; (done || lia). Qed.

Lemma match_step_ok n s x :
  ms_ok (S n) s -> item_ranges x ->
  step_post n s x (match_step order m pk now_ts price_lots s x).
Proof.
  intros O R. pose proof O as []. pose proof R as [Rq Rp]. unfold match_step.
  destruct ((remaining_base_lots s =? 0) || (remaining_quote_lots s =? 0)) eqn:E0.
  { left. exists s. split_and!; [done|by left|]. left. split; [|done].
    apply orb_true_iff in E0 as [E0 | E0]; apply Z.eqb_eq in E0; auto. }
  bool_to_prop. destruct (item_is_valid x) eqn:Ev; simpl.
  2: { destruct (number_of_dropped_expired_orders s <? DROP_EXPIRED_ORDER_LIMIT) eqn:Ed; bool_to_prop.
    - eapply (step_continue n s x Dropped).
      + apply drop_opposing_ok; [done|]. unfold act_expire. simpl. by rewrite Ev.
      + simpl. split_and!; try lia; try done. by left.
      + done.
      + done.
    - right; left. exists s, (x, Passed).
      assert (match_inv s s [(x, Passed)]).
      { constructor; one_act; unfold act_expire; simpl; try destruct (own x); (done || lia). }
      split_and!; try done; [simpl; split_and!; (done || lia)|by apply ms_ok_S]. }
  destruct (is_price_within_limit _ _ _) eqn:Ew; simpl.
  2: { left. exists s. split_and!; [done|by left|]. right; left. done. }
  assert (Hc : crosses x) by done.
  destruct (Order.is_post_only order) eqn:Epo.
  { left. eexists. split_and!; [done|by right|]. right; right; left. auto. }
  destruct (Z.eqb_spec (ms_limit s) 0) as [El|El].
  { left. eexists. split_and!; [done|by right|]. right; right; left. auto. }
  rewrite (proj2 (Z.eqb_neq (item_price_lots x) 0)) by lia. simpl. run.
  rewrite Z.quot_div_nonneg by lia.
  assert (Hdiv : 0 <= remaining_quote_lots s / item_price_lots x <= remaining_quote_lots s).
  { split; [apply Z.div_pos; lia|]. apply Z.div_le_upper_bound; nia. }
  rewrite i64_ok by mlia. run.
  destruct (Z.eqb_spec (remaining_quote_lots s / item_price_lots x) 0) as [Em|Em].
  { left. exists s. split_and!; [done|by left|]. right; right; right.
    split_and!; try done. apply Z.div_small_iff in Em; lia. }
  fold (item_qty x).
  set (q := Z.min (Z.min (remaining_base_lots s) (item_qty x)) (remaining_quote_lots s / item_price_lots x)).
  assert (Hqp : 0 < q * item_price_lots x <= remaining_quote_lots s).
  { pose proof (Z.mul_div_le (remaining_quote_lots s) (item_price_lots x)). subst q. nia. }
  rewrite (i64_ok (q * item_price_lots x)) by mlia. run. fold (own x).
  assert (Hfill : (own x = true -> Order.self_trade_behavior order = DecrementTake) ->
    greedy (remaining_base_lots s) (remaining_quote_lots s) [(x, Filled q)]).
  { intros. unfold greedy, act_ok. simpl. split_and!; try done; subst q; lia. }
  pose proof (fill_opposing_ok n s x O R ltac:(subst q; lia) El) as F. fold q in F.
  unfold act_own, act_quote, act_base in F. simpl in F. destruct (own x) eqn:Eo.
  - destruct (Order.self_trade_behavior order) eqn:Eb.
    + rewrite (i64_ok (decremented_quote_lots s + q * item_price_lots x)) by mlia. run.
      rewrite (i64_ok (decremented_base_lots s + q)) by (subst q; mlia). run.
      eapply (step_continue n s x (Filled q)); [exact F|by apply Hfill|done|done].
    + eapply (step_continue n s x Dropped).
      * apply drop_opposing_ok; [done|]. unfold act_expire. simpl. rewrite Ev. lia.
      * simpl. split_and!; try lia; try done. right. done.
      * done.
      * unfold act_expire. simpl. rewrite Ev. done.
    + right; right; left. done.
  - rewrite !Z.add_0_r in F. eapply (step_continue n s x (Filled q)); [exact F|by apply Hfill|done|done].
Qed.

(** ** The loop *)

Lemma total_app f xs ys : total f (xs ++ ys) = total f xs + total f ys.
Proof. induction xs as [|x xs IH]; simpl; lia. Qed.

Lemma total_nonneg f acts : (forall a, a ∈ acts -> 0 <= f a) -> 0 <= total f acts.
Proof.
  induction acts as [|a acts IH]; simpl; [lia|]. intros Hf.
  pose proof (Hf a ltac:(by left)). pose proof (IH ltac:(intros; apply Hf; by right)). lia.
Qed.

Lemma act_expire_nonneg a : 0 <= act_expire a.
Proof. unfold act_expire. destruct a.2; [lia|destruct (item_is_valid a.1); lia|lia]. Qed.

Lemma act_fill_nonneg a : 0 <= act_fill a.
Proof. unfold act_fill. destruct a.2; lia. Qed.

Lemma match_inv_cons s s1 s2 a acts :
  match_inv s s1 [a] -> match_inv s1 s2 acts -> match_inv s s2 (a :: acts).
Proof.
  intros [] []. simpl in *. rewrite ?app_nil_r in *.
  constructor; simpl; try lia.
  - rewrite mi_change1, mi_change0, <- app_assoc. done.
  - rewrite mi_delete1, mi_delete0, <- app_assoc. done.
  - rewrite mi_events1, mi_events0, mi_seq0, <- app_assoc. done.
  - rewrite mi_seq1, mi_seq0, length_app. lia.
Qed.

(** The bound on dropped invalid orders: they are passed over only once
    [DROP_EXPIRED_ORDER_LIMIT] of them have been dropped. *)
Definition drops_ok (dropped : Z) (acts : list acted) : Prop :=
  dropped + total act_expire acts <= DROP_EXPIRED_ORDER_LIMIT /\
  forall x, (x, Passed) ∈ acts -> dropped + total act_expire acts = DROP_EXPIRED_ORDER_LIMIT.

Lemma drops_ok_cons d a acts :
  (a.2 = Passed -> DROP_EXPIRED_ORDER_LIMIT <= d) ->
  drops_ok (d + act_expire a) acts -> drops_ok d (a :: acts).
Proof.
  intros Ha [Hle Hp]. split; simpl; [lia|]. intros x [<- | Hx]%elem_of_cons.
  - simpl in Ha. specialize (Ha eq_refl).
    pose proof (total_nonneg act_expire acts (fun a _ => act_expire_nonneg a)).
    pose proof (act_expire_nonneg (x, Passed)). lia.
  - specialize (Hp x Hx). lia.
Qed.

(** The result [r] of matching against [items] from the state [s]. *)
Definition loop_post (s : MatchState) (items : list BookSideIterItem) (r : outcome MatchState) : Prop :=
  exists acts rest, items = acts.*1 ++ rest /\
    greedy (remaining_base_lots s) (remaining_quote_lots s) acts /\
    drops_ok (number_of_dropped_expired_orders s) acts /\
    ((exists s', r = Done s' /\ match_inv s s' acts /\ ms_ok 0 s' /\ stopped s s' rest) \/
     (r = Fail (EMango WouldSelfTrade) /\
       exists x, head rest = Some x /\ crosses x /\ own x = true /\
         Order.self_trade_behavior order = AbortTransaction) \/
     (r = Panic /\ (length (contents (ms_queue s)) +
       length (act_events (q_seq_num (ms_queue s)) acts))%nat = MAX_NUM_EVENTS)).

Lemma loop_post_cons s s1 x a items r :
  a.1 = x -> match_inv s s1 [a] ->
  greedy (remaining_base_lots s) (remaining_quote_lots s) [a] ->
  (a.2 = Passed -> DROP_EXPIRED_ORDER_LIMIT <= number_of_dropped_expired_orders s) ->
  ms_post_target s1 = ms_post_target s ->
  loop_post s1 items r -> loop_post s (x :: items) r.
Proof.
  intros <- I (Gb & Gq & Ga & Gf & _) Hp Ht (acts & rest & -> & G & D & P).
  pose proof I as [Ib Iq _ _ Il Id _ _ Ie Is]. simpl in Ib, Iq, Id, Ie, Is.
  rewrite Z.add_0_r in Ib, Iq, Id. rewrite app_nil_r in Ie, Is.
  exists (a :: acts), rest. split_and!; [done| | |].
  - rewrite Ib, Iq in G. done.
  - apply drops_ok_cons; [done|]. by rewrite Id in D.
  - destruct P as [(s' & -> & I' & O' & S') | [P | [-> P]]]; [left|right; left; done|right; right].
    + exists s'. split_and!; [done|by eapply match_inv_cons|done|].
      unfold stopped in *. by rewrite <- !Ht.
    + split; [done|]. simpl. rewrite Is, Ie, length_app in P. rewrite length_app. lia.
Qed.

Lemma ms_ok_stop n s s' : ms_ok (S n) s -> s' = s \/ s' = no_post s -> ms_ok 0 s'.
Proof. intros [] [-> | ->]; constructor; simpl; (done || lia). Qed.

Lemma match_list_ok : forall items s,
  ms_ok (length items) s -> Forall item_ranges items ->
  number_of_dropped_expired_orders s <= DROP_EXPIRED_ORDER_LIMIT ->
  loop_post s items
    (r ← list_for items s (match_step order m pk now_ts price_lots);
     match r with Continue s | Break s => Done s end).
Proof.
  induction items as [|x items IH]; intros s O F Hd.
  - exists [], []. split_and!; [done|done|split; simpl; [lia|set_solver]|].
    left. exists s. split_and!; [done|apply match_inv_nil; by left|done|done].
  - apply Forall_cons in F as [Fx F]. cbn [list_for].
    destruct (match_step_ok (length items) s x O Fx)
      as [(s' & -> & I & S) | [(s' & a & -> & Ea & I & G & Hp & He & O' & T) | [(-> & C) | (-> & Q)]]]; run.
    + exists [], (x :: items). split_and!; [done|done|split; simpl; [lia|set_solver]|].
      left. exists s'. split_and!; [done|by apply match_inv_nil|by apply (ms_ok_stop (length items) s)|done].
    + eapply loop_post_cons; [done..|]. apply IH; [done|done|].
      destruct I. simpl in *. rewrite Z.add_0_r in mi_dropped0.
      unfold act_expire in *. destruct a.2; try lia. destruct (item_is_valid a.1); lia.
    + exists [], (x :: items). split_and!; [done|done|split; simpl; [lia|set_solver]|].
      right; left. split; [done|]. exists x. done.
    + exists [], (x :: items). split_and!; [done|done|split; simpl; [lia|set_solver]|].
      right; right. split; [done|]. simpl. rewrite contents_length by apply O.
      unfold queue_is_full in Q. rewrite Q. lia.
Qed.
End matching.
