(* ===== verification/BookApply.v ===== *)
(** * Applying the matches to the book

    After the matching loop [new_order] (book.rs) first writes the reduced quantities
    of partially filled orders and then removes the orders that are used up. On the
    maps of orders this is the same as applying the actions one by one. *)

From stdpp Require Import base numbers gmap sorting functions list.
From Stdlib Require Import ZArith Lia SpecFloat.
From S2P Require Import Prelude FixedPoint TokenPosition OrderTypes Nodes OrderTree OrderTreeSpec OrderTreeArena OrderTreeInsert OrderTreeIter EventQueue BookSide BookSideSpec BookSideIterate BookSideQueries BookSideEvict Orders StablePrice PerpMarket PerpPosition MangoAccount Book BookMatch.

Open Scope Z_scope.

(** ** Maps of orders *)

Abbreviation maps := (BookSideOrderTree -> gmap Z LeafNode).

(** Two pairs of maps are the same when they agree on both components. *)
#[export] Instance maps_equiv : Equiv maps := fun M M' => forall c, M c = M' c.

#[export] Instance maps_equivalence : Equivalence (equiv (A := maps)).
Proof. split; [done|by intros ?? E c; rewrite E|intros ??? E1 E2 c; by rewrite E1, E2]. Qed.

#[export] Instance bs_rep_proper b : Proper (equiv ==> iff) (bs_rep b).
Proof. intros M M' E. split; apply bs_rep_ext; [done|by intros c; rewrite E]. Qed.

Definition map_delete (M : maps) (x : BookSideOrderTree * Z) : maps :=
  <[x.1 := delete x.2 (M x.1)]> M.

Definition map_change (M : maps) (x : BookSideOrderTree * LeafNode) : maps :=
  <[x.1 := <[leaf_key x.2 := x.2]> (M x.1)]> M.

#[export] Instance map_delete_proper : Proper (equiv ==> eq ==> equiv) map_delete.
Proof. intros M M' E x _ <- c. unfold map_delete. rewrite !fn_insert_eq. by case_decide; rewrite E. Qed.

#[export] Instance map_change_proper : Proper (equiv ==> eq ==> equiv) map_change.
Proof. intros M M' E x _ <- c. unfold map_change. rewrite !fn_insert_eq. by case_decide; rewrite E. Qed.

Lemma map_delete_change M x y :
  x <> (y.1, leaf_key y.2) -> map_delete (map_change M y) x ≡ map_change (map_delete M x) y.
Proof.
  intros Hne c. unfold map_delete, map_change. rewrite !fn_insert_eq.
  destruct x as [c1 k], y as [c2 l]. simpl in *.
  repeat (case_decide; subst; try done). rewrite delete_insert_ne; [done|congruence].
Qed.

(** The orders after the actions, one action at a time. *)
Definition act_key (a : acted) : BookSideOrderTree * Z := (item_tree a.1, leaf_key (item_node a.1)).

Definition act_reduce (M : maps) (a : acted) : maps :=
  match a.2 with
  | Filled q =>
      if q =? item_qty a.1 then M
      else map_change M (item_tree a.1, set_quantity (item_node a.1) (item_qty a.1 - q))
  | _ => M
  end.

Definition act_remove (M : maps) (a : acted) : maps :=
  match a.2 with
  | Filled q => if q =? item_qty a.1 then map_delete M (act_key a) else M
  | Dropped => map_delete M (act_key a)
  | Passed => M
  end.

Definition book_after (M : maps) (acts : list acted) : maps :=
  foldl (fun M a => act_remove (act_reduce M a) a) M acts.

#[export] Instance act_reduce_proper : Proper (equiv ==> eq ==> equiv) act_reduce.
Proof.
  intros M M' E a _ <-. unfold act_reduce. destruct a.2; try done.
  destruct (_ =? _); [done|]. by apply map_change_proper.
Qed.

#[export] Instance act_remove_proper : Proper (equiv ==> eq ==> equiv) act_remove.
Proof.
  intros M M' E a _ <-. unfold act_remove. destruct a.2; try done; [destruct (_ =? _); [|done]|];
    by apply map_delete_proper.
Qed.

#[export] Instance foldl_maps_proper (f : maps -> acted -> maps) :
  Proper (equiv ==> eq ==> equiv) f -> Proper (equiv ==> eq ==> equiv) (foldl f).
Proof.
  intros Hf M M' E acts _ <-. revert M M' E. induction acts as [|a acts IH]; intros M M' E; [done|].
  simpl. apply IH. by apply Hf.
Qed.

Lemma act_remove_reduce M a b :
  act_key a <> act_key b -> act_remove (act_reduce M b) a ≡ act_reduce (act_remove M a) b.
Proof.
  intros Hne. unfold act_remove, act_reduce.
  assert (E : forall q, map_delete (map_change M (item_tree b.1, set_quantity (item_node b.1) q)) (act_key a)
    ≡ map_change (map_delete M (act_key a)) (item_tree b.1, set_quantity (item_node b.1) q)).
  { intros q. by apply map_delete_change. }
  destruct a.2, b.2; try done; repeat destruct (_ =? _); done.
Qed.

Lemma remove_after_reduce acts : forall M a,
  act_key a ∉ act_key <$> acts -> act_remove (foldl act_reduce M acts) a ≡ foldl act_reduce (act_remove M a) acts.
Proof.
  induction acts as [|b acts IH]; intros M a Ha; [done|]. simpl in Ha |- *.
  apply not_elem_of_cons in Ha as [Hab Ha].
  etransitivity; [exact (IH _ _ Ha)|]. apply foldl_maps_proper; [apply _| |done].
  by apply act_remove_reduce.
Qed.

(** Reducing all quantities first and removing the used-up orders afterwards. *)
Lemma reduce_then_remove acts : forall M,
  NoDup (act_key <$> acts) -> foldl act_remove (foldl act_reduce M acts) acts ≡ book_after M acts.
Proof.
  induction acts as [|a acts IH]; intros M ND; [done|]. simpl in ND |- *.
  apply NoDup_cons in ND as [Ha ND]. unfold book_after. simpl.
  etransitivity; [|exact (IH _ ND)]. apply foldl_maps_proper; [apply _| |done]. by apply remove_after_reduce.
Qed.

(** Where an order of the side after the actions comes from. *)
Lemma act_step_lookup M a c k l :
  act_remove (act_reduce M a) a c !! k = Some l ->
  ((c, k) <> act_key a \/ a.2 = Passed) /\ M c !! k = Some l \/
  (c, k) = act_key a /\ exists q, a.2 = Filled q /\ q <> item_qty a.1 /\
    l = set_quantity (item_node a.1) (item_qty a.1 - q).
Proof.
  intros Hl. destruct (decide ((c, k) = act_key a)) as [E|E].
  - unfold act_remove, act_reduce, map_delete, map_change, act_key in *. injection E as -> ->.
    destruct a.2 as [q| |] eqn:Ea; [|by rewrite fn_lookup_insert, lookup_delete_eq in Hl|by left; auto].
    destruct (Z.eqb_spec q (item_qty a.1)); simpl in Hl; rewrite fn_lookup_insert in Hl.
    + by rewrite lookup_delete_eq in Hl.
    + rewrite lookup_insert_eq in Hl. right. split; [done|]. exists q. by injection Hl as <-.
  - left. split; [auto|]. unfold act_remove, act_reduce, map_delete, map_change, act_key in *.
    destruct a.2 as [q| |]; try destruct (_ =? _); try done; rewrite fn_insert_eq in Hl; simpl in Hl;
      case_decide; subst; try done;
      first [rewrite lookup_delete_ne in Hl by congruence | rewrite lookup_insert_ne in Hl by (simpl; congruence)];
      done.
Qed.

Lemma book_after_lookup acts : forall M c k l,
  NoDup (act_key <$> acts) -> book_after M acts c !! k = Some l ->
  M c !! k = Some l /\ (forall a, a ∈ acts -> act_key a = (c, k) -> a.2 = Passed) \/
  exists a q, a ∈ acts /\ act_key a = (c, k) /\ a.2 = Filled q /\ q <> item_qty a.1 /\
    l = set_quantity (item_node a.1) (item_qty a.1 - q).
Proof.
  induction acts as [|a acts IH]; intros M c k l ND Hl; [left; split; [done|set_solver]|].
  simpl in ND. apply NoDup_cons in ND as [Ha ND]. unfold book_after in Hl. simpl in Hl.
  destruct (IH _ _ _ _ ND Hl) as [[Hm Hp] | (b & q & Hb & E & P)].
  - apply act_step_lookup in Hm as [[Hk Hm] | (Hk & q & P)].
    + left. split; [done|]. intros b [-> | Hb]%elem_of_cons E; [|by apply Hp].
      destruct Hk as [Hk|Hk]; [congruence|done].
    + right. exists a, q. split_and!; [by left|done|apply P..].
  - right. exists b, q. split_and!; [by right|done|apply P..].
Qed.

(** ** The code *)

Lemma repr_hleaf ns t h l : repr ns t -> (h, l) ∈ hleaves t -> ns !! h = Some (NLeaf l).
Proof.
  intros R Hx. destruct (hleaf_plug t h l [] Hx) as [z E]. simpl in E. subst t.
  apply repr_plug in R as [R _]. by apply repr_root in R.
Qed.

(** The action is on a leaf of the side. *)
Definition on_leaf (T : BookSideOrderTree -> option tree) (a : acted) : Prop :=
  (bh_node (item_handle a.1), item_node a.1) ∈ oleaves (T (item_tree a.1)).

(** Leaves in the same slot are the same order. *)
Lemma on_leaf_inj b T fl a1 a2 :
  book_inv b T fl -> on_leaf T a1 -> on_leaf T a2 ->
  bh_node (item_handle a1.1) = bh_node (item_handle a2.1) -> act_key a1 = act_key a2.
Proof.
  intros I H1 H2 E. unfold on_leaf in *. rewrite E in H1. unfold act_key.
  set (h := bh_node (item_handle a2.1)) in *. set (c1 := item_tree a1.1) in *. set (c2 := item_tree a2.1) in *.
  assert (Hn : forall c l, (h, l) ∈ oleaves (T c) -> nodes (bs_nodes b) !! h = Some (NLeaf l) /\ h ∈ ohandles (T c)).
  { intros c l Hl. destruct (I c) as (_ & R & _ & _). destruct (T c) as [t|]; [|set_solver].
    split; [by eapply repr_hleaf|]. by apply (hleaves_handles t (h, l)). }
  destruct (Hn _ _ H1) as [N1 D1], (Hn _ _ H2) as [N2 D2]. rewrite N1 in N2. injection N2 as El. rewrite El.
  destruct (component_cases c1 c2) as [-> | Ec]; [done|]. rewrite Ec in D2.
  destruct (I c1) as (H & _). pose proof (heap_NoDup H) as ND. rewrite <- app_assoc in ND.
  apply NoDup_app in ND as (_ & D & _). destruct (D h D1). set_solver.
Qed.

Lemma apply_changes_ok acts : forall b T fl (M : maps),
  book_inv b T fl -> (forall c, otmap (T c) = M c) -> Forall (on_leaf T) acts -> NoDup (act_key <$> acts) ->
  exists b', apply_changes b (acts ≫= act_change) = Done b' /\ bs_side b' = bs_side b /\
    bs_rep b' (foldl act_reduce M acts).
Proof.
  induction acts as [|a acts IH]; intros b T fl M I HM F ND.
  { exists b. split_and!; [done|done|]. exists T, fl. done. }
  apply Forall_cons in F as [Fa F]. simpl in ND. apply NoDup_cons in ND as [Ha ND]. simpl.
  unfold act_change at 1, act_reduce at 2. destruct a.2 as [q| |]; [|by eapply IH..].
  destruct (q =? item_qty a.1); [by eapply IH|]. simpl.
  destruct (bs_set_quantity_ok b T fl _ _ _ (item_qty a.1 - q) I Fa) as (b1 & ot & -> & Hs & I1 & Hm & Hl).
  run. rewrite <- Hs. eapply (IH b1 (<[item_tree a.1 := ot]> T) fl); [done| | |done].
  - intros c. unfold map_change. rewrite !fn_insert_eq. simpl. case_decide; [|done]. by rewrite Hm, HM.
  - rewrite Forall_forall in F |- *. intros a' Ha'. specialize (F a' Ha'). unfold on_leaf.
    rewrite fn_insert_eq. case_decide as D; [|done]. apply Hl; [by rewrite D|]. simpl. intros E.
    apply Ha, list_elem_of_fmap. exists a'. split; [|done]. symmetry. eapply (on_leaf_inj b T fl a' a); done.
Qed.

Lemma apply_deletes_ok ds : forall b M,
  bs_rep b M -> NoDup ds -> (forall x, x ∈ ds -> is_Some (M x.1 !! x.2)) ->
  exists b', apply_deletes b ds = Done b' /\ bs_side b' = bs_side b /\ bs_rep b' (foldl map_delete M ds).
Proof.
  induction ds as [|[c k] ds IH]; intros b M R ND Hd; [by exists b|].
  apply NoDup_cons in ND as [Hx ND]. simpl. destruct (bs_remove_by_key_ok b M c k R) as (b1 & -> & Hs & R1).
  run. destruct (Hd (c, k)) as [l Hl]; [by left|]. simpl in Hl. rewrite Hl. run. rewrite <- Hs.
  apply IH; [done|done|]. intros [c' k'] Hx'. unfold map_delete. rewrite fn_insert_eq. simpl. case_decide as D.
  - subst c'. rewrite lookup_delete_ne by congruence. apply (Hd (c, k')). by right.
  - apply (Hd (c', k')). by right.
Qed.

Lemma deletes_remove acts : forall M, foldl map_delete M (acts ≫= act_delete) = foldl act_remove M acts.
Proof.
  induction acts as [|a acts IH]; intros M; [done|]. simpl. rewrite foldl_app, IH. f_equal.
  unfold act_delete, act_remove. destruct a.2; [destruct (_ =? _)|..]; done.
Qed.

Lemma elem_act_delete acts x : x ∈ acts ≫= act_delete -> x ∈ act_key <$> acts.
Proof.
  rewrite list_elem_of_bind. intros (a & Hx & Ha). apply list_elem_of_fmap. exists a. split; [|done].
  unfold act_delete in Hx. destruct a.2; [destruct (_ =? _)|..]; set_solver.
Qed.

Lemma NoDup_deletes acts : NoDup (act_key <$> acts) -> NoDup (acts ≫= act_delete).
Proof.
  induction acts as [|a acts IH]; [constructor|]. simpl. intros [Ha ND]%NoDup_cons.
  apply NoDup_app. split_and!; [|intros x Hx Hx'%elem_act_delete|by apply IH].
  - unfold act_delete. destruct a.2; [destruct (_ =? _)|..]; first [apply NoDup_nil_2 | apply NoDup_singleton].
  - apply Ha. unfold act_delete in Hx. destruct a.2; [destruct (_ =? _)|..]; set_solver.
Qed.

Lemma reduce_is_Some acts : forall (M : maps) c k,
  is_Some (M c !! k) -> is_Some (foldl act_reduce M acts c !! k).
Proof.
  induction acts as [|a acts IH]; intros M c k Hm; [done|]. simpl. apply IH.
  unfold act_reduce. destruct a.2; [destruct (_ =? _)|..]; try done.
  unfold map_change. rewrite fn_insert_eq. case_decide; [|done]. subst. simpl.
  rewrite lookup_insert. by case_decide.
Qed.

(** ** The whole update *)

Lemma apply_acts_ok b T fl M now_ts opl acts rest :
  book_inv b T fl -> (forall c, otmap (T c) = M c) -> prices_ok b M opl ->
  book_items b T now_ts opl = acts.*1 ++ rest ->
  exists b1 b', apply_changes b (acts ≫= act_change) = Done b1 /\
    apply_deletes b1 (acts ≫= act_delete) = Done b' /\
    bs_side b' = bs_side b /\ bs_rep b' (book_after M acts).
Proof.
  intros I HM HP E.
  assert (ND : NoDup (act_key <$> acts)).
  { pose proof (book_items_NoDup b T fl now_ts opl I) as ND. rewrite E, fmap_app in ND.
    apply NoDup_app in ND as (ND & _). by rewrite <- list_fmap_compose in ND. }
  assert (Hin : forall a, a ∈ acts -> exists x, x ∈ component_leaves b T (item_tree a.1) /\
    x = (bh_node (item_handle a.1), item_node a.1)).
  { intros a Ha. assert (Hi : a.1 ∈ book_items b T now_ts opl).
    { rewrite E. apply elem_of_app. left. apply list_elem_of_fmap. eauto. }
    apply elem_book_items in Hi as (x & Hx & _ & Ei). exists x. split; [done|].
    rewrite Ei. simpl. by destruct x. }
  destruct (apply_changes_ok acts b T fl M I HM) as (b1 & E1 & S1 & R1); [|done|].
  { apply Forall_forall. intros a Ha. destruct (Hin a Ha) as (x & Hx & ->). unfold on_leaf. by eapply elem_component. }
  destruct (apply_deletes_ok (acts ≫= act_delete) b1 _ R1) as (b' & E2 & S2 & R2).
  - by apply NoDup_deletes.
  - intros x (a & -> & Ha)%elem_act_delete%list_elem_of_fmap. apply reduce_is_Some. simpl.
    destruct (Hin a Ha) as (x & Hx & ->). eexists. eapply (component_lookup b T fl M I HM _ _ Hx).
  - exists b1, b'. split_and!; [done|done|congruence|].
    rewrite deletes_remove in R2. eapply bs_rep_proper; [|exact R2]. symmetry. by apply reduce_then_remove.
Qed.
