(* ===== verification/BookPlace.v ===== *)
(** * Placing orders: what [new_order] guarantees

    The matching loop and [Orderbook::new_order] (book.rs) seen on the maps of orders:
    budgets, limit price, priority, the orders left on the book, and that posting the
    remainder of a bid leaves the book uncrossed. *)

From stdpp Require Import base numbers gmap sorting functions list.
From Stdlib Require Import ZArith Lia SpecFloat.
From S2P Require Import Prelude FixedPoint TokenPosition OrderTypes Nodes OrderTree OrderTreeSpec OrderTreeArena OrderTreeInsert OrderTreeIter EventQueue BookSide BookSideSpec BookSideIterate BookSideQueries BookSideEvict Orders StablePrice PerpMarket PerpPosition MangoAccount MangoAccountSpec Book BookMatch BookApply.

Open Scope Z_scope.

(** The loop variables of [new_order] before the first opposing order. *)
Definition match_start (order : Order.Order) (limit : Z) (q : EventQueue) : MatchState :=
  mkMatchState (Order.max_base_lots order) (Order.max_quote_lots order) 0 0 [] [] 0
    (Order.post_target order) limit q.

(** Orders on the book have positive quantities. *)
Definition quantities_ok (M : maps) : Prop :=
  forall c k l, M c !! k = Some l -> 0 < quantity l <= I64_MAX.

(** The arguments of the order are in range and the event queue account is intact. *)
Record request_ok (order : Order.Order) (limit : Z) (q : EventQueue) : Prop := {
  rq_base : 0 <= Order.max_base_lots order <= I64_MAX;
  rq_quote : 0 <= Order.max_quote_lots order <= I64_MAX;
  rq_limit : is_u8 limit;
  rq_queue : queue_inv q;
  rq_seq : q_seq_num q + Z.of_nat MAX_ORDERTREE_NODES <= U64_MAX
}.

(** The side [b] that opposes the order, with its orders [M]. *)
Record opposing (b : BookSide) (M : maps) (opl : Z) (order : Order.Order) : Prop := {
  op_side : bs_side b = invert_side (Order.side order);
  op_rep : bs_rep b M;
  op_oracle : is_i64 opl;
  op_fixed : fixed_orders_ok M;
  op_quantities : quantities_ok M
}.

Lemma opposing_prices b M opl order : opposing b M opl order -> no_skipped_orders b M opl -> prices_ok b M opl.
Proof. intros [] ?. by constructor. Qed.

Section place.
Context `{FixedOps}.

Lemma items_ranges side M now_ts opl items :
  items_spec side M now_ts opl items -> quantities_ok M ->
  (forall k l, M Fixed !! k = Some l -> fixed_ok l) -> Forall item_ranges items.
Proof.
  intros S Q F. apply Forall_forall. intros i Hi.
  destruct (proj1 (is_elem _ _ _ _ _ S (item_tree i) (item_node i))) as [Hm Hl]; [eauto|].
  destruct (is_item _ _ _ _ _ S i Hi) as [Hp _]. split; [by eapply Q|]. rewrite Hp.
  unfold order_price, order_listed in *. destruct (item_tree i).
  - by eapply F.
  - unfold representable in Hl. mlia.
Qed.

Lemma match_start_ok order limit q n :
  request_ok order limit q -> (n <= MAX_ORDERTREE_NODES)%nat -> ms_ok n (match_start order limit q).
Proof. intros [] Hn. constructor; simpl; (done || lia). Qed.

(** The loop runs over the items of the side, whatever trees represent it. *)
Lemma match_loop_ok order m pk now_ts opl price_lots limit q b T fl M :
  book_inv b T fl -> (forall c, otmap (T c) = M c) -> prices_ok b M opl -> quantities_ok M ->
  request_ok order limit q ->
  loop_post order m pk now_ts price_lots (match_start order limit q) (book_items b T now_ts opl)
    (match_loop order m pk now_ts opl price_lots b (match_start order limit q)).
Proof.
  intros I HM HP HQ HR. unfold match_loop. erewrite for_all_items by done.
  apply match_list_ok.
  - apply match_start_ok; [done|]. by eapply book_items_length.
  - eapply items_ranges; [by eapply book_items_spec|done|apply HP].
  - done.
Qed.

(** C3: the matching loop of a new order goes through the opposing orders in priority
    order and ends in one of three ways. Either it returns, and then its state is the
    result of a trace of actions on a prefix of the opposing orders (fills as large as
    budgets and orders allow, at prices within the limit; drops of invalid orders, at
    most five of them, or of the taker's own orders), with one event per fill or drop on
    the queue, the remaining lots reduced by exactly what was filled, and a reason not
    to go on; or it fails with [WouldSelfTrade] on an own order it must not match; or it
    panics because the event queue is full. The opposing orders must not make the iterator
    skip orders at its start: no pegged ask is priced below 1 and no pegged bid at
    [i64::MAX] or above, for otherwise the iterator loses an order that comes after them. *)
Theorem match_loop_trace order m pk now_ts opl price_lots limit q b M :
  opposing b M opl order -> no_skipped_orders b M opl -> request_ok order limit q ->
  exists items, iter_all_including_invalid b now_ts opl = Done items /\
    items_spec (bs_side b) M now_ts opl items /\
    loop_post order m pk now_ts price_lots (match_start order limit q) items
      (match_loop order m pk now_ts opl price_lots b (match_start order limit q)).
Proof.
  intros HO HS. pose proof (opposing_prices _ _ _ _ HO HS) as HP. destruct HO as [_ (T & fl & I & HM) _ _ HQ]. intros HR. exists (book_items b T now_ts opl). split_and!.
  - unfold iter_all_including_invalid. erewrite for_all_items by done.
    rewrite list_for_collect. run. by rewrite app_nil_r, reverse_involutive.
  - by eapply book_items_spec.
  - by eapply match_loop_ok.
Qed.

(** ** Budgets and limit price *)

Lemma greedy_act_ok order pk price_lots : forall acts rb rq,
  greedy order pk price_lots rb rq acts -> Forall (act_ok order pk price_lots) acts.
Proof. induction acts as [|a acts IH]; intros rb rq; simpl; [constructor|]. intros (_ & _ & Ha & _ & G). eauto. Qed.

(** A bid pays at most, an ask gets at least, its limit price on every lot. *)
Lemma quote_within_limit order pk price_lots acts :
  Forall (act_ok order pk price_lots) acts ->
  match Order.side order with
  | Bid => total act_quote acts <= price_lots * total act_base acts
  | Ask => price_lots * total act_base acts <= total act_quote acts
  end.
Proof.
  intros F. induction F as [|a acts Ha F IH]; simpl; [destruct (Order.side order); lia|].
  assert (Hq : match Order.side order with
    | Bid => act_quote a <= price_lots * act_base a
    | Ask => price_lots * act_base a <= act_quote a
    end).
  { unfold act_quote, act_base. unfold act_ok in Ha. destruct a.2 as [q| |]; [|destruct (Order.side order); lia..].
    destruct Ha as (Hq & [_ Hw] & _). unfold is_price_within_limit in Hw.
    destruct (Order.side order); bool_to_prop; nia. }
  destruct (Order.side order); lia.
Qed.

(** The lots exchanged by a list of events. *)
Definition ev_base (e : AnyEvent) : Z := match e with AFill f => fill_quantity f | AOut _ => 0 end.
Definition ev_quote (e : AnyEvent) : Z :=
  match e with AFill f => fill_quantity f * fill_price f | AOut _ => 0 end.
Definition ev_fill (e : AnyEvent) : Z := match e with AFill _ => 1 | AOut _ => 0 end.
Fixpoint ev_total (f : AnyEvent -> Z) (es : list AnyEvent) : Z :=
  match es with [] => 0 | e :: es => f e + ev_total f es end.

(** A fill of the taker at a price within the limit. *)
Definition ev_ok (order : Order.Order) (pk : Pubkey) (price_lots : Z) (e : AnyEvent) : Prop :=
  match e with
  | AFill f => fill_taker f = pk /\ fill_taker_side f = Order.side order /\ 0 < fill_quantity f /\
      is_price_within_limit (Order.side order) (fill_price f) price_lots = true
  | AOut o => out_side o = invert_side (Order.side order)
  end.

Lemma ev_total_app f xs ys : ev_total f (xs ++ ys) = ev_total f xs + ev_total f ys.
Proof. induction xs as [|x xs IH]; simpl; lia. Qed.

Lemma act_event_totals order m pk now_ts a seq :
  let es := act_event order m pk now_ts seq a in
  ev_total ev_base es = act_base a /\ ev_total ev_quote es = act_quote a /\ ev_total ev_fill es = act_fill a.
Proof. unfold act_event, act_quote, act_base, act_fill. destruct a.2; simpl; lia. Qed.

Lemma act_events_totals order m pk now_ts : forall acts seq,
  let es := act_events order m pk now_ts seq acts in
  ev_total ev_base es = total act_base acts /\ ev_total ev_quote es = total act_quote acts /\
  ev_total ev_fill es = total act_fill acts.
Proof.
  induction acts as [|a acts IH]; intros seq; [done|]. simpl.
  destruct (IH (seq + Z.of_nat (length (act_event order m pk now_ts seq a)))) as (E1 & E2 & E3).
  destruct (act_event_totals order m pk now_ts a seq) as (F1 & F2 & F3).
  rewrite !ev_total_app, E1, E2, E3, F1, F2, F3. done.
Qed.

Lemma act_events_ok order m pk now_ts price_lots : forall acts seq,
  Forall (act_ok order pk price_lots) acts ->
  Forall (ev_ok order pk price_lots) (act_events order m pk now_ts seq acts).
Proof.
  induction acts as [|a acts IH]; intros seq F; [constructor|]. apply Forall_cons in F as [Ha F]. simpl.
  apply Forall_app. split; [|by apply IH]. unfold act_event, act_ok in *. destruct a.2; [|..|constructor].
  - destruct Ha as (Hq & [_ Hw] & _). constructor; [|constructor]. simpl. split_and!; (done || lia).
  - constructor; [done|constructor].
Qed.

(** When the matching loop returns, the fill events it put on the queue account for
    exactly the base and quote lots it used: both stay within what the order asked for,
    no fill is outside the limit price (so a bid pays at most and an ask gets at least
    the limit price in total), and there are at most [limit] fills. *)
Theorem match_within_budget order m pk now_ts opl price_lots limit q b M s' :
  opposing b M opl order -> no_skipped_orders b M opl -> request_ok order limit q ->
  match_loop order m pk now_ts opl price_lots b (match_start order limit q) = Done s' ->
  let base := Order.max_base_lots order - remaining_base_lots s' in
  let quote := Order.max_quote_lots order - remaining_quote_lots s' in
  exists es, contents (ms_queue s') = contents q ++ es /\ Forall (ev_ok order pk price_lots) es /\
    ev_total ev_base es = base /\ ev_total ev_quote es = quote /\
    base <= Order.max_base_lots order /\ quote <= Order.max_quote_lots order /\
    ev_total ev_fill es <= limit /\
    match Order.side order with Bid => quote <= price_lots * base | Ask => price_lots * base <= quote end.
Proof.
  intros HO HS. pose proof (opposing_prices _ _ _ _ HO HS) as HP. destruct HO as [_ (T & fl & I & HM) _ _ HQ]. intros HR E base quote.
  pose proof (match_loop_ok order m pk now_ts opl price_lots limit q b T fl M I HM HP HQ HR)
    as (acts & rest & _ & G & _ & P). rewrite E in P.
  destruct P as [(s1 & [= <-] & Inv & O & _) | [[? _] | [? _]]]; [|done..].
  exists (act_events order m pk now_ts (q_seq_num q) acts). destruct Inv, O. simpl in *.
  pose proof (greedy_act_ok _ _ _ _ _ _ G) as F. pose proof (quote_within_limit _ _ _ _ F) as L.
  destruct (act_events_totals order m pk now_ts acts (q_seq_num q)) as (E1 & E2 & E3).
  assert (base = total act_base acts /\ quote = total act_quote acts) as [-> ->] by (subst base quote; lia).
  split_and!; [done|by apply act_events_ok|done|done|lia|lia| |done]. rewrite E3. mlia.
Qed.

(** ** Priority *)

Lemma greedy_split order pk price_lots : forall l1 l2 rb rq,
  greedy order pk price_lots rb rq (l1 ++ l2) ->
  greedy order pk price_lots (rb - total act_base l1) (rq - total act_quote l1) l2.
Proof.
  induction l1 as [|a l1 IH]; intros l2 rb rq; simpl; [by rewrite !Z.sub_0_r|].
  intros (_ & _ & _ & _ & G). apply IH in G. by rewrite !Z.sub_add_distr.
Qed.

Lemma acts_nonneg order pk price_lots acts :
  Forall (act_ok order pk price_lots) acts -> Forall item_ranges acts.*1 ->
  0 <= total act_base acts /\ 0 <= total act_quote acts.
Proof.
  intros G R. split; apply total_nonneg; intros a Ha;
    rewrite Forall_forall in G; specialize (G a Ha); rewrite Forall_forall in R;
    destruct (R a.1 ltac:(apply list_elem_of_fmap; eauto)) as [R1 R2];
    unfold act_quote, act_base; unfold act_ok in G; destruct a.2; try lia; nia.
Qed.

(** A partial fill uses up one of the two budgets. *)
Lemma partial_fill_exhausts rb rq q qty price :
  q = Z.min (Z.min rb qty) (rq / price) -> q <> qty -> 1 <= price -> 0 <= rq ->
  rb - q = 0 \/ rq - q * price < price.
Proof.
  intros -> Hne Hp Hq. pose proof (Z.div_mod rq price ltac:(lia)). pose proof (Z.mod_pos_bound rq price ltac:(lia)).
  destruct (Z.le_ge_cases rb (rq / price)); [left; lia|].
  destruct (Z.le_ge_cases qty (rq / price)); [left; lia|]. right. nia.
Qed.

Lemma total_fill y q :
  total act_base [(y, Filled q)] = q /\ total act_quote [(y, Filled q)] = q * item_price_lots y.
Proof. unfold act_quote. simpl. unfold act_quote, act_base. simpl. lia. Qed.

(** An order that is only partly filled although another one is filled after it: the
    taker is an ask that cannot afford one more lot of it. *)
Lemma partial_before_fill order pk price_lots rb rq l1 y q' l2 x q l3 :
  let acts := l1 ++ [(y, Filled q')] ++ l2 ++ (x, Filled q) :: l3 in
  greedy order pk price_lots rb rq acts -> Forall item_ranges acts.*1 ->
  StronglySorted (ahead (invert_side (Order.side order))) acts.*1 -> q' <> item_qty y ->
  Order.side order = Ask /\ rq - total act_quote (l1 ++ [(y, Filled q')]) < item_price_lots y.
Proof.
  intros acts G R S Hne. unfold acts in *. pose proof (greedy_act_ok _ _ _ _ _ _ G) as F.
  pose proof (greedy_split _ _ _ _ _ _ _ G) as (_ & Gq & _ & Gf & _).
  rewrite !app_assoc in G. pose proof (greedy_split _ _ _ _ _ _ _ G) as (Gb' & _ & Ax & Gf' & _).
  cbn [fst snd] in Gf, Gf'. rewrite !(total_app act_base) in Gb', Gf'. rewrite !(total_app act_quote) in Gf'.
  destruct (total_fill y q') as [E1 E2]. rewrite E1 in Gb', Gf'. rewrite E2 in Gf'. rewrite total_app, E2. rewrite !fmap_app, !Forall_app in R. rewrite !Forall_app in F.
  destruct F as (_ & Fy & F2 & _). destruct R as (_ & Ry & R2 & Rx).
  destruct (acts_nonneg _ _ _ _ F2 R2) as [N1 N2].
  apply Forall_cons in Ry as [[_ Ry] _]. apply Forall_cons in Rx as [[_ Rx] _]. cbn [fst] in Ry, Rx.
  destruct (partial_fill_exhausts _ _ _ _ _ Gf Hne) as [Hz|Hz]; [lia|lia|lia|].
  assert (Hq : 0 < q) by (destruct Ax as [? _]; lia).
  assert (Hx : item_price_lots x <= rq - total act_quote l1 - q' * item_price_lots y - total act_quote l2).
  { assert (1 <= (rq - (total act_quote l1 + q' * item_price_lots y + total act_quote l2)) / item_price_lots x) by lia.
    pose proof (Z.mul_div_le (rq - (total act_quote l1 + q' * item_price_lots y + total act_quote l2))
      (item_price_lots x)). nia. }
  split; [|lia]. destruct (Order.side order) eqn:Es; [|done]. exfalso.
  assert (Hs : ahead Ask y x).
  { rewrite !fmap_app, app_assoc in S. eapply StronglySorted_app_1_elem_of; [exact S|set_solver|].
    rewrite fmap_cons. set_solver. }
  apply ahead_price in Hs. unfold is_price_better in Hs. mlia.
Qed.

Lemma priority_trace order pk price_lots rb rq l1 y a l2 x q l3 :
  let acts := l1 ++ [(y, a)] ++ l2 ++ (x, Filled q) :: l3 in
  greedy order pk price_lots rb rq acts -> Forall item_ranges acts.*1 ->
  StronglySorted (ahead (invert_side (Order.side order))) acts.*1 -> item_is_valid y = true ->
  a = Filled (item_qty y) \/ (a = Dropped /\ own pk y = true) \/
  (Order.side order = Ask /\ rq - total act_quote (l1 ++ [(y, a)]) < item_price_lots y).
Proof.
  intros acts G R S Hv. pose proof (greedy_split _ _ _ _ _ _ _ G) as (_ & _ & Ga & _).
  unfold act_ok in Ga. destruct a as [q'| |]; simpl in Ga.
  - destruct (decide (q' = item_qty y)) as [->|Hne]; [by left|].
    right; right. by eapply partial_before_fill.
  - right; left. split; [done|]. destruct Ga as [Ga | (_ & Ho & _)]; [congruence|done].
  - congruence.
Qed.

(** Orders are filled in price-time priority. If an opposing order is filled, every
    valid order ahead of it was filled completely, or taken off the book as the taker's
    own; the one exception is an ask whose remaining quote budget does not pay for a
    single lot of the better bid. *)
Theorem match_priority order m pk now_ts opl price_lots limit q b M s' :
  opposing b M opl order -> no_skipped_orders b M opl -> request_ok order limit q ->
  match_loop order m pk now_ts opl price_lots b (match_start order limit q) = Done s' ->
  exists items acts rest, iter_all_including_invalid b now_ts opl = Done items /\
    items_spec (bs_side b) M now_ts opl items /\ items = acts.*1 ++ rest /\
    match_inv order m pk now_ts (match_start order limit q) s' acts /\
    forall l1 y a l2 x q l3,
      acts = l1 ++ [(y, a)] ++ l2 ++ (x, Filled q) :: l3 -> item_is_valid y = true ->
      a = Filled (item_qty y) \/ (a = Dropped /\ own pk y = true) \/
      (Order.side order = Ask /\
       Order.max_quote_lots order - total act_quote (l1 ++ [(y, a)]) < item_price_lots y).
Proof.
  intros HO HS. pose proof (opposing_prices _ _ _ _ HO HS) as HP. destruct HO as [Hs (T & fl & I & HM) _ _ HQ]. intros HR E.
  pose proof (match_loop_ok order m pk now_ts opl price_lots limit q b T fl M I HM HP HQ HR)
    as (acts & rest & Ei & G & _ & P). rewrite E in P.
  destruct P as [(s1 & [= <-] & Inv & O & _) | [[? _] | [? _]]]; [|done..].
  pose proof (book_items_spec b T fl M now_ts opl I HM) as Spec.
  exists (book_items b T now_ts opl), acts, rest. split_and!; [|done|done|done|].
  { unfold iter_all_including_invalid. erewrite for_all_items by done.
    rewrite list_for_collect. run. by rewrite app_nil_r, reverse_involutive. }
  intros l1 y a l2 x q' l3 -> Hv.
  pose proof (items_ranges _ _ _ _ _ Spec HQ (po_fixed _ _ _ HP)) as R.
  pose proof (is_sorted _ _ _ _ _ Spec) as S. rewrite Ei in R, S. rewrite Hs in S.
  apply Forall_app in R as [R _]. apply StronglySorted_app_1_l in S.
  by eapply priority_trace.
Qed.

(** ** [new_order] *)

(** The market a new order is matched with differs from the one before in its sequence
    number and accrued fees only. *)
Lemma apply_penalty_fees m a m' a' f :
  apply_penalty m a = Done (m', a', f) ->
  pm_maker_fee m' = pm_maker_fee m /\ pm_taker_fee m' = pm_taker_fee m.
Proof.
  unfold apply_penalty. intros R. repeat (apply bind_Done_inv in R as (? & _ & R)).
  destruct x2. repeat (apply bind_Done_inv in R as (? & _ & R)). by injection R as <- _ _.
Qed.

Lemma gen_order_id_fees m side pd m' id :
  gen_order_id m side pd = Done (m', id) ->
  pm_maker_fee m' = pm_maker_fee m /\ pm_taker_fee m' = pm_taker_fee m.
Proof.
  unfold gen_order_id. intros R. apply bind_Done_inv in R as (? & _ & R). by injection R as <- _.
Qed.

Lemma bookside_set_same ob side b : bookside (set_bookside ob side b) side = b.
Proof. by destruct side. Qed.

Lemma bookside_set_other ob side b : bookside (set_bookside ob side b) (invert_side side) = bookside ob (invert_side side).
Proof. by destruct side. Qed.

Lemma invert_involutive side : invert_side (invert_side side) = side.
Proof. by destruct side. Qed.

(** The order as it is stored in the book. *)
Definition posted_leaf (order : Order.Order) (pk : Pubkey) (now_ts id : Z) (slot : nat) (qty : Z) : LeafNode :=
  leaf_new (Z.of_nat slot mod 256) id pk qty now_ts Limit (Order.time_in_force order)
    (Order.peg_limit order) (Order.client_order_id order).

(** How posting changes the own side [b] into [b'] and the queue [q] into [q']. *)
Definition posted (order : Order.Order) (pk : Pubkey) (now_ts opl price : Z) (id qty : Z)
    (target : BookSideOrderTree) (b b' : BookSide) (q q' : EventQueue) : Prop :=
  exists b1 slot h old,
    make_room b q (Order.side order) target now_ts opl price = Done (b1, q') /\
    bs_insert_leaf b1 target (posted_leaf order pk now_ts id slot qty) = Done (b', Ok (h, old)).

Lemma post_order_inv ob m q a order pk id qty target now_ts opl price ob' q' a' :
  post_order ob m q a order pk id qty target now_ts opl price = Done (ob', q', a') ->
  bookside ob' (invert_side (Order.side order)) = bookside ob (invert_side (Order.side order)) /\
  posted order pk now_ts opl price id qty target (bookside ob (Order.side order))
    (bookside ob' (Order.side order)) q q'.
Proof.
  unfold post_order. intros R. apply bind_Done_inv in R as ([b1 q1] & E1 & R).
  apply bind_Done_inv in R as (slot & E2 & R). apply bind_Done_inv in R as ([b2 r] & E3 & R).
  apply bind_Done_inv in R as (u & E4 & R). apply bind_Done_inv in R as (a1 & E5 & R).
  injection R as <- <- <-. split; [apply bookside_set_other|]. rewrite bookside_set_same.
  destruct r as [[h old]|e]; [|done]. exists b1, slot, h, old. done.
Qed.

(** The parts of a successful [new_order]: the matching loop, the update of the opposing
    side and the posting of the rest. *)
Record new_order_parts (ob : Orderbook) (order : Order.Order) (m : PerpMarket) (q : EventQueue)
    (oracle_price : Z) (pk : Pubkey) (now_ts limit : Z) (ob' : Orderbook) (q' : EventQueue)
    (r : option Z) (opl price d : Z) (m1 : PerpMarket) (s : MatchState) : Prop := {
  np_oracle : native_price_to_lot m oracle_price = Done opl;
  np_price : Order.price order now_ts opl ob = Done (price, d);
  np_id : forall id, r = Some id -> exists m0, gen_order_id m (Order.side order) d = Done (m0, id);
  np_fees : pm_maker_fee m1 = pm_maker_fee m /\ pm_taker_fee m1 = pm_taker_fee m;
  np_match : match_loop order m1 pk now_ts opl price (bookside ob (invert_side (Order.side order)))
    (match_start order limit q) = Done s;
  np_apply : exists b1,
    apply_changes (bookside ob (invert_side (Order.side order))) (orders_to_change s) = Done b1 /\
    apply_deletes b1 (orders_to_delete s) = Done (bookside ob' (invert_side (Order.side order)));
  np_post : match r with
    | None => bookside ob' (Order.side order) = bookside ob (Order.side order) /\ q' = ms_queue s
    | Some id => exists target qty, ms_post_target s = Some target /\
        qty = Z.min (remaining_base_lots s) (Z.quot (remaining_quote_lots s) price) /\ 0 < qty /\
        posted order pk now_ts opl price id qty target (bookside ob (Order.side order))
          (bookside ob' (Order.side order)) (ms_queue s) q'
    end
}.

Lemma new_order_inv ob order m q oracle_price a pk now_ts limit ob' m' q' a' r :
  new_order ob order m q oracle_price a pk now_ts limit = Done (ob', m', q', a', r) ->
  exists opl price d m1 s,
    new_order_parts ob order m q oracle_price pk now_ts limit ob' q' r opl price d m1 s.
Proof.
  unfold new_order. intros R. apply bind_Done_inv in R as (opl & E1 & R).
  apply bind_Done_inv in R as ([price d] & E2 & R). apply bind_Done_inv in R as ([m1 id] & E3 & R).
  apply bind_Done_inv in R as ([[m2 a2] fp] & E4 & R). apply bind_Done_inv in R as ([i p] & E5 & R).
  apply bind_Done_inv in R as (s & E6 & R). do 4 apply bind_Done_inv in R as (? & _ & R).
  apply bind_Done_inv in R as ([m3 a3] & E7 & R). apply bind_Done_inv in R as (b1 & E8 & R).
  apply bind_Done_inv in R as (b2 & E9 & R). apply bind_Done_inv in R as (? & _ & R).
  apply bind_Done_inv in R as (mq & E10 & R). apply i64_inv in E10 as [-> _].
  apply bind_Done_inv in R as (target & E11 & R).
  exists opl, price, d, m2, s.
  assert (Hf : pm_maker_fee m2 = pm_maker_fee m /\ pm_taker_fee m2 = pm_taker_fee m).
  { apply gen_order_id_fees in E3 as [<- <-]. destruct (Order.needs_penalty_fee order).
    - by eapply apply_penalty_fees.
    - by injection E4 as <- _ _. }
  set (ob1 := set_bookside ob (invert_side (Order.side order)) b2) in *.
  assert (O1 : bookside ob1 (invert_side (Order.side order)) = b2) by apply bookside_set_same.
  assert (O2 : bookside ob1 (Order.side order) = bookside ob (Order.side order)).
  { rewrite <- (invert_involutive (Order.side order)). apply bookside_set_other. }
  destruct target as [target|].
  - apply bind_Done_inv in R as ([[ob2 q2] a4] & E12 & R). injection R as <- <- <- <- <-.
    apply post_order_inv in E12 as [E12 P]. rewrite O2 in P.
    constructor; try done; [intros ? [= <-]; by eexists|rewrite E12, O1; eauto|].
    destruct (Z.leb_spec (Z.min (remaining_base_lots s) (Z.quot (remaining_quote_lots s) price)) 0) as [L|L]; [done|].
    destruct (ms_post_target s) as [t|]; [|done]. apply bind_Done_inv in E11 as (np & _ & E11).
    apply bind_Done_inv in E11 as (ins & _ & E11). destruct ins; [|done]. injection E11 as ->.
    eexists _, _. split_and!; [done|done|done|exact P].
  - injection R as <- <- <- <- <-. constructor; try done. rewrite O1. eauto.
Qed.

(** ** The book stays uncrossed *)

Lemma within_mono side other i j price :
  other = invert_side side -> ahead other i j ->
  is_price_within_limit side (item_price_lots i) price = false ->
  is_price_within_limit side (item_price_lots j) price = false.
Proof.
  intros -> Ha%ahead_price. unfold is_price_within_limit, is_price_better in *. destruct side; simpl in *; mlia.
Qed.

(** An affordable price for the rest of a bid is within its limit. *)
Lemma posted_affordable rb rq price :
  0 <= rq -> 1 <= price -> 0 < Z.min rb (Z.quot rq price) -> 0 < rb /\ price <= rq.
Proof.
  intros Hq Hp H0. rewrite Z.quot_div_nonneg in H0 by lia.
  pose proof (Z.mul_div_le rq price ltac:(lia)). nia.
Qed.

Section uncrossed.
Context (order : Order.Order) (m : PerpMarket) (pk : Pubkey) (now_ts opl price limit : Z) (q : EventQueue)
  (M : maps) (items rest : list BookSideIterItem) (acts : list acted) (s' : MatchState).
Hypothesis Hspec : items_spec (invert_side (Order.side order)) M now_ts opl items.
Hypothesis Hitems : items = acts.*1 ++ rest.
Hypothesis Hranges : Forall item_ranges items.
Hypothesis Hgreedy : greedy order pk price (Order.max_base_lots order) (Order.max_quote_lots order) acts.
Hypothesis Hinv : match_inv order m pk now_ts (match_start order limit q) s' acts.
Hypothesis Hstop : stopped order price (match_start order limit q) s' rest.
Hypothesis Htarget : ms_post_target s' <> None.
Hypothesis Hbase : 0 < remaining_base_lots s'.
Hypothesis Hquote : price <= remaining_quote_lots s'.
Hypothesis Hprice : 1 <= price.

(** A valid opposing order within the limit that the rest of the order cannot pay for. *)
Definition unaffordable : Prop :=
  Order.side order = Ask /\ exists z, z ∈ items /\ crosses order price z /\ remaining_quote_lots s' < item_price_lots z.

Lemma crosses_unaffordable z :
  z ∈ items -> crosses order price z -> remaining_quote_lots s' < item_price_lots z -> unaffordable.
Proof.
  intros Hz Hc Hr. destruct (Order.side order) eqn:Es; [|split; [done|eauto]].
  destruct Hc as [_ Hw]. rewrite Es in Hw. unfold is_price_within_limit in Hw. mlia.
Qed.

(** Orders the loop did not get to. *)
Lemma rest_uncrossed i :
  i ∈ rest -> item_is_valid i = true ->
  is_price_within_limit (Order.side order) (item_price_lots i) price = false \/ unaffordable.
Proof.
  intros Hi Hv. destruct rest as [|z rest'] eqn:Er; [set_solver|].
  assert (Hz : z ∈ items) by (rewrite Hitems; set_solver).
  destruct Hstop as [[[|] _] | [(Hzv & Hw & _) | [(_ & _ & Ht) | (Hc & Hr & _)]]]; [lia|lia| |done|].
  - left. apply elem_of_cons in Hi as [-> | Hi]; [done|].
    pose proof (is_sorted _ _ _ _ _ Hspec) as S. rewrite Hitems in S.
    apply StronglySorted_app_1_r, StronglySorted_inv in S as [_ S]. rewrite Forall_forall in S.
    by eapply within_mono; [|apply S|].
  - right. by eapply crosses_unaffordable.
Qed.

(** Orders that were partly filled. *)
Lemma partial_uncrossed a qa :
  a ∈ acts -> a.2 = Filled qa -> qa <> item_qty a.1 -> unaffordable.
Proof.
  intros Ha Ea Hne. apply list_elem_of_split in Ha as (l1 & l2 & E).
  pose proof Hgreedy as G. rewrite E in G. pose proof (greedy_act_ok _ _ _ _ _ _ G) as F.
  apply greedy_split in G as (_ & Gq & Ga & Gf & _). rewrite Ea in Gf.
  assert (Hr : Forall item_ranges acts.*1) by (rewrite Hitems in Hranges; by apply Forall_app in Hranges as [? _]).
  rewrite E, fmap_app, fmap_cons, Forall_app in Hr. destruct Hr as [_ [Ra R2]%Forall_cons].
  apply Forall_app in F as [_ [_ F2]%Forall_cons]. destruct (acts_nonneg _ _ _ _ F2 R2) as [N1 N2].
  destruct Ra as [_ Rp]. pose proof (mi_base _ _ _ _ _ _ _ Hinv) as Hb. pose proof (mi_quote _ _ _ _ _ _ _ Hinv) as Hq.
  rewrite E, !total_app in Hb, Hq. simpl in Hb, Hq.
  assert (Eb : act_base a = qa) by (unfold act_base; by rewrite Ea).
  assert (Eq : act_quote a = qa * item_price_lots a.1) by (unfold act_quote; by rewrite Eb).
  destruct (partial_fill_exhausts _ _ _ _ _ Gf Hne) as [Hz|Hz]; [lia|lia|lia|].
  apply (crosses_unaffordable a.1); [| |lia].
  - rewrite Hitems, E. set_solver.
  - unfold act_ok in Ga. rewrite Ea in Ga. apply Ga.
Qed.

Lemma trace_uncrossed c l p :
  matchable (invert_side (Order.side order)) (book_after M acts) now_ts opl c l p ->
  is_price_within_limit (Order.side order) p price = false \/ unaffordable.
Proof.
  intros (Hm & Hl & Hv & <-).
  assert (ND : NoDup (act_key <$> acts)).
  { pose proof (is_nodup _ _ _ _ _ Hspec) as ND. rewrite Hitems, fmap_app in ND.
    apply NoDup_app in ND as (ND & _). by rewrite <- list_fmap_compose in ND. }
  destruct (book_after_lookup acts M c (leaf_key l) l ND Hm) as [[Hm' Hp] | (a & qa & Ha & _ & Ea & Hne & _)].
  - destruct (proj2 (is_elem _ _ _ _ _ Hspec c l)) as (i & Hi & <- & <-); [done|].
    destruct (is_item _ _ _ _ _ Hspec i Hi) as [Hpi Hs]. rewrite Hv in Hs. rewrite <- Hpi.
    assert (Hiv : item_is_valid i = true) by (unfold item_is_valid; by rewrite Hs).
    pose proof Hi as Hi'. rewrite Hitems in Hi'. apply elem_of_app in Hi' as [Hi'|Hi']; [|by apply rest_uncrossed].
    apply list_elem_of_fmap in Hi' as (a & -> & Ha). specialize (Hp a Ha eq_refl).
    pose proof (greedy_act_ok _ _ _ _ _ _ Hgreedy) as F. rewrite Forall_forall in F. specialize (F a Ha).
    unfold act_ok in F. rewrite Hp in F. congruence.
  - right. by eapply partial_uncrossed.
Qed.

End uncrossed.

(** ** Posting *)

Lemma push_event_inv q e q' :
  queue_inv q -> push_event q e = Done q' -> queue_inv q' /\ contents q' = contents q ++ [e].
Proof.
  intros I E. assert (Hs : q_seq_num q < U64_MAX).
  { unfold push_event, push_back in E. destruct (q_full q); [done|].
    apply bind_Done_inv in E as ([q1 o] & E & _). inv_run. mlia. }
  destruct (push_event_ok q e I Hs) as [[_ F] | (q1 & F & I1 & C & _)]; rewrite F in E; [done|].
  by injection E as <-.
Qed.

Definition is_out (side : Side) (e : AnyEvent) : Prop :=
  match e with AOut o => out_side o = side | AFill _ => False end.

Lemma make_room_ok b q side target now_ts opl price b1 q1 M :
  bs_rep b M -> queue_inv q -> is_i64 opl -> (forall k l, M Fixed !! k = Some l -> fixed_ok l) ->
  make_room b q side target now_ts opl price = Done (b1, q1) ->
  exists M1 outs, bs_rep b1 M1 /\ bs_side b1 = bs_side b /\ (forall c, M1 c ⊆ M c) /\
    queue_inv q1 /\ contents q1 = contents q ++ outs /\ Forall (is_out side) outs /\ (length outs <= 2)%nat.
Proof.
  intros R I Ho HF E. unfold make_room in E.
  destruct (bs_remove_one_expired_ok b M target now_ts R) as (b2 & r & Er & S2 & P2). rewrite Er in E. run_in E.
  apply bind_Done_inv in E as (q2 & Eq & E).
  assert (exists M2 o2, bs_rep b2 M2 /\ (forall c, M2 c ⊆ M c) /\ queue_inv q2 /\
    contents q2 = contents q ++ o2 /\ Forall (is_out side) o2 /\ (length o2 <= 1)%nat)
    as (M2 & o2 & R2 & Sub2 & I2 & C2 & F2 & L2).
  { destruct r as [l|].
    - destruct P2 as (c & _ & _ & _ & _ & P2). destruct (push_event_inv _ _ _ I Eq) as [I2 C2].
      eexists _, [_]. split_and!; [exact P2| |done|done|by repeat constructor|done].
      intros c'. rewrite fn_insert_eq. case_decide; subst; [apply delete_subseteq|done].
    - injection Eq as <-. exists M, []. rewrite app_nil_r. split_and!; try done; [apply P2|simpl; lia]. }
  destruct (bs_is_full b2); [|injection E as <- <-; exists M2, o2; split_and!; try done; lia].
  destruct (bs_remove_worst_ok b2 M2 now_ts opl R2 Ho) as (b3 & r3 & Ew & S3 & P3).
  { intros k l Hk. apply (HF k). by eapply lookup_weaken. }
  rewrite Ew in E. run_in E. destruct r3 as [[w wp]|]; [|done]. run_in E.
  apply bind_Done_inv in E as (u & _ & E). apply bind_Done_inv in E as (q3 & Eq3 & E). injection E as <- <-.
  destruct P3 as (c & _ & _ & _ & P3). destruct (push_event_inv _ _ _ I2 Eq3) as [I3 C3].
  eexists _, (o2 ++ [_]). split_and!; [exact P3|congruence| |done|by rewrite C3, C2, app_assoc| |].
  - intros c'. rewrite fn_insert_eq. case_decide; subst; [|done].
    etransitivity; [apply delete_subseteq|done].
  - apply Forall_app. split; [done|]. by repeat constructor.
  - rewrite length_app. simpl. lia.
Qed.

(** ** The theorems about [new_order] *)

Lemma act_events_fees order m m1 pk now_ts :
  pm_maker_fee m1 = pm_maker_fee m -> pm_taker_fee m1 = pm_taker_fee m -> forall acts seq,
  act_events order m1 pk now_ts seq acts = act_events order m pk now_ts seq acts.
Proof.
  intros E1 E2. assert (Ha : forall seq a, act_event order m1 pk now_ts seq a = act_event order m pk now_ts seq a).
  { intros seq a. unfold act_event. by rewrite E1, E2. }
  induction acts as [|a acts IH]; intros seq; simpl; [done|]. by rewrite !Ha, IH.
Qed.

(** The trace of the matching inside a successful [new_order]. *)
Lemma new_order_trace ob order m q oracle_price pk now_ts limit ob' q' r opl price d m1 s M :
  opposing (bookside ob (invert_side (Order.side order))) M opl order ->
  no_skipped_orders (bookside ob (invert_side (Order.side order))) M opl -> request_ok order limit q ->
  new_order_parts ob order m q oracle_price pk now_ts limit ob' q' r opl price d m1 s ->
  exists items acts rest,
    iter_all_including_invalid (bookside ob (invert_side (Order.side order))) now_ts opl = Done items /\
    items_spec (invert_side (Order.side order)) M now_ts opl items /\ Forall item_ranges items /\
    items = acts.*1 ++ rest /\
    greedy order pk price (Order.max_base_lots order) (Order.max_quote_lots order) acts /\
    match_inv order m1 pk now_ts (match_start order limit q) s acts /\ ms_ok 0 s /\
    stopped order price (match_start order limit q) s rest /\
    bs_rep (bookside ob' (invert_side (Order.side order))) (book_after M acts).
Proof.
  intros HO HS. pose proof (opposing_prices _ _ _ _ HO HS) as HP. destruct HO as [Hs (T & fl & I & HM) _ _ HQ]. intros HR P. destruct P as [_ _ _ _ E (b1 & Ec & Ed) _].
  set (b := bookside ob (invert_side (Order.side order))) in *.
  pose proof (match_loop_ok order m1 pk now_ts opl price limit q b T fl M I HM HP HQ HR)
    as (acts & rest & Ei & G & _ & P). rewrite E in P.
  destruct P as [(s1 & [= <-] & Inv & O & St) | [[? _] | [? _]]]; [|done..].
  pose proof (book_items_spec b T fl M now_ts opl I HM) as Spec. rewrite Hs in Spec.
  exists (book_items b T now_ts opl), acts, rest. split_and!; try done.
  - unfold iter_all_including_invalid. erewrite for_all_items by done.
    rewrite list_for_collect. run. by rewrite app_nil_r, reverse_involutive.
  - eapply items_ranges; [done|done|apply HP].
  - destruct (apply_acts_ok b T fl M now_ts opl acts rest I HM HP Ei) as (b2 & b3 & Ec' & Ed' & _ & R).
    rewrite (mi_change _ _ _ _ _ _ _ Inv) in Ec. rewrite (mi_delete _ _ _ _ _ _ _ Inv) in Ed. simpl in Ec, Ed.
    rewrite Ec' in Ec. injection Ec as <-. rewrite Ed' in Ed. by injection Ed as <-.
Qed.

(** The side an order is posted on, and the parts of the order that are stored. *)
Record own_side (b : BookSide) (M : maps) (order : Order.Order) (now_ts : Z) : Prop := {
  os_rep : bs_rep b M;
  os_fixed : forall k l, M Fixed !! k = Some l -> fixed_ok l;
  os_price : match Order.params order with
    | Order.ImmediateOrCancel p | Order.FixedPrice p _ => is_i64 p | _ => True end;
  os_now : is_u64 now_ts;
  os_tif : is_u16 (Order.time_in_force order);
  os_expiry : now_ts + Order.time_in_force order <= U64_MAX
}.

Lemma stopped_target order price s s' rest t :
  stopped order price s s' rest -> ms_post_target s' = Some t -> ms_post_target s = Some t.
Proof.
  intros St Et. destruct rest; simpl in St; [congruence|].
  destruct St as [[_ ?] | [(_ & _ & ?) | [(_ & _ & ?) | (_ & _ & ?)]]]; congruence.
Qed.

Lemma own_price_pos ob b M order now_ts opl price d :
  own_side b M order now_ts -> Order.price order now_ts opl ob = Done (price, d) -> 1 <= price.
Proof.
  intros [] Ep. destruct (Order.price_ok order now_ts opl ob price d) as ([Hp _] & _); [by destruct (Order.params order)|done|done].
Qed.

(** The quantity that is posted stays within both budgets. *)
Lemma posted_within rb rq price :
  0 <= rq -> 1 <= price -> let qty := Z.min rb (Z.quot rq price) in 0 < qty -> qty <= rb /\ qty * price <= rq.
Proof.
  intros Hq Hp qty H0. subst qty. rewrite Z.quot_div_nonneg in * by lia.
  pose proof (Z.mul_div_le rq price ltac:(lia)). nia.
Qed.

Lemma posted_leaf_ok ob order m pk now_ts opl price d m0 id slot qty b M :
  own_side b M order now_ts -> Order.price order now_ts opl ob = Done (price, d) ->
  gen_order_id m (Order.side order) d = Done (m0, id) -> leaf_ok (posted_leaf order pk now_ts id slot qty).
Proof.
  intros [] Ep Eg. destruct (Order.price_ok order now_ts opl ob price d) as (_ & Hd & _); [by destruct (Order.params order)|done|].
  unfold gen_order_id in Eg. apply bind_Done_inv in Eg as (sq & Es & Eg). apply u64_inv in Es as [-> Hsq].
  injection Eg as _ <-. constructor; simpl; try done. by apply new_node_key_u128.
Qed.

(** C4: what a successful [new_order] does to the book and the event queue. The opposing
    orders are exactly those before, updated by a trace of greedy fills and drops; the
    events of the trace are appended to the queue, followed by the out events of orders
    that made room. If an order id is returned, the own side gains exactly one order,
    with that id, the requested attributes and a positive quantity that neither budget
    is exceeded by, and loses at most two orders; otherwise the own side is unchanged. *)
Theorem new_order_book ob order m q oracle_price a pk now_ts limit ob' m' q' a' r opl M M0 :
  native_price_to_lot m oracle_price = Done opl ->
  opposing (bookside ob (invert_side (Order.side order))) M opl order ->
  no_skipped_orders (bookside ob (invert_side (Order.side order))) M opl ->
  own_side (bookside ob (Order.side order)) M0 order now_ts -> request_ok order limit q ->
  new_order ob order m q oracle_price a pk now_ts limit = Done (ob', m', q', a', r) ->
  exists price d items acts rest outs,
    Order.price order now_ts opl ob = Done (price, d) /\
    iter_all_including_invalid (bookside ob (invert_side (Order.side order))) now_ts opl = Done items /\
    items = acts.*1 ++ rest /\
    greedy order pk price (Order.max_base_lots order) (Order.max_quote_lots order) acts /\
    bs_rep (bookside ob' (invert_side (Order.side order))) (book_after M acts) /\
    contents q' = contents q ++ act_events order m pk now_ts (q_seq_num q) acts ++ outs /\
    Forall (is_out (Order.side order)) outs /\
    match r with
    | None => bs_rep (bookside ob' (Order.side order)) M0 /\ outs = []
    | Some id => exists M1 target slot qty,
        Order.post_target order = Some target /\ (forall c, M1 c ⊆ M0 c) /\ (length outs <= 2)%nat /\
        0 < qty <= Order.max_base_lots order - total act_base acts /\
        qty * price <= Order.max_quote_lots order - total act_quote acts /\
        bs_rep (bookside ob' (Order.side order)) (map_change M1 (target, posted_leaf order pk now_ts id slot qty))
    end.
Proof.
  intros Eo HO HS HW HR E. destruct (new_order_inv _ _ _ _ _ _ _ _ _ _ _ _ _ _ E) as (opl' & price & d & m1 & s & P).
  pose proof P as [Eo' Ep Eid [Ef1 Ef2] _ _ Epost]. rewrite Eo in Eo'. injection Eo' as <-.
  destruct (new_order_trace _ _ _ _ _ _ _ _ _ _ _ _ _ _ _ _ M HO HS HR P)
    as (items & acts & rest & Ei & _ & _ & Es & G & Inv & O & St & R).
  assert (Ev : contents (ms_queue s) = contents q ++ act_events order m pk now_ts (q_seq_num q) acts).
  { rewrite (mi_events _ _ _ _ _ _ _ Inv). simpl. by rewrite (act_events_fees order m m1). }
  pose proof (own_price_pos _ _ _ _ _ _ _ _ HW Ep) as Hp. exists price, d, items, acts, rest. destruct r as [id|].
  - destruct Epost as (target & qty & Et & -> & Hq & b1 & slot & h & old & Er & Ins).
    destruct (make_room_ok _ _ _ _ _ _ _ _ _ M0 (os_rep _ _ _ _ HW) (mo_queue _ _ O)
      (op_oracle _ _ _ _ HO) (os_fixed _ _ _ _ HW) Er)
      as (M1 & outs & R1 & S1 & Sub & I1 & C1 & F1 & L1).
    exists outs. split_and!; try done; [by rewrite C1, Ev, app_assoc|].
    destruct (Eid id eq_refl) as [m0 Eg].
    destruct (bs_insert_leaf_ok b1 M1 target _ R1 (posted_leaf_ok _ _ _ pk _ _ _ _ _ _ slot
      (Z.min (remaining_base_lots s) (Z.quot (remaining_quote_lots s) price)) _ _ HW Ep Eg)) as (b2 & r & Ei2 & _ & P2).
    rewrite Ins in Ei2. injection Ei2 as <- <-. destruct P2 as [_ P2].
    exists M1, target, slot, (Z.min (remaining_base_lots s) (Z.quot (remaining_quote_lots s) price)).
    pose proof (posted_within _ _ _ (mo_quote _ _ O) Hp Hq) as [H1 H2].
    pose proof (mi_base _ _ _ _ _ _ _ Inv) as Hb. pose proof (mi_quote _ _ _ _ _ _ _ Inv) as Hqt. simpl in Hb, Hqt.
    rewrite Hb in H1 at 2. rewrite Hqt in H2 at 2. split_and!; try done.
    by apply (stopped_target _ _ _ _ _ _ St).
  - destruct Epost as [Eb ->]. exists []. rewrite app_nil_r. split_and!; try done. rewrite Eb. apply HW.
Qed.

#[export] Instance crosses_dec order price x : Decision (crosses order price x).
Proof. unfold crosses. apply _. Defined.

Lemma outs_quote side outs : Forall (is_out side) outs -> ev_total ev_quote outs = 0.
Proof. induction 1 as [|[f|o] outs Ho F IH]; simpl; [done|done|lia]. Qed.

(** Either no order of the side satisfies the bad case or one can be pointed at. *)
Lemma unaffordable_dec order price items s M now_ts opl rq :
  items_spec (invert_side (Order.side order)) M now_ts opl items -> rq = remaining_quote_lots s ->
  ~ unaffordable order price items s \/
  (Order.side order = Ask /\ exists c l p, matchable Bid M now_ts opl c l p /\ price <= p /\ rq < p).
Proof.
  intros Spec ->. destruct (decide (Order.side order = Ask)) as [Es|Es]; [|left; by intros [? _]].
  destruct (decide (Exists (fun z => crosses order price z /\ remaining_quote_lots s < item_price_lots z) items)) as [Hx|Hx].
  - right. split; [done|]. apply Exists_exists in Hx as (z & Hz & [Hv Hw] & Hr). rewrite Es in Spec, Hw.
    eexists _, _, _. split_and!; [|exact (proj1 (Z.leb_le _ _) Hw)|exact Hr].
    apply (valid_items_matchable _ _ _ _ _ Spec). by apply list_elem_of_filter.
  - left. intros [_ (z & Hz & Hc & Hr)]. apply Hx, Exists_exists. eauto.
Qed.

(** C5: posting does not cross the book. When [new_order] posts the rest of an order at
    [price], no matchable order is left on the opposite side within that price; the only
    exception is an ask with a quote budget, when some matchable bid costs more per lot
    than what is left of the budget after the fills. In particular a posted bid does not
    cross. This needs opposing orders that the iterator does not skip at its start: behind
    pegged asks priced below 1, or pegged bids at [i64::MAX] or above, the iterator loses
    an order, which is then neither matched nor seen, and may be crossed. *)
Theorem new_order_never_crosses ob order m q oracle_price a pk now_ts limit ob' m' q' a' id opl M M0 :
  native_price_to_lot m oracle_price = Done opl ->
  opposing (bookside ob (invert_side (Order.side order))) M opl order ->
  no_skipped_orders (bookside ob (invert_side (Order.side order))) M opl ->
  own_side (bookside ob (Order.side order)) M0 order now_ts -> request_ok order limit q ->
  new_order ob order m q oracle_price a pk now_ts limit = Done (ob', m', q', a', Some id) ->
  exists price d M' es,
    Order.price order now_ts opl ob = Done (price, d) /\
    bs_rep (bookside ob' (invert_side (Order.side order))) M' /\ contents q' = contents q ++ es /\
    ((forall c l p, matchable (invert_side (Order.side order)) M' now_ts opl c l p ->
        is_price_within_limit (Order.side order) p price = false) \/
     (Order.side order = Ask /\ exists c l p, matchable Bid M now_ts opl c l p /\ price <= p /\
        Order.max_quote_lots order - ev_total ev_quote es < p)).
Proof.
  intros Eo HO HS HW HR E. destruct (new_order_inv _ _ _ _ _ _ _ _ _ _ _ _ _ _ E) as (opl' & price & d & m1 & s & P).
  pose proof P as [Eo' Ep _ _ _ _ Epost]. rewrite Eo in Eo'. injection Eo' as <-.
  destruct (new_order_trace _ _ _ _ _ _ _ _ _ _ _ _ _ _ _ _ M HO HS HR P)
    as (items & acts & rest & _ & Spec & Rg & Es & G & Inv & O & St & R).
  pose proof (own_price_pos _ _ _ _ _ _ _ _ HW Ep) as Hp.
  destruct Epost as (target & qty & Et & -> & Hq & b1 & slot & h & old & Er & _).
  destruct (make_room_ok _ _ _ _ _ _ _ _ _ M0 (os_rep _ _ _ _ HW) (mo_queue _ _ O)
    (op_oracle _ _ _ _ HO) (os_fixed _ _ _ _ HW) Er) as (_ & outs & _ & _ & _ & _ & C1 & F1 & _).
  rewrite (mi_events _ _ _ _ _ _ _ Inv), <- app_assoc in C1.
  exists price, d, (book_after M acts). eexists. split_and!; [done|done|exact C1|].
  destruct (posted_affordable _ _ _ (mo_quote _ _ O) Hp Hq) as [Hb Ha].
  assert (Hn : ms_post_target s <> None) by congruence.
  pose proof (trace_uncrossed order m1 pk now_ts opl price limit q M items rest acts s Spec Es Rg G Inv St Hn Hb Ha) as U.
  assert (Hr : Order.max_quote_lots order - ev_total ev_quote
    (act_events order m1 pk now_ts (q_seq_num (ms_queue (match_start order limit q))) acts ++ outs)
    = remaining_quote_lots s).
  { rewrite ev_total_app, (outs_quote _ _ F1).
    destruct (act_events_totals order m1 pk now_ts acts (q_seq_num q)) as (_ & E2 & _). simpl. rewrite E2.
    rewrite (mi_quote _ _ _ _ _ _ _ Inv). simpl. lia. }
  destruct (unaffordable_dec order price items s M now_ts opl _ Spec Hr) as [Hna|Hna]; [left|by right].
  intros c l p Hm. destruct (U Hp c l p Hm); [done|contradiction].
Qed.

End place.

(** ** A concrete order *)

(** A bid for 8 lots at up to 18, against asks of 5 lots each at 15, 20 and 101. *)
Definition sample_bid : Order.Order :=
  Order.mkOrder Bid 8 1000 77 false 0 DecrementTake (Order.FixedPrice 18 Limit).

Abbreviation sample_placed :=
  (@new_order fixed_ref Order.sample_book sample_bid test_market queue_zeroed (fx_int 50) AccountSpec.sample_account 9 2000 10).

Example sample_bid_placed :
  match sample_placed with
  | Done (ob', _, q', a', Some id) =>
      id = new_node_key Bid 18 11 /\ q_count q' = 1 /\ oo_quantity <$> ma_perp_oos a' = [3; 0] /\
      (match iter_all_including_invalid (ob_asks ob') 2000 50 with
       | Done items => item_price_lots <$> items = [20; 101] | _ => False end)
  | _ => False
  end.
Proof. vm_compute. repeat split. Qed.

Lemma sample_opposing : opposing (ob_asks Order.sample_book) sample_maps 50 sample_bid.
Proof.
  constructor; [vm_compute; reflexivity|apply sample_side_rep|apply sample_side_prices..|].
  assert (Hd : forall c, map_Forall (fun _ l => 0 < quantity l <= I64_MAX) (sample_maps c)).
  { intros c. apply (bool_decide_eq_true _). destruct c; vm_compute; reflexivity. }
  intros c k l Hl. exact (Hd c k l Hl).
Qed.

Lemma sample_no_skipped : no_skipped_orders sample_side sample_maps 50.
Proof. apply sample_side_prices. Qed.

Lemma sample_request : request_ok sample_bid 10 queue_zeroed.
Proof.
  constructor; try (split; vm_compute; congruence); [|vm_compute; congruence].
  constructor; simpl; unfold MAX_NUM_EVENTS; unfold_widths; (done || lia).
Qed.

Lemma sample_own : own_side (ob_bids Order.sample_book) (fun _ => ∅) sample_bid 2000.
Proof.
  constructor; [apply bs_rep_zeroed|done|split; vm_compute; congruence..|vm_compute; congruence].
Qed.

(** The witness of C3: the sample bid runs through the sample asks. *)
Lemma match_loop_trace_witness :
  exists items, iter_all_including_invalid sample_side 2000 50 = Done items /\
    @loop_post fixed_ref sample_bid test_market 9 2000 18 (match_start sample_bid 10 queue_zeroed) items
      (@match_loop fixed_ref sample_bid test_market 9 2000 50 18 sample_side (match_start sample_bid 10 queue_zeroed)).
Proof.
  destruct (@match_loop_trace fixed_ref sample_bid test_market 9 2000 50 18 10 queue_zeroed sample_side sample_maps)
    as (items & E & _ & P).
  - exact sample_opposing.
  - exact sample_no_skipped.
  - exact sample_request.
  - exists items. split; [exact E|exact P].
Defined.

Abbreviation sample_matched := (@match_loop fixed_ref sample_bid test_market 9 2000 50 18 sample_side
  (match_start sample_bid 10 queue_zeroed)).

(** A concrete instance: 5 base lots for 75 quote lots. *)
Lemma match_within_budget_witness :
  exists s' es, sample_matched = Done s' /\ contents (ms_queue s') = es /\
    ev_total ev_base es = 5 /\ ev_total ev_quote es = 75 /\ ev_total ev_fill es <= 10.
Proof.
  destruct sample_matched as [s'| | |] eqn:E; [|vm_compute in E; discriminate E..].
  destruct (@match_within_budget fixed_ref sample_bid test_market 9 2000 50 18 10 queue_zeroed sample_side sample_maps s'
    sample_opposing sample_no_skipped sample_request E) as (es & C & _ & Eb & Eq & _ & _ & Ef & _).
  exists s', es. split; [reflexivity|]. split; [exact C|]. rewrite Eb, Eq.
  vm_compute in E. injection E as <-. split; [reflexivity|]. split; [reflexivity|exact Ef].
Defined.

(** A concrete instance: the sample bid fills one ask. *)
Lemma match_priority_witness :
  exists s' items (acts : list acted) rest, sample_matched = Done s' /\
    iter_all_including_invalid sample_side 2000 50 = Done items /\ items = acts.*1 ++ rest.
Proof.
  destruct sample_matched as [s'| | |] eqn:E; [|vm_compute in E; discriminate E..].
  destruct (@match_priority fixed_ref sample_bid test_market 9 2000 50 18 10 queue_zeroed sample_side sample_maps s'
    sample_opposing sample_no_skipped sample_request E) as (items & acts & rest & Ei & _ & Es & _).
  exists s', items, acts, rest. split; [reflexivity|]. split; [exact Ei|exact Es].
Defined.

(** The witness of C4: the sample bid, of which 3 lots are posted. *)
Lemma new_order_book_witness :
  exists ob' m' q' a' id, sample_placed = Done (ob', m', q', a', Some id) /\
    exists price d, @Order.price sample_bid 2000 50 Order.sample_book = Done (price, d) /\ price = 18.
Proof.
  destruct sample_placed as [[[[[ob' m'] q'] a'] r]| | |] eqn:E; [|vm_compute in E; discriminate E..].
  assert (Er : exists id, r = Some id).
  { assert (Hr : match sample_placed with Done (_, _, _, _, Some _) => true | _ => false end = true)
      by (vm_compute; reflexivity).
    rewrite E in Hr. destruct r as [id|]; [exists id; reflexivity|discriminate Hr]. }
  destruct Er as [id ->].
  destruct (@new_order_book fixed_ref Order.sample_book sample_bid test_market queue_zeroed (fx_int 50) AccountSpec.sample_account
    9 2000 10 ob' m' q' a' (Some id) 50 sample_maps (fun _ => ∅)) as (price & d & _ & _ & _ & _ & Ep & _).
  - vm_compute. reflexivity.
  - exact sample_opposing.
  - exact sample_no_skipped.
  - exact sample_own.
  - exact sample_request.
  - exact E.
  - exists ob', m', q', a', id. split; [reflexivity|].
    exists price, d. split; [exact Ep|]. vm_compute in Ep. injection Ep as <- _. reflexivity.
Defined.

(** The witness of C5: after the sample bid is posted at 18 the asks start above 18. *)
Lemma new_order_never_crosses_witness :
  exists ob' m' q' a' id M', sample_placed = Done (ob', m', q', a', Some id) /\
    bs_rep (ob_asks ob') M' /\
    forall c l p, matchable Ask M' 2000 50 c l p -> is_price_within_limit Bid p 18 = false.
Proof.
  destruct sample_placed as [[[[[ob' m'] q'] a'] r]| | |] eqn:E; [|vm_compute in E; discriminate E..].
  assert (Er : exists id, r = Some id).
  { assert (Hr : match sample_placed with Done (_, _, _, _, Some _) => true | _ => false end = true)
      by (vm_compute; reflexivity).
    rewrite E in Hr. destruct r as [id|]; [exists id; reflexivity|discriminate Hr]. }
  destruct Er as [id ->].
  destruct (@new_order_never_crosses fixed_ref Order.sample_book sample_bid test_market queue_zeroed (fx_int 50)
    AccountSpec.sample_account 9 2000 10 ob' m' q' a' id 50 sample_maps (fun _ => ∅)) as (price & d & M' & es & Ep & R & _ & P).
  - vm_compute. reflexivity.
  - exact sample_opposing.
  - exact sample_no_skipped.
  - exact sample_own.
  - exact sample_request.
  - exact E.
  - exists ob', m', q', a', id, M'. split; [reflexivity|]. split; [exact R|].
    vm_compute in Ep. injection Ep as <- _. destruct P as [P | [P _]]; [exact P|discriminate P].
Defined.

(** ** Asks with a quote budget

    [new_order] stops matching when the quote budget does not pay for a lot of the best
    opposing order. For an ask the budget may still pay for a lot at its limit price. *)

Definition sample_bids : BookSide :=
  default (bookside_zeroed Bids) (insert_all (bookside_zeroed Bids)
    [(Fixed, leaf_new 0 (new_node_key Bid 20 1) 7 5 1000 Limit 0 (-1) 0);
     (Fixed, leaf_new 1 (new_node_key Bid 12 2) 7 5 1000 Limit 0 (-1) 0)]).

(** An ask of one lot at 10 that asks for at most 15 quote lots. *)
Definition budget_ask (max_quote : Z) : Order.Order :=
  Order.mkOrder Ask 2 max_quote 0 false 0 DecrementTake (Order.FixedPrice 10 Limit).

(** An ask at 10 with a budget of 15 is posted below the bids at 20 and 12: the book is
    crossed. *)
Theorem budget_ask_crosses :
  match @new_order fixed_ref (mkOrderbook sample_bids (bookside_zeroed Asks)) (budget_ask 15) test_market
          queue_zeroed (fx_int 10) AccountSpec.sample_account 9 2000 10 with
  | Done (ob', _, _, _, Some _) =>
      best_price (ob_bids ob') 2000 10 = Done (Some 20) /\ best_price (ob_asks ob') 2000 10 = Done (Some 10)
  | _ => False
  end.
Proof. vm_compute. split; reflexivity. Qed.

(** With a budget of 34 the ask fills one lot of the bid at 20, does not fill its other
    lots, and then fills a lot of the worse bid at 12. *)
Theorem budget_ask_skips :
  match @new_order fixed_ref (mkOrderbook sample_bids (bookside_zeroed Asks)) (budget_ask 34) test_market
          queue_zeroed (fx_int 10) AccountSpec.sample_account 9 2000 10 with
  | Done (ob', _, _, _, _) =>
      match iter_all_including_invalid (ob_bids ob') 2000 10 with
      | Done items => (fun i => (item_price_lots i, item_qty i)) <$> items = [(20, 4); (12, 4)]
      | _ => False
      end
  | _ => False
  end.
Proof. vm_compute. reflexivity. Qed.
