(* ===== verification/BookCancel.v ===== *)
(** * Cancelling orders

    [cancel_order_by_slot], [cancel_order_by_id] and [cancel_all_orders] (book.rs) on the
    maps of orders and the account. *)

From stdpp Require Import base numbers gmap functions list.
From Stdlib Require Import ZArith Lia SpecFloat.
From S2P Require Import Prelude FixedPoint TokenPosition OrderTypes Nodes OrderTree EventQueue BookSide BookSideSpec BookSideIterate Orders StablePrice PerpMarket PerpPosition PerpPositionSpec MangoAccount MangoAccountSpec Book BookMatch BookApply BookPlace.

Open Scope Z_scope.

Import AccountSpec.

(** The account [a'] is [a] with the open order slot freed and [n] lots released. *)
Definition order_freed (a a' : MangoAccount) (slot : nat) (idx : Z) (side : Side) (n : Z) : Prop :=
  exists i p p', Account.perp_position a idx = Done (i, p) /\ Account.perp_position a' idx = Done (i, p') /\
    maker_lots p' side = maker_lots p side - n /\
    a' = Account.set_perp_order (Account.set_perp a i p') slot OpenOrder.default.

Lemma remove_perp_order_ok a slot oo n i p :
  let side := SideAndTree.side (oo_side_and_tree oo) in
  ma_perp_oos a !! slot = Some oo -> oo_market oo <> FREE_ORDER_SLOT ->
  Account.perp_position a (oo_market oo) = Done (i, p) -> is_i64 (- n) -> is_i64 (maker_lots p side - n) ->
  exists a', Account.remove_perp_order a slot n = Done a' /\ order_freed a a' slot (oo_market oo) side n.
Proof.
  intros side Hs Hm Hp Hn Hl. pose proof (perp_position_inv _ _ _ _ Hp) as (_ & _ & Ei).
  destruct (adjust_maker_lots_ok p side (- n)) as (p' & Ea & Em & _); [by rewrite Z.add_opp_r|].
  pose proof (adjust_maker_lots_index _ _ _ _ Ea) as Ei'.
  unfold Account.remove_perp_order, Account.perp_order_by_raw_index. rewrite Hs. run.
  rewrite (proj2 (Z.eqb_neq _ _) Hm). cbn [negb require]. run. rewrite Hp. run. rewrite i64_ok by done. run.
  fold side. rewrite Ea. run. eexists. split; [done|]. exists i, p, p'. split_and!; [done| |done|done].
  eapply perp_position_set; [exact Hp|congruence].
Qed.

(** What [cancel_order_by_slot] answers, and the account it leaves. *)
Definition cancel_result (a a' : MangoAccount) (pk : Pubkey) (slot : nat) (oo : PerpOpenOrder)
    (on_book : option LeafNode) (r : result unit) : Prop :=
  let freed := order_freed a a' slot (oo_market oo) (SideAndTree.side (oo_side_and_tree oo)) in
  match on_book with
  | Some leaf =>
      if negb (owner_slot leaf =? Z.of_nat slot) then r = Err ERequireEq /\ a' = a
      else if negb (owner leaf =? pk) then r = Err ERequireKeysEq /\ a' = a
      else r = Ok tt /\ freed (quantity leaf)
  | None =>
      if oo_quantity oo =? 0 then r = Err (EMango PerpOrderIdNotFound) /\ a' = a
      else r = Ok tt /\ freed 0
  end.

(** Cancelling the order in an open order slot takes it off its side of the book and
    leaves every other order of both sides. If it was on the book its quantity is
    released and the slot freed; if it was not, the slot is freed and its lots are left
    to the pending event, except for old orders without a recorded quantity, which
    cannot be cancelled then. An order on the book that names another slot or owner is
    an error that leaves the account as it was. *)
Theorem cancel_order_by_slot_frees ob a pk slot oo M i p :
  let side := SideAndTree.side (oo_side_and_tree oo) in
  let tree := SideAndTree.order_tree (oo_side_and_tree oo) in
  ma_perp_oos a !! slot = Some oo -> oo_market oo <> FREE_ORDER_SLOT ->
  Account.perp_position a (oo_market oo) = Done (i, p) -> is_i64 (maker_lots p side) ->
  bs_rep (bookside ob side) M ->
  (forall leaf, M tree !! oo_id oo = Some leaf ->
    is_i64 (- quantity leaf) /\ is_i64 (maker_lots p side - quantity leaf)) ->
  exists ob' a' r, cancel_order_by_slot ob a pk slot (oo_market oo) = Done (ob', a', r) /\
    bs_rep (bookside ob' side) (map_delete M (tree, oo_id oo)) /\
    bookside ob' (invert_side side) = bookside ob (invert_side side) /\
    cancel_result a a' pk slot oo (M tree !! oo_id oo) r.
Proof.
  intros side tree Hs Hm Hp Hl R Hq. unfold cancel_order_by_slot, Account.perp_order_by_raw_index.
  rewrite Hs. cbn [catch]. run. unfold OpenOrder.is_active_for_market. rewrite Z.eqb_refl. cbn [negb].
  fold side tree. destruct (bs_remove_by_key_ok (bookside ob side) M tree (oo_id oo) R) as (b & -> & _ & R'). run.
  assert (Hfree : forall n, is_i64 (- n) -> is_i64 (maker_lots p side - n) ->
    exists a', catch (Account.remove_perp_order a slot n) = Done (Ok a') /\
      order_freed a a' slot (oo_market oo) side n).
  { intros n Hn Hln. destruct (remove_perp_order_ok a slot oo n i p Hs Hm Hp Hn Hln) as (a' & -> & F). eauto. }
  assert (O1 : bookside (set_bookside ob side b) side = b) by apply bookside_set_same.
  assert (O2 : bookside (set_bookside ob side b) (invert_side side) = bookside ob (invert_side side))
    by apply bookside_set_other.
  unfold cancel_result. fold side. destruct (M tree !! oo_id oo) as [leaf|] eqn:El.
  - destruct (Hq leaf eq_refl) as [Hn Hln]. destruct (Hfree _ Hn Hln) as (a' & E & F).
    destruct (negb (owner_slot leaf =? Z.of_nat slot)); [|destruct (negb (owner leaf =? pk))];
      rewrite ?E; run; eexists _, _, _; (split; [done|]); rewrite O1, O2; done.
  - destruct (oo_quantity oo =? 0).
    + eexists _, _, _. split; [done|]. rewrite O1, O2. done.
    + destruct (Hfree 0) as (a' & -> & F); [done|by rewrite Z.sub_0_r|]. run.
      eexists _, _, _. split; [done|]. rewrite O1, O2. done.
Qed.

(** A book that holds the sample account's bid of 6 lots. *)
Definition cancel_book : Orderbook :=
  mkOrderbook (default (bookside_zeroed Bids) (insert_all (bookside_zeroed Bids) [(Fixed, sample_maker_order)]))
    (bookside_zeroed Asks).

(** A concrete instance: the sample account's bid of 6 lots. *)
Lemma cancel_order_by_slot_frees_witness :
  exists ob' a', cancel_order_by_slot cancel_book placed_account 3 1 0 = Done (ob', a', Ok tt) /\
    bs_rep (ob_bids ob') (map_delete (insert_maps (fun _ => ∅) [(Fixed, sample_maker_order)]) (Fixed, 1234)).
Proof.
  assert (R : bs_rep (ob_bids cancel_book) (insert_maps (fun _ => ∅) [(Fixed, sample_maker_order)])).
  { eapply insert_all_rep; [apply (bs_rep_zeroed Bids)|repeat constructor; vm_compute; congruence|vm_compute; reflexivity]. }
  destruct (Account.perp_position placed_account 0) as [[i p]| | |] eqn:Ep; [|vm_compute in Ep; discriminate Ep..].
  pose proof Ep as Ep'. vm_compute in Ep'. injection Ep' as Ei' Ep'.
  destruct (cancel_order_by_slot_frees cancel_book placed_account 3 1 (mkPerpOpenOrder BidFixed 0 42 1234 6)
    (insert_maps (fun _ => ∅) [(Fixed, sample_maker_order)]) i p) as (ob' & a' & r & E & R' & _ & C).
  - vm_compute. reflexivity.
  - discriminate.
  - exact Ep.
  - subst p. split; vm_compute; congruence.
  - exact R.
  - intros leaf Hl. vm_compute in Hl. injection Hl as <-. subst p. split; split; vm_compute; congruence.
  - assert (Er : r = Ok tt) by (vm_compute in C; destruct C as [C _]; exact C). subst r.
    exists ob', a'. split; [exact E|exact R'].
Defined.

(** [cancel_all_orders] decrements the limit before it tests it: with a limit of 0 it
    panics as soon as the account has an order in the market. *)
Theorem cancel_all_limit_zero :
  cancel_all_orders cancel_book placed_account 3 test_market 0 None = Panic /\
  exists ob' a', cancel_all_orders cancel_book placed_account 3 test_market 1 None = Done (ob', a') /\
    oo_market <$> ma_perp_oos a' = [FREE_ORDER_SLOT; FREE_ORDER_SLOT].
Proof.
  split; [vm_compute; reflexivity|].
  destruct (cancel_all_orders cancel_book placed_account 3 test_market 1 None) as [[ob' a']| | |] eqn:E;
    [|vm_compute in E; discriminate E..].
  exists ob', a'. split; [done|].
  assert (Hc : (r ← cancel_all_orders cancel_book placed_account 3 test_market 1 None;
    Done (oo_market <$> ma_perp_oos (snd r))) = Done [FREE_ORDER_SLOT; FREE_ORDER_SLOT]) by (vm_compute; reflexivity).
  rewrite E in Hc. by injection Hc.
Qed.
