(* ===== verification/PerpSettle.v ===== *)
(** * Settling perp profits and fees

    instructions/perp_settle_pnl.rs and perp_settle_fees.rs with the constraints of
    accounts_ix: the profit of one account is paid by the loss of another, or a loss pays
    the fees of the market, in the settle token. Accounts are kept in a store by key, since
    the settler may be one of the two accounts. Logs are left out. *)

From stdpp Require Import base numbers option list gmap fin_maps.
From Stdlib Require Import ZArith Lia SpecFloat.
From S2P Require Import Prelude FixedPoint HealthType TokenPosition OrderTypes Nodes Oracle StablePrice Bank BankSpec Group Serum3 PerpMarket PerpPosition PerpPositionSpec MangoAccount HealthCache AccountRetriever TokenInstructions TokenInstructionsSpec TokenLiquidation PerpInstructions TokenLiquidationSpec MangoAccountSpec.

Open Scope Z_scope.

(** The accounts of [PerpSettlePnl]. *)
Record SettleAccounts := mkSettleAccounts {
  st_group_pk : Pubkey;
  st_group : Group;
  st_market_pk : Pubkey;
  st_market : PerpMarket;
  st_accounts : gmap Z MangoAccount;
  st_settler_pk : Pubkey;
  st_account_a_pk : Pubkey;
  st_account_b_pk : Pubkey;
  st_oracle : Pubkey * OracleAccount;
  st_settle_bank_pk : Pubkey;
  st_settle_bank : Bank;
  st_settle_oracle : Pubkey * OracleAccount;
  st_remaining : list AccountInfo
}.

#[export] Instance eta_SettleAccounts : Eta SettleAccounts := fun s =>
  mkSettleAccounts
    (st_group_pk s) (st_group s) (st_market_pk s) (st_market s) (st_accounts s) (st_settler_pk s)
    (st_account_a_pk s) (st_account_b_pk s) (st_oracle s) (st_settle_bank_pk s) (st_settle_bank s)
    (st_settle_oracle s) (st_remaining s).

Definition load_account (accounts : gmap Z MangoAccount) (key : Pubkey) : outcome MangoAccount :=
  ok_or (accounts !! key) EAccountType.

(** The constraints on the market, the oracles and the bank. *)
Definition settle_constraints (s : SettleAccounts) : outcome unit :=
  _ ← require (pm_group (st_market s) =? st_group_pk s) EConstraint;
  _ ← require (pm_oracle (st_market s) =? fst (st_oracle s)) EConstraint;
  _ ← require (bk_group (st_settle_bank s) =? st_group_pk s) EConstraint;
  require (bk_oracle (st_settle_bank s) =? fst (st_settle_oracle s)) EConstraint.

Section settle.
Context `{FixedOps}.

(** ** Prices and healths *)

Definition settle_prices (s : SettleAccounts) : outcome (Z * Z) :=
  _ ← require (bk_token_index (st_settle_bank s) =? pm_settle_token_index (st_market s)) (EMango InvalidBank);
  price ← perp_oracle_price (st_market s) (from_reader (st_oracle s)) None;
  settle_token_oracle_price ← oracle_price (st_settle_bank s) (from_reader (st_settle_oracle s)) None;
  Done (price, settle_token_oracle_price).

(** What account b may settle, and the healths of account a. *)
Definition settle_healths (s : SettleAccounts) (account_a account_b : MangoAccount) (clock : Clock) :
    outcome (Z * Z * Z) :=
  retriever ← AccountRetriever.Scanning.new (st_remaining s) (st_group_pk s) (clock_slot clock);
  b_cache ← new_health_cache account_b retriever (clock_ts clock);
  b_max_settle ← perp_max_settle b_cache (pm_settle_token_index (st_market s));
  a_cache ← new_health_cache account_a retriever (clock_ts clock);
  a_liq_end_health ← health a_cache LiquidationEnd;
  a_maint_health ← health a_cache Maint;
  Done (b_max_settle, a_liq_end_health, a_maint_health).

(** ** The settlement *)

(** The positions after settling funding, and their unsettled profits, of opposite signs. *)
Definition settle_pnls (m : PerpMarket) (a b : PerpPosition) (oracle_price : Z) :
    outcome (PerpPosition * PerpPosition * Z * Z) :=
  a ← Perp.settle_funding a m;
  b ← Perp.settle_funding b m;
  a_pnl ← Perp.unsettled_pnl a m oracle_price;
  b_pnl ← Perp.unsettled_pnl b m oracle_price;
  _ ← require (0 <? a_pnl) (EMango ProfitabilityMismatch);
  _ ← require (b_pnl <? 0) (EMango ProfitabilityMismatch);
  Done (a, b, a_pnl, b_pnl).

(** The amount that is settled, within the limits of both positions and the health of
    account b. *)
Definition settlement_amount (m : PerpMarket) (a b : PerpPosition) (a_pnl b_pnl b_max_settle now_ts : Z) :
    outcome (PerpPosition * PerpPosition * Z) :=
  a ← Perp.update_settle_limit a m now_ts;
  a_settleable_pnl ← Perp.apply_pnl_settle_limit a m a_pnl;
  b ← Perp.update_settle_limit b m now_ts;
  b_settleable_pnl ← Perp.apply_pnl_settle_limit b m b_pnl;
  _ ← require (0 <? a_settleable_pnl) (EMango ProfitabilityMismatch);
  _ ← require (b_settleable_pnl <? 0) (EMango ProfitabilityMismatch);
  _ ← require (0 <? b_max_settle) (EMango HealthMustBePositive);
  n ← fx_neg b_settleable_pnl;
  let settlement := Z.max (Z.min (Z.min a_settleable_pnl n) b_max_settle) 0 in
  _ ← require (0 <=? settlement) (EMango SettlementAmountMustBePositive);
  Done (a, b, settlement).

(** [position.perp_spot_transfers += change; account.fixed.perp_spot_transfers += change]. *)
Definition add_spot_transfers (account : MangoAccount) (i : nat) (p : PerpPosition) (change : Z) : outcome MangoAccount :=
  pt ← i64 (pp_perp_spot_transfers p + change);
  ft ← i64 (af_perp_spot_transfers (ma_fixed account) + change);
  Done (set_ma_fixed (Account.set_perp account i (p <| pp_perp_spot_transfers := pt |>))
          ((ma_fixed account) <| af_perp_spot_transfers := ft |>)).

(** The fee of the settler. *)
Definition settle_fee (m : PerpMarket) (a : PerpPosition) (settlement a_pnl oracle_price settle_token_oracle_price
    a_liq_end_health a_maint_health : Z) : outcome Z :=
  n ← Perp.base_position_native a m;
  n ← fx_abs n;
  a_position_value ← fx_mul n oracle_price;
  a_pnl_value ← fx_mul a_pnl settle_token_oracle_price;
  compute_settle_fee m settlement a_pnl_value a_position_value a_liq_end_health a_maint_health.

(** The transfer of the settle token between the two accounts. *)
Definition settle_tokens (bank : Bank) (account_a account_b : MangoAccount) (settle_token_index settlement fee now_ts : Z) :
    outcome (Bank * MangoAccount * MangoAccount) :=
  '(ta, ia) ← Account.token_position_and_raw_index account_a settle_token_index;
  '(tb, ib) ← Account.token_position_and_raw_index account_b settle_token_index;
  n ← fx_sub settlement fee;
  '(bank, ta, _) ← deposit bank ta n now_ts;
  '(bank, tb, _) ← withdraw_without_fee bank tb settlement now_ts;
  Done (bank, Account.set_token account_a ia ta, Account.set_token account_b ib tb).

(** The settler receives the fee. *)
Definition pay_settler (bank : Bank) (settler : MangoAccount) (settler_owner : Pubkey) (settle_token_index fee now_ts : Z) :
    outcome (Bank * MangoAccount) :=
  _ ← owner_check settler settler_owner now_ts;
  '(settler, i, _) ← Account.ensure_token_position settler settle_token_index;
  t ← unwrap (ma_tokens settler !! i);
  '(bank, t, active) ← deposit bank t fee now_ts;
  let settler := Account.set_token settler i t in
  settler ← (if negb active then Account.deactivate_token_position settler i else Done settler);
  Done (bank, settler).

(** The settlement between the two accounts: the bank and the accounts after it, with the
    settlement and the fee. *)
Definition settle_between (s : SettleAccounts) (account_a account_b : MangoAccount) (clock : Clock) :
    outcome (Bank * MangoAccount * MangoAccount * Z * Z) :=
  let m := st_market s in
  let now_ts := clock_ts clock in
  let perp_market_index := pm_perp_market_index m in
  let settle_token_index := pm_settle_token_index m in
  _ ← Account.perp_position account_a perp_market_index;
  _ ← Account.token_position_and_raw_index account_a settle_token_index;
  _ ← Account.perp_position account_b perp_market_index;
  _ ← Account.token_position_and_raw_index account_b settle_token_index;
  '(b_max_settle, a_liq_end_health, a_maint_health) ← settle_healths s account_a account_b clock;
  '(oracle_price, settle_token_oracle_price) ← settle_prices s;
  '(ia, a) ← Account.perp_position account_a perp_market_index;
  '(ib, b) ← Account.perp_position account_b perp_market_index;
  '(a, b, a_pnl, b_pnl) ← settle_pnls m a b oracle_price;
  '(a, b, settlement) ← settlement_amount m a b a_pnl b_pnl b_max_settle now_ts;
  a ← Perp.record_settle a settlement m;
  neg ← fx_neg settlement;
  b ← Perp.record_settle b neg m;
  fee ← settle_fee m a settlement a_pnl oracle_price settle_token_oracle_price a_liq_end_health a_maint_health;
  z ← fx_round_to_zero settlement; settlement_i64 ← fx_to_i64 z;
  z ← fx_round_to_zero fee; fee_i64 ← fx_to_i64 z;
  da ← i64 (settlement_i64 - fee_i64);
  account_a ← add_spot_transfers account_a ia a da;
  account_b ← add_spot_transfers account_b ib b (- settlement_i64);
  '(bank, account_a, account_b) ←
    settle_tokens (st_settle_bank s) account_a account_b settle_token_index settlement fee now_ts;
  Done (bank, account_a, account_b, settlement, fee).

Definition perp_settle_pnl (s : SettleAccounts) (settler_owner : Pubkey) (clock : Clock) : outcome SettleAccounts :=
  let now_ts := clock_ts clock in
  _ ← require (GroupCfg.is_ix_enabled (st_group s) IxPerpSettlePnl) (EMango IxIsDisabled);
  settler ← load_account (st_accounts s) (st_settler_pk s);
  _ ← account_constraint (st_group_pk s) settler true now_ts;
  account_a ← load_account (st_accounts s) (st_account_a_pk s);
  _ ← account_constraint (st_group_pk s) account_a true now_ts;
  account_b ← load_account (st_accounts s) (st_account_b_pk s);
  _ ← account_constraint (st_group_pk s) account_b true now_ts;
  _ ← settle_constraints s;
  _ ← require (negb (st_account_a_pk s =? st_account_b_pk s)) (EMango CannotSettleWithSelf);
  '(bank, account_a, account_b, _, fee) ← settle_between s account_a account_b clock;
  let accounts := <[st_account_b_pk s := account_b]> (<[st_account_a_pk s := account_a]> (st_accounts s)) in
  settler ← load_account accounts (st_settler_pk s);
  '(bank, settler) ← pay_settler bank settler settler_owner (pm_settle_token_index (st_market s)) fee now_ts;
  Done ((s <| st_accounts := <[st_settler_pk s := settler]> accounts |>) <| st_settle_bank := bank |>).

(** ** Fees *)

(** The account whose loss pays the fees is account a; account b and the settler are not
    used. The health is computed from the changed bank and market. *)
Definition perp_settle_fees (s : SettleAccounts) (clock : Clock) (max_settle_amount : Z) : outcome SettleAccounts :=
  let m := st_market s in
  let now_ts := clock_ts clock in
  _ ← require (GroupCfg.is_ix_enabled (st_group s) IxPerpSettleFees) (EMango IxIsDisabled);
  _ ← settle_constraints s;
  account ← load_account (st_accounts s) (st_account_a_pk s);
  _ ← account_constraint (st_group_pk s) account true now_ts;
  _ ← require (0 <? max_settle_amount) (EMango MaxSettleAmountMustBeGreaterThanZero);
  '(oracle_price, _) ← settle_prices s;
  '(i, p) ← Account.perp_position account (pm_perp_market_index m);
  p ← Perp.settle_funding p m;
  pnl ← Perp.unsettled_pnl p m oracle_price;
  settleable_pnl ← Perp.apply_pnl_settle_limit p m pnl;
  if negb (settleable_pnl <? 0) || negb (0 <? pm_fees_accrued m) then
    Done (s <| st_accounts := <[st_account_a_pk s := Account.set_perp account i p]> (st_accounts s) |>)
  else
    x ← fx_abs settleable_pnl;
    y ← fx_abs (pm_fees_accrued m);
    z ← fx_from_int max_settle_amount;
    let settlement := Z.min (Z.min x y) z in
    _ ← require (0 <=? settlement) (EMango SettlementAmountMustBePositive);
    neg ← fx_neg settlement;
    p ← Perp.record_settle p neg m;
    accrued ← fx_sub (pm_fees_accrued m) settlement;
    let m := m <| pm_fees_accrued := accrued |> in
    r ← fx_round settlement;
    settlement_i64 ← fx_to_i64 r;
    _ ← require (0 <=? settlement_i64) (EMango SettlementAmountMustBePositive);
    account ← add_spot_transfers account i p (- settlement_i64);
    '(t, j) ← Account.token_position_and_raw_index account (pm_settle_token_index m);
    '(bank, t, _) ← withdraw_without_fee (st_settle_bank s) t settlement now_ts;
    let account := Account.set_token account j t in
    settled ← fx_add (pm_fees_settled m) settlement;
    let m := m <| pm_fees_settled := settled |> in
    let remaining := sync_market (st_market_pk s) m (sync_bank (st_settle_bank_pk s) bank (st_remaining s)) in
    retriever ← new_fixed_order_account_retriever remaining account (clock_slot clock);
    h ← compute_health account Init retriever now_ts;
    _ ← require (0 <=? h) (EMango HealthMustBePositive);
    Done ((((s <| st_accounts := <[st_account_a_pk s := account]> (st_accounts s) |>) <| st_market := m |>)
             <| st_settle_bank := bank |>) <| st_remaining := remaining |>).

End settle.

(** ** Properties of the perp settlement

    A settlement takes the same amount out of the profit of one account and the loss of
    another, within the settle limits and the health of the losing account, and moves it
    between their token positions; the fee comes out of the profit and goes to the settler. *)

Section settle.
Context `{FixedLaws}.

(** ** The perp positions *)

(** What settling leaves of a position: its market and its base lots. *)
Definition same_base (p p' : PerpPosition) : Prop :=
  pp_market_index p' = pp_market_index p /\ pp_base_position_lots p' = pp_base_position_lots p.

Lemma settle_funding_base p m p' : Perp.settle_funding p m = Done p' -> same_base p p'.
Proof. unfold Perp.settle_funding. intros E. inv_run. simpl. by destruct (0 <? _). Qed.

Lemma update_settle_limit_same p m now p' : Perp.update_settle_limit p m now = Done p' ->
  same_base p p' /\ pp_quote_position_native p' = pp_quote_position_native p.
Proof. unfold Perp.update_settle_limit. intros E. inv_run. destruct (_ || _); by inv_run. Qed.

Lemma record_settle_quote p m pnl p' : Perp.record_settle p pnl m = Done p' ->
  same_base p p' /\ pp_quote_position_native p' = pp_quote_position_native p - pnl.
Proof.
  unfold Perp.record_settle, Perp.change_quote_position. intros E.
  apply bind_Done_inv in E as (n & En & E). apply fx_neg_inv in En as ->.
  apply bind_Done_inv in E as (p1 & E1 & E). apply bind_Done_inv in E1 as (q & Eq & E1). apply fx_add_inv in Eq as ->.
  injection E1 as <-. cbv zeta in E.
  apply bind_Done_inv in E as (o & _ & E). apply bind_Done_inv in E as (u & _ & E).
  apply bind_Done_inv in E as (u2 & _ & E). apply bind_Done_inv in E as (u3 & _ & E).
  apply bind_Done_inv in E as ([p2 d] & E2 & E). apply bind_Done_inv in E as (u4 & _ & E).
  apply bind_Done_inv in E as (s & _ & E). injection E as <-.
  apply PerpPositionSpec.constraint_base in E2 as E3. apply PerpPositionSpec.constraint_change in E2 as (_ & Hq & _).
  unfold same_base. simpl in *. rewrite Hq. split_and!; [apply E3|apply E3|lia].
Qed.

(** [x] is within the settle limit of a position: the market has none, or its limits less
    what was settled in the current window allow [x]. *)
Definition within_settle_limit (m : PerpMarket) (p : PerpPosition) (x : Z) : Prop :=
  SFltb (pm_settle_pnl_limit_factor m) f_zero = true \/
  exists lo hi, Perp.settle_limit p m = Done (lo, hi) /\
    let used := pp_settled_in_current_window p in
    fx_int (Z.min (saturating_sub_i64 lo used) 0) <= x <= fx_int (Z.max (saturating_sub_i64 hi used) 0).

Lemma apply_limit_within p m pnl r x : Perp.apply_pnl_settle_limit p m pnl = Done r ->
  (if 0 <=? pnl then 0 <= x <= r else r <= x <= 0) -> within_settle_limit m p x.
Proof.
  unfold Perp.apply_pnl_settle_limit, Perp.available_settle_limit, within_settle_limit. intros E Hx.
  destruct (SFltb _ _) eqn:Hf; [by left|right]. pose proof scale_pos.
  apply bind_Done_inv in E as ([lo' hi'] & El & E). apply bind_Done_inv in El as (u & _ & El).
  apply bind_Done_inv in El as ([lo hi] & Es & El). injection El as <- <-. exists lo, hi. split; [done|]. cbv zeta.
  unfold fx_int in *. destruct (Z.ltb_spec pnl 0), (Z.leb_spec 0 pnl); try lia;
    apply bind_Done_inv in E as (l & Efl & E); apply fx_from_int_inv in Efl as ->; injection E as <-; unfold fx_int in *; nia.
Qed.

(** The amount is positive and within the unsettled profit of a, the loss of b, their settle
    limits and what the health of b allows. *)
Lemma settlement_amount_inv m a b a_pnl b_pnl bmax now a' b' x :
  0 < a_pnl -> b_pnl < 0 -> settlement_amount m a b a_pnl b_pnl bmax now = Done (a', b', x) ->
  0 < x <= a_pnl /\ x <= - b_pnl /\ x <= bmax /\
  Perp.update_settle_limit a m now = Done a' /\ within_settle_limit m a' x /\
  Perp.update_settle_limit b m now = Done b' /\ within_settle_limit m b' (- x).
Proof.
  intros Ha Hb E. unfold settlement_amount in E.
  apply bind_Done_inv in E as (a1 & Ea & E). apply bind_Done_inv in E as (sa & Esa & E).
  apply bind_Done_inv in E as (b1 & Eb & E). apply bind_Done_inv in E as (sb & Esb & E).
  pose proof (fun x => apply_limit_within _ _ _ _ x Esa) as La. pose proof (fun x => apply_limit_within _ _ _ _ x Esb) as Lb.
  apply pnl_settle_limit_between in Esa as [Hsa _]. apply pnl_settle_limit_between in Esb as [Hsb _].
  rewrite (proj2 (Z.leb_le 0 a_pnl)) in Hsa, La by lia. rewrite (proj2 (Z.leb_gt 0 b_pnl)) in Hsb, Lb by lia.
  inv_run. bool_to_prop. fx_inv. split_and!; try (done || lia); [apply La|apply Lb]; lia.
Qed.

(** ** The settlement *)

(** What the settlement does to the perp position of an account: after its funding is
    settled and its settle window is brought up to date, [x], which is within the limit, is
    recorded as settled; it leaves the quote position and the base position stays. [p3] is
    the position but for its spot transfers. *)
Definition settled_position (m : PerpMarket) (price now x : Z) (p : PerpPosition) (pnl : Z) (p3 p' : PerpPosition) : Prop :=
  exists p1 p2 n, Perp.settle_funding p m = Done p1 /\ Perp.unsettled_pnl p1 m price = Done pnl /\
    Perp.update_settle_limit p1 m now = Done p2 /\ within_settle_limit m p2 x /\
    Perp.record_settle p2 x m = Done p3 /\ p' = p3 <| pp_perp_spot_transfers := n |> /\
    same_base p p' /\ pp_quote_position_native p' = pp_quote_position_native p1 - x.

Lemma settled_position_intro m price now x p pnl p1 p2 p3 n :
  Perp.settle_funding p m = Done p1 -> Perp.unsettled_pnl p1 m price = Done pnl -> Perp.update_settle_limit p1 m now = Done p2 ->
  within_settle_limit m p2 x -> Perp.record_settle p2 x m = Done p3 ->
  settled_position m price now x p pnl p3 (p3 <| pp_perp_spot_transfers := n |>) /\ pp_market_index p3 = pp_market_index p.
Proof.
  intros E1 E2 E3 W E4. pose proof (settle_funding_base _ _ _ E1) as B1. pose proof (update_settle_limit_same _ _ _ _ E3) as [B2 Q2].
  pose proof (record_settle_quote _ _ _ _ E4) as [B3 Q3]. unfold same_base in *.
  split; [|destruct B1, B2, B3; congruence]. exists p1, p2, n. unfold same_base. split_and!; try done; simpl; destruct B1, B2, B3; congruence.
Qed.

Lemma settle_pnls_inv m a b price a1 b1 pa pb : settle_pnls m a b price = Done (a1, b1, pa, pb) ->
  Perp.settle_funding a m = Done a1 /\ Perp.unsettled_pnl a1 m price = Done pa /\ 0 < pa /\
  Perp.settle_funding b m = Done b1 /\ Perp.unsettled_pnl b1 m price = Done pb /\ pb < 0.
Proof.
  unfold settle_pnls. intros E.
  apply bind_Done_inv in E as (a' & Ea & E). apply bind_Done_inv in E as (b' & Eb & E).
  apply bind_Done_inv in E as (pa' & Epa & E). apply bind_Done_inv in E as (pb' & Epb & E).
  apply bind_Done_inv in E as (u1 & C1 & E). apply bind_Done_inv in E as (u2 & C2 & E). injection E as <- <- <- <-.
  apply require_inv, Z.ltb_lt in C1. apply require_inv, Z.ltb_lt in C2. done.
Qed.

Lemma settle_fee_bounds m a x pnl price sprice hl hm fee :
  0 <= x -> settle_fee m a x pnl price sprice hl hm = Done fee -> 0 <= fee <= x.
Proof.
  unfold settle_fee. intros Hx E.
  apply bind_Done_inv in E as (n1 & _ & E). apply bind_Done_inv in E as (n2 & _ & E).
  apply bind_Done_inv in E as (n3 & _ & E). apply bind_Done_inv in E as (n4 & _ & E).
  by eapply settle_fee_within_settlement.
Qed.

Lemma add_spot_transfers_position a i p d a' idx p0 :
  Account.perp_position a idx = Done (i, p0) -> pp_market_index p = pp_market_index p0 -> add_spot_transfers a i p d = Done a' ->
  ma_tokens a' = ma_tokens a /\ exists n, Account.perp_position a' idx = Done (i, p <| pp_perp_spot_transfers := n |>).
Proof.
  unfold add_spot_transfers. intros Ep Hi E.
  apply bind_Done_inv in E as (n1 & _ & E). apply bind_Done_inv in E as (n2 & _ & E). injection E as <-. split; [done|].
  exists n1.
  assert (Hm : pp_market_index (p <| pp_perp_spot_transfers := n1 |>) = idx).
  { apply AccountSpec.perp_position_inv in Ep as (_ & _ & <-). exact Hi. }
  exact (AccountSpec.perp_position_set _ _ _ _ _ Ep Hm).
Qed.

Lemma add_spot_transfers_inv a i p d a' idx p0 :
  Account.perp_position a idx = Done (i, p0) -> pp_market_index p = pp_market_index p0 -> add_spot_transfers a i p d = Done a' ->
  ma_tokens a' = ma_tokens a /\
  exists p', Account.perp_position a' idx = Done (i, p') /\ same_base p p' /\
    pp_quote_position_native p' = pp_quote_position_native p.
Proof.
  intros Ep Hi E. destruct (add_spot_transfers_position _ _ _ _ _ _ _ Ep Hi E) as (Ht & n & Hp). split; [done|].
  eexists. by split_and!.
Qed.

(** The token positions of two accounts in the settle token when one pays the other. *)
Lemma settle_tokens_inv bank a b ti x fee now bank' a' b' :
  indexes_ok bank -> 0 <= bk_loan_origination_fee_rate bank ->
  settle_tokens bank a b ti x fee now = Done (bank', a', b') ->
  exists i ta ta' j tb tb', ma_tokens a !! i = Some ta /\ tp_token_index ta = ti /\ a' = Account.set_token a i ta' /\
    ma_tokens b !! j = Some tb /\ tp_token_index tb = ti /\ b' = Account.set_token b j tb' /\ touched bank bank' /\
    paid bank ta tb (x - fee) x (negb (Token.is_in_use ta)) false (negb (Token.is_in_use tb)) bank' ta' tb'.
Proof.
  intros HI HR E. unfold settle_tokens in E.
  apply bind_Done_inv in E as ([ta i] & Ea & E). apply bind_Done_inv in E as ([tb j] & Eb & E).
  apply token_position_inv in Ea as [La Ta]. apply token_position_inv in Eb as [Lb Tb].
  apply bind_Done_inv in E as (n & En & E). apply fx_sub_inv in En as ->.
  apply bind_Done_inv in E as ([[b1 ta'] act] & Ed & E). apply bind_Done_inv in E as ([[b2 tb'] act2] & Ew & E).
  injection E as <- <- <-. unfold deposit in Ed. unfold withdraw_without_fee in Ew.
  apply bind_Done_inv in Ew as ([[b3 t3] r] & Ew & E). injection E as <- <- <-.
  pose proof (deposit_internal_wrapper_spec _ _ _ _ _ _ _ _ HI Ed) as D.
  assert (HI1 : indexes_ok b1) by (eapply moved_indexes; [apply D|done]).
  pose proof (deposit_touched _ _ _ _ _ _ _ _ Ed) as T1. pose proof (touched_rate _ _ T1) as HR1.
  pose proof (withdraw_internal_wrapper_spec _ _ _ _ _ _ _ _ _ HI1 ltac:(lia) Ew) as W.
  exists i, ta, ta', j, tb, t3. split_and!; try done.
  - by eapply touched_trans, withdraw_touched.
  - by exists b1, act, r.
Qed.

(** What [settle_between] did: [x] moves, of which [fee] is kept back. *)
Definition settlement_between (s : SettleAccounts) (account_a account_b : MangoAccount) (clock : Clock)
    (bank' : Bank) (a' b' : MangoAccount) (x fee : Z) : Prop :=
  exists bmax hl hm price sprice i pa pnl_a a3 pa' j pb pnl_b b3 pb',
    settle_healths s account_a account_b clock = Done (bmax, hl, hm) /\ settle_prices s = Done (price, sprice) /\
    Account.perp_position account_a (pm_perp_market_index (st_market s)) = Done (i, pa) /\
    Account.perp_position account_b (pm_perp_market_index (st_market s)) = Done (j, pb) /\
    0 < x <= pnl_a /\ x <= - pnl_b /\ x <= bmax /\
    settle_fee (st_market s) a3 x pnl_a price sprice hl hm = Done fee /\ 0 <= fee <= x /\
    Account.perp_position a' (pm_perp_market_index (st_market s)) = Done (i, pa') /\
    settled_position (st_market s) price (clock_ts clock) x pa pnl_a a3 pa' /\
    Account.perp_position b' (pm_perp_market_index (st_market s)) = Done (j, pb') /\
    settled_position (st_market s) price (clock_ts clock) (- x) pb pnl_b b3 pb' /\
    exists k ta ta' l tb tb',
      ma_tokens account_a !! k = Some ta /\ tp_token_index ta = pm_settle_token_index (st_market s) /\
      ma_tokens a' = <[k := ta']> (ma_tokens account_a) /\
      ma_tokens account_b !! l = Some tb /\ tp_token_index tb = pm_settle_token_index (st_market s) /\
      ma_tokens b' = <[l := tb']> (ma_tokens account_b) /\
      touched (st_settle_bank s) bank' /\
      paid (st_settle_bank s) ta tb (x - fee) x (negb (Token.is_in_use ta)) false (negb (Token.is_in_use tb)) bank' ta' tb'.

Lemma same_base_trans p q r : same_base p q -> same_base q r -> same_base p r.
Proof. unfold same_base. intros [] []. split; congruence. Qed.

Lemma settle_between_inv s account_a account_b clock bank' a' b' x fee :
  indexes_ok (st_settle_bank s) -> 0 <= bk_loan_origination_fee_rate (st_settle_bank s) ->
  settle_between s account_a account_b clock = Done (bank', a', b', x, fee) ->
  settlement_between s account_a account_b clock bank' a' b' x fee.
Proof.
  intros HI HR E. unfold settle_between in E. cbv zeta in E.
  do 4 (apply bind_Done_inv in E as (? & _ & E)).
  apply bind_Done_inv in E as ([[bmax hl] hm] & Eh & E). apply bind_Done_inv in E as ([price sprice] & Epr & E).
  apply bind_Done_inv in E as ([i pa] & Pa & E). apply bind_Done_inv in E as ([j pb] & Pb & E).
  apply bind_Done_inv in E as ([[[a1 b1] pnl_a] pnl_b] & Ep & E).
  apply settle_pnls_inv in Ep as (Fa & Ua & Ha & Fb & Ub & Hb).
  apply bind_Done_inv in E as ([[a2 b2] x'] & Ex & E).
  apply settlement_amount_inv in Ex as (X1 & X2 & X3 & La & Wa & Lb & Wb); [|done..].
  apply bind_Done_inv in E as (a3 & Ra & E). apply bind_Done_inv in E as (neg & En & E). apply fx_neg_inv in En as ->.
  apply bind_Done_inv in E as (b3 & Rb & E).
  apply bind_Done_inv in E as (fee' & Ef & E). assert (Hfee : 0 <= fee' <= x') by (eapply settle_fee_bounds; [|exact Ef]; lia).
  do 5 (apply bind_Done_inv in E as (? & _ & E)).
  pose proof (fun n => settled_position_intro _ _ _ _ _ _ _ _ _ n Fa Ua La Wa Ra) as Sa.
  pose proof (fun n => settled_position_intro _ _ _ _ _ _ _ _ _ n Fb Ub Lb Wb Rb) as Sb.
  apply bind_Done_inv in E as (ta1 & Ta & E). apply (add_spot_transfers_position _ _ _ _ _ _ _ Pa (proj2 (Sa 0))) in Ta as (Ta & na & Pa').
  apply bind_Done_inv in E as (tb1 & Tb & E). apply (add_spot_transfers_position _ _ _ _ _ _ _ Pb (proj2 (Sb 0))) in Tb as (Tb & nb & Pb').
  apply bind_Done_inv in E as ([[bk a4] b4] & Et & E). injection E as <- <- <- <- <-.
  apply settle_tokens_inv in Et as (k & ta & ta' & l & tb & tb' & Lka & Ia & -> & Llb & Ib & -> & Tch & P); [|done..].
  eexists bmax, hl, hm, price, sprice, i, pa, pnl_a, a3, _, j, pb, pnl_b, b3, _.
  split_and!; try done; try lia; [apply Sa|apply Sb|].
  rewrite Ta, Tb in *. exists k, ta, ta', l, tb, tb'. split_and!; try done; simpl; congruence.
Qed.

(** The settler is paid: it is signed for, and the fee goes to its position in the settle
    token, which is stored in the settler's account, unless nothing is left of it. *)
Definition settler_paid (bank : Bank) (settler : MangoAccount) (ti fee : Z) (bank' : Bank) (settler' : MangoAccount) : Prop :=
  exists i t t' active, taken (ma_tokens settler) ti i t /\
    deposited bank t fee (negb (Token.is_in_use t)) bank' t' active /\
    settler' = set_ma_tokens settler (tidy active i (<[i := t']> (ma_tokens settler))).

Lemma pay_settler_inv bank settler owner ti fee now bank' settler' :
  indexes_ok bank -> pay_settler bank settler owner ti fee now = Done (bank', settler') ->
  Fixed.is_owner_or_delegate (ma_fixed settler) now owner = true /\ settler_paid bank settler ti fee bank' settler'.
Proof.
  intros HI E. unfold pay_settler in E. apply bind_Done_inv in E as (u & C & E). apply require_inv in C. split; [done|].
  apply bind_Done_inv in E as ([[s1 i] k] & Ee & E). apply ensure_taken in Ee as (t0 & Ht & -> & Lt).
  apply bind_Done_inv in E as (t & Et & E). apply unwrap_inv in Et. rewrite Lt in Et. injection Et as ->.
  apply bind_Done_inv in E as ([[b1 t1] act] & Ed & E). apply bind_Done_inv in E as (s2 & Es & E). injection E as <- <-.
  rewrite if_negb, set_token_twice in Es. apply deactivate_tidy in Es as ->.
  exists i, t, t1, act. split_and!; try done. by apply deposit_internal_wrapper_spec in Ed.
Qed.

(** C18: Settling a profit against a loss conserves value. It runs while enabled, on two
    different accounts of the group that are not frozen. The amount is positive and within
    the unsettled profit of a, the unsettled loss of b, the settle limits of both positions,
    in which it is recorded, and what the health of b allows; it leaves the quote position
    of a and joins that of b, after their funding is settled, and the base positions stay.
    The token position of a receives the amount less the fee, that of b pays the amount
    without a loan fee, and the position of the settler, for which its owner or delegate
    signed, receives the fee, which is at most the amount; all three accounts are stored.
    The market stays. The settle bank has positive indexes and a loan fee rate that is not
    negative. *)
Theorem perp_settle_pnl_conserves s owner clock s' :
  indexes_ok (st_settle_bank s) -> 0 <= bk_loan_origination_fee_rate (st_settle_bank s) ->
  perp_settle_pnl s owner clock = Done s' ->
  GroupCfg.is_ix_enabled (st_group s) IxPerpSettlePnl = true /\ st_account_a_pk s <> st_account_b_pk s /\
  st_market s' = st_market s /\
  exists a b a' b' x fee bank1 settler settler',
    st_accounts s !! st_account_a_pk s = Some a /\ st_accounts s !! st_account_b_pk s = Some b /\
    Fixed.is_operational (ma_fixed a) (clock_ts clock) = true /\ Fixed.is_operational (ma_fixed b) (clock_ts clock) = true /\
    settlement_between s a b clock bank1 a' b' x fee /\
    (<[st_account_b_pk s := b']> (<[st_account_a_pk s := a']> (st_accounts s))) !! st_settler_pk s = Some settler /\
    Fixed.is_owner_or_delegate (ma_fixed settler) (clock_ts clock) owner = true /\
    settler_paid bank1 settler (pm_settle_token_index (st_market s)) fee (st_settle_bank s') settler' /\
    st_accounts s' = <[st_settler_pk s := settler']> (<[st_account_b_pk s := b']> (<[st_account_a_pk s := a']> (st_accounts s))).
Proof.
  intros HI HR E. unfold perp_settle_pnl, load_account in E.
  apply bind_Done_inv in E as (u1 & C1 & E). apply require_inv in C1.
  apply bind_Done_inv in E as (settler0 & _ & E). apply bind_Done_inv in E as (u2 & _ & E).
  apply bind_Done_inv in E as (a & La & E). apply bind_Done_inv in E as (u3 & Ca & E).
  apply bind_Done_inv in E as (b & Lb & E). apply bind_Done_inv in E as (u4 & Cb & E).
  apply bind_Done_inv in E as (u5 & _ & E). apply bind_Done_inv in E as (u6 & C6 & E).
  apply require_inv, negb_true_iff, Z.eqb_neq in C6.
  apply bind_Done_inv in E as ([[[[bank1 a'] b'] x] fee] & Es & E). cbv zeta in E.
  apply bind_Done_inv in E as (settler & Ls & E). apply bind_Done_inv in E as ([bank2 settler'] & Ep & E). injection E as <-.
  apply ok_or_inv in La, Lb, Ls. apply settle_between_inv in Es; [|done..].
  assert (HI1 : indexes_ok bank1).
  { destruct Es as (? & ? & ? & ? & ? & ? & ? & ? & ? & ? & ? & ? & ? & ? & ? & _ & _ & _ & _ & _ & _ & _ & _ & _ & _ & _ & _ & _ & P).
    destruct P as (? & ta & ta' & ? & tb & tb' & _ & _ & _ & _ & _ & _ & _ & b1 & act & r & (_ & M1 & _) & (_ & M2 & _)).
    by eapply moved_indexes, moved_indexes. }
  apply pay_settler_inv in Ep as (Ho & D); [|done].
  unfold account_constraint in Ca, Cb.
  apply bind_Done_inv in Ca as (? & _ & Ca). apply require_inv in Ca.
  apply bind_Done_inv in Cb as (? & _ & Cb). apply require_inv in Cb.
  split_and!; try done. exists a, b, a', b', x, fee, bank1, settler, settler'. split_and!; done.
Qed.

End settle.

(** ** A concrete settlement

    Account 30 has an unsettled profit of 50 in market 0, of which its settle limit allows
    40, account 31 a loss of 70 and 100 of the settle token; account 32 settles them. *)
Definition settle_market : PerpMarket :=
  (flat_market <| pm_group := 1 |>) <| pm_settle_pnl_limit_factor := f32_ratio (-1) 1 |>.
Definition limited_market : PerpMarket := settle_market <| pm_settle_pnl_limit_factor := f32_ratio 1 5 |>.

Definition settle_position (quote allowance : Z) : PerpPosition :=
  set_pp_market_index ((perp_position_default <| pp_quote_position_native := quote |>)
    <| pp_oneshot_settle_pnl_allowance := allowance |>) 0.
Definition settle_account (owner quote tokens : Z) : MangoAccount :=
  ((account_default <| ma_fixed := (fixed_default <| af_group := 1 |>) <| af_owner := owner |> |>)
    <| ma_tokens := [set_tp_in_use_count (position_of 0 tokens) 1; Token.default] |>)
    <| ma_perps := [settle_position quote 0] |>.
Definition limited_account (owner quote allowance tokens : Z) : MangoAccount :=
  (settle_account owner quote tokens) <| ma_perps := [settle_position quote allowance] |>.

Definition settle_sample : SettleAccounts :=
  mkSettleAccounts 1 (sample_group <| gr_ix_gate := 0 |>) 40 limited_market
    (<[30 := limited_account 9 (fx_int 50) (fx_int 40) 0]> (<[31 := limited_account 8 (fx_int (-70)) (fx_int (-70)) (fx_int 100)]>
      (<[32 := settle_account 7 0 0]> ∅)))
    32 30 31 (1, stub (fx_int 100)) 20 asset_bank_0 (4, stub fx_one)
    [(20, ABank asset_bank_0); (4, AOracle (stub fx_one)); (40, APerpMarket limited_market); (1, AOracle (stub (fx_int 100)))].

(** The witness of C18: 40 are settled, since the limit of account 30 allows no more. *)
Lemma perp_settle_pnl_conserves_witness :
  exists s', @perp_settle_pnl fixed_ref settle_sample 7 withdraw_clock = Done s' /\ st_market s' = limited_market /\
    (pp_quote_position_native <$> (st_accounts s' !! 30 ≫= fun a => head (ma_perps a))) = Some (fx_int 10) /\
    exists a b a' b' x fee bank1, @settlement_between fixed_ref settle_sample a b withdraw_clock bank1 a' b' x fee.
Proof.
  destruct (@perp_settle_pnl fixed_ref settle_sample 7 withdraw_clock) as [s'| | |] eqn:E; [|vm_compute in E; discriminate E..].
  destruct (@perp_settle_pnl_conserves fixed_ref fixed_ref_laws settle_sample 7 withdraw_clock s')
    as (_ & _ & Hm & a & b & a' & b' & x & fee & bank1 & _ & _ & _ & _ & _ & _ & S & _).
  - split; reflexivity.
  - vm_compute. discriminate.
  - exact E.
  - exists s'. refine (conj eq_refl (conj Hm (conj _ _))); [vm_compute in E; injection E as <-; vm_compute; reflexivity|].
    exists a, b, a', b', x, fee, bank1. exact S.
Defined.
