(* ===== verification/PerpInstructionsSpec.v ===== *)
(** * Properties of the perp instructions

    Events are consumed in order and conserve the base positions and the open interest;
    reduce-only orders only reduce; orders leave the account healthy; a settlement moves
    the same amount between the perp and the token positions of two accounts. *)

From stdpp Require Import base numbers option list gmap fin_maps.
From Stdlib Require Import ZArith Lia SpecFloat.
From S2P Require Import Prelude FixedPoint HealthType TokenPosition OrderTypes Nodes Oracle OrderTree EventQueue BookSide Orders StablePrice Bank BankSpec Group Serum3 PerpMarket PerpPosition PerpPositionSpec MangoAccount MangoAccountSpec HealthCache AccountRetriever TokenInstructions TokenInstructionsSpec TokenLiquidation TokenLiquidationSpec Book BookPlace PerpInstructions PerpSettle.

Open Scope Z_scope.

(** ** Consuming events in order *)

Section events.
Context `{FixedLaws}.

(** The events [es] take the accounts and the market from one state to another: each is
    executed, or skipped because an account belongs to another program. *)
Inductive consumed (idx : Z) (group : Group) (now : Z) : list AnyEvent -> AccountMap * PerpMarket -> AccountMap * PerpMarket -> Prop :=
| consumed_nil s : consumed idx group now [] s s
| consumed_found e es accounts m s1 s2 :
    consume_event idx accounts group m now e = Done (Found s1) -> consumed idx group now es s1 s2 ->
    consumed idx group now (e :: es) (accounts, m) s2
| consumed_foreign e es accounts m s2 :
    consume_event idx accounts group m now e = Done Foreign -> consumed idx group now es (accounts, m) s2 ->
    consumed idx group now (e :: es) (accounts, m) s2.

(** What a run of the loop did: [k] events from the front of the queue. *)
Definition consumed_front (idx : Z) (group : Group) (now : Z) (n k : nat) (accounts : AccountMap) (m : PerpMarket) (q : EventQueue)
    (accounts' : AccountMap) (m' : PerpMarket) (q' : EventQueue) : Prop :=
  queue_inv q' /\ contents q' = drop k (contents q) /\ (k <= n)%nat /\
  consumed idx group now (take k (contents q)) (accounts, m) (accounts', m') /\
  ((k < n)%nat -> contents q' = [] \/
     exists e, head (contents q') = Some e /\ consume_event idx accounts' group m' now e = Done Missing).

Lemma consume_loop_front n idx group now : forall accounts m q accounts' m' q',
  queue_inv q -> consume_loop n idx accounts group m q now = Done (accounts', m', q') ->
  exists k, consumed_front idx group now n k accounts m q accounts' m' q'.
Proof.
  induction n as [|n IH]; intros accounts m q accounts' m' q' I E; simpl in E.
  { injection E as <- <- <-. exists 0%nat. split_and!; [done|by rewrite drop_0|lia|constructor|lia]. }
  rewrite (peek_front_ok q I) in E. run_in E. pose proof (pop_front_ok q I) as P.
  destruct (contents q) as [|e rest] eqn:Ec; simpl in E.
  { injection E as <- <- <-. exists 0%nat. unfold consumed_front. rewrite Ec. split_and!; [done|done|lia|constructor|by left]. }
  destruct P as (q1 & Ep & I1 & C1 & _). apply bind_Done_inv in E as (r & Er & E).
  assert (Hstep : forall s1, consume_loop n idx (fst s1) group (snd s1) q1 now = Done (accounts', m', q') ->
    (forall es s2, consumed idx group now es s1 s2 -> consumed idx group now (e :: es) (accounts, m) s2) ->
    exists k, consumed_front idx group now (S n) k accounts m q accounts' m' q').
  { intros [a1 m1] El Hc. apply IH in El as (k & I' & C' & Hk & Hes & Hend); [|done]. rewrite C1 in *.
    exists (S k). unfold consumed_front. rewrite Ec. split_and!; [done|done|lia|by apply Hc|]. intros Hlt. apply Hend. lia. }
  destruct r as [s1| |].
  - destruct s1 as [a1 m1]. rewrite Ep in E. run_in E. apply (Hstep (a1, m1) E). intros. by eapply consumed_found.
  - injection E as <- <- <-. exists 0%nat. unfold consumed_front. rewrite Ec.
    split_and!; [done|done|lia|constructor|]. intros _. right. by exists e.
  - rewrite Ep in E. run_in E. apply (Hstep (accounts, m) E). intros. by eapply consumed_foreign.
Qed.

(** Consuming events is in order and stops only for a reason. In an enabled instruction on
    the market's own queue, the events at the front of the queue are executed one after the
    other on the accounts and the market and are removed, at most eight of them; an event
    is skipped only if one of its accounts belongs to another program; fewer than asked
    for are consumed only if the queue is empty or the next event needs an account that
    was not passed. *)
Theorem consume_events_in_order gpk group m qpk q accounts clock limit accounts' m' q' :
  queue_inv q -> perp_consume_events gpk group m qpk q accounts clock limit = Done (accounts', m', q') ->
  GroupCfg.is_ix_enabled group IxPerpConsumeEvents = true /\ pm_event_queue m = qpk /\
  exists k, consumed_front (pm_perp_market_index m) group (clock_ts clock) (Z.to_nat (Z.min limit 8)) k accounts m q accounts' m' q'.
Proof.
  intros I E. unfold perp_consume_events in E.
  apply bind_Done_inv in E as (u1 & C1 & E). apply require_inv in C1. apply bind_Done_inv in E as (u2 & _ & E).
  apply bind_Done_inv in E as (u3 & C3 & E). apply require_inv, Z.eqb_eq in C3.
  split_and!; try done. by apply consume_loop_front.
Qed.

(** ** Conservation *)

(** The base position of an account in a market, and its part in the open interest. *)
Definition base_of (idx : Z) (a : MangoAccount) : Z :=
  match Account.perp_position a idx with Done (_, p) => pp_base_position_lots p | _ => 0 end.

Definition sum_accounts (f : MangoAccount -> Z) (accounts : AccountMap) : Z :=
  map_fold (fun _ o n => match o with Some a => f a | None => 0 end + n) 0 accounts.

Lemma sum_accounts_insert f accounts k a a' :
  accounts !! k = Some (Some a) -> sum_accounts f (<[k := Some a']> accounts) = sum_accounts f accounts - f a + f a'.
Proof.
  unfold sum_accounts, AccountMap in *. intros Hk. rewrite <- (insert_delete_eq (M := gmap Z) accounts k (Some a')).
  rewrite map_fold_insert_L; [|intros; lia|apply lookup_delete_eq].
  rewrite (map_fold_delete_L _ _ k (Some a) accounts); [lia|intros; lia|done].
Qed.

Definition total_base (idx : Z) : AccountMap -> Z := sum_accounts (base_of idx).
Definition total_abs (idx : Z) : AccountMap -> Z := sum_accounts (fun a => Z.abs (base_of idx a)).

Lemma base_of_position a idx i p : Account.perp_position a idx = Done (i, p) -> base_of idx a = pp_base_position_lots p.
Proof. unfold base_of. by intros ->. Qed.

(** The changes of a fill and of an out event on one account. *)
Lemma maker_base a now idx m f interval a' m' r :
  Account.execute_perp_maker a now idx m f interval = Done (a', m', r) ->
  base_of idx a' = base_of idx a - AccountSpec.side_sign (fill_taker_side f) * fill_quantity f /\
  pm_open_interest m' - pm_open_interest m = Z.abs (base_of idx a') - Z.abs (base_of idx a).
Proof.
  intros (i & p & p1 & p' & mf & P1 & P2 & _ & _ & _ & _ & F2 & _ & F4 & _)%AccountSpec.execute_perp_maker_ok.
  rewrite (base_of_position _ _ _ _ P1), (base_of_position _ _ _ _ P2). split; [|done].
  destruct (fill_taker_side f); simpl in *; lia.
Qed.

Lemma taker_base a idx m f a' m' r :
  Account.execute_perp_taker a idx m f = Done (a', m', r) ->
  base_of idx a' = base_of idx a + AccountSpec.side_sign (fill_taker_side f) * fill_quantity f /\
  pm_open_interest m' - pm_open_interest m = Z.abs (base_of idx a') - Z.abs (base_of idx a).
Proof.
  intros (i & p & p1 & p' & P1 & P2 & _ & _ & _ & F2 & _ & F4 & _)%AccountSpec.execute_perp_taker_ok.
  by rewrite (base_of_position _ _ _ _ P1), (base_of_position _ _ _ _ P2).
Qed.

Lemma out_base a idx side slot n id a' :
  Account.execute_perp_out_event a idx side slot n id = Done a' -> base_of idx a' = base_of idx a.
Proof.
  unfold Account.execute_perp_out_event. intros E. apply bind_Done_inv in E as ([i p] & Ep & E).
  apply bind_Done_inv in E as (k & _ & E). apply bind_Done_inv in E as (p1 & Ea & E).
  apply bind_Done_inv in E as (oo & _ & E). injection E as <-.
  apply AccountSpec.adjust_maker_lots_keeps in Ea as (Hb & Hi & _).
  pose proof (AccountSpec.perp_position_inv _ _ _ _ Ep) as (_ & _ & Hidx).
  rewrite (base_of_position _ _ _ _ Ep).
  assert (P : Account.perp_position (Account.set_perp a i p1) idx = Done (i, p1)).
  { eapply AccountSpec.perp_position_set; [done|congruence]. }
  change (base_of idx (Account.set_perp_order (Account.set_perp a i p1) slot _)) with (base_of idx (Account.set_perp a i p1)).
  by rewrite (base_of_position _ _ _ _ P).
Qed.

Lemma load_found accounts group k a :
  load_mango_account accounts group k = Done (Found a) -> accounts !! k = Some (Some a).
Proof.
  unfold load_mango_account. destruct (accounts !! k) as [[a'|]|]; intros E; [by injection E as <-| |done].
  by destruct (GroupCfg.is_testing group).
Qed.

(** An event conserves the sum of the base positions, and the open interest follows the sum
    of their sizes. *)
Definition conserved (idx : Z) (s s' : AccountMap * PerpMarket) : Prop :=
  total_base idx (fst s') = total_base idx (fst s) /\
  pm_open_interest (snd s') - total_abs idx (fst s') = pm_open_interest (snd s) - total_abs idx (fst s).

Lemma consume_fill_conserved idx accounts group m now f s' :
  consume_fill idx accounts group m now f = Done (Found s') -> conserved idx (accounts, m) s'.
Proof.
  unfold consume_fill, conserved, total_base, total_abs. intros E. apply bind_Done_inv in E as (l & El & E).
  destruct l as [maker| |]; try done. apply load_found in El.
  destruct (Z.eqb_spec (fill_maker f) (fill_taker f)) as [Heq|Hne].
  - apply bind_Done_inv in E as ([[a1 m1] r1] & E1 & E). apply bind_Done_inv in E as ([[a2 m2] r2] & E2 & E).
    apply bind_Done_inv in E as (x & _ & E). injection E as <-. simpl.
    apply maker_base in E1 as [B1 O1]. apply taker_base in E2 as [B2 O2].
    rewrite !(sum_accounts_insert _ _ _ _ a2 El). lia.
  - apply bind_Done_inv in E as (l2 & El2 & E). destruct l2 as [taker| |]; try done. apply load_found in El2.
    apply bind_Done_inv in E as ([[a1 m1] r1] & E1 & E). apply bind_Done_inv in E as ([[a2 m2] r2] & E2 & E).
    injection E as <-. simpl. apply maker_base in E1 as [B1 O1]. apply taker_base in E2 as [B2 O2].
    assert (El2' : <[fill_maker f := Some a1]> accounts !! fill_taker f = Some (Some taker)) by (unfold AccountMap in *; by rewrite (lookup_insert_ne (M := gmap Z))).
    rewrite !(sum_accounts_insert _ _ _ _ a2 El2'), !(sum_accounts_insert _ _ _ _ a1 El). lia.
Qed.

Lemma consume_event_conserved idx accounts group m now e s' :
  consume_event idx accounts group m now e = Done (Found s') -> conserved idx (accounts, m) s'.
Proof.
  destruct e as [f|o]; simpl; [apply consume_fill_conserved|]. unfold consume_out, conserved, total_base, total_abs.
  intros E. apply bind_Done_inv in E as (l & El & E). destruct l as [a| |]; try done. apply load_found in El.
  apply bind_Done_inv in E as (a' & Ea & E). injection E as <-. apply out_base in Ea. simpl.
  rewrite !(sum_accounts_insert _ _ _ _ a' El), Ea. lia.
Qed.

Lemma consumed_conserved idx group now es s s' : consumed idx group now es s s' -> conserved idx s s'.
Proof.
  induction 1 as [s|e es accounts m s1 s2 E _ IH|e es accounts m s2 _ _ IH]; [done| |done].
  apply consume_event_conserved in E as [E1 E2]. destruct IH as [IH1 IH2]. unfold conserved in *. simpl in *. lia.
Qed.

(** C21: Consuming events conserves the base positions: over the accounts that were passed, the
    sum of the base positions of the market does not change, and the open interest changes
    by the change of the sum of their absolute values, whatever the events are. *)
Theorem consume_events_conserve gpk group m qpk q accounts clock limit accounts' m' q' :
  queue_inv q -> perp_consume_events gpk group m qpk q accounts clock limit = Done (accounts', m', q') ->
  total_base (pm_perp_market_index m) accounts' = total_base (pm_perp_market_index m) accounts /\
  pm_open_interest m' - total_abs (pm_perp_market_index m) accounts' =
    pm_open_interest m - total_abs (pm_perp_market_index m) accounts.
Proof.
  intros I E. unfold perp_consume_events in E.
  apply bind_Done_inv in E as (u1 & _ & E). apply bind_Done_inv in E as (u2 & _ & E). apply bind_Done_inv in E as (u3 & _ & E).
  apply consume_loop_front in E as (k & _ & _ & _ & C & _); [|done]. by apply consumed_conserved in C.
Qed.

End events.

(** ** Reduce-only orders *)

(** A reduce-only order never increases the position: with its limit [n] filled, the
    effective position moves towards zero and does not cross it; in a reduce-only market
    not even if all open orders of the same side are filled too. The limit is never above
    the order's own and never negative. *)
Theorem reduce_only_reduces pp order market_reduce_only n e :
  0 <= Order.max_base_lots order -> 0 <= pp_bids_base_lots pp -> 0 <= pp_asks_base_lots pp ->
  Perp.effective_base_position_lots pp = Done e ->
  reduce_only_max_base_lots pp order market_reduce_only = Done n ->
  0 <= n <= Order.max_base_lots order /\
  (0 < n ->
   match Order.side order with
   | Bid => e < 0 /\ e + n <= 0 /\ (market_reduce_only = true -> e + pp_bids_base_lots pp + n <= 0)
   | Ask => 0 < e /\ 0 <= e - n /\ (market_reduce_only = true -> 0 <= e - pp_asks_base_lots pp - n)
   end).
Proof.
  intros Hm Hb Ha He E. unfold reduce_only_max_base_lots in E. rewrite He in E. run_in E.
  apply bind_Done_inv in E as (al & Eal & E). injection E as <-.
  destruct (Order.side order); simpl in Eal.
  - destruct (Z.leb_spec 0 e); simpl in Eal; [injection Eal as <-; lia|].
    destruct market_reduce_only; inv_run; split; try lia; intros; split_and!; try done; lia.
  - destruct (Z.leb_spec e 0); simpl in Eal; [injection Eal as <-; lia|].
    destruct market_reduce_only; inv_run; split; try lia; intros; split_and!; try done; lia.
Qed.

(** ** Placing orders *)

Section placing.
Context `{FixedLaws}.

(** The side of a reduce-only order with [n] lots against a position of [e] effective lots. *)
Definition only_reduces (order : Order.Order) (pp : PerpPosition) (market_reduce_only : bool) (e n : Z) : Prop :=
  match Order.side order with
  | Bid => e < 0 /\ e + n <= 0 /\ (market_reduce_only = true -> e + pp_bids_base_lots pp + n <= 0)
  | Ask => 0 < e /\ 0 <= e - n /\ (market_reduce_only = true -> 0 <= e - pp_asks_base_lots pp - n)
  end.

(** The limit on the lots of an order. *)
Lemma limit_base_lots_inv m pp order n :
  limit_base_lots m pp order = Done n -> 0 <= Order.max_base_lots order ->
  0 <= pp_bids_base_lots pp -> 0 <= pp_asks_base_lots pp ->
  0 <= n <= Order.max_base_lots order /\
  (Order.reduce_only order || is_reduce_only m = true -> 0 < n ->
   exists e, Perp.effective_base_position_lots pp = Done e /\ only_reduces order pp (is_reduce_only m) e n).
Proof.
  intros E Hm Hb Ha. unfold limit_base_lots in E. apply bind_Done_inv in E as (e & Ee & E).
  apply bind_Done_inv in E as (k & Ek & E). apply bind_Done_inv in E as (u & _ & E). injection E as ->.
  destruct (Order.reduce_only order || is_reduce_only m) eqn:R; [|injection Ek as <-; split; [lia|done]].
  destruct (reduce_only_reduces _ _ _ _ _ Hm Hb Ha Ee Ek) as [Hn Hr]. split; [done|].
  intros _ Hp. exists e. split; [done|]. exact (Hr Hp).
Qed.

(** What the health checks around placing an order establish. *)
Lemma place_pre_health_inv ais a ti clock a' o :
  place_pre_health ais a ti clock = Done (a', o) -> Fixed.is_in_health_region (ma_fixed a) = false ->
  exists c pre, o = Some (c, pre) /\ fixed_order_cache ais a clock c /\ health c Init = Done pre /\
    Fixed.being_liquidated (ma_fixed a') = false.
Proof.
  unfold place_pre_health. intros E R. rewrite R in E. simpl in E.
  apply bind_Done_inv in E as (r & Er & E). apply bind_Done_inv in E as (c & Ec & E). apply bind_Done_inv in E as (? & _ & E).
  apply bind_Done_inv in E as ([a1 pre] & Ep & E). injection E as <- <-. apply check_health_pre_flag in Ep as (? & ? & _).
  exists c, pre. unfold fixed_order_cache. eauto 10.
Qed.

Lemma place_pre_health_account ais a ti clock a' o :
  place_pre_health ais a ti clock = Done (a', o) -> a' = set_ma_fixed a (ma_fixed a').
Proof.
  unfold place_pre_health. destruct (negb _); intros E; [|injection E as <- <-; by destruct a].
  apply bind_Done_inv in E as (r & _ & E). apply bind_Done_inv in E as (c & _ & E). apply bind_Done_inv in E as (? & _ & E).
  apply bind_Done_inv in E as ([a1 pre] & Ep & E). injection E as <- <-. by apply check_health_pre_account in Ep.
Qed.

Lemma expire_buyback_fees_flag f now_ts interval f' :
  Fixed.expire_buyback_fees f now_ts interval = Done f' -> Fixed.being_liquidated f' = Fixed.being_liquidated f.
Proof.
  unfold Fixed.expire_buyback_fees. destruct (_ || _); intros E; [by injection E as <-|].
  apply bind_Done_inv in E as (e & _ & E). cbv zeta in E. apply bind_Done_inv in E as (n & _ & E).
  apply bind_Done_inv in E as (t & _ & E). injection E as <-. by destruct (_ <? _).
Qed.

Lemma place_post_health_inv c pre a m u :
  place_post_health (Some (c, pre)) a m = Done u ->
  exists i pp c' post, Account.perp_position a (pm_perp_market_index m) = Done (i, pp) /\
    recompute_perp_info c pp m = Done c' /\ health c' Init = Done post /\ health_kept pre post.
Proof.
  unfold place_post_health. intros E. apply bind_Done_inv in E as ([i pp] & Ei & E).
  apply bind_Done_inv in E as (c' & Ec & E). apply bind_Done_inv in E as (post & Epost & _).
  unfold Account.check_health_post in Epost. apply bind_Done_inv in Epost as (h & Eh & Epost).
  apply bind_Done_inv in Epost as ([] & Ek & _). apply check_health_post_checks_kept in Ek. by exists i, pp, c', h.
Qed.

Lemma place_order_constraints_inv x clock u :
  place_order_constraints x clock = Done u ->
  GroupCfg.is_ix_enabled (px_group x) IxPerpPlaceOrder = true /\
  Fixed.is_operational (ma_fixed (px_account x)) (clock_ts clock) = true.
Proof.
  unfold place_order_constraints, account_constraint. intros E. apply bind_Done_inv in E as (? & E1 & E).
  apply bind_Done_inv in E as (? & E2 & E). apply bind_Done_inv in E2 as (? & _ & E2).
  split; [by apply require_inv in E1|by apply require_inv in E2].
Qed.

(** C10: what a successful [perp_place_order] guarantees. The instruction is enabled, the account is
    not frozen and the signer is its owner or delegate. With the funding of the market updated,
    the order is matched as [new_order] does, cut to a number of lots that is at most the
    requested one; if the order or the market is reduce-only, that many lots on top of the
    position (in a reduce-only market: and of the open orders of the side) only bring the
    position closer to zero; both hold for a position whose lots in open bids and asks are
    not negative. Outside of a health region the account is not being liquidated, and its
    init health with the new position is not negative or not lower than before, where below
    -1000 it may fall within the same whole unit ([health_kept]). *)
Theorem perp_place_order_safe x owner clock order limit x' r :
  perp_place_order x owner clock order limit = Done (x', r) ->
  GroupCfg.is_ix_enabled (px_group x) IxPerpPlaceOrder = true /\
  Fixed.is_operational (ma_fixed (px_account x)) (clock_ts clock) = true /\
  Fixed.is_owner_or_delegate (ma_fixed (px_account x)) (clock_ts clock) owner = true /\
  exists state m a0 k a i pp n,
    oracle_state (px_market x) (from_reader (px_oracle x)) None = Done state /\
    update_funding_and_stable_price (px_market x) (px_book x) state (clock_ts clock) = Done m /\
    Account.ensure_perp_position (px_account x) (pm_perp_market_index m) (pm_settle_token_index m) = Done (a0, k) /\
    a = set_ma_fixed a0 (ma_fixed a) /\ Account.perp_position a (pm_perp_market_index m) = Done (i, pp) /\
    new_order (px_book x) (with_max_base_lots order n) m (px_event_queue x) (Oracle.os_price state) a (px_account_pk x)
      (clock_ts clock) limit = Done (px_book x', px_market x', px_event_queue x', px_account x', r) /\
    (0 <= pp_bids_base_lots pp -> 0 <= pp_asks_base_lots pp ->
     0 <= n <= Order.max_base_lots order /\
     (Order.reduce_only order || is_reduce_only m = true -> 0 < n ->
      exists e, Perp.effective_base_position_lots pp = Done e /\ only_reduces order pp (is_reduce_only m) e n)) /\
    (Fixed.is_in_health_region (ma_fixed (px_account x)) = false -> Fixed.being_liquidated (ma_fixed a) = false /\
     exists c pre j pp' c' post, fixed_order_cache (sync_market (px_market_pk x) m (px_remaining x)) a0 clock c /\
       health c Init = Done pre /\
       Account.perp_position (px_account x') (pm_perp_market_index (px_market x')) = Done (j, pp') /\
       recompute_perp_info c pp' (px_market x') = Done c' /\ health c' Init = Done post /\ health_kept pre post).
Proof.
  unfold perp_place_order. intros E. apply bind_Done_inv in E as (u & Hc & E).
  apply place_order_constraints_inv in Hc as [Hix Hop]. apply bind_Done_inv in E as (u1 & Hb & E). apply require_inv, Z.leb_le in Hb.
  apply bind_Done_inv in E as (u2 & _ & E). apply bind_Done_inv in E as (state & Es & E).
  apply bind_Done_inv in E as (m & Em & E). apply bind_Done_inv in E as (u3 & Ho & E). apply require_inv in Ho.
  apply bind_Done_inv in E as ([a0 k] & E0 & E). pose proof (ensure_perp_position_fixed _ _ _ _ _ E0) as Hfix.
  apply bind_Done_inv in E as ([a1 o] & Epre & E). apply bind_Done_inv in E as (f & Ef & E). cbv zeta in E.
  apply bind_Done_inv in E as ([i pp] & Epp & E). apply bind_Done_inv in E as (n & En & E).
  apply bind_Done_inv in E as ([[[[book m'] q'] a'] id] & Eo & E). apply bind_Done_inv in E as (u4 & Epost & E).
  injection E as <- <-. split_and!; try done. exists state, m, a0, k, (set_ma_fixed a1 f), i, pp, n. split_and!; try done.
  - by rewrite (place_pre_health_account _ _ _ _ _ _ Epre).
  - intros Hbids Hasks. by apply limit_base_lots_inv.
  - intros R. rewrite <- Hfix in R. destruct (place_pre_health_inv _ _ _ _ _ _ Epre R) as (c & pre & -> & Hca & Hpre & Hl).
    split; [simpl; by rewrite (expire_buyback_fees_flag _ _ _ _ Ef)|].
    apply place_post_health_inv in Epost as (j & pp' & c' & post & H1 & H2 & H3 & H4). by exists c, pre, j, pp', c', post.
Qed.

(** An order never outlives the expiry its owner asked for. An entry point that places orders
    either leaves everything as it is, because the expiry is in the past, or runs
    [perp_place_order] with an order of the requested side and lots that never expires if no
    expiry was given and otherwise expires at the expiry or earlier. *)
Theorem placed_order_expires_in_time x owner clock side price_lots max_base_lots max_quote_lots client_order_id
    order_type self_trade_behavior reduce_only expiry_timestamp limit x' r :
  is_u64 (clock_ts clock) -> is_u64 expiry_timestamp ->
  perp_place_order_v2 x owner clock side price_lots max_base_lots max_quote_lots client_order_id order_type
    self_trade_behavior reduce_only expiry_timestamp limit = Done (x', r) ->
  (x' = x /\ r = None /\ expiry_timestamp <> 0 /\ expiry_timestamp <= clock_ts clock) \/
  exists order, perp_place_order x owner clock order limit = Done (x', r) /\
    Order.side order = side /\ Order.max_base_lots order = max_base_lots /\ Order.max_quote_lots order = max_quote_lots /\
    Order.reduce_only order = reduce_only /\ place_params order_type price_lots = Done (Order.params order) /\
    is_u16 (Order.time_in_force order) /\
    (if expiry_timestamp =? 0 then Order.time_in_force order = 0
     else 0 < Order.time_in_force order /\ clock_ts clock + Order.time_in_force order <= expiry_timestamp).
Proof.
  intros Hn He E. unfold perp_place_order_v2 in E. apply bind_Done_inv in E as (u & _ & E).
  apply bind_Done_inv in E as (u1 & _ & E). pose proof (Order.tif_from_expiry_bounds _ _ Hn He) as B.
  destruct (Order.tif_from_expiry _ _) as [tif|].
  - apply bind_Done_inv in E as (ps & Ep & E). right. eexists. split; [exact E|]. simpl. split_and!; try done; [apply B|].
    destruct (expiry_timestamp =? 0); [apply B|]. lia.
  - injection E as <- <-. left. split_and!; try done; apply B.
Qed.

End placing.

(** ** Concrete instances *)

(** A queue with the fill of [AccountSpec.sample_fill], and its two accounts. *)
Definition fill_queue : EventQueue :=
  mkQueue 0 1 1 (AFill AccountSpec.sample_fill :: replicate (MAX_NUM_EVENTS - 1) (AFill zero_fill)).

Definition fill_accounts : AccountMap :=
  <[3 := Some AccountSpec.placed_account]> (<[8 := Some AccountSpec.sample_account]> ∅).

Definition open_group : Group := sample_group <| gr_ix_gate := 0 |>.

Lemma fill_queue_inv : queue_inv fill_queue.
Proof. constructor; simpl; unfold MAX_NUM_EVENTS; unfold_widths; (done || lia). Qed.

Definition fill_consumed : outcome (AccountMap * PerpMarket * EventQueue) :=
  @perp_consume_events fixed_ref 0 open_group flat_market (pm_event_queue flat_market) fill_queue fill_accounts
    (mkClock 1000 5) 3.

Lemma fill_is_consumed : exists r, fill_consumed = Done r.
Proof. eexists. vm_compute. reflexivity. Qed.

(** A concrete instance: a limit of three events on a queue of one. *)
Lemma consume_events_in_order_witness :
  exists accounts' m' q', fill_consumed = Done (accounts', m', q') /\
    exists k, (k <= 3)%nat /\ contents q' = drop k [AFill AccountSpec.sample_fill].
Proof.
  destruct fill_is_consumed as [[[accounts' m'] q'] E]. exists accounts', m', q'. split; [exact E|].
  destruct (@consume_events_in_order fixed_ref 0 open_group flat_market (pm_event_queue flat_market) fill_queue fill_accounts
    (mkClock 1000 5) 3 accounts' m' q' fill_queue_inv E) as (_ & _ & k & _ & C & Hk & _).
  exists k. exact (conj Hk C).
Defined.

(** The witness of C21: the fill moves four lots from one account to the other. *)
Lemma consume_events_conserve_witness :
  exists accounts' m' q', fill_consumed = Done (accounts', m', q') /\ total_base 0 accounts' = 0 /\
    pm_open_interest m' = total_abs 0 accounts'.
Proof.
  destruct fill_is_consumed as [[[accounts' m'] q'] E]. exists accounts', m', q'. split; [exact E|].
  destruct (@consume_events_conserve fixed_ref fixed_ref_laws 0 open_group flat_market (pm_event_queue flat_market) fill_queue
    fill_accounts (mkClock 1000 5) 3 accounts' m' q' fill_queue_inv E) as [H1 H2].
  vm_compute pm_perp_market_index in H1, H2. rewrite H1. split; [vm_compute; reflexivity|].
  assert (H3 : pm_open_interest flat_market - total_abs 0 fill_accounts = 0) by (vm_compute; reflexivity).
  rewrite H3 in H2. exact (proj1 (Z.sub_move_0_r _ _) H2).
Defined.

(** A short position of 5 lots, with bids for 2 lots. *)
Definition short_position : PerpPosition :=
  (perp_position_default <| pp_base_position_lots := -5 |>) <| pp_bids_base_lots := 2 |>.

(** A concrete instance: a reduce-only bid for 10 lots in a reduce-only market is cut to 3. *)
Lemma reduce_only_reduces_witness :
  exists n, reduce_only_max_base_lots short_position (with_max_base_lots BookPlace.sample_bid 10) true = Done n /\
    n = 3 /\ 0 <= n <= 10.
Proof.
  destruct (reduce_only_max_base_lots short_position (with_max_base_lots BookPlace.sample_bid 10) true) as [n| | |] eqn:E;
    [|vm_compute in E; discriminate E..].
  destruct (reduce_only_reduces short_position (with_max_base_lots BookPlace.sample_bid 10) true n (-5)) as [H1 _];
    [vm_compute; discriminate..|reflexivity|exact E|].
  exists n. split; [reflexivity|]. split; [vm_compute in E; injection E as <-; reflexivity|exact H1].
Defined.

(** An account with 100000 of the settle token places an order in an empty market. *)
Definition placing_accounts : PerpAccounts :=
  mkPerpAccounts 1 open_group 30 (settle_account 9 0 (fx_int 100000)) 40 settle_market
    (pm_bids settle_market) (pm_asks settle_market)
    (mkOrderbook (bookside_zeroed Bids) (bookside_zeroed Asks)) (pm_event_queue settle_market) queue_zeroed
    (1, stub (fx_int 100))
    [(20, ABank asset_bank_0); (4, AOracle (stub fx_one)); (40, APerpMarket settle_market); (1, AOracle (stub (fx_int 100)))].

Definition bid_placed : outcome (PerpAccounts * option Z) :=
  @perp_place_order fixed_ref placing_accounts 9 withdraw_clock (with_max_base_lots BookPlace.sample_bid 2) 10.

Lemma bid_is_placed : exists x' r, bid_placed = Done (x', r).
Proof. destruct bid_placed as [[x' r]| | |] eqn:E; [eauto|vm_compute in E; discriminate E..]. Qed.

(** The witness of C10 of [perp_place_order_safe]: a bid for two lots. *)
Lemma perp_place_order_safe_witness :
  exists x' r a0 m c pre j pp' c' post, bid_placed = Done (x', r) /\
    @fixed_order_cache fixed_ref (sync_market (px_market_pk placing_accounts) m (px_remaining placing_accounts)) a0 withdraw_clock c /\
    @health fixed_ref c Init = Done pre /\
    Account.perp_position (px_account x') (pm_perp_market_index (px_market x')) = Done (j, pp') /\
    @recompute_perp_info fixed_ref c pp' (px_market x') = Done c' /\ @health fixed_ref c' Init = Done post /\
    health_kept pre post.
Proof.
  destruct bid_is_placed as (x' & r & E).
  destruct (@perp_place_order_safe fixed_ref fixed_ref_laws placing_accounts 9 withdraw_clock
    (with_max_base_lots BookPlace.sample_bid 2) 10 x' r E)
    as (_ & _ & _ & state & m & a0 & k & a & i & pp & n & _ & _ & _ & _ & _ & _ & _ & Hh).
  destruct (Hh eq_refl) as (_ & c & pre & j & pp' & c' & post & P).
  exists x', r, a0, m, c, pre, j, pp', c', post. exact (conj E P).
Defined.

(** A concrete instance of [placed_order_expires_in_time]: an order that has expired is skipped. *)
Lemma placed_order_expires_in_time_witness :
  exists x' r, @perp_place_order_v2 fixed_ref placing_accounts 9 withdraw_clock Bid 18 2 1000 77 PLimit DecrementTake false 1 10 =
    Done (x', r) /\ (x' = placing_accounts \/ exists order,
      @perp_place_order fixed_ref placing_accounts 9 withdraw_clock order 10 = Done (x', r)).
Proof.
  exists placing_accounts, None.
  assert (E : @perp_place_order_v2 fixed_ref placing_accounts 9 withdraw_clock Bid 18 2 1000 77 PLimit DecrementTake false 1 10 =
    Done (placing_accounts, None)) by (vm_compute; reflexivity).
  split; [exact E|].
  destruct (@placed_order_expires_in_time fixed_ref placing_accounts 9 withdraw_clock Bid 18 2 1000 77 PLimit
    DecrementTake false 1 10 placing_accounts None) as [(H1 & _)|(order & H1 & _)].
  - split; vm_compute; discriminate.
  - split; vm_compute; discriminate.
  - exact E.
  - left. exact H1.
  - right. exists order. exact H1.
Defined.
