(* ===== verification/PerpLiquidation.v ===== *)
(** * Perp liquidation

    instructions/perp_liq_base_or_positive_pnl.rs and
    perp_liq_negative_pnl_or_bankruptcy.rs with the constraints of accounts_ix: the liqor
    takes over base lots and positive pnl, or negative pnl against the settle token, the
    insurance fund and at last all positions of the market. Logs are left out, but for the
    conversions in their arguments that may panic. *)

From stdpp Require Import base numbers option list.
From Stdlib Require Import ZArith Lia SpecFloat.
From S2P Require Import Prelude FixedPoint HealthType TokenPosition OrderTypes Nodes Oracle StablePrice Bank Group Serum3 PerpMarket PerpPosition MangoAccount HealthCache AccountRetriever TokenInstructions TokenLiquidation PerpInstructions PerpSettle.

Open Scope Z_scope.

(** ** Accounts *)

Record PerpLiqAccounts := mkPerpLiqAccounts {
  pl_liq : LiqAccounts;
  pl_market_pk : Pubkey;
  pl_market : PerpMarket;
  pl_oracle : Pubkey * OracleAccount;
  pl_settle_bank_pk : Pubkey;
  pl_settle_bank : Bank;
  pl_settle_vault_pk : Pubkey;
  pl_settle_oracle : Pubkey * OracleAccount;
  pl_remaining : list AccountInfo
}.

#[export] Instance eta_PerpLiqAccounts : Eta PerpLiqAccounts := fun p =>
  mkPerpLiqAccounts
    (pl_liq p) (pl_market_pk p) (pl_market p) (pl_oracle p) (pl_settle_bank_pk p) (pl_settle_bank p)
    (pl_settle_vault_pk p) (pl_settle_oracle p) (pl_remaining p).

Definition with_accounts (l : LiqAccounts) (liqor liqee : MangoAccount) : LiqAccounts :=
  mkLiqAccounts (lq_group_pk l) (lq_group l) (lq_liqor_pk l) liqor (lq_liqee_pk l) liqee.

Definition perp_liq_constraints (p : PerpLiqAccounts) (ix : IxGate) (now_ts : Z) : outcome unit :=
  let l := pl_liq p in
  _ ← liq_constraints l ix now_ts;
  _ ← require (pm_group (pl_market p) =? lq_group_pk l) EConstraint;
  _ ← require (pm_oracle (pl_market p) =? fst (pl_oracle p)) EConstraint;
  _ ← require (bk_group (pl_settle_bank p) =? lq_group_pk l) EConstraint;
  _ ← require (bk_token_index (pl_settle_bank p) =? pm_settle_token_index (pl_market p)) (EMango InvalidBank);
  _ ← require (bk_vault (pl_settle_bank p) =? pl_settle_vault_pk p) EConstraint;
  require (bk_oracle (pl_settle_bank p) =? fst (pl_settle_oracle p)) EConstraint.

(** The passed accounts after the market and the bank changed. *)
Definition sync_perp (p : PerpLiqAccounts) (m : PerpMarket) (b : Bank) : list AccountInfo :=
  sync_market (pl_market_pk p) m (sync_bank (pl_settle_bank_pk p) b (pl_remaining p)).

(** The variables that the steps of the base reduction update. *)
Record Reduction := mkReduction {
  rd_base_reduction : Z;
  rd_pnl_transfer : Z;
  rd_current_uhupnl : Z;
  rd_current_health : Z;
  rd_current_settle_token : Z
}.

(** What the steps do not change: [settle_token_info], the base lots of the liqee, the two
    limits of the caller and the per-lot and per-unit gains. *)
Record ReductionParams := mkReductionParams {
  rp_settle_token_info : TokenInfo;
  rp_liqee_base_lots : Z;
  rp_max_base_transfer : Z;
  rp_max_pnl_transfer : Z;
  rp_uhupnl_per_lot : Z;
  rp_spot_gain_per_settled : Z;
  rp_init_overall_asset_weight : Z
}.

Section liquidation.
Context `{FixedOps}.

(** ** Amounts *)

(** The direction of the base transfer of the liqee, the two fee factors and the gain per
    lot. *)
Definition base_factors (m : PerpMarket) (liqee_base_lots max_base_transfer oracle_price_per_lot : Z) :
    outcome (Z * Z * Z * Z) :=
  if 0 <? liqee_base_lots then
    _ ← require (0 <=? max_base_transfer) error_msg;
    factor_liqor ← fx_sub fx_one (pm_base_liquidation_fee m);
    factor_all ← fx_sub factor_liqor (pm_platform_liquidation_fee m);
    n ← fx_neg (pm_init_base_asset_weight m);
    n ← fx_add n factor_all;
    uhupnl_per_lot ← fx_mul oracle_price_per_lot n;
    Done (-1, factor_liqor, factor_all, uhupnl_per_lot)
  else
    _ ← require (max_base_transfer <=? 0) error_msg;
    factor_liqor ← fx_add fx_one (pm_base_liquidation_fee m);
    factor_all ← fx_add factor_liqor (pm_platform_liquidation_fee m);
    n ← fx_sub (pm_init_base_liab_weight m) factor_all;
    uhupnl_per_lot ← fx_mul oracle_price_per_lot n;
    Done (1, factor_liqor, factor_all, uhupnl_per_lot).

(** The effective settle token that brings the health to zero. *)
Definition settle_token_for_health (p : ReductionParams) (r : Reduction) : outcome Z :=
  a ← asset_weighted_price (rp_settle_token_info p) LiquidationEnd;
  l ← liab_weighted_price (rp_settle_token_info p) LiquidationEnd;
  Perp.unwrap_result
    (spot_amount_given_for_health_zero (rd_current_health r) (rd_current_settle_token r) a l).

(** The health after the effective settle token changed. *)
Definition health_with_token (p : ReductionParams) (r : Reduction) (new_settle_token : Z) : outcome Z :=
  c ← token_health_contribution (rp_settle_token_info p) LiquidationEnd (rd_current_settle_token r);
  h ← fx_sub (rd_current_health r) c;
  c ← token_health_contribution (rp_settle_token_info p) LiquidationEnd new_settle_token;
  fx_add h c.

(** The arguments of a log message. *)
Fixpoint log_i64 (xs : list Z) : outcome unit :=
  match xs with
  | [] => Done tt
  | x :: xs => _ ← fx_to_i64 x; log_i64 xs
  end.

Definition reduce_base (p : ReductionParams) (uhupnl_limit expected_settle_token_per_lot actual_settle_token_per_lot : Z)
    (r : Reduction) : outcome Reduction :=
  max_settle_token_for_health ← settle_token_for_health p r;
  let max_settle_token := Z.min max_settle_token_for_health uhupnl_limit in
  n ← fx_div max_settle_token expected_settle_token_per_lot;
  n ← fx_ceil n;
  n ← fx_to_i64 n;
  x ← i64 (Z.abs (rp_liqee_base_lots p));
  x ← i64 (x - rd_base_reduction r);
  y ← i64 (Z.abs (rp_max_base_transfer p));
  y ← i64 (y - rd_base_reduction r);
  let base_lots := Z.max (Z.min (Z.min n x) y) 0 in
  lots ← fx_from_int base_lots;
  expected_settle_token_gain ← fx_mul expected_settle_token_per_lot lots;
  new_expected_settle_token ← fx_add (rd_current_settle_token r) expected_settle_token_gain;
  new_expected_health ← health_with_token p r new_expected_settle_token;
  uhupnl_gain ← fx_mul (rp_uhupnl_per_lot p) lots;
  new_uhupnl ← fx_add (rd_current_uhupnl r) uhupnl_gain;
  actual_gain ← fx_mul actual_settle_token_per_lot lots;
  new_settle_token ← fx_add (rd_current_settle_token r) actual_gain;
  new_health ← health_with_token p r new_settle_token;
  _ ← log_i64 [rd_current_health r; new_health; new_expected_health; rd_current_uhupnl r; new_uhupnl];
  base_reduction ← i64 (rd_base_reduction r + base_lots);
  Done (mkReduction base_reduction (rd_pnl_transfer r) new_uhupnl new_health new_settle_token).

Definition settle_pnl (p : ReductionParams) (settle_token_per_settle : Z) (r : Reduction) : outcome Reduction :=
  max_settle_token_for_health ← settle_token_for_health p r;
  n ← fx_div max_settle_token_for_health settle_token_per_settle;
  d ← fx_sub (rp_max_pnl_transfer p) (rd_pnl_transfer r);
  let settle := Z.max (Z.min (Z.min n d) (rd_current_uhupnl r)) 0 in
  settle_token_gain ← fx_mul settle settle_token_per_settle;
  new_settle_token ← fx_add (rd_current_settle_token r) settle_token_gain;
  new_uhupnl ← fx_sub (rd_current_uhupnl r) settle;
  new_expected_health ← health_with_token p r new_settle_token;
  _ ← log_i64 [settle; rd_current_health r; new_expected_health; rd_current_uhupnl r; new_uhupnl];
  pnl_transfer ← fx_add (rd_pnl_transfer r) settle;
  Done (mkReduction (rd_base_reduction r) pnl_transfer new_uhupnl new_expected_health new_settle_token).

(** Step 1: base reduction while the unsettled health pnl is negative. *)
Definition reduce_negative (p : ReductionParams) (r : Reduction) : outcome Reduction :=
  if rd_current_uhupnl r <? 0 then
    n ← fx_neg (rd_current_uhupnl r);
    reduce_base p n (rp_uhupnl_per_lot p) (rp_uhupnl_per_lot p) r
  else Done r.

(** Steps 2 and 4: settlement of positive pnl. *)
Definition settle_positive (p : ReductionParams) (r : Reduction) : outcome Reduction :=
  if (0 <=? rd_current_uhupnl r) && (rp_init_overall_asset_weight p <? rp_spot_gain_per_settled p) then
    g ← fx_sub (rp_spot_gain_per_settled p) (rp_init_overall_asset_weight p);
    settle_pnl p g r
  else Done r.

(** Step 3: base reduction towards further settlement. *)
Definition reduce_settleable (p : ReductionParams) (r : Reduction) : outcome Reduction :=
  if (0 <=? rd_current_uhupnl r) && (rd_pnl_transfer r <? rp_max_pnl_transfer p) then
    d ← fx_sub (rp_max_pnl_transfer p) (rd_pnl_transfer r);
    e ← fx_mul (rp_uhupnl_per_lot p) (rp_spot_gain_per_settled p);
    a ← fx_mul (rp_uhupnl_per_lot p) (rp_init_overall_asset_weight p);
    reduce_base p d e a r
  else Done r.

(** Step 5: base reduction while the weighted pnl improves health; the target is -1/2. *)
Definition reduce_positive (p : ReductionParams) (r : Reduction) : outcome Reduction :=
  if (rd_current_health r <? - (fx_scale / 2)) && (0 <? rp_init_overall_asset_weight p) then
    a ← fx_mul (rp_uhupnl_per_lot p) (rp_init_overall_asset_weight p);
    reduce_base p I128_MAX a a r
  else Done r.

Definition reduction_steps (p : ReductionParams) (r : Reduction) : outcome Reduction :=
  r ← reduce_negative p r;
  r ← settle_positive p r;
  r ← reduce_settleable p r;
  r ← settle_positive p r;
  reduce_positive p r.

(** The parts of the settle limit that go with the pnl that is taken over. *)
Definition limit_transfers (m : PerpMarket) (liqee : PerpPosition) (liqee_positive_settle_limit oracle_price pnl_transfer : Z) :
    outcome (Z * Z) :=
  c ← fx_ceil (pp_oneshot_settle_pnl_allowance liqee);
  let liqee_oneshot_positive := Z.max (c / fx_scale) 0 in
  let liqee_recurring := Z.max (liqee_positive_settle_limit - liqee_oneshot_positive) 0 in
  pnl ← Perp.unsettled_pnl liqee m oracle_price;
  c ← fx_ceil pnl;
  let liqee_pnl := Z.max (c / fx_scale) 1 in
  c ← fx_floor pnl_transfer;
  let settle := c / fx_scale in
  let total := Z.max liqee_pnl settle in
  n ← i128 (liqee_recurring * settle);
  transfer_recurring ← i64 (Z.quot n total);
  n ← i128 (liqee_oneshot_positive * settle);
  transfer_oneshot ← i64 (Z.quot n total);
  c ← fx_ceil pnl_transfer;
  max_transfer ← fx_to_i64 c;
  let limit_transfer_recurring := Z.max (Z.min transfer_recurring max_transfer) 1 in
  d ← i64 (max_transfer - limit_transfer_recurring);
  Done (limit_transfer_recurring, Z.max (Z.min transfer_oneshot d) 0).

(** ** The transfers *)

(** The market, the perp positions of liqee and liqor, and the platform fee after the base
    transfer. *)
Definition transfer_base (m : PerpMarket) (liqee liqor : PerpPosition)
    (base_transfer oracle_price_per_lot factor_liqor factor_all : Z) :
    outcome (PerpMarket * PerpPosition * PerpPosition * Z) :=
  n ← fx_from_int base_transfer;
  n ← fx_neg n;
  quote_transfer_base ← fx_mul n oracle_price_per_lot;
  quote_transfer_liqee ← fx_mul quote_transfer_base factor_all;
  n ← fx_neg quote_transfer_base;
  quote_transfer_liqor ← fx_mul n factor_liqor;
  '(liqee, liqor, m) ←
    (if negb (base_transfer =? 0) then
       '(liqee, m, _) ← Perp.record_trade liqee m base_transfer quote_transfer_liqee;
       neg ← i64 (- base_transfer);
       '(liqor, m, _) ← Perp.record_trade liqor m neg quote_transfer_liqor;
       Done (liqee, liqor, m)
     else Done (liqee, liqor, m));
  n ← fx_neg quote_transfer_liqor;
  n ← fx_sub n quote_transfer_liqee;
  let platform_fee := Z.max n 0 in
  f ← fx_add (pm_fees_accrued m) platform_fee;
  a ← fx_add (pm_accrued_liquidation_fees m) platform_fee;
  Done ((m <| pm_fees_accrued := f |>) <| pm_accrued_liquidation_fees := a |>, liqee, liqor, platform_fee).

(** The liqor takes over positive pnl for tokens: the bank, the accounts with the positions
    [i] and [j] written back, and the health cache. *)
Definition take_over_pnl (m : PerpMarket) (bank : Bank) (liqee_account liqor_account : MangoAccount) (i j : nat)
    (liqee liqor : PerpPosition) (cache : HealthCache) (settle_limit oracle_price pnl_transfer spot_gain_per_settled now_ts : Z) :
    outcome (Bank * MangoAccount * MangoAccount * HealthCache) :=
  '(limit_recurring, limit_oneshot) ← limit_transfers m liqee settle_limit oracle_price pnl_transfer;
  token_transfer ← fx_mul pnl_transfer spot_gain_per_settled;
  liqor ← Perp.record_liquidation_pnl_takeover liqor pnl_transfer limit_recurring limit_oneshot;
  liqee ← Perp.record_settle liqee pnl_transfer m;
  z ← fx_round_to_zero token_transfer;
  transfer_i64 ← fx_to_i64 z;
  liqor_account ← add_spot_transfers liqor_account j liqor (- transfer_i64);
  liqee_account ← add_spot_transfers liqee_account i liqee transfer_i64;
  '(bank, liqee_account, liqor_account) ←
    settle_tokens bank liqee_account liqor_account (pm_settle_token_index m) token_transfer 0 now_ts;
  cache ← adjust_token_balance cache bank token_transfer;
  Done (bank, liqee_account, liqor_account, cache).

(** [liquidation_action]: the market, the bank, the two accounts and the health cache. *)
Definition perp_liquidation_action (m : PerpMarket) (bank : Bank) (liqor_account liqee_account : MangoAccount)
    (cache : HealthCache) (liqee_liq_end_health now_ts max_base_transfer max_pnl_transfer : Z) :
    outcome (PerpMarket * Bank * MangoAccount * MangoAccount * HealthCache) :=
  let idx := pm_perp_market_index m in
  '(i, liqee) ← Account.perp_position liqee_account idx;
  '(j, liqor) ← Account.perp_position liqor_account idx;
  token_balances ← effective_token_balances cache LiquidationEnd;
  k ← Perp.unwrap_result (token_info_index cache (pm_settle_token_index m));
  settle_token_balance ← unwrap (token_balances !! k);
  settle_token_info ← Perp.unwrap_result (token_info cache (pm_settle_token_index m));
  info ← perp_info cache idx;
  let oracle_price := pr_oracle (pi_base_prices info) in
  base_lot_size ← fx_from_int (pm_base_lot_size m);
  oracle_price_per_lot ← fx_mul base_lot_size oracle_price;
  '(_, liqee_positive_settle_limit) ← Perp.settle_limit liqee m;
  max_pnl_transfer ← fx_from_int max_pnl_transfer;
  '(direction, factor_liqor, factor_all, uhupnl_per_lot) ←
    base_factors m (pp_base_position_lots liqee) max_base_transfer oracle_price_per_lot;
  _ ← assert_ (0 <? uhupnl_per_lot);
  spot_gain_per_settled ← fx_sub fx_one (pm_positive_pnl_liquidation_fee m);
  uhupnl ← unweighted_health_unsettled_pnl info LiquidationEnd;
  r ← reduction_steps
        (mkReductionParams settle_token_info (pp_base_position_lots liqee) max_base_transfer max_pnl_transfer
           uhupnl_per_lot spot_gain_per_settled (pm_init_overall_asset_weight m))
        (mkReduction 0 0 uhupnl liqee_liq_end_health settle_token_balance);
  n ← i64 (Z.abs (pp_base_position_lots liqee));
  _ ← assert_ (rd_base_reduction r <=? n);
  base_transfer ← i64 (direction * rd_base_reduction r);
  '(m, liqee, liqor, _) ← transfer_base m liqee liqor base_transfer oracle_price_per_lot factor_liqor factor_all;
  '(bank, liqee_account, liqor_account, cache) ←
    (if 0 <? rd_pnl_transfer r then
       take_over_pnl m bank liqee_account liqor_account i j liqee liqor cache liqee_positive_settle_limit oracle_price
         (rd_pnl_transfer r) spot_gain_per_settled now_ts
     else Done (bank, Account.set_perp liqee_account i liqee, Account.set_perp liqor_account j liqor, cache));
  '(_, liqee) ← Account.perp_position liqee_account idx;
  cache ← recompute_perp_info cache liqee m;
  Done (m, bank, liqor_account, liqee_account, cache).

(** ** The instruction *)

(** Funding is settled for both positions and the settle window of the liqee starts, with a
    position for the liqor if it has none. *)
Definition prepare_positions (m : PerpMarket) (liqor liqee : MangoAccount) (now_ts : Z) :
    outcome (MangoAccount * MangoAccount) :=
  '(i, p) ← Account.perp_position liqee (pm_perp_market_index m);
  _ ← require (negb (Perp.has_open_taker_fills p)) (EMango HasOpenPerpTakerFills);
  '(liqor, j) ← Account.ensure_perp_position liqor (pm_perp_market_index m) (pm_settle_token_index m);
  q ← unwrap (ma_perps liqor !! j);
  p ← Perp.settle_funding p m;
  q ← Perp.settle_funding q m;
  p ← Perp.update_settle_limit p m now_ts;
  Done (Account.set_perp liqor j q, Account.set_perp liqee i p).

Definition perp_liq_base_or_positive_pnl (p : PerpLiqAccounts) (liqor_owner : Pubkey) (clock : Clock)
    (max_base_transfer max_pnl_transfer : Z) : outcome PerpLiqAccounts :=
  let l := pl_liq p in
  let m := pl_market p in
  let now_ts := clock_ts clock in
  _ ← perp_liq_constraints p IxPerpLiqBaseOrPositivePnl now_ts;
  let max_base_transfer := Z.max max_base_transfer (I64_MIN + 1) in
  _ ← liqor_checks l liqor_owner now_ts;
  retriever ← Scanning.new (pl_remaining p) (lq_group_pk l) (clock_slot clock);
  cache ← new_health_cache (lq_liqee l) retriever now_ts;
  liqee_liq_end_health ← health cache LiquidationEnd;
  _ ← require_after_phase1_liquidation cache;
  '(liqee, liquidatable) ← Account.check_liquidatable (lq_liqee l) cache;
  match liquidatable with
  | Account.Liquidatable =>
      _ ← perp_oracle_price m (from_reader (pl_oracle p)) None;
      '(liqor, liqee) ← prepare_positions m (lq_liqor l) liqee now_ts;
      '(m, bank, liqor, liqee, cache) ←
        perp_liquidation_action m (pl_settle_bank p) liqor liqee cache liqee_liq_end_health now_ts max_base_transfer
          max_pnl_transfer;
      after ← health cache LiquidationEnd;
      let liqee := set_ma_fixed liqee (fst (Fixed.maybe_recover_from_being_liquidated (ma_fixed liqee) after)) in
      _ ← require (liqee_liq_end_health <=? after) ERequireGte;
      let remaining := sync_perp p m bank in
      _ ← (if negb (Fixed.is_in_health_region (ma_fixed liqor)) then
             retriever ← Scanning.new remaining (lq_group_pk l) (clock_slot clock);
             h ← compute_health liqor Init retriever now_ts;
             require (0 <=? h) (EMango HealthMustBePositive)
           else Done tt);
      Done ((((p <| pl_liq := with_accounts l liqor liqee |>) <| pl_market := m |>) <| pl_settle_bank := bank |>)
              <| pl_remaining := remaining |>)
  | _ => Done (p <| pl_liq := with_accounts l (lq_liqor l) liqee |>)
  end.

End liquidation.
