(* ===== verification/PerpBankruptcy.v ===== *)
(** * Perp bankruptcy

    instructions/perp_liq_negative_pnl_or_bankruptcy.rs with the constraints of
    accounts_ix: the liqor takes over negative pnl for settle tokens as far as the liqee
    can pay, then for tokens of the insurance fund, and what is left is socialized over the
    open interest. Logs are left out. *)

From stdpp Require Import base numbers option list.
From Stdlib Require Import ZArith Lia SpecFloat.
From S2P Require Import Prelude FixedPoint HealthType TokenPosition OrderTypes Nodes Oracle StablePrice Bank Group Serum3 PerpMarket PerpPosition MangoAccount HealthCache AccountRetriever TokenInstructions TokenLiquidation PerpInstructions PerpSettle PerpLiquidation.

Open Scope Z_scope.

(** ** Accounts *)

(** [pb_insurance_vault] and [pb_insurance_bank_vault] are balances. *)
Record PerpBankruptcyAccounts := mkPerpBankruptcyAccounts {
  pb_perp : PerpLiqAccounts;
  pb_insurance_vault_pk : Pubkey;
  pb_insurance_vault_mint : Pubkey;
  pb_insurance_vault : Z;
  pb_insurance_bank_pk : Pubkey;
  pb_insurance_bank : Bank;
  pb_insurance_bank_vault_pk : Pubkey;
  pb_insurance_bank_vault : Z;
  pb_insurance_oracle : Pubkey * OracleAccount
}.

#[export] Instance eta_PerpBankruptcyAccounts : Eta PerpBankruptcyAccounts := fun a =>
  mkPerpBankruptcyAccounts
    (pb_perp a) (pb_insurance_vault_pk a) (pb_insurance_vault_mint a) (pb_insurance_vault a) (pb_insurance_bank_pk a)
    (pb_insurance_bank a) (pb_insurance_bank_vault_pk a) (pb_insurance_bank_vault a) (pb_insurance_oracle a).

(** The insurance bank may be the settle bank. *)
Definition same_bank (a : PerpBankruptcyAccounts) : bool := pl_settle_bank_pk (pb_perp a) =? pb_insurance_bank_pk a.

Definition load_insurance_bank (a : PerpBankruptcyAccounts) : Bank :=
  if same_bank a then pl_settle_bank (pb_perp a) else pb_insurance_bank a.

Definition perp_bankruptcy_constraints (a : PerpBankruptcyAccounts) (now_ts : Z) : outcome unit :=
  let l := pl_liq (pb_perp a) in
  let b := load_insurance_bank a in
  _ ← require (gr_insurance_vault (lq_group l) =? pb_insurance_vault_pk a) EConstraint;
  _ ← perp_liq_constraints (pb_perp a) IxPerpLiqNegativePnlOrBankruptcy now_ts;
  _ ← require (bk_group b =? lq_group_pk l) EConstraint;
  _ ← require (bk_token_index b =? INSURANCE_TOKEN_INDEX) EConstraint;
  _ ← require (bk_vault b =? pb_insurance_bank_vault_pk a) EConstraint;
  require (bk_oracle b =? fst (pb_insurance_oracle a)) EConstraint.

(** What the two steps of the liquidation pass on: the market, the settle bank, the
    insurance bank if it is another one, the accounts and the health cache. *)
Record BankruptcyState := mkBankruptcyState {
  bs_market : PerpMarket;
  bs_settle_bank : Bank;
  bs_insurance_bank_opt : option Bank;
  bs_liqor : MangoAccount;
  bs_liqee : MangoAccount;
  bs_cache : HealthCache
}.

#[export] Instance eta_BankruptcyState : Eta BankruptcyState := fun s =>
  mkBankruptcyState (bs_market s) (bs_settle_bank s) (bs_insurance_bank_opt s) (bs_liqor s) (bs_liqee s) (bs_cache s).

(** [insurance_bank_opt.unwrap_or(settle_bank)], written to. *)
Definition write_insurance_bank (s : BankruptcyState) (b : Bank) : BankruptcyState :=
  match bs_insurance_bank_opt s with
  | Some _ => s <| bs_insurance_bank_opt := Some b |>
  | None => s <| bs_settle_bank := b |>
  end.

Section bankruptcy.
Context `{FixedOps} `{TokenProgram}.

(** ** Step 1: taking over negative pnl *)

(** The liqor takes over [settlement] for settle tokens. *)
Definition settle_loss (s : BankruptcyState) (i j : nat) (liqee liqor : PerpPosition) (settlement now_ts : Z) :
    outcome BankruptcyState :=
  let m := bs_market s in
  neg ← fx_neg settlement;
  liqor ← Perp.record_liquidation_quote_change liqor neg;
  liqee ← Perp.record_settle liqee neg m;
  z ← fx_round_to_zero settlement;
  settlement_i64 ← fx_to_i64 z;
  liqor_account ← add_spot_transfers (bs_liqor s) j liqor settlement_i64;
  liqee_account ← add_spot_transfers (bs_liqee s) i liqee (- settlement_i64);
  '(bank, liqor_account, liqee_account) ←
    settle_tokens (bs_settle_bank s) liqor_account liqee_account (pm_settle_token_index m) settlement 0 now_ts;
  cache ← adjust_token_balance (bs_cache s) bank neg;
  Done ((((s <| bs_settle_bank := bank |>) <| bs_liqor := liqor_account |>) <| bs_liqee := liqee_account |>)
          <| bs_cache := cache |>).

(** The state after step 1, with [settlement], [max_settlement_liqee] and [liqee_pnl]. *)
Definition settle_step (s : BankruptcyState) (perp_oracle_price liqee_max_settle max_liab_transfer now_ts : Z) :
    outcome (BankruptcyState * Z * Z * Z) :=
  let m := bs_market s in
  '(i, liqee) ← Account.perp_position (bs_liqee s) (pm_perp_market_index m);
  '(j, liqor) ← Account.perp_position (bs_liqor s) (pm_perp_market_index m);
  liqee ← Perp.settle_funding liqee m;
  liqor ← Perp.settle_funding liqor m;
  liqee_pnl ← Perp.unsettled_pnl liqee m perp_oracle_price;
  _ ← require (liqee_pnl <? 0) (EMango ProfitabilityMismatch);
  liqee ← Perp.update_settle_limit liqee m now_ts;
  liqee_settleable_pnl ← Perp.apply_pnl_settle_limit liqee m liqee_pnl;
  n ← fx_neg liqee_settleable_pnl;
  let max_settlement_liqee := Z.max (Z.min liqee_max_settle n) 0 in
  max_liab ← fx_from_int max_liab_transfer;
  let settlement := Z.max (Z.min max_settlement_liqee max_liab) 0 in
  if 0 <? settlement then
    s ← settle_loss s i j liqee liqor settlement now_ts;
    liqee_pnl ← fx_add liqee_pnl settlement;
    Done (s, settlement, max_settlement_liqee, liqee_pnl)
  else
    Done ((s <| bs_liqee := Account.set_perp (bs_liqee s) i liqee |>) <| bs_liqor := Account.set_perp (bs_liqor s) j liqor |>,
          settlement, max_settlement_liqee, liqee_pnl).

(** ** Step 2: bankruptcy *)

(** How much of the loss may leave the liqee: no more than brings its health to zero. *)
Definition max_loss_from_liqee (settle_bank : Bank) (settle_token_oracle_price liqee_liq_end_health balance liqee_pnl : Z) :
    outcome Z :=
  l ← fx_mul settle_token_oracle_price (bk_init_liab_weight settle_bank);
  a ← fx_mul settle_token_oracle_price (bk_init_asset_weight settle_bank);
  max_for_health ← spot_amount_given_for_health_zero liqee_liq_end_health balance a l;
  n ← fx_neg liqee_pnl;
  Done (Z.max (Z.min n max_for_health) 0).

(** What the insurance fund pays, and the loss that the liqor takes for it. *)
Definition insurance_amounts (m : PerpMarket) (settle_token_oracle_price insurance_token_oracle_price
    max_liab_transfer_to_liqor insurance_vault_amount : Z) : outcome (Z * Z) :=
  f ← fx_add fx_one (pm_base_liquidation_fee m);
  price_with_fee ← fx_mul settle_token_oracle_price f;
  n ← fx_mul max_liab_transfer_to_liqor price_with_fee;
  n ← fx_div n insurance_token_oracle_price;
  n ← fx_ceil n;
  n ← fx_to_u64 n;
  let insurance_transfer := Z.min n insurance_vault_amount in
  t ← fx_from_int insurance_transfer;
  t ← fx_mul t insurance_token_oracle_price;
  t ← fx_div t price_with_fee;
  Done (insurance_transfer, Z.min t max_liab_transfer_to_liqor).

(** The liqor is paid and takes the loss over. The liqee's position [p] is not yet written
    back. *)
Definition insurance_takeover (s : BankruptcyState) (p : PerpPosition) (insurance_vault_mint insurance_transfer
    insurance_liab_transfer now_ts : Z) : outcome (BankruptcyState * PerpPosition) :=
  let m := bs_market s in
  let insurance_bank := default (bs_settle_bank s) (bs_insurance_bank_opt s) in
  _ ← require (bk_mint insurance_bank =? insurance_vault_mint) ERequireKeysEq;
  '(liqor, k, _) ← Account.ensure_token_position (bs_liqor s) (bk_token_index insurance_bank);
  q ← unwrap (ma_tokens liqor !! k);
  t ← fx_from_int insurance_transfer;
  '(insurance_bank, q, _) ← deposit insurance_bank q t now_ts;
  let liqor := Account.set_token liqor k q in
  '(j, lp) ← Account.perp_position liqor (pm_perp_market_index m);
  neg ← fx_neg insurance_liab_transfer;
  p ← Perp.record_settle p neg m;
  lp ← Perp.record_liquidation_quote_change lp neg;
  let s := s <| bs_liqor := Account.set_perp liqor j lp |> in
  Done (write_insurance_bank s insurance_bank, p).

(** The rest of the loss is socialized once the fund is exhausted. *)
Definition socialize_rest (s : BankruptcyState) (p : PerpPosition) (insurance_fund_exhausted : bool) (remaining_liab : Z) :
    outcome (BankruptcyState * PerpPosition) :=
  if insurance_fund_exhausted && (0 <? remaining_liab) then
    neg ← fx_neg remaining_liab;
    '(m, _) ← socialize_loss (bs_market s) neg;
    p ← Perp.record_settle p neg m;
    Done (s <| bs_market := m |>, p)
  else Done (s, p).

(** The state and the insurance transfer. *)
Definition bankruptcy_step (s : BankruptcyState) (balances : list Z) (perp_oracle_price settle_token_oracle_price
    insurance_token_oracle_price insurance_vault_mint insurance_vault liqee_liq_end_health max_liab_transfer now_ts : Z) :
    outcome (BankruptcyState * Z) :=
  let m := bs_market s in
  k ← token_info_index (bs_cache s) (pm_settle_token_index m);
  balance ← unwrap (balances !! k);
  '(i, p) ← Account.perp_position (bs_liqee s) (pm_perp_market_index m);
  liqee_pnl ← Perp.unsettled_pnl p m perp_oracle_price;
  max_from_liqee ←
    max_loss_from_liqee (bs_settle_bank s) settle_token_oracle_price liqee_liq_end_health balance liqee_pnl;
  let max_to_liqor := Z.max (Z.min max_from_liqee max_liab_transfer) 0 in
  let insurance_vault_amount := if elligible_for_group_insurance_fund m then insurance_vault else 0 in
  '(insurance_transfer, insurance_liab_transfer) ←
    insurance_amounts m settle_token_oracle_price insurance_token_oracle_price max_to_liqor insurance_vault_amount;
  '(s, p) ←
    (if 0 <? insurance_transfer then
       insurance_takeover s p insurance_vault_mint insurance_transfer insurance_liab_transfer now_ts
     else Done (s, p));
  remaining_liab ← fx_sub max_from_liqee insurance_liab_transfer;
  '(s, p) ← socialize_rest s p (insurance_transfer =? insurance_vault_amount) remaining_liab;
  Done (s <| bs_liqee := Account.set_perp (bs_liqee s) i p |>, insurance_transfer).

(** [liquidation_action]. *)
Definition loss_liquidation_action (s : BankruptcyState) (perp_oracle_price settle_token_oracle_price
    insurance_token_oracle_price insurance_vault_mint insurance_vault liqee_liq_end_health now_ts max_liab_transfer : Z) :
    outcome (BankruptcyState * Z * Z) :=
  liqee_max_settle ← perp_max_settle (bs_cache s) (pm_settle_token_index (bs_market s));
  balances ← effective_token_balances (bs_cache s) LiquidationEnd;
  '(s, settlement, max_settlement_liqee, liqee_pnl) ←
    settle_step s perp_oracle_price liqee_max_settle max_liab_transfer now_ts;
  n ← fx_from_int max_liab_transfer;
  max_liab_transfer ← fx_sub n settlement;
  if (settlement =? max_settlement_liqee) && (liqee_pnl <? 0) then
    '(s, insurance_transfer) ←
      bankruptcy_step s balances perp_oracle_price settle_token_oracle_price insurance_token_oracle_price
        insurance_vault_mint insurance_vault liqee_liq_end_health max_liab_transfer now_ts;
    Done (s, settlement, insurance_transfer)
  else Done (s, settlement, 0).

(** ** The instruction *)

(** The oracle prices of the market, the settle token and the insurance token. *)
Definition bankruptcy_prices (a : PerpBankruptcyAccounts) (slot : Z) : outcome (Z * Z * Z) :=
  let p := pb_perp a in
  x ← perp_oracle_price (pl_market p) (from_reader (pl_oracle p)) (Some slot);
  y ← oracle_price (pl_settle_bank p) (from_reader (pl_settle_oracle p)) (Some slot);
  z ← oracle_price (load_insurance_bank a) (from_reader (pb_insurance_oracle a)) (Some slot);
  Done (x, y, z).

(** The positions of the liqee exist; the liqor gets them if needed. *)
Definition ensure_positions (m : PerpMarket) (liqor liqee : MangoAccount) : outcome MangoAccount :=
  _ ← Account.perp_position liqee (pm_perp_market_index m);
  _ ← Account.token_position_and_raw_index liqee (pm_settle_token_index m);
  '(liqor, _) ← Account.ensure_perp_position liqor (pm_perp_market_index m) (pm_settle_token_index m);
  '(liqor, _, _) ← Account.ensure_token_position liqor (pm_settle_token_index m);
  Done liqor.

(** The passed accounts after the market and the banks changed. *)
Definition sync_bankruptcy (a : PerpBankruptcyAccounts) (s : BankruptcyState) : list AccountInfo :=
  let ais := sync_perp (pb_perp a) (bs_market s) (bs_settle_bank s) in
  match bs_insurance_bank_opt s with Some b => sync_bank (pb_insurance_bank_pk a) b ais | None => ais end.

Definition perp_liq_negative_pnl_or_bankruptcy (a : PerpBankruptcyAccounts) (liqor_owner : Pubkey) (clock : Clock)
    (max_liab_transfer : Z) : outcome PerpBankruptcyAccounts :=
  let p := pb_perp a in
  let l := pl_liq p in
  let now_ts := clock_ts clock in
  _ ← perp_bankruptcy_constraints a now_ts;
  '(perp_price, settle_price, insurance_price) ← bankruptcy_prices a (clock_slot clock);
  _ ← liqor_checks l liqor_owner now_ts;
  retriever ← Scanning.new (pl_remaining p) (lq_group_pk l) (clock_slot clock);
  cache ← new_health_cache (lq_liqee l) retriever now_ts;
  liqee_liq_end_health ← health cache LiquidationEnd;
  _ ← require_after_phase2_liquidation cache;
  '(liqee, liquidatable) ← Account.check_liquidatable (lq_liqee l) cache;
  match liquidatable with
  | Account.Liquidatable =>
      liqor ← ensure_positions (pl_market p) (lq_liqor l) liqee;
      '(s, _, insurance_transfer) ←
        loss_liquidation_action
          (mkBankruptcyState (pl_market p) (pl_settle_bank p)
             (if same_bank a then None else Some (pb_insurance_bank a)) liqor liqee cache)
          perp_price settle_price insurance_price (pb_insurance_vault_mint a) (pb_insurance_vault a)
          liqee_liq_end_health now_ts max_liab_transfer;
      '(insurance_vault, bank_vault) ←
        (if 0 <? insurance_transfer then token_transfer (pb_insurance_vault a) (pb_insurance_bank_vault a) insurance_transfer
         else Done (pb_insurance_vault a, pb_insurance_bank_vault a));
      '(_, pos) ← Account.perp_position (bs_liqee s) (pm_perp_market_index (bs_market s));
      cache ← recompute_perp_info (bs_cache s) pos (bs_market s);
      h ← health cache LiquidationEnd;
      let liqee := set_ma_fixed (bs_liqee s) (fst (Fixed.maybe_recover_from_being_liquidated (ma_fixed (bs_liqee s)) h)) in
      let remaining := sync_bankruptcy a s in
      _ ← (if negb (Fixed.is_in_health_region (ma_fixed (bs_liqor s))) then
             retriever ← Scanning.new remaining (lq_group_pk l) (clock_slot clock);
             h ← compute_health (bs_liqor s) Init retriever now_ts;
             require (0 <=? h) (EMango HealthMustBePositive)
           else Done tt);
      Done ((((a <| pb_perp := (((p <| pl_liq := with_accounts l (bs_liqor s) liqee |>) <| pl_market := bs_market s |>)
                                 <| pl_settle_bank := bs_settle_bank s |>) <| pl_remaining := remaining |> |>)
               <| pb_insurance_vault := insurance_vault |>) <| pb_insurance_bank_vault := bank_vault |>)
               <| pb_insurance_bank := default (pb_insurance_bank a) (bs_insurance_bank_opt s) |>)
  | _ => Done (a <| pb_perp := p <| pl_liq := with_accounts l (lq_liqor l) liqee |> |>)
  end.

End bankruptcy.
