(* ===== verification/PerpLiquidationSpec.v ===== *)
(** * Properties of the perp liquidation

    The liquidation of base lots and positive pnl is bounded by the position of the liqee
    and the limits of the caller, moves base and quote between the two positions with the
    platform fee as the only difference, never lowers the health of the liqee and leaves
    the liqor healthy. *)

From stdpp Require Import base numbers option list.
From Stdlib Require Import ZArith Lia SpecFloat.
From S2P Require Import Prelude FixedPoint HealthType TokenPosition OrderTypes Nodes Oracle StablePrice Bank BankSpec Group Serum3 PerpMarket PerpPosition PerpPositionSpec MangoAccount MangoAccountSpec HealthCache AccountRetriever TokenInstructions TokenInstructionsSpec TokenLiquidation TokenLiquidationSpec PerpInstructions PerpSettle PerpLiquidation.

Open Scope Z_scope.

Section spec.
Context `{FixedLaws}.

(** ** The steps of the reduction *)

(** What the steps keep: the lots and the pnl grow, within the position and the limits. *)
Record reduction_ok (p : ReductionParams) (r : Reduction) : Prop := {
  ro_base : 0 <= rd_base_reduction r <= Z.abs (rp_liqee_base_lots p);
  ro_max_base : rd_base_reduction r <= Z.abs (rp_max_base_transfer p);
  ro_pnl : 0 <= rd_pnl_transfer r <= rp_max_pnl_transfer p
}.

Lemma reduce_base_ok p u e a r r' : reduce_base p u e a r = Done r' -> reduction_ok p r -> reduction_ok p r'.
Proof.
  unfold reduce_base. intros E [Hb Hm Hp].
  apply bind_Done_inv in E as (x & _ & E). cbv zeta in E.
  do 3 (apply bind_Done_inv in E as (? & _ & E)).
  apply bind_Done_inv in E as (y1 & Y1 & E). apply bind_Done_inv in E as (y2 & Y2 & E).
  apply bind_Done_inv in E as (y3 & Y3 & E). apply bind_Done_inv in E as (y4 & Y4 & E).
  do 10 (apply bind_Done_inv in E as (? & _ & E)).
  apply bind_Done_inv in E as (b & Eb & E). injection E as <-. inv_run. split; simpl; lia.
Qed.

Lemma settle_pnl_ok p g r r' : settle_pnl p g r = Done r' -> reduction_ok p r -> reduction_ok p r'.
Proof.
  unfold settle_pnl. intros E [Hb Hm Hp].
  do 2 (apply bind_Done_inv in E as (? & _ & E)). apply bind_Done_inv in E as (d & Ed & E). apply fx_sub_inv in Ed as ->.
  cbv zeta in E. do 5 (apply bind_Done_inv in E as (? & _ & E)).
  apply bind_Done_inv in E as (t & Et & E). apply fx_add_inv in Et as ->. injection E as <-. split; simpl; lia.
Qed.

Lemma reduction_steps_ok p r r' : reduction_steps p r = Done r' -> reduction_ok p r -> reduction_ok p r'.
Proof.
  unfold reduction_steps. intros E R.
  apply bind_Done_inv in E as (r1 & E1 & E). apply bind_Done_inv in E as (r2 & E2 & E).
  apply bind_Done_inv in E as (r3 & E3 & E). apply bind_Done_inv in E as (r4 & E4 & E5).
  assert (Hs : forall a b, settle_positive p a = Done b -> reduction_ok p a -> reduction_ok p b).
  { unfold settle_positive. intros a b Ea Ra. destruct (_ && _); [|by injection Ea as <-].
    apply bind_Done_inv in Ea as (g & _ & Ea). by eapply settle_pnl_ok. }
  assert (R1 : reduction_ok p r1).
  { unfold reduce_negative in E1. destruct (_ <? _); [|by injection E1 as <-].
    apply bind_Done_inv in E1 as (? & _ & E1). by eapply reduce_base_ok. }
  pose proof (Hs _ _ E2 R1) as R2.
  assert (R3 : reduction_ok p r3).
  { unfold reduce_settleable in E3. destruct (_ && _); [|by injection E3 as <-].
    do 3 (apply bind_Done_inv in E3 as (? & _ & E3)). by eapply reduce_base_ok. }
  pose proof (Hs _ _ E4 R3) as R4. unfold reduce_positive in E5. destruct (_ && _); [|by injection E5 as <-].
  apply bind_Done_inv in E5 as (? & _ & E5). by eapply reduce_base_ok.
Qed.

(** ** The base transfer *)

(** The two perp positions after [d] lots moved into the liqee's for the quotes [qe] and
    [qo]: the market collects the difference. *)
Definition base_moved (m : PerpMarket) (e o : PerpPosition) (d qe qo : Z) (m' : PerpMarket) (e' o' : PerpPosition) : Prop :=
  pp_market_index e' = pp_market_index e /\ pp_market_index o' = pp_market_index o /\
  pp_base_position_lots e' = pp_base_position_lots e + d /\ pp_base_position_lots o' = pp_base_position_lots o - d /\
  pp_quote_position_native e' = pp_quote_position_native e + qe /\
  pp_quote_position_native o' = pp_quote_position_native o + qo /\
  pm_fees_accrued m' = pm_fees_accrued m + Z.max (- qo - qe) 0 /\
  pm_open_interest m' - Z.abs (pp_base_position_lots e') - Z.abs (pp_base_position_lots o') =
    pm_open_interest m - Z.abs (pp_base_position_lots e) - Z.abs (pp_base_position_lots o).

Lemma transfer_base_inv m e o d price fl fa m' e' o' fee :
  transfer_base m e o d price fl fa = Done (m', e', o', fee) ->
  let qb := - (d * price) in
  let qe := qb * fa / fx_scale in let qo := - qb * fl / fx_scale in
  base_moved m e o d qe qo m' e' o' /\ fee = Z.max (- qo - qe) 0.
Proof.
  unfold transfer_base. intros E.
  apply bind_Done_inv in E as (n & En & E). apply fx_from_int_inv in En as ->.
  apply bind_Done_inv in E as (n2 & En & E). apply fx_neg_inv in En as ->.
  apply bind_Done_inv in E as (qb & Eq & E). apply fx_mul_inv in Eq.
  replace (- fx_int d * price / fx_scale) with (- (d * price)) in Eq.
  2: { unfold fx_int. replace (- (d * fx_scale) * price) with (- (d * price) * fx_scale) by ring. by rewrite Z.div_mul. }
  apply bind_Done_inv in E as (qe & Eqe & E). apply fx_mul_inv in Eqe as ->.
  apply bind_Done_inv in E as (n3 & En & E). apply fx_neg_inv in En as ->.
  apply bind_Done_inv in E as (qo & Eqo & E). apply fx_mul_inv in Eqo as ->. subst qb.
  set (qe := _ * fa / _) in *. set (qo := _ * fl / _) in *.
  apply bind_Done_inv in E as ([[e1 o1] m1] & Et & E).
  apply bind_Done_inv in E as (n4 & En & E). apply fx_neg_inv in En as ->.
  apply bind_Done_inv in E as (n5 & En & E). apply fx_sub_inv in En as ->.
  apply bind_Done_inv in E as (f & Ef & E). apply fx_add_inv in Ef as ->.
  apply bind_Done_inv in E as (g & Eg & E). injection E as <- <- <- <-. cbv zeta. fold qe qo. split; [|done].
  destruct (Z.eqb_spec d 0) as [->|Hd]; cbn [negb] in Et.
  - injection Et as <- <- <-.
    assert (Hz : qe = 0 /\ qo = 0) by (unfold qe, qo; simpl; by rewrite !Z.div_0_l).
    destruct Hz as [-> ->]. unfold base_moved. simpl. split_and!; lia || done.
  - apply bind_Done_inv in Et as ([[e2 m2] r2] & E1 & Et). apply bind_Done_inv in Et as (neg & En & Et).
    apply bind_Done_inv in Et as ([[o2 m3] r3] & E2 & Et). injection Et as <- <- <-.
    apply i64_inv in En as [-> _].
    pose proof (AccountSpec.record_trade_quote _ _ _ _ _ _ _ E1) as (Q1 & I1 & _).
    pose proof (AccountSpec.record_trade_quote _ _ _ _ _ _ _ E2) as (Q2 & I2 & _).
    pose proof (record_trade_market _ _ _ _ _ _ _ E1) as M1. pose proof (record_trade_market _ _ _ _ _ _ _ E2) as M2.
    apply record_trade_base in E1 as (B1 & O1 & _). apply record_trade_base in E2 as (B2 & O2 & _).
    assert (F : pm_fees_accrued m3 = pm_fees_accrued m) by (rewrite M2, M1; done).
    unfold base_moved. simpl. rewrite F. split_and!; try done; lia.
Qed.

(** The fee factors: the liqee pays both fees, the liqor receives one. *)
Definition fee_factors (m : PerpMarket) (long : bool) : Z * Z :=
  let s := if long then -1 else 1 in
  (fx_one + s * pm_base_liquidation_fee m,
   fx_one + s * pm_base_liquidation_fee m + s * pm_platform_liquidation_fee m).

Lemma base_factors_inv m lots mb price dir fl fa u :
  base_factors m lots mb price = Done (dir, fl, fa, u) ->
  dir = (if 0 <? lots then -1 else 1) /\ (fl, fa) = fee_factors m (0 <? lots) /\
  (if 0 <? lots then 0 <= mb else mb <= 0).
Proof.
  unfold base_factors, fee_factors. intros E. destruct (0 <? lots).
  all: apply bind_Done_inv in E as (u0 & C & E); apply require_inv, Z.leb_le in C.
  all: apply bind_Done_inv in E as (x & Ex & E); apply bind_Done_inv in E as (y & Ey & E).
  - apply fx_sub_inv in Ex as ->. apply fx_sub_inv in Ey as ->.
    do 3 (apply bind_Done_inv in E as (? & _ & E)). injection E as <- <- <- _. split_and!; [done|f_equal; lia|done].
  - apply fx_add_inv in Ex as ->. apply fx_add_inv in Ey as ->.
    do 2 (apply bind_Done_inv in E as (? & _ & E)). injection E as <- <- <- _. split_and!; [done|f_equal; lia|done].
Qed.

(** The quotes that go with [d] lots at a price per lot. *)
Definition quotes (m : PerpMarket) (long : bool) (d price : Z) : Z * Z :=
  let '(fl, fa) := fee_factors m long in
  (- (d * price) * fa / fx_scale, - - (d * price) * fl / fx_scale).

(** The liqor never gets more than the liqee pays. *)
Lemma quotes_cover_fee m (long : bool) d price :
  0 <= price -> 0 <= pm_platform_liquidation_fee m -> (if long then d <= 0 else 0 <= d) ->
  fst (quotes m long d price) + snd (quotes m long d price) <= 0.
Proof.
  intros Hp Hf Hd. pose proof scale_pos as Hs.
  assert (Hq : forall fl fa, - (d * price) * fa + d * price * fl <= 0 ->
    - (d * price) * fa / fx_scale + - - (d * price) * fl / fx_scale <= 0).
  { intros fl fa Hle. pose proof (floor_add_le (- (d * price) * fa) (- - (d * price) * fl) fx_scale Hs) as [Hadd _].
    etransitivity; [exact Hadd|]. apply Z.div_le_upper_bound; lia. }
  unfold quotes, fee_factors. apply Hq. destruct long; nia.
Qed.

(** ** Taking over pnl *)

Lemma take_over_pnl_inv m bank ea oa i j e o cache lim op pnl g now bank' ea' oa' cache' e0 o0 :
  indexes_ok bank -> 0 <= bk_loan_origination_fee_rate bank ->
  Account.perp_position ea (pm_perp_market_index m) = Done (i, e0) -> pp_market_index e = pp_market_index e0 ->
  Account.perp_position oa (pm_perp_market_index m) = Done (j, o0) -> pp_market_index o = pp_market_index o0 ->
  take_over_pnl m bank ea oa i j e o cache lim op pnl g now = Done (bank', ea', oa', cache') ->
  (exists e' o', Account.perp_position ea' (pm_perp_market_index m) = Done (i, e') /\
    Account.perp_position oa' (pm_perp_market_index m) = Done (j, o') /\
    same_base e e' /\ same_base o o' /\
    pp_quote_position_native e' = pp_quote_position_native e - pnl /\
    pp_quote_position_native o' = pp_quote_position_native o + pnl) /\
  exists k te te' l tl tl', ma_tokens ea !! k = Some te /\ tp_token_index te = pm_settle_token_index m /\
    ma_tokens ea' = <[k := te']> (ma_tokens ea) /\
    ma_tokens oa !! l = Some tl /\ tp_token_index tl = pm_settle_token_index m /\
    ma_tokens oa' = <[l := tl']> (ma_tokens oa) /\ touched bank bank' /\
    adjust_token_balance cache bank' (pnl * g / fx_scale) = Done cache' /\
    paid bank te tl (pnl * g / fx_scale) (pnl * g / fx_scale) (negb (Token.is_in_use te)) false
      (negb (Token.is_in_use tl)) bank' te' tl'.
Proof.
  intros HI HR Pe Me Po Mo E. unfold take_over_pnl in E.
  apply bind_Done_inv in E as ([lr lo] & _ & E). apply bind_Done_inv in E as (x & Ex & E). apply fx_mul_inv in Ex as ->.
  apply bind_Done_inv in E as (o1 & Eo & E). apply bind_Done_inv in E as (e1 & Ee & E).
  apply record_settle_quote in Ee as [Be Qe].
  assert (Bo : same_base o o1 /\ pp_quote_position_native o1 = pp_quote_position_native o + pnl).
  { unfold Perp.record_liquidation_pnl_takeover, Perp.change_quote_position in Eo. fx_inv. done. }
  destruct Bo as [Bo Qo]. do 2 (apply bind_Done_inv in E as (? & _ & E)).
  apply bind_Done_inv in E as (oa1 & Eoa & E). apply bind_Done_inv in E as (ea1 & Eea & E).
  apply (add_spot_transfers_inv _ _ _ _ _ _ _ Po) in Eoa as (To & o' & Po' & Bo' & Qo'); [|destruct Bo; congruence].
  apply (add_spot_transfers_inv _ _ _ _ _ _ _ Pe) in Eea as (Te & e' & Pe' & Be' & Qe'); [|destruct Be; congruence].
  apply bind_Done_inv in E as ([[b1 ea2] oa2] & Es & E). apply bind_Done_inv in E as (c & Ec & E). injection E as <- <- <- <-.
  apply settle_tokens_inv in Es as (k & te & te' & l & tl & tl' & Lk & Ik & -> & Ll & Il & -> & T & P); [|done..].
  rewrite Te, To, Z.sub_0_r in *. split.
  - exists e', o'. split_and!; try done; try lia; by eapply same_base_trans.
  - exists k, te, te', l, tl, tl'. split_and!; try done; simpl; congruence.
Qed.

(** ** The liquidation *)

(** What the liquidation does to the positions of the two accounts in the market and to the
    settle bank: [d] lots and their quotes at the oracle price per lot move, then [pnl]; the
    health cache of the liqee follows its settle tokens and its position. *)
Definition perp_liquidated (m : PerpMarket) (bank : Bank) (liqor liqee : MangoAccount) (price mb mp : Z)
    (m' : PerpMarket) (bank' : Bank) (liqor' liqee' : MangoAccount) (c c' : HealthCache) : Prop :=
  exists i e j o d pnl e1 o1 e' o' c1,
    Account.perp_position liqee (pm_perp_market_index m) = Done (i, e) /\
    Account.perp_position liqor (pm_perp_market_index m) = Done (j, o) /\
    let long := 0 <? pp_base_position_lots e in
    let '(qe, qo) := quotes m long d (pm_base_lot_size m * price) in
    (if long then - pp_base_position_lots e <= d <= 0 else 0 <= d <= - pp_base_position_lots e) /\
    Z.abs d <= Z.abs mb /\ 0 <= pnl <= fx_int mp /\ base_moved m e o d qe qo m' e1 o1 /\
    Account.perp_position liqee' (pm_perp_market_index m) = Done (i, e') /\
    Account.perp_position liqor' (pm_perp_market_index m) = Done (j, o') /\
    same_base e1 e' /\ same_base o1 o' /\
    pp_quote_position_native e' = pp_quote_position_native e1 - pnl /\
    pp_quote_position_native o' = pp_quote_position_native o1 + pnl /\
    recompute_perp_info c1 e' m' = Done c' /\
    if 0 <? pnl then
      let x := pnl * (fx_one - pm_positive_pnl_liquidation_fee m) / fx_scale in
      exists k te te' l tl tl', ma_tokens liqee !! k = Some te /\ tp_token_index te = pm_settle_token_index m /\
        ma_tokens liqee' = <[k := te']> (ma_tokens liqee) /\
        ma_tokens liqor !! l = Some tl /\ tp_token_index tl = pm_settle_token_index m /\
        ma_tokens liqor' = <[l := tl']> (ma_tokens liqor) /\ adjust_token_balance c bank' x = Done c1 /\
        paid bank te tl x x (negb (Token.is_in_use te)) false (negb (Token.is_in_use tl)) bank' te' tl'
    else bank' = bank /\ c1 = c /\ ma_tokens liqee' = ma_tokens liqee /\ ma_tokens liqor' = ma_tokens liqor.

(** A transfer changes of the market the open interest and the fees. *)
Lemma transfer_base_market m e o d price fl fa m' e' o' fee :
  transfer_base m e o d price fl fa = Done (m', e', o', fee) ->
  pm_perp_market_index m' = pm_perp_market_index m /\ pm_settle_token_index m' = pm_settle_token_index m.
Proof.
  unfold transfer_base. intros E. do 6 (apply bind_Done_inv in E as (? & _ & E)).
  apply bind_Done_inv in E as ([[e1 o1] m1] & Et & E). do 4 (apply bind_Done_inv in E as (? & _ & E)). injection E as <- _ _ _.
  destruct (negb _); [|by injection Et as _ _ <-].
  apply bind_Done_inv in Et as ([[e2 m2] r2] & E1 & Et). apply bind_Done_inv in Et as (neg & _ & Et).
  apply bind_Done_inv in Et as ([[o2 m3] r3] & E2 & Et). injection Et as _ _ <-.
  rewrite (record_trade_market _ _ _ _ _ _ _ E2), (record_trade_market _ _ _ _ _ _ _ E1). done.
Qed.

(** The flags of an account. *)
Definition same_flags (a a' : MangoAccount) : Prop :=
  Fixed.being_liquidated (ma_fixed a') = Fixed.being_liquidated (ma_fixed a) /\
  Fixed.is_in_health_region (ma_fixed a') = Fixed.is_in_health_region (ma_fixed a).

Lemma add_spot_transfers_flags a i p d a' : add_spot_transfers a i p d = Done a' -> same_flags a a'.
Proof. unfold add_spot_transfers. intros E. do 2 (apply bind_Done_inv in E as (? & _ & E)). by injection E as <-. Qed.

Lemma settle_tokens_fixed bank a b ti x fee now bank' a' b' :
  settle_tokens bank a b ti x fee now = Done (bank', a', b') -> ma_fixed a' = ma_fixed a /\ ma_fixed b' = ma_fixed b.
Proof.
  unfold settle_tokens. intros E.
  apply bind_Done_inv in E as ([ta ia] & _ & E). apply bind_Done_inv in E as ([tb ib] & _ & E).
  apply bind_Done_inv in E as (? & _ & E). apply bind_Done_inv in E as ([[? ?] ?] & _ & E).
  apply bind_Done_inv in E as ([[? ?] ?] & _ & E). by injection E as _ <- <-.
Qed.

Lemma take_over_pnl_flags m bank ea oa i j e o cache lim op pnl g now bank' ea' oa' cache' :
  take_over_pnl m bank ea oa i j e o cache lim op pnl g now = Done (bank', ea', oa', cache') ->
  same_flags ea ea' /\ same_flags oa oa'.
Proof.
  unfold take_over_pnl. intros E. apply bind_Done_inv in E as ([? ?] & _ & E).
  do 5 (apply bind_Done_inv in E as (? & _ & E)).
  apply bind_Done_inv in E as (oa1 & Eo & E). apply bind_Done_inv in E as (ea1 & Ee & E).
  apply bind_Done_inv in E as ([[b1 ea2] oa2] & Es & E). apply bind_Done_inv in E as (? & _ & E). injection E as _ <- <- _.
  apply add_spot_transfers_flags in Eo, Ee. apply settle_tokens_fixed in Es as [F1 F2].
  unfold same_flags. rewrite F1, F2. done.
Qed.

Lemma perp_liquidation_action_inv m bank liqor liqee cache h now mb mp m' bank' liqor' liqee' cache' :
  indexes_ok bank -> 0 <= bk_loan_origination_fee_rate bank -> 0 <= mp ->
  perp_liquidation_action m bank liqor liqee cache h now mb mp = Done (m', bank', liqor', liqee', cache') ->
  exists info, perp_info cache (pm_perp_market_index m) = Done info /\
    perp_liquidated m bank liqor liqee (pr_oracle (pi_base_prices info)) mb mp m' bank' liqor' liqee' cache cache' /\
    same_flags liqee liqee' /\ same_flags liqor liqor'.
Proof.
  intros HI HR Hmp E. unfold perp_liquidation_action in E. cbv zeta in E.
  apply bind_Done_inv in E as ([i e] & Pe & E). apply bind_Done_inv in E as ([j o] & Po & E).
  do 4 (apply bind_Done_inv in E as (? & _ & E)). apply bind_Done_inv in E as (info & Ei & E). exists info. split; [done|].
  set (price := pr_oracle (pi_base_prices info)) in *.
  apply bind_Done_inv in E as (sz & Esz & E). apply fx_from_int_inv in Esz as ->.
  apply bind_Done_inv in E as (pl & Epl & E). apply fx_mul_inv in Epl.
  replace (fx_int (pm_base_lot_size m) * price / fx_scale) with (pm_base_lot_size m * price) in Epl.
  2: { unfold fx_int. rewrite <- Z.mul_assoc, (Z.mul_comm fx_scale), Z.mul_assoc. by rewrite Z.div_mul. }
  subst pl. apply bind_Done_inv in E as ([lim0 lim] & _ & E). apply bind_Done_inv in E as (mpx & Emp & E).
  apply fx_from_int_inv in Emp as ->.
  apply bind_Done_inv in E as ([[[dir fl] fa] u] & Ef & E). apply base_factors_inv in Ef as (-> & Hff & Hmb).
  apply bind_Done_inv in E as (u1 & _ & E). apply bind_Done_inv in E as (g & Eg & E). apply fx_sub_inv in Eg as ->.
  apply bind_Done_inv in E as (uh & _ & E). apply bind_Done_inv in E as (r & Er & E).
  apply reduction_steps_ok in Er as [Rb Rm Rp]; [|split; simpl; unfold fx_int, fx_scale; lia]. simpl in Rb, Rm, Rp.
  do 2 (apply bind_Done_inv in E as (? & _ & E)). apply bind_Done_inv in E as (d & Ed & E). apply i64_inv in Ed as [-> _].
  set (d := _ * rd_base_reduction r) in *.
  apply bind_Done_inv in E as ([[[m1 e1] o1] fee] & Et & E).
  pose proof (transfer_base_market _ _ _ _ _ _ _ _ _ _ _ Et) as [Mi Ms].
  apply transfer_base_inv in Et as [Hb _]. pose proof Hb as (Ie & Io & _).
  apply bind_Done_inv in E as ([[[bank1 ea] oa] c1] & Ep & E). apply bind_Done_inv in E as ([i2 e2] & Pe2 & E).
  apply bind_Done_inv in E as (c2 & Ec2 & E). injection E as <- <- <- <- <-.
  assert (Hd : (if 0 <? pp_base_position_lots e then - pp_base_position_lots e <= d <= 0 else 0 <= d <= - pp_base_position_lots e) /\
    Z.abs d <= Z.abs mb) by (unfold d; destruct (Z.ltb_spec 0 (pp_base_position_lots e)); lia).
  destruct Hd as [Hd1 Hd2].
  destruct (Z.ltb_spec 0 (rd_pnl_transfer r)) as [Hp|Hp].
  - pose proof (take_over_pnl_flags _ _ _ _ _ _ _ _ _ _ _ _ _ _ _ _ _ _ Ep) as Hfl. split; [|exact Hfl].
    eapply take_over_pnl_inv in Ep as ((e' & o' & P1 & P2 & S1 & S2 & Q1 & Q2) & k & te & te' & l & tl & tl' & T);
      [|done|done|rewrite Mi; exact Pe|congruence|rewrite Mi; exact Po|congruence].
    rewrite Mi, Ms in *. rewrite P1 in Pe2. injection Pe2 as <- <-.
    exists i, e, j, o, d, (rd_pnl_transfer r), e1, o1, e', o', c1. unfold quotes. rewrite <- Hff.
    rewrite (proj2 (Z.ltb_lt 0 (rd_pnl_transfer r)) Hp).
    split_and!; try done; try lia. exists k, te, te', l, tl, tl'. destruct T as (T1 & T2 & T3 & T4 & T5 & T6 & _ & T8 & T9). split_and!; done.
  - injection Ep as <- <- <- <-. split; [|done].
    exists i, e, j, o, d, (rd_pnl_transfer r), e1, o1, e1, o1, cache. unfold quotes. rewrite <- Hff.
    rewrite (proj2 (Z.ltb_ge 0 (rd_pnl_transfer r)) Hp).
    pose proof (AccountSpec.perp_position_inv _ _ _ _ Pe) as (_ & _ & Xe).
    pose proof (AccountSpec.perp_position_inv _ _ _ _ Po) as (_ & _ & Xo).
    assert (Pe' : Account.perp_position (Account.set_perp liqee i e1) (pm_perp_market_index m) = Done (i, e1))
      by (eapply AccountSpec.perp_position_set; (done || congruence)).
    rewrite Pe' in Pe2. injection Pe2 as <- <-.
    split_and!; try done; try lia; eapply AccountSpec.perp_position_set; (done || congruence).
Qed.

Lemma prepare_positions_fixed m liqor liqee now liqor' liqee' :
  prepare_positions m liqor liqee now = Done (liqor', liqee') ->
  ma_fixed liqor' = ma_fixed liqor /\ ma_fixed liqee' = ma_fixed liqee.
Proof.
  unfold prepare_positions. intros E. apply bind_Done_inv in E as ([i p] & _ & E). apply bind_Done_inv in E as (? & _ & E).
  apply bind_Done_inv in E as ([lo j] & Ee & E). apply ensure_perp_position_fixed in Ee.
  do 4 (apply bind_Done_inv in E as (? & _ & E)). injection E as <- <-. done.
Qed.

(** The liqor is healthy after a liquidation, unless in a health region. *)
Definition liqor_healthy (liqor : MangoAccount) (ais : list AccountInfo) (group : Pubkey) (clock : Clock) : Prop :=
  Fixed.is_in_health_region (ma_fixed liqor) = false ->
  exists r h, Scanning.new ais group (clock_slot clock) = Done r /\ compute_health liqor Init r (clock_ts clock) = Done h /\ 0 <= h.

Lemma liqor_healthy_inv liqor ais group clock u :
  (if negb (Fixed.is_in_health_region (ma_fixed liqor)) then
     r ← Scanning.new ais group (clock_slot clock);
     h ← compute_health liqor Init r (clock_ts clock);
     require (0 <=? h) (EMango HealthMustBePositive)
   else Done tt) = Done u -> liqor_healthy liqor ais group clock.
Proof.
  intros E Hr. rewrite Hr in E. cbn [negb] in E. apply bind_Done_inv in E as (r & Er & E).
  apply bind_Done_inv in E as (h & Eh & E). apply require_inv, Z.leb_le in E. eauto.
Qed.

(** The checks before the liquidation of a perp position. *)
Lemma perp_liq_constraints_inv p ix now u : perp_liq_constraints p ix now = Done u ->
  GroupCfg.is_ix_enabled (lq_group (pl_liq p)) ix = true /\
  bk_token_index (pl_settle_bank p) = pm_settle_token_index (pl_market p).
Proof.
  unfold perp_liq_constraints, liq_constraints. intros E. apply bind_Done_inv in E as (u1 & E1 & E).
  apply bind_Done_inv in E1 as (? & C & _). apply require_inv in C. split; [done|].
  do 3 (apply bind_Done_inv in E as (? & _ & E)). apply bind_Done_inv in E as (? & C2 & _). by apply require_inv, Z.eqb_eq in C2.
Qed.

(** C13: A perp liquidation is safe. It takes an enabled instruction, two different accounts, a
    liqor that is signed for and not being liquidated, and a liqee without open orders. If
    the liqee may not be liquidated, nothing but its flag changes. Otherwise, after funding
    is settled, base lots move towards zero in the liqee's position, at most as many as it
    has and as the caller allows; they move for the oracle price with the fees, of which
    the liqor gets one and the market collects the rest; then at most the allowed pnl moves
    to the liqor, which pays for it less the fee with settle tokens. The health of the
    liqee does not fall, its flag stays up exactly while the health stays at -1 or lower,
    and a liqor outside a health region has non-negative init health. *)
Theorem perp_liq_base_or_positive_pnl_safe p owner clock mb mp p' :
  indexes_ok (pl_settle_bank p) -> 0 <= bk_loan_origination_fee_rate (pl_settle_bank p) -> 0 <= mp ->
  perp_liq_base_or_positive_pnl p owner clock mb mp = Done p' ->
  let l := pl_liq p in let l' := pl_liq p' in
  GroupCfg.is_ix_enabled (lq_group l) IxPerpLiqBaseOrPositivePnl = true /\ lq_liqor_pk l <> lq_liqee_pk l /\
  Fixed.is_owner_or_delegate (ma_fixed (lq_liqor l)) (clock_ts clock) owner = true /\
  Fixed.being_liquidated (ma_fixed (lq_liqor l)) = false /\
  exists r c h,
    Scanning.new (pl_remaining p) (lq_group_pk l) (clock_slot clock) = Done r /\
    new_health_cache (lq_liqee l) r (clock_ts clock) = Done c /\ has_phase1_liquidatable c = false /\
    health c LiquidationEnd = Done h /\
    ((lq_liqor l' = lq_liqor l /\ pl_market p' = pl_market p /\ pl_settle_bank p' = pl_settle_bank p /\
      ma_tokens (lq_liqee l') = ma_tokens (lq_liqee l) /\ Fixed.being_liquidated (ma_fixed (lq_liqee l')) = false) \/
     (may_be_liquidated (lq_liqee l) c h /\
      liqor_healthy (lq_liqor l') (pl_remaining p') (lq_group_pk l) clock /\
      exists liqee0 liqor1 liqee1 liqee2 info c' h',
        Account.check_liquidatable (lq_liqee l) c = Done (liqee0, Account.Liquidatable) /\
        prepare_positions (pl_market p) (lq_liqor l) liqee0 (clock_ts clock) = Done (liqor1, liqee1) /\
        perp_info c (pm_perp_market_index (pl_market p)) = Done info /\
        perp_liquidated (pl_market p) (pl_settle_bank p) liqor1 liqee1 (pr_oracle (pi_base_prices info))
          (Z.max mb (I64_MIN + 1)) mp (pl_market p') (pl_settle_bank p') (lq_liqor l') liqee2 c c' /\
        lq_liqee l' = set_ma_fixed liqee2 (ma_fixed (lq_liqee l')) /\ health c' LiquidationEnd = Done h' /\ h <= h' /\
        (Fixed.being_liquidated (ma_fixed (lq_liqee l')) = true <-> h' <= - fx_one))).
Proof.
  intros HI HR Hmp E l l'. unfold perp_liq_base_or_positive_pnl in E. cbv zeta in E. fold l in E.
  apply bind_Done_inv in E as (u1 & C1 & E). apply perp_liq_constraints_inv in C1 as [Hix _].
  apply bind_Done_inv in E as (u2 & C2 & E). apply liqor_checks_inv in C2 as (Hk & Ho & Hf).
  apply bind_Done_inv in E as (r & Er & E). apply bind_Done_inv in E as (c & Ec & E).
  apply bind_Done_inv in E as (h & Eh & E). apply bind_Done_inv in E as (u4 & C4 & E). apply after_phase1_inv in C4.
  apply bind_Done_inv in E as ([liqee res] & El & E). split_and!; try done. exists r, c, h. split_and!; try done.
  destruct (check_liquidatable_inv _ _ _ _ _ Eh El) as [Ht Hres].
  destruct res; [left; by injection E as <-|right|left; by injection E as <-].
  destruct Hres as [Hm Hflag]. split; [done|].
  apply bind_Done_inv in E as (? & _ & E). apply bind_Done_inv in E as ([liqor1 liqee1] & Ep & E).
  apply bind_Done_inv in E as ([[[[m' bank'] liqor'] liqee'] c'] & Ea & E). apply bind_Done_inv in E as (h' & Eh' & E).
  apply bind_Done_inv in E as (u5 & C5 & E). apply require_inv, Z.leb_le in C5.
  apply bind_Done_inv in E as (u6 & C6 & E). apply liqor_healthy_inv in C6. injection E as <-.
  apply perp_liquidation_action_inv in Ea as (info & Ei & L & [Fe _] & [_ Fo]); [|done..].
  pose proof (prepare_positions_fixed _ _ _ _ _ _ Ep) as [_ Fp]. split; [exact C6|].
  exists liqee, liqor1, liqee1, liqee', info, c', h'. split_and!; try done.
  all: apply recover_flag; congruence.
Qed.

(** The platform fee is all that leaves the positions: for a price and a fee that are not
    negative, the quotes and the collected fees of a base transfer add up. *)
Corollary base_moved_conserves m e o (long : bool) d price m' e' o' :
  0 <= price -> 0 <= pm_platform_liquidation_fee m -> (if long then d <= 0 else 0 <= d) ->
  base_moved m e o d (fst (quotes m long d price)) (snd (quotes m long d price)) m' e' o' ->
  pp_quote_position_native e' + pp_quote_position_native o' + pm_fees_accrued m' =
  pp_quote_position_native e + pp_quote_position_native o + pm_fees_accrued m.
Proof.
  intros Hp Hf Hd (_ & _ & _ & _ & Q1 & Q2 & F & _). pose proof (quotes_cover_fee m long d price Hp Hf Hd). lia.
Qed.

End spec.

(** ** A concrete liquidation

    The liqee has bought 10 lots for 1050, which are worth 1000; the liqor has 10000 of the
    settle token. *)
Definition liq_market : PerpMarket :=
  ((((settle_market <| pm_init_base_asset_weight := fx_scale * 4 / 5 |>) <| pm_maint_base_asset_weight := fx_scale * 9 / 10 |>)
     <| pm_base_liquidation_fee := fx_scale / 32 |>) <| pm_platform_liquidation_fee := fx_scale / 64 |>)
     <| pm_open_interest := 20 |>.

Definition long_position : PerpPosition :=
  set_pp_market_index ((perp_position_default <| pp_base_position_lots := 10 |>)
    <| pp_quote_position_native := fx_int (-1050) |>) 0.

Definition perp_liq_sample : PerpLiqAccounts :=
  mkPerpLiqAccounts
    (mkLiqAccounts 1 (sample_group <| gr_ix_gate := 0 |>) 30 (settle_account 8 0 (fx_int 10000)) 31
       ((settle_account 9 0 0) <| ma_perps := [long_position] |>))
    40 liq_market (1, stub (fx_int 100)) 20 asset_bank_0 3 (4, stub fx_one)
    [(20, ABank asset_bank_0); (4, AOracle (stub fx_one)); (40, APerpMarket liq_market); (1, AOracle (stub (fx_int 100)))].

(** The witness of C13: all 10 lots are taken over. *)
Lemma perp_liq_base_or_positive_pnl_safe_witness :
  exists p', @perp_liq_base_or_positive_pnl fixed_ref perp_liq_sample 8 withdraw_clock 10 5 = Done p' /\
    pm_open_interest (pl_market p') = 20 /\
    GroupCfg.is_ix_enabled (lq_group (pl_liq perp_liq_sample)) IxPerpLiqBaseOrPositivePnl = true.
Proof.
  destruct (@perp_liq_base_or_positive_pnl fixed_ref perp_liq_sample 8 withdraw_clock 10 5) as [p'| | |] eqn:E;
    [|vm_compute in E; discriminate E..].
  destruct (@perp_liq_base_or_positive_pnl_safe fixed_ref fixed_ref_laws perp_liq_sample 8 withdraw_clock 10 5 p')
    as (Hi & _).
  - split; reflexivity.
  - vm_compute. discriminate.
  - vm_compute. discriminate.
  - exact E.
  - exists p'. split; [reflexivity|]. split; [vm_compute in E; injection E as <-; reflexivity|exact Hi].
Defined.
