(* ===== verification/PerpBankruptcySpec.v ===== *)
(** * Properties of the perp bankruptcy and of the open interest

    A loss leaves the liqee in three parts: what it can pay for goes to the liqor for settle
    tokens, the insurance fund pays the liqor for a second part, and the rest is socialized,
    which happens only after the fund is exhausted. Module [OpenInterest]: over all
    instructions on a market, the base positions of all accounts balance and the open
    interest counts them. *)

From stdpp Require Import base numbers option list gmap fin_maps.
From Stdlib Require Import ZArith Lia SpecFloat.
From S2P Require Import Prelude FixedPoint HealthType TokenPosition OrderTypes Nodes Oracle OrderTree EventQueue BookSide Orders StablePrice Bank BankSpec Group Serum3 PerpMarket PerpPosition PerpPositionSpec MangoAccount MangoAccountSpec HealthCache AccountRetriever TokenInstructions TokenInstructionsSpec TokenLiquidation TokenLiquidationSpec Book PerpInstructions PerpSettle PerpInstructionsSpec PerpLiquidation PerpLiquidationSpec PerpBankruptcy.

Open Scope Z_scope.

Section spec.
Context `{FixedLaws} `{TokenLaws}.

(** ** Step 1 *)

(** The position of the account in the market has the base lots of [p] and the quote [q]. *)
Definition requoted (idx : Z) (p : PerpPosition) (q : Z) (a' : MangoAccount) : Prop :=
  exists i p', Account.perp_position a' idx = Done (i, p') /\ same_base p p' /\ pp_quote_position_native p' = q.

Lemma quote_change_inv p c p' : Perp.record_liquidation_quote_change p c = Done p' ->
  same_base p p' /\ pp_quote_position_native p' = pp_quote_position_native p + c.
Proof. unfold Perp.record_liquidation_quote_change, Perp.change_quote_position. intros E. fx_inv. done. Qed.

Lemma settle_loss_inv s i j e0 o0 e o x now s' :
  Account.perp_position (bs_liqee s) (pm_perp_market_index (bs_market s)) = Done (i, e0) -> same_base e0 e ->
  Account.perp_position (bs_liqor s) (pm_perp_market_index (bs_market s)) = Done (j, o0) -> same_base o0 o ->
  settle_loss s i j e o x now = Done s' ->
  bs_market s' = bs_market s /\ bs_insurance_bank_opt s' = bs_insurance_bank_opt s /\
  same_flags (bs_liqee s) (bs_liqee s') /\ same_flags (bs_liqor s) (bs_liqor s') /\
  requoted (pm_perp_market_index (bs_market s)) e0 (pp_quote_position_native e + x) (bs_liqee s') /\
  requoted (pm_perp_market_index (bs_market s)) o0 (pp_quote_position_native o - x) (bs_liqor s').
Proof.
  intros Pe Se Po So E. unfold settle_loss in E. apply bind_Done_inv in E as (n & En & E). apply fx_neg_inv in En as ->.
  apply bind_Done_inv in E as (o1 & Eo & E). apply quote_change_inv in Eo as [Bo Qo].
  apply bind_Done_inv in E as (e1 & Ee & E). apply record_settle_quote in Ee as [Be Qe].
  do 2 (apply bind_Done_inv in E as (? & _ & E)).
  pose proof (same_base_trans _ _ _ So Bo) as So1. pose proof (same_base_trans _ _ _ Se Be) as Se1.
  apply bind_Done_inv in E as (oa & Eoa & E). apply bind_Done_inv in E as (ea & Eea & E).
  pose proof (add_spot_transfers_flags _ _ _ _ _ Eoa) as Fo. pose proof (add_spot_transfers_flags _ _ _ _ _ Eea) as Fe.
  apply (add_spot_transfers_inv _ _ _ _ _ _ _ Po (proj1 So1)) in Eoa as (_ & o' & Po' & Bo' & Qo').
  apply (add_spot_transfers_inv _ _ _ _ _ _ _ Pe (proj1 Se1)) in Eea as (_ & e' & Pe' & Be' & Qe').
  apply bind_Done_inv in E as ([[b oa'] ea'] & Et & E). apply bind_Done_inv in E as (c & _ & E). injection E as <-.
  pose proof (settle_tokens_fixed _ _ _ _ _ _ _ _ _ _ Et) as [F1 F2].
  assert (T : exists k tk l tl, oa' = Account.set_token oa k tk /\ ea' = Account.set_token ea l tl).
  { unfold settle_tokens in Et. apply bind_Done_inv in Et as ([ta ia] & _ & Et). apply bind_Done_inv in Et as ([tb ib] & _ & Et).
    apply bind_Done_inv in Et as (? & _ & Et). apply bind_Done_inv in Et as ([[? t1] ?] & _ & Et).
    apply bind_Done_inv in Et as ([[? t2] ?] & _ & Et). injection Et as _ <- <-. by eexists _, _, _, _. }
  destruct T as (k & tk & l & tl & -> & ->). split_and!; try done.
  - exists i, e'. split_and!; [exact Pe'| |lia]. by eapply same_base_trans.
  - exists j, o'. split_and!; [exact Po'| |lia]. by eapply same_base_trans.
Qed.

Lemma settle_step_inv s price maxs ml now s' x mx pnl :
  settle_step s price maxs ml now = Done (s', x, mx, pnl) ->
  exists i e e1 j o o1 pnl0,
    Account.perp_position (bs_liqee s) (pm_perp_market_index (bs_market s)) = Done (i, e) /\
    Account.perp_position (bs_liqor s) (pm_perp_market_index (bs_market s)) = Done (j, o) /\
    Perp.settle_funding e (bs_market s) = Done e1 /\ Perp.settle_funding o (bs_market s) = Done o1 /\
    Perp.unsettled_pnl e1 (bs_market s) price = Done pnl0 /\ pnl0 < 0 /\
    0 <= x <= mx /\ mx <= - pnl0 /\ mx <= Z.max maxs 0 /\ x <= Z.max (fx_int ml) 0 /\
    bs_market s' = bs_market s /\ bs_insurance_bank_opt s' = bs_insurance_bank_opt s /\
    same_flags (bs_liqee s) (bs_liqee s') /\ same_flags (bs_liqor s) (bs_liqor s') /\
    requoted (pm_perp_market_index (bs_market s)) e (pp_quote_position_native e1 + x) (bs_liqee s') /\
    requoted (pm_perp_market_index (bs_market s)) o (pp_quote_position_native o1 - x) (bs_liqor s').
Proof.
  intros E. unfold settle_step in E. apply bind_Done_inv in E as ([i e] & Pe & E). apply bind_Done_inv in E as ([j o] & Po & E).
  apply bind_Done_inv in E as (e1 & Fe & E). apply bind_Done_inv in E as (o1 & Fo & E).
  apply bind_Done_inv in E as (pnl0 & Up & E). apply bind_Done_inv in E as (u & C & E). apply require_inv, Z.ltb_lt in C.
  apply bind_Done_inv in E as (e2 & Ue & E). apply update_settle_limit_same in Ue as [Be Qe].
  apply bind_Done_inv in E as (sp & Es & E). apply pnl_settle_limit_between in Es as [Hs _].
  rewrite (proj2 (Z.leb_gt 0 pnl0) C) in Hs. apply bind_Done_inv in E as (n & En & E). apply fx_neg_inv in En as ->.
  apply bind_Done_inv in E as (mlx & Em & E). apply fx_from_int_inv in Em as ->. cbv zeta in E.
  pose proof (same_base_trans _ _ _ (settle_funding_base _ _ _ Fe) Be) as Se. pose proof (settle_funding_base _ _ _ Fo) as So.
  exists i, e, e1, j, o, o1, pnl0. do 6 (split; [done|]).
  set (mx0 := Z.max (Z.min maxs (- sp)) 0) in *. set (x0 := Z.max (Z.min mx0 (fx_int ml)) 0) in *.
  assert (Hx : 0 <= x0 <= mx0 /\ mx0 <= - pnl0 /\ mx0 <= Z.max maxs 0 /\ x0 <= Z.max (fx_int ml) 0) by (unfold x0, mx0; lia).
  clearbody x0 mx0. destruct (Z.ltb_spec 0 x0) as [L|L].
  - apply bind_Done_inv in E as (s1 & E1 & E). apply bind_Done_inv in E as (p2 & _ & E). injection E as <- <- <- _.
    eapply settle_loss_inv in E1 as (M & I & F1 & F2 & R1 & R2); [|done..]. rewrite Qe in R1. split_and!; done || lia.
  - injection E as <- <- <- _. assert (x0 = 0) as -> by lia. split_and!; try done; try lia.
    + exists i, e2. split_and!; [|done..|lia]. eapply AccountSpec.perp_position_set; [done|].
      apply AccountSpec.perp_position_inv in Pe as (_ & _ & <-). apply Se.
    + exists j, o1. split_and!; [|done..|lia]. eapply AccountSpec.perp_position_set; [done|].
      apply AccountSpec.perp_position_inv in Po as (_ & _ & <-). apply So.
Qed.

(** ** Step 2 *)

Lemma max_loss_inv b price h bal pnl r : max_loss_from_liqee b price h bal pnl = Done r -> 0 <= r <= Z.max (- pnl) 0.
Proof.
  unfold max_loss_from_liqee. intros E. do 3 (apply bind_Done_inv in E as (? & _ & E)).
  apply bind_Done_inv in E as (n & En & E). apply fx_neg_inv in En as ->. injection E as <-. lia.
Qed.

(** The insurance fund pays at most what it has; the loss it pays for is within the limit. *)
Lemma insurance_amounts_inv m sp ip mx v t x :
  0 <= v -> insurance_amounts m sp ip mx v = Done (t, x) ->
  0 <= t <= v /\ x <= mx /\ (0 <= mx -> t = 0 -> x = 0) /\ (0 <= mx -> 0 <= sp -> 0 <= ip -> 0 <= pm_base_liquidation_fee m -> 0 <= x).
Proof.
  unfold insurance_amounts. intros Hv E.
  apply bind_Done_inv in E as (f & Ef & E). apply fx_add_inv in Ef as ->.
  apply bind_Done_inv in E as (pf & Epf & E). apply fx_mul_inv in Epf.
  do 3 (apply bind_Done_inv in E as (? & _ & E)). apply bind_Done_inv in E as (n & En & E). apply fx_to_u64_inv in En as [_ Hn].
  apply bind_Done_inv in E as (y & Ey & E). apply fx_from_int_inv in Ey as ->.
  apply bind_Done_inv in E as (z & Ez & E). apply fx_mul_inv in Ez. apply bind_Done_inv in E as (w & Ew & E).
  injection E as <- <-. unfold is_u64 in Hn. pose proof scale_pos as Hs. apply fx_div_inv in Ew as [Hpf ->].
  split; [lia|]. split; [lia|]. split.
  { intros Hmx Ht. assert (z = 0) as -> by (subst z; rewrite Ht; done). rewrite Z.quot_0_l by done. lia. }
  intros Hmx Hsp Hip Hf.
  assert (0 <= pf) by (subst pf; apply Z.div_pos; [unfold fx_one in *; nia|done]).
  assert (0 <= z) by (subst z; apply Z.div_pos; [unfold fx_int; nia|done]).
  assert (0 <= Z.quot (z * fx_scale) pf); [|lia].
  apply Z.quot_pos; nia.
Qed.

Lemma ensure_token_position_perps a i a' raw k :
  Account.ensure_token_position a i = Done (a', raw, k) -> ma_perps a' = ma_perps a.
Proof.
  unfold Account.ensure_token_position. destruct (Account.match_or_free_token _ _ _ _ _) as [[r n]|]; [|done].
  intros E. apply bind_Done_inv in E as (p & _ & E). by injection E as <- _ _.
Qed.

Lemma perp_position_perps a a' idx : ma_perps a' = ma_perps a -> Account.perp_position a' idx = Account.perp_position a idx.
Proof. unfold Account.perp_position, Account.perp_raw_index. by intros ->. Qed.

Lemma write_insurance_bank_keeps s b :
  bs_liqor (write_insurance_bank s b) = bs_liqor s /\ bs_liqee (write_insurance_bank s b) = bs_liqee s /\
  bs_market (write_insurance_bank s b) = bs_market s.
Proof. unfold write_insurance_bank. by destruct (bs_insurance_bank_opt s). Qed.

Lemma insurance_takeover_inv s p mint t x now s' p' :
  insurance_takeover s p mint t x now = Done (s', p') ->
  bs_market s' = bs_market s /\ bs_liqee s' = bs_liqee s /\ same_flags (bs_liqor s) (bs_liqor s') /\
  same_base p p' /\ pp_quote_position_native p' = pp_quote_position_native p + x /\
  exists j o, Account.perp_position (bs_liqor s) (pm_perp_market_index (bs_market s)) = Done (j, o) /\
    requoted (pm_perp_market_index (bs_market s)) o (pp_quote_position_native o - x) (bs_liqor s').
Proof.
  intros E. unfold insurance_takeover in E. cbv zeta in E. apply bind_Done_inv in E as (u & _ & E).
  apply bind_Done_inv in E as ([[liqor k] n] & Ee & E). pose proof (ensure_token_position_perps _ _ _ _ _ Ee) as Hp.
  apply ensure_token_position_inv in Ee as [Ef _].
  apply bind_Done_inv in E as (q & _ & E). apply bind_Done_inv in E as (tx & _ & E).
  apply bind_Done_inv in E as ([[b q'] act] & _ & E). apply bind_Done_inv in E as ([j o] & Po & E).
  apply bind_Done_inv in E as (neg & En & E). apply fx_neg_inv in En as ->.
  apply bind_Done_inv in E as (p1 & Er & E). apply record_settle_quote in Er as [Bp Qp].
  apply bind_Done_inv in E as (o1 & Eo & E). apply quote_change_inv in Eo as [Bo Qo]. injection E as <- <-.
  destruct (write_insurance_bank_keeps (s <| bs_liqor := Account.set_perp (Account.set_token liqor k q') j o1 |>) b)
    as (-> & -> & ->). simpl.
  split_and!; try done; try apply Bp; try lia.
  - unfold same_flags. simpl. by rewrite Ef.
  - exists j, o.
    assert (Po' : Account.perp_position (bs_liqor s) (pm_perp_market_index (bs_market s)) = Done (j, o)).
    { rewrite <- Po. symmetry. by apply perp_position_perps. }
    split; [done|]. exists j, o1. split_and!; [|done|lia].
    eapply AccountSpec.perp_position_set; [exact Po|]. apply AccountSpec.perp_position_inv in Po as (_ & _ & <-). apply Bo.
Qed.

Lemma socialize_rest_inv s p ex r s' p' :
  socialize_rest s p ex r = Done (s', p') ->
  bs_liqee s' = bs_liqee s /\ bs_liqor s' = bs_liqor s /\ same_base p p' /\
  let loss := if ex && (0 <? r) then r else 0 in
  pp_quote_position_native p' = pp_quote_position_native p + loss /\
  if ex && (0 <? r) then exists per_lot, socialize_loss (bs_market s) (- r) = Done (bs_market s', per_lot)
  else bs_market s' = bs_market s.
Proof.
  unfold socialize_rest. intros E. destruct (ex && (0 <? r)).
  - apply bind_Done_inv in E as (n & En & E). apply fx_neg_inv in En as ->.
    apply bind_Done_inv in E as ([m per_lot] & Es & E). apply bind_Done_inv in E as (p1 & Ep & E).
    apply record_settle_quote in Ep as [B Q]. injection E as <- <-. split_and!; try done; try apply B; [lia|eauto].
  - injection E as <- <-. split_and!; done || lia.
Qed.

(** The unsettled pnl of two positions with the same base differs by their quotes. *)
Lemma unsettled_pnl_quote m price p p' a b : same_base p p' ->
  Perp.unsettled_pnl p m price = Done a -> Perp.unsettled_pnl p' m price = Done b ->
  b = a - pp_quote_position_native p + pp_quote_position_native p'.
Proof.
  unfold Perp.unsettled_pnl, Perp.base_position_native. intros [Hm Hb] Ea Eb. rewrite Hm, Hb in Eb.
  apply bind_Done_inv in Ea as (u1 & _ & Ea). apply bind_Done_inv in Eb as (u2 & _ & Eb).
  apply bind_Done_inv in Ea as (n1 & E1 & Ea). apply bind_Done_inv in Eb as (n2 & E2 & Eb). rewrite E1 in E2. injection E2 as <-.
  apply bind_Done_inv in Ea as (v1 & E3 & Ea). apply bind_Done_inv in Eb as (v2 & E4 & Eb). rewrite E3 in E4. injection E4 as <-.
  apply fx_add_inv in Ea, Eb. lia.
Qed.

(** What the insurance fund of the market holds. *)
Definition market_fund (m : PerpMarket) (vault : Z) : Z := if elligible_for_group_insurance_fund m then vault else 0.

(** The second part [x] of the loss, for which the fund pays [t], and the third part [r]. *)
Definition bankrupt (m : PerpMarket) (vault t r : Z) (m' : PerpMarket) : Prop :=
  0 <= t <= market_fund m vault /\ 0 <= r /\
  (0 < r -> t = market_fund m vault /\ exists per_lot, socialize_loss m (- r) = Done (m', per_lot)) /\
  (r = 0 -> m' = m).

Lemma bankruptcy_step_inv s bals pp sp ip mint v h ml now s' t i p j o :
  0 <= v -> Account.perp_position (bs_liqee s) (pm_perp_market_index (bs_market s)) = Done (i, p) ->
  Account.perp_position (bs_liqor s) (pm_perp_market_index (bs_market s)) = Done (j, o) ->
  bankruptcy_step s bals pp sp ip mint v h ml now = Done (s', t) ->
  exists pnl x r, Perp.unsettled_pnl p (bs_market s) pp = Done pnl /\
    x <= Z.max ml 0 /\ x + r <= Z.max (- pnl) 0 /\
    (0 <= sp -> 0 <= ip -> 0 <= pm_base_liquidation_fee (bs_market s) -> 0 <= x) /\
    bankrupt (bs_market s) v t r (bs_market s') /\
    same_flags (bs_liqee s) (bs_liqee s') /\ same_flags (bs_liqor s) (bs_liqor s') /\
    requoted (pm_perp_market_index (bs_market s)) p (pp_quote_position_native p + x + r) (bs_liqee s') /\
    requoted (pm_perp_market_index (bs_market s)) o (pp_quote_position_native o - x) (bs_liqor s').
Proof.
  intros Hv Pp Po E. unfold bankruptcy_step in E. cbv zeta in E. do 2 (apply bind_Done_inv in E as (? & _ & E)).
  rewrite Pp in E. run_in E. apply bind_Done_inv in E as (pnl & Up & E).
  apply bind_Done_inv in E as (mf & Em & E). apply max_loss_inv in Em.
  apply bind_Done_inv in E as ([t' y] & Ei & E). fold (market_fund (bs_market s) v) in Ei, E.
  assert (Hv' : 0 <= market_fund (bs_market s) v) by (unfold market_fund; destruct (elligible_for_group_insurance_fund _); lia).
  apply insurance_amounts_inv in Ei as (Ht & Hx & Hx0 & Hxp); [|done].
  apply bind_Done_inv in E as ([s1 p1] & E1 & E). apply bind_Done_inv in E as (rl & Erl & E). apply fx_sub_inv in Erl as ->.
  apply bind_Done_inv in E as ([s2 p2] & E2 & E). injection E as <- <-.
  apply socialize_rest_inv in E2 as (Le2 & Lo2 & B2 & Q2 & M2). cbv zeta in Q2.
  set (c := (t' =? market_fund (bs_market s) v) && (0 <? mf - y)) in *. set (r := if c then mf - y else 0) in *.
  assert (Hc : c = true -> t' = market_fund (bs_market s) v /\ 0 < mf - y).
  { unfold c. intros Hc. apply andb_true_iff in Hc as [C1 C2]. lia. }
  assert (Hr : 0 <= r /\ (r = mf - y \/ r = 0)) by (unfold r; destruct c; [destruct (Hc eq_refl)|]; lia).
  assert (Hs1 : bs_market s1 = bs_market s /\ bs_liqee s1 = bs_liqee s /\ same_flags (bs_liqor s) (bs_liqor s1) /\
    same_base p p1 /\ pp_quote_position_native p1 = pp_quote_position_native p + y /\
    requoted (pm_perp_market_index (bs_market s)) o (pp_quote_position_native o - y) (bs_liqor s1)).
  { destruct (Z.ltb_spec 0 t').
    - apply insurance_takeover_inv in E1 as (A1 & A2 & A3 & A4 & A5 & j' & o' & Po' & R).
      rewrite Po in Po'. by injection Po' as <- <-.
    - injection E1 as <- <-. assert (y = 0) as -> by (apply Hx0; lia). split_and!; try done; [lia|].
      exists j, o. split_and!; done || lia. }
  destruct Hs1 as (M1 & Le1 & Fo & B1 & Q1 & Ro). rewrite M1 in M2.
  exists pnl, y, r. simpl. rewrite Le2, Le1, Lo2. split_and!; try done; try lia.
  - split_and!; try lia; intros Hr0; unfold r in Hr0.
    + destruct c; [split; [by apply Hc|exact M2]|lia].
    + destruct c; [destruct (Hc eq_refl); lia|exact M2].
  - exists i, p2. split_and!; [|by eapply same_base_trans|lia]. eapply AccountSpec.perp_position_set; [done|].
    apply AccountSpec.perp_position_inv in Pp as (_ & _ & <-). destruct B1, B2; congruence.
Qed.

(** ** The instruction *)

(** The loss of the liqee's position leaves it in three parts: [x] and [y] to the liqor,
    for settle tokens and for [t] tokens of the insurance fund, and [r] to all positions. *)
Definition loss_taken (m : PerpMarket) (liqor liqee : MangoAccount) (perp_price max_settle vault ml x t : Z)
    (m' : PerpMarket) (liqor' liqee' : MangoAccount) : Prop :=
  exists i e e1 j o o1 pnl y r,
    Account.perp_position liqee (pm_perp_market_index m) = Done (i, e) /\
    Account.perp_position liqor (pm_perp_market_index m) = Done (j, o) /\
    Perp.settle_funding e m = Done e1 /\ Perp.settle_funding o m = Done o1 /\
    Perp.unsettled_pnl e1 m perp_price = Done pnl /\ pnl < 0 /\
    0 <= x <= Z.max max_settle 0 /\ x <= Z.max (fx_int ml) 0 /\ x + y <= Z.max (fx_int ml) 0 /\ x + y + r <= - pnl /\
    bankrupt m vault t r m' /\
    requoted (pm_perp_market_index m) e (pp_quote_position_native e1 + x + y + r) liqee' /\
    requoted (pm_perp_market_index m) o (pp_quote_position_native o1 - x - y) liqor'.

Lemma loss_liquidation_action_inv s pp sp ip mint v h now ml s' x t :
  0 <= v -> loss_liquidation_action s pp sp ip mint v h now ml = Done (s', x, t) ->
  exists maxs, perp_max_settle (bs_cache s) (pm_settle_token_index (bs_market s)) = Done maxs /\
    loss_taken (bs_market s) (bs_liqor s) (bs_liqee s) pp maxs v ml x t (bs_market s') (bs_liqor s') (bs_liqee s') /\
    same_flags (bs_liqee s) (bs_liqee s') /\ same_flags (bs_liqor s) (bs_liqor s').
Proof.
  intros Hv E. unfold loss_liquidation_action in E. apply bind_Done_inv in E as (maxs & Em & E). exists maxs. split; [done|].
  apply bind_Done_inv in E as (bals & _ & E). apply bind_Done_inv in E as ([[[s1 x1] mx] pnl1] & E1 & E).
  apply settle_step_inv in E1 as (i & e & e1 & j & o & o1 & pnl & Pe & Po & Fe & Fo & Up & Hneg & Hx & Hmx & Hms & Hml & M1 & _ &
    Fl1 & Fl2 & Re & Ro).
  apply bind_Done_inv in E as (n & En & E). apply fx_from_int_inv in En as ->.
  apply bind_Done_inv in E as (n2 & En & E). apply fx_sub_inv in En as ->.
  assert (Hv' : 0 <= market_fund (bs_market s) v) by (unfold market_fund; destruct (elligible_for_group_insurance_fund _); lia).
  destruct (_ && _).
  - apply bind_Done_inv in E as ([s2 t2] & E2 & E). injection E as <- <- <-.
    destruct Re as (i' & e' & Pe' & Be & Qe). destruct Ro as (j' & o' & Po' & Bo & Qo).
    assert (Pe1 : Account.perp_position (bs_liqee s1) (pm_perp_market_index (bs_market s1)) = Done (i', e')) by (by rewrite M1).
    assert (Po1 : Account.perp_position (bs_liqor s1) (pm_perp_market_index (bs_market s1)) = Done (j', o')) by (by rewrite M1).
    destruct (bankruptcy_step_inv _ _ _ _ _ _ _ _ _ _ _ _ _ _ _ _ Hv Pe1 Po1 E2)
      as (pnl2 & y & r & Up2 & Hy & Hyr & _ & Hb & G1 & G2 & (i2 & e2 & Pe2 & Be2 & Qe2) & (j2 & o2 & Po2 & Bo2 & Qo2)).
    rewrite M1 in *.
    assert (Hpnl : pnl2 = pnl + x1).
    { apply settle_funding_base in Fe. assert (Sb : same_base e1 e') by (destruct Fe, Be; split; congruence).
      rewrite (unsettled_pnl_quote _ _ _ _ _ _ Sb Up Up2). lia. }
    assert (Flags : same_flags (bs_liqee s) (bs_liqee s2) /\ same_flags (bs_liqor s) (bs_liqor s2)).
    { unfold same_flags in *. destruct Fl1, Fl2, G1, G2. split; split; congruence. }
    split; [|exact Flags]. exists i, e, e1, j, o, o1, pnl, y, r. split_and!; try done; try lia.
    + exists i2, e2. split_and!; [done|by eapply same_base_trans|lia].
    + exists j2, o2. split_and!; [done|by eapply same_base_trans|lia].
  - injection E as <- <- <-. split; [|done]. rewrite M1. exists i, e, e1, j, o, o1, pnl, 0, 0.
    rewrite !Z.add_0_r, Z.sub_0_r. split_and!; try done; try lia.
Qed.

(** The health cache of the liqee follows the settle tokens that it pays. *)
Definition cache_paid (c : HealthCache) (x : Z) (c' : HealthCache) : Prop :=
  if 0 <? x then exists b, adjust_token_balance c b (- x) = Done c' else c' = c.

Lemma write_insurance_bank_cache s b : bs_cache (write_insurance_bank s b) = bs_cache s.
Proof. unfold write_insurance_bank. by destruct (bs_insurance_bank_opt s). Qed.

Lemma bankruptcy_step_cache s bals pp sp ip mint v h ml now s' t :
  bankruptcy_step s bals pp sp ip mint v h ml now = Done (s', t) -> bs_cache s' = bs_cache s.
Proof.
  unfold bankruptcy_step. cbv zeta. intros E. do 2 (apply bind_Done_inv in E as (? & _ & E)).
  apply bind_Done_inv in E as ([i p] & _ & E). do 2 (apply bind_Done_inv in E as (? & _ & E)).
  apply bind_Done_inv in E as ([t' y] & _ & E). apply bind_Done_inv in E as ([s1 p1] & E1 & E).
  apply bind_Done_inv in E as (rl & _ & E). apply bind_Done_inv in E as ([s2 p2] & E2 & E). injection E as <- <-. simpl.
  assert (bs_cache s1 = bs_cache s) as <-.
  { destruct (0 <? t'); [|by injection E1 as <- _]. unfold insurance_takeover in E1. cbv zeta in E1.
    apply bind_Done_inv in E1 as (? & _ & E1). apply bind_Done_inv in E1 as ([[? ?] ?] & _ & E1).
    do 2 (apply bind_Done_inv in E1 as (? & _ & E1)). apply bind_Done_inv in E1 as ([[? ?] ?] & _ & E1).
    apply bind_Done_inv in E1 as ([? ?] & _ & E1). do 3 (apply bind_Done_inv in E1 as (? & _ & E1)).
    injection E1 as <- _. by rewrite write_insurance_bank_cache. }
  unfold socialize_rest in E2. destruct (_ && _); [|by injection E2 as <- _].
  apply bind_Done_inv in E2 as (? & _ & E2). apply bind_Done_inv in E2 as ([? ?] & _ & E2).
  apply bind_Done_inv in E2 as (? & _ & E2). by injection E2 as <- _.
Qed.

Lemma loss_liquidation_action_cache s pp sp ip mint v h now ml s' x t :
  loss_liquidation_action s pp sp ip mint v h now ml = Done (s', x, t) -> cache_paid (bs_cache s) x (bs_cache s').
Proof.
  unfold loss_liquidation_action. intros E. do 2 (apply bind_Done_inv in E as (? & _ & E)).
  apply bind_Done_inv in E as ([[[s1 sx] mx] pnl] & E1 & E). do 2 (apply bind_Done_inv in E as (? & _ & E)).
  assert (cache_paid (bs_cache s) sx (bs_cache s1)).
  { unfold settle_step in E1. cbv zeta in E1. apply bind_Done_inv in E1 as ([? ?] & _ & E1).
    apply bind_Done_inv in E1 as ([? ?] & _ & E1). do 8 (apply bind_Done_inv in E1 as (? & _ & E1)).
    unfold cache_paid. destruct (0 <? _) eqn:C in E1.
    - apply bind_Done_inv in E1 as (s2 & E2 & E1). apply bind_Done_inv in E1 as (? & _ & E1). injection E1 as <- <- _ _.
      rewrite C. unfold settle_loss in E2. apply bind_Done_inv in E2 as (neg & En & E2). apply fx_neg_inv in En as ->.
      do 6 (apply bind_Done_inv in E2 as (? & _ & E2)). apply bind_Done_inv in E2 as ([[b oa] ea] & _ & E2).
      apply bind_Done_inv in E2 as (c & Ec & E2). injection E2 as <-. by exists b.
    - injection E1 as <- <- _ _. by rewrite C. }
  destruct (_ && _); [|by injection E as <- <- _].
  apply bind_Done_inv in E as ([s2 t2] & E2 & E). injection E as <- <- _. by rewrite (bankruptcy_step_cache _ _ _ _ _ _ _ _ _ _ _ _ E2).
Qed.

Lemma ensure_positions_fixed m liqor liqee liqor' :
  ensure_positions m liqor liqee = Done liqor' -> ma_fixed liqor' = ma_fixed liqor.
Proof.
  unfold ensure_positions. intros E. apply bind_Done_inv in E as ([? ?] & _ & E). apply bind_Done_inv in E as ([? ?] & _ & E).
  apply bind_Done_inv in E as ([a1 ?] & E1 & E). apply bind_Done_inv in E as ([[a2 ?] ?] & E2 & E). injection E as <-.
  apply ensure_perp_position_fixed in E1. apply ensure_token_position_inv in E2 as [E2 _]. congruence.
Qed.

(** C15: The loss of a perp position is passed on soundly. It takes an enabled instruction, two
    different accounts, a liqor that is signed for and not being liquidated, and a liqee
    with nothing left to liquidate but negative pnl. If the liqee may not be liquidated
    nothing but its flag changes. Otherwise the loss leaves the position of the liqee in
    three parts that together are at most the loss: the liqor takes the first for settle
    tokens, within the health of the liqee and its own limit, and the second for the
    tokens that the insurance vault pays into the vault of the insurance bank, at most what
    the fund of the market holds; the third is socialized, and only if the fund is paid out
    completely. The flag of the liqee stays up exactly while its health stays at -1 or
    lower, and a liqor outside a health region has non-negative init health. *)
Theorem perp_bankruptcy_sound a owner clock ml a' :
  0 <= pb_insurance_vault a -> perp_liq_negative_pnl_or_bankruptcy a owner clock ml = Done a' ->
  let p := pb_perp a in let p' := pb_perp a' in
  let l := pl_liq p in let l' := pl_liq p' in
  GroupCfg.is_ix_enabled (lq_group l) IxPerpLiqNegativePnlOrBankruptcy = true /\ lq_liqor_pk l <> lq_liqee_pk l /\
  Fixed.is_owner_or_delegate (ma_fixed (lq_liqor l)) (clock_ts clock) owner = true /\
  Fixed.being_liquidated (ma_fixed (lq_liqor l)) = false /\
  exists r c h,
    Scanning.new (pl_remaining p) (lq_group_pk l) (clock_slot clock) = Done r /\
    new_health_cache (lq_liqee l) r (clock_ts clock) = Done c /\ require_after_phase2_liquidation c = Done tt /\
    health c LiquidationEnd = Done h /\
    ((lq_liqor l' = lq_liqor l /\ pl_market p' = pl_market p /\ pb_insurance_vault a' = pb_insurance_vault a /\
      Fixed.being_liquidated (ma_fixed (lq_liqee l')) = false) \/
     (may_be_liquidated (lq_liqee l) c h /\
      liqor_healthy (lq_liqor l') (pl_remaining p') (lq_group_pk l) clock /\
      exists liqee0 liqor1 liqee2 perp_price maxs x t c1 k e c' h',
        Account.check_liquidatable (lq_liqee l) c = Done (liqee0, Account.Liquidatable) /\
        ensure_positions (pl_market p) (lq_liqor l) liqee0 = Done liqor1 /\
        perp_oracle_price (pl_market p) (from_reader (pl_oracle p)) (Some (clock_slot clock)) = Done perp_price /\
        perp_max_settle c (pm_settle_token_index (pl_market p)) = Done maxs /\
        loss_taken (pl_market p) liqor1 liqee0 perp_price maxs (pb_insurance_vault a) ml x t (pl_market p') (lq_liqor l') liqee2 /\
        pb_insurance_vault a' = pb_insurance_vault a - t /\ pb_insurance_bank_vault a' = pb_insurance_bank_vault a + t /\
        lq_liqee l' = set_ma_fixed liqee2 (ma_fixed (lq_liqee l')) /\
        cache_paid c x c1 /\ Account.perp_position liqee2 (pm_perp_market_index (pl_market p')) = Done (k, e) /\
        recompute_perp_info c1 e (pl_market p') = Done c' /\ health c' LiquidationEnd = Done h' /\
        (Fixed.being_liquidated (ma_fixed (lq_liqee l')) = true <-> h' <= - fx_one))).
Proof.
  intros Hv E p p' l l'. unfold perp_liq_negative_pnl_or_bankruptcy in E. cbv zeta in E. fold p in E. fold l in E.
  apply bind_Done_inv in E as (u1 & C1 & E). unfold perp_bankruptcy_constraints in C1.
  apply bind_Done_inv in C1 as (? & _ & C1). apply bind_Done_inv in C1 as (? & C1 & _). apply perp_liq_constraints_inv in C1 as [Hix _].
  apply bind_Done_inv in E as ([[pp sp] ip] & Epr & E). apply bind_Done_inv in E as (u2 & C2 & E).
  apply liqor_checks_inv in C2 as (Hk & Ho & Hf).
  apply bind_Done_inv in E as (r & Er & E). apply bind_Done_inv in E as (c & Ec & E).
  apply bind_Done_inv in E as (h & Eh & E). apply bind_Done_inv in E as ([] & C4 & E).
  apply bind_Done_inv in E as ([liqee res] & El & E). split_and!; try done. exists r, c, h. split_and!; try done.
  destruct (check_liquidatable_inv _ _ _ _ _ Eh El) as [_ Hres].
  destruct res; [left; by injection E as <-|right|left; by injection E as <-].
  destruct Hres as [Hm Hflag]. split; [done|].
  apply bind_Done_inv in E as (liqor1 & Ee & E). pose proof (ensure_positions_fixed _ _ _ _ Ee) as Fe.
  apply bind_Done_inv in E as ([[s sx] t] & Ea & E). pose proof (loss_liquidation_action_cache _ _ _ _ _ _ _ _ _ _ _ _ Ea) as Hcp.
  apply loss_liquidation_action_inv in Ea as (maxs & Emax & L & [Fl _] & _); [|done].
  simpl in Emax, L, Fl. apply bind_Done_inv in E as ([iv bv] & Et & E). apply bind_Done_inv in E as ([k pos] & Epos & E).
  apply bind_Done_inv in E as (c' & Ec' & E). apply bind_Done_inv in E as (h' & Eh' & E).
  apply bind_Done_inv in E as (u6 & C6 & E). apply liqor_healthy_inv in C6. injection E as <-. split; [exact C6|].
  assert (Hpp : perp_oracle_price (pl_market p) (from_reader (pl_oracle p)) (Some (clock_slot clock)) = Done pp).
  { unfold bankruptcy_prices in Epr. fold p in Epr. apply bind_Done_inv in Epr as (a1 & Ex & Epr).
    apply bind_Done_inv in Epr as (? & _ & Epr). apply bind_Done_inv in Epr as (? & _ & Epr). by injection Epr as <- _ _. }
  assert (Ht : 0 <= t) by (destruct L as (? & ? & ? & ? & ? & ? & ? & ? & ? & _ & _ & _ & _ & _ & _ & _ & _ & _ & _ & B & _); apply B).
  assert (Hiv : iv = pb_insurance_vault a - t /\ bv = pb_insurance_bank_vault a + t).
  { destruct (Z.ltb_spec 0 t); [by apply transfer_inv in Et as (-> & -> & _)|]. injection Et as <- <-. lia. }
  exists liqee, liqor1, (bs_liqee s), pp, maxs, sx, t, (bs_cache s), k, pos, c', h'. split_and!; try done; try apply Hiv.
  all: apply recover_flag; congruence.
Qed.

End spec.

(** ** A concrete bankruptcy

    The liqee owes 500 and has nothing; the insurance fund holds 100; the settle bank is the
    insurance bank. *)
Definition insured_market : PerpMarket := liq_market <| pm_group_insurance_fund := 1 |>.

Definition perp_bankruptcy_sample : PerpBankruptcyAccounts :=
  mkPerpBankruptcyAccounts
    (mkPerpLiqAccounts
       (mkLiqAccounts 1 (sample_group <| gr_ix_gate := 0 |>) 30 (settle_account 8 0 (fx_int 10000)) 31
          (settle_account 9 (fx_int (-500)) 0))
       40 insured_market (1, stub (fx_int 100)) 20 asset_bank_0 3 (4, stub fx_one)
       [(20, ABank asset_bank_0); (4, AOracle (stub fx_one)); (40, APerpMarket insured_market);
        (1, AOracle (stub (fx_int 100)))])
    (gr_insurance_vault sample_group) (bk_mint asset_bank_0) 100 20 asset_bank_0 3 7 (4, stub fx_one).

(** The witness of C15: the fund is paid out and the rest is socialized. *)
Lemma perp_bankruptcy_sound_witness :
  exists a', @perp_liq_negative_pnl_or_bankruptcy fixed_ref token_ref perp_bankruptcy_sample 8 withdraw_clock 1000 = Done a' /\
    pb_insurance_vault a' = 0 /\
    GroupCfg.is_ix_enabled (lq_group (pl_liq (pb_perp perp_bankruptcy_sample))) IxPerpLiqNegativePnlOrBankruptcy = true.
Proof.
  destruct (@perp_liq_negative_pnl_or_bankruptcy fixed_ref token_ref perp_bankruptcy_sample 8 withdraw_clock 1000)
    as [a'| | |] eqn:E; [|vm_compute in E; discriminate E..].
  destruct (@perp_bankruptcy_sound fixed_ref fixed_ref_laws token_ref token_ref_laws perp_bankruptcy_sample 8 withdraw_clock
    1000 a') as (Hi & _).
  - vm_compute. discriminate.
  - exact E.
  - exists a'. split; [reflexivity|]. split; [vm_compute in E; injection E as <-; reflexivity|exact Hi].
Defined.

(** ** The open interest

    No instruction creates or destroys base lots: what one account gets another one gives,
    and the open interest of the market counts both. *)

Module OpenInterest.

(** *** Base lots of accounts

    The market index and the base lots of every perp position of an account; most operations
    change neither. *)
Definition bases (a : MangoAccount) : list (Z * Z) :=
  (fun p => (pp_market_index p, pp_base_position_lots p)) <$> ma_perps a.

(** The sum of [g] over the base lots that the account holds in market [idx]. *)
Definition lots (g : Z -> Z) (idx : Z) (a : MangoAccount) : Z :=
  foldr (fun x n => (if x.1 =? idx then g x.2 else 0) + n) 0 (bases a).

(** The account's lots in the market change by [d], their absolute value by [c]. *)
Definition shifted (idx : Z) (a a' : MangoAccount) (d c : Z) : Prop :=
  lots id idx a' = lots id idx a + d /\ lots Z.abs idx a' = lots Z.abs idx a + c.

Lemma shifted_bases idx a a' : bases a' = bases a -> shifted idx a a' 0 0.
Proof. intros E. unfold shifted, lots. rewrite E. lia. Qed.

Lemma shifted_trans idx a1 a2 a3 d c d' c' :
  shifted idx a1 a2 d c -> shifted idx a2 a3 d' c' -> shifted idx a1 a3 (d + d') (c + c').
Proof. unfold shifted. lia. Qed.

Lemma lots_insert g idx (l : list (Z * Z)) i x y : l !! i = Some x ->
  let f := fun x n => (if x.1 =? idx then g x.2 else 0) + n in
  foldr f 0 (<[i := y]> l) = foldr f 0 l - (if x.1 =? idx then g x.2 else 0) + (if y.1 =? idx then g y.2 else 0).
Proof.
  cbv zeta. revert i. induction l as [|z l IH]; intros [|i] Hx; simplify_eq/=; [lia|]. rewrite (IH _ Hx). lia.
Qed.

Lemma shifted_perp idx a a' i p p' :
  ma_perps a !! i = Some p -> ma_perps a' = <[i := p']> (ma_perps a) ->
  let w g p := if pp_market_index p =? idx then g (pp_base_position_lots p) else 0 in
  shifted idx a a' (w id p' - w id p) (w Z.abs p' - w Z.abs p).
Proof.
  cbv zeta. intros Hp E. unfold shifted, lots, bases. rewrite E, list_fmap_insert.
  assert (Hx : ((fun p => (pp_market_index p, pp_base_position_lots p)) <$> ma_perps a) !! i =
    Some (pp_market_index p, pp_base_position_lots p)) by (rewrite list_lookup_fmap, Hp; done).
  rewrite !(lots_insert _ _ _ _ _ _ Hx). simpl. lia.
Qed.

Lemma bases_set a a' i p p' : ma_perps a !! i = Some p -> same_base p p' ->
  ma_perps a' = <[i := p']> (ma_perps a) -> bases a' = bases a.
Proof.
  intros Hp [Hb Hi] E. unfold bases. rewrite E, list_fmap_insert, Hb, Hi. apply list_insert_id.
  by rewrite list_lookup_fmap, Hp.
Qed.

(** Takes a successful run apart. *)
Ltac unbind E :=
  repeat (let x := fresh "x" in let S := fresh "S" in apply bind_Done_inv in E as (x & S & E);
    repeat match type of x with prod _ _ => let y := fresh "y" in destruct x as [x y] end).

Section open_interest.
Context `{FixedLaws} `{TokenLaws}.

(** The operations on a position that keep its market and its base lots. *)
Lemma adjust_maker_lots_base p side n p' : Perp.adjust_maker_lots p side n = Done p' -> same_base p p'.
Proof. intros (Hb & Hi & _)%AccountSpec.adjust_maker_lots_keeps. done. Qed.

Lemma add_taker_trade_base p side n k p' : Perp.add_taker_trade p side n k = Done p' -> same_base p p'.
Proof. unfold Perp.add_taker_trade. destruct side; intros E; inv_run; done. Qed.

Lemma record_trading_fee_base p f p' : Perp.record_trading_fee p f = Done p' -> same_base p p'.
Proof. intros (_ & Hb & Hi)%AccountSpec.record_trading_fee_quote. done. Qed.

Lemma pnl_takeover_base p c r o p' : Perp.record_liquidation_pnl_takeover p c r o = Done p' -> same_base p p'.
Proof. unfold Perp.record_liquidation_pnl_takeover, Perp.change_quote_position. intros E. fx_inv. done. Qed.

(** Finds the positions that a run of such operations relates. *)
Ltac same_bases := repeat match goal with
  | H : Perp.settle_funding _ _ = Done _ |- _ => apply settle_funding_base in H
  | H : Perp.update_settle_limit _ _ _ = Done _ |- _ => apply update_settle_limit_same, proj1 in H
  | H : Perp.record_settle _ _ _ = Done _ |- _ => apply record_settle_quote, proj1 in H
  | H : Perp.adjust_maker_lots _ _ _ = Done _ |- _ => apply adjust_maker_lots_base in H
  | H : Perp.add_taker_trade _ _ _ _ = Done _ |- _ => apply add_taker_trade_base in H
  | H : Perp.record_trading_fee _ _ = Done _ |- _ => apply record_trading_fee_base in H
  | H : Perp.record_liquidation_quote_change _ _ = Done _ |- _ => apply quote_change_inv, proj1 in H
  | H : Perp.record_liquidation_pnl_takeover _ _ _ _ = Done _ |- _ => apply pnl_takeover_base in H
  | H : Account.perp_position _ _ = Done (_, _) |- _ => apply AccountSpec.perp_position_inv in H as (_ & H & ?)
  end; eauto 10 using same_base_trans.

(** *** Accounts *)

Lemma add_perp_order_bases a idx side t o a' : Account.add_perp_order a idx side t o = Done a' -> bases a' = bases a.
Proof. unfold Account.add_perp_order. intros E. unbind E. injection E as <-. same_bases. by eapply bases_set. Qed.

Lemma remove_perp_order_bases a slot q a' : Account.remove_perp_order a slot q = Done a' -> bases a' = bases a.
Proof. unfold Account.remove_perp_order. intros E. unbind E. injection E as <-. same_bases. by eapply bases_set. Qed.

Lemma bases_write a i p q : same_base p q -> bases (Account.set_perp a i q) = bases (Account.set_perp a i p).
Proof. intros [Hi Hb]. unfold bases. simpl. by rewrite !list_fmap_insert, Hi, Hb. Qed.

Lemma add_spot_transfers_bases a i p d a' : add_spot_transfers a i p d = Done a' -> bases a' = bases (Account.set_perp a i p).
Proof. unfold add_spot_transfers. intros E. unbind E. injection E as <-. by apply (bases_write a i p (p <| pp_perp_spot_transfers := _ |>)). Qed.

Lemma settle_tokens_bases bank a b ti x fee now bank' a' b' :
  settle_tokens bank a b ti x fee now = Done (bank', a', b') -> bases a' = bases a /\ bases b' = bases b.
Proof. unfold settle_tokens. intros E. unbind E. by injection E as _ <- <-. Qed.

Lemma ensure_token_bases a ti a' raw k : Account.ensure_token_position a ti = Done (a', raw, k) -> bases a' = bases a.
Proof. unfold bases. by intros ->%ensure_token_position_perps. Qed.

Lemma check_liquidatable_bases a (c : HealthCache) a' r : Account.check_liquidatable a c = Done (a', r) -> bases a' = bases a.
Proof.
  unfold Account.check_liquidatable. destruct (Fixed.being_liquidated _); intros E; unbind E.
  - destruct (Fixed.maybe_recover_from_being_liquidated _ _) as [f rec]. injection E as E. destruct rec; by injection E as <- _.
  - injection E as E. destruct (0 <=? _); by injection E as <- _.
Qed.

(** A new position has no base lots, in whatever slot that was not in use. *)
Lemma ensure_perp_shifted a idx mi ti a' i : idx <> PERP_INDEX_MAX ->
  Account.ensure_perp_position a mi ti = Done (a', i) -> shifted idx a a' 0 0.
Proof.
  unfold Account.ensure_perp_position. intros Hi. destruct (Account.perp_raw_index a mi); [by intros [= <- _]; apply shifted_bases|].
  destruct (position _ _) as [j|] eqn:Ej; [|done]. intros E. unbind E. injection E as <- _.
  apply position_Some in Ej as [(p & Hp & Hf) _]. apply ensure_token_bases in S.
  apply negb_true_iff, negb_false_iff, Z.eqb_eq in Hf.
  assert (Hs := shifted_perp idx a (Account.set_perp a j (set_pp_market_index perp_position_default mi)) j p
    (set_pp_market_index perp_position_default mi) Hp eq_refl).
  simpl in Hs. rewrite Hf, (proj2 (Z.eqb_neq PERP_INDEX_MAX idx)) in Hs by done. destruct (mi =? idx); simpl in Hs.
  all: eapply (shifted_trans _ _ _ _ 0 0 0 0); [exact Hs|apply shifted_bases; exact S].
Qed.

Lemma deactivate_perp_shifted a idx mi ti a' i p : idx <> PERP_INDEX_MAX ->
  Account.perp_position a mi = Done (i, p) -> pp_base_position_lots p = 0 ->
  Account.deactivate_perp_position a mi ti = Done a' -> shifted idx a a' 0 0.
Proof.
  intros Hi Hp Hb E. unfold Account.deactivate_perp_position in E. rewrite Hp in E. simpl in E. unbind E. injection E as <-.
  apply AccountSpec.perp_position_inv in Hp as (_ & Hp & _).
  assert (Hs := shifted_perp idx a (Account.set_perp a i (set_pp_market_index p PERP_INDEX_MAX)) i p
    (set_pp_market_index p PERP_INDEX_MAX) Hp eq_refl).
  assert (Hm : (pp_market_index (set_pp_market_index p PERP_INDEX_MAX) =? idx) = false) by (apply Z.eqb_neq; auto).
  cbv beta zeta in Hs. rewrite Hm, Hb in Hs. destruct (pp_market_index p =? idx); exact Hs.
Qed.

(** *** Orders *)

(** What the open interest and the positions need of the market. *)
Definition same_market (m m' : PerpMarket) : Prop :=
  pm_perp_market_index m' = pm_perp_market_index m /\ pm_open_interest m' = pm_open_interest m.

Lemma same_market_trans m1 m2 m3 : same_market m1 m2 -> same_market m2 m3 -> same_market m1 m3.
Proof. unfold same_market. intuition congruence. Qed.

Lemma update_funding_market m book os now m' :
  update_funding_and_stable_price m book os now = Done m' -> same_market m m'.
Proof. unfold update_funding_and_stable_price. destruct (_ <=? _); intros E; [by injection E as <-|]. unbind E. by injection E as <-. Qed.

Lemma apply_penalty_bases m a m' a' f : apply_penalty m a = Done (m', a', f) -> same_market m m' /\ bases a' = bases a.
Proof.
  unfold apply_penalty. intros E. unbind E. injection E as <- <- _. split; [done|]. same_bases.
  eapply (bases_set (set_ma_fixed a _)); [eassumption| |reflexivity].
  match goal with H : same_base _ _ |- _ => exact H end.
Qed.

Lemma apply_fees_bases m a n m' a' f : apply_fees m a n = Done (m', a', f) -> same_market m m' /\ bases a' = bases a.
Proof.
  unfold apply_fees. intros E. unbind E. injection E as <- <- _. split; [done|]. same_bases.
  eapply (bases_set (set_ma_fixed a _)); [eassumption| |reflexivity].
  match goal with H : same_base _ _ |- _ => exact H end.
Qed.

Lemma post_order_bases ob m q a order pk id n t now opl price ob' q' a' :
  post_order ob m q a order pk id n t now opl price = Done (ob', q', a') -> bases a' = bases a.
Proof. unfold post_order. intros E. unbind E. injection E as _ _ <-. by eapply add_perp_order_bases. Qed.

Lemma new_order_bases ob order m q op a pk now limit ob' m' q' a' r :
  new_order ob order m q op a pk now limit = Done (ob', m', q', a', r) -> same_market m m' /\ bases a' = bases a.
Proof.
  unfold new_order. intros E. apply bind_Done_inv in E as (opl & _ & E). apply bind_Done_inv in E as ([price d] & _ & E).
  apply bind_Done_inv in E as ([m1 id] & E1 & E). apply bind_Done_inv in E as ([[m2 a2] fp] & E2 & E).
  assert (K2 : same_market m m2 /\ bases a2 = bases a).
  { unfold gen_order_id in E1. unbind E1. injection E1 as <- _.
    destruct (Order.needs_penalty_fee order); [by apply apply_penalty_bases in E2|by injection E2 as <- <- _]. }
  apply bind_Done_inv in E as ([i p] & E3 & E). do 5 (apply bind_Done_inv in E as (? & _ & E)).
  apply bind_Done_inv in E as ([m3 a3] & E4 & E).
  assert (K3 : same_market m m3 /\ bases a3 = bases a).
  { destruct K2 as [K2 <-]. destruct (_ || _); [|by injection E4 as <- <-]. unbind E4. injection E4 as <- <-.
    apply apply_fees_bases in S1 as [M ->]. split; [by eapply same_market_trans|]. same_bases. by eapply bases_set. }
  do 5 (apply bind_Done_inv in E as (? & _ & E)). destruct K3 as [K3 <-]. case_match.
  - unbind E. injection E as _ <- _ <- _. split; [done|]. by eapply post_order_bases.
  - by injection E as _ <- _ <- _.
Qed.

Lemma cancel_order_bases ob a pk slot mi ob' a' r :
  cancel_order_by_slot ob a pk slot mi = Done (ob', a', r) -> bases a' = bases a.
Proof.
  unfold cancel_order_by_slot. intros E. apply bind_Done_inv in E as (o & _ & E).
  destruct o as [oo|e]; [|by injection E as _ <- _]. destruct (negb _); [by injection E as _ <- _|]. cbv zeta in E.
  apply bind_Done_inv in E as ([b l] & _ & E). case_match; [|by injection E as _ <- _].
  apply bind_Done_inv in E as (o & Eo & E). destruct o as [a1|e]; [|by injection E as _ <- _]. injection E as _ <- _.
  unfold catch in Eo. destruct (Account.remove_perp_order _ _ _) eqn:Er; simplify_eq/=. by apply remove_perp_order_bases in Er.
Qed.

Lemma cancel_all_bases n : forall ob a pk mi limit side i ob' a',
  cancel_all_loop n ob a pk mi limit side i = Done (ob', a') -> bases a' = bases a.
Proof.
  induction n as [|n IH]; intros ob a pk mi limit side i ob' a' E; simpl in E; [by injection E as _ <-|].
  apply bind_Done_inv in E as (oo & _ & E). destruct (negb _); [by eapply IH|]. case_match; [by eapply IH|].
  apply bind_Done_inv in E as ([[ob1 a1] r] & Ec & E). apply cancel_order_bases in Ec.
  do 2 (apply bind_Done_inv in E as (? & _ & E)). case_match; [by injection E as _ <-|]. by rewrite <- Ec; eapply IH.
Qed.

(** *** Trades between two accounts *)

(** What one account gets the other one gives, and the open interest follows both. *)
Definition exchanged (idx : Z) (m : PerpMarket) (a b : MangoAccount) (m' : PerpMarket) (a' b' : MangoAccount) : Prop :=
  pm_perp_market_index m' = pm_perp_market_index m /\
  exists d ca cb, shifted idx a a' d ca /\ shifted idx b b' (- d) cb /\
    pm_open_interest m' = pm_open_interest m + ca + cb.

Lemma exchanged_none idx m a b m' a' b' : same_market m m' -> shifted idx a a' 0 0 -> shifted idx b b' 0 0 ->
  exchanged idx m a b m' a' b'.
Proof. intros [Hi Ho] Ha Hb. split; [done|]. exists 0, 0, 0. split_and!; [done|done|lia]. Qed.

Lemma exchanged_after idx m a b a1 b1 m' a2 b2 a' b' :
  shifted idx a a1 0 0 -> shifted idx b b1 0 0 -> exchanged idx m a1 b1 m' a2 b2 ->
  bases a' = bases a2 -> bases b' = bases b2 -> exchanged idx m a b m' a' b'.
Proof.
  intros Sa Sb (Hm & d & ca & cb & Da & Db & Ho) Ea Eb. apply (shifted_bases idx) in Ea, Eb. split; [done|].
  exists d, ca, cb. unfold shifted in *. lia.
Qed.

(** The positions of two accounts after a base transfer. *)
Lemma exchanged_positions m a b i j p q p' q' d qa qb m' :
  Account.perp_position a (pm_perp_market_index m) = Done (i, p) ->
  Account.perp_position b (pm_perp_market_index m) = Done (j, q) ->
  pm_perp_market_index m' = pm_perp_market_index m -> base_moved m p q d qa qb m' p' q' ->
  exchanged (pm_perp_market_index m) m a b m' (Account.set_perp a i p') (Account.set_perp b j q').
Proof.
  intros (_ & Hp & Ip)%AccountSpec.perp_position_inv (_ & Hq & Iq)%AccountSpec.perp_position_inv Hm
    (I1 & I2 & B1 & B2 & _ & _ & _ & Ho). split; [done|].
  assert (Sp := shifted_perp (pm_perp_market_index m) a (Account.set_perp a i p') i p p' Hp eq_refl).
  assert (Sq := shifted_perp (pm_perp_market_index m) b (Account.set_perp b j q') j q q' Hq eq_refl).
  cbv beta zeta in Sp, Sq. rewrite I1, Ip, Z.eqb_refl in Sp. rewrite I2, Iq, Z.eqb_refl in Sq.
  eexists d, _, _. split_and!; [|..|shelve]; [|].
  - replace d with (id (pp_base_position_lots p') - id (pp_base_position_lots p)) by (unfold id; lia). exact Sp.
  - replace (- d) with (id (pp_base_position_lots q') - id (pp_base_position_lots q)) by (unfold id; lia). exact Sq.
  Unshelve. simpl. lia.
Qed.

Lemma take_over_pnl_bases m bank ea oa i j e o cache lim op pnl g now bank' ea' oa' cache' :
  take_over_pnl m bank ea oa i j e o cache lim op pnl g now = Done (bank', ea', oa', cache') ->
  bases ea' = bases (Account.set_perp ea i e) /\ bases oa' = bases (Account.set_perp oa j o).
Proof.
  unfold take_over_pnl. intros E. unbind E. injection E as _ <- <- _. same_bases.
  repeat match goal with H : add_spot_transfers _ _ _ _ = Done _ |- _ => apply add_spot_transfers_bases in H end.
  match goal with H : settle_tokens _ _ _ _ _ _ _ = Done _ |- _ => apply settle_tokens_bases in H as [-> ->] end.
  split; etrans; try eassumption; by apply bases_write.
Qed.

Lemma liquidation_exchanged m bank liqor liqee cache h now mb mp m' bank' liqor' liqee' cache' :
  perp_liquidation_action m bank liqor liqee cache h now mb mp = Done (m', bank', liqor', liqee', cache') ->
  exchanged (pm_perp_market_index m) m liqee liqor m' liqee' liqor'.
Proof.
  unfold perp_liquidation_action. intros E. apply bind_Done_inv in E as ([i e] & Pe & E).
  apply bind_Done_inv in E as ([j o] & Po & E). do 7 (apply bind_Done_inv in E as (? & _ & E)).
  apply bind_Done_inv in E as ([? lim] & _ & E). apply bind_Done_inv in E as (? & _ & E).
  apply bind_Done_inv in E as ([[[dir fl] fa] u] & _ & E). do 7 (apply bind_Done_inv in E as (? & _ & E)).
  apply bind_Done_inv in E as ([[[m1 e1] o1] fee] & Et & E). apply bind_Done_inv in E as ([[[b1 ea] oa] c1] & Ep & E).
  apply bind_Done_inv in E as ([? ?] & _ & E). apply bind_Done_inv in E as (? & _ & E). injection E as <- _ <- <- _.
  pose proof (transfer_base_market _ _ _ _ _ _ _ _ _ _ _ Et) as [Hm _]. apply transfer_base_inv in Et as [Hb _].
  assert (B : bases ea = bases (Account.set_perp liqee i e1) /\ bases oa = bases (Account.set_perp liqor j o1)).
  { case_match; [by eapply take_over_pnl_bases|by injection Ep as _ <- <- _]. }
  destruct B as [B1 B2]. eapply exchanged_after; [by apply shifted_bases..|by eapply exchanged_positions|done|done].
Qed.

Lemma prepare_positions_shifted m idx liqor liqee now liqor' liqee' : idx <> PERP_INDEX_MAX ->
  prepare_positions m liqor liqee now = Done (liqor', liqee') -> shifted idx liqor liqor' 0 0 /\ bases liqee' = bases liqee.
Proof.
  unfold prepare_positions. intros Hi E. unbind E. injection E as <- <-.
  match goal with H : Account.ensure_perp_position _ _ _ = Done _ |- _ => apply (ensure_perp_shifted _ _ _ _ _ _ Hi) in H end.
  match goal with H : unwrap _ = Done _ |- _ => apply unwrap_inv in H end. same_bases.
  split; [|eapply bases_set; [eassumption| |reflexivity]; eauto using same_base_trans].
  eapply (shifted_trans _ _ _ _ 0 0 0 0); [eassumption|]. apply shifted_bases. by eapply bases_set.
Qed.

Lemma perp_liq_exchanged p owner clock mb mp p' :
  pm_perp_market_index (pl_market p) <> PERP_INDEX_MAX ->
  perp_liq_base_or_positive_pnl p owner clock mb mp = Done p' ->
  lq_liqor_pk (pl_liq p) <> lq_liqee_pk (pl_liq p) /\
  exchanged (pm_perp_market_index (pl_market p)) (pl_market p) (lq_liqee (pl_liq p)) (lq_liqor (pl_liq p))
    (pl_market p') (lq_liqee (pl_liq p')) (lq_liqor (pl_liq p')).
Proof.
  unfold perp_liq_base_or_positive_pnl. intros Hi E. cbv zeta in E. apply bind_Done_inv in E as (? & _ & E).
  apply bind_Done_inv in E as (? & Ek & E). unfold liqor_checks in Ek. apply bind_Done_inv in Ek as (? & Ek & _).
  apply require_inv, negb_true_iff, Z.eqb_neq in Ek. split; [done|].
  do 4 (apply bind_Done_inv in E as (? & _ & E)). apply bind_Done_inv in E as ([liqee fl] & El & E).
  apply check_liquidatable_bases in El.
  destruct fl; [injection E as <-; by apply exchanged_none; try apply shifted_bases| |
    injection E as <-; by apply exchanged_none; try apply shifted_bases].
  apply bind_Done_inv in E as (? & _ & E). apply bind_Done_inv in E as ([oa ea] & Ep & E).
  apply (prepare_positions_shifted _ _ _ _ _ _ _ Hi) in Ep as [So Se].
  apply bind_Done_inv in E as ([[[[m1 b1] oa1] ea1] c1] & Ea & E). apply liquidation_exchanged in Ea.
  do 3 (apply bind_Done_inv in E as (? & _ & E)). injection E as <-. simpl.
  eapply exchanged_after; [apply shifted_bases; etrans; [exact Se|exact El]|done|exact Ea|done|done].
Qed.

(** *** Losses *)

(** The steps of a liquidation of losses keep the base lots of both accounts and the open
    interest. *)
Definition bases_kept (s s' : BankruptcyState) : Prop :=
  same_market (bs_market s) (bs_market s') /\ bases (bs_liqor s') = bases (bs_liqor s) /\
  bases (bs_liqee s') = bases (bs_liqee s).

Lemma settle_step_bases s price maxs ml now s' x mx pnl :
  settle_step s price maxs ml now = Done (s', x, mx, pnl) -> bases_kept s s'.
Proof.
  unfold settle_step. intros E. do 2 (apply bind_Done_inv in E as ([? ?] & ? & E)).
  do 8 (apply bind_Done_inv in E as (? & ? & E)). case_match.
  - apply bind_Done_inv in E as (s1 & E1 & E). unbind E. injection E as <- _ _ _.
    unfold settle_loss in E1. unbind E1. injection E1 as <-. unfold bases_kept. simpl.
    match goal with H : settle_tokens _ _ _ _ _ _ _ = Done _ |- _ => apply settle_tokens_bases in H as [-> ->] end.
    repeat match goal with H : add_spot_transfers _ _ _ _ = Done _ |- _ => apply add_spot_transfers_bases in H as -> end.
    same_bases. split_and!; [done|..]; (eapply bases_set; [eassumption| |reflexivity]); eauto 10 using same_base_trans.
  - injection E as <- _ _ _. unfold bases_kept. simpl. same_bases.
    split_and!; [done|..]; (eapply bases_set; [eassumption| |reflexivity]); eauto 10 using same_base_trans.
Qed.

Lemma insurance_takeover_bases s p mint t x now s' p' :
  insurance_takeover s p mint t x now = Done (s', p') -> bases_kept s s' /\ bs_liqee s' = bs_liqee s /\ same_base p p'.
Proof.
  unfold insurance_takeover. intros E. unbind E. injection E as <- <-. unfold bases_kept.
  match goal with |- context [write_insurance_bank ?s ?b] => destruct (write_insurance_bank_keeps s b) as (-> & -> & ->) end.
  match goal with H : Account.ensure_token_position _ _ = Done _ |- _ => apply ensure_token_bases in H as He end.
  simpl. same_bases. split_and!; try done. etrans; [|exact He]. by eapply bases_set.
Qed.

Lemma bankruptcy_step_bases s bals pp sp ip mint v h ml now s' t :
  bankruptcy_step s bals pp sp ip mint v h ml now = Done (s', t) -> bases_kept s s'.
Proof.
  unfold bankruptcy_step. intros E. do 2 (apply bind_Done_inv in E as (? & _ & E)).
  apply bind_Done_inv in E as ([i p] & Pp & E). do 2 (apply bind_Done_inv in E as (? & _ & E)).
  apply bind_Done_inv in E as ([t1 y] & _ & E). apply bind_Done_inv in E as ([s1 p1] & E1 & E).
  apply bind_Done_inv in E as (? & _ & E). apply bind_Done_inv in E as ([s2 p2] & E2 & E). injection E as <- _.
  assert (K : bases_kept s s1 /\ bs_liqee s1 = bs_liqee s /\ same_base p p1).
  { destruct (0 <? t1); [by apply insurance_takeover_bases in E1|by injection E1 as <- <-]. }
  destruct K as ((M1 & O1 & L1) & Le1 & B1). apply socialize_rest_inv in E2 as (Le2 & Lo2 & B2 & _ & M2).
  assert (M : same_market (bs_market s1) (bs_market s2)).
  { destruct (_ && _); [|by rewrite M2]. destruct M2 as [? M2]. unfold socialize_loss in M2. unbind M2. by injection M2 as <- _. }
  unfold bases_kept. simpl. rewrite Lo2, Le2, Le1. apply AccountSpec.perp_position_inv in Pp as (_ & Pp & _).
  split_and!; [exact (same_market_trans _ _ _ M1 M)|done|]. eapply bases_set; [done| |done]. by eapply same_base_trans.
Qed.

Lemma loss_liquidation_bases s pp sp ip mint v h now ml s' x t :
  loss_liquidation_action s pp sp ip mint v h now ml = Done (s', x, t) -> bases_kept s s'.
Proof.
  unfold loss_liquidation_action. intros E. do 2 (apply bind_Done_inv in E as (? & _ & E)).
  apply bind_Done_inv in E as ([[[s1 sx] mx] pnl] & E1 & E). apply settle_step_bases in E1 as (M1 & O1 & L1).
  do 2 (apply bind_Done_inv in E as (? & _ & E)). case_match; [|by injection E as <- _ _].
  apply bind_Done_inv in E as ([s2 t2] & E2 & E). injection E as <- _ _. apply bankruptcy_step_bases in E2 as (M2 & O2 & L2).
  split_and!; [exact (same_market_trans _ _ _ M1 M2)|congruence|congruence].
Qed.

Lemma perp_bankruptcy_exchanged a owner clock ml a' :
  pm_perp_market_index (pl_market (pb_perp a)) <> PERP_INDEX_MAX ->
  perp_liq_negative_pnl_or_bankruptcy a owner clock ml = Done a' ->
  let p := pb_perp a in let p' := pb_perp a' in
  lq_liqor_pk (pl_liq p) <> lq_liqee_pk (pl_liq p) /\
  exchanged (pm_perp_market_index (pl_market p)) (pl_market p) (lq_liqee (pl_liq p)) (lq_liqor (pl_liq p))
    (pl_market p') (lq_liqee (pl_liq p')) (lq_liqor (pl_liq p')).
Proof.
  unfold perp_liq_negative_pnl_or_bankruptcy. intros Hi E. cbv zeta in *. apply bind_Done_inv in E as (? & _ & E).
  apply bind_Done_inv in E as ([[? ?] ?] & _ & E).
  apply bind_Done_inv in E as (? & Ek & E). unfold liqor_checks in Ek. apply bind_Done_inv in Ek as (? & Ek & _).
  apply require_inv, negb_true_iff, Z.eqb_neq in Ek. split; [done|].
  do 4 (apply bind_Done_inv in E as (? & _ & E)). apply bind_Done_inv in E as ([liqee fl] & El & E).
  apply check_liquidatable_bases in El.
  destruct fl; [injection E as <-; by apply exchanged_none; try apply shifted_bases| |
    injection E as <-; by apply exchanged_none; try apply shifted_bases].
  apply bind_Done_inv in E as (oa & Ee & E).
  apply bind_Done_inv in E as ([[s sx] st] & Ea & E). apply loss_liquidation_bases in Ea as (M & O & L). simpl in M, O, L.
  apply bind_Done_inv in E as ([? ?] & _ & E). apply bind_Done_inv in E as ([? ?] & _ & E).
  do 3 (apply bind_Done_inv in E as (? & _ & E)). injection E as <-. simpl.
  unfold ensure_positions in Ee. unbind Ee. injection Ee as <-.
  match goal with H : Account.ensure_perp_position _ _ _ = Done _ |- _ => apply (ensure_perp_shifted _ _ _ _ _ _ Hi) in H as So end.
  match goal with H : Account.ensure_token_position _ _ = Done _ |- _ => apply ensure_token_bases in H as Bo end.
  apply exchanged_none; [done|apply shifted_bases; etrans; [exact L|exact El]|].
  eapply (shifted_trans _ _ _ _ 0 0 0 0); [exact So|]. apply shifted_bases. etrans; [exact O|exact Bo].
Qed.

(** *** All accounts *)

Definition total (g : Z -> Z) (idx : Z) (accounts : AccountMap) : Z := sum_accounts (lots g idx) accounts.

(** The lots of all accounts sum up to the same, and the open interest follows the sum of
    their absolute values. *)
Definition lots_kept (idx : Z) (s s' : AccountMap * PerpMarket) : Prop :=
  pm_perp_market_index (snd s') = pm_perp_market_index (snd s) /\ total id idx (fst s') = total id idx (fst s) /\
  pm_open_interest (snd s') - total Z.abs idx (fst s') = pm_open_interest (snd s) - total Z.abs idx (fst s).

Lemma lots_kept_trans idx s1 s2 s3 : lots_kept idx s1 s2 -> lots_kept idx s2 s3 -> lots_kept idx s1 s3.
Proof. unfold lots_kept. intros (? & ? & ?) (? & ? & ?). split_and!; lia. Qed.

Lemma lots_kept_one idx accounts k a a' m m' d c : accounts !! k = Some (Some a) -> shifted idx a a' d c ->
  d = 0 -> pm_perp_market_index m' = pm_perp_market_index m -> pm_open_interest m' = pm_open_interest m + c ->
  lots_kept idx (accounts, m) (<[k := Some a']> accounts, m').
Proof.
  intros Hk [S1 S2] Hd Hm Ho. unfold lots_kept, total. simpl. rewrite !(sum_accounts_insert _ _ _ _ a' Hk), S1, S2. lia.
Qed.

Lemma lots_kept_bases idx accounts k a a' m m' : accounts !! k = Some (Some a) -> shifted idx a a' 0 0 ->
  same_market m m' -> lots_kept idx (accounts, m) (<[k := Some a']> accounts, m').
Proof. intros Hk Hs [Hm Ho]. eapply lots_kept_one; try done. lia. Qed.

Lemma lots_kept_two idx accounts k l a b a' b' m m' : k <> l ->
  accounts !! k = Some (Some a) -> accounts !! l = Some (Some b) -> exchanged idx m a b m' a' b' ->
  lots_kept idx (accounts, m) (<[l := Some b']> (<[k := Some a']> accounts), m').
Proof.
  intros Hkl Hk Hl (Hm & d & ca & cb & [A1 A2] & [B1 B2] & Ho).
  assert (Hl' : <[k := Some a']> accounts !! l = Some (Some b)) by (unfold AccountMap in *; by rewrite (lookup_insert_ne (M := gmap Z))).
  unfold lots_kept, total. simpl. rewrite !(sum_accounts_insert _ _ _ _ b' Hl'), !(sum_accounts_insert _ _ _ _ a' Hk), A1, A2, B1, B2.
  lia.
Qed.

Lemma sum_accounts_union f (accounts rest : AccountMap) : accounts ##ₘ rest ->
  sum_accounts f (accounts ∪ rest) = sum_accounts f accounts + sum_accounts f rest.
Proof.
  unfold sum_accounts, AccountMap in *. intros D. induction accounts as [|k o accounts Hk IH] using (map_ind (M := gmap Z)).
  - by rewrite map_empty_union, map_fold_empty.
  - apply map_disjoint_insert_l in D as [Hr D]. rewrite <- insert_union_l, !map_fold_insert_L.
    + rewrite IH by done. lia.
    + intros; lia.
    + done.
    + intros; lia.
    + by apply lookup_union_None.
Qed.

(** The accounts that were not passed to an instruction. *)
Lemma lots_kept_frame idx (accounts accounts' rest : AccountMap) m m' : dom accounts' = dom accounts ->
  accounts ##ₘ rest -> lots_kept idx (accounts, m) (accounts', m') -> lots_kept idx (accounts ∪ rest, m) (accounts' ∪ rest, m').
Proof.
  unfold AccountMap in *. intros Hd D. assert (D' : accounts' ##ₘ rest).
  { apply (map_disjoint_dom (D := gset Z)). rewrite Hd. by apply (map_disjoint_dom (D := gset Z)). }
  unfold lots_kept, total. simpl. rewrite !sum_accounts_union by done. lia.
Qed.

(** *** Consuming events *)

Lemma position_shifted idx a a' i p p' : Account.perp_position a idx = Done (i, p) -> Account.perp_position a' idx = Done (i, p') ->
  ma_perps a' = <[i := p']> (ma_perps a) -> shifted idx a a' (pp_base_position_lots p' - pp_base_position_lots p)
    (Z.abs (pp_base_position_lots p') - Z.abs (pp_base_position_lots p)).
Proof.
  intros (_ & Hp & Ip)%AccountSpec.perp_position_inv (_ & _ & Ip')%AccountSpec.perp_position_inv E.
  assert (Hs := shifted_perp idx a a' i p p' Hp E). cbv beta zeta in Hs. by rewrite Ip, Ip', Z.eqb_refl in Hs.
Qed.

Lemma maker_shifted a now idx m f interval a' m' r :
  Account.execute_perp_maker a now idx m f interval = Done (a', m', r) -> pm_perp_market_index m' = pm_perp_market_index m /\
  shifted idx a a' (- (AccountSpec.side_sign (fill_taker_side f) * fill_quantity f)) (pm_open_interest m' - pm_open_interest m).
Proof.
  intros (i & p & p1 & p' & mf & P1 & P2 & P3 & M & _ & _ & F2 & _ & F4 & _)%AccountSpec.execute_perp_maker_ok. split; [done|].
  rewrite F4. replace (- _) with (pp_base_position_lots p' - pp_base_position_lots p)
    by (destruct (fill_taker_side f); simpl in *; lia). by eapply position_shifted.
Qed.

Lemma taker_shifted a idx m f a' m' r :
  Account.execute_perp_taker a idx m f = Done (a', m', r) -> pm_perp_market_index m' = pm_perp_market_index m /\
  shifted idx a a' (AccountSpec.side_sign (fill_taker_side f) * fill_quantity f) (pm_open_interest m' - pm_open_interest m).
Proof.
  intros (i & p & p1 & p' & P1 & P2 & P3 & M & _ & F2 & _ & F4 & _)%AccountSpec.execute_perp_taker_ok. split; [done|].
  rewrite F4. replace (_ * _) with (pp_base_position_lots p' - pp_base_position_lots p) by lia. by eapply position_shifted.
Qed.

Lemma out_bases a idx side slot n id a' : Account.execute_perp_out_event a idx side slot n id = Done a' -> bases a' = bases a.
Proof.
  unfold Account.execute_perp_out_event. intros E. unbind E. injection E as <-. same_bases.
  eapply bases_set; [eassumption| |reflexivity]. done.
Qed.

Lemma consume_event_kept idx accounts group m now e s' :
  consume_event idx accounts group m now e = Done (Found s') ->
  lots_kept idx (accounts, m) s' /\ dom (fst s') = dom accounts.
Proof.
  destruct e as [f|o]; simpl; [unfold consume_fill|unfold consume_out]; intros E; apply bind_Done_inv in E as (l & El & E).
  2: { destruct l as [a| |]; try done. apply load_found in El. apply bind_Done_inv in E as (a' & Ea & E). injection E as <-.
    apply out_bases in Ea. split; [by eapply lots_kept_bases; [done|apply shifted_bases|]|]. simpl.
    unfold AccountMap in *. apply dom_insert_lookup_L; eauto. }
  destruct l as [mk| |]; try done. apply load_found in El. destruct (Z.eqb_spec (fill_maker f) (fill_taker f)) as [Heq|Hne].
  - apply bind_Done_inv in E as ([[a1 m1] r1] & E1 & E). apply bind_Done_inv in E as ([[a2 m2] r2] & E2 & E).
    apply bind_Done_inv in E as (x & _ & E). injection E as <-. apply maker_shifted in E1 as [M1 S1]. apply taker_shifted in E2 as [M2 S2].
    split; [|simpl; unfold AccountMap in *; apply dom_insert_lookup_L; eauto].
    eapply lots_kept_one; [done|by eapply shifted_trans|lia|congruence|lia].
  - apply bind_Done_inv in E as (l2 & El2 & E). destruct l2 as [tk| |]; try done. apply load_found in El2.
    apply bind_Done_inv in E as ([[a1 m1] r1] & E1 & E). apply bind_Done_inv in E as ([[a2 m2] r2] & E2 & E).
    injection E as <-. apply maker_shifted in E1 as [M1 S1]. apply taker_shifted in E2 as [M2 S2]. split.
    + eapply lots_kept_two; [done..|]. split; [congruence|]. eexists _, _, _. split_and!; [exact S1| |].
      * rewrite Z.opp_involutive. exact S2.
      * lia.
    + simpl. unfold AccountMap in *. rewrite !dom_insert_lookup_L; eauto. rewrite lookup_insert_ne; eauto.
Qed.

Lemma consumed_kept idx group now es s s' : consumed idx group now es s s' -> lots_kept idx s s' /\ dom (fst s') = dom (fst s).
Proof.
  induction 1 as [s|e es accounts m s1 s2 E _ [IH1 IH2]|e es accounts m s2 _ _ IH]; [done| |done].
  apply consume_event_kept in E as [E1 E2]. split; [by eapply lots_kept_trans|simpl in *; congruence].
Qed.

(** *** Settlements *)

Lemma settle_between_bases s a b clock bank a' b' x fee :
  settle_between s a b clock = Done (bank, a', b', x, fee) -> bases a' = bases a /\ bases b' = bases b.
Proof.
  unfold settle_between. intros E. unbind E. injection E as _ <- <- _ _.
  match goal with H : settle_tokens _ _ _ _ _ _ _ = Done _ |- _ => apply settle_tokens_bases in H as [-> ->] end.
  repeat match goal with H : add_spot_transfers _ _ _ _ = Done _ |- _ => apply add_spot_transfers_bases in H as -> end.
  match goal with H : settle_pnls _ _ _ _ = Done _ |- _ => unfold settle_pnls in H; unbind H; injection H as <- <- _ _ end.
  match goal with H : settlement_amount _ _ _ _ _ _ _ = Done _ |- _ =>
    unfold settlement_amount in H; unbind H; injection H as <- <- _ end.
  same_bases. split; (eapply bases_set; [eassumption| |reflexivity]); eauto 10 using same_base_trans.
Qed.

Lemma pay_settler_bases bank a owner ti fee now bank' a' :
  pay_settler bank a owner ti fee now = Done (bank', a') -> bases a' = bases a.
Proof.
  unfold pay_settler. intros E. unbind E. injection E as _ <-.
  match goal with H : Account.ensure_token_position _ _ = Done _ |- _ => apply ensure_token_bases in H as <- end.
  match goal with H : (if negb _ then _ else _) = Done _ |- _ => destruct (negb _); [unfold Account.deactivate_token_position in H; unbind H|] end.
  all: match goal with H : Done _ = Done _ |- _ => by injection H as <- end.
Qed.

(** The accounts of a settlement in the form that consuming events has them. *)
Definition loaded (accounts : gmap Z MangoAccount) : AccountMap := Some <$> accounts.

(** Passed accounts may change as long as the lots are kept and none appears or goes. *)
Definition rewritten (idx : Z) (accounts : gmap Z MangoAccount) (m : PerpMarket) (accounts' : gmap Z MangoAccount) (m' : PerpMarket) : Prop :=
  lots_kept idx (loaded accounts, m) (loaded accounts', m') /\ dom (loaded accounts') = dom (loaded accounts).

Lemma rewritten_trans idx a1 m1 a2 m2 a3 m3 : rewritten idx a1 m1 a2 m2 -> rewritten idx a2 m2 a3 m3 -> rewritten idx a1 m1 a3 m3.
Proof. intros [K1 D1] [K2 D2]. split; [by eapply lots_kept_trans|congruence]. Qed.

Lemma rewritten_one idx (accounts : gmap Z MangoAccount) k a a' m m' : load_account accounts k = Done a -> bases a' = bases a ->
  same_market m m' -> rewritten idx accounts m (<[k := a']> accounts) m'.
Proof.
  unfold load_account, rewritten, loaded, AccountMap. intros Hk Hb Hm. destruct (accounts !! k) as [a0|] eqn:Ek; [|done].
  injection Hk as ->. rewrite fmap_insert.
  assert (Hk' : (Some <$> accounts) !! k = Some (Some a)) by (by rewrite lookup_fmap, Ek).
  split; [|apply dom_insert_lookup_L; eauto]. by eapply lots_kept_bases; [done|apply shifted_bases|].
Qed.

Lemma perp_settle_pnl_rewritten s owner clock s' idx :
  perp_settle_pnl s owner clock = Done s' -> rewritten idx (st_accounts s) (st_market s) (st_accounts s') (st_market s').
Proof.
  unfold perp_settle_pnl. intros E. cbv zeta in E. do 3 (apply bind_Done_inv in E as (? & _ & E)).
  apply bind_Done_inv in E as (a & Ea & E). apply bind_Done_inv in E as (? & _ & E).
  apply bind_Done_inv in E as (b & Eb & E). do 2 (apply bind_Done_inv in E as (? & _ & E)).
  apply bind_Done_inv in E as (? & Hab & E). apply require_inv, negb_true_iff, Z.eqb_neq in Hab.
  apply bind_Done_inv in E as ([[[[bank a'] b'] sx] fee] & Es & E). apply settle_between_bases in Es as [Ba Bb].
  apply bind_Done_inv in E as (r & Er & E). apply bind_Done_inv in E as ([bank' r'] & Ep & E). injection E as <-. simpl.
  apply pay_settler_bases in Ep. assert (Hm : same_market (st_market s) (st_market s)) by done.
  assert (Eb' : load_account (<[st_account_a_pk s := a']> (st_accounts s)) (st_account_b_pk s) = Done b)
    by (unfold load_account in *; by rewrite lookup_insert_ne).
  eapply rewritten_trans; [exact (rewritten_one idx _ _ _ _ _ _ Ea Ba Hm)|].
  eapply rewritten_trans; [exact (rewritten_one idx _ _ _ _ _ _ Eb' Bb Hm)|exact (rewritten_one idx _ _ _ _ _ _ Er Ep Hm)].
Qed.

Lemma perp_settle_fees_rewritten s clock n s' idx :
  perp_settle_fees s clock n = Done s' -> rewritten idx (st_accounts s) (st_market s) (st_accounts s') (st_market s').
Proof.
  unfold perp_settle_fees. intros E. cbv zeta in E. do 2 (apply bind_Done_inv in E as (? & _ & E)).
  apply bind_Done_inv in E as (a & Ea & E). do 2 (apply bind_Done_inv in E as (? & _ & E)).
  apply bind_Done_inv in E as ([? ?] & _ & E). apply bind_Done_inv in E as ([i p] & Pp & E).
  apply bind_Done_inv in E as (p1 & Ep & E). do 2 (apply bind_Done_inv in E as (? & _ & E)). destruct (_ || _).
  - injection E as <-. simpl. eapply rewritten_one; [done| |done]. same_bases. by eapply bases_set.
  - unbind E. injection E as <-. simpl. eapply rewritten_one; [done| |done].
    match goal with H : add_spot_transfers _ _ _ _ = Done _ |- _ => apply add_spot_transfers_bases in H as Hs end.
    etrans; [exact Hs|]. same_bases. eapply bases_set; [eassumption| |reflexivity]. eauto using same_base_trans.
Qed.

(** *** The other instructions *)

Lemma force_close_exchanged gpk group m ka a kb b oracle clock m' a' b' :
  perp_force_close_position gpk group m ka a kb b oracle clock = Done (m', a', b') ->
  ka <> kb /\ exchanged (pm_perp_market_index m) m a b m' a' b'.
Proof.
  unfold perp_force_close_position. intros E. do 5 (apply bind_Done_inv in E as (? & _ & E)).
  apply bind_Done_inv in E as (? & Hk & E). apply require_inv, negb_true_iff, Z.eqb_neq in Hk. split; [done|].
  apply bind_Done_inv in E as (? & _ & E). apply bind_Done_inv in E as ([i p] & Pa & E). apply bind_Done_inv in E as ([j q] & Pb & E).
  do 7 (apply bind_Done_inv in E as (? & _ & E)). apply bind_Done_inv in E as (nb & En & E). apply i64_inv in En as [-> _].
  apply bind_Done_inv in E as ([[p' m1] r1] & E1 & E). apply bind_Done_inv in E as (? & _ & E).
  apply bind_Done_inv in E as ([[q' m2] r2] & E2 & E). injection E as <- <- <-.
  pose proof (record_trade_market _ _ _ _ _ _ _ E1) as M1. pose proof (record_trade_market _ _ _ _ _ _ _ E2) as M2.
  pose proof (AccountSpec.record_trade_quote _ _ _ _ _ _ _ E1) as (_ & I1 & _).
  pose proof (AccountSpec.record_trade_quote _ _ _ _ _ _ _ E2) as (_ & I2 & _).
  apply record_trade_base in E1 as (B1 & O1 & _). apply record_trade_base in E2 as (B2 & O2 & _).
  pose proof (AccountSpec.perp_position_inv _ _ _ _ Pa) as (_ & _ & Ip). pose proof (AccountSpec.perp_position_inv _ _ _ _ Pb) as (_ & _ & Iq).
  split; [by rewrite M2, M1|]. eexists _, _, _. split_and!.
  - eapply position_shifted; [exact Pa|by eapply AccountSpec.perp_position_set; [|congruence]|reflexivity].
  - replace (- _) with (pp_base_position_lots q' - pp_base_position_lots q) by lia.
    eapply position_shifted; [exact Pb|by eapply AccountSpec.perp_position_set; [|congruence]|reflexivity].
  - lia.
Qed.

Lemma deactivate_position_shifted gpk group a m owner clock a' : pm_perp_market_index m <> PERP_INDEX_MAX ->
  perp_deactivate_position gpk group a m owner clock = Done a' -> shifted (pm_perp_market_index m) a a' 0 0.
Proof.
  unfold perp_deactivate_position. intros Hi E. do 4 (apply bind_Done_inv in E as (? & _ & E)).
  apply bind_Done_inv in E as ([i p] & Pp & E). apply bind_Done_inv in E as (p' & Ep & E).
  apply bind_Done_inv in E as (? & Hb & E). apply require_inv, Z.eqb_eq in Hb. do 3 (apply bind_Done_inv in E as (? & _ & E)).
  apply settle_funding_base in Ep. pose proof (AccountSpec.perp_position_inv _ _ _ _ Pp) as (_ & Lp & Ip).
  eapply (shifted_trans _ _ (Account.set_perp a i p') _ 0 0 0 0); [apply shifted_bases; by eapply bases_set|].
  eapply deactivate_perp_shifted; [done| |exact Hb|exact E]. eapply AccountSpec.perp_position_set; [done|]. destruct Ep. congruence.
Qed.

Lemma place_order_shifted x owner clock order limit x' r : pm_perp_market_index (px_market x) <> PERP_INDEX_MAX ->
  perp_place_order x owner clock order limit = Done (x', r) ->
  same_market (px_market x) (px_market x') /\ shifted (pm_perp_market_index (px_market x)) (px_account x) (px_account x') 0 0.
Proof.
  unfold perp_place_order. intros Hi E. cbv zeta in E. do 4 (apply bind_Done_inv in E as (? & _ & E)).
  apply bind_Done_inv in E as (m & Em & E). apply update_funding_market in Em. apply bind_Done_inv in E as (? & _ & E).
  apply bind_Done_inv in E as ([a1 k] & E1 & E). apply (ensure_perp_shifted _ _ _ _ _ _ Hi) in E1.
  apply bind_Done_inv in E as ([a2 pre] & E2 & E). apply place_pre_health_account in E2.
  apply bind_Done_inv in E as (f & _ & E). apply bind_Done_inv in E as ([? ?] & _ & E). apply bind_Done_inv in E as (? & _ & E).
  apply bind_Done_inv in E as ([[[[b m3] q] a3] id] & E3 & E). apply new_order_bases in E3 as [M3 B3].
  apply bind_Done_inv in E as (? & _ & E). injection E as <- _. simpl. split; [by eapply same_market_trans|].
  eapply (shifted_trans _ _ _ _ 0 0 0 0); [exact E1|]. apply shifted_bases. rewrite B3, E2. done.
Qed.

Lemma cancel_slot_bases x slot x' : cancel_slot x slot = Done x' -> px_market x' = px_market x /\ bases (px_account x') = bases (px_account x).
Proof.
  unfold cancel_slot. intros E. apply bind_Done_inv in E as ([[b a] r] & Ec & E). apply bind_Done_inv in E as (? & _ & E).
  injection E as <-. split; [done|]. by apply cancel_order_bases in Ec.
Qed.

Lemma cancel_all_instr_bases x limit side x' : cancel_all x limit side = Done x' ->
  px_market x' = px_market x /\ bases (px_account x') = bases (px_account x).
Proof.
  unfold cancel_all, cancel_all_orders. intros E. apply bind_Done_inv in E as ([b a] & Ec & E).
  injection E as <-. split; [done|]. by apply cancel_all_bases in Ec.
Qed.

Lemma force_cancel_bases x clock limit x' : perp_liq_force_cancel_orders x clock limit = Done x' ->
  px_market x' = px_market x /\ bases (px_account x') = bases (px_account x).
Proof.
  unfold perp_liq_force_cancel_orders. intros E. do 5 (apply bind_Done_inv in E as (? & _ & E)).
  apply bind_Done_inv in E as ([a l] & El & E). apply check_liquidatable_bases in El. cbv zeta in E.
  destruct (negb _); [by injection E as <-|]. apply bind_Done_inv in E as (y1 & Ec & E).
  apply cancel_all_instr_bases in Ec as [Hm Hb]. simpl in Hm, Hb. apply bind_Done_inv in E as ([? ?] & _ & E).
  do 2 (apply bind_Done_inv in E as (? & _ & E)). injection E as <-. split; [done|]. simpl. etrans; [exact Hb|exact El].
Qed.

(** *** Reachable states *)

(** The instructions on one account and the book. *)
Inductive book_instruction (x x' : PerpAccounts) : Prop :=
| bi_place owner clock order limit r : perp_place_order x owner clock order limit = Done (x', r) -> book_instruction x x'
| bi_cancel owner clock id : perp_cancel_order x owner clock id = Done x' -> book_instruction x x'
| bi_cancel_client owner clock id : perp_cancel_order_by_client_order_id x owner clock id = Done x' -> book_instruction x x'
| bi_cancel_all owner clock limit : perp_cancel_all_orders x owner clock limit = Done x' -> book_instruction x x'
| bi_cancel_side owner clock side limit :
    perp_cancel_all_orders_by_side x owner clock side limit = Done x' -> book_instruction x x'
| bi_force_cancel clock limit : perp_liq_force_cancel_orders x clock limit = Done x' -> book_instruction x x'.

Lemma book_instruction_shifted x x' : pm_perp_market_index (px_market x) <> PERP_INDEX_MAX -> book_instruction x x' ->
  same_market (px_market x) (px_market x') /\ shifted (pm_perp_market_index (px_market x)) (px_account x) (px_account x') 0 0.
Proof.
  intros Hi. assert (C : forall y, px_market y = px_market x /\ bases (px_account y) = bases (px_account x) ->
    same_market (px_market x) (px_market y) /\ shifted (pm_perp_market_index (px_market x)) (px_account x) (px_account y) 0 0).
  { intros y [-> B]. split; [done|by apply shifted_bases]. }
  destruct 1 as [owner clock order limit r E|owner clock id E|owner clock id E|owner clock limit E|owner clock side limit E|clock limit E].
  - by eapply place_order_shifted.
  - unfold perp_cancel_order in E. apply bind_Done_inv in E as (? & _ & E). apply bind_Done_inv in E as ([? ?] & _ & E).
    by apply C, (cancel_slot_bases _ _ _ E).
  - unfold perp_cancel_order_by_client_order_id in E. apply bind_Done_inv in E as (? & _ & E). apply bind_Done_inv in E as ([? ?] & _ & E).
    by apply C, (cancel_slot_bases _ _ _ E).
  - unfold perp_cancel_all_orders in E. apply bind_Done_inv in E as (? & _ & E). by apply C, (cancel_all_instr_bases _ _ _ _ E).
  - unfold perp_cancel_all_orders_by_side in E. apply bind_Done_inv in E as (? & _ & E). by apply C, (cancel_all_instr_bases _ _ _ _ E).
  - by apply C, (force_cancel_bases _ _ _ _ E).
Qed.

(** The positions of an account in a market. *)
Definition in_market (idx : Z) (a : MangoAccount) : list PerpPosition :=
  filter (fun p => pp_market_index p = idx) (ma_perps a).

Lemma lots_in_market g idx a : lots g idx a = foldr (fun p n => g (pp_base_position_lots p) + n) 0 (in_market idx a).
Proof.
  unfold lots, bases, in_market. induction (ma_perps a) as [|p ps IH]; [done|]. rewrite filter_cons, fmap_cons.
  cbn [foldr fst snd]. rewrite IH. destruct (Z.eqb_spec (pp_market_index p) idx); case_decide; done || lia.
Qed.

Lemma inactive_in_market idx a : idx <> PERP_INDEX_MAX ->
  Forall (fun p => Perp.is_active p = false) (ma_perps a) -> in_market idx a = [].
Proof.
  intros Hi. unfold in_market. induction 1 as [|p ps Hp _ IH]; [done|]. rewrite filter_cons.
  apply negb_false_iff, Z.eqb_eq in Hp. case_decide; [congruence|done].
Qed.

(** The steps of a market: the instructions on its positions, with the accounts they load;
    creating accounts and closing accounts without active positions; and everything that
    leaves the positions in the market and its open interest alone. *)
Inductive perp_step : AccountMap * PerpMarket -> AccountMap * PerpMarket -> Prop :=
| ps_book accounts x x' : accounts !! px_account_pk x = Some (Some (px_account x)) -> book_instruction x x' ->
    perp_step (accounts, px_market x) (<[px_account_pk x := Some (px_account x')]> accounts, px_market x')
| ps_funding accounts x clock x' : perp_update_funding x clock = Done x' ->
    perp_step (accounts, px_market x) (accounts, px_market x')
| ps_consume accounts rest gpk group m qpk q clock limit accounts' m' q' : accounts ##ₘ rest -> queue_inv q ->
    perp_consume_events gpk group m qpk q accounts clock limit = Done (accounts', m', q') ->
    perp_step (accounts ∪ rest, m) (accounts' ∪ rest, m')
| ps_settle_pnl rest s owner clock s' : loaded (st_accounts s) ##ₘ rest -> perp_settle_pnl s owner clock = Done s' ->
    perp_step (loaded (st_accounts s) ∪ rest, st_market s) (loaded (st_accounts s') ∪ rest, st_market s')
| ps_settle_fees rest s clock n s' : loaded (st_accounts s) ##ₘ rest -> perp_settle_fees s clock n = Done s' ->
    perp_step (loaded (st_accounts s) ∪ rest, st_market s) (loaded (st_accounts s') ∪ rest, st_market s')
| ps_deactivate accounts k a gpk group m owner clock a' : accounts !! k = Some (Some a) ->
    perp_deactivate_position gpk group a m owner clock = Done a' -> perp_step (accounts, m) (<[k := Some a']> accounts, m)
| ps_force_close accounts gpk group m k a l b oracle clock m' a' b' :
    accounts !! k = Some (Some a) -> accounts !! l = Some (Some b) ->
    perp_force_close_position gpk group m k a l b oracle clock = Done (m', a', b') ->
    perp_step (accounts, m) (<[l := Some b']> (<[k := Some a']> accounts), m')
| ps_liquidate accounts p owner clock mb mp p' :
    accounts !! lq_liqor_pk (pl_liq p) = Some (Some (lq_liqor (pl_liq p))) ->
    accounts !! lq_liqee_pk (pl_liq p) = Some (Some (lq_liqee (pl_liq p))) ->
    perp_liq_base_or_positive_pnl p owner clock mb mp = Done p' ->
    perp_step (accounts, pl_market p) (<[lq_liqor_pk (pl_liq p) := Some (lq_liqor (pl_liq p'))]>
      (<[lq_liqee_pk (pl_liq p) := Some (lq_liqee (pl_liq p'))]> accounts), pl_market p')
| ps_bankruptcy accounts a owner clock ml a' : let p := pb_perp a in let p' := pb_perp a' in
    accounts !! lq_liqor_pk (pl_liq p) = Some (Some (lq_liqor (pl_liq p))) ->
    accounts !! lq_liqee_pk (pl_liq p) = Some (Some (lq_liqee (pl_liq p))) ->
    perp_liq_negative_pnl_or_bankruptcy a owner clock ml = Done a' ->
    perp_step (accounts, pl_market p) (<[lq_liqor_pk (pl_liq p) := Some (lq_liqor (pl_liq p'))]>
      (<[lq_liqee_pk (pl_liq p) := Some (lq_liqee (pl_liq p'))]> accounts), pl_market p')
| ps_create accounts k a m : accounts !! k = None -> Forall (fun p => Perp.is_active p = false) (ma_perps a) ->
    perp_step (accounts, m) (<[k := Some a]> accounts, m)
| ps_close accounts k a m : accounts !! k = Some (Some a) -> Forall (fun p => Perp.is_active p = false) (ma_perps a) ->
    perp_step (accounts, m) (delete k accounts, m)
| ps_other accounts k a a' m m' : accounts !! k = Some (Some a) ->
    in_market (pm_perp_market_index m) a' = in_market (pm_perp_market_index m) a -> same_market m m' ->
    perp_step (accounts, m) (<[k := Some a']> accounts, m').

Lemma perp_step_kept s s' : perp_step s s' -> pm_perp_market_index (snd s) <> PERP_INDEX_MAX ->
  lots_kept (pm_perp_market_index (snd s)) s s'.
Proof.
  destruct 1 as [accounts x x' Hk E|accounts x clock x' E|accounts rest gpk group m qpk q clock limit accounts' m' q' D Q E
    |rest s owner clock s' D E|rest s clock n s' D E|accounts k a gpk group m owner clock a' Hk E
    |accounts gpk group m k a l b oracle clock m' a' b' Hk Hl E|accounts p owner clock mb mp p' Ho He E
    |accounts a owner clock ml a' p p' Ho He E|accounts k a m Hk Hf|accounts k a m Hk Hf|accounts k a a' m m' Hk Hp Hm]; simpl; intros Hi.
  - apply book_instruction_shifted in E as [M S]; [|done]. by eapply lots_kept_bases.
  - unfold perp_update_funding in E. unbind E. injection E as <-. simpl.
    match goal with H : update_funding_and_stable_price _ _ _ _ = Done _ |- _ => apply update_funding_market in H as [M O] end.
    split_and!; [done|done|simpl; lia].
  - unfold perp_consume_events in E. do 3 (apply bind_Done_inv in E as (? & _ & E)).
    apply consume_loop_front in E as (n & _ & _ & _ & C & _); [|done]. apply consumed_kept in C as [C D']. by apply lots_kept_frame.
  - apply (perp_settle_pnl_rewritten _ _ _ _ (pm_perp_market_index (st_market s))) in E as [K D']. by apply lots_kept_frame.
  - apply (perp_settle_fees_rewritten _ _ _ _ (pm_perp_market_index (st_market s))) in E as [K D']. by apply lots_kept_frame.
  - apply deactivate_position_shifted in E; [|done]. by eapply lots_kept_bases.
  - apply force_close_exchanged in E as [Hn X]. by eapply lots_kept_two.
  - apply perp_liq_exchanged in E as [Hn X]; [|done]. by eapply lots_kept_two.
  - apply perp_bankruptcy_exchanged in E as [Hn X]; [|done]. by eapply lots_kept_two.
  - pose proof (inactive_in_market _ _ Hi Hf) as Hn. split_and!; [done|..]; simpl; unfold total, sum_accounts, AccountMap in *;
      rewrite map_fold_insert_L by (done || (intros; lia)); rewrite lots_in_market, Hn; simpl; lia.
  - pose proof (inactive_in_market _ _ Hi Hf) as Hn. split_and!; [done|..]; simpl; unfold total, sum_accounts, AccountMap in *;
      rewrite (map_fold_delete_L _ _ k (Some a) accounts) by (done || (intros; lia)); rewrite lots_in_market, Hn; simpl; lia.
  - eapply lots_kept_bases; [done| |done]. unfold shifted. rewrite !lots_in_market, Hp. lia.
Qed.

(** An account without base lots in the market. *)
Definition flat (idx : Z) (a : MangoAccount) : Prop := Forall (fun p => pp_base_position_lots p = 0) (in_market idx a).

Lemma lots_flat g idx a : g 0 = 0 -> flat idx a -> lots g idx a = 0.
Proof. intros Hg. rewrite lots_in_market. unfold flat. induction 1 as [|p ps Hp _ IH]; simpl; [done|]. rewrite Hp, IH. lia. Qed.

(** The states of a market from its creation on, when no account has lots in it. *)
Inductive perp_reachable : AccountMap * PerpMarket -> Prop :=
| pr_create accounts m : pm_perp_market_index m <> PERP_INDEX_MAX -> pm_open_interest m = 0 ->
    map_Forall (fun _ o => match o with Some a => flat (pm_perp_market_index m) a | None => True end) accounts ->
    perp_reachable (accounts, m)
| pr_step s s' : perp_reachable s -> perp_step s s' -> perp_reachable s'.

Lemma total_none g idx (accounts : AccountMap) : g 0 = 0 ->
  map_Forall (fun _ o => match o with Some a => flat idx a | None => True end) accounts -> total g idx accounts = 0.
Proof.
  intros Hg. unfold total, sum_accounts, AccountMap in *. induction accounts as [|k o accounts Hk IH] using (map_ind (M := gmap Z)); [done|].
  intros F. apply map_Forall_insert in F as [F1 F2]; [|done]. rewrite map_fold_insert_L by (done || (intros; lia)).
  rewrite IH by done. destruct o as [a|]; [|done]. by rewrite lots_flat.
Qed.

Lemma total_long idx (accounts : AccountMap) :
  total Z.abs idx accounts + total id idx accounts = 2 * total (Z.max 0) idx accounts.
Proof.
  assert (L : forall a, lots Z.abs idx a + lots id idx a = 2 * lots (Z.max 0) idx a).
  { intros a. rewrite !lots_in_market. induction (in_market idx a); simpl; [done|]. unfold id in *. lia. }
  unfold total, sum_accounts, AccountMap in *. induction accounts as [|k o accounts Hk IH] using (map_ind (M := gmap Z)); [done|].
  rewrite !map_fold_insert_L by (done || (intros; lia)). destruct o as [a|]; [specialize (L a)|]; lia.
Qed.

Lemma reachable_balanced s : perp_reachable s ->
  let idx := pm_perp_market_index (snd s) in
  idx <> PERP_INDEX_MAX /\ total id idx (fst s) = 0 /\ pm_open_interest (snd s) = total Z.abs idx (fst s).
Proof.
  cbv zeta. induction 1 as [accounts m Hi Ho F|s s' _ (Hi & I1 & I2) St].
  - simpl. by rewrite !total_none.
  - apply perp_step_kept in St as (Hm & K1 & K2); [|done]. rewrite Hm. split; [done|]. lia.
Qed.

(** C22: Whatever instructions run on a market, from its creation on: the base positions of
    all accounts sum up to zero, and the open interest is the sum of their absolute values,
    hence twice the long lots. The steps are the instructions that place, cancel, match,
    settle, liquidate, socialize, force-close and deactivate, on the accounts passed to
    them, new accounts, closed accounts without active positions, and any change that leaves
    the positions and the open interest of this market alone. Closing an account with
    active positions, which a group for testing allows, is not among them. *)
Theorem open_interest_balanced accounts m :
  perp_reachable (accounts, m) ->
  total id (pm_perp_market_index m) accounts = 0 /\
  pm_open_interest m = total Z.abs (pm_perp_market_index m) accounts /\
  pm_open_interest m = 2 * total (Z.max 0) (pm_perp_market_index m) accounts.
Proof.
  intros (_ & I1 & I2)%reachable_balanced. simpl in I1, I2.
  pose proof (total_long (pm_perp_market_index m) accounts). split_and!; lia.
Qed.
End open_interest.

(** The accounts of the fill and one that is not passed. *)
Definition bystander : AccountMap := {[ 9 := Some AccountSpec.sample_account ]}.

Definition fill_reached : outcome (AccountMap * PerpMarket) :=
  '(accounts, m, _) ← fill_consumed; Done (accounts ∪ bystander, m).

(** The witness of C22: after a fill of four lots the open interest is eight. *)
Lemma open_interest_balanced_witness :
  exists accounts m, fill_reached = Done (accounts, m) /\ total id 0 accounts = 0 /\ pm_open_interest m = 8 /\
    total (Z.max 0) 0 accounts = 4.
Proof.
  destruct fill_is_consumed as [[[accounts m] q] E]. exists (accounts ∪ bystander), m.
  assert (M : pm_perp_market_index m = 0 /\ pm_open_interest m = 8) by (vm_compute in E; injection E as <- <- <-; split; reflexivity).
  destruct M as [M O]. split; [unfold fill_reached; rewrite E; reflexivity|].
  destruct (@open_interest_balanced fixed_ref fixed_ref_laws token_ref (accounts ∪ bystander) m) as (H1 & H2 & H3).
  - apply (pr_step (fill_accounts ∪ bystander, flat_market)).
    + apply pr_create; [vm_compute; discriminate|reflexivity|].
      apply (proj2 (map_Forall_to_list _ _)). vm_compute. repeat constructor.
    + eapply ps_consume; [|exact fill_queue_inv|exact E].
      apply (map_disjoint_dom (M := gmap Z) (D := gset Z)), (bool_decide_unpack _). vm_compute. exact I.
  - rewrite M in H1, H2, H3. split; [exact H1|]. split; [exact O|]. rewrite O in H3. lia.
Defined.

End OpenInterest.
