(* ===== verification/SwapInstructions.v ===== *)
(** * Instructions of token conditional swaps

    instructions/token_conditional_swap_create.rs, _cancel.rs, _start.rs and _trigger.rs
    with the constraints of accounts_ix and the entry points of lib.rs that build the swap.
    Logs are left out. *)

From stdpp Require Import base numbers option list.
From Stdlib Require Import ZArith Lia SpecFloat.
From S2P Require Import Prelude FixedPoint HealthType TokenPosition OrderTypes Nodes Oracle StablePrice Bank Group Serum3 ConditionalSwap PerpMarket PerpPosition MangoAccount HealthCache AccountRetriever TokenInstructions TokenLiquidation PerpInstructions.

Open Scope Z_scope.

(** ** Creating and cancelling *)

(** The accounts of both instructions. *)
Record SwapAccounts := mkSwapAccounts {
  sw_group_pk : Pubkey;
  sw_group : Group;
  sw_account : MangoAccount;
  sw_buy_bank_pk : Pubkey;
  sw_buy_bank : Bank;
  sw_sell_bank_pk : Pubkey;
  sw_sell_bank : Bank
}.

#[export] Instance eta_SwapAccounts : Eta SwapAccounts := fun s =>
  mkSwapAccounts (sw_group_pk s) (sw_group s) (sw_account s) (sw_buy_bank_pk s) (sw_buy_bank s) (sw_sell_bank_pk s)
    (sw_sell_bank s).

Definition swap_constraints (s : SwapAccounts) (authority : Pubkey) (now_ts : Z) : outcome unit :=
  _ ← account_constraint (sw_group_pk s) (sw_account s) true now_ts;
  _ ← require (Fixed.is_owner_or_delegate (ma_fixed (sw_account s)) now_ts authority) EConstraint;
  _ ← require (bk_group (sw_buy_bank s) =? sw_group_pk s) EConstraint;
  require (bk_group (sw_sell_bank s) =? sw_group_pk s) EConstraint.

(** The position of a token is created if needed and held. *)
Definition hold_token (a : MangoAccount) (token_index : Z) : outcome MangoAccount :=
  '(a, i, _) ← Account.ensure_token_position a token_index;
  t ← unwrap (ma_tokens a !! i);
  t ← Token.increment_in_use t;
  Done (Account.set_token a i t).

(** The fields of a new swap. *)
Definition configure_swap (t : TokenConditionalSwap) (id : Z) (buy_bank sell_bank : Bank) : TokenConditionalSwap :=
  (((((t <| tcs_id := id |>)
      <| tcs_taker_fee_rate := f64_max (bk_token_conditional_swap_taker_fee_rate buy_bank)
                                       (bk_token_conditional_swap_taker_fee_rate sell_bank) |>)
      <| tcs_maker_fee_rate := f64_max (bk_token_conditional_swap_maker_fee_rate buy_bank)
                                       (bk_token_conditional_swap_maker_fee_rate sell_bank) |>)
      <| tcs_is_configured := 1 |>) <| tcs_bought := 0 |>) <| tcs_sold := 0 |>.

Definition check_swap (t : TokenConditionalSwap) : outcome unit :=
  _ ← require (negb (tcs_buy_token_index t =? tcs_sell_token_index t)) ERequireNeq;
  _ ← require (SFleb f_zero (tcs_price_premium_rate t)) ERequireGte;
  _ ← require (SFleb f_zero (tcs_maker_fee_rate t)) ERequireGte;
  _ ← require (SFleb f_zero (tcs_taker_fee_rate t)) ERequireGte;
  _ ← require (SFleb f_zero (tcs_price_lower_limit t)) ERequireGte;
  require (SFleb f_zero (tcs_price_upper_limit t)) ERequireGte.

Definition token_conditional_swap_create (s : SwapAccounts) (authority : Pubkey) (now_ts : Z)
    (token_conditional_swap : TokenConditionalSwap) : outcome SwapAccounts :=
  _ ← swap_constraints s authority now_ts;
  if Tcs.is_expired token_conditional_swap now_ts then Done s
  else
    account ← hold_token (sw_account s) (tcs_buy_token_index token_conditional_swap);
    account ← hold_token account (tcs_sell_token_index token_conditional_swap);
    let id := af_next_token_conditional_swap_id (ma_fixed account) in
    let account := set_ma_fixed account ((ma_fixed account) <| af_next_token_conditional_swap_id := (id + 1) mod 2 ^ 64 |>) in
    i ← Account.token_conditional_swap_free_index account;
    let tcs := configure_swap token_conditional_swap id (sw_buy_bank s) (sw_sell_bank s) in
    _ ← check_swap tcs;
    Done (s <| sw_account := Account.set_tcs account i tcs |>).

Definition bool_u8 (b : bool) : Z := if b then 1 else 0.

(** The swaps that the entry points build. *)
Definition token_conditional_swap_create_v2 (s : SwapAccounts) (authority : Pubkey) (now_ts : Z)
    (max_buy max_sell expiry_timestamp : Z) (price_lower_limit price_upper_limit price_premium_rate : f64)
    (allow_creating_deposits allow_creating_borrows : bool) : outcome SwapAccounts :=
  _ ← require (GroupCfg.is_ix_enabled (sw_group s) IxTokenConditionalSwapCreate) (EMango IxIsDisabled);
  token_conditional_swap_create s authority now_ts
    (mkTokenConditionalSwap U64_MAX max_buy max_sell 0 0 expiry_timestamp price_lower_limit price_upper_limit
       price_premium_rate f_zero f_zero (bk_token_index (sw_buy_bank s)) (bk_token_index (sw_sell_bank s)) 1
       (bool_u8 allow_creating_deposits) (bool_u8 allow_creating_borrows) 0 0 0).

Definition token_conditional_swap_create_premium_auction (s : SwapAccounts) (authority : Pubkey) (now_ts : Z)
    (max_buy max_sell expiry_timestamp : Z) (price_lower_limit price_upper_limit max_price_premium_rate : f64)
    (allow_creating_deposits allow_creating_borrows : bool) (duration_seconds : Z) : outcome SwapAccounts :=
  _ ← require (GroupCfg.is_ix_enabled (sw_group s) IxTokenConditionalSwapCreatePremiumAuction) (EMango IxIsDisabled);
  _ ← require (1 <=? duration_seconds) ERequireGte;
  token_conditional_swap_create s authority now_ts
    (mkTokenConditionalSwap U64_MAX max_buy max_sell 0 0 expiry_timestamp price_lower_limit price_upper_limit
       max_price_premium_rate f_zero f_zero (bk_token_index (sw_buy_bank s)) (bk_token_index (sw_sell_bank s)) 1
       (bool_u8 allow_creating_deposits) (bool_u8 allow_creating_borrows) 1 0 duration_seconds).

Section swaps.
Context `{FixedOps}.

Definition token_conditional_swap_create_linear_auction (s : SwapAccounts) (authority : Pubkey) (now_ts : Z)
    (max_buy max_sell expiry_timestamp : Z) (price_start price_end : f64)
    (allow_creating_deposits allow_creating_borrows : bool) (start_timestamp duration_seconds : Z) : outcome SwapAccounts :=
  _ ← require (GroupCfg.is_ix_enabled (sw_group s) IxTokenConditionalSwapCreateLinearAuction) (EMango IxIsDisabled);
  _ ← require (1 <=? duration_seconds) ERequireGte;
  p ← bank_stable_price (sw_buy_bank s);
  q ← bank_stable_price (sw_sell_bank s);
  let max_volume :=
    f64_as_u64 (f64_min (f64_mul (fx_to_f64 p) (f64_of_Z max_buy)) (f64_mul (fx_to_f64 q) (f64_of_Z max_sell))) in
  _ ← require (TCS_START_INCENTIVE * 10 <=? max_volume) (EMango TokenConditionalSwapTooSmallForStartIncentive);
  token_conditional_swap_create s authority now_ts
    (mkTokenConditionalSwap U64_MAX max_buy max_sell 0 0 expiry_timestamp price_start price_end f_zero f_zero f_zero
       (bk_token_index (sw_buy_bank s)) (bk_token_index (sw_sell_bank s)) 1
       (bool_u8 allow_creating_deposits) (bool_u8 allow_creating_borrows) 2 start_timestamp duration_seconds).

(** Both tokens are released, and their positions dusted and deactivated if unused. *)
Definition release_tokens (a : MangoAccount) (buy_bank sell_bank : Bank) (now_ts : Z) :
    outcome (MangoAccount * Bank * Bank) :=
  '(a, buy_bank) ← Account.token_decrement_dust_deactivate a buy_bank now_ts;
  '(a, sell_bank) ← Account.token_decrement_dust_deactivate a sell_bank now_ts;
  Done (a, buy_bank, sell_bank).

(** The banks are borrowed mutably, which fails if they are one account. *)
Definition token_conditional_swap_cancel (s : SwapAccounts) (authority : Pubkey) (now_ts : Z) (index : nat) (id : Z) :
    outcome SwapAccounts :=
  _ ← require (GroupCfg.is_ix_enabled (sw_group s) IxTokenConditionalSwapCancel) (EMango IxIsDisabled);
  _ ← swap_constraints s authority now_ts;
  _ ← require (negb (sw_buy_bank_pk s =? sw_sell_bank_pk s)) EAccountBorrow;
  tcs ← Account.token_conditional_swap_by_index (sw_account s) index;
  _ ← require (tcs_buy_token_index tcs =? bk_token_index (sw_buy_bank s)) ERequireEq;
  _ ← require (tcs_sell_token_index tcs =? bk_token_index (sw_sell_bank s)) ERequireEq;
  if negb (Tcs.is_configured tcs) then Done s
  else
    _ ← require (tcs_id tcs =? id) (EMango TokenConditionalSwapIndexIdMismatch);
    '(account, buy_bank, sell_bank) ←
      release_tokens (Account.set_tcs (sw_account s) index Tcs.default) (sw_buy_bank s) (sw_sell_bank s) now_ts;
    Done (((s <| sw_account := account |>) <| sw_buy_bank := buy_bank |>) <| sw_sell_bank := sell_bank |>).

(** ** Starting an auction *)

(** The constraints of starting and triggering: [liq_constraints] and the signer. *)
Definition trigger_constraints (l : LiqAccounts) (ix : IxGate) (liqor_authority : Pubkey) (now_ts : Z) : outcome unit :=
  _ ← liq_constraints l ix now_ts;
  require (Fixed.is_owner_or_delegate (ma_fixed (lq_liqor l)) now_ts liqor_authority) EConstraint.

(** The price of the buy token in sell tokens. *)
Definition sell_per_buy (buy_price sell_price : Z) : f64 := f64_div (fx_to_f64 buy_price) (fx_to_f64 sell_price).

(** [token_conditional_swap_by_index] with the checks of its state and id. *)
Definition configured_swap (a : MangoAccount) (index : nat) (id : Z) : outcome TokenConditionalSwap :=
  tcs ← Account.token_conditional_swap_by_index a index;
  _ ← require (Tcs.is_configured tcs) (EMango TokenConditionalSwapNotSet);
  _ ← require (tcs_id tcs =? id) (EMango TokenConditionalSwapIndexIdMismatch);
  Done tcs.

Definition start_incentive (tcs : TokenConditionalSwap) (sell_bank : Bank) (sell_oracle_price : Z) : outcome Z :=
  n ← fx_from_int TCS_START_INCENTIVE;
  n ← fx_div n sell_oracle_price;
  r ← Tcs.remaining_sell tcs;
  r ← fx_from_int r;
  d ← remaining_deposits_until_limit sell_bank;
  Done (Z.max (Z.min (Z.min n r) d) 0).

(** The bank and the accounts after the incentive is paid, with the native balances of the
    liqee before and after. *)
Definition pay_incentive (tcs : TokenConditionalSwap) (sell_bank : Bank) (liqee liqor : MangoAccount)
    (incentive sell_oracle_price now_ts : Z) : outcome (Bank * MangoAccount * MangoAccount * Z * Z) :=
  '(lt, li) ← Account.token_position_and_raw_index liqee (tcs_sell_token_index tcs);
  '(liqor, oi, _) ← Account.ensure_token_position liqor (tcs_sell_token_index tcs);
  ot ← unwrap (ma_tokens liqor !! oi);
  pre ← native lt sell_bank;
  '(sell_bank, lt, ot, _) ← checked_transfer_with_fee sell_bank lt incentive ot incentive now_ts sell_oracle_price;
  post ← native lt sell_bank;
  Done (sell_bank, Account.set_token liqee li lt, Account.set_token liqor oi ot, pre, post).

Definition token_conditional_swap_start (l : LiqAccounts) (liqor_authority : Pubkey) (remaining : list AccountInfo)
    (clock : Clock) (index : nat) (id : Z) : outcome (LiqAccounts * ScanningAccountRetriever) :=
  let now_ts := clock_ts clock in
  _ ← trigger_constraints l IxTokenConditionalSwapStart liqor_authority now_ts;
  _ ← require (negb (lq_liqor_pk l =? lq_liqee_pk l)) EConstraint;
  _ ← require (negb (Fixed.being_liquidated (ma_fixed (lq_liqee l)))) (EMango BeingLiquidated);
  retriever ← Scanning.new remaining (lq_group_pk l) (clock_slot clock);
  tcs ← configured_swap (lq_liqee l) index id;
  startable ← Tcs.is_startable_type tcs;
  _ ← require startable (EMango TokenConditionalSwapTypeNotStartable);
  cache ← new_health_cache (lq_liqee l) retriever now_ts;
  '(liqee, pre_init_health) ← Account.check_health_pre (lq_liqee l) cache;
  '(isell, (sell_bank, sell_oracle_price), opt) ←
    Scanning.banks_mut_and_oracles (sc_banks_and_oracles retriever) (tcs_sell_token_index tcs) (tcs_buy_token_index tcs);
  '(_, (_, buy_oracle_price)) ← unwrap opt;
  r ← Tcs.check_startable tcs (sell_per_buy buy_oracle_price sell_oracle_price) now_ts;
  _ ← propagate r;
  incentive ← start_incentive tcs sell_bank sell_oracle_price;
  incentive_native ← ClampToInt.clamp_to_u64 incentive;
  '(sell_bank, liqee, liqor, pre, post) ← pay_incentive tcs sell_bank liqee (lq_liqor l) incentive sell_oracle_price now_ts;
  _ ← (if post <? 0 then require (Tcs.allow_creating_borrows tcs) (EMango TokenConditionalSwapCantPayIncentive)
       else Done tt);
  change ← fx_sub post pre;
  cache ← adjust_token_balance cache sell_bank change;
  let tcs := set_tcs_start_timestamp tcs now_ts in
  _ ← assert_ (Tcs.passed_start tcs now_ts);
  sold ← u64 (tcs_sold tcs + incentive_native);
  let tcs := set_tcs_sold tcs sold in
  _ ← assert_ (sold <=? tcs_max_sell tcs);
  let liqee := Account.set_tcs liqee index tcs in
  _ ← Account.check_health_post cache pre_init_health;
  s ← Scanning.set_bank (sc_banks_and_oracles retriever) isell sell_bank;
  Done (mkLiqAccounts (lq_group_pk l) (lq_group l) (lq_liqor_pk l) liqor (lq_liqee_pk l) liqee, with_banks retriever s).

(** ** Trade amounts *)

(** The buy amount for the sell limit; prices up to one are limited by both. *)
Definition buy_for_sell (max_buy max_sell sell_per_buy_price : Z) : outcome Z :=
  if fx_one <? sell_per_buy_price then
    n ← fx_from_int max_sell;
    n ← fx_add n fx_one;
    n ← fx_sub n 1;
    n ← fx_div n sell_per_buy_price;
    n ← fx_floor n;
    fx_to_u64 n
  else
    n ← fx_from_int max_buy;
    n ← fx_mul n sell_per_buy_price;
    n ← fx_floor n;
    m ← fx_from_int max_sell;
    n ← fx_div (Z.min n m) sell_per_buy_price;
    n ← fx_ceil n;
    fx_to_u64 n.

Definition sell_for_buy (buy_amount sell_per_buy_price : Z) : outcome Z :=
  n ← fx_from_int buy_amount;
  n ← fx_mul n sell_per_buy_price;
  n ← fx_floor n;
  fx_to_u64 n.

Definition trade_amount_inner (max_buy max_sell sell_per_buy_price : Z) : outcome (Z * Z) :=
  b ← buy_for_sell max_buy max_sell sell_per_buy_price;
  let buy_amount := Z.min max_buy b in
  s ← sell_for_buy buy_amount sell_per_buy_price;
  let sell_amount := Z.min max_sell s in
  _ ← assert_ (negb (xorb (0 <? buy_amount) (0 <? sell_amount)));
  Done (buy_amount, sell_amount).

(** [I80F48::MIN] and [I80F48::MAX] are passed for liqors without restrictions. *)
Definition trade_amount (tcs : TokenConditionalSwap) (sell_per_buy_price max_buy_token_to_liqee max_sell_token_to_liqor
    liqee_buy_balance liqee_sell_balance liqor_buy_balance liqor_sell_balance : Z) (buy_bank sell_bank : Bank) :
    outcome (Z * Z) :=
  b ← Tcs.max_buy_for_position tcs liqee_buy_balance buy_bank;
  b2 ← (if BankCfg.are_borrows_reduce_only buy_bank then
          f ← fx_floor liqor_buy_balance; ClampToInt.clamp_to_u64 f
        else Done U64_MAX);
  let max_buy := Z.min (Z.min max_buy_token_to_liqee b) b2 in
  s ← Tcs.max_sell_for_position tcs liqee_sell_balance sell_bank;
  s2 ← (if BankCfg.are_deposits_reduce_only sell_bank then
          n ← fx_neg liqor_sell_balance; c ← fx_ceil n; ClampToInt.clamp_to_u64 c
        else Done U64_MAX);
  let max_sell := Z.min (Z.min max_sell_token_to_liqor s) s2 in
  trade_amount_inner max_buy max_sell sell_per_buy_price.

(** ** Triggering *)

(** [TCS_TRIGGER_INIT_HEALTH_THRESHOLD]. *)
Definition TCS_TRIGGER_INIT_HEALTH_THRESHOLD : Z := 1000000.

Definition swap_to_trigger (liqee : MangoAccount) (index : nat) (buy_bank sell_bank : Bank) (price : f64) (now_ts : Z) :
    outcome TokenConditionalSwap :=
  tcs ← Account.token_conditional_swap_by_index liqee index;
  _ ← require (Tcs.is_configured tcs) (EMango TokenConditionalSwapNotSet);
  _ ← require (negb (Tcs.is_expired tcs now_ts)) (EMango TokenConditionalSwapExpired);
  _ ← require (bk_token_index buy_bank =? tcs_buy_token_index tcs) ERequireEq;
  _ ← require (bk_token_index sell_bank =? tcs_sell_token_index tcs) ERequireEq;
  r ← Tcs.check_triggerable tcs price now_ts;
  _ ← propagate r;
  Done tcs.

(** The amounts of a swap: what the liqee buys, what it pays with the maker fee, what the
    liqor gets and the two fees. *)
Record SwapAmounts := mkSwapAmounts {
  sa_buy : Z;
  sa_sell_from_liqee : Z;
  sa_sell_to_liqor : Z;
  sa_maker_fee : Z;
  sa_taker_fee : Z
}.

Definition swap_amounts (tcs : TokenConditionalSwap) (premium_price : f64) (buy_token_amount sell_with_maker_fee : Z) :
    outcome SwapAmounts :=
  n ← fx_from_int buy_token_amount;
  p ← fx_from_f64 premium_price;
  n ← fx_mul n p;
  sell_token_amount ← fx_floor n;
  sell_token_amount_u64 ← fx_to_u64 sell_token_amount;
  maker_fee ← u64 (sell_with_maker_fee - sell_token_amount_u64);
  taker_fee ← Tcs.taker_fee tcs sell_token_amount;
  to_liqor ← u64 (sell_token_amount_u64 - taker_fee);
  Done (mkSwapAmounts buy_token_amount sell_with_maker_fee to_liqor maker_fee taker_fee).

(** The banks and the accounts after the transfers, with the balances of the liqee in both
    tokens. *)
Definition swap_transfers (tcs : TokenConditionalSwap) (buy_bank sell_bank : Bank) (liqee liqor : MangoAccount)
    (a : SwapAmounts) (buy_token_price sell_token_price now_ts : Z) :
    outcome (Bank * Bank * MangoAccount * MangoAccount * Z * Z) :=
  buy ← fx_from_int (sa_buy a);
  '(lb, lbi) ← Account.token_position_and_raw_index liqee (tcs_buy_token_index tcs);
  '(ob, obi) ← Account.token_position_and_raw_index liqor (tcs_buy_token_index tcs);
  '(buy_bank, ob, lb, buy_transfer) ← checked_transfer_with_fee buy_bank ob buy lb buy now_ts buy_token_price;
  post_liqee_buy ← native lb buy_bank;
  _ ← native ob buy_bank;
  let liqee := Account.set_token liqee lbi lb in
  let liqor := Account.set_token liqor obi ob in
  '(ls, lsi) ← Account.token_position_and_raw_index liqee (tcs_sell_token_index tcs);
  '(os, osi) ← Account.token_position_and_raw_index liqor (tcs_sell_token_index tcs);
  from ← fx_from_int (sa_sell_from_liqee a);
  to ← fx_from_int (sa_sell_to_liqor a);
  '(sell_bank, ls, os, sell_transfer) ← checked_transfer_with_fee sell_bank ls from os to now_ts sell_token_price;
  f ← u64 (sa_maker_fee a + sa_taker_fee a);
  f ← fx_from_int f;
  c ← fx_add (bk_collected_fees_native sell_bank) f;
  let sell_bank := sell_bank <| bk_collected_fees_native := c |> in
  post_liqee_sell ← native ls sell_bank;
  _ ← native os sell_bank;
  let liqee := Account.set_token liqee lsi ls in
  let liqor := Account.set_token liqor osi os in
  liqor ← deactivate_unless (tr_source_is_active buy_transfer) liqor obi;
  liqor ← deactivate_unless (tr_target_is_active sell_transfer) liqor osi;
  Done (buy_bank, sell_bank, liqee, liqor, post_liqee_buy, post_liqee_sell).

(** The swap after the trade. *)
Definition record_swap (tcs : TokenConditionalSwap) (a : SwapAmounts) (now_ts : Z) : outcome TokenConditionalSwap :=
  b ← u64 (tcs_bought tcs + sa_buy a);
  s ← u64 (tcs_sold tcs + sa_sell_from_liqee a);
  let tcs := set_tcs_sold (set_tcs_bought tcs b) s in
  _ ← assert_ (b <=? tcs_max_buy tcs);
  _ ← assert_ (s <=? tcs_max_sell tcs);
  Done (if negb (Tcs.passed_start tcs now_ts) then set_tcs_start_timestamp tcs now_ts else tcs).

(** Whether the swap is done: nothing more can be traded at this price, or the health of
    the liqee fell and is low. *)
Definition swap_done (tcs : TokenConditionalSwap) (maker_price : f64) (maker_price_i80f48 : Z) (buy_bank sell_bank : Bank)
    (post_liqee_buy post_liqee_sell pre_init_health post_init_health : Z) : outcome bool :=
  '(future_buy, future_sell) ←
    trade_amount tcs maker_price_i80f48 U64_MAX U64_MAX post_liqee_buy post_liqee_sell I128_MAX I128_MIN buy_bank sell_bank;
  max_trade_reached ←
    (if SFltb f64_one maker_price then
       n ← u64 (2 * f64_as_u64 maker_price); Done (future_sell <? n)
     else
       n ← u64 (2 * f64_as_u64 (f64_div f64_one maker_price)); Done (future_buy <? n));
  let liqee_health_is_low :=
    (post_init_health <? pre_init_health) && (post_init_health <? fx_int TCS_TRIGGER_INIT_HEALTH_THRESHOLD) in
  Done ((future_buy =? 0) || (future_sell =? 0) || liqee_health_is_low || max_trade_reached).

(** [action]: the accounts, the banks and what the liqee bought. *)
Definition trigger_action (liqor liqee : MangoAccount) (cache : HealthCache) (index : nat) (buy_bank : Bank)
    (buy_token_price max_buy_token_to_liqee : Z) (sell_bank : Bank) (sell_token_price max_sell_token_to_liqor now_ts : Z)
    (min_taker_price : f64) : outcome (MangoAccount * MangoAccount * Bank * Bank * Z) :=
  '(liqee, pre_init_health) ← Account.check_health_pre liqee cache;
  let price := sell_per_buy buy_token_price sell_token_price in
  tcs ← swap_to_trigger liqee index buy_bank sell_bank price now_ts;
  premium_price ← Tcs.premium_price tcs price now_ts;
  let maker_price := Tcs.maker_price tcs premium_price in
  maker_price_i80f48 ← fx_from_f64 maker_price;
  _ ← require (SFleb min_taker_price (Tcs.taker_price tcs premium_price)) (EMango TokenConditionalSwapTakerPriceTooLow);
  '(p, _) ← Account.token_position_and_raw_index liqee (tcs_buy_token_index tcs);
  pre_liqee_buy ← native p buy_bank;
  '(p, _) ← Account.token_position_and_raw_index liqee (tcs_sell_token_index tcs);
  pre_liqee_sell ← native p sell_bank;
  '(liqor, i, _) ← Account.ensure_token_position liqor (tcs_buy_token_index tcs);
  p ← unwrap (ma_tokens liqor !! i);
  pre_liqor_buy ← native p buy_bank;
  '(liqor, i, _) ← Account.ensure_token_position liqor (tcs_sell_token_index tcs);
  p ← unwrap (ma_tokens liqor !! i);
  pre_liqor_sell ← native p sell_bank;
  '(buy_amount, sell_amount) ←
    trade_amount tcs maker_price_i80f48 max_buy_token_to_liqee max_sell_token_to_liqor pre_liqee_buy pre_liqee_sell
      pre_liqor_buy pre_liqor_sell buy_bank sell_bank;
  a ← swap_amounts tcs premium_price buy_amount sell_amount;
  '(buy_bank, sell_bank, liqee, liqor, post_liqee_buy, post_liqee_sell) ←
    swap_transfers tcs buy_bank sell_bank liqee liqor a buy_token_price sell_token_price now_ts;
  liqee_buy_change ← fx_from_int (sa_buy a);
  liqee_sell_change ← fx_sub post_liqee_sell pre_liqee_sell;
  cache ← adjust_token_balance cache buy_bank liqee_buy_change;
  cache ← adjust_token_balance cache sell_bank liqee_sell_change;
  post_init_health ← Account.check_health_post cache pre_init_health;
  tcs ← record_swap tcs a now_ts;
  closed ← swap_done tcs maker_price maker_price_i80f48 buy_bank sell_bank post_liqee_buy post_liqee_sell pre_init_health
             post_init_health;
  if (closed : bool) then
    '(liqee, buy_bank, sell_bank) ← release_tokens (Account.set_tcs liqee index Tcs.default) buy_bank sell_bank now_ts;
    Done (liqor, liqee, buy_bank, sell_bank, liqee_buy_change)
  else Done (liqor, Account.set_tcs liqee index tcs, buy_bank, sell_bank, liqee_buy_change).

(** Writes both banks back to the retriever. *)
Definition write_banks (retriever : ScanningAccountRetriever) (ib : nat) (buy_bank : Bank) (isell : nat) (sell_bank : Bank) :
    outcome ScanningAccountRetriever :=
  s ← Scanning.set_bank (sc_banks_and_oracles retriever) ib buy_bank;
  s ← Scanning.set_bank s isell sell_bank;
  Done (with_banks retriever s).

(** An expired swap is removed. *)
Definition remove_expired (l : LiqAccounts) (retriever : ScanningAccountRetriever) (tcs : TokenConditionalSwap)
    (index : nat) (now_ts min_buy_token : Z) : outcome (LiqAccounts * ScanningAccountRetriever) :=
  _ ← require (min_buy_token =? 0) (EMango TokenConditionalSwapExpired);
  '(ib, (buy_bank, _), opt) ←
    Scanning.banks_mut_and_oracles (sc_banks_and_oracles retriever) (tcs_buy_token_index tcs) (tcs_sell_token_index tcs);
  '(isell, (sell_bank, _)) ← unwrap opt;
  '(liqee, buy_bank, sell_bank) ← release_tokens (Account.set_tcs (lq_liqee l) index Tcs.default) buy_bank sell_bank now_ts;
  retriever ← write_banks retriever ib buy_bank isell sell_bank;
  Done (mkLiqAccounts (lq_group_pk l) (lq_group l) (lq_liqor_pk l) (lq_liqor l) (lq_liqee_pk l) liqee, retriever).

Definition token_conditional_swap_trigger (l : LiqAccounts) (liqor_authority : Pubkey) (remaining : list AccountInfo)
    (clock : Clock) (index : nat) (id max_buy_token_to_liqee max_sell_token_to_liqor min_buy_token : Z)
    (min_taker_price : f64) : outcome (LiqAccounts * ScanningAccountRetriever) :=
  let now_ts := clock_ts clock in
  _ ← trigger_constraints l IxTokenConditionalSwapTrigger liqor_authority now_ts;
  _ ← require (negb (lq_liqee_pk l =? lq_liqor_pk l)) ERequireKeysNeq;
  _ ← require (negb (Fixed.being_liquidated (ma_fixed (lq_liqor l)))) (EMango BeingLiquidated);
  retriever ← Scanning.new remaining (lq_group_pk l) (clock_slot clock);
  tcs ← configured_swap (lq_liqee l) index id;
  if Tcs.is_expired tcs now_ts then remove_expired l retriever tcs index now_ts min_buy_token
  else
    '(liqee, _, _) ← Account.ensure_token_position (lq_liqee l) (tcs_buy_token_index tcs);
    '(liqee, _, _) ← Account.ensure_token_position liqee (tcs_sell_token_index tcs);
    cache ← new_health_cache liqee retriever now_ts;
    '(ib, (buy_bank, buy_token_price), opt) ←
      Scanning.banks_mut_and_oracles (sc_banks_and_oracles retriever) (tcs_buy_token_index tcs) (tcs_sell_token_index tcs);
    '(isell, (sell_bank, sell_token_price)) ← unwrap opt;
    '(liqor, liqee, buy_bank, sell_bank, liqee_buy_change) ←
      trigger_action (lq_liqor l) liqee cache index buy_bank buy_token_price max_buy_token_to_liqee sell_bank
        sell_token_price max_sell_token_to_liqor now_ts min_taker_price;
    _ ← require (fx_int min_buy_token <=? liqee_buy_change) (EMango TokenConditionalSwapMinBuyTokenNotReached);
    retriever ← write_banks retriever ib buy_bank isell sell_bank;
    h ← compute_health liqor Init retriever now_ts;
    _ ← require (0 <=? h) (EMango HealthMustBePositive);
    Done (mkLiqAccounts (lq_group_pk l) (lq_group l) (lq_liqor_pk l) liqor (lq_liqee_pk l) liqee, retriever).

End swaps.
