(* ===== verification/SwapSpec.v ===== *)
(** * Specification of the token conditional swap instructions

    The amounts of a swap at a price, what a trigger may do to the two accounts and the
    two banks, and the life of a swap from its creation to its cancellation. *)

From stdpp Require Import base numbers option list.
From Stdlib Require Import ZArith Lia Psatz SpecFloat.
From S2P Require Import Prelude FixedPoint HealthType TokenPosition OrderTypes Nodes Oracle StablePrice Bank BankSpec Group Serum3 ConditionalSwap PerpMarket PerpPosition MangoAccount MangoAccountSpec HealthCache AccountRetriever TokenInstructions TokenInstructionsSpec TokenLiquidation TokenLiquidationSpec PerpInstructions PerpInstructionsSpec SwapInstructions.

Open Scope Z_scope.

(** ** Trade amounts *)

(** The sell amount of a buy amount at a price. *)
Definition sell_for (P buy : Z) : Z := buy * P / fx_scale.

Lemma sell_for_mono P b1 b2 : 0 <= P -> b1 <= b2 -> sell_for P b1 <= sell_for P b2.
Proof. intros HP Hb. unfold sell_for. pose proof scale_pos. apply Z.div_le_mono; nia. Qed.

(** Prices above one: the largest buy amount whose sell amount stays within the limit. *)
Lemma buy_above_one P max_sell : fx_one < P -> 0 <= max_sell ->
  let b := (fx_int max_sell + fx_one - 1) / P in
  0 <= b <= max_sell /\ sell_for P b <= max_sell /\
  (forall b', sell_for P b' <= max_sell -> b' <= b) /\ (forall b', 0 < b' -> 0 < sell_for P b').
Proof.
  pose proof scale_pos as HS. intros HP Hm b. unfold fx_one, fx_int in HP, b. unfold sell_for.
  pose proof (floor_bounds (max_sell * fx_scale + fx_scale - 1) P ltac:(lia)) as Hb. fold b in Hb.
  assert (0 <= b) by (apply Z.div_pos; nia). split_and!; [done|nia|..].
  - apply Z.lt_succ_r, Z.div_lt_upper_bound; lia.
  - intros b' Hb'. pose proof (floor_bounds (b' * P) fx_scale ltac:(lia)).
    apply Z.div_le_lower_bound; nia.
  - intros b' Hb'. apply Z.lt_le_trans with 1; [lia|]. apply Z.div_le_lower_bound; nia.
Qed.

(** Prices up to one: the smallest buy amount for [n] sold. *)
Lemma buy_up_to_one P n : 0 < P <= fx_one -> 0 <= n ->
  let b := - (- (fx_int n * fx_scale / P) / fx_scale) in
  sell_for P b = n /\ 0 <= b /\ (0 < b <-> 0 < n) /\ forall m, fx_int n <= m * P -> b <= m.
Proof.
  pose proof scale_pos as HS. intros HP Hn b. unfold fx_one, fx_int in HP, b |- *. unfold sell_for.
  set (x := n * fx_scale * fx_scale / P) in *.
  pose proof (floor_bounds (n * fx_scale * fx_scale) P ltac:(lia)) as Hx. fold x in Hx.
  pose proof (floor_bounds (- x) fx_scale ltac:(lia)) as Hb.
  replace (- x / fx_scale) with (- b) in Hb by (unfold b; lia). clearbody b. clearbody x.
  assert (Hlo : n * fx_scale <= b * P) by nia.
  assert (Hhi : b * P < n * fx_scale + P) by nia.
  assert (Hs : b * P / fx_scale = n) by (symmetry; apply Z.div_unique with (b * P - n * fx_scale); lia).
  split_and!; [done|nia|nia|]. intros m Hm. nia.
Qed.

Section spec.
Context `{FixedLaws}.

Lemma fx_from_int_u64 n : is_u64 n -> fx_from_int n = Done (fx_int n).
Proof. intros Hn. apply fx_from_int_law. unfold is_u64, U64_MAX in Hn. unfold is_i128, I128_MIN, I128_MAX, fx_int, fx_scale. lia. Qed.

(** The sell amount of a buy amount, as the code computes it. *)
Lemma sell_for_runs P buy : 0 <= P -> buy * P <= I128_MAX -> is_u64 buy -> is_u64 (sell_for P buy) ->
  sell_for_buy buy P = Done (sell_for P buy).
Proof.
  intros HP Hm Hu Hs. pose proof scale_pos. unfold sell_for_buy. rewrite fx_from_int_u64 by done. run.
  assert (Hq : fx_int buy * P / fx_scale = buy * P).
  { unfold fx_int. replace (buy * fx_scale * P) with (buy * P * fx_scale) by lia. apply Z.div_mul. lia. }
  assert (Hi : is_i128 (buy * P)) by (unfold is_i128, I128_MIN; unfold is_u64 in Hu; nia).
  rewrite fx_mul_law; rewrite Hq; [|done]. run. rewrite fx_floor_law by done. run.
  assert (Hf : fx_int (buy * P / fx_scale) / fx_scale = sell_for P buy) by (apply Z.div_mul; lia).
  rewrite fx_to_u64_law; rewrite Hf; done.
Qed.

(** What the buy amount has to satisfy. *)
Definition good_buy (P max_buy max_sell buy : Z) : Prop :=
  0 <= buy /\ sell_for P buy <= max_sell /\ (0 < buy <-> 0 < sell_for P buy) /\
  (forall b, b <= max_buy -> sell_for P b <= max_sell -> sell_for P b <= sell_for P buy).

Lemma above_one_runs P max_buy max_sell :
  is_u64 max_buy -> is_u64 max_sell -> fx_one < P -> P <= I128_MAX ->
  exists b, buy_for_sell max_buy max_sell P = Done b /\ is_u64 b /\ good_buy P max_buy max_sell (Z.min max_buy b).
Proof.
  intros Hb Hs H1 HP. pose proof scale_pos as HS. unfold is_u64 in Hb, Hs.
  destruct (buy_above_one P max_sell H1 ltac:(lia)) as (Hr & Hle & Hmax & Hpos).
  set (b := (fx_int max_sell + fx_one - 1) / P) in *. exists b.
  assert (Hq : Z.quot ((fx_int max_sell + fx_one - 1) * fx_scale) P / fx_scale = b).
  { unfold fx_int, fx_one in *. rewrite Z.quot_div_nonneg by nia. rewrite Z.div_div, Z.div_mul_cancel_r by lia.
    done. }
  assert (Hi : is_i128 (Z.quot ((fx_int max_sell + fx_one - 1) * fx_scale) P)).
  { unfold fx_int, fx_one in *. rewrite Z.quot_div_nonneg by nia. split; [unfold I128_MIN; apply Z.le_trans with 0; [lia|apply Z.div_pos; nia]|].
    apply Z.lt_le_incl, Z.div_lt_upper_bound; [lia|]. unfold U64_MAX, I128_MAX, fx_scale in *. nia. }
  split.
  - unfold buy_for_sell. rewrite (proj2 (Z.ltb_lt _ _)) by done. rewrite fx_from_int_u64 by done. run.
    rewrite fx_add_law by (unfold is_i128, I128_MIN, I128_MAX, U64_MAX, fx_int, fx_one, fx_scale in *; lia). run.
    rewrite fx_sub_law by (unfold is_i128, I128_MIN, I128_MAX, U64_MAX, fx_int, fx_one, fx_scale in *; lia). run.
    rewrite fx_div_law by (done || unfold fx_one in *; lia). run. rewrite fx_floor_law by done. run.
    rewrite Hq. assert (Hf : fx_int b / fx_scale = b) by (apply Z.div_mul; lia).
    rewrite fx_to_u64_law; rewrite Hf; [done|]. unfold is_u64. lia.
  - split; [unfold is_u64; lia|]. unfold good_buy. unfold fx_one in *. split_and!; [lia|..].
    + etransitivity; [apply (sell_for_mono P _ b); lia|done].
    + split; [apply Hpos|]. intros Hp. destruct (Z.le_gt_cases (Z.min max_buy b) 0); [|done].
      pose proof (sell_for_mono P (Z.min max_buy b) 0 ltac:(lia) ltac:(lia)) as Hm. unfold sell_for in *.
      rewrite Z.mul_0_l, Z.div_0_l in Hm; lia.
    + intros b' Hb' Hs'. apply sell_for_mono; [lia|]. pose proof (Hmax b' Hs'). lia.
Qed.

Lemma up_to_one_runs P max_buy max_sell :
  is_u64 max_buy -> is_u64 max_sell -> 0 < P <= fx_one ->
  exists b, buy_for_sell max_buy max_sell P = Done b /\ is_u64 b /\ good_buy P max_buy max_sell (Z.min max_buy b).
Proof.
  intros Hb Hs HP. pose proof scale_pos as HS. unfold is_u64 in Hb, Hs. unfold fx_one in HP.
  set (n := Z.min (sell_for P max_buy) max_sell).
  assert (Hn : 0 <= n) by (unfold n, sell_for; pose proof (Z.div_pos (max_buy * P) fx_scale ltac:(nia) HS); lia).
  assert (Hnb : fx_int n <= max_buy * P).
  { unfold fx_int, n, sell_for. pose proof (floor_bounds (max_buy * P) fx_scale HS). nia. }
  destruct (buy_up_to_one P n HP Hn) as (Hsell & Hb0 & Hiff & Hmin). specialize (Hmin _ Hnb).
  set (b := - (- (fx_int n * fx_scale / P) / fx_scale)) in *. exists b.
  assert (Hq : Z.quot (fx_int n * fx_scale) P = fx_int n * fx_scale / P) by (unfold fx_int; apply Z.quot_div_nonneg; nia).
  assert (Hx : 0 <= fx_int n * fx_scale / P <= fx_int max_buy).
  { split; [apply Z.div_pos; unfold fx_int; nia|]. apply Z.div_le_upper_bound; [lia|]. unfold fx_int in *. nia. }
  assert (Hm : fx_int max_buy * P / fx_scale = max_buy * P).
  { unfold fx_int. replace (max_buy * fx_scale * P) with (max_buy * P * fx_scale) by lia. apply Z.div_mul. lia. }
  assert (Hi : is_i128 (max_buy * P)) by (unfold is_i128, I128_MIN, I128_MAX, U64_MAX, fx_scale in *; nia).
  split.
  - unfold buy_for_sell. rewrite (proj2 (Z.ltb_ge _ _)) by (unfold fx_one; lia).
    rewrite !fx_from_int_u64 by done. run. rewrite fx_mul_law; rewrite Hm; [|done]. run.
    rewrite fx_floor_law by done. run. replace (Z.min (fx_int (max_buy * P / fx_scale)) (fx_int max_sell)) with (fx_int n)
      by (unfold fx_int, n, sell_for; nia).
    rewrite fx_div_law; rewrite ?Hq; [|lia|unfold is_i128, I128_MIN, I128_MAX, U64_MAX, fx_int, fx_scale in *; lia]. run.
    rewrite fx_ceil_law by (fold b; unfold is_i128, I128_MIN, I128_MAX, U64_MAX, fx_int, fx_scale in *; lia). run. fold b.
    assert (Hf : fx_int b / fx_scale = b) by (apply Z.div_mul; lia).
    rewrite fx_to_u64_law; rewrite Hf; [done|]. unfold is_u64. lia.
  - split; [unfold is_u64; lia|]. rewrite Z.min_r by lia. unfold good_buy. rewrite Hsell. split_and!; [lia|lia|done|].
    intros b' Hb' Hs'. pose proof (sell_for_mono P b' max_buy ltac:(lia) Hb'). lia.
Qed.

(** The trade amounts are exact. For any limits and any positive price the code
    returns, so its assertion never fires: neither limit is exceeded, the sell amount is
    the buy amount at the price rounded down, nothing is exchanged for nothing, and no
    other buy amount within both limits sells more. *)
Theorem trade_amount_inner_exact max_buy max_sell P :
  is_u64 max_buy -> is_u64 max_sell -> 0 < P <= I128_MAX ->
  exists buy sell, trade_amount_inner max_buy max_sell P = Done (buy, sell) /\
    0 <= buy <= max_buy /\ 0 <= sell <= max_sell /\ sell = sell_for P buy /\ (0 < buy <-> 0 < sell) /\
    (forall b, b <= max_buy -> sell_for P b <= max_sell -> sell_for P b <= sell).
Proof.
  intros Hb Hs HP. pose proof scale_pos as HS.
  assert (Hr : exists b, buy_for_sell max_buy max_sell P = Done b /\ is_u64 b /\ good_buy P max_buy max_sell (Z.min max_buy b)).
  { destruct (Z.ltb_spec fx_one P); [apply above_one_runs|apply up_to_one_runs]; done || lia. }
  destruct Hr as (b & Eb & Hub & Hpos & Hle & Hiff & Hmax). unfold trade_amount_inner. rewrite Eb. run.
  set (buy := Z.min max_buy b) in *. unfold is_u64 in *.
  assert (Hs0 : 0 <= sell_for P buy) by (apply Z.div_pos; nia).
  assert (Hlim : buy * P <= I128_MAX).
  { pose proof (floor_bounds (buy * P) fx_scale HS) as Hf. fold (sell_for P buy) in Hf.
    unfold U64_MAX, I128_MAX, fx_scale in *. nia. }
  rewrite sell_for_runs by (done || unfold is_u64; lia). run. rewrite Z.min_r by done.
  exists buy, (sell_for P buy). split_and!; try done; [|lia].
  replace (xorb _ _) with false; [done|]. destruct (Z.ltb_spec 0 buy), (Z.ltb_spec 0 (sell_for P buy)); simpl; lia.
Qed.

(** ** Triggering *)

(** The product of whole tokens and a price, rounded down. *)
Lemma times_price_floor n P : fx_int n * P / fx_scale / fx_scale = sell_for P n.
Proof.
  pose proof scale_pos. unfold fx_int, sell_for. f_equal.
  replace (n * fx_scale * P) with (n * P * fx_scale) by lia. apply Z.div_mul. lia.
Qed.

(** Whatever the price, the trade amounts respect the limits, and the liqee never pays
    more than the price. *)
Lemma trade_amount_inner_inv max_buy max_sell P buy sell :
  trade_amount_inner max_buy max_sell P = Done (buy, sell) ->
  buy <= max_buy /\ sell <= max_sell /\ sell <= sell_for P buy /\ (0 < buy <-> 0 < sell).
Proof.
  unfold trade_amount_inner. intros E. apply bind_Done_inv in E as (b & _ & E).
  apply bind_Done_inv in E as (s & Es & E). apply bind_Done_inv in E as (u & Eu & E). injection E as <- <-.
  unfold sell_for_buy in Es. fx_inv. pose proof (times_price_floor (Z.min max_buy b) P) as Hd. unfold fx_int in *.
  rewrite Z.div_mul in * by (pose proof scale_pos; lia).
  rewrite Hd in *. destruct (Z.ltb_spec 0 (Z.min max_buy b)), (Z.ltb_spec 0 (Z.min max_sell (sell_for P (Z.min max_buy b))));
    simpl in *; (discriminate || lia).
Qed.

Lemma trade_amount_inv t P mb ms lb ls ob os bb sb buy sell :
  trade_amount t P mb ms lb ls ob os bb sb = Done (buy, sell) ->
  buy <= mb /\ sell <= ms /\ sell <= sell_for P buy /\ (0 < buy <-> 0 < sell).
Proof.
  unfold trade_amount. intros E. do 4 (apply bind_Done_inv in E as (? & _ & E)).
  apply trade_amount_inner_inv in E. lia.
Qed.

(** The liqor gets what its buy tokens are worth at the premium price, less the taker fee;
    what the liqee pays beyond that worth is the maker fee. *)
Definition priced_amounts (t : TokenConditionalSwap) (premium : f64) (a : SwapAmounts) : Prop :=
  exists p R, fx_from_f64 premium = Done p /\ fx_from_f32 (tcs_taker_fee_rate t) = Done R /\
    let worth := sell_for p (sa_buy a) in
    sa_taker_fee a = sell_for R worth /\ sa_sell_to_liqor a = worth - sa_taker_fee a /\
    sa_maker_fee a = sa_sell_from_liqee a - worth /\ 0 <= sa_sell_to_liqor a /\ 0 <= sa_maker_fee a.

Lemma swap_amounts_inv t pr buy sell a : swap_amounts t pr buy sell = Done a ->
  sa_buy a = buy /\ sa_sell_from_liqee a = sell /\ sell = sa_sell_to_liqor a + sa_maker_fee a + sa_taker_fee a /\
  priced_amounts t pr a.
Proof.
  unfold swap_amounts, priced_amounts. intros E. pose proof scale_pos as Hs.
  apply bind_Done_inv in E as (n & En & E). apply fx_from_int_inv in En as ->.
  apply bind_Done_inv in E as (p & Ep & E). apply bind_Done_inv in E as (m & Em & E). apply fx_mul_inv in Em as ->.
  apply bind_Done_inv in E as (w & Ew & E). apply fx_floor_inv in Ew as ->. rewrite times_price_floor in E.
  apply bind_Done_inv in E as (wu & Ewu & E). apply fx_to_u64_inv in Ewu as [-> _].
  assert (Hw : fx_int (sell_for p buy) / fx_scale = sell_for p buy) by (apply Z.div_mul; lia). rewrite Hw in E.
  apply bind_Done_inv in E as (mf & Emf & E). apply u64_inv in Emf as [-> [? _]].
  apply bind_Done_inv in E as (tf & Etf & E). apply bind_Done_inv in E as (to & Eto & E).
  apply u64_inv in Eto as [-> [? _]]. injection E as <-. simpl. unfold Tcs.taker_fee in Etf.
  apply bind_Done_inv in Etf as (R & ER & Etf). apply bind_Done_inv in Etf as (x & Ex & Etf). apply fx_mul_inv in Ex as ->.
  apply bind_Done_inv in Etf as (y & Ey & Etf). apply fx_floor_inv in Ey as ->. rewrite times_price_floor in Etf.
  apply fx_to_u64_inv in Etf as [-> _].
  assert (Hr : fx_int (sell_for R (sell_for p buy)) / fx_scale = sell_for R (sell_for p buy)) by (apply Z.div_mul; lia).
  rewrite Hr in *. split_and!; try done; [lia|]. exists p, R. split_and!; done || lia.
Qed.

(** What a transfer between two accounts does to their bank and positions, and whether the
    positions are still active. *)
Definition transferred (b : Bank) (source target : TokenPosition) (out into : Z) (b' : Bank) (source' target' : TokenPosition)
    (source_active target_active : bool) : Prop :=
  exists b1 r,
    ((out = 0 /\ b1 = b /\ source' = source /\ source_active = true) \/
     (withdrawn b source out true (negb (Token.is_in_use source)) b1 source' r /\ wr_position_is_active r = source_active)) /\
    ((into = 0 /\ b' = b1 /\ target' = target /\ target_active = true) \/
     deposited b1 target into (negb (Token.is_in_use target)) b' target' target_active).

Lemma checked_transfer_inv b p out q into now price b' p' q' r :
  indexes_ok b -> 0 <= bk_loan_origination_fee_rate b ->
  checked_transfer_with_fee b p out q into now price = Done (b', p', q', r) ->
  transferred b p q out into b' p' q' (tr_source_is_active r) (tr_target_is_active r) /\ indexes_ok b' /\ 0 <= bk_loan_origination_fee_rate b'.
Proof.
  intros HI HR E. unfold checked_transfer_with_fee in E.
  apply bind_Done_inv in E as ([[b1 p1] w] & Ew & E). apply bind_Done_inv in E as ([[b2 q2] act] & Ed & E).
  repeat (apply bind_Done_inv in E as (? & _ & E)). injection E as <- <- <- <-.
  assert (HW : ((out = 0 /\ b1 = b /\ p1 = p /\ wr_position_is_active w = true) \/
      (withdrawn b p out true (negb (Token.is_in_use p)) b1 p1 w /\ wr_position_is_active w = wr_position_is_active w)) /\
    indexes_ok b1 /\ 0 <= bk_loan_origination_fee_rate b1).
  { destruct (Z.eqb_spec out 0); simpl in Ew; [by injection Ew as <- <- <-; split; [left|]|].
    apply bind_Done_inv in Ew as ([[b3 p3] w3] & Ew & E). apply bind_Done_inv in E as (u & _ & E). injection E as <- <- <-.
    pose proof (withdraw_internal_wrapper_spec _ _ _ _ _ _ _ _ _ HI HR Ew) as W.
    split; [by right|]. split; [eapply moved_indexes; [apply W|done]|]. by rewrite (touched_rate _ _ (withdraw_touched _ _ _ _ _ _ _ _ _ Ew)). }
  destruct HW as (HW & HI1 & HR1).
  assert (HD : ((into = 0 /\ b2 = b1 /\ q2 = q /\ act = true) \/ deposited b1 q into (negb (Token.is_in_use q)) b2 q2 act) /\
    indexes_ok b2 /\ 0 <= bk_loan_origination_fee_rate b2).
  { destruct (Z.eqb_spec into 0); simpl in Ed; [by injection Ed as <- <- <-; split; [left|]|].
    apply bind_Done_inv in Ed as ([[b3 q3] a3] & Ed & E). apply bind_Done_inv in E as (u & _ & E). injection E as <- <- <-.
    pose proof (deposit_internal_wrapper_spec _ _ _ _ _ _ _ _ HI1 Ed) as D.
    split; [by right|]. split; [eapply moved_indexes; [apply D|done]|]. by rewrite (touched_rate _ _ (deposit_touched _ _ _ _ _ _ _ _ Ed)). }
  split; [|apply HD]. exists b1, w. split; [done|apply HD].
Qed.

Lemma transferred_indexes b p q out into b' p' q' pa qa : transferred b p q out into b' p' q' pa qa ->
  tp_token_index p' = tp_token_index p /\ tp_token_index q' = tp_token_index q.
Proof. intros (b1 & r & [(_ & _ & -> & _)|[W _]] & [(_ & _ & -> & _)|D]); split; try done; by first [apply W|apply D]. Qed.

(** Both legs of a swap: the buy amount from the liqor to the liqee, and the sell amount
    from the liqee, of which the liqor gets its part and the sell bank the fees. [ts] and
    [us] are the positions of the liqee and the liqor; the new positions are stored in
    their slots, and those of the liqor are marked unused if no longer active. *)
Definition swapped (t : TokenConditionalSwap) (bb sb : Bank) (ts us : list TokenPosition) (pb ps : TokenPosition) (a : SwapAmounts)
    (bb' sb' : Bank) (pb' ps' : TokenPosition) (ts' us' : list TokenPosition) : Prop :=
  exists ib is_ jb js qb qs qb' qs' sb1 qb_act pb_act ps_act qs_act,
    ts !! ib = Some pb /\ tp_token_index pb = tcs_buy_token_index t /\
    ts !! is_ = Some ps /\ tp_token_index ps = tcs_sell_token_index t /\
    us !! jb = Some qb /\ tp_token_index qb = tcs_buy_token_index t /\
    us !! js = Some qs /\ tp_token_index qs = tcs_sell_token_index t /\
    transferred bb qb pb (fx_int (sa_buy a)) (fx_int (sa_buy a)) bb' qb' pb' qb_act pb_act /\
    transferred sb ps qs (fx_int (sa_sell_from_liqee a)) (fx_int (sa_sell_to_liqor a)) sb1 ps' qs' ps_act qs_act /\
    sb' = sb1 <| bk_collected_fees_native := bk_collected_fees_native sb1 + fx_int (sa_maker_fee a + sa_taker_fee a) |> /\
    ts' = <[is_ := ps']> (<[ib := pb']> ts) /\
    us' = tidy qs_act js (tidy qb_act jb (<[js := qs']> (<[jb := qb']> us))).

Lemma swap_transfers_inv t bb sb liqee liqor a bp sp now bb' sb' liqee' liqor' nb ns :
  indexes_ok bb -> 0 <= bk_loan_origination_fee_rate bb -> indexes_ok sb -> 0 <= bk_loan_origination_fee_rate sb ->
  tcs_buy_token_index t <> tcs_sell_token_index t ->
  swap_transfers t bb sb liqee liqor a bp sp now = Done (bb', sb', liqee', liqor', nb, ns) ->
  exists pb ps pb' ps' ts' is_,
    Account.token_position_and_raw_index liqee (tcs_sell_token_index t) = Done (ps, is_) /\
    swapped t bb sb (ma_tokens liqee) (ma_tokens liqor) pb ps a bb' sb' pb' ps' ts' (ma_tokens liqor') /\
    nb = value bb' pb' /\ ns = value sb' ps' /\ liqee' = set_ma_tokens liqee ts' /\ ma_fixed liqor' = ma_fixed liqor.
Proof.
  intros HIb HRb HIs HRs Hne E. unfold swap_transfers in E.
  apply bind_Done_inv in E as (buy & Eb & E). apply fx_from_int_inv in Eb as ->.
  apply bind_Done_inv in E as ([pb ib] & Epb & E). apply bind_Done_inv in E as ([qb jb] & Eqb & E).
  apply bind_Done_inv in E as ([[[bb1 qb'] pb'] rb] & Etb & E).
  apply bind_Done_inv in E as (n1 & En1 & E). apply bind_Done_inv in E as (n2 & _ & E).
  apply bind_Done_inv in E as ([ps is_] & Eps & E). apply bind_Done_inv in E as ([qs js] & Eqs & E).
  apply bind_Done_inv in E as (from & Ef & E). apply bind_Done_inv in E as (to & Et & E).
  apply fx_from_int_inv in Ef as ->. apply fx_from_int_inv in Et as ->.
  apply bind_Done_inv in E as ([[[sb1 ps'] qs'] rs] & Ets & E). apply bind_Done_inv in E as (f & Efe & E).
  apply u64_inv in Efe as [-> _].
  apply bind_Done_inv in E as (fi & Efi & E). apply fx_from_int_inv in Efi as ->.
  apply bind_Done_inv in E as (c & Ec & E). apply fx_add_inv in Ec as ->.
  apply bind_Done_inv in E as (n3 & En3 & E). apply bind_Done_inv in E as (n4 & _ & E).
  apply bind_Done_inv in E as (lo1 & El1 & E). apply bind_Done_inv in E as (lo2 & El2 & E).
  injection E as <- <- <- <- <- <-. apply deactivate_unless_tidy in El1 as ->, El2 as ->.
  apply checked_transfer_inv in Etb as (TB & _ & _); [|done..]. apply checked_transfer_inv in Ets as (TS & _ & _); [|done..].
  pose proof (transferred_indexes _ _ _ _ _ _ _ _ _ _ TB) as [Hqb Hpb].
  pose proof (token_position_lookup _ _ _ _ Epb) as (_ & Lb & Tb). pose proof (token_position_lookup _ _ _ _ Eqb) as (_ & Lo & To).
  rewrite (token_position_other _ (tcs_buy_token_index t) pb ib) in Eps by (done || congruence).
  rewrite (token_position_other _ (tcs_buy_token_index t) qb jb) in Eqs by (done || congruence).
  pose proof (token_position_lookup _ _ _ _ Eps) as (_ & Ls & Ts). pose proof (token_position_lookup _ _ _ _ Eqs) as (_ & Lq & Tq).
  apply native_value in En1. apply native_value in En3.
  exists pb, ps, pb', ps', (<[is_ := ps']> (<[ib := pb']> (ma_tokens liqee))), is_. split_and!; try done.
  by eexists ib, is_, jb, js, qb, qs, qb', qs', sb1, _, _, _, _.
Qed.

Lemma record_swap_inv t a now t' : record_swap t a now = Done t' ->
  tcs_bought t' = tcs_bought t + sa_buy a /\ tcs_sold t' = tcs_sold t + sa_sell_from_liqee a /\
  tcs_bought t' <= tcs_max_buy t /\ tcs_sold t' <= tcs_max_sell t.
Proof.
  unfold record_swap. intros E. inv_run. bool_to_prop.
  repeat match goal with X : u64 _ = Done _ |- _ => apply u64_inv in X as [-> ?] end.
  destruct (negb _); simpl in *; lia.
Qed.

Lemma release_tokens_tcs a bb sb now a' bb' sb' : release_tokens a bb sb now = Done (a', bb', sb') ->
  ma_tcs a' = ma_tcs a /\ ma_fixed a' = ma_fixed a.
Proof.
  assert (Hd : forall a b a' b', Account.token_decrement_dust_deactivate a b now = Done (a', b') ->
    ma_tcs a' = ma_tcs a /\ ma_fixed a' = ma_fixed a).
  { intros x b x' b' E. unfold Account.token_decrement_dust_deactivate in E.
    destruct (Account.token_position_and_raw_index _ _) as [[t i]|e| |]; try done;
      [|destruct (is_anchor_error_with_code e _); [by injection E as <- <-|done]].
    apply bind_Done_inv in E as ([[b1 t1] act] & _ & E). apply bind_Done_inv in E as (x1 & Ex & E). injection E as <- <-.
    destruct act; simpl in Ex; [by injection Ex as <-|].
    unfold Account.deactivate_token_position in Ex. by inv_run. }
  unfold release_tokens. intros E. apply bind_Done_inv in E as ([a1 b1] & E1 & E).
  apply bind_Done_inv in E as ([a2 b2] & E2 & E). injection E as <- <- <-.
  apply Hd in E1 as [? ?], E2 as [? ?]. split; congruence.
Qed.

(** What a trade of the swap [t] is: the swap may be triggered at the oracle price, the
    taker gets at least its price, the amounts respect the liqor's limits, the maker
    price, the maximum amounts of the swap and each other, the liqor gets the premium price
    less the taker fee, and the fees are what the liqor does not get. *)
Record good_trade (t : TokenConditionalSwap) (bp sp now mb ms : Z) (min_taker_price : f64) (a : SwapAmounts) : Prop := {
  gt_triggerable : Tcs.check_triggerable t (sell_per_buy bp sp) now = Done (Ok tt);
  gt_prices : exists premium P, priced_amounts t premium a /\
    Tcs.premium_price t (sell_per_buy bp sp) now = Done premium /\
    SFleb min_taker_price (Tcs.taker_price t premium) = true /\
    fx_from_f64 (Tcs.maker_price t premium) = Done P /\
    sa_sell_from_liqee a <= sell_for P (sa_buy a);
  gt_limits : sa_buy a <= mb /\ sa_sell_from_liqee a <= ms;
  gt_max : tcs_bought t + sa_buy a <= tcs_max_buy t /\ tcs_sold t + sa_sell_from_liqee a <= tcs_max_sell t;
  gt_exchange : 0 < sa_buy a <-> 0 < sa_sell_from_liqee a;
  gt_fees : sa_sell_from_liqee a = sa_sell_to_liqor a + sa_maker_fee a + sa_taker_fee a
}.

(** The slot of the swap afterwards: empty, or the swap with the amounts recorded. *)
Definition slot_after (t : TokenConditionalSwap) (a : SwapAmounts) (o : option TokenConditionalSwap) : Prop :=
  o = Some Tcs.default \/
  exists t', o = Some t' /\ tcs_bought t' = tcs_bought t + sa_buy a /\ tcs_sold t' = tcs_sold t + sa_sell_from_liqee a.

Lemma ensure_token_position_tcs a i a' r k : Account.ensure_token_position a i = Done (a', r, k) -> ma_tcs a' = ma_tcs a.
Proof.
  unfold Account.ensure_token_position. destruct (Account.match_or_free_token _ _ _ _ _) as [[]|]; [|done].
  intros E. by inv_run.
Qed.

Lemma swap_to_trigger_inv a index bb sb price now t : swap_to_trigger a index bb sb price now = Done t ->
  ma_tcs a !! index = Some t /\ Tcs.check_triggerable t price now = Done (Ok tt).
Proof.
  unfold swap_to_trigger. intros E. apply bind_Done_inv in E as (t1 & Et & E).
  do 4 (apply bind_Done_inv in E as (? & _ & E)). apply bind_Done_inv in E as (r & Er & E).
  apply bind_Done_inv in E as (u & Eu & E). injection E as <-.
  unfold Account.token_conditional_swap_by_index, ok_or in Et. destruct (ma_tcs a !! index) as [t2|]; [|done].
  injection Et as ->. split; [done|]. rewrite Er. unfold propagate in Eu. destruct r as [[]|]; done.
Qed.

(** The init health before a swap, and that with the two balance changes in the cache. *)
Definition swap_health (c : HealthCache) (bb sb : Bank) (buy_change sell_change pre post : Z) : Prop :=
  exists c1 c2, health c Init = Done pre /\ adjust_token_balance c bb buy_change = Done c1 /\
    adjust_token_balance c1 sb sell_change = Done c2 /\ health c2 Init = Done post.

(** The account with the positions of both tokens of the swap. *)
Definition with_swap_positions (a : MangoAccount) (t : TokenConditionalSwap) (a' : MangoAccount) : Prop :=
  exists a1 i k j n, Account.ensure_token_position a (tcs_buy_token_index t) = Done (a1, i, k) /\
    Account.ensure_token_position a1 (tcs_sell_token_index t) = Done (a', j, n).

(** How the trade is recorded in the liqee, whose positions [e] has: without the
    liquidation flag, either with the slot emptied and both tokens released, which may dust
    their positions, or with the amounts in the slot. *)
Definition recorded (t : TokenConditionalSwap) (a : SwapAmounts) (index : nat) (now : Z) (e : MangoAccount) (bb sb : Bank)
    (liqee' : MangoAccount) (bb' sb' : Bank) : Prop :=
  exists f, Fixed.being_liquidated f = false /\
    (release_tokens (Account.set_tcs (set_ma_fixed e f) index Tcs.default) bb sb now = Done (liqee', bb', sb') \/
     exists t', tcs_bought t' = tcs_bought t + sa_buy a /\ tcs_sold t' = tcs_sold t + sa_sell_from_liqee a /\
       liqee' = Account.set_tcs (set_ma_fixed e f) index t' /\ bb' = bb /\ sb' = sb).

Lemma recorded_slot t a index now e bb sb liqee' bb' sb' :
  recorded t a index now e bb sb liqee' bb' sb' -> (index < length (ma_tcs e))%nat ->
  slot_after t a (ma_tcs liqee' !! index) /\ (forall i, i <> index -> ma_tcs liqee' !! i = ma_tcs e !! i) /\
  Fixed.being_liquidated (ma_fixed liqee') = false.
Proof.
  intros (f & Hf & Hd) Hlt.
  assert (Hz : exists z, ma_tcs liqee' = <[index := z]> (ma_tcs e) /\ ma_fixed liqee' = f /\ slot_after t a (Some z)).
  { destruct Hd as [Hr|(t' & T1 & T2 & -> & _)]; [|exists t'; split_and!; try done; right; eauto].
    apply release_tokens_tcs in Hr as [-> ->]. exists Tcs.default. split_and!; try done. by left. }
  destruct Hz as (z & -> & -> & Hz). rewrite list_lookup_insert_eq by done. split_and!; try done.
  intros i Hi. by rewrite list_lookup_insert_ne.
Qed.

Lemma trigger_action_inv liqor liqee c index bb bp mb sb sp ms now mtp t liqor' liqee' bb' sb' x :
  indexes_ok bb -> 0 <= bk_loan_origination_fee_rate bb -> indexes_ok sb -> 0 <= bk_loan_origination_fee_rate sb ->
  ma_tcs liqee !! index = Some t -> tcs_buy_token_index t <> tcs_sell_token_index t ->
  trigger_action liqor liqee c index bb bp mb sb sp ms now mtp = Done (liqor', liqee', bb', sb', x) ->
  exists a liqor1 pb ps pb' ps' bb1 sb1 ts' pre post,
    good_trade t bp sp now mb ms mtp a /\ x = fx_int (sa_buy a) /\ with_swap_positions liqor t liqor1 /\
    swapped t bb sb (ma_tokens liqee) (ma_tokens liqor1) pb ps a bb1 sb1 pb' ps' ts' (ma_tokens liqor') /\
    swap_health c bb1 sb1 (fx_int (sa_buy a)) (value sb1 ps' - value sb ps) pre post /\ health_kept pre post /\
    recorded t a index now (set_ma_tokens liqee ts') bb1 sb1 liqee' bb' sb'.
Proof.
  intros HIb HRb HIs HRs Ht Hne E. unfold trigger_action in E.
  apply bind_Done_inv in E as ([liqee1 pre] & Epre & E). pose proof (check_health_pre_account _ _ _ _ Epre) as Hacc.
  apply check_health_pre_flag in Epre as (Hfl & Hpre & Htok & _).
  apply bind_Done_inv in E as (t1 & Et1 & E). apply swap_to_trigger_inv in Et1 as [Lt Tr].
  rewrite Hacc in Lt. simpl in Lt. rewrite Ht in Lt. injection Lt as <-.
  apply bind_Done_inv in E as (premium & Epr & E). apply bind_Done_inv in E as (P & EP & E).
  apply bind_Done_inv in E as (u & Etk & E). apply require_inv in Etk.
  apply bind_Done_inv in E as ([p1 i1] & _ & E). apply bind_Done_inv in E as (v1 & _ & E).
  apply bind_Done_inv in E as ([p2 i2] & Ep2 & E). apply bind_Done_inv in E as (v2 & Ev2 & E). apply native_value in Ev2 as ->.
  apply bind_Done_inv in E as ([[o1 i3] k3] & O1 & E). apply bind_Done_inv in E as (p3 & _ & E).
  apply bind_Done_inv in E as (v3 & _ & E). apply bind_Done_inv in E as ([[o2 i4] k4] & O2 & E).
  apply bind_Done_inv in E as (p4 & _ & E). apply bind_Done_inv in E as (v4 & _ & E).
  apply bind_Done_inv in E as ([buy sell] & Eta & E). apply trade_amount_inv in Eta as (T1 & T2 & T3 & T4).
  apply bind_Done_inv in E as (a & Ea & E). apply swap_amounts_inv in Ea as (A1 & A2 & A3 & A4).
  apply bind_Done_inv in E as ([[[[[bb1 sb1] liqee2] o3] nb] ns] & Est & E).
  apply swap_transfers_inv in Est as (pb & ps & pb' & ps' & ts' & is_ & Ts & Sw & _ & -> & -> & _); [|done..].
  rewrite Ep2 in Ts. injection Ts as <- <-.
  apply bind_Done_inv in E as (ch & Ech & E). apply fx_from_int_inv in Ech as ->.
  apply bind_Done_inv in E as (d & Ed & E). apply fx_sub_inv in Ed as ->. apply bind_Done_inv in E as (c1 & Ec1 & E).
  apply bind_Done_inv in E as (c2 & Ec2 & E). apply bind_Done_inv in E as (post & Epost & E).
  apply bind_Done_inv in E as (t' & Et' & E). apply record_swap_inv in Et' as (R1 & R2 & R3 & R4).
  apply bind_Done_inv in E as (closed & _ & E).
  unfold Account.check_health_post in Epost. apply bind_Done_inv in Epost as (post1 & Hpost & Epost).
  apply bind_Done_inv in Epost as ([] & Ek & Epost). injection Epost as ->. apply check_health_post_checks_kept in Ek.
  exists a, o2, pb, p2, pb', ps', bb1, sb1, ts', pre, post. subst buy sell. rewrite Htok in Sw.
  assert (G : good_trade t bp sp now mb ms mtp a).
  { constructor; try done; [by exists premium, P|lia]. }
  assert (Hfin : x = fx_int (sa_buy a) /\ o3 = liqor' /\ recorded t a index now (set_ma_tokens liqee ts') bb1 sb1 liqee' bb' sb').
  { assert (He : set_ma_tokens liqee1 ts' = set_ma_fixed (set_ma_tokens liqee ts') (ma_fixed liqee1)) by (by rewrite Hacc).
    rewrite He in E. destruct closed.
    - apply bind_Done_inv in E as ([[l1 b1] b2] & Er & E). injection E as <- <- <- <- <-.
      do 2 (split; [done|]). exists (ma_fixed liqee1). split; [done|]. by left.
    - injection E as <- <- <- <- <-. do 2 (split; [done|]). exists (ma_fixed liqee1). split; [done|]. right. exists t'. by split_and!. }
  destruct Hfin as (-> & <- & Hrec). split_and!; try done; [by exists o1, i3, k3, i4, k4|by exists c1, c2].
Qed.

Lemma write_banks_inv r i b1 j b2 r' : write_banks r i b1 j b2 = Done r' ->
  exists k1 k2, sb_banks (sc_banks_and_oracles r') = <[j := (k2, ABank b2)]> (<[i := (k1, ABank b1)]> (sb_banks (sc_banks_and_oracles r))).
Proof.
  unfold write_banks. intros E. apply bind_Done_inv in E as (s1 & E1 & E). apply bind_Done_inv in E as (s2 & E2 & E).
  injection E as <-. apply set_bank_inv in E1 as (k1 & H1 & _), E2 as (k2 & H2 & _). exists k1, k2. simpl. congruence.
Qed.

Lemma scanned_bank_ok ais g slot r i b p :
  banks_ok ais -> Scanning.new ais g slot = Done r -> Scanning.bank_at (sc_banks_and_oracles r) i = Done (b, p) ->
  indexes_ok b /\ 0 <= bk_loan_origination_fee_rate b.
Proof.
  intros HB Er Hb. apply bank_at_inv in Hb as [k Hk]. destruct (scanning_new_banks _ _ _ _ Er) as [n Hn].
  rewrite Hn in Hk. apply lookup_take_Some in Hk as [Hk _]. by eapply (HB k), list_elem_of_lookup_2.
Qed.

Lemma trigger_constraints_inv l ix signer now u : trigger_constraints l ix signer now = Done u ->
  GroupCfg.is_ix_enabled (lq_group l) ix = true /\ Fixed.is_owner_or_delegate (ma_fixed (lq_liqor l)) now signer = true.
Proof.
  unfold trigger_constraints, liq_constraints. intros E. apply bind_Done_inv in E as (u1 & E1 & E).
  apply bind_Done_inv in E1 as (u2 & E2 & _). by apply require_inv in E, E2.
Qed.

Lemma configured_swap_inv a index id t : configured_swap a index id = Done t ->
  ma_tcs a !! index = Some t /\ Tcs.is_configured t = true /\ tcs_id t = id.
Proof.
  unfold configured_swap. intros E. apply bind_Done_inv in E as (t1 & E1 & E).
  apply bind_Done_inv in E as (u1 & E2 & E). apply bind_Done_inv in E as (u2 & E3 & E). injection E as ->.
  apply require_inv in E2, E3. unfold Account.token_conditional_swap_by_index, ok_or in E1.
  destruct (ma_tcs a !! index); [|done]. injection E1 as ->. split_and!; try done. by apply Z.eqb_eq.
Qed.

(** C23: Triggering a swap is safe. The liqor is another account, signed for and not being
    liquidated, and the swap in the slot is configured and has the requested id. An expired
    swap is only removed, and only when no minimum was asked for; both tokens are released
    then. Otherwise a good trade of at least the requested amount happens at the current
    oracle prices between the banks of the swap's two tokens, and both accounts hold the
    positions that the transfers give: the liqee is not being liquidated and its init health
    is kept (positive, not lower, or below -1000 within the same whole unit), the slot
    records the amounts or is emptied, with its tokens released, no other swap of the liqee
    changes, the retriever has the new banks, and the init health of the liqor is not
    negative. The banks have positive indexes and loan fee rates that are not negative. *)
Theorem token_conditional_swap_trigger_safe l signer ais clock index id mb ms minb mtp l' r' :
  banks_ok ais -> token_conditional_swap_trigger l signer ais clock index id mb ms minb mtp = Done (l', r') ->
  lq_liqee_pk l <> lq_liqor_pk l /\ GroupCfg.is_ix_enabled (lq_group l) IxTokenConditionalSwapTrigger = true /\
  Fixed.is_owner_or_delegate (ma_fixed (lq_liqor l)) (clock_ts clock) signer = true /\
  Fixed.being_liquidated (ma_fixed (lq_liqor l)) = false /\
  exists r t, Scanning.new ais (lq_group_pk l) (clock_slot clock) = Done r /\
    ma_tcs (lq_liqee l) !! index = Some t /\ Tcs.is_configured t = true /\ tcs_id t = id /\
    (forall i, i <> index -> ma_tcs (lq_liqee l') !! i = ma_tcs (lq_liqee l) !! i) /\
    exists i j ki kj bb bp sb sp bb' sb',
    sb_index_map (sc_banks_and_oracles r) !! tcs_buy_token_index t = Some i /\
    sb_index_map (sc_banks_and_oracles r) !! tcs_sell_token_index t = Some j /\
    Scanning.bank_at (sc_banks_and_oracles r) i = Done (bb, bp) /\
    Scanning.bank_at (sc_banks_and_oracles r) j = Done (sb, sp) /\
    sb_banks (sc_banks_and_oracles r')
      = <[j := (kj, ABank sb')]> (<[i := (ki, ABank bb')]> (sb_banks (sc_banks_and_oracles r))) /\
    ((Tcs.is_expired t (clock_ts clock) = true /\ minb = 0 /\ lq_liqor l' = lq_liqor l /\
      ma_tcs (lq_liqee l') !! index = Some Tcs.default /\
      release_tokens (Account.set_tcs (lq_liqee l) index Tcs.default) bb sb (clock_ts clock) = Done (lq_liqee l', bb', sb')) \/
     (Tcs.is_expired t (clock_ts clock) = false /\
      exists liqee liqor c a pb ps pb' ps' bb1 sb1 ts' pre post hl,
        with_swap_positions (lq_liqee l) t liqee /\ new_health_cache liqee r (clock_ts clock) = Done c /\
        with_swap_positions (lq_liqor l) t liqor /\
        good_trade t bp sp (clock_ts clock) mb ms mtp a /\ minb <= sa_buy a /\
        swapped t bb sb (ma_tokens liqee) (ma_tokens liqor) pb ps a bb1 sb1 pb' ps' ts' (ma_tokens (lq_liqor l')) /\
        swap_health c bb1 sb1 (fx_int (sa_buy a)) (value sb1 ps' - value sb ps) pre post /\ health_kept pre post /\
        recorded t a index (clock_ts clock) (set_ma_tokens liqee ts') bb1 sb1 (lq_liqee l') bb' sb' /\
        slot_after t a (ma_tcs (lq_liqee l') !! index) /\
        Fixed.being_liquidated (ma_fixed (lq_liqee l')) = false /\
        compute_health (lq_liqor l') Init r' (clock_ts clock) = Done hl /\ 0 <= hl)).
Proof.
  intros HB E. unfold token_conditional_swap_trigger in E.
  apply bind_Done_inv in E as (u1 & C1 & E). apply trigger_constraints_inv in C1 as [Hix Hown].
  apply bind_Done_inv in E as (u2 & C2 & E). apply require_inv, negb_true_iff, Z.eqb_neq in C2.
  apply bind_Done_inv in E as (u3 & C3 & E). apply require_inv, negb_true_iff in C3.
  apply bind_Done_inv in E as (r & Er & E). apply bind_Done_inv in E as (t & Et & E).
  apply configured_swap_inv in Et as (Lt & Ct & It). do 4 (split; [done|]). exists r, t. do 4 (split; [done|]).
  destruct (Tcs.is_expired t (clock_ts clock)).
  - unfold remove_expired in E. apply bind_Done_inv in E as (u4 & C4 & E). apply require_inv, Z.eqb_eq in C4.
    apply bind_Done_inv in E as ([[i [bb bp]] opt] & Eb & E). apply bind_Done_inv in E as ([j [sb sp]] & Eo & E).
    apply unwrap_inv in Eo as ->. apply banks_mut_inv in Eb as (_ & Mb & Ms & Bb & Bs).
    apply bind_Done_inv in E as ([[liqee1 b1] b2] & Erl & E). apply bind_Done_inv in E as (r1 & Ew & E).
    apply write_banks_inv in Ew as (ki & kj & Hb).
    injection E as <- <-. pose proof (release_tokens_tcs _ _ _ _ _ _ _ Erl) as [Htc _]. simpl in Htc |- *. rewrite Htc. split.
    + intros i' Hi'. by rewrite list_lookup_insert_ne.
    + exists i, j, ki, kj, bb, bp, sb, sp, b1, b2. do 5 (split; [done|]). left. split_and!; try done.
      apply list_lookup_insert_eq. by eapply lookup_lt_Some.
  - apply bind_Done_inv in E as ([[liqee1 k1] k1'] & E1 & E). pose proof (ensure_token_position_tcs _ _ _ _ _ E1) as T1.
    apply bind_Done_inv in E as ([[liqee2 k2] k2'] & E2 & E). pose proof (ensure_token_position_tcs _ _ _ _ _ E2) as T2.
    apply bind_Done_inv in E as (c & Ec & E). apply bind_Done_inv in E as ([[i [bb bp]] opt] & Eb & E).
    apply bind_Done_inv in E as ([j [sb sp]] & Eo & E). apply unwrap_inv in Eo as ->.
    apply banks_mut_inv in Eb as (Hne & Mb & Ms & Bb & Bs).
    destruct (scanned_bank_ok _ _ _ _ _ _ _ HB Er Bb) as [HIb HRb]. destruct (scanned_bank_ok _ _ _ _ _ _ _ HB Er Bs) as [HIs HRs].
    apply bind_Done_inv in E as ([[[[liqor3 liqee3] bb3] sb3] x] & Ea & E).
    apply bind_Done_inv in E as (u4 & Em & E). apply require_inv, Z.leb_le in Em.
    apply bind_Done_inv in E as (r1 & Ew & E). apply write_banks_inv in Ew as (ki & kj & Hb). apply bind_Done_inv in E as (hl & Ehl & E).
    apply bind_Done_inv in E as (u5 & C5 & E). apply require_inv, Z.leb_le in C5. injection E as <- <-.
    apply (trigger_action_inv _ _ _ _ _ _ _ _ _ _ _ _ t) in Ea as
      (a & liqor1 & pb & ps & pb' & ps' & bb1 & sb1 & ts' & pre & post & G & -> & Wo & Sw & H2 & H3 & H4);
      [|done..|congruence|done].
    destruct (recorded_slot _ _ _ _ _ _ _ _ _ _ H4) as (S1 & S2 & S3); [simpl; rewrite T2, T1; by eapply lookup_lt_Some|].
    simpl in S2 |- *. split; [intros i' Hi'; rewrite S2; congruence|].
    exists i, j, ki, kj, bb, bp, sb, sp, bb3, sb3. do 5 (split; [done|]). right. split; [done|].
    exists liqee2, liqor1, c, a, pb, ps, pb', ps', bb1, sb1, ts', pre, post, hl. split_and!; try done.
    { by exists liqee1, k1, k1', k2, k2'. }
    pose proof scale_pos. unfold fx_int in Em. nia.
Qed.

(** ** Sell tokens without new deposits *)

Lemma checked_transfer_touched b p out q into now price b' p' q' r :
  checked_transfer_with_fee b p out q into now price = Done (b', p', q', r) -> touched b b'.
Proof.
  intros E. unfold checked_transfer_with_fee in E.
  apply bind_Done_inv in E as ([[b1 p1] w] & Ew & E). apply bind_Done_inv in E as ([[b2 q2] act] & Ed & E).
  repeat (apply bind_Done_inv in E as (? & _ & E)). injection E as <- <- <- <-. apply touched_trans with b1.
  - destruct (negb (out =? 0)); [|by injection Ew as <- <- <-].
    apply bind_Done_inv in Ew as ([[b3 p3] w3] & Ew & E). apply bind_Done_inv in E as (u & _ & E). injection E as <- <- <-.
    by eapply withdraw_touched.
  - destruct (negb (into =? 0)); [|by injection Ed as <- <- <-].
    apply bind_Done_inv in Ed as ([[b3 q3] a3] & Ed & E). apply bind_Done_inv in E as (u & _ & E). injection E as <- <- <-.
    by eapply deposit_touched.
Qed.

Lemma swap_transfers_touched t bb sb liqee liqor a bp sp now bb' sb' liqee' liqor' nb ns :
  swap_transfers t bb sb liqee liqor a bp sp now = Done (bb', sb', liqee', liqor', nb, ns) -> touched sb sb'.
Proof.
  unfold swap_transfers. intros E. apply bind_Done_inv in E as (buy & _ & E).
  apply bind_Done_inv in E as ([pb ib] & _ & E). apply bind_Done_inv in E as ([qb jb] & _ & E).
  apply bind_Done_inv in E as ([[[bb1 qb'] pb'] rb] & _ & E). apply bind_Done_inv in E as (n1 & _ & E).
  apply bind_Done_inv in E as (n2 & _ & E). apply bind_Done_inv in E as ([ps i2] & _ & E).
  apply bind_Done_inv in E as ([qs js] & _ & E). apply bind_Done_inv in E as (from & _ & E).
  apply bind_Done_inv in E as (to & _ & E). apply bind_Done_inv in E as ([[[sb1 ps'] qs'] rs] & Ets & E).
  repeat (apply bind_Done_inv in E as (? & _ & E)). injection E as _ <- _ _ _ _.
  by apply checked_transfer_touched in Ets.
Qed.

Lemma swap_done_reduce_only t mp P bb sb nb ns pre post :
  BankCfg.are_deposits_reduce_only sb = true -> forall d, swap_done t mp P bb sb nb ns pre post <> Done d.
Proof.
  intros Hr d E. unfold swap_done in E. apply bind_Done_inv in E as ([fb fs] & E & _).
  unfold trade_amount in E. do 3 (apply bind_Done_inv in E as (? & _ & E)).
  rewrite Hr, fx_neg_overflow in E by done. by apply bind_Done_inv in E as (y & [=] & _).
Qed.

(** A swap whose sell token takes no new deposits can never be triggered, whoever
    the liqor is: to decide whether the swap is done the code asks how much a liqor without
    restrictions could still trade, represents its balance by the smallest fixed-point
    number, and panics when it negates it. *)
Theorem reduce_only_sell_token_blocks_trigger liqor liqee c index bb bp mb sb sp ms now mtp :
  BankCfg.are_deposits_reduce_only sb = true ->
  forall res, trigger_action liqor liqee c index bb bp mb sb sp ms now mtp <> Done res.
Proof.
  intros Hr res E. unfold trigger_action in E.
  apply bind_Done_inv in E as ([liqee1 pre] & _ & E). apply bind_Done_inv in E as (t1 & _ & E).
  do 3 (apply bind_Done_inv in E as (? & _ & E)).
  apply bind_Done_inv in E as ([p1 i1] & _ & E). apply bind_Done_inv in E as (v1 & _ & E).
  apply bind_Done_inv in E as ([p2 i2] & _ & E). apply bind_Done_inv in E as (v2 & _ & E).
  apply bind_Done_inv in E as ([[o1 i3] k3] & _ & E). do 2 (apply bind_Done_inv in E as (? & _ & E)).
  apply bind_Done_inv in E as ([[o2 i4] k4] & _ & E). do 2 (apply bind_Done_inv in E as (? & _ & E)).
  apply bind_Done_inv in E as ([buy sell] & _ & E). apply bind_Done_inv in E as (a & _ & E).
  apply bind_Done_inv in E as ([[[[[bb1 sb1] liqee2] o3] nb] ns] & Est & E). apply swap_transfers_touched in Est.
  do 6 (apply bind_Done_inv in E as (? & _ & E)). apply bind_Done_inv in E as (closed & Ed & E).
  eapply (swap_done_reduce_only _ _ _ _ sb1); [|exact Ed].
  rewrite <- Hr. change (BankCfg.are_deposits_reduce_only (config sb1) = BankCfg.are_deposits_reduce_only (config sb)).
  by rewrite Est.
Qed.

End spec.

(** ** Concrete swaps *)

(** A concrete instance: with at most 7 bought and 4 sold at a price of 0.6, 7 are bought for 4. *)
Lemma trade_amount_inner_exact_witness :
  @trade_amount_inner fixed_ref 7 4 (3 * (fx_scale / 5) + 1) = Done (7, 4) /\ 4 = sell_for (3 * (fx_scale / 5) + 1) 7.
Proof.
  destruct (@trade_amount_inner_exact fixed_ref fixed_ref_laws 7 4 (3 * (fx_scale / 5) + 1))
    as (buy & sell & E & _ & _ & Hs & _); [split; vm_compute; congruence..|].
  assert (Hb : (buy, sell) = (7, 4)) by (vm_compute in E; congruence).
  injection Hb as -> ->. exact (conj E Hs).
Defined.

(** A swap that buys up to 50 of token 1 for up to 60 of token 0 while the price is at
    most two, of an account with 1000 of token 0; the liqor has 1000 of token 1. *)
Definition sample_swap : TokenConditionalSwap :=
  mkTokenConditionalSwap 7 50 60 0 0 (2 ^ 40) (f64_of_Z 0) (f64_of_Z 2) f_zero f_zero f_zero 1 0 1 1 0 0 0 0.
Definition swap_liqee : MangoAccount :=
  (liqee_account <| ma_tokens := [set_tp_in_use_count (position_of 0 (fx_int 1000)) 1; set_tp_in_use_count (position_of 1 0) 1] |>)
    <| ma_tcs := [Tcs.default; sample_swap] |>.
Definition swap_liqor : MangoAccount :=
  liqor_account <| ma_tokens := [position_of 1 (fx_int 1000); Token.default; Token.default] |>.
Definition swap_accounts : LiqAccounts :=
  mkLiqAccounts 1 (sample_group <| gr_ix_gate := 0 |>) 30 swap_liqor 31 swap_liqee.

(** The witness of C23: 20 are bought, and the swap records them. *)
Lemma token_conditional_swap_trigger_safe_witness :
  exists l' r', @token_conditional_swap_trigger fixed_ref swap_accounts 8 liq_ais withdraw_clock 1 7 20 100 5 f_zero = Done (l', r') /\
    ma_tcs (lq_liqee l') !! 1%nat = Some ((sample_swap <| tcs_bought := 20 |>) <| tcs_sold := 20 |> <| tcs_start_timestamp := 1000 |>) /\
    Fixed.being_liquidated (ma_fixed (lq_liqor swap_accounts)) = false.
Proof.
  destruct (@token_conditional_swap_trigger fixed_ref swap_accounts 8 liq_ais withdraw_clock 1 7 20 100 5 f_zero)
    as [[l' r']| | |] eqn:E; [|vm_compute in E; discriminate E..].
  exists l', r'. refine (conj eq_refl (conj _ _)).
  - vm_compute in E. injection E as <- _. reflexivity.
  - destruct (@token_conditional_swap_trigger_safe fixed_ref fixed_ref_laws swap_accounts 8 liq_ais withdraw_clock 1 7 20 100 5
      f_zero l' r' liq_banks_ok E) as (_ & _ & _ & Hf & _).
    exact Hf.
Defined.

(** A concrete instance: the same swap when token 0 takes no new deposits. *)
Lemma reduce_only_sell_token_blocks_trigger_witness :
  BankCfg.are_deposits_reduce_only (asset_bank_0 <| bk_reduce_only := 1 |>) = true /\
  forall res, @trigger_action fixed_ref swap_liqor swap_liqee liqee_cache 1 liab_bank_1 fx_one 20
    (asset_bank_0 <| bk_reduce_only := 1 |>) fx_one 100 1000 f_zero <> Done res.
Proof.
  refine (conj eq_refl _).
  exact (@reduce_only_sell_token_blocks_trigger fixed_ref fixed_ref_laws swap_liqor swap_liqee liqee_cache 1 liab_bank_1 fx_one 20
    (asset_bank_0 <| bk_reduce_only := 1 |>) fx_one 100 1000 f_zero eq_refl).
Defined.
