(* ===== verification/FlashLoan.v ===== *)
(** * Flash loans

    instructions/flash_loan.rs with the constraints of accounts_ix/flash_loan.rs. The
    begin transfers the loans out of the vaults and makes sure that a matching end follows
    in the same transaction; the end transfers what is in the token accounts above their
    initial balances back and books the differences on the account. The passed accounts
    are one list, and an account passed twice is the same account. Logs are left out. *)

From stdpp Require Import base numbers option list.
From Stdlib Require Import ZArith Lia SpecFloat.
From S2P Require Import Prelude FixedPoint HealthType TokenPosition OrderTypes Nodes Oracle StablePrice Bank Group Serum3 PerpMarket PerpPosition MangoAccount HealthCache AccountRetriever TokenInstructions HealthRegion.

Open Scope Z_scope.

Inductive FlashLoanType := FlashLoanUnknown | FlashLoanSwap | FlashLoanSwapWithoutFee.

#[export] Instance FlashLoanType_eq_dec : EqDecision FlashLoanType.
Proof. solve_decision. Defined.

(** The associated token program: [create_idempotent] returns the token account of the
    authority and mint, which it creates if it is missing. *)
Class AssociatedTokenProgram := create_idempotent : AccountInfo -> Pubkey -> Pubkey -> outcome AccountInfo.

Section loan.
Context `{FixedOps} `{TokenProgram}.
Context (associated_token_id : Pubkey) (flash_loan_end_discriminator : list Z).

(** A transfer between two passed token accounts. *)
Definition transfer_tokens (ais : list AccountInfo) (from to : AccountInfo) (amount : Z) : outcome (list AccountInfo) :=
  f ← load_token_account from;
  t ← load_token_account to;
  '(f', t') ← token_transfer (ta_amount f) (ta_amount t) amount;
  Done (write_account (fst to) (AToken (mkTokenAccount (ta_mint t) (ta_owner t) t'))
          (write_account (fst from) (AToken (mkTokenAccount (ta_mint f) (ta_owner f) f')) ais)).

(** ** Begin *)

(** One round of the loop over banks, vaults, token accounts and amounts; [i] is the
    place of the bank. *)
Definition begin_loan (group_pk : Pubkey) (num_loans : nat) (state : list AccountInfo * list Z) (loan : nat * Z) :
    outcome (list AccountInfo * list Z) :=
  let '(ais, seen_token_indexes) := state in
  let '(i, amount) := loan in
  bank_ai ← unwrap (ais !! i);
  vault_ai ← unwrap (ais !! (num_loans + i)%nat);
  token_account_ai ← unwrap (ais !! (2 * num_loans + i)%nat);
  bank ← load_bank bank_ai;
  _ ← require (bk_group bank =? group_pk) ERequireKeysEq;
  _ ← require (bk_vault bank =? fst vault_ai) ERequireKeysEq;
  _ ← require (negb (bool_decide (bk_token_index bank ∈ seen_token_indexes))) error_msg;
  vault ← load_token_account vault_ai;
  token_account ← load_token_account token_account_ai;
  _ ← require (ta_mint token_account =? bk_mint bank) ERequireKeysEq;
  _ ← require (negb (ta_owner token_account =? group_pk)) ERequireKeysNeq;
  _ ← require (bk_flash_loan_approved_amount bank =? 0) ERequireEq;
  _ ← require (bk_flash_loan_token_account_initial bank =? U64_MAX) ERequireEq;
  let bank := set_bk_flash_loan_token_account_initial (set_bk_flash_loan_approved_amount bank amount) (ta_amount token_account) in
  let ais := write_account (fst bank_ai) (ABank bank) ais in
  ais ← (if 0 <? amount then
           _ ← require (negb (ta_amount vault <? amount)) (EMango InsufficentBankVaultFunds);
           transfer_tokens ais vault_ai token_account_ai amount
         else Done ais);
  Done (ais, seen_token_indexes ++ [bk_token_index bank]).

Definition delegate_may_use (program : Pubkey) : bool :=
  (program =? associated_token_id) || (program =? jupiter_mainnet_3) || (program =? jupiter_mainnet_4)
  || (program =? jupiter_mainnet_6) || (program =? compute_budget_id) || (program =? mango_id).

(** [require_msg!] on each pair of the zipped lists. *)
Fixpoint same_keys (l1 l2 : list Pubkey) : outcome unit :=
  match l1, l2 with
  | k1 :: l1, k2 :: l2 => _ ← require (k1 =? k2) error_msg; same_keys l1 l2
  | _, _ => Done tt
  end.

(** An instruction of this program after the begin must be the matching end. *)
Definition check_loan_end (account_pk : Pubkey) (num_loans : nat) (begin_accounts : list Pubkey) (ix : TxInstruction) : outcome unit :=
  d ← ix_discriminator ix;
  _ ← require (bool_decide (d = flash_loan_end_discriminator)) (EMango SomeError);
  n ← unwrap (ti_data ix !! 8%nat);
  _ ← require (n =? Z.of_nat num_loans) ERequireEq;
  k ← unwrap (ti_accounts ix !! 0%nat);
  _ ← require (account_pk =? k) error_msg;
  _ ← assert_ (length begin_accounts <=? length (ti_accounts ix))%nat;
  same_keys begin_accounts (drop (length (ti_accounts ix) - length begin_accounts) (ti_accounts ix)).

(** The loop over the instructions that follow: whether the end was found. *)
Fixpoint find_loan_end (account_pk : Pubkey) (is_delegate : bool) (num_loans : nat) (begin_accounts : list Pubkey)
    (ixs : list TxInstruction) : outcome bool :=
  match ixs with
  | [] => Done false
  | ix :: ixs =>
      _ ← (if is_delegate then require (delegate_may_use (ti_program_id ix)) error_msg else Done tt);
      if ti_program_id ix =? mango_id then
        _ ← check_loan_end account_pk num_loans begin_accounts ix;
        Done true
      else
        _ ← require (bool_decide (Forall (fun k => k <> mango_id) (ti_accounts ix))) error_msg;
        find_loan_end account_pk is_delegate num_loans begin_accounts ixs
  end.

Definition flash_loan_begin (program_id : Pubkey) (account_pk : Pubkey) (account : MangoAccount) (owner_pk : Pubkey)
    (tx : Transaction) (remaining : list AccountInfo) (loan_amounts : list Z) (now_ts : Z) : outcome (list AccountInfo) :=
  let num_loans := length loan_amounts in
  _ ← require (Fixed.is_operational (ma_fixed account) now_ts) (EMango AccountIsFrozen);
  _ ← require (0 <? num_loans)%nat ERequireGt;
  _ ← require (Fixed.is_owner_or_delegate (ma_fixed account) now_ts owner_pk) (EMango SomeError);
  _ ← require (length remaining =? 3 * num_loans + 1)%nat ERequireEq;
  group_ai ← unwrap (remaining !! (3 * num_loans)%nat);
  group ← load_group group_ai;
  _ ← require (GroupCfg.is_ix_enabled group IxFlashLoan) (EMango IxIsDisabled);
  '(ais, _) ← foldM (begin_loan (fst group_ai) num_loans) (remaining, []) (zip (seq 0 num_loans) loan_amounts);
  _ ← require_top_level program_id tx;
  found_end ← find_loan_end account_pk (Fixed.is_delegate (ma_fixed account) now_ts owner_pk) num_loans
                (fst <$> drop num_loans remaining) (following tx);
  _ ← require found_end error_msg;
  Done ais.

(** The two token accounts, whose places are before the group, are created if needed. *)
Definition flash_loan_swap_begin `{AssociatedTokenProgram} (program_id : Pubkey) (account_pk : Pubkey) (account : MangoAccount)
    (owner_pk : Pubkey) (input_mint output_mint : Pubkey) (tx : Transaction) (remaining : list AccountInfo)
    (loan_amount now_ts : Z) : outcome (list AccountInfo) :=
  _ ← require (Fixed.is_operational (ma_fixed account) now_ts) (EMango AccountIsFrozen);
  _ ← require (length remaining =? 7)%nat ERequireEq;
  input_account ← unwrap (remaining !! 4%nat);
  input_account ← create_idempotent input_account owner_pk input_mint;
  let remaining := write_account (fst input_account) (snd input_account) remaining in
  output_account ← unwrap (remaining !! 5%nat);
  output_account ← create_idempotent output_account owner_pk output_mint;
  let remaining := write_account (fst output_account) (snd output_account) remaining in
  flash_loan_begin program_id account_pk account owner_pk tx remaining [loan_amount; 0] now_ts.

(** ** End *)

Record TokenVaultChange := mkTokenVaultChange {
  tv_token_index : Z;
  tv_bank_index : nat;
  tv_raw_token_index : nat;
  tv_amount : Z
}.

(** What the loop over the banks updates: the account, the passed accounts, the changes,
    which vaults have banks and the largest fee rate. *)
Record RepayState := mkRepayState {
  rs_account : MangoAccount;
  rs_ais : list AccountInfo;
  rs_changes : list TokenVaultChange;
  rs_vaults_with_banks : list bool;
  rs_max_swap_fee_rate : f32
}.

(** What the token account holds above its initial balance goes back to the vault. *)
Definition repay_loan (bank : Bank) (ais : list AccountInfo) (vault_ai token_account_ai : AccountInfo) : outcome (list AccountInfo * Z) :=
  token_account ← load_token_account token_account_ai;
  approved ← fx_from_int (bk_flash_loan_approved_amount bank);
  change ← fx_neg approved;
  if bk_flash_loan_token_account_initial bank <? ta_amount token_account then
    repay ← u64 (ta_amount token_account - bk_flash_loan_token_account_initial bank);
    ais ← transfer_tokens ais token_account_ai vault_ai repay;
    r ← fx_from_int repay;
    change ← fx_add change r;
    Done (ais, change)
  else Done (ais, change).

(** One bank of the loop; [vaults_index] is where the vaults start, [n] how many there are. *)
Definition repay_bank (group : Pubkey) (vaults_index n i : nat) (bank : Bank) (s : RepayState) : outcome RepayState :=
  _ ← require (bk_group bank =? group) ERequireKeysEq;
  match position (fun ai : AccountInfo => fst ai =? bk_vault bank) (take n (drop vaults_index (rs_ais s))) with
  | None => Done s
  | Some vault_index =>
      vault_ai ← unwrap (rs_ais s !! (vaults_index + vault_index)%nat);
      token_account_ai ← unwrap (rs_ais s !! (vaults_index + n + vault_index)%nat);
      token_account ← load_token_account token_account_ai;
      _ ← require (ta_mint token_account =? bk_mint bank) ERequireKeysEq;
      _ ← require (negb (bk_flash_loan_token_account_initial bank =? U64_MAX)) ERequireNeq;
      '(account, raw_token_index, _) ← Account.ensure_token_position (rs_account s) (bk_token_index bank);
      '(ais, change) ← repay_loan bank (rs_ais s) vault_ai token_account_ai;
      Done (mkRepayState account ais
              (rs_changes s ++ [mkTokenVaultChange (bk_token_index bank) i raw_token_index change])
              (<[vault_index := true]> (rs_vaults_with_banks s))
              (f64_max (rs_max_swap_fee_rate s) (bk_flash_loan_swap_fee_rate bank)))
  end.

(** The loop over the leading banks of the health accounts. *)
Fixpoint repay_banks (group : Pubkey) (vaults_index n : nat) (fuel i : nat) (s : RepayState) : outcome RepayState :=
  match fuel with
  | O => Done s
  | S fuel =>
      ai ← unwrap (rs_ais s !! i);
      match load_bank ai with
      | Done bank =>
          s ← repay_bank group vaults_index n i bank s;
          repay_banks group vaults_index n fuel (S i) s
      | _ => Done s
      end
  end.

(** The fees of a change and the amount that is booked. *)
Definition loan_fees (bank : Bank) (native : Z) (flash_loan_type : FlashLoanType) (max_swap_fee_rate : f32) (change : Z) :
    outcome (Z * Z * Z) :=
  approved_amount ← fx_from_int (bk_flash_loan_approved_amount bank);
  loan ← (if 0 <? native then d ← fx_sub approved_amount native; Done (Z.max d 0) else Done approved_amount);
  loan_origination_fee ← fx_mul loan (bk_loan_origination_fee_rate bank);
  swap_fee ← (if (change <? 0) && bool_decide (flash_loan_type = FlashLoanSwap) then
                n ← fx_neg change; r ← fx_from_f32 max_swap_fee_rate; fx_mul n r
              else Done 0);
  d ← fx_sub change loan_origination_fee;
  change_amount ← fx_sub d swap_fee;
  Done (loan_origination_fee, swap_fee, change_amount).

Definition check_reduce_only (bank : Bank) (native native_after_change : Z) : outcome unit :=
  _ ← (if BankCfg.are_deposits_reduce_only bank then
         require ((native_after_change <? fx_one) || (native_after_change <=? native)) (EMango TokenInReduceOnlyMode)
       else Done tt);
  if BankCfg.are_borrows_reduce_only bank then
    require ((native <=? native_after_change) || (0 <=? native_after_change)) (EMango TokenInReduceOnlyMode)
  else Done tt.

Definition check_loan_limits (bank : Bank) (change_amount native_after_change oracle_price : Z) : outcome unit :=
  _ ← (if (change_amount <? 0) && (native_after_change <? 0) then
         _ ← enforce_max_utilization_on_borrow bank;
         check_net_borrows bank oracle_price
       else enforce_borrows_lte_deposits bank);
  if (0 <? change_amount) && (0 <? native_after_change) then check_deposit_and_oo_limit bank else Done tt.

(** One change: the bank and the position afterwards, and whether the position is active. *)
Definition book_change (bank : Bank) (position : TokenPosition) (flash_loan_type : FlashLoanType) (max_swap_fee_rate : f32)
    (change oracle_price now_ts : Z) : outcome (Bank * TokenPosition * bool) :=
  native ← native position bank;
  '(loan_origination_fee, swap_fee, change_amount) ← loan_fees bank native flash_loan_type max_swap_fee_rate change;
  c ← fx_add (bk_collected_fees_native bank) loan_origination_fee;
  c ← fx_add c swap_fee;
  let bank := set_bk_collected_fees_native bank c in
  native_after_change ← fx_add native change_amount;
  _ ← check_reduce_only bank native native_after_change;
  '(bank, position, is_active) ← change_without_fee bank position change_amount now_ts;
  _ ← check_loan_limits bank change_amount native_after_change oracle_price;
  Done (set_bk_flash_loan_token_account_initial (set_bk_flash_loan_approved_amount bank 0) U64_MAX, position, is_active).

(** The loop that books the changes: the account, the passed accounts and the positions
    to deactivate. *)
Definition book_loan (flash_loan_type : FlashLoanType) (max_swap_fee_rate : f32) (now_ts : Z)
    (state : MangoAccount * list AccountInfo * list nat) (cp : TokenVaultChange * Z) :
    outcome (MangoAccount * list AccountInfo * list nat) :=
  let '(account, ais, deactivated) := state in
  let '(change, oracle_price) := cp in
  bank_ai ← unwrap (ais !! tv_bank_index change);
  bank ← load_bank bank_ai;
  position ← unwrap (ma_tokens account !! tv_raw_token_index change);
  '(bank, position, is_active) ←
    book_change bank position flash_loan_type max_swap_fee_rate (tv_amount change) oracle_price now_ts;
  Done (Account.set_token account (tv_raw_token_index change) position,
        write_account (fst bank_ai) (ABank bank) ais,
        if (is_active : bool) then deactivated else deactivated ++ [tv_raw_token_index change]).

Definition check_loan_type (flash_loan_type : FlashLoanType) (changes : list TokenVaultChange) : outcome unit :=
  match flash_loan_type with
  | FlashLoanUnknown => Done tt
  | FlashLoanSwap | FlashLoanSwapWithoutFee => require (length changes =? 2)%nat error_msg
  end.

(** The prices of the changed tokens, which must be known to the health cache. *)
Fixpoint change_prices (retriever : FixedOrderAccountRetriever) (group : Pubkey) (cache : HealthCache)
    (changes : list TokenVaultChange) : outcome (list Z) :=
  match changes with
  | [] => Done []
  | change :: changes =>
      '(_, p) ← FixedOrder.bank_and_oracle retriever group (tv_bank_index change) (tv_token_index change);
      _ ← token_info_index cache (tv_token_index change);
      ps ← change_prices retriever group cache changes;
      Done (p :: ps)
  end.

Definition loan_health_cache (account : MangoAccount) (health_ais : list AccountInfo) (clock : Clock) :
    outcome (FixedOrderAccountRetriever * HealthCache) :=
  retriever ← new_fixed_order_account_retriever_with_optional_banks health_ais account (clock_slot clock);
  cache ← new_health_cache_skipping_missing_banks_and_bad_oracles account retriever (clock_ts clock);
  Done (retriever, cache).

Definition flash_loan_end (account : MangoAccount) (owner : Pubkey) (remaining : list AccountInfo) (num_loans : nat)
    (flash_loan_type : FlashLoanType) (clock : Clock) : outcome (MangoAccount * list AccountInfo) :=
  let now_ts := clock_ts clock in
  _ ← require (Fixed.is_operational (ma_fixed account) now_ts) (EMango AccountIsFrozen);
  _ ← require (0 <? num_loans)%nat ERequireGt;
  _ ← require (Fixed.is_owner_or_delegate (ma_fixed account) now_ts owner) (EMango SomeError);
  let group := af_group (ma_fixed account) in
  group_ai ← unwrap (last remaining);
  _ ← require (group =? fst group_ai) ERequireKeysEq;
  _ ← assert_ (2 * num_loans + 1 <=? length remaining)%nat;
  let vaults_index := (length remaining - 2 * num_loans - 1)%nat in
  s ← repay_banks group vaults_index num_loans vaults_index 0
        (mkRepayState account remaining [] (replicate num_loans false) f_zero);
  _ ← require (forallb id (rs_vaults_with_banks s)) (EMango InvalidBank);
  _ ← check_loan_type flash_loan_type (rs_changes s);
  '(retriever, cache) ← loan_health_cache (rs_account s) (take vaults_index (rs_ais s)) clock;
  '(account, pre_init_health) ← Account.check_health_pre (rs_account s) cache;
  prices ← change_prices retriever group cache (rs_changes s);
  '(account, ais, deactivated) ←
    foldM (book_loan flash_loan_type (rs_max_swap_fee_rate s) now_ts) (account, rs_ais s, []) (zip (rs_changes s) prices);
  '(_, cache) ← loan_health_cache account (take vaults_index ais) clock;
  _ ← Account.check_health_post cache pre_init_health;
  account ← foldM Account.deactivate_token_position account deactivated;
  Done (account, ais).

End loan.
