(* ===== verification/FlashLoanSpec.v ===== *)
(** * Specification of flash loans

    A loan is always followed by its end in the same transaction, what is missing from a
    vault at the end is booked on the account with the fees, and the health of the account
    is kept. *)

From stdpp Require Import base numbers option list.
From Stdlib Require Import ZArith Lia SpecFloat.
From S2P Require Import Prelude FixedPoint HealthType TokenPosition OrderTypes Nodes Oracle StablePrice Bank BankSpec Group Serum3 PerpMarket PerpPosition MangoAccount HealthCache AccountRetriever TokenInstructions TokenInstructionsSpec TokenLiquidationSpec HealthRegion FlashLoan.

Open Scope Z_scope.

(** ** The end follows *)

Lemma same_keys_inv l1 l2 u : length l1 = length l2 -> same_keys l1 l2 = Done u -> l1 = l2.
Proof.
  revert l2. induction l1 as [|k1 l1 IH]; intros [|k2 l2] Hl E; try done. simpl in E.
  apply bind_Done_inv in E as (v & Ek & E). apply require_inv, Z.eqb_eq in Ek as ->. f_equal. apply IH; [by injection Hl|done].
Qed.

Section spec.
Context `{FixedLaws} `{TokenLaws}.
Context (associated_token_id : Pubkey) (flash_loan_end_discriminator : list Z).

(** An instruction that may stand between the begin and the end. *)
Definition harmless (is_delegate : bool) (ix : TxInstruction) : Prop :=
  ti_program_id ix <> mango_id /\ mango_id ∉ ti_accounts ix /\
  (is_delegate = true -> delegate_may_use associated_token_id (ti_program_id ix) = true).

(** The end of a loan of [n] tokens by the account, with the same trailing accounts. *)
Record loan_end (account_pk : Pubkey) (n : nat) (trailing : list Pubkey) (ix : TxInstruction) : Prop := {
  le_program : ti_program_id ix = mango_id;
  le_discriminator : take 8 (ti_data ix) = flash_loan_end_discriminator;
  le_loans : ti_data ix !! 8%nat = Some (Z.of_nat n);
  le_account : ti_accounts ix !! 0%nat = Some account_pk;
  le_trailing : exists l, ti_accounts ix = l ++ trailing
}.

Lemma check_loan_end_inv account_pk n trailing ix u : ti_program_id ix = mango_id ->
  check_loan_end flash_loan_end_discriminator account_pk n trailing ix = Done u -> loan_end account_pk n trailing ix.
Proof.
  intros Hp E. unfold check_loan_end, ix_discriminator in E.
  apply bind_Done_inv in E as (d & Ed & E). apply bind_Done_inv in Ed as (v & _ & Ed). injection Ed as <-.
  apply bind_Done_inv in E as (u1 & E1 & E). apply require_inv, bool_decide_eq_true in E1.
  apply bind_Done_inv in E as (m & Em & E). apply unwrap_inv in Em.
  apply bind_Done_inv in E as (u2 & E2 & E). apply require_inv, Z.eqb_eq in E2 as ->.
  apply bind_Done_inv in E as (k & Ek & E). apply unwrap_inv in Ek.
  apply bind_Done_inv in E as (u3 & E3 & E). apply require_inv, Z.eqb_eq in E3 as ->.
  apply bind_Done_inv in E as (u4 & E4 & E). unfold assert_ in E4.
  destruct (Nat.leb_spec (length trailing) (length (ti_accounts ix))) as [Hl|]; [|done].
  apply same_keys_inv in E; [|rewrite length_drop; lia].
  constructor; try done. exists (take (length (ti_accounts ix) - length trailing) (ti_accounts ix)).
  pose proof (take_drop (length (ti_accounts ix) - length trailing) (ti_accounts ix)) as Ht. by rewrite <- E in Ht.
Qed.

Lemma find_loan_end_inv account_pk dl n trailing ixs :
  find_loan_end associated_token_id flash_loan_end_discriminator account_pk dl n trailing ixs = Done true ->
  exists between ix rest, ixs = between ++ ix :: rest /\ Forall (harmless dl) between /\ loan_end account_pk n trailing ix.
Proof.
  induction ixs as [|ix ixs IH]; [done|]. simpl. intros E. apply bind_Done_inv in E as (u & Ed & E).
  assert (Hd : dl = true -> delegate_may_use associated_token_id (ti_program_id ix) = true).
  { intros ->. by apply require_inv in Ed. }
  destruct (Z.eqb_spec (ti_program_id ix) mango_id) as [Hp|Hp].
  - apply bind_Done_inv in E as (u1 & Ec & _). apply check_loan_end_inv in Ec; [|done].
    by exists [], ix, ixs.
  - apply bind_Done_inv in E as (u1 & Ea & E). apply require_inv, bool_decide_eq_true in Ea.
    apply IH in E as (between & ix' & rest & -> & Hb & He). exists (ix :: between), ix', rest.
    split; [done|]. split; [|done]. constructor; [|done]. split_and!; try done.
    intros Hin. rewrite Forall_forall in Ea. by apply (Ea mango_id).
Qed.

(** C12: A flash loan is followed by its end: the begin only succeeds for the owner or a
    delegate of the account, called at the top level, and if later in the same transaction
    an instruction of this program ends a loan of as many tokens by the same account with
    the same vaults, token accounts and group, with no instruction in between that belongs
    to this program or could call it, and for a delegate none of a program outside the
    short list. *)
Theorem flash_loan_begin_followed_by_end program_id account_pk account owner tx remaining amounts now ais :
  flash_loan_begin associated_token_id flash_loan_end_discriminator program_id account_pk account owner tx remaining amounts now
    = Done ais ->
  Fixed.is_owner_or_delegate (ma_fixed account) now owner = true /\
  (exists ix0, tr_instructions tx !! tr_current tx = Some ix0 /\ ti_program_id ix0 = program_id) /\
  exists between ix rest,
    following tx = between ++ ix :: rest /\
    Forall (harmless (Fixed.is_delegate (ma_fixed account) now owner)) between /\
    loan_end account_pk (length amounts) (fst <$> drop (length amounts) remaining) ix.
Proof.
  unfold flash_loan_begin. intros E.
  apply bind_Done_inv in E as (u1 & _ & E). apply bind_Done_inv in E as (u2 & _ & E).
  apply bind_Done_inv in E as (u3 & E3 & E). apply require_inv in E3.
  apply bind_Done_inv in E as (u4 & _ & E). apply bind_Done_inv in E as (gai & _ & E).
  apply bind_Done_inv in E as (g & _ & E). apply bind_Done_inv in E as (u5 & _ & E).
  apply bind_Done_inv in E as ([ais1 seen] & _ & E). apply bind_Done_inv in E as (u6 & E6 & E).
  apply bind_Done_inv in E as (found & Ef & E). apply bind_Done_inv in E as (u7 & E7 & E).
  apply require_inv in E7 as ->. apply find_loan_end_inv in Ef. split; [done|]. split; [|done].
  unfold require_top_level, ok_or in E6. apply bind_Done_inv in E6 as (ix0 & E0 & E6).
  destruct (tr_instructions tx !! tr_current tx) as [ix1|]; [|done]. injection E0 as ->.
  apply require_inv, Z.eqb_eq in E6. eauto.
Qed.

(** ** One loan *)

(** The bank during a loan. *)
Definition on_loan (b : Bank) (amount initial : Z) : Bank :=
  set_bk_flash_loan_token_account_initial (set_bk_flash_loan_approved_amount b amount) initial.

Definition with_amount (t : TokenAccount) (amount : Z) : TokenAccount := mkTokenAccount (ta_mint t) (ta_owner t) amount.

(** The passed accounts when [x] moves from [f] to [t]. *)
Definition moved_tokens (ais : list AccountInfo) (kf kt : Pubkey) (f t : TokenAccount) (x : Z) : list AccountInfo :=
  write_account kt (AToken (with_amount t (ta_amount t + x))) (write_account kf (AToken (with_amount f (ta_amount f - x))) ais).

Lemma transfer_tokens_inv ais kf f kt t x ais' :
  transfer_tokens ais (kf, AToken f) (kt, AToken t) x = Done ais' -> ais' = moved_tokens ais kf kt f t x /\ x <= ta_amount f.
Proof.
  unfold transfer_tokens. simpl. intros E. apply bind_Done_inv in E as ([f' t'] & Et & E).
  apply transfer_inv in Et as (-> & -> & Hx). by injection E as <-.
Qed.

Lemma load_token_inv ai t : load_token_account ai = Done t -> ai = (fst ai, AToken t).
Proof. destruct ai as [k []]; try done. by intros [= ->]. Qed.

Lemma load_bank_inv ai b : load_bank ai = Done b -> ai = (fst ai, ABank b).
Proof. destruct ai as [k []]; try done. by intros [= ->]. Qed.

Lemma begin_loan_inv g n ais seen i amount ais' seen' : 0 <= amount ->
  begin_loan g n (ais, seen) (i, amount) = Done (ais', seen') ->
  exists kb b kv v kt t,
    ais !! i = Some (kb, ABank b) /\ ais !! (n + i)%nat = Some (kv, AToken v) /\ ais !! (2 * n + i)%nat = Some (kt, AToken t) /\
    bk_group b = g /\ bk_vault b = kv /\ bk_token_index b ∉ seen /\ seen' = seen ++ [bk_token_index b] /\
    ta_mint t = bk_mint b /\ ta_owner t <> g /\ bk_flash_loan_token_account_initial b = U64_MAX /\ amount <= Z.max 0 (ta_amount v) /\
    let ais1 := write_account kb (ABank (on_loan b amount (ta_amount t))) ais in
    ais' = if 0 <? amount then moved_tokens ais1 kv kt v t amount else ais1.
Proof.
  intros Ha E. unfold begin_loan in E.
  apply bind_Done_inv in E as (bai & Eb & E). apply unwrap_inv in Eb.
  apply bind_Done_inv in E as (vai & Ev & E). apply unwrap_inv in Ev.
  apply bind_Done_inv in E as (tai & Et & E). apply unwrap_inv in Et.
  apply bind_Done_inv in E as (b & Lb & E). apply load_bank_inv in Lb. rewrite Lb in *. simpl in E.
  apply bind_Done_inv in E as (u1 & E1 & E). apply require_inv, Z.eqb_eq in E1.
  apply bind_Done_inv in E as (u2 & E2 & E). apply require_inv, Z.eqb_eq in E2.
  apply bind_Done_inv in E as (u3 & E3 & E). apply require_inv, negb_true_iff, bool_decide_eq_false in E3.
  apply bind_Done_inv in E as (v & Lv & E). apply load_token_inv in Lv. rewrite Lv in *.
  apply bind_Done_inv in E as (t & Lt & E). apply load_token_inv in Lt. rewrite Lt in *. simpl in E2, E.
  apply bind_Done_inv in E as (u4 & E4 & E). apply require_inv, Z.eqb_eq in E4.
  apply bind_Done_inv in E as (u5 & E5 & E). apply require_inv, negb_true_iff, Z.eqb_neq in E5.
  apply bind_Done_inv in E as (u6 & E6 & E). apply bind_Done_inv in E as (u7 & E7 & E). apply require_inv, Z.eqb_eq in E7.
  apply bind_Done_inv in E as (ais1 & Ea & E). injection E as <- <-.
  exists (fst bai), b, (fst vai), v, (fst tai), t. simpl.
  destruct (Z.ltb_spec 0 amount) as [Hp|Hp].
  - apply bind_Done_inv in Ea as (u8 & _ & Ea). apply transfer_tokens_inv in Ea as [-> Hx]. split_and!; try done. lia.
  - injection Ea as <-. split_and!; try done. lia.
Qed.

Lemma repay_loan_inv b ais kv v kt t ais' change :
  repay_loan b ais (kv, AToken v) (kt, AToken t) = Done (ais', change) ->
  let repay := Z.max 0 (ta_amount t - bk_flash_loan_token_account_initial b) in
  change = fx_int (repay - bk_flash_loan_approved_amount b) /\
  ais' = (if 0 <? repay then moved_tokens ais kt kv t v repay else ais).
Proof.
  unfold repay_loan. simpl. intros E. apply bind_Done_inv in E as (a & Ea & E). apply fx_from_int_inv in Ea as ->.
  apply bind_Done_inv in E as (c & Ec & E). apply fx_neg_inv in Ec as ->.
  destruct (Z.ltb_spec (bk_flash_loan_token_account_initial b) (ta_amount t)) as [Hp|Hp].
  - apply bind_Done_inv in E as (r & Er & E). apply u64_inv in Er as [-> _].
    apply bind_Done_inv in E as (ais1 & Et & E). apply transfer_tokens_inv in Et as [-> _].
    apply bind_Done_inv in E as (r & Er & E). apply fx_from_int_inv in Er as ->.
    apply bind_Done_inv in E as (d & Ed & E). apply fx_add_inv in Ed as ->. injection E as <- <-.
    rewrite Z.max_r by lia. rewrite (proj2 (Z.ltb_lt _ _)) by lia. split; [unfold fx_int; lia|done].
  - injection E as <- <-. rewrite Z.max_l by lia. split; [unfold fx_int; lia|done].
Qed.

Lemma loan_fees_inv b native ty rate change lo sw d : 0 <= bk_flash_loan_approved_amount b ->
  loan_fees b native ty rate change = Done (lo, sw, d) ->
  d = change - lo - sw /\ (ty <> FlashLoanSwap \/ 0 <= change -> sw = 0) /\
  lo = Z.max 0 (fx_int (bk_flash_loan_approved_amount b) - Z.max 0 native) * bk_loan_origination_fee_rate b / fx_scale.
Proof.
  unfold loan_fees. intros Ha E. apply bind_Done_inv in E as (a & Ea & E). apply fx_from_int_inv in Ea as ->.
  apply bind_Done_inv in E as (l & El & E). apply bind_Done_inv in E as (f & Ef & E). apply fx_mul_inv in Ef as ->.
  apply bind_Done_inv in E as (s & Es & E). apply bind_Done_inv in E as (d1 & Ed & E). apply fx_sub_inv in Ed as ->.
  apply bind_Done_inv in E as (d2 & Ed & E). apply fx_sub_inv in Ed as ->. injection E as <- <- <-.
  pose proof scale_pos. assert (0 <= fx_int (bk_flash_loan_approved_amount b)) by (unfold fx_int; nia). split_and!; [done|..].
  - intros Hs. replace (_ && _) with false in Es; [by injection Es as <-|]. symmetry. apply andb_false_iff.
    destruct Hs as [Hs|Hs]; [right; by apply bool_decide_eq_false|left; lia].
  - do 2 f_equal. destruct (Z.ltb_spec 0 native); [|injection El as <-; lia].
    apply bind_Done_inv in El as (x & Ex & El). apply fx_sub_inv in Ex as ->. injection El as <-. lia.
Qed.

(** A position changed by [d] without a loan fee. *)
Definition changed (b : Bank) (p : TokenPosition) (d : Z) (b' : Bank) (p' : TokenPosition) (active : bool) : Prop :=
  if 0 <=? d then deposited b p d (negb (Token.is_in_use p)) b' p' active
  else exists r, withdrawn b p (- d) false (negb (Token.is_in_use p)) b' p' r /\ active = wr_position_is_active r.

Lemma change_without_fee_inv b p d now b' p' active : indexes_ok b -> 0 <= bk_loan_origination_fee_rate b ->
  change_without_fee b p d now = Done (b', p', active) -> changed b p d b' p' active.
Proof.
  intros HI HR E. unfold change_without_fee in E. unfold changed. destruct (0 <=? d).
  - by eapply deposit_internal_wrapper_spec.
  - apply bind_Done_inv in E as (n & En & E). apply fx_neg_inv in En as ->.
    unfold withdraw_without_fee in E. apply bind_Done_inv in E as ([[b1 p1] r] & Ew & E). injection E as <- <- <-.
    exists r. split; [|done]. by eapply withdraw_internal_wrapper_spec.
Qed.

Lemma book_change_inv b p ty rate change price now b' p' active : indexes_ok b -> 0 <= bk_loan_origination_fee_rate b ->
  0 <= bk_flash_loan_approved_amount b ->
  book_change b p ty rate change price now = Done (b', p', active) ->
  exists lo sw b1,
    lo = Z.max 0 (fx_int (bk_flash_loan_approved_amount b) - Z.max 0 (value b p)) * bk_loan_origination_fee_rate b / fx_scale /\
    (ty <> FlashLoanSwap \/ 0 <= change -> sw = 0) /\
    changed (set_bk_collected_fees_native b (bk_collected_fees_native b + lo + sw)) p (change - lo - sw) b1 p' active /\
    b' = on_loan b1 0 U64_MAX.
Proof.
  intros HI HR HA E. unfold book_change in E. apply bind_Done_inv in E as (nat & En & E). apply native_value in En as ->.
  apply bind_Done_inv in E as ([[lo sw] d] & Ef & E). apply loan_fees_inv in Ef as (-> & Hsw & Hlo); [|done].
  apply bind_Done_inv in E as (c1 & Ec & E). apply fx_add_inv in Ec as ->.
  apply bind_Done_inv in E as (c2 & Ec & E). apply fx_add_inv in Ec as ->.
  apply bind_Done_inv in E as (na & _ & E). apply bind_Done_inv in E as (u1 & _ & E).
  apply bind_Done_inv in E as ([[b1 p1] act] & Eb & E). apply bind_Done_inv in E as (u2 & _ & E). injection E as <- <- <-.
  exists lo, sw, b1. split_and!; try done. eapply change_without_fee_inv; [|done|exact Eb]. by destruct HI; constructor.
Qed.

(** C19: What is missing from the vault is booked on the account. Begin a loan of [amount]
    from a bank whose vault holds [v], into a token account that holds [t]; let the token
    account hold [t1] and the vault [v1] when the loan ends. The begin moves [amount] out of
    the vault; the end moves back what [t1] has above [t], the position of the account
    changes by that less [amount] and the fees, which the bank collects, and the bank is
    free for the next loan. The origination fee is the bank's rate on what the account
    borrows beyond its deposit, and only a swap pays a fee on what it took. *)
Theorem flash_loan_settles g n ais seen i amount ais0 seen0 b kb kv v kt t ais1 v1 t1 ais2 change p ty rate price now b' p' active :
  0 <= amount -> indexes_ok b -> 0 <= bk_loan_origination_fee_rate b ->
  ais !! i = Some (kb, ABank b) -> ais !! (n + i)%nat = Some (kv, AToken v) -> ais !! (2 * n + i)%nat = Some (kt, AToken t) ->
  begin_loan g n (ais, seen) (i, amount) = Done (ais0, seen0) ->
  repay_loan (on_loan b amount (ta_amount t)) ais1 (kv, AToken v1) (kt, AToken t1) = Done (ais2, change) ->
  book_change (on_loan b amount (ta_amount t)) p ty rate change price now = Done (b', p', active) ->
  let lent := write_account kb (ABank (on_loan b amount (ta_amount t))) ais in
  let repay := Z.max 0 (ta_amount t1 - ta_amount t) in
  ais0 = (if 0 <? amount then moved_tokens lent kv kt v t amount else lent) /\ amount <= Z.max 0 (ta_amount v) /\
  ais2 = (if 0 <? repay then moved_tokens ais1 kt kv t1 v1 repay else ais1) /\
  exists lo sw b1,
    lo = Z.max 0 (fx_int amount - Z.max 0 (value b p)) * bk_loan_origination_fee_rate b / fx_scale /\
    (ty <> FlashLoanSwap \/ amount <= repay -> sw = 0) /\
    changed (set_bk_collected_fees_native (on_loan b amount (ta_amount t)) (bk_collected_fees_native b + lo + sw)) p
      (fx_int (repay - amount) - lo - sw) b1 p' active /\
    b' = on_loan b1 0 U64_MAX.
Proof.
  intros HA HI HR Lb Lv Lt Eb Er Ec. pose proof scale_pos.
  apply begin_loan_inv in Eb as (kb' & b0 & kv' & v' & kt' & t' & Lb' & Lv' & Lt' & _ & _ & _ & _ & _ & _ & _ & Hv & Hais); [|done].
  rewrite Lb in Lb'. rewrite Lv in Lv'. rewrite Lt in Lt'. injection Lb' as <- <-. injection Lv' as <- <-. injection Lt' as <- <-.
  apply repay_loan_inv in Er as [-> ->].
  apply book_change_inv in Ec as (lo & sw & b1 & Hlo & Hsw & Hc & ->); [|by destruct HI; constructor|done|done].
  split_and!; try done. exists lo, sw, b1. split_and!; try done. intros [Hs|Hs]; apply Hsw; [by left|right].
  simpl in *. unfold fx_int. nia.
Qed.

(** The end of a flash loan keeps the account healthy: it succeeds only for the owner
    or a delegate of an account that is not being liquidated, when every vault has a bank
    among the health accounts and a swap has exactly two changes, and only if the init
    health afterwards is not negative or did not fall. *)
Theorem flash_loan_end_healthy account owner remaining n ty clock account' ais' :
  flash_loan_end account owner remaining n ty clock = Done (account', ais') ->
  Fixed.is_owner_or_delegate (ma_fixed account) (clock_ts clock) owner = true /\
  Fixed.being_liquidated (ma_fixed account') = false /\
  exists s pre post cache cache',
    repay_banks (af_group (ma_fixed account)) (length remaining - 2 * n - 1) n (length remaining - 2 * n - 1) 0
      (mkRepayState account remaining [] (replicate n false) f_zero) = Done s /\
    Forall (eq true) (rs_vaults_with_banks s) /\ (ty <> FlashLoanUnknown -> length (rs_changes s) = 2%nat) /\
    health cache Init = Done pre /\ health cache' Init = Done post /\ health_kept pre post.
Proof.
  unfold flash_loan_end. intros E.
  apply bind_Done_inv in E as (u1 & _ & E). apply bind_Done_inv in E as (u2 & _ & E).
  apply bind_Done_inv in E as (u3 & E3 & E). apply require_inv in E3.
  apply bind_Done_inv in E as (gai & _ & E). apply bind_Done_inv in E as (u4 & _ & E). apply bind_Done_inv in E as (u5 & _ & E).
  apply bind_Done_inv in E as (s & Es & E). apply bind_Done_inv in E as (u6 & E6 & E). apply require_inv in E6.
  apply bind_Done_inv in E as (u7 & E7 & E). apply bind_Done_inv in E as ([r c] & _ & E).
  apply bind_Done_inv in E as ([a1 pre] & Epre & E). apply check_health_pre_flag in Epre as (Hf & Hpre & _ & _).
  apply bind_Done_inv in E as (ps & _ & E). apply bind_Done_inv in E as ([[a2 ais2] de] & Eb & E).
  apply bind_Done_inv in E as ([r2 c2] & _ & E). apply bind_Done_inv in E as (post & Epost & E).
  apply bind_Done_inv in E as (a3 & Ed & E). injection E as <- <-.
  unfold Account.check_health_post in Epost. apply bind_Done_inv in Epost as (post1 & Hpost & Epost).
  apply bind_Done_inv in Epost as ([] & Ek & Epost). injection Epost as ->. apply check_health_post_checks_kept in Ek.
  assert (Hfix : ma_fixed a2 = ma_fixed a1).
  { eapply (foldM_ind (fun st => ma_fixed (fst (fst st)) = ma_fixed a1)) in Eb; [exact Eb|done|].
    intros [[x1 x2] x3] [ch pr] [[y1 y2] y3] _ Hx Ex. unfold book_loan in Ex.
    do 3 (apply bind_Done_inv in Ex as (? & _ & Ex)). apply bind_Done_inv in Ex as ([[bb pp] act] & _ & Ex). by injection Ex as <- <- <-. }
  assert (Hfix' : ma_fixed a3 = ma_fixed a2).
  { eapply (foldM_ind (fun x => ma_fixed x = ma_fixed a2)) in Ed; [exact Ed|done|].
    intros x i y _ Hx Ex. by rewrite <- Hx, (deactivate_fixed true x i y Ex). }
  split; [done|]. split; [by rewrite Hfix', Hfix|]. exists s, pre, post, c, c2. split_and!; try done.
  - apply Forall_forall. intros x Hx. symmetry. rewrite forallb_forall in E6. apply (E6 x). by apply list_elem_of_In.
  - intros Ht. unfold check_loan_type in E7. destruct ty; [done|..]; by apply require_inv, Nat.eqb_eq in E7.
Qed.

End spec.

(** ** A concrete loan

    An account with a deposit of 100 borrows 60 from the vault and ends the loan with 33
    of them left in its wallet. *)
Definition loan_account : MangoAccount :=
  liqee_account <| ma_tokens := [position_of 0 (fx_int 100); Token.default] |>.
Definition loan_bank : Bank := (asset_bank_0 <| bk_vault := 50 |>) <| bk_mint := 3 |>.
Definition loan_vault (n : Z) : TokenAccount := mkTokenAccount 3 1 n.
Definition loan_wallet (n : Z) : TokenAccount := mkTokenAccount 3 9 n.
Definition loan_group : AccountInfo := (1, AGroup (sample_group <| gr_ix_gate := 0 |>)).
Definition begin_ais : list AccountInfo :=
  [(20, ABank loan_bank); (50, AToken (loan_vault 5000)); (51, AToken (loan_wallet 7)); loan_group].
Definition end_ais : list AccountInfo :=
  [(20, ABank (on_loan loan_bank 60 7)); (4, AOracle (stub fx_one)); (50, AToken (loan_vault 4940)); (51, AToken (loan_wallet 40));
   loan_group].
Definition loan_tx : Transaction :=
  mkTransaction [mkTxInstruction mango_id [] []; mkTxInstruction jupiter_mainnet_6 [51] [];
    mkTxInstruction mango_id [31; 20; 4; 50; 51; 1] ([1; 2; 3; 4; 5; 6; 7; 8] ++ [1])] 0.

(** The witness of C12: the begin. *)
Lemma flash_loan_begin_followed_by_end_witness :
  exists ais, @flash_loan_begin token_ref 77 [1; 2; 3; 4; 5; 6; 7; 8] mango_id 31 loan_account 9 loan_tx begin_ais [60] 1000 = Done ais /\
    Fixed.is_owner_or_delegate (ma_fixed loan_account) 1000 9 = true.
Proof.
  destruct (@flash_loan_begin token_ref 77 [1; 2; 3; 4; 5; 6; 7; 8] mango_id 31 loan_account 9 loan_tx begin_ais [60] 1000)
    as [ais| | |] eqn:E; [|vm_compute in E; discriminate E..].
  exists ais. refine (conj eq_refl _).
  destruct (@flash_loan_begin_followed_by_end token_ref 77 [1; 2; 3; 4; 5; 6; 7; 8] mango_id 31 loan_account 9 loan_tx
    begin_ais [60] 1000 ais E) as [Ho _].
  exact Ho.
Defined.

(** The witness of C19: 33 go back to the vault and 27 are booked. *)
Lemma flash_loan_settles_witness :
  exists ais0 seen0 ais2 change b' p' active,
    @begin_loan token_ref 1 1 (begin_ais, []) (0%nat, 60) = Done (ais0, seen0) /\
    @repay_loan fixed_ref token_ref (on_loan loan_bank 60 7) end_ais (50, AToken (loan_vault 4940)) (51, AToken (loan_wallet 40))
      = Done (ais2, change) /\
    @book_change fixed_ref (on_loan loan_bank 60 7) (position_of 0 (fx_int 100)) FlashLoanUnknown f_zero change fx_one 1000
      = Done (b', p', active) /\
    ais2 = moved_tokens end_ais 51 50 (loan_wallet 40) (loan_vault 4940) 33.
Proof.
  destruct (@begin_loan token_ref 1 1 (begin_ais, []) (0%nat, 60)) as [[ais0 seen0]| | |] eqn:Eb; [|vm_compute in Eb; discriminate Eb..].
  destruct (@repay_loan fixed_ref token_ref (on_loan loan_bank 60 7) end_ais (50, AToken (loan_vault 4940)) (51, AToken (loan_wallet 40)))
    as [[ais2 change]| | |] eqn:Er; [|vm_compute in Er; discriminate Er..].
  destruct (@book_change fixed_ref (on_loan loan_bank 60 7) (position_of 0 (fx_int 100)) FlashLoanUnknown f_zero change fx_one 1000)
    as [[[b' p'] active]| | |] eqn:Ec;
    [|vm_compute in Er; injection Er as <- <-; vm_compute in Ec; discriminate Ec..].
  exists ais0, seen0, ais2, change, b', p', active. refine (conj eq_refl (conj eq_refl (conj Ec _))).
  destruct (@flash_loan_settles fixed_ref fixed_ref_laws token_ref token_ref_laws 1 1 begin_ais [] 0 60 ais0 seen0 loan_bank 20 50
    (loan_vault 5000) 51 (loan_wallet 7) end_ais (loan_vault 4940) (loan_wallet 40) ais2 change (position_of 0 (fx_int 100))
    FlashLoanUnknown f_zero fx_one 1000 b' p' active) as (_ & _ & Ha & _);
    [lia|split; reflexivity|vm_compute; congruence|reflexivity..|exact Eb|exact Er|exact Ec|].
  exact Ha.
Defined.

(** A concrete instance: the end. *)
Lemma flash_loan_end_healthy_witness :
  exists a ais, @flash_loan_end fixed_ref token_ref loan_account 9 end_ais 1 FlashLoanUnknown withdraw_clock = Done (a, ais) /\
    Fixed.being_liquidated (ma_fixed a) = false.
Proof.
  destruct (@flash_loan_end fixed_ref token_ref loan_account 9 end_ais 1 FlashLoanUnknown withdraw_clock)
    as [[a ais]| | |] eqn:E; [|vm_compute in E; discriminate E..].
  exists a, ais. refine (conj eq_refl _).
  destruct (@flash_loan_end_healthy fixed_ref fixed_ref_laws token_ref loan_account 9 end_ais 1 FlashLoanUnknown withdraw_clock a ais E)
    as (_ & Hf & _).
  exact Hf.
Defined.
