(* ===== verification/ForceInstructions.v ===== *)
(** * Forced closes and withdrawals

    instructions/token_force_close_borrows_with_token.rs and token_force_withdraw.rs with
    the constraints of accounts_ix: how the borrows and then the deposits of a token that
    is being delisted are removed from the accounts. Logs are left out. *)

From stdpp Require Import base numbers option list.
From Stdlib Require Import ZArith Lia SpecFloat.
From S2P Require Import Prelude FixedPoint HealthType TokenPosition Nodes Oracle StablePrice Bank BankSpec Group Serum3 PerpMarket PerpPosition MangoAccount HealthCache AccountRetriever TokenInstructions TokenInstructionsSpec TokenLiquidation TokenLiquidationSpec SwapInstructions SwapSpec.

Open Scope Z_scope.

Section force.
Context `{FixedOps} `{TokenProgram}.

(** ** token_force_close_borrows_with_token *)

(** Account constraints #2 and #3 on the banks, and the fee factors. *)
Definition force_close_factors (asset_bank liab_bank : Bank) : outcome (Z * Z) :=
  _ ← require (BankCfg.is_force_close liab_bank) (EMango TokenInForceClose);
  _ ← require (negb (BankCfg.are_borrows_reduce_only asset_bank)) (EMango TokenInReduceOnlyMode);
  factor_liqor ← fee_factor_liqor asset_bank liab_bank;
  factor_total ← fee_factor_total asset_bank liab_bank;
  w ← fx_mul (bk_init_liab_weight asset_bank) factor_total;
  _ ← require (w <=? bk_init_liab_weight liab_bank) (EMango SomeError);
  Done (factor_liqor, factor_total).

(** The balances must allow a transfer: the liqee owes and the liqor has the liab token. *)
Definition force_close_amount (liqee_liab_native liqor_liab_native max_liab_transfer : Z) : outcome Z :=
  _ ← require (liqee_liab_native <? 0) (EMango SomeError);
  _ ← require (0 <? liqor_liab_native) (EMango SomeError);
  m ← fx_from_int max_liab_transfer;
  n ← fx_neg liqee_liab_native;
  Done (Z.max (Z.min (Z.min m n) liqor_liab_native) 0).

(** What the transfers leave behind: the banks, the accounts and the positions with whether
    they are active. *)
Record ForceClose := mkForceClose {
  fc_asset_bank : Bank;
  fc_liab_bank : Bank;
  fc_liqor : MangoAccount;
  fc_liqee : MangoAccount;
  fc_liqee_asset : nat * bool;
  fc_liqee_liab : nat * bool;
  fc_liqor_asset : nat * bool;
  fc_liqor_liab : nat * bool
}.

Definition force_close_transfers (asset_bank liab_bank : Bank) (asset_token_index liab_token_index : Z)
    (asset_oracle_price liab_oracle_price : Z) (liqor liqee : MangoAccount) (max_liab_transfer now_ts : Z) : outcome ForceClose :=
  '(factor_liqor, factor_total) ← force_close_factors asset_bank liab_bank;
  '(p, liqee_asset_raw_index) ← Account.token_position_and_raw_index liqee asset_token_index;
  _ ← native p asset_bank;
  '(liqee, liqee_liab_raw_index, _) ← Account.ensure_token_position liqee liab_token_index;
  liqee_liab_position ← unwrap (ma_tokens liqee !! liqee_liab_raw_index);
  liqee_liab_native ← native liqee_liab_position liab_bank;
  '(liqor, liqor_liab_raw_index, _) ← Account.ensure_token_position liqor liab_token_index;
  liqor_liab_position ← unwrap (ma_tokens liqor !! liqor_liab_raw_index);
  liqor_liab_native ← native liqor_liab_position liab_bank;
  liab_transfer ← force_close_amount liqee_liab_native liqor_liab_native max_liab_transfer;
  '(to_liqor, from_liqee) ←
    asset_transfer_amounts liab_transfer liab_oracle_price asset_oracle_price factor_liqor factor_total;
  fee ← fx_sub from_liqee to_liqor;
  asset_bank ← collect_liquidation_fee asset_bank fee;
  '(liab_bank, liqee_liab_position, liqee_liab_active) ← deposit_with_dusting liab_bank liqee_liab_position liab_transfer now_ts;
  let liqee := Account.set_token liqee liqee_liab_raw_index liqee_liab_position in
  '(liab_bank, liqor_liab_position, withdraw_result) ← withdraw_with_fee liab_bank liqor_liab_position liab_transfer now_ts;
  let liqor := Account.set_token liqor liqor_liab_raw_index liqor_liab_position in
  _ ← native liqee_liab_position liab_bank;
  '(liqor, liqor_asset_raw_index, _) ← Account.ensure_token_position liqor asset_token_index;
  liqor_asset_position ← unwrap (ma_tokens liqor !! liqor_asset_raw_index);
  '(asset_bank, liqor_asset_position, liqor_asset_active) ← deposit asset_bank liqor_asset_position to_liqor now_ts;
  let liqor := Account.set_token liqor liqor_asset_raw_index liqor_asset_position in
  liqee_asset_position ← unwrap (ma_tokens liqee !! liqee_asset_raw_index);
  '(asset_bank, liqee_asset_position, liqee_asset_active) ←
    withdraw_without_fee_with_dusting asset_bank liqee_asset_position from_liqee now_ts;
  let liqee := Account.set_token liqee liqee_asset_raw_index liqee_asset_position in
  _ ← native liqee_asset_position asset_bank;
  _ ← require (wr_loan_amount withdraw_result =? 0) (EMango SomeError);
  Done (mkForceClose asset_bank liab_bank liqor liqee (liqee_asset_raw_index, liqee_asset_active)
          (liqee_liab_raw_index, liqee_liab_active) (liqor_asset_raw_index, liqor_asset_active)
          (liqor_liab_raw_index, wr_position_is_active withdraw_result)).

Definition token_force_close_borrows_with_token (l : LiqAccounts) (liqor_owner : Pubkey) (remaining : list AccountInfo)
    (clock : Clock) (asset_token_index liab_token_index max_liab_transfer : Z) :
    outcome (LiqAccounts * ScanningAccountRetriever) :=
  let now_ts := clock_ts clock in
  _ ← liq_constraints l IxTokenForceCloseBorrowsWithToken now_ts;
  _ ← require (negb (asset_token_index =? liab_token_index)) (EMango SomeError);
  retriever ← Scanning.new remaining (lq_group_pk l) (clock_slot clock);
  _ ← liqor_checks l liqor_owner now_ts;
  '(ia, (asset_bank, asset_oracle_price), opt) ←
    Scanning.banks_mut_and_oracles (sc_banks_and_oracles retriever) asset_token_index liab_token_index;
  '(il, (liab_bank, liab_oracle_price)) ← unwrap opt;
  t ← force_close_transfers asset_bank liab_bank asset_token_index liab_token_index asset_oracle_price liab_oracle_price
        (lq_liqor l) (lq_liqee l) max_liab_transfer now_ts;
  retriever ← write_banks retriever ia (fc_asset_bank t) il (fc_liab_bank t);
  cache ← new_health_cache (fc_liqee t) retriever now_ts;
  h ← health cache LiquidationEnd;
  let liqee := set_ma_fixed (fc_liqee t) (fst (Fixed.maybe_recover_from_being_liquidated (ma_fixed (fc_liqee t)) h)) in
  liqee ← deactivate_unless (snd (fc_liqee_asset t)) liqee (fst (fc_liqee_asset t));
  liqee ← deactivate_unless (snd (fc_liqee_liab t)) liqee (fst (fc_liqee_liab t));
  liqor ← deactivate_unless (snd (fc_liqor_asset t)) (fc_liqor t) (fst (fc_liqor_asset t));
  liqor ← deactivate_unless (snd (fc_liqor_liab t)) liqor (fst (fc_liqor_liab t));
  liqor_health ← compute_health liqor Init retriever now_ts;
  _ ← require (0 <=? liqor_health) (EMango HealthMustBePositive);
  Done (mkLiqAccounts (lq_group_pk l) (lq_group l) (lq_liqor_pk l) liqor (lq_liqee_pk l) liqee, retriever).

(** ** token_force_withdraw *)

(** The two token accounts that may receive the deposit; the associated one is the address
    that the token program derives for the owner and the mint of the vault. *)
Record ForceWithdrawTargets := mkForceWithdrawTargets {
  fw_owner_ata_pk : Pubkey;
  fw_owner_ata : TokenAccount;
  fw_alternate : TokenAccount
}.

(** [tx_token_account] is not used. The result has the targets, of which one received the
    tokens. *)
Definition token_force_withdraw (get_associated_token_address : Pubkey -> Pubkey -> Pubkey) (vault_mint : Pubkey)
    (t : TokenAccounts) (w : ForceWithdrawTargets) (clock : Clock) : outcome (TokenAccounts * ForceWithdrawTargets) :=
  let now_ts := clock_ts clock in
  let owner := af_owner (ma_fixed (tx_account t)) in
  _ ← token_constraints t IxTokenForceWithdraw clock;
  _ ← require (fw_owner_ata_pk w =? get_associated_token_address owner vault_mint) EConstraint;
  _ ← require (ta_owner (fw_alternate w) =? owner) EConstraint;
  let bank := tx_bank t in
  _ ← require (BankCfg.is_force_withdraw bank) (EMango SomeError);
  let to_ata := ta_owner (fw_owner_ata w) =? owner in
  let withdraw_target := if to_ata then fw_owner_ata w else fw_alternate w in
  '(position, raw_token_index) ← Account.token_position_and_raw_index (tx_account t) (bk_token_index bank);
  native_position ← native position bank;
  _ ← require (0 <=? native_position) ERequireGte;
  f ← fx_floor native_position;
  amount ← fx_to_u64 f;
  amount_i80f48 ← fx_from_int amount;
  '(bank, position, position_is_active) ← withdraw_without_fee bank position amount_i80f48 now_ts;
  let account := Account.set_token (tx_account t) raw_token_index position in
  _ ← require (negb (tx_vault t <? amount)) (EMango InsufficentBankVaultFunds);
  '(vault, target) ← token_transfer (tx_vault t) (ta_amount withdraw_target) amount;
  unsafe_oracle_state ← oracle_state_unchecked (from_reader (tx_oracle t)) (bk_mint_decimals bank);
  usd ← fx_mul amount_i80f48 (os_price unsafe_oracle_state);
  amount_usd ← fx_to_i64 usd;
  account ← change_net_deposits account (- amount_usd);
  account ← deactivate_unless position_is_active account raw_token_index;
  _ ← enforce_borrows_lte_deposits bank;
  let paid := mkTokenAccount (ta_mint withdraw_target) (ta_owner withdraw_target) target in
  Done (((t <| tx_account := account |>) <| tx_bank := bank |>) <| tx_vault := vault |>,
        if to_ata then mkForceWithdrawTargets (fw_owner_ata_pk w) paid (fw_alternate w)
        else mkForceWithdrawTargets (fw_owner_ata_pk w) (fw_owner_ata w) paid).

End force.

(** ** Specification of the forced closes and withdrawals *)

Section spec.
Context `{FixedLaws} `{TokenLaws}.

Lemma force_close_factors_inv ab lb fl ft : force_close_factors ab lb = Done (fl, ft) ->
  BankCfg.is_force_close lb = true /\ BankCfg.are_borrows_reduce_only ab = false /\
  fee_factor_liqor ab lb = Done fl /\ fee_factor_total ab lb = Done ft /\
  bk_init_liab_weight ab * ft / fx_scale <= bk_init_liab_weight lb.
Proof.
  unfold force_close_factors. intros E. apply bind_Done_inv in E as (u1 & E1 & E). apply require_inv in E1.
  apply bind_Done_inv in E as (u2 & E2 & E). apply require_inv, negb_true_iff in E2.
  apply bind_Done_inv in E as (fl' & El & E). apply bind_Done_inv in E as (ft' & Et & E).
  apply bind_Done_inv in E as (w & Ew & E). apply fx_mul_inv in Ew as ->.
  apply bind_Done_inv in E as (u3 & E3 & E). apply require_inv, Z.leb_le in E3. by injection E as <- <-.
Qed.

Lemma force_close_amount_inv ln on m x : force_close_amount ln on m = Done x ->
  ln < 0 /\ 0 < on /\ x = Z.max (Z.min (Z.min (fx_int m) (- ln)) on) 0.
Proof.
  unfold force_close_amount. intros E. apply bind_Done_inv in E as (u1 & E1 & E). apply require_inv, Z.ltb_lt in E1.
  apply bind_Done_inv in E as (u2 & E2 & E). apply require_inv, Z.ltb_lt in E2.
  apply bind_Done_inv in E as (n & En & E). apply fx_from_int_inv in En as ->.
  apply bind_Done_inv in E as (k & Ek & E). apply fx_neg_inv in Ek as ->. by injection E as <-.
Qed.

(** What a forced close did to the banks and the token positions [ts] of the liqee and [us]
    of the liqor. The liab position of the liqee, a borrow, gets [x] from a deposit of the
    liqor, which covers it; the liqee pays [from] of the asset, of which the liqor gets [to]
    and the asset bank the rest. The liqee's positions are [ts1] before, and [ts'] after,
    those that are neither active nor in use are marked unused. *)
Definition force_closed (ai li : Z) (ab lb : Bank) (m ap lp : Z) (ts us : list TokenPosition) (ab' lb' : Bank)
    (ts1 ts' us' : list TokenPosition) : Prop :=
  exists jl pl pl' ja pa pa' kl ql ql' ka qa qa' x fl ft to from lb1 ab1 pl_act r qa_act r',
    ts !! jl = Some pl /\ tp_token_index pl = li /\ ts !! ja = Some pa /\ tp_token_index pa = ai /\
    us !! kl = Some ql /\ tp_token_index ql = li /\ taken (<[kl := ql']> us) ai ka qa /\
    value lb pl < 0 /\ 0 < value lb ql /\ x = Z.max (Z.min (Z.min (fx_int m) (- value lb pl)) (value lb ql)) 0 /\
    fee_factor_liqor ab lb = Done fl /\ fee_factor_total ab lb = Done ft /\
    asset_transfer_amounts x lp ap fl ft = Done (to, from) /\
    deposited lb pl x true lb1 pl' pl_act /\
    withdrawn lb1 ql x true (negb (Token.is_in_use ql)) lb' ql' r /\ wr_loan_amount r = 0 /\
    deposited ((ab <| bk_collected_fees_native := bk_collected_fees_native ab + (from - to) |>)
                 <| bk_collected_liquidation_fees := bk_collected_liquidation_fees ab + (from - to) |>)
      qa to (negb (Token.is_in_use qa)) ab1 qa' qa_act /\
    withdrawn ab1 pa from false true ab' pa' r' /\
    ts1 = <[ja := pa']> (<[jl := pl']> ts) /\
    ts' = tidy (pl_act || Token.is_in_use pl') jl (tidy (wr_position_is_active r' || Token.is_in_use pa') ja ts1) /\
    us' = tidy (wr_position_is_active r) kl (tidy qa_act ka (<[ka := qa']> (<[kl := ql']> us))).

(** A slot taken for a token in which the account has a balance held that token before. *)
Lemma taken_balance b ts ti i q : taken ts ti i q -> value b q <> 0 -> ts !! i = Some q /\ tp_token_index q = ti.
Proof.
  intros (p & Hp & Hq) Hv. destruct (Token.is_active_for_token p ti) eqn:Et.
  - subst q. split; [done|]. by apply Z.eqb_eq.
  - destruct Hq as [_ ->]. by destruct Hv.
Qed.

Lemma force_close_transfers_inv ab lb ai li ap lp liqor liqee m now t ts' us' :
  ai <> li ->
  indexes_ok ab -> 0 <= bk_loan_origination_fee_rate ab -> indexes_ok lb -> 0 <= bk_loan_origination_fee_rate lb ->
  force_close_transfers ab lb ai li ap lp liqor liqee m now = Done t ->
  ts' = tidy (snd (fc_liqee_liab t)) (fst (fc_liqee_liab t)) (tidy (snd (fc_liqee_asset t)) (fst (fc_liqee_asset t)) (ma_tokens (fc_liqee t))) ->
  us' = tidy (snd (fc_liqor_liab t)) (fst (fc_liqor_liab t)) (tidy (snd (fc_liqor_asset t)) (fst (fc_liqor_asset t)) (ma_tokens (fc_liqor t))) ->
  BankCfg.is_force_close lb = true /\ BankCfg.are_borrows_reduce_only ab = false /\
  force_closed ai li ab lb m ap lp (ma_tokens liqee) (ma_tokens liqor) (fc_asset_bank t) (fc_liab_bank t)
    (ma_tokens (fc_liqee t)) ts' us' /\
  fc_liqee t = set_ma_tokens liqee (ma_tokens (fc_liqee t)).
Proof.
  intros Hne Ia Ra Il Rl E -> ->. unfold force_close_transfers in E.
  apply bind_Done_inv in E as ([fl ft] & Ef & E). apply force_close_factors_inv in Ef as (F1 & F2 & F3 & F4 & _).
  apply bind_Done_inv in E as ([p0 i0] & Ep0 & E). apply token_position_inv in Ep0 as [L0 T0]. apply bind_Done_inv in E as (n0 & _ & E).
  apply bind_Done_inv in E as ([[liqee1 i1] k1] & E1 & E). apply ensure_taken in E1 as (pl0 & K1 & -> & Lpl).
  apply bind_Done_inv in E as (pl & Epl & E). apply unwrap_inv in Epl. rewrite Lpl in Epl. injection Epl as ->. apply bind_Done_inv in E as (ln & Eln & E). apply native_value in Eln as ->.
  apply bind_Done_inv in E as ([[liqor1 i2] k2] & E2 & E). apply ensure_taken in E2 as (ql0 & K2 & -> & Lql).
  apply bind_Done_inv in E as (ql & Eql & E). apply unwrap_inv in Eql. rewrite Lql in Eql. injection Eql as ->. apply bind_Done_inv in E as (on & Eon & E). apply native_value in Eon as ->.
  apply bind_Done_inv in E as (x & Ex & E). apply force_close_amount_inv in Ex as (X1 & X2 & X3).
  apply (taken_balance lb) in K1 as [K1 Tl]; [|lia]. apply (taken_balance lb) in K2 as [K2 Tq]; [|lia].
  apply bind_Done_inv in E as ([to from] & Eam & E). apply bind_Done_inv in E as (fee & Efee & E). apply fx_sub_inv in Efee as ->.
  apply bind_Done_inv in E as (ab0 & Eab & E). unfold collect_liquidation_fee in Eab.
  apply bind_Done_inv in Eab as (c1 & Ec1 & Eab). apply fx_add_inv in Ec1 as ->.
  apply bind_Done_inv in Eab as (c2 & Ec2 & Eab). apply fx_add_inv in Ec2 as ->. injection Eab as <-.
  apply bind_Done_inv in E as ([[lb1 pl'] act1] & Ed & E). unfold deposit_with_dusting in Ed.
  apply bind_Done_inv in Ed as ([[lb1' pl1] nd] & Ed & Ed'). injection Ed' as <- <- <-.
  pose proof (deposit_internal_wrapper_spec _ _ _ _ _ _ _ _ Il Ed) as D.
  assert (HI1 : indexes_ok lb1') by (eapply moved_indexes; [apply D|done]).
  assert (HR1 : bk_loan_origination_fee_rate lb1' = bk_loan_origination_fee_rate lb) by (by eapply touched_rate, deposit_touched).
  apply bind_Done_inv in E as ([[lb2 ql'] r] & Ew & E).
  pose proof (withdraw_internal_wrapper_spec _ _ _ _ _ _ _ _ _ HI1 ltac:(lia) Ew) as W.
  apply bind_Done_inv in E as (n1 & _ & E).
  apply bind_Done_inv in E as ([[liqor2 i3] k3] & E3 & E). rewrite set_token_twice in E3. apply ensure_taken in E3 as (qa0 & K3 & -> & Lqa).
  apply bind_Done_inv in E as (qa & Eqa & E). apply unwrap_inv in Eqa. rewrite Lqa in Eqa. injection Eqa as ->. apply bind_Done_inv in E as ([[ab1 qa'] act2] & Ed2 & E).
  assert (Ia' : indexes_ok ((ab <| bk_collected_fees_native := bk_collected_fees_native ab + (from - to) |>)
                 <| bk_collected_liquidation_fees := bk_collected_liquidation_fees ab + (from - to) |>)) by (by destruct Ia; constructor).
  pose proof (deposit_internal_wrapper_spec _ _ _ _ _ _ _ _ Ia' Ed2) as D2.
  assert (HI2 : indexes_ok ab1) by (eapply moved_indexes; [apply D2|done]).
  assert (HR2 : bk_loan_origination_fee_rate ab1 = bk_loan_origination_fee_rate ab) by (by apply deposit_touched, touched_rate in Ed2).
  apply bind_Done_inv in E as (pa & Epa & E). apply unwrap_inv in Epa. rewrite set_token_twice in Epa. simpl in Epa.
  rewrite list_lookup_insert_ne in Epa by congruence. rewrite L0 in Epa. injection Epa as ->. apply bind_Done_inv in E as ([[ab2 pa'] act3] & Ew2 & E).
  unfold withdraw_without_fee_with_dusting in Ew2. apply bind_Done_inv in Ew2 as ([[ab3 pa3] r2] & Ew2 & Ew2'). injection Ew2' as <- <- <-.
  pose proof (withdraw_internal_wrapper_spec _ _ _ _ _ _ _ _ _ HI2 ltac:(lia) Ew2) as W2.
  apply bind_Done_inv in E as (n2 & _ & E). apply bind_Done_inv in E as (u & Eu & E). apply require_inv, Z.eqb_eq in Eu.
  injection E as <-. simpl. rewrite !list_insert_insert_eq. split_and!; try done; [|by rewrite set_token_twice].
  exists i1, pl, pl1, i0, pa, pa3, i2, ql, ql', i3, qa, qa', x, fl, ft, to, from, lb1', ab1, nd, r, act2, r2. by split_and!.
Qed.

Lemma recover_flag_iff f h :
  Fixed.being_liquidated (fst (Fixed.maybe_recover_from_being_liquidated f h)) = true <->
  Fixed.being_liquidated f = true /\ h <= - fx_one.
Proof.
  unfold Fixed.maybe_recover_from_being_liquidated. destruct (Fixed.being_liquidated f) eqn:Hb; simpl; [|rewrite Hb; naive_solver].
  destruct (Z.ltb_spec (- fx_one) h); simpl; [|by rewrite Hb]. split; [done|lia].
Qed.

(** C35: A forced close is safe. It takes two different tokens and accounts, an enabled
    instruction, a liqor that is signed for and not being liquidated, a liab token in force
    close and an asset token that allows borrows. No more of the liability is transferred
    than the liqee owes, the liqor has deposited and was asked for, so that the liqor
    borrows nothing; the liqee pays for it at the oracle prices and fees, also beyond its
    deposits of the asset. Both accounts hold the positions that the banks' operations give,
    and the retriever the new banks; the liqee's flag afterwards is up only if it was and
    its liquidation-end health is at -1 or lower; and the liqor's init health is not
    negative. The banks have positive indexes and loan fee rates that are not negative. *)
Theorem token_force_close_safe l owner ais clock ai li m l' r' :
  banks_ok ais -> token_force_close_borrows_with_token l owner ais clock ai li m = Done (l', r') ->
  ai <> li /\ lq_liqor_pk l <> lq_liqee_pk l /\
  GroupCfg.is_ix_enabled (lq_group l) IxTokenForceCloseBorrowsWithToken = true /\
  Fixed.is_owner_or_delegate (ma_fixed (lq_liqor l)) (clock_ts clock) owner = true /\
  Fixed.being_liquidated (ma_fixed (lq_liqor l)) = false /\
  (exists hl, compute_health (lq_liqor l') Init r' (clock_ts clock) = Done hl /\ 0 <= hl) /\
  exists r ia il ab ap lb lp ab' lb' ka kl ts1 c h,
    Scanning.new ais (lq_group_pk l) (clock_slot clock) = Done r /\
    sb_index_map (sc_banks_and_oracles r) !! ai = Some ia /\ sb_index_map (sc_banks_and_oracles r) !! li = Some il /\
    Scanning.bank_at (sc_banks_and_oracles r) ia = Done (ab, ap) /\ Scanning.bank_at (sc_banks_and_oracles r) il = Done (lb, lp) /\
    BankCfg.is_force_close lb = true /\ BankCfg.are_borrows_reduce_only ab = false /\
    force_closed ai li ab lb m ap lp (ma_tokens (lq_liqee l)) (ma_tokens (lq_liqor l)) ab' lb' ts1
      (ma_tokens (lq_liqee l')) (ma_tokens (lq_liqor l')) /\
    sb_banks (sc_banks_and_oracles r')
      = <[il := (kl, ABank lb')]> (<[ia := (ka, ABank ab')]> (sb_banks (sc_banks_and_oracles r))) /\
    new_health_cache (set_ma_tokens (lq_liqee l) ts1) r' (clock_ts clock) = Done c /\ health c LiquidationEnd = Done h /\
    (Fixed.being_liquidated (ma_fixed (lq_liqee l')) = true <->
     Fixed.being_liquidated (ma_fixed (lq_liqee l)) = true /\ h <= - fx_one).
Proof.
  intros HB E. unfold token_force_close_borrows_with_token in E.
  apply bind_Done_inv in E as (u1 & C1 & E). apply bind_Done_inv in E as (u2 & C2 & E).
  apply require_inv, negb_true_iff, Z.eqb_neq in C2. apply bind_Done_inv in E as (r & Er & E).
  apply bind_Done_inv in E as (u3 & C3 & E). apply liqor_checks_inv in C3 as (Hk & Ho & Hf).
  unfold liq_constraints in C1. apply bind_Done_inv in C1 as (u5 & C1 & _). apply require_inv in C1.
  apply bind_Done_inv in E as ([[ia [ab ap]] opt] & Eb & E). apply bind_Done_inv in E as ([il [lb lp]] & Eo & E).
  apply unwrap_inv in Eo as ->. apply banks_mut_inv in Eb as (_ & Ma & Ml & Ba & Bl).
  destruct (scanned_bank_ok _ _ _ _ _ _ _ HB Er Ba) as [HIa HRa]. destruct (scanned_bank_ok _ _ _ _ _ _ _ HB Er Bl) as [HIl HRl].
  apply bind_Done_inv in E as (t & Et & E).
  apply bind_Done_inv in E as (r1 & Ew & E). apply write_banks_inv in Ew as (ka & kl & Hb).
  apply bind_Done_inv in E as (c & Ec & E). apply bind_Done_inv in E as (h & Eh & E).
  apply bind_Done_inv in E as (e1 & Ee1 & E). apply bind_Done_inv in E as (e2 & Ee2 & E).
  apply bind_Done_inv in E as (o1 & Eo1 & E). apply bind_Done_inv in E as (o2 & Eo2 & E).
  apply bind_Done_inv in E as (hl & Ehl & E). apply bind_Done_inv in E as (u6 & C6 & E). apply require_inv, Z.leb_le in C6.
  injection E as <- <-. apply deactivate_unless_tidy in Ee1 as ->, Ee2 as ->, Eo1 as ->, Eo2 as ->.
  destruct (force_close_transfers_inv _ _ _ _ _ _ _ _ _ _ _ _ _ C2 HIa HRa HIl HRl Et eq_refl eq_refl) as (T1 & T2 & T3 & T4).
  do 5 (split; [done|]). split; [simpl; eauto|].
  exists r, ia, il, ab, ap, lb, lp, (fc_asset_bank t), (fc_liab_bank t), ka, kl, (ma_tokens (fc_liqee t)), c, h.
  rewrite <- T4. do 11 (split; [done|]). rewrite T4. apply recover_flag_iff.
Qed.

(** The tokens that both targets hold. *)
Definition target_total (w : ForceWithdrawTargets) : Z := ta_amount (fw_owner_ata w) + ta_amount (fw_alternate w).

(** A forced withdrawal pays the owner. Only for a token in forced withdrawal and an
    account with a deposit of it, the whole tokens of the deposit leave the vault, which
    must have them, and arrive in a token account that belongs to the owner of the account;
    the position is debited by just that amount, without a loan fee. *)
Theorem token_force_withdraw_pays_owner ata mint t w clock t' w' :
  indexes_ok (tx_bank t) -> 0 <= bk_loan_origination_fee_rate (tx_bank t) ->
  token_force_withdraw ata mint t w clock = Done (t', w') ->
  GroupCfg.is_ix_enabled (tx_group t) IxTokenForceWithdraw = true /\ BankCfg.is_force_withdraw (tx_bank t) = true /\
  exists p p' r,
    p ∈ ma_tokens (tx_account t) /\ tp_token_index p = bk_token_index (tx_bank t) /\ 0 <= value (tx_bank t) p /\
    let amount := value (tx_bank t) p / fx_scale in
    tx_vault t' = tx_vault t - amount /\ amount <= tx_vault t /\
    target_total w' = target_total w + amount /\
    (if ta_owner (fw_owner_ata w) =? af_owner (ma_fixed (tx_account t)) then fw_alternate w' = fw_alternate w
     else fw_owner_ata w' = fw_owner_ata w /\ ta_owner (fw_alternate w') = af_owner (ma_fixed (tx_account t))) /\
    withdrawn (tx_bank t) p (fx_int amount) false (negb (Token.is_in_use p)) (tx_bank t') p' r.
Proof.
  intros HI HR E. unfold token_force_withdraw in E.
  apply bind_Done_inv in E as (u1 & C1 & E). unfold token_constraints in C1.
  apply bind_Done_inv in C1 as (u2 & C2 & _). apply require_inv in C2.
  apply bind_Done_inv in E as (u3 & _ & E). apply bind_Done_inv in E as (u4 & C4 & E). apply require_inv, Z.eqb_eq in C4.
  apply bind_Done_inv in E as (u5 & C5 & E). apply require_inv in C5.
  apply bind_Done_inv in E as ([p i] & Ep & E). apply token_position_inv in Ep as [Lp Tp].
  apply bind_Done_inv in E as (n & En & E). apply native_value in En as ->.
  apply bind_Done_inv in E as (u6 & C6 & E). apply require_inv, Z.leb_le in C6.
  apply bind_Done_inv in E as (f & Ef & E). apply fx_floor_inv in Ef as ->.
  apply bind_Done_inv in E as (amount & Ea & E). apply fx_to_u64_inv in Ea as [Ha _].
  pose proof scale_pos. unfold fx_int in Ha at 1. rewrite Z.div_mul in Ha by lia.
  apply bind_Done_inv in E as (af & Eaf & E). apply fx_from_int_inv in Eaf as ->.
  apply bind_Done_inv in E as ([[b1 p1] act] & Ew & E). unfold withdraw_without_fee in Ew.
  apply bind_Done_inv in Ew as ([[b2 p2] r] & Ew & Ew'). injection Ew' as <- <- <-.
  apply withdraw_internal_wrapper_spec in Ew; [|done..].
  apply bind_Done_inv in E as (u7 & C7 & E). apply require_inv, negb_true_iff, Z.ltb_ge in C7.
  apply bind_Done_inv in E as ([v tg] & Et & E). apply transfer_inv in Et as (-> & -> & _).
  do 5 (apply bind_Done_inv in E as (? & _ & E)). apply bind_Done_inv in E as (u8 & _ & E). injection E as <- <-.
  split_and!; try done. exists p, p2, r. simpl. subst amount. split_and!; try done.
  - by eapply list_elem_of_lookup_2.
  - unfold target_total. destruct (ta_owner (fw_owner_ata w) =? _); simpl; lia.
  - by destruct (ta_owner (fw_owner_ata w) =? _).
Qed.

End spec.

(** ** Concrete instances *)

Definition closing_bank : Bank := (liab_bank_1 <| bk_force_close := 1 |>) <| bk_init_liab_weight := fx_int 3 |>.
Definition close_ais : list AccountInfo :=
  [(20, ABank asset_bank_0); (21, ABank closing_bank); (4, AOracle (stub fx_one)); (6, AOracle (stub fx_one))].
Definition close_liqor : MangoAccount := liqor_account <| ma_tokens := [position_of 1 (fx_int 500); Token.default; Token.default] |>.
Definition close_accounts : LiqAccounts :=
  mkLiqAccounts 1 (sample_group <| gr_ix_gate := 0 |>) 30 close_liqor 31 liqee_account.

Lemma close_banks_ok : banks_ok close_ais.
Proof.
  intros k b Hin. unfold close_ais in Hin.
  repeat (apply elem_of_cons in Hin as [Hin|Hin]; [first [discriminate Hin | injection Hin as _ ->;
    split; [split; reflexivity|vm_compute; congruence]]|]).
  by apply not_elem_of_nil in Hin.
Qed.

(** The witness of C35: the liqor repays 40 of the 150 that the liqee owes. *)
Lemma token_force_close_safe_witness :
  exists l' r', @token_force_close_borrows_with_token fixed_ref close_accounts 8 close_ais withdraw_clock 0 1 40 = Done (l', r') /\
    Fixed.being_liquidated (ma_fixed (lq_liqor close_accounts)) = false.
Proof.
  destruct (@token_force_close_borrows_with_token fixed_ref close_accounts 8 close_ais withdraw_clock 0 1 40)
    as [[l' r']| | |] eqn:E; [|vm_compute in E; discriminate E..].
  exists l', r'. refine (conj eq_refl _).
  destruct (@token_force_close_safe fixed_ref fixed_ref_laws close_accounts 8 close_ais withdraw_clock 0 1 40
    l' r' close_banks_ok E) as (_ & _ & _ & _ & Hf & _).
  exact Hf.
Defined.

Definition leaving_bank : Bank := (asset_bank_0 <| bk_force_withdraw := 1 |>) <| bk_vault := 50 |>.
Definition leaving : TokenAccounts :=
  mkTokenAccounts 1 (sample_group <| gr_ix_gate := 0 |>) (liqee_account <| ma_tokens := [position_of 0 (fx_int 100)] |>) 20
    leaving_bank 50 5000 (4, stub fx_one) 0 [].
Definition leaving_targets : ForceWithdrawTargets :=
  mkForceWithdrawTargets 60 (mkTokenAccount 2 9 1) (mkTokenAccount 2 9 2).

(** A concrete instance: a deposit of 100 goes to the associated token account. *)
Lemma token_force_withdraw_pays_owner_witness :
  exists t' w', @token_force_withdraw fixed_ref token_ref (fun _ _ => 60) 2 leaving leaving_targets withdraw_clock = Done (t', w') /\
    fw_owner_ata w' = mkTokenAccount 2 9 101 /\ GroupCfg.is_ix_enabled (tx_group leaving) IxTokenForceWithdraw = true.
Proof.
  destruct (@token_force_withdraw fixed_ref token_ref (fun _ _ => 60) 2 leaving leaving_targets withdraw_clock)
    as [[t' w']| | |] eqn:E; [|vm_compute in E; discriminate E..].
  exists t', w'. refine (conj eq_refl (conj _ _)).
  - vm_compute in E. injection E as _ <-. reflexivity.
  - destruct (@token_force_withdraw_pays_owner fixed_ref fixed_ref_laws token_ref token_ref_laws (fun _ _ => 60) 2 leaving
      leaving_targets withdraw_clock t' w') as [Hi _]; [split; reflexivity|vm_compute; congruence|exact E|].
    exact Hi.
Defined.
