(* ===== verification/SerumOrders.v ===== *)
(** * Spot markets and their open orders

    state/serum3_market.rs, the open orders summary of serum3_cpi.rs, and the bookkeeping
    of instructions/serum3_place_order.rs and serum3_settle_funds.rs that follows a call to
    the spot market: how changes of the bank vaults are charged to the token positions,
    when loan origination fees are charged, and which tokens may come back from open
    orders. The spot market is another program and a parameter. Logs are left out. *)

From stdpp Require Import base numbers option list.
From Stdlib Require Import ZArith Lia SpecFloat.
From S2P Require Import Prelude FixedPoint HealthType TokenPosition Nodes Oracle StablePrice Bank Group Serum3 PerpMarket PerpPosition MangoAccount HealthCache AccountRetriever TokenInstructions.

Open Scope Z_scope.

(** ** Data *)

Record Serum3Market := mkSerum3Market {
  s3m_group : Pubkey;
  s3m_base_token_index : Z;
  s3m_quote_token_index : Z;
  s3m_reduce_only : Z;
  s3m_force_close : Z;
  s3m_name : list Z;
  s3m_serum_program : Pubkey;
  s3m_serum_market_external : Pubkey;
  s3m_market_index : Z;
  s3m_bump : Z;
  s3m_oracle_price_band : f32;
  s3m_registration_time : Z
}.

#[export] Instance eta_Serum3Market : Eta Serum3Market := fun m =>
  mkSerum3Market (s3m_group m) (s3m_base_token_index m) (s3m_quote_token_index m) (s3m_reduce_only m) (s3m_force_close m)
    (s3m_name m) (s3m_serum_program m) (s3m_serum_market_external m) (s3m_market_index m) (s3m_bump m)
    (s3m_oracle_price_band m) (s3m_registration_time m).

(** Makes the index of a market unique in its group. *)
Record Serum3MarketIndexReservation := mkSerum3MarketIndexReservation {
  s3r_group : Pubkey;
  s3r_market_index : Z
}.

(** [f32::MAX]. *)
Definition f32_MAX : f32 := S754_finite false 16777215 104.

Module SerumMarket.

Definition is_reduce_only (m : Serum3Market) : bool := s3m_reduce_only m =? 1.

Definition is_force_close (m : Serum3Market) : bool := s3m_force_close m =? 1.

Definition oracle_price_band (m : Serum3Market) : f32 :=
  if SFeqb (s3m_oracle_price_band m) f_zero then f32_MAX else s3m_oracle_price_band m.

End SerumMarket.

Inductive Serum3Side := Serum3Bid | Serum3Ask.
Inductive Serum3SelfTradeBehavior := S3DecrementTake | S3CancelProvide | S3AbortTransaction.
Inductive Serum3OrderType := S3Limit | S3ImmediateOrCancel | S3PostOnly.

(** What the program reads of an open orders account: the amounts, the bits of the free
    slots and of the bids, and the ids of the orders in its 128 slots. *)
Record OpenOrders := mkOpenOrders {
  oo_slim : OpenOrdersSlim;
  oo_free_slot_bits : Z;
  oo_is_bid_bits : Z;
  oo_orders : list Z
}.

(** The slots in use that are bids, and that are asks: [!free & is_bid] and
    [!free & !is_bid] in 128 bits. *)
Definition bid_slots (oo : OpenOrders) : Z := Z.land (U128_MAX - oo_free_slot_bits oo) (oo_is_bid_bits oo).
Definition ask_slots (oo : OpenOrders) : Z := Z.land (U128_MAX - oo_free_slot_bits oo) (U128_MAX - oo_is_bid_bits oo).

(** [NewOrderInstructionV3]; the maximum timestamp is always [i64::MAX]. *)
Record SerumNewOrder := mkSerumNewOrder {
  no_side : Serum3Side;
  no_limit_price : Z;
  no_max_coin_qty : Z;
  no_max_native_pc_qty_including_fees : Z;
  no_self_trade_behavior : Serum3SelfTradeBehavior;
  no_order_type : Serum3OrderType;
  no_client_order_id : Z;
  no_limit : Z
}.

(** ** The spot market program *)

(** The calls: the open orders account afterwards, and the balances of the vaults that
    take part. The rebates of a settlement go to the quote vault. [serum_on_book] is whether
    the bids or asks of the market have an order. *)
Class SerumProgram := {
  serum_place_order : SerumNewOrder -> OpenOrders -> Z -> outcome (OpenOrders * Z);
  serum_cancel_order : Serum3Side -> Z -> OpenOrders -> outcome OpenOrders;
  serum_cancel_order_by_client_id : Z -> OpenOrders -> outcome OpenOrders;
  serum_on_book : Serum3Side -> Z -> bool;
  serum_settle_funds : OpenOrders -> Z -> Z -> outcome (OpenOrders * Z * Z);
  serum_init_open_orders : outcome OpenOrders;
  serum_close_open_orders : OpenOrders -> outcome unit
}.

(** Documented behaviour of a settlement: the free amounts and the rebates go to the
    vaults, and leave the open orders account. *)
Definition settled_slim (s : OpenOrdersSlim) : OpenOrdersSlim :=
  mkOpenOrdersSlim 0 (oos_native_coin_total s - oos_native_coin_free s) 0 (oos_native_pc_total s - oos_native_pc_free s) 0.

Class SerumLaws `{SerumProgram} : Prop := {
  settle_funds_inv oo base quote oo' base' quote' :
    serum_settle_funds oo base quote = Done (oo', base', quote') ->
    oo_slim oo' = settled_slim (oo_slim oo) /\
    base' = base + oos_native_coin_free (oo_slim oo) /\
    quote' = quote + oos_native_pc_free (oo_slim oo) + oos_referrer_rebates_accrued (oo_slim oo)
}.

(** ** Cancelling all orders

    [CancelOrder::cancel_all] of serum3_cpi.rs: the orders to cancel are found before the
    first is cancelled. *)
Section cancel.
Context `{SerumProgram}.

Definition slot_is_free (oo : OpenOrders) (j : nat) : bool := Z.testbit (oo_free_slot_bits oo) (Z.of_nat j).

(** [free_slot_bits.count_zeros()]. *)
Definition taken_slots (oo : OpenOrders) : Z :=
  Z.of_nat (length (List.filter (fun j => negb (slot_is_free oo j)) (seq 0 128))).

(** The loop over the slots, while [limit] is positive. *)
Fixpoint find_cancels (oo : OpenOrders) (slots : list nat) (limit : Z) : list (Serum3Side * Z) :=
  match slots with
  | [] => []
  | j :: slots =>
      if slot_is_free oo j then find_cancels oo slots limit
      else
        let order_id := nth j (oo_orders oo) 0 in
        let side := if Z.testbit (oo_is_bid_bits oo) (Z.of_nat j) then Serum3Bid else Serum3Ask in
        if serum_on_book side order_id then
          (side, order_id) :: (if limit - 1 =? 0 then [] else find_cancels oo slots (limit - 1))
        else find_cancels oo slots limit
  end.

Definition serum_cancel_all (limit : Z) (oo : OpenOrders) : outcome OpenOrders :=
  let limit := Z.min limit (taken_slots oo) in
  if limit =? 0 then Done oo
  else foldM (fun oo '(side, order_id) => serum_cancel_order side order_id oo) oo (find_cancels oo (seq 0 128) limit).

End cancel.

(** ** Changes of open orders and vaults *)

Record OODifference := mkOODifference {
  od_free_base_change : Z;
  od_free_quote_change : Z
}.

Record VaultDifference := mkVaultDifference {
  vd_token_index : Z;
  vd_native_change : Z
}.

Section orders.
Context `{FixedOps}.

Definition oo_difference (before_oo after_oo : OpenOrdersSlim) : outcome OODifference :=
  a ← fx_from_int (oos_native_coin_free after_oo);
  b ← fx_from_int (oos_native_coin_free before_oo);
  base ← fx_sub a b;
  c ← fx_from_int (oos_native_pc_free after_oo);
  d ← fx_from_int (oos_native_pc_free before_oo);
  quote ← fx_sub c d;
  Done (mkOODifference base quote).

Definition recompute_health_cache_serum3_state (d : OODifference) (cache : HealthCache) (serum_account : Serum3Orders)
    (open_orders : OpenOrdersSlim) : outcome HealthCache :=
  recompute_serum3_info cache serum_account open_orders (od_free_base_change d) (od_free_quote_change d).

Definition adjust_health_cache_token_balance (d : VaultDifference) (cache : HealthCache) (bank : Bank) : outcome HealthCache :=
  _ ← assert_ (bk_token_index bank =? vd_token_index d);
  adjust_token_balance cache bank (vd_native_change d).

(** The borrow counter of the side of the market that [bank] is for. *)
Definition add_borrows_without_fee (market : Serum3Orders) (bank : Bank) (new_borrows needed_change : Z) : outcome Serum3Orders :=
  let settle (borrows : Z) : outcome Z :=
    b ← u64 (borrows + new_borrows);
    if 0 <? needed_change then n ← fx_to_u64 needed_change; Done (saturating_sub_u64 b n) else Done b in
  if bk_token_index bank =? s3_base_token_index market then
    b ← settle (s3_base_borrows_without_fee market); Done (market <| s3_base_borrows_without_fee := b |>)
  else if bk_token_index bank =? s3_quote_token_index market then
    b ← settle (s3_quote_borrows_without_fee market); Done (market <| s3_quote_borrows_without_fee := b |>)
  else Fail error_msg.

Definition apply_vault_difference (account : MangoAccount) (serum_market_index : Z) (bank : Bank) (vault_after vault_before now_ts : Z) :
    outcome (MangoAccount * Bank * VaultDifference) :=
  a ← fx_from_int vault_after;
  b ← fx_from_int vault_before;
  needed_change ← fx_sub a b;
  '(position, i) ← Account.token_position_and_raw_index account (bk_token_index bank);
  native_before ← native position bank;
  '(bank, position, _) ←
    (if 0 <=? needed_change then deposit bank position needed_change now_ts
     else n ← fx_neg needed_change; withdraw_without_fee bank position n now_ts);
  native_after ← native position bank;
  native_change ← fx_sub native_after native_before;
  x ← fx_abs (Z.min (Z.max native_change native_after) 0);
  new_borrows ← fx_to_u64 x;
  let account := Account.set_token account i position in
  '(k, market) ← Perp.unwrap_result (Account.serum3_orders account serum_market_index);
  market ← add_borrows_without_fee market bank new_borrows needed_change;
  Done (Account.set_serum3 account k market, bank, mkVaultDifference (bk_token_index bank) native_change).

(** ** Potential tokens *)

Definition potential_base (orders : Serum3Orders) (oo : OpenOrdersSlim) : outcome Z :=
  r ← native_quote_reserved oo;
  u64 (oos_native_coin_total oo + f64_as_u64 (f64_mul (f64_of_Z r) (s3_lowest_placed_bid_inv orders))).

Definition potential_quote (orders : Serum3Orders) (oo : OpenOrdersSlim) : outcome Z :=
  r ← native_base_reserved oo;
  u64 (oos_native_pc_total oo + f64_as_u64 (f64_mul (f64_of_Z r) (s3_highest_placed_ask orders))).

Definition update_bank_potential_tokens_payer_only (orders : Serum3Orders) (payer_bank : Bank) (oo : OpenOrdersSlim) :
    outcome (Serum3Orders * Bank) :=
  if s3_base_token_index orders =? bk_token_index payer_bank then
    new_base ← potential_base orders oo;
    payer_bank ← update_potential_serum_tokens payer_bank (s3_potential_base_tokens orders) new_base;
    Done (orders <| s3_potential_base_tokens := new_base |>, payer_bank)
  else
    _ ← assert_ (s3_quote_token_index orders =? bk_token_index payer_bank);
    new_quote ← potential_quote orders oo;
    payer_bank ← update_potential_serum_tokens payer_bank (s3_potential_quote_tokens orders) new_quote;
    Done (orders <| s3_potential_quote_tokens := new_quote |>, payer_bank).

Definition update_bank_potential_tokens (orders : Serum3Orders) (base_bank quote_bank : Bank) (oo : OpenOrdersSlim) :
    outcome (Serum3Orders * Bank * Bank) :=
  _ ← assert_ (s3_base_token_index orders =? bk_token_index base_bank);
  _ ← assert_ (s3_quote_token_index orders =? bk_token_index quote_bank);
  new_base ← potential_base orders oo;
  new_quote ← potential_quote orders oo;
  base_bank ← update_potential_serum_tokens base_bank (s3_potential_base_tokens orders) new_base;
  quote_bank ← update_potential_serum_tokens quote_bank (s3_potential_quote_tokens orders) new_quote;
  Done ((orders <| s3_potential_base_tokens := new_base |>) <| s3_potential_quote_tokens := new_quote |>, base_bank, quote_bank).

(** ** After a settlement *)

(** The fees of the referrer: the bank collects them and the account accrues them, at the
    value of the quote token, for its buyback. *)
Definition collect_rebates (group : Group) (account : MangoAccount) (quote_bank : Bank) (before_oo after_oo : OpenOrdersSlim)
    (quote_oracle : option (Pubkey * OracleAccount)) (clock : Clock) : outcome (MangoAccount * Bank * Z) :=
  let received_fees := saturating_sub_u64 (oos_referrer_rebates_accrued before_oo) (oos_referrer_rebates_accrued after_oo) in
  f ← fx_from_int received_fees;
  c ← fx_add (bk_collected_fees_native quote_bank) f;
  let quote_bank := set_bk_collected_fees_native quote_bank c in
  account ←
    match quote_oracle with
    | Some oracle =>
        price ← oracle_price quote_bank (from_reader oracle) (Some (clock_slot clock));
        stable ← bank_stable_price quote_bank;
        fixed ← Fixed.expire_buyback_fees (ma_fixed account) (clock_ts clock) (gr_buyback_fees_expiry_interval group);
        fees_in_usd ← fx_mul f (Z.min price stable);
        n ← ClampToInt.clamp_to_u64 fees_in_usd;
        Done (set_ma_fixed account (Fixed.accrue_buyback_fees fixed n))
    | None => Done account
    end;
  Done (account, quote_bank, received_fees).

(** The balances of the two vaults, base and quote. *)
Definition Vaults : Type := Z * Z.

Definition apply_settle_changes (group : Group) (account : MangoAccount) (base_bank quote_bank : Bank) (serum_market : Serum3Market)
    (before_vaults : Vaults) (before_oo : OpenOrdersSlim) (after_vaults : Vaults) (after_oo : OpenOrdersSlim)
    (health_cache : option HealthCache) (fees_to_dao : bool) (quote_oracle : option (Pubkey * OracleAccount)) (clock : Clock) :
    outcome (MangoAccount * Bank * Bank * option HealthCache) :=
  '(account, quote_bank, received_fees) ←
    (if fees_to_dao then collect_rebates group account quote_bank before_oo after_oo quote_oracle clock
     else Done (account, quote_bank, 0));
  after_quote_vault_adjusted ← u64 (snd after_vaults - received_fees);
  _ ← require (fst before_vaults <=? fst after_vaults) ERequireGte;
  _ ← require (snd before_vaults <=? after_quote_vault_adjusted) ERequireGte;
  '(account, base_bank, base_difference) ←
    apply_vault_difference account (s3m_market_index serum_market) base_bank (fst after_vaults) (fst before_vaults) (clock_ts clock);
  '(account, quote_bank, quote_difference) ←
    apply_vault_difference account (s3m_market_index serum_market) quote_bank after_quote_vault_adjusted (snd before_vaults)
      (clock_ts clock);
  '(k, orders) ← Account.serum3_orders account (s3m_market_index serum_market);
  '(orders, base_bank, quote_bank) ← update_bank_potential_tokens orders base_bank quote_bank after_oo;
  let account := Account.set_serum3 account k orders in
  health_cache ←
    match health_cache with
    | Some cache =>
        cache ← adjust_health_cache_token_balance base_difference cache base_bank;
        cache ← adjust_health_cache_token_balance quote_difference cache quote_bank;
        d ← oo_difference before_oo after_oo;
        cache ← recompute_health_cache_serum3_state d cache orders after_oo;
        Done (Some cache)
    | None => Done None
    end;
  Done (account, base_bank, quote_bank, health_cache).

(** ** Loan origination fees *)

(** One side: what was borrowed for orders that are no longer in the open orders account
    is a loan. *)
Definition charge_side (account : MangoAccount) (bank : Bank) (market_index : Z) (is_base : bool) (oo_total : Z)
    (oracle : option (Pubkey * OracleAccount)) (clock : Clock) : outcome (MangoAccount * Bank) :=
  '(k, orders) ← Perp.unwrap_result (Account.serum3_orders account market_index);
  let borrows := if is_base then s3_base_borrows_without_fee orders else s3_quote_borrows_without_fee orders in
  actualized_loan ← fx_from_int (saturating_sub_u64 borrows oo_total);
  if 0 <? actualized_loan then
    let orders := if is_base then orders <| s3_base_borrows_without_fee := oo_total |>
                  else orders <| s3_quote_borrows_without_fee := oo_total |> in
    let account := Account.set_serum3 account k orders in
    '(position, i) ← Account.token_position_and_raw_index account (bk_token_index bank);
    '(bank, position, _) ← withdraw_loan_origination_fee bank position actualized_loan (clock_ts clock);
    _ ← match oracle with
        | Some o => oracle_price bank (from_reader o) (Some (clock_slot clock))
        | None => Done 0
        end;
    Done (Account.set_token account i position, bank)
  else Done (account, bank).

(** The oracles, for the logs, are base and quote. *)
Definition charge_loan_origination_fees (market_index : Z) (base_bank quote_bank : Bank) (account : MangoAccount)
    (before_oo : OpenOrdersSlim) (base_oracle quote_oracle : option (Pubkey * OracleAccount)) (clock : Clock) :
    outcome (MangoAccount * Bank * Bank) :=
  '(account, base_bank) ←
    charge_side account base_bank market_index true (oos_native_coin_total before_oo) base_oracle clock;
  '(account, quote_bank) ←
    charge_side account quote_bank market_index false (oos_native_pc_total before_oo) quote_oracle clock;
  Done (account, base_bank, quote_bank).

End orders.
