(* ===== verification/SerumInstructions.v ===== *)
(** * Spot market instructions

    instructions/serum3_*.rs with the constraints of accounts_ix: placing, cancelling,
    settling and force-cancelling orders of a spot market through the spot market program,
    creating and closing open orders accounts, and registering and editing markets. Logs
    are left out. *)

From stdpp Require Import base numbers option list.
From Stdlib Require Import ZArith Lia SpecFloat.
From S2P Require Import Prelude FixedPoint HealthType TokenPosition OrderTypes Nodes Oracle StablePrice Bank Group Serum3 PerpMarket PerpPosition MangoAccount HealthCache AccountRetriever TokenInstructions PerpInstructions SwapInstructions SerumOrders.

Open Scope Z_scope.

(** ** Accounts *)

(** The accounts that all instructions on an open orders account share. *)
Record SerumAccounts := mkSerumAccounts {
  sx_group_pk : Pubkey;
  sx_group : Group;
  sx_account : MangoAccount;
  sx_open_orders_pk : Pubkey;
  sx_open_orders : OpenOrders;
  sx_market : Serum3Market;
  sx_serum_program : Pubkey;
  sx_serum_market_external : Pubkey
}.

#[export] Instance eta_SerumAccounts : Eta SerumAccounts := fun x =>
  mkSerumAccounts (sx_group_pk x) (sx_group x) (sx_account x) (sx_open_orders_pk x) (sx_open_orders x) (sx_market x)
    (sx_serum_program x) (sx_serum_market_external x).

Definition serum_constraints (x : SerumAccounts) (must_be_operational : bool) (now_ts : Z) : outcome unit :=
  _ ← account_constraint (sx_group_pk x) (sx_account x) must_be_operational now_ts;
  _ ← require (s3m_group (sx_market x) =? sx_group_pk x) EConstraint;
  _ ← require (s3m_serum_program (sx_market x) =? sx_serum_program x) EConstraint;
  require (s3m_serum_market_external (sx_market x) =? sx_serum_market_external x) EConstraint.

(** Account constraint #1. *)
Definition serum_owner_check (x : SerumAccounts) (owner : Pubkey) (now_ts : Z) : outcome unit :=
  require (Fixed.is_owner_or_delegate (ma_fixed (sx_account x)) now_ts owner) (EMango SomeError).

(** Account constraint #2: the open orders account is the one of the account's slot. *)
Definition open_orders_check (x : SerumAccounts) : outcome unit :=
  '(_, orders) ← Account.serum3_orders (sx_account x) (s3m_market_index (sx_market x));
  require (s3_open_orders orders =? sx_open_orders_pk x) (EMango SomeError).

(** The banks and vaults of an instruction that settles. *)
Record SerumBanks := mkSerumBanks {
  sv_base_bank_pk : Pubkey;
  sv_base_bank : Bank;
  sv_base_vault_pk : Pubkey;
  sv_base_vault : Z;
  sv_quote_bank_pk : Pubkey;
  sv_quote_bank : Bank;
  sv_quote_vault_pk : Pubkey;
  sv_quote_vault : Z
}.

#[export] Instance eta_SerumBanks : Eta SerumBanks := fun v =>
  mkSerumBanks (sv_base_bank_pk v) (sv_base_bank v) (sv_base_vault_pk v) (sv_base_vault v) (sv_quote_bank_pk v)
    (sv_quote_bank v) (sv_quote_vault_pk v) (sv_quote_vault v).

Definition bank_constraints (x : SerumAccounts) (v : SerumBanks) : outcome unit :=
  _ ← require (bk_group (sv_quote_bank v) =? sx_group_pk x) EConstraint;
  require (bk_group (sv_base_bank v) =? sx_group_pk x) EConstraint.

(** Account constraint #3. The banks are borrowed mutably at the same time. *)
Definition bank_checks (x : SerumAccounts) (v : SerumBanks) : outcome unit :=
  _ ← require (bk_vault (sv_quote_bank v) =? sv_quote_vault_pk v) (EMango SomeError);
  _ ← require (bk_token_index (sv_quote_bank v) =? s3m_quote_token_index (sx_market x)) (EMango SomeError);
  _ ← require (bk_vault (sv_base_bank v) =? sv_base_vault_pk v) (EMango SomeError);
  _ ← require (bk_token_index (sv_base_bank v) =? s3m_base_token_index (sx_market x)) (EMango SomeError);
  require (negb (sv_base_bank_pk v =? sv_quote_bank_pk v)) EAccountBorrow.

Section serum.
Context `{FixedOps} `{SerumProgram}.

(** ** Open orders accounts *)

Definition serum3_create_open_orders (x : SerumAccounts) (owner : Pubkey) (now_ts : Z) : outcome SerumAccounts :=
  _ ← require (GroupCfg.is_ix_enabled (sx_group x) IxSerum3CreateOpenOrders) (EMango IxIsDisabled);
  _ ← serum_constraints x true now_ts;
  oo ← serum_init_open_orders;
  _ ← serum_owner_check x owner now_ts;
  let m := sx_market x in
  '(account, i) ← Account.create_serum3_orders (sx_account x) (s3m_market_index m);
  orders ← unwrap (ma_serum3 account !! i);
  let account := Account.set_serum3 account i
    (((orders <| s3_open_orders := sx_open_orders_pk x |>) <| s3_base_token_index := s3m_base_token_index m |>)
       <| s3_quote_token_index := s3m_quote_token_index m |>) in
  account ← hold_token account (s3m_quote_token_index m);
  account ← hold_token account (s3m_base_token_index m);
  Done ((x <| sx_account := account |>) <| sx_open_orders := oo |>).

(** [token_position_mut(index)?.decrement_in_use()]. *)
Definition unhold_token (a : MangoAccount) (token_index : Z) : outcome MangoAccount :=
  '(t, i) ← Account.token_position_and_raw_index a token_index;
  Done (Account.set_token a i (Token.decrement_in_use t)).

Definition serum3_close_open_orders (x : SerumAccounts) (owner : Pubkey) (now_ts : Z) : outcome SerumAccounts :=
  _ ← require (GroupCfg.is_ix_enabled (sx_group x) IxSerum3CloseOpenOrders) (EMango IxIsDisabled);
  _ ← serum_constraints x true now_ts;
  _ ← serum_owner_check x owner now_ts;
  _ ← open_orders_check x;
  _ ← serum_close_open_orders (sx_open_orders x);
  let m := sx_market x in
  account ← unhold_token (sx_account x) (s3m_base_token_index m);
  account ← unhold_token account (s3m_quote_token_index m);
  account ← Account.deactivate_serum3_orders account (s3m_market_index m);
  Done (x <| sx_account := account |>).

(** ** Cancelling *)

(** The shape of the three instructions; [cancel] is the call. *)
Definition serum3_cancel_with (ix : IxGate) (cancel : OpenOrders -> outcome OpenOrders) (x : SerumAccounts) (owner : Pubkey)
    (now_ts : Z) : outcome SerumAccounts :=
  _ ← require (GroupCfg.is_ix_enabled (sx_group x) ix) (EMango IxIsDisabled);
  _ ← serum_constraints x true now_ts;
  _ ← serum_owner_check x owner now_ts;
  _ ← open_orders_check x;
  oo ← cancel (sx_open_orders x);
  Done (x <| sx_open_orders := oo |>).

Definition serum3_cancel_order (x : SerumAccounts) (owner : Pubkey) (now_ts : Z) (side : Serum3Side) (order_id : Z) :
    outcome SerumAccounts :=
  serum3_cancel_with IxSerum3CancelOrder (serum_cancel_order side order_id) x owner now_ts.

Definition serum3_cancel_order_by_client_order_id (x : SerumAccounts) (owner : Pubkey) (now_ts client_order_id : Z) :
    outcome SerumAccounts :=
  serum3_cancel_with IxSerum3CancelOrder (serum_cancel_order_by_client_id client_order_id) x owner now_ts.

Definition serum3_cancel_all_orders (x : SerumAccounts) (owner : Pubkey) (now_ts limit : Z) : outcome SerumAccounts :=
  serum3_cancel_with IxSerum3CancelAllOrders (serum_cancel_all limit) x owner now_ts.

(** ** Settling *)

(** The oracles of the second version of the instruction, base and quote. *)
Definition SettleOracles : Type := (Pubkey * OracleAccount) * (Pubkey * OracleAccount).

Definition serum3_settle_funds (x : SerumAccounts) (v : SerumBanks) (owner : Pubkey) (v2 : option SettleOracles)
    (fees_to_dao : bool) (clock : Clock) : outcome (SerumAccounts * SerumBanks) :=
  let m := sx_market x in
  _ ← require (GroupCfg.is_ix_enabled (sx_group x) IxSerum3SettleFunds) (EMango IxIsDisabled);
  _ ← serum_constraints x true (clock_ts clock);
  _ ← bank_constraints x v;
  _ ← match v2 with
      | Some (base_oracle, quote_oracle) =>
          _ ← require (fst quote_oracle =? bk_oracle (sv_quote_bank v)) EConstraint;
          require (fst base_oracle =? bk_oracle (sv_base_bank v)) EConstraint
      | None => Done tt
      end;
  _ ← serum_owner_check x owner (clock_ts clock);
  _ ← open_orders_check x;
  _ ← bank_checks x v;
  let before_oo := oo_slim (sx_open_orders x) in
  '(account, base_bank, quote_bank) ←
    charge_loan_origination_fees (s3m_market_index m) (sv_base_bank v) (sv_quote_bank v) (sx_account x) before_oo
      (fst <$> v2) (snd <$> v2) clock;
  '(oo, base_vault, quote_vault) ← serum_settle_funds (sx_open_orders x) (sv_base_vault v) (sv_quote_vault v);
  '(account, base_bank, quote_bank, _) ←
    apply_settle_changes (sx_group x) account base_bank quote_bank m (sv_base_vault v, sv_quote_vault v) before_oo
      (base_vault, quote_vault) (oo_slim oo) None fees_to_dao (snd <$> v2) clock;
  Done ((x <| sx_account := account |>) <| sx_open_orders := oo |>,
        (((v <| sv_base_bank := base_bank |>) <| sv_base_vault := base_vault |>) <| sv_quote_bank := quote_bank |>)
          <| sv_quote_vault := quote_vault |>).

(** ** Force-cancelling *)

Definition serum3_liq_force_cancel_orders (x : SerumAccounts) (v : SerumBanks) (remaining : list AccountInfo) (clock : Clock)
    (limit : Z) : outcome (SerumAccounts * SerumBanks) :=
  let m := sx_market x in
  _ ← require (GroupCfg.is_ix_enabled (sx_group x) IxSerum3LiqForceCancelOrders) (EMango IxIsDisabled);
  _ ← serum_constraints x false (clock_ts clock);
  _ ← bank_constraints x v;
  _ ← open_orders_check x;
  _ ← bank_checks x v;
  retriever ← new_fixed_order_account_retriever remaining (sx_account x) (clock_slot clock);
  cache ← new_health_cache (sx_account x) retriever (clock_ts clock);
  '(account, liquidatable) ← Account.check_liquidatable (sx_account x) cache;
  let can_force_cancel :=
    negb (Fixed.is_operational (ma_fixed account) (clock_ts clock))
    || (match liquidatable with Account.Liquidatable => true | _ => false end)
    || SerumMarket.is_force_close m in
  if negb can_force_cancel then Done (x <| sx_account := account |>, v)
  else
    let before_oo := oo_slim (sx_open_orders x) in
    '(account, base_bank, quote_bank) ←
      charge_loan_origination_fees (s3m_market_index m) (sv_base_bank v) (sv_quote_bank v) account before_oo None None clock;
    oo ← serum_cancel_all limit (sx_open_orders x);
    '(oo, base_vault, quote_vault) ← serum_settle_funds oo (sv_base_vault v) (sv_quote_vault v);
    '(account, base_bank, quote_bank, cache) ←
      apply_settle_changes (sx_group x) account base_bank quote_bank m (sv_base_vault v, sv_quote_vault v) before_oo
        (base_vault, quote_vault) (oo_slim oo) (Some cache) true None clock;
    cache ← unwrap cache;
    liq_end_health ← health cache LiquidationEnd;
    let account := set_ma_fixed account (fst (Fixed.maybe_recover_from_being_liquidated (ma_fixed account) liq_end_health)) in
    Done ((x <| sx_account := account |>) <| sx_open_orders := oo |>,
          (((v <| sv_base_bank := base_bank |>) <| sv_base_vault := base_vault |>) <| sv_quote_bank := quote_bank |>)
            <| sv_quote_vault := quote_vault |>).

(** ** Placing an order *)

(** The bank that pays, its vault and oracle, and the passed accounts with the addresses of
    the writable ones. *)
Record PlaceAccounts := mkPlaceAccounts {
  sp_serum : SerumAccounts;
  sp_payer_bank_pk : Pubkey;
  sp_payer_bank : Bank;
  sp_payer_vault_pk : Pubkey;
  sp_payer_vault : Z;
  sp_payer_oracle : Pubkey * OracleAccount;
  sp_remaining : list AccountInfo;
  sp_writable : list Pubkey;
  sp_coin_lot_size : Z;
  sp_pc_lot_size : Z
}.

Definition payer_token_index (m : Serum3Market) (side : Serum3Side) : Z :=
  match side with Serum3Bid => s3m_quote_token_index m | Serum3Ask => s3m_base_token_index m end.

Definition receiver_token_index (m : Serum3Market) (side : Serum3Side) : Z :=
  match side with Serum3Bid => s3m_base_token_index m | Serum3Ask => s3m_quote_token_index m end.

(** The bank that receives, copied out of the health accounts. The retriever validates it,
    and gives its price and whether its deposits are reduce-only. *)
Definition receiver_bank (p : PlaceAccounts) (account : MangoAccount) (retriever : FixedOrderAccountRetriever) (token_index : Z) :
    outcome (MangoAccount * AccountInfo * Bank * Z * bool) :=
  '(account, _, active_index) ← Account.ensure_token_position account token_index;
  '(bank, oracle) ← FixedOrder.bank_and_oracle retriever (sx_group_pk (sp_serum p)) active_index token_index;
  ai ← unwrap (sp_remaining p !! active_index);
  bank2 ← load_bank ai;
  _ ← assert_ (bk_group bank2 =? sx_group_pk (sp_serum p));
  _ ← assert_ (bk_token_index bank2 =? token_index);
  Done (account, ai, bank2, oracle, BankCfg.are_deposits_reduce_only bank).

(** Account constraint #4: whether this is the second version of the instruction. *)
Definition place_order_version (group : Group) (receiver_writable require_v2 : bool) : outcome bool :=
  let v1_available := GroupCfg.is_ix_enabled group IxSerum3PlaceOrder in
  let v2_available := GroupCfg.is_ix_enabled group IxSerum3PlaceOrderV2 in
  let is_v2_instruction := require_v2 || negb v1_available || (receiver_writable && v2_available) in
  _ ← (if is_v2_instruction then
         _ ← require v2_available (EMango IxIsDisabled);
         require receiver_writable (EMango HealthAccountBankNotWritable)
       else require v1_available (EMango IxIsDisabled));
  Done is_v2_instruction.

(** What the order may take from the vault. *)
Definition needed_amount (p : PlaceAccounts) (o : SerumNewOrder) : outcome Z :=
  let oo := oo_slim (sx_open_orders (sp_serum p)) in
  match no_side o with
  | Serum3Ask => n ← u64 (no_max_coin_qty o * sp_coin_lot_size p); Done (saturating_sub_u64 n (oos_native_coin_free oo))
  | Serum3Bid => Done (saturating_sub_u64 (no_max_native_pc_qty_including_fees o) (oos_native_pc_free oo))
  end.

(** [NewOrderInstructionV3]: the three amounts are nonzero there. *)
Definition check_new_order (o : SerumNewOrder) : outcome unit :=
  _ ← assert_ (0 <? no_limit_price o);
  _ ← assert_ (0 <? no_max_coin_qty o);
  assert_ (0 <? no_max_native_pc_qty_including_fees o).

(** The tracked extremes of the placed prices: [x] if none is tracked, else the [better]. *)
Definition track (better : f64 -> f64 -> f64) (tracked x : f64) : f64 :=
  if SFeqb tracked f_zero then x else better tracked x.

Definition track_prices (orders : Serum3Orders) (had_bids had_asks new_order_on_book : bool) (side : Serum3Side) (limit_price : f64) :
    Serum3Orders :=
  let orders := if negb had_bids then (orders <| s3_highest_placed_bid_inv := f_zero |>) <| s3_lowest_placed_bid_inv := f_zero |>
                else orders in
  let orders := if negb had_asks then (orders <| s3_lowest_placed_ask := f_zero |>) <| s3_highest_placed_ask := f_zero |>
                else orders in
  if new_order_on_book then
    match side with
    | Serum3Ask =>
        let orders := orders <| s3_lowest_placed_ask := track f64_min (s3_lowest_placed_ask orders) limit_price |> in
        orders <| s3_highest_placed_ask := track f64_max (s3_highest_placed_ask orders) limit_price |>
    | Serum3Bid =>
        let limit_price_inv := f64_div f64_one limit_price in
        let orders := orders <| s3_highest_placed_bid_inv := track f64_min (s3_highest_placed_bid_inv orders) limit_price_inv |> in
        orders <| s3_lowest_placed_bid_inv := track f64_max (s3_lowest_placed_bid_inv orders) limit_price_inv |>
    end
  else orders.

(** The potential tokens of both banks, or of the payer bank only: the orders, the payer
    bank and the receiver bank. *)
Definition update_potentials (is_v2 : bool) (side : Serum3Side) (orders : Serum3Orders) (payer receiver : Bank) (oo : OpenOrdersSlim) :
    outcome (Serum3Orders * Bank * Bank) :=
  if is_v2 then
    match side with
    | Serum3Bid => '(orders, b, q) ← update_bank_potential_tokens orders receiver payer oo; Done (orders, q, b)
    | Serum3Ask => '(orders, b, q) ← update_bank_potential_tokens orders payer receiver oo; Done (orders, b, q)
    end
  else
    '(orders, payer) ← update_bank_potential_tokens_payer_only orders payer oo;
    Done (orders, payer, receiver).

(** The limits of the payer bank. *)
Definition check_payer (payer : Bank) (withdrawn_from_vault before_position_native payer_bank_oracle : Z) : outcome unit :=
  if before_position_native <? withdrawn_from_vault then
    _ ← require (negb (BankCfg.are_borrows_reduce_only payer)) (EMango TokenInReduceOnlyMode);
    _ ← enforce_max_utilization_on_borrow payer;
    _ ← check_net_borrows payer payer_bank_oracle;
    check_deposit_and_oo_limit payer
  else enforce_borrows_lte_deposits payer.

(** The price band of orders on the book. *)
Definition check_band (m : Serum3Market) (side : Serum3Side) (new_order_on_book : bool) (limit_price : f64)
    (receiver_oracle payer_oracle : Z) : outcome unit :=
  let band_threshold := SerumMarket.oracle_price_band m in
  if new_order_on_book && negb (SFeqb band_threshold f32_MAX) then
    let '(base_oracle, quote_oracle) :=
      match side with Serum3Bid => (receiver_oracle, payer_oracle) | Serum3Ask => (payer_oracle, receiver_oracle) end in
    let base_oracle_f64 := fx_to_f64 base_oracle in
    let limit_price_in_dollar := f64_mul limit_price (fx_to_f64 quote_oracle) in
    let band_factor := f64_add f64_one (f64_of_f32 band_threshold) in
    match side with
    | Serum3Bid =>
        require (SFleb base_oracle_f64 (f64_mul limit_price_in_dollar band_factor)) (EMango Serum3PriceBandExceeded)
    | Serum3Ask =>
        require (SFleb limit_price_in_dollar (f64_mul base_oracle_f64 band_factor)) (EMango Serum3PriceBandExceeded)
    end
  else Done tt.

(** The receiver must not exceed its deposits when they are reduce-only, and all open
    orders of its token must be in the health cache. *)
Definition check_receiver (account : MangoAccount) (cache : HealthCache) (token_index : Z) (reduce_only : bool) : outcome unit :=
  _ ← require
        (forallb (fun s => negb ((s3_base_token_index s =? token_index) || (s3_quote_token_index s =? token_index))
                           || existsb (fun i => si_market_index i =? s3_market_index s) (hc_serum3_infos cache))
           (Account.active_serum3_orders account)) error_msg;
  if reduce_only then
    info ← token_info cache token_index;
    potential ← total_serum3_potential cache Maint token_index;
    s ← fx_add (ti_balance_spot info) potential;
    require (s <? fx_one) (EMango TokenInReduceOnlyMode)
  else Done tt.

(** The health cache after the order. *)
Definition place_health_cache (cache : HealthCache) (receiver payer : Bank) (vault_difference : VaultDifference)
    (orders : Serum3Orders) (before_oo after_oo : OpenOrdersSlim) : outcome HealthCache :=
  d ← oo_difference before_oo after_oo;
  cache ← adjust_token_balance cache receiver 0;
  cache ← adjust_health_cache_token_balance vault_difference cache payer;
  recompute_health_cache_serum3_state d cache orders after_oo.

(** The validation before the order. *)
Definition place_checks (p : PlaceAccounts) (owner : Pubkey) (now_ts : Z) (o : SerumNewOrder) : outcome unit :=
  let x := sp_serum p in
  _ ← serum_constraints x true now_ts;
  _ ← require (bk_group (sp_payer_bank p) =? sx_group_pk x) EConstraint;
  _ ← require (fst (sp_payer_oracle p) =? bk_oracle (sp_payer_bank p)) EConstraint;
  _ ← require (0 <? no_limit_price o) ERequireGt;
  _ ← require (negb (SerumMarket.is_reduce_only (sx_market x))) (EMango MarketInReduceOnlyMode);
  _ ← serum_owner_check x owner now_ts;
  _ ← open_orders_check x;
  _ ← require (bk_vault (sp_payer_bank p) =? sp_payer_vault_pk p) ERequireKeysEq;
  require (bk_token_index (sp_payer_bank p) =? payer_token_index (sx_market x) (no_side o)) ERequireEq.

Definition serum3_place_order (p : PlaceAccounts) (owner : Pubkey) (clock : Clock) (o : SerumNewOrder) (require_v2 : bool) :
    outcome PlaceAccounts :=
  let x := sp_serum p in
  let m := sx_market x in
  let side := no_side o in
  let receiver_index := receiver_token_index m side in
  _ ← place_checks p owner (clock_ts clock) o;
  retriever ← new_fixed_order_account_retriever_with_optional_banks (sp_remaining p) (sx_account x) (clock_slot clock);
  cache ← new_health_cache_skipping_missing_banks_and_bad_oracles (sx_account x) retriever (clock_ts clock);
  _ ← token_info_index cache (payer_token_index m side);
  _ ← token_info_index cache receiver_index;
  '(account, pre_health_opt) ←
    (if negb (Fixed.is_in_health_region (ma_fixed (sx_account x))) then
       '(account, h) ← Account.check_health_pre (sx_account x) cache; Done (account, Some h)
     else Done (sx_account x, None));
  '(account, receiver_ai, receiver, receiver_oracle, receiver_reduce_only) ← receiver_bank p account retriever receiver_index;
  is_v2 ← place_order_version (sx_group x) (bool_decide (fst receiver_ai ∈ sp_writable p)) require_v2;
  needed ← needed_amount p o;
  _ ← require (negb (sp_payer_vault p <? needed)) (EMango InsufficentBankVaultFunds);
  _ ← check_new_order o;
  '(oo, after_vault) ← serum_place_order o (sx_open_orders x) (sp_payer_vault p);
  let before_oo := oo_slim (sx_open_orders x) in
  let after_oo := oo_slim oo in
  let new_order_on_book := negb (oo_free_slot_bits oo =? oo_free_slot_bits (sx_open_orders x)) in
  let limit_price := f64_div (f64_mul (f64_of_Z (no_limit_price o)) (f64_of_Z (sp_pc_lot_size p))) (f64_of_Z (sp_coin_lot_size p)) in
  '(k, orders) ← Account.serum3_orders account (s3m_market_index m);
  let orders := track_prices orders (negb (bid_slots (sx_open_orders x) =? 0)) (negb (ask_slots (sx_open_orders x) =? 0))
                  new_order_on_book side limit_price in
  _ ← require (after_vault <=? sp_payer_vault p) ERequireGte;
  _ ← require (negb (fst receiver_ai =? sp_payer_bank_pk p)) EAccountBorrow;
  '(orders, payer, receiver') ← update_potentials is_v2 side orders (sp_payer_bank p) receiver after_oo;
  let account := Account.set_serum3 account k orders in
  '(position, _) ← Account.token_position_and_raw_index account (bk_token_index payer);
  before_position_native ← native position payer;
  '(account, payer, vault_difference) ←
    apply_vault_difference account (s3m_market_index m) payer after_vault (sp_payer_vault p) (clock_ts clock);
  _ ← check_deposit_and_oo_limit receiver';
  payer_oracle ← oracle_price payer (from_reader (sp_payer_oracle p)) None;
  withdrawn_from_vault ← fx_from_int (sp_payer_vault p - after_vault);
  _ ← check_payer payer withdrawn_from_vault before_position_native payer_oracle;
  _ ← check_band m side new_order_on_book limit_price receiver_oracle payer_oracle;
  '(_, orders) ← Account.serum3_orders account (s3m_market_index m);
  cache ← place_health_cache cache receiver' payer vault_difference orders before_oo after_oo;
  _ ← check_receiver account cache receiver_index receiver_reduce_only;
  _ ← match pre_health_opt with
      | Some h => _ ← Account.check_health_post cache h; Done tt
      | None => Done tt
      end;
  Done {| sp_serum := (x <| sx_account := account |>) <| sx_open_orders := oo |>;
          sp_payer_bank_pk := sp_payer_bank_pk p; sp_payer_bank := payer; sp_payer_vault_pk := sp_payer_vault_pk p;
          sp_payer_vault := after_vault; sp_payer_oracle := sp_payer_oracle p;
          sp_remaining := write_account (fst receiver_ai) (ABank receiver')
                            (sync_bank (sp_payer_bank_pk p) payer (sp_remaining p));
          sp_writable := sp_writable p; sp_coin_lot_size := sp_coin_lot_size p; sp_pc_lot_size := sp_pc_lot_size p |}.

End serum.

(** ** Markets *)

(** [fill_from_str::<16>] of util.rs on the bytes of the name. *)
Definition fill_from_str (n : nat) (name : list Z) : outcome (list Z) :=
  _ ← require (length name <=? n)%nat (EMango SomeError);
  Done (name ++ replicate (n - length name) 0).

(** The price band that a fast listing must have. *)
Definition fast_listing_band (base_bank quote_bank : Bank) : f32 :=
  let base_c_tier := BankCfg.are_borrows_reduce_only base_bank && (bk_maint_asset_weight base_bank =? 0) in
  let quote_has_no_deposit_limit :=
    SFeqb (bk_deposit_weight_scale_start_quote quote_bank) f64_MAX && (bk_deposit_limit quote_bank =? 0) in
  if base_c_tier && quote_has_no_deposit_limit then f32_ratio 19 1 else f32_ratio 1 1.

(** [pc_mint] and [coin_mint] are the mints of the external market; [bump] is that of the
    new market account. *)
Definition serum3_register_market (group_pk : Pubkey) (group : Group) (admin : Pubkey) (serum_program serum_market_external : Pubkey)
    (pc_mint coin_mint : Pubkey) (base_bank quote_bank : Bank) (bump now_ts market_index : Z) (name : list Z)
    (oracle_price_band : f32) : outcome (Serum3Market * Serum3MarketIndexReservation) :=
  _ ← require (GroupCfg.is_ix_enabled group IxSerum3RegisterMarket) (EMango IxIsDisabled);
  _ ← require (GroupCfg.serum3_supported group) EConstraint;
  _ ← require (bk_group quote_bank =? group_pk) EConstraint;
  _ ← require (bk_group base_bank =? group_pk) EConstraint;
  is_fast_listing ←
    (if admin =? gr_admin group then Done false
     else if admin =? gr_fast_listing_admin group then Done true
     else Fail error_msg);
  _ ← require (pc_mint =? bk_mint quote_bank) (EMango SomeError);
  _ ← require (coin_mint =? bk_mint base_bank) (EMango SomeError);
  _ ← (if (is_fast_listing : bool) then require (SFeqb oracle_price_band (fast_listing_band base_bank quote_bank)) ERequireEq
       else Done tt);
  name ← fill_from_str 16 name;
  Done (mkSerum3Market group_pk (bk_token_index base_bank) (bk_token_index quote_bank) 0 0 name serum_program
          serum_market_external market_index bump oracle_price_band now_ts,
        mkSerum3MarketIndexReservation group_pk market_index).

(** The edits, with whether they need the group admin. *)
Definition edit_reduce_only (o : option bool) (s : Serum3Market * bool) : Serum3Market * bool :=
  match o with
  | Some reduce_only => ((fst s) <| s3m_reduce_only := bool_u8 reduce_only |>, snd s || negb reduce_only)
  | None => s
  end.

Definition edit_force_close (o : option bool) (s : Serum3Market * bool) : outcome (Serum3Market * bool) :=
  match o with
  | Some force_close =>
      _ ← (if force_close then require (SerumMarket.is_reduce_only (fst s)) (EMango SomeError) else Done tt);
      Done ((fst s) <| s3m_force_close := bool_u8 force_close |>, true)
  | None => Done s
  end.

Definition serum3_edit_market (group_pk : Pubkey) (group : Group) (admin : Pubkey) (market : Serum3Market)
    (reduce_only_opt force_close_opt : option bool) (name_opt : option (list Z)) (oracle_price_band_opt : option f32) :
    outcome Serum3Market :=
  _ ← require (GroupCfg.serum3_supported group) EConstraint;
  _ ← require (s3m_group market =? group_pk) EConstraint;
  s ← edit_force_close force_close_opt (edit_reduce_only reduce_only_opt (market, false));
  s ← match name_opt with
      | Some name => n ← fill_from_str 16 name; Done ((fst s) <| s3m_name := n |>, true)
      | None => Done s
      end;
  let '(market, require_group_admin) :=
    match oracle_price_band_opt with
    | Some band => ((fst s) <| s3m_oracle_price_band := band |>, true)
    | None => s
    end in
  _ ← (if require_group_admin then require (gr_admin group =? admin) (EMango SomeError)
       else require ((gr_admin group =? admin) || (gr_security_admin group =? admin)) (EMango SomeError));
  Done market.

(** Closing a market account is left to the framework; the reservation of its index must
    be the matching one. *)
Definition serum3_deregister_market (group_pk : Pubkey) (group : Group) (admin : Pubkey) (market : Serum3Market)
    (reservation : Serum3MarketIndexReservation) : outcome unit :=
  _ ← require (gr_admin group =? admin) EConstraint;
  _ ← require (GroupCfg.is_testing group) EConstraint;
  _ ← require (GroupCfg.is_ix_enabled group IxSerum3DeregisterMarket) (EMango IxIsDisabled);
  _ ← require (s3m_group market =? group_pk) EConstraint;
  _ ← require (s3r_group reservation =? group_pk) EConstraint;
  require (s3m_market_index market =? s3r_market_index reservation) EConstraint.
