(* ===== verification/SerumSpec.v ===== *)
(** * Specification of the spot market instructions

    What the vaults gain or lose through the spot market is credited or charged to the
    token positions, up to the rounding of the positions; settling charges the loans that
    became real exactly once; an order is placed only within the limits of the banks and
    with the health of the account kept. *)

From stdpp Require Import base numbers option list.
From Stdlib Require Import ZArith Lia SpecFloat.
From S2P Require Import Prelude FixedPoint HealthType TokenPosition OrderTypes Nodes Oracle StablePrice Bank BankSpec Group Serum3 PerpMarket PerpPosition MangoAccount MangoAccountSpec HealthCache AccountRetriever TokenInstructions TokenInstructionsSpec TokenLiquidationSpec PerpInstructions SwapInstructions FlashLoanSpec SerumOrders SerumInstructions.

Open Scope Z_scope.

Section spec.
Context `{FixedLaws}.

(** ** Conservation in a bank

    [d] tokens came in for the position, up to the rounding of [n] changes in its favour,
    and [f] for the fees that the bank collects. A rest below one token becomes dust of the
    bank, but not while the position is in use. *)
Record conserved (b : Bank) (p : TokenPosition) (b' : Bank) (p' : TokenPosition) (d f n : Z) : Prop := {
  cs_moved : moved b p b' p';
  cs_rate : bk_loan_origination_fee_rate b' = bk_loan_origination_fee_rate b;
  cs_token : bk_token_index b' = bk_token_index b;
  cs_fees : bk_collected_fees_native b' = bk_collected_fees_native b + f;
  cs_dust : Token.is_in_use p = true -> bk_dust b' = bk_dust b;
  cs_amount : d <= value b' p' - value b p + (bk_dust b' - bk_dust b) <= d + n * unit_value b
}.

Lemma moved_unit b p b' p' : moved b p b' p' -> unit_value b' = unit_value b.
Proof. intros M. unfold unit_value. by rewrite (mv_deposit_index _ _ _ _ M), (mv_borrow_index _ _ _ _ M). Qed.

Lemma conserved_refl b p : conserved b p b p 0 0 0.
Proof. split; done || lia. Qed.

Lemma conserved_trans b1 p1 b2 p2 b3 p3 d1 d2 f1 f2 n1 n2 :
  conserved b1 p1 b2 p2 d1 f1 n1 -> conserved b2 p2 b3 p3 d2 f2 n2 -> conserved b1 p1 b3 p3 (d1 + d2) (f1 + f2) (n1 + n2).
Proof.
  intros [M1 R1 T1 F1 D1 A1] [M2 R2 T2 F2 D2 A2]. rewrite (moved_unit _ _ _ _ M1) in A2.
  split; [by eapply moved_trans|congruence..|lia| |lia].
  intros Hu. rewrite D2; [by apply D1|]. unfold Token.is_in_use in *. by rewrite (mv_in_use _ _ _ _ M1).
Qed.

Lemma conserved_indexes b p b' p' d f n : conserved b p b' p' d f n -> indexes_ok b -> indexes_ok b'.
Proof. intros [M _ _ _ _ _]. by eapply moved_indexes. Qed.

Lemma touched_token b b' : touched b b' -> bk_token_index b' = bk_token_index b.
Proof. intros T. exact (f_equal bk_token_index T). Qed.

Lemma unit_value_pos b : indexes_ok b -> 0 < unit_value b.
Proof.
  intros [Hd Hb]. unfold unit_value. pose proof scale_pos.
  pose proof (Z.div_pos (Z.max (bk_deposit_index b) (bk_borrow_index b)) fx_scale). lia.
Qed.

Lemma value_zero b p : tp_indexed_position p = 0 -> value b p = 0.
Proof. intros E. unfold value. by rewrite E. Qed.

(** A deposit leaves the collected fees alone. *)
Lemma deposit_fees b t a d now b' t' active :
  deposit_internal_wrapper b t a d now = Done (b', t', active) -> bk_collected_fees_native b' = bk_collected_fees_native b.
Proof.
  unfold deposit_internal_wrapper, deposit_internal, add_to_deposits. intros E.
  apply bind_Done_inv in E as ([[b1 t1] r] & E & E2). apply bind_Done_inv in E2 as (t2 & _ & E2). injection E2 as <- _ _.
  apply bind_Done_inv in E as (u & _ & E). apply bind_Done_inv in E as (v & _ & E).
  destruct (v <? 0); [|by inv_run].
  apply bind_Done_inv in E as (n & _ & E). apply bind_Done_inv in E as (b2 & Eu & E).
  apply update_net_borrows_same in Eu as (st & m & ->). inv_run. repeat case_match; by inv_run.
Qed.

Lemma deposit_conserved b p a now b' p' active : indexes_ok b ->
  deposit b p a now = Done (b', p', active) -> conserved b p b' p' a 0 1.
Proof.
  intros HI E. unfold deposit in E. pose proof (deposit_fees _ _ _ _ _ _ _ _ E) as Hf. pose proof (deposit_touched _ _ _ _ _ _ _ _ E) as T.
  apply deposit_internal_wrapper_spec in E as (Ha & M & Hr); [|done]. pose proof (unit_value_pos b HI).
  split; [done|by apply touched_rate|by apply touched_token|lia|..].
  - intros Hu. rewrite Hu in Hr. destruct active; [apply Hr|by destruct Hr].
  - destruct active; [lia|]. destruct Hr as (_ & Hz & Hd & _). rewrite (value_zero b' p' Hz). lia.
Qed.

Lemma withdraw_conserved b p a now b' p' r : indexes_ok b -> 0 <= bk_loan_origination_fee_rate b ->
  withdraw_internal_wrapper b p a false (negb (Token.is_in_use p)) now = Done (b', p', r) -> conserved b p b' p' (- a) 0 1.
Proof.
  intros HI HR E. pose proof (withdraw_touched _ _ _ _ _ _ _ _ _ E) as T.
  apply withdraw_internal_wrapper_spec in E as (Ha & M & Hf & _ & Hc & Hr); [|done..]. pose proof (unit_value_pos b HI).
  assert (Hz : wr_loan_origination_fee r = 0) by (rewrite Hf; by destruct (0 <? _)). rewrite Hz in *.
  split; [done|by apply touched_rate|by apply touched_token|lia|..].
  - intros Hu. rewrite Hu in Hr. destruct (wr_position_is_active r); [apply Hr|by destruct Hr].
  - destruct (wr_position_is_active r); [lia|]. destruct Hr as (_ & Hi & Hd & _). rewrite (value_zero b' p' Hi). lia.
Qed.

Lemma change_conserved b p d now b' p' active : indexes_ok b -> 0 <= bk_loan_origination_fee_rate b ->
  (if 0 <=? d then deposit b p d now else n ← fx_neg d; withdraw_without_fee b p n now) = Done (b', p', active) ->
  conserved b p b' p' d 0 1 /\ bk_potential_serum_tokens b' = bk_potential_serum_tokens b.
Proof.
  intros HI HR E. destruct (0 <=? d).
  { split; [by eapply deposit_conserved|]. exact (f_equal bk_potential_serum_tokens (deposit_touched _ _ _ _ _ _ _ _ E)). }
  apply bind_Done_inv in E as (n & En & E). apply fx_neg_inv in En as ->.
  apply bind_Done_inv in E as ([[b1 p1] r] & Ew & E). injection E as <- <- <-. split.
  - rewrite <- (Z.opp_involutive d). by eapply withdraw_conserved.
  - exact (f_equal bk_potential_serum_tokens (withdraw_touched _ _ _ _ _ _ _ _ _ Ew)).
Qed.

(** A deposit does not make a loan. *)
Lemma deposit_no_loan b p a d now b' p' active : indexes_ok b ->
  deposit_internal_wrapper b p a d now = Done (b', p', active) -> 0 <= Z.max (value b' p' - value b p) (value b' p').
Proof.
  intros HI E. apply deposit_internal_wrapper_spec in E as (Ha & _ & Hr); [|done]. destruct active; [lia|].
  destruct Hr as (_ & Hz & _). rewrite (value_zero b' p' Hz). lia.
Qed.

(** The fee for the part of the borrows of a side that is not in orders. *)
Definition loan_fee (b : Bank) (borrowed in_orders : Z) : Z :=
  bk_loan_origination_fee_rate b * fx_int (Z.max 0 (borrowed - in_orders)) / fx_scale.

(** The fee for a loan is moved from the position to the collected fees. *)
Lemma origination_conserved b p loan now b' p' r : indexes_ok b -> 0 <= bk_loan_origination_fee_rate b ->
  withdraw_loan_origination_fee b p loan now = Done (b', p', r) ->
  let fee := bk_loan_origination_fee_rate b * loan / fx_scale in conserved b p b' p' (- fee) fee 1.
Proof.
  intros HI HR E. unfold withdraw_loan_origination_fee in E.
  apply bind_Done_inv in E as (fee & Ef & E). apply fx_mul_inv in Ef. cbv zeta. rewrite <- Ef.
  apply bind_Done_inv in E as (c & Ec & E). apply fx_add_inv in Ec as ->.
  apply bind_Done_inv in E as ([[b1 p1] r1] & Ew & E). injection E as <- <- <-.
  apply withdraw_conserved in Ew; [|by destruct HI; constructor|done]. destruct Ew as [M R T F D A].
  split; [by destruct M; constructor|done..|simpl in F; lia|done|].
  change (value (set_bk_collected_fees_native b _) p) with (value b p) in A.
  change (unit_value (set_bk_collected_fees_native b _)) with (unit_value b) in A. simpl in A. lia.
Qed.

(** ** Conservation for an account *)

Definition token_conserved (a : MangoAccount) (b : Bank) (a' : MangoAccount) (b' : Bank) (d f n : Z) : Prop :=
  exists p p' i,
    Account.token_position_and_raw_index a (bk_token_index b) = Done (p, i) /\
    Account.token_position_and_raw_index a' (bk_token_index b) = Done (p', i) /\ conserved b p b' p' d f n.

Lemma token_conserved_trans a1 b1 a2 b2 a3 b3 d1 d2 f1 f2 n1 n2 :
  token_conserved a1 b1 a2 b2 d1 f1 n1 -> token_conserved a2 b2 a3 b3 d2 f2 n2 -> token_conserved a1 b1 a3 b3 (d1 + d2) (f1 + f2) (n1 + n2).
Proof.
  intros (p1 & p2 & i & E1 & E2 & C1) (p2' & p3 & j & E2' & E3 & C2).
  rewrite (cs_token _ _ _ _ _ _ _ C1) in E2', E3. rewrite E2 in E2'. injection E2' as <- <-.
  exists p1, p3, i. split_and!; [done..|by eapply conserved_trans].
Qed.

(** ** Changes of a vault *)

(** The orders slot of [a] for the market. *)
Definition slot_of (a : MangoAccount) (market_index : Z) (k : nat) (o : Serum3Orders) : Prop :=
  Account.serum3_orders a market_index = Done (k, o).

Lemma serum3_orders_inv a mi k o : Account.serum3_orders a mi = Done (k, o) ->
  position (fun s => Serum.is_active_for_market s mi) (ma_serum3 a) = Some k /\ ma_serum3 a !! k = Some o /\ s3_market_index o = mi.
Proof.
  unfold Account.serum3_orders, ok_or. intros E. destruct (position _ _) as [j|] eqn:Ej; [|done]. simpl in E.
  apply bind_Done_inv in E as (t & Et & E). apply unwrap_inv in Et. injection E as <- <-. split_and!; [done..|].
  apply position_Some in Ej as [(x & Hx & Hf) _]. rewrite Et in Hx. injection Hx as <-. by apply Z.eqb_eq.
Qed.

Lemma serum3_orders_set a mi k o o' : Account.serum3_orders a mi = Done (k, o) -> s3_market_index o' = mi ->
  Account.serum3_orders (Account.set_serum3 a k o') mi = Done (k, o').
Proof.
  intros E Ho. apply serum3_orders_inv in E as (Ej & Hi & Ht). unfold Account.serum3_orders.
  simpl. rewrite (position_insert _ _ _ o' Ej) by (by apply Z.eqb_eq). simpl.
  by rewrite list_lookup_insert_eq by (apply lookup_lt_is_Some; eauto).
Qed.

Lemma unwrap_result_inv {A} (r : outcome A) x : Perp.unwrap_result r = Done x -> r = Done x.
Proof. by destruct r. Qed.

(** The borrows of a side that were not charged yet: the base side comes first. *)
Definition borrows (o : Serum3Orders) (token_index : Z) : Z :=
  if token_index =? s3_base_token_index o then s3_base_borrows_without_fee o else s3_quote_borrows_without_fee o.

Definition set_borrows (o : Serum3Orders) (token_index n : Z) : Serum3Orders :=
  if token_index =? s3_base_token_index o then o <| s3_base_borrows_without_fee := n |>
  else o <| s3_quote_borrows_without_fee := n |>.

Lemma set_borrows_market o ti n : s3_market_index (set_borrows o ti n) = s3_market_index o.
Proof. unfold set_borrows. by destruct (ti =? _). Qed.

(** The part of a change from [v] to [v'] that is newly borrowed, in tokens. *)
Definition newly_borrowed (v v' : Z) : Z := Z.max 0 (- Z.max (v' - v) v') / fx_scale.

Lemma add_borrows_inv o b new d o' : 0 <= new ->
  add_borrows_without_fee o b new (fx_int d) = Done o' ->
  (bk_token_index b = s3_base_token_index o \/ bk_token_index b = s3_quote_token_index o) /\
  0 <= borrows o (bk_token_index b) + new /\
  o' = set_borrows o (bk_token_index b) (Z.max 0 (borrows o (bk_token_index b) + new - Z.max 0 d)).
Proof.
  intros Hn E. unfold add_borrows_without_fee, set_borrows, borrows in *. pose proof scale_pos.
  assert (Hd : (0 <? fx_int d) = (0 <? d)).
  { unfold fx_int. destruct (Z.ltb_spec 0 d), (Z.ltb_spec 0 (d * fx_scale)); try done; nia. }
  rewrite Hd in E.
  destruct (Z.eqb_spec (bk_token_index b) (s3_base_token_index o)) as [Hb|Hb];
    [|destruct (Z.eqb_spec (bk_token_index b) (s3_quote_token_index o)) as [Hq|Hq]; [|done]];
    (split; [auto|]); apply bind_Done_inv in E as (n & En & E); injection E as <-;
    apply bind_Done_inv in En as (m & Em & En); apply u64_inv in Em as [-> [Hm _]]; (split; [done|]);
    (destruct (Z.ltb_spec 0 d); [|injection En as <-; by rewrite (Z.max_l 0 d), Z.sub_0_r, Z.max_r by lia]);
    apply bind_Done_inv in En as (t & Et & En); apply fx_to_u64_inv in Et as [-> _]; injection En as <-;
    unfold saturating_sub_u64, fx_int; by rewrite Z.div_mul, (Z.max_r 0 d) by lia.
Qed.

(** A change of the vault by [d]: the position of the account changes by as much, and the
    borrows of the market follow. *)
Lemma apply_vault_difference_inv a mi b after before now a' b' vd : indexes_ok b -> 0 <= bk_loan_origination_fee_rate b ->
  apply_vault_difference a mi b after before now = Done (a', b', vd) ->
  exists p p' i k o o',
    Account.token_position_and_raw_index a (bk_token_index b) = Done (p, i) /\ slot_of a mi k o /\
    conserved b p b' p' (fx_int (after - before)) 0 1 /\ bk_potential_serum_tokens b' = bk_potential_serum_tokens b /\
    (bk_token_index b = s3_base_token_index o \/ bk_token_index b = s3_quote_token_index o) /\
    (before <= after -> newly_borrowed (value b p) (value b' p') = 0) /\
    0 <= borrows o (bk_token_index b) + newly_borrowed (value b p) (value b' p') /\
    o' = set_borrows o (bk_token_index b)
           (Z.max 0 (borrows o (bk_token_index b) + newly_borrowed (value b p) (value b' p') - Z.max 0 (after - before))) /\
    a' = Account.set_serum3 (Account.set_token a i p') k o' /\ vd = mkVaultDifference (bk_token_index b) (value b' p' - value b p).
Proof.
  intros HI HR E. unfold apply_vault_difference in E. pose proof scale_pos.
  apply bind_Done_inv in E as (x & Ex & E). apply fx_from_int_inv in Ex as ->.
  apply bind_Done_inv in E as (y & Ey & E). apply fx_from_int_inv in Ey as ->.
  apply bind_Done_inv in E as (d & Ed & E). apply fx_sub_inv in Ed as ->.
  replace (fx_int after - fx_int before) with (fx_int (after - before)) in E by (unfold fx_int; lia).
  apply bind_Done_inv in E as ([p i] & Ep & E). apply bind_Done_inv in E as (v & Ev & E). apply native_value in Ev as ->.
  apply bind_Done_inv in E as ([[b1 p1] act] & Ec & E).
  assert (Hnb : before <= after -> newly_borrowed (value b p) (value b1 p1) = 0).
  { intros Hle. rewrite (proj2 (Z.leb_le 0 (fx_int (after - before)))) in Ec by (unfold fx_int; nia).
    apply deposit_no_loan in Ec; [|done]. unfold newly_borrowed. by rewrite Z.max_l by lia. }
  apply change_conserved in Ec as [Ec Hpot]; [|done..].
  apply bind_Done_inv in E as (v' & Ev & E). apply native_value in Ev as ->.
  apply bind_Done_inv in E as (ch & Ech & E). apply fx_sub_inv in Ech as ->.
  apply bind_Done_inv in E as (ab & Eab & E). apply fx_abs_inv in Eab as ->.
  apply bind_Done_inv in E as (nb & Enb & E). apply fx_to_u64_inv in Enb as [Enb _].
  replace (Z.abs (Z.min (Z.max (value b1 p1 - value b p) (value b1 p1)) 0) / fx_scale)
    with (newly_borrowed (value b p) (value b1 p1)) in Enb by (unfold newly_borrowed; f_equal; lia).
  apply bind_Done_inv in E as ([k o] & Eo & E). apply unwrap_result_inv in Eo. change (slot_of a mi k o) in Eo.
  apply bind_Done_inv in E as (o' & Eb & E). injection E as <- <- <-. rewrite (cs_token _ _ _ _ _ _ _ Ec) in *.
  apply add_borrows_inv in Eb as (Ht & Hge & ->); [|subst nb; apply Z.div_pos; [lia|done]].
  rewrite !(cs_token _ _ _ _ _ _ _ Ec) in *. subst nb. exists p, p1, i, k, o. eexists. by split_and!.
Qed.

(** ** Steps of a settlement

    A step that brings in [d] tokens for the position and [f] for the fees, as seen from the bank [b] and the account. *)
Record tok_step (a : MangoAccount) (b : Bank) (a' : MangoAccount) (b' : Bank) (d f n : Z) : Prop := {
  ts_token p' i : Account.token_position_and_raw_index a' (bk_token_index b) = Done (p', i) ->
    exists p, Account.token_position_and_raw_index a (bk_token_index b) = Done (p, i) /\ conserved b p b' p' d f n;
  ts_bank : bk_token_index b' = bk_token_index b;
  ts_rate : bk_loan_origination_fee_rate b' = bk_loan_origination_fee_rate b;
  ts_indexes : indexes_ok b -> indexes_ok b'
}.

Lemma tok_step_trans a1 b1 a2 b2 a3 b3 d1 d2 f1 f2 n1 n2 :
  tok_step a1 b1 a2 b2 d1 f1 n1 -> tok_step a2 b2 a3 b3 d2 f2 n2 -> tok_step a1 b1 a3 b3 (d1 + d2) (f1 + f2) (n1 + n2).
Proof.
  intros [S1 T1 R1 I1] [S2 T2 R2 I2]. split; [|congruence..|auto].
  intros p' i E. rewrite <- T1 in E. apply S2 in E as (p2 & E2 & C2). rewrite T1 in E2.
  apply S1 in E2 as (p1 & E1 & C1). exists p1. split; [done|by eapply conserved_trans].
Qed.

(** Steps that leave the position and the bank alone. *)
Lemma tok_step_same a b a' :
  Account.token_position_and_raw_index a' (bk_token_index b) = Account.token_position_and_raw_index a (bk_token_index b) ->
  tok_step a b a' b 0 0 0.
Proof. intros E. split; [|done..]. intros p i Ep. exists p. split; [by rewrite <- E|apply conserved_refl]. Qed.

Lemma tok_step_weaken a b a' b' d f n n' : indexes_ok b -> n <= n' -> tok_step a b a' b' d f n -> tok_step a b a' b' d f n'.
Proof.
  intros HI Hn [S T R I]. split; [|done..]. intros p' i E. destruct (S p' i E) as (p & Ep & [M R' T' F' D' A]).
  pose proof (unit_value_pos b HI). exists p. split; [done|]. split; done || nia.
Qed.

(** A step on the token of [b], which leaves other tokens alone. *)
Definition side_step (a : MangoAccount) (b : Bank) (a' : MangoAccount) (b' : Bank) (d f n : Z) : Prop :=
  tok_step a b a' b' d f n /\
  forall tj, tj <> bk_token_index b -> Account.token_position_and_raw_index a' tj = Account.token_position_and_raw_index a tj.

(** A position of the token changed; slots of markets and the fixed part do not matter. *)
Lemma side_step_set a b p i p' b' d f n a' : Account.token_position_and_raw_index a (bk_token_index b) = Done (p, i) ->
  conserved b p b' p' d f n -> ma_tokens a' = <[i := p']> (ma_tokens a) -> side_step a b a' b' d f n.
Proof.
  intros E C Ha. pose proof (token_position_lookup _ _ _ _ E) as (_ & _ & Tp).
  assert (Hp : tp_token_index p' = bk_token_index b) by (rewrite (mv_token_index _ _ _ _ (cs_moved _ _ _ _ _ _ _ C)); done).
  assert (Hl : forall tj, Account.token_position_and_raw_index a' tj = Account.token_position_and_raw_index (Account.set_token a i p') tj).
  { intros tj. unfold Account.token_position_and_raw_index. simpl. by rewrite Ha. }
  split; [split|].
  - intros q j Eq. rewrite Hl, (token_position_set _ _ _ _ _ E Hp) in Eq. injection Eq as <- <-. eauto.
  - by eapply cs_token.
  - by eapply cs_rate.
  - by eapply conserved_indexes.
  - intros c Hne. rewrite Hl. by eapply token_position_other.
Qed.

Lemma tokens_same a b a' : ma_tokens a' = ma_tokens a -> tok_step a b a' b 0 0 0.
Proof. intros Ha. apply tok_step_same. unfold Account.token_position_and_raw_index. by rewrite Ha. Qed.

(** The borrow counter of a side, and the slot with it set. *)
Definition side_borrows (is_base : bool) (o : Serum3Orders) : Z :=
  if is_base then s3_base_borrows_without_fee o else s3_quote_borrows_without_fee o.
Definition set_side_borrows (is_base : bool) (o : Serum3Orders) (n : Z) : Serum3Orders :=
  if is_base then o <| s3_base_borrows_without_fee := n |> else o <| s3_quote_borrows_without_fee := n |>.

(** What was borrowed for tokens that are no longer in the open orders account is charged. *)
Lemma charge_side_inv a b mi is_base total oracle clock a' b' :
  indexes_ok b -> 0 <= bk_loan_origination_fee_rate b ->
  charge_side a b mi is_base total oracle clock = Done (a', b') ->
  exists k o, slot_of a mi k o /\ slot_of a' mi k (set_side_borrows is_base o (Z.min (side_borrows is_base o) total)) /\
    let fee := loan_fee b (side_borrows is_base o) total in side_step a b a' b' (- fee) fee 1.
Proof.
  intros HI HR E. unfold charge_side in E. pose proof scale_pos.
  apply bind_Done_inv in E as ([k o] & Eo & E). apply unwrap_result_inv in Eo. pose proof (serum3_orders_inv _ _ _ _ Eo) as (_ & _ & Hmi).
  apply bind_Done_inv in E as (loan & El & E). apply fx_from_int_inv in El as ->. unfold saturating_sub_u64 in E.
  fold (side_borrows is_base o) in E. exists k, o. split; [done|]. unfold loan_fee.
  destruct (Z.ltb_spec 0 (fx_int (Z.max 0 (side_borrows is_base o - total)))) as [Hp|Hp].
  - assert (Hlt : total < side_borrows is_base o) by (unfold fx_int in Hp; nia).
    apply bind_Done_inv in E as ([p i] & Ep & E). apply bind_Done_inv in E as ([[b1 p1] r] & Ew & E).
    apply origination_conserved in Ew as C; [|done..]. apply bind_Done_inv in E as (pr & _ & E). injection E as <- <-.
    split; [|by eapply side_step_set].
    rewrite Z.min_r by lia. unfold set_side_borrows, slot_of. by destruct is_base; apply (serum3_orders_set a mi k o).
  - assert (Hge : side_borrows is_base o <= total) by (unfold fx_int in Hp; nia). injection E as <- <-. split.
    + rewrite Z.min_l by lia. unfold slot_of. rewrite Eo. unfold set_side_borrows, side_borrows. by destruct is_base, o.
    + rewrite Z.max_l by lia. unfold fx_int. rewrite Z.mul_0_l, Z.mul_0_r, Z.div_0_l by lia.
      split; [|done]. apply (tok_step_weaken _ _ _ _ 0 0 0); [done|lia|]. by apply tokens_same.
Qed.

(** The rebates are collected by the bank. *)
Lemma collect_rebates_inv g a q before after oracle clock a' q' fees :
  collect_rebates g a q before after oracle clock = Done (a', q', fees) ->
  fees = Z.max 0 (oos_referrer_rebates_accrued before - oos_referrer_rebates_accrued after) /\
  ma_tokens a' = ma_tokens a /\ ma_serum3 a' = ma_serum3 a /\
  q' = set_bk_collected_fees_native q (bk_collected_fees_native q + fx_int fees).
Proof.
  unfold collect_rebates. intros E. apply bind_Done_inv in E as (f & Ef & E). apply fx_from_int_inv in Ef as ->.
  apply bind_Done_inv in E as (c & Ec & E). apply fx_add_inv in Ec as ->. apply bind_Done_inv in E as (a1 & Ea & E).
  injection E as <- <- <-. assert (ma_tokens a1 = ma_tokens a /\ ma_serum3 a1 = ma_serum3 a) as [-> ->]; [|done].
  destruct oracle as [o|]; [|by injection Ea as <-].
  do 5 (apply bind_Done_inv in Ea as (? & _ & Ea)). by injection Ea as <-.
Qed.

(** The vault changed by [after - before]. *)
Lemma vault_step a mi b after before now a' b' vd : indexes_ok b -> 0 <= bk_loan_origination_fee_rate b ->
  apply_vault_difference a mi b after before now = Done (a', b', vd) ->
  side_step a b a' b' (fx_int (after - before)) 0 1 /\
  (exists p i, Account.token_position_and_raw_index a' (bk_token_index b) = Done (p, i)) /\
  exists k o new,
    slot_of a mi k o /\ (before <= after -> new = 0) /\ 0 <= borrows o (bk_token_index b) + new /\
    (bk_token_index b = s3_base_token_index o \/ bk_token_index b = s3_quote_token_index o) /\
    slot_of a' mi k (set_borrows o (bk_token_index b) (Z.max 0 (borrows o (bk_token_index b) + new - Z.max 0 (after - before)))).
Proof.
  intros HI HR E. apply apply_vault_difference_inv in E as (p & p' & i & k & o & o' & Ep & Eo & C & _ & Ht & Hn & Hge & Ho & -> & _); [|done..].
  pose proof (token_position_lookup _ _ _ _ Ep) as (_ & _ & Tp). pose proof (serum3_orders_inv _ _ _ _ Eo) as (_ & _ & Hmi).
  assert (Hp' : tp_token_index p' = bk_token_index b) by (rewrite (mv_token_index _ _ _ _ (cs_moved _ _ _ _ _ _ _ C)); done).
  split; [by eapply side_step_set|]. split.
  - exists p', i. change (Account.token_position_and_raw_index (Account.set_token a i p') (bk_token_index b) = Done (p', i)).
    by eapply token_position_set.
  - exists k, o, (newly_borrowed (value b p) (value b' p')). split_and!; [done..|]. rewrite <- Ho.
    apply (serum3_orders_set (Account.set_token a i p') mi k o); [exact Eo|]. subst o'. unfold set_borrows. by case_match.
Qed.

(** The potential tokens of a bank follow a change from [old] to [new] in an open orders account. *)
Definition follow_potential (b : Bank) (old new : Z) : Bank :=
  set_bk_potential_serum_tokens b (Z.max 0 (bk_potential_serum_tokens b + (new - old))).

Lemma potential_inv b old new b' : update_potential_serum_tokens b old new = Done b' -> b' = follow_potential b old new.
Proof.
  unfold update_potential_serum_tokens, follow_potential, saturating_sub_u64. intros E.
  destruct (old <=? new); apply bind_Done_inv in E as (d & Ed & E); apply u64_inv in Ed as [-> _].
  - apply bind_Done_inv in E as (n & En & E). apply u64_inv in En as [-> [Hn _]]. injection E as <-. by rewrite Z.max_r.
  - injection E as <-. f_equal. lia.
Qed.

Lemma potential_step a b n : tok_step a b a (set_bk_potential_serum_tokens b n) 0 0 0.
Proof.
  split; [|done|done|by intros []; constructor]. intros p i Ep. exists p. split; [done|].
  split; [done..|simpl; lia|done|]. change (value (set_bk_potential_serum_tokens b n) p) with (value b p). simpl. lia.
Qed.

Lemma update_potential_inv o b q oo o' b' q' : update_bank_potential_tokens o b q oo = Done (o', b', q') ->
  s3_base_token_index o = bk_token_index b /\ s3_quote_token_index o = bk_token_index q /\
  exists nb nq, potential_base o oo = Done nb /\ potential_quote o oo = Done nq /\
    o' = (o <| s3_potential_base_tokens := nb |>) <| s3_potential_quote_tokens := nq |> /\
    b' = follow_potential b (s3_potential_base_tokens o) nb /\ q' = follow_potential q (s3_potential_quote_tokens o) nq.
Proof.
  unfold update_bank_potential_tokens. intros E. apply bind_Done_inv in E as (u1 & E1 & E). apply bind_Done_inv in E as (u2 & E2 & E).
  unfold assert_ in E1, E2. destruct (Z.eqb_spec (s3_base_token_index o) (bk_token_index b)) as [H1'|]; [|done].
  destruct (Z.eqb_spec (s3_quote_token_index o) (bk_token_index q)) as [H2'|]; [|done].
  apply bind_Done_inv in E as (nb & Enb & E). apply bind_Done_inv in E as (nq & Enq & E).
  apply bind_Done_inv in E as (b1 & Eb & E). apply bind_Done_inv in E as (q1 & Eq & E).
  injection E as <- <- <-. apply potential_inv in Eb, Eq. split_and!; try done. by exists nb, nq.
Qed.

Lemma slot_unique a mi k o k' o' : slot_of a mi k o -> slot_of a mi k' o' -> k' = k /\ o' = o.
Proof. unfold slot_of. intros -> [= -> ->]. done. Qed.

Lemma borrows_base o ti : ti = s3_base_token_index o ->
  borrows o ti = side_borrows true o /\ forall n, set_borrows o ti n = set_side_borrows true o n.
Proof. intros ->. unfold borrows, set_borrows. by rewrite Z.eqb_refl. Qed.

Lemma borrows_quote o ti : ti <> s3_base_token_index o ->
  borrows o ti = side_borrows false o /\ forall n, set_borrows o ti n = set_side_borrows false o n.
Proof. intros Hne. unfold borrows, set_borrows. by rewrite (proj2 (Z.eqb_neq _ _) Hne). Qed.

(** The changes after a settlement: [fees] of what came in are the rebates, which the bank
    of the quote token collects. *)
Lemma apply_settle_changes_inv g a b q m bv qv before bv' qv' after cache (fees_to_dao : bool) oracle clock a' b' q' cache' k o :
  indexes_ok b -> indexes_ok q -> 0 <= bk_loan_origination_fee_rate b -> 0 <= bk_loan_origination_fee_rate q ->
  bk_token_index b <> bk_token_index q -> slot_of a (s3m_market_index m) k o ->
  apply_settle_changes g a b q m (bv, qv) before (bv', qv') after cache fees_to_dao oracle clock = Done (a', b', q', cache') ->
  let fees := if fees_to_dao then Z.max 0 (oos_referrer_rebates_accrued before - oos_referrer_rebates_accrued after) else 0 in
  bv <= bv' /\ qv <= qv' - fees /\
  tok_step a b a' b' (fx_int (bv' - bv)) 0 1 /\ tok_step a q a' q' (fx_int (qv' - fees - qv)) (fx_int fees) 1 /\
  (exists p i, Account.token_position_and_raw_index a' (bk_token_index b) = Done (p, i)) /\
  (exists p i, Account.token_position_and_raw_index a' (bk_token_index q) = Done (p, i)) /\
  0 <= side_borrows true o /\ 0 <= side_borrows false o /\
  exists o', slot_of a' (s3m_market_index m) k o' /\
    side_borrows true o' = Z.max 0 (side_borrows true o - (bv' - bv)) /\
    side_borrows false o' = Z.max 0 (side_borrows false o - (qv' - fees - qv)).
Proof.
  intros HIb HIq HRb HRq Hne Ho E fees. unfold apply_settle_changes in E.
  apply bind_Done_inv in E as ([[a1 q1] rf] & Er & E).
  assert (rf = fees /\ ma_tokens a1 = ma_tokens a /\ ma_serum3 a1 = ma_serum3 a /\ indexes_ok q1 /\
    q1 = set_bk_collected_fees_native q (bk_collected_fees_native q + fx_int fees)) as (-> & Ta & Sa & HIq1 & Hq1).
  { destruct fees_to_dao.
    - apply collect_rebates_inv in Er as (-> & -> & -> & ->). split_and!; try done. by destruct HIq; constructor.
    - injection Er as <- <- <-. split_and!; try done. unfold fees, fx_int. rewrite Z.mul_0_l, Z.add_0_r. by destruct q. }
  assert (S1 : tok_step a q a1 q1 0 (fx_int fees) 0).
  { destruct (tokens_same a q a1 Ta) as [St _ _ _]. subst q1. split; [|done..]. intros p i Ep.
    apply St in Ep as (p0 & Ep & [M R T F D A]). exists p0. split; [done|]. split; [by destruct M; constructor|done..|simpl in *; lia|done|].
    change (value (set_bk_collected_fees_native q _) p) with (value q p). simpl. lia. }
  assert (Tq1 : bk_token_index q1 = bk_token_index q) by (by subst q1).
  assert (Rq1 : bk_loan_origination_fee_rate q1 = bk_loan_origination_fee_rate q) by (by subst q1). clear Er Hq1.
  simpl in E. apply bind_Done_inv in E as (av & Eav & E). apply u64_inv in Eav as [-> _].
  apply bind_Done_inv in E as (u1 & E1 & E). apply require_inv, Z.leb_le in E1.
  apply bind_Done_inv in E as (u2 & E2 & E). apply require_inv, Z.leb_le in E2.
  apply bind_Done_inv in E as ([[a2 b2] d1] & Eb & E).
  apply vault_step in Eb as ([Sb Sbo] & (pb & ib & Pb) & k1 & o1 & n1 & Eo1 & Hn1 & Hg1 & _ & Eo2); [|done..].
  apply bind_Done_inv in E as ([[a3 q3] d2] & Eq & E).
  apply vault_step in Eq as ([Sq Sqo] & (pq & iq & Pq) & k2 & o2 & n2 & Eo2' & Hn2 & Hg2 & _ & Eo3); [|done|lia].
  rewrite Hn1 in * by done. rewrite Hn2 in * by done. clear Hn1 Hn2.
  assert (Eo1' : slot_of a1 (s3m_market_index m) k o) by (unfold slot_of, Account.serum3_orders in *; by rewrite Sa).
  destruct (slot_unique _ _ _ _ _ _ Eo1' Eo1) as [-> ->]. destruct (slot_unique _ _ _ _ _ _ Eo2 Eo2') as [-> ->].
  apply bind_Done_inv in E as ([k4 o4] & Eo4 & E). destruct (slot_unique _ _ _ _ _ _ Eo3 Eo4) as [-> ->].
  apply bind_Done_inv in E as ([[o5 b5] q5] & Ep & E). apply bind_Done_inv in E as (hc & _ & E). injection E as <- <- <- <-.
  pose proof (serum3_orders_inv _ _ _ _ Eo3) as (_ & _ & Hmi).
  apply update_potential_inv in Ep as (Tb & Tq & nb & nq & _ & _ & Ho5 & Hb5 & Hq5).
  assert (Hmi5 : s3_market_index o5 = s3m_market_index m) by (by rewrite Ho5).
  pose proof (fun ib => f_equal (side_borrows ib) Ho5) as Hsb.
  assert (Pb5 : tok_step a3 b2 a3 b5 0 0 0) by (rewrite Hb5; apply potential_step).
  assert (Pq5 : tok_step a3 q3 a3 q5 0 0 0) by (rewrite Hq5; apply potential_step). clear Ho5 Hb5 Hq5.
  rewrite (ts_bank _ _ _ _ _ _ _ Sb) in Tb. rewrite (ts_bank _ _ _ _ _ _ _ Sq), Tq1 in Tq.
  rewrite Tq1 in *.
  set (z1 := Z.max 0 _) in Eo2, Eo2', Hg2, Eo3, Hmi, Hsb, Tb, Tq, Eo4, Hmi5.
  assert (Hbase : bk_token_index b = s3_base_token_index o).
  { rewrite <- Tb. unfold set_borrows. repeat case_match; done. }
  destruct (borrows_base o _ Hbase) as [B1 B2]. rewrite B1, B2 in *.
  assert (Hquote : bk_token_index q <> s3_base_token_index (set_side_borrows true o z1)) by (simpl; congruence).
  destruct (borrows_quote _ _ Hquote) as [Q1 Q2]. rewrite Q1, Q2 in *.
  assert (Ha5 : forall c, tok_step a3 c (Account.set_serum3 a3 k o5) c 0 0 0) by (intros c; by apply tokens_same).
  split_and!; [lia|lia|..].
  - pose proof (tok_step_trans _ _ _ _ _ _ _ _ _ _ _ _ (tokens_same a b a1 Ta) Sb) as S.
    assert (So : tok_step a2 b2 a3 b2 0 0 0) by (apply tok_step_same, Sqo; rewrite (ts_bank _ _ _ _ _ _ _ Sb); congruence).
    pose proof (tok_step_trans _ _ _ _ _ _ _ _ _ _ _ _ (tok_step_trans _ _ _ _ _ _ _ _ _ _ _ _ S So)
      (tok_step_trans _ _ _ _ _ _ _ _ _ _ _ _ Pb5 (Ha5 b5))) as S'.
    by rewrite !Z.add_0_r, !Z.add_0_l in S'.
  - assert (So : tok_step a1 q1 a2 q1 0 0 0) by (apply tok_step_same, Sbo; congruence).
    pose proof (tok_step_trans _ _ _ _ _ _ _ _ _ _ _ _ (tok_step_trans _ _ _ _ _ _ _ _ _ _ _ _ (tok_step_trans _ _ _ _ _ _ _ _ _ _ _ _ S1 So) Sq)
      (tok_step_trans _ _ _ _ _ _ _ _ _ _ _ _ Pq5 (Ha5 q5))) as S'.
    by rewrite !Z.add_0_r, !Z.add_0_l in S'.
  - exists pb, ib. change (Account.token_position_and_raw_index a3 (bk_token_index b) = Done (pb, ib)). by rewrite Sqo by congruence.
  - by exists pq, iq.
  - lia.
  - change (side_borrows false (set_side_borrows true o z1)) with (side_borrows false o) in Hg2. lia.
  - exists o5. split; [|rewrite !Hsb; unfold z1, side_borrows, set_side_borrows in *; simpl; lia].
    apply (serum3_orders_set a3 _ k _ o5 Eo3). congruence.
Qed.

Lemma tok_step_conserved a b a' b' d f n p' i : tok_step a b a' b' d f n ->
  Account.token_position_and_raw_index a' (bk_token_index b) = Done (p', i) -> token_conserved a b a' b' d f n.
Proof. intros [S _ _ _] E. destruct (S _ _ E) as (p & Ep & C). by exists p, p', i. Qed.

(** Both loan origination fees. *)
Lemma charge_loan_inv mi b q a before ob oq clock a' b' q' : indexes_ok b -> indexes_ok q ->
  0 <= bk_loan_origination_fee_rate b -> 0 <= bk_loan_origination_fee_rate q -> bk_token_index b <> bk_token_index q ->
  charge_loan_origination_fees mi b q a before ob oq clock = Done (a', b', q') ->
  exists k o o', slot_of a mi k o /\ slot_of a' mi k o' /\
    side_borrows true o' = Z.min (side_borrows true o) (oos_native_coin_total before) /\
    side_borrows false o' = Z.min (side_borrows false o) (oos_native_pc_total before) /\
    let fb := loan_fee b (side_borrows true o) (oos_native_coin_total before) in
    let fq := loan_fee q (side_borrows false o) (oos_native_pc_total before) in
    tok_step a b a' b' (- fb) fb 1 /\ tok_step a q a' q' (- fq) fq 1.
Proof.
  intros HIb HIq HRb HRq Hne E. unfold charge_loan_origination_fees in E.
  apply bind_Done_inv in E as ([a1 b1] & Eb & E). apply charge_side_inv in Eb as (k & o & Eo & Eo1 & Sb & Sbo); [|done..].
  apply bind_Done_inv in E as ([a2 q1] & Eq & E). apply charge_side_inv in Eq as (k1 & o1 & Eo1' & Eo2 & Sq & Sqo); [|done..].
  injection E as <- <- <-. destruct (slot_unique _ _ _ _ _ _ Eo1 Eo1') as [-> ->].
  assert (S1 : tok_step a1 b1 a2 b1 0 0 0) by (apply tok_step_same, Sqo; by rewrite (ts_bank _ _ _ _ _ _ _ Sb)).
  assert (S2 : tok_step a q a1 q 0 0 0) by (apply tok_step_same, Sbo; congruence).
  pose proof (tok_step_trans _ _ _ _ _ _ _ _ _ _ _ _ Sb S1) as Tb. pose proof (tok_step_trans _ _ _ _ _ _ _ _ _ _ _ _ S2 Sq) as Tq.
  rewrite !Z.add_0_r in Tb. rewrite !Z.add_0_l in Tq. exists k, o. eexists. by split_and!.
Qed.

Context `{SerumLaws}.

(** C17: Settling conserves tokens and charges loans once. If it returns, the signer is the
    owner or a delegate of the account; the free tokens and the rebates have left the open
    orders account for the vaults. Of the borrows that were made to place orders, the part
    no longer in orders is charged the loan fee of its bank once and forgotten; the rest is
    kept, less what came back. In both banks the collected fees grow by exactly that fee
    (and the rebates, if they go to the DAO), and the position of the account by what its
    vault gained less these fees, up to the rounding of two changes in favour of the
    account; a rest may become dust only if the position is not in use. Both banks have
    positive indexes and loan fee rates that are not negative, and the two tokens of the
    market are distinct. *)
Theorem serum3_settle_funds_conserves x v owner v2 (fees_to_dao : bool) clock x' v' :
  indexes_ok (sv_base_bank v) -> indexes_ok (sv_quote_bank v) ->
  0 <= bk_loan_origination_fee_rate (sv_base_bank v) -> 0 <= bk_loan_origination_fee_rate (sv_quote_bank v) ->
  s3m_base_token_index (sx_market x) <> s3m_quote_token_index (sx_market x) ->
  0 <= oos_referrer_rebates_accrued (oo_slim (sx_open_orders x)) ->
  serum3_settle_funds x v owner v2 fees_to_dao clock = Done (x', v') ->
  let s := oo_slim (sx_open_orders x) in
  let paid := oos_native_pc_free s + if fees_to_dao then 0 else oos_referrer_rebates_accrued s in
  Fixed.is_owner_or_delegate (ma_fixed (sx_account x)) (clock_ts clock) owner = true /\
  oo_slim (sx_open_orders x') = settled_slim s /\
  sv_base_vault v' = sv_base_vault v + oos_native_coin_free s /\
  sv_quote_vault v' = sv_quote_vault v + oos_native_pc_free s + oos_referrer_rebates_accrued s /\
  exists k o o', slot_of (sx_account x) (s3m_market_index (sx_market x)) k o /\
    slot_of (sx_account x') (s3m_market_index (sx_market x)) k o' /\
    side_borrows true o' = Z.max 0 (Z.min (side_borrows true o) (oos_native_coin_total s) - oos_native_coin_free s) /\
    side_borrows false o' = Z.max 0 (Z.min (side_borrows false o) (oos_native_pc_total s) - paid) /\
    let base_fee := loan_fee (sv_base_bank v) (side_borrows true o) (oos_native_coin_total s) in
    let quote_fee := loan_fee (sv_quote_bank v) (side_borrows false o) (oos_native_pc_total s) in
    token_conserved (sx_account x) (sv_base_bank v) (sx_account x') (sv_base_bank v')
      (fx_int (oos_native_coin_free s) - base_fee) base_fee 2 /\
    token_conserved (sx_account x) (sv_quote_bank v) (sx_account x') (sv_quote_bank v')
      (fx_int paid - quote_fee) (quote_fee + fx_int (if fees_to_dao then oos_referrer_rebates_accrued s else 0)) 2.
Proof.
  intros HIb HIq HRb HRq Hne Hreb E. unfold serum3_settle_funds in E. intros s paid.
  apply bind_Done_inv in E as (u1 & _ & E). apply bind_Done_inv in E as (u2 & _ & E). apply bind_Done_inv in E as (u3 & _ & E).
  apply bind_Done_inv in E as (u4 & _ & E). apply bind_Done_inv in E as (u5 & E5 & E). apply require_inv in E5.
  apply bind_Done_inv in E as (u6 & _ & E). apply bind_Done_inv in E as (u7 & E7 & E). unfold bank_checks in E7.
  apply bind_Done_inv in E7 as (? & _ & E7). apply bind_Done_inv in E7 as (? & Tq & E7). apply require_inv, Z.eqb_eq in Tq.
  apply bind_Done_inv in E7 as (? & _ & E7). apply bind_Done_inv in E7 as (? & Tb & E7). apply require_inv, Z.eqb_eq in Tb.
  assert (Hne' : bk_token_index (sv_base_bank v) <> bk_token_index (sv_quote_bank v)) by congruence.
  apply bind_Done_inv in E as ([[a1 b1] q1] & Ec & E).
  apply charge_loan_inv in Ec as (k & o & o1 & Eo & Eo1 & Bb & Bq & Sb & Sq); [|done..].
  apply bind_Done_inv in E as ([[oo bv] qv] & Es & E). apply settle_funds_inv in Es as (Hs & -> & ->).
  apply bind_Done_inv in E as ([[[a2 b2] q2] hc] & Ea & E). injection E as <- <-.
  apply (apply_settle_changes_inv _ _ _ _ _ _ _ _ _ _ _ _ _ _ _ _ _ _ _ k o1) in Ea
    as (Hb & Hq & Sb2 & Sq2 & (pb & ib & Pb) & (pq & iq & Pq) & _ & _ & o2 & Eo2 & Bb2 & Bq2);
    [|by apply (ts_indexes _ _ _ _ _ _ _ Sb)|by apply (ts_indexes _ _ _ _ _ _ _ Sq)|by rewrite (ts_rate _ _ _ _ _ _ _ Sb)
     |by rewrite (ts_rate _ _ _ _ _ _ _ Sq)|by rewrite (ts_bank _ _ _ _ _ _ _ Sb), (ts_bank _ _ _ _ _ _ _ Sq)|done].
  fold s in Hs, Bb, Bq, Hq, Bb2, Bq2, Sb2, Sq2, Hreb |- *. rewrite Hs in *. cbn [oos_referrer_rebates_accrued settled_slim] in Hq, Bq2, Sq2. rewrite (ts_bank _ _ _ _ _ _ _ Sb) in Pb.
  rewrite (ts_bank _ _ _ _ _ _ _ Sq) in Pq. cbn [sx_account sx_open_orders sv_base_bank sv_quote_bank sv_base_vault sv_quote_vault].
  assert (Hpaid : sv_quote_vault v + oos_native_pc_free s + oos_referrer_rebates_accrued s
      - (if fees_to_dao then Z.max 0 (oos_referrer_rebates_accrued s - 0) else 0) - sv_quote_vault v = paid).
  { unfold paid. destruct fees_to_dao; lia. }
  rewrite Hpaid in *. do 4 (split; [done|]). exists k, o, o2.
  split_and!; [done|done|rewrite Bb2, Bb; f_equal; lia|by rewrite Bq2, Bq| |].
  - pose proof (tok_step_conserved _ _ _ _ _ _ _ _ _ (tok_step_trans _ _ _ _ _ _ _ _ _ _ _ _ Sb Sb2) Pb) as T.
    replace (sv_base_vault v + oos_native_coin_free s - sv_base_vault v) with (oos_native_coin_free s) in T by lia.
    by rewrite Z.add_0_r, (Z.add_comm (- _)) in T.
  - pose proof (tok_step_conserved _ _ _ _ _ _ _ _ _ (tok_step_trans _ _ _ _ _ _ _ _ _ _ _ _ Sq Sq2) Pq) as T.
    rewrite (Z.add_comm (- _)) in T. destruct fees_to_dao; [|done]. by rewrite Z.sub_0_r, Z.max_r in T.
Qed.

(** ** Placing an order *)

(** Ensuring a position for one token keeps that of another. *)
Lemma ensure_other a tj a' raw k ti : tj <> TOKEN_INDEX_MAX -> ti <> TOKEN_INDEX_MAX -> ti <> tj ->
  Account.ensure_token_position a tj = Done (a', raw, k) ->
  Account.token_position_and_raw_index a' ti = Account.token_position_and_raw_index a ti /\ ma_serum3 a' = ma_serum3 a.
Proof.
  intros Hj Hi Hne E. unfold Account.ensure_token_position in E. rewrite AccountSpec.match_or_free_token_ok in E by done.
  assert (Hset : forall i t t', ma_tokens a !! i = Some t -> Token.is_active_for_token t ti = false ->
    Token.is_active_for_token t' ti = false ->
    Account.token_position_and_raw_index (Account.set_token a i t') ti = Account.token_position_and_raw_index a ti).
  { intros i t t' Ht Hf Hf'. unfold Account.token_position_and_raw_index. simpl.
    rewrite (position_same (fun t => Token.is_active_for_token t ti) _ _ _ _ Ht) by congruence.
    destruct (position (fun t => Token.is_active_for_token t ti) (ma_tokens a)) as [n|] eqn:En; [|done]. simpl.
    apply position_Some in En as [(x & Hx & Hx') _]. rewrite list_lookup_insert_ne; [done|]. intros <-. congruence. }
  assert (Hact : forall t, tp_token_index t <> ti -> Token.is_active_for_token t ti = false) by (intros t Ht; by apply Z.eqb_neq).
  destruct (position (fun t => Token.is_active_for_token t tj) (ma_tokens a)) as [i|] eqn:Ei.
  - apply position_Some in Ei as [(t & Ht & Hf) _]. simpl in E. rewrite Ht in E. simpl in E. rewrite Hf in E. injection E as <- <- <-.
    apply Z.eqb_eq in Hf. split; [|done]. apply (Hset i t t Ht); apply Hact; congruence.
  - destruct (position (fun t => negb (Token.is_active t)) (ma_tokens a)) as [i|] eqn:En; [|done]. simpl in E.
    apply position_Some in En as [(t & Ht & Hf) _]. rewrite Ht in E. simpl in E.
    rewrite position_None in Ei. rewrite (Ei _ _ Ht) in E. injection E as <- <- <-. split; [|done].
    apply negb_true_iff, negb_false_iff, Z.eqb_eq in Hf. apply (Hset i t _ Ht); apply Hact; simpl; congruence.
Qed.

(** The potential tokens of the slot [s] and of the banks follow the open orders [oo]: those
    of both sides, or in the first version of the instruction only those of the payer's. *)
Definition potentials_followed (is_v2 : bool) (s : Serum3Orders) (payer receiver : Bank) (oo : OpenOrdersSlim)
    (s' : Serum3Orders) (payer' receiver' : Bank) : Prop :=
  let payer_is_base := s3_base_token_index s =? bk_token_index payer in
  exists nb nq,
    (if is_v2 || payer_is_base then potential_base s oo = Done nb else nb = s3_potential_base_tokens s) /\
    (if is_v2 || negb payer_is_base then potential_quote s oo = Done nq else nq = s3_potential_quote_tokens s) /\
    s' = (s <| s3_potential_base_tokens := nb |>) <| s3_potential_quote_tokens := nq |> /\
    let base b := follow_potential b (s3_potential_base_tokens s) nb in
    let quote b := follow_potential b (s3_potential_quote_tokens s) nq in
    payer' = (if payer_is_base then base payer else quote payer) /\
    receiver' = if is_v2 then if payer_is_base then quote receiver else base receiver else receiver.

Lemma update_potentials_inv (is_v2 : bool) side o payer receiver oo o' payer' receiver' :
  bk_token_index payer <> bk_token_index receiver ->
  update_potentials is_v2 side o payer receiver oo = Done (o', payer', receiver') ->
  potentials_followed is_v2 o payer receiver oo o' payer' receiver'.
Proof.
  unfold update_potentials, potentials_followed. intros Hne E. destruct is_v2.
  - destruct side; apply bind_Done_inv in E as ([[o1 b1] q1] & Eu & E); injection E as <- <- <-;
      apply update_potential_inv in Eu as (Tb & Tq & nb & nq & Eb & Eq & -> & -> & ->); exists nb, nq; rewrite Tb;
      [rewrite (proj2 (Z.eqb_neq _ _)) by congruence|rewrite Z.eqb_refl]; by split_and!.
  - apply bind_Done_inv in E as ([o1 b1] & Eu & E). injection E as <- <- <-.
    unfold update_bank_potential_tokens_payer_only in Eu.
    destruct (_ =? _); [|apply bind_Done_inv in Eu as (u & _ & Eu)];
      apply bind_Done_inv in Eu as (n & En & Eu); apply bind_Done_inv in Eu as (b2 & Eb & Eu);
      injection Eu as <- <-; apply potential_inv in Eb as ->;
      [exists n, (s3_potential_quote_tokens o)|exists (s3_potential_base_tokens o), n]; by split_and!.
Qed.

Lemma potentials_kept is_v2 s payer receiver oo s' payer' receiver' :
  potentials_followed is_v2 s payer receiver oo s' payer' receiver' ->
  (exists n, payer' = set_bk_potential_serum_tokens payer n) /\ s3_market_index s' = s3_market_index s.
Proof. intros (nb & nq & _ & _ & -> & -> & _). split; [|done]. case_match; by eexists. Qed.

Lemma track_prices_index o hb ha nb side price : s3_market_index (track_prices o hb ha nb side price) = s3_market_index o.
Proof. unfold track_prices. by repeat case_match. Qed.

Lemma check_health_pre_serum3 {C} `{HealthSource C} a (c : C) a' h :
  Account.check_health_pre a c = Done (a', h) -> ma_serum3 a' = ma_serum3 a.
Proof.
  unfold Account.check_health_pre, Account.check_health_pre_checks. intros E.
  apply bind_Done_inv in E as (h0 & _ & E). apply bind_Done_inv in E as (a1 & E1 & E). injection E as <- <-.
  destruct (Fixed.maybe_recover_from_being_liquidated _ _) as [f0 ?].
  apply bind_Done_inv in E1 as (f & Ef & E1). apply bind_Done_inv in E1 as (u & _ & E1). by injection E1 as <-.
Qed.

(** When the order takes more than the deposits of the account. *)
Definition may_borrow (payer : Bank) (price : Z) : Prop :=
  BankCfg.are_borrows_reduce_only payer = false /\ (exists u, enforce_max_utilization_on_borrow payer = Done u) /\
  (exists u, check_net_borrows payer price = Done u) /\ exists u, check_deposit_and_oo_limit payer = Done u.

Lemma check_payer_inv payer taken before price u : check_payer payer taken before price = Done u ->
  before < taken -> may_borrow payer price.
Proof.
  unfold check_payer. intros E Hlt. rewrite (proj2 (Z.ltb_lt _ _) Hlt) in E.
  apply bind_Done_inv in E as (? & E1 & E). apply require_inv, negb_true_iff in E1. apply bind_Done_inv in E as (? & E2 & E).
  apply bind_Done_inv in E as (? & E3 & E). split_and!; eauto.
Qed.

Lemma receiver_bank_inv p account r ti a' ai b price ro :
  receiver_bank p account r ti = Done (a', ai, b, price, ro) ->
  (exists raw j, Account.ensure_token_position account ti = Done (a', raw, j) /\ sp_remaining p !! j = Some ai) /\
  snd ai = ABank b /\ bk_token_index b = ti.
Proof.
  unfold receiver_bank. intros E. apply bind_Done_inv in E as ([[a1 raw] j] & Ee & E).
  apply bind_Done_inv in E as ([b1 pr] & _ & E). apply bind_Done_inv in E as (ai1 & Ea & E). apply unwrap_inv in Ea.
  apply bind_Done_inv in E as (b2 & Eb & E). apply bind_Done_inv in E as (u1 & _ & E). apply bind_Done_inv in E as (u2 & Et & E).
  injection E as <- <- <- <- <-. unfold assert_ in Et. destruct (Z.eqb_spec (bk_token_index b2) ti) as [Hi|]; [|done].
  split; [by exists raw, j|]. split; [|done]. destruct ai1 as [k []]; try done. by injection Eb as ->.
Qed.

(** What an order leaves in the slot of the market and in the banks: the slot tracks the price
    of the order if it rests on the book, its potential tokens and those of the banks follow
    the open orders, what was newly borrowed is added to the borrows of the payer's side, and
    the receiving bank, which stays within its limits, is stored. *)
Definition order_recorded (p : PlaceAccounts) (o : SerumNewOrder) (require_v2 : bool) (s : Serum3Orders) (t t' : TokenPosition)
    (s' : Serum3Orders) (receiver' : Bank) (p' : PlaceAccounts) : Prop :=
  let oo := sx_open_orders (sp_serum p) in
  let oo' := sx_open_orders (sp_serum p') in
  let ti := bk_token_index (sp_payer_bank p) in
  let price := f64_div (f64_mul (f64_of_Z (no_limit_price o)) (f64_of_Z (sp_pc_lot_size p))) (f64_of_Z (sp_coin_lot_size p)) in
  let tracked := track_prices s (negb (bid_slots oo =? 0)) (negb (ask_slots oo =? 0))
                   (negb (oo_free_slot_bits oo' =? oo_free_slot_bits oo)) (no_side o) price in
  exists is_v2 key j receiver s1 payer,
    sp_remaining p !! j = Some (key, ABank receiver) /\
    bk_token_index receiver = receiver_token_index (sx_market (sp_serum p)) (no_side o) /\
    place_order_version (sx_group (sp_serum p)) (bool_decide (key ∈ sp_writable p)) require_v2 = Done is_v2 /\
    potentials_followed is_v2 tracked (sp_payer_bank p) receiver (oo_slim oo') s1 payer receiver' /\
    bk_potential_serum_tokens (sp_payer_bank p') = bk_potential_serum_tokens payer /\
    check_deposit_and_oo_limit receiver' = Done tt /\
    sp_remaining p' = write_account key (ABank receiver') (sync_bank (sp_payer_bank_pk p) (sp_payer_bank p') (sp_remaining p)) /\
    s' = set_borrows s1 ti (borrows s1 ti + newly_borrowed (value (sp_payer_bank p) t) (value (sp_payer_bank p') t')).

(** The init health before and after an order: that of the account before it, and that with the
    receiving bank, the change of the payer position and the new open orders put into the
    health cache. *)
Definition order_health (p p' : PlaceAccounts) (clock : Clock) (t t' : TokenPosition) (s' : Serum3Orders) (receiver' : Bank)
    (pre post : Z) : Prop :=
  let x := sp_serum p in let x' := sp_serum p' in
  exists cache cache',
    fixed_order_cache (sp_remaining p) (sx_account x) clock cache /\ health cache Init = Done pre /\
    place_health_cache cache receiver' (sp_payer_bank p')
      (mkVaultDifference (bk_token_index (sp_payer_bank p)) (value (sp_payer_bank p') t' - value (sp_payer_bank p) t)) s'
      (oo_slim (sx_open_orders x)) (oo_slim (sx_open_orders x')) = Done cache' /\ health cache' Init = Done post.

(** C16: Placing an order is safe. If it returns, the signer is the owner or a delegate, the
    market is not reduce-only, and the slot of the account is for this open orders account;
    the vault did not gain tokens, and what it lost is charged to the position of the
    account, up to the rounding of one change in its favour, and adds to the borrows of the
    slot as far as it is newly borrowed; the tracked prices and the potential tokens of the
    slot and the banks follow the new open orders. If more is taken than the account had,
    the bank allows the loan, its utilisation, net borrows at the oracle price and deposit
    limits included. Unless the account is in a health region it is not being liquidated and
    its init health afterwards is not negative or did not fall, where below -1000 it may
    fall within the same whole unit. The payer bank has positive indexes and a loan fee rate
    that is not negative, and the two tokens of the market are valid and distinct. *)
Theorem serum3_place_order_safe p owner clock o require_v2 p' :
  let x := sp_serum p in
  let m := sx_market x in
  let ti := bk_token_index (sp_payer_bank p) in
  indexes_ok (sp_payer_bank p) -> 0 <= bk_loan_origination_fee_rate (sp_payer_bank p) ->
  s3m_base_token_index m <> s3m_quote_token_index m ->
  s3m_base_token_index m <> TOKEN_INDEX_MAX -> s3m_quote_token_index m <> TOKEN_INDEX_MAX ->
  serum3_place_order p owner clock o require_v2 = Done p' ->
  Fixed.is_owner_or_delegate (ma_fixed (sx_account x)) (clock_ts clock) owner = true /\
  SerumMarket.is_reduce_only m = false /\ sp_payer_vault p' <= sp_payer_vault p /\
  exists k s s' t t' i receiver',
    slot_of (sx_account x) (s3m_market_index m) k s /\ s3_open_orders s = sx_open_orders_pk x /\
    slot_of (sx_account (sp_serum p')) (s3m_market_index m) k s' /\
    Account.token_position_and_raw_index (sx_account x) ti = Done (t, i) /\
    Account.token_position_and_raw_index (sx_account (sp_serum p')) ti = Done (t', i) /\
    conserved (sp_payer_bank p) t (sp_payer_bank p') t' (fx_int (sp_payer_vault p' - sp_payer_vault p)) 0 1 /\
    order_recorded p o require_v2 s t t' s' receiver' p' /\
    (value (sp_payer_bank p) t < fx_int (sp_payer_vault p - sp_payer_vault p') ->
     exists price, oracle_price (sp_payer_bank p') (from_reader (sp_payer_oracle p)) None = Done price /\
       may_borrow (sp_payer_bank p') price) /\
    (Fixed.is_in_health_region (ma_fixed (sx_account x)) = false ->
      Fixed.being_liquidated (ma_fixed (sx_account (sp_serum p'))) = false /\
      exists pre post, order_health p p' clock t t' s' receiver' pre post /\ health_kept pre post).
Proof.
  intros x m ti HI HR Hne Hb Hq E. unfold serum3_place_order in E. fold x m in E.
  apply bind_Done_inv in E as (u & Ec & E). unfold place_checks in Ec. fold x m in Ec.
  do 4 (apply bind_Done_inv in Ec as (? & _ & Ec)).
  apply bind_Done_inv in Ec as (? & Er & Ec). apply require_inv, negb_true_iff in Er.
  apply bind_Done_inv in Ec as (? & Eo & Ec). apply require_inv in Eo.
  apply bind_Done_inv in Ec as (? & Es & Ec). unfold open_orders_check in Es.
  apply bind_Done_inv in Es as ([ks sl] & Esl & Es). apply require_inv, Z.eqb_eq in Es.
  apply bind_Done_inv in Ec as (? & _ & Ec). apply require_inv, Z.eqb_eq in Ec.
  assert (Hpay : bk_token_index (sp_payer_bank p) <> receiver_token_index m (no_side o) /\
    bk_token_index (sp_payer_bank p) <> TOKEN_INDEX_MAX /\ receiver_token_index m (no_side o) <> TOKEN_INDEX_MAX).
  { rewrite Ec. destruct (no_side o); simpl; auto. } destruct Hpay as (Hpr & Hp & Hrc).
  apply bind_Done_inv in E as (rt & Ert & E). apply bind_Done_inv in E as (cache & Eca & E).
  apply bind_Done_inv in E as (? & _ & E). apply bind_Done_inv in E as (? & _ & E).
  apply bind_Done_inv in E as ([a1 pre] & Epre & E).
  assert (Hpre : ma_tokens a1 = ma_tokens (sx_account x) /\ ma_serum3 a1 = ma_serum3 (sx_account x) /\
    (Fixed.is_in_health_region (ma_fixed (sx_account x)) = false -> exists h, pre = Some h /\
      Fixed.being_liquidated (ma_fixed a1) = false /\ health cache Init = Done h)).
  { destruct (Fixed.is_in_health_region _) eqn:Hreg; [by injection Epre as <- <-|].
    apply bind_Done_inv in Epre as ([a2 h] & Eh & Epre). injection Epre as <- <-.
    pose proof (check_health_pre_serum3 _ _ _ _ Eh) as Hs3. apply check_health_pre_flag in Eh as (Hf & Hh & Ht & _). split_and!; eauto. }
  destruct Hpre as (Ht1 & Hs1 & Hpre). apply bind_Done_inv in E as ([[[[a3 rai] rcv] rprice] ro] & Erb & E).
  apply receiver_bank_inv in Erb as ((raw & ai & Een & Lai) & Hrai & Trcv). destruct rai as [key rd]. simpl in Hrai. subst rd.
  pose proof (ensure_token_position_inv _ _ _ _ _ Een) as [Hf2 _].
  apply (ensure_other _ _ _ _ _ (bk_token_index (sp_payer_bank p))) in Een as [Ht2 Hs2]; [|done..].
  apply bind_Done_inv in E as (is_v2 & Ev2 & E). apply bind_Done_inv in E as (needed & _ & E). do 2 (apply bind_Done_inv in E as (? & _ & E)).
  apply bind_Done_inv in E as ([oo av] & _ & E). apply bind_Done_inv in E as ([k so] & Eso & E).
  assert (Hslot : k = ks /\ so = sl).
  { assert (Eso' := Eso). unfold Account.serum3_orders in Eso'. rewrite Hs2, Hs1 in Eso'.
    change (Account.serum3_orders (sx_account x) (s3m_market_index (sx_market x)) = Done (k, so)) in Eso'. rewrite Esl in Eso'.
    by injection Eso' as -> ->. }
  destruct Hslot as [-> ->].
  apply bind_Done_inv in E as (? & Eav & E). apply require_inv, Z.leb_le in Eav. apply bind_Done_inv in E as (? & _ & E).
  apply bind_Done_inv in E as ([[o2 payer] rcv'] & Eu & E). apply update_potentials_inv in Eu; [|congruence].
  pose proof (potentials_kept _ _ _ _ _ _ _ _ Eu) as [[n ->] Hmi2].
  apply bind_Done_inv in E as ([pos i] & Epos & E). apply bind_Done_inv in E as (bn & Ebn & E). apply native_value in Ebn as ->.
  apply bind_Done_inv in E as ([[a4 payer'] vd] & Ev & E).
  apply apply_vault_difference_inv in Ev as (t & t' & it & k4 & o4 & o4' & Et & Eo4 & C & Hpot & _ & _ & Hge & Ho4' & -> & ->);
    [|by destruct HI; constructor|done].
  apply bind_Done_inv in E as ([] & Elim & E). apply bind_Done_inv in E as (price & Eprice & E).
  apply bind_Done_inv in E as (w & Ew & E). apply fx_from_int_inv in Ew as ->.
  apply bind_Done_inv in E as (? & Epay & E). apply bind_Done_inv in E as (? & _ & E).
  apply bind_Done_inv in E as ([k5 so5] & Eso5 & E). apply bind_Done_inv in E as (cache' & Eca' & E). apply bind_Done_inv in E as (? & _ & E).
  apply bind_Done_inv in E as (? & Epost & E). injection E as <-. cbn [sp_serum sp_payer_bank sp_payer_vault sx_account].
  simpl in Et, Epos. rewrite Et in Epos. injection Epos as <- <-.
  pose proof (token_position_lookup _ _ _ _ Et) as (_ & _ & Tt).
  assert (Hset : slot_of (Account.set_serum3 a3 ks o2) (s3m_market_index m) ks o2).
  { apply (serum3_orders_set a3 _ ks sl); [exact Eso|]. rewrite Hmi2, track_prices_index. by apply serum3_orders_inv in Esl as (_ & _ & ->). }
  destruct (slot_unique _ _ _ _ _ _ Hset Eo4) as [-> ->].
  assert (Hfin : slot_of (Account.set_serum3 (Account.set_token (Account.set_serum3 a3 ks o2) it t') ks o4') (s3m_market_index m) ks o4').
  { apply (serum3_orders_set (Account.set_token (Account.set_serum3 a3 ks o2) it t') _ ks o2); [exact Hset|].
    pose proof (serum3_orders_inv _ _ _ _ Hset) as (_ & _ & Hm). by rewrite Ho4', set_borrows_market. }
  destruct (slot_unique _ _ _ _ _ _ Hfin Eso5) as [-> ->].
  do 3 (split; [done|]). exists ks, sl, o4', t, t', it, rcv'. split_and!; [done|done|exact Hfin| | | | | |].
  - rewrite <- Et. change (Account.token_position_and_raw_index (sx_account x) (bk_token_index (sp_payer_bank p))
      = Account.token_position_and_raw_index a3 (bk_token_index (sp_payer_bank p))). rewrite Ht2.
    unfold Account.token_position_and_raw_index. by rewrite Ht1.
  - change (Account.token_position_and_raw_index (Account.set_token (Account.set_serum3 a3 ks o2) it t') (bk_token_index (sp_payer_bank p)) = Done (t', it)).
    eapply token_position_set; [exact Et|]. by rewrite (mv_token_index _ _ _ _ (cs_moved _ _ _ _ _ _ _ C)).
  - by destruct C as [[] R T F D A]; split; [constructor|..].
  - exists is_v2, key, ai, rcv, o2. eexists. split_and!; [done|done|done|exact Eu|done|done|done|].
    rewrite Ho4'. f_equal. change (value (set_bk_potential_serum_tokens (sp_payer_bank p) n) t) with (value (sp_payer_bank p) t) in *.
    change (bk_token_index (set_bk_potential_serum_tokens (sp_payer_bank p) n)) with (bk_token_index (sp_payer_bank p)) in *.
    cbn [sp_payer_bank]. lia.
  - intros Hlt. exists price. split; [done|]. eapply check_payer_inv; [exact Epay|done].
  - intros Hreg. destruct (Hpre Hreg) as (h & -> & Hf & Hh).
    split; [change (Fixed.being_liquidated (ma_fixed a3) = false); by rewrite Hf2|].
    apply bind_Done_inv in Epost as (post & Epost & _). unfold Account.check_health_post in Epost.
    apply bind_Done_inv in Epost as (post1 & Hpost & Epost). apply bind_Done_inv in Epost as ([] & Ek & Epost).
    apply check_health_post_checks_kept in Ek. exists h, post1. split; [|done].
    exists cache, cache'. split_and!; try done. by exists rt.
Qed.

End spec.

(** ** A concrete market

    A spot market in which orders rest in the lowest free slot and take what the open
    orders account has free before the vault pays. *)
Definition rest (o : SerumNewOrder) (oo : OpenOrders) (vault : Z) : outcome (OpenOrders * Z) :=
  let s := oo_slim oo in
  let bits := oo_free_slot_bits oo in
  let free_bits := Z.land bits (bits - 1) in
  let bit := bits - free_bits in
  match no_side o with
  | Serum3Bid =>
      let used := Z.min (no_max_native_pc_qty_including_fees o) (oos_native_pc_free s) in
      let paid := no_max_native_pc_qty_including_fees o - used in
      _ ← require (paid <=? vault) (EMango SomeError);
      Done (mkOpenOrders (mkOpenOrdersSlim (oos_native_coin_free s) (oos_native_coin_total s) (oos_native_pc_free s - used)
              (oos_native_pc_total s + paid) (oos_referrer_rebates_accrued s)) free_bits (Z.lor (oo_is_bid_bits oo) bit) (oo_orders oo), vault - paid)
  | Serum3Ask =>
      let used := Z.min (no_max_coin_qty o) (oos_native_coin_free s) in
      let paid := no_max_coin_qty o - used in
      _ ← require (paid <=? vault) (EMango SomeError);
      Done (mkOpenOrders (mkOpenOrdersSlim (oos_native_coin_free s - used) (oos_native_coin_total s + paid) (oos_native_pc_free s)
              (oos_native_pc_total s) (oos_referrer_rebates_accrued s)) free_bits (Z.land (oo_is_bid_bits oo) (U128_MAX - bit)) (oo_orders oo), vault - paid)
  end.

#[export] Instance serum_ref : SerumProgram := {
  serum_place_order := rest;
  serum_cancel_order _ _ oo := Done oo;
  serum_cancel_order_by_client_id _ oo := Done oo;
  serum_on_book _ _ := false;
  serum_settle_funds oo base quote :=
    Done (mkOpenOrders (settled_slim (oo_slim oo)) (oo_free_slot_bits oo) (oo_is_bid_bits oo) (oo_orders oo),
          base + oos_native_coin_free (oo_slim oo),
          quote + oos_native_pc_free (oo_slim oo) + oos_referrer_rebates_accrued (oo_slim oo));
  serum_init_open_orders := Done (mkOpenOrders (mkOpenOrdersSlim 0 0 0 0 0) U128_MAX 0 (replicate 128 0));
  serum_close_open_orders _ := Done tt
}.

#[export] Instance serum_ref_laws : SerumLaws.
Proof. constructor. intros oo b q oo' b' q' [= <- <- <-]. done. Qed.

Definition spot_market : Serum3Market := mkSerum3Market 1 1 0 0 0 [] 90 91 3 0 f_zero 0.
Definition spot_account : MangoAccount :=
  (liqee_account <| ma_tokens := [(position_of 0 (fx_int 100)) <| tp_in_use_count := 1 |>;
                                  (position_of 1 (fx_int 20)) <| tp_in_use_count := 1 |>; Token.default] |>)
    <| ma_serum3 := [mkSerum3Orders 60 0 40 3 1 0 f_zero f_zero 8 30 f_zero f_zero] |>.
Definition spot_slim : OpenOrdersSlim := mkOpenOrdersSlim 5 8 10 30 2.
Definition spot_accounts : SerumAccounts :=
  mkSerumAccounts 1 (sample_group <| gr_ix_gate := 0 |>) spot_account 60 (mkOpenOrders spot_slim U128_MAX 0 (replicate 128 0)) spot_market 90 91.
Definition quote_bank_0 : Bank := (asset_bank_0 <| bk_vault := 50 |>) <| bk_loan_origination_fee_rate := fx_scale / 8 |>.
Definition base_bank_1 : Bank := liab_bank_1 <| bk_vault := 51 |>.
Definition spot_banks : SerumBanks := mkSerumBanks 21 base_bank_1 51 4000 20 quote_bank_0 50 5000.

(** The witness of C17: 5 base tokens, 10 quote tokens and a rebate of 2 come back, and
    10 of the 40 quote tokens borrowed for orders are charged. *)
Lemma serum3_settle_funds_conserves_witness :
  exists x' v', @serum3_settle_funds fixed_ref serum_ref spot_accounts spot_banks 9 None true withdraw_clock = Done (x', v') /\
    exists d, token_conserved spot_account quote_bank_0 (sx_account x') (sv_quote_bank v') (fx_int 10 - d) (d + fx_int 2) 2 /\
      d = loan_fee quote_bank_0 40 30.
Proof.
  destruct (@serum3_settle_funds fixed_ref serum_ref spot_accounts spot_banks 9 None true withdraw_clock)
    as [[x' v']| | |] eqn:E; [|vm_compute in E; discriminate E..].
  exists x', v'. refine (conj eq_refl _).
  destruct (@serum3_settle_funds_conserves fixed_ref fixed_ref_laws serum_ref serum_ref_laws spot_accounts spot_banks 9 None true
    withdraw_clock x' v') as (_ & _ & _ & _ & k & o & o' & Hk & _ & _ & _ & _ & Hq);
    [split; reflexivity|split; reflexivity|vm_compute; congruence..|exact E|].
  vm_compute in Hk. injection Hk as _ <-. exact (ex_intro _ _ (conj Hq eq_refl)).
Defined.

Definition spot_ais : list AccountInfo :=
  [(20, ABank quote_bank_0); (21, ABank base_bank_1); (4, AOracle (stub fx_one)); (6, AOracle (stub fx_one)); (60, AOpenOrders spot_slim)].
Definition place_accounts : PlaceAccounts :=
  mkPlaceAccounts spot_accounts 20 quote_bank_0 50 5000 (4, stub fx_one) spot_ais [20; 21] 1 1.
Definition spot_bid : SerumNewOrder := mkSerumNewOrder Serum3Bid 2 15 30 S3DecrementTake S3Limit 77 10.

(** The witness of C16: a bid for 30 quote tokens takes 20 from the vault. *)
Lemma serum3_place_order_safe_witness :
  exists p', @serum3_place_order fixed_ref serum_ref place_accounts 9 withdraw_clock spot_bid false = Done p' /\
    sp_payer_vault p' <= 5000 /\ SerumMarket.is_reduce_only spot_market = false.
Proof.
  destruct (@serum3_place_order fixed_ref serum_ref place_accounts 9 withdraw_clock spot_bid false)
    as [p'| | |] eqn:E; [|vm_compute in E; discriminate E..].
  exists p'. refine (conj eq_refl _).
  destruct (@serum3_place_order_safe fixed_ref fixed_ref_laws serum_ref place_accounts 9 withdraw_clock spot_bid false p')
    as (_ & Hr & Hv & _);
    [split; reflexivity|vm_compute; congruence..|exact E|].
  exact (conj Hv Hr).
Defined.
