(* ===== verification/HoldSpec.v ===== *)
(** * Tokens in use

    Every token position counts what uses its token: open orders accounts of spot markets,
    conditional swaps and perp positions. The count is exact in every account that the
    operations can reach, so that a token in use always has a position, and no operation
    deactivates it. *)

From stdpp Require Import base numbers option list relations.
From Stdlib Require Import ZArith Lia SpecFloat.
From S2P Require Import Prelude FixedPoint HealthType TokenPosition OrderTypes Nodes Oracle StablePrice Bank BankSpec Group Serum3 ConditionalSwap PerpMarket PerpPosition MangoAccount MangoAccountSpec HealthCache AccountRetriever TokenInstructions TokenInstructionsSpec TokenLiquidationSpec PerpInstructions SwapInstructions FlashLoanSpec SerumOrders SerumInstructions SerumSpec.

Open Scope Z_scope.

(** ** Sums over slots *)

Definition wsum {A} (w : A -> Z) (l : list A) : Z := foldr (fun x n => w x + n) 0 l.

Lemma wsum_insert {A} (w : A -> Z) l i x y : l !! i = Some x -> wsum w (<[i := y]> l) = wsum w l - w x + w y.
Proof.
  revert i. induction l as [|z l IH]; intros [|i] Hx; try done; simpl in *.
  - injection Hx as ->. lia.
  - rewrite (IH _ Hx). lia.
Qed.

Lemma wsum_nonneg {A} (w : A -> Z) l : (forall x, 0 <= w x) -> 0 <= wsum w l.
Proof. intros Hw. induction l as [|x l IH]; simpl; [lia|]. specialize (Hw x). lia. Qed.

Lemma wsum_lookup {A} (w : A -> Z) l i x : (forall x, 0 <= w x) -> l !! i = Some x -> w x <= wsum w l.
Proof.
  intros Hw Hx. pose proof (wsum_insert (fun x => w x) l i x x Hx) as _. revert i Hx.
  induction l as [|z l IH]; intros [|i] Hx; try done; simpl in *.
  - injection Hx as ->. pose proof (wsum_nonneg w l Hw). lia.
  - specialize (IH _ Hx). specialize (Hw z). lia.
Qed.

(** ** Uses *)

Definition one_if (b : bool) : Z := if b then 1 else 0.

Definition serum_uses (ti : Z) (s : Serum3Orders) : Z :=
  if Serum.is_active s then one_if (s3_base_token_index s =? ti) + one_if (s3_quote_token_index s =? ti) else 0.
Definition swap_uses (ti : Z) (t : TokenConditionalSwap) : Z :=
  if Tcs.is_configured t then one_if (tcs_buy_token_index t =? ti) + one_if (tcs_sell_token_index t =? ti) else 0.

Create HintDb holds.

Section holds.
Context `{FixedLaws} `{SerumProgram}.

(** The settle token of every perp market, and the base and quote token of every spot
    market. *)
Context (settle_token : Z -> Z) (spot_tokens : Z -> Z * Z).

Definition perp_uses (ti : Z) (p : PerpPosition) : Z :=
  if Perp.is_active p then one_if (settle_token (pp_market_index p) =? ti) else 0.

Definition uses (a : MangoAccount) (ti : Z) : Z :=
  wsum (serum_uses ti) (ma_serum3 a) + wsum (swap_uses ti) (ma_tcs a) + wsum (perp_uses ti) (ma_perps a).

(** The count of the token's position. *)
Definition in_use (a : MangoAccount) (ti : Z) : Z :=
  match Account.token_position_and_raw_index a ti with Done (t, _) => tp_in_use_count t | _ => 0 end.

Record uses_counted (a : MangoAccount) : Prop := {
  uc_unique : AccountSpec.tokens_unique (ma_tokens a);
  uc_count ti : ti <> TOKEN_INDEX_MAX -> in_use a ti = uses a ti;
  uc_slots : Forall (fun o => Serum.is_active o = true ->
    spot_tokens (s3_market_index o) = (s3_base_token_index o, s3_quote_token_index o)) (ma_serum3 a)
}.

(** ** Changes of the positions

    [a'] has the counts of [a] changed by [d], and everything else but the positions. *)
Record counts_change (a a' : MangoAccount) (d : Z -> Z) : Prop := {
  cc_unique : AccountSpec.tokens_unique (ma_tokens a) -> AccountSpec.tokens_unique (ma_tokens a');
  cc_count ti : AccountSpec.tokens_unique (ma_tokens a) -> ti <> TOKEN_INDEX_MAX -> in_use a' ti = in_use a ti + d ti;
  cc_serum3 : ma_serum3 a' = ma_serum3 a;
  cc_tcs : ma_tcs a' = ma_tcs a;
  cc_perps : ma_perps a' = ma_perps a
}.

Lemma counts_change_trans a1 a2 a3 d1 d2 : counts_change a1 a2 d1 -> counts_change a2 a3 d2 ->
  counts_change a1 a3 (fun ti => d1 ti + d2 ti).
Proof.
  intros [U1 C1 S1 T1 P1] [U2 C2 S2 T2 P2]. split; [auto| |congruence..].
  intros ti HU Hti. rewrite C2, C1 by auto. lia.
Qed.

Lemma in_use_set a ti p i p' : Account.token_position_and_raw_index a ti = Done (p, i) -> tp_token_index p' = ti ->
  forall tj, in_use (Account.set_token a i p') tj = if tj =? ti then tp_in_use_count p' else in_use a tj.
Proof.
  intros E Hp tj. unfold in_use. destruct (Z.eqb_spec tj ti) as [->|Hne].
  - by rewrite (token_position_set _ _ _ _ _ E Hp).
  - by rewrite (token_position_other _ _ _ _ _ _ E Hp Hne).
Qed.

Lemma unique_set a i p p' : ma_tokens a !! i = Some p -> tp_token_index p' = tp_token_index p ->
  AccountSpec.tokens_unique (ma_tokens a) -> AccountSpec.tokens_unique (ma_tokens (Account.set_token a i p')).
Proof.
  intros Hi Hp HU j1 j2 t1 t2 E1 E2 Ha Ht. simpl in E1, E2.
  assert (Hl : forall j t, <[i := p']> (ma_tokens a) !! j = Some t -> exists t0, ma_tokens a !! j = Some t0 /\
    tp_token_index t0 = tp_token_index t).
  { intros j t Ej. destruct (decide (i = j)) as [<-|Hne].
    - rewrite list_lookup_insert_eq in Ej by (by eapply lookup_lt_Some). injection Ej as <-. eauto.
    - rewrite list_lookup_insert_ne in Ej by done. eauto. }
  apply Hl in E1 as (s1 & E1 & F1). apply Hl in E2 as (s2 & E2 & F2). apply (HU j1 j2 s1 s2 E1 E2); [|congruence].
  unfold Token.is_active in *. by rewrite F1.
Qed.

(** A position that keeps its token. *)
Lemma set_token_change a ti p i p' : Account.token_position_and_raw_index a ti = Done (p, i) -> tp_token_index p' = ti ->
  counts_change a (Account.set_token a i p') (fun tj => if tj =? ti then tp_in_use_count p' - tp_in_use_count p else 0).
Proof.
  intros E Hp. pose proof (token_position_lookup _ _ _ _ E) as (_ & Hi & Ht). split; [|..|done|done|done].
  - eapply unique_set; [exact Hi|congruence].
  - intros tj HU Hne. rewrite (in_use_set _ _ _ _ _ E Hp). destruct (Z.eqb_spec tj ti) as [->|]; [|lia].
    unfold in_use. rewrite E. lia.
Qed.

(** The position at an active raw index is the one of its token. *)
Lemma position_at a i p : AccountSpec.tokens_unique (ma_tokens a) -> ma_tokens a !! i = Some p -> Token.is_active p = true ->
  Account.token_position_and_raw_index a (tp_token_index p) = Done (p, i).
Proof.
  intros HU Hi Ha. unfold Account.token_position_and_raw_index.
  assert (Hp : position (fun t => Token.is_active_for_token t (tp_token_index p)) (ma_tokens a) = Some i).
  { apply position_Some. split; [exists p; split; [done|by apply Z.eqb_eq]|]. intros j t Hj Ht.
    apply Z.eqb_neq. intros Et. pose proof (HU i j p t Hi Ht Ha (eq_sym Et)). lia. }
  rewrite Hp. simpl. by rewrite Hi.
Qed.

(** The position is there already, or the first unused one becomes a new one. *)
Lemma ensure_cases a ti a' raw k : ti <> TOKEN_INDEX_MAX -> Account.ensure_token_position a ti = Done (a', raw, k) ->
  (exists t, Account.token_position_and_raw_index a ti = Done (t, raw) /\ a' = a) \/
  (exists t, position (fun t => Token.is_active_for_token t ti) (ma_tokens a) = None /\ ma_tokens a !! raw = Some t /\
    tp_token_index t = TOKEN_INDEX_MAX /\ a' = Account.set_token a raw (mkTokenPosition 0 ti 0 0 f_zero f_zero)).
Proof.
  intros Hti E. unfold Account.ensure_token_position in E. rewrite AccountSpec.match_or_free_token_ok in E by done.
  destruct (position (fun t => Token.is_active_for_token t ti) (ma_tokens a)) as [i|] eqn:Ei.
  - pose proof Ei as Ei'. apply position_Some in Ei' as [(t & Ht & Hf) _]. simpl in E. rewrite Ht in E. simpl in E. rewrite Hf in E.
    injection E as <- <- <-. left. exists t. unfold Account.token_position_and_raw_index. rewrite Ei. simpl. rewrite Ht.
    split; [done|]. unfold Account.set_token, set_ma_tokens. simpl. rewrite (list_insert_id _ _ _ Ht). by destruct a.
  - destruct (position (fun t => negb (Token.is_active t)) (ma_tokens a)) as [i|] eqn:En; [|done]. simpl in E.
    apply position_Some in En as [(t & Ht & Hf) _]. rewrite Ht in E. simpl in E.
    rewrite position_None in Ei. rewrite (Ei _ _ Ht) in E. injection E as <- <- <-. right. exists t.
    apply negb_true_iff, negb_false_iff, Z.eqb_eq in Hf. by split_and!.
Qed.

Lemma ensure_change a ti a' raw k : ti <> TOKEN_INDEX_MAX -> Account.ensure_token_position a ti = Done (a', raw, k) ->
  counts_change a a' (fun _ => 0) /\
  (AccountSpec.tokens_unique (ma_tokens a) -> exists t, Account.token_position_and_raw_index a' ti = Done (t, raw)).
Proof.
  intros Hti E. pose proof (fun tj Hj Hne => proj1 (ensure_other _ _ _ _ _ tj Hti Hj Hne E)) as Hoth.
  apply ensure_cases in E; [|done]. destruct E as [(t & Et & ->)|(t & En & Ht & Hi & ->)].
  - split; [|eauto]. split; [done|intros; lia|done..].
  - rewrite position_None in En. pose proof (lookup_lt_Some _ _ _ Ht) as Hlt.
    assert (HU' : AccountSpec.tokens_unique (ma_tokens a) ->
      AccountSpec.tokens_unique (ma_tokens (Account.set_token a raw (mkTokenPosition 0 ti 0 0 f_zero f_zero)))).
    { intros HU. apply AccountSpec.tokens_unique_insert; [done|]. intros j u _ Hu. simpl. by apply Z.eqb_neq, (En j). }
    assert (Hpos : AccountSpec.tokens_unique (ma_tokens a) ->
      Account.token_position_and_raw_index (Account.set_token a raw (mkTokenPosition 0 ti 0 0 f_zero f_zero)) ti
      = Done (mkTokenPosition 0 ti 0 0 f_zero f_zero, raw)).
    { intros HU. apply (position_at _ raw (mkTokenPosition 0 ti 0 0 f_zero f_zero)); [by apply HU'|by apply list_lookup_insert_eq|].
      unfold Token.is_active. simpl. by rewrite (proj2 (Z.eqb_neq _ _) Hti). }
    split; [|eauto]. split; [done|..|done|done|done]. intros tj HU Hj. unfold in_use. destruct (decide (tj = ti)) as [->|Hne].
    + rewrite Hpos by done. simpl. unfold Account.token_position_and_raw_index. by rewrite (proj2 (position_None _ _)) by done.
    + rewrite Hoth by done. lia.
Qed.

Lemma hold_change a ti a' : ti <> TOKEN_INDEX_MAX -> AccountSpec.tokens_unique (ma_tokens a) -> hold_token a ti = Done a' ->
  counts_change a a' (fun tj => one_if (ti =? tj)).
Proof.
  intros Hti HU E. unfold hold_token in E. apply bind_Done_inv in E as ([[a1 raw] k] & Ee & E).
  apply ensure_change in Ee as [C1 Hp]; [|done]. destruct (Hp HU) as (t & Et).
  apply bind_Done_inv in E as (t1 & Et1 & E). apply unwrap_inv in Et1.
  pose proof (token_position_lookup _ _ _ _ Et) as (_ & Hi & Ht). rewrite Hi in Et1. injection Et1 as <-.
  apply bind_Done_inv in E as (t2 & Et2 & E). injection E as <-. unfold Token.increment_in_use in Et2.
  apply bind_Done_inv in Et2 as (n & En & Et2). apply u16_inv in En as [-> _]. injection Et2 as <-.
  pose proof (counts_change_trans _ _ _ _ _ C1
    (set_token_change _ _ _ _ (set_tp_in_use_count t (tp_in_use_count t + 1)) Et Ht)) as [U C S T P].
  split; [done|..|done|done|done]. intros tj HU' Hj. rewrite C by done. simpl. unfold one_if.
  destruct (Z.eqb_spec tj ti), (Z.eqb_spec ti tj); try congruence; lia.
Qed.

(** Releasing a use; a count of zero stays. *)
Definition release (a : MangoAccount) (ti tj : Z) : Z := if tj =? ti then Z.max (- in_use a ti) (-1) else 0.

Lemma unhold_change a ti a' : unhold_token a ti = Done a' -> counts_change a a' (release a ti).
Proof.
  unfold unhold_token. intros E. apply bind_Done_inv in E as ([t i] & Et & E). injection E as <-.
  pose proof (token_position_lookup _ _ _ _ Et) as (_ & Hi & Ht).
  destruct (set_token_change _ _ _ _ (Token.decrement_in_use t) Et Ht) as [U C S T P]. split; [done|..|done|done|done].
  intros tj HU Hj. rewrite C by done. unfold release. destruct (Z.eqb_spec tj ti) as [->|]; [|done].
  unfold in_use in *. rewrite Et in *. simpl. lia.
Qed.

(** Deactivating an unused position. *)
Lemma deactivate_change a i a' : Account.deactivate_token_position a i = Done a' -> counts_change a a' (fun _ => 0).
Proof.
  unfold Account.deactivate_token_position. intros E. apply bind_Done_inv in E as (t & Et & E). apply unwrap_inv in Et.
  apply bind_Done_inv in E as (u & Eu & E). injection E as <-. unfold assert_ in Eu.
  destruct (Z.eqb_spec (tp_in_use_count t) 0) as [Hz|]; [|done]. pose proof (lookup_lt_Some _ _ _ Et) as Hlt.
  set (t' := set_tp_token_index t TOKEN_INDEX_MAX).
  assert (HU' : AccountSpec.tokens_unique (ma_tokens a) -> AccountSpec.tokens_unique (<[i := t']> (ma_tokens a))).
  { intros HU j1 j2 t1 t2 E1 E2 Ha Heq. destruct (decide (i = j1)) as [<-|H1'].
    - rewrite list_lookup_insert_eq in E1 by done. by injection E1 as <-.
    - destruct (decide (i = j2)) as [<-|H2'].
      + rewrite list_lookup_insert_eq in E2 by done. injection E2 as <-. unfold Token.is_active in Ha. simpl in Heq. by rewrite Heq in Ha.
      + rewrite list_lookup_insert_ne in E1, E2 by done. eauto. }
  split; [done|..|done|done|done]. intros tj HU Hj. rewrite Z.add_0_r. unfold in_use, Account.token_position_and_raw_index. simpl.
  destruct (decide (tp_token_index t = tj)) as [<-|Hne].
  - assert (Hn : position (fun u => Token.is_active_for_token u (tp_token_index t)) (<[i := t']> (ma_tokens a)) = None).
    { apply position_None. intros j w Hu. apply Z.eqb_neq. intros Eu'. destruct (decide (i = j)) as [<-|Hij].
      - rewrite list_lookup_insert_eq in Hu by done. injection Hu as <-. simpl in Eu'. congruence.
      - rewrite list_lookup_insert_ne in Hu by done. apply Hij. apply (HU i j t w Et Hu); [|done].
        unfold Token.is_active. by rewrite (proj2 (Z.eqb_neq _ _) Hj). }
    rewrite Hn. simpl. pose proof (position_at a i t HU Et) as Hp. unfold Account.token_position_and_raw_index in Hp.
    rewrite Hp; [by simpl|]. unfold Token.is_active. by rewrite (proj2 (Z.eqb_neq _ _) Hj).
  - assert (Hf : Token.is_active_for_token t' tj = Token.is_active_for_token t tj).
    { unfold Token.is_active_for_token. rewrite (proj2 (Z.eqb_neq _ _) Hne). apply Z.eqb_neq. by apply not_eq_sym. }
    rewrite (position_same (fun u => Token.is_active_for_token u tj) _ _ _ _ Et Hf).
    destruct (position _ _) as [j|] eqn:Ej; [|done]. simpl. rewrite list_lookup_insert_ne; [done|]. intros <-.
    apply position_Some in Ej as [(x & Hx & Hx') _]. rewrite Et in Hx. injection Hx as <-. by apply Z.eqb_eq in Hx'.
Qed.

(** A position that keeps its token and its count. *)
Lemma balance_change a i t t' : ma_tokens a !! i = Some t -> tp_token_index t' = tp_token_index t ->
  tp_in_use_count t' = tp_in_use_count t -> counts_change a (Account.set_token a i t') (fun _ => 0).
Proof.
  intros Hi Ht Hc. split; [by eapply unique_set|..|done|done|done]. intros tj HU Hj. rewrite Z.add_0_r.
  unfold in_use, Account.token_position_and_raw_index. simpl.
  rewrite (position_same (fun u => Token.is_active_for_token u tj) _ _ _ _ Hi) by (unfold Token.is_active_for_token; by rewrite Ht).
  destruct (position _ _) as [j|] eqn:Ej; [|done]. simpl. destruct (decide (i = j)) as [<-|Hij].
  - rewrite list_lookup_insert_eq, Hi by (by eapply lookup_lt_Some). done.
  - by rewrite list_lookup_insert_ne by done.
Qed.

Definition same_identity (t t' : TokenPosition) : Prop :=
  tp_token_index t' = tp_token_index t /\ tp_in_use_count t' = tp_in_use_count t.

Lemma add_to_borrows_identity b t a f now b' t' r : add_to_borrows b t a f now = Done (b', t', r) -> same_identity t t'.
Proof.
  unfold add_to_borrows. intros E. apply bind_Done_inv in E as ([[b1 n] fee] & _ & E).
  do 4 (apply bind_Done_inv in E as (? & _ & E)). by injection E as _ <- _.
Qed.

Lemma withdraw_identity b t a f d now b' t' r :
  withdraw_internal_wrapper b t a f d now = Done (b', t', r) -> same_identity t t'.
Proof.
  unfold withdraw_internal_wrapper, withdraw_internal. intros E.
  apply bind_Done_inv in E as ([[b1 t1] r1] & E & E2). apply bind_Done_inv in E2 as (t2 & Et & E2). injection E2 as _ <- _.
  apply update_cumulative_interest_same in Et as (_ & Et & Eu). unfold same_identity. rewrite Et, Eu.
  apply bind_Done_inv in E as (u & _ & E). apply bind_Done_inv in E as (v & _ & E).
  destruct (negb (v <? 0)); [|by eapply add_to_borrows_identity].
  apply bind_Done_inv in E as (n & _ & E). destruct (negb (n <? 0)).
  - case_match; inv_run; done.
  - apply bind_Done_inv in E as (x & _ & E). apply bind_Done_inv in E as (y & _ & E). by apply add_to_borrows_identity in E.
Qed.

Lemma dust_identity b t now b' t' active : dust_if_possible b t now = Done (b', t', active) -> same_identity t t'.
Proof.
  unfold dust_if_possible. intros E. destruct (Token.is_in_use t); [by injection E as <- <- <-|].
  apply bind_Done_inv in E as (n & _ & E). destruct (_ && _); [|by injection E as <- <- <-].
  unfold withdraw_without_fee in E. apply bind_Done_inv in E as ([[b1 t1] r] & Ew & E). injection E as <- <- <-.
  by eapply withdraw_identity.
Qed.

Lemma decrement_dust_change a b now a' b' : Account.token_decrement_dust_deactivate a b now = Done (a', b') ->
  counts_change a a' (release a (bk_token_index b)).
Proof.
  unfold Account.token_decrement_dust_deactivate. intros E.
  destruct (Account.token_position_and_raw_index a (bk_token_index b)) as [[t i]|e| |] eqn:Et; [|..|done|done].
  - pose proof (token_position_lookup _ _ _ _ Et) as (_ & Hi & Ht).
    apply bind_Done_inv in E as ([[b1 t1] act] & Ed & E). apply dust_identity in Ed as [D1 D2].
    apply bind_Done_inv in E as (a1 & Ea & E). injection E as <- <-.
    assert (Ht1 : tp_token_index t1 = bk_token_index b) by (rewrite D1; done).
    pose proof (set_token_change _ _ _ _ t1 Et Ht1) as C1.
    assert (C2 : counts_change (Account.set_token a i t1) a1 (fun _ => 0)).
    { destruct (negb act); [by eapply deactivate_change|]. injection Ea as <-. split; [done|intros; lia|done..]. }
    destruct (counts_change_trans _ _ _ _ _ C1 C2) as [U C S T P]. split; [done|..|done|done|done].
    intros tj HU Hj. rewrite C by done. unfold release. destruct (Z.eqb_spec tj (bk_token_index b)) as [->|]; [|done].
    unfold in_use in *. rewrite Et in *. rewrite D2. simpl. lia.
  - assert (a' = a) as -> by (destruct (is_anchor_error_with_code _ _); [by injection E as <- <-|done]).
    split; [done|..|done|done|done]. intros tj HU Hj. unfold release, in_use in *. rewrite Et in *.
    destruct (_ =? _); lia.
Qed.

(** Releasing two uses of what is counted. *)
Lemma release_twice a a1 a2 t1 t2 : counts_change a a1 (release a t1) -> counts_change a1 a2 (release a1 t2) ->
  AccountSpec.tokens_unique (ma_tokens a) -> t1 <> TOKEN_INDEX_MAX -> t2 <> TOKEN_INDEX_MAX ->
  (forall ti, ti <> TOKEN_INDEX_MAX -> one_if (t1 =? ti) + one_if (t2 =? ti) <= in_use a ti) ->
  counts_change a a2 (fun ti => - (one_if (t1 =? ti) + one_if (t2 =? ti))).
Proof.
  intros C1 C2 HU T1 T2 Hge. pose proof (Hge _ T1) as H1'. pose proof (Hge _ T2) as H2'. rewrite Z.eqb_refl in H1', H2'.
  assert (Hnn : forall b, 0 <= one_if b) by (by intros []). pose proof (Hnn (t2 =? t1)). pose proof (Hnn (t1 =? t2)). simpl in H1', H2'.
  pose proof (cc_count _ _ _ C1 _ HU T2) as Hc. unfold release in Hc.
  assert (Hc2 : in_use a1 t2 = in_use a t2 - one_if (t1 =? t2)).
  { rewrite Hc. rewrite (Z.eqb_sym t2). destruct (Z.eqb_spec t1 t2) as [Heq|]; simpl in *; [rewrite <- Heq in *|]; lia. }
  destruct (counts_change_trans _ _ _ _ _ C1 C2) as [U C S T P]. split; [done|..|done|done|done].
  intros ti HU' Hti. rewrite C by done. unfold release. rewrite Hc2. specialize (Hge ti Hti).
  rewrite (Z.eqb_sym ti t1), (Z.eqb_sym ti t2).
  destruct (Z.eqb_spec t1 ti) as [F1|F1], (Z.eqb_spec t2 ti) as [F2|F2]; simpl in *; [| |..|lia].
  - rewrite F1, F2, Z.eqb_refl in *. simpl in *. lia.
  - rewrite F1 in *. lia.
  - rewrite F2, (proj2 (Z.eqb_neq _ _) F1) in *. simpl in *. lia.
Qed.

(** ** Operations

    The operations that create, change and end uses, as the instructions run them. A spot
    market that is passed is the registered one; tokens of banks and markets are not the
    index of unused positions. *)
Definition spot_market_ok (m : Serum3Market) : Prop :=
  spot_tokens (s3m_market_index m) = (s3m_base_token_index m, s3m_quote_token_index m) /\
  s3m_market_index m <> SERUM3_INDEX_MAX /\
  s3m_base_token_index m <> TOKEN_INDEX_MAX /\ s3m_quote_token_index m <> TOKEN_INDEX_MAX.

Inductive account_step : MangoAccount -> MangoAccount -> Prop :=
| st_ensure_token a ti a' raw k : ti <> TOKEN_INDEX_MAX ->
    Account.ensure_token_position a ti = Done (a', raw, k) -> account_step a a'
| st_balance a i t t' : ma_tokens a !! i = Some t -> same_identity t t' -> account_step a (Account.set_token a i t')
| st_deactivate_token a i a' : Account.deactivate_token_position a i = Done a' -> account_step a a'
| st_create_open_orders x owner now x' : spot_market_ok (sx_market x) ->
    serum3_create_open_orders x owner now = Done x' -> account_step (sx_account x) (sx_account x')
| st_close_open_orders x owner now x' : spot_market_ok (sx_market x) ->
    serum3_close_open_orders x owner now = Done x' -> account_step (sx_account x) (sx_account x')
| st_change_orders a i o o' : ma_serum3 a !! i = Some o -> s3_market_index o' = s3_market_index o ->
    s3_base_token_index o' = s3_base_token_index o -> s3_quote_token_index o' = s3_quote_token_index o ->
    account_step a (Account.set_serum3 a i o')
| st_create_swap s authority now t s' :
    tcs_buy_token_index t <> TOKEN_INDEX_MAX -> tcs_sell_token_index t <> TOKEN_INDEX_MAX ->
    token_conditional_swap_create s authority now t = Done s' -> account_step (sw_account s) (sw_account s')
| st_end_swap a i t b1 b2 now a' b1' b2' : ma_tcs a !! i = Some t -> Tcs.is_configured t = true ->
    tcs_buy_token_index t = bk_token_index b1 -> tcs_sell_token_index t = bk_token_index b2 ->
    bk_token_index b1 <> TOKEN_INDEX_MAX -> bk_token_index b2 <> TOKEN_INDEX_MAX ->
    release_tokens (Account.set_tcs a i Tcs.default) b1 b2 now = Done (a', b1', b2') -> account_step a a'
| st_change_swap a i t t' : ma_tcs a !! i = Some t -> tcs_is_configured t' = tcs_is_configured t ->
    tcs_buy_token_index t' = tcs_buy_token_index t -> tcs_sell_token_index t' = tcs_sell_token_index t ->
    account_step a (Account.set_tcs a i t')
| st_ensure_perp a mi a' i : mi <> PERP_INDEX_MAX -> settle_token mi <> TOKEN_INDEX_MAX ->
    Account.ensure_perp_position a mi (settle_token mi) = Done (a', i) -> account_step a a'
| st_deactivate_perp a mi a' : mi <> PERP_INDEX_MAX -> settle_token mi <> TOKEN_INDEX_MAX ->
    Account.deactivate_perp_position a mi (settle_token mi) = Done a' -> account_step a a'
| st_change_perp a i p p' : ma_perps a !! i = Some p -> pp_market_index p' = pp_market_index p ->
    account_step a (Account.set_perp a i p')
| st_other a a' : ma_tokens a' = ma_tokens a -> ma_serum3 a' = ma_serum3 a -> ma_tcs a' = ma_tcs a ->
    ma_perps a' = ma_perps a -> account_step a a'.

Lemma in_use_tokens a a' ti : ma_tokens a' = ma_tokens a -> in_use a' ti = in_use a ti.
Proof. intros E. unfold in_use, Account.token_position_and_raw_index. by rewrite E. Qed.

Lemma one_if_nonneg b : 0 <= one_if b.
Proof. by destruct b. Qed.

Lemma serum_uses_nonneg ti o : 0 <= serum_uses ti o.
Proof. unfold serum_uses. case_match; [|done]. apply Z.add_nonneg_nonneg; apply one_if_nonneg. Qed.

Lemma swap_uses_nonneg ti t : 0 <= swap_uses ti t.
Proof. unfold swap_uses. case_match; [|done]. apply Z.add_nonneg_nonneg; apply one_if_nonneg. Qed.

Lemma perp_uses_nonneg ti p : 0 <= perp_uses ti p.
Proof. unfold perp_uses. case_match; [|done]. apply one_if_nonneg. Qed.

Hint Resolve serum_uses_nonneg swap_uses_nonneg perp_uses_nonneg wsum_nonneg : holds.

Lemma uses_nonneg a ti : 0 <= uses a ti.
Proof. unfold uses. repeat apply Z.add_nonneg_nonneg; auto with holds. Qed.

Lemma uses_le a ti : wsum (serum_uses ti) (ma_serum3 a) <= uses a ti /\ wsum (swap_uses ti) (ma_tcs a) <= uses a ti /\
  wsum (perp_uses ti) (ma_perps a) <= uses a ti.
Proof.
  unfold uses. assert (0 <= wsum (serum_uses ti) (ma_serum3 a)) by auto with holds.
  assert (0 <= wsum (swap_uses ti) (ma_tcs a)) by auto with holds. assert (0 <= wsum (perp_uses ti) (ma_perps a)) by auto with holds. lia.
Qed.

Lemma serum_uses_le a k o ti : ma_serum3 a !! k = Some o -> serum_uses ti o <= uses a ti.
Proof.
  intros Ho. pose proof (wsum_lookup (serum_uses ti) _ _ _ (serum_uses_nonneg ti) Ho). pose proof (uses_le a ti). lia.
Qed.

Lemma swap_uses_le a k t ti : ma_tcs a !! k = Some t -> swap_uses ti t <= uses a ti.
Proof.
  intros Ht. pose proof (wsum_lookup (swap_uses ti) _ _ _ (swap_uses_nonneg ti) Ht). pose proof (uses_le a ti). lia.
Qed.

Lemma perp_uses_le a k p ti : ma_perps a !! k = Some p -> perp_uses ti p <= uses a ti.
Proof.
  intros Hp. pose proof (wsum_lookup (perp_uses ti) _ _ _ (perp_uses_nonneg ti) Hp). pose proof (uses_le a ti). lia.
Qed.

(** Counts and uses change alike. *)
Lemma counted_by a a' : uses_counted a -> AccountSpec.tokens_unique (ma_tokens a') ->
  (ma_serum3 a' = ma_serum3 a \/ Forall (fun o => Serum.is_active o = true ->
    spot_tokens (s3_market_index o) = (s3_base_token_index o, s3_quote_token_index o)) (ma_serum3 a')) ->
  (forall ti, ti <> TOKEN_INDEX_MAX -> in_use a' ti - in_use a ti = uses a' ti - uses a ti) -> uses_counted a'.
Proof.
  intros [U C S] HU HS Hc. split; [done|..|by destruct HS as [->|]]. intros ti Hti. specialize (Hc ti Hti). rewrite C in Hc by done. lia.
Qed.

(** A change of counts only. *)
Lemma counted_same a a' : uses_counted a -> counts_change a a' (fun _ => 0) -> uses_counted a'.
Proof.
  intros I [U C S T P]. eapply counted_by; [done|by apply U, I|by left|]. intros ti Hti.
  rewrite C by (apply I || done). unfold uses. rewrite S, T, P. lia.
Qed.

Lemma wsum_same {A} (w : A -> Z) l i x y : l !! i = Some x -> w y = w x -> wsum w (<[i := y]> l) = wsum w l.
Proof. intros Hx Hw. rewrite (wsum_insert _ _ _ _ _ Hx). lia. Qed.

Lemma slots_insert (P : Serum3Orders -> Prop) l i o : Forall P l -> P o -> Forall P (<[i := o]> l).
Proof. intros HF Ho. by apply Forall_insert. Qed.

Lemma uses_serum3 a i o o' ti : ma_serum3 a !! i = Some o ->
  uses (Account.set_serum3 a i o') ti = uses a ti - serum_uses ti o + serum_uses ti o'.
Proof. intros Ho. unfold uses. simpl. rewrite (wsum_insert _ _ _ _ _ Ho). lia. Qed.

Lemma uses_tcs a i t t' ti : ma_tcs a !! i = Some t ->
  uses (Account.set_tcs a i t') ti = uses a ti - swap_uses ti t + swap_uses ti t'.
Proof. intros Ht. unfold uses. simpl. rewrite (wsum_insert _ _ _ _ _ Ht). lia. Qed.

Lemma uses_perp a i p p' ti : ma_perps a !! i = Some p ->
  uses (Account.set_perp a i p') ti = uses a ti - perp_uses ti p + perp_uses ti p'.
Proof. intros Hp. unfold uses. simpl. rewrite (wsum_insert _ _ _ _ _ Hp). lia. Qed.

Lemma uses_change a a' d ti : counts_change a a' d -> uses a' ti = uses a ti.
Proof. intros [_ _ S T P]. unfold uses. by rewrite S, T, P. Qed.

Lemma create_orders_step x owner now x' : spot_market_ok (sx_market x) -> uses_counted (sx_account x) ->
  serum3_create_open_orders x owner now = Done x' -> uses_counted (sx_account x').
Proof.
  intros (Hm & Hmi & Hb & Hq) I E. unfold serum3_create_open_orders in E.
  do 2 (apply bind_Done_inv in E as (? & _ & E)). apply bind_Done_inv in E as (oo & _ & E). apply bind_Done_inv in E as (? & _ & E).
  apply bind_Done_inv in E as ([a1 i] & Ec & E). unfold Account.create_serum3_orders in Ec.
  assert (exists o, ma_serum3 (sx_account x) !! i = Some o /\ Serum.is_active o = false /\
    a1 = Account.set_serum3 (sx_account x) i (Serum.default <| s3_market_index := s3m_market_index (sx_market x) |>)) as (o & Ho & Hi & ->).
  { destruct (Account.serum3_orders _ _); [done|..];
      (destruct (position _ _) as [j|] eqn:Ej; [|done]); injection Ec as <- <-;
      apply position_Some in Ej as [(o & Ho & Hf) _]; exists o; by rewrite negb_true_iff in Hf. }
  apply bind_Done_inv in E as (o1 & Eo1 & E). apply unwrap_inv in Eo1. simpl in Eo1.
  rewrite list_lookup_insert_eq in Eo1 by (by eapply lookup_lt_Some). injection Eo1 as <-.
  set (o1 := _ <| s3_quote_token_index := _ |>) in E. set (a0 := Account.set_serum3 (Account.set_serum3 _ _ _) i o1) in E.
  assert (Hact : Serum.is_active o1 = true) by (unfold Serum.is_active; simpl; by rewrite (proj2 (Z.eqb_neq _ _) Hmi)).
  assert (Ha0 : a0 = Account.set_serum3 (sx_account x) i o1).
  { unfold a0, Account.set_serum3, set_ma_serum3. simpl. rewrite list_insert_insert_eq. done. }
  apply bind_Done_inv in E as (a2 & E2 & E). apply bind_Done_inv in E as (a3 & E3 & E). injection E as <-.
  change (sx_account _) with a3. rewrite Ha0 in *. pose proof (uc_unique _ I) as HU.
  apply hold_change in E2; [|done|done]. apply hold_change in E3; [|done|by apply (cc_unique _ _ _ E2)].
  pose proof (counts_change_trans _ _ _ _ _ E2 E3) as C. eapply counted_by; [exact I|by apply (cc_unique _ _ _ C)|right|].
  - rewrite (cc_serum3 _ _ _ C). apply slots_insert; [apply I|]. intros _. exact Hm.
  - intros ti Hti. rewrite (cc_count _ _ _ C ti) by done. rewrite (uses_change _ _ _ _ C), (uses_serum3 _ _ _ _ _ Ho).
    rewrite (in_use_tokens (sx_account x) (Account.set_serum3 (sx_account x) i o1)) by done.
    unfold serum_uses. rewrite Hi, Hact. simpl. lia.
Qed.

Lemma close_orders_step x owner now x' : spot_market_ok (sx_market x) -> uses_counted (sx_account x) ->
  serum3_close_open_orders x owner now = Done x' -> uses_counted (sx_account x').
Proof.
  intros (Hm & Hmi & Hb & Hq) I E. unfold serum3_close_open_orders in E.
  do 5 (apply bind_Done_inv in E as (? & _ & E)). apply bind_Done_inv in E as (a1 & E1 & E). apply bind_Done_inv in E as (a2 & E2 & E).
  apply bind_Done_inv in E as (a3 & E3 & E). injection E as <-. change (sx_account (_ <| sx_account := a3 |>)) with a3.
  unfold Account.deactivate_serum3_orders in E3. apply bind_Done_inv in E3 as ([k o] & Eo & E3). injection E3 as <-.
  apply serum3_orders_inv in Eo as (_ & Ho & Hmo). pose proof (uc_unique _ I) as HU.
  apply unhold_change in E1. apply unhold_change in E2.
  rewrite (cc_serum3 _ _ _ E2), (cc_serum3 _ _ _ E1) in Ho. pose proof (proj1 (Forall_lookup _ _) (uc_slots _ I) k o Ho) as Hok.
  assert (Hact : Serum.is_active o = true) by (unfold Serum.is_active; rewrite Hmo; by rewrite (proj2 (Z.eqb_neq _ _) Hmi)).
  simpl in Hok. specialize (Hok Hact). rewrite Hmo, Hm in Hok. injection Hok as Hob Hoq.
  assert (Hu : forall ti, serum_uses ti o = one_if (s3m_base_token_index (sx_market x) =? ti) + one_if (s3m_quote_token_index (sx_market x) =? ti)).
  { intros ti. unfold serum_uses. by rewrite Hact, Hob, Hoq. }
  pose proof (release_twice _ _ _ _ _ E1 E2 HU Hb Hq) as C.
  assert (C' : counts_change (sx_account x) a2
    (fun ti => - (one_if (s3m_base_token_index (sx_market x) =? ti) + one_if (s3m_quote_token_index (sx_market x) =? ti)))).
  { apply C. intros ti Hti. rewrite (uc_count _ I) by done. rewrite <- Hu. by eapply serum_uses_le. }
  assert (Ho2 : ma_serum3 a2 !! k = Some o) by (rewrite (cc_serum3 _ _ _ C'); done).
  eapply counted_by; [exact I|exact (cc_unique _ _ _ C' HU)|right|].
  - apply slots_insert; [rewrite (cc_serum3 _ _ _ C'); apply I|]. done.
  - intros ti Hti. rewrite (uses_serum3 _ _ _ _ _ Ho2), (uses_change _ _ _ _ C'), Hu.
    rewrite (in_use_tokens a2 (Account.set_serum3 a2 k _)) by done. rewrite (cc_count _ _ _ C' ti) by done.
    unfold serum_uses. simpl. lia.
Qed.

Lemma create_swap_step s authority now t s' :
  tcs_buy_token_index t <> TOKEN_INDEX_MAX -> tcs_sell_token_index t <> TOKEN_INDEX_MAX -> uses_counted (sw_account s) ->
  token_conditional_swap_create s authority now t = Done s' -> uses_counted (sw_account s').
Proof.
  intros Hb Hs I E. unfold token_conditional_swap_create in E. apply bind_Done_inv in E as (? & _ & E).
  destruct (Tcs.is_expired t now); [by injection E as <-|]. pose proof (uc_unique _ I) as HU.
  apply bind_Done_inv in E as (a1 & E1 & E). apply hold_change in E1; [|done|done].
  apply bind_Done_inv in E as (a2 & E2 & E). apply hold_change in E2; [|done|by apply (cc_unique _ _ _ E1)].
  apply bind_Done_inv in E as (i & Ei & E). apply bind_Done_inv in E as (? & _ & E). injection E as <-.
  pose proof (counts_change_trans _ _ _ _ _ E1 E2) as C. set (t' := configure_swap _ _ _ _). set (a3 := set_ma_fixed a2 _) in *.
  change (sw_account _) with (Account.set_tcs a3 i t').
  unfold Account.token_conditional_swap_free_index, ok_or in Ei. destruct (position _ _) as [j|] eqn:Ej; [|done]. injection Ei as ->.
  apply position_Some in Ej as [(t0 & Ht0 & Hf) _]. rewrite negb_true_iff in Hf.
  eapply counted_by; [exact I|exact (cc_unique _ _ _ C HU)|left; exact (cc_serum3 _ _ _ C)|].
  intros ti Hti. rewrite (uses_tcs _ _ _ _ _ Ht0). change (uses a3 ti) with (uses a2 ti). rewrite (uses_change _ _ _ _ C).
  rewrite (in_use_tokens a2 (Account.set_tcs a3 i t')) by done. rewrite (cc_count _ _ _ C ti) by done.
  unfold swap_uses. rewrite Hf. simpl. lia.
Qed.

Lemma end_swap_step a i t b1 b2 now a' b1' b2' : uses_counted a -> ma_tcs a !! i = Some t -> Tcs.is_configured t = true ->
  tcs_buy_token_index t = bk_token_index b1 -> tcs_sell_token_index t = bk_token_index b2 ->
  bk_token_index b1 <> TOKEN_INDEX_MAX -> bk_token_index b2 <> TOKEN_INDEX_MAX ->
  release_tokens (Account.set_tcs a i Tcs.default) b1 b2 now = Done (a', b1', b2') -> uses_counted a'.
Proof.
  intros I Ht Hc Hb Hs N1 N2 E. unfold release_tokens in E. pose proof (uc_unique _ I) as HU.
  apply bind_Done_inv in E as ([a1 c1] & E1 & E). apply bind_Done_inv in E as ([a2 c2] & E2 & E). injection E as <- <- <-.
  apply decrement_dust_change in E1. apply decrement_dust_change in E2.
  assert (Hu : forall ti, swap_uses ti t = one_if (bk_token_index b1 =? ti) + one_if (bk_token_index b2 =? ti)).
  { intros ti. unfold swap_uses. by rewrite Hc, Hb, Hs. }
  assert (C : counts_change (Account.set_tcs a i Tcs.default) a2 (fun ti => - (one_if (bk_token_index b1 =? ti) + one_if (bk_token_index b2 =? ti)))).
  { apply (release_twice _ _ _ _ _ E1 E2); [done..|]. intros ti Hti. rewrite (in_use_tokens a) by done. rewrite (uc_count _ I) by done.
    rewrite <- Hu. by eapply swap_uses_le. }
  eapply counted_by; [exact I|exact (cc_unique _ _ _ C HU)|left; exact (cc_serum3 _ _ _ C)|].
  intros ti Hti. rewrite (uses_change _ _ _ _ C), (uses_tcs _ _ _ _ _ Ht), Hu.
  rewrite (cc_count _ _ _ C ti) by done. rewrite (in_use_tokens a (Account.set_tcs a i Tcs.default)) by done. unfold swap_uses at 1. simpl. lia.
Qed.

Lemma ensure_perp_step a mi a' i : mi <> PERP_INDEX_MAX -> settle_token mi <> TOKEN_INDEX_MAX -> uses_counted a ->
  Account.ensure_perp_position a mi (settle_token mi) = Done (a', i) -> uses_counted a'.
Proof.
  intros Hmi Hst I E. unfold Account.ensure_perp_position in E. pose proof (uc_unique _ I) as HU.
  destruct (Account.perp_raw_index a mi); [by injection E as <- <-|].
  destruct (position _ _) as [j|] eqn:Ej; [|done]. apply position_Some in Ej as [(p & Hp & Hf) _]. rewrite negb_true_iff in Hf.
  set (p' := set_pp_market_index _ _) in E. set (a0 := Account.set_perp a j p') in E.
  assert (Hh : hold_token a0 (settle_token mi) = Done a').
  { unfold hold_token. apply bind_Done_inv in E as ([[a1 k] n] & -> & E). apply bind_Done_inv in E as (t & Et & E).
    apply bind_Done_inv in E as (t2 & Et2 & E). injection E as <- <-. simpl. rewrite Et. simpl. by rewrite Et2. }
  apply hold_change in Hh; [|done|done].
  eapply counted_by; [exact I|exact (cc_unique _ _ _ Hh HU)|left; exact (cc_serum3 _ _ _ Hh)|].
  intros ti Hti. rewrite (uses_change _ _ _ _ Hh). unfold a0. rewrite (uses_perp _ _ _ _ _ Hp), (cc_count _ _ _ Hh ti) by done.
  rewrite (in_use_tokens a a0) by done. unfold perp_uses. rewrite Hf.
  assert (Perp.is_active p' = true) as -> by (unfold Perp.is_active; simpl; by rewrite (proj2 (Z.eqb_neq _ _) Hmi)). simpl. lia.
Qed.

Lemma deactivate_perp_step a mi a' : mi <> PERP_INDEX_MAX -> settle_token mi <> TOKEN_INDEX_MAX -> uses_counted a ->
  Account.deactivate_perp_position a mi (settle_token mi) = Done a' -> uses_counted a'.
Proof.
  intros Hmi Hst I E. unfold Account.deactivate_perp_position in E. pose proof (uc_unique _ I) as HU.
  apply bind_Done_inv in E as ([i p] & Ep & E). apply AccountSpec.perp_position_inv in Ep as (_ & Hp & Hpm).
  set (a0 := Account.set_perp a i _) in E.
  assert (Hh : unhold_token a0 (settle_token mi) = Done a').
  { unfold unhold_token. by apply bind_Done_inv in E as ([t k] & -> & [= <-]). }
  apply unhold_change in Hh.
  assert (Hact : Perp.is_active p = true) by (unfold Perp.is_active; rewrite Hpm; by rewrite (proj2 (Z.eqb_neq _ _) Hmi)).
  assert (Hu : forall ti, perp_uses ti p = one_if (settle_token mi =? ti)) by (intros ti; unfold perp_uses; by rewrite Hact, Hpm).
  pose proof (perp_uses_le a i p (settle_token mi) Hp) as Hle. rewrite Hu, Z.eqb_refl in Hle. simpl in Hle.
  rewrite <- (uc_count _ I) in Hle by done.
  eapply counted_by; [exact I|exact (cc_unique _ _ _ Hh HU)|left; exact (cc_serum3 _ _ _ Hh)|].
  intros ti Hti. rewrite (uses_change _ _ _ _ Hh). unfold a0. rewrite (uses_perp _ _ _ _ _ Hp), (cc_count _ _ _ Hh ti), Hu by done.
  unfold release. rewrite !(in_use_tokens a a0) by done.
  rewrite (Z.eqb_sym ti). unfold perp_uses. simpl. destruct (settle_token mi =? ti); simpl; lia.
Qed.

Hint Resolve create_orders_step close_orders_step create_swap_step end_swap_step ensure_perp_step deactivate_perp_step
  counted_same balance_change deactivate_change : holds.

Lemma account_step_counted a a' : account_step a a' -> uses_counted a -> uses_counted a'.
Proof.
  intros S I. pose proof (uc_unique _ I) as HU. destruct S as [a ti a' raw k Hti E|a i t t' Hi [Ht Hc]| | | |
    a i o o' Ho Hm Hb Hq| | |a i t t' Ht Hc Hb Hs| | |a i p p' Hp Hm|a a' Ht Hs Hw Hp]; eauto with holds.
  - apply ensure_change in E as [C _]; eauto with holds.
  - eapply counted_by; [exact I|done|right|].
    + apply slots_insert; [apply I|]. pose proof (proj1 (Forall_lookup _ _) (uc_slots _ I) i o Ho) as Hok. simpl in Hok.
      unfold Serum.is_active in *. by rewrite Hm, Hb, Hq.
    + intros ti Hti. rewrite (uses_serum3 _ _ _ _ _ Ho), (in_use_tokens a) by done.
      unfold serum_uses, Serum.is_active. rewrite Hm, Hb, Hq. lia.
  - eapply counted_by; [exact I|done|by left|]. intros ti Hti. rewrite (uses_tcs _ _ _ _ _ Ht), (in_use_tokens a) by done.
    unfold swap_uses, Tcs.is_configured. rewrite Hc, Hb, Hs. lia.
  - eapply counted_by; [exact I|done|by left|]. intros ti Hti. rewrite (uses_perp _ _ _ _ _ Hp), (in_use_tokens a) by done.
    unfold perp_uses, Perp.is_active. rewrite Hm. lia.
  - eapply counted_by; [exact I|by rewrite Ht|by left|]. intros ti Hti. rewrite (in_use_tokens a a') by done.
    unfold uses. rewrite Hs, Hw, Hp. lia.
Qed.

(** C8: Tokens in use keep their positions. From an account whose counts are right, such as a
    new one, every sequence of operations leads to an account in which the position of a
    token counts exactly the open orders accounts, conditional swaps and perp positions
    that use the token; a token that is used has a position, and deactivating that position
    is refused. *)
Theorem tokens_in_use_kept a0 a : uses_counted a0 -> rtc account_step a0 a ->
  uses_counted a /\
  forall ti, ti <> TOKEN_INDEX_MAX -> 0 < uses a ti ->
    exists t i, Account.token_position_and_raw_index a ti = Done (t, i) /\ tp_in_use_count t = uses a ti /\
      Account.deactivate_token_position a i = Panic.
Proof.
  intros I R. assert (I' : uses_counted a) by (induction R; [done|]; eauto using account_step_counted). split; [done|].
  intros ti Hti Hu. pose proof (uc_count _ I' ti Hti) as Hc. unfold in_use in Hc.
  destruct (Account.token_position_and_raw_index a ti) as [[t i]| | |] eqn:Et; [|lia..]. exists t, i. split_and!; [done..|].
  apply token_position_lookup in Et as (_ & Hi & _). unfold Account.deactivate_token_position. rewrite Hi. simpl.
  rewrite (proj2 (Z.eqb_neq (tp_in_use_count t) 0)) by lia. done.
Qed.

End holds.

(** ** A concrete history

    An account with two positions opens an open orders account of the spot market. *)
Definition fresh_account : MangoAccount :=
  (liqee_account <| ma_tokens := [position_of 0 (fx_int 100); position_of 1 (fx_int 20)] |>) <| ma_serum3 := [Serum.default] |>.
Definition opening : SerumAccounts := spot_accounts <| sx_account := fresh_account |>.

Lemma fresh_counted settle : uses_counted settle (fun _ => (1, 0)) fresh_account.
Proof.
  split.
  - intros i j t u Ei Ej _ Et. destruct i as [|[|i]], j as [|[|j]]; try done; simpl in *;
      injection Ei as <-; injection Ej as <-; discriminate Et.
  - intros ti _. unfold in_use, Account.token_position_and_raw_index, Token.is_active_for_token. cbn -[Z.eqb].
    destruct (0 =? ti); [done|]. by destruct (1 =? ti).
  - repeat constructor. discriminate.
Qed.

(** The witness of C8: afterwards both tokens of the market are in use. *)
Lemma tokens_in_use_kept_witness :
  exists x', @serum3_create_open_orders serum_ref opening 9 1000 = Done x' /\
    exists t i, Account.token_position_and_raw_index (sx_account x') 1 = Done (t, i) /\ tp_in_use_count t = 1 /\
      Account.deactivate_token_position (sx_account x') i = Panic.
Proof.
  destruct (@serum3_create_open_orders serum_ref opening 9 1000) as [x'| | |] eqn:E; [|vm_compute in E; discriminate E..].
  exists x'. refine (conj eq_refl _).
  destruct (@tokens_in_use_kept fixed_ref serum_ref (fun _ => 0) (fun _ => (1, 0)) fresh_account (sx_account x')) as [_ Hu].
  - exact (fresh_counted (fun _ => 0)).
  - eapply rtc_l; [|apply rtc_refl]. apply (@st_create_open_orders fixed_ref serum_ref _ _ opening 9 1000 x'); [|exact E].
    split; [reflexivity|]. split; [discriminate|]. split; discriminate.
  - destruct (Hu 1) as (t & i & Et & Hc & Hd); [discriminate|vm_compute in E; injection E as <-; reflexivity|].
    exists t, i. refine (conj Et (conj _ Hd)). rewrite Hc. vm_compute in E. injection E as <-. reflexivity.
Defined.
