(* ===== verification/AccountLayout.v ===== *)
(** * The bytes of a mango account

    state/mango_account.rs: behind the fixed part, an account has five arrays of slots
    (token positions, spot open orders, perp positions, perp open orders and conditional
    swaps), whose lengths are in front of them. Resizing moves the slots in use within the
    same bytes. A slot is the bytes of its struct; of these bytes only the ones that say
    whether the slot is in use are looked at. *)

From stdpp Require Import base numbers option list.
From Stdlib Require Import ZArith Lia.
From S2P Require Import Prelude.

Open Scope nat_scope.

(** ** Bytes *)

(** [data[offset..offset + len]]; slicing out of range panics. *)
Definition slice (data : list Z) (offset len : nat) : list Z := take len (drop offset data).

Definition read (data : list Z) (offset len : nat) : outcome (list Z) :=
  _ ← assert_ (offset + len <=? length data); Done (slice data offset len).

(** [data[offset..].copy_from_slice(bytes)]. *)
Definition write (data : list Z) (offset : nat) (bytes : list Z) : outcome (list Z) :=
  _ ← assert_ (offset + length bytes <=? length data);
  Done (take offset data ++ bytes ++ drop (offset + length bytes) data).

(** [sol_memmove]: also right when the ranges overlap. *)
Definition memmove (data : list Z) (dst src len : nat) : outcome (list Z) :=
  bytes ← read data src len; write data dst bytes.

(** Little-endian integers. *)
Fixpoint le_value (bytes : list Z) : Z :=
  match bytes with [] => 0 | b :: bytes => b + 256 * le_value bytes end%Z.

Fixpoint le_bytes (n : nat) (v : Z) : list Z :=
  match n with O => [] | S n => (v mod 256)%Z :: le_bytes n (v / 256)%Z end.

(** ** Slots *)

Record SlotKind := mkSlotKind {
  sk_size : nat;
  sk_is_active : list Z -> bool;
  sk_default : list Z
}.

(** The [u16] at an offset is not [u16::MAX]. *)
Definition index_is_set (offset : nat) (slot : list Z) : bool := negb (le_value (slice slot offset 2) =? U16_MAX)%Z.

Definition zeros (n : nat) : list Z := replicate n 0%Z.
Definition ones (n : nat) : list Z := replicate n 255%Z.

(** [token_index] is at 16. *)
Definition token_slot : SlotKind := mkSlotKind 184 (index_is_set 16) (zeros 16 ++ ones 2 ++ zeros 166).

(** [market_index], [base_token_index] and [quote_token_index] are at 48, 50 and 52. *)
Definition serum3_slot : SlotKind := mkSlotKind 120 (index_is_set 48) (zeros 48 ++ ones 6 ++ zeros 66).

(** [market_index] comes first. *)
Definition perp_slot : SlotKind := mkSlotKind 304 (index_is_set 0) (ones 2 ++ zeros 302).

(** [market] is at 2. *)
Definition perp_oo_slot : SlotKind := mkSlotKind 96 (index_is_set 2) (zeros 2 ++ ones 2 ++ zeros 92).

(** [expiry_timestamp] is at 40, the token indexes at 80 and 82, [is_configured] at 84. *)
Definition tcs_slot : SlotKind :=
  mkSlotKind 200 (fun slot => le_value (slice slot 84 1) =? 1)%Z (zeros 40 ++ ones 8 ++ zeros 32 ++ ones 4 ++ zeros 116).

(** ** The header *)

Definition BORSH_VEC_PADDING_BYTES : nat := 4.
Definition BORSH_VEC_SIZE_BYTES : nat := 4.
Definition DEFAULT_MANGO_ACCOUNT_VERSION : Z := 1.
Definition DYNAMIC_RESERVED_BYTES : nat := 64.

Record MangoAccountDynamicHeader := mkHeader {
  hd_token_count : nat;
  hd_serum3_count : nat;
  hd_perp_count : nat;
  hd_perp_oo_count : nat;
  hd_token_conditional_swap_count : nat
}.

Module Layout.

Definition dynamic_token_vec_offset : nat := 8 + BORSH_VEC_PADDING_BYTES.

Definition dynamic_serum3_vec_offset (token_count : nat) : nat :=
  dynamic_token_vec_offset + (BORSH_VEC_SIZE_BYTES + sk_size token_slot * token_count) + BORSH_VEC_PADDING_BYTES.

Definition dynamic_perp_vec_offset (token_count serum3_count : nat) : nat :=
  dynamic_serum3_vec_offset token_count + (BORSH_VEC_SIZE_BYTES + sk_size serum3_slot * serum3_count) + BORSH_VEC_PADDING_BYTES.

Definition dynamic_perp_oo_vec_offset (token_count serum3_count perp_count : nat) : nat :=
  dynamic_perp_vec_offset token_count serum3_count + (BORSH_VEC_SIZE_BYTES + sk_size perp_slot * perp_count)
  + BORSH_VEC_PADDING_BYTES.

Definition dynamic_token_conditional_swap_vec_offset (token_count serum3_count perp_count perp_oo_count : nat) : nat :=
  dynamic_perp_oo_vec_offset token_count serum3_count perp_count
  + (BORSH_VEC_SIZE_BYTES + sk_size perp_oo_slot * perp_oo_count) + BORSH_VEC_PADDING_BYTES.

Definition dynamic_reserved_bytes_offset
    (token_count serum3_count perp_count perp_oo_count token_conditional_swap_count : nat) : nat :=
  dynamic_token_conditional_swap_vec_offset token_count serum3_count perp_count perp_oo_count
  + (BORSH_VEC_SIZE_BYTES + sk_size tcs_slot * token_conditional_swap_count).

Definition dynamic_size (token_count serum3_count perp_count perp_oo_count token_conditional_swap_count : nat) : nat :=
  dynamic_reserved_bytes_offset token_count serum3_count perp_count perp_oo_count token_conditional_swap_count
  + DYNAMIC_RESERVED_BYTES.

(** The fixed part has 400 bytes. *)
Definition space (token_count serum3_count perp_count perp_oo_count token_conditional_swap_count : nat) : nat :=
  8 + 400 + dynamic_size token_count serum3_count perp_count perp_oo_count token_conditional_swap_count.

Definition account_size (h : MangoAccountDynamicHeader) : nat :=
  space (hd_token_count h) (hd_serum3_count h) (hd_perp_count h) (hd_perp_oo_count h) (hd_token_conditional_swap_count h).

Definition token_offset (h : MangoAccountDynamicHeader) (raw_index : nat) : nat :=
  dynamic_token_vec_offset + BORSH_VEC_SIZE_BYTES + raw_index * sk_size token_slot.

Definition serum3_offset (h : MangoAccountDynamicHeader) (raw_index : nat) : nat :=
  dynamic_serum3_vec_offset (hd_token_count h) + BORSH_VEC_SIZE_BYTES + raw_index * sk_size serum3_slot.

Definition perp_offset (h : MangoAccountDynamicHeader) (raw_index : nat) : nat :=
  dynamic_perp_vec_offset (hd_token_count h) (hd_serum3_count h) + BORSH_VEC_SIZE_BYTES + raw_index * sk_size perp_slot.

Definition perp_oo_offset (h : MangoAccountDynamicHeader) (raw_index : nat) : nat :=
  dynamic_perp_oo_vec_offset (hd_token_count h) (hd_serum3_count h) (hd_perp_count h) + BORSH_VEC_SIZE_BYTES
  + raw_index * sk_size perp_oo_slot.

Definition token_conditional_swap_offset (h : MangoAccountDynamicHeader) (raw_index : nat) : nat :=
  dynamic_token_conditional_swap_vec_offset (hd_token_count h) (hd_serum3_count h) (hd_perp_count h) (hd_perp_oo_count h)
  + BORSH_VEC_SIZE_BYTES + raw_index * sk_size tcs_slot.

Definition reserved_bytes_offset (h : MangoAccountDynamicHeader) : nat :=
  dynamic_reserved_bytes_offset (hd_token_count h) (hd_serum3_count h) (hd_perp_count h) (hd_perp_oo_count h)
    (hd_token_conditional_swap_count h).

Definition zero : MangoAccountDynamicHeader := mkHeader 0 0 0 0 0.

Definition expected_health_accounts (h : MangoAccountDynamicHeader) : nat :=
  hd_token_count h * 2 + hd_serum3_count h + hd_perp_count h * 2.

Definition max_health_accounts : nat := 28.

Definition check_resize_from (h prev : MangoAccountDynamicHeader) : outcome unit :=
  _ ← (if expected_health_accounts prev <? expected_health_accounts h
       then require (expected_health_accounts h <=? max_health_accounts) ERequireGte else Done tt);
  _ ← (if hd_perp_oo_count prev <? hd_perp_oo_count h then require (hd_perp_oo_count h <=? 64) ERequireGte else Done tt);
  if hd_token_conditional_swap_count prev <? hd_token_conditional_swap_count h
  then require (hd_token_conditional_swap_count h <=? 64) ERequireGte else Done tt.

(** A length in front of an array: a [u32] that must fit a [u8]. *)
Definition read_count (data : list Z) (offset : nat) : outcome nat :=
  bytes ← read data offset BORSH_VEC_SIZE_BYTES;
  n ← u8 (le_value bytes);
  Done (Z.to_nat n).

(** Accounts without conditional swaps end before the last array. *)
Definition from_bytes (data : list Z) : outcome MangoAccountDynamicHeader :=
  version ← read data 0 1;
  if (le_value version =? 1)%Z then
    token_count ← read_count data dynamic_token_vec_offset;
    serum3_count ← read_count data (dynamic_serum3_vec_offset token_count);
    perp_count ← read_count data (dynamic_perp_vec_offset token_count serum3_count);
    perp_oo_count ← read_count data (dynamic_perp_oo_vec_offset token_count serum3_count perp_count);
    let tcs_offset := dynamic_token_conditional_swap_vec_offset token_count serum3_count perp_count perp_oo_count in
    tcs_count ← (if tcs_offset + BORSH_VEC_SIZE_BYTES <? length data then read_count data tcs_offset else Done 0);
    Done (mkHeader token_count serum3_count perp_count perp_oo_count tcs_count)
  else Fail (EMango NotImplementedError).

Definition initialize (data : list Z) : outcome (list Z) := write data 0 (le_bytes 1 DEFAULT_MANGO_ACCOUNT_VERSION).

(** ** Resizing *)

(** The loop that moves the slots in use to the front of an array at [start]: [i] is the
    next slot and [active] the number of slots in use before it. *)
Fixpoint defrag (k : SlotKind) (start n i active : nat) (data : list Z) : outcome (list Z * nat) :=
  match n with
  | O => Done (data, active)
  | S n =>
      slot ← read data (start + i * sk_size k) (sk_size k);
      if negb (sk_is_active k slot) then defrag k start n (S i) active data
      else
        data ← (if negb (i =? active)
                then memmove data (start + active * sk_size k) (start + i * sk_size k) (sk_size k)
                else Done data);
        defrag k start n (S i) (S active) data
  end.

(** The slots of an array that end with its last one in use. *)
Fixpoint blocked (k : SlotKind) (start n : nat) (data : list Z) : outcome nat :=
  match n with
  | O => Done O
  | S idx =>
      slot ← read data (start + idx * sk_size k) (sk_size k);
      if sk_is_active k slot then Done n else blocked k start idx data
  end.

(** The bytes to keep of an array: where they are, where they go, and how many. *)
Record Block := mkBlock {
  bl_old_start : nat;
  bl_new_start : nat;
  bl_len : nat
}.

Definition move_block (b : Block) (data : list Z) : outcome (list Z) :=
  memmove data (bl_new_start b) (bl_old_start b) (bl_len b).

(** First pass, from left to right: the blocks that move to the left. *)
Fixpoint move_left (bs : list Block) (data : list Z) : outcome (list Z) :=
  match bs with
  | [] => Done data
  | b :: bs =>
      data ← (if (bl_new_start b <? bl_old_start b) && (0 <? bl_len b) then move_block b data else Done data);
      move_left bs data
  end.

(** Second pass, from right to left: the blocks that move to the right. *)
Fixpoint move_right (bs : list Block) (data : list Z) : outcome (list Z) :=
  match bs with
  | [] => Done data
  | b :: bs =>
      data ← move_right bs data;
      if (bl_old_start b <? bl_new_start b) && (0 <? bl_len b) then move_block b data else Done data
  end.

(** The slots from [i] on become unused. *)
Fixpoint fill_default (k : SlotKind) (start n i : nat) (data : list Z) : outcome (list Z) :=
  match n with
  | O => Done data
  | S n => data ← write data (start + i * sk_size k) (sk_default k); fill_default k start n (S i) data
  end.

Definition write_borsh_vec_length_and_padding (data : list Z) (offset count : nat) : outcome (list Z) :=
  data ← write data (offset - BORSH_VEC_SIZE_BYTES - BORSH_VEC_PADDING_BYTES) (zeros BORSH_VEC_PADDING_BYTES);
  write data (offset - BORSH_VEC_SIZE_BYTES) (le_bytes BORSH_VEC_SIZE_BYTES (Z.of_nat count)).

Definition write_lengths (h : MangoAccountDynamicHeader) (data : list Z) : outcome (list Z) :=
  data ← write_borsh_vec_length_and_padding data (token_offset h 0) (hd_token_count h);
  data ← write_borsh_vec_length_and_padding data (serum3_offset h 0) (hd_serum3_count h);
  data ← write_borsh_vec_length_and_padding data (perp_offset h 0) (hd_perp_count h);
  data ← write_borsh_vec_length_and_padding data (perp_oo_offset h 0) (hd_perp_oo_count h);
  write_borsh_vec_length_and_padding data (token_conditional_swap_offset h 0) (hd_token_conditional_swap_count h).

(** The numbers of slots to keep, as a header. *)
Definition defrag_all (h : MangoAccountDynamicHeader) (data : list Z) : outcome (list Z * MangoAccountDynamicHeader) :=
  '(data, tokens) ← defrag token_slot (token_offset h 0) (hd_token_count h) 0 0 data;
  '(data, serum3) ← defrag serum3_slot (serum3_offset h 0) (hd_serum3_count h) 0 0 data;
  '(data, perps) ← defrag perp_slot (perp_offset h 0) (hd_perp_count h) 0 0 data;
  oos ← blocked perp_oo_slot (perp_oo_offset h 0) (hd_perp_oo_count h) data;
  '(data, tcs) ← defrag tcs_slot (token_conditional_swap_offset h 0) (hd_token_conditional_swap_count h) 0 0 data;
  Done (data, mkHeader tokens serum3 perps oos tcs).

(** The blocks that may move; token positions never do. *)
Definition blocks (old new used : MangoAccountDynamicHeader) : list Block :=
  [mkBlock (serum3_offset old 0) (serum3_offset new 0) (sk_size serum3_slot * hd_serum3_count used);
   mkBlock (perp_offset old 0) (perp_offset new 0) (sk_size perp_slot * hd_perp_count used);
   mkBlock (perp_oo_offset old 0) (perp_oo_offset new 0) (sk_size perp_oo_slot * hd_perp_oo_count used);
   mkBlock (token_conditional_swap_offset old 0) (token_conditional_swap_offset new 0)
     (sk_size tcs_slot * hd_token_conditional_swap_count used)].

Definition fill_all (new used : MangoAccountDynamicHeader) (data : list Z) : outcome (list Z) :=
  let fill k start n i := fill_default k start (n - i) i in
  data ← fill token_slot (token_offset new 0) (hd_token_count new) (hd_token_count used) data;
  data ← fill serum3_slot (serum3_offset new 0) (hd_serum3_count new) (hd_serum3_count used) data;
  data ← fill perp_slot (perp_offset new 0) (hd_perp_count new) (hd_perp_count used) data;
  data ← fill perp_oo_slot (perp_oo_offset new 0) (hd_perp_oo_count new) (hd_perp_oo_count used) data;
  fill tcs_slot (token_conditional_swap_offset new 0) (hd_token_conditional_swap_count new)
    (hd_token_conditional_swap_count used) data.

Definition resize_dynamic_content (old new : MangoAccountDynamicHeader) (data : list Z) :
    outcome (MangoAccountDynamicHeader * list Z) :=
  _ ← check_resize_from new old;
  '(data, used) ← defrag_all old data;
  _ ← require (hd_token_count used <=? hd_token_count new) ERequireGte;
  _ ← require (hd_serum3_count used <=? hd_serum3_count new) ERequireGte;
  _ ← require (hd_perp_count used <=? hd_perp_count new) ERequireGte;
  _ ← require (hd_perp_oo_count used <=? hd_perp_oo_count new) ERequireGte;
  _ ← require (hd_token_conditional_swap_count used <=? hd_token_conditional_swap_count new) ERequireGte;
  data ← move_left (blocks old new used) data;
  data ← move_right (blocks old new used) data;
  data ← fill_all new used data;
  data ← write data (reserved_bytes_offset new) (zeros DYNAMIC_RESERVED_BYTES);
  data ← write_lengths new data;
  Done (new, data).

End Layout.
