(* ===== verification/AccountLayoutSpec.v ===== *)
(** * Resizing keeps the contents of an account

    The bytes that [resize_dynamic_content] leaves hold the slots in use, in their order,
    followed by unused slots, whatever arrays grow or shrink; perp open orders keep their
    index; and the header read back from the bytes is the new one. *)

From stdpp Require Import base numbers option list.
From Stdlib Require Import ZArith Lia.
From S2P Require Import Prelude AccountLayout.

Open Scope nat_scope.

(** ** Bytes *)

(** [d'] has the bytes of [d] from [lo] to [hi]. *)
Definition agree (d d' : list Z) (lo hi : nat) : Prop := forall i, lo <= i < hi -> d' !! i = d !! i.

(** [d'] has at [dst] the [len] bytes of [d] at [src]. *)
Definition copied (d d' : list Z) (src dst len : nat) : Prop := forall i, i < len -> d' !! (dst + i) = d !! (src + i).

Lemma slice_lookup d off len i : i < len -> slice d off len !! i = d !! (off + i).
Proof. intros Hi. unfold slice. by rewrite lookup_take_lt, lookup_drop by done. Qed.

Lemma slice_copied d d' src dst len : copied d d' src dst len -> slice d' dst len = slice d src len.
Proof.
  intros C. apply list_eq. intros i. destruct (decide (i < len)) as [Hi|Hi].
  - by rewrite !slice_lookup, C by done.
  - unfold slice. by rewrite !lookup_take_ge by lia.
Qed.

Lemma agree_copied d d' lo hi off len : agree d d' lo hi -> lo <= off -> off + len <= hi -> copied d d' off off len.
Proof. intros A H1 H2 i Hi. apply A. lia. Qed.

Lemma copied_trans d1 d2 d3 a b c len : copied d1 d2 a b len -> copied d2 d3 b c len -> copied d1 d3 a c len.
Proof. intros C1 C2 i Hi. by rewrite C2, C1 by done. Qed.

Lemma read_ok d off len : off + len <= length d -> read d off len = Done (slice d off len).
Proof. intros Hl. unfold read. by rewrite (proj2 (Nat.leb_le _ _) Hl). Qed.

Lemma write_ok d off bs : off + length bs <= length d -> exists d',
  write d off bs = Done d' /\ length d' = length d /\ (forall i, i < length bs -> d' !! (off + i) = bs !! i) /\
  agree d d' 0 off /\ agree d d' (off + length bs) (length d).
Proof.
  intros Hl. unfold write. rewrite (proj2 (Nat.leb_le _ _) Hl). eexists. split; [done|]. split_and!.
  - rewrite !length_app, length_take, length_drop. lia.
  - intros i Hi. rewrite lookup_app_r by (rewrite length_take; lia). rewrite length_take, Nat.min_l by lia.
    rewrite lookup_app_l by lia. f_equal. lia.
  - intros i Hi. rewrite lookup_app_l by (rewrite length_take; lia). by rewrite lookup_take_lt by lia.
  - intros i Hi. rewrite lookup_app_r by (rewrite length_take; lia). rewrite length_take, Nat.min_l by lia.
    rewrite lookup_app_r by lia. rewrite lookup_drop. f_equal. lia.
Qed.

Lemma memmove_ok d dst src len : src + len <= length d -> dst + len <= length d -> exists d',
  memmove d dst src len = Done d' /\ length d' = length d /\ copied d d' src dst len /\
  agree d d' 0 dst /\ agree d d' (dst + len) (length d).
Proof.
  intros Hs Hd. unfold memmove. rewrite read_ok by done. simpl.
  assert (Hl : length (slice d src len) = len) by (unfold slice; rewrite length_take, length_drop; lia).
  destruct (write_ok d dst (slice d src len)) as (d' & E & L & W & A1 & A2); [lia|]. rewrite Hl in *.
  exists d'. split_and!; try done. intros i Hi. by rewrite W, slice_lookup by lia.
Qed.

(** ** Slots *)

Definition slot_at (k : SlotKind) (start : nat) (d : list Z) (i : nat) : list Z := slice d (start + i * sk_size k) (sk_size k).

(** [n] slots from the [i]-th. *)
Definition slots_from (k : SlotKind) (start i n : nat) (d : list Z) : list (list Z) := slot_at k start d <$> seq i n.

Definition slots (k : SlotKind) (start n : nat) (d : list Z) : list (list Z) := slots_from k start 0 n d.

Lemma slots_from_agree k start i n d d' : agree d d' (start + i * sk_size k) (start + (i + n) * sk_size k) ->
  slots_from k start i n d' = slots_from k start i n d.
Proof.
  intros A. unfold slots_from. apply list_fmap_ext. intros j x Hj. apply lookup_seq in Hj as [-> Hj].
  apply slice_copied. apply (agree_copied _ _ _ _ _ _ A); nia.
Qed.

Lemma slots_from_copied k src dst n d d' : copied d d' src dst (n * sk_size k) ->
  slots_from k dst 0 n d' = slots_from k src 0 n d.
Proof.
  intros C. unfold slots_from. apply list_fmap_ext. intros j x Hj. apply lookup_seq in Hj as [-> Hj].
  apply slice_copied. intros b Hb. rewrite <- !Nat.add_assoc. apply C. nia.
Qed.

Lemma slots_from_app k start i n m d : slots_from k start i (n + m) d = slots_from k start i n d ++ slots_from k start (i + n) m d.
Proof. unfold slots_from. by rewrite seq_app, fmap_app. Qed.

Lemma length_slots_from k start i n d : length (slots_from k start i n d) = n.
Proof. unfold slots_from. by rewrite length_fmap, length_seq. Qed.

(** The slots in use, in their order. *)
Definition in_use (k : SlotKind) (l : list (list Z)) : list (list Z) := List.filter (sk_is_active k) l.

Lemma in_use_length k l : length (in_use k l) <= length l.
Proof. apply List.filter_length_le. Qed.

Lemma defrag_ok k start n : forall i active d, active <= i -> start + (i + n) * sk_size k <= length d ->
  exists d', Layout.defrag k start n i active d = Done (d', active + length (in_use k (slots_from k start i n d))) /\
    length d' = length d /\ agree d d' 0 (start + active * sk_size k) /\ agree d d' (start + (i + n) * sk_size k) (length d) /\
    slots_from k start active (length (in_use k (slots_from k start i n d))) d' = in_use k (slots_from k start i n d).
Proof.
  induction n as [|n IH]; intros i active d Ha Hl; cbn [Layout.defrag].
  - exists d. simpl. rewrite Nat.add_0_r. split_and!; done.
  - rewrite read_ok by nia. run. change (slice d (start + i * sk_size k) (sk_size k)) with (slot_at k start d i).
    assert (Hu : in_use k (slots_from k start i (S n) d) = if sk_is_active k (slot_at k start d i)
      then slot_at k start d i :: in_use k (slots_from k start (S i) n d) else in_use k (slots_from k start (S i) n d)) by done.
    rewrite Hu. clear Hu. destruct (sk_is_active k (slot_at k start d i)) eqn:Es; cbn [negb].
    + assert (exists d1, (if negb (i =? active) then memmove d (start + active * sk_size k) (start + i * sk_size k) (sk_size k)
        else Done d) = Done d1 /\ length d1 = length d /\
        copied d d1 (start + i * sk_size k) (start + active * sk_size k) (sk_size k) /\
        agree d d1 0 (start + active * sk_size k) /\ agree d d1 (start + (active + 1) * sk_size k) (length d))
        as (d1 & -> & L1 & C1 & A1 & A2).
      { destruct (Nat.eqb_spec i active) as [<-|Hne]; simpl; [by exists d|].
        destruct (memmove_ok d (start + active * sk_size k) (start + i * sk_size k) (sk_size k)) as (d1 & E & L & C & B1 & B2); [nia..|].
        exists d1. split_and!; try done. intros j Hj. apply B2. nia. }
      run. destruct (IH (S i) (S active) d1) as (d' & E & L & B1 & B2 & HS); [lia|nia|].
      assert (Hs : slots_from k start (S i) n d1 = slots_from k start (S i) n d).
      { apply slots_from_agree. intros j Hj. apply A2. nia. }
      rewrite Hs in *. exists d'. rewrite E. split_and!; [f_equal; f_equal; simpl; lia|congruence|..].
      * intros j Hj. rewrite B1 by nia. apply A1. lia.
      * intros j Hj. rewrite L1 in B2. rewrite B2 by nia. apply A2. nia.
      * change (slot_at k start d' active :: slots_from k start (S active) (length (in_use k (slots_from k start (S i) n d))) d'
          = slot_at k start d i :: in_use k (slots_from k start (S i) n d)). f_equal; [|done]. apply slice_copied, (copied_trans _ d1 _ _ (start + active * sk_size k)); [done|].
        apply (agree_copied _ _ _ _ _ _ B1); nia.
    + destruct (IH (S i) active d) as (d' & E & L & B1 & B2 & HS); [lia|nia|]. exists d'. rewrite E. split_and!; try done.
      intros j Hj. apply B2. nia.
Qed.


(** The number of slots up to the last one in use. *)
Fixpoint last_used (k : SlotKind) (l : list (list Z)) : nat :=
  match l with
  | [] => 0
  | s :: l => match last_used k l with O => if sk_is_active k s then 1 else 0 | n => S n end
  end.

Lemma last_used_snoc k l s : last_used k (l ++ [s]) = if sk_is_active k s then S (length l) else last_used k l.
Proof. induction l as [|x l IH]; simpl; [done|]. rewrite IH. by destruct (sk_is_active k s). Qed.

Lemma last_used_length k l : last_used k l <= length l.
Proof. induction l as [|x l IH]; simpl; [done|]. destruct (last_used k l); [destruct (sk_is_active k x)|]; lia. Qed.

Lemma blocked_ok k start n d : start + n * sk_size k <= length d -> Layout.blocked k start n d = Done (last_used k (slots k start n d)).
Proof.
  induction n as [|n IH]; intros Hl; [done|]. cbn [Layout.blocked]. rewrite read_ok by nia. run.
  unfold slots in *. rewrite <- Nat.add_1_r, slots_from_app. cbn [slots_from seq fmap list_fmap]. simpl.
  change (slots_from k start n 1 d) with [slot_at k start d n]. rewrite last_used_snoc, length_slots_from.
  unfold slot_at. destruct (sk_is_active k _); [do 2 f_equal; lia|]. apply IH. nia.
Qed.

(** ** Moving blocks

    The blocks follow each other, before and after the move. *)
Fixpoint chained (old new hi : nat) (bs : list Layout.Block) : Prop :=
  match bs with
  | [] => True
  | b :: bs =>
      old <= Layout.bl_old_start b /\ new <= Layout.bl_new_start b /\
      Layout.bl_old_start b + Layout.bl_len b <= hi /\ Layout.bl_new_start b + Layout.bl_len b <= hi /\
      chained (Layout.bl_old_start b + Layout.bl_len b) (Layout.bl_new_start b + Layout.bl_len b) hi bs
  end.

(** Where a block is between the passes. *)
Definition between (b : Layout.Block) : nat := Nat.min (Layout.bl_old_start b) (Layout.bl_new_start b).

Lemma chained_after old new hi bs b : chained old new hi bs -> b ∈ bs ->
  old <= Layout.bl_old_start b /\ new <= Layout.bl_new_start b /\
  Layout.bl_old_start b + Layout.bl_len b <= hi /\ Layout.bl_new_start b + Layout.bl_len b <= hi.
Proof.
  revert old new. induction bs as [|c bs IH]; intros old new Hc Hb; [by apply not_elem_of_nil in Hb|].
  destruct Hc as (H1 & H2 & H3 & H4 & Hc). apply elem_of_cons in Hb as [->|Hb]; [done|].
  destruct (IH _ _ Hc Hb) as (K1 & K2 & K3 & K4). lia.
Qed.

Lemma move_left_ok bs : forall old new d, chained old new (length d) bs -> exists d',
  Layout.move_left bs d = Done d' /\ length d' = length d /\ agree d d' 0 new /\
  forall b, b ∈ bs -> copied d d' (Layout.bl_old_start b) (between b) (Layout.bl_len b).
Proof.
  induction bs as [|b bs IH]; intros old new d Hc; simpl; [by exists d; split_and!; try done; intros b Hb; apply not_elem_of_nil in Hb|].
  destruct Hc as (H1 & H2 & H3 & H4 & Hc).
  assert (exists d1, (if (Layout.bl_new_start b <? Layout.bl_old_start b) && (0 <? Layout.bl_len b)
      then Layout.move_block b d else Done d) = Done d1 /\ length d1 = length d /\ agree d d1 0 new /\
      agree d d1 (Layout.bl_old_start b + Layout.bl_len b) (length d) /\
      copied d d1 (Layout.bl_old_start b) (between b) (Layout.bl_len b)) as (d1 & -> & L1 & A1 & A2 & C1).
  { unfold between. destruct (Nat.ltb_spec (Layout.bl_new_start b) (Layout.bl_old_start b)) as [Hlt|Hge]; simpl.
    - destruct (Nat.ltb_spec 0 (Layout.bl_len b)); [|exists d; split_and!; try done; intros i Hi; lia].
      destruct (memmove_ok d (Layout.bl_new_start b) (Layout.bl_old_start b) (Layout.bl_len b)) as (d1 & E & L & C & B1 & B2); [lia..|].
      exists d1. rewrite Nat.min_r by lia. split_and!; try done; intros i Hi; [apply B1|apply B2]; lia.
    - exists d. rewrite Nat.min_l by lia. by split_and!. }
  run. rewrite <- L1 in Hc. destruct (IH _ _ _ Hc) as (d' & E & L & A & C). exists d'. split_and!; [done|congruence|..].
  - intros i Hi. rewrite A by lia. apply A1. lia.
  - intros c Hb. apply elem_of_cons in Hb as [->|Hb].
    + apply (copied_trans _ d1 _ _ (between b)); [done|]. apply (agree_copied _ _ _ _ _ _ A); unfold between; lia.
    + apply (copied_trans _ d1 _ _ (Layout.bl_old_start c)); [|by apply C].
      destruct (chained_after _ _ _ _ _ Hc Hb) as (K1 & _ & K3 & _). apply (agree_copied _ _ _ _ _ _ A2); lia.
Qed.

Lemma move_right_ok bs : forall old new d, chained old new (length d) bs -> exists d',
  Layout.move_right bs d = Done d' /\ length d' = length d /\ agree d d' 0 new /\
  forall b, b ∈ bs -> copied d d' (between b) (Layout.bl_new_start b) (Layout.bl_len b).
Proof.
  induction bs as [|b bs IH]; intros old new d Hc; simpl; [by exists d; split_and!; try done; intros b Hb; apply not_elem_of_nil in Hb|].
  destruct Hc as (H1 & H2 & H3 & H4 & Hc). destruct (IH _ _ _ Hc) as (d1 & -> & L1 & A1 & C1). run.
  assert (Cb : copied d d1 (between b) (between b) (Layout.bl_len b)).
  { apply (agree_copied _ _ _ _ _ _ A1); unfold between; lia. }
  destruct (Nat.ltb_spec (Layout.bl_old_start b) (Layout.bl_new_start b)) as [Hlt|Hge]; simpl.
  - destruct (Nat.ltb_spec 0 (Layout.bl_len b)) as [Hp|Hp].
    + destruct (memmove_ok d1 (Layout.bl_new_start b) (Layout.bl_old_start b) (Layout.bl_len b)) as (d' & E & L & C & B1 & B2); [lia..|].
      exists d'. split_and!; [done|congruence|intros i Hi; rewrite B1 by lia; apply A1; lia|].
      intros c Hb. apply elem_of_cons in Hb as [->|Hb].
      * eapply copied_trans; [exact Cb|]. unfold between. by rewrite Nat.min_l by lia.
      * eapply copied_trans; [by apply C1|]. destruct (chained_after _ _ _ _ _ Hc Hb) as (_ & K2 & _ & K4).
        rewrite <- L1 in K4. apply (agree_copied _ _ _ _ _ _ B2); lia.
    + exists d1. split_and!; [done|done|intros i Hi; apply A1; lia|].
      intros c Hb. apply elem_of_cons in Hb as [->|Hb]; [intros i Hi; lia|by apply C1].
  - exists d1. split_and!; [done|done|intros i Hi; apply A1; lia|]. intros c Hb.
    apply elem_of_cons in Hb as [->|Hb]; [|by apply C1]. unfold between in *. by rewrite Nat.min_r in * by lia.
Qed.

(** Both passes bring every block to its new place. *)
Lemma move_blocks_ok bs old new d : chained old new (length d) bs -> exists d1 d2,
  Layout.move_left bs d = Done d1 /\ Layout.move_right bs d1 = Done d2 /\ length d2 = length d /\ agree d d2 0 new /\
  forall b, b ∈ bs -> copied d d2 (Layout.bl_old_start b) (Layout.bl_new_start b) (Layout.bl_len b).
Proof.
  intros Hc. destruct (move_left_ok _ _ _ _ Hc) as (d1 & E1 & L1 & A1 & C1). rewrite <- L1 in Hc.
  destruct (move_right_ok _ _ _ _ Hc) as (d2 & E2 & L2 & A2 & C2). exists d1, d2. split_and!; [done|done|congruence|..].
  - intros i Hi. by rewrite A2, A1.
  - intros b Hb. eapply copied_trans; [by apply C1|by apply C2].
Qed.

(** ** Unused slots and lengths *)

Definition kind_ok (k : SlotKind) : Prop := length (sk_default k) = sk_size k.

Lemma fill_default_ok k start n : kind_ok k -> forall i d, start + (i + n) * sk_size k <= length d -> exists d',
  Layout.fill_default k start n i d = Done d' /\ length d' = length d /\ agree d d' 0 (start + i * sk_size k) /\
  agree d d' (start + (i + n) * sk_size k) (length d) /\ slots_from k start i n d' = replicate n (sk_default k).
Proof.
  intros Hk. induction n as [|n IH]; intros i d Hl; cbn [Layout.fill_default]; [by exists d|].
  destruct (write_ok d (start + i * sk_size k) (sk_default k)) as (d1 & -> & L1 & W & A1 & A2); [rewrite Hk; nia|]. run.
  rewrite Hk in *. destruct (IH (S i) d1) as (d' & -> & L & B1 & B2 & HS); [nia|]. exists d'. split_and!; [done|congruence|..].
  - intros j Hj. rewrite B1 by nia. apply A1. lia.
  - intros j Hj. rewrite L1 in B2. rewrite B2 by nia. apply A2. nia.
  - change (slot_at k start d' i :: slots_from k start (S i) n d' = sk_default k :: replicate n (sk_default k)).
    f_equal; [|done]. apply list_eq. intros j. unfold slot_at. destruct (decide (j < sk_size k)) as [Hj|Hj].
    + rewrite slice_lookup by done. rewrite B1 by nia. by apply W.
    + unfold slice. rewrite lookup_take_ge by lia. by rewrite lookup_ge_None_2 by (rewrite Hk; lia).
Qed.

Lemma le_bytes_length n v : length (le_bytes n v) = n.
Proof. revert v. induction n as [|n IH]; intros v; simpl; [done|by rewrite IH]. Qed.

Lemma le_roundtrip n v : (0 <= v < 256 ^ Z.of_nat n)%Z -> le_value (le_bytes n v) = v.
Proof.
  revert v. induction n as [|n IH]; intros v Hv; cbn [le_bytes le_value]; [simpl in Hv; lia|].
  rewrite Nat2Z.inj_succ, Z.pow_succ_r in Hv by lia. rewrite IH.
  - pose proof (Z.div_mod v 256). lia.
  - split; [apply Z.div_pos; lia|apply Z.div_lt_upper_bound; lia].
Qed.

(** The length of an array whose slots begin at [offset], and the bytes around it. *)
Lemma write_length_ok d offset count : 8 <= offset -> offset <= length d -> count <= 255 -> exists d',
  Layout.write_borsh_vec_length_and_padding d offset count = Done d' /\ length d' = length d /\
  agree d d' 0 (offset - 8) /\ agree d d' offset (length d) /\ Layout.read_count d' (offset - 4) = Done count.
Proof.
  intros H8 Hl Hc. unfold Layout.write_borsh_vec_length_and_padding, BORSH_VEC_SIZE_BYTES, BORSH_VEC_PADDING_BYTES.
  destruct (write_ok d (offset - 4 - 4) (zeros 4)) as (d1 & -> & L1 & _ & A1 & A2); [simpl; lia|]. run.
  destruct (write_ok d1 (offset - 4) (le_bytes 4 (Z.of_nat count))) as (d2 & -> & L2 & W & B1 & B2); [rewrite le_bytes_length; lia|].
  rewrite le_bytes_length in *. simpl length in A2. exists d2. split_and!; [done|congruence|..].
  - intros i Hi. rewrite B1 by lia. apply A1. lia.
  - intros i Hi. rewrite B2 by lia. apply A2. lia.
  - unfold Layout.read_count, BORSH_VEC_SIZE_BYTES. rewrite read_ok by lia. run.
    assert (slice d2 (offset - 4) 4 = le_bytes 4 (Z.of_nat count)) as ->.
    { apply list_eq. intros i. destruct (decide (i < 4)) as [Hi|Hi].
      - rewrite slice_lookup by done. by apply W.
      - unfold slice. rewrite lookup_take_ge by lia. by rewrite lookup_ge_None_2 by (rewrite le_bytes_length; lia). }
    rewrite le_roundtrip by lia. rewrite u8_ok by (unfold is_u8, U8_MAX; lia). run. by rewrite Nat2Z.id.
Qed.

Lemma read_count_agree d d' off : off + 4 <= length d -> length d' = length d -> agree d d' off (off + 4) ->
  Layout.read_count d' off = Layout.read_count d off.
Proof.
  intros Hl L A. unfold Layout.read_count, BORSH_VEC_SIZE_BYTES. rewrite !read_ok by lia.
  by rewrite (slice_copied d d' off off 4) by (apply (agree_copied _ _ _ _ _ _ A); lia).
Qed.

(** ** The arrays of an account *)

Definition token_slots (h : MangoAccountDynamicHeader) := slots token_slot (Layout.token_offset h 0) (hd_token_count h).
Definition serum3_slots (h : MangoAccountDynamicHeader) := slots serum3_slot (Layout.serum3_offset h 0) (hd_serum3_count h).
Definition perp_slots (h : MangoAccountDynamicHeader) := slots perp_slot (Layout.perp_offset h 0) (hd_perp_count h).
Definition perp_oo_slots (h : MangoAccountDynamicHeader) := slots perp_oo_slot (Layout.perp_oo_offset h 0) (hd_perp_oo_count h).
Definition tcs_slots (h : MangoAccountDynamicHeader) :=
  slots tcs_slot (Layout.token_conditional_swap_offset h 0) (hd_token_conditional_swap_count h).

(** The slots that have to be kept. *)
Definition used (h : MangoAccountDynamicHeader) (d : list Z) : MangoAccountDynamicHeader :=
  mkHeader (length (in_use token_slot (token_slots h d))) (length (in_use serum3_slot (serum3_slots h d)))
    (length (in_use perp_slot (perp_slots h d))) (last_used perp_oo_slot (perp_oo_slots h d))
    (length (in_use tcs_slot (tcs_slots h d))).

(** Counts of [h] are at most those of [h']. *)
Record within (h h' : MangoAccountDynamicHeader) : Prop := {
  wi_token : hd_token_count h <= hd_token_count h';
  wi_serum3 : hd_serum3_count h <= hd_serum3_count h';
  wi_perp : hd_perp_count h <= hd_perp_count h';
  wi_perp_oo : hd_perp_oo_count h <= hd_perp_oo_count h';
  wi_tcs : hd_token_conditional_swap_count h <= hd_token_conditional_swap_count h'
}.

Lemma used_within h d : within (used h d) h.
Proof.
  split; simpl; (etrans; [apply in_use_length || apply last_used_length|]);
    unfold token_slots, serum3_slots, perp_slots, perp_oo_slots, tcs_slots, slots; by rewrite length_slots_from.
Qed.

(** Where the arrays begin. *)
Record starts (h : MangoAccountDynamicHeader) (s p o c r : nat) : Prop := {
  sr_token : Layout.token_offset h 0 = 16;
  sr_serum3 : Layout.serum3_offset h 0 = s;
  sr_perp : Layout.perp_offset h 0 = p;
  sr_perp_oo : Layout.perp_oo_offset h 0 = o;
  sr_tcs : Layout.token_conditional_swap_offset h 0 = c;
  sr_reserved : Layout.reserved_bytes_offset h = r;
  sr_s : s = 16 + hd_token_count h * 184 + 8;
  sr_p : p = s + hd_serum3_count h * 120 + 8;
  sr_o : o = p + hd_perp_count h * 304 + 8;
  sr_c : c = o + hd_perp_oo_count h * 96 + 8;
  sr_r : r = c + hd_token_conditional_swap_count h * 200
}.

Lemma starts_ok h : starts h (Layout.serum3_offset h 0) (Layout.perp_offset h 0) (Layout.perp_oo_offset h 0)
  (Layout.token_conditional_swap_offset h 0) (Layout.reserved_bytes_offset h).
Proof.
  split; try done; unfold Layout.serum3_offset, Layout.perp_offset, Layout.perp_oo_offset, Layout.token_conditional_swap_offset,
    Layout.reserved_bytes_offset, Layout.dynamic_reserved_bytes_offset, Layout.dynamic_token_conditional_swap_vec_offset,
    Layout.dynamic_perp_oo_vec_offset, Layout.dynamic_perp_vec_offset, Layout.dynamic_serum3_vec_offset,
    Layout.dynamic_token_vec_offset, BORSH_VEC_PADDING_BYTES, BORSH_VEC_SIZE_BYTES;
    cbn [sk_size token_slot serum3_slot perp_slot perp_oo_slot tcs_slot]; lia.
Qed.

Lemma agree_trans d1 d2 d3 lo hi : agree d1 d2 lo hi -> agree d2 d3 lo hi -> agree d1 d3 lo hi.
Proof. intros A1 A2 i Hi. by rewrite A2, A1. Qed.

Lemma agree_sub d d' lo hi lo' hi' : agree d d' lo hi -> lo <= lo' -> hi' <= hi -> agree d d' lo' hi'.
Proof. intros A H1 H2 i Hi. apply A. lia. Qed.

(** The slots in use are brought to the front of each array. *)
Lemma defrag_all_ok h d : Layout.reserved_bytes_offset h <= length d -> exists d',
  Layout.defrag_all h d = Done (d', used h d) /\ length d' = length d /\ agree d d' 0 16 /\
  slots token_slot (Layout.token_offset h 0) (hd_token_count (used h d)) d' = in_use token_slot (token_slots h d) /\
  slots serum3_slot (Layout.serum3_offset h 0) (hd_serum3_count (used h d)) d' = in_use serum3_slot (serum3_slots h d) /\
  slots perp_slot (Layout.perp_offset h 0) (hd_perp_count (used h d)) d' = in_use perp_slot (perp_slots h d) /\
  slots perp_oo_slot (Layout.perp_oo_offset h 0) (hd_perp_oo_count (used h d)) d'
    = take (hd_perp_oo_count (used h d)) (perp_oo_slots h d) /\
  slots tcs_slot (Layout.token_conditional_swap_offset h 0) (hd_token_conditional_swap_count (used h d)) d'
    = in_use tcs_slot (tcs_slots h d).
Proof.
  intros Hl. pose proof (used_within h d) as [W1 W2 W3 W4 W5]. pose proof (starts_ok h) as [O1 _ _ _ _ _ S1 S2 S3 S4 S5].
  set (s := Layout.serum3_offset h 0) in *. set (p := Layout.perp_offset h 0) in *. set (o := Layout.perp_oo_offset h 0) in *.
  set (c := Layout.token_conditional_swap_offset h 0) in *. set (r := Layout.reserved_bytes_offset h) in *.
  unfold Layout.defrag_all. fold s p o c. rewrite O1.
  destruct (defrag_ok token_slot 16 (hd_token_count h) 0 0 d) as (d1 & -> & L1 & A1 & B1 & F1); [done|cbn [sk_size token_slot]; lia|]. run.
  assert (E2 : slots serum3_slot s (hd_serum3_count h) d1 = serum3_slots h d).
  { apply slots_from_agree. cbn [sk_size token_slot serum3_slot] in *. apply (agree_sub _ _ _ _ _ _ B1); lia. }
  destruct (defrag_ok serum3_slot s (hd_serum3_count h) 0 0 d1) as (d2 & -> & L2 & A2 & B2 & F2); [done|cbn [sk_size serum3_slot]; lia|]. run.
  fold (slots serum3_slot s (hd_serum3_count h) d1) in *. rewrite E2 in *.
  assert (B02 : agree d d2 p (length d)).
  { cbn [sk_size token_slot serum3_slot] in *. rewrite L1 in B2.
    apply (agree_trans _ d1); [apply (agree_sub _ _ _ _ _ _ B1)|apply (agree_sub _ _ _ _ _ _ B2)]; lia. }
  assert (E3 : slots perp_slot p (hd_perp_count h) d2 = perp_slots h d).
  { apply slots_from_agree. cbn [sk_size perp_slot]. apply (agree_sub _ _ _ _ _ _ B02); lia. }
  destruct (defrag_ok perp_slot p (hd_perp_count h) 0 0 d2) as (d3 & -> & L3 & A3 & B3 & F3); [done|cbn [sk_size perp_slot]; lia|]. run.
  fold (slots perp_slot p (hd_perp_count h) d2) in *. rewrite E3 in *.
  assert (B03 : agree d d3 o (length d)).
  { cbn [sk_size perp_slot] in *. rewrite L2, L1 in B3.
    apply (agree_trans _ d2); [apply (agree_sub _ _ _ _ _ _ B02)|apply (agree_sub _ _ _ _ _ _ B3)]; lia. }
  assert (E4 : slots perp_oo_slot o (hd_perp_oo_count h) d3 = perp_oo_slots h d).
  { apply slots_from_agree. cbn [sk_size perp_oo_slot]. apply (agree_sub _ _ _ _ _ _ B03); lia. }
  assert (E5 : slots tcs_slot c (hd_token_conditional_swap_count h) d3 = tcs_slots h d).
  { apply slots_from_agree. cbn [sk_size tcs_slot]. apply (agree_sub _ _ _ _ _ _ B03); lia. }
  rewrite blocked_ok by (cbn [sk_size perp_oo_slot]; lia). rewrite E4. run.
  destruct (defrag_ok tcs_slot c (hd_token_conditional_swap_count h) 0 0 d3) as (d4 & -> & L4 & A4 & B4 & F4);
    [done|cbn [sk_size tcs_slot]; lia|]. run.
  fold (slots tcs_slot c (hd_token_conditional_swap_count h) d3) in *. rewrite E5 in *.
  rewrite Nat.mul_0_l, ?Nat.add_0_r in A1, A2, A3, A4.
  assert (A23 : agree d2 d4 0 p) by (apply (agree_trans _ d3); [done|apply (agree_sub _ _ _ _ _ _ A4); lia]).
  change (slots token_slot 16 (hd_token_count (used h d)) d1 = in_use token_slot (token_slots h d)) in F1.
  change (slots serum3_slot s (hd_serum3_count (used h d)) d2 = in_use serum3_slot (serum3_slots h d)) in F2.
  change (slots perp_slot p (hd_perp_count (used h d)) d3 = in_use perp_slot (perp_slots h d)) in F3.
  exists d4. split_and!; [done|congruence|..].
  - apply (agree_trans _ d1); [done|]. apply (agree_trans _ d2); [apply (agree_sub _ _ _ _ _ _ A2); lia|apply (agree_sub _ _ _ _ _ _ A23); lia].
  - etrans; [|exact F1]. apply slots_from_agree. cbn [sk_size token_slot].
    apply (agree_trans _ d2); [apply (agree_sub _ _ _ _ _ _ A2)|apply (agree_sub _ _ _ _ _ _ A23)]; lia.
  - etrans; [|exact F2]. apply slots_from_agree. cbn [sk_size serum3_slot]. apply (agree_sub _ _ _ _ _ _ A23); lia.
  - etrans; [|exact F3]. apply slots_from_agree. cbn [sk_size perp_slot]. apply (agree_sub _ _ _ _ _ _ A4); lia.
  - rewrite <- E4. set (n := hd_perp_oo_count (used h d)) in *.
    replace (hd_perp_oo_count h) with (n + (hd_perp_oo_count h - n)) by lia. unfold slots. rewrite slots_from_app.
    rewrite take_app_length' by (by rewrite length_slots_from). apply slots_from_agree. cbn [sk_size perp_oo_slot].
    apply (agree_sub _ _ _ _ _ _ A4); lia.
  - exact F4.
Qed.

Lemma blocks_chained old new u hi : within u old -> within u new ->
  Layout.reserved_bytes_offset old <= hi -> Layout.reserved_bytes_offset new <= hi ->
  chained (Layout.serum3_offset old 0) (Layout.serum3_offset new 0) hi (Layout.blocks old new u).
Proof.
  intros [] [] Ho Hn. pose proof (starts_ok old) as [_ _ _ _ _ _ S1 S2 S3 S4 S5]. pose proof (starts_ok new) as [_ _ _ _ _ _ T1 T2 T3 T4 T5].
  unfold Layout.blocks. cbn [chained Layout.bl_old_start Layout.bl_new_start Layout.bl_len sk_size serum3_slot perp_slot perp_oo_slot tcs_slot].
  lia.
Qed.

(** Filling up one array. *)
Lemma fill_one k start n u d : kind_ok k -> u <= n -> start + n * sk_size k <= length d -> exists d',
  Layout.fill_default k start (n - u) u d = Done d' /\ length d' = length d /\ agree d d' 0 (start + u * sk_size k) /\
  agree d d' (start + n * sk_size k) (length d) /\ slots k start n d' = slots k start u d ++ replicate (n - u) (sk_default k).
Proof.
  intros Hk Hu Hl. destruct (fill_default_ok k start (n - u) Hk u d) as (d' & E & L & A & B & F).
  { by replace (u + (n - u)) with n by lia. }
  exists d'. replace (u + (n - u)) with n in B by lia. split_and!; try done.
  assert (slots k start n d' = slots_from k start 0 (u + (n - u)) d') as -> by (unfold slots; f_equal; lia).
  rewrite slots_from_app, Nat.add_0_l, F. f_equal. apply slots_from_agree.
  apply (agree_sub _ _ _ _ _ _ A); lia.
Qed.

Lemma fill_all_ok h u d : within u h -> Layout.reserved_bytes_offset h <= length d -> exists d',
  Layout.fill_all h u d = Done d' /\ length d' = length d /\ agree d d' 0 16 /\
  let filled k start n u := slots k start n d' = slots k start u d ++ replicate (n - u) (sk_default k) in
  filled token_slot (Layout.token_offset h 0) (hd_token_count h) (hd_token_count u) /\
  filled serum3_slot (Layout.serum3_offset h 0) (hd_serum3_count h) (hd_serum3_count u) /\
  filled perp_slot (Layout.perp_offset h 0) (hd_perp_count h) (hd_perp_count u) /\
  filled perp_oo_slot (Layout.perp_oo_offset h 0) (hd_perp_oo_count h) (hd_perp_oo_count u) /\
  filled tcs_slot (Layout.token_conditional_swap_offset h 0) (hd_token_conditional_swap_count h) (hd_token_conditional_swap_count u).
Proof.
  intros [W1 W2 W3 W4 W5] Hl. pose proof (starts_ok h) as [O1 _ _ _ _ _ S1 S2 S3 S4 S5].
  set (s := Layout.serum3_offset h 0) in *. set (p := Layout.perp_offset h 0) in *. set (o := Layout.perp_oo_offset h 0) in *.
  set (c := Layout.token_conditional_swap_offset h 0) in *. set (r := Layout.reserved_bytes_offset h) in *.
  unfold Layout.fill_all. fold s p o c. rewrite O1.
  destruct (fill_one token_slot 16 (hd_token_count h) (hd_token_count u) d) as (d1 & -> & L1 & A1 & B1 & F1); [done|done|cbn [sk_size token_slot]; lia|]. run.
  destruct (fill_one serum3_slot s (hd_serum3_count h) (hd_serum3_count u) d1) as (d2 & -> & L2 & A2 & B2 & F2); [done|done|cbn [sk_size serum3_slot]; lia|]. run.
  destruct (fill_one perp_slot p (hd_perp_count h) (hd_perp_count u) d2) as (d3 & -> & L3 & A3 & B3 & F3); [done|done|cbn [sk_size perp_slot]; lia|]. run.
  destruct (fill_one perp_oo_slot o (hd_perp_oo_count h) (hd_perp_oo_count u) d3) as (d4 & -> & L4 & A4 & B4 & F4); [done|done|cbn [sk_size perp_oo_slot]; lia|]. run.
  destruct (fill_one tcs_slot c (hd_token_conditional_swap_count h) (hd_token_conditional_swap_count u) d4) as (d5 & -> & L5 & A5 & B5 & F5);
    [done|done|cbn [sk_size tcs_slot]; lia|].
  cbn [sk_size token_slot serum3_slot perp_slot perp_oo_slot tcs_slot] in *.
  assert (A45 : agree d3 d5 0 o) by (apply (agree_trans _ d4); [apply (agree_sub _ _ _ _ _ _ A4)|apply (agree_sub _ _ _ _ _ _ A5)]; lia).
  assert (A35 : agree d2 d5 0 p) by (apply (agree_trans _ d3); [apply (agree_sub _ _ _ _ _ _ A3)|apply (agree_sub _ _ _ _ _ _ A45)]; lia).
  assert (A25 : agree d1 d5 0 s) by (apply (agree_trans _ d2); [apply (agree_sub _ _ _ _ _ _ A2)|apply (agree_sub _ _ _ _ _ _ A35)]; lia).
  assert (B02 : agree d d2 p (length d)) by (apply (agree_trans _ d1); [apply (agree_sub _ _ _ _ _ _ B1)|apply (agree_sub _ _ _ _ _ _ B2)]; lia).
  assert (B03 : agree d d3 o (length d)) by (apply (agree_trans _ d2); [apply (agree_sub _ _ _ _ _ _ B02)|apply (agree_sub _ _ _ _ _ _ B3)]; lia).
  assert (B04 : agree d d4 c (length d)) by (apply (agree_trans _ d3); [apply (agree_sub _ _ _ _ _ _ B03)|apply (agree_sub _ _ _ _ _ _ B4)]; lia).
  exists d5. split; [done|]. split; [congruence|]. split.
  { apply (agree_trans _ d1); [apply (agree_sub _ _ _ _ _ _ A1)|apply (agree_sub _ _ _ _ _ _ A25)]; lia. }
  split_and!.
  - rewrite <- F1. apply slots_from_agree. cbn [sk_size token_slot]. apply (agree_sub _ _ _ _ _ _ A25); lia.
  - etrans; [apply slots_from_agree, (agree_sub _ _ _ _ _ _ A35); cbn [sk_size serum3_slot]; lia|].
    etrans; [exact F2|]. f_equal. apply slots_from_agree, (agree_sub _ _ _ _ _ _ B1); cbn [sk_size serum3_slot]; lia.
  - etrans; [apply slots_from_agree, (agree_sub _ _ _ _ _ _ A45); cbn [sk_size perp_slot]; lia|].
    etrans; [exact F3|]. f_equal. apply slots_from_agree, (agree_sub _ _ _ _ _ _ B02); cbn [sk_size perp_slot]; lia.
  - etrans; [apply slots_from_agree, (agree_sub _ _ _ _ _ _ A5); cbn [sk_size perp_oo_slot]; lia|].
    etrans; [exact F4|]. f_equal. apply slots_from_agree, (agree_sub _ _ _ _ _ _ B03); cbn [sk_size perp_oo_slot]; lia.
  - etrans; [exact F5|]. f_equal. apply slots_from_agree, (agree_sub _ _ _ _ _ _ B04); cbn [sk_size tcs_slot]; lia.
Qed.

(** The lengths are written between the arrays. *)
Lemma write_lengths_ok h d : within h (mkHeader 255 255 255 255 255) -> Layout.reserved_bytes_offset h <= length d -> exists d',
  Layout.write_lengths h d = Done d' /\ length d' = length d /\ agree d d' 0 8 /\
  token_slots h d' = token_slots h d /\ serum3_slots h d' = serum3_slots h d /\ perp_slots h d' = perp_slots h d /\
  perp_oo_slots h d' = perp_oo_slots h d /\ tcs_slots h d' = tcs_slots h d /\
  agree d d' (Layout.reserved_bytes_offset h) (length d) /\
  Layout.read_count d' (Layout.token_offset h 0 - 4) = Done (hd_token_count h) /\
  Layout.read_count d' (Layout.serum3_offset h 0 - 4) = Done (hd_serum3_count h) /\
  Layout.read_count d' (Layout.perp_offset h 0 - 4) = Done (hd_perp_count h) /\
  Layout.read_count d' (Layout.perp_oo_offset h 0 - 4) = Done (hd_perp_oo_count h) /\
  Layout.read_count d' (Layout.token_conditional_swap_offset h 0 - 4) = Done (hd_token_conditional_swap_count h).
Proof.
  intros [W1 W2 W3 W4 W5] Hl. simpl in W1, W2, W3, W4, W5. pose proof (starts_ok h) as [O1 _ _ _ _ _ S1 S2 S3 S4 S5].
  unfold Layout.write_lengths, token_slots, serum3_slots, perp_slots, perp_oo_slots, tcs_slots.
  set (s := Layout.serum3_offset h 0) in *. set (p := Layout.perp_offset h 0) in *. set (o := Layout.perp_oo_offset h 0) in *.
  set (c := Layout.token_conditional_swap_offset h 0) in *. set (r := Layout.reserved_bytes_offset h) in *. rewrite O1.
  destruct (write_length_ok d 16 (hd_token_count h)) as (d1 & -> & L1 & A1 & B1 & R1); [lia..|]. run.
  destruct (write_length_ok d1 s (hd_serum3_count h)) as (d2 & -> & L2 & A2 & B2 & R2); [lia..|]. run.
  destruct (write_length_ok d2 p (hd_perp_count h)) as (d3 & -> & L3 & A3 & B3 & R3); [lia..|]. run.
  destruct (write_length_ok d3 o (hd_perp_oo_count h)) as (d4 & -> & L4 & A4 & B4 & R4); [lia..|]. run.
  destruct (write_length_ok d4 c (hd_token_conditional_swap_count h)) as (d5 & -> & L5 & A5 & B5 & R5); [lia..|].
  assert (P4 : agree d3 d5 0 (o - 8)) by (apply (agree_trans _ d4); [done|apply (agree_sub _ _ _ _ _ _ A5); lia]).
  assert (P3 : agree d2 d5 0 (p - 8)) by (apply (agree_trans _ d3); [done|apply (agree_sub _ _ _ _ _ _ P4); lia]).
  assert (P2 : agree d1 d5 0 (s - 8)) by (apply (agree_trans _ d2); [done|apply (agree_sub _ _ _ _ _ _ P3); lia]).
  assert (Q2 : agree d d2 s (length d)) by (apply (agree_trans _ d1); [apply (agree_sub _ _ _ _ _ _ B1)|apply (agree_sub _ _ _ _ _ _ B2)]; lia).
  assert (Q3 : agree d d3 p (length d)) by (apply (agree_trans _ d2); [apply (agree_sub _ _ _ _ _ _ Q2)|apply (agree_sub _ _ _ _ _ _ B3)]; lia).
  assert (Q4 : agree d d4 o (length d)) by (apply (agree_trans _ d3); [apply (agree_sub _ _ _ _ _ _ Q3)|apply (agree_sub _ _ _ _ _ _ B4)]; lia).
  assert (Q5 : agree d d5 c (length d)) by (apply (agree_trans _ d4); [apply (agree_sub _ _ _ _ _ _ Q4)|apply (agree_sub _ _ _ _ _ _ B5)]; lia).
  exists d5. split_and!; [done|congruence|..].
  - apply (agree_trans _ d1); [apply (agree_sub _ _ _ _ _ _ A1)|apply (agree_sub _ _ _ _ _ _ P2)]; lia.
  - apply slots_from_agree. cbn [sk_size token_slot].
    apply (agree_trans _ d1); [apply (agree_sub _ _ _ _ _ _ B1)|apply (agree_sub _ _ _ _ _ _ P2)]; lia.
  - apply slots_from_agree. cbn [sk_size serum3_slot].
    apply (agree_trans _ d2); [apply (agree_sub _ _ _ _ _ _ Q2)|apply (agree_sub _ _ _ _ _ _ P3)]; lia.
  - apply slots_from_agree. cbn [sk_size perp_slot].
    apply (agree_trans _ d3); [apply (agree_sub _ _ _ _ _ _ Q3)|apply (agree_sub _ _ _ _ _ _ P4)]; lia.
  - apply slots_from_agree. cbn [sk_size perp_oo_slot].
    apply (agree_trans _ d4); [apply (agree_sub _ _ _ _ _ _ Q4)|apply (agree_sub _ _ _ _ _ _ A5)]; lia.
  - apply slots_from_agree. cbn [sk_size tcs_slot]. apply (agree_sub _ _ _ _ _ _ Q5); lia.
  - apply (agree_sub _ _ _ _ _ _ Q5); lia.
  - rewrite (read_count_agree d1); [done|lia|congruence|]. apply (agree_sub _ _ _ _ _ _ P2); lia.
  - rewrite (read_count_agree d2); [done|lia|congruence|]. apply (agree_sub _ _ _ _ _ _ P3); lia.
  - rewrite (read_count_agree d3); [done|lia|congruence|]. apply (agree_sub _ _ _ _ _ _ P4); lia.
  - rewrite (read_count_agree d4); [done|lia|congruence|]. apply (agree_sub _ _ _ _ _ _ A5); lia.
  - done.
Qed.

(** The header is read back from the lengths. *)
Lemma from_bytes_ok h d : d !! 0 = Some 1%Z -> Layout.reserved_bytes_offset h + 64 <= length d ->
  Layout.read_count d (Layout.token_offset h 0 - 4) = Done (hd_token_count h) ->
  Layout.read_count d (Layout.serum3_offset h 0 - 4) = Done (hd_serum3_count h) ->
  Layout.read_count d (Layout.perp_offset h 0 - 4) = Done (hd_perp_count h) ->
  Layout.read_count d (Layout.perp_oo_offset h 0 - 4) = Done (hd_perp_oo_count h) ->
  Layout.read_count d (Layout.token_conditional_swap_offset h 0 - 4) = Done (hd_token_conditional_swap_count h) ->
  Layout.from_bytes d = Done h.
Proof.
  intros Hv Hl R1 R2 R3 R4 R5. unfold Layout.from_bytes. rewrite read_ok by lia.
  assert (Hs : slice d 0 1 = [1%Z]) by (destruct d as [|x d]; [done|]; injection Hv as ->; done). rewrite Hs. run.
  unfold Layout.token_offset, Layout.serum3_offset, Layout.perp_offset, Layout.perp_oo_offset, Layout.token_conditional_swap_offset,
    BORSH_VEC_SIZE_BYTES in R1, R2, R3, R4, R5.
  rewrite Nat.mul_0_l, Nat.add_0_r, Nat.add_sub in R1, R2, R3, R4, R5. cbn [le_value]. rewrite R1. run. rewrite R2. run. rewrite R3. run. rewrite R4. run.
  rewrite (proj2 (Nat.ltb_lt _ _)).
  - rewrite R5. run. by destruct h.
  - unfold Layout.reserved_bytes_offset, Layout.dynamic_reserved_bytes_offset in Hl. unfold BORSH_VEC_SIZE_BYTES in *. lia.
Qed.

(** ** Resizing *)

(** An array after resizing: the slots in use in their order, then unused ones. *)
Definition resized (k : SlotKind) (n : nat) (l : list (list Z)) : list (list Z) :=
  in_use k l ++ replicate (n - length (in_use k l)) (sk_default k).

(** Perp open orders keep their index. *)
Definition resized_in_place (k : SlotKind) (n : nat) (l : list (list Z)) : list (list Z) :=
  take (last_used k l) l ++ replicate (n - last_used k l) (sk_default k).

(** An account with header [h]: its arrays are within the bytes, and its version is 1. *)
Definition account_bytes (h : MangoAccountDynamicHeader) (d : list Z) : Prop :=
  d !! 0 = Some 1%Z /\ Layout.reserved_bytes_offset h <= length d.

Definition fits (old new : MangoAccountDynamicHeader) (d : list Z) : Prop :=
  within (used old d) new /\ Layout.check_resize_from new old = Done tt.

Lemma check_resize_cases h prev : Layout.check_resize_from h prev = Done tt \/ Layout.check_resize_from h prev = Fail ERequireGte.
Proof. unfold Layout.check_resize_from, require. repeat case_match; simpl; auto. Qed.

(** The counts are checked one after the other. *)
Lemma require_within u new (r : outcome (MangoAccountDynamicHeader * list Z)) :
  (within u new ->
    (_ ← require (hd_token_count u <=? hd_token_count new) ERequireGte;
     _ ← require (hd_serum3_count u <=? hd_serum3_count new) ERequireGte;
     _ ← require (hd_perp_count u <=? hd_perp_count new) ERequireGte;
     _ ← require (hd_perp_oo_count u <=? hd_perp_oo_count new) ERequireGte;
     _ ← require (hd_token_conditional_swap_count u <=? hd_token_conditional_swap_count new) ERequireGte; r) = r) /\
  (~ within u new ->
    (_ ← require (hd_token_count u <=? hd_token_count new) ERequireGte;
     _ ← require (hd_serum3_count u <=? hd_serum3_count new) ERequireGte;
     _ ← require (hd_perp_count u <=? hd_perp_count new) ERequireGte;
     _ ← require (hd_perp_oo_count u <=? hd_perp_oo_count new) ERequireGte;
     _ ← require (hd_token_conditional_swap_count u <=? hd_token_conditional_swap_count new) ERequireGte; r) = Fail ERequireGte).
Proof.
  split.
  - intros [W1 W2 W3 W4 W5]. apply Nat.leb_le in W1 as ->, W2 as ->, W3 as ->, W4 as ->, W5 as ->. done.
  - intros Hn. repeat match goal with |- context [?x <=? ?y] => destruct (Nat.leb_spec x y); [simpl|done] end. by destruct Hn.
Qed.

Lemma slots_moved k src dst n d d' : copied d d' src dst (sk_size k * n) -> slots k dst n d' = slots k src n d.
Proof. intros C. apply slots_from_copied. by rewrite Nat.mul_comm. Qed.

(** The passes after the checks. *)
Lemma resize_passes old new d : account_bytes old d -> Layout.reserved_bytes_offset new + 64 <= length d ->
  within new (mkHeader 255 255 255 255 255) -> within (used old d) new ->
  exists d1 d2 d3 d4 d5 d6,
    Layout.defrag_all old d = Done (d1, used old d) /\ Layout.move_left (Layout.blocks old new (used old d)) d1 = Done d2 /\
    Layout.move_right (Layout.blocks old new (used old d)) d2 = Done d3 /\ Layout.fill_all new (used old d) d3 = Done d4 /\
    write d4 (Layout.reserved_bytes_offset new) (zeros DYNAMIC_RESERVED_BYTES) = Done d5 /\ Layout.write_lengths new d5 = Done d6 /\
    length d6 = length d /\
    token_slots new d6 = resized token_slot (hd_token_count new) (token_slots old d) /\
    serum3_slots new d6 = resized serum3_slot (hd_serum3_count new) (serum3_slots old d) /\
    perp_slots new d6 = resized perp_slot (hd_perp_count new) (perp_slots old d) /\
    perp_oo_slots new d6 = resized_in_place perp_oo_slot (hd_perp_oo_count new) (perp_oo_slots old d) /\
    tcs_slots new d6 = resized tcs_slot (hd_token_conditional_swap_count new) (tcs_slots old d) /\
    slice d6 (Layout.reserved_bytes_offset new) DYNAMIC_RESERVED_BYTES = zeros DYNAMIC_RESERVED_BYTES /\
    Layout.from_bytes d6 = Done new.
Proof.
  intros [Hv Ho] Hn H255 HW. pose proof (used_within old d) as HU.
  destruct (defrag_all_ok old d Ho) as (d1 & E1 & L1 & A1 & F1 & F2 & F3 & F4 & F5). set (u := used old d) in *.
  destruct (move_blocks_ok (Layout.blocks old new u) (Layout.serum3_offset old 0) (Layout.serum3_offset new 0) d1)
    as (d2 & d3 & E2 & E3 & L3 & A3 & C3); [apply blocks_chained; (done || lia)|].
  destruct (fill_all_ok new u d3) as (d4 & E4 & L4 & A4 & G1 & G2 & G3 & G4 & G5); [done|lia|].
  destruct (write_ok d4 (Layout.reserved_bytes_offset new) (zeros DYNAMIC_RESERVED_BYTES)) as (d5 & E5 & L5 & R5 & A5 & B5);
    [unfold zeros, DYNAMIC_RESERVED_BYTES; rewrite length_replicate; lia|].
  destruct (write_lengths_ok new d5) as (d6 & E6 & L6 & A6 & T1 & T2 & T3 & T4 & T5 & Q6 & R1 & R2 & R3 & R4 & R6); [done|lia|].
  pose proof (starts_ok new) as [O1 _ _ _ _ _ S1 S2 S3 S4 S5]. destruct HW as [W1 W2 W3 W4 W5].
  assert (M : forall src dst len, Layout.mkBlock src dst len ∈ Layout.blocks old new u -> copied d1 d3 src dst len).
  { intros src dst len Hb. exact (C3 _ Hb). }
  assert (P5 : forall lo hi, hi <= Layout.reserved_bytes_offset new -> agree d4 d5 lo hi).
  { intros lo hi Hhi. apply (agree_sub _ _ _ _ _ _ A5); lia. }
  exists d1, d2, d3, d4, d5, d6. do 6 (split; [done|]). split; [congruence|]. split_and!.
  - rewrite T1. etrans; [apply slots_from_agree, P5; cbn [sk_size token_slot]; lia|]. etrans; [exact G1|].
    unfold resized. f_equal. rewrite <- F1. change (Layout.token_offset old 0) with 16. rewrite O1. apply slots_from_agree.
    cbn [sk_size token_slot]. apply (agree_sub _ _ _ _ _ _ A3); lia.
  - rewrite T2. etrans; [apply slots_from_agree, P5; cbn [sk_size serum3_slot]; lia|]. etrans; [exact G2|].
    unfold resized. f_equal. rewrite <- F2. apply slots_moved, M. by left.
  - rewrite T3. etrans; [apply slots_from_agree, P5; cbn [sk_size perp_slot]; lia|]. etrans; [exact G3|].
    unfold resized. f_equal. rewrite <- F3. apply slots_moved, M. right. by left.
  - rewrite T4. etrans; [apply slots_from_agree, P5; cbn [sk_size perp_oo_slot]; lia|]. etrans; [exact G4|].
    unfold resized_in_place. f_equal. etrans; [|exact F4]. apply slots_moved, M. do 2 right. by left.
  - rewrite T5. etrans; [apply slots_from_agree, P5; cbn [sk_size tcs_slot]; lia|]. etrans; [exact G5|].
    unfold resized. f_equal. rewrite <- F5. apply slots_moved, M. do 3 right. by left.
  - etrans; [apply (slice_copied d5); apply (agree_copied _ _ _ _ _ _ Q6); unfold DYNAMIC_RESERVED_BYTES; lia|].
    apply list_eq. intros i. destruct (decide (i < DYNAMIC_RESERVED_BYTES)) as [Hi|Hi].
    + rewrite slice_lookup by done. apply R5. unfold zeros. by rewrite length_replicate.
    + unfold slice. rewrite lookup_take_ge by lia. symmetry. apply lookup_ge_None_2. unfold zeros. rewrite length_replicate. lia.
  - apply from_bytes_ok; try done; [|lia]. rewrite A6 by lia. rewrite A5 by lia. rewrite A4 by lia. rewrite A3 by lia. by rewrite A1 by lia.
Qed.

(** What resizing does: the new header and bytes, or an unmet bound. *)
Definition resizes (old new : MangoAccountDynamicHeader) (d : list Z) (h : MangoAccountDynamicHeader) (d' : list Z) : Prop :=
  h = new /\ fits old new d /\ length d' = length d /\
  token_slots new d' = resized token_slot (hd_token_count new) (token_slots old d) /\
  serum3_slots new d' = resized serum3_slot (hd_serum3_count new) (serum3_slots old d) /\
  perp_slots new d' = resized perp_slot (hd_perp_count new) (perp_slots old d) /\
  perp_oo_slots new d' = resized_in_place perp_oo_slot (hd_perp_oo_count new) (perp_oo_slots old d) /\
  tcs_slots new d' = resized tcs_slot (hd_token_conditional_swap_count new) (tcs_slots old d) /\
  slice d' (Layout.reserved_bytes_offset new) DYNAMIC_RESERVED_BYTES = zeros DYNAMIC_RESERVED_BYTES /\
  Layout.from_bytes d' = Done new.

Lemma resize_cases old new d : account_bytes old d -> Layout.reserved_bytes_offset new + 64 <= length d ->
  within new (mkHeader 255 255 255 255 255) ->
  match Layout.resize_dynamic_content old new d with
  | Done (h, d') => resizes old new d h d'
  | Fail e => e = ERequireGte /\ ~ fits old new d
  | _ => False
  end.
Proof.
  intros Hb Hn H255. unfold Layout.resize_dynamic_content, resizes, fits.
  destruct (check_resize_cases new old) as [Hc|Hc]; rewrite Hc; [|run; split; [done|by intros [_ ?]]]. run.
  destruct (defrag_all_ok old d) as (d1 & E1 & _); [apply Hb|].
  assert (HW : within (used old d) new \/ ~ within (used old d) new).
  { destruct (decide (hd_token_count (used old d) <= hd_token_count new)), (decide (hd_serum3_count (used old d) <= hd_serum3_count new)),
      (decide (hd_perp_count (used old d) <= hd_perp_count new)), (decide (hd_perp_oo_count (used old d) <= hd_perp_oo_count new)),
      (decide (hd_token_conditional_swap_count (used old d) <= hd_token_conditional_swap_count new));
      first [left; split; done|right; by intros []]. }
  destruct HW as [HW|HW].
  - destruct (resize_passes old new d Hb Hn H255 HW) as (e1 & e2 & e3 & e4 & e5 & e6 & -> & P2 & P3 & P4 & P5 & P6 & Hrest). run.
    rewrite (proj1 (require_within (used old d) new _) HW). rewrite P2. run. rewrite P3. run. rewrite P4. run. rewrite P5. run. rewrite P6. run.
    split; [done|]. split; [done|]. exact Hrest.
  - rewrite E1. run. rewrite (proj2 (require_within (used old d) new _) HW). split; [done|]. by intros [? _].
Qed.

(** C7: Resizing an account keeps its contents. Of an account whose arrays are within its
    bytes, with room for the new ones, resizing fails, with an unmet bound, exactly if a new
    array is too short for what is in use or the new sizes exceed the limits on what grows;
    otherwise every array has its slots in use, in their order, followed by unused slots,
    and the perp open orders their index, although all of this is moved within the same
    bytes; the reserved bytes are zero, and the header read back is the new one. *)
Theorem resize_keeps_slots old new d : account_bytes old d -> Layout.reserved_bytes_offset new + 64 <= length d ->
  within new (mkHeader 255 255 255 255 255) ->
  match Layout.resize_dynamic_content old new d with
  | Done (h, d') =>
      h = new /\ fits old new d /\ length d' = length d /\
      token_slots new d' = resized token_slot (hd_token_count new) (token_slots old d) /\
      serum3_slots new d' = resized serum3_slot (hd_serum3_count new) (serum3_slots old d) /\
      perp_slots new d' = resized perp_slot (hd_perp_count new) (perp_slots old d) /\
      perp_oo_slots new d' = resized_in_place perp_oo_slot (hd_perp_oo_count new) (perp_oo_slots old d) /\
      tcs_slots new d' = resized tcs_slot (hd_token_conditional_swap_count new) (tcs_slots old d) /\
      slice d' (Layout.reserved_bytes_offset new) DYNAMIC_RESERVED_BYTES = zeros DYNAMIC_RESERVED_BYTES /\
      Layout.from_bytes d' = Done new
  | Fail e => e = ERequireGte /\ ~ fits old new d
  | _ => False
  end.
Proof. apply resize_cases. Qed.

(** ** A concrete account

    Three token slots of which the last is in use, a perp open order in the second of two
    slots; resized to one token slot, two spot slots and four perp open orders. *)
Definition sample_header : MangoAccountDynamicHeader := mkHeader 3 0 0 2 0.
Definition sample_new_header : MangoAccountDynamicHeader := mkHeader 1 2 0 4 0.
Definition used_token : list Z := replicate 16 7%Z ++ [5; 0]%Z ++ replicate 166 9%Z.
Definition used_order : list Z := replicate 2 3%Z ++ [1; 0]%Z ++ replicate 92 4%Z.
Definition sample_bytes : list Z :=
  1%Z :: zeros 15 ++ (sk_default token_slot ++ sk_default token_slot ++ used_token) ++ zeros 8 ++ zeros 8 ++ zeros 8
  ++ (sk_default perp_oo_slot ++ used_order) ++ zeros 8 ++ zeros 200.

(** The witness of C7: the token moves to the first slot, the order keeps its place. *)
Lemma resize_keeps_slots_witness :
  exists d', Layout.resize_dynamic_content sample_header sample_new_header sample_bytes = Done (sample_new_header, d') /\
    token_slots sample_new_header d' = [used_token] /\
    perp_oo_slots sample_new_header d' = [sk_default perp_oo_slot; used_order; sk_default perp_oo_slot; sk_default perp_oo_slot] /\
    Layout.from_bytes d' = Done sample_new_header.
Proof.
  pose proof (resize_keeps_slots sample_header sample_new_header sample_bytes) as R.
  destruct (Layout.resize_dynamic_content sample_header sample_new_header sample_bytes) as [[h d']| | |] eqn:E;
    [|vm_compute in E; discriminate E..].
  exists d'. destruct R as (-> & _ & _ & R1 & _ & _ & R4 & _ & _ & R5).
  - split; [reflexivity|]. apply Nat.leb_le. vm_compute. reflexivity.
  - apply Nat.leb_le. vm_compute. reflexivity.
  - split; apply Nat.leb_le; vm_compute; reflexivity.
  - split; [reflexivity|]. rewrite R1, R4. split; [vm_compute; reflexivity|]. split; [vm_compute; reflexivity|]. exact R5.
Defined.
