(* ===== verification/AccountInstructions.v ===== *)
(** * Account instructions

    instructions/account_*.rs with the constraints of accounts_ix: creating, resizing,
    migrating, editing, freezing and closing accounts, and buying back fees with MNGO.
    Creating and closing the account itself and its address are left to the framework, and
    logs are left out. Instructions on the positions take a [MangoAccount]; those on the
    stored bytes take a [StoredAccount]. *)

From stdpp Require Import base numbers option list.
From Stdlib Require Import ZArith Lia SpecFloat.
From S2P Require Import Prelude FixedPoint HealthType TokenPosition OrderTypes Nodes Oracle StablePrice Bank Group Serum3 ConditionalSwap PerpMarket PerpPosition MangoAccount HealthCache AccountRetriever TokenInstructions PerpInstructions SwapInstructions SerumOrders SerumInstructions AccountLayout.

Open Scope Z_scope.

(** ** Stored accounts *)

Record StoredAccount := mkStoredAccount {
  sa_fixed : MangoAccountFixed;
  sa_name : list Z;
  sa_bump : Z;
  sa_dynamic : list Z;
  sa_lamports : Z
}.

#[export] Instance eta_StoredAccount : Eta StoredAccount := fun a =>
  mkStoredAccount (sa_fixed a) (sa_name a) (sa_bump a) (sa_dynamic a) (sa_lamports a).

(** The discriminator, the fixed part and the arrays. *)
Definition data_len (a : StoredAccount) : nat := (8 + 400 + length (sa_dynamic a))%nat.

Definition load_header (a : StoredAccount) : outcome MangoAccountDynamicHeader := Layout.from_bytes (sa_dynamic a).

(** The system program, the rent of an account, and what [AccountInfo::realloc] makes of the
    bytes after the fixed part when their number is to become the given one. *)
Class SystemProgram := {
  minimum_balance : nat -> Z;
  system_transfer : Z -> Z -> Z -> outcome (Z * Z);
  realloc_data : list Z -> nat -> outcome (list Z)
}.

(** [load_full_init] on a new account, then [account_create]. [space] is what the framework
    allocated; the rent was paid for it. *)
Definition account_create (lamports : Z) (group owner : Pubkey) (account_num account_bump : Z) (h : MangoAccountDynamicHeader)
    (name : list Z) : outcome StoredAccount :=
  let space := (Layout.account_size h - (8 + 400))%nat in
  dynamic ← Layout.initialize (zeros space);
  old ← Layout.from_bytes dynamic;
  _ ← Layout.check_resize_from h Layout.zero;
  name ← fill_from_str 32 name;
  let fixed := ((((fixed_default <| af_group := group |>) <| af_owner := owner |>) <| af_account_num := account_num |>)
                  <| af_delegate := default_key |>) in
  '(_, dynamic) ← Layout.resize_dynamic_content old h dynamic;
  Done (mkStoredAccount (Fixed.set_being_liquidated fixed false) name account_bump dynamic lamports).

(** The first version has no conditional swaps. *)
Definition account_create_ix (group : Group) (group_pk owner : Pubkey) (lamports account_num account_bump : Z)
    (h : MangoAccountDynamicHeader) (v2 : bool) (name : list Z) : outcome StoredAccount :=
  _ ← require (GroupCfg.is_ix_enabled group IxAccountCreate) (EMango IxIsDisabled);
  let h := if v2 then h
           else mkHeader (hd_token_count h) (hd_serum3_count h) (hd_perp_count h) (hd_perp_oo_count h) 0 in
  account_create lamports group_pk owner account_num account_bump h name.

(** The constraints of the instructions that the owner signs. *)
Definition owner_constraints (ix : IxGate) (group : Group) (group_pk owner : Pubkey) (fixed : MangoAccountFixed) (now_ts : Z) :
    outcome unit :=
  _ ← require (GroupCfg.is_ix_enabled group ix) (EMango IxIsDisabled);
  _ ← require (af_group fixed =? group_pk) EConstraint;
  _ ← require (af_owner fixed =? owner) EConstraint;
  require (Fixed.is_operational fixed now_ts) (EMango AccountIsFrozen).

Section accounts.
Context `{SystemProgram}.

Definition realloc (a : StoredAccount) (new_size : nat) : outcome StoredAccount :=
  d ← realloc_data (sa_dynamic a) (new_size - (8 + 400))%nat;
  Done (a <| sa_dynamic := d |>).

(** The bytes grow before the arrays are resized, or shrink after it. *)
Definition resize_account (a : StoredAccount) (h : MangoAccountDynamicHeader) : outcome StoredAccount :=
  let new_size := Layout.account_size h in
  let current_size := data_len a in
  a ← (if (current_size <? new_size)%nat then realloc a new_size else Done a);
  old ← load_header a;
  '(_, dynamic) ← Layout.resize_dynamic_content old h (sa_dynamic a);
  let a := a <| sa_dynamic := dynamic |> in
  if (new_size <? current_size)%nat then realloc a new_size else Done a.

Definition pay_rent (a : StoredAccount) (payer_lamports rent : Z) : outcome (StoredAccount * Z) :=
  if sa_lamports a <? rent then
    '(payer, lamports) ← system_transfer payer_lamports (sa_lamports a) (rent - sa_lamports a);
    Done (a <| sa_lamports := lamports |>, payer)
  else Done (a, payer_lamports).

Definition account_expand (a : StoredAccount) (payer_lamports : Z) (h : MangoAccountDynamicHeader) : outcome (StoredAccount * Z) :=
  let rent := minimum_balance (Layout.account_size h) in
  '(a, payer) ←
    (if rent <? sa_lamports a then
       let excess := sa_lamports a - rent in
       lamports ← u64 (sa_lamports a - excess);
       payer ← u64 (payer_lamports + excess);
       Done (a <| sa_lamports := lamports |>, payer)
     else pay_rent a payer_lamports rent);
  a ← resize_account a h;
  Done (a, payer).

Definition account_expand_ix (group : Group) (group_pk owner : Pubkey) (a : StoredAccount) (payer_lamports now_ts : Z)
    (h : MangoAccountDynamicHeader) : outcome (StoredAccount * Z) :=
  _ ← owner_constraints IxAccountExpand group group_pk owner (sa_fixed a) now_ts;
  account_expand a payer_lamports h.

(** The slots in use of an array. *)
Definition active_count (k : SlotKind) (start n : nat) (data : list Z) : nat :=
  length (List.filter (fun i => sk_is_active k (slice data (start + i * sk_size k) (sk_size k))) (seq 0 n)).

(** [count().max(least).try_into().unwrap()], at most the current count. *)
Definition migrated_count (current active least : nat) : outcome nat :=
  n ← u8 (Z.of_nat (Nat.max active least)); Done (Nat.min current (Z.to_nat n)).

Definition account_size_migration (group : Group) (group_pk : Pubkey) (a : StoredAccount) (payer_lamports : Z) :
    outcome (StoredAccount * Z) :=
  _ ← require (GroupCfg.is_ix_enabled group IxAccountSizeMigration) (EMango IxIsDisabled);
  _ ← require (af_group (sa_fixed a) =? group_pk) EConstraint;
  h ← load_header a;
  if (data_len a =? Layout.account_size h)%nat then Done (a, payer_lamports)
  else
    let d := sa_dynamic a in
    tokens ← migrated_count (hd_token_count h) (active_count token_slot (Layout.token_offset h 0) (hd_token_count h) d) 8;
    perps ← migrated_count (hd_perp_count h) (active_count perp_slot (Layout.perp_offset h 0) (hd_perp_count h) d) 4;
    serum3 ← migrated_count (hd_serum3_count h) (active_count serum3_slot (Layout.serum3_offset h 0) (hd_serum3_count h) d) 4;
    let new := mkHeader tokens serum3 perps (hd_perp_oo_count h) (hd_token_conditional_swap_count h) in
    '(a, payer) ← pay_rent a payer_lamports (minimum_balance (Layout.account_size new));
    a ← resize_account a new;
    Done (a, payer).

End accounts.

(** ** Editing, freezing and closing *)

Definition ONE_WEEK_SECONDS : Z := 24 * 7 * 60 * 60.

Definition account_edit (group : Group) (group_pk owner : Pubkey) (a : StoredAccount) (now_ts : Z) (name_opt : option (list Z))
    (delegate_opt temporary_delegate_opt : option Pubkey) (temporary_delegate_expiry_opt : option Z) : outcome StoredAccount :=
  _ ← owner_constraints IxAccountEdit group group_pk owner (sa_fixed a) now_ts;
  _ ← require (match name_opt, delegate_opt with None, None => false | _, _ => true end) (EMango SomeError);
  a ← match name_opt with
      | Some name => n ← fill_from_str 32 name; Done (a <| sa_name := n |>)
      | None => Done a
      end;
  let a := match delegate_opt with
           | Some delegate => a <| sa_fixed := (sa_fixed a) <| af_delegate := delegate |> |>
           | None => a
           end in
  match temporary_delegate_opt, temporary_delegate_expiry_opt with
  | Some temporary_delegate, Some expiry =>
      limit ← u64 (now_ts + ONE_WEEK_SECONDS);
      _ ← require (expiry <? limit) ERequireGt;
      Done (a <| sa_fixed := ((sa_fixed a) <| af_temporary_delegate := temporary_delegate |>)
                               <| af_temporary_delegate_expiry := expiry |> |>)
  | None, None => Done a
  | _, _ => Fail (EMango SomeError)
  end.

Definition account_toggle_freeze (group : Group) (group_pk admin : Pubkey) (fixed : MangoAccountFixed) (now_ts : Z) (freeze : bool) :
    outcome MangoAccountFixed :=
  _ ← require (GroupCfg.is_ix_enabled group IxAccountToggleFreeze) (EMango IxIsDisabled);
  _ ← require (gr_admin group =? admin) EConstraint;
  _ ← require (af_group fixed =? group_pk) EConstraint;
  if freeze then t ← u64 (now_ts + 7 * 24 * 60 * 60); Done (fixed <| af_frozen_until := t |>)
  else Done (fixed <| af_frozen_until := 0 |>).

(** The framework closes the account afterwards. *)
Definition account_close (group : Group) (group_pk owner : Pubkey) (a : MangoAccount) (now_ts : Z) (force_close : bool) : outcome unit :=
  _ ← owner_constraints IxAccountClose group group_pk owner (ma_fixed a) now_ts;
  _ ← (if negb (GroupCfg.is_testing group) then require (negb force_close) (EMango SomeError) else Done tt);
  if negb force_close then
    _ ← require (negb (Fixed.being_liquidated (ma_fixed a))) (EMango SomeError);
    _ ← require (forallb (fun t => negb (Token.is_active t)) (ma_tokens a)) ERequireEq;
    _ ← require (forallb (fun s => negb (Serum.is_active s)) (ma_serum3 a)) ERequireEq;
    require (forallb (fun p => negb (Perp.is_active p)) (ma_perps a)) ERequireEq
  else Done tt.

(** ** Buying back fees *)

Record BuybackAccounts := mkBuybackAccounts {
  bb_group_pk : Pubkey;
  bb_group : Group;
  bb_account_pk : Pubkey;
  bb_account : MangoAccount;
  bb_dao_pk : Pubkey;
  bb_dao : MangoAccount;
  bb_mngo_bank_pk : Pubkey;
  bb_mngo_bank : Bank;
  bb_mngo_oracle : Pubkey * OracleAccount;
  bb_fees_bank_pk : Pubkey;
  bb_fees_bank : Bank;
  bb_fees_oracle : Pubkey * OracleAccount
}.

#[export] Instance eta_BuybackAccounts : Eta BuybackAccounts := fun x =>
  mkBuybackAccounts (bb_group_pk x) (bb_group x) (bb_account_pk x) (bb_account x) (bb_dao_pk x) (bb_dao x) (bb_mngo_bank_pk x)
    (bb_mngo_bank x) (bb_mngo_oracle x) (bb_fees_bank_pk x) (bb_fees_bank x) (bb_fees_oracle x).

(** The constraint that the DAO account is not frozen is on the account instead. *)
Definition buyback_constraints (x : BuybackAccounts) (now_ts : Z) : outcome unit :=
  _ ← require (GroupCfg.is_ix_enabled (bb_group x) IxAccountBuybackFeesWithMngo) (EMango IxIsDisabled);
  _ ← require (GroupCfg.buyback_fees (bb_group x)) (EMango SomeError);
  _ ← account_constraint (bb_group_pk x) (bb_account x) true now_ts;
  _ ← require (af_group (ma_fixed (bb_dao x)) =? bb_group_pk x) EConstraint;
  _ ← require (Fixed.is_operational (ma_fixed (bb_account x)) now_ts) (EMango AccountIsFrozen);
  _ ← require (bb_dao_pk x =? gr_buyback_fees_swap_mango_account (bb_group x)) EConstraint;
  _ ← require (bk_group (bb_mngo_bank x) =? bb_group_pk x) EConstraint;
  _ ← require (bk_token_index (bb_mngo_bank x) =? gr_mngo_token_index (bb_group x)) EConstraint;
  _ ← require (negb (bk_token_index (bb_mngo_bank x) =? 0)) EConstraint;
  _ ← require (fst (bb_mngo_oracle x) =? bk_oracle (bb_mngo_bank x)) EConstraint;
  _ ← require (bk_group (bb_fees_bank x) =? bb_group_pk x) EConstraint;
  _ ← require (bk_token_index (bb_fees_bank x) =? QUOTE_TOKEN_INDEX) EConstraint;
  require (fst (bb_fees_oracle x) =? bk_oracle (bb_fees_bank x)) EConstraint.

Section buyback.
Context `{FixedOps}.

(** [position] is deactivated if it is not active any more. *)
Definition store_position (a : MangoAccount) (i : nat) (position : TokenPosition) (active : bool) : outcome MangoAccount :=
  let a := Account.set_token a i position in
  if negb active then Account.deactivate_token_position a i else Done a.

(** What is bought back, in dollars, MNGO and fee tokens. *)
Record BuybackAmounts := mkBuybackAmounts {
  ba_usd : Z;
  ba_mngo : Z;
  ba_fees : Z
}.

Definition buyback_amounts (max_buyback_usd account_mngo mngo_asset_price fees_liab_price bonus_factor : Z) : outcome BuybackAmounts :=
  mngo_buyback_price ← fx_mul mngo_asset_price bonus_factor;
  m ← fx_div max_buyback_usd mngo_buyback_price;
  let mngo := Z.min m account_mngo in
  u ← fx_mul mngo mngo_buyback_price;
  let usd := Z.min max_buyback_usd u in
  fees ← fx_div usd fees_liab_price;
  Done (mkBuybackAmounts usd mngo fees).

(** MNGO goes from the account to the DAO; the DAO's position stays active. *)
Definition move_mngo (account dao : MangoAccount) (bank : Bank) (amount now_ts : Z) : outcome (MangoAccount * MangoAccount * Bank) :=
  '(account, i, _) ← Account.ensure_token_position account (bk_token_index bank);
  '(dao, j, _) ← Account.ensure_token_position dao (bk_token_index bank);
  position ← unwrap (ma_tokens account !! i);
  dao_position ← unwrap (ma_tokens dao !! j);
  _ ← require (0 <=? tp_indexed_position dao_position) (EMango SomeError);
  '(bank, position, active) ← withdraw_without_fee bank position amount now_ts;
  account ← store_position account i position active;
  '(bank, dao_position, _) ← deposit bank dao_position amount now_ts;
  Done (account, Account.set_token dao j dao_position, bank).

Definition move_fees (account dao : MangoAccount) (bank : Bank) (amount now_ts : Z) : outcome (MangoAccount * MangoAccount * Bank) :=
  '(account, i, _) ← Account.ensure_token_position account (bk_token_index bank);
  '(dao, j, _) ← Account.ensure_token_position dao (bk_token_index bank);
  position ← unwrap (ma_tokens account !! i);
  dao_position ← unwrap (ma_tokens dao !! j);
  dao_fees ← native dao_position bank;
  _ ← assert_ (amount <=? dao_fees);
  '(bank, dao_position, active) ← withdraw_without_fee bank dao_position amount now_ts;
  dao ← store_position dao j dao_position active;
  '(bank, position, active) ← deposit bank position amount now_ts;
  account ← store_position account i position active;
  Done (account, dao, bank).

(** The DAO has no liabilities. *)
Definition dao_checks (dao : MangoAccount) : outcome unit :=
  _ ← require (forallb (fun t => negb (tp_indexed_position t <? 0)) (ma_tokens dao)) (EMango SomeError);
  _ ← require (length (Account.active_perp_positions dao) =? 0)%nat (EMango SomeError);
  require (length (Account.active_serum3_orders dao) =? 0)%nat (EMango SomeError).

(** The limit of the buyback, in dollars, and the DAO account with its fee position. *)
Definition buyback_limit (fixed : MangoAccountFixed) (dao : MangoAccount) (fees_bank : Bank) (fees_liab_price max_buyback_usd : Z) :
    outcome (MangoAccount * Z) :=
  '(dao, j, _) ← Account.ensure_token_position dao (bk_token_index fees_bank);
  position ← unwrap (ma_tokens dao !! j);
  dao_fees ← native position fees_bank;
  m ← fx_from_int (Z.min max_buyback_usd (Fixed.buyback_fees_accrued fixed));
  d ← fx_mul dao_fees fees_liab_price;
  Done (dao, Z.min m d).

Definition account_buyback_fees_with_mngo (x : BuybackAccounts) (owner : Pubkey) (max_buyback_usd : Z) (clock : Clock) :
    outcome BuybackAccounts :=
  let now_ts := clock_ts clock in
  _ ← buyback_constraints x now_ts;
  _ ← require (negb (bb_account_pk x =? bb_dao_pk x)) (EMango SomeError);
  _ ← require (Fixed.is_owner_or_delegate (ma_fixed (bb_account x)) now_ts owner) (EMango SomeError);
  _ ← require (negb (bb_mngo_bank_pk x =? bb_fees_bank_pk x)) EAccountBorrow;
  mngo_price ← oracle_price (bb_mngo_bank x) (from_reader (bb_mngo_oracle x)) (Some (clock_slot clock));
  mngo_stable ← bank_stable_price (bb_mngo_bank x);
  fees_price ← oracle_price (bb_fees_bank x) (from_reader (bb_fees_oracle x)) (Some (clock_slot clock));
  fees_stable ← bank_stable_price (bb_fees_bank x);
  bonus_factor ← fx_from_f32 (gr_buyback_fees_mngo_bonus_factor (bb_group x));
  fixed ← Fixed.expire_buyback_fees (ma_fixed (bb_account x)) now_ts (gr_buyback_fees_expiry_interval (bb_group x));
  let account := set_ma_fixed (bb_account x) fixed in
  let fees_liab_price := Z.max fees_price fees_stable in
  '(dao, max_usd) ← buyback_limit fixed (bb_dao x) (bb_fees_bank x) fees_liab_price max_buyback_usd;
  if max_usd <=? 0 then Done ((x <| bb_account := account |>) <| bb_dao := dao |>)
  else
    account_mngo ←
      match Account.token_position_and_raw_index account (bk_token_index (bb_mngo_bank x)) with
      | Done (t, _) => native t (bb_mngo_bank x)
      | Fail _ => Done 0
      | Panic => Panic
      | NoFuel => NoFuel
      end;
    if account_mngo <=? 0 then Done ((x <| bb_account := account |>) <| bb_dao := dao |>)
    else
      amounts ← buyback_amounts max_usd account_mngo (Z.min mngo_price mngo_stable) fees_liab_price bonus_factor;
      '(account, dao, mngo_bank) ← move_mngo account dao (bb_mngo_bank x) (ba_mngo amounts) now_ts;
      '(account, dao, fees_bank) ← move_fees account dao (bb_fees_bank x) (ba_fees amounts) now_ts;
      c ← fx_ceil (ba_usd amounts);
      n ← fx_to_u64 c;
      fixed ← Fixed.reduce_buyback_fees_accrued (ma_fixed account) n;
      _ ← dao_checks dao;
      Done ((((x <| bb_account := set_ma_fixed account fixed |>) <| bb_dao := dao |>) <| bb_mngo_bank := mngo_bank |>)
              <| bb_fees_bank := fees_bank |>).

End buyback.
