(* ===== verification/AccountInstructionsSpec.v ===== *)
(** * What the account instructions do

    Creating, expanding and migrating an account keep its bytes well-formed and its positions;
    freezing and temporary delegates are limited; a buyback of fees pays no more than is due. *)

From stdpp Require Import base numbers option list.
From Stdlib Require Import ZArith Lia SpecFloat.
From S2P Require Import Prelude FixedPoint HealthType TokenPosition OrderTypes Nodes Oracle StablePrice Bank BankSpec Group Serum3 ConditionalSwap PerpMarket PerpPosition MangoAccount HealthCache AccountRetriever TokenInstructions TokenInstructionsSpec PerpInstructions SwapInstructions SerumOrders SerumInstructions AccountLayout AccountLayoutSpec AccountInstructions.

Open Scope nat_scope.

(** ** Stored accounts *)

Abbreviation u8_counts := (mkHeader 255 255 255 255 255) (only parsing).

(** The bytes hold an account with header [h]. *)
Definition stored (h : MangoAccountDynamicHeader) (d : list Z) : Prop :=
  d !! 0 = Some 1%Z /\ Layout.reserved_bytes_offset h + 64 <= length d /\ Layout.from_bytes d = Done h.

Lemma from_bytes_version d h : Layout.from_bytes d = Done h -> d !! 0 = Some 1%Z.
Proof.
  unfold Layout.from_bytes, read. intros E. apply bind_Done_inv in E as (v & Ev & E). destruct d as [|x d]; [done|].
  simpl in Ev. injection Ev as <-. destruct (Z.eqb_spec (le_value (slice (x :: d) 0 1)) 1) as [Hx|]; [|done].
  change (x + 256 * 0 = 1)%Z in Hx. simpl. f_equal. lia.
Qed.

Lemma account_size_ok h : Layout.account_size h = 408 + (Layout.reserved_bytes_offset h + 64).
Proof. unfold Layout.account_size, Layout.space, Layout.dynamic_size, Layout.reserved_bytes_offset, DYNAMIC_RESERVED_BYTES. lia. Qed.

Lemma account_size_mono h h' : within h h' -> Layout.account_size h <= Layout.account_size h'.
Proof. intros []. rewrite !account_size_ok. destruct (starts_ok h), (starts_ok h'). lia. Qed.

Lemma read_count_within d d' off : off + 4 <= length d -> off + 4 <= length d' -> agree d d' off (off + 4) ->
  Layout.read_count d' off = Layout.read_count d off.
Proof.
  intros Hl L A. unfold Layout.read_count, BORSH_VEC_SIZE_BYTES. rewrite !read_ok by lia.
  by rewrite (slice_copied d d' off off 4) by (apply (agree_copied _ _ _ _ _ _ A); lia).
Qed.

Lemma read_count_inv d off n : Layout.read_count d off = Done n -> n <= 255.
Proof.
  unfold Layout.read_count. intros E. apply bind_Done_inv in E as (bs & _ & E). apply bind_Done_inv in E as (v & Ev & E).
  apply u8_inv in Ev as [-> Hv]. injection E as <-. unfold is_u8, U8_MAX in Hv. lia.
Qed.

(** What was read to find the header. *)
Lemma stored_counts h d : stored h d -> within h u8_counts /\
  Layout.read_count d (Layout.token_offset h 0 - 4) = Done (hd_token_count h) /\
  Layout.read_count d (Layout.serum3_offset h 0 - 4) = Done (hd_serum3_count h) /\
  Layout.read_count d (Layout.perp_offset h 0 - 4) = Done (hd_perp_count h) /\
  Layout.read_count d (Layout.perp_oo_offset h 0 - 4) = Done (hd_perp_oo_count h) /\
  Layout.read_count d (Layout.token_conditional_swap_offset h 0 - 4) = Done (hd_token_conditional_swap_count h).
Proof.
  intros (_ & Hl & E). unfold Layout.from_bytes in E. apply bind_Done_inv in E as (v & _ & E). destruct (_ =? 1)%Z; [|done].
  apply bind_Done_inv in E as (t & Et & E). apply bind_Done_inv in E as (s & Es & E). apply bind_Done_inv in E as (p & Ep & E).
  apply bind_Done_inv in E as (o & Eo & E). apply bind_Done_inv in E as (c & Ec & E). injection E as <-.
  unfold Layout.reserved_bytes_offset, Layout.dynamic_reserved_bytes_offset in Hl.
  cbn [hd_token_count hd_serum3_count hd_perp_count hd_perp_oo_count hd_token_conditional_swap_count] in Hl.
  rewrite (proj2 (Nat.ltb_lt _ _)) in Ec by (unfold BORSH_VEC_SIZE_BYTES in *; lia).
  split; [split; simpl; by eapply read_count_inv|].
  unfold Layout.token_offset, Layout.serum3_offset, Layout.perp_offset, Layout.perp_oo_offset, Layout.token_conditional_swap_offset,
    BORSH_VEC_SIZE_BYTES. rewrite !Nat.mul_0_l, !Nat.add_0_r, !Nat.add_sub. by split_and!.
Qed.

(** Only the bytes up to the end of the reserved ones count. *)
Lemma stored_agree h d d' : stored h d -> Layout.reserved_bytes_offset h + 64 <= length d' ->
  agree d d' 0 (Layout.reserved_bytes_offset h + 64) -> stored h d'.
Proof.
  intros St Hl A. destruct (stored_counts h d St) as (Hw & R1 & R2 & R3 & R4 & R5). destruct St as (Hv & Hd & _).
  pose proof (starts_ok h) as S. destruct S.
  assert (Hv' : d' !! 0 = Some 1%Z) by (rewrite A by lia; done). split; [done|]. split; [done|].
  apply from_bytes_ok; try done; (rewrite (read_count_within d d'); [done|lia|lia|intros i Hi; apply A; lia]).
Qed.

Lemma slots_agree k start n d d' : agree d d' start (start + n * sk_size k) -> slots k start n d' = slots k start n d.
Proof. intros A. apply slots_from_agree. intros i Hi. apply A. simpl in Hi. lia. Qed.

(** The slots of the five arrays are the same. *)
Definition same_slots (h : MangoAccountDynamicHeader) (d d' : list Z) : Prop :=
  token_slots h d' = token_slots h d /\ serum3_slots h d' = serum3_slots h d /\ perp_slots h d' = perp_slots h d /\
  perp_oo_slots h d' = perp_oo_slots h d /\ tcs_slots h d' = tcs_slots h d.

Lemma same_slots_agree h d d' : agree d d' 0 (Layout.reserved_bytes_offset h) -> same_slots h d d'.
Proof.
  intros A. pose proof (starts_ok h) as S. destruct S.
  split_and!; apply slots_agree; intros i Hi; apply A;
    cbn [sk_size token_slot serum3_slot perp_slot perp_oo_slot tcs_slot] in Hi; lia.
Qed.

Lemma same_slots_used h d d' : same_slots h d d' -> used h d' = used h d.
Proof. intros (E1 & E2 & E3 & E4 & E5). unfold used. by rewrite E1, E2, E3, E4, E5. Qed.

(** Documented behaviour of the system program and of [AccountInfo::realloc]: a transfer moves
    the lamports of the payer, if it has them; reallocating keeps the bytes that both sizes
    have, and fails only if the account is to grow by more than
    [MAX_PERMITTED_DATA_INCREASE]. *)
Definition MAX_PERMITTED_DATA_INCREASE : nat := 10 * 1024.

Class SystemLaws `{SystemProgram} : Prop := {
  system_transfer_inv payer target amount payer' target' : system_transfer payer target amount = Done (payer', target') ->
    payer' = (payer - amount)%Z /\ target' = (target + amount)%Z /\ (amount <= payer)%Z;
  system_transfer_ok payer target amount : (0 <= amount <= payer)%Z -> is_u64 (target + amount) ->
    system_transfer payer target amount = Done (payer - amount, target + amount)%Z;
  realloc_data_spec d n : match realloc_data d n with
    | Done d' => length d' = n /\ agree d d' 0 (Nat.min n (length d))
    | Fail _ => length d + MAX_PERMITTED_DATA_INCREASE < n
    | _ => False
    end
}.

Section reallocating.
Context `{SystemLaws}.

Lemma realloc_ok a n : 408 <= n ->
  match realloc a n with
  | Done a' => data_len a' = n /\ agree (sa_dynamic a) (sa_dynamic a') 0 (Nat.min (n - 408) (length (sa_dynamic a))) /\
      a' = a <| sa_dynamic := sa_dynamic a' |>
  | Fail _ => data_len a + MAX_PERMITTED_DATA_INCREASE < n
  | _ => False
  end.
Proof.
  intros Hn. unfold realloc. pose proof (realloc_data_spec (sa_dynamic a) (n - (8 + 400))) as R.
  destruct (realloc_data _ _) as [d'|e| |]; [|unfold data_len; simpl; lia|done|done]. run.
  destruct R as [L A]. split_and!; [unfold data_len; simpl; lia|exact A|done].
Qed.

Lemma realloc_shrinks a n : 408 <= n -> n <= data_len a -> exists a', realloc a n = Done a' /\ data_len a' = n /\
  agree (sa_dynamic a) (sa_dynamic a') 0 (n - 408) /\ a' = a <| sa_dynamic := sa_dynamic a' |>.
Proof.
  intros Hn Hl. pose proof (realloc_ok a n Hn) as R. destruct (realloc a n) as [a'|e| |]; [|unfold data_len in *; lia|done|done].
  exists a'. destruct R as (L & A & E). split_and!; try done. unfold data_len in Hl. by rewrite Nat.min_l in A by lia.
Qed.

End reallocating.

(** The arrays of [d'] are those of [d], resized. *)
Definition resized_slots (old new : MangoAccountDynamicHeader) (d d' : list Z) : Prop :=
  token_slots new d' = resized token_slot (hd_token_count new) (token_slots old d) /\
  serum3_slots new d' = resized serum3_slot (hd_serum3_count new) (serum3_slots old d) /\
  perp_slots new d' = resized perp_slot (hd_perp_count new) (perp_slots old d) /\
  perp_oo_slots new d' = resized_in_place perp_oo_slot (hd_perp_oo_count new) (perp_oo_slots old d) /\
  tcs_slots new d' = resized tcs_slot (hd_token_conditional_swap_count new) (tcs_slots old d).

Lemma resized_slots_same old new d1 d2 d3 d4 : same_slots old d1 d2 -> resized_slots old new d2 d3 -> same_slots new d3 d4 ->
  resized_slots old new d1 d4.
Proof.
  intros (A1 & A2 & A3 & A4 & A5) (B1 & B2 & B3 & B4 & B5) (C1 & C2 & C3 & C4 & C5). unfold resized_slots.
  by rewrite C1, C2, C3, C4, C5, B1, B2, B3, B4, B5, A1, A2, A3, A4, A5.
Qed.

(** What resizing a stored account gives: the account with the arrays resized and the size
    of the new header, or an unmet bound. *)
Definition account_resized (old new : MangoAccountDynamicHeader) (a a' : StoredAccount) : Prop :=
  fits old new (sa_dynamic a) /\ stored new (sa_dynamic a') /\ data_len a' = Layout.account_size new /\
  resized_slots old new (sa_dynamic a) (sa_dynamic a') /\ a' = a <| sa_dynamic := sa_dynamic a' |>.

Section resizing_bytes.
Context `{SystemLaws}.

(** The bytes before they are resized: those of the account, or more. *)
Definition grown (old new : MangoAccountDynamicHeader) (a a1 : StoredAccount) : Prop :=
  stored old (sa_dynamic a1) /\ same_slots old (sa_dynamic a) (sa_dynamic a1) /\
  Layout.reserved_bytes_offset new + 64 <= length (sa_dynamic a1) /\
  data_len a1 = Nat.max (data_len a) (Layout.account_size new) /\ a1 = a <| sa_dynamic := sa_dynamic a1 |>.

Lemma grown_ok old new a : stored old (sa_dynamic a) ->
  match (if data_len a <? Layout.account_size new then realloc a (Layout.account_size new) else Done a) with
  | Done a1 => grown old new a a1
  | Fail _ => data_len a + MAX_PERMITTED_DATA_INCREASE < Layout.account_size new
  | _ => False
  end.
Proof.
  intros St. pose proof (account_size_ok new) as Hs. destruct (Nat.ltb_spec (data_len a) (Layout.account_size new)) as [Hlt|Hge].
  - pose proof (realloc_ok a (Layout.account_size new) ltac:(lia)) as R. destruct (realloc _ _) as [a1|e| |]; [|done..].
    destruct R as (L & A & E). unfold data_len in *. rewrite Nat.min_r in A by lia.
    assert (Hold := St). destruct Hold as (_ & Hold & _). unfold grown, data_len. split_and!; [| |lia|lia|done].
    + apply (stored_agree _ (sa_dynamic a)); [done|lia|]. apply (agree_sub _ _ _ _ _ _ A); lia.
    + apply same_slots_agree, (agree_sub _ _ _ _ _ _ A); lia.
  - unfold grown, data_len in *. split; [done|]. split; [by split_and!|]. split_and!; [lia|lia|by destruct a].
Qed.

(** The bytes after they are resized: those, or fewer. *)
Lemma shrunk_ok new a d size : length d = length (sa_dynamic a) -> stored new d -> Layout.account_size new <= data_len a ->
  data_len a = Nat.max size (Layout.account_size new) ->
  let a1 := a <| sa_dynamic := d |> in
  exists a2, (if Layout.account_size new <? size then realloc a1 (Layout.account_size new) else Done a1) = Done a2 /\
    stored new (sa_dynamic a2) /\ same_slots new d (sa_dynamic a2) /\ data_len a2 = Layout.account_size new /\
    a2 = a <| sa_dynamic := sa_dynamic a2 |>.
Proof.
  intros Hl St Hle Hsize. pose proof (account_size_ok new) as Hs. cbn zeta. unfold data_len in Hle, Hsize.
  destruct (Nat.ltb_spec (Layout.account_size new) size).
  - destruct (realloc_shrinks (a <| sa_dynamic := d |>) (Layout.account_size new)) as (a2 & E2 & L2 & A & F);
      [lia|unfold data_len; simpl; lia|].
    change (sa_dynamic (a <| sa_dynamic := d |>)) with d in A. assert (L3 := L2). unfold data_len in L3.
    exists a2. split_and!; [done|..|done|rewrite F at 1; by destruct a].
    + apply (stored_agree _ d); [done|lia|]. apply (agree_sub _ _ _ _ _ _ A); lia.
    + apply (same_slots_agree new d). apply (agree_sub _ _ _ _ _ _ A); lia.
  - exists (a <| sa_dynamic := d |>). split_and!; try done. unfold data_len. simpl. lia.
Qed.

Lemma resize_account_ok old new a : stored old (sa_dynamic a) -> within new u8_counts ->
  match resize_account a new with
  | Done a' => account_resized old new a a'
  | Fail e => e = ERequireGte /\ ~ fits old new (sa_dynamic a) \/ data_len a + MAX_PERMITTED_DATA_INCREASE < Layout.account_size new
  | _ => False
  end.
Proof.
  intros St Hw. unfold resize_account, load_header. pose proof (grown_ok old new a St) as G. cbv zeta.
  destruct (if data_len a <? Layout.account_size new then realloc a (Layout.account_size new) else Done a) as [a1|e| |];
    [run|by right|done|done].
  destruct G as (St1 & Hsame & Hl & Hd & Ha1). destruct St1 as (Hv & Hr & Hf). rewrite Hf. run.
  assert (Hfits : forall n, fits old n (sa_dynamic a1) <-> fits old n (sa_dynamic a)).
  { intros n. unfold fits. by rewrite (same_slots_used _ _ _ Hsame). }
  pose proof (resize_cases old new (sa_dynamic a1)) as R.
  destruct (Layout.resize_dynamic_content old new (sa_dynamic a1)) as [[h d']|e| |]; [|run_in R..].
  - destruct R as (-> & F & L & T1 & T2 & T3 & T4 & T5 & _ & Ef); [split; [done|lia]|done|done|]. run.
    assert (St2 : stored new d') by (split_and!; [by eapply from_bytes_version|lia|done]).
    destruct (shrunk_ok new a1 d' (data_len a) L St2 ltac:(lia) Hd) as (a2 & -> & S1 & S2 & S3 & S4).
    split; [by apply Hfits|]. split; [done|]. split; [done|]. split.
    + apply (resized_slots_same old new (sa_dynamic a) (sa_dynamic a1) d'); [done|by split_and!|done].
    + rewrite S4 at 1. by rewrite Ha1.
  - destruct R as [-> Hn]; [split; [done|lia]|done|done|]. left. split; [done|]. by rewrite <- Hfits.
  - destruct R; [split; [done|lia]|done|done].
  - destruct R; [split; [done|lia]|done|done].
Qed.

End resizing_bytes.

(** ** Creating accounts *)

Lemma zeros_stored m : 112 <= S m -> stored Layout.zero (1%Z :: zeros m).
Proof.
  intros Hm. assert (Hr : Layout.reserved_bytes_offset Layout.zero = 48) by reflexivity.
  assert (Hl : length (1%Z :: zeros m) = S m) by (simpl; unfold zeros; by rewrite length_replicate).
  assert (Hc : forall k, S k + 4 <= S m -> Layout.read_count (1%Z :: zeros m) (S k) = Done 0).
  { intros k Hk. unfold Layout.read_count, BORSH_VEC_SIZE_BYTES. rewrite read_ok by (rewrite Hl; lia). run.
    unfold slice, zeros. simpl drop. rewrite drop_replicate, take_replicate, Nat.min_l by lia. reflexivity. }
  split; [done|]. split; [lia|].
  apply from_bytes_ok; try done; [lia|apply (Hc 11); lia|apply (Hc 19); lia|apply (Hc 27); lia|apply (Hc 35); lia|apply (Hc 43); lia].
Qed.

Lemma initialize_zeros n : 1 <= n -> Layout.initialize (zeros n) = Done (1%Z :: zeros (n - 1)).
Proof.
  intros Hn. destruct n as [|n]; [lia|]. unfold Layout.initialize, write, zeros. rewrite length_replicate. simpl.
  by rewrite drop_0, Nat.sub_0_r.
Qed.

(** No slot of the account is in use. *)
Definition all_unused (h : MangoAccountDynamicHeader) (d : list Z) : Prop :=
  token_slots h d = replicate (hd_token_count h) (sk_default token_slot) /\
  serum3_slots h d = replicate (hd_serum3_count h) (sk_default serum3_slot) /\
  perp_slots h d = replicate (hd_perp_count h) (sk_default perp_slot) /\
  perp_oo_slots h d = replicate (hd_perp_oo_count h) (sk_default perp_oo_slot) /\
  tcs_slots h d = replicate (hd_token_conditional_swap_count h) (sk_default tcs_slot).

Lemma used_zero d : used Layout.zero d = Layout.zero.
Proof. reflexivity. Qed.

Lemma resized_unused k n : resized k n [] = replicate n (sk_default k).
Proof. unfold resized. simpl. by rewrite Nat.sub_0_r. Qed.

(** C26: New accounts are well-formed. Creating an account never panics: it fails if the
    instruction is disabled, the sizes exceed the limits or the name is too long, and
    otherwise gives an account of the owner, not in liquidation and without a delegate, whose
    bytes are as long as its header says, hold that header, and have no slot in use. *)
Theorem created_account_wellformed (group : Group) (group_pk owner : Pubkey) lamports num bump h (v2 : bool) name :
  within h u8_counts ->
  let h' := if v2 then h else mkHeader (hd_token_count h) (hd_serum3_count h) (hd_perp_count h) (hd_perp_oo_count h) 0 in
  match account_create_ix group group_pk owner lamports num bump h v2 name with
  | Done a =>
      GroupCfg.is_ix_enabled group IxAccountCreate = true /\ Layout.check_resize_from h' Layout.zero = Done tt /\ length name <= 32 /\
      stored h' (sa_dynamic a) /\ data_len a = Layout.account_size h' /\ all_unused h' (sa_dynamic a) /\
      af_group (sa_fixed a) = group_pk /\ af_owner (sa_fixed a) = owner /\ af_delegate (sa_fixed a) = default_key /\
      Fixed.being_liquidated (sa_fixed a) = false /\ sa_lamports a = lamports
  | Fail _ =>
      GroupCfg.is_ix_enabled group IxAccountCreate = false \/ Layout.check_resize_from h' Layout.zero = Fail ERequireGte \/ 32 < length name
  | _ => False
  end.
Proof.
  intros Hw h'. assert (Hw' : within h' u8_counts) by (unfold h'; destruct v2, Hw; split; simpl in *; lia).
  unfold account_create_ix. fold h'. destruct (GroupCfg.is_ix_enabled group IxAccountCreate); [|simpl; auto]. run.
  unfold account_create. pose proof (account_size_ok h') as Hs. pose proof (starts_ok h') as S. destruct S.
  set (r := Layout.reserved_bytes_offset h') in *. rewrite Hs. replace (408 + (r + 64) - (8 + 400)) with (r + 64) by lia.
  rewrite initialize_zeros by lia. run. replace (r + 64 - 1) with (r + 63) by lia.
  destruct (zeros_stored (r + 63)) as (_ & _ & ->); [lia|]. run.
  destruct (check_resize_cases h' Layout.zero) as [Hc|Hc]; rewrite Hc; [|simpl; auto]. run.
  unfold fill_from_str. destruct (Nat.leb_spec (length name) 32); [|simpl; auto]. run.
  pose proof (resize_cases Layout.zero h' (1%Z :: zeros (r + 63))) as R.
  assert (Hl : length (1%Z :: zeros (r + 63)) = r + 64) by (simpl; unfold zeros; rewrite length_replicate; lia).
  assert (Hb : account_bytes Layout.zero (1%Z :: zeros (r + 63))).
  { split; [done|]. rewrite Hl. change (Layout.reserved_bytes_offset Layout.zero) with 48. lia. }
  specialize (R Hb ltac:(rewrite Hl; fold r; lia) Hw').
  destruct (Layout.resize_dynamic_content Layout.zero h' _) as [[h1 d']|e| |]; [|destruct R as [-> Hn]|destruct R..].
  - destruct R as (-> & F & L & T1 & T2 & T3 & T4 & T5 & _ & Ef). unfold require, data_len. run. cbn [sa_dynamic]. rewrite L, Hl.
    split_and!; try done.
    + split; [by eapply from_bytes_version|]. split; [rewrite L, Hl; fold r; lia|done].
    + unfold all_unused. rewrite T1, T2, T3, T4, T5, !resized_unused. unfold resized_in_place. simpl. by rewrite Nat.sub_0_r.
  - destruct Hn. split; [|done]. rewrite used_zero. split; simpl; lia.
Qed.

(** ** Resizing accounts *)

Section resizing.
Context `{SystemLaws}.

Lemma pay_rent_inv a payer rent a' payer' : pay_rent a payer rent = Done (a', payer') ->
  a' = a <| sa_lamports := Z.max (sa_lamports a) rent |> /\ (payer' + sa_lamports a' = payer + sa_lamports a)%Z.
Proof.
  unfold pay_rent. intros E. destruct (Z.ltb_spec (sa_lamports a) rent).
  - apply bind_Done_inv in E as ([p l] & Et & E). apply system_transfer_inv in Et as (-> & -> & _). injection E as <- <-.
    replace (sa_lamports a + (rent - sa_lamports a))%Z with (Z.max (sa_lamports a) rent) by lia. split; [done|]. simpl. lia.
  - injection E as <- <-. rewrite Z.max_l by lia. by destruct a.
Qed.

(** Lamports only move between the payer and the account, which ends with [balance]. *)
Definition lamports_moved (a a' : StoredAccount) (payer payer' balance : Z) : Prop :=
  sa_lamports a' = balance /\ (payer' + sa_lamports a' = payer + sa_lamports a)%Z.

(** Expanding keeps the account. If it returns, the instruction is enabled, the account
    is the owner's and not frozen; every slot in use is kept, in its order, and the perp open
    orders in their places; the bytes are as long as the new header says and hold it; nothing
    else of the account changes but its lamports, which are exactly the rent for its size,
    the difference being paid or received by the payer. *)
Theorem account_expand_keeps_account group group_pk owner a payer now_ts new old a' payer' :
  stored old (sa_dynamic a) -> within new u8_counts ->
  account_expand_ix group group_pk owner a payer now_ts new = Done (a', payer') ->
  GroupCfg.is_ix_enabled group IxAccountExpand = true /\ af_owner (sa_fixed a) = owner /\ af_group (sa_fixed a) = group_pk /\
  Fixed.is_operational (sa_fixed a) now_ts = true /\
  lamports_moved a a' payer payer' (minimum_balance (Layout.account_size new)) /\
  account_resized old new (a <| sa_lamports := sa_lamports a' |>) a'.
Proof.
  intros St Hw. unfold account_expand_ix, owner_constraints. intros E. apply bind_Done_inv in E as (u & C & E).
  apply bind_Done_inv in C as (u1 & C1 & C). apply require_inv in C1. apply bind_Done_inv in C as (u2 & C2 & C).
  apply require_inv, Z.eqb_eq in C2. apply bind_Done_inv in C as (u3 & C3 & C). apply require_inv, Z.eqb_eq in C3. apply require_inv in C.
  unfold account_expand in E. set (rent := minimum_balance (Layout.account_size new)) in *.
  apply bind_Done_inv in E as ([a1 p1] & E1 & E). apply bind_Done_inv in E as (a2 & E2 & E). injection E as <- <-.
  assert (H1 : a1 = a <| sa_lamports := rent |> /\ (p1 + rent = payer + sa_lamports a)%Z).
  { destruct (Z.ltb_spec rent (sa_lamports a)).
    - apply bind_Done_inv in E1 as (l & El & E1). apply u64_inv in El as [-> _]. apply bind_Done_inv in E1 as (q & Eq & E1).
      apply u64_inv in Eq as [-> _]. injection E1 as <- <-. replace (sa_lamports a - (sa_lamports a - rent))%Z with rent by lia.
      split; [done|lia].
    - apply pay_rent_inv in E1 as [-> Hp]. simpl in Hp. rewrite Z.max_r in * by lia. done. }
  destruct H1 as [-> Hp].
  pose proof (resize_account_ok old new (a <| sa_lamports := rent |>)) as R. specialize (R St Hw). rewrite E2 in R.
  assert (Hl : sa_lamports a2 = rent) by (destruct R as (_ & _ & _ & _ & ->); done).
  split_and!; try done; [split; [done|rewrite Hl; lia]|by rewrite Hl].
Qed.

Lemma active_count_ok k start n d : active_count k start n d = length (in_use k (slots k start n d)).
Proof.
  unfold active_count, in_use, slots, slots_from. induction (seq 0 n) as [|i l IH]; simpl; [done|].
  change (slice d (start + i * sk_size k) (sk_size k)) with (slot_at k start d i). destruct (sk_is_active k (slot_at k start d i)); simpl; [f_equal|]; exact IH.
Qed.

Lemma migrated_count_ok current active least : active <= current -> current <= 255 -> least <= 255 ->
  exists n, migrated_count current active least = Done n /\ active <= n <= current.
Proof.
  intros H1 H2 H3. unfold migrated_count. rewrite u8_ok by (unfold is_u8, U8_MAX; lia). run.
  rewrite Nat2Z.id. eexists. split; [done|]. lia.
Qed.

Lemma check_resize_smaller new old : within new old -> Layout.check_resize_from new old = Done tt.
Proof.
  intros []. unfold Layout.check_resize_from, Layout.expected_health_accounts.
  rewrite (proj2 (Nat.ltb_ge _ _)) by lia. run. rewrite (proj2 (Nat.ltb_ge _ _)) by lia. run. by rewrite (proj2 (Nat.ltb_ge _ _)) by lia.
Qed.

Lemma pay_rent_ok a payer rent : (0 <= sa_lamports a)%Z -> (rent - sa_lamports a <= payer)%Z -> is_u64 rent ->
  exists payer', pay_rent a payer rent = Done (a <| sa_lamports := Z.max (sa_lamports a) rent |>, payer').
Proof.
  intros Hl Hp Hr. unfold pay_rent. destruct (Z.ltb_spec (sa_lamports a) rent).
  - rewrite system_transfer_ok; [run|lia|by replace (sa_lamports a + (rent - sa_lamports a))%Z with rent by lia].
    replace (sa_lamports a + (rent - sa_lamports a))%Z with (Z.max (sa_lamports a) rent) by lia. by eexists.
  - rewrite Z.max_l by lia. exists payer. by destruct a.
Qed.

(** An account that has room for what is in use, and does not grow too much, is resized. *)
Lemma resize_account_fits old new a : stored old (sa_dynamic a) -> within new u8_counts -> fits old new (sa_dynamic a) ->
  Layout.account_size new <= data_len a + MAX_PERMITTED_DATA_INCREASE ->
  exists a', resize_account a new = Done a' /\ account_resized old new a a'.
Proof.
  intros St Hw Hf Hg. pose proof (resize_account_ok old new a St Hw) as R.
  destruct (resize_account a new) as [a'|e| |]; [by exists a'|destruct R as [[_ R]|R]; [done|lia]|done|done].
Qed.

(** The counts of a migration: no more than before, and enough for what is in use. *)
Definition migrated (old new : MangoAccountDynamicHeader) (d : list Z) : Prop :=
  within new old /\ within (used old d) new /\ hd_perp_oo_count new = hd_perp_oo_count old /\
  hd_token_conditional_swap_count new = hd_token_conditional_swap_count old.

(** C27: Migrating an account always works. For every stored account, with a payer that can
    pay the rent, the migration of an account whose size does not fit its header returns; it
    keeps every slot in use, makes no array longer, and leaves an account whose size fits its
    header, so that a second migration changes nothing. *)
Theorem account_size_migration_works group group_pk a payer old :
  stored old (sa_dynamic a) -> within old u8_counts ->
  GroupCfg.is_ix_enabled group IxAccountSizeMigration = true -> af_group (sa_fixed a) = group_pk -> (0 <= sa_lamports a)%Z ->
  (forall n, n <= Layout.account_size old -> (minimum_balance n - sa_lamports a <= payer)%Z /\ is_u64 (minimum_balance n)) ->
  exists a' payer' new, account_size_migration group group_pk a payer = Done (a', payer') /\ migrated old new (sa_dynamic a) /\
    data_len a' = Layout.account_size new /\ stored new (sa_dynamic a') /\ (payer' + sa_lamports a' = payer + sa_lamports a)%Z /\
    (a' = a \/ account_resized old new (a <| sa_lamports := sa_lamports a' |>) a') /\
    account_size_migration group group_pk a' payer' = Done (a', payer').
Proof.
  intros St H255 Hix Hg Hl Hrent. assert (Hf : Layout.from_bytes (sa_dynamic a) = Done old) by apply St.
  assert (Hu := used_within old (sa_dynamic a)).
  assert (Hagain : forall a1 new p, stored new (sa_dynamic a1) -> data_len a1 = Layout.account_size new -> af_group (sa_fixed a1) = group_pk ->
                     account_size_migration group group_pk a1 p = Done (a1, p)).
  { intros a1 new p (_ & _ & F1) D1 G1. unfold account_size_migration, load_header. rewrite Hix. run. rewrite G1, Z.eqb_refl. run.
    rewrite F1. run. by rewrite D1, Nat.eqb_refl. }
  destruct (Nat.eq_dec (data_len a) (Layout.account_size old)) as [He|He].
  { exists a, payer, old. split; [by apply (Hagain a old)|]. split; [split; [by split|]; split; [done|by split]|].
    split_and!; try done; [by left|by apply (Hagain a old)]. }
  unfold account_size_migration at 1, load_header. rewrite Hix. run. rewrite Hg, Z.eqb_refl. run. rewrite Hf. run.
  rewrite (proj2 (Nat.eqb_neq _ _) He). rewrite !active_count_ok.
  destruct (migrated_count_ok (hd_token_count old) (hd_token_count (used old (sa_dynamic a))) 8) as (t & Et & Ht); [apply Hu|apply H255|lia|].
  destruct (migrated_count_ok (hd_perp_count old) (hd_perp_count (used old (sa_dynamic a))) 4) as (p & Ep & Hp); [apply Hu|apply H255|lia|].
  destruct (migrated_count_ok (hd_serum3_count old) (hd_serum3_count (used old (sa_dynamic a))) 4) as (s & Es & Hs); [apply Hu|apply H255|lia|].
  simpl in Et, Ep, Es. unfold token_slots, perp_slots, serum3_slots in Et, Ep, Es. rewrite Et. run. rewrite Ep. run. rewrite Es. run.
  set (new := mkHeader t s p (hd_perp_oo_count old) (hd_token_conditional_swap_count old)).
  assert (Hm : migrated old new (sa_dynamic a)).
  { destruct Hu. split; [split; simpl; lia|]. split; [split; simpl in *; lia|done]. }
  assert (Hn : within new u8_counts) by (destruct Hm as [[] _], H255; split; simpl in *; lia).
  destruct (Hrent (Layout.account_size new)) as [Hr1 Hr2]; [by apply account_size_mono; destruct Hm|].
  destruct (pay_rent_ok a payer _ Hl Hr1 Hr2) as (q & Eq). rewrite Eq. run.
  destruct (pay_rent_inv _ _ _ _ _ Eq) as [_ Hq].
  set (l := Z.max (sa_lamports a) _) in *.
  destruct (resize_account_fits old new (a <| sa_lamports := l |>)) as (a' & Ea & R); [exact St|done| |..].
  { split; [apply Hm|]. apply check_resize_smaller, Hm. }
  { pose proof (account_size_mono new old (proj1 Hm)). pose proof (account_size_ok old). destruct St as (_ & St & _).
    unfold data_len. simpl sa_dynamic. lia. }
  rewrite Ea. run. assert (Hl' : sa_lamports a' = l) by (destruct R as (_ & _ & _ & _ & ->); done).
  assert (Hg' : af_group (sa_fixed a') = group_pk) by (destruct R as (_ & _ & _ & _ & ->); done).
  pose proof R as (_ & S' & D' & _). exists a', q, new. rewrite Hl'. split_and!; try done; [by right|by apply (Hagain a' new)].
Qed.

End resizing.

(** ** Samples *)

(** A rent of 7 lamports a byte and a system program that moves lamports. *)
Definition system_ref : SystemProgram := {|
  minimum_balance n := (7 * Z.of_nat n)%Z;
  system_transfer payer target amount :=
    _ ← require (amount <=? payer)%Z (EMango SomeError);
    t ← u64 (target + amount);
    Done (payer - amount, t)%Z;
  realloc_data d n :=
    _ ← require (n <=? length d + MAX_PERMITTED_DATA_INCREASE) EAccountType;
    Done (take n d ++ zeros (n - length d))
|}.

Lemma system_ref_laws : @SystemLaws system_ref.
Proof.
  constructor; simpl.
  - intros payer target amount payer' target' E. apply bind_Done_inv in E as (u & C & E). apply require_inv in C.
    apply bind_Done_inv in E as (t & Et & E). apply u64_inv in Et as [-> _]. injection E as <- <-. lia.
  - intros payer target amount Hp Ht. rewrite (proj2 (Z.leb_le _ _)) by lia. run. by rewrite u64_ok.
  - intros d n. destruct (Nat.leb_spec n (length d + MAX_PERMITTED_DATA_INCREASE)); cbn [require]; [run|done]. unfold zeros.
    rewrite length_app, length_take, length_replicate. split; [lia|]. intros i Hi.
    rewrite lookup_app_l by (rewrite length_take; lia). by rewrite lookup_take_lt by lia.
Qed.

Definition new_header : MangoAccountDynamicHeader := mkHeader 2 1 1 2 1.
Definition open_group : Group := sample_group <| gr_ix_gate := 0%Z |>.

Definition new_account : StoredAccount :=
  match account_create_ix open_group 1 9 30000 0 255 new_header true [65%Z] with
  | Done a => a | _ => mkStoredAccount fixed_default [] 0 [] 0
  end.

Lemma new_header_counts : within new_header u8_counts.
Proof. split; apply Nat.leb_le; vm_compute; reflexivity. Qed.

(** The witness of C26: an account of 9 with two token slots. *)
Lemma created_account_wellformed_witness :
  account_create_ix open_group 1 9 30000 0 255 new_header true [65%Z] = Done new_account /\
  stored new_header (sa_dynamic new_account) /\ all_unused new_header (sa_dynamic new_account).
Proof.
  assert (E : account_create_ix open_group 1 9 30000 0 255 new_header true [65%Z] = Done new_account) by (vm_compute; reflexivity).
  pose proof (created_account_wellformed open_group 1 9 30000 0 255 new_header true [65%Z] new_header_counts) as R.
  cbv zeta in R. rewrite E in R. destruct R as (_ & _ & _ & R1 & _ & R2 & _). by split_and!.
Defined.

(** The new account with a token in its second slot. *)
Definition funded_account : StoredAccount :=
  new_account <| sa_dynamic := take 200 (sa_dynamic new_account) ++ used_token ++ drop 384 (sa_dynamic new_account) |>.

Lemma funded_stored : stored new_header (sa_dynamic funded_account).
Proof. split_and!; [vm_compute; reflexivity|apply Nat.leb_le; vm_compute; reflexivity|vm_compute; reflexivity]. Qed.

Definition smaller_header : MangoAccountDynamicHeader := mkHeader 1 3 1 2 0.

(** A concrete instance: the token moves to the first slot of the smaller array. *)
Lemma account_expand_keeps_account_witness :
  exists a' payer', @account_expand_ix system_ref open_group 1 9 funded_account 1000000 1000 smaller_header = Done (a', payer') /\
    token_slots smaller_header (sa_dynamic a') = [used_token] /\ data_len a' = Layout.account_size smaller_header.
Proof.
  destruct (@account_expand_ix system_ref open_group 1 9 funded_account 1000000 1000 smaller_header) as [[a' payer']| | |] eqn:E;
    [|vm_compute in E; discriminate E..].
  exists a', payer'. split; [done|].
  destruct (@account_expand_keeps_account system_ref system_ref_laws open_group 1 9 funded_account 1000000 1000 smaller_header new_header
              a' payer') as (_ & _ & _ & _ & _ & _ & _ & D & (R & _) & _).
  - exact funded_stored.
  - split; apply Nat.leb_le; vm_compute; reflexivity.
  - exact E.
  - split; [|exact D]. rewrite R. vm_compute. reflexivity.
Defined.

(** An account that is 100 bytes too long. *)
Definition long_account : StoredAccount := funded_account <| sa_dynamic := sa_dynamic funded_account ++ zeros 100 |>.

Lemma long_account_rent n : n <= Layout.account_size new_header ->
  (@minimum_balance system_ref n - sa_lamports long_account <= 2 ^ 60)%Z /\ is_u64 (@minimum_balance system_ref n).
Proof.
  assert (Hl : sa_lamports long_account = 30000%Z) by (vm_compute; reflexivity).
  assert (Hs : Layout.account_size new_header = 1704) by (vm_compute; reflexivity).
  intros Hn. rewrite Hl. rewrite Hs in Hn. simpl. unfold is_u64, U64_MAX. lia.
Qed.

(** The witness of C27: its migration. *)
Lemma account_size_migration_works_witness :
  exists a' payer' new, @account_size_migration system_ref open_group 1 long_account (2 ^ 60) = Done (a', payer') /\
    migrated new_header new (sa_dynamic long_account) /\ data_len a' = Layout.account_size new.
Proof.
  destruct (@account_size_migration_works system_ref system_ref_laws open_group 1 long_account (2 ^ 60) new_header)
    as (a' & payer' & new & E & M & D & _).
  - split_and!; [vm_compute; reflexivity|apply Nat.leb_le; vm_compute; reflexivity|vm_compute; reflexivity].
  - exact new_header_counts.
  - vm_compute. reflexivity.
  - vm_compute. reflexivity.
  - vm_compute. discriminate.
  - exact long_account_rent.
  - exists a', payer', new. by split_and!.
Defined.
