(* ===== verification/TokenAdmin.v ===== *)
(** * Token administration

    Registering, editing and removing tokens. First, edits by an administrator: the shape that token_edit.rs and perp_edit_market.rs share: a sequence of optional edits
    of a state, which records whether one of them needs the group admin. *)

From stdpp Require Import base numbers option list.
From Stdlib Require Import ZArith Lia SpecFloat.
From S2P Require Import Prelude FixedPoint HealthType TokenPosition OrderTypes Nodes Oracle StablePrice Bank Group Serum3 PerpMarket PerpPosition MangoAccount HealthCache AccountRetriever TokenInstructions PerpInstructions BankInstructions SwapInstructions SerumOrders SerumInstructions.

Open Scope Z_scope.

(** The state, and whether the edits so far need the group admin. *)
Record Edited (S : Type) := mkEdited {
  ed_state : S;
  ed_require_group_admin : bool
}.

Arguments mkEdited {S} _ _.
Arguments ed_state {S} _.
Arguments ed_require_group_admin {S} _.

Section edits.
Context {S : Type}.

(** The edits in order. *)
Fixpoint run_edits (steps : list (Edited S -> outcome (Edited S))) (e : Edited S) : outcome (Edited S) :=
  match steps with
  | [] => Done e
  | step :: steps => e ← step e; run_edits steps e
  end.

(** An optional edit. [admin] tells whether it needs the group admin. *)
Definition edit {A} (opt : option A) (admin : A -> S -> bool) (f : A -> S -> outcome S) (e : Edited S) : outcome (Edited S) :=
  match opt with
  | None => Done e
  | Some v => s ← f v (ed_state e); Done (mkEdited s (ed_require_group_admin e || admin v (ed_state e)))
  end.

(** An edit that always needs the group admin. *)
Definition admin_edit {A} (opt : option A) (f : A -> S -> outcome S) : Edited S -> outcome (Edited S) := edit opt (fun _ _ => true) f.

(** An edit of a flag. *)
Definition flag (b : bool) : option unit := if b then Some tt else None.

(** [Option::is_some]. *)
Definition is_some {A} (o : option A) : bool := if o is Some _ then true else false.

(** [x != 0.0]. *)
Definition f_nonzero (x : spec_float) : bool := negb (SFeqb x f_zero).

(** Account constraint #1. *)
Definition check_admin (group : Group) (admin : Pubkey) (require_group_admin : bool) : outcome unit :=
  if require_group_admin then require (gr_admin group =? admin) (EMango SomeError)
  else require ((gr_admin group =? admin) || (gr_security_admin group =? admin)) (EMango SomeError).

(** ** What is left without the group admin *)

(** A step that did not ask for the group admin, if none was asked for after it, has a state
    related by [R]. *)
Definition unprivileged (step : Edited S -> outcome (Edited S)) (R : S -> S -> Prop) : Prop :=
  forall e e', step e = Done e' -> ed_require_group_admin e' = false ->
    ed_require_group_admin e = false /\ R (ed_state e) (ed_state e').

Lemma edit_unprivileged {A} (opt : option A) admin f (R : S -> S -> Prop) :
  (forall s, R s s) ->
  (forall v s s', opt = Some v -> admin v s = false -> f v s = Done s' -> R s s') ->
  unprivileged (edit opt admin f) R.
Proof.
  intros Hrefl Hf e e' E Ha. unfold edit in E. destruct opt as [v|]; [|by injection E as <-].
  apply bind_Done_inv in E as (s & Es & E). injection E as <-. simpl in *. apply orb_false_iff in Ha as [Ha Hv].
  split; [done|]. by apply (Hf v).
Qed.

Lemma admin_edit_unprivileged {A} (opt : option A) f : unprivileged (admin_edit opt f) (=).
Proof. by apply edit_unprivileged. Qed.

Lemma run_edits_app l k e : run_edits (l ++ k) e = (e ← run_edits l e; run_edits k e).
Proof.
  revert e. induction l as [|s l IH]; intros e; simpl; [done|]. destruct (s e) as [e1| | |]; simpl; [|done..].
  apply IH.
Qed.

Lemma run_edits_unprivileged l R : Reflexive R -> Transitive R -> Forall (fun s => unprivileged s R) l -> unprivileged (run_edits l) R.
Proof.
  intros HR HT Hl. induction Hl as [|s l Hs _ IH]; intros e e' E Ha; simpl in E.
  - injection E as <-. by split.
  - apply bind_Done_inv in E as (e1 & E1 & E). destruct (IH _ _ E Ha) as [Ha1 H1].
    destruct (Hs _ _ E1 Ha1) as [Ha0 H0]. split; [done|]. by transitivity (ed_state e1).
Qed.

(** The first of a list of edits, none of which asked for the group admin. *)
Lemma edit_first {A} (opt : option A) admin f l s0 a0 e' :
  Forall (fun s => unprivileged s (fun _ _ => True)) l -> run_edits (edit opt admin f :: l) (mkEdited s0 a0) = Done e' ->
  ed_require_group_admin e' = false ->
  exists s, match opt with None => s = s0 | Some v => f v s0 = Done s /\ admin v s0 = false end /\
    run_edits l (mkEdited s false) = Done e'.
Proof.
  intros Hl E Ha. simpl in E. apply bind_Done_inv in E as (e1 & E1 & E).
  destruct (run_edits_unprivileged l (fun _ _ => True) (fun _ => I) (fun _ _ _ _ _ => I) Hl e1 e' E Ha) as [Ha1 _].
  unfold edit in E1. destruct opt as [v|].
  - apply bind_Done_inv in E1 as (s & Es & E1). injection E1 as <-. simpl in *.
    exists s. rewrite Ha1 in E. by apply orb_false_iff in Ha1 as [_ ->].
  - injection E1 as <-. simpl in Ha1. subst a0. by exists s0.
Qed.

Lemma admin_edit_first {A} (opt : option A) f l s0 a0 e' :
  Forall (fun s => unprivileged s (fun _ _ => True)) l -> run_edits (admin_edit opt f :: l) (mkEdited s0 a0) = Done e' ->
  ed_require_group_admin e' = false -> opt = None /\ run_edits l (mkEdited s0 false) = Done e'.
Proof.
  intros Hl E Ha. apply edit_first in E; [|done..]. destruct E as (s & Hs & E). destruct opt as [v|]; [by destruct Hs|].
  by subst s.
Qed.

(** Every edit remembers that the group admin is needed. *)
Lemma edit_remembers {A} (opt : option A) admin f : unprivileged (edit opt admin f) (fun _ _ => True).
Proof. by apply edit_unprivileged. Qed.

Lemma unprivileged_weaken s R (T : S -> S -> Prop) : unprivileged s R -> (forall x y, R x y -> T x y) -> unprivileged s T.
Proof. intros Hs HT e e' E Ha. destruct (Hs _ _ E Ha) as [H0 H1]. split; [done|]. by apply HT. Qed.

End edits.

Lemma check_admin_inv group admin (req : bool) u : check_admin group admin req = Done u ->
  gr_admin group = admin \/ (req = false /\ gr_security_admin group = admin).
Proof.
  unfold check_admin. destruct req; intros E; apply require_inv in E.
  - left. by apply Z.eqb_eq.
  - apply orb_true_iff in E as [E|E]; apply Z.eqb_eq in E; auto.
Qed.

(** ** Token administration

    instructions/token_register.rs, token_register_trustless.rs, token_add_bank.rs,
    token_edit.rs, token_deregister.rs and admin_token_withdraw_fees.rs with the constraints
    of accounts_ix. The framework creates and closes the accounts, at addresses that are
    taken from the token index, the bank number and the mint. Names are checked but not
    part of the [Bank] record; logs are left out. *)

#[export] Instance eta_MintInfo : Eta MintInfo := fun m =>
  mkMintInfo (mi_group m) (mi_token_index m) (mi_group_insurance_fund m) (mi_mint m) (mi_banks m) (mi_vaults m) (mi_oracle m)
    (mi_registration_time m) (mi_fallback_oracle m).

#[export] Instance eta_StablePriceModel : Eta StablePriceModel := fun m =>
  mkStablePriceModel (sp_stable_price m) (sp_last_update_timestamp m) (sp_delay_prices m) (sp_delay_accumulator_price m)
    (sp_delay_accumulator_time m) (sp_delay_interval_seconds m) (sp_delay_growth_limit m) (sp_stable_growth_limit m)
    (sp_last_delay_interval_index m) (sp_reset_on_nonzero_price m).

(** ** Registering tokens *)

Definition INDEX_START : Z := 1000000 * fx_one.

(** The [f64] nearest to [n / d], as the compiler reads a literal. *)
Definition f64_ratio (n d : Z) : f64 := f64_div (f64_of_Z n) (f64_of_Z d).

(** The signer and the accounts of a registration; the mint comes with its decimals. *)
Record RegisterAccounts := mkRegisterAccounts {
  rg_group : Pubkey;
  rg_admin : Pubkey;
  rg_mint : Pubkey;
  rg_mint_decimals : Z;
  rg_bank : Pubkey;
  rg_bump : Z;
  rg_vault : Pubkey;
  rg_oracle : Pubkey * OracleAccount;
  rg_fallback_oracle : Pubkey * OracleAccount
}.

Record InterestRateParams := mkInterestRateParams {
  irp_util0 : f32;
  irp_rate0 : f32;
  irp_util1 : f32;
  irp_rate1 : f32;
  irp_max_rate : f32;
  irp_adjustment_factor : f32
}.

(** The other arguments of [token_register]. *)
Record RegisterParams := mkRegisterParams {
  rp_oracle_config : OracleConfigParams;
  rp_interest_rate_params : InterestRateParams;
  rp_loan_fee_rate : f32;
  rp_loan_origination_fee_rate : f32;
  rp_maint_asset_weight : f32;
  rp_init_asset_weight : f32;
  rp_maint_liab_weight : f32;
  rp_init_liab_weight : f32;
  rp_liquidation_fee : f32;
  rp_stable_price_delay_interval_seconds : Z;
  rp_stable_price_delay_growth_limit : f32;
  rp_stable_price_growth_limit : f32;
  rp_min_vault_to_deposits_ratio : f64;
  rp_net_borrow_limit_window_size_ts : Z;
  rp_net_borrow_limit_per_window_quote : Z;
  rp_borrow_weight_scale_start_quote : f64;
  rp_deposit_weight_scale_start_quote : f64;
  rp_reduce_only : Z;
  rp_token_conditional_swap_taker_fee_rate : f32;
  rp_token_conditional_swap_maker_fee_rate : f32;
  rp_flash_loan_swap_fee_rate : f32;
  rp_interest_curve_scaling : f32;
  rp_interest_target_utilization : f32;
  rp_group_insurance_fund : bool;
  rp_deposit_limit : Z;
  rp_zero_util_rate : f32;
  rp_platform_liquidation_fee : f32;
  rp_disable_asset_liquidation : bool;
  rp_collateral_fee_per_day : f32
}.

Definition WEEK_SECONDS : Z := 7 * 24 * 60 * 60.

(** Counts a listing, in an interval that starts anew after a week. *)
Definition count_fast_listing (g : Group) (now_ts : Z) : outcome Group :=
  interval_end ← u64 (gr_fast_listing_interval_start g + WEEK_SECONDS);
  let g := if interval_end <=? now_ts then
             (g <| gr_fast_listing_interval_start := now_ts / WEEK_SECONDS * WEEK_SECONDS |>) <| gr_fast_listings_in_interval := 0 |>
           else g in
  n ← u16 (gr_fast_listings_in_interval g + 1);
  let g := g <| gr_fast_listings_in_interval := n |> in
  _ ← require (n <=? gr_allowed_fast_listings_per_interval g) ERequireGte;
  Done g.

(** The start of the current window: a window of no length panics. *)
Definition window_start (now_ts window : Z) : outcome Z :=
  _ ← assert_ (negb (window =? 0)); Done (now_ts / window * window).

(** A new mint info, with its first bank and vault. *)
Definition new_mint_info (x : RegisterAccounts) (token_index group_insurance_fund now_ts : Z) : MintInfo := {|
  mi_group := rg_group x;
  mi_token_index := token_index;
  mi_group_insurance_fund := group_insurance_fund;
  mi_mint := rg_mint x;
  mi_banks := rg_bank x :: replicate (MAX_BANKS - 1) default_key;
  mi_vaults := rg_vault x :: replicate (MAX_BANKS - 1) default_key;
  mi_oracle := fst (rg_oracle x);
  mi_registration_time := now_ts;
  mi_fallback_oracle := fst (rg_fallback_oracle x)
|}.

Section register.
Context `{FixedOps}.

(** A new stable price model starts from the oracle price, if there is one. *)
Definition init_stable_price (price : outcome Z) (m : StablePriceModel) (now_ts : Z) : outcome StablePriceModel :=
  match price with
  | Done p => Done (reset_to_price m (fx_to_f64 p) now_ts)
  | Fail _ => Done (m <| sp_reset_on_nonzero_price := 1 |>)
  | Panic => Panic
  | NoFuel => NoFuel
  end.

(** The end of both registrations. *)
Definition finish_registration (x : RegisterAccounts) (b : Bank) (group_insurance_fund now_ts : Z) : outcome (Bank * MintInfo) :=
  model ← init_stable_price (oracle_price b (from_reader (rg_oracle x)) None) (bk_stable_price_model b) now_ts;
  let b := set_bk_stable_price_model b model in
  _ ← verify b;
  _ ← check_is_valid_fallback_oracle default_key (fst (rg_fallback_oracle x)) (snd (rg_fallback_oracle x));
  Done (b, new_mint_info x (bk_token_index b) group_insurance_fund now_ts).

Definition registered_bank (x : RegisterAccounts) (p : RegisterParams) (token_index now_ts : Z) : outcome Bank :=
  let ir := rp_interest_rate_params p in
  adjustment_factor ← fx_from_f32 (irp_adjustment_factor ir);
  util0 ← fx_from_f32 (irp_util0 ir);
  rate0 ← fx_from_f32 (irp_rate0 ir);
  util1 ← fx_from_f32 (irp_util1 ir);
  rate1 ← fx_from_f32 (irp_rate1 ir);
  max_rate ← fx_from_f32 (irp_max_rate ir);
  loan_origination_fee_rate ← fx_from_f32 (rp_loan_origination_fee_rate p);
  loan_fee_rate ← fx_from_f32 (rp_loan_fee_rate p);
  maint_asset_weight ← fx_from_f32 (rp_maint_asset_weight p);
  init_asset_weight ← fx_from_f32 (rp_init_asset_weight p);
  maint_liab_weight ← fx_from_f32 (rp_maint_liab_weight p);
  init_liab_weight ← fx_from_f32 (rp_init_liab_weight p);
  liquidation_fee ← fx_from_f32 (rp_liquidation_fee p);
  oracle_config ← to_oracle_config (rp_oracle_config p);
  last_net_borrows_window_start_ts ← window_start now_ts (rp_net_borrow_limit_window_size_ts p);
  zero_util_rate ← fx_from_f32 (rp_zero_util_rate p);
  platform_liquidation_fee ← fx_from_f32 (rp_platform_liquidation_fee p);
  Done {|
    bk_group := rg_group x;
    bk_mint := rg_mint x;
    bk_vault := rg_vault x;
    bk_oracle := fst (rg_oracle x);
    bk_oracle_config := oracle_config;
    bk_stable_price_model :=
      (((stable_price_default <| sp_delay_interval_seconds := rp_stable_price_delay_interval_seconds p |>)
          <| sp_delay_growth_limit := rp_stable_price_delay_growth_limit p |>)
         <| sp_stable_growth_limit := rp_stable_price_growth_limit p |>);
    bk_deposit_index := INDEX_START;
    bk_borrow_index := INDEX_START;
    bk_indexed_deposits := 0;
    bk_indexed_borrows := 0;
    bk_index_last_updated := now_ts;
    bk_bank_rate_last_updated := now_ts;
    bk_avg_utilization := 0;
    bk_adjustment_factor := adjustment_factor;
    bk_util0 := util0;
    bk_rate0 := rate0;
    bk_util1 := util1;
    bk_rate1 := rate1;
    bk_max_rate := max_rate;
    bk_collected_fees_native := 0;
    bk_loan_origination_fee_rate := loan_origination_fee_rate;
    bk_loan_fee_rate := loan_fee_rate;
    bk_maint_asset_weight := maint_asset_weight;
    bk_init_asset_weight := init_asset_weight;
    bk_maint_liab_weight := maint_liab_weight;
    bk_init_liab_weight := init_liab_weight;
    bk_liquidation_fee := liquidation_fee;
    bk_dust := 0;
    bk_flash_loan_token_account_initial := U64_MAX;
    bk_flash_loan_approved_amount := 0;
    bk_token_index := token_index;
    bk_bump := rg_bump x;
    bk_mint_decimals := rg_mint_decimals x;
    bk_bank_num := 0;
    bk_min_vault_to_deposits_ratio := rp_min_vault_to_deposits_ratio p;
    bk_net_borrow_limit_window_size_ts := rp_net_borrow_limit_window_size_ts p;
    bk_last_net_borrows_window_start_ts := last_net_borrows_window_start_ts;
    bk_net_borrow_limit_per_window_quote := rp_net_borrow_limit_per_window_quote p;
    bk_net_borrows_in_window := 0;
    bk_borrow_weight_scale_start_quote := rp_borrow_weight_scale_start_quote p;
    bk_deposit_weight_scale_start_quote := rp_deposit_weight_scale_start_quote p;
    bk_reduce_only := rp_reduce_only p;
    bk_force_close := 0;
    bk_disable_asset_liquidation := bool_u8 (rp_disable_asset_liquidation p);
    bk_force_withdraw := 0;
    bk_fees_withdrawn := 0;
    bk_token_conditional_swap_taker_fee_rate := rp_token_conditional_swap_taker_fee_rate p;
    bk_token_conditional_swap_maker_fee_rate := rp_token_conditional_swap_maker_fee_rate p;
    bk_flash_loan_swap_fee_rate := rp_flash_loan_swap_fee_rate p;
    bk_interest_target_utilization := rp_interest_target_utilization p;
    bk_interest_curve_scaling := f64_of_f32 (rp_interest_curve_scaling p);
    bk_potential_serum_tokens := 0;
    bk_maint_weight_shift_start := 0;
    bk_maint_weight_shift_end := 0;
    bk_maint_weight_shift_duration_inv := 0;
    bk_maint_weight_shift_asset_target := 0;
    bk_maint_weight_shift_liab_target := 0;
    bk_fallback_oracle := fst (rg_fallback_oracle x);
    bk_deposit_limit := rp_deposit_limit p;
    bk_zero_util_rate := zero_util_rate;
    bk_platform_liquidation_fee := platform_liquidation_fee;
    bk_collected_liquidation_fees := 0;
    bk_collected_collateral_fees := 0;
    bk_collateral_fee_per_day := rp_collateral_fee_per_day p
  |}.

Definition token_register (group : Group) (x : RegisterAccounts) (token_index : Z) (name : list Z) (p : RegisterParams)
    (clock : Clock) : outcome (Bank * MintInfo) :=
  _ ← require (gr_admin group =? rg_admin x) EConstraint;
  _ ← require (GroupCfg.is_ix_enabled group IxTokenRegister) (EMango IxIsDisabled);
  _ ← (if token_index =? INSURANCE_TOKEN_INDEX then require (gr_insurance_mint group =? rg_mint x) ERequireKeysEq else Done tt);
  _ ← require (negb (token_index =? TOKEN_INDEX_MAX)) ERequireNeq;
  let now_ts := clock_ts clock in
  _ ← fill_from_str 16 name;
  b ← registered_bank x p token_index now_ts;
  finish_registration x b (bool_u8 (rp_group_insurance_fund p)) now_ts.

(** The fixed parameters of a fast listing. *)
Definition trustless_bank (x : RegisterAccounts) (token_index now_ts : Z) : outcome Bank :=
  let net_borrow_limit_window_size_ts := 24 * 60 * 60 in
  conf_filter ← fx_from_f64 (f64_of_Z 1000);
  adjustment_factor ← fx_from_f64 (f64_ratio 4 1000);
  util0 ← fx_from_f64 (f64_ratio 5 10);
  rate0 ← fx_from_f64 (f64_ratio 18 1000);
  util1 ← fx_from_f64 (f64_ratio 75 100);
  rate1 ← fx_from_f64 (f64_ratio 5 100);
  max_rate ← fx_from_f64 (f64_ratio 5 10);
  loan_origination_fee_rate ← fx_from_f64 (f64_ratio 20 10000);
  loan_fee_rate ← fx_from_f64 (f64_ratio 5 1000);
  maint_asset_weight ← fx_from_int 0;
  init_asset_weight ← fx_from_int 0;
  maint_liab_weight ← fx_from_f64 (f64_ratio 14 10);
  init_liab_weight ← fx_from_f64 (f64_ratio 18 10);
  liquidation_fee ← fx_from_f64 (f64_ratio 5 100);
  platform_liquidation_fee ← fx_from_f64 (f64_ratio 5 100);
  Done {|
    bk_group := rg_group x;
    bk_mint := rg_mint x;
    bk_vault := rg_vault x;
    bk_oracle := fst (rg_oracle x);
    bk_oracle_config := mkOracleConfig conf_filter (-1);
    bk_stable_price_model := stable_price_default;
    bk_deposit_index := INDEX_START;
    bk_borrow_index := INDEX_START;
    bk_indexed_deposits := 0;
    bk_indexed_borrows := 0;
    bk_index_last_updated := now_ts;
    bk_bank_rate_last_updated := now_ts;
    bk_avg_utilization := 0;
    bk_adjustment_factor := adjustment_factor;
    bk_util0 := util0;
    bk_rate0 := rate0;
    bk_util1 := util1;
    bk_rate1 := rate1;
    bk_max_rate := max_rate;
    bk_collected_fees_native := 0;
    bk_loan_origination_fee_rate := loan_origination_fee_rate;
    bk_loan_fee_rate := loan_fee_rate;
    bk_maint_asset_weight := maint_asset_weight;
    bk_init_asset_weight := init_asset_weight;
    bk_maint_liab_weight := maint_liab_weight;
    bk_init_liab_weight := init_liab_weight;
    bk_liquidation_fee := liquidation_fee;
    bk_dust := 0;
    bk_flash_loan_token_account_initial := U64_MAX;
    bk_flash_loan_approved_amount := 0;
    bk_token_index := token_index;
    bk_bump := rg_bump x;
    bk_mint_decimals := rg_mint_decimals x;
    bk_bank_num := 0;
    bk_min_vault_to_deposits_ratio := f64_ratio 2 10;
    bk_net_borrow_limit_window_size_ts := net_borrow_limit_window_size_ts;
    bk_last_net_borrows_window_start_ts := now_ts / net_borrow_limit_window_size_ts * net_borrow_limit_window_size_ts;
    bk_net_borrow_limit_per_window_quote := 5000000000;
    bk_net_borrows_in_window := 0;
    bk_borrow_weight_scale_start_quote := f64_of_Z 5000000000;
    bk_deposit_weight_scale_start_quote := f64_of_Z 5000000000;
    bk_reduce_only := 2;
    bk_force_close := 0;
    bk_disable_asset_liquidation := 1;
    bk_force_withdraw := 0;
    bk_fees_withdrawn := 0;
    bk_token_conditional_swap_taker_fee_rate := f_zero;
    bk_token_conditional_swap_maker_fee_rate := f_zero;
    bk_flash_loan_swap_fee_rate := f_zero;
    bk_interest_target_utilization := f32_ratio 1 2;
    bk_interest_curve_scaling := f64_of_Z 4;
    bk_potential_serum_tokens := 0;
    bk_maint_weight_shift_start := 0;
    bk_maint_weight_shift_end := 0;
    bk_maint_weight_shift_duration_inv := 0;
    bk_maint_weight_shift_asset_target := 0;
    bk_maint_weight_shift_liab_target := 0;
    bk_fallback_oracle := fst (rg_fallback_oracle x);
    bk_deposit_limit := 0;
    bk_zero_util_rate := 0;
    bk_platform_liquidation_fee := platform_liquidation_fee;
    bk_collected_liquidation_fees := 0;
    bk_collected_collateral_fees := 0;
    bk_collateral_fee_per_day := f_zero
  |}.

Definition token_register_trustless (group : Group) (x : RegisterAccounts) (token_index : Z) (name : list Z) (clock : Clock) :
    outcome (Group * Bank * MintInfo) :=
  _ ← require ((gr_admin group =? rg_admin x) || (gr_fast_listing_admin group =? rg_admin x)) EConstraint;
  _ ← require (GroupCfg.is_ix_enabled group IxTokenRegisterTrustless) (EMango IxIsDisabled);
  _ ← require (negb (token_index =? QUOTE_TOKEN_INDEX)) ERequireNeq;
  _ ← require (negb (token_index =? TOKEN_INDEX_MAX)) ERequireNeq;
  let now_ts := clock_ts clock in
  group ← count_fast_listing group now_ts;
  _ ← fill_from_str 16 name;
  b ← trustless_bank x token_index now_ts;
  '(b, mint_info) ← finish_registration x b 0 now_ts;
  Done (group, b, mint_info).

End register.

(** ** More banks for a token *)

Definition token_add_bank (group_pk : Pubkey) (group : Group) (admin mint : Pubkey) (existing_bank : Bank) (mint_info : MintInfo)
    (bank_pk vault_pk : Pubkey) (bump token_index bank_num : Z) : outcome (Bank * MintInfo) :=
  _ ← require (gr_admin group =? admin) EConstraint;
  _ ← require (GroupCfg.is_ix_enabled group IxTokenAddBank) (EMango IxIsDisabled);
  _ ← require (GroupCfg.multiple_banks_supported group) EConstraint;
  _ ← require (GroupCfg.is_testing group) EConstraint;
  _ ← require (bk_token_index existing_bank =? token_index) EConstraint;
  _ ← require (bk_group existing_bank =? group_pk) EConstraint;
  _ ← require (bk_mint existing_bank =? mint) EConstraint;
  _ ← require (mi_token_index mint_info =? token_index) EConstraint;
  _ ← require (mi_group mint_info =? group_pk) EConstraint;
  _ ← require (mi_mint mint_info =? mint) EConstraint;
  let bank := from_existing_bank existing_bank vault_pk bank_num bump in
  free_slot ← unwrap (position (fun b => b =? default_key) (mi_banks mint_info));
  _ ← require (bank_num =? Z.of_nat free_slot) ERequireEq;
  Done (bank, (mint_info <| mi_banks := <[free_slot := bank_pk]> (mi_banks mint_info) |>)
                <| mi_vaults := <[free_slot := vault_pk]> (mi_vaults mint_info) |>).

(** ** Editing tokens *)

(** The arguments of [token_edit]; [ep_oracle_account] and [ep_fallback_oracle_account] are
    the accounts that are passed. *)
Record TokenEditParams := mkTokenEditParams {
  ep_oracle_account : Pubkey * OracleAccount;
  ep_fallback_oracle_account : Pubkey * OracleAccount;
  ep_oracle_opt : option Pubkey;
  ep_oracle_config_opt : option OracleConfigParams;
  ep_group_insurance_fund_opt : option bool;
  ep_interest_rate_params_opt : option InterestRateParams;
  ep_loan_fee_rate_opt : option f32;
  ep_loan_origination_fee_rate_opt : option f32;
  ep_maint_asset_weight_opt : option f32;
  ep_init_asset_weight_opt : option f32;
  ep_maint_liab_weight_opt : option f32;
  ep_init_liab_weight_opt : option f32;
  ep_liquidation_fee_opt : option f32;
  ep_stable_price_delay_interval_seconds_opt : option Z;
  ep_stable_price_delay_growth_limit_opt : option f32;
  ep_stable_price_growth_limit_opt : option f32;
  ep_min_vault_to_deposits_ratio_opt : option f64;
  ep_net_borrow_limit_per_window_quote_opt : option Z;
  ep_net_borrow_limit_window_size_ts_opt : option Z;
  ep_borrow_weight_scale_start_quote_opt : option f64;
  ep_deposit_weight_scale_start_quote_opt : option f64;
  ep_reset_stable_price : bool;
  ep_reset_net_borrow_limit : bool;
  ep_reduce_only_opt : option Z;
  ep_name_opt : option (list Z);
  ep_force_close_opt : option bool;
  ep_token_conditional_swap_taker_fee_rate_opt : option f32;
  ep_token_conditional_swap_maker_fee_rate_opt : option f32;
  ep_flash_loan_swap_fee_rate_opt : option f32;
  ep_interest_curve_scaling_opt : option f32;
  ep_interest_target_utilization_opt : option f32;
  ep_maint_weight_shift_start_opt : option Z;
  ep_maint_weight_shift_end_opt : option Z;
  ep_maint_weight_shift_asset_target_opt : option f32;
  ep_maint_weight_shift_liab_target_opt : option f32;
  ep_maint_weight_shift_abort : bool;
  ep_set_fallback_oracle : bool;
  ep_deposit_limit_opt : option Z;
  ep_zero_util_rate : option f32;
  ep_platform_liquidation_fee : option f32;
  ep_disable_asset_liquidation_opt : option bool;
  ep_collateral_fee_per_day : option f32;
  ep_force_withdraw_opt : option bool
}.

(** The mint info and the bank. *)
Record TokenState := mkTokenState {
  ts_mint_info : MintInfo;
  ts_bank : Bank
}.

#[export] Instance eta_TokenState : Eta TokenState := fun s => mkTokenState (ts_mint_info s) (ts_bank s).

Abbreviation EditStep := (Edited TokenState -> outcome (Edited TokenState)) (only parsing).

(** Edits of the bank. *)
Definition on_bank {A} (f : A -> Bank -> outcome Bank) (v : A) (s : TokenState) : outcome TokenState :=
  b ← f v (ts_bank s); Done (s <| ts_bank := b |>).

Definition admin_edit_bank {A} (opt : option A) (f : A -> Bank -> outcome Bank) : EditStep := admin_edit opt (on_bank f).

Section edit.
Context `{FixedOps}.
Variable p : TokenEditParams.
Variable now_ts : Z.

(** [I80F48::from_num] of the argument into a field. *)
Definition set_fixed (set : Z -> Bank -> Bank) (v : f32) (b : Bank) : outcome Bank := x ← fx_from_f32 v; Done (set x b).

Definition edit_oracles : list EditStep :=
  [ admin_edit_bank (ep_oracle_config_opt p) (fun c b => c ← to_oracle_config c; Done (b <| bk_oracle_config := c |>));
    admin_edit (ep_oracle_opt p) (fun o s =>
      Done (mkTokenState ((ts_mint_info s) <| mi_oracle := o |>) ((ts_bank s) <| bk_oracle := o |>)));
    admin_edit (flag (ep_set_fallback_oracle p)) (fun _ s =>
      let '(key, account) := ep_fallback_oracle_account p in
      _ ← check_is_valid_fallback_oracle default_key key account;
      Done (mkTokenState ((ts_mint_info s) <| mi_fallback_oracle := key |>) ((ts_bank s) <| bk_fallback_oracle := key |>)));
    admin_edit_bank (flag (ep_reset_stable_price p)) (fun _ b =>
      _ ← require (bk_oracle b =? fst (ep_oracle_account p)) ERequireKeysEq;
      price ← oracle_price b (from_reader (ep_oracle_account p)) None;
      Done (set_bk_stable_price_model b (reset_to_price (bk_stable_price_model b) (fx_to_f64 price) now_ts))) ].

Definition edit_interest : list EditStep :=
  [ admin_edit (ep_group_insurance_fund_opt p) (fun v s =>
      Done (s <| ts_mint_info := (ts_mint_info s) <| mi_group_insurance_fund := bool_u8 v |> |>));
    admin_edit_bank (ep_interest_rate_params_opt p) (fun ir b =>
      adjustment_factor ← fx_from_f32 (irp_adjustment_factor ir);
      util0 ← fx_from_f32 (irp_util0 ir);
      rate0 ← fx_from_f32 (irp_rate0 ir);
      util1 ← fx_from_f32 (irp_util1 ir);
      rate1 ← fx_from_f32 (irp_rate1 ir);
      max_rate ← fx_from_f32 (irp_max_rate ir);
      Done ((((((b <| bk_adjustment_factor := adjustment_factor |>) <| bk_util0 := util0 |>) <| bk_rate0 := rate0 |>)
                 <| bk_util1 := util1 |>) <| bk_rate1 := rate1 |>) <| bk_max_rate := max_rate |>));
    admin_edit_bank (ep_loan_origination_fee_rate_opt p) (set_fixed (fun x b => b <| bk_loan_origination_fee_rate := x |>));
    admin_edit_bank (ep_loan_fee_rate_opt p) (set_fixed (fun x b => b <| bk_loan_fee_rate := x |>)) ].

(** The security admin may set the init asset weight to zero. *)
Definition edit_init_asset_weight : EditStep :=
  edit (ep_init_asset_weight_opt p) (fun v _ => f_nonzero v) (on_bank (fun v b =>
    _ ← require (SFleb f_zero v) (EMango InitAssetWeightCantBeNegative);
    set_fixed (fun x b => b <| bk_init_asset_weight := x |>) v b)).

Definition edit_weights : list EditStep :=
  [ admin_edit_bank (ep_maint_asset_weight_opt p) (set_fixed (fun x b => b <| bk_maint_asset_weight := x |>));
    edit_init_asset_weight;
    admin_edit_bank (ep_maint_liab_weight_opt p) (set_fixed (fun x b => b <| bk_maint_liab_weight := x |>));
    admin_edit_bank (ep_init_liab_weight_opt p) (set_fixed (fun x b => b <| bk_init_liab_weight := x |>));
    admin_edit_bank (ep_liquidation_fee_opt p) (set_fixed (fun x b => b <| bk_liquidation_fee := x |>)) ].

Definition edit_stable_price_model (set : StablePriceModel -> StablePriceModel) (b : Bank) : outcome Bank :=
  Done (set_bk_stable_price_model b (set (bk_stable_price_model b))).

Definition edit_stable_price : list EditStep :=
  [ admin_edit_bank (ep_stable_price_delay_interval_seconds_opt p)
      (fun v => edit_stable_price_model (fun m => m <| sp_delay_interval_seconds := v |>));
    admin_edit_bank (ep_stable_price_delay_growth_limit_opt p)
      (fun v => edit_stable_price_model (fun m => m <| sp_delay_growth_limit := v |>));
    admin_edit_bank (ep_stable_price_growth_limit_opt p)
      (fun v => edit_stable_price_model (fun m => m <| sp_stable_growth_limit := v |>)) ].

Definition edit_limits : list EditStep :=
  [ admin_edit_bank (ep_min_vault_to_deposits_ratio_opt p) (fun v b => Done (b <| bk_min_vault_to_deposits_ratio := v |>));
    admin_edit_bank (ep_net_borrow_limit_per_window_quote_opt p) (fun v b => Done (b <| bk_net_borrow_limit_per_window_quote := v |>));
    admin_edit_bank (ep_net_borrow_limit_window_size_ts_opt p) (fun v b => Done (b <| bk_net_borrow_limit_window_size_ts := v |>));
    admin_edit_bank (flag (ep_reset_net_borrow_limit p)) (fun _ b =>
      Done ((b <| bk_net_borrows_in_window := 0 |>) <| bk_last_net_borrows_window_start_ts := 0 |>));
    admin_edit_bank (ep_borrow_weight_scale_start_quote_opt p) (fun v b => Done (b <| bk_borrow_weight_scale_start_quote := v |>));
    admin_edit_bank (ep_deposit_weight_scale_start_quote_opt p) (fun v b => Done (b <| bk_deposit_weight_scale_start_quote := v |>)) ].

(** The security admin may only make the mode stricter. *)
Definition edit_reduce_only_mode : EditStep :=
  edit (ep_reduce_only_opt p) (fun v s => (v =? 0) || ((v =? 2) && (bk_reduce_only (ts_bank s) =? 1)))
    (on_bank (fun v b => Done (b <| bk_reduce_only := v |>))).

Definition set_rate (set : f32 -> Bank -> Bank) (least : f32) (v : f32) (b : Bank) : outcome Bank :=
  _ ← require (SFleb least v) ERequireGte; Done (set v b).

Definition edit_modes : list EditStep :=
  [ edit_reduce_only_mode;
    admin_edit_bank (ep_name_opt p) (fun name b => _ ← fill_from_str 16 name; Done b);
    admin_edit_bank (ep_force_close_opt p) (fun v b =>
      _ ← (if v : bool then require (0 <? bk_reduce_only b) (EMango SomeError) else Done tt);
      Done (b <| bk_force_close := bool_u8 v |>)) ].

Definition edit_fees : list EditStep :=
  [ admin_edit_bank (ep_token_conditional_swap_taker_fee_rate_opt p)
      (set_rate (fun v b => b <| bk_token_conditional_swap_taker_fee_rate := v |>) f_zero);
    admin_edit_bank (ep_token_conditional_swap_maker_fee_rate_opt p)
      (set_rate (fun v b => b <| bk_token_conditional_swap_maker_fee_rate := v |>) f_zero);
    admin_edit_bank (ep_flash_loan_swap_fee_rate_opt p) (set_rate (fun v b => b <| bk_flash_loan_swap_fee_rate := v |>) f_zero);
    admin_edit_bank (ep_interest_curve_scaling_opt p)
      (set_rate (fun v b => b <| bk_interest_curve_scaling := f64_of_f32 v |>) (f32_ratio 1 1));
    admin_edit_bank (ep_interest_target_utilization_opt p) (set_rate (fun v b => b <| bk_interest_target_utilization := v |>) f_zero) ].

(** Keeps the weights of this moment and ends the shift; the security admin may do so. *)
Definition abort_weight_shift : EditStep :=
  edit (flag (ep_maint_weight_shift_abort p)) (fun _ _ => false) (on_bank (fun _ b =>
    '(maint_asset_weight, maint_liab_weight) ← maint_weights b now_ts;
    Done (((((((b <| bk_maint_asset_weight := maint_asset_weight |>) <| bk_maint_liab_weight := maint_liab_weight |>)
               <| bk_maint_weight_shift_start := 0 |>) <| bk_maint_weight_shift_end := 0 |>)
             <| bk_maint_weight_shift_duration_inv := 0 |>) <| bk_maint_weight_shift_asset_target := 0 |>)
            <| bk_maint_weight_shift_liab_target := 0 |>))).

Definition update_shift_duration : EditStep :=
  edit (flag (is_some (ep_maint_weight_shift_start_opt p) || is_some (ep_maint_weight_shift_end_opt p))) (fun _ _ => false)
    (on_bank (fun _ b =>
      inv ← (if bk_maint_weight_shift_end b <=? bk_maint_weight_shift_start b then Done 0
             else d ← fx_from_int (bk_maint_weight_shift_end b - bk_maint_weight_shift_start b); fx_div fx_one d);
      Done (b <| bk_maint_weight_shift_duration_inv := inv |>))).

Definition edit_weight_shift : list EditStep :=
  [ abort_weight_shift;
    admin_edit_bank (ep_maint_weight_shift_start_opt p) (fun v b => Done (b <| bk_maint_weight_shift_start := v |>));
    admin_edit_bank (ep_maint_weight_shift_end_opt p) (fun v b => Done (b <| bk_maint_weight_shift_end := v |>));
    admin_edit_bank (ep_maint_weight_shift_asset_target_opt p) (set_fixed (fun x b => b <| bk_maint_weight_shift_asset_target := x |>));
    admin_edit_bank (ep_maint_weight_shift_liab_target_opt p) (set_fixed (fun x b => b <| bk_maint_weight_shift_liab_target := x |>));
    update_shift_duration ].

(** The security admin may set these two fees to zero. *)
Definition edit_platform_liquidation_fee : EditStep :=
  edit (ep_platform_liquidation_fee p) (fun v _ => f_nonzero v)
    (on_bank (set_fixed (fun x b => b <| bk_platform_liquidation_fee := x |>))).

Definition edit_collateral_fee : EditStep :=
  edit (ep_collateral_fee_per_day p) (fun v _ => f_nonzero v) (on_bank (fun v b => Done (b <| bk_collateral_fee_per_day := v |>))).

Definition edit_remaining : list EditStep :=
  [ admin_edit_bank (ep_deposit_limit_opt p) (fun v b => Done (b <| bk_deposit_limit := v |>));
    admin_edit_bank (ep_zero_util_rate p) (set_fixed (fun x b => b <| bk_zero_util_rate := x |>));
    edit_platform_liquidation_fee;
    edit_collateral_fee;
    admin_edit_bank (ep_disable_asset_liquidation_opt p) (fun v b => Done (b <| bk_disable_asset_liquidation := bool_u8 v |>));
    admin_edit_bank (ep_force_withdraw_opt p) (fun v b => Done (b <| bk_force_withdraw := bool_u8 v |>)) ].

(** The body of the loop over the banks. *)
Definition edit_bank : EditStep :=
  run_edits (edit_oracles ++ edit_interest ++ edit_weights ++ edit_stable_price ++ edit_limits ++ edit_modes ++ edit_fees ++
             edit_weight_shift ++ edit_remaining).

Fixpoint edit_banks (ais : list AccountInfo) (m : MintInfo) (admin : bool) : outcome (list AccountInfo * MintInfo * bool) :=
  match ais with
  | [] => Done ([], m, admin)
  | (key, data) :: ais =>
      b ← load_bank (key, data);
      e ← edit_bank (mkEdited (mkTokenState m b) admin);
      '(ais, m, admin) ← edit_banks ais (ts_mint_info (ed_state e)) (ed_require_group_admin e);
      Done ((key, ABank (ts_bank (ed_state e))) :: ais, m, admin)
  end.

(** Only the first bank is verified. *)
Definition token_edit (group_pk : Pubkey) (group : Group) (admin : Pubkey) (mint_info : MintInfo) (remaining : list AccountInfo) :
    outcome (list AccountInfo * MintInfo) :=
  _ ← require (mi_group mint_info =? group_pk) EConstraint;
  _ ← Mint.verify_banks_ais mint_info remaining;
  '(remaining, mint_info, require_group_admin) ← edit_banks remaining mint_info false;
  _ ← check_admin group admin require_group_admin;
  first ← unwrap (head remaining);
  b ← load_bank first;
  _ ← verify b;
  Done (remaining, mint_info).

End edit.

(** ** Fees and deregistration *)

Section withdraw.
Context `{FixedOps} `{TokenProgram}.

(** The bank, its vault and the token account after the withdrawal. *)
Definition admin_token_withdraw_fees (group_pk : Pubkey) (group : Group) (admin : Pubkey) (bank : Bank) (vault_pk : Pubkey)
    (vault token_account : Z) : outcome (Bank * Z * Z) :=
  _ ← require (GroupCfg.is_ix_enabled group IxAdminTokenWithdrawFees) (EMango IxIsDisabled);
  _ ← require (gr_admin group =? admin) EConstraint;
  _ ← require (bk_group bank =? group_pk) EConstraint;
  _ ← require (bk_vault bank =? vault_pk) EConstraint;
  f ← fx_floor (bk_collected_fees_native bank);
  f ← fx_to_u64 f;
  fees ← u64 (f - bk_fees_withdrawn bank);
  let amount := Z.min fees vault in
  '(vault, token_account) ← token_transfer vault token_account amount;
  fees_withdrawn ← u64 (bk_fees_withdrawn bank + amount);
  Done (set_bk_fees_withdrawn bank fees_withdrawn, vault, token_account).

(** Moves what is left in the vaults to the dust vault; vaults and banks are closed. *)
Fixpoint drain_vaults (group_pk : Pubkey) (m : MintInfo) (i : nat) (ais : list AccountInfo) (dust : Z) : outcome Z :=
  match ais with
  | bank_ai :: vault_ai :: ais =>
      bank_pk ← unwrap (mi_banks m !! i);
      _ ← require (fst bank_ai =? bank_pk) ERequireEq;
      vault_pk ← unwrap (mi_vaults m !! i);
      _ ← require (fst vault_ai =? vault_pk) ERequireEq;
      bank ← load_bank bank_ai;
      _ ← require (bk_group bank =? group_pk) ERequireKeysEq;
      _ ← require (bk_token_index bank =? mi_token_index m) ERequireEq;
      _ ← require (bk_vault bank =? fst vault_ai) ERequireKeysEq;
      vault ← match snd vault_ai with AToken t => Done t | _ => Panic end;
      dust ← (if 0 <? ta_amount vault then
                '(_, dust) ← token_transfer (ta_amount vault) dust (ta_amount vault); Done dust
              else Done dust);
      drain_vaults group_pk m (S i) ais dust
  | [_] => Panic
  | [] => Done dust
  end.

Definition token_deregister (group_pk : Pubkey) (group : Group) (admin : Pubkey) (mint_info : MintInfo) (remaining : list AccountInfo)
    (dust_vault : Z) : outcome Z :=
  _ ← require (gr_admin group =? admin) EConstraint;
  _ ← require (GroupCfg.is_ix_enabled group IxTokenDeregister) (EMango IxIsDisabled);
  _ ← require (GroupCfg.is_testing group) EConstraint;
  _ ← require (mi_group mint_info =? group_pk) EConstraint;
  _ ← require (Mint.num_banks mint_info * 2 =? length remaining)%nat ERequireEq;
  drain_vaults group_pk mint_info 0 remaining dust_vault.

End withdraw.
