(* ===== verification/PerpAdmin.v ===== *)
(** * Perp market administration

    instructions/perp_create_market.rs, perp_edit_market.rs, perp_close_market.rs and
    admin_perp_withdraw_fees.rs with the constraints of accounts_ix. The framework creates
    and closes the accounts; the order book and the event queue are created by the client
    and still zero. Names are checked but not part of the [PerpMarket] record; logs are left
    out. *)

From stdpp Require Import base numbers option list.
From Stdlib Require Import ZArith Lia SpecFloat.
From S2P Require Import Prelude FixedPoint HealthType TokenPosition OrderTypes Nodes Oracle OrderTree EventQueue BookSide Orders StablePrice Bank Group Serum3 PerpMarket PerpPosition MangoAccount HealthCache AccountRetriever TokenInstructions PerpInstructions SwapInstructions SerumOrders SerumInstructions TokenAdmin.

Open Scope Z_scope.

(** ** Creating markets *)

(** The signer and the accounts of a new market. *)
Record CreateAccounts := mkCreateAccounts {
  cm_group : Pubkey;
  cm_admin : Pubkey;
  cm_oracle : Pubkey * OracleAccount;
  cm_bids : Pubkey;
  cm_asks : Pubkey;
  cm_event_queue : Pubkey
}.

Record CreateMarketParams := mkCreateMarketParams {
  cp_perp_market_index : Z;
  cp_settle_token_index : Z;
  cp_name : list Z;
  cp_oracle_config : OracleConfigParams;
  cp_base_decimals : Z;
  cp_quote_lot_size : Z;
  cp_base_lot_size : Z;
  cp_maint_base_asset_weight : f32;
  cp_init_base_asset_weight : f32;
  cp_maint_base_liab_weight : f32;
  cp_init_base_liab_weight : f32;
  cp_maint_overall_asset_weight : f32;
  cp_init_overall_asset_weight : f32;
  cp_base_liquidation_fee : f32;
  cp_maker_fee : f32;
  cp_taker_fee : f32;
  cp_min_funding : f32;
  cp_max_funding : f32;
  cp_impact_quantity : Z;
  cp_group_insurance_fund : bool;
  cp_fee_penalty : f32;
  cp_settle_fee_flat : f32;
  cp_settle_fee_amount_threshold : f32;
  cp_settle_fee_fraction_low_health : f32;
  cp_settle_pnl_limit_factor : f32;
  cp_settle_pnl_limit_window_size_ts : Z;
  cp_positive_pnl_liquidation_fee : f32;
  cp_platform_liquidation_fee : f32
}.

Section create.
Context `{FixedOps}.

Definition created_market (x : CreateAccounts) (p : CreateMarketParams) (now_ts : Z) : outcome PerpMarket :=
  _ ← fill_from_str 16 (cp_name p);
  oracle_config ← to_oracle_config (cp_oracle_config p);
  maint_base_asset_weight ← fx_from_f32 (cp_maint_base_asset_weight p);
  init_base_asset_weight ← fx_from_f32 (cp_init_base_asset_weight p);
  maint_base_liab_weight ← fx_from_f32 (cp_maint_base_liab_weight p);
  init_base_liab_weight ← fx_from_f32 (cp_init_base_liab_weight p);
  min_funding ← fx_from_f32 (cp_min_funding p);
  max_funding ← fx_from_f32 (cp_max_funding p);
  base_liquidation_fee ← fx_from_f32 (cp_base_liquidation_fee p);
  maker_fee ← fx_from_f32 (cp_maker_fee p);
  taker_fee ← fx_from_f32 (cp_taker_fee p);
  maint_overall_asset_weight ← fx_from_f32 (cp_maint_overall_asset_weight p);
  init_overall_asset_weight ← fx_from_f32 (cp_init_overall_asset_weight p);
  positive_pnl_liquidation_fee ← fx_from_f32 (cp_positive_pnl_liquidation_fee p);
  platform_liquidation_fee ← fx_from_f32 (cp_platform_liquidation_fee p);
  Done {|
    pm_group := cm_group x;
    pm_settle_token_index := cp_settle_token_index p;
    pm_perp_market_index := cp_perp_market_index p;
    pm_group_insurance_fund := bool_u8 (cp_group_insurance_fund p);
    pm_base_decimals := cp_base_decimals p;
    pm_bids := cm_bids x;
    pm_asks := cm_asks x;
    pm_event_queue := cm_event_queue x;
    pm_oracle := fst (cm_oracle x);
    pm_oracle_config := oracle_config;
    pm_stable_price_model := stable_price_default;
    pm_quote_lot_size := cp_quote_lot_size p;
    pm_base_lot_size := cp_base_lot_size p;
    pm_maint_base_asset_weight := maint_base_asset_weight;
    pm_init_base_asset_weight := init_base_asset_weight;
    pm_maint_base_liab_weight := maint_base_liab_weight;
    pm_init_base_liab_weight := init_base_liab_weight;
    pm_open_interest := 0;
    pm_seq_num := 0;
    pm_registration_time := now_ts;
    pm_min_funding := min_funding;
    pm_max_funding := max_funding;
    pm_impact_quantity := cp_impact_quantity p;
    pm_long_funding := 0;
    pm_short_funding := 0;
    pm_funding_last_updated := now_ts;
    pm_base_liquidation_fee := base_liquidation_fee;
    pm_maker_fee := maker_fee;
    pm_taker_fee := taker_fee;
    pm_fees_accrued := 0;
    pm_fees_settled := 0;
    pm_fee_penalty := cp_fee_penalty p;
    pm_settle_fee_flat := cp_settle_fee_flat p;
    pm_settle_fee_amount_threshold := cp_settle_fee_amount_threshold p;
    pm_settle_fee_fraction_low_health := cp_settle_fee_fraction_low_health p;
    pm_settle_pnl_limit_factor := cp_settle_pnl_limit_factor p;
    pm_settle_pnl_limit_window_size_ts := cp_settle_pnl_limit_window_size_ts p;
    pm_reduce_only := 0;
    pm_force_close := 0;
    pm_maint_overall_asset_weight := maint_overall_asset_weight;
    pm_init_overall_asset_weight := init_overall_asset_weight;
    pm_positive_pnl_liquidation_fee := positive_pnl_liquidation_fee;
    pm_fees_withdrawn := 0;
    pm_platform_liquidation_fee := platform_liquidation_fee;
    pm_accrued_liquidation_fees := 0
  |}.

(** The market, its order book and its event queue. The accounts of the book and the queue
    are zero before. *)
Definition perp_create_market (group : Group) (x : CreateAccounts) (p : CreateMarketParams) (clock : Clock) :
    outcome (PerpMarket * Orderbook * EventQueue) :=
  _ ← require (gr_admin group =? cm_admin x) EConstraint;
  _ ← require (GroupCfg.is_ix_enabled group IxPerpCreateMarket) (EMango IxIsDisabled);
  _ ← require (GroupCfg.perps_supported group) EConstraint;
  let now_ts := clock_ts clock in
  m ← created_market x p now_ts;
  model ← init_stable_price (perp_oracle_price m (from_reader (cm_oracle x)) None) (pm_stable_price_model m) now_ts;
  let m := set_pm_stable_price_model m model in
  let orderbook := orderbook_init (mkOrderbook (bookside_zeroed Bids) (bookside_zeroed Bids)) in
  Done (m, orderbook, queue_zeroed).

End create.

(** ** Editing markets *)

Record MarketEditParams := mkMarketEditParams {
  mp_oracle_account : Pubkey * OracleAccount;
  mp_oracle_opt : option Pubkey;
  mp_oracle_config_opt : option OracleConfigParams;
  mp_base_decimals_opt : option Z;
  mp_maint_base_asset_weight_opt : option f32;
  mp_init_base_asset_weight_opt : option f32;
  mp_maint_base_liab_weight_opt : option f32;
  mp_init_base_liab_weight_opt : option f32;
  mp_maint_overall_asset_weight_opt : option f32;
  mp_init_overall_asset_weight_opt : option f32;
  mp_base_liquidation_fee_opt : option f32;
  mp_maker_fee_opt : option f32;
  mp_taker_fee_opt : option f32;
  mp_min_funding_opt : option f32;
  mp_max_funding_opt : option f32;
  mp_impact_quantity_opt : option Z;
  mp_group_insurance_fund_opt : option bool;
  mp_fee_penalty_opt : option f32;
  mp_settle_fee_flat_opt : option f32;
  mp_settle_fee_amount_threshold_opt : option f32;
  mp_settle_fee_fraction_low_health_opt : option f32;
  mp_stable_price_delay_interval_seconds_opt : option Z;
  mp_stable_price_delay_growth_limit_opt : option f32;
  mp_stable_price_growth_limit_opt : option f32;
  mp_settle_pnl_limit_factor_opt : option f32;
  mp_settle_pnl_limit_window_size_ts_opt : option Z;
  mp_reduce_only_opt : option bool;
  mp_reset_stable_price : bool;
  mp_positive_pnl_liquidation_fee_opt : option f32;
  mp_name_opt : option (list Z);
  mp_force_close_opt : option bool;
  mp_platform_liquidation_fee_opt : option f32
}.

Abbreviation MarketStep := (Edited PerpMarket -> outcome (Edited PerpMarket)) (only parsing).

Section edit.
Context `{FixedOps}.
Variable p : MarketEditParams.
Variable now_ts : Z.

Definition set_market_fixed (set : Z -> PerpMarket -> PerpMarket) (v : f32) (m : PerpMarket) : outcome PerpMarket :=
  x ← fx_from_f32 v; Done (set x m).

Definition edit_market_oracle : list MarketStep :=
  [ admin_edit (mp_oracle_config_opt p) (fun c m => c ← to_oracle_config c; Done (m <| pm_oracle_config := c |>));
    admin_edit (mp_oracle_opt p) (fun o m => Done (m <| pm_oracle := o |>));
    admin_edit (flag (mp_reset_stable_price p)) (fun _ m =>
      _ ← require (pm_oracle m =? fst (mp_oracle_account p)) ERequireKeysEq;
      price ← perp_oracle_price m (from_reader (mp_oracle_account p)) None;
      Done (set_pm_stable_price_model m (reset_to_price (pm_stable_price_model m) (fx_to_f64 price) now_ts))) ].

(** The security admin may set the overall init asset weight to zero. *)
Definition edit_init_overall_asset_weight : MarketStep :=
  edit (mp_init_overall_asset_weight_opt p) (fun v _ => f_nonzero v)
    (set_market_fixed (fun x m => m <| pm_init_overall_asset_weight := x |>)).

Definition edit_market_weights : list MarketStep :=
  [ admin_edit (mp_maint_base_asset_weight_opt p) (set_market_fixed (fun x m => m <| pm_maint_base_asset_weight := x |>));
    admin_edit (mp_init_base_asset_weight_opt p) (fun v m =>
      _ ← require (SFleb f_zero v) (EMango InitAssetWeightCantBeNegative);
      set_market_fixed (fun x m => m <| pm_init_base_asset_weight := x |>) v m);
    admin_edit (mp_maint_base_liab_weight_opt p) (set_market_fixed (fun x m => m <| pm_maint_base_liab_weight := x |>));
    admin_edit (mp_init_base_liab_weight_opt p) (set_market_fixed (fun x m => m <| pm_init_base_liab_weight := x |>));
    admin_edit (mp_maint_overall_asset_weight_opt p) (set_market_fixed (fun x m => m <| pm_maint_overall_asset_weight := x |>));
    edit_init_overall_asset_weight ].

Definition edit_market_fees : list MarketStep :=
  [ admin_edit (mp_base_liquidation_fee_opt p) (set_market_fixed (fun x m => m <| pm_base_liquidation_fee := x |>));
    admin_edit (mp_maker_fee_opt p) (set_market_fixed (fun x m => m <| pm_maker_fee := x |>));
    admin_edit (mp_taker_fee_opt p) (set_market_fixed (fun x m => m <| pm_taker_fee := x |>));
    admin_edit (mp_min_funding_opt p) (set_market_fixed (fun x m => m <| pm_min_funding := x |>));
    admin_edit (mp_max_funding_opt p) (set_market_fixed (fun x m => m <| pm_max_funding := x |>));
    admin_edit (mp_impact_quantity_opt p) (fun v m => Done (m <| pm_impact_quantity := v |>));
    admin_edit (mp_fee_penalty_opt p) (fun v m => Done (m <| pm_fee_penalty := v |>));
    admin_edit (mp_base_decimals_opt p) (fun v m => Done (m <| pm_base_decimals := v |>));
    admin_edit (mp_group_insurance_fund_opt p) (fun v m => Done (set_elligible_for_group_insurance_fund m v)) ].

Definition edit_market_settle : list MarketStep :=
  [ admin_edit (mp_settle_fee_flat_opt p) (fun v m => Done (m <| pm_settle_fee_flat := v |>));
    admin_edit (mp_settle_fee_amount_threshold_opt p) (fun v m => Done (m <| pm_settle_fee_amount_threshold := v |>));
    admin_edit (mp_settle_fee_fraction_low_health_opt p) (fun v m => Done (m <| pm_settle_fee_fraction_low_health := v |>)) ].

Definition edit_market_stable_price : list MarketStep :=
  let on_model (set : StablePriceModel -> StablePriceModel) (m : PerpMarket) : outcome PerpMarket :=
    Done (set_pm_stable_price_model m (set (pm_stable_price_model m))) in
  [ admin_edit (mp_stable_price_delay_interval_seconds_opt p) (fun v => on_model (fun s => s <| sp_delay_interval_seconds := v |>));
    admin_edit (mp_stable_price_delay_growth_limit_opt p) (fun v => on_model (fun s => s <| sp_delay_growth_limit := v |>));
    admin_edit (mp_stable_price_growth_limit_opt p) (fun v => on_model (fun s => s <| sp_stable_growth_limit := v |>));
    admin_edit (mp_settle_pnl_limit_factor_opt p) (fun v m => Done (m <| pm_settle_pnl_limit_factor := v |>));
    admin_edit (mp_settle_pnl_limit_window_size_ts_opt p) (fun v m => Done (m <| pm_settle_pnl_limit_window_size_ts := v |>)) ].

(** The security admin may only enable it. *)
Definition edit_market_reduce_only : MarketStep :=
  edit (mp_reduce_only_opt p) (fun v _ => negb v) (fun v m => Done (m <| pm_reduce_only := bool_u8 v |>)).

Definition edit_market_modes : list MarketStep :=
  [ edit_market_reduce_only;
    admin_edit (mp_positive_pnl_liquidation_fee_opt p) (set_market_fixed (fun x m => m <| pm_positive_pnl_liquidation_fee := x |>));
    admin_edit (mp_name_opt p) (fun name m => _ ← fill_from_str 16 name; Done m);
    admin_edit (mp_force_close_opt p) (fun v m =>
      _ ← (if v : bool then require (0 <? pm_reduce_only m) (EMango SomeError) else Done tt);
      Done (m <| pm_force_close := bool_u8 v |>));
    admin_edit (mp_platform_liquidation_fee_opt p) (set_market_fixed (fun x m => m <| pm_platform_liquidation_fee := x |>)) ].

Definition perp_edit_market (group_pk : Pubkey) (group : Group) (admin : Pubkey) (market : PerpMarket) : outcome PerpMarket :=
  _ ← require (pm_group market =? group_pk) EConstraint;
  e ← run_edits (edit_market_oracle ++ edit_market_weights ++ edit_market_fees ++ edit_market_settle ++
                 edit_market_stable_price ++ edit_market_modes) (mkEdited market false);
  _ ← check_admin group admin (ed_require_group_admin e);
  Done (ed_state e).

End edit.

(** ** Closing markets and withdrawing fees *)

(** The framework closes the market, its book and its event queue. *)
Definition perp_close_market (group_pk : Pubkey) (group : Group) (admin : Pubkey) (m : PerpMarket) (bids asks event_queue : Pubkey) :
    outcome unit :=
  _ ← require (GroupCfg.is_testing group) EConstraint;
  _ ← require (GroupCfg.is_ix_enabled group IxPerpCloseMarket) (EMango IxIsDisabled);
  _ ← require (gr_admin group =? admin) EConstraint;
  _ ← require (pm_group m =? group_pk) EConstraint;
  _ ← require (pm_bids m =? bids) EConstraint;
  _ ← require (pm_asks m =? asks) EConstraint;
  require (pm_event_queue m =? event_queue) EConstraint.

Section withdraw.
Context `{FixedOps} `{TokenProgram}.

(** The market, the vault of the settle bank and the token account after the withdrawal. *)
Definition admin_perp_withdraw_fees (group_pk : Pubkey) (group : Group) (admin : Pubkey) (m : PerpMarket) (bank : Bank)
    (vault_pk : Pubkey) (vault token_account : Z) : outcome (PerpMarket * Z * Z) :=
  _ ← require (GroupCfg.is_ix_enabled group IxAdminPerpWithdrawFees) (EMango IxIsDisabled);
  _ ← require (gr_admin group =? admin) EConstraint;
  _ ← require (pm_group m =? group_pk) EConstraint;
  _ ← require (bk_group bank =? group_pk) EConstraint;
  _ ← require (bk_vault bank =? vault_pk) EConstraint;
  _ ← require (bk_token_index bank =? pm_settle_token_index m) EConstraint;
  f ← fx_floor (pm_fees_settled m);
  f ← fx_to_u64 f;
  fees ← u64 (f - pm_fees_withdrawn m);
  let amount := Z.min fees vault in
  '(vault, token_account) ← token_transfer vault token_account amount;
  fees_withdrawn ← u64 (pm_fees_withdrawn m + amount);
  Done (m <| pm_fees_withdrawn := fees_withdrawn |>, vault, token_account).

End withdraw.
