(* ===== verification/GroupAdmin.v ===== *)
(** * Group administration

    instructions/group_*.rs and stub_oracle_*.rs with the constraints of accounts_ix. The
    framework creates and closes the accounts. *)

From stdpp Require Import base numbers option list.
From Stdlib Require Import ZArith Lia SpecFloat.
From S2P Require Import Prelude FixedPoint HealthType TokenPosition OrderTypes Nodes Oracle StablePrice Bank Group Serum3 ConditionalSwap PerpMarket PerpPosition MangoAccount HealthCache AccountRetriever TokenInstructions SwapInstructions TokenAdmin.

Open Scope Z_scope.

(** ** Groups *)

(** A new group account is zero, so that all instructions are enabled. *)
Definition group_zeroed : Group := {|
  gr_creator := default_key;
  gr_group_num := 0;
  gr_admin := default_key;
  gr_fast_listing_admin := default_key;
  gr_mngo_token_index := 0;
  gr_insurance_vault := default_key;
  gr_insurance_mint := default_key;
  gr_testing := 0;
  gr_version := 0;
  gr_buyback_fees := 0;
  gr_buyback_fees_mngo_bonus_factor := f_zero;
  gr_security_admin := default_key;
  gr_deposit_limit_quote := 0;
  gr_ix_gate := 0;
  gr_buyback_fees_swap_mango_account := default_key;
  gr_buyback_fees_expiry_interval := 0;
  gr_fast_listing_interval_start := 0;
  gr_fast_listings_in_interval := 0;
  gr_allowed_fast_listings_per_interval := 0;
  gr_collateral_fee_interval := 0
|}.

Definition group_create (creator insurance_vault insurance_mint : Pubkey) (group_num testing version : Z) : Group :=
  (((((((group_zeroed <| gr_creator := creator |>) <| gr_group_num := group_num |>) <| gr_admin := creator |>)
         <| gr_fast_listing_admin := default_key |>) <| gr_insurance_vault := insurance_vault |>)
      <| gr_insurance_mint := insurance_mint |>) <| gr_testing := testing |>) <| gr_version := version |>.

Record GroupEditParams := mkGroupEditParams {
  gp_admin_opt : option Pubkey;
  gp_fast_listing_admin_opt : option Pubkey;
  gp_security_admin_opt : option Pubkey;
  gp_testing_opt : option Z;
  gp_version_opt : option Z;
  gp_deposit_limit_quote_opt : option Z;
  gp_buyback_fees_opt : option bool;
  gp_buyback_fees_bonus_factor_opt : option f32;
  gp_buyback_fees_swap_mango_account_opt : option Pubkey;
  gp_mngo_token_index_opt : option Z;
  gp_buyback_fees_expiry_interval_opt : option Z;
  gp_allowed_fast_listings_per_interval_opt : option Z;
  gp_collateral_fee_interval_opt : option Z
}.

(** A field is set if there is a value for it. *)
Definition set_opt {A} (opt : option A) (set : A -> Group -> Group) (g : Group) : Group :=
  match opt with Some v => set v g | None => g end.

Definition group_edit (g : Group) (admin : Pubkey) (p : GroupEditParams) : outcome Group :=
  _ ← require (gr_admin g =? admin) EConstraint;
  g ← match gp_admin_opt p with
      | Some new_admin => _ ← require (negb (new_admin =? default_key)) ERequireKeysNeq; Done (g <| gr_admin := new_admin |>)
      | None => Done g
      end;
  let g := set_opt (gp_fast_listing_admin_opt p) (fun v g => g <| gr_fast_listing_admin := v |>) g in
  let g := set_opt (gp_security_admin_opt p) (fun v g => g <| gr_security_admin := v |>) g in
  let g := set_opt (gp_testing_opt p) (fun v g => g <| gr_testing := v |>) g in
  let g := set_opt (gp_version_opt p) (fun v g => g <| gr_version := v |>) g in
  let g := set_opt (gp_deposit_limit_quote_opt p) (fun v g => g <| gr_deposit_limit_quote := v |>) g in
  let g := set_opt (gp_buyback_fees_opt p) (fun v g => g <| gr_buyback_fees := bool_u8 v |>) g in
  let g := set_opt (gp_buyback_fees_bonus_factor_opt p) (fun v g => g <| gr_buyback_fees_mngo_bonus_factor := v |>) g in
  let g := set_opt (gp_buyback_fees_swap_mango_account_opt p) (fun v g => g <| gr_buyback_fees_swap_mango_account := v |>) g in
  let g := set_opt (gp_mngo_token_index_opt p) (fun v g => g <| gr_mngo_token_index := v |>) g in
  let g := set_opt (gp_buyback_fees_expiry_interval_opt p) (fun v g => g <| gr_buyback_fees_expiry_interval := v |>) g in
  let g := set_opt (gp_allowed_fast_listings_per_interval_opt p) (fun v g => g <| gr_allowed_fast_listings_per_interval := v |>) g in
  let g := set_opt (gp_collateral_fee_interval_opt p) (fun v g => g <| gr_collateral_fee_interval := v |>) g in
  Done g.

Section funds.
Context `{TokenProgram}.

(** [close_token_account] is the token program's, which only closes an empty account. *)
Definition group_close (close_token_account : Z -> outcome unit) (g : Group) (admin insurance_vault_pk : Pubkey) (insurance_vault : Z) :
    outcome unit :=
  _ ← require (gr_admin g =? admin) EConstraint;
  _ ← require (gr_insurance_vault g =? insurance_vault_pk) EConstraint;
  _ ← require (GroupCfg.is_testing g) EConstraint;
  _ ← require (GroupCfg.is_ix_enabled g IxGroupClose) (EMango IxIsDisabled);
  close_token_account insurance_vault.

(** The insurance vault and the destination after the withdrawal. *)
Definition group_withdraw_insurance_fund (g : Group) (admin insurance_vault_pk : Pubkey) (insurance_vault destination amount : Z) :
    outcome (Z * Z) :=
  _ ← require (gr_insurance_vault g =? insurance_vault_pk) EConstraint;
  _ ← require (gr_admin g =? admin) EConstraint;
  _ ← require (GroupCfg.is_ix_enabled g IxGroupWithdrawInsuranceFund) (EMango IxIsDisabled);
  token_transfer insurance_vault destination (Z.min amount insurance_vault).

End funds.

(** ** Stub oracles *)

(** [oracle_group] is the group of the oracle account; its mint and time stamp are not read
    by the program. *)
Definition stub_oracle_create (group : Group) (admin : Pubkey) (price : Z) : outcome StubOracle :=
  _ ← require (gr_admin group =? admin) EConstraint;
  _ ← require (GroupCfg.is_ix_enabled group IxStubOracleCreate) (EMango IxIsDisabled);
  Done (mkStubOracle price 0 0).

Definition stub_oracle_constraints (group_pk : Pubkey) (group : Group) (admin oracle_group : Pubkey) : outcome unit :=
  _ ← require (gr_admin group =? admin) EConstraint;
  _ ← require (GroupCfg.is_ix_enabled group IxStubOracleSet) (EMango IxIsDisabled);
  require (oracle_group =? group_pk) EConstraint.

Definition stub_oracle_set (group_pk : Pubkey) (group : Group) (admin oracle_group : Pubkey) (oracle : StubOracle) (price : Z)
    (clock : Clock) : outcome StubOracle :=
  _ ← stub_oracle_constraints group_pk group admin oracle_group;
  Done (mkStubOracle price (clock_slot clock) (so_deviation oracle)).

Definition stub_oracle_set_test (group_pk : Pubkey) (group : Group) (admin oracle_group : Pubkey) (price last_update_slot deviation : Z) :
    outcome StubOracle :=
  _ ← stub_oracle_constraints group_pk group admin oracle_group;
  Done (mkStubOracle price last_update_slot deviation).

Definition stub_oracle_close (group_pk : Pubkey) (group : Group) (admin oracle_group : Pubkey) : outcome unit :=
  _ ← require (gr_admin group =? admin) EConstraint;
  _ ← require (GroupCfg.is_ix_enabled group IxStubOracleClose) (EMango IxIsDisabled);
  _ ← require (GroupCfg.is_testing group) EConstraint;
  require (oracle_group =? group_pk) EConstraint.
