(* ===== verification/AdminSpec.v ===== *)
(** * What administrators can do

    The edits of a token and of a perp market that the security admin can make, what a
    listing starts with and how many fast listings there are, and withdrawals of fees. *)

From stdpp Require Import base numbers option list fin_maps gmap.
From Stdlib Require Import ZArith Lia SpecFloat Sorted.
From S2P Require Import Prelude FixedPoint HealthType TokenPosition OrderTypes Nodes Oracle OrderTree OrderTreeSpec EventQueue BookSide BookSideSpec Orders StablePrice Bank BankSpec BankInterest Group Serum3 PerpMarket PerpPosition MangoAccount HealthCache AccountRetriever TokenInstructions BankInstructions PerpInstructions SwapInstructions SerumOrders SerumInstructions TokenAdmin PerpAdmin.

Open Scope Z_scope.

Section spec.
Context `{FixedLaws}.

(** ** Edits of a token *)

(** What the security admin can do to a bank: keep or clear the init asset weight and two
    fees, make the mode stricter, and end a shift of the maint weights where it is. *)
Record tightened (now_ts : Z) (b b' : Bank) : Prop := {
  tg_init_asset_weight : bk_init_asset_weight b' = bk_init_asset_weight b \/ bk_init_asset_weight b' = 0;
  tg_platform_liquidation_fee :
    bk_platform_liquidation_fee b' = bk_platform_liquidation_fee b \/ bk_platform_liquidation_fee b' = 0;
  tg_collateral_fee :
    bk_collateral_fee_per_day b' = bk_collateral_fee_per_day b \/ SFeqb (bk_collateral_fee_per_day b') f_zero = true;
  tg_borrows : BankCfg.are_borrows_reduce_only b = true -> BankCfg.are_borrows_reduce_only b' = true;
  tg_deposits : BankCfg.are_deposits_reduce_only b = true -> BankCfg.are_deposits_reduce_only b' = true;
  tg_maint_weights :
    (forall t, maint_weights b' t = maint_weights b t) \/ (forall t, maint_weights b' t = maint_weights b now_ts);
  tg_rest :
    b' = (((((((((((b <| bk_init_asset_weight := bk_init_asset_weight b' |>)
                    <| bk_platform_liquidation_fee := bk_platform_liquidation_fee b' |>)
                   <| bk_collateral_fee_per_day := bk_collateral_fee_per_day b' |>)
                  <| bk_reduce_only := bk_reduce_only b' |>)
                 <| bk_maint_asset_weight := bk_maint_asset_weight b' |>)
                <| bk_maint_liab_weight := bk_maint_liab_weight b' |>)
               <| bk_maint_weight_shift_start := bk_maint_weight_shift_start b' |>)
              <| bk_maint_weight_shift_end := bk_maint_weight_shift_end b' |>)
             <| bk_maint_weight_shift_duration_inv := bk_maint_weight_shift_duration_inv b' |>)
            <| bk_maint_weight_shift_asset_target := bk_maint_weight_shift_asset_target b' |>)
           <| bk_maint_weight_shift_liab_target := bk_maint_weight_shift_liab_target b' |>)
}.

Lemma not_f_nonzero v : f_nonzero v = false -> SFeqb v f_zero = true.
Proof. unfold f_nonzero. by intros ?%negb_false_iff. Qed.

Lemma fixed_of_zero v x : f_nonzero v = false -> fx_from_f32 v = Done x -> x = 0.
Proof.
  intros Hv%not_f_nonzero E. rewrite fx_from_f32_law in E.
  destruct v as [s|s| |s m e]; try done; [by injection E|by destruct s..].
Qed.

Ltac remembers := repeat first [apply Forall_nil_2 | apply Forall_cons_2]; apply edit_remembers.

(** Steps over the edits that need the group admin, then takes the next one. *)
Ltac next_edit E Ha s Hs :=
  repeat (apply admin_edit_first in E; [destruct E as [? E]|remembers|exact Ha]);
  apply edit_first in E; [destruct E as (s & Hs & E)|remembers|exact Ha].

Lemma on_bank_inv {A} (f : A -> Bank -> outcome Bank) v m b s : on_bank f v (mkTokenState m b) = Done s ->
  exists b', f v b = Done b' /\ s = mkTokenState m b'.
Proof. unfold on_bank. intros E. apply bind_Done_inv in E as (b' & Eb & E). injection E as <-. by exists b'. Qed.

Lemma set_fixed_zero set v b b' : f_nonzero v = false -> set_fixed set v b = Done b' -> b' = set 0 b.
Proof. intros Hv E. apply bind_Done_inv in E as (x & Ex & E). apply fixed_of_zero in Ex as ->; [|done]. by injection E. Qed.

(** The result of an edit of the bank that did not ask for the group admin. *)
Definition edited {A} (opt : option A) (admin : A -> TokenState -> bool) (f : A -> Bank -> outcome Bank) (m : MintInfo) (b b' : Bank) :
    Prop :=
  match opt with None => b' = b | Some v => f v b = Done b' /\ admin v (mkTokenState m b) = false end.

Lemma edit_on_bank {A} (opt : option A) admin f m b s :
  match opt with
  | None => s = mkTokenState m b
  | Some v => on_bank f v (mkTokenState m b) = Done s /\ admin v (mkTokenState m b) = false
  end ->
  exists b', s = mkTokenState m b' /\ edited opt admin f m b b'.
Proof.
  unfold edited. destruct opt as [v|]; [|by exists b]. intros [E Ha]. apply on_bank_inv in E as (b' & E & ->). by exists b'.
Qed.

Lemma init_weight_tightened opt m b b' :
  edited opt (fun v _ => f_nonzero v) (fun v b =>
    _ ← require (SFleb f_zero v) (EMango InitAssetWeightCantBeNegative);
    set_fixed (fun x b => b <| bk_init_asset_weight := x |>) v b) m b b' ->
  exists i, b' = b <| bk_init_asset_weight := i |> /\ (i = bk_init_asset_weight b \/ i = 0).
Proof.
  unfold edited. destruct opt as [v|]; intros E.
  - destruct E as [E Hv]. apply bind_Done_inv in E as (u & _ & E). apply set_fixed_zero in E; [|done]. exists 0. auto.
  - exists (bk_init_asset_weight b). subst. split; [by destruct b|auto].
Qed.

Lemma mode_tightened opt m b b' :
  edited opt (fun v s => (v =? 0) || ((v =? 2) && (bk_reduce_only (ts_bank s) =? 1))) (fun v b => Done (b <| bk_reduce_only := v |>)) m b b' ->
  exists r, b' = b <| bk_reduce_only := r |> /\
    match opt with None => r = bk_reduce_only b | Some v => r = v /\ v <> 0 /\ (v = 2 -> bk_reduce_only b <> 1) end.
Proof.
  unfold edited. destruct opt as [v|]; intros E.
  - destruct E as [[= <-] Hv]. simpl in Hv. exists v. split; [done|]. split; [done|]. lia.
  - exists (bk_reduce_only b). subst b'. by destruct b.
Qed.

(** A bank with other maint weights. *)
Definition with_weights (b w : Bank) : Bank :=
  (((((((b <| bk_maint_asset_weight := bk_maint_asset_weight w |>) <| bk_maint_liab_weight := bk_maint_liab_weight w |>)
         <| bk_maint_weight_shift_start := bk_maint_weight_shift_start w |>)
        <| bk_maint_weight_shift_end := bk_maint_weight_shift_end w |>)
       <| bk_maint_weight_shift_duration_inv := bk_maint_weight_shift_duration_inv w |>)
      <| bk_maint_weight_shift_asset_target := bk_maint_weight_shift_asset_target w |>)
     <| bk_maint_weight_shift_liab_target := bk_maint_weight_shift_liab_target w |>).

Lemma shift_aborted (abort : bool) m b b' now_ts :
  edited (flag abort) (fun _ _ => false) (fun _ b =>
    '(maint_asset_weight, maint_liab_weight) ← maint_weights b now_ts;
    Done (((((((b <| bk_maint_asset_weight := maint_asset_weight |>) <| bk_maint_liab_weight := maint_liab_weight |>)
               <| bk_maint_weight_shift_start := 0 |>) <| bk_maint_weight_shift_end := 0 |>)
             <| bk_maint_weight_shift_duration_inv := 0 |>) <| bk_maint_weight_shift_asset_target := 0 |>)
            <| bk_maint_weight_shift_liab_target := 0 |>)) m b b' ->
  b' = with_weights b b' /\
  ((forall t, maint_weights b' t = maint_weights b t) \/ (forall t, maint_weights b' t = maint_weights b now_ts)).
Proof.
  unfold edited. destruct abort; intros E.
  - destruct E as [E _]. apply bind_Done_inv in E as ([aw lw] & Ew & E). injection E as <-. split; [done|]. right. intros t.
    by rewrite Ew.
  - simpl in E. subst b'. split; [by destruct b|auto].
Qed.

Lemma platform_fee_tightened opt m b b' :
  edited opt (fun v _ => f_nonzero v) (set_fixed (fun x b => b <| bk_platform_liquidation_fee := x |>)) m b b' ->
  exists f, b' = b <| bk_platform_liquidation_fee := f |> /\ (f = bk_platform_liquidation_fee b \/ f = 0).
Proof.
  unfold edited. destruct opt as [v|]; intros E.
  - destruct E as [E Hv]. apply set_fixed_zero in E; [|done]. exists 0. auto.
  - exists (bk_platform_liquidation_fee b). subst. split; [by destruct b|auto].
Qed.

Lemma collateral_fee_tightened opt m b b' :
  edited opt (fun v _ => f_nonzero v) (fun v b => Done (b <| bk_collateral_fee_per_day := v |>)) m b b' ->
  exists c, b' = b <| bk_collateral_fee_per_day := c |> /\ (c = bk_collateral_fee_per_day b \/ SFeqb c f_zero = true).
Proof.
  unfold edited. destruct opt as [v|]; intros E.
  - destruct E as [[= <-] Hv]. exists v. split; [done|]. right. by apply not_f_nonzero.
  - exists (bk_collateral_fee_per_day b). subst. split; [by destruct b|auto].
Qed.

(** So the security admin only tightens. *)
Lemma edit_bank_tightens p now_ts m b a e' :
  edit_bank p now_ts (mkEdited (mkTokenState m b) a) = Done e' -> ed_require_group_admin e' = false ->
  exists b', ed_state e' = mkTokenState m b' /\ (forall v, ep_reduce_only_opt p = Some v -> bk_reduce_only b' = v) /\
    ((forall v, ep_reduce_only_opt p = Some v -> 0 <= v <= 2) -> tightened now_ts b b').
Proof.
  unfold edit_bank, edit_oracles, edit_interest, edit_weights, edit_stable_price, edit_limits, edit_modes, edit_fees,
    edit_weight_shift, edit_remaining. cbn [app].
  intros E Ha.
  next_edit E Ha s1 F1. apply (edit_on_bank _ (fun v _ => f_nonzero v)) in F1 as (b1 & -> & F1). apply init_weight_tightened in F1 as (i & -> & Hi).
  next_edit E Ha s2 F2.
  apply (edit_on_bank _ (fun v s => (v =? 0) || ((v =? 2) && (bk_reduce_only (ts_bank s) =? 1)))) in F2 as (b2 & -> & F2). apply mode_tightened in F2 as (r & -> & Hr).
  next_edit E Ha s3 F3. apply (edit_on_bank _ (fun _ _ => false)) in F3 as (b3 & -> & F3). apply shift_aborted in F3 as (E3 & Hm).
  next_edit E Ha s4 F4.
  match goal with A1 : ep_maint_weight_shift_start_opt p = None, A2 : ep_maint_weight_shift_end_opt p = None |- _ =>
    rewrite A1, A2 in F4 end. simpl in F4. subst s4.
  next_edit E Ha s5 F5. apply (edit_on_bank _ (fun v _ => f_nonzero v)) in F5 as (b4 & -> & F5). apply platform_fee_tightened in F5 as (f & -> & Hf).
  next_edit E Ha s6 F6. apply (edit_on_bank _ (fun v _ => f_nonzero v)) in F6 as (b5 & -> & F6). apply collateral_fee_tightened in F6 as (c & -> & Hc).
  repeat (apply admin_edit_first in E; [destruct E as [? E]|remembers|exact Ha]).
  simpl in E. injection E as <-. eexists. split; [reflexivity|]. rewrite E3 in Hf, Hc. rewrite E3.
  assert (Hv : forall v, ep_reduce_only_opt p = Some v -> r = v) by (intros v Ev; rewrite Ev in Hr; tauto).
  split; [exact Hv|]. intros Hro. assert (r = bk_reduce_only b \/ r = 1 \/ (r = 2 /\ bk_reduce_only b <> 1)) as Hr2.
  { destruct (ep_reduce_only_opt p) as [v|]; [|auto]. specialize (Hro v eq_refl). simpl in Hr. lia. }
  clear Hr. constructor; try done; unfold BankCfg.are_borrows_reduce_only, BankCfg.are_deposits_reduce_only; simpl in *; lia.
Qed.

Lemma edit_bank_remembers p now_ts e e' : edit_bank p now_ts e = Done e' -> ed_require_group_admin e' = false ->
  ed_require_group_admin e = false.
Proof.
  intros E Ha. refine (proj1 (run_edits_unprivileged _ (fun _ _ => True) (fun _ => I) (fun _ _ _ _ _ => I) _ e e' E Ha)).
  unfold edit_oracles, edit_interest, edit_weights, edit_stable_price, edit_limits, edit_modes, edit_fees, edit_weight_shift,
    edit_remaining. remembers.
Qed.

(** The banks before and after. *)
Definition bank_tightened (now_ts : Z) (ai ai' : AccountInfo) : Prop :=
  exists b b', ai = (fst ai, ABank b) /\ ai' = (fst ai, ABank b') /\ tightened now_ts b b'.

Lemma edit_banks_tighten p now_ts ais : forall m ais' m', edit_banks p now_ts ais m false = Done (ais', m', false) ->
  m' = m /\ (forall v ai, ep_reduce_only_opt p = Some v -> head ais' = Some ai -> exists b, snd ai = ABank b /\ bk_reduce_only b = v) /\
  ((forall v, ep_reduce_only_opt p = Some v -> 0 <= v <= 2) -> Forall2 (bank_tightened now_ts) ais ais').
Proof.
  assert (Hmono : forall ais m a ais' m', edit_banks p now_ts ais m a = Done (ais', m', false) -> a = false).
  { clear. intros ais. induction ais as [|[k d] ais IH]; intros m a ais' m' E; simpl in E; [by injection E|].
    apply bind_Done_inv in E as (b & _ & E). apply bind_Done_inv in E as (e & Ee & E).
    apply bind_Done_inv in E as ([[ais1 m1] a1] & E1 & E). injection E as _ _ ->. apply IH in E1.
    by apply (edit_bank_remembers p now_ts) in Ee. }
  induction ais as [|[k d] ais IH]; intros m ais' m' E; simpl in E.
  - injection E as <- <-. split_and!; [done|done|constructor].
  - apply bind_Done_inv in E as (b & Eb & E). apply bind_Done_inv in E as (e & Ee & E).
    apply bind_Done_inv in E as ([[ais1 m1] a1] & E1 & E). injection E as <- <- ->.
    pose proof (Hmono _ _ _ _ _ E1) as Ha. apply edit_bank_tightens in Ee; [|done]. destruct Ee as (b' & Es & Hv & Ht).
    rewrite Es, Ha in E1. simpl in E1. apply IH in E1 as (-> & _ & HF).
    assert (d = ABank b) as -> by (unfold load_bank in Eb; simpl in Eb; destruct d; try done; by injection Eb as ->).
    split; [done|]. split.
    + intros v ai Ev [= <-]. exists b'. simpl. rewrite Es. auto.
    + intros Hro. constructor; [|auto]. exists b, b'. simpl. rewrite Es. auto.
Qed.

(** C24: The security admin can only tighten a token. An edit is made by the group admin or
    the security admin. Without the group admin, the mint info stays as it is, and each bank
    keeps everything but: its init asset weight, its platform liquidation fee and its
    collateral fee, which may become zero, its mode, which may only forbid more, and its
    maint weights, whose shift may end at the weights of this moment. The first bank passes
    the checks on its parameters. *)
Theorem security_admin_only_tightens p now_ts group_pk group admin mint_info remaining remaining' mint_info' :
  (forall v, ep_reduce_only_opt p = Some v -> 0 <= v) ->
  token_edit p now_ts group_pk group admin mint_info remaining = Done (remaining', mint_info') ->
  (gr_admin group = admin \/ gr_security_admin group = admin) /\
  (exists k b, head remaining' = Some (k, ABank b) /\ verify b = Done tt) /\
  (gr_admin group <> admin -> mint_info' = mint_info /\ Forall2 (bank_tightened now_ts) remaining remaining').
Proof.
  unfold token_edit. intros Hu8 E. apply bind_Done_inv in E as (u1 & _ & E). apply bind_Done_inv in E as (u2 & _ & E).
  apply bind_Done_inv in E as ([[ais m] req] & Ee & E). apply bind_Done_inv in E as (u3 & Ec & E).
  apply bind_Done_inv in E as (first & Ef & E). apply unwrap_inv in Ef. apply bind_Done_inv in E as (b & Eb & E).
  apply bind_Done_inv in E as ([] & V & E). injection E as <- <-. apply check_admin_inv in Ec.
  assert (first = (fst first, ABank b)) as Hfirst.
  { destruct first as [k d]. unfold load_bank in Eb. simpl in *. destruct d; try done. by injection Eb as ->. }
  split; [tauto|]. split; [exists (fst first), b; by rewrite <- Hfirst|].
  intros Hadm. destruct Ec as [?|[-> _]]; [done|]. apply edit_banks_tighten in Ee as (-> & Hv & Ht). split; [done|].
  apply Ht. intros v Ev. destruct (Hv v first Ev Ef) as (b' & Hb & <-). rewrite Hfirst in Hb. injection Hb as <-.
  verified V 22%nat. specialize (Hu8 _ Ev). lia.
Qed.

(** ** Edits of a perp market *)

Lemma market_edits_tighten p now_ts m e' :
  run_edits (edit_market_oracle p now_ts ++ edit_market_weights p ++ edit_market_fees p ++ edit_market_settle p ++
             edit_market_stable_price p ++ edit_market_modes p) (mkEdited m false) = Done e' ->
  ed_require_group_admin e' = false ->
  exists w r, ed_state e' = (m <| pm_init_overall_asset_weight := w |>) <| pm_reduce_only := r |> /\
    (w = pm_init_overall_asset_weight m \/ w = 0) /\ (r = pm_reduce_only m \/ r = 1).
Proof.
  unfold edit_market_oracle, edit_market_weights, edit_market_fees, edit_market_settle, edit_market_stable_price, edit_market_modes.
  cbn [app]. intros E Ha.
  next_edit E Ha m1 F1. next_edit E Ha m2 F2.
  repeat (apply admin_edit_first in E; [destruct E as [? E]|remembers|exact Ha]). simpl in E. injection E as <-. simpl.
  assert (exists w, m1 = m <| pm_init_overall_asset_weight := w |> /\ (w = pm_init_overall_asset_weight m \/ w = 0)) as (w & -> & Hw).
  { destruct (mp_init_overall_asset_weight_opt p) as [v|].
    - destruct F1 as [F1 Hv]. apply bind_Done_inv in F1 as (x & Ex & F1). apply fixed_of_zero in Ex as ->; [|done].
      injection F1 as <-. eauto.
    - subst m1. exists (pm_init_overall_asset_weight m). split; [by destruct m|auto]. }
  exists w. destruct (mp_reduce_only_opt p) as [[|]|].
  - destruct F2 as [[= <-] _]. exists 1. auto.
  - by destruct F2.
  - subst m2. exists (pm_reduce_only m). split; [by destruct m|auto].
Qed.

(** The security admin can only make a perp market reduce-only and clear its overall
    init asset weight; everything else takes the group admin. *)
Theorem security_admin_tightens_market p now_ts group_pk group admin m m' :
  perp_edit_market p now_ts group_pk group admin m = Done m' ->
  (gr_admin group = admin \/ gr_security_admin group = admin) /\
  (gr_admin group <> admin ->
   exists w r, m' = (m <| pm_init_overall_asset_weight := w |>) <| pm_reduce_only := r |> /\
     (w = pm_init_overall_asset_weight m \/ w = 0) /\ (r = pm_reduce_only m \/ r = 1)).
Proof.
  unfold perp_edit_market. intros E. apply bind_Done_inv in E as (u1 & _ & E). apply bind_Done_inv in E as (e & Ee & E).
  apply bind_Done_inv in E as (u2 & Ec & E). injection E as <-. apply check_admin_inv in Ec. split; [tauto|].
  intros Hadm. destruct Ec as [?|[Ha _]]; [done|]. by apply (market_edits_tighten p now_ts).
Qed.

(** ** Listings *)

(** [f] of the group, for each of a list of times. *)
Fixpoint list_fast (g : Group) (times : list Z) : outcome Group :=
  match times with
  | [] => Done g
  | t :: times => g ← count_fast_listing g t; list_fast g times
  end.

Lemma count_fast_listing_inv g t g' : count_fast_listing g t = Done g' ->
  gr_allowed_fast_listings_per_interval g' = gr_allowed_fast_listings_per_interval g /\
  gr_fast_listings_in_interval g' <= gr_allowed_fast_listings_per_interval g /\
  if gr_fast_listing_interval_start g + WEEK_SECONDS <=? t then
    gr_fast_listing_interval_start g' = t / WEEK_SECONDS * WEEK_SECONDS /\ gr_fast_listings_in_interval g' = 1
  else
    gr_fast_listing_interval_start g' = gr_fast_listing_interval_start g /\
    gr_fast_listings_in_interval g' = gr_fast_listings_in_interval g + 1.
Proof.
  unfold count_fast_listing. intros E. apply bind_Done_inv in E as (e & Ee & E). apply u64_inv in Ee as [-> _].
  apply bind_Done_inv in E as (n & En & E). apply u16_inv in En as [-> _]. apply bind_Done_inv in E as (u & Er & E).
  apply require_inv, Z.leb_le in Er. injection E as <-. destruct (_ <=? t); simpl in *; lia.
Qed.

(** The times in the week from [start]. *)
Definition in_week (start : Z) (times : list Z) : list Z :=
  List.filter (fun t => (start <=? t) && (t <? start + WEEK_SECONDS)) times.

Lemma week_start t : (t / WEEK_SECONDS * WEEK_SECONDS) mod WEEK_SECONDS = 0 /\
  t / WEEK_SECONDS * WEEK_SECONDS <= t < t / WEEK_SECONDS * WEEK_SECONDS + WEEK_SECONDS.
Proof. split; [apply Z.mod_mul; done|]. pose proof (Z.div_mod t WEEK_SECONDS ltac:(done)). pose proof (Z.mod_pos_bound t WEEK_SECONDS ltac:(done)). lia. Qed.

(** Weeks that start at multiples of a week are the same or disjoint. *)
Lemma weeks_apart a b : a mod WEEK_SECONDS = 0 -> b mod WEEK_SECONDS = 0 -> a < b -> a + WEEK_SECONDS <= b.
Proof.
  intros Ha Hb Hlt. pose proof (Z.div_mod a WEEK_SECONDS ltac:(done)). pose proof (Z.div_mod b WEEK_SECONDS ltac:(done)).
  assert (a / WEEK_SECONDS < b / WEEK_SECONDS) by (unfold WEEK_SECONDS in *; lia). unfold WEEK_SECONDS in *. lia.
Qed.

Lemma fast_listings_counted times start : start mod WEEK_SECONDS = 0 -> forall g g',
  StronglySorted Z.le times -> list_fast g times = Done g' ->
  gr_fast_listing_interval_start g mod WEEK_SECONDS = 0 ->
  Forall (fun t => gr_fast_listing_interval_start g <= t) times ->
  let c := Z.of_nat (length (in_week start times)) in
  let n := gr_fast_listings_in_interval g in
  let allowed := gr_allowed_fast_listings_per_interval g in
  (gr_fast_listing_interval_start g = start -> n + c <= Z.max n allowed) /\
  (gr_fast_listing_interval_start g < start -> c <= Z.max 0 allowed) /\
  (start < gr_fast_listing_interval_start g -> c = 0).
Proof.
  intros Hs. induction times as [|t times IH]; intros g g' Hsort E Hg Hge; cbn zeta; [simpl; lia|].
  simpl in E. apply bind_Done_inv in E as (g1 & E1 & E). apply count_fast_listing_inv in E1 as (Ha & Hn & H1).
  inversion Hsort as [|? ? Hsort' Hall]; subst. inversion Hge as [|? ? Ht Hge']; subst.
  destruct (week_start t) as [Hw1 Hw2].
  assert (Hi : gr_fast_listing_interval_start g1 mod WEEK_SECONDS = 0 /\
               Forall (fun t => gr_fast_listing_interval_start g1 <= t) times).
  { destruct (_ <=? t); destruct H1 as [-> _]; split; try done. eapply Forall_impl; [exact Hall|]. simpl. lia. }
  destruct (IH g1 g' Hsort' E (proj1 Hi) (proj2 Hi)) as (I1 & I2 & I3).
  pose proof (weeks_apart (gr_fast_listing_interval_start g) start Hg Hs).
  pose proof (weeks_apart start (gr_fast_listing_interval_start g) Hs Hg).
  pose proof (weeks_apart (gr_fast_listing_interval_start g1) start (proj1 Hi) Hs).
  pose proof (weeks_apart start (gr_fast_listing_interval_start g1) Hs (proj1 Hi)).
  rewrite Ha in *. unfold in_week in *. simpl List.filter.
  destruct (Z.leb_spec (gr_fast_listing_interval_start g + WEEK_SECONDS) t); destruct H1 as [H1 H1'];
    destruct (Z.leb_spec start t), (Z.ltb_spec t (start + WEEK_SECONDS)); simpl; rewrite ?Nat2Z.inj_succ; lia.
Qed.

(** Fast listings are limited. In no week, counted as the program counts them, are more
    fast listings made than the group allows, whatever the order and number of attempts. *)
Theorem fast_listings_limited g times g' start :
  0 <= gr_fast_listings_in_interval g -> StronglySorted Z.le times -> list_fast g times = Done g' ->
  gr_fast_listing_interval_start g mod WEEK_SECONDS = 0 ->
  Forall (fun t => gr_fast_listing_interval_start g <= t) times -> start mod WEEK_SECONDS = 0 ->
  Z.of_nat (length (in_week start times)) <= Z.max 0 (gr_allowed_fast_listings_per_interval g).
Proof.
  intros Hn Hsort E Hg Hge Hs. destruct (fast_listings_counted times start Hs g g' Hsort E Hg Hge) as (I1 & I2 & I3). lia.
Qed.

(** A new bank: it passes the checks, has positive indexes and no deposits, borrows or fees
    yet, belongs to the given accounts, and is the only bank of its mint info. Its stable
    price is that of the oracle, or it waits for one. *)
Record newly_listed (x : RegisterAccounts) (token_index now_ts : Z) (b : Bank) (m : MintInfo) : Prop := {
  nl_verified : verify b = Done tt;
  nl_indexes : indexes_ok b;
  nl_deposits : bk_indexed_deposits b = 0;
  nl_borrows : bk_indexed_borrows b = 0;
  nl_fees : bk_collected_fees_native b = 0 /\ bk_fees_withdrawn b = 0 /\ bk_dust b = 0;
  nl_accounts : bk_group b = rg_group x /\ bk_mint b = rg_mint x /\ bk_vault b = rg_vault x /\ bk_oracle b = fst (rg_oracle x) /\
    bk_fallback_oracle b = fst (rg_fallback_oracle x) /\ bk_token_index b = token_index /\ bk_bank_num b = 0;
  nl_no_loan : bk_flash_loan_approved_amount b = 0 /\ bk_flash_loan_token_account_initial b = U64_MAX;
  nl_stable_price :
    (exists p, oracle_price b (from_reader (rg_oracle x)) None = Done p /\ sp_stable_price (bk_stable_price_model b) = fx_to_f64 p) \/
    sp_reset_on_nonzero_price (bk_stable_price_model b) = 1;
  nl_mint : mi_group m = rg_group x /\ mi_token_index m = token_index /\ mi_mint m = rg_mint x;
  nl_only : rg_bank x <> default_key -> Mint.banks m = [rg_bank x]
}.

Lemma mint_banks_new x token_index fund now_ts : rg_bank x <> default_key -> Mint.banks (new_mint_info x token_index fund now_ts) = [rg_bank x].
Proof.
  intros Hx. unfold Mint.banks, Mint.num_banks. simpl. destruct (Z.eqb_spec (rg_bank x) default_key); [done|]. reflexivity.
Qed.

Lemma finish_registration_inv x b fund now_ts b' m :
  finish_registration x b fund now_ts = Done (b', m) ->
  bk_deposit_index b = INDEX_START -> bk_borrow_index b = INDEX_START -> bk_indexed_deposits b = 0 -> bk_indexed_borrows b = 0 ->
  bk_collected_fees_native b = 0 /\ bk_fees_withdrawn b = 0 /\ bk_dust b = 0 ->
  bk_group b = rg_group x /\ bk_mint b = rg_mint x /\ bk_vault b = rg_vault x /\ bk_oracle b = fst (rg_oracle x) /\
    bk_fallback_oracle b = fst (rg_fallback_oracle x) /\ bk_bank_num b = 0 ->
  bk_flash_loan_approved_amount b = 0 /\ bk_flash_loan_token_account_initial b = U64_MAX ->
  newly_listed x (bk_token_index b) now_ts b' m /\ exists model, b' = set_bk_stable_price_model b model.
Proof.
  intros E Hd Hb Hid Hib Hf Hx Hl. unfold finish_registration in E. apply bind_Done_inv in E as (model & Em & E).
  apply bind_Done_inv in E as ([] & V & E). apply bind_Done_inv in E as (u & _ & E). injection E as <- <-.
  split; [|by exists model]. constructor; try done.
  - split; simpl; [rewrite Hd|rewrite Hb]; done.
  - simpl. tauto.
  - simpl. destruct (oracle_price b _ None) as [p|e| |] eqn:Eo; try done; injection Em as <-; [left|by right].
    exists p. by split.
  - apply mint_banks_new.
Qed.

(** The token is no collateral and cannot be borrowed. *)
Record no_collateral (b : Bank) : Prop := {
  nc_init : forall price w, scaled_init_asset_weight b price = Done w -> w = 0;
  nc_maint : forall t, exists l, maint_weights b t = Done (0, l);
  nc_borrows : BankCfg.are_borrows_reduce_only b = true;
  nc_liquidation : BankCfg.allows_asset_liquidation b = false
}.

Lemma from_f64_law x : fx_from_f64 x = unwrap (from_float x).
Proof. rewrite fx_from_f64_law, fx_checked_from_f64_law. by destruct (from_float x). Qed.

(** The bank of a fast listing always comes about. *)
Lemma trustless_bank_ok x token_index now_ts : exists b, trustless_bank x token_index now_ts = Done b /\ no_collateral b /\
  (forall model, sp_delay_growth_limit model = sp_delay_growth_limit stable_price_default ->
     sp_stable_growth_limit model = sp_stable_growth_limit stable_price_default -> verify (set_bk_stable_price_model b model) = Done tt).
Proof.
  unfold trustless_bank. rewrite !from_f64_law. rewrite !fx_from_int_law by (vm_compute; split; congruence).
  repeat match goal with |- context [from_float ?x] => let v := eval vm_compute in (from_float x) in change (from_float x) with v end.
  run. eexists. split; [reflexivity|]. split.
  - constructor; [|by eexists|done|done]. intros price w. unfold scaled_init_asset_weight. simpl.
    intros E. apply bind_Done_inv in E as (n & _ & E).
    destruct (SFleb _ _); [by injection E|]. apply bind_Done_inv in E as (sc & _ & E). by apply fx_mul_inv in E as ->.
  - intros model E1 E2. apply verify_forall. unfold verify_checks. simpl. rewrite E1, E2. repeat constructor.
Qed.

Lemma registered_bank_inv x p token_index now_ts b fund b' m : registered_bank x p token_index now_ts = Done b ->
  finish_registration x b fund now_ts = Done (b', m) -> newly_listed x token_index now_ts b' m.
Proof.
  unfold registered_bank. intros E Ef. do 17 (apply bind_Done_inv in E as (? & _ & E)). injection E as <-.
  apply finish_registration_inv in Ef; [|simpl; tauto..]. by destruct Ef.
Qed.

Lemma trustless_bank_inv x token_index now_ts b fund b' m : trustless_bank x token_index now_ts = Done b ->
  finish_registration x b fund now_ts = Done (b', m) -> newly_listed x token_index now_ts b' m /\ no_collateral b'.
Proof.
  intros E Ef. destruct (trustless_bank_ok x token_index now_ts) as (b0 & E0 & Hn & _). rewrite E in E0. injection E0 as <-.
  assert (Hb := E). unfold trustless_bank in Hb. do 15 (apply bind_Done_inv in Hb as (? & _ & Hb)).
  apply finish_registration_inv in Ef; [|injection Hb as <-; simpl; tauto..]. destruct Ef as [Hl (model & ->)].
  split; [by replace token_index with (bk_token_index b) by (by injection Hb as <-)|].
  destruct Hn. by constructor.
Qed.

(** C25: Listed tokens start well-formed. A token is registered by the group admin, at index 0
    only with the mint of the insurance fund, and fast by the fast listing admin too, never
    at the quote index and only while the group allows more listings. Either way the new
    bank passes the checks on its parameters, has positive indexes and nothing deposited or
    borrowed, belongs to the accounts that were passed, and is the only bank of its mint
    info. A token that was listed fast is no collateral, whatever its price, and cannot be
    borrowed or seized. *)
Theorem listed_banks_wellformed group x token_index name p clock :
  (forall b m, token_register group x token_index name p clock = Done (b, m) ->
     gr_admin group = rg_admin x /\ token_index <> TOKEN_INDEX_MAX /\
     (token_index = INSURANCE_TOKEN_INDEX -> gr_insurance_mint group = rg_mint x) /\
     newly_listed x token_index (clock_ts clock) b m) /\
  (forall g' b m, token_register_trustless group x token_index name clock = Done (g', b, m) ->
     (gr_admin group = rg_admin x \/ gr_fast_listing_admin group = rg_admin x) /\
     token_index <> TOKEN_INDEX_MAX /\ token_index <> QUOTE_TOKEN_INDEX /\ count_fast_listing group (clock_ts clock) = Done g' /\
     newly_listed x token_index (clock_ts clock) b m /\ no_collateral b).
Proof.
  split.
  - unfold token_register. intros b m E. apply bind_Done_inv in E as (u1 & C1 & E). apply require_inv, Z.eqb_eq in C1.
    apply bind_Done_inv in E as (u2 & _ & E). apply bind_Done_inv in E as (u3 & C3 & E).
    apply bind_Done_inv in E as (u4 & C4 & E). apply require_inv, negb_true_iff, Z.eqb_neq in C4.
    apply bind_Done_inv in E as (u5 & _ & E). apply bind_Done_inv in E as (b0 & Eb & E).
    split_and!; [done|done| |by apply (registered_bank_inv _ _ _ _ _ _ _ _ Eb E)].
    intros ->. rewrite Z.eqb_refl in C3. by apply require_inv, Z.eqb_eq in C3.
  - unfold token_register_trustless. intros g' b m E. apply bind_Done_inv in E as (u1 & C1 & E). apply require_inv, orb_true_iff in C1.
    apply bind_Done_inv in E as (u2 & _ & E). apply bind_Done_inv in E as (u3 & C3 & E).
    apply require_inv, negb_true_iff, Z.eqb_neq in C3. apply bind_Done_inv in E as (u4 & C4 & E).
    apply require_inv, negb_true_iff, Z.eqb_neq in C4. apply bind_Done_inv in E as (g1 & Eg & E).
    apply bind_Done_inv in E as (u5 & _ & E). apply bind_Done_inv in E as (b0 & Eb & E).
    apply bind_Done_inv in E as ([b1 m1] & Ef & E). injection E as <- <- <-.
    rewrite !Z.eqb_eq in C1. split_and!; try done; by apply (trustless_bank_inv _ _ _ _ _ _ _ Eb Ef).
Qed.

(** A fast listing goes through. If the signer may list, the instruction is enabled, the
    index is free for it, the group allows one more listing, the name fits and the fallback
    oracle is one that can be used, then the token is listed whether or not its oracle has a
    price yet, as long as reading the oracle does not panic. *)
Theorem fast_listing_succeeds group x token_index name clock g' :
  gr_admin group = rg_admin x \/ gr_fast_listing_admin group = rg_admin x ->
  GroupCfg.is_ix_enabled group IxTokenRegisterTrustless = true ->
  token_index <> QUOTE_TOKEN_INDEX -> token_index <> TOKEN_INDEX_MAX -> (length name <= 16)%nat ->
  count_fast_listing group (clock_ts clock) = Done g' ->
  check_is_valid_fallback_oracle default_key (fst (rg_fallback_oracle x)) (snd (rg_fallback_oracle x)) = Done tt ->
  (forall b, trustless_bank x token_index (clock_ts clock) = Done b ->
     (exists p, oracle_price b (from_reader (rg_oracle x)) None = Done p) \/
     (exists e, oracle_price b (from_reader (rg_oracle x)) None = Fail e)) ->
  exists b, token_register_trustless group x token_index name clock = Done (g', b, new_mint_info x token_index 0 (clock_ts clock)).
Proof.
  intros Hs Hi Hq Hm Hname Hg Hf Ho. unfold token_register_trustless.
  rewrite (proj2 (orb_true_iff _ _)) by (rewrite !Z.eqb_eq; done). run. rewrite Hi. run.
  rewrite (proj2 (Z.eqb_neq _ _) Hq). run. rewrite (proj2 (Z.eqb_neq _ _) Hm). run. rewrite Hg. run.
  unfold fill_from_str. rewrite (proj2 (Nat.leb_le _ _) Hname). run.
  destruct (trustless_bank_ok x token_index (clock_ts clock)) as (b & Eb & _ & Hv). specialize (Ho b Eb).
  assert (bk_token_index b = token_index /\ bk_stable_price_model b = stable_price_default) as [Ht Hmod].
  { unfold trustless_bank in Eb. do 15 (apply bind_Done_inv in Eb as (? & _ & Eb)). by injection Eb as <-. }
  rewrite Eb. run. unfold finish_registration. rewrite Hmod.
  destruct Ho as [[p Ep]|[e Ep]]; rewrite Ep; cbn [init_stable_price]; run; rewrite Hv by done; run; rewrite Hf; run;
    simpl; rewrite Ht; by eexists.
Qed.

(** ** New markets *)

(** Markets start well-formed. A perp market is created by the group admin of a group
    that supports perp markets. Both sides of its book are well-formed trees without orders,
    of the right type, and its event queue is a well-formed empty queue; it has no open
    interest, no funding and no fees, is not reduce-only and takes its accounts from the
    ones that were passed. *)
Theorem created_market_wellformed group x p clock m ob q :
  perp_create_market group x p clock = Done (m, ob, q) ->
  gr_admin group = cm_admin x /\ GroupCfg.perps_supported group = true /\
  bs_rep (ob_bids ob) (fun _ => ∅) /\ order_tree_type (bs_nodes (ob_bids ob)) = Bids /\
  bs_rep (ob_asks ob) (fun _ => ∅) /\ order_tree_type (bs_nodes (ob_asks ob)) = Asks /\
  queue_state_ok q /\ q_count q = 0 /\
  pm_open_interest m = 0 /\ pm_seq_num m = 0 /\ pm_long_funding m = 0 /\ pm_short_funding m = 0 /\
  pm_fees_accrued m = 0 /\ pm_fees_settled m = 0 /\ pm_fees_withdrawn m = 0 /\ pm_reduce_only m = 0 /\ pm_force_close m = 0 /\
  pm_group m = cm_group x /\ pm_bids m = cm_bids x /\ pm_asks m = cm_asks x /\ pm_event_queue m = cm_event_queue x /\
  pm_perp_market_index m = cp_perp_market_index p.
Proof.
  unfold perp_create_market. intros E. apply bind_Done_inv in E as (u1 & C1 & E). apply require_inv, Z.eqb_eq in C1.
  apply bind_Done_inv in E as (u2 & _ & E). apply bind_Done_inv in E as (u3 & C3 & E). apply require_inv in C3.
  apply bind_Done_inv in E as (m0 & Em & E). apply bind_Done_inv in E as (model & _ & E). injection E as <- <- <-.
  unfold created_market in Em. do 15 (apply bind_Done_inv in Em as (? & _ & Em)). injection Em as <-.
  do 2 (split; [done|]). split; [apply (bs_rep_zeroed Bids)|]. split; [done|]. split; [apply (bs_rep_zeroed Asks)|]. split; [done|].
  split; [|done]. split; [|done]. constructor; vm_compute; intuition congruence.
Qed.

(** ** Withdrawals of fees *)

Context `{TokenLaws}.

(** [amount] of the fees up to [collected] moves from the vault to the token account. *)
Definition fees_paid (collected withdrawn withdrawn' vault token_account vault' token_account' : Z) : Prop :=
  exists amount, 0 <= amount <= vault /\ withdrawn' = withdrawn + amount /\ withdrawn' <= collected / fx_scale /\
    vault' = vault - amount /\ token_account' = token_account + amount /\
    (amount < vault -> withdrawn' = collected / fx_scale).

Lemma fees_paid_inv {R} collected withdrawn vault token_account (k : Z -> Z -> Z -> outcome R) r : 0 <= vault ->
  (f ← fx_floor collected; f ← fx_to_u64 f; fees ← u64 (f - withdrawn);
   '(v, t) ← token_transfer vault token_account (Z.min fees vault); w ← u64 (withdrawn + Z.min fees vault); k w v t) = Done r ->
  exists w v t, k w v t = Done r /\ fees_paid collected withdrawn w vault token_account v t.
Proof.
  intros Hv E. apply bind_Done_inv in E as (f & Ef & E). apply fx_floor_inv in Ef as ->.
  apply bind_Done_inv in E as (f & Ef & E). apply fx_to_u64_inv in Ef as [-> _]. unfold fx_int in E. rewrite Z.div_mul in E by done.
  apply bind_Done_inv in E as (fees & Ef & E). apply u64_inv in Ef as [-> [Hf _]].
  apply bind_Done_inv in E as ([v t] & Et & E). apply transfer_inv in Et as (-> & -> & _).
  apply bind_Done_inv in E as (w & Ew & E). apply u64_inv in Ew as [-> _].
  do 3 eexists. split; [exact E|]. exists (Z.min (collected / fx_scale - withdrawn) vault). lia.
Qed.

(** Only collected fees are withdrawn. The group admin can withdraw the fees of a bank or
    of a perp market only from the vault of the bank, and in total never more than was
    collected or settled; the whole fees are paid unless the vault is empty afterwards, and
    nothing else in the bank or the market changes. *)
Theorem admin_withdraws_only_fees group_pk group admin m b vault_pk vault token_account :
  0 <= vault ->
  (forall b' vault' token_account',
     admin_token_withdraw_fees group_pk group admin b vault_pk vault token_account = Done (b', vault', token_account') ->
     gr_admin group = admin /\ bk_vault b = vault_pk /\ b' = set_bk_fees_withdrawn b (bk_fees_withdrawn b') /\
     fees_paid (bk_collected_fees_native b) (bk_fees_withdrawn b) (bk_fees_withdrawn b') vault token_account vault' token_account') /\
  (forall m' vault' token_account',
     admin_perp_withdraw_fees group_pk group admin m b vault_pk vault token_account = Done (m', vault', token_account') ->
     gr_admin group = admin /\ bk_vault b = vault_pk /\ bk_token_index b = pm_settle_token_index m /\
     m' = m <| pm_fees_withdrawn := pm_fees_withdrawn m' |> /\
     fees_paid (pm_fees_settled m) (pm_fees_withdrawn m) (pm_fees_withdrawn m') vault token_account vault' token_account').
Proof.
  intros Hv. split.
  - unfold admin_token_withdraw_fees. intros b' v' t' E. apply bind_Done_inv in E as (u1 & _ & E).
    apply bind_Done_inv in E as (u2 & C2 & E). apply require_inv, Z.eqb_eq in C2. apply bind_Done_inv in E as (u3 & _ & E).
    apply bind_Done_inv in E as (u4 & C4 & E). apply require_inv, Z.eqb_eq in C4.
    apply (fees_paid_inv _ _ _ _ (fun w v t => Done (set_bk_fees_withdrawn b w, v, t))) in E; [|done].
    destruct E as (w & v & t & [= <- <- <-] & E). by split_and!.
  - unfold admin_perp_withdraw_fees. intros m' v' t' E. apply bind_Done_inv in E as (u1 & _ & E).
    apply bind_Done_inv in E as (u2 & C2 & E). apply require_inv, Z.eqb_eq in C2.
    do 2 (apply bind_Done_inv in E as (? & _ & E)).
    apply bind_Done_inv in E as (u4 & C4 & E). apply require_inv, Z.eqb_eq in C4.
    apply bind_Done_inv in E as (u5 & C5 & E). apply require_inv, Z.eqb_eq in C5.
    apply (fees_paid_inv _ _ _ _ (fun w v t => Done (m <| pm_fees_withdrawn := w |>, v, t))) in E; [|done].
    destruct E as (w & v & t & [= <- <- <-] & E). by split_and!.
Qed.

End spec.

(** ** Samples *)

(** An edit that changes nothing. *)
Definition no_edit : TokenEditParams :=
  mkTokenEditParams (4, AStub (mkStubOracle (fx_int 1) 0 0)) (0, AUnknown) None None None None None None None None None None None
    None None None None None None None None false false None None None None None None None None None None None None false false
    None None None None None None.

#[export] Instance eta_TokenEditParams : Eta TokenEditParams := fun p =>
  mkTokenEditParams (ep_oracle_account p) (ep_fallback_oracle_account p) (ep_oracle_opt p) (ep_oracle_config_opt p)
    (ep_group_insurance_fund_opt p) (ep_interest_rate_params_opt p) (ep_loan_fee_rate_opt p) (ep_loan_origination_fee_rate_opt p)
    (ep_maint_asset_weight_opt p) (ep_init_asset_weight_opt p) (ep_maint_liab_weight_opt p) (ep_init_liab_weight_opt p)
    (ep_liquidation_fee_opt p) (ep_stable_price_delay_interval_seconds_opt p) (ep_stable_price_delay_growth_limit_opt p)
    (ep_stable_price_growth_limit_opt p) (ep_min_vault_to_deposits_ratio_opt p) (ep_net_borrow_limit_per_window_quote_opt p)
    (ep_net_borrow_limit_window_size_ts_opt p) (ep_borrow_weight_scale_start_quote_opt p)
    (ep_deposit_weight_scale_start_quote_opt p) (ep_reset_stable_price p) (ep_reset_net_borrow_limit p) (ep_reduce_only_opt p)
    (ep_name_opt p) (ep_force_close_opt p) (ep_token_conditional_swap_taker_fee_rate_opt p)
    (ep_token_conditional_swap_maker_fee_rate_opt p) (ep_flash_loan_swap_fee_rate_opt p) (ep_interest_curve_scaling_opt p)
    (ep_interest_target_utilization_opt p) (ep_maint_weight_shift_start_opt p) (ep_maint_weight_shift_end_opt p)
    (ep_maint_weight_shift_asset_target_opt p) (ep_maint_weight_shift_liab_target_opt p) (ep_maint_weight_shift_abort p)
    (ep_set_fallback_oracle p) (ep_deposit_limit_opt p) (ep_zero_util_rate p) (ep_platform_liquidation_fee p)
    (ep_disable_asset_liquidation_opt p) (ep_collateral_fee_per_day p) (ep_force_withdraw_opt p).

(** The security admin 8 makes a token deposit-only, without a collateral weight. *)
Definition emergency_edit : TokenEditParams :=
  ((no_edit <| ep_reduce_only_opt := Some 2 |>) <| ep_init_asset_weight_opt := Some f_zero |>) <| ep_maint_weight_shift_abort := true |>.

Definition admin_group : Group := (sample_group <| gr_admin := 7 |>) <| gr_security_admin := 8 |>.

Definition sample_mint : MintInfo := mkMintInfo 1 0 0 2 [31; 0; 0; 0; 0; 0] [3; 0; 0; 0; 0; 0] 4 0 0.

Definition edited_accounts : list AccountInfo * MintInfo :=
  match @token_edit fixed_ref emergency_edit 1000 1 admin_group 8 sample_mint [(31, ABank sample_bank)] with
  | Done r => r | _ => ([], sample_mint)
  end.

(** The witness of C24: the emergency edit. *)
Lemma security_admin_only_tightens_witness :
  @token_edit fixed_ref emergency_edit 1000 1 admin_group 8 sample_mint [(31, ABank sample_bank)] = Done edited_accounts /\
  snd edited_accounts = sample_mint /\
  Forall2 (@bank_tightened fixed_ref 1000) [(31, ABank sample_bank)] (fst edited_accounts).
Proof.
  assert (E : @token_edit fixed_ref emergency_edit 1000 1 admin_group 8 sample_mint [(31, ABank sample_bank)] = Done edited_accounts)
    by (vm_compute; reflexivity).
  destruct (@security_admin_only_tightens fixed_ref fixed_ref_laws emergency_edit 1000 1 admin_group 8 sample_mint
              [(31, ABank sample_bank)] (fst edited_accounts) (snd edited_accounts)) as (_ & _ & Ht).
  - intros v [= <-]. lia.
  - by rewrite <- surjective_pairing.
  - split; [exact E|]. apply Ht. vm_compute. discriminate.
Defined.

(** The security admin makes a market reduce-only. *)
Definition no_market_edit : MarketEditParams :=
  mkMarketEditParams (4, AUnknown) None None None None None None None None None None None None None None None None None None None None
    None None None None None None false None None None None.

#[export] Instance eta_MarketEditParams : Eta MarketEditParams := fun p =>
  mkMarketEditParams (mp_oracle_account p) (mp_oracle_opt p) (mp_oracle_config_opt p) (mp_base_decimals_opt p)
    (mp_maint_base_asset_weight_opt p) (mp_init_base_asset_weight_opt p) (mp_maint_base_liab_weight_opt p)
    (mp_init_base_liab_weight_opt p) (mp_maint_overall_asset_weight_opt p) (mp_init_overall_asset_weight_opt p)
    (mp_base_liquidation_fee_opt p) (mp_maker_fee_opt p) (mp_taker_fee_opt p) (mp_min_funding_opt p) (mp_max_funding_opt p)
    (mp_impact_quantity_opt p) (mp_group_insurance_fund_opt p) (mp_fee_penalty_opt p) (mp_settle_fee_flat_opt p)
    (mp_settle_fee_amount_threshold_opt p) (mp_settle_fee_fraction_low_health_opt p) (mp_stable_price_delay_interval_seconds_opt p)
    (mp_stable_price_delay_growth_limit_opt p) (mp_stable_price_growth_limit_opt p) (mp_settle_pnl_limit_factor_opt p)
    (mp_settle_pnl_limit_window_size_ts_opt p) (mp_reduce_only_opt p) (mp_reset_stable_price p)
    (mp_positive_pnl_liquidation_fee_opt p) (mp_name_opt p) (mp_force_close_opt p) (mp_platform_liquidation_fee_opt p).

Definition new_market_params : CreateMarketParams :=
  mkCreateMarketParams 3 0 [66; 84; 67] (mkOracleConfigParams f_zero None) 6 1 100 (f32_ratio 9 10) (f32_ratio 8 10) (f32_ratio 11 10)
    (f32_ratio 12 10) (f32_ratio 1 1) (f32_ratio 1 1) (f32_ratio 5 100) f_zero (f32_ratio 1 1000) (f32_ratio (-5) 100) (f32_ratio 5 100)
    100 true f_zero f_zero f_zero f_zero (f32_ratio 1 5) 86400 f_zero f_zero.

Definition create_accounts : CreateAccounts := mkCreateAccounts 1 7 (4, AStub (mkStubOracle (fx_int 100) 0 0)) 11 12 13.

Definition testing_group : Group := admin_group <| gr_testing := 1 |>.

Definition created : PerpMarket * Orderbook * EventQueue :=
  match @perp_create_market fixed_ref testing_group create_accounts new_market_params (mkClock 1000 50) with
  | Done r => r | _ => (test_market, mkOrderbook (bookside_zeroed Asks) (bookside_zeroed Asks), queue_zeroed)
  end.

(** A concrete instance: a market with an oracle price of 100. *)
Lemma created_market_wellformed_witness :
  @perp_create_market fixed_ref testing_group create_accounts new_market_params (mkClock 1000 50) = Done created /\
  bs_rep (ob_bids (snd (fst created))) (fun _ => ∅) /\ queue_state_ok (snd created).
Proof.
  assert (E : @perp_create_market fixed_ref testing_group create_accounts new_market_params (mkClock 1000 50) = Done created)
    by (vm_compute; reflexivity).
  destruct (@created_market_wellformed fixed_ref testing_group create_accounts new_market_params (mkClock 1000 50)
              (fst (fst created)) (snd (fst created)) (snd created)) as (_ & _ & Hb & _ & _ & _ & Hq & _).
  - by rewrite <- !surjective_pairing.
  - by split_and!.
Defined.

(** A concrete instance: the created market becomes reduce-only. *)
Lemma security_admin_tightens_market_witness :
  let p := no_market_edit <| mp_reduce_only_opt := Some true |> in
  let m := fst (fst created) in
  exists m', @perp_edit_market fixed_ref p 1000 1 admin_group 8 m = Done m' /\
    exists w r, m' = (m <| pm_init_overall_asset_weight := w |>) <| pm_reduce_only := r |> /\
      (w = pm_init_overall_asset_weight m \/ w = 0) /\ (r = pm_reduce_only m \/ r = 1).
Proof.
  intros p m. exists (m <| pm_reduce_only := 1 |>).
  assert (E : @perp_edit_market fixed_ref p 1000 1 admin_group 8 m = Done (m <| pm_reduce_only := 1 |>)) by (vm_compute; reflexivity).
  split; [exact E|].
  apply (proj2 (@security_admin_tightens_market fixed_ref fixed_ref_laws p 1000 1 admin_group 8 m (m <| pm_reduce_only := 1 |>) E)).
  vm_compute. discriminate.
Defined.

Definition listing_group : Group := (admin_group <| gr_allowed_fast_listings_per_interval := 2 |>) <| gr_fast_listing_admin := 6 |>.

(** A concrete instance: two listings in one week, and one in the next. *)
Lemma fast_listings_limited_witness :
  Z.of_nat (length (in_week 0 [100; 200; 700000])) <= Z.max 0 2 /\
  exists g', list_fast listing_group [100; 200; 700000] = Done g' /\ list_fast listing_group [100; 200; 300] = Fail ERequireGte.
Proof.
  split; [|eexists; split; vm_compute; reflexivity].
  destruct (list_fast listing_group [100; 200; 700000]) as [g'| | |] eqn:E; [|vm_compute in E; discriminate..].
  apply (fast_listings_limited listing_group [100; 200; 700000] g' 0); try done.
  - repeat constructor; lia.
  - repeat constructor; vm_compute; discriminate.
Defined.

Definition register_accounts : RegisterAccounts :=
  mkRegisterAccounts 1 6 22 6 31 255 33 (4, AStub (mkStubOracle (fx_int 100) 0 0)) (0, AUnknown).

(** A concrete instance: a fast listing by the fast listing admin 6. *)
Lemma fast_listing_succeeds_witness :
  exists g' b, @token_register_trustless fixed_ref listing_group register_accounts 5 [66] (mkClock 1000 50) =
    Done (g', b, new_mint_info register_accounts 5 0 1000).
Proof.
  destruct (count_fast_listing listing_group 1000) as [g'| | |] eqn:E; [|vm_compute in E; discriminate..]. exists g'.
  apply (@fast_listing_succeeds fixed_ref fixed_ref_laws listing_group register_accounts 5 [66] (mkClock 1000 50) g').
  - right. reflexivity.
  - vm_compute. reflexivity.
  - vm_compute. discriminate.
  - vm_compute. discriminate.
  - simpl. lia.
  - exact E.
  - reflexivity.
  - intros b Eb. left. vm_compute in Eb. injection Eb as <-. eexists. vm_compute. reflexivity.
Defined.

(** The witness of C25: what that listing gives. *)
Lemma listed_banks_wellformed_witness :
  exists g' b m, @token_register_trustless fixed_ref listing_group register_accounts 5 [66] (mkClock 1000 50) = Done (g', b, m) /\
    @newly_listed fixed_ref register_accounts 5 1000 b m /\ @no_collateral fixed_ref b.
Proof.
  destruct (@token_register_trustless fixed_ref listing_group register_accounts 5 [66] (mkClock 1000 50)) as [[[g' b] m]| | |] eqn:E;
    [|vm_compute in E; discriminate..].
  exists g', b, m. split; [done|].
  exact (proj2 (proj2 (proj2 (proj2 (proj2 (@listed_banks_wellformed fixed_ref fixed_ref_laws listing_group register_accounts 5 [66]
    (mkRegisterParams (mkOracleConfigParams f_zero None) (mkInterestRateParams f_zero f_zero f_zero f_zero f_zero f_zero) f_zero f_zero
       f_zero f_zero f_zero f_zero f_zero 0 f_zero f_zero f_zero 1 0 f_zero f_zero 0 f_zero f_zero f_zero f_zero f_zero false 0 f_zero
       f_zero false f_zero) (mkClock 1000 50)) g' b m E))))).
Defined.

(** A concrete instance: 7 of 10 collected tokens are in the vault. *)
Lemma admin_withdraws_only_fees_witness :
  exists b', @admin_token_withdraw_fees fixed_ref token_ref 1 admin_group 7 (set_bk_collected_fees_native sample_bank (fx_int 10)) 3 7 100 =
    Done (b', 0, 107) /\ fees_paid (fx_int 10) 0 (bk_fees_withdrawn b') 7 100 0 107.
Proof.
  destruct (@admin_token_withdraw_fees fixed_ref token_ref 1 admin_group 7 (set_bk_collected_fees_native sample_bank (fx_int 10)) 3 7 100)
    as [[[b' v] t]| | |] eqn:E; [|vm_compute in E; discriminate..].
  pose proof E as E'. vm_compute in E'. injection E' as Hb Hv Ht. subst v t. clear Hb. exists b'. split; [done|].
  apply (proj1 (@admin_withdraws_only_fees fixed_ref fixed_ref_laws token_ref token_ref_laws 1 admin_group 7 test_market
    (set_bk_collected_fees_native sample_bank (fx_int 10)) 3 7 100 ltac:(lia)) b' 0 107 E).
Defined.
