(* ===== verification/HealthClient.v ===== *)
(** * Health queries of clients

    health/client.rs: what clients ask about the health of an account. [is_liquidatable]
    decides whether an account may be liquidated; the other functions search for the largest
    swap, perp trade or borrow that keeps the health of an account above a target, by trying
    amounts on copies of the health cache.

    The searches work on any function of an amount that may fail, [fun : Z -> outcome Z].
    [scan_right_until_less_than] and [binary_search] run a fixed number of iterations;
    [find_maximum] is a loop and runs with fuel. The system clock is the argument [now_ts]. *)

From stdpp Require Import base numbers option list.
From Stdlib Require Import ZArith Lia SpecFloat.
From S2P Require Import Prelude FixedPoint HealthType TokenPosition OrderTypes Bank MangoAccount HealthCache.

Open Scope Z_scope.

Section client.
Context `{FixedOps}.

(** [I80F48::from_num] of the literals 0.1, 0.5 and 0.99. *)
Definition fx_tenth : outcome Z := fx_from_f64 (f64_div f64_one (f64_of_Z 10)).
Definition fx_half : outcome Z := fx_from_f64 (f64_div f64_one (f64_of_Z 2)).
Definition fx_0_99 : outcome Z := fx_from_f64 (f64_div (f64_of_Z 99) (f64_of_Z 100)).

Definition is_liquidatable (c : HealthCache) : outcome bool :=
  if hc_being_liquidated c then
    h ← health c LiquidationEnd;
    Done (h <? 0)
  else
    h ← health c Maint;
    Done (h <? 0).

(** ** Searching *)

(** [half * (left + right)]. *)
Definition midpoint (half left right : Z) : outcome Z :=
  s ← fx_add left right;
  fx_mul half s.

Fixpoint scan_right_loop (iterations : nat) (current target : Z) (fun_ : Z -> outcome Z) : outcome Z :=
  match iterations with
  | O => Fail error_msg
  | S iterations =>
      value ← fun_ current;
      if value <=? target then Done current
      else
        current ← fx_mul (Z.max current fx_one) (fx_int 2);
        scan_right_loop iterations current target fun_
  end.

Definition scan_right_until_less_than (start target : Z) (fun_ : Z -> outcome Z) : outcome Z :=
  scan_right_loop 20 start target fun_.

Fixpoint binary_search_loop (iterations : nat) (left right right_value target_value target_error min_step : Z)
    (fun_ : Z -> outcome Z) : outcome Z :=
  match iterations with
  | O => Fail error_msg
  | S iterations =>
      d ← fx_sub right left;
      width ← fx_abs d;
      if width <? min_step then Done left
      else
        half ← fx_half;
        new ← midpoint half left right;
        new_value ← fun_ new;
        let error := fx_saturating_sub new_value target_value in
        if (0 <? error) && (error <? target_error) then Done new
        else if xorb (target_value <? new_value) (target_value <? right_value) then
          binary_search_loop iterations new right right_value target_value target_error min_step fun_
        else
          binary_search_loop iterations left new right_value target_value target_error min_step fun_
  end.

Definition binary_search (left left_value right target_value min_step : Z) (fun_ : Z -> outcome Z) : outcome Z :=
  target_error ← fx_tenth;
  right_value ← fun_ right;
  _ ← require (((left_value <=? target_value) && (target_value <=? right_value))
               || ((target_value <=? left_value) && (right_value <=? target_value))) error_msg;
  binary_search_loop 50 left right right_value target_value target_error min_step fun_.

(** The variables of the loop of [find_maximum]: three points and the values at them. *)
Record Bracket := mkBracket {
  br_left : Z;
  br_left_value : Z;
  br_mid : Z;
  br_mid_value : Z;
  br_right : Z;
  br_right_value : Z
}.

(** The body of the loop. *)
Definition find_maximum_step (half : Z) (fun_ : Z -> outcome Z) (s : Bracket) : outcome Bracket :=
  let 'mkBracket left_ left_value mid mid_value right_ right_value := s in
  if mid_value <? left_value then
    _ ← assert_ (right_value <=? mid_value);
    m ← midpoint half left_ mid;
    v ← fun_ m;
    Done (mkBracket left_ left_value m v mid mid_value)
  else if mid_value <=? right_value then
    _ ← assert_ (left_value <=? mid_value);
    m ← midpoint half mid right_;
    v ← fun_ m;
    Done (mkBracket mid mid_value m v right_ right_value)
  else
    leftmid ← midpoint half left_ mid;
    leftmid_value ← fun_ leftmid;
    _ ← assert_ (left_value <=? leftmid_value);
    if mid_value <? leftmid_value then
      Done (mkBracket left_ left_value leftmid leftmid_value mid mid_value)
    else
      rightmid ← midpoint half mid right_;
      rightmid_value ← fun_ rightmid;
      _ ← assert_ (right_value <=? rightmid_value);
      if mid_value <=? rightmid_value then
        Done (mkBracket mid mid_value rightmid rightmid_value right_ right_value)
      else
        Done (mkBracket leftmid leftmid_value mid mid_value rightmid rightmid_value).

Fixpoint find_maximum_loop (fuel : nat) (half min_step : Z) (fun_ : Z -> outcome Z) (s : Bracket) :
    outcome Bracket :=
  match fuel with
  | O => NoFuel
  | S fuel =>
      width ← fx_sub (br_right s) (br_left s);
      if min_step <? width then
        s ← find_maximum_step half fun_ s;
        find_maximum_loop fuel half min_step fun_ s
      else Done s
  end.

(** Each round halves the interval, whose width has at most 128 bits. *)
Definition FIND_MAXIMUM_FUEL : nat := 130.

Definition find_maximum (left right min_step : Z) (fun_ : Z -> outcome Z) : outcome (Z * Z) :=
  _ ← assert_ (left <=? right);
  half ← fx_half;
  mid ← midpoint half left right;
  left_value ← fun_ left;
  right_value ← fun_ right;
  mid_value ← fun_ mid;
  s ← find_maximum_loop FIND_MAXIMUM_FUEL half min_step fun_
        (mkBracket left left_value mid mid_value right right_value);
  if br_mid_value s <? br_left_value s then Done (br_left s, br_left_value s)
  else if br_right_value s <? br_mid_value s then Done (br_mid s, br_mid_value s)
  else Done (br_right s, br_right_value s).

(** The cache, or [None] if the net borrow limit was reached. *)
Definition ignore_net_borrow_limit_errors (maybe_cache : outcome HealthCache) : outcome (option HealthCache) :=
  match maybe_cache with
  | Done c => Done (Some c)
  | Fail e => if is_anchor_error_with_code e BankNetBorrowsLimitReached then Done None else Fail e
  | Panic => Panic
  | NoFuel => NoFuel
  end.

(** [cache.map(target_fn).unwrap_or(I80F48::MIN)]. *)
Definition value_or_min (target_fn : HealthCache -> outcome Z) (cache : option HealthCache) : outcome Z :=
  match cache with
  | Some c => target_fn c
  | None => Done I128_MIN
  end.

(** ** Swaps *)

(** [account.token_position(token_index)]. *)
Definition account_token_position (account : MangoAccount) (token_index : Z) : outcome TokenPosition :=
  '(position, _) ← Account.token_position_and_raw_index account token_index;
  Done position.

Definition cache_after_swap (c : HealthCache) (account : MangoAccount) (source_bank target_bank : Bank)
    (amount price now_ts : Z) : outcome HealthCache :=
  source_position ← account_token_position account (bk_token_index source_bank);
  target_position ← account_token_position account (bk_token_index target_bank);
  target_amount ← fx_mul amount price;
  '(source_bank, source_position, _) ← withdraw_with_fee source_bank source_position amount now_ts;
  '(target_bank, target_position, _) ← deposit target_bank target_position target_amount now_ts;
  negated ← fx_neg amount;
  resulting_cache ← adjust_token_balance c source_bank negated;
  adjust_token_balance resulting_cache target_bank target_amount.

Definition apply_limits_to_swap (account : MangoAccount) (source_bank : Bank) (source_oracle_price : Z)
    (target_bank : Bank) (price source_unlimited : Z) : outcome Z :=
  p ← account_token_position account (bk_token_index source_bank);
  source_pos ← native p source_bank;
  p ← account_token_position account (bk_token_index target_bank);
  target_pos ← native p target_bank;
  remaining ← remaining_net_borrows_quote source_bank source_oracle_price;
  available_net_borrows ← fx_saturating_div remaining source_oracle_price;
  let potential_source := Z.min source_unlimited (fx_saturating_add available_net_borrows (Z.max source_pos 0)) in
  available_deposits ← remaining_deposits_until_limit target_bank;
  let potential_target_unlimited := fx_saturating_mul potential_source price in
  owed ← fx_neg (Z.min target_pos 0);
  let potential_target := Z.min potential_target_unlimited (fx_saturating_add available_deposits owed) in
  limited ← fx_saturating_div potential_target price;
  Done (Z.min potential_source limited).

(** The closures [cache_after_swap] and [fn_value_after_swap]. *)
Definition maybe_cache_after_swap (c : HealthCache) (account : MangoAccount) (source_bank target_bank : Bank)
    (price now_ts amount : Z) : outcome (option HealthCache) :=
  ignore_net_borrow_limit_errors (cache_after_swap c account source_bank target_bank amount price now_ts).

Definition fn_value_after_swap (c : HealthCache) (account : MangoAccount) (source_bank target_bank : Bank)
    (price now_ts : Z) (target_fn : HealthCache -> outcome Z) (amount : Z) : outcome Z :=
  cache ← maybe_cache_after_swap c account source_bank target_bank price now_ts amount;
  value_or_min target_fn cache.

(** The highest slope health can have for large swaps. *)
Definition swap_final_health_slope (source target : TokenInfo) (price : Z) : outcome Z :=
  n ← fx_neg (ti_init_scaled_liab_weight source);
  liab ← fx_mul n (Price.liab (ti_prices source) Init);
  asset ← fx_mul (ti_init_asset_weight target) (Price.asset (ti_prices target) Init);
  asset ← fx_mul asset price;
  fx_add liab asset.

(** The largest amount that the maximum could be at. *)
Definition swap_rightmost (source_balance source_reserved target_balance target_reserved price : Z) : outcome Z :=
  s ← fx_abs source_balance;
  s ← fx_add s source_reserved;
  t ← fx_abs target_balance;
  t ← fx_add t target_reserved;
  t ← fx_div t price;
  Done (Z.max s t).

(** The search to the right of the maximum: the block that computes [amount]. *)
Definition swap_amount_right_of_maximum (c : HealthCache) (account : MangoAccount)
    (source_bank target_bank : Bank) (price min_fn_value now_ts : Z) (target_fn : HealthCache -> outcome Z)
    (final_health_slope amount_for_max_value max_value : Z) : outcome Z :=
  let fn_value := fn_value_after_swap c account source_bank target_bank price now_ts target_fn in
  cache ← maybe_cache_after_swap c account source_bank target_bank price now_ts amount_for_max_value;
  health_at_max_value ← value_or_min (fun c => health c Init) cache;
  if health_at_max_value =? 0 then Done amount_for_max_value
  else if health_at_max_value <? 0 then Done 0
  else
    q ← fx_div health_at_max_value final_health_slope;
    zero_health_estimate ← fx_sub amount_for_max_value q;
    right_bound ← scan_right_until_less_than zero_health_estimate min_fn_value fn_value;
    step ← fx_tenth;
    amount ←
      (if right_bound =? zero_health_estimate then
         binary_search amount_for_max_value max_value right_bound min_fn_value step fn_value
       else
         v ← fn_value zero_health_estimate;
         binary_search zero_health_estimate v right_bound min_fn_value step fn_value);
    _ ← assert_ (0 <=? amount);
    Done amount.

Definition max_swap_source_for_health_fn (c : HealthCache) (account : MangoAccount)
    (source_bank target_bank : Bank) (price min_fn_value : Z) (target_fn : HealthCache -> outcome Z)
    (now_ts : Z) : outcome Z :=
  source_index ← find_token_info_index (hc_token_infos c) (bk_token_index source_bank);
  target_index ← find_token_info_index (hc_token_infos c) (bk_token_index target_bank);
  source ← unwrap (hc_token_infos c !! source_index);
  target ← unwrap (hc_token_infos c !! target_index);
  '(tokens_max_reserved, _) ← compute_serum3_reservations c Init;
  source_reserved ← unwrap (tokens_max_reserved !! source_index);
  target_reserved ← unwrap (tokens_max_reserved !! target_index);
  token_balances ← effective_token_balances c Init;
  source_balance ← unwrap (token_balances !! source_index);
  target_balance ← unwrap (token_balances !! target_index);
  final_health_slope ← swap_final_health_slope source target price;
  if 0 <=? final_health_slope then Done I128_MAX
  else
    rightmost ← swap_rightmost source_balance source_reserved target_balance target_reserved price;
    step ← fx_tenth;
    '(amount_for_max_value, max_value) ←
      find_maximum 0 rightmost step
        (fn_value_after_swap c account source_bank target_bank price now_ts target_fn);
    _ ← assert_ (0 <=? amount_for_max_value);
    if max_value <=? min_fn_value then Done amount_for_max_value
    else
      swap_amount_right_of_maximum c account source_bank target_bank price min_fn_value now_ts target_fn
        final_health_slope amount_for_max_value max_value.

Definition max_swap_source_for_health_ratio_ignoring_limits (c : HealthCache) (account : MangoAccount)
    (source_bank target_bank : Bank) (price min_ratio now_ts : Z) : outcome Z :=
  max_swap_source_for_health_fn c account source_bank target_bank price min_ratio
    (fun c => health_ratio c Init) now_ts.

Definition max_swap_source_for_health_ratio_with_limits (c : HealthCache) (account : MangoAccount)
    (source_bank : Bank) (source_oracle_price : Z) (target_bank : Bank) (price min_ratio now_ts : Z) : outcome Z :=
  source_unlimited ← max_swap_source_for_health_fn c account source_bank target_bank price min_ratio
                       (fun c => health_ratio c Init) now_ts;
  apply_limits_to_swap account source_bank source_oracle_price target_bank price source_unlimited.

(** ** Perp trades *)

Definition perp_direction (side : Side) : Z := match side with Bid => 1 | Ask => -1 end.

(** The closure [cache_after_trade]. *)
Definition cache_after_trade (c : HealthCache) (perp_info_index : nat) (direction base_lot_size price base_lots : Z) :
    outcome HealthCache :=
  info ← unwrap (hc_perp_infos c !! perp_info_index);
  d ← i64 (direction * base_lots);
  lots ← i64 (pi_base_lots info + d);
  dir ← fx_from_int direction;
  n ← fx_from_int base_lots;
  q ← fx_mul dir n;
  q ← fx_mul q base_lot_size;
  q ← fx_mul q price;
  quote ← fx_sub (pi_quote info) q;
  Done (c <| hc_perp_infos := <[perp_info_index := (info <| pi_base_lots := lots |>) <| pi_quote := quote |>]>
                                (hc_perp_infos c) |>).

Definition health_ratio_after_trade (c : HealthCache) (perp_info_index : nat)
    (direction base_lot_size price base_lots : Z) : outcome Z :=
  cache ← cache_after_trade c perp_info_index direction base_lot_size price base_lots;
  health_ratio cache Init.

Definition health_ratio_after_trade_trunc (c : HealthCache) (perp_info_index : nat)
    (direction base_lot_size price base_lots : Z) : outcome Z :=
  r ← fx_round_to_zero base_lots;
  n ← fx_to_i64 r;
  health_ratio_after_trade c perp_info_index direction base_lot_size price n.

(** The start cache with the overall weight and the settle token's asset weights fixed. *)
Definition linear_start_cache (start_cache : HealthCache) (perp_info_index settle_info_index : nat) :
    outcome HealthCache :=
  info ← unwrap (hc_perp_infos start_cache !! perp_info_index);
  settle_info ← unwrap (hc_token_infos start_cache !! settle_info_index);
  Done ((start_cache
    <| hc_perp_infos := <[perp_info_index := info <| pi_init_overall_asset_weight := fx_one |>]>
                          (hc_perp_infos start_cache) |>)
    <| hc_token_infos := <[settle_info_index :=
                            (settle_info <| ti_init_asset_weight := ti_init_liab_weight settle_info |>)
                              <| ti_init_scaled_asset_weight := ti_init_scaled_liab_weight settle_info |>]>
                          (hc_token_infos start_cache) |>).

(** [case1_start - start_health / (final_health_slope * base_lot_size * 0.99) + 1]. *)
Definition perp_zero_health_amount (case1_start start_health final_health_slope base_lot_size : Z) : outcome Z :=
  s ← fx_mul final_health_slope base_lot_size;
  k ← fx_0_99;
  s ← fx_mul s k;
  q ← fx_div start_health s;
  a ← fx_sub case1_start q;
  fx_add a fx_one.

Definition perp_final_health_slope (info : PerpInfo) (direction price : Z) : outcome Z :=
  if direction =? 1 then
    v ← fx_mul (pi_init_base_asset_weight info) (Price.asset (pi_base_prices info) Init);
    fx_sub v price
  else
    n ← fx_neg (pi_init_base_liab_weight info);
    v ← fx_mul n (Price.liab (pi_base_prices info) Init);
    fx_add v price.

(** The part after the slope: [None] is the early [return Ok(0)]. *)
Definition perp_base_lots (c : HealthCache) (perp_info_index settle_info_index : nat)
    (direction base_lot_size price initial_ratio case1_start case1_start_ratio final_health_slope min_ratio : Z) :
    outcome (option Z) :=
  let trunc := health_ratio_after_trade_trunc c perp_info_index direction base_lot_size price in
  case1_start_i80f48 ← fx_from_int case1_start;
  if (initial_ratio <=? min_ratio) && (case1_start_ratio <? min_ratio) then
    Done (Some (if initial_ratio <=? case1_start_ratio then case1_start_i80f48 else 0))
  else if min_ratio <=? case1_start_ratio then
    start_cache ← cache_after_trade c perp_info_index direction base_lot_size price case1_start;
    start_cache ← linear_start_cache start_cache perp_info_index settle_info_index;
    start_health ← health start_cache Init;
    if start_health <=? 0 then Done None
    else
      zero_health_amount ← perp_zero_health_amount case1_start_i80f48 start_health final_health_slope base_lot_size;
      zero_health_ratio ← trunc zero_health_amount;
      _ ← assert_ (zero_health_ratio <=? 0);
      n ← binary_search case1_start_i80f48 case1_start_ratio zero_health_amount min_ratio fx_one trunc;
      Done (Some n)
  else
    n ← binary_search 0 initial_ratio case1_start_i80f48 min_ratio fx_one trunc;
    Done (Some n).

Definition max_perp_for_health_ratio (c : HealthCache) (perp_market_index price : Z) (side : Side)
    (min_ratio : Z) : outcome Z :=
  initial_ratio ← health_ratio c Init;
  if initial_ratio <? 0 then Done 0
  else
    let direction := perp_direction side in
    perp_info_index ← perp_info_index c perp_market_index;
    info ← unwrap (hc_perp_infos c !! perp_info_index);
    base_lot_size ← fx_from_int (pi_base_lot_size info);
    settle_info_index ← token_info_index c (pi_settle_token_index info);
    settle_info ← unwrap (hc_token_infos c !! settle_info_index);
    final_health_slope ← perp_final_health_slope info direction price;
    if 0 <=? final_health_slope then Done I64_MAX
    else
      lwp ← liab_weighted_price settle_info Init;
      final_health_slope ← fx_mul final_health_slope lwp;
      let initial_base_lots := pi_base_lots info in
      let has_case2 := ((0 <? initial_base_lots) && (direction =? -1))
                       || ((initial_base_lots <? 0) && (direction =? 1)) in
      '(case1_start, case1_start_ratio) ←
        (if has_case2 then
           case1_start ← i64 (Z.abs initial_base_lots);
           r ← health_ratio_after_trade c perp_info_index direction base_lot_size price case1_start;
           Done (case1_start, r)
         else Done (0, initial_ratio));
      o ← perp_base_lots c perp_info_index settle_info_index direction base_lot_size price initial_ratio
            case1_start case1_start_ratio final_health_slope min_ratio;
      match o with
      | None => Done 0
      | Some base_lots =>
          r ← fx_round_to_zero base_lots;
          fx_to_i64 r
      end.

(** ** Borrows *)

(** The closure [cache_after_borrow]; [oracle_price] is [token.prices.oracle]. *)
Definition cache_after_borrow (c : HealthCache) (account : MangoAccount) (bank : Bank)
    (oracle_price now_ts amount : Z) : outcome HealthCache :=
  position ← account_token_position account (bk_token_index bank);
  '(bank, position, _) ← withdraw_with_fee bank position amount now_ts;
  _ ← check_net_borrows bank oracle_price;
  negated ← fx_neg amount;
  adjust_token_balance c bank negated.

Definition fn_value_after_borrow (c : HealthCache) (account : MangoAccount) (bank : Bank)
    (oracle_price now_ts : Z) (target_fn : HealthCache -> outcome Z) (amount : Z) : outcome Z :=
  cache ← ignore_net_borrow_limit_errors (cache_after_borrow c account bank oracle_price now_ts amount);
  value_or_min target_fn cache.

Definition max_borrow_for_health_fn (c : HealthCache) (account : MangoAccount) (bank : Bank)
    (min_fn_value : Z) (target_fn : HealthCache -> outcome Z) (now_ts : Z) : outcome Z :=
  v ← target_fn c;
  if v <=? min_fn_value then Done 0
  else
    token_info_index ← find_token_info_index (hc_token_infos c) (bk_token_index bank);
    token ← unwrap (hc_token_infos c !! token_info_index);
    token_balances ← effective_token_balances c Init;
    token_balance ← unwrap (token_balances !! token_info_index);
    h ← health c Init;
    q ← fx_div (Z.max h 0) (ti_init_scaled_liab_weight token);
    limit ← fx_add (Z.max token_balance 0) q;
    if limit <=? 0 then Done 0
    else
      v ← target_fn c;
      binary_search 0 v limit min_fn_value fx_one
        (fn_value_after_borrow c account bank (pr_oracle (ti_prices token)) now_ts target_fn).

Definition max_borrow_for_health_ratio (c : HealthCache) (account : MangoAccount) (bank : Bank)
    (min_ratio now_ts : Z) : outcome Z :=
  max_borrow_for_health_fn c account bank min_ratio (fun c => health_ratio c Init) now_ts.

End client.
