(* ===== verification/ClientContext.v ===== *)
(** * The accounts a client passes

    lib/client/src/context.rs: what clients know about a group, and how they derive from it the
    accounts that an instruction needs for a health computation, in the order that the
    retrievers of health/account_retriever.rs expect. Names of tokens and markets and the
    fields that only other parts of the client read are left out; the chain is a function
    from addresses to the contents of accounts. *)

From stdpp Require Import base numbers option list gmap fin_maps.
From Stdlib Require Import ZArith Lia SpecFloat.
From S2P Require Import Prelude FixedPoint HealthType TokenPosition Nodes Oracle StablePrice Bank BankSpec Group Serum3 PerpMarket PerpPosition MangoAccount HealthCache AccountRetriever RetrieverSpec.

Open Scope Z_scope.

(** ** The context *)

Record TokenContext := mkTokenContext {
  tc_mint : Pubkey;
  tc_oracle : Pubkey;
  tc_banks : list Pubkey          (* [MAX_BANKS] of them, the default key where there is none *)
}.

Definition first_bank (t : TokenContext) : outcome Pubkey := unwrap (tc_banks t !! 0%nat).

(** [TokenContext::banks]. *)
Definition context_banks (t : TokenContext) : list Pubkey :=
  take (default (length (tc_banks t)) (position (fun b => b =? default_key) (tc_banks t))) (tc_banks t).

(** [FallbackOracleContext] and its [keys]. *)
Record FallbackOracleContext := mkFallback { fb_key : Pubkey; fb_quote_key : Pubkey }.

Definition fallback_keys (f : FallbackOracleContext) : list Pubkey := [fb_key f; fb_quote_key f].

Record PerpMarketContext := mkPerpContext {
  pc_settle_token_index : Z;
  pc_address : Pubkey;
  pc_oracle : Pubkey
}.

Record ComputeEstimates := mkEstimates {
  health_cu_per_token : Z;
  health_cu_per_perp : Z;
  health_cu_per_serum : Z;
  cu_per_oracle_fallback : Z
}.

Definition default_estimates : ComputeEstimates := mkEstimates 5000 8000 6000 2000.

Record MangoGroupContext := mkContext {
  cx_tokens : gmap Z TokenContext;
  cx_perp_markets : gmap Z PerpMarketContext;
  cx_compute_estimates : ComputeEstimates
}.

(** [MangoGroupContext::token] and [perp]. *)
Definition context_token (c : MangoGroupContext) (token_index : Z) : outcome TokenContext :=
  unwrap (cx_tokens c !! token_index).

Definition context_perp (c : MangoGroupContext) (perp_market_index : Z) : outcome PerpMarketContext :=
  unwrap (cx_perp_markets c !! perp_market_index).

Definition health_for_counts (e : ComputeEstimates) (tokens perps serums fallbacks : nat) : outcome Z :=
  tokens ← u32 (Z.of_nat tokens);
  perps ← u32 (Z.of_nat perps);
  serums ← u32 (Z.of_nat serums);
  fallbacks ← u32 (Z.of_nat fallbacks);
  t ← u32 (tokens * health_cu_per_token e);
  p ← u32 (perps * health_cu_per_perp e);
  tp ← u32 (t + p);
  s ← u32 (serums * health_cu_per_serum e);
  tps ← u32 (tp + s);
  f ← u32 (fallbacks * cu_per_oracle_fallback e);
  u32 (tps + f).

Definition health_for_account (e : ComputeEstimates) (account : MangoAccount) (num_fallbacks : nat) : outcome Z :=
  health_for_counts e (length (Account.active_token_positions account)) (length (Account.active_perp_positions account))
    (length (Account.active_serum3_orders account)) num_fallbacks.

(** ** Deriving accounts *)

Record AccountMeta := mkMeta {
  meta_pubkey : Pubkey;
  meta_is_writable : bool;
  meta_is_signer : bool
}.

Definition to_account_meta (pubkey : Pubkey) : AccountMeta := mkMeta pubkey false false.

(** [Itertools::unique]: the first occurrences. *)
Fixpoint unique_from (seen : list Z) (l : list Z) : list Z :=
  match l with
  | [] => []
  | x :: l => if bool_decide (x ∈ seen) then unique_from seen l else x :: unique_from (x :: seen) l
  end.

Definition unique (l : list Z) : list Z := unique_from [] l.

(** [slice.contains]. *)
Definition contains (l : list Z) (x : Z) : bool := existsb (fun y => y =? x) l.

(** The keys of the fallback oracles of one token. *)
Definition fallbacks_of (fallback_contexts : gmap Pubkey FallbackOracleContext) (oracle : Pubkey) : list Pubkey :=
  match fallback_contexts !! oracle with Some f => fallback_keys f | None => [] end.

(** The loop over tokens: banks with their flags, oracles and fallbacks. *)
Definition collect_token (c : MangoGroupContext) (writable_banks : list Z)
    (fallback_contexts : gmap Pubkey FallbackOracleContext)
    '((banks, oracles, fallbacks) : list (Pubkey * bool) * list Pubkey * list Pubkey) (token_index : Z) :
    outcome (list (Pubkey * bool) * list Pubkey * list Pubkey) :=
  token ← context_token c token_index;
  b ← first_bank token;
  Done (banks ++ [(b, contains writable_banks token_index)], oracles ++ [tc_oracle token],
        fallbacks ++ fallbacks_of fallback_contexts (tc_oracle token)).

Definition fallback_oracles (fallbacks oracles : list Pubkey) : list Pubkey :=
  List.filter (fun key => negb (contains oracles key) && negb (key =? default_key)) (unique fallbacks).

Definition metas (banks : list (Pubkey * bool)) (oracles perp_markets perp_oracles serum_oos fallbacks : list Pubkey) :
    list AccountMeta :=
  ((fun '(pubkey, is_writable) => mkMeta pubkey is_writable false) <$> banks) ++
  (to_account_meta <$> oracles) ++ (to_account_meta <$> perp_markets) ++ (to_account_meta <$> perp_oracles) ++
  (to_account_meta <$> serum_oos) ++ (to_account_meta <$> fallbacks).

(** The account after the instruction created the positions it needs. *)
Definition affected_account (c : MangoGroupContext) (account : MangoAccount) (affected_tokens writable_banks
    affected_perp_markets : list Z) : outcome MangoAccount :=
  account ← foldM (fun a ti => '(a, _, _) ← Account.ensure_token_position a ti; Done a) account
              (affected_tokens ++ writable_banks);
  foldM (fun a mi =>
           p ← context_perp c mi;
           '(a, _) ← Account.ensure_perp_position a mi (pc_settle_token_index p);
           Done a) account affected_perp_markets.

Definition derive_health_check_remaining_account_metas (c : MangoGroupContext) (account : MangoAccount)
    (affected_tokens writable_banks affected_perp_markets : list Z)
    (fallback_contexts : gmap Pubkey FallbackOracleContext) : outcome (list AccountMeta * Z) :=
  account ← affected_account c account affected_tokens writable_banks affected_perp_markets;
  '(banks, oracles, fallbacks) ←
    foldM (collect_token c writable_banks fallback_contexts) ([], [], [])
      (tp_token_index <$> Account.active_token_positions account);
  let fallbacks := fallback_oracles fallbacks oracles in
  perps ← mapM (context_perp c) (pp_market_index <$> Account.active_perp_positions account);
  cu ← health_for_account (cx_compute_estimates c) account (length fallbacks);
  Done (metas banks oracles (pc_address <$> perps) (pc_oracle <$> perps)
          (s3_open_orders <$> Account.active_serum3_orders account) fallbacks, cu).

Definition token_indexes (a : MangoAccount) : list Z := tp_token_index <$> Account.active_token_positions a.

Definition perp_indexes (a : MangoAccount) : list Z := pp_market_index <$> Account.active_perp_positions a.

Definition derive_health_check_remaining_account_metas_two_accounts (c : MangoGroupContext)
    (account1 account2 : MangoAccount) (affected_tokens writable_banks : list Z)
    (fallback_contexts : gmap Pubkey FallbackOracleContext) : outcome (list AccountMeta * Z) :=
  '(banks, oracles, fallbacks) ←
    foldM (collect_token c writable_banks fallback_contexts) ([], [], [])
      (unique (token_indexes account2 ++ token_indexes account1 ++ affected_tokens));
  let fallbacks := fallback_oracles fallbacks oracles in
  perps ← mapM (context_perp c) (unique (perp_indexes account2 ++ perp_indexes account1));
  let count a := length (unique (token_indexes a ++ affected_tokens)) in
  cu1 ← health_for_counts (cx_compute_estimates c) (count account1) (length (Account.active_perp_positions account1))
          (length (Account.active_serum3_orders account1)) (length fallbacks);
  cu2 ← health_for_counts (cx_compute_estimates c) (count account2) (length (Account.active_perp_positions account2))
          (length (Account.active_serum3_orders account2)) (length fallbacks);
  cu ← u32 (cu1 + cu2);
  Done (metas banks oracles (pc_address <$> perps) (pc_oracle <$> perps)
          ((s3_open_orders <$> Account.active_serum3_orders account2) ++
           (s3_open_orders <$> Account.active_serum3_orders account1)) fallbacks, cu).

(** ** What the program makes of the derived accounts *)

(** The accounts that the program sees. *)
Definition loaded (chain : Pubkey -> AccountData) (ms : list AccountMeta) : list AccountInfo :=
  (fun m => (meta_pubkey m, chain (meta_pubkey m))) <$> ms.

(** What the client knows about the tokens and perp markets of an account is true on chain. *)
Record context_true (c : MangoGroupContext) (chain : Pubkey -> AccountData) (account : MangoAccount) : Prop := {
  ct_token t tc k : t ∈ Account.active_token_positions account ->
    cx_tokens c !! tp_token_index t = Some tc -> tc_banks tc !! 0%nat = Some k ->
    exists b, chain k = ABank b /\ bk_token_index b = tp_token_index t /\
      bk_group b = af_group (ma_fixed account) /\ bk_oracle b = tc_oracle tc;
  ct_perp p pc : p ∈ Account.active_perp_positions account -> cx_perp_markets c !! pp_market_index p = Some pc ->
    exists m, chain (pc_address pc) = APerpMarket m /\ pm_perp_market_index m = pp_market_index p /\
      pm_group m = af_group (ma_fixed account) /\ pm_oracle m = pc_oracle pc
}.

(** A successful [mapM] applied its function to every element. *)
Lemma mapM_Done {A B} (f : A -> outcome B) l ks : mapM f l = Done ks -> Forall2 (fun x k => f x = Done k) l ks.
Proof.
  revert ks. induction l as [|x l IH]; simpl; intros ks E; [injection E as <-; constructor|].
  apply bind_Done_inv in E as (k & Ek & E). apply bind_Done_inv in E as (ks' & Eks & E). injection E as <-.
  constructor; auto.
Qed.

(** What the loop over tokens collects: for every token its first bank and its oracle. *)
Definition collected (c : MangoGroupContext) (writable_banks : list Z) (ti : Z) (e : (Pubkey * bool) * Pubkey) : Prop :=
  exists tc, cx_tokens c !! ti = Some tc /\ tc_banks tc !! 0%nat = Some (fst (fst e)) /\
    snd (fst e) = contains writable_banks ti /\ snd e = tc_oracle tc.

Lemma collect_tokens c w fbs l : forall B O F B' O' F',
  foldM (collect_token c w fbs) (B, O, F) l = Done (B', O', F') ->
  exists es, Forall2 (collected c w) l es /\ B' = B ++ es.*1 /\ O' = O ++ es.*2.
Proof.
  induction l as [|ti l IH]; simpl; intros B O F B' O' F' E.
  - injection E as <- <- <-. exists []. by rewrite !app_nil_r.
  - apply bind_Done_inv in E as ([[B1 O1] F1] & E1 & E). apply bind_Done_inv in E1 as (tc & Et & E1).
    apply bind_Done_inv in E1 as (k & Ek & E1). apply unwrap_inv in Et, Ek. injection E1 as <- <- <-.
    apply IH in E as (es & Hes & -> & ->). exists (((k, contains w ti), tc_oracle tc) :: es).
    rewrite <- !app_assoc. split_and!; try done. constructor; [|done]. by exists tc.
Qed.

(** An element of one block of a list of blocks. *)
Lemma lookup_block {A} (pre l post : list A) n i x :
  length pre = n -> l !! i = Some x -> (pre ++ l ++ post) !! (n + i)%nat = Some x.
Proof.
  intros <- L. rewrite lookup_app_r by lia. replace (length pre + i - length pre)%nat with i by lia.
  by rewrite lookup_app_l by (by eapply lookup_lt_Some).
Qed.

Lemma mapM_total {A B} (f : A -> outcome B) l :
  (forall i x, l !! i = Some x -> exists y, f x = Done y) -> exists ks, mapM f l = Done ks.
Proof.
  induction l as [|x l IH]; intros Hf; simpl; [by eexists|].
  destruct (Hf 0%nat x eq_refl) as [y ->]. destruct IH as [ks ->]; [|by eexists].
  intros i z. apply (Hf (S i)).
Qed.

Section derived.
Context (c : MangoGroupContext) (chain : Pubkey -> AccountData) (account : MangoAccount) (writable_banks : list Z)
  (es : list ((Pubkey * bool) * Pubkey)) (perps : list PerpMarketContext) (fallbacks : list Pubkey).
Hypothesis Htrue : context_true c chain account.
Hypothesis Htokens : Forall2 (collected c writable_banks) (tp_token_index <$> Account.active_token_positions account) es.
Hypothesis Hperps : Forall2 (fun mi p => context_perp c mi = Done p)
  (pp_market_index <$> Account.active_perp_positions account) perps.

Let ms : list AccountMeta :=
  metas es.*1 es.*2 (pc_address <$> perps) (pc_oracle <$> perps)
    (s3_open_orders <$> Account.active_serum3_orders account) fallbacks.
Let nb : nat := length (Account.active_token_positions account).
Let np : nat := length (Account.active_perp_positions account).

Lemma n_collected : length es = nb.
Proof. rewrite <- (Forall2_length _ _ _ Htokens), length_fmap. done. Qed.

Lemma n_perps : length perps = np.
Proof. rewrite <- (Forall2_length _ _ _ Hperps), length_fmap. done. Qed.

Lemma loaded_at i m : ms !! i = Some m -> loaded chain ms !! i = Some (meta_pubkey m, chain (meta_pubkey m)).
Proof. intros L. unfold loaded. by rewrite list_lookup_fmap, L. Qed.

(** The bank of a token position and its oracle. *)
Lemma token_at i t : Account.active_token_positions account !! i = Some t ->
  exists k b, loaded chain ms !! i = Some (k, ABank b) /\ bk_token_index b = tp_token_index t /\
    bk_group b = af_group (ma_fixed account) /\
    fst <$> loaded chain ms !! (nb + i)%nat = Some (bk_oracle b) /\
    meta_is_writable <$> ms !! i = Some (contains writable_banks (tp_token_index t)).
Proof.
  intros L. destruct (Forall2_lookup_l _ _ _ i (tp_token_index t) Htokens) as (e & Le & tc & Htc & Hk & Hw & Ho);
    [by rewrite list_lookup_fmap, L|].
  destruct (ct_token _ _ _ Htrue t tc (fst (fst e))) as (b & Hb & Hi & Hg & Hor); [by eapply list_elem_of_lookup_2|done|done|].
  assert (L1 : ms !! i = Some (mkMeta (fst (fst e)) (snd (fst e)) false)).
  { apply (lookup_block [] _ _ 0%nat i); [done|]. rewrite !list_lookup_fmap, Le. by destruct e as [[]]. }
  assert (L2 : ms !! (nb + i)%nat = Some (to_account_meta (snd e))).
  { apply lookup_block; [by rewrite !length_fmap, n_collected|]. by rewrite !list_lookup_fmap, Le. }
  exists (fst (fst e)), b. rewrite (loaded_at _ _ L1), (loaded_at _ _ L2), L1. simpl. rewrite Hb, Hor, Ho, Hw. done.
Qed.

(** The market of a perp position and its oracle. *)
Lemma perp_at i p : Account.active_perp_positions account !! i = Some p ->
  exists k m, loaded chain ms !! (nb * 2 + i)%nat = Some (k, APerpMarket m) /\ pm_perp_market_index m = pp_market_index p /\
    pm_group m = af_group (ma_fixed account) /\
    fst <$> loaded chain ms !! (nb * 2 + np + i)%nat = Some (pm_oracle m).
Proof.
  intros L. destruct (Forall2_lookup_l _ _ _ i (pp_market_index p) Hperps) as (pc & Lp & Hpc);
    [by rewrite list_lookup_fmap, L|]. apply unwrap_inv in Hpc.
  destruct (ct_perp _ _ _ Htrue p pc) as (m & Hm & Hi & Hg & Hor); [by eapply list_elem_of_lookup_2|done|].
  assert (L1 : ms !! (nb * 2 + i)%nat = Some (to_account_meta (pc_address pc))).
  { unfold ms, metas. rewrite app_assoc. apply lookup_block; [|by rewrite !list_lookup_fmap, Lp].
    rewrite length_app, !length_fmap, n_collected. lia. }
  assert (L2 : ms !! (nb * 2 + np + i)%nat = Some (to_account_meta (pc_oracle pc))).
  { unfold ms, metas. rewrite 2!app_assoc. apply lookup_block; [|by rewrite !list_lookup_fmap, Lp].
    rewrite !length_app, !length_fmap, n_collected, n_perps. lia. }
  exists (pc_address pc), m. rewrite (loaded_at _ _ L1), (loaded_at _ _ L2). simpl. by rewrite Hm, Hor.
Qed.

(** The open orders account of a spot market. *)
Lemma serum_at i s : Account.active_serum3_orders account !! i = Some s ->
  fst <$> loaded chain ms !! (nb * 2 + np * 2 + i)%nat = Some (s3_open_orders s).
Proof.
  intros L.
  assert (L1 : ms !! (nb * 2 + np * 2 + i)%nat = Some (to_account_meta (s3_open_orders s))).
  { unfold ms, metas. rewrite 3!app_assoc. apply lookup_block; [|by rewrite !list_lookup_fmap, L].
    rewrite !length_app, !length_fmap, n_collected, n_perps. lia. }
  by rewrite (loaded_at _ _ L1).
Qed.

Lemma n_metas : length ms = (nb * 2 + np * 2 + length (Account.active_serum3_orders account) + length fallbacks)%nat.
Proof. unfold ms, metas. rewrite !length_app, !length_fmap, n_collected, n_perps. lia. Qed.

(** The retriever accepts the accounts. *)
Lemma retriever_accepts slot : exists r,
  new_fixed_order_account_retriever (loaded chain ms) account slot = Done r /\ fo_ais r = loaded chain ms /\
  fo_n_banks r = nb /\ fo_n_perps r = np /\ fo_begin_perp r = (nb * 2)%nat /\ fo_begin_serum3 r = (nb * 2 + np * 2)%nat.
Proof.
  assert (Hlen : length (loaded chain ms) = length ms) by (unfold loaded; by rewrite length_fmap).
  pose proof n_metas as Hn.
  destruct (mapM_total load_bank (take nb (loaded chain ms))) as [bs Ebs].
  { intros i ai L. apply lookup_take_Some in L as [L Hi].
    destruct (lookup_lt_is_Some_2 (Account.active_token_positions account) i Hi) as [t Lt].
    destruct (token_at i t Lt) as (k & b & Lb & _). pose proof (eq_trans (eq_sym L) Lb) as [= ->]. by exists b. }
  unfold new_fixed_order_account_retriever, new_fixed_order_account_retriever_inner. fold nb np.
  rewrite (proj2 (Nat.leb_le nb (length (loaded chain ms)))) by lia. unfold assert_. run. rewrite Ebs. run.
  rewrite (proj2 (Nat.leb_le _ (length (loaded chain ms)))) by lia. unfold require. run.
  eexists. split; [done|]. done.
Qed.

End derived.

(** C32: the accounts a client derives are the ones the program expects. If what the client knows
    about the tokens and perp markets of the account is true, the retriever of the program
    accepts the derived list, fallback oracles included, for the account with the positions
    that the instruction creates; at the place of every token position it finds a bank of
    that token and of the group, writable if the client asked for it, and the oracle of that
    bank at the place of its oracle; likewise for perp markets and open orders. *)
Theorem derived_accounts_accepted c chain account affected_tokens writable_banks affected_perp_markets
    fallback_contexts account' ms cu slot :
  affected_account c account affected_tokens writable_banks affected_perp_markets = Done account' ->
  context_true c chain account' ->
  derive_health_check_remaining_account_metas c account affected_tokens writable_banks affected_perp_markets
    fallback_contexts = Done (ms, cu) ->
  exists r, new_fixed_order_account_retriever (loaded chain ms) account' slot = Done r /\
    (forall i t, Account.active_token_positions account' !! i = Some t ->
     exists k b, fo_ais r !! i = Some (k, ABank b) /\ bk_token_index b = tp_token_index t /\
       bk_group b = af_group (ma_fixed account') /\ fst <$> fo_ais r !! (fo_n_banks r + i)%nat = Some (bk_oracle b) /\
       meta_is_writable <$> ms !! i = Some (contains writable_banks (tp_token_index t))) /\
    (forall i p, Account.active_perp_positions account' !! i = Some p ->
     exists k m, fo_ais r !! (fo_begin_perp r + i)%nat = Some (k, APerpMarket m) /\
       pm_perp_market_index m = pp_market_index p /\ pm_group m = af_group (ma_fixed account') /\
       fst <$> fo_ais r !! (fo_begin_perp r + fo_n_perps r + i)%nat = Some (pm_oracle m)) /\
    (forall i s, Account.active_serum3_orders account' !! i = Some s ->
     fst <$> fo_ais r !! (fo_begin_serum3 r + i)%nat = Some (s3_open_orders s)).
Proof.
  intros Ea Ht E. unfold derive_health_check_remaining_account_metas in E. rewrite Ea in E. run_in E.
  apply bind_Done_inv in E as ([[B O] F] & Ec & E). apply collect_tokens in Ec as (es & Hes & -> & ->). simpl in E.
  apply bind_Done_inv in E as (ps & Eps & E). apply mapM_Done in Eps.
  apply bind_Done_inv in E as (cu' & _ & E). injection E as <- <-.
  destruct (retriever_accepts c chain account' writable_banks es ps (fallback_oracles F es.*2) Ht Hes Eps slot)
    as (r & Er & Hais & Hnb & Hnp & Hbp & Hbs).
  exists r. rewrite Hais, Hnb, Hnp, Hbp, Hbs. split_and!; [done| | |].
  - by apply token_at with (c := c).
  - by apply perp_at with (c := c) (writable_banks := writable_banks).
  - by apply serum_at with (c := c) (writable_banks := writable_banks).
Qed.

(** ** A concrete client

    The account of [health_account] and what a client knows about its token and market; token
    0 has a fallback oracle. *)
Definition sample_context : MangoGroupContext :=
  mkContext (<[bk_token_index sample_bank := mkTokenContext 2 (bk_oracle sample_bank) [20; 0]]> ∅)
    (<[9 := mkPerpContext 0 21 (pm_oracle health_market)]> ∅) default_estimates.

Definition sample_chain (k : Pubkey) : AccountData :=
  if k =? 20 then ABank sample_bank else if k =? 21 then APerpMarket health_market else AOther.

Definition sample_fallbacks : gmap Pubkey FallbackOracleContext := <[bk_oracle sample_bank := mkFallback 77 default_key]> ∅.

(** The list: bank, oracle, market, its oracle and the fallback oracle. *)
Example sample_metas :
  derive_health_check_remaining_account_metas sample_context health_account [] [0] [] sample_fallbacks =
    Done ([mkMeta 20 true false; mkMeta (bk_oracle sample_bank) false false; mkMeta 21 false false;
           mkMeta (pm_oracle health_market) false false; mkMeta 77 false false], 15000).
Proof. vm_compute. reflexivity. Qed.

Lemma sample_context_true : context_true sample_context sample_chain health_account.
Proof.
  split.
  - intros t tc k Ht. unfold Account.active_token_positions in Ht. simpl in Ht. apply list_elem_of_singleton in Ht as ->.
    unfold sample_context. simpl. rewrite lookup_insert_eq. intros [= <-] [= <-]. by exists sample_bank.
  - intros p pc Hp. unfold Account.active_perp_positions in Hp. simpl in Hp. apply list_elem_of_singleton in Hp as ->.
    unfold sample_context. simpl. rewrite lookup_insert_eq. intros [= <-]. by exists health_market.
Qed.

(** The witness of C32 of [derived_accounts_accepted]. *)
Lemma derived_accounts_accepted_witness :
  exists ms cu r, derive_health_check_remaining_account_metas sample_context health_account [] [0] [] sample_fallbacks =
      Done (ms, cu) /\
    new_fixed_order_account_retriever (loaded sample_chain ms) health_account 50 = Done r /\
    forall i t, Account.active_token_positions health_account !! i = Some t ->
      exists k b, fo_ais r !! i = Some (k, ABank b) /\ bk_token_index b = tp_token_index t.
Proof.
  destruct (derive_health_check_remaining_account_metas sample_context health_account [] [0] [] sample_fallbacks)
    as [[ms cu]| | |] eqn:E; [|vm_compute in E; discriminate E..].
  destruct (derived_accounts_accepted sample_context sample_chain health_account [] [0] [] sample_fallbacks health_account
    ms cu 50) as (r & Er & Ht & _).
  - vm_compute. reflexivity.
  - exact sample_context_true.
  - exact E.
  - exists ms, cu, r. refine (conj eq_refl (conj Er _)). intros i t L.
    destruct (Ht i t L) as (k & b & H1 & H2 & _). exists k, b. exact (conj H1 H2).
Defined.
