(* ===== verification/ClientSupport.v ===== *)
(** * Error tracking and retries of the services

    lib/client/src/error_tracking.rs: services remember which accounts caused errors and skip
    them for a while; lib/services-mango-lib/src/retry_counter.rs: an operation is repeated a
    bounded number of times. Instants and durations are nanoseconds, the clock is an argument,
    logging is left out. *)

From stdpp Require Import base numbers option list gmap fin_maps strings.
From Stdlib Require Import ZArith Lia.
From S2P Require Import Prelude.

Open Scope Z_scope.

(** ** Error tracking *)

Module Tracking.
Section tracking.
Context {Key ErrorType : Type} `{Countable Key} `{Countable ErrorType}.

Record ErrorState := mkErrorState {
  errors : list string;
  count : Z;
  last_at : Z
}.

Record ErrorTypeState := mkErrorTypeState {
  state_by_key : gmap Key ErrorState;
  type_skip_threshold : option Z;
  type_skip_duration : option Z
}.

Definition default_type_state : ErrorTypeState := mkErrorTypeState ∅ None None.

Record ErrorTracking := mkErrorTracking {
  errors_by_type : gmap ErrorType ErrorTypeState;
  skip_threshold : Z;
  skip_duration : Z;
  unique_messages_to_keep : nat;
  keep_duration : Z;
  last_log : Z;
  log_interval : Z
}.

Definition set_errors_by_type (t : ErrorTracking) (m : gmap ErrorType ErrorTypeState) : ErrorTracking :=
  mkErrorTracking m (skip_threshold t) (skip_duration t) (unique_messages_to_keep t) (keep_duration t)
    (last_log t) (log_interval t).

Definition set_last_log (t : ErrorTracking) (now : Z) : ErrorTracking :=
  mkErrorTracking (errors_by_type t) (skip_threshold t) (skip_duration t) (unique_messages_to_keep t) (keep_duration t)
    now (log_interval t).

Definition set_state_by_key (s : ErrorTypeState) (m : gmap Key ErrorState) : ErrorTypeState :=
  mkErrorTypeState m (type_skip_threshold s) (type_skip_duration s).

(** [Instant::duration_since], zero for a later instant. *)
Definition duration_since (now earlier : Z) : Z := Z.max 0 (now - earlier).

(** [ErrorTrackingBuilder::skip_threshold_for_type], on the map that the builder holds. *)
Definition skip_threshold_for_type (m : gmap ErrorType ErrorTypeState) (error_type : ErrorType) (threshold : Z) :
    gmap ErrorType ErrorTypeState :=
  let s := default default_type_state (m !! error_type) in
  <[error_type := mkErrorTypeState (state_by_key s) (Some threshold) (type_skip_duration s)]> m.

Definition should_skip (t : ErrorTracking) (state : ErrorState) (error_type_state : ErrorTypeState) (now : Z) : bool :=
  let threshold := default (skip_threshold t) (type_skip_threshold error_type_state) in
  let duration := default (skip_duration t) (type_skip_duration error_type_state) in
  (threshold <=? count state) && (duration_since now (last_at state) <? duration).

Definition had_too_many_errors (t : ErrorTracking) (error_type : ErrorType) (key : Key) (now : Z) : option ErrorState :=
  error_type_state ← errors_by_type t !! error_type;
  state ← state_by_key error_type_state !! key;
  if should_skip t state error_type_state now then Some state else None.

(** The message is moved to the end, and the first one dropped if there are too many. *)
Definition push_message (keep : nat) (msgs : list string) (message : string) : list string :=
  let msgs := match position (fun m => bool_decide (m = message)) msgs with
              | Some pos => delete pos msgs
              | None => msgs
              end in
  let msgs := msgs ++ [message] in
  if (keep <? length msgs)%nat then drop 1 msgs else msgs.

Definition record (t : ErrorTracking) (error_type : ErrorType) (key : Key) (message : string) (now : Z) :
    outcome ErrorTracking :=
  let ts := default default_type_state (errors_by_type t !! error_type) in
  let state := default (mkErrorState [] 0 now) (state_by_key ts !! key) in
  n ← u64 (count state + 1);
  let state := mkErrorState (push_message (unique_messages_to_keep t) (errors state) message) n now in
  Done (set_errors_by_type t (<[error_type := set_state_by_key ts (<[key := state]> (state_by_key ts))]> (errors_by_type t))).

Definition clear (t : ErrorTracking) (error_type : ErrorType) (key : Key) : ErrorTracking :=
  match errors_by_type t !! error_type with
  | Some ts => set_errors_by_type t (<[error_type := set_state_by_key ts (delete key (state_by_key ts))]> (errors_by_type t))
  | None => t
  end.

Definition wipe_old (t : ErrorTracking) (now : Z) : ErrorTracking :=
  set_errors_by_type t
    ((fun ts => set_state_by_key ts
        (filter (fun '(_, state) => duration_since now (last_at state) < keep_duration t) (state_by_key ts)))
     <$> errors_by_type t).

Definition update (t : ErrorTracking) (now : Z) : ErrorTracking :=
  if duration_since now (last_log t) <? log_interval t then t
  else wipe_old (set_last_log t now) now.

(** *** Properties *)

(** The state of a key, and what is recorded about it. *)
Definition state_of (t : ErrorTracking) (error_type : ErrorType) (key : Key) : option ErrorState :=
  ts ← errors_by_type t !! error_type; state_by_key ts !! key.

(** Kept messages are distinct and not too many. *)
Definition messages_ok (t : ErrorTracking) : Prop :=
  forall ty k s, state_of t ty k = Some s -> NoDup (errors s) /\ (length (errors s) <= unique_messages_to_keep t)%nat.

Lemma push_message_ok keep msgs m :
  NoDup msgs -> (length msgs <= keep)%nat ->
  NoDup (push_message keep msgs m) /\ (length (push_message keep msgs m) <= keep)%nat /\
  ((0 < keep)%nat -> last (push_message keep msgs m) = Some m).
Proof.
  intros Hn Hl. unfold push_message.
  assert (exists l, NoDup l /\ m ∉ l /\ (length l <= length msgs)%nat /\
    match position (fun m0 => bool_decide (m0 = m)) msgs with Some pos => delete pos msgs | None => msgs end = l)
    as (l & Hd & Hm & Hlen & ->).
  { eexists. split_and!; [..|reflexivity]; destruct (position _ msgs) as [i|] eqn:P.
    - apply (sublist_NoDup _ msgs); [done|apply sublist_delete].
    - done.
    - apply position_Some in P as [(x & Lx & Hx) _]. apply bool_decide_eq_true in Hx as ->.
      intros Hin. apply list_elem_of_lookup in Hin as [j Lj]. rewrite list_lookup_delete in Lj.
      case_decide; [apply (NoDup_lookup _ _ _ _ Hn Lj) in Lx; lia|apply (NoDup_lookup _ _ _ _ Hn Lj) in Lx; lia].
    - rewrite position_None in P. intros Hin. apply list_elem_of_lookup in Hin as [j Lj]. specialize (P j m Lj).
      by apply bool_decide_eq_false in P.
    - apply position_lookup in P as (x & Lx & _). rewrite length_delete by eauto. lia.
    - done. }
  assert (NoDup (l ++ [m])) by (apply NoDup_app; split_and!; [done|set_solver|apply NoDup_singleton]).
  destruct (Nat.ltb_spec keep (length (l ++ [m]))) as [L|L]; rewrite length_app in L; simpl in L.
  - split; [apply (sublist_NoDup _ (l ++ [m])); [done|apply sublist_drop]|]. rewrite length_drop, length_app. simpl. split; [lia|]. intros Hk.
    destruct l as [|x l]; [simpl in *; lia|].
    change (drop 1 ((x :: l) ++ [m])) with (l ++ [m]). apply last_snoc.
  - rewrite length_app. simpl. split_and!; [done|lia|]. intros _. apply last_snoc.
Qed.

Lemma state_of_insert t ty k ts s ty' k' :
  default default_type_state (errors_by_type t !! ty) = ts ->
  state_of (set_errors_by_type t (<[ty := set_state_by_key ts (<[k := s]> (state_by_key ts))]> (errors_by_type t))) ty' k' =
  if decide (ty' = ty /\ k' = k) then Some s else state_of t ty' k'.
Proof.
  intros <-. unfold state_of. simpl. destruct (decide (ty' = ty)) as [->|Ht].
  - rewrite lookup_insert_eq. simpl. destruct (decide (k' = k)) as [->|Hk].
    + rewrite lookup_insert_eq, decide_True by done. done.
    + rewrite lookup_insert_ne by done. rewrite decide_False by tauto. destruct (errors_by_type t !! ty); [done|].
      simpl. by rewrite lookup_empty.
  - rewrite lookup_insert_ne by done. by rewrite decide_False by tauto.
Qed.

(** What [record] does to the states. *)
Lemma record_states t ty k m now t' :
  record t ty k m now = Done t' -> forall ty' k',
  state_of t' ty' k' =
    if decide (ty' = ty /\ k' = k) then
      let s := default (mkErrorState [] 0 now) (state_of t ty k) in
      Some (mkErrorState (push_message (unique_messages_to_keep t) (errors s) m) (count s + 1) now)
    else state_of t ty' k'.
Proof.
  intros E ty' k'. unfold record in E. apply bind_Done_inv in E as (n & En & E). apply u64_inv in En as [-> _].
  injection E as <-. rewrite state_of_insert by done. unfold state_of.
  destruct (errors_by_type t !! ty) as [ts|]; [done|]. simpl. by rewrite lookup_empty.
Qed.

Lemma clear_states t ty k ty' k' :
  state_of (clear t ty k) ty' k' = if decide (ty' = ty /\ k' = k) then None else state_of t ty' k'.
Proof.
  unfold clear, state_of. destruct (errors_by_type t !! ty) as [ts|] eqn:E; simpl.
  - destruct (decide (ty' = ty)) as [->|Ht]; [rewrite lookup_insert_eq, E; simpl
      |rewrite lookup_insert_ne by done; by rewrite decide_False by tauto].
    destruct (decide (k' = k)) as [->|Hk]; [by rewrite lookup_delete_eq, decide_True|].
    rewrite lookup_delete_ne by done. by rewrite decide_False by tauto.
  - destruct (decide (ty' = ty /\ k' = k)) as [[-> ->]|]; [by rewrite E|done].
Qed.

Lemma wipe_old_states t now ty k s : state_of (wipe_old t now) ty k = Some s -> state_of t ty k = Some s.
Proof.
  unfold state_of, wipe_old. simpl. rewrite lookup_fmap. destruct (errors_by_type t !! ty); [|done]. simpl.
  intros E. by apply map_lookup_filter_Some in E as [E _].
Qed.

(** The steps of a service that uses a tracker. *)
Inductive step : ErrorTracking -> ErrorTracking -> Prop :=
| step_record t ty k m now t' : record t ty k m now = Done t' -> step t t'
| step_clear t ty k : step t (clear t ty k)
| step_update t now : step t (update t now).

(** Error tracking stays small and its messages distinct: whatever errors are recorded, cleared
    and wiped, the messages kept for a key are pairwise different and at most as many as
    configured. *)
Theorem messages_bounded t t' : rtc step t t' -> messages_ok t -> messages_ok t'.
Proof.
  induction 1 as [|t t1 t' S _ IH]; [done|]. intros Hok. apply IH. clear IH.
  destruct S as [t ty k m now t1 E|t ty k|t now]; intros ty' k' s Hs.
  - assert (Hk : unique_messages_to_keep t1 = unique_messages_to_keep t).
    { unfold record in E. apply bind_Done_inv in E as (? & _ & E). by injection E as <-. }
    rewrite (record_states _ _ _ _ _ _ E) in Hs. rewrite Hk.
    case_decide as D; [|by apply (Hok ty' k')]. injection Hs as <-. simpl.
    destruct (state_of t ty k) as [s0|] eqn:Es; simpl.
    + destruct (Hok _ _ _ Es) as [H1 H2]. destruct (push_message_ok _ _ m H1 H2) as (? & ? & _). done.
    + destruct (push_message_ok (unique_messages_to_keep t) [] m (NoDup_nil_2) (Nat.le_0_l _)) as (? & ? & _). done.
  - assert (unique_messages_to_keep (clear t ty k) = unique_messages_to_keep t) as ->
      by (unfold clear; by destruct (errors_by_type t !! ty)).
    rewrite clear_states in Hs. case_decide; [done|]. by apply (Hok ty' k').
  - unfold update in *. destruct (_ <? _); [by apply (Hok ty' k')|]. apply wipe_old_states in Hs. by apply (Hok ty' k').
Qed.

(** Errors of one kind for one key at the given times. *)
Definition records (t : ErrorTracking) (ty : ErrorType) (k : Key) (l : list (string * Z)) : outcome ErrorTracking :=
  foldM (fun t '(m, now) => record t ty k m now) t l.

Lemma records_state ty k l : forall t t',
  records t ty k l = Done t' -> l <> [] ->
  exists s, state_of t' ty k = Some s /\
    count s = default 0 (count <$> state_of t ty k) + Z.of_nat (length l) /\ last l.*2 = Some (last_at s).
Proof.
  induction l as [|[m now] l IH]; intros t t' E Hl; [done|]. simpl in E.
  apply bind_Done_inv in E as (t1 & E1 & E). pose proof (record_states _ _ _ _ _ _ E1 ty k) as S1.
  rewrite decide_True in S1 by done. destruct l as [|x l].
  - injection E as <-. eexists. split; [exact S1|]. simpl. split; [|done]. by destruct (state_of t ty k).
  - destruct (IH _ _ E) as (s & Es & Hc & Ha); [done|]. exists s. split; [done|]. rewrite S1 in Hc. simpl in Hc.
    split; [|exact Ha]. rewrite Hc. simpl. destruct (state_of t ty k); simpl; lia.
Qed.

Lemma records_config ty k l : forall t t', records t ty k l = Done t' ->
  skip_threshold t' = skip_threshold t /\ skip_duration t' = skip_duration t /\
  default default_type_state (errors_by_type t' !! ty) =
    set_state_by_key (default default_type_state (errors_by_type t !! ty))
      (state_by_key (default default_type_state (errors_by_type t' !! ty))).
Proof.
  induction l as [|[m now] l IH]; intros t t' E; simpl in E.
  - injection E as <-. split_and!; [done..|]. by destruct (default _ _).
  - apply bind_Done_inv in E as (t1 & E1 & E). apply IH in E as (-> & -> & Hd). rewrite Hd.
    unfold record in E1. apply bind_Done_inv in E1 as (n & _ & E1). injection E1 as <-. simpl.
    rewrite lookup_insert_eq. done.
Qed.

(** A key is skipped exactly after too many recent errors. When a number of errors of one type
    was recorded for a key that had none, the key counts as having too many errors if and
    only if that number reached the threshold of the type and the last error is more recent
    than its skip duration. *)
Theorem skipped_after_threshold t ty k l t' now :
  records t ty k l = Done t' -> l <> [] -> state_of t ty k = None ->
  let ts := default default_type_state (errors_by_type t !! ty) in
  is_Some (had_too_many_errors t' ty k now) <->
  default (skip_threshold t) (type_skip_threshold ts) <= Z.of_nat (length l) /\
  exists last_error, last l.*2 = Some last_error /\
    duration_since now last_error < default (skip_duration t) (type_skip_duration ts).
Proof.
  intros E Hl Hn ts. destruct (records_state _ _ _ _ _ E Hl) as (s & Es & Hc & Ha).
  destruct (records_config _ _ _ _ _ E) as (H1 & H2 & H3). rewrite Hn in Hc. simpl in Hc.
  unfold had_too_many_errors, state_of in *. destruct (errors_by_type t' !! ty) as [ts'|]; [|done]. simpl in *.
  rewrite Es. simpl. unfold should_skip. rewrite H1, H2, H3. simpl. fold ts.
  destruct (_ && _) eqn:B; bool_to_prop.
  - split; [|eauto]. intros _. split; [lia|]. eauto.
  - split; [by intros []|]. intros [? (le & Hle & Hd)]. apply andb_false_iff in B. rewrite Ha in Hle. injection Hle as <-.
    destruct B; bool_to_prop; lia.
Qed.

End tracking.
End Tracking.

(** ** Retrying *)

Module Retry.

Record RetryCounter := mkRetryCounter { error_count : Z; max_retry_count : Z }.

Definition new (max_retry_count : Z) : RetryCounter := mkRetryCounter 0 max_retry_count.

Definition reset (c : RetryCounter) : RetryCounter := mkRetryCounter 0 (max_retry_count c).

(** Whether to retry. *)
Definition on_new_error (c : RetryCounter) : outcome (RetryCounter * bool) :=
  n ← u64 (error_count c + 1);
  Done (mkRetryCounter n (max_retry_count c), n <=? max_retry_count c).

Definition fail_or_ignore {T} (c : RetryCounter) (r : result T) : outcome (RetryCounter * result (option T)) :=
  match r with
  | Err e =>
      '(c, retry) ← on_new_error c;
      if (retry : bool) then Done (c, Ok None) else Done (reset c, Err e)
  | Ok v => Done (reset c, Ok (Some v))
  end.

(** The macro [fail_or_retry]: [attempt i] is what the expression gives the i-th time. *)
Fixpoint fail_or_retry {T} (fuel : nat) (c : RetryCounter) (attempt : nat -> result T) (i : nat) :
    outcome (RetryCounter * result T) :=
  match fuel with
  | O => NoFuel
  | S fuel =>
      '(c, r) ← fail_or_ignore c (attempt i);
      match r with
      | Ok (Some value) => Done (c, Ok value)
      | Ok None => fail_or_retry fuel c attempt (S i)
      | Err e => Done (c, Err e)
      end
  end.

(** [n] failures in a row are ignored while the counter allows them. *)
Lemma fail_or_retry_skips {T} (attempt : nat -> result T) n : forall fuel c i,
  (forall j, (i <= j < i + n)%nat -> exists e, attempt j = Err e) ->
  0 <= error_count c -> error_count c + Z.of_nat n <= max_retry_count c -> max_retry_count c <= U64_MAX - 1 ->
  fail_or_retry (n + fuel) c attempt i =
  fail_or_retry fuel (mkRetryCounter (error_count c + Z.of_nat n) (max_retry_count c)) attempt (i + n).
Proof.
  induction n as [|n IH]; intros fuel c i Hf H0 Hc Hm.
  - rewrite Z.add_0_r, Nat.add_0_r. by destruct c.
  - destruct (Hf i) as [e He]; [lia|]. simpl. rewrite He. unfold fail_or_ignore, on_new_error.
    rewrite u64_ok by mlia. run. rewrite (proj2 (Z.leb_le _ _)) by lia. run. simpl.
    rewrite IH; simpl; try lia.
    + f_equal; [f_equal; lia|lia].
    + intros j Hj. apply Hf. lia.
Qed.

(** Retrying ends. With a fresh counter, [fail_or_retry] makes at most one attempt more than the
    configured number of retries: if one of these attempts succeeds, it gives the value of the
    first one that does, and otherwise the error of the last one; the counter is fresh again. *)
Theorem fail_or_retry_ends {T} (attempt : nat -> result T) (retries : nat) :
  Z.of_nat retries <= U64_MAX - 1 ->
  exists r, fail_or_retry (S retries) (new (Z.of_nat retries)) attempt 0 = Done (new (Z.of_nat retries), r) /\
    ((exists n, (n <= retries)%nat /\ attempt n = r /\ (exists v, r = Ok v) /\
        forall j, (j < n)%nat -> exists e, attempt j = Err e) \/
     (attempt retries = r /\ forall j, (j <= retries)%nat -> exists e, attempt j = Err e)).
Proof.
  intros Hm.
  assert (Hcases : (exists n, (n <= retries)%nat /\ (exists v, attempt n = Ok v) /\
      forall j, (j < n)%nat -> exists e, attempt j = Err e) \/ (forall j, (j <= retries)%nat -> exists e, attempt j = Err e)).
  { clear Hm. induction retries as [|k [(n & Hn & Hv & He)|IH]].
    - destruct (attempt 0%nat) eqn:E; [left; exists 0%nat; split_and!; [lia|eauto|lia]|].
      right. intros j Hj. replace j with 0%nat by lia. eauto.
    - left. exists n. split_and!; [lia|done|done].
    - destruct (attempt (S k)) eqn:E.
      + left. exists (S k). split_and!; [lia|eauto|]. intros j Hj. apply IH. lia.
      + right. intros j Hj. destruct (decide (j = S k)) as [->|]; [eauto|]. apply IH. lia. }
  destruct Hcases as [(n & Hn & [v Hv] & He)|He].
  - exists (Ok v). replace (S retries) with (n + S (retries - n))%nat by lia.
    rewrite fail_or_retry_skips; simpl; [|by intros j Hj; apply He; lia|lia|lia|done]. rewrite Hv. simpl.
    split; [done|]. left. exists n. split_and!; eauto.
  - destruct (He retries) as [e Hr]; [lia|]. exists (Err e). replace (S retries) with (retries + 1)%nat by lia.
    rewrite fail_or_retry_skips; simpl; [|by intros j Hj; apply He; lia|lia|lia|done]. rewrite Hr.
    unfold fail_or_ignore, on_new_error. simpl. rewrite u64_ok by mlia. run.
    rewrite (proj2 (Z.leb_gt _ _)) by lia. run. split; [done|]. right. done.
Qed.

End Retry.

(** ** Concrete instances *)

Definition sample_tracking : @Tracking.ErrorTracking Z Z _ _ _ _ :=
  Tracking.mkErrorTracking ∅ 2 60 3 300 0 300.

(** A concrete instance of [messages_bounded]: five errors with four messages leave three. *)
Lemma messages_bounded_witness :
  exists t', Tracking.records sample_tracking 1 7 [("a", 1); ("b", 2); ("a", 3); ("c", 4); ("d", 5)]%string = Done t' /\
    Tracking.messages_ok t' /\ Tracking.errors <$> Tracking.state_of t' 1 7 = Some ["a"; "c"; "d"]%string.
Proof.
  destruct (Tracking.records sample_tracking 1 7 [("a", 1); ("b", 2); ("a", 3); ("c", 4); ("d", 5)]%string)
    as [t'| | |] eqn:E; [|vm_compute in E; discriminate E..].
  exists t'. split; [reflexivity|]. split; [|vm_compute in E; injection E as <-; vm_compute; reflexivity].
  apply (Tracking.messages_bounded sample_tracking t').
  - unfold Tracking.records in E. revert E. generalize sample_tracking as t. generalize [("a", 1); ("b", 2); ("a", 3); ("c", 4); ("d", 5)]%string.
    intros l. induction l as [|[m now] l IH]; intros t E; simpl in E; [injection E as <-; apply rtc_refl|].
    apply bind_Done_inv in E as (t1 & E1 & E). apply (rtc_l _ _ t1); [by eapply Tracking.step_record|]. by apply IH.
  - intros ty k s Hs. unfold Tracking.state_of in Hs. simpl in Hs. rewrite lookup_empty in Hs. discriminate Hs.
Defined.

(** A concrete instance of [skipped_after_threshold]: two errors are enough, for a minute. *)
Lemma skipped_after_threshold_witness :
  exists t', Tracking.records sample_tracking 1 7 [("a", 1); ("b", 2)]%string = Done t' /\
    is_Some (Tracking.had_too_many_errors t' 1 7 50).
Proof.
  destruct (Tracking.records sample_tracking 1 7 [("a", 1); ("b", 2)]%string) as [t'| | |] eqn:E;
    [|vm_compute in E; discriminate E..].
  exists t'. split; [reflexivity|].
  apply (Tracking.skipped_after_threshold sample_tracking 1 7 [("a", 1); ("b", 2)]%string t' 50 E).
  - discriminate.
  - vm_compute. reflexivity.
  - split; [vm_compute; discriminate|]. exists 2. split; vm_compute; reflexivity.
Defined.

(** A concrete instance of [fail_or_retry_ends]: the third attempt succeeds. *)
Lemma fail_or_retry_ends_witness :
  exists r, Retry.fail_or_retry 4 (Retry.new 3) (fun i => if (i <? 2)%nat then Err error_msg else Ok i) 0 =
    Done (Retry.new 3, r) /\
    ((exists n, (n <= 3)%nat /\ (if (n <? 2)%nat then Err error_msg else Ok n) = r /\ (exists v, r = Ok v) /\
        forall j, (j < n)%nat -> exists e, (if (j <? 2)%nat then Err error_msg else Ok j) = Err e) \/
     (Ok 3%nat = r /\ forall j, (j <= 3)%nat -> exists e, (if (j <? 2)%nat then Err error_msg else Ok j) = Err e)).
Proof.
  apply (Retry.fail_or_retry_ends (fun i => if (i <? 2)%nat then Err error_msg else Ok i) 3). vm_compute. discriminate.
Defined.
