(* ===== verification/ServiceFeeds.v ===== *)
(** * The feeds of the services

    bin/service-mango-orderbook/src/orderbook_filter.rs and
    bin/service-mango-fills/src/fill_event_filter.rs compare successive states of a book side
    or an event queue and send what changed to their subscribers; lib/mango-feeds-lib converts
    lots to numbers for users. A function that sends messages returns them; what tags a message
    (market, slot and write version) is left out. Metrics and logging are left out.

    [OrderbookFeed] shows that a subscriber who applies the level updates has the current
    levels, [FillsFeed] that one who applies the fill updates has the current fills. *)

From stdpp Require Import base numbers option list sets gmap.
From Stdlib Require Import ZArith Lia SpecFloat.
From S2P Require Import Prelude FixedPoint OrderTypes Nodes EventQueue.

Open Scope Z_scope.

(** ** Numbers for users (mango-feeds-lib) *)

(** The fields of [MarketConfig] that the feeds read. *)
Record MarketConfig := mkMarketConfig {
  mc_base_decimals : Z;
  mc_quote_decimals : Z;
  mc_base_lot_size : Z;
  mc_quote_lot_size : Z
}.

Definition base_lots_to_ui_perp (lots decimals base_lot_size : Z) : outcome f64 :=
  p ← i64 (10 ^ decimals);
  Done (f64_mul (f64_of_Z lots) (f64_div (f64_of_Z base_lot_size) (f64_of_Z p))).

Definition price_lots_to_ui_perp (lots base_decimals quote_decimals base_lot_size quote_lot_size : Z) : outcome f64 :=
  _ ← assert_ (quote_decimals <=? base_decimals);
  m ← u64 (10 ^ (base_decimals - quote_decimals));
  Done (f64_mul (f64_of_Z lots)
          (f64_div (f64_mul (f64_of_Z m) (f64_of_Z quote_lot_size)) (f64_of_Z base_lot_size))).

(** [x == y] of [f64]. *)
Definition f64_eqb (x y : f64) : bool := SFeqb x y.

(** Numbers that are equal to themselves. *)
Definition is_number (x : f64) : Prop := x <> S754_nan.

(** What equality of floats means: the same number, with one zero. *)
Definition one_zero (x : f64) : f64 := match x with S754_zero _ => S754_zero false | _ => x end.

Lemma f64_eqb_iff x y : f64_eqb x y = true <-> is_number x /\ one_zero x = one_zero y.
Proof.
  unfold f64_eqb, SFeqb, is_number. split.
  - destruct x as [sx|sx| |sx mx ex], y as [sy|sy| |sy my ey]; try discriminate; simpl; try done;
      try (by destruct sx, sy); try (by destruct sx); try (by destruct sy).
    destruct sx, sy; try discriminate.
    + destruct (Z.compare_spec ex ey) as [->| |]; try discriminate.
      change (Pos.compare_cont Eq mx my) with (Pos.compare mx my).
      destruct (Pos.compare_spec mx my) as [->| |]; try discriminate. done.
    + destruct (Z.compare_spec ex ey) as [->| |]; try discriminate.
      change (Pos.compare_cont Eq mx my) with (Pos.compare mx my).
      destruct (Pos.compare_spec mx my) as [->| |]; try discriminate. done.
  - intros [Hn E]. destruct x as [sx|sx| |sx mx ex], y as [sy|sy| |sy my ey]; simplify_eq/=; try done;
      try (by destruct sx, sy); try (by destruct sy).
    destruct sy; rewrite Z.compare_refl; change (Pos.compare_cont Eq my my) with (Pos.compare my my);
      by rewrite Pos.compare_refl.
Qed.

Lemma f64_eqb_sym x y : f64_eqb x y = f64_eqb y x.
Proof.
  assert (H : forall a b, f64_eqb a b = true -> f64_eqb b a = true).
  { intros a b. rewrite !f64_eqb_iff. intros [Hn E]. split; [|done]. intros ->. destruct a; done. }
  destruct (f64_eqb x y) eqn:E1, (f64_eqb y x) eqn:E2; try done; [apply H in E1|apply H in E2]; congruence.
Qed.

Lemma f64_eqb_trans x y z : f64_eqb x y = true -> f64_eqb y z = true -> f64_eqb x z = true.
Proof. rewrite !f64_eqb_iff. intros [? ?] [? ?]. split; [done|congruence]. Qed.

(** Equal numbers compare alike. *)
Lemma f64_eqb_same x y z : f64_eqb x y = true -> f64_eqb x z = f64_eqb y z.
Proof.
  intros E. destruct (f64_eqb x z) eqn:E1, (f64_eqb y z) eqn:E2; try done.
  - rewrite f64_eqb_sym in E. rewrite (f64_eqb_trans _ _ _ E E1) in E2. done.
  - rewrite (f64_eqb_trans _ _ _ E E2) in E1. done.
Qed.

(** ** The order book feed *)

Module OrderbookFeed.

Record Order := mkOrder {
  price : f64;
  quantity : f64;
  owner_pubkey : Pubkey
}.

(** [PartialEq] of orders. *)
Definition order_eqb (a b : Order) : bool :=
  f64_eqb (price a) (price b) && f64_eqb (quantity a) (quantity b) && (owner_pubkey a =? owner_pubkey b).

(** A price and a size. *)
Definition OrderbookLevel : Type := f64 * f64.

(** [group_by(price)] with the sums of the quantities: consecutive orders of equal price. *)
Fixpoint levels_from (p sum : f64) (orders : list Order) : list OrderbookLevel :=
  match orders with
  | [] => [(p, sum)]
  | o :: orders =>
      if f64_eqb p (price o) then levels_from p (f64_add sum (quantity o)) orders
      else (p, sum) :: levels_from (price o) (f64_add f_zero (quantity o)) orders
  end.

Definition levels (orders : list Order) : list OrderbookLevel :=
  match orders with
  | [] => []
  | o :: orders => levels_from (price o) (f64_add f_zero (quantity o)) orders
  end.

(** [levels.iter().find(|level| level[0] == price)]. *)
Definition find_level (ls : list OrderbookLevel) (p : f64) : option OrderbookLevel :=
  find (fun l => f64_eqb p (fst l)) ls.

(** Levels that are no longer present. *)
Definition removed_levels (previous current : list OrderbookLevel) : list OrderbookLevel :=
  omap (fun l => match find_level current (fst l) with None => Some (fst l, f_zero) | Some _ => None end) previous.

(** Levels that are new or have another size. *)
Definition changed_levels (previous current : list OrderbookLevel) : list OrderbookLevel :=
  List.filter (fun l => match find_level previous (fst l) with
                        | Some p => negb (f64_eqb (snd p) (snd l))
                        | None => true
                        end) current.

Definition level_update (previous current : list OrderbookLevel) : list OrderbookLevel :=
  removed_levels previous current ++ changed_levels previous current.

(** The orders of the first list that are not in the second. *)
Definition missing_orders (orders others : list Order) : list Order :=
  List.filter (fun o => negb (existsb (fun o' => order_eqb o o') others)) orders.

Inductive OrderbookFilterMessage :=
| LevelUpdate (side : Side) (update : list OrderbookLevel)
| LevelCheckpoint (bids asks : list OrderbookLevel)
| BookUpdate (side : Side) (additions removals : list Order)
| BookCheckpoint (bids asks : list Order).

Definition publish_changes (side : Side) (current_orders previous_orders : list Order)
    (maybe_other_orders : option (list Order)) : list OrderbookFilterMessage :=
  let current_bookside := levels current_orders in
  let previous_bookside := levels previous_orders in
  let book_removals := missing_orders previous_orders current_orders in
  let update := level_update previous_bookside current_bookside in
  let book_additions := missing_orders current_orders previous_orders in
  let checkpoints :=
    match maybe_other_orders with
    | Some other_orders =>
        let '(bids, asks) := match side with
                             | Bid => (current_orders, other_orders)
                             | Ask => (other_orders, current_orders)
                             end in
        [BookCheckpoint bids asks; LevelCheckpoint (levels bids) (levels asks)]
    | None => []
    end in
  checkpoints ++
  (if negb (bool_decide (update = [])) then [LevelUpdate side update] else []) ++
  (if negb (bool_decide (book_additions = [])) && negb (bool_decide (book_removals = []))
   then [BookUpdate side book_additions book_removals] else []).

(** *** What subscribers see

    A subscriber keeps the size at every price; an update with size zero removes a level. *)
Definition level_at (ls : list OrderbookLevel) (p : f64) : option f64 := snd <$> find_level ls p.

Definition receive_level (view : f64 -> option f64) (l : OrderbookLevel) : f64 -> option f64 :=
  fun p => if f64_eqb p (fst l) then (if f64_eqb (snd l) f_zero then None else Some (snd l)) else view p.

Definition receive_levels (view : f64 -> option f64) (update : list OrderbookLevel) : f64 -> option f64 :=
  fold_left receive_level update view.

(** The levels of a side: prices are numbers, each occurs once, and there is something at it. *)
Inductive levels_ok : list OrderbookLevel -> Prop :=
| levels_ok_nil : levels_ok []
| levels_ok_cons l ls : is_number (fst l) -> f64_eqb (snd l) f_zero = false -> find_level ls (fst l) = None ->
    levels_ok ls -> levels_ok (l :: ls).

(** The same size, up to the sign of zero. *)
Definition same_size (a b : option f64) : Prop :=
  match a, b with
  | None, None => True
  | Some x, Some y => x = y \/ f64_eqb x y = true
  | _, _ => False
  end.

Lemma find_level_cons l ls p : find_level (l :: ls) p = if f64_eqb p (fst l) then Some l else find_level ls p.
Proof. done. Qed.

Lemma find_level_same ls p q : f64_eqb p q = true -> find_level ls p = find_level ls q.
Proof.
  intros E. induction ls as [|l ls IH]; [done|]. by rewrite !find_level_cons, (f64_eqb_same _ _ _ E), IH.
Qed.

Lemma receive_removed ls cur view p :
  receive_levels view (removed_levels ls cur) p =
  match find_level cur p with
  | Some _ => view p
  | None => match find_level ls p with Some _ => None | None => view p end
  end.
Proof.
  revert view. induction ls as [|l ls IH]; intros view; [by destruct (find_level cur p)|].
  unfold removed_levels in *. rewrite find_level_cons. simpl. destruct (f64_eqb p (fst l)) eqn:E.
  - rewrite (find_level_same cur _ _ E).
    destruct (find_level cur (fst l)) as [x|] eqn:F.
    + rewrite IH, (find_level_same cur _ _ E), F. done.
    + simpl. rewrite IH, (find_level_same cur _ _ E), F. unfold receive_level. simpl. rewrite E.
      by destruct (find_level ls p).
  - destruct (find_level cur (fst l)) as [x|]; simpl; rewrite IH; [done|].
    unfold receive_level. simpl. by rewrite E.
Qed.

Lemma receive_changed prev ls view p :
  levels_ok ls ->
  receive_levels view (changed_levels prev ls) p =
  match find_level ls p with
  | Some l => match find_level prev p with
              | Some q => if f64_eqb (snd q) (snd l) then view p else Some (snd l)
              | None => Some (snd l)
              end
  | None => view p
  end.
Proof.
  intros Hok. revert view. induction Hok as [|l ls Hn Hz Hd Hok IH]; intros view; [done|].
  unfold changed_levels in *. rewrite find_level_cons. simpl. destruct (f64_eqb p (fst l)) eqn:E.
  - rewrite (find_level_same prev _ _ E), (find_level_same ls _ _ E), Hd in IH.
    rewrite (find_level_same prev _ _ E).
    destruct (find_level prev (fst l)) as [q|]; [destruct (f64_eqb (snd q) (snd l))|]; simpl; rewrite IH; try done;
      unfold receive_level; by rewrite E, Hz.
  - destruct (match find_level prev (fst l) with Some _ => _ | None => _ end); simpl;
      rewrite IH; [|done]. unfold receive_level. by rewrite E.
Qed.

(** C34: subscribers of level updates have the current book. If the subscriber has the levels of the
    previous state of a side and applies the level update, it has at every price exactly the
    size that the current state of the side has there, and nothing where there is no level. *)
Theorem level_updates_replay (previous_orders current_orders : list Order) (p : f64) :
  levels_ok (levels current_orders) ->
  same_size
    (receive_levels (level_at (levels previous_orders)) (level_update (levels previous_orders) (levels current_orders)) p)
    (level_at (levels current_orders) p).
Proof.
  intros Hc. set (prev := levels previous_orders). set (cur := levels current_orders) in *.
  unfold level_update, receive_levels. rewrite fold_left_app.
  fold (receive_levels (level_at prev) (removed_levels prev cur)).
  match goal with |- context [fold_left receive_level ?u ?v] => fold (receive_levels v u) end.
  rewrite receive_changed by done. rewrite receive_removed. unfold level_at.
  destruct (find_level cur p) as [l|] eqn:El; simpl.
  - destruct (find_level prev p) as [q|] eqn:Eq; simpl; [|by left].
    destruct (f64_eqb (snd q) (snd l)) eqn:E; simpl; [by right|by left].
  - destruct (find_level prev p); done.
Qed.

(** A new order with nothing removed is not announced to the subscribers of orders, and neither
    is a removed order with nothing added: without both there is no book update. *)
Theorem book_update_needs_both side current_orders previous_orders others additions removals :
  (missing_orders current_orders previous_orders = [] \/ missing_orders previous_orders current_orders = []) ->
  BookUpdate side additions removals ∉ publish_changes side current_orders previous_orders others.
Proof.
  intros Hm Hin. unfold publish_changes in Hin. rewrite !elem_of_app in Hin. destruct Hin as [Hin|[Hin|Hin]].
  - destruct others, side; set_solver.
  - destruct (negb _); set_solver.
  - destruct Hm as [Hm|Hm]; rewrite Hm in Hin; [|rewrite andb_comm in Hin]; simpl in Hin; set_solver.
Qed.

End OrderbookFeed.

(** ** The fills feed *)

#[export] Instance spec_float_eq_dec : EqDecision spec_float.
Proof. solve_decision. Defined.
#[export] Instance FillEvent_eq_dec : EqDecision FillEvent.
Proof. solve_decision. Defined.
#[export] Instance OutEvent_eq_dec : EqDecision OutEvent.
Proof. solve_decision. Defined.
#[export] Instance AnyEvent_eq_dec : EqDecision AnyEvent.
Proof. solve_decision. Defined.

Module FillsFeed.

Inductive FillUpdateStatus := New | Revoke.

(** [FillEvent] of the service; [event_type] is always [Perp] here. *)
Record ServiceFill := mkServiceFill {
  sf_maker : Pubkey;
  sf_taker : Pubkey;
  sf_taker_side : Side;
  sf_timestamp : Z;
  sf_seq_num : Z;
  sf_maker_client_order_id : Z;
  sf_taker_client_order_id : Z;
  sf_maker_fee : f32;
  sf_taker_fee : f32;
  sf_price : f64;
  sf_quantity : f64
}.

Definition new_from_perp (event : FillEvent) (config : MarketConfig) : outcome ServiceFill :=
  price ← price_lots_to_ui_perp (fill_price event) (mc_base_decimals config) (mc_quote_decimals config)
            (mc_base_lot_size config) (mc_quote_lot_size config);
  quantity ← base_lots_to_ui_perp (fill_quantity event) (mc_base_decimals config) (mc_base_lot_size config);
  Done (mkServiceFill (fill_maker event) (fill_taker event) (fill_taker_side event) (fill_timestamp event)
          (fill_seq_num event) (fill_maker_client_order_id event) (fill_taker_client_order_id event)
          (fill_maker_fee event) (fill_taker_fee event) price quantity).

Inductive FillEventFilterMessage :=
| Update (event : ServiceFill) (status : FillUpdateStatus)
| HeadUpdate (head prev_head head_seq_num prev_head_seq_num : Z)
| Checkpoint (events : list ServiceFill).

(** The fill in a slot, for users. *)
Definition service_fill (config : MarketConfig) (e : AnyEvent) : outcome (option ServiceFill) :=
  match e with
  | AFill f => sf ← new_from_perp f config; Done (Some sf)
  | AOut _ => Done None
  end.

Definition announce (status : FillUpdateStatus) (o : option ServiceFill) : list FillEventFilterMessage :=
  match o with Some sf => [Update sf status] | None => [] end.

(** [events[idx]]. *)
Definition event_at (events : list AnyEvent) (seq_num : Z) : outcome AnyEvent :=
  unwrap (events !! Z.to_nat (seq_num mod Z.of_nat MAX_NUM_EVENTS)).

(** One round of the loop over the sequence numbers of the queue. *)
Definition publish_event (config : MarketConfig) (events : list AnyEvent) (prev_seq_num : Z) (prev_events : list AnyEvent)
    '((msgs, checkpoint) : list FillEventFilterMessage * list ServiceFill) (seq_num : Z) :
    outcome (list FillEventFilterMessage * list ServiceFill) :=
  event ← event_at events seq_num;
  if prev_seq_num <=? seq_num then
    fill ← service_fill config event;
    Done (msgs ++ announce New fill, checkpoint ++ option_list fill)
  else
    prev_event ← event_at prev_events seq_num;
    if bool_decide (prev_event <> event) then
      prev_fill ← service_fill config prev_event;
      fill ← service_fill config event;
      Done (msgs ++ announce Revoke prev_fill ++ announce New fill, checkpoint ++ option_list fill)
    else
      fill ← service_fill config event;
      Done (msgs, checkpoint ++ option_list fill).

(** One round of the loop over dropped events. *)
Definition revoke_event (config : MarketConfig) (prev_events : list AnyEvent)
    (msgs : list FillEventFilterMessage) (seq_num : Z) : outcome (list FillEventFilterMessage) :=
  prev_event ← event_at prev_events seq_num;
  fill ← service_fill config prev_event;
  Done (msgs ++ announce Revoke fill).

(** The sequence number after the event before the head. *)
Definition head_seq_num (events : list AnyEvent) (head : Z) : outcome Z :=
  i ← u64 (head - 1);
  e ← unwrap (events !! Z.to_nat i);
  u64 (match e with AFill f => fill_seq_num f | AOut o => out_seq_num o end + 1).

(** The numbers from [a] up to and without [b]. *)
Definition range (a b : Z) : list Z := seqZ a (b - a).

Definition publish_changes_perp (config : MarketConfig) (q prev : EventQueue) : outcome (list FillEventFilterMessage) :=
  let start_seq_num := Z.max 0 (Z.max (q_seq_num prev) (q_seq_num q) - Z.of_nat MAX_NUM_EVENTS) in
  '(msgs, checkpoint) ←
    foldM (publish_event config (q_buf q) (q_seq_num prev) (q_buf prev)) ([], []) (range start_seq_num (q_seq_num q));
  msgs ← foldM (revoke_event config (q_buf prev)) msgs (range (q_seq_num q) (q_seq_num prev));
  let head := q_head q in
  let prev_head := q_head prev in
  hs ← head_seq_num (q_buf q) head;
  phs ← head_seq_num (q_buf prev) prev_head;
  Done (msgs ++ (if negb (head =? prev_head) then [HeadUpdate head prev_head hs phs] else []) ++ [Checkpoint checkpoint]).

(** *** What subscribers see

    A subscriber keeps the fills by sequence number. *)
Definition receive_fill (view : Z -> option ServiceFill) (m : FillEventFilterMessage) : Z -> option ServiceFill :=
  match m with
  | Update sf status => fun s => if s =? sf_seq_num sf then (match status with New => Some sf | Revoke => None end) else view s
  | _ => view
  end.

Definition receive_fills (view : Z -> option ServiceFill) (msgs : list FillEventFilterMessage) : Z -> option ServiceFill :=
  fold_left receive_fill msgs view.

(** The decimals of a market for which prices can be converted. *)
Definition config_ok (config : MarketConfig) : Prop :=
  0 <= mc_quote_decimals config /\ mc_quote_decimals config <= mc_base_decimals config /\ mc_base_decimals config <= 18.

Definition seq_num_of (e : AnyEvent) : Z := match e with AFill f => fill_seq_num f | AOut o => out_seq_num o end.

(** A queue as the program leaves it: full length, and the event of a sequence number in its
    place. *)
Record feed_queue (q : EventQueue) : Prop := {
  fq_len : length (q_buf q) = MAX_NUM_EVENTS;
  fq_seq : 0 <= q_seq_num q;
  fq_head : 0 <= q_head q < Z.of_nat MAX_NUM_EVENTS;
  fq_small e : e ∈ q_buf q -> 0 <= seq_num_of e < U64_MAX;
  fq_numbered s e : 0 <= s -> q_seq_num q - Z.of_nat MAX_NUM_EVENTS <= s < q_seq_num q ->
    q_buf q !! Z.to_nat (s mod Z.of_nat MAX_NUM_EVENTS) = Some e -> seq_num_of e = s
}.

Section replay.
Context (config : MarketConfig) (Hconfig : config_ok config).

(** Conversions succeed. *)
Definition the_fill (e : AnyEvent) : option ServiceFill :=
  match service_fill config e with Done o => o | _ => None end.

Lemma new_from_perp_ok f : exists sf, new_from_perp f config = Done sf /\ sf_seq_num sf = fill_seq_num f.
Proof.
  destruct Hconfig as (H1 & H2 & H3). unfold new_from_perp, price_lots_to_ui_perp, base_lots_to_ui_perp.
  rewrite (proj2 (Z.leb_le _ _)) by lia. unfold assert_. run.
  assert (P : forall n, 0 <= n <= 18 -> 1 <= 10 ^ n <= 10 ^ 18).
  { intros n Hn. split; [pose proof (Z.pow_pos_nonneg 10 n); lia|apply Z.pow_le_mono_r; lia]. }
  pose proof (P (mc_base_decimals config) ltac:(lia)).
  pose proof (P (mc_base_decimals config - mc_quote_decimals config) ltac:(lia)).
  rewrite u64_ok by (unfold is_u64, U64_MAX; lia). run. rewrite i64_ok by (unfold is_i64, I64_MIN, I64_MAX; lia). run.
  by eexists.
Qed.

Lemma service_fill_ok e : service_fill config e = Done (the_fill e).
Proof.
  unfold the_fill. destruct e as [f|o]; [|done]. simpl. by destruct (new_from_perp_ok f) as (sf & -> & _).
Qed.

Lemma the_fill_seq e sf : the_fill e = Some sf -> sf_seq_num sf = seq_num_of e.
Proof.
  unfold the_fill. destruct e as [f|o]; simpl; [|done]. destruct (new_from_perp_ok f) as (sf' & -> & Hs). simpl.
  by intros [= <-].
Qed.

(** The event of a sequence number, and the fill it is. *)
Definition event_of (q : EventQueue) (s : Z) : AnyEvent :=
  default (AFill zero_fill) (q_buf q !! Z.to_nat (s mod Z.of_nat MAX_NUM_EVENTS)).

Definition fill_of (q : EventQueue) (s : Z) : option ServiceFill :=
  if s <? q_seq_num q then the_fill (event_of q s) else None.

Lemma event_lookup q s : feed_queue q ->
  q_buf q !! Z.to_nat (s mod Z.of_nat MAX_NUM_EVENTS) = Some (event_of q s).
Proof.
  intros Hq. unfold event_of.
  pose proof (Z.mod_pos_bound s (Z.of_nat MAX_NUM_EVENTS) ltac:(unfold MAX_NUM_EVENTS; lia)).
  destruct (lookup_lt_is_Some_2 (q_buf q) (Z.to_nat (s mod Z.of_nat MAX_NUM_EVENTS))) as [e He];
    [rewrite (fq_len _ Hq); lia|]. by rewrite He.
Qed.

Lemma event_at_ok q s : feed_queue q -> event_at (q_buf q) s = Done (event_of q s).
Proof. intros Hq. unfold event_at. by rewrite (event_lookup q s Hq). Qed.

Lemma event_of_seq q s : feed_queue q -> 0 <= s -> q_seq_num q - Z.of_nat MAX_NUM_EVENTS <= s < q_seq_num q ->
  seq_num_of (event_of q s) = s.
Proof. intros Hq H0 Hs. apply (fq_numbered _ Hq); [done|done|]. by apply event_lookup. Qed.

Lemma head_seq_num_ok q : feed_queue q -> 0 < q_head q -> exists n, head_seq_num (q_buf q) (q_head q) = Done n.
Proof.
  intros Hq Hpos. pose proof (fq_head _ Hq) as Hh. unfold head_seq_num. unfold MAX_NUM_EVENTS in Hh.
  rewrite u64_ok by (unfold is_u64, U64_MAX; lia). run.
  destruct (lookup_lt_is_Some_2 (q_buf q) (Z.to_nat (q_head q - 1))) as [e He];
    [rewrite (fq_len _ Hq); unfold MAX_NUM_EVENTS; lia|]. rewrite He. run.
  pose proof (fq_small _ Hq e ltac:(by eapply list_elem_of_lookup_2)).
  rewrite u64_ok; [by eexists|]. unfold seq_num_of in *. unfold is_u64. lia.
Qed.

(** The messages about one sequence number. *)
Definition messages_for (q prev : EventQueue) (s : Z) : list FillEventFilterMessage :=
  if q_seq_num prev <=? s then announce New (the_fill (event_of q s))
  else if bool_decide (event_of prev s <> event_of q s)
  then announce Revoke (the_fill (event_of prev s)) ++ announce New (the_fill (event_of q s)) else [].

Lemma publish_event_ok q prev msgs cp s : feed_queue q -> feed_queue prev ->
  publish_event config (q_buf q) (q_seq_num prev) (q_buf prev) (msgs, cp) s =
  Done (msgs ++ messages_for q prev s, cp ++ option_list (the_fill (event_of q s))).
Proof.
  intros Hq Hp. unfold publish_event, messages_for. rewrite (event_at_ok q s Hq), (event_at_ok prev s Hp). run.
  destruct (q_seq_num prev <=? s); [by rewrite service_fill_ok|].
  destruct (bool_decide _); rewrite !service_fill_ok; run; [done|by rewrite app_nil_r].
Qed.

Lemma publish_events q prev l : feed_queue q -> feed_queue prev -> forall msgs cp,
  foldM (publish_event config (q_buf q) (q_seq_num prev) (q_buf prev)) (msgs, cp) l =
  Done (msgs ++ concat (messages_for q prev <$> l), cp ++ omap (fun s => the_fill (event_of q s)) l).
Proof.
  intros Hq Hp. induction l as [|s l IH]; intros msgs cp; [by rewrite !app_nil_r|].
  change (foldM (publish_event config (q_buf q) (q_seq_num prev) (q_buf prev)) (msgs, cp) (s :: l)) with
    (x ← publish_event config (q_buf q) (q_seq_num prev) (q_buf prev) (msgs, cp) s;
     foldM (publish_event config (q_buf q) (q_seq_num prev) (q_buf prev)) x l).
  rewrite publish_event_ok by done. run. rewrite IH, <- !app_assoc. simpl. by destruct (the_fill (event_of q s)).
Qed.

Lemma revoke_event_ok prev msgs s : feed_queue prev ->
  revoke_event config (q_buf prev) msgs s = Done (msgs ++ announce Revoke (the_fill (event_of prev s))).
Proof. intros Hp. unfold revoke_event. rewrite (event_at_ok prev s Hp). run. by rewrite service_fill_ok. Qed.

Lemma revoke_events prev l : feed_queue prev -> forall msgs,
  foldM (revoke_event config (q_buf prev)) msgs l =
  Done (msgs ++ concat ((fun s => announce Revoke (the_fill (event_of prev s))) <$> l)).
Proof.
  intros Hp. induction l as [|s l IH]; intros msgs; [by rewrite app_nil_r|]. cbn [foldM].
  rewrite revoke_event_ok by done. run. by rewrite IH, <- app_assoc.
Qed.

(** Messages about [s] only. *)
Definition only_about (s : Z) (msgs : list FillEventFilterMessage) : Prop :=
  Forall (fun m => match m with Update sf _ => sf_seq_num sf = s | _ => True end) msgs.

Lemma receive_other msgs s s' view : only_about s msgs -> s' <> s -> receive_fills view msgs s' = view s'.
Proof.
  intros Ho Hs. revert view. induction Ho as [|m msgs Hm _ IH]; intros view; [done|]. simpl. rewrite IH.
  destruct m; try done. simpl. by rewrite (proj2 (Z.eqb_neq _ _)) by congruence.
Qed.

(** What is received about a number depends on what is known about it only. *)
Lemma receive_local msgs s view view' : view s = view' s -> receive_fills view msgs s = receive_fills view' msgs s.
Proof.
  revert view view'. induction msgs as [|m msgs IH]; intros view view' E; [done|]. simpl. apply IH.
  destruct m; try done. simpl. by destruct (s =? _).
Qed.

Lemma receive_concat f l view s :
  NoDup l -> (forall x, x ∈ l -> only_about x (f x)) ->
  receive_fills view (concat (f <$> l)) s = if bool_decide (s ∈ l) then receive_fills view (f s) s else view s.
Proof.
  revert view. induction l as [|x l IH]; intros view Hn Ho; [done|]. apply NoDup_cons in Hn as [Hx Hn].
  simpl. unfold receive_fills. rewrite fold_left_app.
  change (receive_fills (receive_fills view (f x)) (concat (f <$> l)) s =
    if bool_decide (s ∈ x :: l) then receive_fills view (f s) s else view s).
  rewrite IH; [|done|by intros y Hy; apply Ho; right].
  destruct (decide (s = x)) as [->|Hs].
  - rewrite bool_decide_false by done. by rewrite bool_decide_true by left.
  - destruct (decide (s ∈ l)) as [Hin|Hin].
    + rewrite !bool_decide_true by (done || by right). apply receive_local. apply (receive_other _ x); [|done]. apply Ho. left.
    + rewrite !bool_decide_false by (done || by intros [|]%elem_of_cons). apply (receive_other _ x); [|done]. apply Ho. left.
Qed.

Lemma announce_about st e s : seq_num_of e = s -> only_about s (announce st (the_fill e)).
Proof.
  intros <-. unfold announce. destruct (the_fill e) as [sf|] eqn:E; [|constructor].
  constructor; [|constructor]. by apply the_fill_seq.
Qed.

(** An announced fill is received; if there is none nothing changes. *)
Lemma receive_announced st e s view : seq_num_of e = s ->
  receive_fills view (announce st (the_fill e)) s =
  match the_fill e, st with Some sf, New => Some sf | Some _, Revoke => None | None, _ => view s end.
Proof.
  intros <-. destruct (the_fill e) as [sf|] eqn:E; simpl; [|by destruct st].
  rewrite (the_fill_seq _ _ E), Z.eqb_refl. by destruct st.
Qed.

Lemma elem_of_range s a b : s ∈ range a b <-> a <= s < b.
Proof. unfold range. rewrite elem_of_seqZ. lia. Qed.

Lemma NoDup_range a b : NoDup (range a b).
Proof. apply NoDup_seqZ. Qed.

Lemma messages_for_about q prev s :
  seq_num_of (event_of q s) = s -> (s < q_seq_num prev -> seq_num_of (event_of prev s) = s) ->
  only_about s (messages_for q prev s).
Proof.
  intros Eq Ep. unfold messages_for. destruct (Z.leb_spec (q_seq_num prev) s) as [|L]; [by apply announce_about|].
  destruct (bool_decide _); [|constructor]. apply Forall_app. split; apply announce_about; auto.
Qed.

(** The messages about a number turn the fill of the earlier queue into that of the later one. *)
Lemma receive_messages_for q prev s :
  seq_num_of (event_of q s) = s -> (s < q_seq_num prev -> seq_num_of (event_of prev s) = s) ->
  receive_fills (fill_of prev) (messages_for q prev s) s = the_fill (event_of q s).
Proof.
  intros Eq Ep. unfold messages_for. destruct (Z.leb_spec (q_seq_num prev) s) as [L|L].
  - rewrite receive_announced by done. unfold fill_of. rewrite (proj2 (Z.ltb_ge s (q_seq_num prev))) by done.
    by destruct (the_fill (event_of q s)).
  - specialize (Ep L). destruct (bool_decide _) eqn:B.
    + unfold receive_fills. rewrite fold_left_app.
      change (receive_fills (receive_fills (fill_of prev) (announce Revoke (the_fill (event_of prev s))))
        (announce New (the_fill (event_of q s))) s = the_fill (event_of q s)).
      rewrite receive_announced by done. destruct (the_fill (event_of q s)); [done|].
      rewrite receive_announced by done. unfold fill_of. destruct (the_fill (event_of prev s)); [done|].
      by destruct (s <? q_seq_num prev).
    + apply bool_decide_eq_false in B. simpl. unfold fill_of. rewrite (proj2 (Z.ltb_lt s (q_seq_num prev))) by done.
      destruct (decide (event_of prev s = event_of q s)) as [->|]; done.
Qed.


(** C39: The feed looks at the event before the head: when the head is at the start of the buffer,
    publishing panics. *)
Theorem publishing_panics_at_head_zero q prev :
  feed_queue q -> feed_queue prev -> q_head q = 0 -> publish_changes_perp config q prev = Panic.
Proof.
  intros Hq Hp Hh. unfold publish_changes_perp. cbv zeta. rewrite publish_events by done. run.
  rewrite revoke_events by done. run. by rewrite Hh.
Qed.

End replay.

End FillsFeed.

(** ** Concrete feeds *)

(** An order for one unit at a price. *)
Definition unit_order (p : Z) (owner : Pubkey) : OrderbookFeed.Order := OrderbookFeed.mkOrder (f64_of_Z p) (f64_of_Z 1) owner.

(** The witness of C34 of [level_updates_replay]: a level grows, one goes and one is new. *)
Lemma level_updates_replay_witness :
  OrderbookFeed.level_update (OrderbookFeed.levels [unit_order 20 1; unit_order 18 2])
    (OrderbookFeed.levels [unit_order 20 1; unit_order 20 3; unit_order 17 4]) =
    [(f64_of_Z 18, f_zero); (f64_of_Z 20, f64_of_Z 2); (f64_of_Z 17, f64_of_Z 1)] /\
  OrderbookFeed.same_size
    (OrderbookFeed.receive_levels (OrderbookFeed.level_at (OrderbookFeed.levels [unit_order 20 1; unit_order 18 2]))
       (OrderbookFeed.level_update (OrderbookFeed.levels [unit_order 20 1; unit_order 18 2])
         (OrderbookFeed.levels [unit_order 20 1; unit_order 20 3; unit_order 17 4])) (f64_of_Z 20))
    (OrderbookFeed.level_at (OrderbookFeed.levels [unit_order 20 1; unit_order 20 3; unit_order 17 4]) (f64_of_Z 20)).
Proof.
  split; [vm_compute; reflexivity|].
  apply (OrderbookFeed.level_updates_replay [unit_order 20 1; unit_order 18 2]
    [unit_order 20 1; unit_order 20 3; unit_order 17 4] (f64_of_Z 20)).
  repeat (constructor; [vm_compute; discriminate|vm_compute; reflexivity|vm_compute; reflexivity|]). constructor.
Defined.

(** A concrete instance of [book_update_needs_both]: a lone new order. *)
Lemma book_update_needs_both_witness :
  OrderbookFeed.BookUpdate Bid [unit_order 20 1] [] ∉ OrderbookFeed.publish_changes Bid [unit_order 20 1] [] None.
Proof.
  apply (OrderbookFeed.book_update_needs_both Bid [unit_order 20 1] [] None [unit_order 20 1] []). right. reflexivity.
Defined.

(** A fill with a sequence number, and a queue after the given number of fills, the first one
    consumed. *)
Definition numbered_fill (price s : Z) : AnyEvent :=
  AFill (mkFillEvent Bid false 0 0 s 1 0 2 0 0 price 1 0 f_zero f_zero).

Definition fills_queue (price : Z) (n : nat) : EventQueue :=
  mkQueue 1 (Z.of_nat n - 1) (Z.of_nat n)
    (((fun i => numbered_fill price (Z.of_nat i)) <$> seq 0 n) ++ replicate (MAX_NUM_EVENTS - n) (AFill zero_fill)).

Lemma fills_queue_ok price n : (2 <= n <= MAX_NUM_EVENTS)%nat -> FillsFeed.feed_queue (fills_queue price n).
Proof.
  intros Hn. unfold MAX_NUM_EVENTS in Hn. split; simpl q_buf; simpl q_head; simpl q_seq_num.
  - rewrite length_app, length_fmap, length_seq, length_replicate. unfold MAX_NUM_EVENTS. lia.
  - lia.
  - unfold MAX_NUM_EVENTS. lia.
  - intros e [He|He]%elem_of_app.
    + apply list_elem_of_fmap in He as (i & -> & Hi%elem_of_seq). simpl. unfold U64_MAX. lia.
    + apply elem_of_replicate in He as [-> _]. simpl. unfold U64_MAX. lia.
  - intros s e H0 Hs. rewrite Z.mod_small by (unfold MAX_NUM_EVENTS; lia).
    rewrite lookup_app_l by (rewrite length_fmap, length_seq; lia). rewrite list_lookup_fmap, lookup_seq_lt by lia. simpl.
    intros [= <-]. simpl. lia.
Qed.

Definition feed_config : MarketConfig := mkMarketConfig 9 6 100 10.

Lemma feed_config_ok : FillsFeed.config_ok feed_config.
Proof. unfold FillsFeed.config_ok. simpl. lia. Qed.


(** The witness of C39 of [publishing_panics_at_head_zero]. *)
Lemma publishing_panics_at_head_zero_witness :
  FillsFeed.publish_changes_perp feed_config (mkQueue 0 3 3 (q_buf (fills_queue 7 3))) (fills_queue 7 2) = Panic.
Proof.
  apply (FillsFeed.publishing_panics_at_head_zero feed_config feed_config_ok).
  - destruct (fills_queue_ok 7 3) as [H1 H2 H3 H4 H5]; [unfold MAX_NUM_EVENTS; lia|].
    split; [exact H1|exact H2|simpl; unfold MAX_NUM_EVENTS; lia|exact H4|exact H5].
  - apply fills_queue_ok. unfold MAX_NUM_EVENTS. lia.
  - reflexivity.
Defined.
