(* ===== verification/Equity.v ===== *)
(** * Equity and the airdrop

    state/equity.rs and the instructions compute_account_data, which reports the health and
    the equity of an account, and airdrop, which pays every user once. What the equity map
    holds is proved to be the worth of the positions and open orders at oracle prices. The
    event is the result of the instruction; the token program is a parameter. *)

From stdpp Require Import base numbers option list gmap fin_maps.
From Stdlib Require Import ZArith Lia SpecFloat.
From S2P Require Import Prelude FixedPoint HealthType TokenPosition Nodes Oracle StablePrice Bank BankSpec Group Serum3 PerpMarket PerpPosition MangoAccount HealthCache AccountRetriever TokenInstructions TokenInstructionsSpec TokenLiquidationSpec PerpInstructions SerumOrders SwapInstructions FlashLoanSpec SerumInstructions SerumSpec.

Open Scope Z_scope.

Section equity.
Context `{FixedOps}.

(** The map of the loop goes from token indexes to the worth in native quote tokens. *)
Definition position_equity (r : ScanningAccountRetriever) (m : gmap Z Z) (p : TokenPosition) : outcome (gmap Z Z) :=
  '(bank, oracle_price) ← Scanning.scanned_bank_and_oracle (sc_banks_and_oracles r) (tp_token_index p);
  n ← native p bank;
  v ← fx_mul n oracle_price;
  Done (<[bk_token_index bank := v]> m).

(** Adds [total] native tokens of a token. *)
Definition add_equity (r : ScanningAccountRetriever) (token_index total : Z) (m : gmap Z Z) : outcome (gmap Z Z) :=
  '(_, oracle_price) ← Scanning.scanned_bank_and_oracle (sc_banks_and_oracles r) token_index;
  n ← fx_from_int total;
  v ← fx_mul n oracle_price;
  e ← fx_add (default 0 (m !! token_index)) v;
  Done (<[token_index := e]> m).

Definition orders_equity (r : ScanningAccountRetriever) (m : gmap Z Z) (o : Serum3Orders) : outcome (gmap Z Z) :=
  oo ← Scanning.scanned_serum_oo r (s3_open_orders o);
  m ← add_equity r (s3_base_token_index o) (oos_native_coin_total oo) m;
  add_equity r (s3_quote_token_index o) (oos_native_pc_total oo) m.

Definition compute_equity (account : MangoAccount) (r : ScanningAccountRetriever) : outcome (gmap Z Z) :=
  m ← foldM (position_equity r) ∅ (Account.active_token_positions account);
  foldM (orders_equity r) m (Account.active_serum3_orders account).

(** The event that the instruction emits: init health, maint health and equity. *)
Definition compute_account_data (group_pk : Pubkey) (group : Group) (account : MangoAccount) (remaining : list AccountInfo)
    (clock : Clock) : outcome (Z * Z * gmap Z Z) :=
  _ ← require (af_group (ma_fixed account) =? group_pk) EConstraint;
  _ ← require (GroupCfg.is_testing group) (EMango SomeError);
  r ← Scanning.new remaining group_pk (clock_slot clock);
  cache ← new_health_cache account r (clock_ts clock);
  init_health ← health cache Init;
  maint_health ← health cache Maint;
  equity ← compute_equity account r;
  Done (init_health, maint_health, equity).

End equity.

(** ** The airdrop *)

Record AirdropAccounts := mkAirdropAccounts {
  ad_reserve : Z;          (* the balance of the reserve *)
  ad_user : Z;             (* the balance of the user *)
  ad_has_received : bool   (* the [AirdropInfo] of the user *)
}.

Section airdrop.

(** [token::transfer_checked] of the token program: the two balances after the transfer of an
    amount of a token with the given decimals. *)
Context (transfer_checked : Z -> Z -> Z -> Z -> outcome (Z * Z)).

Definition airdrop (a : AirdropAccounts) : outcome AirdropAccounts :=
  if ad_has_received a then Done a
  else
    amount ← u64 (10000 * 1000000);
    '(reserve, user) ← transfer_checked (ad_reserve a) (ad_user a) amount 6;
    Done (mkAirdropAccounts reserve user true).

(** Documented behaviour: a transfer moves the amount. *)
Context (transfer_moves : forall from to amount decimals from' to',
  transfer_checked from to amount decimals = Done (from', to') -> from' = from - amount /\ to' = to + amount).

(** A user is paid once: whatever the number of calls, of which each may succeed, the first
    one that does pays ten thousand tokens from the reserve and all later ones pay nothing. *)
Theorem airdrop_pays_once n a a' :
  foldM (fun a _ => airdrop a) a (replicate n tt) = Done a' ->
  let paid := if ad_has_received a || (n =? 0)%nat then 0 else 10000 * 1000000 in
  ad_user a' = ad_user a + paid /\ ad_reserve a' = ad_reserve a - paid.
Proof.
  revert a. induction n as [|n IH]; intros a E; simpl in E.
  - injection E as <-. rewrite orb_true_r. simpl. lia.
  - apply bind_Done_inv in E as (a1 & E1 & E). apply IH in E. unfold airdrop in E1.
    destruct (ad_has_received a) eqn:R.
    + injection E1 as <-. by rewrite R in E.
    + apply bind_Done_inv in E1 as (x & Ex & E1). apply u64_inv in Ex as [-> _].
      apply bind_Done_inv in E1 as ([rs us] & Et & E1). injection E1 as <-.
      apply transfer_moves in Et as [-> ->]. simpl in *. lia.
Qed.

End airdrop.

(** ** What the equity is *)

(** The scan numbers the banks as they are passed. *)
Lemma scan_map_inv group items i (m m' : gmap Z nat) k j :
  Scanning.scan_map group items i m = Done m' -> m' !! k = Some j ->
  m !! k = Some j \/ exists n g, items !! n = Some (g, k) /\ j = (i + n)%nat.
Proof.
  revert i m. induction items as [|[g x] items IH]; intros i m E Hk; simpl in E; [left; by injection E as <-|].
  apply bind_Done_inv in E as (? & _ & E). apply bind_Done_inv in E as (? & _ & E).
  destruct (IH _ _ E Hk) as [Hm|(n & g' & Hn & ->)]; [|right; exists (S n), g'; split; [done|lia]].
  destruct (decide (x = k)) as [->|Hne].
  - rewrite lookup_insert_eq in Hm. injection Hm as <-. right. exists 0%nat, g. split; [done|lia].
  - rewrite lookup_insert_ne in Hm by done. by left.
Qed.

Lemma leading_banks_lookup ais n b : leading_banks ais !! n = Some b -> exists k, ais !! n = Some (k, ABank b).
Proof.
  revert n. induction ais as [|[k d] ais IH]; intros n E; [done|]. destruct d; try done.
  destruct n as [|n]; simpl in *; [injection E as <-; eauto|by apply IH].
Qed.

(** The retriever finds a bank of the token it is asked for. *)
Lemma scanned_bank_token `{FixedOps} ais group slot r ti b p :
  Scanning.new ais group slot = Done r ->
  Scanning.scanned_bank_and_oracle (sc_banks_and_oracles r) ti = Done (b, p) -> bk_token_index b = ti.
Proof.
  unfold Scanning.new, Scanning.new_with_staleness. intros E Eb. apply bind_Done_inv in E as (m & Em & E).
  apply bind_Done_inv in E as (ps & _ & E). apply bind_Done_inv in E as (pm & _ & E).
  apply bind_Done_inv in E as (ss & _ & E). injection E as <-.
  unfold Scanning.scanned_bank_and_oracle, Scanning.bank_index in Eb. simpl in Eb.
  apply bind_Done_inv in Eb as (i & Ei & Eb). unfold ok_or in Ei. destruct (m !! ti) as [j|] eqn:Hj; [|done]. injection Ei as ->.
  apply bind_Done_inv in Eb as (ai & Ea & Eb). apply unwrap_inv in Ea. apply lookup_take_Some in Ea as [Ea _].
  apply bind_Done_inv in Eb as (b1 & El & Eb). do 2 (apply bind_Done_inv in Eb as (? & _ & Eb)). injection Eb as -> _.
  destruct (scan_map_inv _ _ _ _ _ _ _ Em Hj) as [Hm|(n & g & Hn & ->)]; [by rewrite lookup_empty in Hm|].
  rewrite list_lookup_fmap in Hn. destruct (leading_banks ais !! n) as [b2|] eqn:E2; [|done]. injection Hn as _ <-.
  apply leading_banks_lookup in E2 as [k E2]. assert (Some (k, ABank b2) = Some ai) as [= <-] by (rewrite <- E2; exact Ea). by injection El as ->.
Qed.

Section worth.
Context `{FixedLaws}.
Context (ais : list AccountInfo) (group : Pubkey) (slot : Z) (r : ScanningAccountRetriever).
Context (Hr : Scanning.new ais group slot = Done r).

(** What a token position is worth, and what open orders add to the worth of a token. *)
Definition position_worth (ti : Z) (p : TokenPosition) : Z :=
  match Scanning.scanned_bank_and_oracle (sc_banks_and_oracles r) (tp_token_index p) with
  | Done (b, price) => if tp_token_index p =? ti then value b p * price / fx_scale else 0
  | _ => 0
  end.

Definition tokens_worth (ti token_index total : Z) : Z :=
  match Scanning.scanned_bank_and_oracle (sc_banks_and_oracles r) token_index with
  | Done (_, price) => if token_index =? ti then total * price else 0
  | _ => 0
  end.

Definition orders_worth (ti : Z) (o : Serum3Orders) : Z :=
  match Scanning.scanned_serum_oo r (s3_open_orders o) with
  | Done oo => tokens_worth ti (s3_base_token_index o) (oos_native_coin_total oo) +
               tokens_worth ti (s3_quote_token_index o) (oos_native_pc_total oo)
  | _ => 0
  end.

Definition total {A} (f : A -> Z) (l : list A) : Z := foldr (fun x s => f x + s) 0 l.

Definition worth_of (m : gmap Z Z) (ti : Z) : Z := default 0 (m !! ti).

Lemma add_equity_worth token_index n m m' ti :
  add_equity r token_index n m = Done m' -> worth_of m' ti = worth_of m ti + tokens_worth ti token_index n.
Proof.
  unfold add_equity, tokens_worth, worth_of. intros E. apply bind_Done_inv in E as ([b p] & -> & E).
  apply bind_Done_inv in E as (x & Ex & E). apply fx_from_int_inv in Ex as ->.
  apply bind_Done_inv in E as (v & Ev & E). apply fx_mul_inv in Ev.
  apply bind_Done_inv in E as (e & Ee & E). apply fx_add_inv in Ee as ->. injection E as <-.
  unfold fx_int in Ev. rewrite <- Z.mul_assoc, (Z.mul_comm fx_scale), Z.mul_assoc, Z.div_mul in Ev by done. subst v.
  destruct (Z.eqb_spec token_index ti) as [->|Hne]; [by rewrite lookup_insert_eq|]. rewrite lookup_insert_ne by done. lia.
Qed.

Lemma orders_equity_worth l m m' ti :
  foldM (orders_equity r) m l = Done m' -> worth_of m' ti = worth_of m ti + total (orders_worth ti) l.
Proof.
  revert m. induction l as [|o l IH]; intros m E; simpl in E; [injection E as <-; simpl; lia|].
  apply bind_Done_inv in E as (m1 & E1 & E). rewrite (IH _ E). simpl. unfold orders_equity, orders_worth in *.
  apply bind_Done_inv in E1 as (oo & -> & E1). apply bind_Done_inv in E1 as (m2 & E2 & E1).
  rewrite (add_equity_worth _ _ _ _ ti E1), (add_equity_worth _ _ _ _ ti E2). lia.
Qed.

Lemma positions_equity_worth l m m' ti :
  NoDup (tp_token_index <$> l) -> (forall p, p ∈ l -> m !! tp_token_index p = None) ->
  foldM (position_equity r) m l = Done m' -> worth_of m' ti = worth_of m ti + total (position_worth ti) l.
Proof.
  revert m. induction l as [|p l IH]; intros m N Hm E; simpl in E; [injection E as <-; simpl; lia|].
  apply NoDup_cons in N as [Np N]. apply bind_Done_inv in E as (m1 & E1 & E). unfold position_equity in E1.
  apply bind_Done_inv in E1 as ([b price] & Eb & E1). pose proof (scanned_bank_token _ _ _ _ _ _ _ Hr Eb) as Hb.
  apply bind_Done_inv in E1 as (x & Ex & E1). apply native_value in Ex as ->.
  apply bind_Done_inv in E1 as (v & Ev & E1). apply fx_mul_inv in Ev as ->. injection E1 as <-. rewrite Hb in E.
  rewrite (IH _ N) with (2 := E).
  - simpl. unfold worth_of, position_worth at 2. rewrite Eb.
    destruct (Z.eqb_spec (tp_token_index p) ti) as [<-|Hne].
    + rewrite lookup_insert_eq, Hm by left. simpl. lia.
    + rewrite lookup_insert_ne by done. lia.
  - intros q Hq. rewrite lookup_insert_ne; [apply Hm; by right|]. intros Heq. apply Np. rewrite Heq. by apply list_elem_of_fmap_2.
Qed.

(** The equity is what the account owns: if no two active positions are for the same token,
    the equity of every token is the value of its position at the oracle price plus the tokens
    in open orders, free or locked, at the oracle price; perp positions do not count. *)
Theorem equity_is_worth account m ti :
  NoDup (tp_token_index <$> Account.active_token_positions account) ->
  compute_equity account r = Done m ->
  default 0 (m !! ti) = total (position_worth ti) (Account.active_token_positions account) +
    total (orders_worth ti) (Account.active_serum3_orders account).
Proof.
  intros N E. unfold compute_equity in E. apply bind_Done_inv in E as (m1 & E1 & E).
  change (default 0 (m !! ti)) with (worth_of m ti). rewrite (orders_equity_worth _ _ _ ti E).
  rewrite (positions_equity_worth _ _ _ ti N) with (2 := E1); [done|]. intros p _. apply lookup_empty.
Qed.

End worth.

(** ** Concrete instances *)

(** A concrete instance of [equity_is_worth]: 100 quote tokens, and 30 in open orders, at a
    price of one. *)
Lemma equity_is_worth_witness :
  exists r m, Scanning.new spot_ais 1 5 = Done r /\ @compute_equity fixed_ref spot_account r = Done m /\
    default 0 (m !! 0) = fx_int 130.
Proof.
  destruct (Scanning.new spot_ais 1 5) as [r| | |] eqn:Er; [|vm_compute in Er; discriminate Er..].
  destruct (@compute_equity fixed_ref spot_account r) as [m| | |] eqn:Em;
    [|vm_compute in Er; injection Er as <-; vm_compute in Em; discriminate Em..].
  exists r, m. refine (conj eq_refl (conj Em _)).
  rewrite (@equity_is_worth fixed_ref fixed_ref_laws spot_ais 1 5 r Er spot_account m 0).
  - vm_compute in Er. injection Er as <-. vm_compute. reflexivity.
  - vm_compute. repeat (constructor; [intros Hin; repeat (apply elem_of_cons in Hin as [Hin|Hin]; [discriminate Hin|]); by apply elem_of_nil in Hin|]). constructor.
  - exact Em.
Defined.

(** A concrete instance of [airdrop_pays_once]: three calls pay once. *)
Lemma airdrop_pays_once_witness :
  exists a', foldM (fun a _ => airdrop (fun from to amount _ => token_ref from to amount) a)
    (mkAirdropAccounts 25000000000 7 false) (replicate 3 tt) = Done a' /\ ad_user a' = 10000000007.
Proof.
  eexists. split; [vm_compute; reflexivity|].
  destruct (airdrop_pays_once (fun from to amount _ => token_ref from to amount)) with
    (n := 3%nat) (a := mkAirdropAccounts 25000000000 7 false) (a' := mkAirdropAccounts 15000000000 10000000007 true) as [Hu _].
  - intros from to amount d from' to' E. apply (@transfer_inv token_ref token_ref_laws) in E as (-> & -> & _). done.
  - vm_compute. reflexivity.
  - exact Hu.
Defined.
