(* ===== verification/HealthClientSpec.v ===== *)
(** * Properties of the health queries

    What the searches of health/client.rs find, and that the amounts they suggest keep the
    health of the account above the target. *)

From stdpp Require Import base numbers option list.
From Stdlib Require Import ZArith Lia SpecFloat.
From S2P Require Import Prelude FixedPoint HealthType TokenPosition OrderTypes Bank MangoAccount HealthCache HealthLimits AccountRetriever RetrieverSpec TokenLiquidationSpec HealthClient.

Open Scope Z_scope.

(** Numbers whose sums fit into the type. *)
Definition searchable (x : Z) : Prop := - 2 ^ 126 <= x < 2 ^ 126.

(** A function of amounts between [lo] and [hi] that rises up to [peak] and falls from there,
    visibly so for amounts at least [grain] apart. *)
Record peaked (f : Z -> Z) (lo peak hi grain : Z) : Prop := {
  pk_range : lo <= peak <= hi;
  pk_rises x y : lo <= x -> x <= y -> y <= peak -> f x <= f y;
  pk_falls x y : peak <= x -> x <= y -> y <= hi -> f y <= f x;
  pk_visibly x y : peak <= x -> x + grain <= y -> y <= hi -> f y < f x
}.

Lemma half_bounds a : 2 * (a / 2) <= a <= 2 * (a / 2) + 1.
Proof. pose proof (Z.div_mod a 2 ltac:(lia)). pose proof (Z.mod_pos_bound a 2 ltac:(lia)). lia. Qed.

(** Introduces the bounds of all halves in the goal and the context. *)
Ltac halves :=
  repeat match goal with
  | |- context [?a / 2] => lazymatch goal with _ : 2 * (a / 2) <= a <= _ |- _ => fail | _ => pose proof (half_bounds a) end
  | _ : context [?a / 2] |- _ => lazymatch goal with _ : 2 * (a / 2) <= a <= _ |- _ => fail | _ => pose proof (half_bounds a) end
  end.

Section spec.
Context `{FixedLaws}.

Lemma fx_half_value : fx_half = Done (2 ^ 47).
Proof. unfold fx_half. rewrite fx_from_f64_law, fx_checked_from_f64_law. by vm_compute. Qed.

Definition tenth : Z := 28147497671066.

Lemma fx_tenth_value : fx_tenth = Done tenth.
Proof. unfold fx_tenth. rewrite fx_from_f64_law, fx_checked_from_f64_law. by vm_compute. Qed.

Lemma half_of s : 2 ^ 47 * s / fx_scale = s / 2.
Proof.
  unfold fx_scale. replace (2 ^ 48) with (2 ^ 47 * 2) by done. by rewrite Z.div_mul_cancel_l by lia.
Qed.

Lemma midpoint_ok l r : searchable l -> searchable r -> midpoint (2 ^ 47) l r = Done ((l + r) / 2).
Proof.
  unfold searchable. intros Hl Hr. unfold midpoint. pose proof (half_bounds (l + r)).
  rewrite fx_add_law by (unfold is_i128, I128_MIN, I128_MAX; lia). run.
  rewrite fx_mul_law; rewrite half_of; [done|]. unfold is_i128, I128_MIN, I128_MAX. lia.
Qed.

Lemma midpoint_inv l r m : midpoint (2 ^ 47) l r = Done m -> m = (l + r) / 2.
Proof. unfold midpoint. intros E. fx_inv. apply half_of. Qed.

(** ** Finding the maximum *)

Section maximum.
Context (f : Z -> Z) (fun_ : Z -> outcome Z) (lo peak hi grain min_step : Z).
Hypothesis Hf : forall x, lo <= x <= hi -> fun_ x = Done (f x).
Hypothesis Hpeak : peaked f lo peak hi grain.
Hypothesis Hlo : searchable lo.
Hypothesis Hhi : searchable hi.
Hypothesis Hgrain : 0 <= grain /\ 4 * grain + 4 <= min_step.

(** The peak is between the outer points and the middle one is half-way. *)
Record bracket_ok (s : Bracket) : Prop := {
  bo_order : lo <= br_left s /\ br_left s <= br_mid s /\ br_mid s <= br_right s /\ br_right s <= hi;
  bo_peak : br_left s <= peak <= br_right s;
  bo_centred : - 2 <= 2 * br_mid s - (br_left s + br_right s) <= 2;
  bo_left : br_left_value s = f (br_left s);
  bo_mid : br_mid_value s = f (br_mid s);
  bo_right : br_right_value s = f (br_right s)
}.

Definition width (s : Bracket) : Z := br_right s - br_left s.

(** Where the peak is relative to two points, from the values at them. *)
Lemma peak_before x y : lo <= x -> x <= y -> y <= hi -> f y < f x -> peak < y.
Proof.
  intros H1 H2 H3 H4. destruct (Z.lt_ge_cases peak y); [done|].
  pose proof (pk_rises _ _ _ _ _ Hpeak x y). lia.
Qed.

Lemma peak_after x y : x <= y -> y <= hi -> x + grain <= y -> f x <= f y -> x < peak.
Proof.
  intros H1 H2 H3 H4. destruct (Z.lt_ge_cases x peak); [done|].
  pose proof (pk_visibly _ _ _ _ _ Hpeak x y). lia.
Qed.

(** A point between two others is at least as high as the lower one of them. *)
Lemma between_values x y z : lo <= x -> x <= y -> y <= z -> z <= hi -> Z.min (f x) (f z) <= f y.
Proof.
  intros. destruct (Z.le_ge_cases y peak).
  - pose proof (pk_rises _ _ _ _ _ Hpeak x y). lia.
  - pose proof (pk_falls _ _ _ _ _ Hpeak y z). lia.
Qed.

Lemma find_maximum_step_ok s :
  bracket_ok s -> min_step < width s ->
  exists s', find_maximum_step (2 ^ 47) fun_ s = Done s' /\ bracket_ok s' /\ 2 * width s' <= width s + 2.
Proof.
  destruct s as [l lv m mv r rv]. unfold width. intros [Ho Hp Hc Hl Hm Hr] Hw. simpl in *. subst lv mv rv.
  unfold searchable in *.
  pose proof (half_bounds (l + m)) as B1. pose proof (half_bounds (m + r)) as B2.
  assert (Elm : midpoint (2 ^ 47) l m = Done ((l + m) / 2)) by (apply midpoint_ok; unfold searchable; lia).
  assert (Emr : midpoint (2 ^ 47) m r = Done ((m + r) / 2)) by (apply midpoint_ok; unfold searchable; lia).
  pose proof (Hf ((l + m) / 2) ltac:(lia)) as Flm. pose proof (Hf ((m + r) / 2) ltac:(lia)) as Fmr.
  pose proof (between_values l m r) as Im. pose proof (between_values l ((l + m) / 2) m) as Ilm.
  pose proof (between_values m ((m + r) / 2) r) as Imr.
  unfold find_maximum_step. set (lm := (l + m) / 2) in *. set (mr := (m + r) / 2) in *.
  destruct (Z.ltb_spec (f m) (f l)) as [L1|L1].
  { pose proof (peak_before l m ltac:(lia) ltac:(lia) ltac:(lia) L1).
    rewrite (proj2 (Z.leb_le (f r) (f m))) by lia. unfold assert_. run. rewrite Elm. run. rewrite Flm. run.
    eexists; split; [done|]; split; [constructor|]; simpl; try done; lia. }
  destruct (Z.leb_spec (f m) (f r)) as [L2|L2].
  { pose proof (peak_after m r ltac:(lia) ltac:(lia) ltac:(lia) L2).
    rewrite (proj2 (Z.leb_le (f l) (f m))) by lia. unfold assert_. run. rewrite Emr. run. rewrite Fmr. run.
    eexists; split; [done|]; split; [constructor|]; simpl; try done; lia. }
  rewrite Elm. run. rewrite Flm. run. rewrite (proj2 (Z.leb_le (f l) (f lm))) by lia. unfold assert_. run.
  destruct (Z.ltb_spec (f m) (f lm)) as [L3|L3].
  { pose proof (peak_before lm m ltac:(lia) ltac:(lia) ltac:(lia) L3).
    eexists; split; [done|]; split; [constructor|]; simpl; try done; lia. }
  rewrite Emr. run. rewrite Fmr. run. rewrite (proj2 (Z.leb_le (f r) (f mr))) by lia. unfold assert_. run.
  destruct (Z.leb_spec (f m) (f mr)) as [L4|L4].
  { pose proof (peak_after m mr ltac:(lia) ltac:(lia) ltac:(lia) L4).
    eexists; split; [done|]; split; [constructor|]; simpl; try done; lia. }
  pose proof (peak_before m mr ltac:(lia) ltac:(lia) ltac:(lia) L4).
  pose proof (peak_after lm m ltac:(lia) ltac:(lia) ltac:(lia) L3).
  eexists; split; [done|]; split; [constructor|]; simpl; try done; lia.
Qed.

Lemma find_maximum_loop_ok k s :
  bracket_ok s -> width s <= 2 ^ Z.of_nat k + 2 ->
  exists s', find_maximum_loop (S k) (2 ^ 47) min_step fun_ s = Done s' /\ bracket_ok s' /\ width s' <= min_step.
Proof.
  revert s. induction k as [|k IH]; intros s Hs Hw.
  all: assert (E : fx_sub (br_right s) (br_left s) = Done (width s)) by
    (apply fx_sub_law; destruct Hs; unfold searchable, is_i128, I128_MIN, I128_MAX in *; lia).
  all: rewrite (eq_refl : find_maximum_loop (S _) (2 ^ 47) min_step fun_ s =
    (w ← fx_sub (br_right s) (br_left s);
     if min_step <? w then s ← find_maximum_step (2 ^ 47) fun_ s; find_maximum_loop _ (2 ^ 47) min_step fun_ s
     else Done s)), E; run; destruct (Z.ltb_spec min_step (width s)) as [L|L]; [|eauto].
  - simpl in Hw. lia.
  - destruct (find_maximum_step_ok s Hs L) as (s' & -> & Hs' & Hw'). run. apply IH; [done|].
    rewrite Nat2Z.inj_succ, Z.pow_succ_r in Hw by lia. lia.
Qed.

End maximum.

(** C28: [find_maximum] keeps its promise: on a function with a single peak (which may be flat)
    between the two points, it ends, none of its assertions fires, and the point it returns is
    at most the step size away from the right end of the peak, with the value there; the value
    is at least those at both ends. *)
Theorem find_maximum_finds (f : Z -> Z) (fun_ : Z -> outcome Z) (lo peak hi grain min_step : Z) :
  (forall x, lo <= x <= hi -> fun_ x = Done (f x)) ->
  peaked f lo peak hi grain -> searchable lo -> searchable hi ->
  0 <= grain -> 4 * grain + 4 <= min_step ->
  exists x, find_maximum lo hi min_step fun_ = Done (x, f x) /\
    lo <= x <= hi /\ Z.abs (x - peak) <= min_step /\ f lo <= f x /\ f hi <= f x.
Proof.
  intros Hf Hp Hlo Hhi Hg Hs. pose proof (pk_range _ _ _ _ _ Hp) as Hr. pose proof (half_bounds (lo + hi)).
  unfold find_maximum. rewrite (proj2 (Z.leb_le lo hi)) by lia. unfold assert_. run.
  rewrite fx_half_value. run. rewrite midpoint_ok by done. run. rewrite !Hf by lia. run.
  destruct (find_maximum_loop_ok f fun_ lo peak hi grain min_step Hf Hp Hlo Hhi (conj Hg Hs) 129
    (mkBracket lo (f lo) ((lo + hi) / 2) (f ((lo + hi) / 2)) hi (f hi))) as (s & E & Ok & Hw).
  { constructor; simpl; try done; lia. }
  { unfold width, searchable in *. simpl. lia. }
  change (S 129) with FIND_MAXIMUM_FUEL in E. rewrite E. run.
  destruct Ok as [Ho Hk Hc -> -> ->]. unfold width in Hw.
  pose proof (pk_rises _ _ _ _ _ Hp lo (br_left s)). pose proof (pk_falls _ _ _ _ _ Hp (br_right s) hi).
  pose proof (between_values f lo peak hi grain Hp (br_left s) (br_mid s) (br_right s)).
  destruct (Z.ltb_spec (f (br_mid s)) (f (br_left s))); [|destruct (Z.ltb_spec (f (br_right s)) (f (br_mid s)))].
  all: eexists; split; [done|]; lia.
Qed.

(** For any function, the values a bracket holds are those at its points, and the outer ones
    are at least the values [v1] and [v2] they started with. *)
Definition bracket_values (fun_ : Z -> outcome Z) (v1 v2 : Z) (s : Bracket) : Prop :=
  fun_ (br_left s) = Done (br_left_value s) /\ fun_ (br_mid s) = Done (br_mid_value s) /\
  fun_ (br_right s) = Done (br_right_value s) /\ v1 <= br_left_value s /\ v2 <= br_right_value s.

Lemma find_maximum_step_values half fun_ v1 v2 s s' :
  find_maximum_step half fun_ s = Done s' -> bracket_values fun_ v1 v2 s -> bracket_values fun_ v1 v2 s'.
Proof.
  destruct s as [l lv m mv r rv]. unfold bracket_values, find_maximum_step. simpl. intros E Hs.
  repeat first [progress inv_run | case_match]; bool_to_prop; simpl; intuition lia.
Qed.

Lemma find_maximum_loop_values fuel half min_step fun_ v1 v2 s s' :
  find_maximum_loop fuel half min_step fun_ s = Done s' ->
  bracket_values fun_ v1 v2 s -> bracket_values fun_ v1 v2 s'.
Proof.
  revert s. induction fuel as [|fuel IH]; intros s E Hs; [done|]. simpl in E.
  apply bind_Done_inv in E as (w & Ew & E). destruct (min_step <? w); [|by injection E as <-].
  apply bind_Done_inv in E as (s1 & E1 & E). apply (IH s1 E). by eapply find_maximum_step_values.
Qed.

(** [find_maximum] on any function: the result is a value of the function, at least that at
    the left end. *)
Lemma find_maximum_result left_ right_ min_step fun_ x v :
  find_maximum left_ right_ min_step fun_ = Done (x, v) ->
  fun_ x = Done v /\ exists v0, fun_ left_ = Done v0 /\ v0 <= v.
Proof.
  unfold find_maximum. intros E. inv_run.
  match goal with E : find_maximum_loop _ _ _ _ _ = Done ?s |- _ =>
    apply (find_maximum_loop_values _ _ _ _ a2 a3) in E as (? & ? & ? & ? & ?) end; [|done].
  split; [|exists a2; split; [done|]]; repeat case_match; inv_run; simplify_eq; bool_to_prop; try done; lia.
Qed.

(** ** Binary search *)

(** The amount is one where the search started or one whose value reaches the target. *)
Definition reaches (fun_ : Z -> outcome Z) (target x : Z) : Prop :=
  exists v, fun_ x = Done v /\ target <= v.

(** No search with this step could do much better: the value is close to the target, or an
    amount less than a step away does not exceed the target. *)
Definition tight (fun_ : Z -> outcome Z) (target target_error min_step x : Z) : Prop :=
  (exists v, fun_ x = Done v /\ target < v < target + target_error) \/
  exists y w, Z.abs (y - x) < min_step /\ fun_ y = Done w /\ w <= target.

Lemma binary_search_loop_result n l r rv target err step fun_ x :
  binary_search_loop n l r rv target err step fun_ = Done x ->
  rv <= target -> err <= I128_MAX -> (exists w, fun_ r = Done w /\ w <= target) ->
  (x = l \/ reaches fun_ target x) /\ tight fun_ target err step x /\ Z.min l r <= x <= Z.max l r.
Proof.
  intros E Hrv Herr. revert l r E. induction n as [|n IH]; intros l r E Hr; [done|]. simpl in E.
  apply bind_Done_inv in E as (d & Ed & E). apply fx_sub_inv in Ed as ->.
  apply bind_Done_inv in E as (w & Ew & E). apply fx_abs_inv in Ew as ->.
  destruct (Z.ltb_spec (Z.abs (r - l)) step) as [L|L].
  { injection E as <-. split; [by left|]. split; [|lia]. right. destruct Hr as (w & Hw & Hle). eauto. }
  rewrite fx_half_value in E. run_in E.
  apply bind_Done_inv in E as (m & Em & E). apply midpoint_inv in Em as ->. pose proof (half_bounds (l + r)).
  apply bind_Done_inv in E as (v & Ev & E). rewrite fx_saturating_sub_law in E.
  unfold fx_saturate, I128_MIN, I128_MAX in *. destruct (_ && _) eqn:Hc in E; bool_to_prop.
  { injection E as <-. split; [right; exists v; split; [done|lia]|]. split; [left; exists v; split; [done|lia]|lia]. }
  rewrite (proj2 (Z.ltb_ge target rv)), xorb_false_r in E by done.
  destruct (Z.ltb_spec target v) as [L'|L'].
  - destruct (IH _ _ E Hr) as (Hx & Ht & Hb). split; [|split; [done|lia]].
    right. destruct Hx as [->|Hx]; [|done]. exists v. split; [done|lia].
  - destruct (IH _ _ E) as (Hx & Ht & Hb); [eauto|]. split; [done|]. split; [done|lia].
Qed.

(** What [binary_search] returns when the value at the left is above the target, or the value
    at the right is not. *)
Lemma binary_search_result l lv r target step fun_ x :
  binary_search l lv r target step fun_ = Done x ->
  (target < lv \/ exists w, fun_ r = Done w /\ w <= target) ->
  (x = l \/ reaches fun_ target x) /\ tight fun_ target tenth step x /\ Z.min l r <= x <= Z.max l r.
Proof.
  unfold binary_search. rewrite fx_tenth_value. run. intros E Hlv.
  apply bind_Done_inv in E as (rv & Er & E). apply bind_Done_inv in E as (u & Hu & E). apply require_inv in Hu.
  assert (rv <= target).
  { destruct Hlv as [Hlv|(w & Ew & Hw)]; [|congruence].
    destruct (Z.leb_spec lv target); [lia|]. simpl in Hu. by bool_to_prop. }
  apply (binary_search_loop_result _ _ _ _ _ _ _ _ _ E); [done|done|eauto].
Qed.

(** The loop ends if [n] halvings of the interval give one below the step. *)
Lemma binary_search_loop_returns n l r rv target err step (f : Z -> Z) fun_ :
  (forall x, l <= x <= r -> fun_ x = Done (f x)) -> l <= r -> searchable l -> searchable r ->
  r - l <= (step - 1) * 2 ^ Z.of_nat n -> exists x, binary_search_loop (S n) l r rv target err step fun_ = Done x.
Proof.
  intros Hf Hlr Hl Hr. revert l r Hf Hlr Hl Hr. induction n as [|n IH]; intros l r Hf Hlr Hl Hr Hw.
  all: rewrite (eq_refl : binary_search_loop (S _) l r rv target err step fun_ =
    (d ← fx_sub r l; w ← fx_abs d; if w <? step then Done l else half ← fx_half; new ← midpoint half l r;
     new_value ← fun_ new;
     let error := fx_saturating_sub new_value target in
     if (0 <? error) && (error <? err) then Done new
     else if xorb (target <? new_value) (target <? rv) then binary_search_loop _ new r rv target err step fun_
     else binary_search_loop _ l new rv target err step fun_)).
  all: rewrite fx_sub_law by (unfold searchable, is_i128, I128_MIN, I128_MAX in *; lia); run;
    rewrite fx_abs_law by (unfold searchable, is_i128, I128_MIN, I128_MAX in *; lia); run.
  all: destruct (Z.ltb_spec (Z.abs (r - l)) step) as [L|L]; [eauto|].
  - simpl in Hw. lia.
  - rewrite fx_half_value. run. rewrite midpoint_ok by done. run. pose proof (half_bounds (l + r)).
    rewrite Hf by lia. run. rewrite Nat2Z.inj_succ, Z.pow_succ_r in Hw by lia.
    cbv zeta. destruct (_ && _); [eauto|]. unfold searchable in *.
    destruct (xorb _ _); apply IH; try (intros; apply Hf); lia.
Qed.

(** C29: [binary_search] finds an amount on a falling bracket: if the value is above the target at
    the left end and not above it at the right end, and the interval is at most 2^49 steps
    wide, then it ends
    with an amount of the interval. That amount is the left end or its value reaches the
    target, and it is tight: its value exceeds the target by less than 0.1, or less than a
    step to its right there is an amount whose value does not exceed the target. *)
Theorem binary_search_finds (f : Z -> Z) (fun_ : Z -> outcome Z) (l lv r target step : Z) :
  (forall x, l <= x <= r -> fun_ x = Done (f x)) -> l <= r -> searchable l -> searchable r ->
  target < lv -> f r <= target -> r - l <= (step - 1) * 2 ^ 49 ->
  exists x, binary_search l lv r target step fun_ = Done x /\ l <= x <= r /\ (x = l \/ target <= f x) /\
    (target < f x < target + tenth \/ exists y w, Z.abs (y - x) < step /\ fun_ y = Done w /\ w <= target).
Proof.
  intros Hf Hlr Hl Hr Hlv Hrv Hw.
  destruct (binary_search_loop_returns 49 l r (f r) target tenth step f fun_ Hf Hlr Hl Hr Hw) as (x & E).
  assert (E' : binary_search l lv r target step fun_ = Done x).
  { unfold binary_search. rewrite fx_tenth_value. run. rewrite Hf by lia. run.
    rewrite (proj2 (Z.leb_le target lv)), (proj2 (Z.leb_le (f r) target)), orb_true_r by lia.
    unfold require. run. done. }
  destruct (binary_search_result _ _ _ _ _ _ _ E' (or_introl Hlv)) as (Hx & Ht & Hb). exists x. split; [done|]. split; [lia|].
  unfold reaches, tight in *. rewrite Hf in Hx, Ht by lia. split.
  - destruct Hx as [?|(v & [= <-] & ?)]; auto.
  - destruct Ht as [(v & [= <-] & ?)|?]; auto.
Qed.

(** ** Borrows, swaps and perp trades *)

(** A value above the smallest one is that of a cache. *)
Lemma value_or_min_inv (m : outcome HealthCache) target_fn v :
  (cache ← ignore_net_borrow_limit_errors m; value_or_min target_fn cache) = Done v -> I128_MIN < v ->
  exists cache, m = Done cache /\ target_fn cache = Done v.
Proof.
  intros E Hv. destruct m as [c|e| |]; simpl in E; try discriminate; [eauto|].
  destruct (is_anchor_error_with_code _ _); [|discriminate]. injection E as <-. lia.
Qed.

(** The borrow that [max_borrow_for_health_fn] suggests can be made: a suggested amount
    other than zero is positive, withdrawing it respects the net borrow limit of the bank, and
    the target function of the health cache after it is at least the given minimum. *)
Theorem max_borrow_keeps_target (c : HealthCache) (account : MangoAccount) (bank : Bank) (min_fn_value : Z)
    (target_fn : HealthCache -> outcome Z) (now_ts x : Z) :
  max_borrow_for_health_fn c account bank min_fn_value target_fn now_ts = Done x ->
  I128_MIN < min_fn_value -> x <> 0 ->
  0 < x /\ exists token cache v, token_info c (bk_token_index bank) = Done token /\
    cache_after_borrow c account bank (pr_oracle (ti_prices token)) now_ts x = Done cache /\
    target_fn cache = Done v /\ min_fn_value <= v.
Proof.
  unfold max_borrow_for_health_fn. intros E Hmin Hx. apply bind_Done_inv in E as (v & Ev & E).
  destruct (Z.leb_spec v min_fn_value) as [|L]; [by injection E as <-|].
  apply bind_Done_inv in E as (i & Ei & E). apply bind_Done_inv in E as (token & Et & E).
  do 5 apply bind_Done_inv in E as (? & ? & E).
  destruct (Z.leb_spec x4 0) as [|L']; [by injection E as <-|].
  rewrite Ev in E. run_in E. apply binary_search_result in E; [|by left]. destruct E as ([?|(w & Ew & Hw)] & _ & Hb); [done|].
  split; [lia|]. apply value_or_min_inv in Ew; [|lia]. destruct Ew as (cache & Ec & Ef).
  exists token, cache, w. split; [|done]. unfold token_info, token_info_index. rewrite Ei. run. done.
Qed.

(** [scan_right_until_less_than] moves on from the start only if the value there is larger. *)
Lemma scan_right_result start target fun_ x :
  scan_right_until_less_than start target fun_ = Done x ->
  x = start \/ exists v, fun_ start = Done v /\ target < v.
Proof.
  unfold scan_right_until_less_than. cbn [scan_right_loop]. intros E. apply bind_Done_inv in E as (v & Ev & E).
  destruct (Z.leb_spec v target); [injection E as <-; auto|eauto].
Qed.

(** The search to the right of the maximum gives zero or an amount that reaches the minimum. *)
Lemma swap_amount_result c account sb tb price min_fn_value now_ts target_fn slope a m x :
  swap_amount_right_of_maximum c account sb tb price min_fn_value now_ts target_fn slope a m = Done x ->
  fn_value_after_swap c account sb tb price now_ts target_fn a = Done m -> 0 <= a -> min_fn_value < m ->
  0 <= x /\ (x = 0 \/ reaches (fn_value_after_swap c account sb tb price now_ts target_fn) min_fn_value x).
Proof.
  unfold swap_amount_right_of_maximum. set (fn := fn_value_after_swap _ _ _ _ _ _ _). intros E Em Ha Hm.
  apply bind_Done_inv in E as (cache & _ & E). apply bind_Done_inv in E as (h & _ & E).
  assert (Ra : reaches fn min_fn_value a) by (exists m; split; [done|lia]).
  destruct (h =? 0); [injection E as <-; auto|]. destruct (h <? 0); [injection E as <-; auto with lia|].
  apply bind_Done_inv in E as (q & _ & E). apply bind_Done_inv in E as (z & _ & E).
  apply bind_Done_inv in E as (rb & Es & E). apply bind_Done_inv in E as (st & _ & E).
  apply bind_Done_inv in E as (y & Ey & E). apply bind_Done_inv in E as (u & Hu & E). injection E as ->.
  assert (0 <= x) by (destruct (Z.leb_spec 0 x); done). split; [done|]. right. destruct (Z.eqb_spec rb z).
  - apply binary_search_result in Ey; [|by left]. destruct Ey as ([->|Hr] & _); done.
  - apply bind_Done_inv in Ey as (v & Ev & Ey). apply scan_right_result in Es as [|(w & Ew & L)]; [done|].
    fold fn in Ew. rewrite Ev in Ew. injection Ew as <-.
    apply binary_search_result in Ey; [|by left]. destruct Ey as ([->|Hr] & _); [|done]. exists v. split; [done|lia].
Qed.

(** C30: What [max_swap_source_for_health_fn] suggests: the amount is not negative. It is zero, or
    the target function of the health cache after the swap is at least the given minimum, or
    it is at least what it is without a swap; or it is the largest number, which is returned,
    without a claim on the health after it, only if the final slope of health, with the asset
    weight of the target not scaled by deposits, is not negative. *)
Theorem max_swap_keeps_target (c : HealthCache) (account : MangoAccount) (source_bank target_bank : Bank)
    (price min_fn_value : Z) (target_fn : HealthCache -> outcome Z) (now_ts x : Z) :
  max_swap_source_for_health_fn c account source_bank target_bank price min_fn_value target_fn now_ts = Done x ->
  let fn := fn_value_after_swap c account source_bank target_bank price now_ts target_fn in
  0 <= x /\
  ((x = I128_MAX /\ exists source target slope, token_info c (bk_token_index source_bank) = Done source /\
      token_info c (bk_token_index target_bank) = Done target /\
      swap_final_health_slope source target price = Done slope /\ 0 <= slope) \/
   x = 0 \/ reaches fn min_fn_value x \/
   exists v0 v, fn 0 = Done v0 /\ fn x = Done v /\ v0 <= v).
Proof.
  intros E fn. unfold max_swap_source_for_health_fn in E.
  apply bind_Done_inv in E as (i & Ei & E). apply bind_Done_inv in E as (j & Ej & E).
  apply bind_Done_inv in E as (source & Es & E). apply bind_Done_inv in E as (target & Et & E).
  apply bind_Done_inv in E as ([mr sr] & _ & E). do 5 apply bind_Done_inv in E as (? & _ & E).
  apply bind_Done_inv in E as (slope & Esl & E). destruct (Z.leb_spec 0 slope) as [L|L].
  { injection E as <-. split; [done|]. left. split; [done|]. exists source, target, slope.
    unfold token_info, token_info_index. rewrite Ei, Ej. by run. }
  apply bind_Done_inv in E as (rm & _ & E). apply bind_Done_inv in E as (st & _ & E).
  apply bind_Done_inv in E as ([a m] & Em & E). apply find_maximum_result in Em as (Ea & v0 & E0 & H0').
  apply bind_Done_inv in E as (u & Hu & E). assert (0 <= a) by (destruct (Z.leb_spec 0 a); done).
  destruct (Z.leb_spec m min_fn_value).
  - injection E as <-. split; [done|]. right; right; right. eauto 10.
  - destruct (swap_amount_result _ _ _ _ _ _ _ _ _ _ _ _ E Ea) as [? [?|?]]; auto.
Qed.

(** Rounding a whole number of lots changes nothing. *)
Lemma whole_lots n x k : fx_from_int n = Done x -> is_i64 n -> (r ← fx_round_to_zero x; fx_to_i64 r) = Done k -> k = n.
Proof.
  intros E Hn Ek. fx_inv. unfold fx_int. rewrite Z.quot_mul by done. by rewrite Z.div_mul.
Qed.

(** A number of lots the search accepts, rounded, gives the ratio the search saw. *)
Lemma trunc_reaches c i d bls price target x k :
  reaches (health_ratio_after_trade_trunc c i d bls price) target x ->
  (r ← fx_round_to_zero x; fx_to_i64 r) = Done k ->
  reaches (health_ratio_after_trade c i d bls price) target k.
Proof.
  intros (v & E & Hv) Ek. exists v. split; [|done]. unfold health_ratio_after_trade_trunc in E. inv_run. congruence.
Qed.

(** The number of lots: the closing trade if that is the best one can do, or the start of the
    search, or an amount whose ratio reaches the minimum. *)
Lemma perp_base_lots_result c i si d bls price r0 c1 r1 slope min_ratio x c1x :
  perp_base_lots c i si d bls price r0 c1 r1 slope min_ratio = Done (Some x) ->
  0 <= min_ratio -> fx_from_int c1 = Done c1x ->
  x = 0 \/ (x = c1x /\ (min_ratio <= r1 \/ (r0 <= min_ratio /\ r0 <= r1))) \/
  reaches (health_ratio_after_trade_trunc c i d bls price) min_ratio x.
Proof.
  unfold perp_base_lots. intros E Hmin Ec. rewrite Ec in E. run_in E. destruct (_ && _) eqn:Hc; bool_to_prop.
  { injection E as <-. destruct (Z.leb_spec r0 r1); auto 10. }
  destruct (Z.leb_spec min_ratio r1) as [L|L].
  - apply bind_Done_inv in E as (sc & _ & E). apply bind_Done_inv in E as (sc' & _ & E).
    apply bind_Done_inv in E as (h & _ & E). destruct (h <=? 0); [done|].
    apply bind_Done_inv in E as (z & _ & E). apply bind_Done_inv in E as (zr & Ez & E).
    apply bind_Done_inv in E as (u & Hu & E). apply bind_Done_inv in E as (n & En & E). injection E as ->.
    assert (zr <= 0) by (destruct (Z.leb_spec zr 0); done).
    apply binary_search_result in En; [|right; exists zr; split; [done|lia]]. destruct En as ([?|?] & _); auto.
  - apply bind_Done_inv in E as (n & En & E). injection E as ->.
    apply andb_false_iff in Hc as [Hc|Hc]; bool_to_prop; [|lia].
    apply binary_search_result in En; [|by left]. destruct En as ([?|?] & _); auto.
Qed.

(** C31: The perp trade that [max_perp_for_health_ratio] suggests: for a minimum ratio that is not
    negative, the number of lots is zero, or the health ratio after the trade is at least the
    minimum, or the ratio is not above the minimum before the trade either and the trade,
    which closes the position, does not lower it; or it is [i64::MAX], which is returned,
    without a claim on the ratio after it, only if the final slope of health is not
    negative. *)
Theorem max_perp_keeps_ratio (c : HealthCache) (perp_market_index price : Z) (side : Side) (min_ratio x : Z) :
  max_perp_for_health_ratio c perp_market_index price side min_ratio = Done x -> 0 <= min_ratio ->
  x = 0 \/ exists i info r0, HealthCache.perp_info_index c perp_market_index = Done i /\
    hc_perp_infos c !! i = Some info /\ health_ratio c Init = Done r0 /\
    let ratio_after := health_ratio_after_trade c i (perp_direction side) (fx_int (pi_base_lot_size info)) price in
    (x = I64_MAX /\ exists slope, perp_final_health_slope info (perp_direction side) price = Done slope /\ 0 <= slope)
    \/ reaches ratio_after min_ratio x
    \/ (x = Z.abs (pi_base_lots info) /\ r0 <= min_ratio /\ reaches ratio_after r0 x).
Proof.
  intros E Hmin. unfold max_perp_for_health_ratio in E. apply bind_Done_inv in E as (r0 & Er0 & E).
  destruct (r0 <? 0); [injection E as <-; by left|].
  apply bind_Done_inv in E as (i & Ei & E). apply bind_Done_inv in E as (info & Eo & E). apply unwrap_inv in Eo.
  apply bind_Done_inv in E as (bls & Eb & E). apply fx_from_int_inv in Eb as ->.
  apply bind_Done_inv in E as (si & _ & E). apply bind_Done_inv in E as (sinfo & _ & E).
  apply bind_Done_inv in E as (slope & Es & E). destruct (Z.leb_spec 0 slope) as [L|L].
  { injection E as <-. right. exists i, info, r0. split_and!; [done..|]. left. eauto. }
  apply bind_Done_inv in E as (lwp & _ & E). apply bind_Done_inv in E as (sl & _ & E). cbv zeta in E.
  apply bind_Done_inv in E as ([c1 r1] & Ec1 & E). apply bind_Done_inv in E as ([b|] & Eo' & E); [|injection E as <-; by left].
  assert (Hc1 : c1 = 0 \/ (c1 = Z.abs (pi_base_lots info) /\ is_i64 c1 /\
    health_ratio_after_trade c i (perp_direction side) (fx_int (pi_base_lot_size info)) price c1 = Done r1)).
  { destruct (_ || _) in Ec1; [|injection Ec1 as <- _; by left]. apply bind_Done_inv in Ec1 as (k & Ek & Ec1).
    apply i64_inv in Ek as [-> Hk]. apply bind_Done_inv in Ec1 as (r & Er & Ec1). injection Ec1 as <- <-. auto. }
  assert (exists c1x, fx_from_int c1 = Done c1x) as [c1x Ec].
  { unfold perp_base_lots in Eo'. apply bind_Done_inv in Eo' as (c1x & ? & _). eauto. }
  assert (E0 : forall y, b = fx_int y -> is_i64 y -> x = y).
  { intros y -> Hy. eapply whole_lots; [|done|done]. apply fx_from_int_law.
    unfold fx_int, fx_scale, is_i128, I128_MIN, I128_MAX. mlia. }
  destruct (perp_base_lots_result _ _ _ _ _ _ _ _ _ _ _ _ _ Eo' Hmin Ec) as [Hb|[[Hb Hr]|Hb]].
  - left. apply (E0 0); [done|mlia].
  - apply fx_from_int_inv in Ec as ->. destruct Hc1 as [->|(Habs & Hi & Hr1)]; [left; apply E0; [done|mlia]|].
    right. exists i, info, r0. split_and!; [done..|]. right. rewrite (E0 c1) by done.
    destruct Hr as [Hr|[Hr Hr']]; [left; exists r1; auto|]. right. split; [done|]. split; [done|]. exists r1; auto.
  - right. exists i, info, r0. split_and!; [done..|]. right; left. by eapply trunc_reaches.
Qed.

(** ** Liquidation *)

Section liquidation.
Context {R : Type} `{!AccountRetriever R}.

Lemma add_serum3_flag (r : R) b c i s c' i' :
  add_serum3 r b (c, i) s = Done (c', i') -> hc_being_liquidated c' = hc_being_liquidated c.
Proof.
  unfold add_serum3, add_balance_spot, set_token_info. intros E. inv_run. repeat case_match; inv_run; simplify_eq; done.
Qed.

Lemma add_perp_flag (r : R) g b c i p c' i' :
  add_perp r g b (c, i) p = Done (c', i') -> hc_being_liquidated c' = hc_being_liquidated c.
Proof. unfold add_perp. intros E. inv_run. repeat case_match; inv_run; simplify_eq; done. Qed.

(** The cache of an account has its liquidation flag. *)
Lemma new_health_cache_flag account (r : R) now_ts c :
  new_health_cache account r now_ts = Done c -> hc_being_liquidated c = Fixed.being_liquidated (ma_fixed account).
Proof.
  unfold new_health_cache, new_health_cache_impl. intros E. run_in E.
  apply bind_Done_inv in E as ([ti n] & _ & E). apply bind_Done_inv in E as ([c1 n1] & E1 & E).
  apply bind_Done_inv in E as ([c2 n2] & E2 & E). injection E as <-.
  set (P := fun '((c, _) : HealthCache * nat) => hc_being_liquidated c = Fixed.being_liquidated (ma_fixed account)).
  apply (foldM_ind P) in E1; [|done|].
  2: { intros [k j] s [k' j'] _ Hk Es. apply add_serum3_flag in Es. simpl in *. congruence. }
  apply (foldM_ind P) in E2; [done|done|].
  intros [k j] s [k' j'] _ Hk Es. apply add_perp_flag in Es. simpl in *. congruence.
Qed.

(** Clients and the program agree on who may be liquidated. For the cache of an account,
    [is_liquidatable] answers whenever the program's [check_liquidatable] does; it is true of every
    account the program liquidates, and of no other, except one in liquidation whose
    liquidation-end health is between -1 and 0, which the program lets go. *)
Theorem is_liquidatable_agrees (account : MangoAccount) (r : R) (now_ts : Z) (c : HealthCache) (account' : MangoAccount)
    (answer : Account.CheckLiquidatable) :
  new_health_cache account r now_ts = Done c -> Account.check_liquidatable account c = Done (account', answer) ->
  exists b, is_liquidatable c = Done b /\ (answer = Account.Liquidatable -> b = true) /\
    (b = true -> answer = Account.Liquidatable \/
      (answer = Account.BecameNotLiquidatable /\ Fixed.being_liquidated (ma_fixed account) = true /\
       exists h, health c LiquidationEnd = Done h /\ - fx_one < h < 0)).
Proof.
  intros Ec El. unfold is_liquidatable. rewrite (new_health_cache_flag _ _ _ _ Ec).
  unfold Account.check_liquidatable, health_of, health_cache_source in El.
  destruct (Fixed.being_liquidated (ma_fixed account)) eqn:F; apply bind_Done_inv in El as (h & Eh & El); rewrite Eh; run.
  - unfold Fixed.maybe_recover_from_being_liquidated in El. rewrite F in El. simpl in El.
    exists (h <? 0). split; [done|].
    destruct (Z.ltb_spec (- fx_one) h) as [L|L]; injection El as <- <-; destruct (Z.ltb_spec h 0); split;
      try done; auto; [eauto 10|]. unfold fx_one, fx_scale in *. lia.
  - exists (h <? 0). split; [done|]. destruct (Z.leb_spec 0 h), (Z.ltb_spec h 0); try lia; injection El as <- <-; split; try done; auto.
Qed.

End liquidation.

End spec.

(** The witness of C28 of [find_maximum_finds]: a tent with its top at 1000 in steps of 2^-48. *)
Lemma find_maximum_finds_witness : exists x, @find_maximum fixed_ref 0 5000 8 (fun x => Done (- Z.abs (x - 1000))) =
  Done (x, - Z.abs (x - 1000)) /\ 0 <= x <= 5000 /\ Z.abs (x - 1000) <= 8 /\ - 1000 <= - Z.abs (x - 1000)
  /\ - 4000 <= - Z.abs (x - 1000).
Proof.
  apply (@find_maximum_finds fixed_ref fixed_ref_laws (fun x => - Z.abs (x - 1000)) _ 0 1000 5000 1 8);
    unfold searchable; try lia; [done|]. constructor; lia.
Defined.

(** The witness of C29 of [binary_search_finds]: the last amount at which a line is above 3. *)
Lemma binary_search_finds_witness : exists x,
  @binary_search fixed_ref 0 (fx_int 10) (fx_int 20) (fx_int 3) fx_one (fun x => Done (fx_int 10 - x)) = Done x /\
  0 <= x <= fx_int 20 /\ (x = 0 \/ fx_int 3 <= fx_int 10 - x) /\
  (fx_int 3 < fx_int 10 - x < fx_int 3 + tenth \/
   exists y w, Z.abs (y - x) < fx_one /\ Done (fx_int 10 - y) = Done w /\ w <= fx_int 3).
Proof.
  apply (@binary_search_finds fixed_ref fixed_ref_laws (fun x => fx_int 10 - x) (fun x => Done (fx_int 10 - x)) 0
    (fx_int 10) (fx_int 20) (fx_int 3) fx_one); [done|unfold searchable, fx_int, fx_one, fx_scale; lia..].
Defined.

(** An account with 100 units of token 0 and a position of token 1, and its cache for a price
    of token 1. *)
Definition client_account : MangoAccount :=
  liqee_account <| ma_tokens := [position_of 0 (fx_int 100); position_of 1 0; Token.default] |>.

Definition client_cache (price : Z) : HealthCache :=
  mkHealthCache
    [mkTokenInfo 0 (3 * (fx_scale / 4)) (fx_scale / 2) (fx_scale / 2) (5 * (fx_scale / 4)) (3 * (fx_scale / 2))
       (3 * (fx_scale / 2)) (new_single_price fx_one) (fx_int 100) true;
     mkTokenInfo 1 (3 * (fx_scale / 4)) (fx_scale / 2) (fx_scale / 2) (5 * (fx_scale / 4)) (3 * (fx_scale / 2))
       (3 * (fx_scale / 2)) (new_single_price price) 0 true] [] [] false.

(** A concrete instance of [max_borrow_keeps_target]: almost 22 units may be borrowed at price 1
    if the health ratio is to stay above 50. *)
Lemma max_borrow_keeps_target_witness :
  0 < 6157265115545598 /\ exists token cache v,
    @token_info (client_cache fx_one) (bk_token_index liab_bank_1) = Done token /\
    @cache_after_borrow fixed_ref (client_cache fx_one) client_account liab_bank_1 (pr_oracle (ti_prices token)) 1000
      6157265115545598 = Done cache /\
    @health_ratio fixed_ref cache Init = Done v /\ fx_int 50 <= v.
Proof.
  apply (@max_borrow_keeps_target fixed_ref fixed_ref_laws (client_cache fx_one) client_account liab_bank_1 (fx_int 50)
    (fun c => @health_ratio fixed_ref c Init) 1000); [vm_compute; reflexivity|done|done].
Defined.

(** The limit of the search for a borrow divides health by the weight of the token, but not by
    its price. Below a price of one it ends too early, and the query fails: here the account
    could borrow 44 units at price 1/2, the search covers only 33. *)
Lemma max_borrow_fails_at_low_price :
  @max_borrow_for_health_ratio fixed_ref (client_cache (fx_scale / 2)) client_account liab_bank_1 (fx_int 50) 1000 =
    Fail error_msg /\
  exists cache v,
    @cache_after_borrow fixed_ref (client_cache (fx_scale / 2)) client_account liab_bank_1 (fx_scale / 2) 1000
      (fx_int 44) = Done cache /\
    @health_ratio fixed_ref cache Init = Done v /\ fx_int 50 < v.
Proof. split; [vm_compute; reflexivity|]. do 2 eexists. split_and!; [vm_compute; reflexivity..|done]. Qed.

(** The witness of C30 of [max_swap_keeps_target]: borrowing token 1 to buy token 0. *)
Lemma max_swap_keeps_target_witness :
  let fn := @fn_value_after_swap fixed_ref (client_cache fx_one) client_account liab_bank_1 asset_bank_0 fx_one 1000
              (fun c => @health_ratio fixed_ref c Init) in
  0 <= 8026434882764800 /\
  ((8026434882764800 = I128_MAX /\ exists source target slope,
      @token_info (client_cache fx_one) (bk_token_index liab_bank_1) = Done source /\
      @token_info (client_cache fx_one) (bk_token_index asset_bank_0) = Done target /\
      @swap_final_health_slope fixed_ref source target fx_one = Done slope /\ 0 <= slope) \/
   8026434882764800 = 0 \/ reaches fn (fx_int 50) 8026434882764800 \/
   exists v0 v, fn 0 = Done v0 /\ fn 8026434882764800 = Done v /\ v0 <= v).
Proof.
  apply (@max_swap_keeps_target fixed_ref fixed_ref_laws (client_cache fx_one) client_account liab_bank_1 asset_bank_0
    fx_one (fx_int 50) (fun c => @health_ratio fixed_ref c Init) 1000). vm_compute. reflexivity.
Defined.

(** The sample account of [sample_cache] without open perp orders. *)
Definition trader_cache : HealthCache :=
  sample_cache <| hc_perp_infos := [(perp_info_9 <| pi_bids_base_lots := 0 |>) <| pi_asks_base_lots := 0 |>] |>.

(** The witness of C31 of [max_perp_keeps_ratio]: the account may sell five lots. *)
Lemma max_perp_keeps_ratio_witness :
  5 = 0 \/ exists i info r0, HealthCache.perp_info_index trader_cache 9 = Done i /\
    hc_perp_infos trader_cache !! i = Some info /\ @health_ratio fixed_ref trader_cache Init = Done r0 /\
    let ratio_after := @health_ratio_after_trade fixed_ref trader_cache i (-1) (fx_int (pi_base_lot_size info)) (fx_int 2) in
    (5 = I64_MAX /\ exists slope, @perp_final_health_slope fixed_ref info (-1) (fx_int 2) = Done slope /\ 0 <= slope)
    \/ reaches ratio_after (fx_int 10) 5
    \/ (5 = Z.abs (pi_base_lots info) /\ r0 <= fx_int 10 /\ reaches ratio_after r0 5).
Proof.
  apply (@max_perp_keeps_ratio fixed_ref fixed_ref_laws trader_cache 9 (fx_int 2) Ask (fx_int 10) 5);
    [vm_compute; reflexivity|done].
Defined.

(** With open bids, selling lowers health less at first than the slope the code assumes, because
    the bids would buy the sold lots back. The estimate of the amount at which health is zero
    is then too small and the assertion about it panics. *)
Lemma max_perp_panics_with_open_bids :
  @max_perp_for_health_ratio fixed_ref sample_cache 9 (fx_int 2) Ask (fx_int 10) = Panic /\
  exists v, @health_ratio_after_trade fixed_ref sample_cache 0 (-1) (fx_int 10) (fx_int 2) 4 = Done v /\ fx_int 10 < v.
Proof. split; [vm_compute; reflexivity|]. eexists. split; [vm_compute; reflexivity|done]. Qed.

(** A concrete instance of [is_liquidatable_agrees]: a healthy account. *)
Lemma is_liquidatable_agrees_witness :
  exists r c a answer b,
    @new_health_cache fixed_ref _ (@fixed_order_retriever fixed_ref) health_account r 1000 = Done c /\
    @Account.check_liquidatable HealthCache (@health_cache_source fixed_ref) health_account c = Done (a, answer) /\
    @is_liquidatable fixed_ref c = Done b /\ (answer = Account.Liquidatable -> b = true).
Proof.
  destruct (new_fixed_order_account_retriever
    (health_accounts health_banks health_oracles health_markets health_oracles []) health_account 50) as [r| | |] eqn:Er;
    [|vm_compute in Er; discriminate Er..].
  destruct (@new_health_cache fixed_ref _ (@fixed_order_retriever fixed_ref) health_account r 1000) as [c| | |] eqn:Ec;
    [|exfalso; vm_compute in Er; injection Er as <-; vm_compute in Ec; discriminate Ec..].
  destruct (@Account.check_liquidatable HealthCache (@health_cache_source fixed_ref) health_account c) as [[a answer]| | |]
    eqn:El;
    [|exfalso; vm_compute in Er; injection Er as <-; vm_compute in Ec; injection Ec as <-; vm_compute in El; discriminate El..].
  destruct (@is_liquidatable_agrees fixed_ref _ (@fixed_order_retriever fixed_ref) health_account r 1000 c a answer Ec El)
    as (b & Eb & Hb & _).
  exists r, c, a, answer, b. exact (conj Ec (conj El (conj Eb Hb))).
Defined.

(** The documentation of [cache_after_swap] says that it fails if the withdrawal exceeds the net
    borrow limit. It does not: the bank may lend nothing in this window, and the swap works. *)
Lemma cache_after_swap_ignores_net_borrow_limit :
  let bank := (liab_bank_1 <| bk_net_borrow_limit_per_window_quote := 0 |>) <| bk_net_borrows_in_window := 1 |> in
  @check_net_borrows fixed_ref bank fx_one = Fail (EMango BankNetBorrowsLimitReached) /\
  exists cache, @cache_after_swap fixed_ref (client_cache fx_one) client_account bank asset_bank_0 fx_one fx_one 950 =
    Done cache.
Proof. split; [vm_compute; reflexivity|]. eexists. vm_compute. reflexivity. Qed.
